(* ===== verification/_CoqProject ===== *)
-Q . S2P
Prelude.v
Riscv.v
Kalloc.v
Vm.v
Uvm.v
Teardown.v
Image.v
FileLayer.v
Paging.v
PagingOk.v
PagingClaims.v
Machine.v
Witnesses.v
Trap.v
TrapClaims.v
Kvm.v
KvmClaims.v
Bakery.v
Bufcache.v
Virtio.v
Log.v
LogClaims.v
Bio.v
LogWitnesses.v
Grep.v
Kstring.v
Exec.v
ExecOk.v
ExecRun.v
ExecClaims.v
SysExec.v
SysExecClaims.v
ExecWitnesses.v
Pipe.v
Sniffer.v
Sh.v
ShRun.v
Proc.v
ProcClaims.v
Lock.v
Sleeplock.v
ProcWitnesses.v
Umalloc.v
Console.v
Uart.v
Printf.v
Utils.v
Txn.v
Fs.v
FsBlocks.v
FsInode.v
FsData.v
FsWrite.v
FsTable.v
FsTx.v
File.v
FileClaims.v
FsClaims.v
FsRefs.v
FsDir.v
FsPath.v
FsTree.v
FsOps.v
Sysfile.v
FsCalls.v
FsCreate.v
FsOpen.v
FsWitnesses.v
Mkfs.v
MkfsOk.v
MkfsClaims.v
MkfsBoot.v
