(* ===== verification/Prelude.v ===== *)
(** * Verification of the operating systems and networks suite

    The repository holds three programs:
    - [xv6-Lazy-Allocation]: the xv6 teaching kernel for RISC-V, extended with
      demand paging, lazy [sbrk] and per-process swap files, and its user
      programs;
    - [Concurrent-Bakery-Sim]: a simulation of a bakery with threads, locks and
      semaphores;
    - [Terminal-Packet-Sniffer]: a packet capture tool with protocol decoding.

    This development translates their C code into executable definitions and
    proves what makes each part correct.  Below: how the code is represented,
    which file models which part, what the theorems show, and what is left out.

    ** Representation

    A function of the kernel is a computation in the outcome monad [M St A] of
    this file: it maps a state to [Ret] (a value and the new state), [Panic],
    [Exit] (the process ends), [Undef] (an operation C leaves undefined) or
    [NoFuel].  Integers are [Z] with wrap-around written out ([u64], [u32],
    [u16], [u8], [i32]); memory is a function from addresses to bytes; arrays
    and tables are functions from indices, updated by [upd]; strings are lists
    of characters before the NUL.  Every [panic] of the source is a [Panic] of
    the model and every error return is a return value.

    Loops over data whose length the code bounds are structural; the others take
    fuel.  No theorem says only "if it returns": each proves that the fuel it
    names is enough (for example [fuel_for] of Umalloc from the size of the heap,
    [INPUT_BUF_SIZE + 1] in the console, the length of the command line in the
    parser, the number of the blocks of a file in [readi] and [writei]), or that
    the function returns for every fuel above a bound.

    Concurrency: a section of code under one lock is one step of a step relation,
    and the theorems quantify over all interleavings of such steps (process
    table, sleep locks, pipes, log, disk driver, bakery).  Lock.v goes below that
    level: it runs [acquire] and [release] one memory access at a time on several
    CPUs and shows that sections under a lock exclude each other, which is what
    the other files rest on.  Memory is sequentially consistent, as the fences
    in the code demand of the hardware.  Operations of the file system run to
    completion: a sleep lock that is already taken would block the caller, and the
    theorems show that an operation never meets one.

    ** Files and what they show

    _Memory management_.  Riscv (macros of riscv.h and memlayout.h), Kalloc
    (kalloc.c), Vm and Uvm (page tables of vm.c), Paging (evict_page,
    handle_pgfault, the page-fault branch of usertrap, sbrk, copyin, copyout),
    FileLayer (the interface through which paging uses files), PagingOk and
    PagingClaims (invariant and theorems), Machine and Witnesses (a concrete
    machine).  The allocator refines a stack of pages; mapping, unmapping,
    copying and freeing keep frames and page-table entries in one-to-one
    correspondence; a page fault maps the right bytes with the right permission;
    eviction is FIFO and a page that was swapped out comes back unchanged.  The
    invariant [vm_inv] says which page is a table of which page table at which
    level and prefix, that every table hangs where its prefix says, and that
    free pages are neither tables nor frames.  Teardown (freewalk, uvmfree,
    proc_freepagetable) releases exactly the pages of one page table; Image is
    the construction of a new page table beside the others.  Kvm and KvmClaims
    (kvmmake, kvminit, kvminithart of vm.c, proc_mapstacks of proc.c): the kernel's
    page table after boot maps exactly what it should, with at most 102 table
    pages, and nothing is both writable and executable.

    _Traps_.  Trap and TrapClaims (start.c, plic.c, trap.c, the dispatch of
    syscall.c, with the entry and exit code of trampoline.S and kernelvec.S as
    register transfers): a page fault restarts the instruction on the right page,
    a user trap returns with the registers that its cause calls for, interrupts
    in the kernel are not noticed, unknown traps are contained.

    _exec_.  Exec, ExecOk, ExecRun, ExecClaims (kexec of exec.c), SysExec and
    SysExecClaims (sys_exec, fetchaddr, fetchstr), ExecWitnesses.  A failed call
    leaves memory and image as they were; a successful one replaces the image,
    with the caller's strings as arguments on the new stack, and frees every
    other page it took.  Inodes, transactions and the file table are the
    interface [ExecFiles] with the laws [ExecFilesOk]; the hypothesis [exec_fits]
    bounds the headers of executables, which the code does not test.

    _Processes_.  Proc and ProcClaims (proc.c: allocation, fork, exit, wait, kill,
    sleep, wakeup, scheduler), Lock (spinlock.c), Sleeplock (sleeplock.c),
    ProcWitnesses.  Over all interleavings: parents and children stay consistent,
    a parent that waits is woken, a runnable process is run, locks exclude.

    _Storage_.  Virtio (virtio_disk.c), Bio (bio.c) behind the interface of
    Bufcache, Log, LogClaims (log.c), Txn (a transaction as its clients see it),
    Fs (fs.c), FsBlocks, FsInode, FsData, FsWrite, FsTable, FsTx, FsClaims (block
    map, contents, life of an inode), FsRefs, FsDir, FsPath, FsTree, FsOps
    (references, directories, paths, link counts), File and FileClaims (file.c),
    Sysfile, FsCalls, FsCreate, FsOpen (sysfile.c), Pipe (pipe.c), LogWitnesses
    and FsWitnesses; Mkfs, MkfsOk, MkfsClaims, MkfsBoot (mkfs.c, the builder of
    the disk image).  A commit is atomic across a crash at any disk write, and
    recovery is idempotent; on top of it a write, an unlink, a creation and the
    last close are atomic; reading and writing act on byte strings; names form a
    map from which link counts follow; a pipe is a byte stream; the image that
    mkfs writes is a consistent file system from which the kernel boots.

    _Console_.  Uart (uart.c), Console (console.c), Printf (both printf.c).

    _User programs_.  Sh and ShRun (sh.c), Grep (grep.c), Umalloc (umalloc.c),
    Kstring (string.c, ulib.c), Utils (cat, wc, echo, ls, rm, mkdir, ln, kill).  The
    parser of the shell decides its grammar and
    commands get exactly the descriptors that the command line says; grep prints
    the lines that match; live blocks of malloc never overlap.

    _The other programs_.  Bakery (main.c of the bakery): capacity, order and
    exclusion in every interleaving.  Sniffer (func.c, main.c of the sniffer):
    decoding stays within the captured bytes, stored packets can be displayed.

    ** Not modelled

    Assembly (entry.S, swtch.S, and the instructions of trampoline.S and
    kernelvec.S, whose effect on registers is in Trap) has no meaning without an
    instruction-level model; main.c only orders initialisations, and forkret and
    procdump of proc.c start the first process and print.  Caches of translations
    are not modelled, so [sfence_vma] does nothing.  The capture library, the
    terminal and the thread library that the sniffer and the bakery call are
    parameters or primitive steps.  Test programs (usertests.c, grind.c,
    forktest.c, stressfs.c and the like) exercise the kernel and have no
    contract of their own; init.c restarts the shell for ever.

    ** This file

    The outcome monad, reachability of a step relation, machine-width integers,
    byte-addressed memory, and the generic lemmas on integers, bits and lists
    that the component files share. *)
From stdpp Require Export base numbers list gmap strings.
From Stdlib Require Export ZArith Lia.
Open Scope Z_scope.

(** * Automation *)

Create HintDb kern discriminated.

(** Linear arithmetic with division and modulo by constants. *)
Ltac zlia := Z.div_mod_to_equations; lia.

(** Turn the boolean comparisons of the translated code into propositions. *)
Ltac bool_to_prop :=
  repeat match goal with
  | H : context [Z.eqb ?a ?b] |- _ => destruct (Z.eqb_spec a b)
  | H : context [Z.ltb ?a ?b] |- _ => destruct (Z.ltb_spec a b)
  | H : context [Z.leb ?a ?b] |- _ => destruct (Z.leb_spec a b)
  | |- context [Z.eqb ?a ?b] => destruct (Z.eqb_spec a b)
  | |- context [Z.ltb ?a ?b] => destruct (Z.ltb_spec a b)
  | |- context [Z.leb ?a ?b] => destruct (Z.leb_spec a b)
  end; simpl in *.

(** * Outcomes of kernel code *)

(** What a call can do in state type [St]: return a value, [panic()] (the
    kernel stops), [kexit()] (the calling process ends, the call never
    returns), reach an operation the C language leaves undefined (an array
    index out of bounds, a variable read before it is set), or exceed the fuel
    the model gives to a loop. *)
Inductive outcome (St A : Type) : Type :=
| Ret (a : A) (s : St)
| Panic (msg : string) (s : St)
| Exit (status : Z) (s : St)
| Undef (what : string) (s : St)
| NoFuel (s : St).
Arguments Ret {St A} a s.
Arguments Panic {St A} msg s.
Arguments Exit {St A} status s.
Arguments Undef {St A} what s.
Arguments NoFuel {St A} s.

Definition M (St A : Type) : Type := St -> outcome St A.

Definition ret {St A} (a : A) : M St A := fun s => Ret a s.
Definition panic {St A} (msg : string) : M St A := fun s => Panic msg s.
Definition exit_with {St A} (status : Z) : M St A := fun s => Exit status s.
Definition undef {St A} (what : string) : M St A := fun s => Undef what s.
Definition no_fuel {St A} : M St A := fun s => NoFuel s.
Definition get {St} : M St St := fun s => Ret s s.
Definition put {St} (s' : St) : M St unit := fun _ => Ret tt s'.
Definition modify {St} (f : St -> St) : M St unit := fun s => Ret tt (f s).
Definition gets {St A} (f : St -> A) : M St A := fun s => Ret (f s) s.

Definition bind {St A B} (m : M St A) (k : A -> M St B) : M St B :=
  fun s => match m s with
  | Ret a s' => k a s'
  | Panic msg s' => Panic msg s'
  | Exit st s' => Exit st s'
  | Undef w s' => Undef w s'
  | NoFuel s' => NoFuel s'
  end.

(** Run a computation on a part of a larger state. *)
Definition zoom {S1 S2 A} (getp : S2 -> S1) (setp : S1 -> S2 -> S2)
    (m : M S1 A) : M S2 A :=
  fun s => match m (getp s) with
  | Ret a s1 => Ret a (setp s1 s)
  | Panic msg s1 => Panic msg (setp s1 s)
  | Exit st s1 => Exit st (setp s1 s)
  | Undef w s1 => Undef w (setp s1 s)
  | NoFuel s1 => NoFuel (setp s1 s)
  end.

Declare Scope kern_scope.
Delimit Scope kern_scope with kern.
Notation "'do' x <- m ; k" := (bind m (fun x => k))
  (at level 90, x binder, m at next level, k at level 200, right associativity)
  : kern_scope.
Notation "m ;;; k" := (bind m (fun _ => k))
  (at level 90, k at level 200, right associativity) : kern_scope.

(** Run the pure steps at the head of a computation. *)
Ltac mstep := repeat (match goal with
  | |- context [bind (ret ?x) ?k ?z] => change (bind (ret x) k z) with (k x z)
  | |- context [bind (modify ?g) ?k ?z] => change (bind (modify g) k z) with (k tt (g z))
  | |- context [bind (gets ?g) ?k ?z] => change (bind (gets g) k z) with (k (g z) z)
  | |- context [bind get ?k ?z] => change (bind get k z) with (k z z)
  end; cbn beta).

(** The state in which an outcome leaves the machine. *)
Definition final {St A} (o : outcome St A) : St :=
  match o with Ret _ s | Panic _ s | Exit _ s | Undef _ s | NoFuel s => s end.

(** Whether a call returned, and its value: for runs on concrete states. *)
Definition returned {St A} (o : outcome St A) : bool := match o with Ret _ _ => true | _ => false end.
Definition value {St A} (d : A) (o : outcome St A) : A := match o with Ret a _ => a | _ => d end.

Lemma returned_eq {St A} (d : A) (o : outcome St A) : returned o = true -> o = Ret (value d o) (final o).
Proof. by destruct o. Qed.

Lemma returned_tt {St} (o : outcome St unit) : returned o = true -> o = Ret tt (final o).
Proof. by destruct o as [[]| | | |]. Qed.

(** Weakest precondition of a normal return: every other outcome is excluded,
    so a theorem concluding [returns] includes termination and absence of
    panics. *)
Definition returns {St A} (o : outcome St A) (Q : A -> St -> Prop) : Prop :=
  match o with Ret a s => Q a s | _ => False end.

(** The result state and value, whatever happens after it is required only of
    normal returns (partial correctness). *)
Definition when_returns {St A} (o : outcome St A) (Q : A -> St -> Prop) : Prop :=
  match o with Ret a s => Q a s | _ => True end.

Lemma bind_returns {St A B} (m : M St A) (k : A -> M St B) s P Q :
  returns (m s) P -> (forall a s', P a s' -> returns (k a s') Q) ->
  returns (bind m k s) Q.
Proof. unfold bind. destruct (m s); simpl; try contradiction. auto. Qed.

Lemma returns_mono {St A} (o : outcome St A) (P Q : A -> St -> Prop) :
  returns o P -> (forall a s, P a s -> Q a s) -> returns o Q.
Proof. destruct o; simpl; auto. Qed.

Lemma returns_Ret {St A} (o : outcome St A) P a s : returns o P -> o = Ret a s -> P a s.
Proof. intros Ho ->. exact Ho. Qed.

Lemma bind_ret {St A B} (m : M St A) a s s' (k : A -> M St B) :
  m s = Ret a s' -> bind m k s = k a s'.
Proof. intros Hm. unfold bind. by rewrite Hm. Qed.

Lemma bind_inv {St A B} (m : M St A) (k : A -> M St B) s b s2 :
  bind m k s = Ret b s2 -> exists a s1, m s = Ret a s1 /\ k a s1 = Ret b s2.
Proof. unfold bind. destruct (m s) as [a s1| | | |]; try discriminate. eauto. Qed.

Lemma zoom_returns {S1 S2 A} (getp : S2 -> S1) (setp : S1 -> S2 -> S2) (m : M S1 A) s P :
  returns (m (getp s)) P ->
  returns (zoom getp setp m s) (fun a s' => exists s1, s' = setp s1 s /\ P a s1).
Proof. unfold zoom. destruct (m (getp s)); simpl; try contradiction. eauto. Qed.

(** Like [returns], with the process exits allowed that [E] describes; panics,
    undefined behaviour and divergence are still excluded. *)
Definition ends {St A} (o : outcome St A) (Q : A -> St -> Prop) (E : Z -> St -> Prop) : Prop :=
  match o with Ret a s => Q a s | Exit st s => E st s | _ => False end.

Lemma returns_ends {St A} (o : outcome St A) Q E : returns o Q -> ends o Q E.
Proof. destruct o; done. Qed.

Lemma bind_ends {St A B} (m : M St A) (k : A -> M St B) s P Q E :
  ends (m s) P E -> (forall a s', P a s' -> ends (k a s') Q E) -> ends (bind m k s) Q E.
Proof. unfold bind. destruct (m s); simpl; try contradiction; auto. Qed.

Lemma ends_mono {St A} (o : outcome St A) (P Q : A -> St -> Prop) (E F : Z -> St -> Prop) :
  ends o P E -> (forall a s, P a s -> Q a s) -> (forall st s, E st s -> F st s) -> ends o Q F.
Proof. destruct o; simpl; auto. Qed.

(** A C loop [for (i = i0; ...; i++)] of [k] iterations. *)
Fixpoint for_loop {St} (k : nat) (i : Z) (body : Z -> M St unit) : M St unit :=
  match k with
  | O => ret tt
  | S k' => bind (body i) (fun _ => for_loop k' (i + 1) body)
  end.

(** The loop rule: an invariant indexed by the counter. *)
Lemma for_loop_returns {St} (I : Z -> St -> Prop) k i (body : Z -> M St unit) s :
  I i s ->
  (forall j s', i <= j < i + Z.of_nat k -> I j s' -> returns (body j s') (fun _ => I (j + 1))) ->
  returns (for_loop k i body s) (fun _ => I (i + Z.of_nat k)).
Proof.
  revert i s. induction k as [|k IH]; intros i s Hi Hb; cbn [for_loop].
  - by rewrite Z.add_0_r.
  - eapply bind_returns; [apply Hb; [lia|done]|]. intros ? s' Hs'.
    replace (i + Z.of_nat (S k)) with (i + 1 + Z.of_nat k) by lia.
    apply IH; [done|]. intros. apply Hb; [lia|done].
Qed.

(** * Reachability *)

Section Star.
Context {St : Type} (step : St -> St -> Prop).

Inductive star : St -> St -> Prop :=
| star_refl s : star s s
| star_next s t u : step s t -> star t u -> star s u.

Lemma star_trans s t u : star s t -> star t u -> star s u.
Proof. induction 1; eauto using star. Qed.

Lemma star_one s t : step s t -> star s t.
Proof. eauto using star. Qed.

  (** Rule induction: an invariant of the steps holds of every reachable
      state. *)
Lemma star_invariant (I : St -> Prop) s t :
    (forall a b, I a -> step a b -> I b) -> I s -> star s t -> I t.
Proof. intros Hstep Hs Hst. induction Hst; eauto. Qed.
End Star.

(** * Machine integers *)

Definition u64 (x : Z) : Z := x mod 2 ^ 64.
Definition u32 (x : Z) : Z := x mod 2 ^ 32.
Definition u16 (x : Z) : Z := x mod 2 ^ 16.
Definition u8 (x : Z) : Z := x mod 2 ^ 8.
(** A value converted to C's 32-bit [int]. *)
Definition i32 (x : Z) : Z := (x + 2 ^ 31) mod 2 ^ 32 - 2 ^ 31.

Lemma u64_small x : 0 <= x < 2 ^ 64 -> u64 x = x.
Proof. apply Z.mod_small. Qed.
Lemma u64_range x : 0 <= u64 x < 2 ^ 64.
Proof. apply Z.mod_pos_bound; lia. Qed.
Lemma u32_small x : 0 <= x < 2 ^ 32 -> u32 x = x.
Proof. apply Z.mod_small. Qed.
Lemma u32_range x : 0 <= u32 x < 2 ^ 32.
Proof. apply Z.mod_pos_bound; lia. Qed.
Lemma i32_small x : - 2 ^ 31 <= x < 2 ^ 31 -> i32 x = x.
Proof. intros. unfold i32. rewrite Z.mod_small; lia. Qed.
Lemma i32_range x : - 2 ^ 31 <= i32 x < 2 ^ 31.
Proof. unfold i32. pose proof (Z.mod_pos_bound (x + 2 ^ 31) (2 ^ 32)). lia. Qed.

(** * Bits *)

Lemma testbit_high a n i : 0 <= a < 2 ^ n -> 0 <= n <= i -> Z.testbit a i = false.
Proof.
  intros Ha Hi. destruct (Z.eq_dec a 0) as [->|]; [apply Z.bits_0|].
  apply Z.bits_above_log2; [lia|].
  apply Z.lt_le_trans with n; [|lia]. apply Z.log2_lt_pow2; lia.
Qed.

(** Bits that do not overlap: bitwise or is addition. *)
Lemma lor_low n a b :
  0 <= n -> a mod 2 ^ n = 0 -> 0 <= b < 2 ^ n -> Z.lor a b = a + b.
Proof.
  intros Hn Ha Hb. symmetry. rewrite <- Z.lxor_lor.
  - apply Z.add_nocarry_lxor. apply Z.bits_inj'. intros i Hi.
    rewrite Z.land_spec, Z.bits_0. destruct (Z.ltb_spec i n).
    + rewrite <- (Z.mod_pow2_bits_low a n i), Ha, Z.bits_0 by lia. done.
    + rewrite (testbit_high b n i), andb_false_r by lia. done.
  - apply Z.bits_inj'. intros i Hi.
    rewrite Z.land_spec, Z.bits_0. destruct (Z.ltb_spec i n).
    + rewrite <- (Z.mod_pow2_bits_low a n i), Ha, Z.bits_0 by lia. done.
    + rewrite (testbit_high b n i), andb_false_r by lia. done.
Qed.

Lemma lor_range n a b :
  0 <= n -> 0 <= a < 2 ^ n -> 0 <= b < 2 ^ n -> 0 <= Z.lor a b < 2 ^ n.
Proof.
  intros Hn Ha Hb. split; [apply Z.lor_nonneg; lia|].
  assert (Z.lor a b = Z.lor a b mod 2 ^ n) as ->; [|apply Z.mod_pos_bound; lia].
  rewrite <- Z.land_ones by lia. apply Z.bits_inj'. intros i Hi.
  rewrite Z.land_spec, Z.testbit_ones_nonneg by lia.
  destruct (Z.ltb_spec i n); [by rewrite andb_true_r|].
  rewrite Z.lor_spec, !(testbit_high _ n i) by lia. done.
Qed.

(** Clearing the low [n] bits. *)
Lemma land_lnot_ones a n :
  0 <= n -> Z.land a (Z.lnot (2 ^ n - 1)) = a - a mod 2 ^ n.
Proof.
  intros Hn. rewrite <- Z.ldiff_land.
  replace (2 ^ n - 1) with (Z.ones n) by (rewrite Z.ones_equiv; lia).
  rewrite Z.ldiff_ones_r, Z.shiftl_mul_pow2, Z.shiftr_div_pow2 by lia.
  pose proof (Z.div_mod a (2 ^ n)). lia.
Qed.

(** * Byte-addressed memory *)

(** Physical memory: an address to a byte (0..255). *)
Definition mem := Z -> Z.

Definition mem_eq (m m' : mem) : Prop := forall x, m x = m' x.

#[export] Instance mem_eq_equiv : Equivalence mem_eq.
Proof. split; red; unfold mem_eq; intros; congruence. Qed.

(** [n] bytes at [a], little endian. *)
Fixpoint load (n : nat) (m : mem) (a : Z) : Z :=
  match n with
  | O => 0
  | S k => m a + 256 * load k m (a + 1)
  end.

Definition store (n : nat) (m : mem) (a v : Z) : mem := fun x =>
  if (a <=? x) && (x <? a + Z.of_nat n) then v / 256 ^ (x - a) mod 256 else m x.

Abbreviation load64 := (load 8).
Abbreviation store64 := (store 8).

(** [n] bytes set to [c]: what [memset(a, c, n)] leaves in memory. *)
Definition fill (m : mem) (a c n : Z) : mem := fun x =>
  if (a <=? x) && (x <? a + n) then u8 c else m x.

(** [n] bytes from [src] to [dst]: what [memmove(dst, src, n)] leaves in
    memory, the source read before anything is written. *)
Definition copy (m : mem) (dst src n : Z) : mem := fun x =>
  if (dst <=? x) && (x <? dst + n) then m (src + (x - dst)) else m x.

Lemma load_ext n m m' a :
  (forall x, a <= x < a + Z.of_nat n -> m x = m' x) -> load n m a = load n m' a.
Proof.
  revert a. induction n as [|n IH]; intros a H; [done|]. simpl.
  rewrite (H a), (IH (a + 1)) by (intros; try apply H; lia). done.
Qed.

#[export] Instance load_proper n : Proper (mem_eq ==> eq ==> eq) (load n).
Proof. intros m m' Hm a ? <-. apply load_ext. intros; apply Hm. Qed.

Lemma load_digits n m a v :
  0 <= v < 256 ^ Z.of_nat n ->
  (forall i, 0 <= i < Z.of_nat n -> m (a + i) = v / 256 ^ i mod 256) ->
  load n m a = v.
Proof.
  revert a v. induction n as [|n IH]; intros a v Hv Hm; simpl.
  - simpl in Hv. lia.
  - rewrite (IH (a + 1) (v / 256)).
    + specialize (Hm 0 ltac:(lia)). rewrite Z.add_0_r, Z.pow_0_r, Z.div_1_r in Hm.
      rewrite Hm. pose proof (Z.div_mod v 256). lia.
    + rewrite Nat2Z.inj_succ, Z.pow_succ_r in Hv by lia. zlia.
    + intros i Hi. specialize (Hm (i + 1) ltac:(lia)).
      replace (a + 1 + i) with (a + (i + 1)) by lia. rewrite Hm.
      rewrite Z.pow_add_r, Z.pow_1_r, Z.mul_comm, <- Z.div_div by lia. done.
Qed.

Lemma load_store_eq n m a v :
  0 <= v < 256 ^ Z.of_nat n -> load n (store n m a v) a = v.
Proof.
  intros Hv. apply load_digits; [done|]. intros i Hi. unfold store.
  replace (a + i - a) with i by lia.
  destruct (Z.leb_spec a (a + i)), (Z.ltb_spec (a + i) (a + Z.of_nat n)); try lia.
  done.
Qed.

Lemma load_store_ne n k m a b v :
  b + Z.of_nat n <= a \/ a + Z.of_nat k <= b ->
  load n (store k m a v) b = load n m b.
Proof.
  intros Hd. apply load_ext. intros x Hx. unfold store.
  destruct (Z.leb_spec a x), (Z.ltb_spec x (a + Z.of_nat k)); try lia; done.
Qed.

Lemma load_fill_ne n m a b c k :
  b + Z.of_nat n <= a \/ a + k <= b -> load n (fill m a c k) b = load n m b.
Proof.
  intros Hd. apply load_ext. intros x Hx. unfold fill.
  destruct (Z.leb_spec a x), (Z.ltb_spec x (a + k)); try lia; done.
Qed.

Lemma load_fill_zero n m a b k :
  a <= b -> b + Z.of_nat n <= a + k -> load n (fill m a 0 k) b = 0.
Proof.
  revert b. induction n as [|n IH]; intros b H1 H2; [done|]. simpl.
  rewrite IH by lia. unfold fill at 1.
  destruct (Z.leb_spec a b), (Z.ltb_spec b (a + k)); try lia. done.
Qed.

#[global] Arguments load : simpl never.
#[global] Arguments store : simpl never.
#[global] Arguments fill : simpl never.

(** Reading a byte range as a list. *)
Definition bytes_at (m : mem) (a : Z) (n : nat) : list Z :=
  (fun i => m (a + Z.of_nat i)) <$> seq 0 n.

Lemma length_bytes_at m a n : length (bytes_at m a n) = n.
Proof. unfold bytes_at. by rewrite length_fmap, length_seq. Qed.

Lemma bytes_at_lookup m a n i :
  (i < n)%nat -> bytes_at m a n !! i = Some (m (a + Z.of_nat i)).
Proof.
  intros. unfold bytes_at. rewrite list_lookup_fmap, lookup_seq_lt by lia. done.
Qed.

Lemma bytes_at_ext m m' a n :
  (forall x, a <= x < a + Z.of_nat n -> m x = m' x) ->
  bytes_at m a n = bytes_at m' a n.
Proof.
  intros H. apply list_fmap_ext. intros i x Hi. apply lookup_seq in Hi. apply H. lia.
Qed.

(** A byte string written at [a]. *)
Definition blit (m : mem) (a : Z) (bs : list Z) : mem := fun x =>
  if (a <=? x) && (x <? a + Z.of_nat (length bs)) then default 0 (bs !! Z.to_nat (x - a)) else m x.

Lemma bytes_at_blit m a bs : bytes_at (blit m a bs) a (length bs) = bs.
Proof.
  apply list_eq. intros i. destruct (decide (i < length bs)%nat) as [Hi|Hi].
  - rewrite bytes_at_lookup by done. unfold blit. bool_to_prop; try lia.
    replace (Z.to_nat (a + Z.of_nat i - a)) with i by lia.
    destruct (lookup_lt_is_Some_2 bs i Hi) as [x ->]. done.
  - rewrite !lookup_ge_None_2; [done|lia|rewrite length_bytes_at; lia].
Qed.

(** [n] little-endian bytes of a byte string, from offset [o]. *)
Definition le_at (bs : list Z) (o : Z) (n : nat) : Z :=
  load n (fun i => default 0 (bs !! Z.to_nat i)) o.

(** * C arrays *)

(** An array is a total function on indices; the code's accesses go through
    bounds tests. *)
Definition upd {A} (a : Z -> A) (i : Z) (v : A) : Z -> A := fun j => if j =? i then v else a j.

Lemma upd_eq {A} (a : Z -> A) i v : upd a i v i = v.
Proof. unfold upd. by rewrite Z.eqb_refl. Qed.

Lemma upd_ne {A} (a : Z -> A) i j v : j <> i -> upd a i v j = a j.
Proof. intros. unfold upd. destruct (Z.eqb_spec j i); done. Qed.

(** Removing entry [v] of the first [n] by moving the last one into its
    place. *)
Definition remove_at {A} (a : Z -> A) (n v : Z) : Z -> A := upd a v (a (n - 1)).

(** Where an entry of the shorter array comes from. *)
Definition moved (n v i : Z) : Z := if i =? v then n - 1 else i.

Lemma remove_at_from {A} (a : Z -> A) n v i : remove_at a n v i = a (moved n v i).
Proof. unfold remove_at, upd, moved. by destruct (i =? v). Qed.

Lemma moved_range n v i : 0 <= v < n -> 0 <= i < n - 1 -> 0 <= moved n v i < n /\ moved n v i <> v.
Proof. unfold moved. intros. bool_to_prop; lia. Qed.

Lemma moved_inj n v i j : 0 <= i < n - 1 -> 0 <= j < n - 1 -> moved n v i = moved n v j -> i = j.
Proof. unfold moved. intros. bool_to_prop; lia. Qed.

Lemma moved_onto n v j : 0 <= v < n -> 0 <= j < n -> j <> v ->
  exists i, 0 <= i < n - 1 /\ moved n v i = j.
Proof.
  intros Hv Hj Hne. unfold moved. destruct (Z.eq_dec j (n - 1)) as [->|].
  - exists v. rewrite Z.eqb_refl. lia.
  - exists j. bool_to_prop; lia.
Qed.

(** The first index in [i, i + k) at which [f] holds: a C scan loop that
    breaks. *)
Fixpoint scan_from (f : Z -> bool) (k : nat) (i : Z) : option Z :=
  match k with
  | O => None
  | S k' => if f i then Some i else scan_from f k' (i + 1)
  end.

Definition scan (f : Z -> bool) (n : Z) : option Z := scan_from f (Z.to_nat n) 0.

Lemma scan_from_spec f k i :
  match scan_from f k i with
  | Some j => i <= j < i + Z.of_nat k /\ f j = true /\ forall x, i <= x < j -> f x = false
  | None => forall x, i <= x < i + Z.of_nat k -> f x = false
  end.
Proof.
  revert i. induction k as [|k IH]; intros i; cbn [scan_from]; [lia|].
  destruct (f i) eqn:Hf; [split_and!; [lia..|done|lia]|].
  specialize (IH (i + 1)). destruct (scan_from f k (i + 1)) as [j|].
  - destruct IH as (? & ? & Hlt). split_and!; [lia..|done|]. intros x Hx.
    destruct (Z.eq_dec x i) as [->|]; [done|]. apply Hlt. lia.
  - intros x Hx. destruct (Z.eq_dec x i) as [->|]; [done|]. apply IH. lia.
Qed.

Lemma scan_Some f n j : scan f n = Some j ->
  0 <= j < n /\ f j = true /\ forall x, 0 <= x < j -> f x = false.
Proof.
  unfold scan. intros Hs. pose proof (scan_from_spec f (Z.to_nat n) 0) as H. rewrite Hs in H.
  destruct H as (? & ? & ?). split_and!; [lia..|done|done].
Qed.

Lemma scan_None f n : scan f n = None -> forall x, 0 <= x < n -> f x = false.
Proof.
  unfold scan. intros Hs x Hx. pose proof (scan_from_spec f (Z.to_nat n) 0) as H. rewrite Hs in H.
  apply H. lia.
Qed.

Lemma scan_first f n j :
  0 <= j < n -> f j = true -> (forall x, 0 <= x < j -> f x = false) -> scan f n = Some j.
Proof.
  intros Hj Hf Hlow. destruct (scan f n) as [k|] eqn:Hs.
  - apply scan_Some in Hs as (Hk & Hfk & Hlk). f_equal.
    destruct (Z.lt_trichotomy k j) as [Hlt|[?|Hlt]]; [|done|].
    + rewrite (Hlow k) in Hfk by lia. done.
    + rewrite (Hlk j) in Hf by lia. done.
  - rewrite (scan_None _ _ Hs j Hj) in Hf. done.
Qed.

Lemma scan_none f n : (forall x, 0 <= x < n -> f x = false) -> scan f n = None.
Proof.
  intros Hn. destruct (scan f n) as [k|] eqn:Hs; [|done].
  apply scan_Some in Hs as (Hk & Hfk & _). rewrite Hn in Hfk; done.
Qed.

Lemma scan_ext f g n : (forall i, 0 <= i < n -> f i = g i) -> scan f n = scan g n.
Proof.
  intros Hf. destruct (scan g n) as [j|] eqn:Hs.
  - apply scan_Some in Hs as (Hj & He & Hlow). apply scan_first; [done|by rewrite Hf|].
    intros. rewrite Hf by lia. auto.
  - apply scan_none. intros. rewrite Hf by done. by apply (scan_None _ _ Hs).
Qed.

Lemma scan_snoc f n : 0 <= n ->
  scan f (n + 1) = match scan f n with Some j => Some j | None => if f n then Some n else None end.
Proof.
  intros Hn. destruct (scan f n) as [j|] eqn:Hs.
  - apply scan_Some in Hs as (Hj & Hf & Hlow). apply scan_first; [lia|done..].
  - pose proof (scan_None _ _ Hs) as Hno. destruct (f n) eqn:Hf.
    + apply scan_first; [lia|done..].
    + apply scan_none. intros x Hx. destruct (Z.eq_dec x n) as [->|]; [done|]. apply Hno. lia.
Qed.

Lemma seqZ_snoc m n : 0 <= n -> seqZ m (n + 1) = seqZ m n ++ [m + n].
Proof. intros. rewrite seqZ_app by lia. done. Qed.

(** * Lists *)

Lemma filter_agree {A} (P Q : A -> Prop) `{forall x, Decision (P x)} `{forall x, Decision (Q x)} (l : list A) :
  (forall x, x ∈ l -> P x <-> Q x) -> filter P l = filter Q l.
Proof.
  induction l as [|x l IH]; intros He; [done|]. rewrite !filter_cons, IH by (intros y Hy; apply He; by right).
  assert (P x <-> Q x) by (apply He; left). repeat case_decide; tauto || done.
Qed.

(** First index at which [f] holds, as in a C scan loop with [break]. *)
Fixpoint find_idx {A} (f : A -> bool) (l : list A) : option nat :=
  match l with
  | [] => None
  | x :: l' => if f x then Some 0%nat else S <$> find_idx f l'
  end.

Lemma find_idx_Some {A} (f : A -> bool) l i :
  find_idx f l = Some i <->
  (exists x, l !! i = Some x /\ f x = true) /\
  (forall j y, (j < i)%nat -> l !! j = Some y -> f y = false).
Proof.
  revert i. induction l as [|x l IH]; intros i; simpl.
  - split; [done|]. intros [(y & Hy & _) _]. done.
  - destruct (f x) eqn:Hf; split.
    + intros [= <-]. split; [eauto|]. intros; lia.
    + intros [_ Hlt]. destruct i; [done|].
      specialize (Hlt 0%nat x ltac:(lia) eq_refl). congruence.
    + intros H. apply fmap_Some in H as (k & Hk & ->).
      apply IH in Hk as [(y & Hy & Hfy) Hlt]. split; [simpl; eauto|].
      intros [|j] z Hj Hz; simpl in Hz; [congruence|]. apply (Hlt j); [lia|done].
    + intros [(y & Hy & Hfy) Hlt]. destruct i as [|i]; simpl in Hy; [congruence|].
      apply fmap_Some. exists i. split; [|done]. apply IH. split; [eauto|].
      intros j z Hj Hz. apply (Hlt (S j)); [lia|done].
Qed.

Lemma find_idx_None {A} (f : A -> bool) l :
  find_idx f l = None <-> Forall (fun x => f x = false) l.
Proof.
  induction l as [|x l IH]; simpl; [by split|].
  rewrite Forall_cons, <- IH. destruct (f x), (find_idx f l); simpl; naive_solver.
Qed.
