(* ===== verification/Riscv.v ===== *)
(** Constants and address arithmetic of the RISC-V Sv39 kernel: the macros of
    [kernel/riscv.h], [kernel/memlayout.h] and [kernel/param.h] that the
    memory components use, at 64-bit width, with the facts about page
    rounding, page-table indices and page-table entries. *)
From S2P Require Import Prelude.

(** * kernel/riscv.h *)

Definition PGSIZE : Z := 4096.
Definition PGSHIFT : Z := 12.
Definition PGROUNDUP (sz : Z) : Z := Z.land (u64 (sz + PGSIZE - 1)) (Z.lnot (PGSIZE - 1)).
Definition PGROUNDDOWN (a : Z) : Z := Z.land a (Z.lnot (PGSIZE - 1)).

Definition PTE_V : Z := Z.shiftl 1 0.
Definition PTE_R : Z := Z.shiftl 1 1.
Definition PTE_W : Z := Z.shiftl 1 2.
Definition PTE_X : Z := Z.shiftl 1 3.
Definition PTE_U : Z := Z.shiftl 1 4.

Definition PA2PTE (pa : Z) : Z := u64 (Z.shiftl (Z.shiftr pa 12) 10).
Definition PTE2PA (pte : Z) : Z := u64 (Z.shiftl (Z.shiftr pte 10) 12).
Definition PTE_FLAGS (pte : Z) : Z := Z.land pte 0x3FF.

Definition PXMASK : Z := 0x1FF.
Definition PXSHIFT (level : Z) : Z := PGSHIFT + 9 * level.
Definition PX (level va : Z) : Z := Z.land (Z.shiftr va (PXSHIFT level)) PXMASK.
Definition MAXVA : Z := Z.shiftl 1 (9 + 9 + 9 + 12 - 1).

(** Evaluate the flag constants and close the arithmetic they occur in. *)
Ltac flags :=
  change PTE_V with 1 in *; change PTE_R with 2 in *; change PTE_W with 4 in *;
  change PTE_X with 8 in *; change PTE_U with 16 in *; lia.

(** Is a flag bit set?  The C condition [pte & FLAG]. *)
Definition has (pte flag : Z) : bool := negb (Z.land pte flag =? 0).

(** * kernel/memlayout.h *)

Definition KERNBASE : Z := 0x80000000.
Definition PHYSTOP : Z := KERNBASE + 128 * 1024 * 1024.
Definition TRAMPOLINE : Z := MAXVA - PGSIZE.
Definition TRAPFRAME : Z := TRAMPOLINE - PGSIZE.
Definition KSTACK (p : Z) : Z := TRAMPOLINE - (p + 1) * 2 * PGSIZE.

(** * kernel/param.h *)

Definition NPROC : Z := 64.
Definition USERSTACK : Z := 5.
Definition MAX_RESIDENT_PAGES : Z := 35000.
Definition MAX_SWAP_PAGES : Z := 60.

(** * Page rounding *)

(** Page aligned. *)
Definition aligned (a : Z) : Prop := a mod PGSIZE = 0.

Lemma PGROUNDDOWN_sub a : PGROUNDDOWN a = a - a mod PGSIZE.
Proof. unfold PGROUNDDOWN. by apply (land_lnot_ones a 12). Qed.

Lemma PGROUNDUP_sub a : 0 <= a -> a + PGSIZE - 1 < 2 ^ 64 ->
  PGROUNDUP a = (a + PGSIZE - 1) - (a + PGSIZE - 1) mod PGSIZE.
Proof.
  intros. unfold PGROUNDUP. rewrite u64_small by (unfold PGSIZE in *; lia).
  by apply (land_lnot_ones _ 12).
Qed.

Lemma PGROUNDDOWN_aligned a : aligned (PGROUNDDOWN a).
Proof. unfold aligned. rewrite PGROUNDDOWN_sub. unfold PGSIZE. zlia. Qed.

Lemma PGROUNDDOWN_le a : PGROUNDDOWN a <= a < PGROUNDDOWN a + PGSIZE.
Proof. rewrite PGROUNDDOWN_sub. unfold PGSIZE. zlia. Qed.

Lemma PGROUNDDOWN_id a : aligned a -> PGROUNDDOWN a = a.
Proof. unfold aligned. rewrite PGROUNDDOWN_sub. lia. Qed.

Lemma PGROUNDUP_aligned a : 0 <= a -> a + PGSIZE - 1 < 2 ^ 64 -> aligned (PGROUNDUP a).
Proof. intros. unfold aligned. rewrite PGROUNDUP_sub by done. unfold PGSIZE in *. zlia. Qed.

Lemma PGROUNDUP_le a : 0 <= a -> a + PGSIZE - 1 < 2 ^ 64 ->
  a <= PGROUNDUP a < a + PGSIZE.
Proof. intros. rewrite PGROUNDUP_sub by done. unfold PGSIZE in *. zlia. Qed.

Lemma PGROUNDUP_id a : 0 <= a -> a + PGSIZE - 1 < 2 ^ 64 -> aligned a -> PGROUNDUP a = a.
Proof. unfold aligned. intros. rewrite PGROUNDUP_sub by done. unfold PGSIZE in *. zlia. Qed.

(** Two aligned addresses are equal or a page apart. *)
Lemma aligned_apart a b : aligned a -> aligned b -> a <> b ->
  a + PGSIZE <= b \/ b + PGSIZE <= a.
Proof. unfold aligned, PGSIZE. intros. zlia. Qed.

(** * Page-table entries *)

Lemma has_lor a b f : has (Z.lor a b) f = has a f || has b f.
Proof.
  unfold has. rewrite Z.land_lor_distr_l.
  destruct (Z.eqb_spec (Z.lor (Z.land a f) (Z.land b f)) 0) as [H|H].
  - apply Z.lor_eq_0_iff in H as [-> ->]. done.
  - destruct (Z.eqb_spec (Z.land a f) 0) as [E1|]; [|done].
    destruct (Z.eqb_spec (Z.land b f) 0) as [E2|]; [|done].
    rewrite E1, E2 in H. done.
Qed.

Lemma PA2PTE_mul pa : 0 <= pa < 2 ^ 56 -> PA2PTE pa = pa / 4096 * 1024.
Proof.
  intros. unfold PA2PTE. rewrite Z.shiftl_mul_pow2, Z.shiftr_div_pow2 by lia.
  rewrite u64_small; zlia.
Qed.

Lemma PTE2PA_mul pte : 0 <= pte < 2 ^ 62 -> PTE2PA pte = pte / 1024 * 4096.
Proof.
  intros. unfold PTE2PA. rewrite Z.shiftl_mul_pow2, Z.shiftr_div_pow2 by lia.
  rewrite u64_small; zlia.
Qed.

(** An entry built from an aligned physical address and flag bits is their
    sum. *)
Lemma pte_sum pa fl : 0 <= pa < 2 ^ 56 -> 0 <= fl < 1024 ->
  Z.lor (PA2PTE pa) fl = pa / 4096 * 1024 + fl.
Proof.
  intros. rewrite PA2PTE_mul by done. apply (lor_low 10); [lia| |lia].
  rewrite Z.mod_mul; lia.
Qed.

(** Encoding a mapping and decoding it again. *)
Lemma PTE2PA_make pa fl : 0 <= pa < 2 ^ 56 -> aligned pa -> 0 <= fl < 1024 ->
  PTE2PA (Z.lor (PA2PTE pa) fl) = pa.
Proof.
  intros Hpa Hal Hfl. rewrite pte_sum by done. rewrite PTE2PA_mul by zlia.
  unfold aligned, PGSIZE in Hal. zlia.
Qed.

Lemma PTE_FLAGS_make pa fl : 0 <= pa < 2 ^ 56 -> 0 <= fl < 1024 ->
  PTE_FLAGS (Z.lor (PA2PTE pa) fl) = fl.
Proof.
  intros Hpa Hfl. rewrite pte_sum by done. unfold PTE_FLAGS.
  change 0x3FF with (Z.ones 10). rewrite Z.land_ones by lia.
  change (2 ^ 10) with 1024. rewrite Z.add_comm, Z.mod_add by lia.
  apply Z.mod_small. lia.
Qed.

(** Flag tests look only at the low ten bits. *)
Lemma has_flags pte f : 0 <= f < 1024 -> has pte f = has (PTE_FLAGS pte) f.
Proof.
  intros Hf. unfold has, PTE_FLAGS. do 2 f_equal.
  rewrite <- Z.land_assoc. f_equal. rewrite Z.land_comm.
  change 0x3FF with (Z.ones 10). rewrite Z.land_ones by lia.
  symmetry. apply Z.mod_small. change (2 ^ 10) with 1024. lia.
Qed.

Lemma has_make pa fl f : 0 <= pa < 2 ^ 56 -> 0 <= fl < 1024 -> 0 <= f < 1024 ->
  has (Z.lor (PA2PTE pa) fl) f = has fl f.
Proof. intros. rewrite has_flags, PTE_FLAGS_make by done. done. Qed.

Lemma has_zero f : has 0 f = false.
Proof. done. Qed.

Lemma pte_make_range pa fl : 0 <= pa < 2 ^ 56 -> 0 <= fl < 1024 ->
  0 <= Z.lor (PA2PTE pa) fl < 256 ^ 8.
Proof. intros. rewrite pte_sum by done. zlia. Qed.

(** * Page-table indices *)

Lemma PX_div l va : 0 <= l -> PX l va = va / 2 ^ (12 + 9 * l) mod 512.
Proof.
  intros. unfold PX, PXSHIFT, PXMASK, PGSHIFT. change 0x1FF with (Z.ones 9).
  rewrite Z.land_ones, Z.shiftr_div_pow2 by lia. done.
Qed.

Lemma PX_range l va : 0 <= l -> 0 <= PX l va < 512.
Proof. intros. rewrite PX_div by done. apply Z.mod_pos_bound. lia. Qed.

(** The prefix of a virtual address that selects a table page at [level]. *)
Definition prefix (level va : Z) : Z := va / 2 ^ (21 + 9 * level).

Lemma prefix_step l va : 0 <= l -> prefix l va = prefix (l + 1) va * 512 + PX (l + 1) va.
Proof.
  intros. rewrite PX_div by lia. unfold prefix.
  replace (12 + 9 * (l + 1)) with (21 + 9 * l) by lia.
  replace (2 ^ (21 + 9 * (l + 1))) with (2 ^ (21 + 9 * l) * 512)
    by (rewrite <- (Z.pow_add_r 2 _ 9) by lia; f_equal; lia).
  rewrite <- Z.div_div by lia.
  generalize (va / 2 ^ (21 + 9 * l)). intros. zlia.
Qed.

Lemma MAXVA_eq : MAXVA = 2 ^ 38.
Proof. done. Qed.

Lemma prefix_top va : 0 <= va < MAXVA -> prefix 2 va = 0.
Proof. rewrite MAXVA_eq. intros. unfold prefix. apply Z.div_small. lia. Qed.

(** The page number of a virtual address. *)
Definition vpn (va : Z) : Z := va / PGSIZE.

Lemma vpn_split va : vpn va = prefix 0 va * 512 + PX 0 va.
Proof.
  unfold vpn, prefix, PGSIZE. rewrite PX_div by lia. change (2 ^ (12 + 9 * 0)) with 4096.
  change (2 ^ (21 + 9 * 0)) with (4096 * 512). rewrite <- Z.div_div by lia. zlia.
Qed.

Lemma vpn_inj a b : aligned a -> aligned b -> vpn a = vpn b -> a = b.
Proof. unfold aligned, vpn, PGSIZE. intros. zlia. Qed.

Lemma vpn_rounddown a : vpn (PGROUNDDOWN a) = vpn a.
Proof. rewrite PGROUNDDOWN_sub. unfold vpn, PGSIZE. zlia. Qed.
