(* ===== verification/Kalloc.v ===== *)
(** The physical page allocator ([kernel/kalloc.c]).  Free pages are linked
    through their own first eight bytes, so the free list lives in the same
    memory the pages are used for.  The abstract allocator is a stack of page
    addresses; the concrete operations refine it. *)
From S2P Require Import Prelude Riscv.
Open Scope kern_scope.

(** The addresses the linker script fixes: [end] (first address after the
    kernel), [etext] (end of kernel text) and [trampoline] (the page of
    trampoline.S), with what [kernel.ld] guarantees of them. *)
Class Layout := {
  kend : Z;
  etext : Z;
  trampoline : Z;
  etext_aligned : etext mod PGSIZE = 0;
  trampoline_aligned : trampoline mod PGSIZE = 0;
  kernel_above_base : KERNBASE < etext;
  etext_below_end : etext <= kend;
  trampoline_in_text : KERNBASE <= trampoline < etext;
  kend_below_top : kend < PHYSTOP
}.

(** [struct kmem], with the memory that holds the pages. *)
Record kmem := mk_kmem { kmem_mem : mem; kmem_freelist : Z }.

Definition set_mem (m : mem) (s : kmem) : kmem := mk_kmem m (kmem_freelist s).

Section Kalloc.
Context `{Layout}.

(** * Operations *)

Definition kfree (pa : Z) : M kmem unit :=
  if negb (pa mod PGSIZE =? 0) || (pa <? kend) || (PHYSTOP <=? pa)
  then panic "kfree"
  else modify (fun s =>
    (* fill with junk, then r->next = kmem.freelist; kmem.freelist = r *)
    let m := fill (kmem_mem s) pa 1 PGSIZE in
    mk_kmem (store64 m pa (kmem_freelist s)) pa).

Definition kalloc : M kmem Z := fun s =>
  let r := kmem_freelist s in
  let s' := if r =? 0 then s
            else mk_kmem (kmem_mem s) (load64 (kmem_mem s) r) in
  Ret r (if r =? 0 then s' else set_mem (fill (kmem_mem s') r 5 PGSIZE) s').

Fixpoint freerange_loop (fuel : nat) (p pa_end : Z) : M kmem unit :=
  match fuel with
  | O => no_fuel
  | S k => if p + PGSIZE <=? pa_end
           then kfree p ;;; freerange_loop k (p + PGSIZE) pa_end
           else ret tt
  end.

(** The loop visits one page per iteration, so the number of pages of the
    range plus one bounds it. *)
Definition freerange (pa_start pa_end : Z) : M kmem unit :=
  let p := PGROUNDUP pa_start in
  freerange_loop (Z.to_nat ((pa_end - p) / PGSIZE) + 1) p pa_end.

Definition kinit : M kmem unit := freerange kend PHYSTOP.

(** * The free list in memory *)

Definition valid_page (pa : Z) : Prop := aligned pa /\ kend <= pa < PHYSTOP.

Fixpoint chain (m : mem) (p : Z) (l : list Z) : Prop :=
  match l with
  | [] => p = 0
  | q :: l' => p = q /\ valid_page q /\ chain m (load64 m q) l'
  end.

(** The state represents the abstract free stack [l]. *)
Definition freelist_ok (s : kmem) (l : list Z) : Prop :=
  chain (kmem_mem s) (kmem_freelist s) l /\ NoDup l.

(** Two memories agree on a page. *)
Definition same_page (m m' : mem) (p : Z) : Prop :=
  forall x, p <= x < p + PGSIZE -> m x = m' x.

Lemma valid_page_pos pa : valid_page pa -> 0 < pa < 2 ^ 56.
Proof.
  intros [_ Hp]. pose proof kernel_above_base. pose proof etext_below_end.
  unfold PHYSTOP, KERNBASE in *. lia.
Qed.

Lemma valid_page_aligned pa : valid_page pa -> aligned pa.
Proof. by intros []. Qed.

Lemma chain_valid m p l : chain m p l -> Forall valid_page l.
Proof. revert p. induction l; intros p; simpl; naive_solver. Qed.

Lemma chain_head_range m p l : chain m p l -> 0 <= p < 256 ^ 8.
Proof.
  destruct l as [|q l]; simpl; [intros ->; lia|]. intros (-> & Hq & _).
  apply valid_page_pos in Hq. lia.
Qed.

Lemma same_page_load n m m' p a :
  same_page m m' p -> p <= a -> a + Z.of_nat n <= p + PGSIZE ->
  load n m a = load n m' a.
Proof. intros Hs H1 H2. apply load_ext. intros x Hx. apply Hs. lia. Qed.

Lemma chain_ext m m' p l :
  (forall q, q ∈ l -> same_page m m' q) -> chain m p l -> chain m' p l.
Proof.
  revert p. induction l as [|q l IH]; intros p Hs; simpl; [done|].
  intros (-> & Hq & Hc). split; [done|]. split; [done|].
  rewrite <- (same_page_load 8 m m' q q); [|apply Hs; set_solver|lia|unfold PGSIZE; lia].
  apply IH; [|done]. intros. apply Hs. set_solver.
Qed.

(** Writes inside one page leave every other page alone. *)
Lemma same_page_fill m c p q :
  aligned p -> aligned q -> p <> q -> same_page m (fill m p c PGSIZE) q.
Proof.
  intros Hp Hq Hne x Hx. unfold fill. pose proof (aligned_apart p q Hp Hq Hne).
  bool_to_prop; try done; lia.
Qed.

Lemma same_page_store n m a v p q :
  aligned p -> aligned q -> p <> q -> p <= a -> a + Z.of_nat n <= p + PGSIZE ->
  same_page m (store n m a v) q.
Proof.
  intros Hp Hq Hne H1 H2 x Hx. unfold store. pose proof (aligned_apart p q Hp Hq Hne).
  bool_to_prop; try done; lia.
Qed.

Lemma same_page_copy m src p q :
  aligned p -> aligned q -> q <> p -> same_page m (copy m p src PGSIZE) q.
Proof.
  intros Hp Hq Hne x Hx. unfold copy. pose proof (aligned_apart p q Hp Hq (not_eq_sym Hne)).
  bool_to_prop; try done; lia.
Qed.

Lemma same_page_trans m1 m2 m3 p :
  same_page m1 m2 p -> same_page m2 m3 p -> same_page m1 m3 p.
Proof. unfold same_page. intros H1 H2 x Hx. rewrite H1, H2; done. Qed.

Lemma same_page_refl m p : same_page m m p.
Proof. done. Qed.

(** * Specification of the operations *)

Lemma kfree_valid pa s : valid_page pa ->
  kfree pa s = Ret tt (mk_kmem (store64 (fill (kmem_mem s) pa 1 PGSIZE) pa (kmem_freelist s)) pa).
Proof.
  intros [Ha [H1 H2]]. unfold kfree, aligned in *. rewrite Ha. simpl.
  destruct (Z.ltb_spec pa kend); [lia|]. destruct (Z.leb_spec PHYSTOP pa); [lia|]. done.
Qed.

Lemma kfree_same_page m pa v q : valid_page pa -> aligned q -> q <> pa ->
  same_page m (store64 (fill m pa 1 PGSIZE) pa v) q.
Proof.
  intros Hv Hq Hne. apply same_page_trans with (fill m pa 1 PGSIZE).
  - apply same_page_fill; eauto using valid_page_aligned.
  - apply same_page_store with (p := pa); eauto using valid_page_aligned; unfold PGSIZE; lia.
Qed.

(** Pushing a page. *)
Lemma kfree_ok pa s l :
  freelist_ok s l -> valid_page pa -> pa ∉ l ->
  returns (kfree pa s) (fun _ s' =>
    freelist_ok s' (pa :: l) /\
    forall q, aligned q -> q <> pa -> same_page (kmem_mem s) (kmem_mem s') q).
Proof.
  intros [Hc Hnd] Hv Hni. rewrite kfree_valid by done. simpl. split.
  - split; [|by apply NoDup_cons]. simpl. split; [done|]. split; [done|].
    rewrite load_store_eq by (by eapply chain_head_range).
    eapply chain_ext; [|exact Hc]. intros q Hq.
    apply kfree_same_page; [done| |].
    + apply valid_page_aligned. apply chain_valid in Hc.
      rewrite Forall_forall in Hc. auto.
    + intros ->. done.
  - intros q Hq Hne. by apply kfree_same_page.
Qed.

(** Popping a page. *)
Lemma kalloc_some s p l :
  freelist_ok s (p :: l) ->
  returns (kalloc s) (fun r s' =>
    r = p /\ freelist_ok s' l /\
    (forall q, aligned q -> q <> p -> same_page (kmem_mem s) (kmem_mem s') q)).
Proof.
  intros [(Hp & Hv & Hc) Hnd]. apply NoDup_cons in Hnd as [Hni Hnd].
  unfold kalloc. rewrite Hp. pose proof (valid_page_pos p Hv).
  destruct (Z.eqb_spec p 0); [lia|]. simpl. split; [done|].
  assert (Hsame : forall q, aligned q -> q <> p ->
    same_page (kmem_mem s) (fill (kmem_mem s) p 5 PGSIZE) q).
  { intros. apply same_page_fill; eauto using valid_page_aligned. }
  split; [|done]. split; [|done]. simpl. eapply chain_ext; [|exact Hc].
  intros q Hq. apply Hsame.
  - apply valid_page_aligned. apply chain_valid in Hc. rewrite Forall_forall in Hc. auto.
  - intros ->. done.
Qed.

Lemma kalloc_none s : freelist_ok s [] -> kalloc s = Ret 0 s.
Proof. intros [Hc _]. unfold kalloc. simpl in Hc. rewrite Hc. done. Qed.

(** * Refinement of the abstract free stack *)

(** The abstract allocator: a stack of page addresses. *)
Definition stack_alloc (l : list Z) : Z * list Z :=
  match l with [] => (0, []) | p :: l' => (p, l') end.
Definition stack_free (pa : Z) (l : list Z) : list Z := pa :: l.

(** [kalloc] and [kfree] implement a stack of free pages.  In a state
    whose in-memory list represents the stack [l], [kalloc] returns the top
    (0 when there is none) and leaves a state that represents the rest, and
    [kfree] of a valid page that is not free pushes it; both return, and
    neither touches a byte of any page other than the one it moves. *)
Theorem kalloc_kfree_refine_stack (s : kmem) (l : list Z) (Hok : freelist_ok s l) :
  returns (kalloc s) (fun r s' =>
    r = fst (stack_alloc l) /\ freelist_ok s' (snd (stack_alloc l)) /\
    forall q, aligned q -> q <> r -> same_page (kmem_mem s) (kmem_mem s') q) /\
  forall pa, valid_page pa -> pa ∉ l ->
    returns (kfree pa s) (fun _ s' =>
      freelist_ok s' (stack_free pa l) /\
      forall q, aligned q -> q <> pa -> same_page (kmem_mem s) (kmem_mem s') q).
Proof.
  split; [|intros; by apply kfree_ok].
  destruct l as [|p l].
  - rewrite kalloc_none by done. simpl. split_and!; [done..|]. intros. apply same_page_refl.
  - eapply returns_mono; [by apply kalloc_some|]. simpl. naive_solver.
Qed.

(** whatever is passed to [kfree] that is not a page of allocatable memory
    (not page aligned, below [end], or at or above PHYSTOP) panics, in every
    state, and leaves memory and free list as they were. *)
Theorem kfree_rejects (pa : Z) (s : kmem) :
  kfree pa s = Panic "kfree" s <-> ~ valid_page pa.
Proof.
  unfold kfree, valid_page, aligned.
  destruct (Z.eqb_spec (pa mod PGSIZE) 0), (Z.ltb_spec pa kend), (Z.leb_spec PHYSTOP pa);
    simpl; split; try done; intros; try lia.
Qed.

(** * Initialisation *)

(** The pages of [n] consecutive frames from [base], last first: the order in
    which [freerange] leaves them on the list. *)
Fixpoint frames_from (base : Z) (n : nat) (acc : list Z) : list Z :=
  match n with O => acc | S k => frames_from (base + PGSIZE) k (base :: acc) end.

Lemma elem_of_frames_from base n acc q :
  q ∈ frames_from base n acc <->
  q ∈ acc \/ exists i, 0 <= i < Z.of_nat n /\ q = base + i * PGSIZE.
Proof.
  revert base acc. induction n as [|n IH]; intros base acc; simpl.
  - split; [by left|]. intros [?|(i & ? & _)]; [done|lia].
  - rewrite IH, elem_of_cons. split.
    + intros [[->|?]|(i & Hi & ->)]; [right; exists 0; lia|by left|].
      right. exists (i + 1). lia.
    + intros [?|(i & Hi & ->)]; [tauto|]. destruct (Z.eq_dec i 0) as [->|].
      * left. left. lia.
      * right. exists (i - 1). lia.
Qed.

Lemma freerange_loop_ok n : forall fuel base pa_end s l,
  (n < fuel)%nat -> pa_end < base + (Z.of_nat n + 1) * PGSIZE ->
  base + Z.of_nat n * PGSIZE <= pa_end -> pa_end <= PHYSTOP ->
  aligned base -> kend <= base -> freelist_ok s l ->
  (forall q, q ∈ l -> q < base) ->
  returns (freerange_loop fuel base pa_end s)
    (fun _ s' => freelist_ok s' (frames_from base n l)).
Proof.
  induction n as [|n IH]; intros fuel base pa_end s l Hf H1 H2 H3 Ha Hk Hok Hlt;
    (destruct fuel as [|fuel]; [lia|]); simpl.
  - destruct (Z.leb_spec (base + PGSIZE) pa_end); [lia|]. done.
  - unfold PGSIZE in H1, H2.
    destruct (Z.leb_spec (base + PGSIZE) pa_end); [|unfold PGSIZE in *; lia].
    assert (Hv : valid_page base) by (split; [done|unfold PGSIZE in *; lia]).
    eapply bind_returns.
    + apply kfree_ok; [exact Hok|done|]. intros Hin. specialize (Hlt _ Hin). lia.
    + intros [] s' [Hok' _]. apply IH; try (unfold PGSIZE in *; lia); try done.
      * unfold aligned, PGSIZE in *. zlia.
      * intros q Hq. apply elem_of_cons in Hq as [->|Hq]; [unfold PGSIZE; lia|].
        specialize (Hlt _ Hq). unfold PGSIZE. lia.
Qed.

(** The page frames [kinit] hands to the allocator. *)
Definition nframes : nat := Z.to_nat ((PHYSTOP - PGROUNDUP kend) / PGSIZE).

Lemma kend_bounds : KERNBASE < kend < PHYSTOP.
Proof. pose proof kernel_above_base. pose proof etext_below_end. pose proof kend_below_top. lia. Qed.

Lemma first_frame :
  aligned (PGROUNDUP kend) /\ kend <= PGROUNDUP kend < kend + PGSIZE /\ PGROUNDUP kend <= PHYSTOP.
Proof.
  pose proof kend_bounds. unfold PHYSTOP, KERNBASE in *.
  assert (0 <= kend /\ kend + PGSIZE - 1 < 2 ^ 64) as [? ?] by (unfold PGSIZE; lia).
  pose proof (PGROUNDUP_le kend ltac:(done) ltac:(done)).
  pose proof (PGROUNDUP_aligned kend ltac:(done) ltac:(done)).
  unfold aligned, PGSIZE in *. split_and!; zlia.
Qed.

Lemma kinit_ok m :
  returns (kinit (mk_kmem m 0))
    (fun _ s' => freelist_ok s' (frames_from (PGROUNDUP kend) nframes [])).
Proof.
  destruct first_frame as (Hal & Hle & Htop).
  unfold kinit, freerange. apply freerange_loop_ok; try done; unfold nframes.
  - lia.
  - unfold PGSIZE. zlia.
  - unfold PGSIZE. zlia.
  - lia.
  - split; [done|constructor].
  - intros q Hq. by apply elem_of_nil in Hq.
Qed.

(** booting the allocator from any memory terminates without a panic and
    leaves exactly the allocatable frames free: a page is on the list iff it
    is valid (aligned, in [end, PHYSTOP)), each once. *)
Theorem kinit_frees_all_frames (m : mem) :
  returns (kinit (mk_kmem m 0)) (fun _ s' =>
    exists l, freelist_ok s' l /\ forall q, q ∈ l <-> valid_page q).
Proof.
  eapply returns_mono; [apply kinit_ok|]. intros [] s' Hok.
  eexists. split; [exact Hok|]. intros q.
  destruct first_frame as (Hal & Hle & Htop).
  split.
  - intros Hq. destruct Hok as [Hc _]. apply chain_valid in Hc.
    rewrite Forall_forall in Hc. auto.
  - intros [Ha Hr]. clear Hok s'. apply elem_of_frames_from. right.
    exists ((q - PGROUNDUP kend) / PGSIZE). 
    unfold nframes, aligned, PGSIZE, PHYSTOP, KERNBASE in *.
    split; zlia.
Qed.

End Kalloc.
