(* ===== verification/Vm.v ===== *)
(** Sv39 page tables in physical memory ([kernel/vm.c]): [walk], [walkaddr],
    [ismapped], [mappages], [kvmmap], [uvmcreate], [uvmclear].  Page-table
    pages are ordinary pages of the allocator; the invariant [vm_inv] records
    which page serves which purpose, and the theorems describe every operation
    by its effect on the translation [lookup_pte]. *)
From S2P Require Import Prelude Riscv Kalloc.
Open Scope kern_scope.

Section Vm.
Context `{Layout}.

(** * Memory accesses of the kernel *)

Definition kload (a : Z) : M kmem Z := gets (fun s => load64 (kmem_mem s) a).
Definition kstore (a v : Z) : M kmem unit :=
  modify (fun s => set_mem (store64 (kmem_mem s) a v) s).
Definition kmemset (a c n : Z) : M kmem unit :=
  modify (fun s => set_mem (fill (kmem_mem s) a c n) s).
Definition kmemmove (dst src n : Z) : M kmem unit :=
  modify (fun s => set_mem (copy (kmem_mem s) dst src n) s).

(** * Operations *)

(** The loop of [walk], from [level] down to 1. *)
Fixpoint walk_loop (level : nat) (pagetable va : Z) (alloc : bool) : M kmem Z :=
  match level with
  | O => ret (pagetable + 8 * PX 0 va)
  | S l =>
      let pte := pagetable + 8 * PX (Z.of_nat level) va in
      do e <- kload pte;
      if has e PTE_V then walk_loop l (PTE2PA e) va alloc
      else if negb alloc then ret 0
      else
        do pt <- kalloc;
        if pt =? 0 then ret 0
        else
          kmemset pt 0 PGSIZE ;;;
          kstore pte (Z.lor (PA2PTE pt) PTE_V) ;;;
          walk_loop l pt va alloc
  end.

Definition walk (pagetable va : Z) (alloc : bool) : M kmem Z :=
  if MAXVA <=? va then panic "walk" else walk_loop 2 pagetable va alloc.

Definition walkaddr (pagetable va : Z) : M kmem Z :=
  if MAXVA <=? va then ret 0
  else
    do pte <- walk pagetable va false;
    if pte =? 0 then ret 0
    else
      do e <- kload pte;
      if negb (has e PTE_V) then ret 0
      else if negb (has e PTE_U) then ret 0
      else ret (PTE2PA e).

Definition ismapped (pagetable va : Z) : M kmem Z :=
  do pte <- walk pagetable va false;
  if pte =? 0 then ret 0
  else
    do e <- kload pte;
    if has e PTE_V then ret 1 else ret 0.

Fixpoint mappages_loop (fuel : nat) (pagetable a last pa perm : Z) : M kmem Z :=
  match fuel with
  | O => no_fuel
  | S k =>
      do pte <- walk pagetable a true;
      if pte =? 0 then ret (-1)
      else
        do e <- kload pte;
        if has e PTE_V then ret (-1)
        else
          kstore pte (Z.lor (Z.lor (PA2PTE pa) perm) PTE_V) ;;;
          if a =? last then ret 0
          else mappages_loop k pagetable (u64 (a + PGSIZE)) last (u64 (pa + PGSIZE)) perm
  end.

(** One iteration per page of [size]. *)
Definition mappages (pagetable va size pa perm : Z) : M kmem Z :=
  if negb (va mod PGSIZE =? 0) then panic "mappages: va not aligned"
  else if negb (size mod PGSIZE =? 0) then panic "mappages: size not aligned"
  else if size =? 0 then panic "mappages: size"
  else mappages_loop (Z.to_nat (size / PGSIZE)) pagetable va
         (u64 (va + size - PGSIZE)) pa perm.

Definition kvmmap (kpgtbl va pa sz perm : Z) : M kmem unit :=
  do r <- mappages kpgtbl va sz pa perm;
  if r =? 0 then ret tt else panic "kvmmap".

Definition uvmcreate : M kmem Z :=
  do pagetable <- kalloc;
  if pagetable =? 0 then ret 0
  else kmemset pagetable 0 PGSIZE ;;; ret pagetable.

Definition uvmclear (pagetable va : Z) : M kmem unit :=
  do pte <- walk pagetable va false;
  if pte =? 0 then panic "uvmclear"
  else
    do e <- kload pte;
    kstore pte (Z.land e (Z.lnot PTE_U)).

(** * The translation a page table defines *)

(** The entry reached from table page [pt] at [level], 0 when a level is
    missing. *)
Fixpoint pte_at (m : mem) (level : nat) (pt va : Z) : Z :=
  match level with
  | O => load64 m (pt + 8 * PX 0 va)
  | S l => let e := load64 m (pt + 8 * PX (Z.of_nat level) va) in
           if has e PTE_V then pte_at m l (PTE2PA e) va else 0
  end.

Definition lookup_pte (m : mem) (pagetable va : Z) : Z := pte_at m 2 pagetable va.

(** The address of that entry, 0 when a level is missing. *)
Fixpoint slot_at (m : mem) (level : nat) (pt va : Z) : Z :=
  match level with
  | O => pt + 8 * PX 0 va
  | S l => let e := load64 m (pt + 8 * PX (Z.of_nat level) va) in
           if has e PTE_V then slot_at m l (PTE2PA e) va else 0
  end.

(** * Ownership of pages *)

(** What an allocated page is used for: a table page of the page table rooted
    at [root], serving the addresses with [prefix] at [level]; or the frame
    that user page [vpn] of [root] maps. *)
Inductive use :=
| Table (root level pre : Z)
| Frame (root page : Z).

#[export] Instance use_eq_dec : EqDecision use.
Proof. solve_decision. Defined.

Definition is_root (own : gmap Z use) (r : Z) : Prop := own !! r = Some (Table r 2 0).

(** Table page [p] is the root of its page table, or a table one level up points
    to it. *)
Definition linked (m : mem) (own : gmap Z use) (p r l pre : Z) : Prop :=
  l = 2 /\ p = r /\ pre = 0 \/
  exists q qpre i, own !! q = Some (Table r (l + 1) qpre) /\ 0 <= i < 512 /\ pre = qpre * 512 + i /\
    has (load64 m (q + 8 * i)) PTE_V = true /\ PTE2PA (load64 m (q + 8 * i)) = p.

Record vm_inv (s : kmem) (own : gmap Z use) (free : list Z) : Prop := {
  inv_free : freelist_ok s free;
  inv_valid : forall p u, own !! p = Some u -> valid_page p;
  inv_level : forall p r l pre, own !! p = Some (Table r l pre) -> 0 <= l <= 2;
  inv_notfree : forall p, p ∈ free -> own !! p = None;
  inv_child : forall p r l pre i,
    own !! p = Some (Table r l pre) -> 0 < l -> 0 <= i < 512 ->
    let e := load64 (kmem_mem s) (p + 8 * i) in
    has e PTE_V = true -> own !! PTE2PA e = Some (Table r (l - 1) (pre * 512 + i));
  inv_pointer : forall p r l pre i,
    own !! p = Some (Table r l pre) -> 0 < l -> 0 <= i < 512 ->
    let e := load64 (kmem_mem s) (p + 8 * i) in
    has e PTE_V = true -> Z.land e (Z.lor (Z.lor PTE_R PTE_W) PTE_X) = 0;
  inv_prefix : forall p r l pre, own !! p = Some (Table r l pre) -> exists va, 0 <= va < MAXVA /\ pre = prefix l va;
  inv_linked : forall p r l pre, own !! p = Some (Table r l pre) -> linked (kmem_mem s) own p r l pre
}.

(** Interior (pointer-holding) table pages. *)
Definition interior (u : use) : Prop :=
  match u with Table _ l _ => 0 < l | Frame _ _ => False end.

Lemma inv_aligned s own free p u : vm_inv s own free -> own !! p = Some u -> aligned p.
Proof. intros Hi Hp. by destruct (inv_valid _ _ _ Hi p u Hp). Qed.

Lemma inv_pos s own free p u : vm_inv s own free -> own !! p = Some u -> 0 < p < 2 ^ 56.
Proof. intros Hi Hp. apply valid_page_pos. by eapply inv_valid. Qed.

Lemma slot_in_page p i : 0 <= i < 512 -> p <= p + 8 * i /\ p + 8 * i + 8 <= p + PGSIZE.
Proof. unfold PGSIZE. lia. Qed.

(** ** Walking without allocation *)

(** The table page a walk is at, after the levels above it. *)
Lemma step_down s own free p r l va :
  vm_inv s own free -> own !! p = Some (Table r (Z.of_nat (S l)) (prefix (Z.of_nat (S l)) va)) ->
  let e := load64 (kmem_mem s) (p + 8 * PX (Z.of_nat (S l)) va) in
  has e PTE_V = true ->
  own !! PTE2PA e = Some (Table r (Z.of_nat l) (prefix (Z.of_nat l) va)).
Proof.
  intros Hi Hp e He.
  pose proof (inv_child _ _ _ Hi p r _ _ (PX (Z.of_nat (S l)) va) Hp ltac:(lia)
    ltac:(apply PX_range; lia) He) as Hc.
  refine (eq_trans Hc _). do 2 f_equal; [lia|].
  rewrite (prefix_step (Z.of_nat l)) by lia.
  replace (Z.of_nat l + 1) with (Z.of_nat (S l)) by lia. done.
Qed.

Lemma walk_loop_noalloc s level pt va :
  walk_loop level pt va false s = Ret (slot_at (kmem_mem s) level pt va) s.
Proof.
  revert pt. induction level as [|l IH]; intros pt; [done|].
  cbn [walk_loop slot_at]. unfold bind, kload, gets.
  destruct (has _ PTE_V); [apply IH|done].
Qed.

Lemma walk_noalloc s pt va : va < MAXVA ->
  walk pt va false s = Ret (slot_at (kmem_mem s) 2 pt va) s.
Proof.
  intros. unfold walk. destruct (Z.leb_spec MAXVA va); [lia|]. apply walk_loop_noalloc.
Qed.

(** A walk ends at a slot of the level-0 table page for the address, or
    nowhere. *)
Lemma slot_at_leaf s own free level p r va :
  vm_inv s own free ->
  own !! p = Some (Table r (Z.of_nat level) (prefix (Z.of_nat level) va)) ->
  let a := slot_at (kmem_mem s) level p va in
  (a = 0 /\ pte_at (kmem_mem s) level p va = 0) \/
  (exists p0, own !! p0 = Some (Table r 0 (prefix 0 va)) /\ a = p0 + 8 * PX 0 va /\
     0 < a /\ pte_at (kmem_mem s) level p va = load64 (kmem_mem s) a).
Proof.
  intros Hi. revert p. induction level as [|l IH]; intros p Hp; cbn [slot_at pte_at].
  - right. exists p. pose proof (inv_pos _ _ _ _ _ Hi Hp). pose proof (PX_range 0 va).
    split_and!; [done|done|lia|done].
  - destruct (has _ PTE_V) eqn:He; [|by left]. apply IH. by eapply step_down.
Qed.

Lemma slot_at_root s own free r va :
  vm_inv s own free -> is_root own r -> 0 <= va < MAXVA ->
  let a := slot_at (kmem_mem s) 2 r va in
  (a = 0 /\ lookup_pte (kmem_mem s) r va = 0) \/
  (exists p0, own !! p0 = Some (Table r 0 (prefix 0 va)) /\ a = p0 + 8 * PX 0 va /\
     0 < a /\ lookup_pte (kmem_mem s) r va = load64 (kmem_mem s) a).
Proof.
  intros Hi Hr Hva. apply (slot_at_leaf s own free 2 r r va); [done|].
  change (Z.of_nat 2) with 2. rewrite prefix_top by done. exact Hr.
Qed.

(** ** Frame lemmas *)

(** Changing memory outside the interior table pages leaves every walk as it
    was. *)
Lemma slot_at_same s own free m' level p r va :
  vm_inv s own free ->
  own !! p = Some (Table r (Z.of_nat level) (prefix (Z.of_nat level) va)) ->
  (forall q u, own !! q = Some u -> interior u -> same_page (kmem_mem s) m' q) ->
  slot_at m' level p va = slot_at (kmem_mem s) level p va.
Proof.
  intros Hi Hp Hs. revert p Hp. induction level as [|l IH]; intros p Hp; [done|].
  cbn [slot_at].
  destruct (slot_in_page p (PX (Z.of_nat (S l)) va) ltac:(apply PX_range; lia)).
  rewrite <- (same_page_load 8 (kmem_mem s) m' p) by
    (try apply (Hs _ _ Hp); simpl; try done; lia).
  destruct (has _ PTE_V) eqn:He; [|done]. apply IH. by eapply step_down.
Qed.

Lemma pte_at_same s own free m' level p r va :
  vm_inv s own free ->
  own !! p = Some (Table r (Z.of_nat level) (prefix (Z.of_nat level) va)) ->
  (forall q u, own !! q = Some u -> interior u -> same_page (kmem_mem s) m' q) ->
  (forall q, own !! q = Some (Table r 0 (prefix 0 va)) ->
     load64 m' (q + 8 * PX 0 va) = load64 (kmem_mem s) (q + 8 * PX 0 va)) ->
  pte_at m' level p va = pte_at (kmem_mem s) level p va.
Proof.
  intros Hi Hp Hs Hleaf. revert p Hp. induction level as [|l IH]; intros p Hp; [by apply Hleaf|].
  cbn [pte_at].
  destruct (slot_in_page p (PX (Z.of_nat (S l)) va) ltac:(apply PX_range; lia)).
  rewrite <- (same_page_load 8 (kmem_mem s) m' p) by
    (try apply (Hs _ _ Hp); simpl; try done; lia).
  destruct (has _ PTE_V) eqn:He; [|done]. apply IH. by eapply step_down.
Qed.

Lemma root_table own r va : is_root own r -> 0 <= va < MAXVA ->
  own !! r = Some (Table r (Z.of_nat 2) (prefix (Z.of_nat 2) va)).
Proof. intros Hr Hva. change (Z.of_nat 2) with 2. by rewrite prefix_top. Qed.

(** The invariant only reads interior tables and free pages. *)
Lemma vm_inv_frame s own free m' :
  vm_inv s own free ->
  (forall q u, own !! q = Some u -> interior u -> same_page (kmem_mem s) m' q) ->
  (forall q, q ∈ free -> same_page (kmem_mem s) m' q) ->
  vm_inv (set_mem m' s) own free.
Proof.
  intros Hi Hint Hfr.
  assert (Hld : forall p r l pre i, own !! p = Some (Table r l pre) -> 0 < l -> 0 <= i < 512 -> load64 m' (p + 8 * i) = load64 (kmem_mem s) (p + 8 * i)).
  { intros p r l pre i Hp Hl Hix. destruct (slot_in_page p i Hix). symmetry.
    apply (same_page_load 8 _ _ p); [by apply (Hint _ _ Hp)|done|done]. }
  constructor; simpl; try apply Hi.
  - destruct (inv_free _ _ _ Hi) as [Hc Hnd]. split; [|done]. simpl. by eapply chain_ext.
  - intros p r l pre i Hp Hl Hix. rewrite (Hld p r l pre) by done. by apply (inv_child _ _ _ Hi).
  - intros p r l pre i Hp Hl Hix. rewrite (Hld p r l pre) by done. by apply (inv_pointer _ _ _ Hi p r l pre).
  - intros p r l pre Hp. pose proof (inv_level _ _ _ Hi _ _ _ _ Hp).
    destruct (inv_linked _ _ _ Hi _ _ _ _ Hp) as [?|(q & qpre & i & Hq & Hix & Hpre & Hv & Hpa)]; [by left|right].
    exists q, qpre, i. rewrite (Hld q r (l + 1) qpre) by (done || lia). done.
Qed.

Lemma own_not_free s own free p u q :
  vm_inv s own free -> own !! p = Some u -> q ∈ free -> q <> p.
Proof. intros Hi Hp Hq ->. rewrite (inv_notfree _ _ _ Hi) in Hp; done. Qed.

Lemma free_aligned s own free q : vm_inv s own free -> q ∈ free -> aligned q.
Proof.
  intros Hi Hq. destruct (inv_free _ _ _ Hi) as [Hc _]. apply chain_valid in Hc.
  rewrite Forall_forall in Hc. by destruct (Hc q Hq).
Qed.

(** Writing inside an allocated page that is not an interior table. *)
Lemma write_inv s own free m' p u :
  vm_inv s own free -> own !! p = Some u -> ~ interior u ->
  (forall q, aligned q -> q <> p -> same_page (kmem_mem s) m' q) ->
  vm_inv (set_mem m' s) own free.
Proof.
  intros Hi Hp Hu Hs. apply vm_inv_frame; [done| |].
  - intros q v Hq Hv. apply Hs; [by eapply inv_aligned|]. intros ->. naive_solver.
  - intros q Hq. apply Hs; [by eapply free_aligned|]. by eapply own_not_free.
Qed.

(** ** Storing a leaf entry *)

Definition leaf_written s p0 i v := set_mem (store64 (kmem_mem s) (p0 + 8 * i) v) s.

Lemma leaf_same s own free r pre p0 i v q :
  vm_inv s own free -> own !! p0 = Some (Table r 0 pre) -> 0 <= i < 512 ->
  aligned q -> q <> p0 -> same_page (kmem_mem s) (kmem_mem (leaf_written s p0 i v)) q.
Proof.
  intros Hi Hp0 Hix Hq Hne. destruct (slot_in_page p0 i Hix).
  apply same_page_store with (p := p0); try done; try lia. by eapply inv_aligned.
Qed.

Lemma leaf_inv s own free r pre p0 i v :
  vm_inv s own free -> own !! p0 = Some (Table r 0 pre) -> 0 <= i < 512 ->
  vm_inv (leaf_written s p0 i v) own free.
Proof.
  intros Hi Hp0 Hix. apply (write_inv s own free _ p0 (Table r 0 pre)); [done|done|simpl; lia|].
  intros. by eapply leaf_same.
Qed.

(** A leaf store changes exactly one translation. *)
Lemma leaf_lookup s own free r va p0 v r' va' :
  vm_inv s own free -> is_root own r' -> 0 <= va' < MAXVA ->
  own !! p0 = Some (Table r 0 (prefix 0 va)) ->
  (r', vpn va') <> (r, vpn va) ->
  lookup_pte (kmem_mem (leaf_written s p0 (PX 0 va) v)) r' va' = lookup_pte (kmem_mem s) r' va'.
Proof.
  intros Hi Hr' Hva' Hp0 Hne. eapply (pte_at_same s own free); [done|by apply root_table| |].
  - intros q u Hq Hu. eapply leaf_same; [done|done|apply PX_range; lia|by eapply inv_aligned|].
    intros ->. rewrite Hp0 in Hq. injection Hq as <-. simpl in Hu. lia.
  - intros q Hq. unfold leaf_written. simpl. pose proof (PX_range 0 va). pose proof (PX_range 0 va').
    destruct (decide (q = p0)) as [->|Hqp].
    + apply load_store_ne. assert (PX 0 va' <> PX 0 va); [|lia].
      intros HPX. rewrite Hp0 in Hq. injection Hq as -> Hpre. apply Hne.
      f_equal. rewrite !vpn_split. lia.
    + pose proof (aligned_apart q p0 ltac:(by eapply inv_aligned) ltac:(by eapply inv_aligned) Hqp).
      apply load_store_ne. unfold PGSIZE in *. lia.
Qed.

Lemma leaf_lookup_eq s own free r va p0 v :
  vm_inv s own free -> is_root own r -> 0 <= va < MAXVA ->
  slot_at (kmem_mem s) 2 r va = p0 + 8 * PX 0 va ->
  own !! p0 = Some (Table r 0 (prefix 0 va)) -> 0 <= v < 256 ^ 8 ->
  lookup_pte (kmem_mem (leaf_written s p0 (PX 0 va) v)) r va = v.
Proof.
  intros Hi Hr Hva Hslot Hp0 Hv.
  pose proof (leaf_inv s own free r _ p0 (PX 0 va) v Hi Hp0 ltac:(apply PX_range; lia)) as Hi'.
  assert (slot_at (kmem_mem (leaf_written s p0 (PX 0 va) v)) 2 r va = p0 + 8 * PX 0 va) as Hs'.
  { rewrite <- Hslot. eapply (slot_at_same s own free); [done|by apply root_table|].
    intros q u Hq Hu. eapply leaf_same; [done|done|apply PX_range; lia|by eapply inv_aligned|].
    intros ->. rewrite Hp0 in Hq. injection Hq as <-. simpl in Hu. lia. }
  pose proof (inv_pos _ _ _ _ _ Hi Hp0). pose proof (PX_range 0 va).
  destruct (slot_at_root _ _ _ r va Hi' Hr Hva) as [[Ha _]|(p1 & _ & _ & _ & Hl)].
  - rewrite Hs' in Ha. lia.
  - rewrite Hl, Hs'. unfold leaf_written. simpl. by apply load_store_eq.
Qed.

(** ** Allocating table pages *)

(** [s'] is [s] with the pages [used], taken from the free list, added as
    table pages: no translation changes, valid pointers stay, and every
    allocated page that is not an interior table keeps its contents. *)
Record extends (rt : Z) (s : kmem) own free (s' : kmem) (own' : gmap Z use) (free' used : list Z) : Prop := {
  ext_inv : vm_inv s' own' free';
  ext_own : own ⊆ own';
  ext_free : free = used ++ free';
  ext_new : forall q u, own' !! q = Some u ->
    own !! q = Some u \/ (q ∈ used /\ exists l pre, u = Table rt l pre);
  ext_used : forall q, q ∈ used -> is_Some (own' !! q);
  ext_lookup : forall r va, is_root own r -> 0 <= va < MAXVA ->
    lookup_pte (kmem_mem s') r va = lookup_pte (kmem_mem s) r va;
  ext_entries : forall p r l pre i, own !! p = Some (Table r l pre) -> 0 < l -> 0 <= i < 512 ->
    has (load64 (kmem_mem s) (p + 8 * i)) PTE_V = true ->
    load64 (kmem_mem s') (p + 8 * i) = load64 (kmem_mem s) (p + 8 * i);
  ext_keep : forall q, aligned q -> q ∉ used -> (forall u, own !! q = Some u -> ~ interior u) ->
    same_page (kmem_mem s) (kmem_mem s') q
}.

Lemma extends_refl rt s own free : vm_inv s own free -> extends rt s own free s own free [].
Proof. intros. constructor; try done; [naive_solver|by intros q ?%elem_of_nil]. Qed.

Lemma is_root_mono own own' r : own ⊆ own' -> is_root own r -> is_root own' r.
Proof. unfold is_root. intros Hs Hr. by eapply lookup_weaken. Qed.

Lemma extends_trans rt s1 o1 f1 s2 o2 f2 u1 s3 o3 f3 u2 :
  vm_inv s1 o1 f1 -> extends rt s1 o1 f1 s2 o2 f2 u1 -> extends rt s2 o2 f2 s3 o3 f3 u2 ->
  extends rt s1 o1 f1 s3 o3 f3 (u1 ++ u2).
Proof.
  intros Hi E1 E2. constructor.
  - apply E2.
  - etrans; [apply E1|apply E2].
  - rewrite (ext_free _ _ _ _ _ _ _ _ E1), (ext_free _ _ _ _ _ _ _ _ E2). apply app_assoc.
  - intros q u Hq. destruct (ext_new _ _ _ _ _ _ _ _ E2 q u Hq) as [Hq2|[? ?]]; [|set_solver].
    destruct (ext_new _ _ _ _ _ _ _ _ E1 q u Hq2) as [?|[? ?]]; [by left|set_solver].
  - intros q Hq. apply elem_of_app in Hq as [Hq|Hq]; [|by apply E2].
    apply (ext_used _ _ _ _ _ _ _ _ E1) in Hq as [u Hq]. exists u. eapply lookup_weaken; [exact Hq|apply E2].
  - intros r va Hr Hva. rewrite (ext_lookup _ _ _ _ _ _ _ _ E2), (ext_lookup _ _ _ _ _ _ _ _ E1); try done.
    eapply is_root_mono; [apply E1|done].
  - intros p r l pre i Hp Hl Hix He.
    pose proof (ext_entries _ _ _ _ _ _ _ _ E1 p r l pre i Hp Hl Hix He) as H1.
    rewrite <- H1. eapply (ext_entries _ _ _ _ _ _ _ _ E2); try done; [|by rewrite H1].
    eapply lookup_weaken; [done|apply E1].
  - intros q Hq Hnu Hu. eapply same_page_trans.
    + apply (ext_keep _ _ _ _ _ _ _ _ E1); [done|set_solver|done].
    + apply (ext_keep _ _ _ _ _ _ _ _ E2); [done|set_solver|].
      intros u Hqu. destruct (ext_new _ _ _ _ _ _ _ _ E1 q u Hqu) as [?|[? ?]]; [auto|set_solver].
Qed.

(** The state after [walk] has hung a fresh zeroed page [pt] below slot [i] of
    table page [p]. *)
Definition hung (s1 : kmem) p i pt :=
  set_mem (store64 (fill (kmem_mem s1) pt 0 PGSIZE) (p + 8 * i) (Z.lor (PA2PTE pt) PTE_V)) s1.

Lemma hung_same s1 p i pt q : aligned p -> aligned pt -> 0 <= i < 512 ->
  aligned q -> q <> p -> q <> pt -> same_page (kmem_mem s1) (kmem_mem (hung s1 p i pt)) q.
Proof.
  intros Hp Hpt Hix Hq H1 H2. destruct (slot_in_page p i Hix).
  apply same_page_trans with (fill (kmem_mem s1) pt 0 PGSIZE); [by apply same_page_fill|].
  apply same_page_store with (p := p); try done; lia.
Qed.

Lemma hung_slot s1 p i pt : valid_page pt ->
  load64 (kmem_mem (hung s1 p i pt)) (p + 8 * i) = Z.lor (PA2PTE pt) PTE_V.
Proof.
  intros Hv%valid_page_pos. unfold hung. simpl. apply load_store_eq.
  apply pte_make_range; [lia|flags].
Qed.

Lemma hung_other s1 p i pt j : aligned p -> aligned pt -> p <> pt ->
  0 <= i < 512 -> 0 <= j < 512 -> i <> j ->
  load64 (kmem_mem (hung s1 p i pt)) (p + 8 * j) = load64 (kmem_mem s1) (p + 8 * j).
Proof.
  intros Hp Hpt Hne Hi Hj Hij. unfold hung. simpl. rewrite load_store_ne by lia.
  apply load_fill_ne. pose proof (aligned_apart p pt Hp Hpt Hne). unfold PGSIZE in *. lia.
Qed.

Lemma hung_zero s1 p i pt j : aligned p -> aligned pt -> p <> pt ->
  0 <= i < 512 -> 0 <= j < 512 -> load64 (kmem_mem (hung s1 p i pt)) (pt + 8 * j) = 0.
Proof.
  intros Hp Hpt Hne Hi Hj. unfold hung. simpl.
  pose proof (aligned_apart p pt Hp Hpt Hne). unfold PGSIZE in *.
  rewrite load_store_ne by lia. apply load_fill_zero; lia.
Qed.

Lemma has_pointer pt : valid_page pt -> has (Z.lor (PA2PTE pt) PTE_V) PTE_V = true.
Proof. intros Hv%valid_page_pos. rewrite has_make; [done|lia|flags|flags]. Qed.

Lemma pointer_flags pt : valid_page pt -> Z.land (Z.lor (PA2PTE pt) PTE_V) (Z.lor (Z.lor PTE_R PTE_W) PTE_X) = 0.
Proof.
  intros Hv%valid_page_pos. pose proof (has_make pt PTE_V (Z.lor (Z.lor PTE_R PTE_W) PTE_X) ltac:(lia) ltac:(flags) ltac:(done)) as E.
  unfold has in E. change (Z.land PTE_V (Z.lor (Z.lor PTE_R PTE_W) PTE_X)) with 0 in E. by apply negb_false_iff, Z.eqb_eq in E.
Qed.

Lemma PTE2PA_pointer pt : valid_page pt -> PTE2PA (Z.lor (PA2PTE pt) PTE_V) = pt.
Proof.
  intros Hv. pose proof (valid_page_pos _ Hv). apply PTE2PA_make; [lia| |flags].
  by apply valid_page_aligned.
Qed.

Lemma pte_at_zero_page m level pt va :
  (forall j, 0 <= j < 512 -> load64 m (pt + 8 * j) = 0) -> pte_at m level pt va = 0.
Proof.
  intros Hz. destruct level as [|l]; cbn [pte_at]; rewrite Hz by (apply PX_range; lia); done.
Qed.

Section Hang.
Variables (s s1 : kmem) (own : gmap Z use) (free1 : list Z) (p r l pre i pt : Z).
Hypothesis Hinv : vm_inv s own (pt :: free1).
Hypothesis Hparent : own !! p = Some (Table r l pre).
Hypothesis Hlevel : 0 < l.
Hypothesis Hindex : 0 <= i < 512.
Hypothesis Hpre : exists va, 0 <= va < MAXVA /\ pre * 512 + i = prefix (l - 1) va.
Hypothesis Hempty : has (load64 (kmem_mem s) (p + 8 * i)) PTE_V = false.
Hypothesis Halloc : freelist_ok s1 free1.
Hypothesis Hkept : forall q, aligned q -> q <> pt -> same_page (kmem_mem s) (kmem_mem s1) q.

Let own1 := <[pt := Table r (l - 1) (pre * 512 + i)]> own.
Let s2 := hung s1 p i pt.

Lemma hang_valid : valid_page pt.
  Proof. destruct (inv_free _ _ _ Hinv) as [(_ & Hv & _) _]. done. Qed.

Lemma hang_fresh : own !! pt = None.
  Proof. apply (inv_notfree _ _ _ Hinv). set_solver. Qed.

Lemma hang_ne q u : own !! q = Some u -> q <> pt.
  Proof. intros Hq ->. rewrite hang_fresh in Hq. done. Qed.

Lemma hang_same q : aligned q -> q <> p -> q <> pt ->
    same_page (kmem_mem s) (kmem_mem s2) q.
  Proof.
    intros Hq H1 H2. eapply same_page_trans; [by apply Hkept|].
    apply hung_same; try done; [by eapply inv_aligned|apply valid_page_aligned, hang_valid].
  Qed.

Lemma hang_same_slot j : 0 <= j < 512 -> i <> j ->
    load64 (kmem_mem s2) (p + 8 * j) = load64 (kmem_mem s) (p + 8 * j).
  Proof.
    intros Hj Hij. pose proof (hang_ne _ _ Hparent).
    pose proof (inv_aligned _ _ _ _ _ Hinv Hparent) as Hal. destruct (slot_in_page p j Hj).
    unfold s2. rewrite hung_other by
      (done || apply valid_page_aligned, hang_valid).
    symmetry. apply (same_page_load 8 _ _ p); [by apply Hkept|done|done].
  Qed.

Lemma hang_free_same q : q ∈ free1 -> same_page (kmem_mem s1) (kmem_mem s2) q.
  Proof.
    intros Hq. destruct (inv_free _ _ _ Hinv) as [_ Hnd]. apply NoDup_cons in Hnd as [Hni _].
    assert (Hq' : q ∈ pt :: free1) by set_solver.
    apply hung_same; try done.
    - by eapply inv_aligned.
    - apply valid_page_aligned, hang_valid.
    - by eapply free_aligned.
    - by eapply own_not_free.
    - intros ->. done.
  Qed.

Lemma hang_load q r' l' pre' j : own !! q = Some (Table r' l' pre') -> 0 < l' -> 0 <= j < 512 ->
    load64 (kmem_mem s2) (q + 8 * j) = if decide (q = p /\ j = i) then Z.lor (PA2PTE pt) PTE_V else load64 (kmem_mem s) (q + 8 * j).
  Proof.
    intros Hq Hl Hj. case_decide as Hd; [destruct Hd as [-> ->]; apply hung_slot, hang_valid|]. destruct (decide (q = p)) as [->|Hqp].
    - apply hang_same_slot; [done|]. intros ->. tauto.
    - destruct (slot_in_page q j Hj). symmetry. apply (same_page_load 8 _ _ q); [|done|done].
      apply hang_same; [by eapply inv_aligned|done|by eapply hang_ne].
  Qed.

Lemma hang_inv : vm_inv s2 own1 free1.
  Proof.
    pose proof hang_valid as Hv. pose proof hang_fresh as Hfr.
    destruct (inv_free _ _ _ Hinv) as [_ Hnd]. apply NoDup_cons in Hnd as [Hni _].
    pose proof (inv_level _ _ _ Hinv _ _ _ _ Hparent). constructor.
    - destruct Halloc as [Hc Hnd1]. split; [|done]. simpl. eapply chain_ext; [|exact Hc].
      apply hang_free_same.
    - intros q u. unfold own1. rewrite lookup_insert. case_decide; [naive_solver|]. apply Hinv.
    - intros q r' l' pre'. unfold own1. rewrite lookup_insert. case_decide; [|apply Hinv].
      intros [= <- <- <-]. lia.
    - intros q Hq. unfold own1. rewrite lookup_insert_ne by (intros ->; done).
      apply Hinv. set_solver.
    - intros q r' l' pre' j. unfold own1 at 1. rewrite lookup_insert. case_decide as Hd.
      + intros [= <- <- <-] Hl Hj. subst q. unfold s2.
        rewrite hung_zero; try done; [by eapply inv_aligned|by apply valid_page_aligned|].
        by eapply hang_ne.
      + intros Hq Hl Hj. cbv zeta. destruct (decide (q = p)) as [->|Hqp].
        * rewrite Hparent in Hq. injection Hq as <- <- <-.
          destruct (decide (i = j)) as [<-|Hij].
          -- unfold s2. rewrite hung_slot by done. intros _. rewrite PTE2PA_pointer by done.
             unfold own1. by rewrite lookup_insert_eq.
          -- rewrite hang_same_slot by done. intros He.
             pose proof (inv_child _ _ _ Hinv p r l pre j Hparent Hl Hj He) as Hc.
             unfold own1. rewrite lookup_insert_ne; [done|]. intros Heq.
             rewrite <- Heq, Hfr in Hc. done.
        * pose proof (inv_aligned _ _ _ _ _ Hinv Hq). destruct (slot_in_page q j Hj).
          rewrite <- (same_page_load 8 (kmem_mem s) (kmem_mem s2) q); [|by apply hang_same|done|done].
          intros He. pose proof (inv_child _ _ _ Hinv q r' l' pre' j Hq Hl Hj He) as Hc.
          unfold own1. rewrite lookup_insert_ne; [done|]. intros Heq.
          rewrite <- Heq, Hfr in Hc. done.
    - intros q r' l' pre' j. unfold own1 at 1. rewrite lookup_insert. case_decide as Hd.
      + intros _ Hl Hj. subst q. unfold s2.
        rewrite hung_zero; try done; [by eapply inv_aligned|by apply valid_page_aligned|by eapply hang_ne].
      + intros Hq Hl Hj. cbv zeta. rewrite (hang_load q r' l' pre') by done. case_decide; [intros _; by apply pointer_flags|].
        by apply (inv_pointer _ _ _ Hinv q r' l' pre').
    - intros q r' l' pre'. unfold own1. rewrite lookup_insert. case_decide; [intros [= <- <- <-]; exact Hpre|apply Hinv].
    - intros q r' l' pre'. unfold own1. rewrite lookup_insert. case_decide as Hd.
      + intros [= <- <- <-]. subst q. right. exists p, pre, i. replace (l - 1 + 1) with l by lia.
        rewrite lookup_insert_ne by (by apply not_eq_sym, (hang_ne _ _ Hparent)). unfold s2. rewrite hung_slot by done.
        rewrite has_pointer, PTE2PA_pointer by done. done.
      + intros Hq. destruct (inv_linked _ _ _ Hinv _ _ _ _ Hq) as [?|(q' & qpre & j & Hq' & Hj & Hqp & He & Hpa)]; [by left|right].
        pose proof (inv_level _ _ _ Hinv _ _ _ _ Hq). exists q', qpre, j.
        rewrite lookup_insert_ne by (by apply not_eq_sym, (hang_ne _ _ Hq')). rewrite (hang_load q' r' (l' + 1) qpre) by (done || lia).
        case_decide as Hc; [destruct Hc as [-> ->]; congruence|]. done.
  Qed.

Lemma hang_pte_at level q r' va :
    own !! q = Some (Table r' (Z.of_nat level) (prefix (Z.of_nat level) va)) ->
    pte_at (kmem_mem s2) level q va = pte_at (kmem_mem s) level q va.
  Proof.
    pose proof hang_valid as Hv.
    revert q. induction level as [|k IH]; intros q Hq; cbn [pte_at].
    - assert (q <> p) by (intros ->; rewrite Hparent in Hq; injection Hq; lia).
      destruct (slot_in_page q (PX 0 va) ltac:(apply PX_range; lia)).
      symmetry. apply (same_page_load 8 _ _ q); [|done|done].
      apply hang_same; [by eapply inv_aligned|done|by eapply hang_ne].
    - set (j := PX (Z.of_nat (S k)) va). assert (Hj : 0 <= j < 512) by (apply PX_range; lia).
      destruct (decide (q = p /\ j = i)) as [[-> Hji]|Hno].
      + rewrite Hji, Hempty. unfold s2. rewrite hung_slot, has_pointer, PTE2PA_pointer by done.
        apply pte_at_zero_page. intros. apply hung_zero; try done;
          [by eapply inv_aligned|by apply valid_page_aligned|by eapply hang_ne].
      + assert (load64 (kmem_mem s2) (q + 8 * j) = load64 (kmem_mem s) (q + 8 * j)) as ->.
        { destruct (decide (q = p)) as [->|Hqp]; [apply hang_same_slot; naive_solver|].
          destruct (slot_in_page q j Hj). symmetry. apply (same_page_load 8 _ _ q); [|done|done].
          apply hang_same; [by eapply inv_aligned|done|by eapply hang_ne]. }
        destruct (has (load64 _ (q + 8 * j)) PTE_V) eqn:He; [|done]. apply IH. by eapply step_down.
  Qed.

Lemma hang_extends : extends r s own (pt :: free1) s2 own1 free1 [pt].
  Proof.
    pose proof hang_fresh as Hfr. constructor.
    - apply hang_inv.
    - by apply insert_subseteq.
    - done.
    - intros q u. unfold own1. rewrite lookup_insert. case_decide as Hd; [|by left].
      intros [= <-]. subst q. right. split; [set_solver|eauto].
    - intros q Hq. apply list_elem_of_singleton in Hq as ->. unfold own1. rewrite lookup_insert_eq. eauto.
    - intros r' va Hr Hva. eapply hang_pte_at. by apply root_table.
    - intros q r' l' pre' j Hq Hl Hj He. destruct (decide (q = p)) as [->|Hqp].
      + apply hang_same_slot; [done|]. intros ->. congruence.
      + destruct (slot_in_page q j Hj). symmetry. apply (same_page_load 8 _ _ q); [|done|done].
        apply hang_same; [by eapply inv_aligned|done|by eapply hang_ne].
    - intros q Hq Hnu Hu. apply hang_same; [done| |set_solver].
      intros ->. by apply (Hu _ Hparent).
  Qed.
End Hang.

(** Tables that page table [r] has gained lie on the way to pages of [D]. *)
Definition new_tables (r : Z) (D : Z -> Prop) (own own' : gmap Z use) : Prop := forall q u, own' !! q = Some u ->
  own !! q = Some u \/ exists l va, 0 <= l < 2 /\ 0 <= va < MAXVA /\ D (vpn va) /\ u = Table r l (prefix l va).

Lemma new_tables_trans r (D1 D2 D : Z -> Prop) own own1 own2 : new_tables r D1 own own1 -> new_tables r D2 own1 own2 ->
  (forall v, D1 v \/ D2 v -> D v) -> new_tables r D own own2.
Proof.
  intros H1 H2 HD q u Hq. destruct (H2 q u Hq) as [Hq1|(l & va & ? & ? & ? & ?)]; [|right; exists l, va; auto 6].
  destruct (H1 q u Hq1) as [?|(l & va & ? & ? & ? & ?)]; [by left|right; exists l, va; auto 6].
Qed.
Lemma new_tables_refl r D own : new_tables r D own own.
Proof. intros q u. by left. Qed.

(** Walking with allocation: the page table gains the missing tables, or the
    allocator is empty. *)
Lemma walk_loop_alloc level : forall s own free p r va,
  vm_inv s own free -> 0 <= va < MAXVA -> (level <= 2)%nat ->
  own !! p = Some (Table r (Z.of_nat level) (prefix (Z.of_nat level) va)) ->
  returns (walk_loop level p va true s) (fun a s' => exists own' free' used,
    extends r s own free s' own' free' used /\ new_tables r (fun v => v = vpn va) own own' /\
    ((a = 0 /\ free' = []) \/ (0 < a /\ a = slot_at (kmem_mem s') level p va))).
Proof.
  induction level as [|l IH]; intros s own free p r va Hi Hva Hlv Hp; cbn [walk_loop].
  - simpl. exists own, free, []. split; [by apply extends_refl|]. split; [apply new_tables_refl|]. right.
    pose proof (inv_pos _ _ _ _ _ Hi Hp). pose proof (PX_range 0 va). split; [lia|done].
  - set (i := PX (Z.of_nat (S l)) va). assert (Hix : 0 <= i < 512) by (apply PX_range; lia).
    unfold bind at 1, kload, gets. destruct (has (load64 _ _) PTE_V) eqn:He.
    + pose proof (step_down _ _ _ _ _ _ _ Hi Hp He) as Hc.
      eapply returns_mono; [apply (IH s own free _ r va); [done|done|lia|done]|].
      intros a s' (own' & free' & used & E & Hnt & Ha). exists own', free', used. split; [done|]. split; [done|].
      destruct Ha as [?|[Hpos ->]]; [by left|]. right. split; [done|]. cbn [slot_at].
      fold i. rewrite (ext_entries _ _ _ _ _ _ _ _ E p r _ _ i Hp ltac:(lia) Hix He), He. done.
    + simpl. destruct free as [|pt free1].
      { unfold bind. rewrite kalloc_none by (by apply (inv_free _ _ _ Hi)). simpl.
        exists own, [], []. split; [by apply extends_refl|]. split; [apply new_tables_refl|]. by left. }
      eapply bind_returns; [apply (kalloc_some s pt free1), (inv_free _ _ _ Hi)|].
      intros a s1 (-> & Hf1 & Hk). simpl.
      assert (Hpre : exists va', 0 <= va' < MAXVA /\ prefix (Z.of_nat (S l)) va * 512 + i = prefix (Z.of_nat (S l) - 1) va').
      { exists va. split; [done|]. replace (Z.of_nat (S l) - 1) with (Z.of_nat l) by lia. rewrite (prefix_step (Z.of_nat l)) by lia. unfold i.
        by replace (Z.of_nat l + 1) with (Z.of_nat (S l)) by lia. }
      pose proof (hang_extends s s1 own free1 p r _ _ i pt Hi Hp ltac:(lia) Hix Hpre He Hf1 Hk) as E1.
      pose proof (hang_valid s own free1 pt Hi) as Hv. pose proof (valid_page_pos pt Hv).
      destruct (Z.eqb_spec pt 0); [lia|].
      unfold bind at 1 2, kmemset, kstore, modify.
      change (set_mem _ (set_mem _ s1)) with (hung s1 p i pt).
      set (own1 := <[pt := Table r (Z.of_nat (S l) - 1) (prefix (Z.of_nat (S l)) va * 512 + i)]> own) in *.
      assert (Hpt : own1 !! pt = Some (Table r (Z.of_nat l) (prefix (Z.of_nat l) va))).
      { unfold own1. rewrite lookup_insert_eq. do 2 f_equal; [lia|].
        rewrite (prefix_step (Z.of_nat l)) by lia. unfold i.
        replace (Z.of_nat l + 1) with (Z.of_nat (S l)) by lia. done. }
      eapply returns_mono; [apply (IH _ own1 free1 pt r va); [apply E1|done|lia|done]|].
      intros a s' (own' & free' & used & E2 & Hnt & Ha).
      exists own', free', ([pt] ++ used). split; [by eapply extends_trans|]. split.
      { eapply new_tables_trans; [|exact Hnt|by intros v []]. intros q u. destruct (decide (q = pt)) as [->|Hne]; [|unfold own1; rewrite lookup_insert_ne by congruence; by left].
        rewrite Hpt. intros [= <-]. right. exists (Z.of_nat l), va. split_and!; (done || lia). }
      destruct Ha as [?|[Hpos ->]]; [by left|]. right. split; [done|]. cbn [slot_at]. fold i.
      pose proof (hung_slot s1 p i pt Hv) as Hs1.
      assert (Hp1 : own1 !! p = Some (Table r (Z.of_nat (S l)) (prefix (Z.of_nat (S l)) va))).
      { eapply lookup_weaken; [exact Hp|apply E1]. }
      rewrite (ext_entries _ _ _ _ _ _ _ _ E2 p r _ _ i Hp1 ltac:(lia) Hix);
        rewrite Hs1; [|by apply has_pointer].
      rewrite has_pointer, PTE2PA_pointer by done. done.
Qed.

Lemma walk_alloc_tables s own free r va :
  vm_inv s own free -> is_root own r -> 0 <= va < MAXVA ->
  returns (walk r va true s) (fun a s' => exists own' free' used,
    extends r s own free s' own' free' used /\ new_tables r (fun v => v = vpn va) own own' /\
    ((a = 0 /\ free' = []) \/
     (exists p0, own' !! p0 = Some (Table r 0 (prefix 0 va)) /\ a = p0 + 8 * PX 0 va /\
        0 < a /\ slot_at (kmem_mem s') 2 r va = a /\
        lookup_pte (kmem_mem s') r va = load64 (kmem_mem s') a))).
Proof.
  intros Hi Hr Hva. unfold walk. destruct (Z.leb_spec MAXVA va); [lia|].
  eapply returns_mono; [apply (walk_loop_alloc 2 s own free r r va); [done|done|done|by apply root_table]|].
  intros a s' (own' & free' & used & E & Hnt & Ha). exists own', free', used. split; [done|]. split; [done|].
  destruct Ha as [?|[Hpos ->]]; [by left|]. right.
  destruct (slot_at_root s' own' free' r va) as [[Ha _]|(p0 & Hp0 & Hq1 & Hq2 & Hq3)]; try done.
  - apply E.
  - eapply is_root_mono; [apply E|done].
  - lia.
  - exists p0. split_and!; done.
Qed.

Lemma walk_alloc s own free r va :
  vm_inv s own free -> is_root own r -> 0 <= va < MAXVA ->
  returns (walk r va true s) (fun a s' => exists own' free' used,
    extends r s own free s' own' free' used /\
    ((a = 0 /\ free' = []) \/
     (exists p0, own' !! p0 = Some (Table r 0 (prefix 0 va)) /\ a = p0 + 8 * PX 0 va /\
        0 < a /\ slot_at (kmem_mem s') 2 r va = a /\
        lookup_pte (kmem_mem s') r va = load64 (kmem_mem s') a))).
Proof.
  intros Hi Hr Hva. eapply returns_mono; [by apply walk_alloc_tables|]. intros a s' (own' & free' & used & E & _ & Ha). eauto 6.
Qed.

(** ** Changing translations *)

(** [s'] is [s] with table pages [used] added and translations changed only
    at the pages (root, number) of [D]; frames and unallocated pages outside
    [used] keep their contents. *)
Record updates (s : kmem) own free (D : Z -> Z -> Prop) (s' : kmem) (own' : gmap Z use)
    (free' used : list Z) : Prop := {
  upd_inv : vm_inv s' own' free';
  upd_own : own ⊆ own';
  upd_free : free = used ++ free';
  upd_new : forall q u, own' !! q = Some u ->
    own !! q = Some u \/ (q ∈ used /\ exists r l pre, u = Table r l pre /\ exists v, D r v);
  upd_used : forall q, q ∈ used -> is_Some (own' !! q);
  upd_lookup : forall r va, is_root own r -> 0 <= va < MAXVA -> ~ D r (vpn va) ->
    lookup_pte (kmem_mem s') r va = lookup_pte (kmem_mem s) r va;
  upd_keep : forall q, aligned q -> q ∉ used -> (forall r l pre, own !! q <> Some (Table r l pre)) ->
    same_page (kmem_mem s) (kmem_mem s') q
}.

Lemma extends_updates rt s own free (D : Z -> Z -> Prop) s' own' free' used : (exists v, D rt v) ->
  extends rt s own free s' own' free' used -> updates s own free D s' own' free' used.
Proof.
  intros HD [E1 E2 E3 E4 E4' E5 E6 E7]. constructor; auto.
  { intros q u Hq. destruct (E4 q u Hq) as [?|[? (l & pre & ->)]]; [by left|right]. eauto 6. }
  intros q Hq Hu Ht. apply E7; [done|done|]. intros [r l pre|r v] Hv; [|by intros []].
  by destruct (Ht r l pre).
Qed.

Lemma updates_refl s own free D : vm_inv s own free -> updates s own free D s own free [].
Proof. intros Hi. constructor; try done; [intros q u Hq; by left|by intros q ?%elem_of_nil]. Qed.

Lemma updates_trans s1 o1 f1 D s2 o2 f2 u1 s3 o3 f3 u2 :
  updates s1 o1 f1 D s2 o2 f2 u1 -> updates s2 o2 f2 D s3 o3 f3 u2 ->
  updates s1 o1 f1 D s3 o3 f3 (u1 ++ u2).
Proof.
  intros E1 E2. constructor.
  - apply E2.
  - etrans; [apply E1|apply E2].
  - rewrite (upd_free _ _ _ _ _ _ _ _ E1), (upd_free _ _ _ _ _ _ _ _ E2). apply app_assoc.
  - intros q u Hq. destruct (upd_new _ _ _ _ _ _ _ _ E2 q u Hq) as [Hq2|[? ?]]; [|set_solver].
    destruct (upd_new _ _ _ _ _ _ _ _ E1 q u Hq2) as [?|[? ?]]; [by left|set_solver].
  - intros q Hq. apply elem_of_app in Hq as [Hq|Hq]; [|by apply E2].
    apply (upd_used _ _ _ _ _ _ _ _ E1) in Hq as [u Hq]. exists u. eapply lookup_weaken; [exact Hq|apply E2].
  - intros r va Hr Hva HD. rewrite (upd_lookup _ _ _ _ _ _ _ _ E2), (upd_lookup _ _ _ _ _ _ _ _ E1);
      try done. eapply is_root_mono; [apply E1|done].
  - intros q Hq Hu Ht. eapply same_page_trans.
    + apply (upd_keep _ _ _ _ _ _ _ _ E1); [done|set_solver|done].
    + apply (upd_keep _ _ _ _ _ _ _ _ E2); [done|set_solver|].
      intros r l pre Hqu. destruct (upd_new _ _ _ _ _ _ _ _ E1 q _ Hqu) as [?|[? ?]];
        [by eapply Ht|set_solver].
Qed.

Lemma updates_weaken s own free (D D' : Z -> Z -> Prop) s' own' free' used :
  (forall r v, D r v -> D' r v) ->
  updates s own free D s' own' free' used -> updates s own free D' s' own' free' used.
Proof.
  intros HD [E1 E2 E3 E4 E4' E5 E6]. constructor; auto.
  intros q u Hq. destruct (E4 q u Hq) as [?|[? (r & l & pre & -> & v & Hv)]]; [by left|right]. eauto 8.
Qed.

(** The store of one leaf entry, as an update of one translation. *)
Lemma leaf_updates s own free r va p0 v :
  vm_inv s own free -> own !! p0 = Some (Table r 0 (prefix 0 va)) ->
  updates s own free (fun r' n => r' = r /\ n = vpn va)
    (leaf_written s p0 (PX 0 va) v) own free [].
Proof.
  intros Hi Hp0. assert (Hpx : 0 <= PX 0 va < 512) by (apply PX_range; lia). constructor.
  - by eapply leaf_inv.
  - done.
  - done.
  - naive_solver.
  - by intros q ?%elem_of_nil.
  - intros r' va' Hr' Hva' Hn. eapply leaf_lookup; try done. intros [= -> Hv]. apply Hn. done.
  - intros q Hq _ Ht. eapply leaf_same; try done. intros ->. by eapply Ht.
Qed.

(** ** mappages *)

Definition mk_pte (pa perm : Z) : Z := Z.lor (Z.lor (PA2PTE pa) perm) PTE_V.

Lemma mk_pte_flags pa perm : mk_pte pa perm = Z.lor (PA2PTE pa) (Z.lor perm PTE_V).
Proof. unfold mk_pte. by rewrite Z.lor_assoc. Qed.

Lemma perm_range perm : 0 <= perm < 1024 -> 0 <= Z.lor perm PTE_V < 1024.
Proof. intros. apply (lor_range 10); [lia..|flags]. Qed.

Lemma mk_pte_range pa perm : 0 <= pa < 2 ^ 56 -> 0 <= perm < 1024 ->
  0 <= mk_pte pa perm < 256 ^ 8.
Proof. intros. rewrite mk_pte_flags. apply pte_make_range; [done|by apply perm_range]. Qed.

Lemma mk_pte_has pa perm f : 0 <= pa < 2 ^ 56 -> 0 <= perm < 1024 -> 0 <= f < 1024 ->
  has (mk_pte pa perm) f = has perm f || has PTE_V f.
Proof.
  intros. rewrite mk_pte_flags, has_make by (done || by apply perm_range). apply has_lor.
Qed.

Lemma mk_pte_pa pa perm : 0 <= pa < 2 ^ 56 -> aligned pa -> 0 <= perm < 1024 ->
  PTE2PA (mk_pte pa perm) = pa.
Proof. intros. rewrite mk_pte_flags. apply PTE2PA_make; try done. by apply perm_range. Qed.

Lemma vpn_next a i : vpn (a + i * PGSIZE) = vpn a + i.
Proof. unfold vpn, PGSIZE. rewrite Z.div_add by lia. done. Qed.

Lemma vpn_succ a : vpn (a + PGSIZE) = vpn a + 1.
Proof. rewrite <- (vpn_next a 1). by rewrite Z.mul_1_l. Qed.

Lemma map_step s own free r a pa perm last k :
  vm_inv s own free -> is_root own r -> 0 <= a < MAXVA -> 0 <= pa < 2 ^ 56 -> 0 <= perm < 1024 ->
  returns (mappages_loop (S k) r a last pa perm s) (fun res s' =>
    res = -1 /\ exists own' free' used, extends r s own free s' own' free' used /\ new_tables r (fun v => v = vpn a) own own' /\
      (free' = [] \/ has (lookup_pte (kmem_mem s) r a) PTE_V = true)) \/
  exists s1 own1 free1 used1,
    updates s own free (fun r' v => r' = r /\ v = vpn a) s1 own1 free1 used1 /\ new_tables r (fun v => v = vpn a) own own1 /\
    lookup_pte (kmem_mem s1) r a = mk_pte pa perm /\
    mappages_loop (S k) r a last pa perm s =
      (if a =? last then Ret 0 s1
       else mappages_loop k r (u64 (a + PGSIZE)) last (u64 (pa + PGSIZE)) perm s1).
Proof.
  intros Hi Hr Ha Hpa Hperm. cbn [mappages_loop].
  pose proof (walk_alloc_tables s own free r a Hi Hr Ha) as Hw. unfold bind, kload, gets, kstore, modify.
  destruct (walk r a true s) as [pte s1| | | |] eqn:Ew; try contradiction. cbn [returns] in Hw.
  destruct Hw as (own1 & free1 & used1 & E & Hnt & [[-> ->]|(p0 & Hp0 & -> & Hpos & Hslot & Hl)]).
  { left. simpl. split; [done|]. exists own1, [], used1. split; [done|]. split; [done|by left]. }
  destruct (Z.eqb_spec (p0 + 8 * PX 0 a) 0); [lia|].
  rewrite <- Hl, (ext_lookup _ _ _ _ _ _ _ _ E) by done.
  destruct (has (lookup_pte (kmem_mem s) r a) PTE_V) eqn:Hv.
  { left. simpl. split; [done|]. exists own1, free1, used1. split; [done|]. split; [done|by right]. }
  right. exists (leaf_written s1 p0 (PX 0 a) (mk_pte pa perm)), own1, free1, (used1 ++ []).
  split_and!.
  - eapply updates_trans; [eapply extends_updates; [eauto|exact E]|]. apply leaf_updates; [apply E|done].
  - done.
  - eapply (leaf_lookup_eq s1 own1 free1); try done; [apply E|eapply is_root_mono; [apply E|done]|].
    by apply mk_pte_range.
  - destruct (a =? last); done.
Qed.

Lemma mappages_loop_ok n : forall s own free r a pa perm,
  vm_inv s own free -> is_root own r -> (0 < n)%nat ->
  0 <= a -> aligned a -> a + Z.of_nat n * PGSIZE <= MAXVA ->
  0 <= pa -> pa + Z.of_nat n * PGSIZE <= 2 ^ 56 -> 0 <= perm < 1024 ->
  returns (mappages_loop n r a (a + (Z.of_nat n - 1) * PGSIZE) pa perm s) (fun res s' =>
    exists own' free' used,
      updates s own free (fun r' v => r' = r /\ vpn a <= v < vpn a + Z.of_nat n)
        s' own' free' used /\ new_tables r (fun v => vpn a <= v < vpn a + Z.of_nat n) own own' /\
      ((res = 0 /\ forall i, 0 <= i < Z.of_nat n ->
          lookup_pte (kmem_mem s') r (a + i * PGSIZE) = mk_pte (pa + i * PGSIZE) perm) \/
       (res = -1 /\ (free' = [] \/ exists i, 0 <= i < Z.of_nat n /\
          has (lookup_pte (kmem_mem s) r (a + i * PGSIZE)) PTE_V = true)))).
Proof.
  induction n as [|n IH]; intros s own free r a pa perm Hi Hr Hn Ha0 Hal Ha1 Hp0 Hp1 Hperm; [lia|].
  set (last := a + (Z.of_nat (S n) - 1) * PGSIZE).
  pose proof MAXVA_eq as HM. unfold PGSIZE in Ha1, Hp1.
  destruct (map_step s own free r a pa perm last n Hi Hr ltac:(lia) ltac:(lia) Hperm)
    as [Hfail|(s1 & own1 & free1 & used1 & U & Hnt & Hlk & ->)].
  { eapply returns_mono; [exact Hfail|]. intros res s' (-> & own' & free' & used & E & Hnt & Hwhy).
    exists own', free', used. split; [eapply extends_updates; [|exact E]; exists (vpn a); lia|].
    split; [eapply new_tables_trans; [exact Hnt|apply new_tables_refl|]; intros v [->|Hv]; [lia|exact Hv]|]. right. split; [done|].
    destruct Hwhy as [?|?]; [by left|]. right. exists 0. split; [lia|].
    by rewrite Z.mul_0_l, Z.add_0_r. }
  assert (HD : updates s own free (fun r' v => r' = r /\ vpn a <= v < vpn a + Z.of_nat (S n))
                 s1 own1 free1 used1).
  { eapply updates_weaken; [|exact U]. intros r' v [-> ->]. lia. }
  pose proof (is_root_mono _ _ r (upd_own _ _ _ _ _ _ _ _ U) Hr) as Hr1.
  destruct (Z.eqb_spec a last) as [Hlast|Hlast].
  - simpl. assert (n = 0)%nat as -> by (unfold last, PGSIZE in Hlast; lia).
    exists own1, free1, used1. split; [done|].
    split; [eapply new_tables_trans; [exact Hnt|apply new_tables_refl|]; intros v [->|Hv]; [lia|exact Hv]|]. left. split; [done|]. intros i Hix.
    assert (i = 0) as -> by lia. rewrite !Z.mul_0_l, !Z.add_0_r. done.
  - assert (Hn0 : (0 < n)%nat) by (unfold last, PGSIZE in Hlast; lia).
    rewrite !u64_small by (unfold PGSIZE; lia).
    replace last with (a + PGSIZE + (Z.of_nat n - 1) * PGSIZE) by (unfold last; lia).
    eapply returns_mono; [apply (IH s1 own1 free1); try done; try (apply U); unfold PGSIZE; try lia|].
    { unfold aligned, PGSIZE in *. zlia. }
    intros res s' (own' & free' & used & U2 & Hnt2 & Hres). exists own', free', (used1 ++ used).
    pose proof (vpn_succ a) as Hnext.
    split.
    { eapply updates_trans; [exact HD|]. eapply updates_weaken; [|exact U2].
      intros r' v [-> Hv]. rewrite Hnext in Hv. lia. }
    split.
    { eapply new_tables_trans; [exact Hnt|exact Hnt2|]. intros v. rewrite Hnext. lia. }
    destruct Hres as [[-> Hall]|[-> Hwhy]].
    + left. split; [done|]. intros i Hix. destruct (Z.eq_dec i 0) as [->|].
      * rewrite !Z.mul_0_l, !Z.add_0_r, <- Hlk. eapply (upd_lookup _ _ _ _ _ _ _ _ U2); [done|lia|].
        rewrite Hnext. lia.
      * replace (a + i * PGSIZE) with (a + PGSIZE + (i - 1) * PGSIZE) by lia.
        rewrite Hall by lia. f_equal. lia.
    + right. split; [done|]. destruct Hwhy as [?|(i & Hix & Hv)]; [by left|].
      right. exists (i + 1). split; [lia|].
      replace (a + (i + 1) * PGSIZE) with (a + PGSIZE + i * PGSIZE) by lia. rewrite <- Hv.
      f_equal. symmetry. eapply (upd_lookup _ _ _ _ _ _ _ _ U); [done|unfold PGSIZE; lia|].
      rewrite vpn_next, Hnext. lia.
Qed.

Lemma mappages_entry r va size pa perm : aligned va -> 0 < size -> size mod PGSIZE = 0 ->
  0 <= va -> va + size <= MAXVA ->
  mappages r va size pa perm =
  mappages_loop (Z.to_nat (size / PGSIZE)) r va
    (va + (Z.of_nat (Z.to_nat (size / PGSIZE)) - 1) * PGSIZE) pa perm.
Proof.
  intros Hal Hs Hm H0 H1. unfold mappages, aligned in *. rewrite Hal, Hm. simpl.
  destruct (Z.eqb_spec size 0); [lia|]. pose proof MAXVA_eq. f_equal.
  rewrite u64_small by (unfold PGSIZE in *; zlia). unfold PGSIZE in *. zlia.
Qed.

(** Mapping a single page. *)
Lemma mappages_page s own free r va pa perm :
  vm_inv s own free -> is_root own r -> 0 <= va < MAXVA -> aligned va ->
  0 <= pa -> pa + PGSIZE <= 2 ^ 56 -> 0 <= perm < 1024 ->
  returns (mappages r va PGSIZE pa perm s) (fun res s' => exists own' free' used,
    updates s own free (fun r' v => r' = r /\ v = vpn va) s' own' free' used /\
    ((res = 0 /\ lookup_pte (kmem_mem s') r va = mk_pte pa perm) \/
     (res = -1 /\ extends r s own free s' own' free' used /\
      (free' = [] \/ has (lookup_pte (kmem_mem s) r va) PTE_V = true)))).
Proof.
  intros Hi Hr Hva Hal Hp0 Hp1 Hperm. pose proof MAXVA_eq.
  assert (va + PGSIZE <= MAXVA) by (unfold aligned, PGSIZE in *; zlia).
  rewrite mappages_entry by (done || lia). change (Z.to_nat (PGSIZE / PGSIZE)) with 1%nat.
  destruct (map_step s own free r va pa perm (va + (Z.of_nat 1 - 1) * PGSIZE) 0 Hi Hr Hva
    ltac:(unfold PGSIZE in *; lia) Hperm) as [Hfail|(s1 & own1 & free1 & used1 & U & _ & Hlk & ->)].
  - eapply returns_mono; [exact Hfail|]. intros res s' (-> & own' & free' & used & E & _ & Hwhy).
    exists own', free', used. split; [eapply extends_updates; [|exact E]; eauto|]. right. done.
  - destruct (Z.eqb_spec va (va + (Z.of_nat 1 - 1) * PGSIZE)); [|lia]. simpl.
    exists own1, free1, used1. split; [done|]. by left.
Qed.

Lemma mappages_range (s : kmem) (own : gmap Z use) (free : list Z) (r va size pa perm : Z) :
  vm_inv s own free -> is_root own r -> 0 <= va /\ aligned va -> 0 < size /\ size mod PGSIZE = 0 /\ va + size <= MAXVA ->
  0 <= pa /\ pa + size <= 2 ^ 56 -> 0 <= perm < 1024 ->
  returns (mappages r va size pa perm s) (fun res s' => exists own' free' used,
    updates s own free (fun r' v => r' = r /\ vpn va <= v < vpn va + size / PGSIZE)
      s' own' free' used /\ new_tables r (fun v => vpn va <= v < vpn va + size / PGSIZE) own own' /\
    ((res = 0 /\ forall i, 0 <= i < size / PGSIZE ->
        lookup_pte (kmem_mem s') r (va + i * PGSIZE) = mk_pte (pa + i * PGSIZE) perm) \/
     (res = -1 /\ (free' = [] \/ exists i, 0 <= i < size / PGSIZE /\
        has (lookup_pte (kmem_mem s) r (va + i * PGSIZE)) PTE_V = true)))).
Proof.
  intros Hinv Hroot Hva Hsize Hpa Hperm.
  destruct Hva as [Hva0 Hal], Hsize as (Hs0 & Hsm & Hs1), Hpa as [Hpa0 Hpa1].
  rewrite mappages_entry by done.
  assert (Hn : Z.of_nat (Z.to_nat (size / PGSIZE)) = size / PGSIZE) by (unfold PGSIZE in *; zlia).
  pose proof (mappages_loop_ok (Z.to_nat (size / PGSIZE)) s own free r va pa perm) as Hok.
  rewrite Hn in *. apply Hok; try done; unfold PGSIZE in *; zlia.
Qed.

(** [mappages] of a page-aligned range below MAXVA returns (no panic, no
    divergence).  Result 0 means every page of the range now translates to the
    corresponding physical page with the given permissions; result -1 means
    some page of the range was already mapped or the allocator ran dry.  Either
    way the page tables stay well formed, table pages come off the free list
    only, and no translation outside the range changes, in this page table or
    any other. *)
Theorem mappages_maps_range (s : kmem) (own : gmap Z use) (free : list Z) (r va size pa perm : Z)
  (Hinv : vm_inv s own free) (Hroot : is_root own r)
  (Hva : 0 <= va /\ aligned va) (Hsize : 0 < size /\ size mod PGSIZE = 0 /\ va + size <= MAXVA)
  (Hpa : 0 <= pa /\ pa + size <= 2 ^ 56) (Hperm : 0 <= perm < 1024) :
  returns (mappages r va size pa perm s) (fun res s' => exists own' free' used,
    updates s own free (fun r' v => r' = r /\ vpn va <= v < vpn va + size / PGSIZE)
      s' own' free' used /\
    ((res = 0 /\ forall i, 0 <= i < size / PGSIZE ->
        lookup_pte (kmem_mem s') r (va + i * PGSIZE) = mk_pte (pa + i * PGSIZE) perm) \/
     (res = -1 /\ (free' = [] \/ exists i, 0 <= i < size / PGSIZE /\
        has (lookup_pte (kmem_mem s) r (va + i * PGSIZE)) PTE_V = true)))).
Proof.
  eapply returns_mono; [by apply mappages_range|]. intros res s' (own' & free' & used & U & _ & Hres). eauto 6.
Qed.

Lemma walkaddr_ok s own free r va : vm_inv s own free -> is_root own r -> 0 <= va ->
  let e := lookup_pte (kmem_mem s) r va in
  walkaddr r va s =
    Ret (if (va <? MAXVA) && has e PTE_V && has e PTE_U then PTE2PA e else 0) s.
Proof.
  intros Hinv Hroot Hva e. unfold walkaddr.
  destruct (Z.leb_spec MAXVA va), (Z.ltb_spec va MAXVA); try lia; [done|].
  unfold bind. rewrite walk_noalloc by done.
  destruct (slot_at_root s own free r va Hinv Hroot ltac:(lia)) as [[Ha Hl]|(p0 & _ & _ & Hpos & Hl)];
    unfold e; rewrite Hl; [by rewrite Ha|].
  destruct (Z.eqb_spec (slot_at (kmem_mem s) 2 r va) 0); [lia|].
  unfold kload, gets. destruct (has _ PTE_V), (has _ PTE_U); done.
Qed.

Lemma ismapped_ok s own free r va : vm_inv s own free -> is_root own r -> 0 <= va < MAXVA ->
  ismapped r va s = Ret (if has (lookup_pte (kmem_mem s) r va) PTE_V then 1 else 0) s.
Proof.
  intros Hinv Hroot Hva. unfold ismapped, bind. rewrite walk_noalloc by lia.
  destruct (slot_at_root s own free r va Hinv Hroot ltac:(lia)) as [[Ha Hl]|(p0 & _ & _ & Hpos & Hl)];
    rewrite Hl; [by rewrite Ha|].
  destruct (Z.eqb_spec (slot_at (kmem_mem s) 2 r va) 0); [lia|].
  unfold kload, gets. destruct (has _ PTE_V); done.
Qed.

(** [walkaddr] is the translation of the page table: for an address below
    MAXVA whose entry is valid and user-accessible it returns the entry's
    physical page, in every other case 0 (addresses at or above MAXVA
    included), and it never changes the state; [ismapped] tests the valid bit
    of the same entry. *)
Theorem walkaddr_translates (s : kmem) (own : gmap Z use) (free : list Z) (r va : Z)
  (Hinv : vm_inv s own free) (Hroot : is_root own r) (Hva : 0 <= va) :
  let e := lookup_pte (kmem_mem s) r va in
  walkaddr r va s =
    Ret (if (va <? MAXVA) && has e PTE_V && has e PTE_U then PTE2PA e else 0) s /\
  (va < MAXVA -> ismapped r va s = Ret (if has e PTE_V then 1 else 0) s).
Proof.
  split; [by eapply walkaddr_ok|]. intros. eapply ismapped_ok; [done|done|lia].
Qed.

(** Translation depends on the page number only. *)
Lemma PX_vpn l va va' : 0 <= l -> vpn va = vpn va' -> PX l va = PX l va'.
Proof.
  intros Hl Hv. rewrite !PX_div by done. unfold vpn, PGSIZE in Hv.
  rewrite Z.pow_add_r by lia. change (2 ^ 12) with 4096.
  rewrite <- !Z.div_div by lia. by rewrite Hv.
Qed.

Lemma pte_at_vpn m level pt va va' : vpn va = vpn va' -> pte_at m level pt va = pte_at m level pt va'.
Proof.
  intros Hv. revert pt. induction level as [|l IH]; intros pt; cbn [pte_at].
  - by rewrite (PX_vpn 0 va va').
  - rewrite (PX_vpn _ va va') by (done || lia). destruct (has _ PTE_V); [apply IH|done].
Qed.

Lemma lookup_vpn m r va va' : vpn va = vpn va' -> lookup_pte m r va = lookup_pte m r va'.
Proof. apply pte_at_vpn. Qed.

End Vm.

#[global] Arguments slot_at : simpl never.
#[global] Arguments pte_at : simpl never.
