(* ===== verification/Uvm.v ===== *)
(** User address spaces ([kernel/vm.c], with [proc_pagetable] and
    [proc_freepagetable] of [kernel/proc.c]): mapping fresh frames, unmapping
    and freeing them, growing and shrinking, copying for fork, and releasing a
    page table.  The invariant [user_pt] says that the valid user entries of a
    page table and the frames it owns are in one-to-one correspondence: no
    frame is mapped twice and none is leaked. *)
From S2P Require Import Prelude Riscv Kalloc Vm.
Open Scope kern_scope.

Section Uvm.
Context `{Layout}.

(** * Operations *)

(** One iteration of [uvmunmap]'s loop. *)
Definition uvmunmap_page (pagetable a : Z) (do_free : bool) : M kmem unit :=
  do pte <- walk pagetable a false;
  if pte =? 0 then ret tt
  else
    do e <- kload pte;
    if negb (has e PTE_V) then ret tt
    else
      (if do_free then kfree (PTE2PA e) else ret tt) ;;;
      kstore pte 0.

Fixpoint uvmunmap_loop (fuel : nat) (pagetable a last : Z) (do_free : bool) : M kmem unit :=
  match fuel with
  | O => no_fuel
  | S k => if a <? last
           then uvmunmap_page pagetable a do_free ;;;
                uvmunmap_loop k pagetable (u64 (a + PGSIZE)) last do_free
           else ret tt
  end.

(** One iteration per page, and the final test of the bound. *)
Definition uvmunmap (pagetable va npages : Z) (do_free : bool) : M kmem unit :=
  if negb (va mod PGSIZE =? 0) then panic "uvmunmap: not aligned"
  else uvmunmap_loop (Z.to_nat npages + 1) pagetable va (u64 (va + u64 (npages * PGSIZE))) do_free.

Definition uvmdealloc (pagetable oldsz newsz : Z) : M kmem Z :=
  if oldsz <=? newsz then ret oldsz
  else
    (if PGROUNDUP newsz <? PGROUNDUP oldsz
     then let npages := i32 ((PGROUNDUP oldsz - PGROUNDUP newsz) / PGSIZE) in
          uvmunmap pagetable (PGROUNDUP newsz) (u64 npages) true
     else ret tt) ;;;
    ret newsz.

Fixpoint uvmalloc_loop (fuel : nat) (pagetable oldsz a newsz xperm : Z) : M kmem Z :=
  match fuel with
  | O => no_fuel
  | S k =>
      if a <? newsz then
        do mem <- kalloc;
        if mem =? 0 then
          uvmdealloc pagetable a oldsz ;;; ret 0
        else
          kmemset mem 0 PGSIZE ;;;
          do r <- mappages pagetable a PGSIZE mem (Z.lor (Z.lor PTE_R PTE_U) xperm);
          if negb (r =? 0) then
            kfree mem ;;; uvmdealloc pagetable a oldsz ;;; ret 0
          else uvmalloc_loop k pagetable oldsz (u64 (a + PGSIZE)) newsz xperm
      else ret newsz
  end.

(** One iteration per page of the grown range, and the final test. *)
Definition uvmalloc (pagetable oldsz newsz xperm : Z) : M kmem Z :=
  if newsz <? oldsz then ret oldsz
  else
    let oldsz := PGROUNDUP oldsz in
    uvmalloc_loop (Z.to_nat ((newsz - oldsz) / PGSIZE) + 2) pagetable oldsz oldsz newsz xperm.

(** There are 2^9 entries in a page table. *)
Definition ptes : nat := 512%nat.

(** [freewalk] recurses into every valid entry without R, W or X; [depth]
    bounds the recursion. *)
Fixpoint freewalk (depth : nat) (pagetable : Z) : M kmem unit :=
  match depth with
  | O => no_fuel
  | S d =>
      (fix entries (n : nat) (i : Z) : M kmem unit :=
         match n with
         | O => ret tt
         | S k =>
             do pte <- kload (pagetable + 8 * i);
             (if has pte PTE_V && (Z.land pte (Z.lor (Z.lor PTE_R PTE_W) PTE_X) =? 0)
              then freewalk d (PTE2PA pte) ;;; kstore (pagetable + 8 * i) 0
              else ret tt) ;;;
             entries k (i + 1)
         end) ptes 0 ;;;
      kfree pagetable
  end.

Definition uvmfree (pagetable sz : Z) : M kmem unit :=
  (if 0 <? sz then uvmunmap pagetable 0 (PGROUNDUP sz / PGSIZE) true else ret tt) ;;;
  freewalk 4 pagetable.

Fixpoint uvmcopy_loop (fuel : nat) (old new i sz : Z) : M kmem Z :=
  match fuel with
  | O => no_fuel
  | S k =>
      if i <? sz then
        do pte <- walk old i false;
        if pte =? 0 then uvmcopy_loop k old new (u64 (i + PGSIZE)) sz
        else
          do e <- kload pte;
          if negb (has e PTE_V) then uvmcopy_loop k old new (u64 (i + PGSIZE)) sz
          else
            let pa := PTE2PA e in
            let flags := PTE_FLAGS e in
            do mem <- kalloc;
            if mem =? 0 then uvmunmap new 0 (i / PGSIZE) true ;;; ret (-1)
            else
              kmemmove mem pa PGSIZE ;;;
              do r <- mappages new i PGSIZE mem flags;
              if negb (r =? 0) then
                kfree mem ;;; uvmunmap new 0 (i / PGSIZE) true ;;; ret (-1)
              else uvmcopy_loop k old new (u64 (i + PGSIZE)) sz
      else ret 0
  end.

(** One iteration per page below [sz], and the final test. *)
Definition uvmcopy (old new sz : Z) : M kmem Z :=
  uvmcopy_loop (Z.to_nat (sz / PGSIZE) + 2) old new 0 sz.

(** [proc_pagetable] of [kernel/proc.c]; [trapframe] is [p->trapframe]. *)
Definition proc_pagetable (trapframe : Z) : M kmem Z :=
  do pagetable <- uvmcreate;
  if pagetable =? 0 then ret 0
  else
    do r <- mappages pagetable TRAMPOLINE PGSIZE trampoline (Z.lor PTE_R PTE_X);
    if r <? 0 then uvmfree pagetable 0 ;;; ret 0
    else
      do r2 <- mappages pagetable TRAPFRAME PGSIZE trapframe (Z.lor PTE_R PTE_W);
      if r2 <? 0 then uvmunmap pagetable TRAMPOLINE 1 false ;;; uvmfree pagetable 0 ;;; ret 0
      else ret pagetable.

Definition proc_freepagetable (pagetable sz : Z) : M kmem unit :=
  uvmunmap pagetable TRAMPOLINE 1 false ;;;
  uvmunmap pagetable TRAPFRAME 1 false ;;;
  uvmfree pagetable sz.

(** * Well-formed user page tables *)

(** Below TRAPFRAME the valid entries of [r] and the frames owned by [r]
    correspond one to one. *)
Record user_pt (m : mem) (own : gmap Z use) (r : Z) : Prop := {
  upt_root : is_root own r;
  upt_map : forall va, 0 <= va < TRAPFRAME -> has (lookup_pte m r va) PTE_V = true ->
    own !! PTE2PA (lookup_pte m r va) = Some (Frame r (vpn va));
  upt_frame : forall f v, own !! f = Some (Frame r v) ->
    0 <= v < vpn TRAPFRAME /\ has (lookup_pte m r (v * PGSIZE)) PTE_V = true /\
    PTE2PA (lookup_pte m r (v * PGSIZE)) = f
}.

Lemma vpn_mul v : vpn (v * PGSIZE) = v.
Proof. unfold vpn, PGSIZE. apply Z.div_mul. lia. Qed.

Lemma frame_va v : 0 <= v < vpn TRAPFRAME -> 0 <= v * PGSIZE < TRAPFRAME.
Proof. unfold vpn, PGSIZE. change TRAPFRAME with (67108862 * 4096). intros. zlia. Qed.

Lemma vpn_user va : 0 <= va < TRAPFRAME -> 0 <= vpn va < vpn TRAPFRAME.
Proof. unfold vpn, PGSIZE. change TRAPFRAME with (67108862 * 4096). intros. zlia. Qed.

Lemma vpn_bounds va v : vpn va = v -> v * PGSIZE <= va < v * PGSIZE + PGSIZE.
Proof. unfold vpn, PGSIZE. zlia. Qed.

(** * Pages that are held: allocated but not yet given a use *)

Record held (own : gmap Z use) (free : list Z) (p : Z) : Prop := {
  held_valid : valid_page p;
  held_notfree : p ∉ free;
  held_notown : own !! p = None
}.

Lemma kalloc_held s own p free :
  vm_inv s own (p :: free) ->
  returns (kalloc s) (fun r s' => r = p /\ vm_inv s' own free /\ held own free p /\
    forall q, aligned q -> q <> p -> same_page (kmem_mem s) (kmem_mem s') q).
Proof.
  intros Hi. eapply returns_mono; [apply kalloc_some, (inv_free _ _ _ Hi)|].
  intros r s' (-> & Hf & Hs). split; [done|].
  destruct (inv_free _ _ _ Hi) as [(_ & Hv & _) Hnd]. apply NoDup_cons in Hnd as [Hni _].
  assert (Hp : own !! p = None) by (apply (inv_notfree _ _ _ Hi); set_solver).
  split_and!; [|by constructor|done].
  assert (Hld : forall q r l pre i, own !! q = Some (Table r l pre) -> 0 <= i < 512 -> load64 (kmem_mem s') (q + 8 * i) = load64 (kmem_mem s) (q + 8 * i)).
  { intros q r l pre i Hq Hix. destruct (slot_in_page q i Hix). symmetry. apply (same_page_load 8 _ _ q); [|done|done].
    apply Hs; [by eapply inv_aligned|]. intros ->. congruence. }
  constructor; try apply Hi; [done|..].
  - intros q Hq. apply Hi. set_solver.
  - intros q r l pre i Hq Hl Hix. rewrite (Hld q r l pre) by done. by eapply inv_child.
  - intros q r l pre i Hq Hl Hix. rewrite (Hld q r l pre) by done. by eapply inv_pointer.
  - intros q r l pre Hq. destruct (inv_linked _ _ _ Hi _ _ _ _ Hq) as [?|(q' & qpre & i & Hq' & Hix & Hr)]; [by left|right].
    exists q', qpre, i. rewrite (Hld q' r (l + 1) qpre) by done. done.
Qed.

(** Writing to a held page. *)
Lemma held_write s own free p m' :
  vm_inv s own free -> held own free p ->
  (forall q, aligned q -> q <> p -> same_page (kmem_mem s) m' q) ->
  vm_inv (set_mem m' s) own free.
Proof.
  intros Hi [Hv Hnf Hno] Hs. apply vm_inv_frame; [done| |].
  - intros q u Hq _. apply Hs; [by eapply inv_aligned|]. intros ->. congruence.
  - intros q Hq. apply Hs; [by eapply free_aligned|]. intros ->. done.
Qed.

(** A leaf translation only depends on allocated table pages. *)
Lemma lookup_held s own free p m' r va :
  vm_inv s own free -> own !! p = None -> is_root own r -> 0 <= va < MAXVA ->
  (forall q, aligned q -> q <> p -> same_page (kmem_mem s) m' q) ->
  lookup_pte m' r va = lookup_pte (kmem_mem s) r va.
Proof.
  intros Hi Hno Hr Hva Hs. eapply (pte_at_same s own free); [done|by apply root_table| |].
  - intros q u Hq _. apply Hs; [by eapply inv_aligned|]. intros ->. congruence.
  - intros q Hq. destruct (slot_in_page q (PX 0 va) ltac:(apply PX_range; lia)).
    symmetry. apply (same_page_load 8 _ _ q); [|done|done].
    apply Hs; [by eapply inv_aligned|]. intros ->. congruence.
Qed.

Lemma held_free s own free p :
  vm_inv s own free -> held own free p ->
  returns (kfree p s) (fun _ s' => vm_inv s' own (p :: free) /\
    forall q, aligned q -> q <> p -> same_page (kmem_mem s) (kmem_mem s') q).
Proof.
  intros Hi [Hv Hnf Hno].
  eapply returns_mono; [apply kfree_ok; [apply (inv_free _ _ _ Hi)|done|done]|].
  intros [] s' [Hf Hs]. split; [|done].
  assert (Hi' : vm_inv (set_mem (kmem_mem s') s) own free) by (by eapply held_write).
  constructor; try apply Hi; try apply Hi'; [done|].
  intros q Hq. apply elem_of_cons in Hq as [->|Hq]; [done|by apply Hi].
Qed.

(** Giving a held page a use as a frame. *)
Lemma own_frame s own free p r v :
  vm_inv s own free -> held own free p -> vm_inv s (<[p := Frame r v]> own) free.
Proof.
  intros Hi [Hv Hnf Hno]. constructor.
  - apply Hi.
  - intros q u. rewrite lookup_insert. case_decide; [naive_solver|apply Hi].
  - intros q r' l pre. rewrite lookup_insert. case_decide; [done|apply Hi].
  - intros q Hq. rewrite lookup_insert_ne; [by apply Hi|]. intros ->. done.
  - intros q r' l pre i. rewrite lookup_insert. case_decide; [done|]. intros Hq Hl Hix e He.
    pose proof (inv_child _ _ _ Hi q r' l pre i Hq Hl Hix He) as Hc.
    rewrite lookup_insert_ne; [done|]. intros Heq. fold e in Hc. congruence.
  - intros q r' l pre i. rewrite lookup_insert. case_decide; [done|]. apply Hi.
  - intros q r' l pre. rewrite lookup_insert. case_decide; [done|apply Hi].
  - intros q r' l pre. rewrite lookup_insert. case_decide; [done|]. intros Hq.
    destruct (inv_linked _ _ _ Hi _ _ _ _ Hq) as [?|(q' & qpre & i & Hq' & Hr)]; [by left|right].
    exists q', qpre, i. rewrite lookup_insert_ne by congruence. done.
Qed.

(** Taking the use of a frame away again. *)
Lemma disown_frame s own free p r v :
  vm_inv s own free -> own !! p = Some (Frame r v) ->
  vm_inv s (delete p own) free /\ held (delete p own) free p.
Proof.
  intros Hi Hp. split.
  - constructor.
    + apply Hi.
    + intros q u Hq. apply lookup_delete_Some in Hq as [_ Hq]. by eapply Hi.
    + intros q r' l pre Hq. apply lookup_delete_Some in Hq as [_ Hq]. by eapply Hi.
    + intros q Hq. apply lookup_delete_None. right. by apply Hi.
    + intros q r' l pre i Hq Hl Hix e He. apply lookup_delete_Some in Hq as [Hne Hq].
      pose proof (inv_child _ _ _ Hi q r' l pre i Hq Hl Hix He) as Hc. fold e in Hc.
      rewrite lookup_delete_ne; [done|]. intros ->. congruence.
    + intros q r' l pre i Hq. apply lookup_delete_Some in Hq as [_ Hq]. by apply (inv_pointer _ _ _ Hi q r' l pre).
    + intros q r' l pre Hq. apply lookup_delete_Some in Hq as [_ Hq]. by eapply Hi.
    + intros q r' l pre Hq. apply lookup_delete_Some in Hq as [_ Hq].
      destruct (inv_linked _ _ _ Hi _ _ _ _ Hq) as [?|(q' & qpre & i & Hq' & Hr)]; [by left|right].
      exists q', qpre, i. rewrite lookup_delete_ne by congruence. done.
  - constructor; [by eapply Hi| |apply lookup_delete_eq].
    intros Hf. rewrite (inv_notfree _ _ _ Hi) in Hp; done.
Qed.

(** * Mapping a held page *)

Lemma updates_notown s own free D s' own' free' used p :
  updates s own free D s' own' free' used -> own !! p = None -> p ∉ free -> own' !! p = None.
Proof.
  intros U Hno Hnf. destruct (own' !! p) as [u|] eqn:Hp; [|done].
  destruct (upd_new _ _ _ _ _ _ _ _ U p u Hp) as [?|[Hu _]]; [congruence|].
  exfalso. apply Hnf. rewrite (upd_free _ _ _ _ _ _ _ _ U). set_solver.
Qed.

Lemma updates_held s own free D s' own' free' used p :
  updates s own free D s' own' free' used -> held own free p -> held own' free' p.
Proof.
  intros U [Hv Hnf Hno]. constructor; [done| |by eapply updates_notown].
  intros Hp. apply Hnf. rewrite (upd_free _ _ _ _ _ _ _ _ U). set_solver.
Qed.

Lemma updates_frame s own free D s' own' free' used p r v :
  updates s own free D s' own' free' used -> own' !! p = Some (Frame r v) <-> own !! p = Some (Frame r v).
Proof.
  intros U. split.
  - intros Hp. destruct (upd_new _ _ _ _ _ _ _ _ U p _ Hp) as [?|[_ (? & ? & ? & [=] & _)]]. done.
  - intros Hp. by eapply lookup_weaken, U.
Qed.

(** Translations of a well-formed user page table survive any update that does
    not touch it. *)
Lemma user_pt_updates s own free D s' own' free' used r :
  updates s own free D s' own' free' used -> (forall v, 0 <= v -> ~ D r v) ->
  user_pt (kmem_mem s) own r -> user_pt (kmem_mem s') own' r.
Proof.
  intros U HD [Hr Hm Hf]. pose proof (upd_lookup _ _ _ _ _ _ _ _ U) as Hl.
  assert (Hlk : forall va, 0 <= va < MAXVA -> lookup_pte (kmem_mem s') r va = lookup_pte (kmem_mem s) r va)
    by (intros va Hva; apply Hl; [done|done|]; apply HD; unfold vpn, PGSIZE; zlia).
  assert (TRAPFRAME < MAXVA) by done. constructor.
  - eapply is_root_mono; [apply U|done].
  - intros va Hva. rewrite Hlk by lia. intros He. eapply lookup_weaken; [by apply Hm|apply U].
  - intros f v Hp. apply (updates_frame _ _ _ _ _ _ _ _ _ _ _ U) in Hp.
    apply Hf in Hp as (Hv & He & Hpa). rewrite Hlk; [done|].
    pose proof (frame_va v Hv). lia.
Qed.

Section MapHeld.
Variables (s : kmem) (own : gmap Z use) (free : list Z) (r va p perm : Z).
Hypothesis Hinv : vm_inv s own free.
Hypothesis Hupt : user_pt (kmem_mem s) own r.
Hypothesis Hheld : held own free p.
Hypothesis Hva : 0 <= va < TRAPFRAME.
Hypothesis Hal : aligned va.
Hypothesis Hperm : 0 <= perm < 1024.

Lemma map_held :
    returns (mappages r va PGSIZE p perm s) (fun res s' => exists own' free' used,
      updates s own free (fun r' v => r' = r /\ v = vpn va) s' own' free' used /\
      held own' free' p /\
      ((res = 0 /\ lookup_pte (kmem_mem s') r va = mk_pte p perm) \/
       (res = -1 /\ extends r s own free s' own' free' used))).
Proof.
    pose proof (held_valid _ _ _ Hheld) as Hv. pose proof (valid_page_pos _ Hv).
    assert (TRAPFRAME < MAXVA) by done.
    eapply returns_mono; [apply (mappages_page s own free r va p perm); try done; try lia|].
    - apply Hupt.
    - destruct Hv as [_ ?]. unfold PGSIZE, PHYSTOP, KERNBASE in *. lia.
    - intros res s' (own' & free' & used & U & Hres). exists own', free', used.
      split_and!; [done|by eapply updates_held|].
      destruct Hres as [?|(? & ? & _)]; [by left|by right].
Qed.

  (** The page table after a successful mapping of an unmapped page. *)
Lemma map_held_upt s' own' free' used :
    updates s own free (fun r' v => r' = r /\ v = vpn va) s' own' free' used ->
    held own' free' p ->
    has (lookup_pte (kmem_mem s) r va) PTE_V = false ->
    lookup_pte (kmem_mem s') r va = mk_pte p perm ->
    vm_inv s' (<[p := Frame r (vpn va)]> own') free' /\
    user_pt (kmem_mem s') (<[p := Frame r (vpn va)]> own') r.
Proof.
    intros U Hh' Hnv Hlk. split; [apply own_frame; [apply U|done]|].
    pose proof (held_notown _ _ _ Hh') as Hno'. pose proof (valid_page_pos _ (held_valid _ _ _ Hh')).
    assert (TRAPFRAME < MAXVA) by done.
    assert (Hother : forall va', 0 <= va' < MAXVA -> vpn va' <> vpn va ->
      lookup_pte (kmem_mem s') r va' = lookup_pte (kmem_mem s) r va').
    { intros va' Hva' Hne. eapply (upd_lookup _ _ _ _ _ _ _ _ U); [apply Hupt|done|]. naive_solver. }
    constructor.
    - unfold is_root. rewrite lookup_insert_ne.
      + eapply is_root_mono; [apply U|apply Hupt].
      + intros ->. assert (Hr : is_root own' r) by (eapply is_root_mono; [apply U|apply Hupt]).
        unfold is_root in Hr. congruence.
    - intros va' Hva'. destruct (decide (vpn va' = vpn va)) as [Heq|Hne].
      + rewrite (lookup_vpn _ _ _ _ Heq), Hlk, mk_pte_pa, Heq; try lia; [|apply valid_page_aligned, Hh'].
        intros _. by rewrite lookup_insert_eq.
      + rewrite Hother by lia. intros He. pose proof (upt_map _ _ _ Hupt va' Hva' He) as Hm.
        rewrite lookup_insert_ne; [eapply lookup_weaken; [done|apply U]|].
        intros Heq. assert (Hm' := lookup_weaken _ _ _ _ Hm (upd_own _ _ _ _ _ _ _ _ U)). congruence.
    - intros f v. rewrite lookup_insert. case_decide as Hd.
      + intros [= <-]. subst f. rewrite (lookup_vpn _ _ _ va (vpn_mul _)), Hlk.
        rewrite mk_pte_has, mk_pte_pa; try flags; try lia; [|apply valid_page_aligned, Hh'].
        split; [by apply vpn_user|]. split; [apply orb_true_r|done].
      + intros Hf. apply (updates_frame _ _ _ _ _ _ _ _ _ _ _ U) in Hf.
        destruct (upt_frame _ _ _ Hupt f v Hf) as (Hv & He & Hpa).
        assert (v <> vpn va).
        { intros ->. rewrite (lookup_vpn _ _ _ va (vpn_mul _)) in He. congruence. }
        pose proof (frame_va v Hv). rewrite Hother; [done|lia|by rewrite vpn_mul].
Qed.
End MapHeld.

(** * Unmapping *)

(** [s'] is [s] with the pages of [D] unmapped from [r] and exactly their
    frames moved to the free list. *)
Record unmaps (s : kmem) own free (r : Z) (D : Z -> Prop) (s' : kmem) (own' : gmap Z use)
    (free' freed : list Z) : Prop := {
  um_inv : vm_inv s' own' free';
  um_upt : user_pt (kmem_mem s') own' r;
  um_free : free' = freed ++ free;
  um_own : forall q, own' !! q = if decide (q ∈ freed) then None else own !! q;
  um_freed : forall f, f ∈ freed <-> exists v, D v /\ own !! f = Some (Frame r v);
  um_gone : forall va, 0 <= va < TRAPFRAME -> D (vpn va) ->
    has (lookup_pte (kmem_mem s') r va) PTE_V = false;
  um_lookup : forall r' va, is_root own r' -> 0 <= va < MAXVA -> ~ (r' = r /\ D (vpn va)) ->
    lookup_pte (kmem_mem s') r' va = lookup_pte (kmem_mem s) r' va;
  um_keep : forall q, aligned q -> q ∉ freed -> (forall r' l pre, own !! q <> Some (Table r' l pre)) ->
    same_page (kmem_mem s) (kmem_mem s') q
}.

Lemma unmaps_refl s own free r (D : Z -> Prop) :
  vm_inv s own free -> user_pt (kmem_mem s) own r ->
  (forall va, 0 <= va < TRAPFRAME -> D (vpn va) -> has (lookup_pte (kmem_mem s) r va) PTE_V = false) ->
  unmaps s own free r D s own free [].
Proof.
  intros Hi Hu Hg. constructor; try done. intros f. split.
  - intros Hf. by apply elem_of_nil in Hf.
  - intros (v & Hv & Hf). destruct (upt_frame _ _ _ Hu f v Hf) as (Hb & He & _).
    rewrite Hg in He; [done|by apply frame_va|by rewrite vpn_mul].
Qed.

Lemma unmaps_root s own free r D s' own' free' freed r' :
  unmaps s own free r D s' own' free' freed -> is_root own r' -> is_root own' r'.
Proof.
  intros U Hr. unfold is_root. rewrite (um_own _ _ _ _ _ _ _ _ _ U). case_decide as Hd; [|done].
  apply (um_freed _ _ _ _ _ _ _ _ _ U) in Hd as (v & _ & Hd). unfold is_root in Hr. congruence.
Qed.

Lemma unmaps_trans s own free r D1 s1 o1 f1 x1 D2 s2 o2 f2 x2 :
  is_root own r ->
  unmaps s own free r D1 s1 o1 f1 x1 -> unmaps s1 o1 f1 r D2 s2 o2 f2 x2 ->
  unmaps s own free r (fun v => D1 v \/ D2 v) s2 o2 f2 (x2 ++ x1).
Proof.
  intros Hr U1 U2. assert (TRAPFRAME < MAXVA) by done. constructor.
  - apply U2.
  - apply U2.
  - rewrite (um_free _ _ _ _ _ _ _ _ _ U2), (um_free _ _ _ _ _ _ _ _ _ U1). apply app_assoc.
  - intros q. rewrite (um_own _ _ _ _ _ _ _ _ _ U2), (um_own _ _ _ _ _ _ _ _ _ U1).
    destruct (decide (q ∈ x2 ++ x1)) as [Hd|Hd]; rewrite elem_of_app in Hd;
      repeat case_decide; tauto || done.
  - intros f. rewrite elem_of_app, (um_freed _ _ _ _ _ _ _ _ _ U2), (um_freed _ _ _ _ _ _ _ _ _ U1).
    split.
    + intros [(v & Hv & Hf)|(v & Hv & Hf)]; exists v; [|by auto].
      rewrite (um_own _ _ _ _ _ _ _ _ _ U1) in Hf. case_decide; [done|]. auto.
    + intros (v & [Hv|Hv] & Hf); [right; eauto|].
      destruct (decide (f ∈ x1)) as [Hin|Hni].
      * right. by apply (um_freed _ _ _ _ _ _ _ _ _ U1).
      * left. exists v. split; [done|]. rewrite (um_own _ _ _ _ _ _ _ _ _ U1), decide_False; done.
  - intros va Hva [Hd|Hd]; [|by apply (um_gone _ _ _ _ _ _ _ _ _ U2)].
    destruct (has (lookup_pte (kmem_mem s2) r va) PTE_V) eqn:Hv; [|done].
    pose proof (upt_map _ _ _ (um_upt _ _ _ _ _ _ _ _ _ U2) va Hva Hv) as Hf.
    rewrite (um_own _ _ _ _ _ _ _ _ _ U2) in Hf. case_decide; [done|].
    destruct (upt_frame _ _ _ (um_upt _ _ _ _ _ _ _ _ _ U1) _ _ Hf) as (_ & He & _).
    rewrite (lookup_vpn _ _ _ va (vpn_mul _)), (um_gone _ _ _ _ _ _ _ _ _ U1) in He; done.
  - intros r' va Hr' Hva Hn. rewrite (um_lookup _ _ _ _ _ _ _ _ _ U2), (um_lookup _ _ _ _ _ _ _ _ _ U1);
      try done; try tauto. by eapply unmaps_root.
  - intros q Hq Hni Ht. eapply same_page_trans.
    + apply (um_keep _ _ _ _ _ _ _ _ _ U1); [done|set_solver|done].
    + apply (um_keep _ _ _ _ _ _ _ _ _ U2); [done|set_solver|].
      intros r' l pre. rewrite (um_own _ _ _ _ _ _ _ _ _ U1). case_decide; [done|apply Ht].
Qed.

Lemma unmaps_iff s own free r (D D' : Z -> Prop) s' own' free' freed :
  (forall v, D v <-> D' v) ->
  unmaps s own free r D s' own' free' freed -> unmaps s own free r D' s' own' free' freed.
Proof.
  intros HD [U1 U2 U3 U4 U5 U6 U7 U8]. constructor; try done.
  - intros f. rewrite U5. by setoid_rewrite HD.
  - intros va Hva Hd. apply U6; [done|by apply HD].
  - intros r' va Hr Hva Hn. apply U7; [done|done|]. by rewrite HD.
Qed.

Lemma upt_clear m m' own r va f :
  user_pt m own r -> 0 <= va < TRAPFRAME ->
  has (lookup_pte m r va) PTE_V = true -> f = PTE2PA (lookup_pte m r va) ->
  lookup_pte m' r va = 0 ->
  (forall va', 0 <= va' < MAXVA -> vpn va' <> vpn va -> lookup_pte m' r va' = lookup_pte m r va') ->
  user_pt m' (delete f own) r.
Proof.
  intros Hu Hva Hv Hf H0 Ho. assert (TRAPFRAME < MAXVA) by done.
  pose proof (upt_map _ _ _ Hu va Hva Hv) as Hown. rewrite <- Hf in Hown. constructor.
  - unfold is_root. rewrite lookup_delete_ne; [apply Hu|]. intros ->.
    pose proof (upt_root _ _ _ Hu) as Hr. unfold is_root in Hr. congruence.
  - intros va' Hva'. destruct (decide (vpn va' = vpn va)) as [Heq|Hne].
    + rewrite (lookup_vpn _ _ _ _ Heq), H0. done.
    + rewrite Ho by (done || lia). intros Hv'.
      pose proof (upt_map _ _ _ Hu va' Hva' Hv') as Hm. rewrite lookup_delete_ne; [done|].
      intros Heq. rewrite <- Heq, Hown in Hm. congruence.
  - intros g v Hg. apply lookup_delete_Some in Hg as [Hgf Hg].
    destruct (upt_frame _ _ _ Hu g v Hg) as (Hb & He & Hpa). pose proof (frame_va v Hb).
    assert (v <> vpn va).
    { intros ->. rewrite (lookup_vpn _ _ _ va (vpn_mul _)) in Hpa. congruence. }
    rewrite Ho; [done|lia|]. by rewrite vpn_mul.
Qed.

Lemma unmap_one s own free r a p0 f s1 :
  vm_inv s own free -> user_pt (kmem_mem s) own r -> 0 <= a < TRAPFRAME ->
  own !! p0 = Some (Table r 0 (prefix 0 a)) ->
  slot_at (kmem_mem s) 2 r a = p0 + 8 * PX 0 a ->
  has (lookup_pte (kmem_mem s) r a) PTE_V = true ->
  f = PTE2PA (lookup_pte (kmem_mem s) r a) -> own !! f = Some (Frame r (vpn a)) ->
  vm_inv s1 (delete f own) (f :: free) ->
  (forall q, aligned q -> q <> f -> same_page (kmem_mem s) (kmem_mem s1) q) ->
  unmaps s own free r (fun v => v = vpn a) (leaf_written s1 p0 (PX 0 a) 0)
    (delete f own) (f :: free) [f].
Proof.
  intros Hi Hu Ha Hp0 Hs Hv Hpa Hf Hi1 Hsame. assert (TRAPFRAME < MAXVA) by done.
  assert (Hroot : forall r', is_root own r' -> is_root (delete f own) r').
  { intros r' Hr'. unfold is_root in *. rewrite lookup_delete_ne; [done|]. intros ->. congruence. }
  assert (Hp1 : delete f own !! p0 = Some (Table r 0 (prefix 0 a))).
  { rewrite lookup_delete_ne; [done|]. intros ->. congruence. }
  assert (Hlk : forall r' va', is_root own r' -> 0 <= va' < MAXVA ->
    lookup_pte (kmem_mem s1) r' va' = lookup_pte (kmem_mem s) r' va').
  { intros r' va' Hr' Hva'. destruct (disown_frame s own free f r _ Hi Hf) as [Hi0 _].
    eapply (lookup_held s (delete f own) free f); [done|apply lookup_delete_eq|by auto|done|done]. }
  assert (Hsl : slot_at (kmem_mem s1) 2 r a = p0 + 8 * PX 0 a).
  { rewrite <- Hs. eapply (slot_at_same s own free); [done|apply root_table; [apply Hu|lia]|].
    intros q u Hq Hiu. apply Hsame; [by eapply (inv_aligned s own free)|]. intros ->.
    rewrite Hf in Hq. injection Hq as <-. done. }
  pose proof (upt_root _ _ _ Hu) as Hr.
  assert (Hz : lookup_pte (kmem_mem (leaf_written s1 p0 (PX 0 a) 0)) r a = 0).
  { eapply (leaf_lookup_eq s1 (delete f own) (f :: free)); [done|by apply Hroot|lia|done|done|lia]. }
  assert (Ho : forall r' va, is_root own r' -> 0 <= va < MAXVA -> ~ (r' = r /\ vpn va = vpn a) ->
    lookup_pte (kmem_mem (leaf_written s1 p0 (PX 0 a) 0)) r' va = lookup_pte (kmem_mem s) r' va).
  { intros r' va Hr' Hva Hn. rewrite <- Hlk by done.
    eapply (leaf_lookup s1 (delete f own) (f :: free)); [done|by auto|done|done|].
    intros [= -> Hq]. auto. }
  constructor.
  - eapply leaf_inv; [done|done|apply PX_range; lia].
  - eapply upt_clear; [done|exact Ha|done|done|done|]. intros va' Hva' Hne. apply Ho; tauto.
  - done.
  - intros q. case_decide as Hd.
    + apply list_elem_of_singleton in Hd as ->. apply lookup_delete_eq.
    + rewrite lookup_delete_ne; [done|]. intros ->. apply Hd. by apply list_elem_of_singleton.
  - intros g. rewrite list_elem_of_singleton. split; [intros ->; eauto|].
    intros (v & -> & Hg). destruct (upt_frame _ _ _ Hu g _ Hg) as (_ & _ & Hq).
    rewrite (lookup_vpn _ _ _ a (vpn_mul _)) in Hq. congruence.
  - intros va Hva Hq. by rewrite (lookup_vpn _ _ _ _ Hq), Hz.
  - apply Ho.
  - intros q Hq Hni Ht. eapply same_page_trans.
    + apply Hsame; [done|]. intros ->. apply Hni. by apply list_elem_of_singleton.
    + eapply leaf_same; [done|done|apply PX_range; lia|done|]. intros ->. by eapply Ht.
Qed.

Lemma uvmunmap_page_free s own free r a :
  vm_inv s own free -> user_pt (kmem_mem s) own r -> 0 <= a < TRAPFRAME ->
  returns (uvmunmap_page r a true s) (fun _ s' => exists own' free' freed,
    unmaps s own free r (fun v => v = vpn a) s' own' free' freed).
Proof.
  intros Hi Hu Ha. assert (TRAPFRAME < MAXVA) by done.
  unfold uvmunmap_page, bind. rewrite walk_noalloc by lia.
  assert (Hnone : has (lookup_pte (kmem_mem s) r a) PTE_V = false ->
    exists own' free' freed, unmaps s own free r (fun v => v = vpn a) s own' free' freed).
  { intros He. exists own, free, []. apply unmaps_refl; [done|done|].
    intros va _ Hq. by rewrite (lookup_vpn _ _ _ _ Hq). }
  destruct (slot_at_root s own free r a Hi (upt_root _ _ _ Hu) ltac:(lia))
    as [[Hs Hl]|(p0 & Hp0 & Hs & Hpos & Hl)].
  { rewrite Hs. simpl. apply Hnone. by rewrite Hl. }
  destruct (Z.eqb_spec (slot_at (kmem_mem s) 2 r a) 0); [lia|].
  unfold kload, gets. rewrite <- Hl.
  destruct (has (lookup_pte (kmem_mem s) r a) PTE_V) eqn:Hv; cbn [negb]; [|exact (Hnone eq_refl)].
  set (f := PTE2PA (lookup_pte (kmem_mem s) r a)).
  pose proof (upt_map _ _ _ Hu a Ha Hv) as Hf. fold f in Hf.
  destruct (disown_frame s own free f r _ Hi Hf) as [Hi1 Hh1].
  pose proof (held_free s _ _ f Hi1 Hh1) as Hk.
  destruct (kfree f s) as [[] s1| | | |]; try contradiction. destruct Hk as [Hik Hsame]. simpl.
  (* the entry is cleared after its frame went to the free list *)
  rewrite Hs. change (set_mem _ s1) with (leaf_written s1 p0 (PX 0 a) 0).
  exists (delete f own), (f :: free), [f]. by eapply unmap_one.
Qed.

Lemma uvmunmap_loop_free n : forall fuel s own free r a,
  (n < fuel)%nat -> vm_inv s own free -> user_pt (kmem_mem s) own r ->
  aligned a -> 0 <= a -> a + Z.of_nat n * PGSIZE <= TRAPFRAME ->
  returns (uvmunmap_loop fuel r a (a + Z.of_nat n * PGSIZE) true s) (fun _ s' =>
    exists own' free' freed,
      unmaps s own free r (fun v => vpn a <= v < vpn a + Z.of_nat n) s' own' free' freed).
Proof.
  induction n as [|n IH]; intros fuel s own free r a Hf Hi Hu Hal H0 H1;
    (destruct fuel as [|fuel]; [lia|]); cbn [uvmunmap_loop].
  - destruct (Z.ltb_spec a (a + Z.of_nat 0 * PGSIZE)); [lia|]. simpl.
    exists own, free, []. apply unmaps_refl; [done|done|]. intros; lia.
  - unfold PGSIZE in H1. change TRAPFRAME with (2 ^ 38 - 8192) in *.
    destruct (Z.ltb_spec a (a + Z.of_nat (S n) * PGSIZE)); [|unfold PGSIZE in *; lia].
    eapply bind_returns; [apply (uvmunmap_page_free s own free r a Hi Hu)|].
    { change TRAPFRAME with (2 ^ 38 - 8192). lia. }
    intros [] s1 (own1 & free1 & x1 & U1).
    rewrite u64_small by (unfold PGSIZE; lia).
    replace (a + Z.of_nat (S n) * PGSIZE) with (a + PGSIZE + Z.of_nat n * PGSIZE) by lia.
    eapply returns_mono; [apply (IH fuel s1 own1 free1 r (a + PGSIZE)); try apply U1|].
    + lia.
    + unfold aligned, PGSIZE in *. zlia.
    + unfold PGSIZE. lia.
    + change TRAPFRAME with (2 ^ 38 - 8192). unfold PGSIZE. lia.
    + intros [] s2 (own2 & free2 & x2 & U2). exists own2, free2, (x2 ++ x1).
      eapply unmaps_iff; [|eapply unmaps_trans; [apply Hu|exact U1|exact U2]].
      intros v. rewrite vpn_succ. lia.
Qed.

Lemma uvmunmap_free s own free r va n :
  vm_inv s own free -> user_pt (kmem_mem s) own r ->
  aligned va -> 0 <= va -> 0 <= n -> va + n * PGSIZE <= TRAPFRAME ->
  returns (uvmunmap r va n true s) (fun _ s' => exists own' free' freed,
    unmaps s own free r (fun v => vpn va <= v < vpn va + n) s' own' free' freed).
Proof.
  intros Hi Hu Hal H0 Hn H1. unfold uvmunmap. pose proof Hal as Hal'. unfold aligned in Hal'.
  rewrite Hal'. cbn [negb Z.eqb]. assert (TRAPFRAME = 2 ^ 38 - 8192) by done.
  unfold PGSIZE in H1.
  replace (u64 (va + u64 (n * PGSIZE))) with (va + Z.of_nat (Z.to_nat n) * PGSIZE)
    by (rewrite !u64_small; unfold PGSIZE; rewrite ?u64_small; lia).
  eapply returns_mono; [apply (uvmunmap_loop_free (Z.to_nat n)); try done; unfold PGSIZE; lia|].
  intros [] s' (own' & free' & x & U). exists own', free', x.
  eapply unmaps_iff; [|exact U]. intros v. simpl. lia.
Qed.

Lemma unmaps_empty s own free r (D : Z -> Prop) :
  vm_inv s own free -> user_pt (kmem_mem s) own r -> (forall v, ~ D v) ->
  unmaps s own free r D s own free [].
Proof. intros Hi Hu Hd. apply unmaps_refl; [done|done|]. intros va _ Hv. by destruct (Hd _ Hv). Qed.

Lemma roundup_user sz : 0 <= sz <= TRAPFRAME ->
  aligned (PGROUNDUP sz) /\ sz <= PGROUNDUP sz < sz + PGSIZE /\ PGROUNDUP sz <= TRAPFRAME.
Proof.
  intros Hsz. change TRAPFRAME with (67108862 * 4096) in *.
  assert (0 <= sz /\ sz + PGSIZE - 1 < 2 ^ 64) as [? ?] by (unfold PGSIZE; lia).
  pose proof (PGROUNDUP_aligned sz ltac:(done) ltac:(done)).
  pose proof (PGROUNDUP_le sz ltac:(done) ltac:(done)).
  split_and!; try done; try lia. unfold aligned, PGSIZE in *. zlia.
Qed.

(** Shrinking. *)
Lemma uvmdealloc_ok s own free r oldsz newsz :
  vm_inv s own free -> user_pt (kmem_mem s) own r ->
  0 <= newsz -> 0 <= oldsz <= TRAPFRAME ->
  returns (uvmdealloc r oldsz newsz s) (fun res s' =>
    res = Z.min oldsz newsz /\ exists own' free' freed,
    unmaps s own free r
      (fun v => newsz < oldsz /\ vpn (PGROUNDUP newsz) <= v < vpn (PGROUNDUP oldsz))
      s' own' free' freed).
Proof.
  intros Hi Hu Hn Ho. unfold uvmdealloc.
  destruct (Z.leb_spec oldsz newsz).
  { simpl. split; [lia|]. exists own, free, []. apply unmaps_empty; [done|done|].
    intros v [Hv _]. lia. }
  destruct (roundup_user newsz ltac:(lia)) as (An & Ln & Tn).
  destruct (roundup_user oldsz ltac:(lia)) as (Ao & Lo & To).
  set (lo := PGROUNDUP newsz) in *. set (hi := PGROUNDUP oldsz) in *.
  assert (Hdiv : hi - lo = (vpn hi - vpn lo) * PGSIZE)
    by (unfold aligned, vpn, PGSIZE in *; zlia).
  destruct (Z.ltb_spec lo hi).
  - change TRAPFRAME with (67108862 * 4096) in *.
    replace ((hi - lo) / PGSIZE) with (vpn hi - vpn lo) by (rewrite Hdiv, Z.div_mul; unfold PGSIZE; lia).
    rewrite i32_small, u64_small by (unfold vpn, PGSIZE in *; zlia).
    eapply bind_returns; [apply (uvmunmap_free s own free r lo (vpn hi - vpn lo)); try done|].
    + lia.
    + unfold vpn, PGSIZE in *. zlia.
    + change TRAPFRAME with (67108862 * 4096). lia.
    + intros [] s' (own' & free' & x & U). simpl. split; [lia|]. exists own', free', x.
      eapply unmaps_iff; [|exact U]. intros v. simpl. lia.
  - simpl. split; [lia|]. exists own, free, []. apply unmaps_empty; [done|done|].
    intros v [_ Hv]. unfold vpn, PGSIZE in *. zlia.
Qed.

(** * Adding frames *)

(** [s'] is [s] with frames added to [r] at pages of [D] only (and table pages
    anywhere). *)
Record adds (s : kmem) (own : gmap Z use) (free : list Z) (r : Z) (D : Z -> Prop) (s' : kmem) (own' : gmap Z use)
    (free' : list Z) : Prop := {
  ad_inv : vm_inv s' own' free';
  ad_upt : user_pt (kmem_mem s') own' r;
  ad_own : own ⊆ own';
  ad_free : forall q, q ∈ free' -> q ∈ free;
  ad_conserve : forall q, q ∈ free -> q ∈ free' \/ is_Some (own' !! q);
  ad_new : forall q u, own' !! q = Some u ->
    own !! q = Some u \/
    (q ∈ free /\ match u with Table r' _ _ => r' = r | Frame r' v => r' = r /\ D v end);
  ad_lookup : forall r' va, is_root own r' -> 0 <= va < MAXVA -> ~ (r' = r /\ D (vpn va)) ->
    lookup_pte (kmem_mem s') r' va = lookup_pte (kmem_mem s) r' va;
  ad_keep : forall q, aligned q -> q ∉ free -> (forall r' l pre, own !! q <> Some (Table r' l pre)) ->
    same_page (kmem_mem s) (kmem_mem s') q
}.

Lemma adds_refl s own free r D :
  vm_inv s own free -> user_pt (kmem_mem s) own r -> adds s own free r D s own free.
Proof. intros. constructor; try done; [by left|intros q u Hq; by left]. Qed.

Lemma adds_weaken s own free r (D D' : Z -> Prop) s' own' free' :
  (forall v, D v -> D' v) -> adds s own free r D s' own' free' -> adds s own free r D' s' own' free'.
Proof.
  intros HD [A1 A2 A3 A4 A4' A5 A6 A7]. constructor; try done.
  - intros q u Hq. destruct (A5 q u Hq) as [?|[? Hu]]; [by left|]. right. split; [done|].
    destruct u; [done|]. destruct Hu. auto.
  - intros r' va Hr Hva Hn. apply A6; [done|done|]. intros [? ?]. auto.
Qed.

Lemma adds_trans s own free r D s1 o1 f1 s2 o2 f2 :
  adds s own free r D s1 o1 f1 -> adds s1 o1 f1 r D s2 o2 f2 -> adds s own free r D s2 o2 f2.
Proof.
  intros A1 A2. constructor.
  - apply A2.
  - apply A2.
  - etrans; [apply A1|apply A2].
  - intros q Hq. apply A1. by apply A2.
  - intros q Hq. destruct (ad_conserve _ _ _ _ _ _ _ _ A1 q Hq) as [Hq1|[u Hq1]]; [by apply (ad_conserve _ _ _ _ _ _ _ _ A2)|right].
    exists u. eapply lookup_weaken; [exact Hq1|apply A2].
  - intros q u Hq. destruct (ad_new _ _ _ _ _ _ _ _ A2 q u Hq) as [Hq1|[Hq1 Hu]].
    + by apply (ad_new _ _ _ _ _ _ _ _ A1).
    + right. split; [|done]. by apply A1.
  - intros r' va Hr' Hva Hn. rewrite (ad_lookup _ _ _ _ _ _ _ _ A2), (ad_lookup _ _ _ _ _ _ _ _ A1); try done.
    eapply is_root_mono; [apply A1|done].
  - intros q Hq Hnf Ht. eapply same_page_trans; [by apply (ad_keep _ _ _ _ _ _ _ _ A1)|].
    apply (ad_keep _ _ _ _ _ _ _ _ A2); [done| |].
    + intros Hf. by apply Hnf, A1.
    + intros r' l pre Ho. destruct (ad_new _ _ _ _ _ _ _ _ A1 q _ Ho) as [?|[? _]]; [by eapply Ht|done].
Qed.

Lemma updates_adds s own free D s' own' free' used r (D' : Z -> Prop) :
  updates s own free D s' own' free' used -> user_pt (kmem_mem s') own' r ->
  (forall r' v, D r' v -> r' = r /\ D' v) -> adds s own free r D' s' own' free'.
Proof.
  intros U Hu HD. constructor; try apply U; try done.
  - intros q Hq. rewrite (upd_free _ _ _ _ _ _ _ _ U). set_solver.
  - intros q. rewrite (upd_free _ _ _ _ _ _ _ _ U). intros Hq. apply elem_of_app in Hq as [Hq|Hq]; [right; by apply U|by left].
  - intros q u Hq. destruct (upd_new _ _ _ _ _ _ _ _ U q u Hq) as [?|[Hin (? & ? & ? & -> & ? & ?)]]; [by left|].
    right. split; [|naive_solver]. rewrite (upd_free _ _ _ _ _ _ _ _ U). set_solver.
  - intros r' va Hr Hva Hn. apply (upd_lookup _ _ _ _ _ _ _ _ U); naive_solver.
  - intros q Hq Hnf Ht. apply (upd_keep _ _ _ _ _ _ _ _ U); [done| |done].
    intros Hin. apply Hnf. rewrite (upd_free _ _ _ _ _ _ _ _ U). set_solver.
Qed.

(** A page taken from the free list and written to, nothing else touched. *)
Record alloced (s : kmem) (own : gmap Z use) (free : list Z) (s1 : kmem) (free1 : list Z) (p : Z)
  : Prop := {
  al_free : free = p :: free1;
  al_inv : vm_inv s1 own free1;
  al_held : held own free1 p;
  al_same : forall q, aligned q -> q <> p -> same_page (kmem_mem s) (kmem_mem s1) q
}.

Lemma alloced_lookup s own free s1 free1 p r va :
  vm_inv s own free -> alloced s own free s1 free1 p -> is_root own r -> 0 <= va < MAXVA ->
  lookup_pte (kmem_mem s1) r va = lookup_pte (kmem_mem s) r va.
Proof.
  intros Hi [Hf Hi1 Hh Hs] Hr Hva. eapply (lookup_held s own free p); try done. apply Hh.
Qed.

Lemma alloced_upt s own free s1 free1 p r :
  vm_inv s own free -> alloced s own free s1 free1 p -> user_pt (kmem_mem s) own r ->
  user_pt (kmem_mem s1) own r.
Proof.
  intros Hi Ha [Hr Hm Hf]. assert (TRAPFRAME < MAXVA) by done. constructor; [done| |].
  - intros va Hva. rewrite (alloced_lookup s own free s1 free1 p) by (done || lia). by apply Hm.
  - intros f v Hp. destruct (Hf f v Hp) as (Hb & ? & ?). pose proof (frame_va v Hb).
    rewrite (alloced_lookup s own free s1 free1 p) by (done || lia). done.
Qed.

Lemma alloced_write s own free s1 free1 p m' :
  alloced s own free s1 free1 p ->
  (forall q, aligned q -> q <> p -> same_page (kmem_mem s1) m' q) ->
  alloced s own free (set_mem m' s1) free1 p.
Proof.
  intros [Hf Hi Hh Hs] Hm. constructor; [done|by eapply held_write|done|].
  intros q Hq Hne. eapply same_page_trans; [by apply Hs|by apply Hm].
Qed.

Lemma kalloc_alloced s own p free1 :
  vm_inv s own (p :: free1) ->
  returns (kalloc s) (fun r s1 => r = p /\ alloced s own (p :: free1) s1 free1 p).
Proof.
  intros Hi. eapply returns_mono; [by apply kalloc_held|].
  intros r s1 (-> & Hi1 & Hh & Hs). split; [done|]. by constructor.
Qed.

(** Releasing the page again. *)
Lemma alloced_free s own free s1 free1 p r D :
  vm_inv s own free -> alloced s own free s1 free1 p -> user_pt (kmem_mem s) own r ->
  forall s2 own2 free2 used,
  updates s1 own free1 D s2 own2 free2 used -> (forall r' v, D r' v -> r' = r /\ v < 0) ->
  returns (kfree p s2) (fun _ s3 => adds s own free r (fun _ => False) s3 own2 (p :: free2)).
Proof.
  intros Hi Ha Hu s2 own2 free2 used U HD. assert (HD0 : forall v, 0 <= v -> ~ D r v) by (intros v Hv Hd; apply HD in Hd; lia). pose proof (al_held _ _ _ _ _ _ Ha) as Hh.
  pose proof (updates_held _ _ _ _ _ _ _ _ _ U Hh) as Hh2.
  eapply returns_mono; [apply held_free; [apply U|exact Hh2]|].
  intros [] s3 [Hi3 Hs3].
  assert (Hlk : forall r' va, is_root own r' -> 0 <= va < MAXVA ->
    lookup_pte (kmem_mem s3) r' va = lookup_pte (kmem_mem s) r' va).
  { intros r' va Hr' Hva. pose proof (is_root_mono _ _ r' (upd_own _ _ _ _ _ _ _ _ U) Hr').
    rewrite (lookup_held s2 own2 free2 p); try done; [|apply U|apply Hh2].
    rewrite (upd_lookup _ _ _ _ _ _ _ _ U); try done; [by eapply alloced_lookup|]. intros Hd. apply HD in Hd. unfold vpn, PGSIZE in Hd. zlia. }
  constructor; try done.
  - pose proof (user_pt_updates _ _ _ _ _ _ _ _ _ U HD0 (alloced_upt _ _ _ _ _ _ _ Hi Ha Hu)) as [Hr Hm Hf].
    assert (TRAPFRAME < MAXVA) by done.
    assert (Hl2 : forall va, 0 <= va < MAXVA -> lookup_pte (kmem_mem s3) r va = lookup_pte (kmem_mem s2) r va).
    { intros va Hva. eapply (lookup_held s2 own2 free2 p); try done; [apply U|apply Hh2]. }
    constructor; [done| |].
    + intros va Hva. rewrite Hl2 by lia. by apply Hm.
    + intros f v Hp. destruct (Hf f v Hp) as (Hb & ? & ?). pose proof (frame_va v Hb).
      rewrite Hl2 by lia. done.
  - apply U.
  - intros q. rewrite (al_free _ _ _ _ _ _ Ha), (upd_free _ _ _ _ _ _ _ _ U). set_solver.
  - intros q. rewrite (al_free _ _ _ _ _ _ Ha), (upd_free _ _ _ _ _ _ _ _ U). rewrite !elem_of_cons, elem_of_app.
    intros [->|[Hq|Hq]]; [left; by left|right; by apply U|left; by right].
  - intros q u Hq. destruct (upd_new _ _ _ _ _ _ _ _ U q u Hq) as [?|[Hin (? & ? & ? & -> & ? & ?)]]; [by left|].
    right. split; [|naive_solver]. rewrite (al_free _ _ _ _ _ _ Ha), (upd_free _ _ _ _ _ _ _ _ U). set_solver.
  - intros r' va Hr Hva _. by apply Hlk.
  - intros q Hq Hnf Ht. rewrite (al_free _ _ _ _ _ _ Ha), (upd_free _ _ _ _ _ _ _ _ U) in Hnf.
    assert (q <> p) by set_solver.
    eapply same_page_trans; [by apply (al_same _ _ _ _ _ _ Ha)|].
    eapply same_page_trans; [apply (upd_keep _ _ _ _ _ _ _ _ U); [done|set_solver|done]|].
    by apply Hs3.
Qed.

(** Mapping the page at [a]: on success the frame belongs to [r], on failure
    it can be released and nothing but table pages was added. *)
Lemma map_alloced s own free s1 free1 p r a perm :
  vm_inv s own free -> user_pt (kmem_mem s) own r -> alloced s own free s1 free1 p ->
  0 <= a < TRAPFRAME -> aligned a -> 0 <= perm < 1024 ->
  has (lookup_pte (kmem_mem s) r a) PTE_V = false ->
  returns (mappages r a PGSIZE p perm s1) (fun res s2 => exists own2 free2,
    (res = 0 /\ adds s own free r (eq (vpn a)) s2 own2 free2 /\
     own2 !! p = Some (Frame r (vpn a)) /\ lookup_pte (kmem_mem s2) r a = mk_pte p perm /\
     same_page (kmem_mem s1) (kmem_mem s2) p) \/
    (res = -1 /\
     returns (kfree p s2) (fun _ s3 => adds s own free r (fun _ => False) s3 own2 (p :: free2)))).
Proof.
  intros Hi Hu Ha Hva Hal Hperm Hnv. pose proof (al_held _ _ _ _ _ _ Ha) as Hh.
  assert (TRAPFRAME < MAXVA) by done.
  pose proof (alloced_upt _ _ _ _ _ _ _ Hi Ha Hu) as Hu1.
  pose proof (alloced_lookup _ _ _ _ _ _ r a Hi Ha (upt_root _ _ _ Hu) ltac:(lia)) as Hl1.
  eapply returns_mono; [apply (map_held s1 own free1 r a p perm); try done; apply Ha|].
  intros res s2 (own2 & free2 & used & U & Hh2 & [[-> Hlk]|[-> E]]).
  - exists (<[p := Frame r (vpn a)]> own2), free2. left.
    assert (Hnv1 : has (lookup_pte (kmem_mem s1) r a) PTE_V = false) by (by rewrite Hl1).
    assert (vm_inv s2 (<[p := Frame r (vpn a)]> own2) free2 /\
            user_pt (kmem_mem s2) (<[p := Frame r (vpn a)]> own2) r) as [Hi2 Hu2]
      by (by eapply (map_held_upt s1 own free1 r a p perm)).
    split_and!; [done| |apply lookup_insert_eq|done|].
    + constructor; try done.
      * etrans; [apply U|]. apply insert_subseteq, Hh2.
      * intros q Hq. rewrite (al_free _ _ _ _ _ _ Ha), (upd_free _ _ _ _ _ _ _ _ U).
        apply elem_of_cons. right. apply elem_of_app. by right.
      * intros q. rewrite (al_free _ _ _ _ _ _ Ha), (upd_free _ _ _ _ _ _ _ _ U). rewrite elem_of_cons, elem_of_app.
        intros [->|[Hq|Hq]]; [right; rewrite lookup_insert_eq; eauto| |by left]. right. apply (upd_used _ _ _ _ _ _ _ _ U) in Hq as [u Hq].
        rewrite lookup_insert. case_decide; eauto.
      * intros q u. rewrite lookup_insert. case_decide as Hd.
        { intros [= <-]. right. subst q. rewrite (al_free _ _ _ _ _ _ Ha). split; [left|done]. }
        intros Hq. destruct (upd_new _ _ _ _ _ _ _ _ U q u Hq) as [?|[Hin (? & ? & ? & -> & ? & ?)]]; [by left|].
        right. split; [|naive_solver]. rewrite (al_free _ _ _ _ _ _ Ha), (upd_free _ _ _ _ _ _ _ _ U).
        apply elem_of_cons. right. apply elem_of_app. by left.
      * intros r' va Hr' Hva' Hn. rewrite (upd_lookup _ _ _ _ _ _ _ _ U); [by eapply alloced_lookup|done|done|].
        intros [-> Hv]. by apply Hn.
      * intros q Hq Hnf Ht. rewrite (al_free _ _ _ _ _ _ Ha), (upd_free _ _ _ _ _ _ _ _ U) in Hnf.
        rewrite elem_of_cons, elem_of_app in Hnf.
        eapply same_page_trans; [apply (al_same _ _ _ _ _ _ Ha); tauto|].
        apply (upd_keep _ _ _ _ _ _ _ _ U); tauto.
    + apply (upd_keep _ _ _ _ _ _ _ _ U).
      * apply valid_page_aligned, Hh.
      * intros Hin. apply (held_notfree _ _ _ Hh). rewrite (upd_free _ _ _ _ _ _ _ _ U).
        apply elem_of_app. by left.
      * intros r' l pre Ho. rewrite (held_notown _ _ _ Hh) in Ho. done.
  - exists own2, free2. right. split; [done|].
    eapply (alloced_free s own free s1 free1 p r (fun r' v => r' = r /\ v = -1)); try done; [|intros r' v [-> ->]; done].
    eapply extends_updates; [|done]. eauto.
Qed.

(** * Growing *)

Lemma adds_unmaps s own free r (D D' : Z -> Prop) s1 o1 f1 s2 o2 f2 x :
  user_pt (kmem_mem s) own r ->
  (forall va, 0 <= va < TRAPFRAME -> D (vpn va) -> has (lookup_pte (kmem_mem s) r va) PTE_V = false) ->
  (forall v, D' v -> D v) ->
  adds s own free r D s1 o1 f1 -> unmaps s1 o1 f1 r D' s2 o2 f2 x -> adds s own free r D s2 o2 f2.
Proof.
  intros Hu Hnv HD A U.
  assert (Hx : forall q, q ∈ x -> q ∈ free /\ own !! q = None).
  { intros q Hq. apply (um_freed _ _ _ _ _ _ _ _ _ U) in Hq as (v & Hv & Hq).
    assert (Hno : own !! q = Some (Frame r v) -> False).
    { intros Ho. destruct (upt_frame _ _ _ Hu q v Ho) as (Hb & He & _).
      rewrite Hnv in He; [done|by apply frame_va|]. rewrite vpn_mul. by apply HD. }
    destruct (ad_new _ _ _ _ _ _ _ _ A q _ Hq) as [?|[? _]]; [tauto|]. split; [done|].
    destruct (own !! q) as [u|] eqn:Ho; [|done].
    pose proof (lookup_weaken _ _ _ _ Ho (ad_own _ _ _ _ _ _ _ _ A)) as Ho1.
    rewrite Hq in Ho1. injection Ho1 as <-. tauto. }
  constructor; try apply U.
  - apply map_subseteq_spec. intros q u Hq. rewrite (um_own _ _ _ _ _ _ _ _ _ U).
    case_decide as Hd; [|by eapply lookup_weaken, A]. destruct (Hx q Hd). congruence.
  - intros q. rewrite (um_free _ _ _ _ _ _ _ _ _ U), elem_of_app. intros [Hq|Hq]; [by apply Hx|by apply A].
  - intros q Hq. rewrite (um_free _ _ _ _ _ _ _ _ _ U), elem_of_app. destruct (decide (q ∈ x)); [left; by left|].
    destruct (ad_conserve _ _ _ _ _ _ _ _ A q Hq) as [?|Hs]; [left; by right|right].
    by rewrite (um_own _ _ _ _ _ _ _ _ _ U), decide_False.
  - intros q u. rewrite (um_own _ _ _ _ _ _ _ _ _ U). case_decide; [done|]. apply A.
  - intros r' va Hr' Hva Hn. rewrite (um_lookup _ _ _ _ _ _ _ _ _ U); [by apply A| |done|].
    + eapply is_root_mono; [apply A|done].
    + intros [-> Hv]. apply Hn. auto.
  - intros q Hq Hnf Ht. eapply same_page_trans; [by apply (ad_keep _ _ _ _ _ _ _ _ A)|].
    apply (um_keep _ _ _ _ _ _ _ _ _ U); [done| |].
    + intros Hq'. by apply Hnf, Hx.
    + intros r' l pre Ho. destruct (ad_new _ _ _ _ _ _ _ _ A q _ Ho) as [?|[? _]]; [by eapply Ht|done].
Qed.

(** Page [v] of [r] is a private zero-filled frame with permissions [perm]. *)
Definition zero_page (m : mem) (own : gmap Z use) (r perm v : Z) : Prop :=
  exists f, own !! f = Some (Frame r v) /\ lookup_pte m r (v * PGSIZE) = mk_pte f perm /\
    forall i, 0 <= i < PGSIZE -> m (f + i) = 0.

Lemma zero_page_adds s own free r D s' own' free' perm v :
  vm_inv s own free -> is_root own r ->
  adds s own free r D s' own' free' -> ~ D v -> 0 <= v < vpn TRAPFRAME ->
  zero_page (kmem_mem s) own r perm v -> zero_page (kmem_mem s') own' r perm v.
Proof.
  intros Hi Hr A Hn Hv (f & Hf & Hl & Hz). pose proof (frame_va v Hv). assert (TRAPFRAME < MAXVA) by done.
  exists f. split_and!.
  - by eapply lookup_weaken, A.
  - rewrite (ad_lookup _ _ _ _ _ _ _ _ A); [done|done|lia|]. rewrite vpn_mul. tauto.
  - intros i Hix. rewrite <- (ad_keep _ _ _ _ _ _ _ _ A f); [by apply Hz| | | |lia].
    + by eapply inv_aligned.
    + intros Hfr. rewrite (inv_notfree _ _ _ Hi) in Hf; done.
    + intros r' l pre Ho. congruence.
Qed.

Lemma lor_perm a b : 0 <= a < 1024 -> 0 <= b < 1024 -> 0 <= Z.lor a b < 1024.
Proof. intros. apply (lor_range 10); lia. Qed.

Section Grow.
Variables (s : kmem) (own : gmap Z use) (free : list Z) (r lo hi xperm : Z).
Hypothesis Hinv : vm_inv s own free.
Hypothesis Hupt : user_pt (kmem_mem s) own r.
Hypothesis Hlo : 0 <= lo /\ aligned lo.
Hypothesis Hhi : hi <= TRAPFRAME.
Hypothesis Hx : 0 <= xperm < 1024.
Hypothesis Hfresh : forall va, 0 <= va < TRAPFRAME -> vpn lo <= vpn va ->
    va < hi -> has (lookup_pte (kmem_mem s) r va) PTE_V = false.

Let perm := Z.lor (Z.lor PTE_R PTE_U) xperm.
Let D (v : Z) : Prop := vpn lo <= v /\ v * PGSIZE < hi.

Lemma grow_fresh va : 0 <= va < TRAPFRAME -> D (vpn va) -> has (lookup_pte (kmem_mem s) r va) PTE_V = false.
Proof.
    intros Hva [H1 H2]. rewrite (lookup_vpn _ _ va (vpn va * PGSIZE)) by (by rewrite vpn_mul).
    pose proof (vpn_user va Hva) as Hu. pose proof (frame_va _ Hu). apply Hfresh; [done|by rewrite vpn_mul|done].
Qed.

  (** Backing out: everything mapped so far is unmapped and freed. *)
Lemma grow_undo s1 o1 f1 a :
    adds s own free r D s1 o1 f1 -> aligned a -> lo <= a -> a < hi ->
    (forall v, vpn a <= v -> D v -> has (lookup_pte (kmem_mem s1) r (v * PGSIZE)) PTE_V = false) ->
    returns (uvmdealloc r a lo s1) (fun _ s2 => exists o2 f2,
      adds s own free r D s2 o2 f2 /\
      forall va, 0 <= va < TRAPFRAME -> D (vpn va) -> has (lookup_pte (kmem_mem s2) r va) PTE_V = false).
Proof.
    intros A Hal Hle Hlt Hrest.
    eapply returns_mono; [apply (uvmdealloc_ok s1 o1 f1 r a lo); [apply A..|lia|lia]|].
    assert (PGROUNDUP lo = lo /\ PGROUNDUP a = a) as [-> ->].
    { change TRAPFRAME with (67108862 * 4096) in *.
      split; apply PGROUNDUP_id; try tauto; unfold PGSIZE in *; lia. }
    intros res s2 (_ & o2 & f2 & x & U). exists o2, f2. split.
    - eapply (adds_unmaps _ _ _ _ _ _ _ _ _ _ _ _ _ Hupt); [apply grow_fresh| |exact A|exact U].
      intros v [_ Hv]. split; [lia|]. unfold aligned, vpn, PGSIZE in *. zlia.
    - intros va Hva Hd. destruct (Z.lt_ge_cases (vpn va) (vpn a)).
      + apply (um_gone _ _ _ _ _ _ _ _ _ U); [done|]. destruct Hd. split; [|lia].
        unfold vpn, PGSIZE in *. zlia.
      + assert (TRAPFRAME < MAXVA) by done.
        rewrite (um_lookup _ _ _ _ _ _ _ _ _ U); [|apply A|lia|lia].
        rewrite (lookup_vpn _ _ va (vpn va * PGSIZE)) by (by rewrite vpn_mul). by apply Hrest.
Qed.
  (** The page at [a] was given a zeroed frame. *)
Lemma grow_extend s1 o1 f1 a s2 o2 f2 p m0 :
    adds s own free r D s1 o1 f1 -> aligned a -> lo <= a < hi ->
    (forall v, vpn lo <= v < vpn a -> zero_page (kmem_mem s1) o1 r perm v) ->
    (forall v, vpn a <= v -> D v -> has (lookup_pte (kmem_mem s1) r (v * PGSIZE)) PTE_V = false) ->
    adds s1 o1 f1 r (eq (vpn a)) s2 o2 f2 -> o2 !! p = Some (Frame r (vpn a)) ->
    lookup_pte (kmem_mem s2) r a = mk_pte p perm -> same_page (fill m0 p 0 PGSIZE) (kmem_mem s2) p ->
    adds s own free r D s2 o2 f2 /\
    (forall v, vpn lo <= v < vpn (a + PGSIZE) -> zero_page (kmem_mem s2) o2 r perm v) /\
    (forall v, vpn (a + PGSIZE) <= v -> D v -> has (lookup_pte (kmem_mem s2) r (v * PGSIZE)) PTE_V = false).
Proof.
    intros A Hal Hle Hz Hrest A2 Hp Hlk Hfill. rewrite vpn_succ.
    assert (Ha : vpn lo <= vpn a /\ vpn a * PGSIZE = a) by (unfold aligned, vpn, PGSIZE in *; zlia).
    assert (Hb : 0 <= vpn a < vpn TRAPFRAME) by (apply vpn_user; lia).
    assert (0 <= vpn lo) by (unfold vpn, PGSIZE; zlia).
    split_and!.
    - eapply adds_trans; [exact A|]. eapply adds_weaken; [|exact A2]. intros v <-. unfold D. lia.
    - intros v Hv. destruct (Z.eq_dec v (vpn a)) as [->|Hne].
      + exists p. destruct Ha as [_ ->]. split_and!; [done|done|]. intros i Hix.
        rewrite <- Hfill by lia. unfold fill. bool_to_prop; done || lia.
      + eapply (zero_page_adds s1); [apply A|apply A|exact A2|lia|lia|]. apply Hz. lia.
    - intros v Hv Hd. assert (TRAPFRAME < MAXVA) by done.
      rewrite (ad_lookup _ _ _ _ _ _ _ _ A2); [apply Hrest; [lia|done]|apply A| |rewrite vpn_mul; lia].
      destruct Hd. unfold PGSIZE in *. lia.
Qed.

Lemma grow_loop n : forall fuel s1 o1 f1 a,
    (n < fuel)%nat -> aligned a -> lo <= a -> hi <= a + Z.of_nat n * PGSIZE ->
    (n = 0%nat \/ a + (Z.of_nat n - 1) * PGSIZE < hi) ->
    adds s own free r D s1 o1 f1 ->
    (forall v, vpn lo <= v < vpn a -> zero_page (kmem_mem s1) o1 r perm v) ->
    (forall v, vpn a <= v -> D v -> has (lookup_pte (kmem_mem s1) r (v * PGSIZE)) PTE_V = false) ->
    returns (uvmalloc_loop fuel r lo a hi xperm s1) (fun res s' => exists o' f',
      adds s own free r D s' o' f' /\
      ((res = hi /\ forall v, D v -> zero_page (kmem_mem s') o' r perm v) \/
       (res = 0 /\ forall va, 0 <= va < TRAPFRAME -> D (vpn va) ->
          has (lookup_pte (kmem_mem s') r va) PTE_V = false))).
Proof.
    induction n as [|n IH]; intros fuel s1 o1 f1 a Hf Hal Hle Hn Hn' A Hz Hrest;
      (destruct fuel as [|fuel]; [lia|]); cbn [uvmalloc_loop].
    - destruct (Z.ltb_spec a hi); [lia|]. simpl. exists o1, f1. split; [done|]. left. split; [done|].
      intros v Hv. apply Hz. destruct Hv. split; [done|]. unfold vpn, aligned, PGSIZE in *. zlia.
    - destruct Hn' as [?|Hn']; [lia|].
      destruct (Z.ltb_spec a hi); [|unfold PGSIZE in *; lia].
      assert (Hundo : forall s2 o2 f2, adds s1 o1 f1 r (fun _ => False) s2 o2 f2 ->
        returns (bind (uvmdealloc r a lo) (fun _ => ret 0) s2) (fun res s' => exists o' f',
          adds s own free r D s' o' f' /\
          ((res = hi /\ forall v, D v -> zero_page (kmem_mem s') o' r perm v) \/
           (res = 0 /\ forall va, 0 <= va < TRAPFRAME -> D (vpn va) ->
              has (lookup_pte (kmem_mem s') r va) PTE_V = false)))).
      { intros s2 o2 f2 A2. eapply bind_returns; [apply (grow_undo s2 o2 f2 a)|].
        - eapply adds_trans; [exact A|]. eapply adds_weaken; [|exact A2]. done.
        - done.
        - done.
        - done.
        - intros v Hv Hd. assert (TRAPFRAME < MAXVA) by done.
          rewrite (ad_lookup _ _ _ _ _ _ _ _ A2); [by apply Hrest|apply A| |tauto].
          unfold vpn, PGSIZE in *. destruct Hd. zlia.
        - intros _ s3 (o3 & f3 & A3 & Hg). simpl. exists o3, f3. split; [done|]. by right. }
      destruct f1 as [|p f1].
      { rewrite (bind_ret _ _ _ _ _ (kalloc_none s1 ltac:(apply (inv_free _ _ _ (ad_inv _ _ _ _ _ _ _ _ A))))).
        simpl. apply (Hundo s1 o1 []). apply adds_refl; apply A. }
      eapply bind_returns; [apply (kalloc_alloced s1 o1 p f1), A|].
      intros q s2 [-> Hal2]. pose proof (valid_page_pos _ (held_valid _ _ _ (al_held _ _ _ _ _ _ Hal2))).
      destruct (Z.eqb_spec p 0); [lia|]. rewrite (bind_ret (kmemset p 0 PGSIZE) tt s2 _ _ eq_refl).
      set (m2 := fill (kmem_mem s2) p 0 PGSIZE).
      assert (Hal3 : alloced s1 o1 (p :: f1) (set_mem m2 s2) f1 p).
      { eapply alloced_write; [done|]. intros q Hq Hne. apply same_page_fill; [|done|done].
        apply valid_page_aligned, (al_held _ _ _ _ _ _ Hal2). }
      eapply bind_returns.
      + eapply (map_alloced s1 o1 (p :: f1) _ f1 p r a perm); [apply A|apply A|exact Hal3|lia|done| |].
        * apply lor_perm; [done|exact Hx].
        * rewrite (lookup_vpn _ _ a (vpn a * PGSIZE)) by (by rewrite vpn_mul).
          apply Hrest; [lia|]. unfold D.
          unfold aligned, vpn, PGSIZE in *; zlia.
      + intros res s3 (o3 & f3 & [(-> & A3 & Hp3 & Hlk & Hsame)|(-> & Hk)]); simpl.
        * destruct (grow_extend s1 o1 (p :: f1) a s3 o3 f3 p (kmem_mem s2) A Hal ltac:(lia) Hz Hrest A3 Hp3 Hlk Hsame)
            as (A4 & Hz4 & Hr4).
          rewrite u64_small by (change TRAPFRAME with (67108862 * 4096) in *; unfold PGSIZE; lia).
          apply (IH fuel s3 o3 f3); try done; unfold PGSIZE in *; try lia.
          unfold aligned, PGSIZE in *. zlia.
        * eapply bind_returns; [exact Hk|]. intros [] s4 A4. by apply Hundo in A4.
Qed.
End Grow.

Lemma pages_below sz n : 0 <= sz -> n = Z.to_nat ((sz + PGSIZE - 1) / PGSIZE) ->
  sz <= Z.of_nat n * PGSIZE /\ (n = 0%nat \/ (Z.of_nat n - 1) * PGSIZE < sz) /\
  (n < Z.to_nat (sz / PGSIZE) + 2)%nat.
Proof. intros Hs ->. unfold PGSIZE. zlia. Qed.

(** Growing a user address space from [oldsz] to [newsz] (below TRAPFRAME,
    the new pages not mapped before) returns.  Result [newsz] means that every
    page from the old end to [newsz] is backed by its own zero-filled frame
    with permissions R, U and [xperm]; result 0 means that none of them is
    mapped and every frame taken on the way went back.  In both cases the
    page-table invariants hold, and no other translation, of this or any other
    page table, and no allocated frame changes. *)
Theorem uvmalloc_grows (s : kmem) (own : gmap Z use) (free : list Z) (r oldsz newsz xperm : Z)
  (Hinv : vm_inv s own free) (Hupt : user_pt (kmem_mem s) own r)
  (Hsz : 0 <= oldsz <= newsz /\ newsz <= TRAPFRAME) (Hx : 0 <= xperm < 1024)
  (Hfresh : forall va, 0 <= va < newsz -> vpn (PGROUNDUP oldsz) <= vpn va ->
     has (lookup_pte (kmem_mem s) r va) PTE_V = false) :
  let D v := vpn (PGROUNDUP oldsz) <= v /\ v * PGSIZE < newsz in
  returns (uvmalloc r oldsz newsz xperm s) (fun res s' => exists own' free',
    adds s own free r D s' own' free' /\
    ((res = newsz /\ forall v, D v ->
        zero_page (kmem_mem s') own' r (Z.lor (Z.lor PTE_R PTE_U) xperm) v) \/
     (res = 0 /\ forall va, 0 <= va < TRAPFRAME -> D (vpn va) ->
        has (lookup_pte (kmem_mem s') r va) PTE_V = false))).
Proof.
  intros D. destruct Hsz as [[H0 H1] H2]. unfold uvmalloc.
  destruct (Z.ltb_spec newsz oldsz); [lia|].
  destruct (roundup_user oldsz ltac:(lia)) as (Hal & Hle & Htop). set (lo := PGROUNDUP oldsz) in *.
  assert (Hbase : forall v, vpn lo <= v < vpn lo ->
    zero_page (kmem_mem s) own r (Z.lor (Z.lor PTE_R PTE_U) xperm) v) by lia.
  assert (Hrest : forall v, vpn lo <= v -> D v -> has (lookup_pte (kmem_mem s) r (v * PGSIZE)) PTE_V = false).
  { intros v Hv [_ Hd]. apply Hfresh; [|by rewrite vpn_mul].
    assert (0 <= vpn lo) by (unfold vpn, PGSIZE; zlia). unfold PGSIZE in *. lia. }
  assert (Hfr : forall va, 0 <= va < TRAPFRAME -> vpn lo <= vpn va -> va < newsz ->
    has (lookup_pte (kmem_mem s) r va) PTE_V = false) by (intros; apply Hfresh; [lia|done]).
  destruct (Z.le_gt_cases newsz lo).
  - eapply (grow_loop s own free r lo newsz xperm Hupt) with (n := 0%nat); try done; try lia; [split; [lia|done]|by apply adds_refl].
  - set (n := Z.to_nat (((newsz - lo) + PGSIZE - 1) / PGSIZE)).
    destruct (pages_below (newsz - lo) n ltac:(lia) eq_refl) as (P1 & P2 & P3).
    eapply (grow_loop s own free r lo newsz xperm Hupt) with (n := n); try done; try lia; [split; [lia|done]|by apply adds_refl].
Qed.

(** Shrinking from [oldsz] to [newsz] returns the smaller of the two; the
    pages wholly above the new size are unmapped, exactly their frames go back
    to the free list, and every other translation and page stays as it was. *)
Theorem uvmdealloc_frees_tail (s : kmem) (own : gmap Z use) (free : list Z) (r oldsz newsz : Z)
  (Hinv : vm_inv s own free) (Hupt : user_pt (kmem_mem s) own r)
  (Hnew : 0 <= newsz) (Hold : 0 <= oldsz <= TRAPFRAME) :
  returns (uvmdealloc r oldsz newsz s) (fun res s' =>
    res = Z.min oldsz newsz /\ exists own' free' freed,
    unmaps s own free r
      (fun v => newsz < oldsz /\ vpn (PGROUNDUP newsz) <= v < vpn (PGROUNDUP oldsz))
      s' own' free' freed).
Proof. by apply uvmdealloc_ok. Qed.

(** * Copying for fork *)

(** Page [v] of [new] duplicates page [v] of [old]: unmapped when it is, and
    otherwise a frame of its own with the same contents and flags. *)
Definition copied (m : mem) (own : gmap Z use) (old new v : Z) : Prop :=
  let e := lookup_pte m old (v * PGSIZE) in
  if has e PTE_V
  then exists f, own !! f = Some (Frame new v) /\
         lookup_pte m new (v * PGSIZE) = mk_pte f (PTE_FLAGS e) /\
         forall i, 0 <= i < PGSIZE -> m (f + i) = m (PTE2PA e + i)
  else has (lookup_pte m new (v * PGSIZE)) PTE_V = false.

Lemma PTE_FLAGS_range e : 0 <= PTE_FLAGS e < 1024.
Proof.
  unfold PTE_FLAGS. change 1023 with (Z.ones 10). rewrite Z.land_ones by lia. apply Z.mod_pos_bound. lia.
Qed.

(** A frame survives additions. *)
Lemma adds_keep_frame s own free r D s' own' free' f r' v i :
  vm_inv s own free -> adds s own free r D s' own' free' ->
  own !! f = Some (Frame r' v) -> 0 <= i < PGSIZE -> kmem_mem s' (f + i) = kmem_mem s (f + i).
Proof.
  intros Hi A Hf Hix. symmetry. apply (ad_keep _ _ _ _ _ _ _ _ A f); [by eapply inv_aligned| | |lia].
  - intros Hfr. rewrite (inv_notfree _ _ _ Hi) in Hf; done.
  - intros r'' l pre Ho. congruence.
Qed.

Section Copy.
Variables (s : kmem) (own : gmap Z use) (free : list Z) (old new sz : Z).
Hypothesis Hinv : vm_inv s own free.
Hypothesis Hold : user_pt (kmem_mem s) own old.
Hypothesis Hnew : user_pt (kmem_mem s) own new.
Hypothesis Hne : old <> new.
Hypothesis Hsz : 0 <= sz <= TRAPFRAME.
Hypothesis Hfresh : forall va, 0 <= va < TRAPFRAME -> has (lookup_pte (kmem_mem s) new va) PTE_V = false.

Let D (v : Z) : Prop := 0 <= v /\ v * PGSIZE < sz.

  (** The old page table while the new one grows. *)
Lemma copy_old s1 o1 f1 (D' : Z -> Prop) : adds s own free new D' s1 o1 f1 ->
    user_pt (kmem_mem s1) o1 old /\ is_root o1 old /\
    forall va, 0 <= va < MAXVA -> lookup_pte (kmem_mem s1) old va = lookup_pte (kmem_mem s) old va.
Proof.
    intros A. assert (TRAPFRAME < MAXVA) by done.
    assert (Hl : forall va, 0 <= va < MAXVA -> lookup_pte (kmem_mem s1) old va = lookup_pte (kmem_mem s) old va).
    { intros va Hva. apply (ad_lookup _ _ _ _ _ _ _ _ A); [apply Hold|done|]. intros [? _]. done. }
    assert (is_root o1 old) by (eapply is_root_mono; [apply A|apply Hold]).
    split_and!; [|done|done]. constructor; [done| |].
    - intros va Hva. rewrite Hl by lia. intros Hv. eapply lookup_weaken; [|apply A]. by apply Hold.
    - intros f v Hf. destruct (ad_new _ _ _ _ _ _ _ _ A f _ Hf) as [Hf0|[_ [? _]]]; [|done].
      destruct (upt_frame _ _ _ Hold f v Hf0) as (Hb & ? & ?). pose proof (frame_va v Hb).
      rewrite Hl by lia. done.
Qed.

Lemma copied_adds s1 o1 f1 (D1 D2 : Z -> Prop) s2 o2 f2 v :
    adds s own free new D1 s1 o1 f1 -> adds s1 o1 f1 new D2 s2 o2 f2 ->
    ~ D2 v -> 0 <= v < vpn TRAPFRAME ->
    copied (kmem_mem s1) o1 old new v -> copied (kmem_mem s2) o2 old new v.
Proof.
    intros A1 A2 Hn Hv. pose proof (frame_va v Hv) as Hva. assert (TRAPFRAME < MAXVA) by done.
    destruct (copy_old s1 o1 f1 D1 A1) as (Hu1 & Hr1 & _).
    assert (Hlo : lookup_pte (kmem_mem s2) old (v * PGSIZE) = lookup_pte (kmem_mem s1) old (v * PGSIZE)).
    { apply (ad_lookup _ _ _ _ _ _ _ _ A2); [done|lia|]. intros [? _]. done. }
    assert (Hln : lookup_pte (kmem_mem s2) new (v * PGSIZE) = lookup_pte (kmem_mem s1) new (v * PGSIZE)).
    { apply (ad_lookup _ _ _ _ _ _ _ _ A2); [apply A1|lia|]. rewrite vpn_mul. tauto. }
    unfold copied. rewrite Hlo, Hln. destruct (has (lookup_pte (kmem_mem s1) old (v * PGSIZE)) PTE_V) eqn:He; [|done].
    intros (f & Hf & Hlk & Hc). exists f. split_and!; [by eapply lookup_weaken, A2|done|].
    intros i Hix. pose proof (upt_map _ _ _ Hu1 _ Hva He) as Hfo.
    rewrite (adds_keep_frame s1 o1 f1 new D2 s2 o2 f2 f new v) by (done || apply A1).
    rewrite (adds_keep_frame s1 o1 f1 new D2 s2 o2 f2 _ _ _ i (ad_inv _ _ _ _ _ _ _ _ A1) A2 Hfo Hix).
    by apply Hc.
Qed.

  (** Backing out of a partial copy. *)
Lemma copy_undo s1 o1 f1 i :
    adds s own free new D s1 o1 f1 -> aligned i -> 0 <= i < sz ->
    (forall v, vpn i <= v -> D v -> has (lookup_pte (kmem_mem s1) new (v * PGSIZE)) PTE_V = false) ->
    returns (uvmunmap new 0 (i / PGSIZE) true s1) (fun _ s2 => exists o2 f2,
      adds s own free new D s2 o2 f2 /\
      forall va, 0 <= va < TRAPFRAME -> D (vpn va) -> has (lookup_pte (kmem_mem s2) new va) PTE_V = false).
Proof.
    intros A Hal Hi Hrest. change (i / PGSIZE) with (vpn i).
    assert (Hb : 0 <= vpn i < vpn TRAPFRAME) by (apply vpn_user; lia). pose proof (frame_va _ Hb).
    eapply returns_mono; [apply (uvmunmap_free s1 o1 f1 new 0 (vpn i)); try apply A; try done; lia|].
    change (vpn 0) with 0. intros _ s2 (o2 & f2 & x & U). exists o2, f2. split.
    - eapply (adds_unmaps _ _ _ _ _ _ _ _ _ _ _ _ _ Hnew); [|  |exact A|exact U].
      + intros va Hva _. by apply Hfresh.
      + intros v Hv. unfold D. unfold aligned, vpn, PGSIZE in *. zlia.
    - intros va Hva Hd. destruct (Z.lt_ge_cases (vpn va) (vpn i)).
      + apply (um_gone _ _ _ _ _ _ _ _ _ U); [done|]. destruct Hd. lia.
      + assert (TRAPFRAME < MAXVA) by done.
        rewrite (um_lookup _ _ _ _ _ _ _ _ _ U); [|apply A|lia|lia].
        rewrite (lookup_vpn _ _ va (vpn va * PGSIZE)) by (by rewrite vpn_mul). by apply Hrest.
Qed.
  (** The state after the pages below [i] were handled. *)
Definition copying (s1 : kmem) o1 f1 (i : Z) : Prop :=
    adds s own free new D s1 o1 f1 /\
    (forall v, 0 <= v < vpn i -> D v -> copied (kmem_mem s1) o1 old new v) /\
    (forall v, vpn i <= v -> D v -> has (lookup_pte (kmem_mem s1) new (v * PGSIZE)) PTE_V = false).

  (** What the loop has produced when it returns. *)
Definition copy_done (res : Z) (s' : kmem) : Prop := exists o' f',
    adds s own free new D s' o' f' /\
    ((res = 0 /\ forall v, D v -> copied (kmem_mem s') o' old new v) \/
     (res = -1 /\ forall va, 0 <= va < TRAPFRAME -> D (vpn va) ->
        has (lookup_pte (kmem_mem s') new va) PTE_V = false)).

Lemma copy_page_range i : aligned i -> 0 <= i < sz ->
    D (vpn i) /\ 0 <= vpn i < vpn TRAPFRAME /\ vpn i * PGSIZE = i.
Proof.
    intros Hal Hi. assert (0 <= vpn i < vpn TRAPFRAME) by (apply vpn_user; lia).
    unfold D, aligned, vpn, PGSIZE in *. zlia.
Qed.

Lemma copying_skip s1 o1 f1 i : copying s1 o1 f1 i -> aligned i -> 0 <= i < sz ->
    has (lookup_pte (kmem_mem s1) old i) PTE_V = false -> copying s1 o1 f1 (i + PGSIZE).
Proof.
    intros (A & Hc & Hr) Hal Hi Hv. unfold copying. rewrite vpn_succ.
    destruct (copy_page_range i Hal Hi) as (Hd & Hb & He). split_and!; [done| |].
    - intros v Hv' Hdv. destruct (Z.eq_dec v (vpn i)) as [->|]; [|apply Hc; [lia|done]].
      pose proof (Hr (vpn i) ltac:(lia) Hd) as Hn. unfold copied. by rewrite He, Hv, <- He.
    - intros v Hv' Hdv. apply Hr; [lia|done].
Qed.

Lemma copying_undo s1 o1 f1 i s2 o2 f2 : copying s1 o1 f1 i -> aligned i -> 0 <= i < sz ->
    adds s1 o1 f1 new (fun _ => False) s2 o2 f2 ->
    returns (bind (uvmunmap new 0 (i / PGSIZE) true) (fun _ => ret (-1)) s2) copy_done.
Proof.
    intros (A & Hc & Hr) Hal Hi A2. eapply bind_returns; [apply (copy_undo s2 o2 f2 i); try done|].
    - eapply adds_trans; [exact A|]. eapply adds_weaken; [|exact A2]. done.
    - intros v Hv Hd. assert (TRAPFRAME < MAXVA) by done.
      rewrite (ad_lookup _ _ _ _ _ _ _ _ A2); [by apply Hr|apply A| |tauto].
      unfold vpn, PGSIZE in *. destruct Hd. zlia.
    - intros _ s3 (o3 & f3 & A3 & Hg). exists o3, f3. split; [done|]. by right.
Qed.

  (** The frame [p], filled from the old page's frame, was mapped at [i]. *)
Lemma copying_extend s1 o1 f1 i e p m2 s2 o2 f2 :
    copying s1 o1 f1 i -> aligned i -> 0 <= i < sz ->
    lookup_pte (kmem_mem s1) old i = e -> has e PTE_V = true ->
    adds s1 o1 f1 new (eq (vpn i)) s2 o2 f2 -> o2 !! p = Some (Frame new (vpn i)) ->
    lookup_pte (kmem_mem s2) new i = mk_pte p (PTE_FLAGS e) ->
    same_page (copy m2 p (PTE2PA e) PGSIZE) (kmem_mem s2) p ->
    same_page (kmem_mem s1) m2 (PTE2PA e) ->
    copying s2 o2 f2 (i + PGSIZE).
Proof.
    intros (A & Hc & Hr) Hal Hi He Hv A2 Hp Hlk Hcp Hsame. unfold copying. rewrite vpn_succ.
    destruct (copy_page_range i Hal Hi) as (Hd & Hb & Hi').
    assert (TRAPFRAME < MAXVA) by done.
    destruct (copy_old s1 o1 f1 D A) as (Hu1 & Hr1 & _).
    assert (Hoe : lookup_pte (kmem_mem s2) old i = e).
    { rewrite <- He. apply (ad_lookup _ _ _ _ _ _ _ _ A2); [done|lia|]. intros [? _]. done. }
    split_and!.
    - eapply adds_trans; [exact A|]. eapply adds_weaken; [|exact A2]. by intros v <-.
    - intros v Hv' Hdv. destruct (Z.eq_dec v (vpn i)) as [->|].
      + unfold copied. rewrite Hi', Hoe, Hv. exists p. split_and!; [done|done|]. intros k Hk.
        assert (Hfo : o1 !! PTE2PA e = Some (Frame old (vpn i))).
        { rewrite <- He. apply (upt_map _ _ _ Hu1); [lia|by rewrite He]. }
        rewrite (adds_keep_frame s1 o1 f1 new _ s2 o2 f2 _ _ _ k (ad_inv _ _ _ _ _ _ _ _ A) A2 Hfo Hk).
        rewrite Hsame by lia. rewrite <- Hcp by lia. unfold copy. bool_to_prop; try lia. f_equal. lia.
      + eapply (copied_adds s1 o1 f1 D (eq (vpn i))); [done|done|congruence| |apply Hc; [lia|done]].
        destruct Hdv. lia.
    - intros v Hv' Hdv. rewrite (ad_lookup _ _ _ _ _ _ _ _ A2); [apply Hr; [lia|done]|apply A| |rewrite vpn_mul; lia].
      destruct Hdv. unfold PGSIZE in *. lia.
Qed.
  (** Allocating, filling and mapping the copy of one mapped page. *)
Lemma copy_one s1 o1 f1 i e (k : M kmem Z) :
    copying s1 o1 f1 i -> aligned i -> 0 <= i < sz ->
    lookup_pte (kmem_mem s1) old i = e -> has e PTE_V = true ->
    (forall s2 o2 f2, copying s2 o2 f2 (i + PGSIZE) -> returns (k s2) copy_done) ->
    returns (bind kalloc (fun mem =>
      if mem =? 0 then bind (uvmunmap new 0 (i / PGSIZE) true) (fun _ => ret (-1))
      else bind (kmemmove mem (PTE2PA e) PGSIZE) (fun _ =>
        bind (mappages new i PGSIZE mem (PTE_FLAGS e)) (fun r =>
          if negb (r =? 0)
          then bind (kfree mem) (fun _ => bind (uvmunmap new 0 (i / PGSIZE) true) (fun _ => ret (-1)))
          else k))) s1) copy_done.
Proof.
    intros Hcp Hal Hi He Hv Hk. pose proof Hcp as (A & _ & Hr).
    destruct (copy_page_range i Hal Hi) as (Hd & Hb & Hi').
    destruct (copy_old s1 o1 f1 D A) as (Hu1 & _ & _). pose proof (ad_inv _ _ _ _ _ _ _ _ A) as Hinv1.
    assert (Hfo : o1 !! PTE2PA e = Some (Frame old (vpn i))).
    { rewrite <- He. apply (upt_map _ _ _ Hu1); [lia|by rewrite He]. }
    destruct f1 as [|p f1].
    { rewrite (bind_ret _ _ _ _ _ (kalloc_none s1 (inv_free _ _ _ Hinv1))). simpl.
      eapply (copying_undo s1 o1 []); [done|done|done|]. apply adds_refl; [done|apply A]. }
    eapply bind_returns; [by apply (kalloc_alloced s1 o1 p f1)|]. intros q s2 [-> Ha].
    pose proof (al_held _ _ _ _ _ _ Ha) as Hh. pose proof (valid_page_pos _ (held_valid _ _ _ Hh)).
    destruct (Z.eqb_spec p 0); [lia|]. rewrite (bind_ret (kmemmove _ _ _) tt s2 _ _ eq_refl).
    assert (Hpe : p <> PTE2PA e) by (intros ->; destruct Hh; congruence).
    pose proof (valid_page_aligned _ (held_valid _ _ _ Hh)) as Hpal.
    set (m2 := copy (kmem_mem s2) p (PTE2PA e) PGSIZE).
    assert (Ha3 : alloced s1 o1 (p :: f1) (set_mem m2 s2) f1 p).
    { eapply alloced_write; [done|]. intros q Hq Hne'. by apply same_page_copy. }
    eapply bind_returns.
    { apply (map_alloced s1 o1 (p :: f1) _ f1 p new i (PTE_FLAGS e));
        [done|apply A|done|lia|done|apply PTE_FLAGS_range|]. rewrite <- Hi'. by apply Hr. }
    intros res s3 (o3 & f3 & [(-> & A3 & Hp3 & Hlk & Hsame)|(-> & Hkf)]); simpl.
    - apply (Hk s3 o3 f3). eapply (copying_extend s1 o1 (p :: f1) i e p (kmem_mem s2)); try done.
      apply (al_same _ _ _ _ _ _ Ha); [by eapply inv_aligned|done].
    - eapply bind_returns; [exact Hkf|]. intros [] s4 A4. by eapply copying_undo.
Qed.

Lemma copy_loop n : forall fuel s1 o1 f1 i,
    (n < fuel)%nat -> aligned i -> 0 <= i -> sz <= i + Z.of_nat n * PGSIZE ->
    (n = 0%nat \/ i + (Z.of_nat n - 1) * PGSIZE < sz) ->
    copying s1 o1 f1 i -> returns (uvmcopy_loop fuel old new i sz s1) copy_done.
Proof.
    induction n as [|n IH]; intros fuel s1 o1 f1 i Hf Hal Hi0 Hn Hn' Hcp;
      (destruct fuel as [|fuel]; [lia|]); cbn [uvmcopy_loop]; pose proof Hcp as (A & Hc & Hr).
    - destruct (Z.ltb_spec i sz); [lia|]. simpl. exists o1, f1. split; [done|]. left. split; [done|].
      intros v Hv. apply Hc; [|done]. destruct Hv. unfold vpn, aligned, PGSIZE in *. zlia.
    - destruct Hn' as [?|Hn']; [lia|].
      destruct (Z.ltb_spec i sz); [|unfold PGSIZE in *; lia].
      assert (Hnext : forall s2 o2 f2, copying s2 o2 f2 (i + PGSIZE) ->
        returns (uvmcopy_loop fuel old new (u64 (i + PGSIZE)) sz s2) copy_done).
      { intros s2 o2 f2 Hcp2. change TRAPFRAME with (67108862 * 4096) in Hsz.
        rewrite u64_small by (unfold PGSIZE; lia).
        apply (IH fuel s2 o2 f2); try done; unfold aligned, PGSIZE in *; try lia. zlia. }
      assert (TRAPFRAME < MAXVA) by done.
      destruct (copy_old s1 o1 f1 D A) as (Hu1 & Hr1 & _).
      pose proof (ad_inv _ _ _ _ _ _ _ _ A) as Hinv1.
      rewrite (bind_ret _ _ _ _ _ (walk_noalloc s1 old i ltac:(lia))).
      destruct (slot_at_root s1 o1 f1 old i Hinv1 Hr1 ltac:(lia)) as [[Hs Hl]|(p0 & Hp0 & Hs & Hpos & Hl)].
      { rewrite Hs. simpl. apply (Hnext s1 o1 f1), copying_skip; try done. by rewrite Hl. }
      destruct (Z.eqb_spec (slot_at (kmem_mem s1) 2 old i) 0); [lia|].
      rewrite (bind_ret (kload _) _ s1 s1 _ eq_refl), <- Hl.
      destruct (has (lookup_pte (kmem_mem s1) old i) PTE_V) eqn:Hv; cbn [negb].
      + by eapply copy_one.
      + apply (Hnext s1 o1 f1). by apply copying_skip.
Qed.
End Copy.

(** C25: [uvmcopy] of the first [sz] bytes of [old] into a fresh page table [new]
    returns.  Result 0 means that every page below [sz] is mapped in [new]
    exactly when it is mapped in [old], by a frame of its own with the same
    contents and the same flags; result -1 means that no page of [new] is left
    mapped.  Either way [old], all other page tables and all allocated frames
    are unchanged, and frames only moved from the free list to [new]. *)
Theorem uvmcopy_duplicates (s : kmem) (own : gmap Z use) (free : list Z) (old new sz : Z)
  (Hinv : vm_inv s own free) (Hold : user_pt (kmem_mem s) own old)
  (Hnew : user_pt (kmem_mem s) own new) (Hne : old <> new) (Hsz : 0 <= sz <= TRAPFRAME)
  (Hfresh : forall va, 0 <= va < TRAPFRAME -> has (lookup_pte (kmem_mem s) new va) PTE_V = false) :
  let D v := 0 <= v /\ v * PGSIZE < sz in
  returns (uvmcopy old new sz s) (fun res s' => exists own' free',
    adds s own free new D s' own' free' /\
    ((res = 0 /\ forall v, D v -> copied (kmem_mem s') own' old new v) \/
     (res = -1 /\ forall va, 0 <= va < TRAPFRAME -> D (vpn va) ->
        has (lookup_pte (kmem_mem s') new va) PTE_V = false))).
Proof.
  intros D. unfold uvmcopy. set (n := Z.to_nat ((sz + PGSIZE - 1) / PGSIZE)).
  destruct (pages_below sz n ltac:(lia) eq_refl) as (P1 & P2 & P3).
  eapply (copy_loop s own free old new sz Hold Hnew Hne Hsz Hfresh n _ s own free); try done.
  split_and!; [by apply adds_refl|change (vpn 0) with 0; lia|].
  intros v Hv [H0 H1]. apply Hfresh. unfold PGSIZE in *. lia.
Qed.

End Uvm.
