(* ===== verification/Teardown.v ===== *)
(** The end of an address space: [freewalk], [uvmfree] and [proc_freepagetable]
    ([kernel/vm.c], [kernel/proc.c]) give back exactly the pages of the page
    table and its frames, each once.  While [freewalk] is below a table page the
    entries of the pages on its path point to pages that are already free, so
    the pages on the path are taken out of the ownership map before they are
    walked. *)
From S2P Require Import Prelude Riscv Kalloc Vm Uvm.
Open Scope kern_scope.

Section Teardown.
Context `{Layout}.

Definition RWX : Z := Z.lor (Z.lor PTE_R PTE_W) PTE_X.

(** * Table pages have one place *)

Lemma linked_parent s own free p r l pre : vm_inv s own free -> own !! p = Some (Table r l pre) -> l <> 2 ->
  exists q qpre i, own !! q = Some (Table r (l + 1) qpre) /\ 0 <= i < 512 /\ pre = qpre * 512 + i /\
    has (load64 (kmem_mem s) (q + 8 * i)) PTE_V = true /\ PTE2PA (load64 (kmem_mem s) (q + 8 * i)) = p.
Proof. intros Hi Hp Hl. by destruct (inv_linked _ _ _ Hi _ _ _ _ Hp) as [[? _]|?]. Qed.

Lemma linked_root s own free p r pre : vm_inv s own free -> own !! p = Some (Table r 2 pre) -> p = r /\ pre = 0.
Proof.
  intros Hi Hp. destruct (inv_linked _ _ _ Hi _ _ _ _ Hp) as [(_ & -> & ->)|(q & qpre & i & Hq & _)]; [done|].
  pose proof (inv_level _ _ _ Hi _ _ _ _ Hq). lia.
Qed.

Definition uniq (own : gmap Z use) (r : Z) : Prop :=
  forall p q l pre, own !! p = Some (Table r l pre) -> own !! q = Some (Table r l pre) -> p = q.

Lemma digits_eq a b i j : 0 <= i < 512 -> 0 <= j < 512 -> a * 512 + i = b * 512 + j -> a = b /\ i = j.
Proof. lia. Qed.

Lemma inv_uniq s own free r : vm_inv s own free -> uniq own r.
Proof.
  intros Hi. assert (Hup : forall l, (forall p q pre, own !! p = Some (Table r (l + 1) pre) -> own !! q = Some (Table r (l + 1) pre) -> p = q) -> l <> 2 ->
    forall p q pre, own !! p = Some (Table r l pre) -> own !! q = Some (Table r l pre) -> p = q).
  { intros l IH Hl p q pre Hp Hq. destruct (linked_parent _ _ _ _ _ _ _ Hi Hp Hl) as (p' & ppre & i & Hp' & Hix & E1 & _ & <-).
    destruct (linked_parent _ _ _ _ _ _ _ Hi Hq Hl) as (q' & qpre & j & Hq' & Hjx & E2 & _ & <-).
    destruct (digits_eq ppre qpre i j Hix Hjx ltac:(congruence)) as [-> ->]. by rewrite (IH p' q' qpre Hp' Hq'). }
  assert (H2 : forall p q pre, own !! p = Some (Table r 2 pre) -> own !! q = Some (Table r 2 pre) -> p = q).
  { intros p q pre Hp Hq. destruct (linked_root _ _ _ _ _ _ Hi Hp) as [-> _]. by destruct (linked_root _ _ _ _ _ _ Hi Hq) as [-> _]. }
  assert (H1 := Hup 1 H2 ltac:(lia)). assert (H0 := Hup 0 H1 ltac:(lia)).
  intros p q l pre Hp Hq. pose proof (inv_level _ _ _ Hi _ _ _ _ Hp). assert (l = 0 \/ l = 1 \/ l = 2) as [->|[->| ->]] by lia; eauto.
Qed.

Lemma pte_at_S m n q va : pte_at m (S n) q va =
  if has (load64 m (q + 8 * PX (Z.of_nat (S n)) va)) PTE_V then pte_at m n (PTE2PA (load64 m (q + 8 * PX (Z.of_nat (S n)) va))) va else 0.
Proof. reflexivity. Qed.

(** The table page of an address is the one its lookup reads. *)
Lemma linked_lookup s own free r va : vm_inv s own free -> 0 <= va < MAXVA -> forall k n q, (n + k = 2)%nat ->
  own !! q = Some (Table r (Z.of_nat n) (prefix (Z.of_nat n) va)) -> lookup_pte (kmem_mem s) r va = pte_at (kmem_mem s) n q va.
Proof.
  intros Hi Hva. induction k as [|k IH]; intros n q Hn Hq.
  - assert (n = 2%nat) as -> by lia. destruct (linked_root _ _ _ _ _ _ Hi Hq) as [-> _]. done.
  - destruct (linked_parent _ _ _ _ _ _ _ Hi Hq ltac:(lia)) as (q' & qpre & i & Hq' & Hix & E & Hv & Hpa).
    rewrite (prefix_step (Z.of_nat n)) in E by lia. replace (Z.of_nat n + 1) with (Z.of_nat (S n)) in * by lia.
    destruct (digits_eq _ _ _ _ (PX_range (Z.of_nat (S n)) va ltac:(lia)) Hix E) as [Ep Ei]. subst qpre i.
    rewrite (IH (S n) q') by (lia || done). rewrite pte_at_S. by rewrite Hv, Hpa.
Qed.

Lemma leaf_entry s own free r q pre i : vm_inv s own free -> own !! q = Some (Table r 0 pre) -> 0 <= i < 512 ->
  let va := (pre * 512 + i) * PGSIZE in 0 <= va < MAXVA /\ load64 (kmem_mem s) (q + 8 * i) = lookup_pte (kmem_mem s) r va.
Proof.
  intros Hi Hq Hix va. destruct (inv_prefix _ _ _ Hi _ _ _ _ Hq) as (va0 & Hva0 & Epre).
  assert (Hva : 0 <= va < MAXVA).
  { unfold va, PGSIZE. subst pre. unfold prefix. change (2 ^ (21 + 9 * 0)) with 2097152. rewrite MAXVA_eq in *. change (2 ^ 38) with (131072 * 2097152) in *. zlia. }
  assert (Hp : prefix 0 va = pre /\ PX 0 va = i).
  { pose proof (vpn_split va) as Hs. unfold va in Hs at 1. rewrite vpn_mul in Hs. destruct (digits_eq pre (prefix 0 va) i (PX 0 va)); try done. by apply PX_range. }
  destruct Hp as [Hp Hx]. split; [done|]. rewrite <- Hp in Hq. rewrite (linked_lookup s own free r va Hi Hva 2 0 q eq_refl Hq). change (pte_at (kmem_mem s) 0 q va) with (load64 (kmem_mem s) (q + 8 * PX 0 va)). by rewrite Hx.
Qed.

(** * The walk *)

(** What holds of the table pages that are not on the path of the walk. *)
Record tables_inv (s : kmem) (own : gmap Z use) (free : list Z) : Prop := {
  ti_free : freelist_ok s free;
  ti_valid : forall p u, own !! p = Some u -> valid_page p;
  ti_notfree : forall p, p ∈ free -> own !! p = None;
  ti_child : forall p r l pre i, own !! p = Some (Table r l pre) -> 0 < l -> 0 <= i < 512 ->
    let e := load64 (kmem_mem s) (p + 8 * i) in
    has e PTE_V = true -> Z.land e RWX = 0 /\ own !! PTE2PA e = Some (Table r (l - 1) (pre * 512 + i))
}.

(** Ownership without the pages of a list. *)
Definition without (own own' : gmap Z use) (l : list Z) : Prop := forall q, own' !! q = if decide (q ∈ l) then None else own !! q.

Lemma without_nil own : without own own [].
Proof. intros q. case_decide as Hq; [by apply elem_of_nil in Hq|done]. Qed.
Lemma without_app own o1 o2 l1 l2 : without own o1 l1 -> without o1 o2 l2 -> without own o2 (l2 ++ l1).
Proof. intros H1 H2 q. rewrite H2, H1. repeat case_decide; set_solver. Qed.
Lemma without_in own c o1 l : without (delete c own) o1 l -> c ∈ l -> without own o1 l.
Proof. intros H1 Hc q. rewrite H1. case_decide as Hq; [done|]. rewrite lookup_delete_ne; [done|]. by intros ->. Qed.
Lemma without_some own o1 l q u : without own o1 l -> o1 !! q = Some u -> own !! q = Some u /\ q ∉ l.
Proof. intros H1 Hq. rewrite H1 in Hq. case_decide; [done|]. done. Qed.
Lemma uniq_without own o1 l r : without own o1 l -> uniq own r -> uniq o1 r.
Proof. intros H1 Hu p q lv pre Hp Hq. eapply Hu; by eapply without_some. Qed.

(** Writing to a page without a use keeps the invariant. *)
Lemma tables_write s own free p m' : tables_inv s own free -> valid_page p -> own !! p = None -> p ∉ free ->
  (forall q, aligned q -> q <> p -> same_page (kmem_mem s) m' q) -> tables_inv (set_mem m' s) own free.
Proof.
  intros [Hf Hv Hn Hc] Hvp Hno Hnf Hs. split; [|done|done|].
  - destruct Hf as [Hch Hnd]. split; [|done]. cbn. eapply chain_ext; [|exact Hch]. intros q Hq. apply Hs; [|by intros ->].
    apply chain_valid in Hch. rewrite Forall_forall in Hch. by destruct (Hch q Hq).
  - intros q r l pre i Hq Hl Hix. destruct (slot_in_page q i Hix). cbn.
    rewrite <- (same_page_load 8 (kmem_mem s) m' q); [by eapply Hc| |done|done]. apply Hs; [by destruct (Hv q _ Hq)|]. intros ->. congruence.
Qed.

(** Freeing such a page. *)
Lemma tables_kfree s own free p : tables_inv s own free -> valid_page p -> own !! p = None -> p ∉ free ->
  returns (kfree p s) (fun _ s' => tables_inv s' own (p :: free) /\ forall q, aligned q -> q <> p -> same_page (kmem_mem s) (kmem_mem s') q).
Proof.
  intros Hi Hvp Hno Hnf. eapply returns_mono; [apply kfree_ok; [apply Hi|done|done]|]. intros [] s' [Hf Hs]. split; [|done].
  pose proof (tables_write s own free p (kmem_mem s') Hi Hvp Hno Hnf Hs) as [_ Hv Hn Hc]. split; [done|done| |exact Hc].
  intros q Hq. apply elem_of_cons in Hq as [->|Hq]; [done|by apply Hn].
Qed.

(** Taking a page out of the map that no table points to. *)
Lemma tables_cut s own free c r l pre : tables_inv s own free -> own !! c = Some (Table r l pre) ->
  (forall q qpre i, own !! q = Some (Table r (l + 1) qpre) -> 0 <= i < 512 -> pre = qpre * 512 + i -> False) ->
  tables_inv s (delete c own) free.
Proof.
  intros [Hf Hv Hn Hch] Hc Hno. split; [done|..].
  - intros q u Hq. apply lookup_delete_Some in Hq as [_ Hq]. by eapply Hv.
  - intros q Hq. apply lookup_delete_None. right. by apply Hn.
  - intros q r' l' pre' i Hq Hl Hix e He. apply lookup_delete_Some in Hq as [Hne Hq]. destruct (Hch q r' l' pre' i Hq Hl Hix He) as [Hx Hp].
    split; [exact Hx|]. rewrite lookup_delete_ne; [exact Hp|]. intros Ec. unfold e in Ec. rewrite <- Ec, Hc in Hp. injection Hp as <- Hl' Hpre.
    eapply (Hno q pre' i); [|done|done]. by replace (l + 1) with l' by lia.
Qed.

(** The loop of [freewalk] over the entries of page [p]. *)
Definition free_entries (d : nat) (p : Z) : nat -> Z -> M kmem unit :=
  fix entries (n : nat) (i : Z) : M kmem unit :=
    match n with
    | O => ret tt
    | S k =>
        do pte <- kload (p + 8 * i);
        (if has pte PTE_V && (Z.land pte RWX =? 0)
         then freewalk d (PTE2PA pte) ;;; kstore (p + 8 * i) 0
         else ret tt) ;;;
        entries k (i + 1)
    end.
Lemma freewalk_S d p : freewalk (S d) p = (free_entries d p ptes 0 ;;; kfree p).
Proof. reflexivity. Qed.
Lemma free_entries_S d p k i s : free_entries d p (S k) i s =
  ((if has (load64 (kmem_mem s) (p + 8 * i)) PTE_V && (Z.land (load64 (kmem_mem s) (p + 8 * i)) RWX =? 0)
    then freewalk d (PTE2PA (load64 (kmem_mem s) (p + 8 * i))) ;;; kstore (p + 8 * i) 0 else ret tt) ;;; free_entries d p k (i + 1)) s.
Proof. reflexivity. Qed.

(** The entries of a page on the path: the children it still has. *)
Definition node (m : mem) (own : gmap Z use) (r l pre p : Z) : Prop := forall i, 0 <= i < 512 ->
  let e := load64 m (p + 8 * i) in has e PTE_V = true ->
  0 < l /\ Z.land e RWX = 0 /\ own !! PTE2PA e = Some (Table r (l - 1) (pre * 512 + i)).
(** The last-level tables of [r] hold no valid entry any more. *)
Definition leafless (m : mem) (own : gmap Z use) (r : Z) : Prop := forall q pre i, own !! q = Some (Table r 0 pre) -> 0 <= i < 512 ->
  has (load64 m (q + 8 * i)) PTE_V = false.
(** With a table page, [freed] has the tables it points to. *)
Definition closed (m : mem) (own : gmap Z use) (r : Z) (freed : list Z) : Prop := forall f l pre i, f ∈ freed -> own !! f = Some (Table r l pre) ->
  0 < l -> 0 <= i < 512 -> has (load64 m (f + 8 * i)) PTE_V = true -> PTE2PA (load64 m (f + 8 * i)) ∈ freed.

(** [s'] is [s] after the walk of the page [p] at level [l]. *)
Record walked (s : kmem) (own : gmap Z use) (free : list Z) (r l p : Z) (s' : kmem) (own' : gmap Z use) (freed : list Z) : Prop := {
  wk_inv : tables_inv s' own' (freed ++ free);
  wk_own : without own own' freed;
  wk_self : p ∈ freed;
  wk_freed : forall f, f ∈ freed -> f = p \/ exists l' pre', l' < l /\ own !! f = Some (Table r l' pre');
  wk_closed : closed (kmem_mem s) own r freed;
  wk_below : forall i, 0 <= i < 512 -> has (load64 (kmem_mem s) (p + 8 * i)) PTE_V = true -> PTE2PA (load64 (kmem_mem s) (p + 8 * i)) ∈ freed;
  wk_keep : forall q, aligned q -> q ∉ freed -> same_page (kmem_mem s) (kmem_mem s') q
}.

Section Entries.
Variables (s : kmem) (own : gmap Z use) (free : list Z) (r pre p : Z) (l : nat).
Hypothesis Hinv : tables_inv s own free.
Hypothesis Hvalid : valid_page p.
Hypothesis Hown : own !! p = None.
Hypothesis Hfree : p ∉ free.
Hypothesis Hnode : node (kmem_mem s) own r (Z.of_nat l) pre p.

(** The walk before entry [i]. *)
Record walking (i : Z) (s1 : kmem) (own1 : gmap Z use) (freed : list Z) : Prop := {
  wg_inv : tables_inv s1 own1 (freed ++ free);
  wg_own : without own own1 freed;
  wg_self : p ∉ freed;
  wg_freed : forall f, f ∈ freed -> exists l' pre', own !! f = Some (Table r l' pre') /\
    (l' < Z.of_nat l - 1 \/ l' = Z.of_nat l - 1 /\ exists j, 0 <= j < i /\ pre' = pre * 512 + j);
  wg_closed : closed (kmem_mem s) own r freed;
  wg_below : forall j, 0 <= j < i -> has (load64 (kmem_mem s) (p + 8 * j)) PTE_V = true -> PTE2PA (load64 (kmem_mem s) (p + 8 * j)) ∈ freed;
  wg_rest : forall j, i <= j < 512 -> load64 (kmem_mem s1) (p + 8 * j) = load64 (kmem_mem s) (p + 8 * j);
  wg_keep : forall q, aligned q -> q ∉ freed -> q <> p -> same_page (kmem_mem s) (kmem_mem s1) q
}.

Lemma walking_start : walking 0 s own [].
Proof.
  split; [done|apply without_nil|by intros ?%elem_of_nil|by intros f ?%elem_of_nil|by intros f ? ? ? ?%elem_of_nil|lia|done|].
  intros q _ _ _. apply same_page_refl.
Qed.

(** An entry that is not valid is passed over. *)
Lemma walking_skip i s1 own1 freed : walking i s1 own1 freed -> 0 <= i < 512 -> has (load64 (kmem_mem s) (p + 8 * i)) PTE_V = false ->
  walking (i + 1) s1 own1 freed.
Proof.
  intros [A1 A2 A3 A4 A5 A6 A7 A8] Hi Hv. split; try done.
  - intros f Hf. destruct (A4 f Hf) as (l' & pre' & Hf' & [?|[? (j & Hj & ?)]]); exists l', pre'; split; [done|auto|done|].
    right. split; [done|]. exists j. split; [lia|done].
  - intros j Hj. destruct (decide (j = i)) as [->|]; [congruence|]. apply A6. lia.
  - intros j Hj. apply A7. lia.
Qed.

(** The child of a valid entry is still there. *)
Lemma walking_child i s1 own1 freed : walking i s1 own1 freed -> 0 <= i < 512 -> has (load64 (kmem_mem s) (p + 8 * i)) PTE_V = true ->
  own1 !! PTE2PA (load64 (kmem_mem s) (p + 8 * i)) = Some (Table r (Z.of_nat l - 1) (pre * 512 + i)).
Proof.
  intros W Hi Hv. destruct (Hnode i Hi Hv) as (Hl & _ & Hc). rewrite (wg_own _ _ _ _ W). case_decide as Hd; [|exact Hc].
  destruct (wg_freed _ _ _ _ W _ Hd) as (l' & pre' & Hf & Hcase). rewrite Hc in Hf. injection Hf as <- <-. destruct Hcase as [?|[_ (j & ? & ?)]]; lia.
Qed.

(** The child's pages join the freed ones when its entry is cleared. *)
Lemma walking_step i s1 own1 freed s2 own2 freed2 : walking i s1 own1 freed -> 0 <= i < 512 ->
  let e := load64 (kmem_mem s) (p + 8 * i) in let c := PTE2PA e in has e PTE_V = true ->
  walked s1 (delete c own1) (freed ++ free) r (Z.of_nat l - 1) c s2 own2 freed2 ->
  walking (i + 1) (set_mem (store64 (kmem_mem s2) (p + 8 * i) 0) s2) own2 (freed2 ++ freed).
Proof.
  intros W Hi e c Hv [B1 B2 B3 B4 B5 B6 B7]. pose proof W as [A1 A2 A3 A4 A5 A6 A7 A8]. pose proof (walking_child i s1 own1 freed W Hi Hv) as Hc. fold e c in Hc.
  destruct (Hnode i Hi Hv) as (Hl & _ & _). destruct (slot_in_page p i Hi) as [Hs1 Hs2].
  assert (Hp1 : own1 !! p = None) by (rewrite A2; by case_decide). assert (Hcp : c <> p) by congruence.
  assert (Hpf : p ∉ freed2).
  { intros Hp. destruct (B4 p Hp) as [?|(l' & pre' & _ & Hf)]; [congruence|]. rewrite lookup_delete_ne in Hf by congruence. congruence. }
  assert (Hw : without own own2 (freed2 ++ freed)).
  { eapply without_app; [exact A2|by eapply without_in]. }
  assert (Hsub : forall f u, f ∈ freed2 -> own !! f = Some u -> own1 !! f = Some u /\ f <> p).
  { intros f u Hf Hu. split; [|congruence]. destruct (B4 f Hf) as [->|(l' & pre' & _ & Hf')].
    - rewrite Hc. rewrite A2 in Hc. case_decide; [done|congruence].
    - apply lookup_delete_Some in Hf' as [_ Hf']. rewrite Hf'. rewrite A2 in Hf'. case_decide; [done|congruence]. }
  split.
  - rewrite <- app_assoc. apply tables_write with (p := p); [done|done|rewrite B2; by rewrite decide_False, lookup_delete_ne|set_solver|].
    intros q Hq Hne. apply same_page_store with (p := p); try done; [by apply valid_page_aligned|lia..].
  - exact Hw.
  - set_solver.
  - intros f Hf. apply elem_of_app in Hf as [Hf|Hf].
    + destruct (B4 f Hf) as [->|(l' & pre' & Hl' & Hf')].
      * destruct (without_some _ _ _ _ _ A2 Hc) as [Hc' _]. exists (Z.of_nat l - 1), (pre * 512 + i). split; [exact Hc'|]. right. split; [done|]. exists i. split; [lia|done].
      * apply lookup_delete_Some in Hf' as [_ Hf']. destruct (without_some _ _ _ _ _ A2 Hf') as [Hf'' _]. exists l', pre'. split; [exact Hf''|]. by left.
    + destruct (A4 f Hf) as (l' & pre' & Hf' & [?|[? (j & Hj & ?)]]); exists l', pre'; split; [done|by left|done|].
      right. split; [done|]. exists j. split; [lia|done].
  - intros f l' pre' j Hf Hu Hl' Hj. apply elem_of_app in Hf as [Hf|Hf]; [|intros He; apply elem_of_app; right; by eapply A5].
    destruct (Hsub f _ Hf Hu) as [Hu1 Hfp]. destruct (slot_in_page f j Hj). assert (Hnf : f ∉ freed) by (by eapply without_some).
    rewrite (same_page_load 8 (kmem_mem s) (kmem_mem s1) f); [|apply A8; [|done|done]; apply valid_page_aligned; by eapply ti_valid|done|done].
    intros He. apply elem_of_app. left. destruct (decide (f = c)) as [->|Hfc]; [by apply B6|].
    eapply (B5 f l' pre' j); [done|by rewrite lookup_delete_ne|done|done|done].
  - intros j Hj Hvj. apply elem_of_app. destruct (decide (j = i)) as [->|]; [by left|right]. apply A6; [lia|done].
  - intros j Hj. cbn. rewrite load_store_ne by lia. destruct (slot_in_page p j ltac:(lia)).
    rewrite <- (same_page_load 8 (kmem_mem s1) (kmem_mem s2) p); [apply A7; lia|apply B7; [by apply valid_page_aligned|done]|done|done].
  - intros q Hq Hnq Hqp. eapply same_page_trans; [apply A8; [done|set_solver|done]|]. eapply same_page_trans; [apply B7; [done|set_solver]|].
    apply same_page_store with (p := p); try done; [by apply valid_page_aligned|lia..].
Qed.
End Entries.

(** What the walk of a child needs, in the middle of the walk of its parent. *)
Lemma child_ready s own free r pre p l i s1 own1 freed : tables_inv s own free -> own !! p = None -> uniq own r ->
  (forall q, own !! q <> Some (Table r (Z.of_nat (S l)) pre)) -> node (kmem_mem s) own r (Z.of_nat (S l)) pre p -> leafless (kmem_mem s) own r ->
  walking s own free r pre p (S l) i s1 own1 freed -> 0 <= i < 512 ->
  let c := PTE2PA (load64 (kmem_mem s) (p + 8 * i)) in has (load64 (kmem_mem s) (p + 8 * i)) PTE_V = true ->
  tables_inv s1 (delete c own1) (freed ++ free) /\ uniq (delete c own1) r /\ valid_page c /\ (c ∉ freed ++ free) /\
  (forall q, (delete c own1) !! q <> Some (Table r (Z.of_nat l) (pre * 512 + i))) /\
  node (kmem_mem s1) (delete c own1) r (Z.of_nat l) (pre * 512 + i) c /\ leafless (kmem_mem s1) (delete c own1) r.
Proof.
  intros Hinv Hno Huq Hpar Hnode Hleaf W Hi c Hv. pose proof (walking_child s own free r pre p (S l) Hnode i s1 own1 freed W Hi Hv) as Hc. fold c in Hc.
  replace (Z.of_nat (S l) - 1) with (Z.of_nat l) in Hc by lia. pose proof W as [A1 A2 A3 A4 A5 A6 A7 A8]. pose proof (uniq_without _ _ _ _ A2 Huq) as Huq1.
  assert (Hleaf1 : leafless (kmem_mem s1) own1 r).
  { intros q qpre j Hq Hj. destruct (without_some _ _ _ _ _ A2 Hq) as [Hq' Hqf]. destruct (slot_in_page q j Hj).
    rewrite <- (same_page_load 8 (kmem_mem s) (kmem_mem s1) q); [by eapply Hleaf| |done|done].
    apply A8; [apply valid_page_aligned; by eapply (ti_valid _ _ _ Hinv)|done|congruence]. }
  split; [|split; [|split; [|split; [|split; [|split]]]]].
  - apply (tables_cut _ _ _ _ _ _ _ A1 Hc). intros q qpre j Hq Hj E. destruct (digits_eq _ _ _ _ Hi Hj E) as [<- _].
    apply (Hpar q). replace (Z.of_nat (S l)) with (Z.of_nat l + 1) by lia. by eapply without_some.
  - intros q q' lv qpre Hq Hq'. apply lookup_delete_Some in Hq as [_ Hq], Hq' as [_ Hq']. by eapply Huq1.
  - by eapply (ti_valid _ _ _ A1).
  - intros Hf. by rewrite (ti_notfree _ _ _ A1 c Hf) in Hc.
  - intros q Hq. apply lookup_delete_Some in Hq as [Hne Hq]. apply Hne. by eapply Huq1.
  - intros j Hj e He. destruct (decide (l = O)) as [->|Hl]; [unfold e in He; by rewrite (Hleaf1 c _ j Hc Hj) in He|].
    destruct (ti_child _ _ _ A1 c r _ _ j Hc ltac:(lia) Hj He) as [Hx Hch]. fold e in Hx, Hch. split; [lia|]. split; [done|].
    rewrite lookup_delete_ne; [done|]. intros Ec. rewrite <- Ec, Hc in Hch. injection Hch. lia.
  - intros q qpre j Hq. apply lookup_delete_Some in Hq as [_ Hq]. by eapply Hleaf1.
Qed.

(** [freewalk] frees the page, the tables below it, and nothing else. *)
Lemma freewalk_ok l : forall d s own free r pre p, (l < d)%nat -> tables_inv s own free -> uniq own r -> valid_page p -> own !! p = None -> p ∉ free ->
  (forall q, own !! q <> Some (Table r (Z.of_nat l) pre)) -> node (kmem_mem s) own r (Z.of_nat l) pre p -> leafless (kmem_mem s) own r ->
  returns (freewalk d p s) (fun _ s' => exists own' freed, walked s own free r (Z.of_nat l) p s' own' freed).
Proof.
  induction l as [l IHl] using lt_wf_ind. intros d s own free r pre p Hd Hinv Huq Hvp Hno Hnf Hpar Hnode Hleaf.
  destruct d as [|d]; [lia|]. rewrite freewalk_S.
  assert (Hloop : forall n i s1 own1 freed, walking s own free r pre p l i s1 own1 freed -> 0 <= i -> i + Z.of_nat n = 512 ->
    returns (free_entries d p n i s1) (fun _ s' => exists own' freed', walking s own free r pre p l 512 s' own' freed')).
  { induction n as [|n IHn]; intros i s1 own1 freed W Hi Hn; [cbn; exists own1, freed; by replace 512 with i by lia|].
    rewrite free_entries_S, (wg_rest _ _ _ _ _ _ _ _ _ _ _ W i) by lia. destruct (has (load64 (kmem_mem s) (p + 8 * i)) PTE_V) eqn:Hv; cbn [andb].
    - destruct (Hnode i ltac:(lia) Hv) as (Hl & Hx & _). rewrite Hx. cbn [Z.eqb]. destruct l as [|l]; [lia|].
      destruct (child_ready s own free r pre p l i s1 own1 freed Hinv Hno Huq Hpar Hnode Hleaf W ltac:(lia) Hv) as (C1 & C2 & C3 & C4 & C5 & C6 & C7).
      eapply bind_returns with (P := fun _ s3 => exists own3 freed3, walking s own free r pre p (S l) (i + 1) s3 own3 freed3);
        [|intros [] s3 (own3 & freed3 & W3); eapply IHn; [exact W3|lia|lia]]. eapply bind_returns.
      + eapply (IHl l); [lia|lia|exact C1|exact C2|exact C3|apply lookup_delete_eq|exact C4|exact C5|exact C6|exact C7].
      + intros [] s2 (own2 & freed2 & Hw).
        pose proof (walking_step s own free r pre p (S l) Hinv Hvp Hno Hnf Hnode i s1 own1 freed s2 own2 freed2 W ltac:(lia) Hv) as Hst.
        exists own2, (freed2 ++ freed). apply Hst. by replace (Z.of_nat (S l) - 1) with (Z.of_nat l) by lia.
    - eapply (IHn (i + 1)); [|lia|lia]. by apply walking_skip; [|lia|]. }
  eapply bind_returns; [apply (Hloop ptes 0 s own []); [by apply walking_start|lia|done]|]. intros [] s1 (own1 & freed & W).
  destruct W as [A1 A2 A3 A4 A5 A6 A7 A8]. assert (Hno1 : own1 !! p = None) by (rewrite A2; by case_decide).
  eapply returns_mono; [apply (tables_kfree s1 own1 (freed ++ free) p A1 Hvp Hno1 ltac:(set_solver))|].
  intros [] s2 [Hi2 Hs2]. exists own1, (p :: freed). split.
  - exact Hi2.
  - intros q. rewrite A2. destruct (decide (q = p)) as [->|Hne]; [rewrite decide_False, decide_True by set_solver; done|].
    by destruct (decide (q ∈ freed)); [rewrite decide_True by set_solver|rewrite decide_False by set_solver].
  - set_solver.
  - intros f Hf. apply elem_of_cons in Hf as [->|Hf]; [by left|right]. destruct (A4 f Hf) as (l' & pre' & Hf' & Hl'). exists l', pre'. split; [lia|done].
  - intros f l' pre' i Hf Hu Hl' Hi He. apply elem_of_cons in Hf as [->|Hf]; [congruence|]. apply elem_of_cons. right. by eapply A5.
  - intros i Hi He. apply elem_of_cons. right. by apply A6.
  - intros q Hq Hnq. eapply same_page_trans; [apply A8; [done|set_solver|set_solver]|apply Hs2; [done|set_solver]].
Qed.

(** * Releasing a page table *)

(** [s'] is [s] without the page table [r]: its tables and frames, and nothing
    else, are on the free list. *)
Record released (s : kmem) (own : gmap Z use) (free : list Z) (r : Z) (s' : kmem) (own' : gmap Z use) (freed : list Z) : Prop := {
  rl_inv : vm_inv s' own' (freed ++ free);
  rl_own : without own own' freed;
  rl_freed : forall f, f ∈ freed <-> (exists l pre, own !! f = Some (Table r l pre)) \/ exists v, own !! f = Some (Frame r v);
  rl_lookup : forall r' va, is_root own r' -> r' <> r -> 0 <= va < MAXVA -> lookup_pte (kmem_mem s') r' va = lookup_pte (kmem_mem s) r' va;
  rl_keep : forall q, aligned q -> q ∉ freed -> (forall r' l pre, own !! q <> Some (Table r' l pre)) -> same_page (kmem_mem s) (kmem_mem s') q
}.

(** A translation reads only the tables of its own page table. *)
Lemma pte_at_root s own free m' r va : vm_inv s own free -> forall level p,
  own !! p = Some (Table r (Z.of_nat level) (prefix (Z.of_nat level) va)) ->
  (forall q l pre, own !! q = Some (Table r l pre) -> same_page (kmem_mem s) m' q) -> pte_at m' level p va = pte_at (kmem_mem s) level p va.
Proof.
  intros Hi level p Hp Hs. revert p Hp. induction level as [|l IH]; intros p Hp.
  - destruct (slot_in_page p (PX 0 va) ltac:(apply PX_range; lia)). symmetry. apply (same_page_load 8 _ _ p); [by eapply Hs|done|done].
  - destruct (slot_in_page p (PX (Z.of_nat (S l)) va) ltac:(apply PX_range; lia)). rewrite !pte_at_S.
    rewrite <- (same_page_load 8 (kmem_mem s) m' p) by (done || by eapply Hs).
    destruct (has _ PTE_V) eqn:He; [|done]. apply IH. by eapply step_down.
Qed.

Section Root.
Variables (s : kmem) (own : gmap Z use) (free : list Z) (r : Z).
Hypothesis Hinv : vm_inv s own free.
Hypothesis Hroot : is_root own r.

Lemma root_cut : tables_inv s (delete r own) free.
Proof.
  assert (Ht : tables_inv s own free).
  { split; [apply Hinv|apply Hinv|apply Hinv|]. intros p r' l pre i Hp Hl Hi e He. split; [by apply (inv_pointer _ _ _ Hinv p r' l pre)|by apply (inv_child _ _ _ Hinv)]. }
  apply (tables_cut _ _ _ _ _ _ _ Ht Hroot). intros q qpre i Hq _ _. pose proof (inv_level _ _ _ Hinv _ _ _ _ Hq). lia.
Qed.

Lemma root_node : node (kmem_mem s) (delete r own) r 2 0 r.
Proof.
  intros i Hi e He. pose proof (inv_child _ _ _ Hinv r r 2 0 i Hroot ltac:(lia) Hi He) as Hc. fold e in Hc. split; [lia|].
  split; [by apply (inv_pointer _ _ _ Hinv r r 2 0 i Hroot ltac:(lia) Hi He)|]. rewrite lookup_delete_ne; [exact Hc|]. intros Er. rewrite <- Er in Hc. unfold is_root in Hroot. rewrite Hroot in Hc. injection Hc. lia.
Qed.

(** Every table of [r] is reached from the root. *)
Lemma tables_freed s' own' freed : walked s (delete r own) free r 2 r s' own' freed -> forall q l pre, own !! q = Some (Table r l pre) -> q ∈ freed.
Proof.
  intros W. assert (H2 : forall q pre, own !! q = Some (Table r 2 pre) -> q ∈ freed).
  { intros q pre Hq. destruct (linked_root _ _ _ _ _ _ Hinv Hq) as [-> _]. apply W. }
  assert (H1 : forall q pre, own !! q = Some (Table r 1 pre) -> q ∈ freed).
  { intros q pre Hq. destruct (linked_parent _ _ _ _ _ _ _ Hinv Hq ltac:(lia)) as (q' & qpre & i & Hq' & Hi & _ & Hv & <-).
    destruct (linked_root _ _ _ _ _ _ Hinv Hq') as [-> _]. by apply W. }
  intros q l pre Hq. pose proof (inv_level _ _ _ Hinv _ _ _ _ Hq). assert (l = 0 \/ l = 1 \/ l = 2) as [->|[->| ->]] by lia; [|by eapply H1|by eapply H2].
  destruct (linked_parent _ _ _ _ _ _ _ Hinv Hq ltac:(lia)) as (q' & qpre & i & Hq' & Hi & _ & Hv & <-).
  eapply (wk_closed _ _ _ _ _ _ _ _ _ W q' 1 qpre i); [by eapply H1| |lia|done|done].
  rewrite lookup_delete_ne; [exact Hq'|]. intros Er. rewrite <- Er in Hq'. unfold is_root in Hroot. rewrite Hroot in Hq'. injection Hq'. lia.
Qed.

Lemma walked_released s' own' freed : walked s (delete r own) free r 2 r s' own' freed -> (forall f v, own !! f <> Some (Frame r v)) ->
  released s own free r s' own' freed.
Proof.
  intros W Hnf. pose proof (tables_freed s' own' freed W) as Hall. pose proof (without_in _ _ _ _ (wk_own _ _ _ _ _ _ _ _ _ W) (wk_self _ _ _ _ _ _ _ _ _ W)) as Hw.
  assert (Hfr : forall f, f ∈ freed -> exists l pre, own !! f = Some (Table r l pre)).
  { intros f Hf. destruct (wk_freed _ _ _ _ _ _ _ _ _ W f Hf) as [->|(l & pre & _ & Hf')]; [eauto|]. apply lookup_delete_Some in Hf' as [_ Hf']. eauto. }
  assert (Hsame : forall q r' l pre i, own' !! q = Some (Table r' l pre) -> 0 <= i < 512 -> load64 (kmem_mem s') (q + 8 * i) = load64 (kmem_mem s) (q + 8 * i)).
  { intros q r' l pre i Hq Hi. destruct (without_some _ _ _ _ _ Hw Hq) as [Hq' Hqf]. destruct (slot_in_page q i Hi). symmetry.
    apply (same_page_load 8 _ _ q); [apply W; [by eapply inv_aligned|done]|done|done]. }
  pose proof (wk_inv _ _ _ _ _ _ _ _ _ W) as [T1 T2 T3 T4]. split.
  - split; [done|done| |done| | | |].
    + intros p r' l pre Hp. apply (without_some _ _ _ _ _ Hw) in Hp as [Hp _]. by eapply Hinv.
    + intros p r' l pre i Hp Hl Hi e He. by apply (T4 p r' l pre i).
    + intros p r' l pre i Hp Hl Hi e He. by apply (T4 p r' l pre i).
    + intros p r' l pre Hp. apply (without_some _ _ _ _ _ Hw) in Hp as [Hp _]. by eapply Hinv.
    + intros p r' l pre Hp. destruct (without_some _ _ _ _ _ Hw Hp) as [Hp' Hpf].
      destruct (inv_linked _ _ _ Hinv _ _ _ _ Hp') as [?|(q & qpre & i & Hq & Hi & Ep & Hv & Hpa)]; [by left|right].
      assert (Hq' : own' !! q = Some (Table r' (l + 1) qpre)).
      { rewrite Hw. case_decide as Hqf; [|exact Hq]. destruct (Hfr q Hqf) as (l2 & pre2 & Hq2). rewrite Hq in Hq2. injection Hq2 as -> _ _. destruct Hpf. by eapply Hall. }
      exists q, qpre, i. rewrite (Hsame q r' (l + 1) qpre) by done. done.
  - exact Hw.
  - intros f. split; [intros Hf; left; by apply Hfr|]. intros [(l & pre & Hf)|[v Hf]]; [by eapply Hall|by apply Hnf in Hf].
  - intros r' va Hr' Hne Hva. eapply (pte_at_root s own free); [done|by apply root_table|]. intros q l pre Hq. apply W; [by eapply inv_aligned|].
    intros Hqf. destruct (Hfr q Hqf) as (l2 & pre2 & Hq2). congruence.
  - intros q Hq Hqf _. by apply W.
Qed.
End Root.

(** ** The pages above the user's *)

Lemma user_pt_upper s own free (D : Z -> Z -> Prop) s' own' free' used r :
  updates s own free D s' own' free' used -> (forall v, D r v -> vpn TRAPFRAME <= v) -> user_pt (kmem_mem s) own r -> user_pt (kmem_mem s') own' r.
Proof.
  intros U HD [Hr Hm Hf]. assert (TRAPFRAME < MAXVA) by done.
  assert (Hlk : forall va, 0 <= va < TRAPFRAME -> lookup_pte (kmem_mem s') r va = lookup_pte (kmem_mem s) r va).
  { intros va Hva. apply (upd_lookup _ _ _ _ _ _ _ _ U); [done|lia|]. intros HD'. pose proof (HD _ HD'). pose proof (vpn_user va Hva). lia. }
  split.
  - eapply is_root_mono; [apply U|done].
  - intros va Hva. rewrite Hlk by done. intros He. eapply lookup_weaken; [by apply Hm|apply U].
  - intros f v Hp. apply (updates_frame _ _ _ _ _ _ _ _ _ _ _ U) in Hp. apply Hf in Hp as (Hv & He & Hpa). rewrite Hlk by (by apply frame_va). done.
Qed.

(** Removing one entry without freeing a frame. *)
Lemma unmap_entry s own free r a : vm_inv s own free -> is_root own r -> aligned a -> 0 <= a < MAXVA ->
  returns (uvmunmap r a 1 false s) (fun _ s' => updates s own free (fun r' v => r' = r /\ v = vpn a) s' own free [] /\
    has (lookup_pte (kmem_mem s') r a) PTE_V = false).
Proof.
  intros Hi Hr Hal Ha. unfold uvmunmap. unfold aligned in Hal. rewrite Hal. cbn [negb Z.eqb]. rewrite MAXVA_eq in Ha.
  replace (u64 (a + u64 (1 * PGSIZE))) with (a + PGSIZE) by (rewrite !u64_small; unfold PGSIZE; rewrite ?u64_small; lia).
  change (Z.to_nat 1 + 1)%nat with 2%nat. cbn [uvmunmap_loop]. destruct (Z.ltb_spec a (a + PGSIZE)); [|unfold PGSIZE in *; lia].
  rewrite (u64_small (a + PGSIZE)) by (unfold PGSIZE; lia). destruct (Z.ltb_spec (a + PGSIZE) (a + PGSIZE)); [lia|].
  eapply bind_returns with (P := fun _ s' => updates s own free (fun r' v => r' = r /\ v = vpn a) s' own free [] /\ has (lookup_pte (kmem_mem s') r a) PTE_V = false);
    [|by intros [] s' Hs'].
  unfold uvmunmap_page. unfold bind at 1. rewrite walk_noalloc by (rewrite MAXVA_eq; lia).
  destruct (slot_at_root s own free r a Hi Hr ltac:(rewrite MAXVA_eq; lia)) as [[Hs Hl]|(p0 & Hp0 & Hs & Hpos & Hl)].
  { rewrite Hs. cbn. split; [by apply updates_refl|by rewrite Hl]. }
  destruct (Z.eqb_spec (slot_at (kmem_mem s) 2 r a) 0); [lia|]. unfold bind at 1, kload, gets. rewrite <- Hl.
  destruct (has (lookup_pte (kmem_mem s) r a) PTE_V) eqn:Hv; cbn [negb]; [|split; [by apply updates_refl|done]].
  cbn. rewrite Hs. change (set_mem _ s) with (leaf_written s p0 (PX 0 a) 0). split; [by apply leaf_updates|].
  exact (f_equal (fun e => has e PTE_V) (leaf_lookup_eq s own free r a p0 0 Hi Hr ltac:(rewrite MAXVA_eq; lia) Hs Hp0 ltac:(done))).
Qed.

(** ** The whole page table *)

Lemma freewalk_root s own free r : vm_inv s own free -> is_root own r -> (forall f v, own !! f <> Some (Frame r v)) ->
  (forall va, 0 <= va < MAXVA -> has (lookup_pte (kmem_mem s) r va) PTE_V = false) ->
  returns (freewalk 4 r s) (fun _ s' => exists own' freed, released s own free r s' own' freed).
Proof.
  intros Hi Hr Hnf Hnv. eapply returns_mono; [apply (freewalk_ok 2 4 s (delete r own) free r 0 r)|].
  - lia.
  - by apply root_cut.
  - intros p q l pre Hp Hq. apply lookup_delete_Some in Hp as [_ Hp], Hq as [_ Hq]. by eapply (inv_uniq _ _ _ _ Hi).
  - by eapply inv_valid.
  - apply lookup_delete_eq.
  - intros Hf. unfold is_root in Hr. by rewrite (inv_notfree _ _ _ Hi r Hf) in Hr.
  - intros q Hq. apply lookup_delete_Some in Hq as [Hne Hq]. apply Hne. by destruct (linked_root _ _ _ _ _ _ Hi Hq) as [-> _].
  - by apply (root_node s own free r Hi).
  - intros q pre i Hq Hix. apply lookup_delete_Some in Hq as [_ Hq]. destruct (leaf_entry s own free r q pre i Hi Hq Hix) as [Hva ->]. by apply Hnv.
  - intros [] s' (own' & freed & W). exists own', freed. by apply walked_released.
Qed.

(** Frames and tables together. *)
Lemma released_unmaps s own free r (D : Z -> Prop) s1 o1 f1 x1 s2 o2 x2 : (forall f v, own !! f = Some (Frame r v) -> D v) ->
  unmaps s own free r D s1 o1 f1 x1 -> released s1 o1 f1 r s2 o2 x2 -> released s own free r s2 o2 (x2 ++ x1).
Proof.
  intros HD U R. assert (Hw : without own o1 x1) by exact (um_own _ _ _ _ _ _ _ _ _ U). split.
  - rewrite <- app_assoc. rewrite <- (um_free _ _ _ _ _ _ _ _ _ U). apply R.
  - eapply without_app; [exact Hw|apply R].
  - intros f. rewrite elem_of_app, (rl_freed _ _ _ _ _ _ _ R), (um_freed _ _ _ _ _ _ _ _ _ U). split.
    + intros [[(l & pre & Hf)|[v Hf]]|(v & _ & Hf)]; [left|right|right]; [|destruct (without_some _ _ _ _ _ Hw Hf); eauto|eauto].
      destruct (without_some _ _ _ _ _ Hw Hf). eauto.
    + intros [(l & pre & Hf)|[v Hf]]; [left; left|right; eauto]. exists l, pre. rewrite Hw. case_decide as Hx; [|exact Hf].
      apply (um_freed _ _ _ _ _ _ _ _ _ U) in Hx as (v & _ & Hx). congruence.
  - intros r' va Hr' Hne Hva. rewrite (rl_lookup _ _ _ _ _ _ _ R) by (done || by eapply unmaps_root). apply (um_lookup _ _ _ _ _ _ _ _ _ U); [done|done|tauto].
  - intros q Hq Hnq Ht. eapply same_page_trans; [apply (um_keep _ _ _ _ _ _ _ _ _ U); [done|set_solver|done]|].
    apply (rl_keep _ _ _ _ _ _ _ R); [done|set_solver|]. intros r' l pre Hq'. by apply (without_some _ _ _ _ _ Hw) in Hq' as [? _]; eapply Ht.
Qed.

Lemma released_updates s own free (D : Z -> Z -> Prop) s1 r s2 o2 x : updates s own free D s1 own free [] -> (forall r' v, D r' v -> r' = r) ->
  released s1 own free r s2 o2 x -> released s own free r s2 o2 x.
Proof.
  intros U HD [R1 R2 R3 R4 R5]. split; [done|done|done|..].
  - intros r' va Hr' Hne Hva. rewrite R4 by done. apply (upd_lookup _ _ _ _ _ _ _ _ U); [done|done|]. intros Hd. by apply HD in Hd.
  - intros q Hq Hnq Ht. eapply same_page_trans; [apply (upd_keep _ _ _ _ _ _ _ _ U); [done|set_solver|done]|by apply R5].
Qed.

Lemma uvmfree_ok s own free r sz : vm_inv s own free -> user_pt (kmem_mem s) own r -> 0 <= sz <= TRAPFRAME ->
  (forall va, 0 <= va < MAXVA -> has (lookup_pte (kmem_mem s) r va) PTE_V = true -> va < PGROUNDUP sz) ->
  returns (uvmfree r sz s) (fun _ s' => exists own' freed, released s own free r s' own' freed).
Proof.
  intros Hi Hu Hsz Hall. assert (TRAPFRAME < MAXVA) by done. unfold uvmfree.
  destruct (roundup_user sz Hsz) as (Hal & Hle & Hge). set (n := PGROUNDUP sz / PGSIZE). set (D := fun v : Z => 0 <= v < n).
  assert (Hn : n * PGSIZE = PGROUNDUP sz) by (unfold n; unfold aligned, PGSIZE in *; zlia).
  assert (HD : forall va, 0 <= va -> va < PGROUNDUP sz -> D (vpn va)).
  { intros va Hva0 Hva1. unfold D, vpn. rewrite <- Hn in Hva1. unfold PGSIZE in *. split; [zlia|]. apply Z.div_lt_upper_bound; lia. }
  eapply bind_returns with (P := fun _ s1 => exists o1 f1 x1, unmaps s own free r D s1 o1 f1 x1).
  - destruct (Z.ltb_spec 0 sz) as [Hpos|Hz].
    + eapply returns_mono; [apply (uvmunmap_free s own free r 0 n Hi Hu); [done|lia|unfold n; apply Z.div_pos; unfold PGSIZE; lia|lia]|].
      intros [] s1 (o1 & f1 & x1 & U). exists o1, f1, x1. eapply unmaps_iff; [|exact U]. intros v. unfold D. change (vpn 0) with 0. lia.
    + assert (sz = 0) as -> by lia. exists own, free, []. apply unmaps_empty; [done|done|]. intros v. unfold D. change n with 0. lia.
  - intros [] s1 (o1 & f1 & x1 & U). eapply returns_mono; [apply (freewalk_root s1 o1 f1 r)|].
    + apply U.
    + apply (um_upt _ _ _ _ _ _ _ _ _ U).
    + intros f v Hf. destruct (without_some _ _ _ _ _ (um_own _ _ _ _ _ _ _ _ _ U) Hf) as [Hf' Hnx]. apply Hnx, (um_freed _ _ _ _ _ _ _ _ _ U). exists v. split; [|done].
      destruct (upt_frame _ _ _ Hu f v Hf') as (Hv & He & _). pose proof (frame_va v Hv). rewrite <- (vpn_mul v). apply HD; [lia|]. apply Hall; [lia|done].
    + intros va Hva. destruct (decide (va < PGROUNDUP sz)) as [Hlt|Hlt]; [apply (um_gone _ _ _ _ _ _ _ _ _ U); [lia|apply HD; lia]|].
      rewrite (um_lookup _ _ _ _ _ _ _ _ _ U); [|apply Hu|done|].
      * destruct (has (lookup_pte (kmem_mem s) r va) PTE_V) eqn:He; [|done]. by apply Hall in He.
      * intros [_ Hd]. apply Hlt. unfold D, vpn in Hd. rewrite <- Hn. unfold PGSIZE in *. zlia.
    + intros [] s2 (o2 & x2 & R). exists o2, (x2 ++ x1). eapply released_unmaps; [|exact U|exact R]. intros f v Hf.
      destruct (upt_frame _ _ _ Hu f v Hf) as (Hv & He & _). pose proof (frame_va v Hv). rewrite <- (vpn_mul v). apply HD; [lia|]. apply Hall; [lia|done].
Qed.

(** [proc_freepagetable] of an address space of size [sz]. *)
Lemma proc_freepagetable_ok s own free r sz : vm_inv s own free -> user_pt (kmem_mem s) own r -> 0 <= sz <= TRAPFRAME ->
  (forall va, 0 <= va < TRAPFRAME -> has (lookup_pte (kmem_mem s) r va) PTE_V = true -> va < PGROUNDUP sz) ->
  returns (proc_freepagetable r sz s) (fun _ s' => exists own' freed, released s own free r s' own' freed).
Proof.
  intros Hi Hu Hsz Hall. assert (TRAPFRAME < TRAMPOLINE < MAXVA) by done. unfold proc_freepagetable.
  eapply bind_returns; [apply (unmap_entry s own free r TRAMPOLINE Hi (upt_root _ _ _ Hu)); [done|lia]|]. intros [] s1 [U1 Hg1].
  assert (Hu1 : user_pt (kmem_mem s1) own r) by (eapply user_pt_upper; [exact U1| |done]; intros v [_ ->]; done).
  eapply bind_returns; [apply (unmap_entry s1 own free r TRAPFRAME (upd_inv _ _ _ _ _ _ _ _ U1) (upt_root _ _ _ Hu1)); [done|lia]|]. intros [] s2 [U2 Hg2].
  assert (Hu2 : user_pt (kmem_mem s2) own r) by (eapply user_pt_upper; [exact U2| |done]; intros v [_ ->]; done).
  pose proof (upt_root _ _ _ Hu) as Hr. eapply returns_mono; [apply (uvmfree_ok s2 own free r sz (upd_inv _ _ _ _ _ _ _ _ U2) Hu2 Hsz)|].
  - intros va Hva He. destruct (decide (vpn va = vpn TRAPFRAME)) as [E|E]; [by rewrite (lookup_vpn _ _ _ _ E), Hg2 in He|].
    rewrite (upd_lookup _ _ _ _ _ _ _ _ U2) in He by (done || tauto).
    destruct (decide (vpn va = vpn TRAMPOLINE)) as [E'|E']; [by rewrite (lookup_vpn _ _ _ _ E'), Hg1 in He|].
    rewrite (upd_lookup _ _ _ _ _ _ _ _ U1) in He by (done || tauto). apply Hall; [|done].
    destruct (decide (va < TRAPFRAME)); [lia|]. exfalso. change TRAPFRAME with (67108862 * 4096) in *. change TRAMPOLINE with (67108863 * 4096) in *.
    rewrite MAXVA_eq in *. change (2 ^ 38) with (67108864 * 4096) in *. unfold vpn, PGSIZE in *. rewrite !Z.div_mul in E, E' by lia. zlia.
  - intros [] s3 (o3 & x3 & R). exists o3, x3. eapply released_updates; [exact U1|by intros r' v [-> _]|]. eapply released_updates; [exact U2|by intros r' v [-> _]|exact R].
Qed.

(** C16: The end of an address space.  For a user page table whose mapped pages
    lie below the size of the process, [proc_freepagetable] returns and gives
    back every table page and every frame of it, each exactly once, and nothing
    else: the free list has no duplicates and shares no page with what is still
    in use, every other page table translates as before, and all other pages
    keep their contents. *)
Theorem proc_freepagetable_releases (s : kmem) (own : gmap Z use) (free : list Z) (r sz : Z)
  (Hinv : vm_inv s own free) (Hupt : user_pt (kmem_mem s) own r) (Hsz : 0 <= sz <= TRAPFRAME)
  (Hall : forall va, 0 <= va < TRAPFRAME -> has (lookup_pte (kmem_mem s) r va) PTE_V = true -> va < PGROUNDUP sz) :
  returns (proc_freepagetable r sz s) (fun _ s' => exists own' freed,
    released s own free r s' own' freed /\ NoDup (freed ++ free) /\ forall p u, own' !! p = Some u -> p ∉ freed ++ free).
Proof.
  eapply returns_mono; [by apply (proc_freepagetable_ok s own free r sz)|]. intros [] s' (own' & freed & R). exists own', freed.
  pose proof (rl_inv _ _ _ _ _ _ _ R) as Hi'. split; [done|]. split; [apply (inv_free _ _ _ Hi')|].
  intros p u Hp Hf. by rewrite (inv_notfree _ _ _ Hi' p Hf) in Hp.
Qed.
End Teardown.
