(* ===== verification/Image.v ===== *)
(** Building an address space: a new page table beside those in use
    ([proc_pagetable]), what later operations on it keep of the rest of memory,
    and giving it up again when the construction fails. *)
From S2P Require Import Prelude Riscv Kalloc Vm Uvm Teardown.
Open Scope kern_scope.

Section Image.
Context `{Layout}.

(** Frames belong to page tables that exist. *)
Definition rooted (own : gmap Z use) : Prop := forall q r v, own !! q = Some (Frame r v) -> is_root own r.

Lemma table_rooted s own free q r l pre : vm_inv s own free -> own !! q = Some (Table r l pre) -> is_root own r.
Proof.
  intros Hi. assert (H2 : forall q pre, own !! q = Some (Table r 2 pre) -> is_root own r).
  { intros q' pre' Hq. by destruct (linked_root _ _ _ _ _ _ Hi Hq) as [-> ->]. }
  assert (H1 : forall q pre, own !! q = Some (Table r 1 pre) -> is_root own r).
  { intros q' pre' Hq. destruct (linked_parent _ _ _ _ _ _ _ Hi Hq ltac:(lia)) as (p & ppre & i & Hp & _). by eapply H2. }
  intros Hq. pose proof (inv_level _ _ _ Hi _ _ _ _ Hq). assert (l = 0 \/ l = 1 \/ l = 2) as [->|[->| ->]] by lia; [|by eapply H1|by eapply H2].
  destruct (linked_parent _ _ _ _ _ _ _ Hi Hq ltac:(lia)) as (p & ppre & i & Hp & _). by eapply H1.
Qed.

Definition use_root (u : use) : Z := match u with Table r _ _ => r | Frame r _ => r end.

(** [s1] is [s] with a new page table [r] under construction: its pages come
    from the free list, none is lost, and nothing else has changed. *)
Record builds (s : kmem) (own : gmap Z use) (free : list Z) (r : Z) (s1 : kmem) (o1 : gmap Z use) (f1 : list Z) : Prop := {
  bl_inv : vm_inv s1 o1 f1;
  bl_upt : user_pt (kmem_mem s1) o1 r;
  bl_fresh : own !! r = None;
  bl_own : own ⊆ o1;
  bl_free : forall q, q ∈ f1 -> q ∈ free;
  bl_conserve : forall q, q ∈ free -> q ∈ f1 \/ is_Some (o1 !! q);
  bl_new : forall q u, o1 !! q = Some u -> own !! q = Some u \/ q ∈ free /\ use_root u = r;
  bl_lookup : forall r' va, is_root own r' -> 0 <= va < MAXVA -> lookup_pte (kmem_mem s1) r' va = lookup_pte (kmem_mem s) r' va;
  bl_keep : forall q, aligned q -> q ∉ free -> (forall r' l pre, own !! q <> Some (Table r' l pre)) -> same_page (kmem_mem s) (kmem_mem s1) q
}.

(** The new table is gone again. *)
Record restored (s : kmem) (own : gmap Z use) (free : list Z) (s' : kmem) (free' : list Z) : Prop := {
  rt_inv : vm_inv s' own free';
  rt_free : forall q, q ∈ free' <-> q ∈ free;
  rt_lookup : forall r' va, is_root own r' -> 0 <= va < MAXVA -> lookup_pte (kmem_mem s') r' va = lookup_pte (kmem_mem s) r' va;
  rt_keep : forall q, aligned q -> q ∉ free -> (forall r' l pre, own !! q <> Some (Table r' l pre)) -> same_page (kmem_mem s) (kmem_mem s') q
}.

Lemma restored_refl s own free : vm_inv s own free -> restored s own free s free.
Proof. intros Hi. split; [done|done|done|]. intros q _ _ _. apply same_page_refl. Qed.

Section Build.
Variables (s : kmem) (own : gmap Z use) (free : list Z) (r : Z).
Hypothesis Hinv : vm_inv s own free.
Hypothesis Hrooted : rooted own.

Lemma builds_other s1 o1 f1 r' : builds s own free r s1 o1 f1 -> is_root own r' -> r' <> r.
Proof. intros B Hr ->. pose proof (bl_fresh _ _ _ _ _ _ _ B). unfold is_root in Hr. congruence. Qed.

(** Pages outside the free list that are no tables are none afterwards. *)
Lemma builds_notable s1 o1 f1 q : builds s own free r s1 o1 f1 -> q ∉ free -> (forall r' l pre, own !! q <> Some (Table r' l pre)) ->
  (q ∉ f1) /\ forall r' l pre, o1 !! q <> Some (Table r' l pre).
Proof.
  intros B Hq Ht. split; [intros Hf; by apply Hq, (bl_free _ _ _ _ _ _ _ B)|]. intros r' l pre Ho.
  destruct (bl_new _ _ _ _ _ _ _ B q _ Ho) as [?|[? _]]; [by eapply Ht|done].
Qed.

Lemma builds_adds s1 o1 f1 (D : Z -> Prop) s2 o2 f2 : builds s own free r s1 o1 f1 -> adds s1 o1 f1 r D s2 o2 f2 -> builds s own free r s2 o2 f2.
Proof.
  intros B A. split.
  - apply A.
  - apply A.
  - apply B.
  - etrans; [apply B|apply A].
  - intros q Hq. by apply B, A.
  - intros q Hq. destruct (bl_conserve _ _ _ _ _ _ _ B q Hq) as [Hq1|[u Hq1]]; [by apply (ad_conserve _ _ _ _ _ _ _ _ A)|right].
    exists u. eapply lookup_weaken; [exact Hq1|apply A].
  - intros q u Hq. destruct (ad_new _ _ _ _ _ _ _ _ A q u Hq) as [Hq1|[Hq1 Hu]]; [by apply (bl_new _ _ _ _ _ _ _ B)|right].
    split; [by apply B|]. by destruct u; [|destruct Hu].
  - intros r' va Hr' Hva. pose proof (builds_other _ _ _ _ B Hr') as Hne. rewrite (ad_lookup _ _ _ _ _ _ _ _ A); [by apply B| |done|tauto].
    eapply is_root_mono; [apply B|done].
  - intros q Hq Hnf Ht. destruct (builds_notable _ _ _ _ B Hnf Ht). eapply same_page_trans; [by apply B|]. by apply (ad_keep _ _ _ _ _ _ _ _ A).
Qed.

Lemma builds_updates s1 o1 f1 (D : Z -> Z -> Prop) s2 o2 f2 x : builds s own free r s1 o1 f1 -> updates s1 o1 f1 D s2 o2 f2 x ->
  (forall r' v, D r' v -> r' = r) -> user_pt (kmem_mem s2) o2 r -> builds s own free r s2 o2 f2.
Proof.
  intros B U HD Hu. eapply builds_adds; [exact B|]. apply (updates_adds _ _ _ _ _ _ _ _ _ (fun _ => True) U Hu). intros r' v Hd. split; [by eapply HD|done].
Qed.

(** Giving the new table up. *)
Lemma builds_released s1 o1 f1 s2 o2 x : builds s own free r s1 o1 f1 -> released s1 o1 f1 r s2 o2 x -> restored s own free s2 (x ++ f1).
Proof.
  intros B R. assert (Hr : forall q u, own !! q = Some u -> use_root u <> r).
  { intros q u Hq <-. pose proof (bl_fresh _ _ _ _ _ _ _ B) as Hn. destruct u as [r' l pre|r' v]; cbn in Hn.
    - pose proof (table_rooted _ _ _ _ _ _ _ Hinv Hq) as Hr. unfold is_root in Hr. congruence.
    - pose proof (Hrooted _ _ _ Hq) as Hr. unfold is_root in Hr. congruence. }
  assert (Hx : forall q, q ∈ x <-> exists u, o1 !! q = Some u /\ use_root u = r).
  { intros q. rewrite (rl_freed _ _ _ _ _ _ _ R). split.
    - intros [(l & pre & Hq)|[v Hq]]; eauto.
    - intros ([r' l pre|r' v] & Hq & Hu); cbn in Hu; subst r'; eauto. }
  assert (Ho : o2 = own).
  { apply map_eq. intros q. rewrite (rl_own _ _ _ _ _ _ _ R). destruct (own !! q) as [u|] eqn:Hq.
    - pose proof (lookup_weaken _ _ _ _ Hq (bl_own _ _ _ _ _ _ _ B)) as Hq1. rewrite decide_False; [exact Hq1|].
      intros (u' & Hu' & Hr')%Hx. rewrite Hq1 in Hu'. injection Hu' as <-. by eapply Hr.
    - case_decide as Hd; [done|]. destruct (o1 !! q) as [u|] eqn:Hq1; [|done]. destruct Hd. apply Hx. exists u. split; [done|].
      destruct (bl_new _ _ _ _ _ _ _ B q u Hq1) as [?|[_ ?]]; [congruence|done]. }
  split.
  - rewrite <- Ho. apply R.
  - intros q. rewrite elem_of_app, Hx. split.
    + intros [(u & Hq & Hu)|Hq]; [|by apply B]. destruct (bl_new _ _ _ _ _ _ _ B q u Hq) as [Hq'|[? _]]; [|done]. by apply Hr in Hq'.
    + intros Hq. destruct (bl_conserve _ _ _ _ _ _ _ B q Hq) as [?|[u Hu]]; [by right|left]. exists u. split; [done|].
      destruct (bl_new _ _ _ _ _ _ _ B q u Hu) as [Hq'|[_ ?]]; [|done]. by rewrite (inv_notfree _ _ _ Hinv q Hq) in Hq'.
  - intros r' va Hr' Hva. rewrite (rl_lookup _ _ _ _ _ _ _ R); [by apply B| |by eapply builds_other|done]. eapply is_root_mono; [apply B|done].
  - intros q Hq Hnf Ht. destruct (builds_notable _ _ _ _ B Hnf Ht) as [Hf1 Ht1]. eapply same_page_trans; [by apply B|].
    apply (rl_keep _ _ _ _ _ _ _ R); [done| |done]. intros (u & Hu & Hr')%Hx. destruct (bl_new _ _ _ _ _ _ _ B q u Hu) as [Hq'|[? _]]; [|done]. by apply Hr in Hq'.
Qed.

Lemma builds_undo s1 o1 f1 sz : builds s own free r s1 o1 f1 -> 0 <= sz <= TRAPFRAME ->
  (forall va, 0 <= va < TRAPFRAME -> has (lookup_pte (kmem_mem s1) r va) PTE_V = true -> va < PGROUNDUP sz) ->
  returns (proc_freepagetable r sz s1) (fun _ s' => exists free', restored s own free s' free').
Proof.
  intros B Hsz Hall. eapply returns_mono; [apply (proc_freepagetable_ok s1 o1 f1 r sz); [apply B|apply B|done|done]|].
  intros [] s' (own' & freed & R). exists (freed ++ f1). by eapply builds_released.
Qed.
End Build.

(** ** A new page table *)

(** A zeroed page becomes the root of an empty page table. *)
Lemma own_root s own free p : vm_inv s own free -> held own free p -> (forall j, 0 <= j < 512 -> load64 (kmem_mem s) (p + 8 * j) = 0) ->
  vm_inv s (<[p := Table p 2 0]> own) free.
Proof.
  intros Hi [Hv Hnf Hno] Hz. split.
  - apply Hi.
  - intros q u. rewrite lookup_insert. case_decide; [naive_solver|apply Hi].
  - intros q r l pre. rewrite lookup_insert. case_decide; [|apply Hi]. intros [= <- <- <-]. lia.
  - intros q Hq. rewrite lookup_insert_ne; [by apply Hi|]. by intros ->.
  - intros q r l pre i. rewrite lookup_insert. case_decide as Hd; [intros _ _ Hix; subst q; by rewrite Hz|].
    intros Hq Hl Hix e He. pose proof (inv_child _ _ _ Hi q r l pre i Hq Hl Hix He) as Hc. fold e in Hc. rewrite lookup_insert_ne; [done|]. congruence.
  - intros q r l pre i. rewrite lookup_insert. case_decide as Hd; [intros _ _ Hix; subst q; by rewrite Hz|]. by apply (inv_pointer _ _ _ Hi).
  - intros q r l pre. rewrite lookup_insert. case_decide; [|apply Hi]. intros [= <- <- <-]. exists 0. done.
  - intros q r l pre. rewrite lookup_insert. case_decide; [intros [= <- <- <-]; left; done|]. intros Hq.
    destruct (inv_linked _ _ _ Hi _ _ _ _ Hq) as [?|(q' & qpre & i & Hq' & Hr)]; [by left|right].
    exists q', qpre, i. rewrite lookup_insert_ne by congruence. done.
Qed.

Lemma uvmcreate_ok s own free : vm_inv s own free -> rooted own -> returns (uvmcreate s) (fun r s' =>
  (r = 0 /\ restored s own free s' free) \/
  0 < r /\ exists o1 f1, builds s own free r s' o1 f1 /\ forall va, lookup_pte (kmem_mem s') r va = 0).
Proof.
  intros Hi Hroot. unfold uvmcreate. destruct free as [|p free1].
  { rewrite (bind_ret _ _ _ _ _ (kalloc_none s (inv_free _ _ _ Hi))). cbn. left. split; [done|by apply restored_refl]. }
  eapply bind_returns; [by apply (kalloc_held s own)|]. intros r s1 (-> & Hi1 & Hh & Hs1). pose proof (held_valid _ _ _ Hh) as Hv. pose proof (valid_page_pos _ Hv).
  destruct (Z.eqb_spec p 0); [lia|]. cbn. right. split; [lia|]. set (s2 := set_mem (fill (kmem_mem s1) p 0 PGSIZE) s1).
  assert (Hal : aligned p) by (by apply valid_page_aligned).
  assert (Hs2 : forall q, aligned q -> q <> p -> same_page (kmem_mem s1) (kmem_mem s2) q) by (intros q Hq Hne; by apply same_page_fill).
  assert (Hs : forall q, aligned q -> q <> p -> same_page (kmem_mem s) (kmem_mem s2) q) by (intros q Hq Hne; eapply same_page_trans; [by apply Hs1|by apply Hs2]).
  assert (Hz : forall j, 0 <= j < 512 -> load64 (kmem_mem s2) (p + 8 * j) = 0) by (intros j Hj; apply load_fill_zero; unfold PGSIZE; lia).
  assert (Hi2 : vm_inv s2 own free1) by (by apply (held_write s1 own free1 p)).
  assert (Hlk : forall va, lookup_pte (kmem_mem s2) p va = 0) by (intros va; by apply pte_at_zero_page).
  exists (<[p := Table p 2 0]> own), free1. split; [|exact Hlk]. destruct Hh as [_ Hnf Hno]. split.
  - by apply own_root.
  - split; [apply lookup_insert_eq|intros va _; by rewrite Hlk|]. intros f v. rewrite lookup_insert. case_decide; [done|]. intros Hf.
    apply Hroot in Hf. unfold is_root in Hf. congruence.
  - exact Hno.
  - by apply insert_subseteq.
  - intros q Hq. by apply elem_of_cons; right.
  - intros q Hq. apply elem_of_cons in Hq as [->|Hq]; [right; rewrite lookup_insert_eq; eauto|by left].
  - intros q u. rewrite lookup_insert. case_decide; [intros [= <-]; right; subst q; split; [by left|done]|by left].
  - intros r' va Hr' Hva. by apply (lookup_held s own (p :: free1) p).
  - intros q Hq Hnq _. apply Hs; [done|]. intros ->. apply Hnq. by left.
Qed.

(** The page above the user's that [mappages] maps leaves the user's part alone. *)
Lemma builds_upper s own free r s1 o1 f1 va pa perm : builds s own free r s1 o1 f1 -> TRAPFRAME <= va < MAXVA -> aligned va ->
  0 <= pa -> pa + PGSIZE <= 2 ^ 56 -> 0 <= perm < 1024 ->
  returns (mappages r va PGSIZE pa perm s1) (fun res s2 => exists o2 f2, builds s own free r s2 o2 f2 /\
    (forall va', 0 <= va' < MAXVA -> vpn va' <> vpn va -> lookup_pte (kmem_mem s2) r va' = lookup_pte (kmem_mem s1) r va') /\
    (res = 0 /\ lookup_pte (kmem_mem s2) r va = mk_pte pa perm \/
     res = -1 /\ lookup_pte (kmem_mem s2) r va = lookup_pte (kmem_mem s1) r va)).
Proof.
  intros B Hva Hal H0 H1 Hp. assert (0 <= TRAPFRAME) by done. pose proof (upt_root _ _ _ (bl_upt _ _ _ _ _ _ _ B)) as Hr.
  eapply returns_mono; [apply (mappages_page s1 o1 f1 r va pa perm (bl_inv _ _ _ _ _ _ _ B) Hr ltac:(lia) Hal H0 H1 Hp)|].
  intros res s2 (o2 & f2 & x & U & Hres). exists o2, f2.
  assert (Hu : user_pt (kmem_mem s2) o2 r).
  { eapply user_pt_upper; [exact U| |apply B]. intros v [_ ->]. unfold vpn. apply Z.div_le_mono; [done|lia]. }
  split; [by eapply builds_updates; [exact B|exact U|intros r' v [-> _]|]|]. split.
  - intros va' Hva' Hne. apply (upd_lookup _ _ _ _ _ _ _ _ U); [done|done|]. by intros [_ ?].
  - destruct Hres as [?|(-> & E & _)]; [by left|right]. split; [done|]. apply (ext_lookup _ _ _ _ _ _ _ _ E); [done|lia].
Qed.

Lemma builds_free0 s own free r s1 o1 f1 : vm_inv s own free -> rooted own -> builds s own free r s1 o1 f1 ->
  (forall va, 0 <= va < MAXVA -> has (lookup_pte (kmem_mem s1) r va) PTE_V = false) ->
  returns (uvmfree r 0 s1) (fun _ s' => exists free', restored s own free s' free').
Proof.
  intros Hi Hroot B Hz. eapply returns_mono; [apply (uvmfree_ok s1 o1 f1 r 0); [apply B|apply B|done|]|].
  - intros va Hva Hv. by rewrite Hz in Hv.
  - intros [] s' (own' & freed & R). exists (freed ++ f1). by eapply builds_released.
Qed.

Lemma proc_pagetable_ok s own free tf : vm_inv s own free -> rooted own -> 0 <= tf -> tf + PGSIZE <= 2 ^ 56 ->
  returns (proc_pagetable tf s) (fun r s' =>
    (r = 0 /\ exists free', restored s own free s' free') \/
    0 < r /\ exists o1 f1, builds s own free r s' o1 f1 /\ (forall va, 0 <= va < TRAPFRAME -> lookup_pte (kmem_mem s') r va = 0) /\
      lookup_pte (kmem_mem s') r TRAPFRAME = mk_pte tf (Z.lor PTE_R PTE_W) /\
      lookup_pte (kmem_mem s') r TRAMPOLINE = mk_pte trampoline (Z.lor PTE_R PTE_X)).
Proof.
  intros Hi Hroot H0 H1. assert (HT : 0 <= TRAPFRAME < TRAMPOLINE /\ TRAMPOLINE < MAXVA) by done. unfold proc_pagetable.
  eapply bind_returns; [by apply uvmcreate_ok|]. intros r s1 [[-> Hrs]|(Hr & o1 & f1 & B1 & Hz)]; [cbn; left; eauto|].
  destruct (Z.eqb_spec r 0); [lia|]. pose proof trampoline_in_text as Htr. pose proof etext_below_end. pose proof kend_below_top.
  eapply bind_returns; [apply (builds_upper s own free r s1 o1 f1 TRAMPOLINE trampoline); try done; unfold PHYSTOP, KERNBASE, PGSIZE in *; lia|].
  intros res s2 (o2 & f2 & B2 & Hl2 & [[-> Ht2]|[-> Ht2]]); cbn [Z.ltb Z.compare].
  2: { eapply bind_returns; [apply (builds_free0 s own free r s2 o2 f2 Hi Hroot B2)|intros [] s3 Hs3; by left].
    intros va Hva. destruct (decide (vpn va = vpn TRAMPOLINE)) as [E|E]; [by rewrite (lookup_vpn _ _ _ _ E), Ht2, Hz|by rewrite Hl2, Hz]. }
  eapply bind_returns; [apply (builds_upper s own free r s2 o2 f2 TRAPFRAME tf); try done; lia|].
  intros res s3 (o3 & f3 & B3 & Hl3 & [[-> Ht3]|[-> Ht3]]); cbn [Z.ltb Z.compare].
  - right. split; [lia|]. exists o3, f3. split; [done|]. assert (vpn TRAMPOLINE <> vpn TRAPFRAME) by done. split; [|split; [done|]].
    + intros va Hva. pose proof (vpn_user va Hva). rewrite Hl3, Hl2 by (done || lia || (change (vpn TRAMPOLINE) with (vpn TRAPFRAME + 1); lia)). apply Hz.
    + rewrite Hl3; [done|lia|done].
  - assert (Hr3 : is_root o3 r) by apply (bl_upt _ _ _ _ _ _ _ B3).
    eapply bind_returns; [apply (unmap_entry s3 o3 f3 r TRAMPOLINE (bl_inv _ _ _ _ _ _ _ B3) Hr3); [done|lia]|]. intros [] s4 [U4 Hg4].
    assert (B4 : builds s own free r s4 o3 f3).
    { eapply builds_updates; [exact B3|exact U4|by intros r' v [-> _]|]. eapply user_pt_upper; [exact U4| |apply B3]. by intros v [_ ->]. }
    eapply bind_returns; [apply (builds_free0 s own free r s4 o3 f3 Hi Hroot B4)|intros [] s5 Hs5; by left].
    intros va Hva. destruct (decide (vpn va = vpn TRAMPOLINE)) as [E|E]; [by rewrite (lookup_vpn _ _ _ _ E)|].
    rewrite (upd_lookup _ _ _ _ _ _ _ _ U4) by (done || by intros [_ ?]). destruct (decide (vpn va = vpn TRAPFRAME)) as [E'|E'].
    + rewrite (lookup_vpn _ _ _ _ E'), Ht3, Hl2, Hz by (done || lia). done.
    + rewrite Hl3, Hl2, Hz by done. done.
Qed.
End Image.
