(* ===== verification/FileLayer.v ===== *)
(** The interface between paging and the file system: what the page-fault
    handler and the swap code rely on from [readi] and [writei] of
    [kernel/fs.c].  Files are byte strings named by an inode; the paging
    theorems are proved against these laws only. *)
From S2P Require Import Prelude.

(** [bs] over the bytes of [c] from [off] on, growing [c] when it ends inside
    [bs]. *)
Definition splice (off : nat) (bs c : list Z) : list Z :=
  take off c ++ bs ++ drop (off + length bs) c.

Lemma splice_length off bs c : (off <= length c)%nat ->
  length (splice off bs c) = max (length c) (off + length bs).
Proof. intros. unfold splice. rewrite !length_app, length_take, length_drop. lia. Qed.

Lemma splice_read off bs c : (off <= length c)%nat ->
  take (length bs) (drop off (splice off bs c)) = bs.
Proof.
  intros. unfold splice. rewrite drop_app_le by (rewrite length_take; lia).
  rewrite drop_ge by (rewrite length_take; lia). simpl. by rewrite take_app_length.
Qed.

Lemma splice_other off bs c off' n :
  (off <= length c)%nat -> (off' + n <= length c)%nat ->
  (off' + n <= off \/ off + length bs <= off')%nat ->
  take n (drop off' (splice off bs c)) = take n (drop off' c).
Proof.
  intros H1 H2 Hd. apply list_eq. intros i. destruct (decide (i < n)%nat) as [Hi|Hi].
  2: { rewrite !lookup_ge_None_2; [done|rewrite length_take; lia..]. }
  rewrite !lookup_take_lt, !lookup_drop by done. unfold splice.
  destruct Hd.
  - rewrite lookup_app_l by (rewrite length_take; lia). apply lookup_take_lt. lia.
  - rewrite lookup_app_r by (rewrite length_take; lia). rewrite length_take, Nat.min_l by lia.
    rewrite lookup_app_r by lia. rewrite lookup_drop. f_equal. lia.
Qed.

(** [readi] delivers the bytes of the file in the requested range that exist
    and changes no file; a [writei] that reports its whole length has replaced
    that range, and a shorter or failed one leaves every other file alone. *)
Class FileLayer := {
  fs : Type;
  fs_ok : fs -> Prop;
  content : fs -> Z -> list Z;
  readi : Z -> Z -> Z -> M fs (list Z);
  writei : Z -> Z -> list Z -> M fs Z;
  readi_spec : forall f ip off n, fs_ok f -> 0 <= off < 2 ^ 32 -> 0 <= n < 2 ^ 31 ->
    returns (readi ip off n f) (fun bs f' => fs_ok f' /\ (forall j, content f' j = content f j) /\
      bs = take (Z.to_nat n) (drop (Z.to_nat off) (content f ip)));
  writei_spec : forall f ip off bs, fs_ok f -> 0 <= off <= Z.of_nat (length (content f ip)) ->
    returns (writei ip off bs f) (fun r f' => fs_ok f' /\ (forall j, j <> ip -> content f' j = content f j) /\
      (r = Z.of_nat (length bs) -> content f' ip = splice (Z.to_nat off) bs (content f ip)))
}.
