(* ===== verification/Paging.v ===== *)
(** Demand paging and swapping: [evict_page], [handle_pgfault] and the resident
    and swap bookkeeping of [kernel/vm.c], the page-fault branch of [usertrap]
    ([kernel/trap.c]), [sys_sbrk] and [sys_memstat] ([kernel/sysproc.c]),
    [copyin], [copyout], [copyinstr] and [vmfault].  Every operation runs on
    the whole machine state the code touches: physical memory with its free
    list, the process structure, the file layer, and the log of lines the
    kernel prints. *)
From S2P Require Import Prelude Riscv Kalloc Vm Uvm FileLayer.
Open Scope kern_scope.

(** * State *)

Record resident_page := mk_rp { rp_va : Z; rp_seq : Z; rp_dirty : Z }.
Record swapped_page := mk_sp { sp_va : Z; sp_slot : Z }.
Record proghdr := mk_ph { ph_type : Z; ph_flags : Z; ph_off : Z; ph_vaddr : Z; ph_filesz : Z; ph_memsz : Z }.

(** The fields of [struct proc] that paging uses.  [p_swap_file] is the inode
    behind [p->swap_file], [None] for a null pointer. *)
Record proc := mk_proc {
  p_pid : Z;
  p_sz : Z;
  p_pagetable : Z;
  p_heap_start : Z;
  p_exec_ip : Z;
  p_swap_file : option Z;
  p_swap_slots : Z -> Z;
  p_resident_pages : Z -> resident_page;
  p_num_resident : Z;
  p_swapped_pages : Z -> swapped_page;
  p_num_swapped : Z;
  p_next_fifo_seq : Z;
  p_tf_sp : Z;
  p_killed : Z;
  p_num_phdrs : Z;
  p_phdrs : Z -> proghdr
}.

Definition set_sz v p := let '(mk_proc a _ c d e f g h i j k l m n o q) := p in mk_proc a v c d e f g h i j k l m n o q.
Definition set_slots v p := let '(mk_proc a b c d e f _ h i j k l m n o q) := p in mk_proc a b c d e f v h i j k l m n o q.
Definition set_resident v w p := let '(mk_proc a b c d e f g _ _ j k l m n o q) := p in mk_proc a b c d e f g v w j k l m n o q.
Definition set_swapped v w p := let '(mk_proc a b c d e f g h i _ _ l m n o q) := p in mk_proc a b c d e f g h i v w l m n o q.
Definition set_seq v p := let '(mk_proc a b c d e f g h i j k _ m n o q) := p in mk_proc a b c d e f g h i j k v m n o q.
Definition set_killed v p := let '(mk_proc a b c d e f g h i j k l m _ o q) := p in mk_proc a b c d e f g h i j k l m v o q.

Inductive access := AExec | ARead | AWrite.
Inductive fault_cause := CSwap | CExec | CHeap | CStack.

(** The lines the kernel prints, one constructor per format string. *)
Inductive event :=
| RESIDENT_FULL (pid : Z)
| RESIDENT (pid va seq : Z)
| MEMFULL (pid : Z)
| VICTIM (pid va seq : Z)
| EVICT (pid va : Z) (dirty : bool)
| SWAPFULL (pid : Z)
| KILL_SWAP (pid : Z)
| SWAPOUT (pid va slot : Z)
| WRITE_FAILED (pid : Z)
| DISCARD (pid va : Z)
| PAGEFAULT (pid va : Z) (a : access) (c : fault_cause)
| SWAPIN (pid va slot : Z)
| LOADEXEC (pid va : Z)
| ALLOC (pid va : Z)
| KILL_ACCESS (pid va : Z) (a : access)
| OVER_LIMIT
| PGFAULT_FALSE
| GOT_ZERO.

Section Paging.
Context {LAY : Layout} {FL : FileLayer}.

Record pstate := mk_ps { ps_k : kmem; ps_p : proc; ps_fs : fs; ps_log : list event }.

Definition put_k k s := mk_ps k (ps_p s) (ps_fs s) (ps_log s).
Definition put_p p s := mk_ps (ps_k s) p (ps_fs s) (ps_log s).
Definition put_fs f s := mk_ps (ps_k s) (ps_p s) f (ps_log s).

(** Calls into the page-table code, the file layer, and [printf]. *)
Definition vm {A} (m : M kmem A) : M pstate A := zoom ps_k put_k m.
Definition file {A} (m : M fs A) : M pstate A := zoom ps_fs put_fs m.
Definition myproc : M pstate proc := gets ps_p.
Definition setp (f : proc -> proc) : M pstate unit := modify (fun s => put_p (f (ps_p s)) s).
Definition printf (e : event) : M pstate unit :=
  modify (fun s => mk_ps (ps_k s) (ps_p s) (ps_fs s) (ps_log s ++ [e])).
Definition kexit {A} (status : Z) : M pstate A := exit_with status.
Definition setkilled : M pstate unit := setp (set_killed 1).

(** * Swap slots *)

Definition swap_allocated_slot : M pstate Z :=
  do p <- myproc;
  match scan (fun i => p_swap_slots p i =? 0) MAX_SWAP_PAGES with
  | Some i => setp (fun p => set_slots (upd (p_swap_slots p) i 1) p) ;;; ret i
  | None => ret (-1)
  end.

(** [page_content] is the physical page to write. *)
Definition swap_write_page (slot page_content : Z) : M pstate Z :=
  do p <- myproc;
  match p_swap_file p with
  | None => ret (-1)
  | Some ip =>
      do s <- get;
      do result <- file (writei ip (u32 (i32 (slot * PGSIZE)))
                           (bytes_at (kmem_mem (ps_k s)) page_content (Z.to_nat PGSIZE)));
      ret (if result =? PGSIZE then 0 else -1)
  end.

(** * The resident set *)

Definition add_to_resident_set (va swapped : Z) : M pstate unit :=
  do p <- myproc;
  if MAX_RESIDENT_PAGES <=? p_num_resident p
  then printf (RESIDENT_FULL (p_pid p)) ;;; kexit (-1)
  else if p_num_resident p <? 0 then undef "resident_pages index"
  else
    let i := p_num_resident p in
    let seq := i32 (p_next_fifo_seq p + 1) in
    setp (fun p => set_seq seq (set_resident (upd (p_resident_pages p) i (mk_rp va seq swapped))
                                  (p_num_resident p + 1) p)) ;;;
    printf (RESIDENT (p_pid p) va seq).

(** The scan of [evict_page]: [v] is the index of the smallest sequence number
    seen. *)
Fixpoint victim_loop (k : nat) (i : Z) (res : Z -> resident_page) (v : Z) : Z :=
  match k with
  | O => v
  | S k' => victim_loop k' (i + 1) res (if rp_seq (res i) <? rp_seq (res v) then i else v)
  end.

Definition victim_inx (p : proc) : Z :=
  victim_loop (Z.to_nat (p_num_resident p - 1)) 1 (p_resident_pages p) 0.

(** Writing the victim at [va] to a swap slot. *)
Definition swap_out (va : Z) : M pstate unit :=
  do p <- myproc;
  printf (EVICT (p_pid p) va true) ;;;
  do slot <- swap_allocated_slot;
  if slot =? -1 then
    printf (SWAPFULL (p_pid p)) ;;; printf (KILL_SWAP (p_pid p)) ;;; kexit (-1)
  else
    printf (SWAPOUT (p_pid p) va slot) ;;;
    do pa <- vm (walkaddr (p_pagetable p) va);
    do r <- swap_write_page slot pa;
    if negb (r =? 0) then printf (WRITE_FAILED (p_pid p)) ;;; kexit (-1)
    else
      do p <- myproc;
      if (0 <=? p_num_swapped p) && (p_num_swapped p <? MAX_SWAP_PAGES) then
        setp (fun p => set_swapped (upd (p_swapped_pages p) (p_num_swapped p) (mk_sp va slot))
                         (p_num_swapped p + 1) p)
      else undef "swapped_pages index".

Definition evict_page : M pstate Z :=
  do p <- myproc;
  printf (MEMFULL (p_pid p)) ;;;
  let victim := victim_inx p in
  let va := rp_va (p_resident_pages p victim) in
  let dirty := rp_dirty (p_resident_pages p victim) in
  printf (VICTIM (p_pid p) va (rp_seq (p_resident_pages p victim))) ;;;
  (if negb (dirty =? 0) then swap_out va
   else printf (EVICT (p_pid p) va false) ;;; printf (DISCARD (p_pid p) va)) ;;;
  vm (uvmunmap (p_pagetable p) va 1 true) ;;;
  if p_num_resident p - 1 <? 0 then undef "resident_pages index"
  else
    setp (fun p => set_resident (remove_at (p_resident_pages p) (p_num_resident p) victim)
                     (p_num_resident p - 1) p) ;;;
    ret 0.

(** * Page faults *)

(** [flags2perm] of [kernel/exec.c]. *)
Definition flags2perm (flags : Z) : Z :=
  let perm := if negb (Z.land flags 1 =? 0) then PTE_X else 0 in
  let perm := if negb (Z.land flags 2 =? 0) then Z.lor perm PTE_W else perm in
  if negb (Z.land flags 4 =? 0) then Z.lor perm PTE_R else perm.

Definition sizeof_elfhdr : Z := 64.
Definition sizeof_proghdr : Z := 56.
Definition ELF_PROG_LOAD : Z := 1.

(** [elf.phoff] and [elf.phnum], and a program header, from their bytes. *)
Definition elf_phoff (bs : list Z) : Z := le_at bs 32 8.
Definition elf_phnum (bs : list Z) : Z := le_at bs 56 2.
Definition decode_proghdr (bs : list Z) : proghdr :=
  mk_ph (le_at bs 0 4) (le_at bs 4 4) (le_at bs 8 8) (le_at bs 16 8) (le_at bs 32 8) (le_at bs 40 8).

(** The file offset, the number of bytes to read and the permissions for the
    page at [va] of the segment [ph]. *)
Definition segment_page (ph : proghdr) (va : Z) : Z * Z * Z :=
  let d := u64 (va - ph_vaddr ph) in
  let n := if d <? ph_filesz ph then u32 (u64 (ph_filesz ph - d)) else 0 in
  (u32 (ph_off ph + d), (if PGSIZE <? n then PGSIZE else n), Z.lor (flags2perm (i32 (ph_flags ph))) PTE_U).

Definition in_segment (ph : proghdr) (va : Z) : bool :=
  (ph_type ph =? ELF_PROG_LOAD) && (ph_vaddr ph <=? va) && (va <? u64 (ph_vaddr ph + ph_memsz ph)).

(** The scan of the program headers of [p->exec_ip], [k] of them left at file
    offset [off].  A header that the file does not hold is a variable read
    before it is set. *)
Fixpoint find_segment (k : nat) (ip off va : Z) : M pstate (option (Z * Z * Z)) :=
  match k with
  | O => ret None
  | S k' =>
      do bs <- file (readi ip (u32 off) sizeof_proghdr);
      if negb (Z.of_nat (length bs) =? sizeof_proghdr) then undef "program header not read"
      else
        let ph := decode_proghdr bs in
        if in_segment ph va then ret (Some (segment_page ph va))
        else find_segment k' ip (i32 (off + sizeof_proghdr)) va
  end.

(** The frame for the new page, after an eviction when memory is full; [None]
    when the handler gives up. *)
Definition pgfault_frame : M pstate (option Z) :=
  do mem <- vm kalloc;
  if mem =? 0 then
    do r <- evict_page;
    if r <? 0 then setkilled ;;; ret None
    else
      do mem <- vm kalloc;
      if mem =? 0 then panic "kalloc failed after eviction" else ret (Some mem)
  else ret (Some mem).

(** Removes the swap entry of [va], if there is one, and returns its slot. *)
Definition take_swapped (va : Z) : M pstate (option Z) :=
  do p <- myproc;
  match scan (fun i => sp_va (p_swapped_pages p i) =? va) (p_num_swapped p) with
  | None => ret None
  | Some i =>
      let slot := sp_slot (p_swapped_pages p i) in
      setp (fun p => set_swapped (remove_at (p_swapped_pages p) (p_num_swapped p) i)
                       (p_num_swapped p - 1) p) ;;;
      if (0 <=? slot) && (slot <? MAX_SWAP_PAGES) then
        setp (fun p => set_slots (upd (p_swap_slots p) slot 0) p) ;;; ret (Some slot)
      else undef "swap_slots index"
  end.

(** Bytes read from a file into kernel memory. *)
Definition read_into (ip off n mem : Z) : M pstate Z :=
  do bs <- file (readi ip off n);
  vm (modify (fun k => set_mem (blit (kmem_mem k) mem bs) k)) ;;;
  ret (Z.of_nat (length bs)).

(** [mappages] of the new page; on failure its frame is freed. *)
Definition map_or_free (pagetable va mem perm : Z) : M pstate bool :=
  do r <- vm (mappages pagetable va PGSIZE mem perm);
  if negb (r =? 0) then vm (kfree mem) ;;; ret false else ret true.

(** Case 1 of the handler: the page is in the swap file. *)
Definition fault_swap (pagetable va : Z) (a : access) (mem slot : Z) : M pstate bool :=
  do p <- myproc;
  printf (PAGEFAULT (p_pid p) va a CSwap) ;;;
  printf (SWAPIN (p_pid p) va slot) ;;;
  match p_swap_file p with
  | None => undef "null swap_file"
  | Some ip =>
      do n <- read_into ip (u32 (i32 (slot * PGSIZE))) PGSIZE mem;
      if negb (n =? PGSIZE) then panic "swap_read_page failed"
      else map_or_free pagetable va mem (Z.lor PTE_U PTE_R)
  end.

(** A zeroed page of the heap or the stack. *)
Definition fault_zero (pagetable va : Z) (a : access) (c : fault_cause) (mem : Z) : M pstate bool :=
  do p <- myproc;
  printf (PAGEFAULT (p_pid p) va a c) ;;;
  printf (ALLOC (p_pid p) va) ;;;
  map_or_free pagetable va mem (Z.lor PTE_U PTE_R).

(** Case 2: a page of the executable, of the heap, or of the stack. *)
Definition fault_fresh (pagetable va : Z) (a : access) (mem : Z) : M pstate bool :=
  do p <- myproc;
  let exec_segment := va <? p_heap_start p in
  let heap_or_stack := (p_heap_start p <=? va) && (va <? p_sz p) in
  if negb exec_segment && negb heap_or_stack then ret false
  else
    do elf <- file (readi (p_exec_ip p) 0 sizeof_elfhdr);
    if negb (Z.of_nat (length elf) =? sizeof_elfhdr) then undef "elf header not read"
    else
      do seg <- find_segment (Z.to_nat (elf_phnum elf)) (p_exec_ip p) (i32 (elf_phoff elf)) va;
      match seg with
      | Some (file_offset, file_size_to_read, perm_flags) =>
          printf (PAGEFAULT (p_pid p) va a CExec) ;;;
          printf (LOADEXEC (p_pid p) va) ;;;
          do n <- read_into (p_exec_ip p) file_offset file_size_to_read mem;
          if negb (n =? file_size_to_read) then vm (kfree mem) ;;; ret false
          else map_or_free pagetable va mem perm_flags
      | None =>
          if va <? p_sz p then fault_zero pagetable va a CHeap mem
          else if (u64 (p_tf_sp p - PGSIZE) <=? va) && (va <? MAXVA)
          then fault_zero pagetable va a CStack mem
          else vm (kfree mem) ;;; ret false
      end.

Definition handle_pgfault (pagetable va : Z) (a : access) : M pstate Z :=
  if MAXVA <=? va then ret (-1)
  else
    let va := PGROUNDDOWN va in
    do f <- pgfault_frame;
    match f with
    | None => ret (-1)
    | Some mem =>
        vm (kmemset mem 0 PGSIZE) ;;;
        do slot <- take_swapped va;
        do ok <- match slot with
                 | Some slot => fault_swap pagetable va a mem slot
                 | None => fault_fresh pagetable va a mem
                 end;
        if ok then
          add_to_resident_set va (match slot with Some _ => 1 | None => 0 end) ;;; ret 0
        else ret (-1)
    end.

(** * Trap handling *)

(** [can_write] of [usertrap]: the first saved program header that covers the
    page decides; above the heap start every write is allowed. *)
Definition can_write (p : proc) (page_va : Z) : bool :=
  if p_heap_start p <=? page_va then true
  else match scan (fun i => let ph := p_phdrs p i in
                     (ph_vaddr ph <=? page_va) && (page_va <? u64 (ph_vaddr ph + ph_memsz ph)))
               (p_num_phdrs p) with
       | Some i => negb (Z.land (ph_flags (p_phdrs p i)) 2 =? 0)
       | None => false
       end.

Definition mark_dirty (p : proc) (page_va : Z) : proc :=
  match scan (fun i => rp_va (p_resident_pages p i) =? page_va) (p_num_resident p) with
  | Some i => set_resident (upd (p_resident_pages p) i
                (mk_rp (rp_va (p_resident_pages p i)) (rp_seq (p_resident_pages p i)) 1)) (p_num_resident p) p
  | None => p
  end.

Definition access_of (scause : Z) : access :=
  if scause =? 12 then AExec else if scause =? 13 then ARead else AWrite.

(** The page-fault branch of [usertrap]; [scause] is 12, 13 or 15. *)
Definition usertrap_pgfault (scause va : Z) : M pstate unit :=
  if MAXVA <=? va then kexit (-1)
  else
    do p <- myproc;
    do pte <- vm (walk (p_pagetable p) va false);
    do e <- (if pte =? 0 then ret 0 else vm (kload pte));
    if (scause =? 15) && negb (pte =? 0) && has e PTE_V && negb (has e PTE_W) then
      let page_va := PGROUNDDOWN va in
      if can_write p page_va then
        vm (kstore pte (Z.lor e PTE_W)) ;;;
        setp (fun p => mark_dirty p page_va)
      else
        printf (KILL_ACCESS (p_pid p) va AWrite) ;;; setkilled
    else
      do r <- handle_pgfault (p_pagetable p) va (access_of scause);
      if r <? 0 then
        printf (KILL_ACCESS (p_pid p) va (access_of scause)) ;;; setkilled
      else ret tt.

(** [sys_sbrk] with its argument [n] already fetched. *)
Definition sys_sbrk (n : Z) : M pstate Z :=
  do p <- myproc;
  let addr := p_sz p in
  if 0 <? n then
    if (u64 (addr + n) <? addr) || (TRAPFRAME <? u64 (addr + n)) then ret (u64 (-1))
    else setp (fun p => set_sz (u64 (p_sz p + n)) p) ;;; ret addr
  else if n <? 0 then
    do sz <- vm (uvmdealloc (p_pagetable p) (p_sz p) (u64 (p_sz p + n)));
    setp (set_sz sz) ;;; ret addr
  else ret addr.

(** * Copying between kernel and user space *)

(** [walkaddr] of a user page, faulting it in when it is not mapped; [None]
    when that fails.  The shared part of [copyin] and [copyout]. *)
Definition fault_in (pagetable va0 : Z) (a : access) (on_fault on_zero : M pstate unit) : M pstate (option Z) :=
  do pa0 <- vm (walkaddr pagetable va0);
  if pa0 =? 0 then
    do r <- handle_pgfault pagetable va0 a;
    if negb (r =? 0) then on_fault ;;; ret None
    else
      do pa0 <- vm (walkaddr pagetable va0);
      if pa0 =? 0 then on_zero ;;; ret None else ret (Some pa0)
  else ret (Some pa0).

(** Copies [src] to user address [dstva]. *)
Fixpoint copyout_loop (fuel : nat) (pagetable dstva : Z) (src : list Z) (a : access) : M pstate Z :=
  match fuel with
  | O => no_fuel
  | S k =>
      if (length src =? 0)%nat then ret 0
      else
        let va0 := PGROUNDDOWN dstva in
        if MAXVA <=? va0 then printf OVER_LIMIT ;;; ret (-1)
        else
          do r <- fault_in pagetable va0 a (printf PGFAULT_FALSE) (printf GOT_ZERO);
          match r with
          | None => ret (-1)
          | Some pa0 =>
              do pte <- vm (walk pagetable va0 false);
              do e <- vm (kload pte);
              if negb (has e PTE_W) then ret (-1)
              else
                let n := Z.to_nat (Z.min (PGSIZE - (dstva - va0)) (Z.of_nat (length src))) in
                vm (modify (fun k => set_mem (blit (kmem_mem k) (pa0 + (dstva - va0)) (take n src)) k)) ;;;
                copyout_loop k pagetable (u64 (va0 + PGSIZE)) (drop n src) a
          end
  end.

(** A page per iteration after the first, and the final test. *)
Definition copyout (pagetable dstva : Z) (src : list Z) (scause : Z) : M pstate Z :=
  copyout_loop (Z.to_nat (Z.of_nat (length src) / PGSIZE) + 3) pagetable dstva src (access_of scause).

(** Copies [len] bytes from user address [srcva]; the result carries the bytes
    written at [dst], also when the call fails half way. *)
Fixpoint copyin_loop (fuel : nat) (pagetable srcva len : Z) (a : access) (dst : list Z) : M pstate (Z * list Z) :=
  match fuel with
  | O => no_fuel
  | S k =>
      if 0 <? len then
        let va0 := PGROUNDDOWN srcva in
        do r <- fault_in pagetable va0 a (ret tt) (ret tt);
        match r with
        | None => ret (-1, dst)
        | Some pa0 =>
            let n := Z.min (PGSIZE - (srcva - va0)) len in
            do s <- get;
            let bs := bytes_at (kmem_mem (ps_k s)) (pa0 + (srcva - va0)) (Z.to_nat n) in
            copyin_loop k pagetable (u64 (va0 + PGSIZE)) (len - n) a (dst ++ bs)
        end
      else ret (0, dst)
  end.

Definition copyin (pagetable srcva len scause : Z) : M pstate (Z * list Z) :=
  copyin_loop (Z.to_nat (len / PGSIZE) + 3) pagetable srcva len (access_of scause) [].

(** The inner loop of [copyinstr]: bytes from physical address [p] up to a NUL
    or [n] of them.  Returns the bytes copied (the NUL included) and whether
    it was found. *)
Fixpoint copy_until_nul (n : nat) (m : mem) (p : Z) : list Z * bool :=
  match n with
  | O => ([], false)
  | S k => if m p =? 0 then ([0], true)
           else let '(bs, f) := copy_until_nul k m (p + 1) in (m p :: bs, f)
  end.

(** An unmapped page ends the copy: the code returns before its call of
    [handle_pgfault]. *)
Fixpoint copyinstr_loop (fuel : nat) (pagetable srcva max : Z) (dst : list Z) : M pstate (Z * list Z) :=
  match fuel with
  | O => no_fuel
  | S k =>
      if 0 <? max then
        let va0 := PGROUNDDOWN srcva in
        do pa0 <- vm (walkaddr pagetable va0);
        if pa0 =? 0 then ret (-1, dst)
        else
          let n := Z.min (PGSIZE - (srcva - va0)) max in
          do s <- get;
          let '(bs, got_null) := copy_until_nul (Z.to_nat n) (kmem_mem (ps_k s)) (pa0 + (srcva - va0)) in
          if got_null : bool then ret (0, dst ++ bs)
          else copyinstr_loop k pagetable (u64 (va0 + PGSIZE)) (max - n) (dst ++ bs)
      else ret (-1, dst)
  end.

Definition copyinstr (pagetable srcva max : Z) : M pstate (Z * list Z) :=
  copyinstr_loop (Z.to_nat (max / PGSIZE) + 3) pagetable srcva max [].

(** [vmfault], the handler of the original code base. *)
Definition vmfault (pagetable va : Z) : M pstate Z :=
  do p <- myproc;
  if p_sz p <=? va then ret 0
  else
    let va := PGROUNDDOWN va in
    do mapped <- vm (ismapped pagetable va);
    if negb (mapped =? 0) then ret 0
    else
      do mem <- vm kalloc;
      if mem =? 0 then ret 0
      else
        vm (kmemset mem 0 PGSIZE) ;;;
        do r <- vm (mappages (p_pagetable p) va PGSIZE mem (Z.lor (Z.lor PTE_W PTE_U) PTE_R));
        if negb (r =? 0) then vm (kfree mem) ;;; ret 0 else ret mem.

(** * Memory statistics *)

Definition MAX_PAGES_INFO : Z := 128.

Record page_stat := mk_stat { st_va : Z; st_state : Z; st_is_dirty : Z; st_seq : Z; st_swap_slot : Z }.

(** One entry of [k_info.pages]: 0 unmapped, 1 resident, 2 swapped. *)
Definition page_stat_of (p : proc) (va : Z) : page_stat :=
  match scan (fun i => rp_va (p_resident_pages p i) =? va) (p_num_resident p) with
  | Some i => let r := p_resident_pages p i in mk_stat (u32 va) 1 (rp_dirty r) (rp_seq r) (-1)
  | None =>
      match scan (fun i => sp_va (p_swapped_pages p i) =? va) (p_num_swapped p) with
      | Some i => mk_stat (u32 va) 2 0 (-1) (sp_slot (p_swapped_pages p i))
      | None => mk_stat (u32 va) 0 0 (-1) (-1)
      end
  end.

(** The loop of [sys_memstat], [k] entries left. *)
Fixpoint memstat_pages (k : nat) (p : proc) (va : Z) : list page_stat :=
  match k with
  | O => []
  | S k' => if va <? p_sz p then page_stat_of p va :: memstat_pages k' p (va + PGSIZE) else []
  end.

(** What [sys_memstat] puts into [k_info]: pid, total pages, resident pages,
    swapped pages, next sequence number, and the page entries. *)
Definition memstat (p : proc) : Z * Z * Z * Z * Z * list page_stat :=
  (p_pid p, i32 (p_sz p / PGSIZE), p_num_resident p, p_num_swapped p, i32 (p_next_fifo_seq p + 1),
   memstat_pages (Z.to_nat MAX_PAGES_INFO) p 0).

End Paging.
