(* ===== verification/PagingOk.v ===== *)
(** Correctness of demand paging: the invariant that ties the resident set,
    the swap table, the swap file and the page table together, and what
    eviction, page faults and the copying routines do to them. *)
From S2P Require Import Prelude Riscv Kalloc Vm Uvm FileLayer Paging.
Open Scope kern_scope.

Section PagingOk.
Context {LAY : Layout} {FL : FileLayer}.

(** * Lifting page-table and file-layer facts *)

Lemma put_k_id s : put_k (ps_k s) s = s.
Proof. by destruct s. Qed.

Lemma vm_ret {A} (m : M kmem A) s a k : m (ps_k s) = Ret a k -> vm m s = Ret a (put_k k s).
Proof. intros Hm. unfold vm, zoom. by rewrite Hm. Qed.

Lemma vm_read {A} (m : M kmem A) s a : m (ps_k s) = Ret a (ps_k s) -> vm m s = Ret a s.
Proof. intros Hm. rewrite (vm_ret m s a _ Hm). by rewrite put_k_id. Qed.

Lemma vm_returns {A} (m : M kmem A) s P : returns (m (ps_k s)) P ->
  returns (vm m s) (fun a s' => exists k, s' = put_k k s /\ P a k).
Proof. apply zoom_returns. Qed.

Lemma file_returns {A} (m : M fs A) s P : returns (m (ps_fs s)) P ->
  returns (file m s) (fun a s' => exists f, s' = put_fs f s /\ P a f).
Proof. apply zoom_returns. Qed.

(** * The victim of an eviction *)

Lemma victim_loop_spec res k : forall i v,
  0 <= v < i -> (forall j, 0 <= j < i -> rp_seq (res v) <= rp_seq (res j)) ->
  let w := victim_loop k i res v in
  0 <= w < i + Z.of_nat k /\ forall j, 0 <= j < i + Z.of_nat k -> rp_seq (res w) <= rp_seq (res j).
Proof.
  induction k as [|k IH]; intros i v Hv Hmin; cbn [victim_loop].
  - split; [lia|]. intros j Hj. apply Hmin. lia.
  - replace (i + Z.of_nat (S k)) with (i + 1 + Z.of_nat k) by lia. apply IH.
    + bool_to_prop; lia.
    + intros j Hj. destruct (Z.eq_dec j i) as [->|].
      * bool_to_prop; lia.
      * specialize (Hmin j ltac:(lia)). bool_to_prop; lia.
Qed.

Lemma victim_inx_spec p : 0 < p_num_resident p ->
  0 <= victim_inx p < p_num_resident p /\
  forall j, 0 <= j < p_num_resident p ->
    rp_seq (p_resident_pages p (victim_inx p)) <= rp_seq (p_resident_pages p j).
Proof.
  intros Hn. unfold victim_inx.
  pose proof (victim_loop_spec (p_resident_pages p) (Z.to_nat (p_num_resident p - 1)) 1 0) as Hs.
  replace (1 + Z.of_nat (Z.to_nat (p_num_resident p - 1))) with (p_num_resident p) in Hs by lia.
  apply Hs; [lia|]. intros j Hj. assert (j = 0) as -> by lia. lia.
Qed.

(** * The invariant *)

(** The swap table of a process: [n] entries with distinct pages and distinct
    slots, the used slots being exactly theirs. *)
Record swap_ok (p : proc) : Prop := {
  sw_num : 0 <= p_num_swapped p <= MAX_SWAP_PAGES;
  sw_slot : forall i, 0 <= i < p_num_swapped p ->
    0 <= sp_slot (p_swapped_pages p i) < MAX_SWAP_PAGES /\
    p_swap_slots p (sp_slot (p_swapped_pages p i)) <> 0;
  sw_used : forall x, 0 <= x < MAX_SWAP_PAGES -> p_swap_slots p x <> 0 ->
    exists i, 0 <= i < p_num_swapped p /\ sp_slot (p_swapped_pages p i) = x;
  sw_inj : forall i j, 0 <= i < p_num_swapped p -> 0 <= j < p_num_swapped p ->
    sp_slot (p_swapped_pages p i) = sp_slot (p_swapped_pages p j) \/
    sp_va (p_swapped_pages p i) = sp_va (p_swapped_pages p j) -> i = j
}.

(** The resident set: distinct pages with distinct sequence numbers. *)
Record resident_ok (p : proc) : Prop := {
  rs_num : 0 <= p_num_resident p <= MAX_RESIDENT_PAGES;
  rs_seq : forall i, 0 <= i < p_num_resident p ->
    rp_seq (p_resident_pages p i) <= p_next_fifo_seq p;
  rs_inj : forall i j, 0 <= i < p_num_resident p -> 0 <= j < p_num_resident p ->
    rp_seq (p_resident_pages p i) = rp_seq (p_resident_pages p j) \/
    rp_va (p_resident_pages p i) = rp_va (p_resident_pages p j) -> i = j
}.

Definition user_va (va : Z) : Prop := aligned va /\ 0 <= va < TRAPFRAME.

Definition mapped (k : kmem) (r va : Z) : bool := has (lookup_pte (kmem_mem k) r va) PTE_V.

(** The swap file holds every slot in use, and is not the executable. *)
Definition swapfile_ok (p : proc) (f : fs) : Prop :=
  match p_swap_file p with
  | Some ip => ip <> p_exec_ip p /\
      forall x, 0 <= x < MAX_SWAP_PAGES -> p_swap_slots p x <> 0 ->
        (x + 1) * PGSIZE <= Z.of_nat (length (content f ip))
  | None => p_num_swapped p = 0
  end.

Record paging_ok (s : pstate) (own : gmap Z use) (free : list Z) : Prop := {
  pk_vm : vm_inv (ps_k s) own free;
  pk_upt : user_pt (kmem_mem (ps_k s)) own (p_pagetable (ps_p s));
  pk_fs : fs_ok (ps_fs s);
  pk_resident : resident_ok (ps_p s);
  pk_swap : swap_ok (ps_p s);
  pk_file : swapfile_ok (ps_p s) (ps_fs s);
  pk_mapped : forall i, 0 <= i < p_num_resident (ps_p s) ->
    let va := rp_va (p_resident_pages (ps_p s) i) in
    let e := lookup_pte (kmem_mem (ps_k s)) (p_pagetable (ps_p s)) va in
    user_va va /\ has e PTE_V = true /\ has e PTE_U = true;
  pk_swapped : forall i, 0 <= i < p_num_swapped (ps_p s) ->
    let va := sp_va (p_swapped_pages (ps_p s) i) in
    user_va va /\ mapped (ps_k s) (p_pagetable (ps_p s)) va = false
}.

(** ** Swap slots *)

Lemma seqZ_In n i : In i (seqZ 0 n) <-> 0 <= i < n.
Proof. rewrite <- list_elem_of_In. rewrite elem_of_seqZ. lia. Qed.

(** A free slot leaves room in the table. *)
Lemma swap_room p x : swap_ok p -> 0 <= x < MAX_SWAP_PAGES -> p_swap_slots p x = 0 ->
  p_num_swapped p < MAX_SWAP_PAGES.
Proof.
  intros [Hn Hs _ Hinj] Hx H0.
  set (l := x :: map (fun i => sp_slot (p_swapped_pages p i)) (seqZ 0 (p_num_swapped p))).
  assert (Hnd : List.NoDup l).
  { constructor.
    - rewrite in_map_iff. intros (i & Hi & Hin). apply seqZ_In in Hin. destruct (Hs i Hin). congruence.
    - apply NoDup_ListNoDup, NoDup_fmap_2_strong; [|apply NoDup_seqZ].
      intros i j Hi Hj He. apply elem_of_seqZ in Hi, Hj. apply Hinj; [lia|lia|by left]. }
  assert (Hincl : incl l (seqZ 0 MAX_SWAP_PAGES)).
  { intros y [<-|Hy]; [by apply seqZ_In|]. apply in_map_iff in Hy as (i & <- & Hin).
    apply seqZ_In in Hin. apply seqZ_In. by apply Hs. }
  pose proof (NoDup_incl_length Hnd Hincl) as Hlen. unfold l in Hlen. simpl in Hlen.
  rewrite length_map, !length_seqZ in Hlen. unfold MAX_SWAP_PAGES in *. lia.
Qed.

Lemma swap_allocated_slot_spec s :
  swap_allocated_slot s =
  match scan (fun i => p_swap_slots (ps_p s) i =? 0) MAX_SWAP_PAGES with
  | Some i => Ret i (put_p (set_slots (upd (p_swap_slots (ps_p s)) i 1) (ps_p s)) s)
  | None => Ret (-1) s
  end.
Proof.
  unfold swap_allocated_slot, bind, myproc, gets. destruct (scan _ _); done.
Qed.

(** ** Writing a page out *)

(** The bytes of the user page at [va]. *)
Definition page_bytes (k : kmem) (r va : Z) : list Z :=
  bytes_at (kmem_mem k) (PTE2PA (lookup_pte (kmem_mem k) r va)) (Z.to_nat PGSIZE).

Lemma length_page_bytes k r va : length (page_bytes k r va) = Z.to_nat PGSIZE.
Proof. apply length_bytes_at. Qed.

Definition slot_bytes (f : fs) (ip slot : Z) : list Z :=
  take (Z.to_nat PGSIZE) (drop (Z.to_nat (slot * PGSIZE)) (content f ip)).

(** The swap file offset of a slot fits the [uint] parameter. *)
Lemma slot_off slot : 0 <= slot < MAX_SWAP_PAGES -> u32 (i32 (slot * PGSIZE)) = slot * PGSIZE.
Proof. unfold MAX_SWAP_PAGES, PGSIZE. intros. rewrite i32_small, u32_small; lia. Qed.

(** The lowest free slot starts inside the swap file or at its end. *)
Lemma slot_reachable p f ip slot :
  swapfile_ok p f -> p_swap_file p = Some ip ->
  scan (fun i => p_swap_slots p i =? 0) MAX_SWAP_PAGES = Some slot ->
  0 <= slot < MAX_SWAP_PAGES /\ p_swap_slots p slot = 0 /\
  slot * PGSIZE <= Z.of_nat (length (content f ip)).
Proof.
  intros Hf Hip Hs. apply scan_Some in Hs as (Hr & Hz & Hlow). apply Z.eqb_eq in Hz.
  split_and!; [lia..|done|]. unfold swapfile_ok in Hf. rewrite Hip in Hf. destruct Hf as [_ Hf].
  destruct (Z.eq_dec slot 0) as [->|]; [lia|].
  specialize (Hlow (slot - 1) ltac:(lia)). apply Z.eqb_neq in Hlow.
  specialize (Hf (slot - 1) ltac:(lia) Hlow). replace (slot - 1 + 1) with slot in Hf by lia. done.
Qed.

(** The process after page [va] got [slot]. *)
Definition swapped_out (p : proc) (va slot : Z) : proc :=
  set_swapped (upd (p_swapped_pages p) (p_num_swapped p) (mk_sp va slot)) (p_num_swapped p + 1)
    (set_slots (upd (p_swap_slots p) slot 1) p).

Definition swap_out_post (s : pstate) (va : Z) (s' : pstate) : Prop := exists ip slot,
  p_swap_file (ps_p s) = Some ip /\
  scan (fun i => p_swap_slots (ps_p s) i =? 0) MAX_SWAP_PAGES = Some slot /\
  ps_k s' = ps_k s /\ ps_p s' = swapped_out (ps_p s) va slot /\ fs_ok (ps_fs s') /\
  (forall j, j <> ip -> content (ps_fs s') j = content (ps_fs s) j) /\
  content (ps_fs s') ip = splice (Z.to_nat (slot * PGSIZE))
    (page_bytes (ps_k s) (p_pagetable (ps_p s)) va) (content (ps_fs s) ip) /\
  ps_log s' = ps_log s ++ [EVICT (p_pid (ps_p s)) va true; SWAPOUT (p_pid (ps_p s)) va slot].

(** Why an eviction ends the process. *)
Definition swap_exit (s : pstate) (st : Z) (s' : pstate) : Prop :=
  st = -1 /\
  ((forall x, 0 <= x < MAX_SWAP_PAGES -> p_swap_slots (ps_p s) x <> 0) \/
   WRITE_FAILED (p_pid (ps_p s)) ∈ ps_log s').

Lemma swap_write_ok s ip slot pa :
  fs_ok (ps_fs s) -> p_swap_file (ps_p s) = Some ip -> 0 <= slot < MAX_SWAP_PAGES ->
  slot * PGSIZE <= Z.of_nat (length (content (ps_fs s) ip)) ->
  returns (swap_write_page slot pa s) (fun r s' => exists f, s' = put_fs f s /\ fs_ok f /\
    (forall j, j <> ip -> content f j = content (ps_fs s) j) /\
    (r = -1 \/ r = 0 /\ content f ip = splice (Z.to_nat (slot * PGSIZE))
       (bytes_at (kmem_mem (ps_k s)) pa (Z.to_nat PGSIZE)) (content (ps_fs s) ip))).
Proof.
  intros Hfs Hip Hslot Hreach. unfold swap_write_page.
  rewrite (bind_ret myproc (ps_p s) s s _ eq_refl), Hip, (bind_ret get s s s _ eq_refl), slot_off by done.
  eapply bind_returns; [apply file_returns, writei_spec; [done|]|].
  - split; [unfold PGSIZE; lia|done].
  - intros r s' (f & -> & Hf & Hoth & Hdone). exists f. split_and!; [done|done|done|].
    rewrite length_bytes_at in Hdone. destruct (Z.eqb_spec r PGSIZE) as [->|]; [|by left].
    right. split; [done|]. by apply Hdone.
Qed.

Lemma swap_out_ok s own free va :
  paging_ok s own free -> user_va va ->
  (let e := lookup_pte (kmem_mem (ps_k s)) (p_pagetable (ps_p s)) va in
   has e PTE_V = true /\ has e PTE_U = true) ->
  ends (swap_out va s) (fun _ s' => swap_out_post s va s') (swap_exit s).
Proof.
  intros Hok [Hal Hva] [Hv Hu]. assert (TRAPFRAME < MAXVA) by done.
  set (p := ps_p s) in *. unfold swap_out.
  rewrite (bind_ret myproc p s s _ eq_refl), (bind_ret (printf _) tt s _ _ eq_refl). fold p.
  unfold bind at 1. rewrite swap_allocated_slot_spec. cbn [ps_p]. fold p.
  destruct (scan (fun i => p_swap_slots p i =? 0) MAX_SWAP_PAGES) as [slot|] eqn:Hscan.
  2: { simpl. split; [done|]. left. intros x Hx. by apply Z.eqb_neq, (scan_None _ _ Hscan x Hx). }
  pose proof (scan_Some _ _ _ Hscan) as (Hslot & Hz & _). apply Z.eqb_eq in Hz.
  destruct (Z.eqb_spec slot (-1)); [lia|]. rewrite (bind_ret (printf _) tt _ _ _ eq_refl).
  set (s2 := mk_ps _ _ _ _).
  assert (Hwa : walkaddr (p_pagetable p) va (ps_k s2) =
                Ret (PTE2PA (lookup_pte (kmem_mem (ps_k s)) (p_pagetable p) va)) (ps_k s2)).
  { change (ps_k s2) with (ps_k s). rewrite (walkaddr_ok (ps_k s) own free); [|apply Hok|apply Hok|lia].
    fold p. rewrite Hv, Hu. destruct (Z.ltb_spec va MAXVA); [done|lia]. }
  rewrite (bind_ret _ _ _ _ _ (vm_read _ _ _ Hwa)).
  assert (Hsf : p_swap_file (ps_p s2) = p_swap_file p) by (unfold s2; simpl; by destruct p).
  destruct (p_swap_file p) as [ip|] eqn:Hip.
  2: { unfold swap_write_page, bind, myproc, gets. rewrite Hsf. simpl. split; [done|]. right.
       apply elem_of_app. right. by apply list_elem_of_singleton. }
  destruct (slot_reachable p (ps_fs s) ip slot) as (_ & _ & Hreach); [apply Hok|done|done|].
  eapply bind_ends; [apply returns_ends, (swap_write_ok s2 ip slot); [apply Hok|done|done|exact Hreach]|].
  intros r s3 (f & -> & Hf & Hoth & Hr).
  destruct Hr as [->|[-> Hc]]; simpl.
  { split; [done|]. right. apply elem_of_app. right. by apply list_elem_of_singleton. }
  assert (Hn : p_num_swapped (set_slots (upd (p_swap_slots p) slot 1) p) = p_num_swapped p) by (by destruct p).
  pose proof (swap_room p slot (pk_swap _ _ _ Hok) Hslot Hz). pose proof (sw_num _ (pk_swap _ _ _ Hok)).
  unfold bind, myproc, gets. simpl. fold p in H1. rewrite Hn. fold p.
  destruct (Z.leb_spec 0 (p_num_swapped p)), (Z.ltb_spec (p_num_swapped p) MAX_SWAP_PAGES); try lia. simpl.
  exists ip, slot. split_and!; try done.
  - unfold swapped_out, p. by destruct (ps_p s).
  - simpl. by rewrite <- app_assoc.
Qed.

(** ** Bookkeeping of an eviction *)

Definition unresident (p : proc) (v : Z) : proc :=
  set_resident (remove_at (p_resident_pages p) (p_num_resident p) v) (p_num_resident p - 1) p.

Lemma unresident_ok p v : resident_ok p -> 0 <= v < p_num_resident p -> resident_ok (unresident p v).
Proof.
  intros [Hn Hs Hi] Hv. destruct p; simpl in *. constructor; simpl.
  - lia.
  - intros i Hx. rewrite remove_at_from. apply Hs. by apply moved_range.
  - intros i j Hx Hy. rewrite !remove_at_from. intros He.
    eapply moved_inj; [done|done|]. by apply Hi; try apply moved_range.
Qed.

Lemma swapped_out_ok p va slot :
  swap_ok p -> 0 <= slot < MAX_SWAP_PAGES -> p_swap_slots p slot = 0 ->
  (forall i, 0 <= i < p_num_swapped p -> sp_va (p_swapped_pages p i) <> va) ->
  swap_ok (swapped_out p va slot).
Proof.
  intros Hok Hslot Hz Hva. pose proof (swap_room p slot Hok Hslot Hz). destruct Hok as [Hn Hs Hu Hi].
  assert (Hne : forall i, 0 <= i < p_num_swapped p -> sp_slot (p_swapped_pages p i) <> slot).
  { intros i Hx He. destruct (Hs i Hx). congruence. }
  destruct p; unfold swapped_out; simpl in *. constructor; simpl.
  - lia.
  - intros i Hx. destruct (Z.eq_dec i p_num_swapped) as [->|].
    + rewrite upd_eq. simpl. by rewrite upd_eq.
    + rewrite upd_ne by done. rewrite upd_ne by (apply Hne; lia). apply Hs. lia.
  - intros x Hx. destruct (Z.eq_dec x slot) as [->|].
    + intros _. exists p_num_swapped. rewrite upd_eq. split; [lia|done].
    + rewrite upd_ne by done. intros Hx'. destruct (Hu x Hx Hx') as (i & ? & ?). exists i.
      rewrite upd_ne by lia. split; [lia|done].
  - intros i j Hx Hy. destruct (Z.eq_dec i p_num_swapped) as [->|], (Z.eq_dec j p_num_swapped) as [->|];
      rewrite ?upd_eq, ?(upd_ne _ p_num_swapped) by done; simpl; [done| | |].
    + intros [He|He]; exfalso; [apply (Hne j)|apply (Hva j)]; (lia || done).
    + intros [He|He]; exfalso; [apply (Hne i)|apply (Hva i)]; (lia || done).
    + apply Hi; lia.
Qed.

Lemma swapped_out_file p f f' va slot ip bs :
  swapfile_ok p f -> p_swap_file p = Some ip -> 0 <= slot < MAX_SWAP_PAGES ->
  slot * PGSIZE <= Z.of_nat (length (content f ip)) -> length bs = Z.to_nat PGSIZE ->
  content f' ip = splice (Z.to_nat (slot * PGSIZE)) bs (content f ip) ->
  swapfile_ok (swapped_out p va slot) f'.
Proof.
  unfold swapfile_ok. intros Hf Hip Hslot Hreach Hlen Hc. rewrite Hip in Hf. destruct Hf as [Hne Hf].
  destruct p; simpl in *. subst p_swap_file. split; [done|]. intros x Hx.
  rewrite Hc, splice_length, Hlen by (unfold PGSIZE in *; lia).
  destruct (Z.eq_dec x slot) as [->|]; [unfold PGSIZE in *; lia|].
  rewrite upd_ne by done. intros Hu. specialize (Hf x Hx Hu). unfold PGSIZE in *. lia.
Qed.

(** The slots other than the one just written keep their contents. *)
Lemma slot_bytes_splice f f' ip slot bs x :
  0 <= slot < MAX_SWAP_PAGES -> slot * PGSIZE <= Z.of_nat (length (content f ip)) ->
  length bs = Z.to_nat PGSIZE ->
  content f' ip = splice (Z.to_nat (slot * PGSIZE)) bs (content f ip) ->
  slot_bytes f' ip slot = bs /\
  (0 <= x < MAX_SWAP_PAGES -> x <> slot -> (x + 1) * PGSIZE <= Z.of_nat (length (content f ip)) ->
   slot_bytes f' ip x = slot_bytes f ip x).
Proof.
  intros Hslot Hreach Hlen Hc. unfold slot_bytes. rewrite Hc. split.
  - rewrite <- Hlen. apply splice_read. lia.
  - intros Hx Hne Hin. apply splice_other; unfold PGSIZE in *; lia.
Qed.

Lemma vpn_user_inj a b : aligned a -> aligned b -> vpn a = vpn b -> a = b.
Proof. unfold aligned, vpn, PGSIZE. zlia. Qed.

(** The last steps of an eviction: the page of entry [v] is unmapped and the
    entry removed.  [s] is the state before them, in which the page may already
    be listed as swapped. *)
Lemma evict_tail s own free v k' own' free' freed :
  let p := ps_p s in
  let va := rp_va (p_resident_pages p v) in
  user_pt (kmem_mem (ps_k s)) own (p_pagetable p) ->
  fs_ok (ps_fs s) -> resident_ok p -> swap_ok p -> swapfile_ok p (ps_fs s) ->
  0 <= v < p_num_resident p ->
  (forall i, 0 <= i < p_num_resident p ->
    let va := rp_va (p_resident_pages p i) in
    let e := lookup_pte (kmem_mem (ps_k s)) (p_pagetable p) va in
    user_va va /\ has e PTE_V = true /\ has e PTE_U = true) ->
  (forall i, 0 <= i < p_num_swapped p -> let va' := sp_va (p_swapped_pages p i) in
    user_va va' /\ (va' = va \/ mapped (ps_k s) (p_pagetable p) va' = false)) ->
  unmaps (ps_k s) own free (p_pagetable p) (fun n => n = vpn va) k' own' free' freed ->
  paging_ok (put_p (unresident p v) (put_k k' s)) own' free'.
Proof.
  intros p va Hu Hf Hr Hsw Hfile Hv Hm Hs U. assert (TRAPFRAME < MAXVA) by done.
  assert (Hpt : p_pagetable (unresident p v) = p_pagetable p) by (by destruct p).
  assert (Hnr : p_num_resident (unresident p v) = p_num_resident p - 1) by (by destruct p).
  assert (Hrp : p_resident_pages (unresident p v) = remove_at (p_resident_pages p) (p_num_resident p) v) by (by destruct p).
  constructor; cbn [ps_p ps_k ps_fs put_p put_k].
  - apply U.
  - rewrite Hpt. apply U.
  - done.
  - by apply unresident_ok.
  - destruct Hsw as [S1 S2 S3 S4]. destruct p; by constructor.
  - unfold swapfile_ok in *. by destruct p.
  - intros i Hi. rewrite Hnr in Hi. rewrite Hrp, remove_at_from, Hpt. cbn zeta.
    destruct (moved_range (p_num_resident p) v i Hv Hi) as [Hmr Hmv].
    destruct (Hm _ Hmr) as ([Hal Hrange] & HV & HU). split; [done|].
    rewrite (um_lookup _ _ _ _ _ _ _ _ _ U); [done|apply Hu|lia|].
    intros [_ Hd]. apply Hmv. apply (rs_inj _ Hr); [done|done|]. right.
    apply vpn_user_inj; [done|by apply Hm|done].
  - intros i Hi. assert (Hi' : 0 <= i < p_num_swapped p) by (by destruct p).
    assert (Hsp : p_swapped_pages (unresident p v) = p_swapped_pages p) by (by destruct p).
    rewrite Hsp, Hpt. cbn zeta. destruct (Hs i Hi') as ([Hal Hrange] & Hc). split; [done|].
    unfold mapped in *. destruct (decide (vpn (sp_va (p_swapped_pages p i)) = vpn va)) as [Hd|Hd].
    + by apply (um_gone _ _ _ _ _ _ _ _ _ U).
    + rewrite (um_lookup _ _ _ _ _ _ _ _ _ U); [|apply Hu|lia|by intros [_ ?]].
      destruct Hc as [Heq|?]; [congruence|done].
Qed.

(** The state an eviction leaves. *)
Record evicted (s : pstate) (own : gmap Z use) (free : list Z) (s' : pstate) (own' : gmap Z use)
    (free' : list Z) : Prop := {
  ev_ok : paging_ok s' own' free';
  ev_unmaps : exists freed, freed <> [] /\
    unmaps (ps_k s) own free (p_pagetable (ps_p s))
      (fun n => n = vpn (rp_va (p_resident_pages (ps_p s) (victim_inx (ps_p s))))) (ps_k s') own' free' freed;
  ev_proc : let p := ps_p s in let v := victim_inx p in
    let va := rp_va (p_resident_pages p v) in
    if rp_dirty (p_resident_pages p v) =? 0
    then ps_p s' = unresident p v /\ ps_fs s' = ps_fs s
    else exists ip slot, p_swap_file p = Some ip /\
      scan (fun i => p_swap_slots p i =? 0) MAX_SWAP_PAGES = Some slot /\
      ps_p s' = unresident (swapped_out p va slot) v /\
      slot_bytes (ps_fs s') ip slot = page_bytes (ps_k s) (p_pagetable p) va /\
      (forall j, j <> ip -> content (ps_fs s') j = content (ps_fs s) j) /\
      (forall x, 0 <= x < MAX_SWAP_PAGES -> p_swap_slots p x <> 0 ->
         slot_bytes (ps_fs s') ip x = slot_bytes (ps_fs s) ip x)
}.

Lemma paging_ok_log s own free log :
  paging_ok s own free -> paging_ok (mk_ps (ps_k s) (ps_p s) (ps_fs s) log) own free.
Proof. intros [? ? ? ? ? ? ? ?]. by constructor. Qed.

(** Between the choice of the victim and its unmapping. *)
Record saved (s s' : pstate) (v : Z) : Prop := {
  sv_k : ps_k s' = ps_k s;
  sv_fs : fs_ok (ps_fs s');
  sv_swap : swap_ok (ps_p s');
  sv_file : swapfile_ok (ps_p s') (ps_fs s');
  sv_entries : forall i, 0 <= i < p_num_swapped (ps_p s') ->
    let va' := sp_va (p_swapped_pages (ps_p s') i) in
    user_va va' /\ (va' = rp_va (p_resident_pages (ps_p s) v) \/
                    mapped (ps_k s) (p_pagetable (ps_p s)) va' = false);
  sv_proc : let p := ps_p s in let va := rp_va (p_resident_pages p v) in
    if rp_dirty (p_resident_pages p v) =? 0 then ps_p s' = p /\ ps_fs s' = ps_fs s
    else exists ip slot, p_swap_file p = Some ip /\
      scan (fun i => p_swap_slots p i =? 0) MAX_SWAP_PAGES = Some slot /\
      ps_p s' = swapped_out p va slot /\
      slot_bytes (ps_fs s') ip slot = page_bytes (ps_k s) (p_pagetable p) va /\
      (forall j, j <> ip -> content (ps_fs s') j = content (ps_fs s) j) /\
      (forall x, 0 <= x < MAX_SWAP_PAGES -> p_swap_slots p x <> 0 ->
         slot_bytes (ps_fs s') ip x = slot_bytes (ps_fs s) ip x)
}.

Lemma swapped_out_entries p va slot i : 0 <= i < p_num_swapped (swapped_out p va slot) ->
  i = p_num_swapped p /\ p_swapped_pages (swapped_out p va slot) i = mk_sp va slot \/
  0 <= i < p_num_swapped p /\ p_swapped_pages (swapped_out p va slot) i = p_swapped_pages p i.
Proof.
  destruct p; simpl. intros Hi. destruct (Z.eq_dec i p_num_swapped) as [->|].
  - left. by rewrite upd_eq.
  - right. rewrite upd_ne by done. split; [lia|done].
Qed.

Lemma evict_save s own free v (log : list event) :
  paging_ok s own free -> 0 <= v < p_num_resident (ps_p s) ->
  let p := ps_p s in let va := rp_va (p_resident_pages p v) in
  ends ((if negb (rp_dirty (p_resident_pages p v) =? 0) then swap_out va
         else printf (EVICT (p_pid p) va false) ;;; printf (DISCARD (p_pid p) va))
          (mk_ps (ps_k s) p (ps_fs s) log))
    (fun _ s' => saved s s' v) (swap_exit s).
Proof.
  intros Hok Hv p va. pose proof (pk_mapped _ _ _ Hok v Hv) as (Huva & HV & HU). fold p va in Huva, HV, HU.
  destruct (rp_dirty (p_resident_pages p v) =? 0) eqn:Hd; cbn [negb].
  { simpl. constructor; simpl; try done; try apply Hok.
    - intros i Hi. destruct (pk_swapped _ _ _ Hok i Hi). split; [done|]. by right.
    - fold p. rewrite Hd. done. }
  eapply ends_mono; [apply (swap_out_ok _ own free va (paging_ok_log s own free log Hok)); done| |done].
  intros _ s' (ip & slot & Hip & Hscan & Hk & Hp & Hfs & Hoth & Hc & _). cbn [ps_k ps_p ps_fs] in *. fold p in Hip, Hscan, Hp, Hc.
  destruct (slot_reachable p (ps_fs s) ip slot) as (Hslot & Hz & Hreach); [apply Hok|done|done|].
  pose proof (length_page_bytes (ps_k s) (p_pagetable p) va) as Hlen.
  assert (Hnot : forall i, 0 <= i < p_num_swapped p -> sp_va (p_swapped_pages p i) <> va).
  { intros i Hi He. destruct (pk_swapped _ _ _ Hok i Hi) as [_ Hm]. unfold mapped in Hm. fold p in Hm. congruence. }
  constructor.
  - exact Hk.
  - exact Hfs.
  - rewrite Hp. apply swapped_out_ok; [apply Hok|assumption..].
  - rewrite Hp. eapply swapped_out_file; [apply Hok|eassumption..].
  - intros i Hi. rewrite Hp in *. destruct (swapped_out_entries p va slot i Hi) as [[-> ->]|[Hi' ->]].
    + split; [done|by left].
    + destruct (pk_swapped _ _ _ Hok i Hi'). split; [done|by right].
  - cbn zeta. fold p. rewrite Hd. exists ip, slot. split; [exact Hip|]. split; [exact Hscan|]. split; [exact Hp|].
    split_and!; [|exact Hoth|].
    + by apply (slot_bytes_splice (ps_fs s) (ps_fs s') ip slot _ 0 Hslot Hreach Hlen Hc).
    + intros x Hx Hused. apply (slot_bytes_splice (ps_fs s) (ps_fs s') ip slot _ x Hslot Hreach Hlen Hc); [done| |].
      * intros ->. fold p in Hused. congruence.
      * pose proof (pk_file _ _ _ Hok) as Hfile. unfold swapfile_ok in Hfile. fold p in Hfile. rewrite Hip in Hfile.
        by apply Hfile.
Qed.

Lemma evict_page_ok s own free :
  paging_ok s own free -> 0 < p_num_resident (ps_p s) ->
  ends (evict_page s) (fun r s' => r = 0 /\ exists own' free', evicted s own free s' own' free')
    (swap_exit s).
Proof.
  intros Hok Hn. set (p := ps_p s) in *. destruct (victim_inx_spec p Hn) as [Hv _].
  unfold evict_page. rewrite (bind_ret myproc p s s _ eq_refl).
  rewrite (bind_ret (printf _) tt s _ _ eq_refl), (bind_ret (printf _) tt _ _ _ eq_refl).
  set (v := victim_inx p) in *. fold p.
  eapply bind_ends; [apply (evict_save s own free v _ Hok Hv)|]. intros [] s1 Hsv. cbn [ps_k ps_p ps_fs ps_log].
  pose proof (pk_mapped _ _ _ Hok v Hv) as ((Hal & Hrange) & HV & HU). fold p in Hal, Hrange, HV, HU.
  set (va := rp_va (p_resident_pages p v)) in *.
  assert (Hb : va + 1 * PGSIZE <= TRAPFRAME).
  { change TRAPFRAME with (67108862 * 4096) in *. unfold aligned, PGSIZE in *. zlia. }
  assert (Hu1 : returns (uvmunmap (p_pagetable p) va 1 true (ps_k s1)) (fun _ k => exists own' free' freed,
    unmaps (ps_k s) own free (p_pagetable p) (fun n => vpn va <= n < vpn va + 1) k own' free' freed)).
  { rewrite (sv_k _ _ _ Hsv). apply uvmunmap_free; [exact (pk_vm _ _ _ Hok)|exact (pk_upt _ _ _ Hok)|done|lia|lia|done]. }
  eapply bind_ends; [apply returns_ends, vm_returns, Hu1|].
  intros _ s2 (k' & -> & own' & free' & freed & U).
  assert (U' : unmaps (ps_k s) own free (p_pagetable p) (fun n => n = vpn va) k' own' free' freed)
    by (eapply unmaps_iff; [|exact U]; simpl; lia).
  destruct (Z.ltb_spec (p_num_resident p - 1) 0); [lia|]. simpl. split; [done|]. exists own', free'.
  assert (Hsame : p_resident_pages (ps_p s1) = p_resident_pages p /\ p_num_resident (ps_p s1) = p_num_resident p /\
    p_pagetable (ps_p s1) = p_pagetable p /\ p_next_fifo_seq (ps_p s1) = p_next_fifo_seq p).
  { pose proof (sv_proc _ _ _ Hsv) as Hp. cbn zeta in Hp. fold p in Hp. destruct (rp_dirty (p_resident_pages p v) =? 0).
    - by destruct Hp as [-> _].
    - destruct Hp as (ip & slot & _ & _ & -> & _). by destruct p. }
  destruct Hsame as (E1 & E2 & E3 & E4). constructor.
  - pose proof (evict_tail s1 own free v k' own' free' freed) as Ht. cbn zeta in Ht.
    rewrite E1, E2, E3, (sv_k _ _ _ Hsv) in Ht. apply Ht; try apply Hsv; try apply Hok; try done.
    destruct (pk_resident _ _ _ Hok) as [R1 R2 R3]. constructor; rewrite ?E1, ?E2, ?E4; done.
  - exists freed. split; [|done]. intros ->.
    pose proof (upt_map _ _ _ (pk_upt _ _ _ Hok) va Hrange HV) as Hf.
    assert (Hin : PTE2PA (lookup_pte (kmem_mem (ps_k s)) (p_pagetable p) va) ∈ @nil Z).
    { apply (um_freed _ _ _ _ _ _ _ _ _ U'). eauto. }
    by apply elem_of_nil in Hin.
  - pose proof (sv_proc _ _ _ Hsv) as Hp. cbn zeta in *. fold p in Hp |- *. fold v. cbn [ps_p ps_fs put_p put_k] in *.
    destruct (rp_dirty (p_resident_pages p v) =? 0).
    + destruct Hp as [-> ->]. done.
    + destruct Hp as (ip & slot & ? & ? & -> & ? & ? & ?). exists ip, slot. done.
Qed.

(** * Page faults *)

(** ** How the invariant survives the handler's steps *)

Lemma paging_ok_fs s own free f : paging_ok s own free -> fs_ok f ->
  (forall j, content f j = content (ps_fs s) j) -> paging_ok (put_fs f s) own free.
Proof.
  intros [? ? ? ? ? Hf ? ?] Hfs Hc. constructor; try done.
  unfold swapfile_ok in *. simpl. destruct (p_swap_file (ps_p s)); [|done]. by rewrite Hc.
Qed.

(** Adding frames to the page table at pages that are neither resident nor
    swapped. *)
Lemma paging_ok_adds s own free D k' own' free' :
  paging_ok s own free -> adds (ps_k s) own free (p_pagetable (ps_p s)) D k' own' free' ->
  (forall va, D (vpn va) -> user_va va -> mapped (ps_k s) (p_pagetable (ps_p s)) va = false /\
     forall i, 0 <= i < p_num_swapped (ps_p s) -> sp_va (p_swapped_pages (ps_p s) i) <> va) ->
  paging_ok (put_k k' s) own' free'.
Proof.
  intros Hok A HD. assert (TRAPFRAME < MAXVA) by done.
  assert (Hl : forall va, user_va va -> ~ D (vpn va) ->
    lookup_pte (kmem_mem k') (p_pagetable (ps_p s)) va = lookup_pte (kmem_mem (ps_k s)) (p_pagetable (ps_p s)) va).
  { intros va [_ Hva] Hn. apply (ad_lookup _ _ _ _ _ _ _ _ A); [apply (pk_upt _ _ _ Hok)|lia|tauto]. }
  constructor; try apply A; try apply Hok.
  - intros i Hi. simpl. destruct (pk_mapped _ _ _ Hok i Hi) as (Hu & HV & HU). split; [done|].
    rewrite Hl; [done|done|]. intros Hd. destruct (HD _ Hd Hu) as [Hm _]. unfold mapped in Hm. congruence.
  - intros i Hi. simpl. destruct (pk_swapped _ _ _ Hok i Hi) as (Hu & Hm). split; [done|].
    unfold mapped. rewrite Hl; [done|done|]. intros Hd. by apply (HD _ Hd Hu) in Hi.
Qed.

(** The process after the swap entry [i] was taken. *)
Definition swapped_in (p : proc) (i : Z) : proc :=
  set_slots (upd (p_swap_slots p) (sp_slot (p_swapped_pages p i)) 0)
    (set_swapped (remove_at (p_swapped_pages p) (p_num_swapped p) i) (p_num_swapped p - 1) p).

Lemma swapped_in_ok p i : swap_ok p -> 0 <= i < p_num_swapped p -> swap_ok (swapped_in p i).
Proof.
  intros [Hn Hs Hu Hinj] Hi. destruct p; unfold swapped_in; simpl in *. constructor; simpl.
  - lia.
  - intros j Hj. rewrite remove_at_from. destruct (moved_range p_num_swapped i j Hi Hj) as [Hr Hne].
    rewrite upd_ne; [by apply Hs|]. intros He. apply Hne, Hinj; [done|done|by left].
  - intros x Hx. destruct (Z.eq_dec x (sp_slot (p_swapped_pages i))) as [->|]; [by rewrite upd_eq|].
    rewrite upd_ne by done. intros Hx'. destruct (Hu x Hx Hx') as (j & Hj & <-).
    destruct (moved_onto p_num_swapped i j Hi Hj) as (m & Hm & Hmv); [congruence|].
    exists m. by rewrite remove_at_from, Hmv.
  - intros a b Ha Hb. rewrite !remove_at_from. intros He. eapply moved_inj; [done|done|].
    apply Hinj; try apply moved_range; done.
Qed.

Lemma paging_ok_swapped_in s own free i :
  paging_ok s own free -> 0 <= i < p_num_swapped (ps_p s) ->
  paging_ok (put_p (swapped_in (ps_p s) i) s) own free /\
  (forall j, 0 <= j < p_num_swapped (swapped_in (ps_p s) i) ->
     sp_va (p_swapped_pages (swapped_in (ps_p s) i) j) <> sp_va (p_swapped_pages (ps_p s) i)).
Proof.
  intros [O1 O2 O3 O4 O5 O6 O7 O8] Hi. set (p := ps_p s) in *.
  assert (Hpt : p_pagetable (swapped_in p i) = p_pagetable p) by (by destruct p).
  assert (Hn : p_num_swapped (swapped_in p i) = p_num_swapped p - 1) by (by destruct p).
  assert (Hsp : p_swapped_pages (swapped_in p i) = remove_at (p_swapped_pages p) (p_num_swapped p) i) by (by destruct p).
  split.
  - constructor; cbn [ps_k ps_p ps_fs put_p]; rewrite ?Hpt; try done.
    + destruct O4. by destruct p.
    + by apply swapped_in_ok.
    + unfold swapfile_ok in *. destruct p; simpl in *. destruct p_swap_file as [ip|]; [|lia].
      destruct O6 as [? Hf]. split; [done|]. intros x Hx. unfold upd. destruct (x =? _); [done|]. by apply Hf.
    + intros j Hj. destruct p; apply O7; exact Hj.
    + intros j Hj. rewrite Hn in Hj. rewrite Hsp, remove_at_from. cbn zeta.
      apply O8. by apply moved_range.
  - intros j Hj. rewrite Hn in Hj. rewrite Hsp, remove_at_from. intros He.
    destruct (moved_range (p_num_swapped p) i j Hi Hj) as [Hr Hne]. apply Hne.
    apply (sw_inj _ O5); [done|done|by right].
Qed.

Definition add_resident (p : proc) (va dirty : Z) : proc :=
  set_seq (p_next_fifo_seq p + 1)
    (set_resident (upd (p_resident_pages p) (p_num_resident p) (mk_rp va (p_next_fifo_seq p + 1) dirty))
       (p_num_resident p + 1) p).

Lemma add_resident_ok p va dirty : resident_ok p -> p_num_resident p < MAX_RESIDENT_PAGES ->
  (forall i, 0 <= i < p_num_resident p -> rp_va (p_resident_pages p i) <> va) ->
  resident_ok (add_resident p va dirty).
Proof.
  intros [Hn Hs Hi] Hlt Hne. destruct p; unfold add_resident; simpl in *. constructor; simpl.
  - lia.
  - intros i Hx. destruct (Z.eq_dec i p_num_resident) as [->|]; [by rewrite upd_eq|].
    rewrite upd_ne by done. specialize (Hs i ltac:(lia)). lia.
  - intros i j Hx Hy.
    destruct (Z.eq_dec i p_num_resident) as [->|], (Z.eq_dec j p_num_resident) as [->|];
      rewrite ?upd_eq, ?(upd_ne _ p_num_resident) by done; simpl; [done| | |].
    + intros [He|He]; exfalso; [specialize (Hs j ltac:(lia)); lia|by apply (Hne j); [lia|]].
    + intros [He|He]; exfalso; [specialize (Hs i ltac:(lia)); lia|by apply (Hne i); [lia|]].
    + apply Hi; lia.
Qed.

Lemma paging_ok_add s own free va dirty :
  paging_ok s own free -> p_num_resident (ps_p s) < MAX_RESIDENT_PAGES -> user_va va ->
  (let e := lookup_pte (kmem_mem (ps_k s)) (p_pagetable (ps_p s)) va in
   has e PTE_V = true /\ has e PTE_U = true) ->
  (forall i, 0 <= i < p_num_resident (ps_p s) -> rp_va (p_resident_pages (ps_p s) i) <> va) ->
  paging_ok (put_p (add_resident (ps_p s) va dirty) s) own free.
Proof.
  intros [O1 O2 O3 O4 O5 O6 O7 O8] Hlt Hva He Hne. set (p := ps_p s) in *.
  constructor; cbn [ps_k ps_p ps_fs put_p]; try done.
  - by destruct p.
  - by apply add_resident_ok.
  - destruct O5. by destruct p.
  - unfold swapfile_ok in *. by destruct p.
  - intros i Hi. unfold add_resident in *. destruct p; simpl in *.
    destruct (Z.eq_dec i p_num_resident) as [->|]; [by rewrite upd_eq|]. rewrite upd_ne by done. apply O7. lia.
  - intros i Hi. destruct p; apply O8; exact Hi.
Qed.

Definition resident_exit (p : proc) (st : Z) : Prop := st = -1 /\ MAX_RESIDENT_PAGES <= p_num_resident p.

Lemma add_to_resident_set_ok s own free va dirty :
  paging_ok s own free -> user_va va ->
  (let e := lookup_pte (kmem_mem (ps_k s)) (p_pagetable (ps_p s)) va in
   has e PTE_V = true /\ has e PTE_U = true) ->
  (forall i, 0 <= i < p_num_resident (ps_p s) -> rp_va (p_resident_pages (ps_p s) i) <> va) ->
  0 <= p_next_fifo_seq (ps_p s) < 2 ^ 31 - 1 ->
  ends (add_to_resident_set va dirty s)
    (fun _ s' => paging_ok s' own free /\ ps_k s' = ps_k s /\ ps_fs s' = ps_fs s /\
       ps_p s' = add_resident (ps_p s) va dirty)
    (fun st _ => resident_exit (ps_p s) st).
Proof.
  intros Hok Hva He Hne Hseq. unfold add_to_resident_set. rewrite (bind_ret myproc (ps_p s) s s _ eq_refl).
  destruct (Z.leb_spec MAX_RESIDENT_PAGES (p_num_resident (ps_p s))); [done|].
  destruct (Z.ltb_spec (p_num_resident (ps_p s)) 0).
  { pose proof (rs_num _ (pk_resident _ _ _ Hok)). lia. }
  rewrite i32_small by lia. simpl.
  assert (Hp : forall p : proc, set_seq (p_next_fifo_seq p + 1)
    (set_resident (upd (p_resident_pages p) (p_num_resident p) (mk_rp va (p_next_fifo_seq p + 1) dirty))
       (p_num_resident p + 1) p) = add_resident p va dirty) by done.
  rewrite Hp. split_and!; try done.
  apply (paging_ok_log (put_p (add_resident (ps_p s) va dirty) s)). by apply paging_ok_add.
Qed.

(** ** Mapping the new page *)

(** The frame [m] was taken from the allocator since the state [s]; the
    machine is in [put_k k2 s]. *)
Definition taken (s : pstate) (own : gmap Z use) (free : list Z) (k2 : kmem) (free2 : list Z) (m : Z) : Prop :=
  paging_ok s own free /\ alloced (ps_k s) own free k2 free2 m.

(** The page at [va] may be mapped: it is unmapped and not swapped. *)
Definition mappable (s : pstate) (va : Z) : Prop :=
  user_va va /\ mapped (ps_k s) (p_pagetable (ps_p s)) va = false /\
  forall i, 0 <= i < p_num_swapped (ps_p s) -> sp_va (p_swapped_pages (ps_p s) i) <> va.

(** What the handler has achieved once the page is mapped. *)
Definition page_in (s : pstate) (va : Z) (bs : list Z) (perm : Z) (k3 : kmem) : Prop :=
  let e := lookup_pte (kmem_mem k3) (p_pagetable (ps_p s)) va in
  has e PTE_V = true /\ PTE_FLAGS e = Z.lor perm PTE_V /\
  bytes_at (kmem_mem k3) (PTE2PA e) (Z.to_nat PGSIZE) = bs.

Lemma map_or_free_ok s own free k2 free2 m va perm :
  taken s own free k2 free2 m -> mappable s va -> 0 <= perm < 1024 ->
  returns (map_or_free (p_pagetable (ps_p s)) va m perm (put_k k2 s)) (fun ok s' =>
    exists k3 own3 free3, s' = put_k k3 s /\ paging_ok s' own3 free3 /\
      (ok = true -> page_in s va (bytes_at (kmem_mem k2) m (Z.to_nat PGSIZE)) perm k3)).
Proof.
  intros [Hok Ha] ([Hal Hva] & Hm & Hns) Hperm. unfold map_or_free.
  assert (Hadd : forall D k' own' free', (forall v, D v -> v = vpn va) ->
    adds (ps_k s) own free (p_pagetable (ps_p s)) D k' own' free' -> paging_ok (put_k k' s) own' free').
  { intros D k' own' free' HD A. eapply paging_ok_adds; [done|exact A|]. intros va' Hd [Hal' _].
    assert (va' = va) as -> by (apply vpn_user_inj; auto). done. }
  pose proof (held_valid _ _ _ (al_held _ _ _ _ _ _ Ha)) as Hvm.
  eapply bind_returns; [apply vm_returns, (map_alloced (ps_k s) own free k2 free2 m); try done; apply Hok|].
  intros res s3 (k3 & -> & own3 & free3 & [(-> & A & Hown & Hlk & Hsame)|(-> & Hkf)]); simpl.
  - exists k3, own3, free3. split; [done|]. split; [eapply (Hadd (eq (vpn va))); [congruence|done]|].
    intros _. unfold page_in. rewrite Hlk. pose proof (valid_page_pos _ Hvm).
    pose proof (valid_page_aligned _ Hvm). split_and!.
    + rewrite mk_pte_has by (done || lia). apply orb_true_r.
    + rewrite mk_pte_flags. apply PTE_FLAGS_make; [lia|by apply perm_range].
    + rewrite mk_pte_pa by (done || lia). apply bytes_at_ext. intros x Hx. symmetry. apply Hsame.
      change (Z.of_nat (Z.to_nat PGSIZE)) with PGSIZE in Hx. lia.
  - eapply bind_returns; [apply (vm_returns (kfree m) (put_k k3 s)), Hkf|].
    intros [] s4 (k4 & -> & A). simpl. exists k4, own3, (m :: free3). split; [done|]. split; [|done].
    by eapply (Hadd (fun _ => False)).
Qed.

(** ** Getting a frame *)

Definition swapped_at (p : proc) (va : Z) : option Z :=
  scan (fun i => sp_va (p_swapped_pages p i) =? va) (p_num_swapped p).

(** What an eviction made to obtain a frame does not change. *)
Record stable (s s1 : pstate) : Prop := {
  st_pt : p_pagetable (ps_p s1) = p_pagetable (ps_p s);
  st_heap : p_heap_start (ps_p s1) = p_heap_start (ps_p s);
  st_sz : p_sz (ps_p s1) = p_sz (ps_p s);
  st_sp : p_tf_sp (ps_p s1) = p_tf_sp (ps_p s);
  st_exec : p_exec_ip (ps_p s1) = p_exec_ip (ps_p s);
  st_swapfile : p_swap_file (ps_p s1) = p_swap_file (ps_p s);
  st_seq : p_next_fifo_seq (ps_p s1) = p_next_fifo_seq (ps_p s);
  st_num : p_num_resident (ps_p s1) <= p_num_resident (ps_p s);
  st_content : content (ps_fs s1) (p_exec_ip (ps_p s)) = content (ps_fs s) (p_exec_ip (ps_p s));
  st_unmapped : forall va, user_va va -> mapped (ps_k s) (p_pagetable (ps_p s)) va = false ->
    mapped (ps_k s1) (p_pagetable (ps_p s)) va = false;
  st_swapped : forall va, user_va va -> mapped (ps_k s) (p_pagetable (ps_p s)) va = false ->
    swapped_at (ps_p s1) va = swapped_at (ps_p s) va /\
    forall i, swapped_at (ps_p s) va = Some i ->
      p_swapped_pages (ps_p s1) i = p_swapped_pages (ps_p s) i /\
      forall ip, p_swap_file (ps_p s) = Some ip ->
        let slot := sp_slot (p_swapped_pages (ps_p s) i) in
        slot_bytes (ps_fs s1) ip slot = slot_bytes (ps_fs s) ip slot
}.

Lemma stable_refl s : stable s s.
Proof. constructor; try done. Qed.

Lemma swapped_at_out p va slot va' : va' <> va -> 0 <= p_num_swapped p ->
  swapped_at (swapped_out p va slot) va' = swapped_at p va' /\
  forall i, swapped_at p va' = Some i -> p_swapped_pages (swapped_out p va slot) i = p_swapped_pages p i.
Proof.
  intros Hne Hn. unfold swapped_at.
  assert (Hnum : p_num_swapped (swapped_out p va slot) = p_num_swapped p + 1) by (by destruct p).
  assert (Hpg : p_swapped_pages (swapped_out p va slot) = upd (p_swapped_pages p) (p_num_swapped p) (mk_sp va slot))
    by (by destruct p).
  rewrite Hnum, Hpg. split.
  - destruct (scan (fun i => sp_va (p_swapped_pages p i) =? va') (p_num_swapped p)) as [i|] eqn:Hs.
    + apply scan_Some in Hs as (Hi & Hf & Hlow). apply scan_first; [lia| |].
      * rewrite upd_ne by lia. done.
      * intros x Hx. rewrite upd_ne by lia. by apply Hlow.
    + pose proof (scan_None _ _ Hs) as Hno. apply scan_none. intros x Hx.
      destruct (Z.eq_dec x (p_num_swapped p)) as [->|].
      * rewrite upd_eq. simpl. by apply Z.eqb_neq, not_eq_sym.
      * rewrite upd_ne by done. apply Hno. lia.
  - intros i Hs. apply scan_Some in Hs as (Hi & _). apply upd_ne. lia.
Qed.

Lemma swapped_at_used s own free va i : paging_ok s own free -> swapped_at (ps_p s) va = Some i ->
  0 <= i < p_num_swapped (ps_p s) /\ sp_va (p_swapped_pages (ps_p s) i) = va /\
  0 <= sp_slot (p_swapped_pages (ps_p s) i) < MAX_SWAP_PAGES /\
  p_swap_slots (ps_p s) (sp_slot (p_swapped_pages (ps_p s) i)) <> 0.
Proof.
  intros Hok Hs. apply scan_Some in Hs as (Hi & Hf & _). apply Z.eqb_eq in Hf.
  split_and!; try done; try lia; apply (sw_slot _ (pk_swap _ _ _ Hok) i Hi).
Qed.

Lemma evicted_stable s own free s1 own1 free1 :
  paging_ok s own free -> 0 < p_num_resident (ps_p s) -> evicted s own free s1 own1 free1 -> stable s s1.
Proof.
  intros Hok Hn [Hok1 (freed & _ & U) Hp]. set (p := ps_p s) in *. destruct (victim_inx_spec p Hn) as [Hv _].
  cbn zeta in Hp. fold p in Hp, U. set (v := victim_inx p) in *.
  pose proof (pk_mapped _ _ _ Hok v Hv) as ((Hal & Hr) & HV & _). fold p in Hal, Hr, HV.
  set (va := rp_va (p_resident_pages p v)) in *. assert (TRAPFRAME < MAXVA) by done.
  assert (Hum : forall va', user_va va' -> mapped (ps_k s) (p_pagetable p) va' = false ->
    mapped (ps_k s1) (p_pagetable p) va' = false).
  { intros va' [_ Hr'] Hm. unfold mapped in *. destruct (decide (vpn va' = vpn va)) as [Hd|Hd].
    - by apply (um_gone _ _ _ _ _ _ _ _ _ U).
    - rewrite (um_lookup _ _ _ _ _ _ _ _ _ U); [done|apply (pk_upt _ _ _ Hok)|lia|tauto]. }
  assert (Hne : forall va', mapped (ps_k s) (p_pagetable p) va' = false -> va' <> va).
  { intros va' Hm ->. unfold mapped in Hm. congruence. }
  destruct (rp_dirty (p_resident_pages p v) =? 0).
  - destruct Hp as [E Ef]. constructor; rewrite ?E, ?Ef; fold p; try done; destruct p; simpl in *; (done || lia).
  - destruct Hp as (ip & slot & Hip & Hscan & E & Hb & Hoth & Hslots).
    pose proof (pk_file _ _ _ Hok) as Hfile. unfold swapfile_ok in Hfile. fold p in Hfile. rewrite Hip in Hfile.
    assert (Hq : p_pagetable (ps_p s1) = p_pagetable p /\ p_heap_start (ps_p s1) = p_heap_start p /\
      p_sz (ps_p s1) = p_sz p /\ p_tf_sp (ps_p s1) = p_tf_sp p /\ p_exec_ip (ps_p s1) = p_exec_ip p /\
      p_swap_file (ps_p s1) = p_swap_file p /\ p_next_fifo_seq (ps_p s1) = p_next_fifo_seq p /\
      p_num_resident (ps_p s1) = p_num_resident p - 1) by (rewrite E; by destruct p).
    destruct Hq as (Q1 & Q2 & Q3 & Q4 & Q5 & Q6 & Q7 & Q8).
    constructor; fold p; [assumption..|lia| |exact Hum|].
    + apply Hoth. intros He. destruct Hfile as [Hx _]. by apply Hx.
    + intros va' Hu Hm. pose proof (sw_num _ (pk_swap _ _ _ Hok)) as Hns. fold p in Hns.
      destruct (swapped_at_out p va slot va' (Hne va' Hm) ltac:(lia)) as [Hsa Hpg].
      rewrite E. split; [rewrite <- Hsa; by destruct p|]. intros i Hi.
      split; [rewrite <- (Hpg i Hi); by destruct p|]. intros ip' Hip'. rewrite Hip in Hip'. injection Hip' as <-.
      destruct (swapped_at_used s own free va' i Hok Hi) as (_ & _ & ? & ?). by apply Hslots.
Qed.

Lemma pgfault_frame_ok s own free :
  paging_ok s own free -> free <> [] \/ 0 < p_num_resident (ps_p s) ->
  ends (pgfault_frame s) (fun r s' => exists m s1 own1 free1 k2 free2,
    r = Some m /\ s' = put_k k2 s1 /\ taken s1 own1 free1 k2 free2 m /\ stable s s1) (swap_exit s).
Proof.
  intros Hok Hor. unfold pgfault_frame. destruct free as [|m free].
  - destruct Hor as [?|Hn]; [done|].
    assert (Hk0 : vm kalloc s = Ret 0 s) by (apply vm_read, kalloc_none, (inv_free _ _ _ (pk_vm _ _ _ Hok))).
    rewrite (bind_ret _ _ _ _ _ Hk0). simpl.
    eapply bind_ends; [by apply (evict_page_ok s own [])|].
    intros r s1 (-> & own1 & free1 & Hev). simpl.
    destruct (ev_unmaps _ _ _ _ _ _ Hev) as (freed & Hne & U).
    pose proof (um_free _ _ _ _ _ _ _ _ _ U) as Hf. destruct freed as [|m freed]; [done|]. simpl in Hf. subst free1.
    eapply bind_ends; [apply returns_ends, vm_returns, (kalloc_alloced _ own1), (ev_ok _ _ _ _ _ _ Hev)|].
    intros r s2 (k2 & -> & -> & Ha). pose proof (valid_page_pos _ (held_valid _ _ _ (al_held _ _ _ _ _ _ Ha))).
    destruct (Z.eqb_spec m 0); [lia|]. simpl. exists m, s1, own1, (m :: freed ++ []), k2, (freed ++ []).
    split_and!; [done|done|split; [apply Hev|done]|by eapply evicted_stable].
  - eapply bind_ends; [apply returns_ends, vm_returns, (kalloc_alloced _ own), Hok|].
    intros r s2 (k2 & -> & -> & Ha). pose proof (valid_page_pos _ (held_valid _ _ _ (al_held _ _ _ _ _ _ Ha))).
    destruct (Z.eqb_spec m 0); [lia|]. simpl. exists m, s, own, (m :: free), k2, free.
    split_and!; [done|done|by split|apply stable_refl].
Qed.

(** ** Filling the new page *)

Lemma taken_write s own free k2 free2 m m' :
  taken s own free k2 free2 m ->
  (forall q, aligned q -> q <> m -> same_page (kmem_mem k2) m' q) ->
  taken s own free (set_mem m' k2) free2 m.
Proof. intros [Hok Ha] Hm. split; [done|by eapply alloced_write]. Qed.

Lemma same_page_blit m0 p q bs : aligned p -> aligned q -> q <> p -> (length bs <= Z.to_nat PGSIZE)%nat ->
  same_page m0 (blit m0 p bs) q.
Proof.
  intros Hp Hq Hne Hl x Hx. unfold blit. pose proof (aligned_apart p q Hp Hq (not_eq_sym Hne)).
  change (Z.to_nat PGSIZE) with 4096%nat in Hl. unfold PGSIZE in *. bool_to_prop; try done; lia.
Qed.

(** A zeroed page with a prefix written over it. *)
Lemma bytes_blit_zero m0 p bs n : (length bs <= n)%nat ->
  (forall i, 0 <= i < Z.of_nat n -> m0 (p + i) = 0) ->
  bytes_at (blit m0 p bs) p n = bs ++ replicate (n - length bs) 0.
Proof.
  intros Hl Hz. apply list_eq. intros i. destruct (decide (i < n)%nat) as [Hi|Hi].
  2: { rewrite !lookup_ge_None_2; [done|rewrite length_app, length_replicate; lia|rewrite length_bytes_at; lia]. }
  rewrite bytes_at_lookup by done. unfold blit. destruct (decide (i < length bs)%nat) as [Hb|Hb].
  - rewrite lookup_app_l by done. bool_to_prop; try lia.
    replace (Z.to_nat (p + Z.of_nat i - p)) with i by lia.
    destruct (lookup_lt_is_Some_2 bs i Hb) as [y ->]. done.
  - rewrite lookup_app_r, lookup_replicate_2 by lia. bool_to_prop; try lia; rewrite Hz by lia; done.
Qed.

(** The frame holds [bs]. *)
Definition filled (k : kmem) (m : Z) (bs : list Z) : Prop :=
  bytes_at (kmem_mem k) m (Z.to_nat PGSIZE) = bs.

Lemma memset_ok s own free k2 free2 m :
  taken s own free k2 free2 m ->
  exists k3, vm (kmemset m 0 PGSIZE) (put_k k2 s) = Ret tt (put_k k3 s) /\
    taken s own free k3 free2 m /\ forall i, 0 <= i < PGSIZE -> kmem_mem k3 (m + i) = 0.
Proof.
  intros Ht. eexists. split; [done|]. split.
  - eapply taken_write; [done|]. intros q Hq Hne. apply same_page_fill; [|done|done].
    apply valid_page_aligned, (al_held _ _ _ _ _ _ (proj2 Ht)).
  - intros i Hi. simpl. unfold fill. bool_to_prop; done || lia.
Qed.

Definition file_range (f : fs) (ip off n : Z) : list Z :=
  take (Z.to_nat n) (drop (Z.to_nat off) (content f ip)).

Lemma read_into_ok s own free k2 free2 m ip off n :
  taken s own free k2 free2 m -> (forall i, 0 <= i < PGSIZE -> kmem_mem k2 (m + i) = 0) ->
  0 <= off < 2 ^ 32 -> 0 <= n <= PGSIZE ->
  let bs := file_range (ps_fs s) ip off n in
  returns (read_into ip off n m (put_k k2 s)) (fun r s' => exists f k3,
    r = Z.of_nat (length bs) /\ s' = put_k k3 (put_fs f s) /\ taken (put_fs f s) own free k3 free2 m /\
    (forall j, content f j = content (ps_fs s) j) /\
    filled k3 m (bs ++ replicate (Z.to_nat PGSIZE - length bs) 0)).
Proof.
  intros [Hok Ha] Hz Hoff Hn bs. unfold read_into.
  assert (Hlen : (length bs <= Z.to_nat PGSIZE)%nat) by (unfold bs, file_range; rewrite length_take; lia).
  eapply bind_returns; [apply file_returns, readi_spec; [apply Hok|done|unfold PGSIZE in *; lia]|].
  intros r s' (f & -> & Hf & Hc & ->). fold (file_range (ps_fs s) ip off n). simpl. fold bs.
  eexists f, _. split_and!; [done|done| |done|].
  - eapply (taken_write _ own free k2); [split; [by apply paging_ok_fs|done]|].
    intros q Hq Hne. apply same_page_blit; [|done|done|done].
    apply valid_page_aligned, (al_held _ _ _ _ _ _ Ha).
  - apply bytes_blit_zero; [done|]. intros i Hi. apply Hz. change (Z.of_nat (Z.to_nat PGSIZE)) with PGSIZE in Hi. done.
Qed.

(** The frame is given back, or lost: the invariant holds either way. *)
Lemma taken_lost s own free k2 free2 m : taken s own free k2 free2 m -> paging_ok (put_k k2 s) own free2.
Proof.
  intros [Hok Ha]. pose proof (pk_vm _ _ _ Hok) as Hi. pose proof (pk_upt _ _ _ Hok) as Hu.
  assert (TRAPFRAME < MAXVA) by done.
  assert (Hl : forall va, user_va va -> lookup_pte (kmem_mem k2) (p_pagetable (ps_p s)) va =
    lookup_pte (kmem_mem (ps_k s)) (p_pagetable (ps_p s)) va).
  { intros va [_ Hva]. eapply alloced_lookup; [done|done|apply Hu|lia]. }
  constructor; try apply Hok.
  - apply Ha.
  - by eapply alloced_upt.
  - intros i Hix. simpl. pose proof (pk_mapped _ _ _ Hok i Hix) as (Hua & ?). by rewrite Hl.
  - intros i Hix. simpl. pose proof (pk_swapped _ _ _ Hok i Hix) as (Hua & ?). unfold mapped in *. by rewrite Hl.
Qed.

Lemma taken_freed s own free k2 free2 m : taken s own free k2 free2 m ->
  returns (vm (kfree m) (put_k k2 s)) (fun _ s' => exists k3 own3 free3,
    s' = put_k k3 s /\ paging_ok s' own3 free3).
Proof.
  intros [Hok Ha]. pose proof (pk_vm _ _ _ Hok) as Hi. pose proof (pk_upt _ _ _ Hok) as Hu.
  pose proof (alloced_free (ps_k s) own free k2 free2 m (p_pagetable (ps_p s)) (fun _ _ => False) Hi Ha Hu
    k2 own free2 [] (updates_refl _ _ _ _ (al_inv _ _ _ _ _ _ Ha)) ltac:(intros ? ? [])) as Hk.
  eapply returns_mono; [apply vm_returns, Hk|]. intros [] s' (k3 & -> & A). exists k3, own, (m :: free2).
  split; [done|]. eapply (paging_ok_adds s own free); [exact Hok|exact A|]. intros va [].
Qed.

Definition logged (e : event) (s : pstate) : pstate :=
  mk_ps (ps_k s) (ps_p s) (ps_fs s) (ps_log s ++ [e]).

Lemma taken_logged s own free k2 free2 m e :
  taken s own free k2 free2 m -> taken (logged e s) own free k2 free2 m.
Proof. intros [Hok Ha]. split; [by apply paging_ok_log|done]. Qed.

Lemma bind_printf {A} e k s (c : unit -> M pstate A) :
  bind (printf e) c (put_k k s) = c tt (put_k k (logged e s)).
Proof. done. Qed.

(** ** The executable *)

(** The segment scan on the contents of the executable. *)
Fixpoint seg_at (k : nat) (c : list Z) (off va : Z) : option (Z * Z * Z) :=
  match k with
  | O => None
  | S k' => let ph := decode_proghdr (take (Z.to_nat sizeof_proghdr) (drop (Z.to_nat off) c)) in
            if in_segment ph va then Some (segment_page ph va) else seg_at k' c (off + sizeof_proghdr) va
  end.

Definition elf_seg (c : list Z) (va : Z) : option (Z * Z * Z) :=
  let hdr := take (Z.to_nat sizeof_elfhdr) c in
  seg_at (Z.to_nat (elf_phnum hdr)) c (elf_phoff hdr) va.

(** The file holds the ELF header and all the program headers it announces
    ([kexec] has checked as much). *)
Definition elf_ok (c : list Z) : Prop :=
  let hdr := take (Z.to_nat sizeof_elfhdr) c in
  sizeof_elfhdr <= Z.of_nat (length c) /\ 0 <= elf_phnum hdr /\ 0 <= elf_phoff hdr /\
  elf_phoff hdr + elf_phnum hdr * sizeof_proghdr <= Z.of_nat (length c) /\
  elf_phoff hdr + elf_phnum hdr * sizeof_proghdr < 2 ^ 31.

Lemma find_segment_ok k : forall s ip off va,
  fs_ok (ps_fs s) -> 0 <= off ->
  off + Z.of_nat k * sizeof_proghdr <= Z.of_nat (length (content (ps_fs s) ip)) ->
  off + Z.of_nat k * sizeof_proghdr < 2 ^ 31 ->
  returns (find_segment k ip off va s) (fun r s' => exists f, s' = put_fs f s /\ fs_ok f /\
    (forall j, content f j = content (ps_fs s) j) /\ r = seg_at k (content (ps_fs s) ip) off va).
Proof.
  induction k as [|k IH]; intros s ip off va Hfs H0 H1 H2; cbn [find_segment seg_at].
  { simpl. exists (ps_fs s). split_and!; try done. by destruct s. }
  unfold sizeof_proghdr in H1, H2. rewrite u32_small by lia.
  eapply bind_returns; [apply file_returns, readi_spec; [done|lia|unfold sizeof_proghdr; lia]|].
  intros bs s' (f & -> & Hf & Hc & Hbs).
  assert (Hlen : Z.of_nat (length bs) = sizeof_proghdr).
  { rewrite Hbs, length_take, length_drop. unfold sizeof_proghdr. lia. }
  rewrite Hlen, Z.eqb_refl, <- Hbs. cbn [negb].
  destruct (in_segment (decode_proghdr bs) va).
  { simpl. exists f. done. }
  rewrite i32_small by (unfold sizeof_proghdr; lia).
  eapply returns_mono; [apply IH; [done|unfold sizeof_proghdr; lia|simpl; rewrite Hc; unfold sizeof_proghdr; lia|unfold sizeof_proghdr; lia]|].
  intros r s' (f' & -> & Hf' & Hc' & ->). exists f'. simpl in *. split_and!; try done.
  - intros j. by rewrite Hc', Hc.
  - by rewrite Hc.
Qed.

Lemma flags2perm_range fl : 0 <= flags2perm fl < 1024.
Proof.
  unfold flags2perm. destruct (negb _), (negb _), (negb _); simpl; repeat apply lor_perm; done || flags || lia.
Qed.

Lemma segment_page_range ph va off n perm : segment_page ph va = (off, n, perm) ->
  0 <= off < 2 ^ 32 /\ 0 <= n <= PGSIZE /\ 0 <= perm < 1024 /\ has perm PTE_U = true.
Proof.
  unfold segment_page. intros [= <- <- <-]. split_and!; try apply u32_range.
  - destruct (_ <? ph_filesz ph); bool_to_prop; try (unfold PGSIZE; lia); apply u32_range.
  - destruct (_ <? ph_filesz ph); bool_to_prop; unfold PGSIZE in *; lia.
  - apply lor_perm; [apply flags2perm_range|done].
  - apply lor_perm; [apply flags2perm_range|done].
  - rewrite has_lor. apply orb_true_r.
Qed.

Lemma seg_at_range k : forall c off va o n perm, seg_at k c off va = Some (o, n, perm) ->
  0 <= o < 2 ^ 32 /\ 0 <= n <= PGSIZE /\ 0 <= perm < 1024 /\ has perm PTE_U = true.
Proof.
  induction k as [|k IH]; intros c off va o n perm; cbn [seg_at]; [done|].
  destruct (in_segment _ va); [intros Hs; by eapply segment_page_range, Some_inj|apply IH].
Qed.

(** ** The two cases of the handler *)

(** What a case of the handler leaves: the invariant, an unchanged process
    structure, and on success the page with the wanted bytes. *)
Definition case_post (s : pstate) (va : Z) (bs : list Z) (perm : Z) (ok : bool) (s' : pstate) : Prop :=
  exists own' free', paging_ok s' own' free' /\ ps_p s' = ps_p s /\
    (ok = true -> has perm PTE_U = true /\ page_in s va bs perm (ps_k s')).

Lemma map_case s s0 own free k2 free2 m va perm bs :
  taken s own free k2 free2 m -> mappable s va -> 0 <= perm < 1024 -> has perm PTE_U = true ->
  ps_p s = ps_p s0 -> filled k2 m bs ->
  returns (map_or_free (p_pagetable (ps_p s0)) va m perm (put_k k2 s)) (case_post s0 va bs perm).
Proof.
  intros Ht Hm Hp HU Hs0 Hf. rewrite <- Hs0. eapply returns_mono; [by eapply map_or_free_ok|].
  intros ok s' (k3 & own3 & free3 & -> & Hok3 & Hin). exists own3, free3. split_and!; [done|done|].
  intros Hs. split; [done|]. specialize (Hin Hs). rewrite Hf in Hin.
  unfold page_in in *. by rewrite <- Hs0.
Qed.

Lemma fault_zero_ok s own free k2 free2 m va a c :
  taken s own free k2 free2 m -> mappable s va ->
  (forall i, 0 <= i < PGSIZE -> kmem_mem k2 (m + i) = 0) ->
  returns (fault_zero (p_pagetable (ps_p s)) va a c m (put_k k2 s))
    (case_post s va (replicate (Z.to_nat PGSIZE) 0) (Z.lor PTE_U PTE_R)).
Proof.
  intros Ht Hm Hz. unfold fault_zero. rewrite (bind_ret myproc (ps_p s) (put_k k2 s) (put_k k2 s) _ eq_refl).
  rewrite !bind_printf. eapply map_case; [by do 2 apply taken_logged|done|by apply lor_perm|done|done|].
  unfold filled. transitivity (bytes_at (blit (kmem_mem k2) m []) m (Z.to_nat PGSIZE)).
  - apply bytes_at_ext. intros x Hx. unfold blit. simpl. bool_to_prop; done || lia.
  - rewrite bytes_blit_zero; [done|simpl; lia|]. intros i Hi. apply Hz. change (Z.of_nat (Z.to_nat PGSIZE)) with PGSIZE in Hi. done.
Qed.

Lemma fault_swap_ok s own free k2 free2 m va a ip slot :
  taken s own free k2 free2 m -> mappable s va ->
  (forall i, 0 <= i < PGSIZE -> kmem_mem k2 (m + i) = 0) ->
  p_swap_file (ps_p s) = Some ip -> 0 <= slot < MAX_SWAP_PAGES ->
  (slot + 1) * PGSIZE <= Z.of_nat (length (content (ps_fs s) ip)) ->
  returns (fault_swap (p_pagetable (ps_p s)) va a m slot (put_k k2 s))
    (case_post s va (slot_bytes (ps_fs s) ip slot) (Z.lor PTE_U PTE_R)).
Proof.
  intros Ht Hm Hz Hip Hslot Hlen. unfold fault_swap. rewrite (bind_ret myproc (ps_p s) (put_k k2 s) (put_k k2 s) _ eq_refl).
  rewrite !bind_printf, Hip, slot_off by done. set (s1 := logged _ (logged _ s)).
  assert (Hbs : length (file_range (ps_fs s1) ip (slot * PGSIZE) PGSIZE) = Z.to_nat PGSIZE).
  { unfold file_range. rewrite length_take, length_drop. change (ps_fs s1) with (ps_fs s). unfold PGSIZE in *. lia. }
  eapply bind_returns; [apply (read_into_ok s1 own free k2 free2); [by do 2 apply taken_logged|done| |]|].
  - unfold MAX_SWAP_PAGES, PGSIZE in *. lia.
  - unfold PGSIZE. lia.
  - intros r s' (f & k3 & -> & -> & Ht3 & Hc & Hfill). rewrite Hbs. simpl.
    rewrite Hbs, Nat.sub_diag, app_nil_r in Hfill.
    by eapply (map_case (put_fs f s1)); [exact Ht3|done|by apply lor_perm|done|done|].
Qed.

Lemma length_hdr (c : list Z) : sizeof_elfhdr <= Z.of_nat (length c) ->
  Z.of_nat (length (take (Z.to_nat sizeof_elfhdr) (drop (Z.to_nat 0) c))) = sizeof_elfhdr.
Proof. intros Hl. rewrite length_take, drop_0. unfold sizeof_elfhdr in *. lia. Qed.

(** The contents of a page that is not swapped: from the executable when a
    segment covers it, zero otherwise. *)
Definition fresh_bytes (s : pstate) (va : Z) : list Z :=
  let c := content (ps_fs s) (p_exec_ip (ps_p s)) in
  match elf_seg c va with
  | Some (off, n, _) =>
      let bs := take (Z.to_nat n) (drop (Z.to_nat off) c) in
      bs ++ replicate (Z.to_nat PGSIZE - length bs) 0
  | None => replicate (Z.to_nat PGSIZE) 0
  end.

(** Its permissions: those of the segment, read-only otherwise. *)
Definition fresh_perm (s : pstate) (va : Z) : Z :=
  match elf_seg (content (ps_fs s) (p_exec_ip (ps_p s))) va with
  | Some (_, _, perm) => perm
  | None => Z.lor PTE_U PTE_R
  end.

Lemma case_false s s1 va bs perm own free k2 free2 m :
  taken s1 own free k2 free2 m -> ps_p s1 = ps_p s -> case_post s va bs perm false (put_k k2 s1).
Proof. intros Ht Hp. exists own, free2. split_and!; [by eapply taken_lost|done|done]. Qed.

Lemma case_freed s s1 va bs perm own free k2 free2 m :
  taken s1 own free k2 free2 m -> ps_p s1 = ps_p s ->
  returns (bind (vm (kfree m)) (fun _ => ret false) (put_k k2 s1)) (case_post s va bs perm).
Proof.
  intros Ht Hp. eapply bind_returns; [by eapply taken_freed|].
  intros [] s' (k3 & own3 & free3 & -> & Hok3). exists own3, free3. done.
Qed.

Lemma fault_fresh_ok s own free k2 free2 m va a :
  taken s own free k2 free2 m -> mappable s va ->
  (forall i, 0 <= i < PGSIZE -> kmem_mem k2 (m + i) = 0) ->
  elf_ok (content (ps_fs s) (p_exec_ip (ps_p s))) ->
  returns (fault_fresh (p_pagetable (ps_p s)) va a m (put_k k2 s)) (case_post s va (fresh_bytes s va) (fresh_perm s va)).
Proof.
  intros Ht Hm Hz (E1 & E2 & E3 & E4 & E5). unfold fault_fresh.
  set (c := content (ps_fs s) (p_exec_ip (ps_p s))) in *.
  rewrite (bind_ret myproc (ps_p s) (put_k k2 s) (put_k k2 s) _ eq_refl).
  destruct (negb (va <? p_heap_start (ps_p s)) && _).
  { by eapply case_false. }
  assert (Hfs : fs_ok (ps_fs s)) by apply Ht.
  eapply bind_returns; [apply file_returns, readi_spec; [done|lia|unfold sizeof_elfhdr; lia]|].
  intros hdr s' (f1 & -> & Hf1 & Hc1 & Hhdr).
  change (content (ps_fs (put_k k2 s)) (p_exec_ip (ps_p s))) with c in Hhdr.
  assert (Hl : Z.of_nat (length hdr) = sizeof_elfhdr) by (rewrite Hhdr; by apply length_hdr).
  rewrite Hl, Z.eqb_refl. cbn [negb]. rewrite drop_0 in Hhdr.
  rewrite <- Hhdr in E2, E3, E4, E5. unfold sizeof_proghdr in *. rewrite i32_small by lia.
  eapply bind_returns; [apply find_segment_ok; [done|done| |]|]; unfold sizeof_proghdr; simpl; rewrite ?Hc1;
    [change (content (ps_fs (put_k k2 s)) (p_exec_ip (ps_p s))) with c; lia|lia|].
  intros seg s' (f2 & -> & Hf2 & Hc2 & Hseg). cbn [ps_fs put_fs] in *.
  assert (Hc : forall j, content f2 j = content (ps_fs s) j) by (intros j; by rewrite Hc2, Hc1).
  assert (Ht2 : taken (put_fs f2 s) own free k2 free2 m).
  { destruct Ht as [Hok Ha]. split; [by apply paging_ok_fs|done]. }
  change (put_fs f2 (put_fs f1 (put_k k2 s))) with (put_k k2 (put_fs f2 s)).
  assert (Hes : seg = elf_seg c va).
  { rewrite Hseg. unfold elf_seg. rewrite <- Hhdr. done. }
  unfold fresh_bytes, fresh_perm. fold c. rewrite <- Hes. destruct seg as [[[off n] perm]|].
  - symmetry in Hes. apply seg_at_range in Hes as (Ho & Hn & Hp & HU).
    rewrite !bind_printf. set (s3 := logged _ (logged _ _)).
    eapply bind_returns; [apply (read_into_ok s3 own free k2 free2); [by do 2 apply taken_logged|done|done|done]|].
    intros r s' (f & k3 & -> & -> & Ht3 & Hc3 & Hfill). unfold file_range in *.
    change (ps_fs s3) with f2 in *. rewrite Hc in *. fold c in Hfill |- *.
    destruct (negb _); [by eapply case_freed|]. by eapply (map_case (put_fs f s3)).
  - destruct (va <? p_sz (ps_p s)); [by apply (fault_zero_ok (put_fs f2 s) own free k2 free2)|].
    destruct (_ && _); [by apply (fault_zero_ok (put_fs f2 s) own free k2 free2)|]. by eapply case_freed.
Qed.

(** ** The handler *)

(** The contents the page at [va] has for the process. *)
Definition expected_bytes (s : pstate) (va : Z) : list Z :=
  match swapped_at (ps_p s) va with
  | Some i => match p_swap_file (ps_p s) with
              | Some ip => slot_bytes (ps_fs s) ip (sp_slot (p_swapped_pages (ps_p s) i))
              | None => []
              end
  | None => fresh_bytes s va
  end.

(** A page read back from swap is mapped read-only, so that the next write to
    it is noticed. *)
Definition expected_perm (s : pstate) (va : Z) : Z :=
  match swapped_at (ps_p s) va with Some _ => Z.lor PTE_U PTE_R | None => fresh_perm s va end.

Lemma stable_fresh s s1 va : stable s s1 ->
  fresh_bytes s1 va = fresh_bytes s va /\ fresh_perm s1 va = fresh_perm s va.
Proof. intros St. unfold fresh_bytes, fresh_perm. by rewrite (st_exec _ _ St), (st_content _ _ St). Qed.

Lemma take_swapped_none s va : swapped_at (ps_p s) va = None -> take_swapped va s = Ret None s.
Proof. intros Hs. unfold take_swapped, bind, myproc, gets. unfold swapped_at in Hs. by rewrite Hs. Qed.

Lemma take_swapped_some s va i : swapped_at (ps_p s) va = Some i ->
  0 <= sp_slot (p_swapped_pages (ps_p s) i) < MAX_SWAP_PAGES ->
  take_swapped va s = Ret (Some (sp_slot (p_swapped_pages (ps_p s) i))) (put_p (swapped_in (ps_p s) i) s).
Proof.
  intros Hs Hr. unfold take_swapped, bind, myproc, gets. unfold swapped_at in Hs. rewrite Hs. simpl.
  destruct (Z.leb_spec 0 (sp_slot (p_swapped_pages (ps_p s) i))),
    (Z.ltb_spec (sp_slot (p_swapped_pages (ps_p s) i)) MAX_SWAP_PAGES); try lia. simpl.
  unfold swapped_in. by destruct (ps_p s).
Qed.

(** Success of the handler for the page [va]. *)
Record faulted (s : pstate) (va : Z) (s' : pstate) : Prop := {
  fa_page : let e := lookup_pte (kmem_mem (ps_k s')) (p_pagetable (ps_p s)) va in
    has e PTE_V = true /\ has e PTE_U = true /\ PTE_FLAGS e = Z.lor (expected_perm s va) PTE_V;
  fa_bytes : page_bytes (ps_k s') (p_pagetable (ps_p s)) va = expected_bytes s va;
  fa_swapped : swapped_at (ps_p s') va = None;
  fa_entry : p_resident_pages (ps_p s') (p_num_resident (ps_p s') - 1) =
    mk_rp va (p_next_fifo_seq (ps_p s) + 1) (if swapped_at (ps_p s) va is Some _ then 1 else 0);
  fa_seq : p_next_fifo_seq (ps_p s') = p_next_fifo_seq (ps_p s) + 1;
  fa_num : 0 < p_num_resident (ps_p s');
  fa_pt : p_pagetable (ps_p s') = p_pagetable (ps_p s)
}.

(** From a mapped page to the end of the handler. *)
Lemma fault_finish s s1 p2 va bs perm ok s3 swapped :
  stable s s1 ->
  p_pagetable p2 = p_pagetable (ps_p s1) /\ p_next_fifo_seq p2 = p_next_fifo_seq (ps_p s1) /\
    p_resident_pages p2 = p_resident_pages (ps_p s1) /\ p_num_resident p2 = p_num_resident (ps_p s1) ->
  (forall i, 0 <= i < p_num_resident p2 -> rp_va (p_resident_pages p2 i) <> va) ->
  user_va va -> swapped_at p2 va = None -> bs = expected_bytes s va -> perm = expected_perm s va ->
  swapped = (if swapped_at (ps_p s) va is Some _ then 1 else 0) ->
  0 <= p_next_fifo_seq (ps_p s) < 2 ^ 31 - 1 ->
  case_post (put_p p2 s1) va bs perm ok s3 ->
  ends ((if ok then add_to_resident_set va swapped ;;; ret 0 else ret (-1)) s3)
    (fun r s' => (exists own' free', paging_ok s' own' free') /\ (r = -1 \/ r = 0 /\ faulted s va s'))
    (fun st _ => resident_exit (ps_p s) st).
Proof.
  intros St (P1 & P2 & P3 & P4) Hnr Hva Hsw -> -> -> Hseq (own' & free' & Hok & Hp & Hin).
  simpl in Hp. destruct ok; [|simpl; eauto]. destruct (Hin eq_refl) as (HU & HV & Hfl & Hb). clear Hin.
  cbn [ps_p put_p] in HV, Hfl, Hb. rewrite P1, (st_pt _ _ St) in HV, Hfl, Hb.
  assert (HeU : has (lookup_pte (kmem_mem (ps_k s3)) (p_pagetable (ps_p s)) va) PTE_U = true).
  { rewrite has_flags, Hfl, has_lor, HU; done. }
  rewrite <- (st_pt _ _ St), <- P1 in HV, HeU. rewrite <- (st_seq _ _ St), <- P2 in Hseq.
  set (dirty := if swapped_at (ps_p s) va is Some _ then 1 else 0).
  eapply bind_ends with (P := fun _ s4 => paging_ok s4 own' free' /\ ps_k s4 = ps_k s3 /\ ps_fs s4 = ps_fs s3 /\
    ps_p s4 = add_resident (ps_p s3) va dirty).
  { eapply ends_mono; [apply (add_to_resident_set_ok s3 own' free' va dirty); rewrite ?Hp; try done|done|].
    unfold resident_exit. intros st _ [-> Hfull]. rewrite Hp, P4 in Hfull. pose proof (st_num _ _ St). lia. }
  { intros [] s4 (Hok4 & Hk4 & _ & Hp4). simpl. split; [eauto|]. right. split; [done|].
    rewrite P1, (st_pt _ _ St) in HV, HeU. rewrite Hp in Hp4.
    assert (Hn : 0 <= p_num_resident p2).
    { pose proof (rs_num _ (pk_resident _ _ _ Hok)) as Hx. rewrite Hp in Hx. lia. }
    constructor; rewrite ?Hk4, ?Hp4.
    + done.
    + exact Hb.
    + unfold swapped_at in *. by destruct p2.
    + rewrite <- (st_seq _ _ St), <- P2. destruct p2; unfold add_resident; simpl.
      replace (p_num_resident + 1 - 1) with p_num_resident by lia. apply upd_eq.
    + rewrite <- (st_seq _ _ St), <- P2. by destruct p2.
    + destruct p2; simpl in *; lia.
    + rewrite <- (st_pt _ _ St), <- P1. by destruct p2. }
Qed.

(** Resident pages are mapped, so an unmapped one is not in the set. *)
Lemma unmapped_not_resident s own free va : paging_ok s own free ->
  mapped (ps_k s) (p_pagetable (ps_p s)) va = false ->
  forall i, 0 <= i < p_num_resident (ps_p s) -> rp_va (p_resident_pages (ps_p s) i) <> va.
Proof.
  intros Hok Hm i Hi He. destruct (pk_mapped _ _ _ Hok i Hi) as (_ & HV & _).
  unfold mapped in Hm. rewrite He in HV. congruence.
Qed.

Lemma unswapped_at p va : swapped_at p va = None ->
  forall i, 0 <= i < p_num_swapped p -> sp_va (p_swapped_pages p i) <> va.
Proof. intros Hs i Hi. by apply Z.eqb_neq, (scan_None _ _ Hs). Qed.

Definition fault_exit (s : pstate) (st : Z) (s' : pstate) : Prop :=
  swap_exit s st s' \/ resident_exit (ps_p s) st.

Definition fault_post (s : pstate) (va r : Z) (s' : pstate) : Prop :=
  (exists own' free', paging_ok s' own' free') /\ (r = -1 \/ r = 0 /\ faulted s va s').

Lemma fault_dispatch s s1 own1 free1 k2 free2 m va a :
  stable s s1 -> taken s1 own1 free1 k2 free2 m -> user_va va ->
  (forall i, 0 <= i < PGSIZE -> kmem_mem k2 (m + i) = 0) ->
  mapped (ps_k s) (p_pagetable (ps_p s)) va = false ->
  elf_ok (content (ps_fs s) (p_exec_ip (ps_p s))) ->
  0 <= p_next_fifo_seq (ps_p s) < 2 ^ 31 - 1 ->
  ends ((do slot <- take_swapped va;
         do ok <- match slot with
                  | Some slot => fault_swap (p_pagetable (ps_p s)) va a m slot
                  | None => fault_fresh (p_pagetable (ps_p s)) va a m
                  end;
         if ok : bool
         then add_to_resident_set va (match slot with Some _ => 1 | None => 0 end) ;;; ret 0
         else ret (-1)) (put_k k2 s1))
    (fault_post s va) (fun st _ => resident_exit (ps_p s) st).
Proof.
  intros St Ht Hva Hz Hm Helf Hseq. pose proof (proj1 Ht) as Hok1.
  pose proof (st_unmapped _ _ St va Hva Hm) as Hm1. rewrite <- (st_pt _ _ St) in Hm1.
  destruct (st_swapped _ _ St va Hva Hm) as [Hsa Hsi].
  pose proof (unmapped_not_resident s1 own1 free1 va Hok1 Hm1) as Hnr.
  rewrite <- (st_pt _ _ St). destruct (swapped_at (ps_p s) va) as [i|] eqn:Hs.
  - destruct (Hsi i eq_refl) as [Hpg Hsb].
    destruct (swapped_at_used s1 own1 free1 va i Hok1 Hsa) as (Hi & Hiva & Hslot & Hused).
    rewrite (bind_ret _ _ _ _ _ (take_swapped_some (put_k k2 s1) va i Hsa Hslot)).
    set (p2 := swapped_in (ps_p s1) i). cbn [ps_p put_k].
    destruct (paging_ok_swapped_in s1 own1 free1 i Hok1 Hi) as [Hok2 Hnsw]. fold p2 in Hok2, Hnsw. rewrite Hiva in Hnsw.
    assert (Hp2 : p_pagetable p2 = p_pagetable (ps_p s1) /\ p_next_fifo_seq p2 = p_next_fifo_seq (ps_p s1) /\
      p_resident_pages p2 = p_resident_pages (ps_p s1) /\ p_num_resident p2 = p_num_resident (ps_p s1) /\
      p_swap_file p2 = p_swap_file (ps_p s1)) by (unfold p2; by destruct (ps_p s1)).
    destruct Hp2 as (Q1 & Q2 & Q3 & Q4 & Q5).
    pose proof (pk_file _ _ _ Hok1) as Hfile. unfold swapfile_ok in Hfile.
    destruct (p_swap_file (ps_p s1)) as [ip|] eqn:Hip; [|lia].
    eapply bind_ends.
    { apply returns_ends. rewrite <- Q1. apply (fault_swap_ok (put_p p2 s1) own1 free1 k2 free2 m va a ip); try done.
      - split; [exact Hok2|apply Ht].
      - split_and!; try done; try apply Hva. simpl. by rewrite Q1.
      - by apply Hfile. }
    intros ok s3 Hc. eapply (fault_finish s s1 p2 va (slot_bytes (ps_fs s1) ip (sp_slot (p_swapped_pages (ps_p s1) i))) (Z.lor PTE_U PTE_R)); try done.
    + by rewrite Q3, Q4.
    + apply scan_none. intros j Hj. apply Z.eqb_neq. by apply Hnsw.
    + unfold expected_bytes. rewrite Hs. rewrite (st_swapfile _ _ St) in Hip. rewrite Hip, Hpg. simpl. by apply Hsb.
    + unfold expected_perm. by rewrite Hs.
    + by rewrite Hs.
  - rewrite (bind_ret _ _ _ _ _ (take_swapped_none (put_k k2 s1) va Hsa)).
    eapply bind_ends.
    { apply returns_ends. apply (fault_fresh_ok s1 own1 free1 k2 free2); try done.
      - split; [exact Hva|]. split; [exact Hm1|]. by apply unswapped_at.
      - by rewrite (st_exec _ _ St), (st_content _ _ St). }
    intros ok s3 Hc. eapply (fault_finish s s1 (ps_p s1) va (fresh_bytes s1 va) (fresh_perm s1 va)); try done.
    + destruct (stable_fresh s s1 va St) as [-> _]. unfold expected_bytes. by rewrite Hs.
    + destruct (stable_fresh s s1 va St) as [_ ->]. unfold expected_perm. by rewrite Hs.
    + by rewrite Hs.
Qed.

Lemma handle_pgfault_ok s own free va a :
  paging_ok s own free -> 0 <= va < TRAPFRAME ->
  mapped (ps_k s) (p_pagetable (ps_p s)) va = false ->
  free <> [] \/ 0 < p_num_resident (ps_p s) ->
  elf_ok (content (ps_fs s) (p_exec_ip (ps_p s))) ->
  0 <= p_next_fifo_seq (ps_p s) < 2 ^ 31 - 1 ->
  ends (handle_pgfault (p_pagetable (ps_p s)) va a s) (fault_post s (PGROUNDDOWN va)) (fault_exit s).
Proof.
  intros Hok Hva Hm Hor Helf Hseq. assert (TRAPFRAME < MAXVA) by done. unfold handle_pgfault.
  destruct (Z.leb_spec MAXVA va); [lia|].
  assert (Huva : user_va (PGROUNDDOWN va)).
  { pose proof (PGROUNDDOWN_aligned va). pose proof (PGROUNDDOWN_le va). split; [done|].
    change TRAPFRAME with (67108862 * 4096) in *. unfold aligned, PGSIZE in *. zlia. }
  assert (Hm' : mapped (ps_k s) (p_pagetable (ps_p s)) (PGROUNDDOWN va) = false).
  { unfold mapped. by rewrite (lookup_vpn _ _ _ va (vpn_rounddown va)). }
  eapply bind_ends.
  { eapply ends_mono; [apply (pgfault_frame_ok s own free Hok Hor)|intros r s' Hp; exact Hp|by left]. }
  intros r s' (m & s1 & own1 & free1 & k2 & free2 & -> & -> & Ht & St).
  destruct (memset_ok _ _ _ _ _ _ Ht) as (k3 & Hms & Ht3 & Hz).
  rewrite (bind_ret _ _ _ _ _ Hms). eapply ends_mono; [by eapply fault_dispatch|done|].
  intros st s2 Hr. by right.
Qed.

End PagingOk.
