(* ===== verification/PagingClaims.v ===== *)
(** The properties of demand paging: replacement order, faulting a page in,
    the swap round trip, the copy routines, the write fault that marks a page
    dirty, and lazy [sbrk]. *)
From S2P Require Import Prelude Riscv Kalloc Vm Uvm FileLayer Paging PagingOk.
Open Scope kern_scope.

Section PagingClaims.
Context {LAY : Layout} {FL : FileLayer}.

(** Eviction is FIFO and safe.  With at least one resident page,
    [evict_page] either returns 0 or ends the process because no swap slot is
    free or the swap write failed; it never panics, loops or indexes out of
    bounds.  When it returns, the victim had the smallest sequence number of
    the resident set, its page is unmapped and its frame is back on the free
    list, a dirty victim's bytes are in the lowest free slot of the swap file
    (the other slots unchanged), and all bookkeeping invariants hold. *)
Theorem evict_page_fifo (s : pstate) (own : gmap Z use) (free : list Z)
  (Hok : paging_ok s own free) (Hn : 0 < p_num_resident (ps_p s)) :
  ends (evict_page s)
    (fun r s' => r = 0 /\
       (forall j, 0 <= j < p_num_resident (ps_p s) ->
          rp_seq (p_resident_pages (ps_p s) (victim_inx (ps_p s))) <= rp_seq (p_resident_pages (ps_p s) j)) /\
       exists own' free', evicted s own free s' own' free')
    (swap_exit s).
Proof.
  eapply ends_mono; [by eapply evict_page_ok| |done]. intros r s' (-> & Hev).
  split_and!; [done|by apply victim_inx_spec|done].
Qed.


Lemma swapped_at_self p va slot :
  (forall i, 0 <= i < p_num_swapped p -> sp_va (p_swapped_pages p i) <> va) -> 0 <= p_num_swapped p ->
  swapped_at (swapped_out p va slot) va = Some (p_num_swapped p) /\
  p_swapped_pages (swapped_out p va slot) (p_num_swapped p) = mk_sp va slot.
Proof.
  intros Hne Hn. destruct p; unfold swapped_at, swapped_out; simpl in *. rewrite upd_eq. split; [|done].
  apply scan_first; [lia|rewrite upd_eq; by apply Z.eqb_refl|].
  intros x Hx. rewrite upd_ne by lia. apply Z.eqb_neq, Hne. lia.
Qed.

(** The page a dirty eviction wrote out is what a fault will read back. *)
Lemma evicted_expected s own free s' own' free' :
  paging_ok s own free -> 0 < p_num_resident (ps_p s) -> evicted s own free s' own' free' ->
  let va := rp_va (p_resident_pages (ps_p s) (victim_inx (ps_p s))) in
  rp_dirty (p_resident_pages (ps_p s) (victim_inx (ps_p s))) <> 0 ->
  expected_bytes s' va = page_bytes (ps_k s) (p_pagetable (ps_p s)) va /\
  mapped (ps_k s') (p_pagetable (ps_p s)) va = false.
Proof.
  intros Hok Hn Hev va Hd. destruct (victim_inx_spec (ps_p s) Hn) as [Hv _].
  pose proof (pk_mapped _ _ _ Hok _ Hv) as ((_ & Hr) & HV & _). fold va in Hr, HV.
  destruct Hev as [_ (freed & _ & U) Hp]. cbn zeta in Hp. fold va in Hp, U.
  destruct (Z.eqb_spec (rp_dirty (p_resident_pages (ps_p s) (victim_inx (ps_p s)))) 0); [done|].
  destruct Hp as (ip & slot & Hip & _ & E & Hb & _). split.
  - unfold expected_bytes. rewrite E.
    assert (Hns : forall i, 0 <= i < p_num_swapped (ps_p s) -> sp_va (p_swapped_pages (ps_p s) i) <> va).
    { intros i Hi He. destruct (pk_swapped _ _ _ Hok i Hi) as [_ Hm]. unfold mapped in Hm. rewrite He in Hm. congruence. }
    destruct (swapped_at_self (ps_p s) va slot Hns) as [Hs He]; [apply (pk_swap _ _ _ Hok)|].
    assert (Hs' : swapped_at (unresident (swapped_out (ps_p s) va slot) (victim_inx (ps_p s))) va =
                  Some (p_num_swapped (ps_p s))) by (rewrite <- Hs; by destruct (ps_p s)).
    assert (He' : p_swapped_pages (unresident (swapped_out (ps_p s) va slot) (victim_inx (ps_p s)))
                    (p_num_swapped (ps_p s)) = mk_sp va slot) by (rewrite <- He; by destruct (ps_p s)).
    assert (Hf' : p_swap_file (unresident (swapped_out (ps_p s) va slot) (victim_inx (ps_p s))) = Some ip)
      by (rewrite <- Hip; by destruct (ps_p s)).
    by rewrite Hs', Hf', He'.
  - unfold mapped. by apply (um_gone _ _ _ _ _ _ _ _ _ U).
Qed.


(** [swap_allocated_slot] takes the lowest free slot and marks it used,
    leaving the others; it reports -1, changing nothing, exactly when all 60
    are in use. *)
Theorem swap_allocated_slot_lowest (s : pstate) :
  exists r s', swap_allocated_slot s = Ret r s' /\
  ((r = -1 /\ s' = s /\ forall x, 0 <= x < MAX_SWAP_PAGES -> p_swap_slots (ps_p s) x <> 0) \/
   (0 <= r < MAX_SWAP_PAGES /\ p_swap_slots (ps_p s) r = 0 /\
    (forall x, 0 <= x < r -> p_swap_slots (ps_p s) x <> 0) /\
    s' = put_p (set_slots (upd (p_swap_slots (ps_p s)) r 1) (ps_p s)) s)).
Proof.
  rewrite swap_allocated_slot_spec. destruct (scan _ _) as [i|] eqn:Hs.
  - apply scan_Some in Hs as (Hr & Hz & Hlow). apply Z.eqb_eq in Hz. do 2 eexists. split; [done|]. right.
    split_and!; try done; try lia. intros x Hx. by apply Z.eqb_neq, Hlow.
  - do 2 eexists. split; [done|]. left. split_and!; [done|done|]. intros x Hx. by apply Z.eqb_neq, (scan_None _ _ Hs).
Qed.

(** * Copying in *)

(** The byte the process sees at [va]. *)
Definition user_byte (k : kmem) (r va : Z) : Z :=
  kmem_mem k (PTE2PA (lookup_pte (kmem_mem k) r va) + va mod PGSIZE).

Definition user_bytes (k : kmem) (r va : Z) (n : nat) : list Z :=
  (fun i => user_byte k r (va + Z.of_nat i)) <$> seq 0 n.

Lemma user_bytes_app k r va a b :
  user_bytes k r va (a + b) = user_bytes k r va a ++ user_bytes k r (va + Z.of_nat a) b.
Proof.
  unfold user_bytes. rewrite seq_app, fmap_app. f_equal. simpl.
  replace (seq a b) with (Nat.add a <$> seq 0 b) by (rewrite fmap_add_seq; f_equal; lia).
  rewrite <- list_fmap_compose. apply list_fmap_ext. intros i x _. simpl. f_equal. lia.
Qed.

(** Inside one page, user bytes are the bytes of its frame. *)
Lemma user_bytes_page k r va n : 0 <= va -> va - PGROUNDDOWN va + Z.of_nat n <= PGSIZE ->
  bytes_at (kmem_mem k) (PTE2PA (lookup_pte (kmem_mem k) r (PGROUNDDOWN va)) + (va - PGROUNDDOWN va)) n =
  user_bytes k r va n.
Proof.
  intros H0 Hn. apply list_fmap_ext. intros i x Hx. apply lookup_seq in Hx as [-> Hi]. unfold user_byte.
  rewrite PGROUNDDOWN_sub in *. unfold PGSIZE in *.
  rewrite (lookup_vpn _ _ (va + Z.of_nat (0 + i)) (va - va mod 4096)) by (unfold vpn, PGSIZE; zlia).
  f_equal. zlia.
Qed.

(** Every page of the range is mapped for the user. *)
Definition user_range (k : kmem) (r va len : Z) : Prop :=
  forall x, va <= x < va + len ->
    let e := lookup_pte (kmem_mem k) r x in has e PTE_V = true /\ has e PTE_U = true.

Lemma fault_in_mapped s own free r va0 a (c1 c2 : M pstate unit) :
  vm_inv (ps_k s) own free -> user_pt (kmem_mem (ps_k s)) own r -> 0 <= va0 < TRAPFRAME ->
  (let e := lookup_pte (kmem_mem (ps_k s)) r va0 in has e PTE_V = true /\ has e PTE_U = true) ->
  fault_in r va0 a c1 c2 s = Ret (Some (PTE2PA (lookup_pte (kmem_mem (ps_k s)) r va0))) s.
Proof.
  intros Hi Hu Hva [HV HU]. unfold fault_in.
  assert (Hw : walkaddr r va0 (ps_k s) = Ret (PTE2PA (lookup_pte (kmem_mem (ps_k s)) r va0)) (ps_k s)).
  { rewrite (walkaddr_ok (ps_k s) own free); [|done|apply Hu|lia]. rewrite HV, HU.
    assert (TRAPFRAME < MAXVA) by done. destruct (Z.ltb_spec va0 MAXVA); [done|lia]. }
  rewrite (bind_ret _ _ _ _ _ (vm_read _ _ _ Hw)).
  pose proof (inv_pos _ _ _ _ _ Hi (upt_map _ _ _ Hu va0 Hva HV)).
  destruct (Z.eqb_spec (PTE2PA (lookup_pte (kmem_mem (ps_k s)) r va0)) 0); [lia|done].
Qed.

(** Page number of the last byte relative to the first. *)
Definition span (va len : Z) : Z := if 0 <? len then vpn (va + len - 1) - vpn va + 1 else 0.

Lemma copyin_mapped s own free r a fuel : forall va len dst,
  vm_inv (ps_k s) own free -> user_pt (kmem_mem (ps_k s)) own r ->
  0 <= va -> 0 <= len -> va + len <= TRAPFRAME -> span va len < Z.of_nat fuel ->
  user_range (ps_k s) r va len ->
  copyin_loop fuel r va len a dst s = Ret (0, dst ++ user_bytes (ps_k s) r va (Z.to_nat len)) s.
Proof.
  induction fuel as [|fuel IH]; intros va len dst Hi Hu Hva Hlen Htop Hspan Hr; cbn [copyin_loop].
  { unfold span in Hspan. destruct (Z.ltb_spec 0 len); [|lia]. unfold vpn, PGSIZE in *. zlia. }
  unfold span in Hspan. destruct (Z.ltb_spec 0 len) as [Hl|Hl].
  2: { assert (len = 0) as -> by lia. simpl. by rewrite app_nil_r. }
  pose proof (PGROUNDDOWN_le va) as Hle. pose proof (PGROUNDDOWN_aligned va) as Hal.
  assert (Hd0 : 0 <= PGROUNDDOWN va) by (rewrite PGROUNDDOWN_sub in *; unfold PGSIZE in *; zlia).
  set (n := Z.min (PGSIZE - (va - PGROUNDDOWN va)) len).
  assert (Hn : 0 < n <= len) by (unfold n; lia).
  rewrite (bind_ret _ _ _ _ _ (fault_in_mapped s own free r (PGROUNDDOWN va) a (ret tt) (ret tt) Hi Hu ltac:(lia)
    ltac:(rewrite (lookup_vpn _ _ _ va (vpn_rounddown va)); apply Hr; lia))).
  rewrite (bind_ret get s s s _ eq_refl). fold n.
  rewrite user_bytes_page by lia.
  change TRAPFRAME with (67108862 * 4096) in *. rewrite u64_small by (unfold PGSIZE in *; lia).
  destruct (Z.eq_dec n len) as [Hnl|Hnl].
  - rewrite Hnl, Z.sub_diag. destruct fuel as [|fuel]; [unfold vpn, PGSIZE in *; zlia|]. simpl. done.
  - assert (Hnv : n = PGSIZE - (va - PGROUNDDOWN va)) by (unfold n in *; lia).
    replace (PGROUNDDOWN va + PGSIZE) with (va + n) by lia.
    rewrite IH; try done; try lia.
    + rewrite <- app_assoc.
      replace (Z.to_nat len) with (Z.to_nat n + Z.to_nat (len - n))%nat by lia.
      by rewrite user_bytes_app, Z2Nat.id by lia.
    + unfold span. destruct (Z.ltb_spec 0 (len - n)); [|lia].
      replace (va + n + (len - n) - 1) with (va + len - 1) by lia.
      assert (vpn (va + n) = vpn va + 1); [|lia].
      rewrite Hnv, <- (vpn_rounddown va), <- vpn_succ. f_equal. lia.
    + intros x Hx. apply Hr. lia.
Qed.

Lemma span_bound va len : 0 <= len -> span va len < Z.of_nat (Z.to_nat (len / PGSIZE) + 3).
Proof. intros. unfold span, vpn, PGSIZE. destruct (Z.ltb_spec 0 len); zlia. Qed.

(** [copyin] from a range whose pages are all mapped for the user returns
    0 with exactly the bytes the process sees there, whatever the range's
    position relative to page boundaries, and changes nothing. *)
Theorem copyin_reads_user_bytes (s : pstate) (own : gmap Z use) (free : list Z) (r srcva len scause : Z)
  (Hinv : vm_inv (ps_k s) own free) (Hupt : user_pt (kmem_mem (ps_k s)) own r)
  (Hrange : 0 <= srcva /\ 0 <= len /\ srcva + len <= TRAPFRAME)
  (Hmapped : user_range (ps_k s) r srcva len) :
  copyin r srcva len scause s = Ret (0, user_bytes (ps_k s) r srcva (Z.to_nat len)) s.
Proof.
  destruct Hrange as (? & ? & ?). unfold copyin.
  rewrite (copyin_mapped s own free); try done. by apply span_bound.
Qed.

(** * Faults outside the address space *)

(** A fault at an address that is neither swapped, nor below the heap
    start, nor below the process size is rejected with -1, but the frame taken
    for it is not given back: it is off the free list and belongs to no one. *)
Theorem invalid_fault_leaks_frame (s : pstate) (own : gmap Z use) (m : Z) (free : list Z) (va : Z) (a : access)
  (Hok : paging_ok s own (m :: free)) (Hva : 0 <= va < MAXVA)
  (Hsw : swapped_at (ps_p s) (PGROUNDDOWN va) = None)
  (Hout : p_heap_start (ps_p s) <= PGROUNDDOWN va /\ p_sz (ps_p s) <= PGROUNDDOWN va) :
  returns (handle_pgfault (p_pagetable (ps_p s)) va a s) (fun r s' =>
    r = -1 /\ vm_inv (ps_k s') own free /\ own !! m = None /\ m ∉ free).
Proof.
  unfold handle_pgfault. destruct (Z.leb_spec MAXVA va); [lia|].
  eapply bind_returns with (P := fun r s' => r = Some m /\ exists k2, s' = put_k k2 s /\ taken s own (m :: free) k2 free m).
  { unfold pgfault_frame. eapply bind_returns; [apply vm_returns, (kalloc_alloced _ own), Hok|].
    intros r s' (k & -> & -> & Ha). pose proof (valid_page_pos _ (held_valid _ _ _ (al_held _ _ _ _ _ _ Ha))).
    destruct (Z.eqb_spec m 0); [lia|]. simpl. split; [done|]. exists k. split; [done|]. by split. }
  intros r s' (-> & k2 & -> & Ht). destruct (memset_ok _ _ _ _ _ _ Ht) as (k3 & Hms & [_ Ha3] & _).
  rewrite (bind_ret _ _ _ _ _ Hms), (bind_ret _ _ _ _ _ (take_swapped_none (put_k k3 s) _ Hsw)).
  unfold fault_fresh, bind, myproc, gets. simpl.
  destruct (Z.ltb_spec (PGROUNDDOWN va) (p_heap_start (ps_p s))); [lia|].
  destruct (Z.leb_spec (p_heap_start (ps_p s)) (PGROUNDDOWN va)); [|lia].
  destruct (Z.ltb_spec (PGROUNDDOWN va) (p_sz (ps_p s))); [lia|]. simpl.
  split_and!; [done|apply Ha3|apply (al_held _ _ _ _ _ _ Ha3)..].
Qed.

(** * Copying out *)

Lemma walkaddr_unmapped s own free r va :
  vm_inv (ps_k s) own free -> is_root own r -> 0 <= va -> mapped (ps_k s) r va = false ->
  walkaddr r va (ps_k s) = Ret 0 (ps_k s).
Proof.
  intros Hi Hr Hva Hm. rewrite (walkaddr_ok (ps_k s) own free) by done.
  unfold mapped in Hm. by rewrite Hm, andb_false_r.
Qed.

(** Reading the entry of a mapped page. *)
Lemma load_pte s own free r va :
  vm_inv (ps_k s) own free -> is_root own r -> 0 <= va < MAXVA -> mapped (ps_k s) r va = true ->
  exists pte, 0 < pte /\ vm (walk r va false) s = Ret pte s /\
    vm (kload pte) s = Ret (lookup_pte (kmem_mem (ps_k s)) r va) s.
Proof.
  intros Hi Hr Hva Hm. exists (slot_at (kmem_mem (ps_k s)) 2 r va).
  destruct (slot_at_root (ps_k s) own free r va Hi Hr Hva) as [[_ Hl]|(p0 & _ & _ & Hpos & Hl)].
  { unfold mapped in Hm. by rewrite Hl in Hm. }
  split_and!; [done|apply vm_read, walk_noalloc; lia|]. apply vm_read. unfold kload, gets. by rewrite Hl.
Qed.

Definition any_exit (st : Z) (_ : pstate) : Prop := st = -1.

(** [copyout] to a page that is not in memory and whose kind is mapped
    read-only (a fresh heap page, a swapped page, text) never succeeds: the
    page is faulted in without write permission, the check for it fails, and
    the call returns -1 with nothing copied. *)
Theorem copyout_to_absent_page_fails (s : pstate) (own : gmap Z use) (free : list Z) (dstva : Z)
  (b : Z) (src : list Z) (scause : Z)
  (Hok : paging_ok s own free) (Hva : 0 <= dstva < TRAPFRAME)
  (Hm : mapped (ps_k s) (p_pagetable (ps_p s)) dstva = false)
  (Hor : free <> [] \/ 0 < p_num_resident (ps_p s))
  (Helf : elf_ok (content (ps_fs s) (p_exec_ip (ps_p s))))
  (Hseq : 0 <= p_next_fifo_seq (ps_p s) < 2 ^ 31 - 1)
  (Hro : has (expected_perm s (PGROUNDDOWN dstva)) PTE_W = false) :
  ends (copyout (p_pagetable (ps_p s)) dstva (b :: src) scause s) (fun r _ => r = -1) any_exit.
Proof.
  unfold copyout. rewrite Nat.add_comm. cbn [Nat.add copyout_loop length Nat.eqb].
  assert (TRAPFRAME < MAXVA) by done. pose proof (PGROUNDDOWN_le dstva).
  assert (0 <= PGROUNDDOWN dstva) by (rewrite PGROUNDDOWN_sub in *; unfold PGSIZE in *; zlia).
  destruct (Z.leb_spec MAXVA (PGROUNDDOWN dstva)); [lia|].
  set (r := p_pagetable (ps_p s)) in *. set (va0 := PGROUNDDOWN dstva) in *.
  assert (Hm0 : mapped (ps_k s) r va0 = false).
  { unfold mapped. by rewrite (lookup_vpn _ _ _ dstva (vpn_rounddown dstva)). }
  assert (Hid : PGROUNDDOWN va0 = va0) by (apply PGROUNDDOWN_id, PGROUNDDOWN_aligned).
  eapply bind_ends with (P := fun o s' => o = None \/ exists own' free' pa, o = Some pa /\ paging_ok s' own' free' /\
    faulted s va0 s').
  - unfold fault_in. rewrite (bind_ret _ _ _ _ _ (vm_read _ _ _ (walkaddr_unmapped s own free r va0
      (pk_vm _ _ _ Hok) (upt_root _ _ _ (pk_upt _ _ _ Hok)) ltac:(lia) Hm0))). simpl.
    eapply bind_ends.
    { eapply ends_mono; [apply (handle_pgfault_ok s own free va0); try done; lia|intros x s' Hp; exact Hp|].
      by intros st s' [[-> _]|[-> _]]. }
    rewrite Hid. intros x s1 ((own1 & free1 & Hok1) & [->|[-> Hf]]); simpl; [by left|].
    eapply bind_ends with (P := fun _ s' => s' = s1).
    { apply returns_ends. eapply returns_mono; [apply vm_returns|intros y s' (k & -> & Hk); exact Hk].
      rewrite (walkaddr_ok (ps_k s1) own1 free1); [|apply Hok1| |lia].
      - by destruct s1.
      - unfold r. rewrite <- (fa_pt _ _ _ Hf). apply (pk_upt _ _ _ Hok1). }
    intros pa s2 ->. destruct (pa =? 0); simpl; [by left|]. right. eauto 10.
  - intros o s1 [->|(own1 & free1 & pa & -> & Hok1 & Hf)]; [done|].
    destruct (fa_page _ _ _ Hf) as (HV & HU & Hfl). rewrite <- (fa_pt _ _ _ Hf) in HV.
    destruct (load_pte s1 own1 free1 (p_pagetable (ps_p s1)) va0) as (pte & _ & Hw & Hl);
      [apply Hok1|apply (pk_upt _ _ _ Hok1)|lia|exact HV|].
    rewrite (fa_pt _ _ _ Hf) in Hw, Hl. rewrite (bind_ret _ _ _ _ _ Hw), (bind_ret _ _ _ _ _ Hl).
    assert (Hw0 : has (lookup_pte (kmem_mem (ps_k s1)) r va0) PTE_W = false).
    { unfold r. rewrite has_flags, Hfl, has_lor, Hro; [done|flags]. }
    fold r. by rewrite Hw0.
Qed.

(** * Write faults *)

(** Changing entries without changing what they map. *)
Lemma paging_ok_reflag s own free k' :
  paging_ok s own free -> vm_inv k' own free ->
  (forall va, 0 <= va < MAXVA ->
     let e := lookup_pte (kmem_mem (ps_k s)) (p_pagetable (ps_p s)) va in
     let e' := lookup_pte (kmem_mem k') (p_pagetable (ps_p s)) va in
     has e' PTE_V = has e PTE_V /\ has e' PTE_U = has e PTE_U /\ PTE2PA e' = PTE2PA e) ->
  paging_ok (put_k k' s) own free.
Proof.
  intros [O1 [Hr Hmp Hfr] O3 O4 O5 O6 O7 O8] Hi Hsame. assert (TRAPFRAME < MAXVA) by done.
  constructor; cbn [ps_k ps_p ps_fs put_k]; try done.
  - constructor; [done| |].
    + intros va Hva. destruct (Hsame va ltac:(lia)) as (-> & _ & ->). by apply Hmp.
    + intros f v Hf. destruct (Hfr f v Hf) as (Hv & ? & ?). pose proof (frame_va v Hv).
      destruct (Hsame (v * PGSIZE) ltac:(lia)) as (-> & _ & ->). done.
  - intros i Hx. destruct (O7 i Hx) as ((Hal & Hva) & ? & ?). cbn zeta.
    destruct (Hsame (rp_va (p_resident_pages (ps_p s) i)) ltac:(lia)) as (-> & -> & _). done.
  - intros i Hx. destruct (O8 i Hx) as ((Hal & Hva) & ?). cbn zeta. unfold mapped.
    destruct (Hsame (sp_va (p_swapped_pages (ps_p s) i)) ltac:(lia)) as (-> & _ & _). done.
Qed.

Lemma paging_ok_dirty s own free va : paging_ok s own free ->
  paging_ok (put_p (mark_dirty (ps_p s) va) s) own free.
Proof.
  intros [O1 O2 O3 O4 O5 O6 O7 O8]. unfold mark_dirty. set (p := ps_p s) in *.
  destruct (scan _ _) as [i|] eqn:Hs; [|by constructor]. apply scan_Some in Hs as (Hi & _).
  set (rp := mk_rp _ _ 1).
  assert (Hrp : forall j, rp_va (upd (p_resident_pages p) i rp j) = rp_va (p_resident_pages p j) /\
                          rp_seq (upd (p_resident_pages p) i rp j) = rp_seq (p_resident_pages p j)).
  { intros j. unfold upd. destruct (Z.eqb_spec j i) as [->|]; done. }
  constructor; cbn [ps_k ps_p ps_fs put_p]; try done.
  - by destruct p.
  - destruct O4 as [R1 R2 R3]. destruct p; constructor; simpl in *; [done| |].
    + intros j Hj. destruct (Hrp j) as [_ ->]. by apply R2.
    + intros j k Hj Hk. destruct (Hrp j) as [-> ->], (Hrp k) as [-> ->]. by apply R3.
  - destruct O5. by destruct p.
  - unfold swapfile_ok in *. by destruct p.
  - intros j Hj. assert (Hj' : 0 <= j < p_num_resident p) by (by destruct p).
    specialize (O7 j Hj'). destruct (Hrp j) as [Hva _]. destruct p; simpl in *. by rewrite Hva.
  - intros j Hj. destruct p; apply O8; exact Hj.
Qed.

Lemma mark_dirty_sets p va i : 0 <= i < p_num_resident p -> rp_va (p_resident_pages p i) = va ->
  (forall j, 0 <= j < p_num_resident p -> rp_va (p_resident_pages p j) = va -> j = i) ->
  rp_dirty (p_resident_pages (mark_dirty p va) i) = 1.
Proof.
  intros Hi Hva Huniq. unfold mark_dirty.
  destruct (scan (fun i => rp_va (p_resident_pages p i) =? va) (p_num_resident p)) as [k|] eqn:Hs.
  - apply scan_Some in Hs as (Hk & He & _). apply Z.eqb_eq in He.
    pose proof (Huniq k Hk He) as ->. destruct p; simpl. by rewrite upd_eq.
  - pose proof (scan_None _ _ Hs i Hi) as Hf. apply Z.eqb_neq in Hf. done.
Qed.

Lemma PTE2PA_flag e f : 0 <= f < 1024 -> PTE2PA (Z.lor e f) = PTE2PA e.
Proof.
  intros Hf. unfold PTE2PA. do 2 f_equal. rewrite Z.shiftr_lor, (Z.shiftr_div_pow2 f) by lia.
  rewrite (Z.div_small f) by (change (2 ^ 10) with 1024; lia). apply Z.lor_0_r.
Qed.

(** The first write to a read-only resident page of a writable region is
    noticed: the trap grants write permission in the page's entry (its frame
    and contents stay), marks the page dirty in the resident set so that
    eviction will save it, and keeps the paging invariant. *)
Theorem write_fault_marks_dirty (s : pstate) (own : gmap Z use) (free : list Z) (va i : Z)
  (Hok : paging_ok s own free) (Hva : 0 <= va < TRAPFRAME)
  (Hi : 0 <= i < p_num_resident (ps_p s) /\ rp_va (p_resident_pages (ps_p s) i) = PGROUNDDOWN va)
  (Hw : has (lookup_pte (kmem_mem (ps_k s)) (p_pagetable (ps_p s)) va) PTE_W = false)
  (H64 : 0 <= lookup_pte (kmem_mem (ps_k s)) (p_pagetable (ps_p s)) va < 2 ^ 64)
  (Hcan : can_write (ps_p s) (PGROUNDDOWN va) = true) :
  returns (usertrap_pgfault 15 va s) (fun _ s' =>
    paging_ok s' own free /\
    lookup_pte (kmem_mem (ps_k s')) (p_pagetable (ps_p s)) va =
      Z.lor (lookup_pte (kmem_mem (ps_k s)) (p_pagetable (ps_p s)) va) PTE_W /\
    rp_dirty (p_resident_pages (ps_p s') i) = 1 /\
    page_bytes (ps_k s') (p_pagetable (ps_p s)) va = page_bytes (ps_k s) (p_pagetable (ps_p s)) va).
Proof.
  destruct Hi as [Hi Hia]. assert (TRAPFRAME < MAXVA) by done. set (r := p_pagetable (ps_p s)) in *.
  pose proof (pk_mapped _ _ _ Hok i Hi) as (_ & HV & _). rewrite Hia in HV. fold r in HV.
  rewrite (lookup_vpn _ _ _ va (vpn_rounddown va)) in HV.
  pose proof (pk_vm _ _ _ Hok) as Hinv. pose proof (upt_root _ _ _ (pk_upt _ _ _ Hok)) as Hr. fold r in Hr.
  destruct (slot_at_root (ps_k s) own free r va Hinv Hr ltac:(lia)) as [[_ Hl]|(p0 & Hp0 & Hs & Hpos & Hl)].
  { by rewrite Hl in HV. }
  set (e := lookup_pte (kmem_mem (ps_k s)) r va) in *.
  unfold usertrap_pgfault. destruct (Z.leb_spec MAXVA va); [lia|].
  rewrite (bind_ret myproc (ps_p s) s s _ eq_refl). fold r.
  rewrite (bind_ret _ _ _ _ _ (vm_read _ _ _ (walk_noalloc (ps_k s) r va ltac:(lia)))).
  destruct (Z.eqb_spec (slot_at (kmem_mem (ps_k s)) 2 r va) 0); [lia|].
  assert (Hld : vm (kload (slot_at (kmem_mem (ps_k s)) 2 r va)) s = Ret e s)
    by (apply vm_read; unfold kload, gets; by rewrite <- Hl).
  rewrite (bind_ret _ _ _ _ _ Hld).
  rewrite HV, Hw. cbn [negb andb Z.eqb]. simpl. rewrite Hcan. simpl. rewrite Hs.
  set (k' := leaf_written (ps_k s) p0 (PX 0 va) (Z.lor e PTE_W)).
  change (set_mem (store64 (kmem_mem (ps_k s)) (p0 + 8 * PX 0 va) (Z.lor e PTE_W)) (ps_k s)) with k'.
  assert (He' : lookup_pte (kmem_mem k') r va = Z.lor e PTE_W).
  { eapply (leaf_lookup_eq (ps_k s) own free); try done; [lia|].
    change (256 ^ 8) with (2 ^ 64). apply lor_range; [lia|done|done]. }
  assert (Hi' : vm_inv k' own free) by (eapply leaf_inv; [done|done|apply PX_range; lia]).
  assert (Hok' : paging_ok (put_k k' s) own free).
  { apply paging_ok_reflag; [done|done|]. intros va' Hva'. fold r. cbn zeta.
    destruct (decide (vpn va' = vpn va)) as [Hd|Hd].
    - rewrite !(lookup_vpn _ _ _ _ Hd), He'. fold e. rewrite !has_lor, !orb_false_r by done.
      split_and!; [done..|]. by apply PTE2PA_flag.
    - unfold k'. rewrite (leaf_lookup (ps_k s) own free r va) by (done || congruence). done. }
  split_and!.
  - apply (paging_ok_dirty (put_k k' s) own free _ Hok').
  - done.
  - apply mark_dirty_sets; [done|done|]. intros j Hj He. apply (rs_inj _ (pk_resident _ _ _ Hok)); [done|done|].
    right. congruence.
  - unfold page_bytes. cbn [ps_k put_p put_k]. rewrite He', PTE2PA_flag by done. fold e. apply bytes_at_ext. intros x Hx.
    pose proof (upt_map _ _ _ (pk_upt _ _ _ Hok) va Hva HV) as Hf. fold r e in Hf. symmetry.
    eapply (leaf_same (ps_k s) own free r _ p0 _ _ (PTE2PA e) Hinv Hp0); [apply PX_range; lia|by eapply inv_aligned| |].
    + intros Heq. congruence.
    + change (Z.of_nat (Z.to_nat PGSIZE)) with PGSIZE in Hx. done.
Qed.

(** * sbrk *)

(** [sbrk] with a positive count is lazy: it returns the old size and only
    raises the size, or returns -1 and changes nothing when the new size would
    wrap around or exceed TRAPFRAME; no page is allocated or mapped. *)
Theorem sbrk_grow_is_lazy (s : pstate) (n : Z)
  (Hsz : 0 <= p_sz (ps_p s) <= TRAPFRAME) (Hn : 0 < n < 2 ^ 31) :
  sys_sbrk n s =
    if p_sz (ps_p s) + n <=? TRAPFRAME
    then Ret (p_sz (ps_p s)) (put_p (set_sz (p_sz (ps_p s) + n) (ps_p s)) s)
    else Ret (2 ^ 64 - 1) s.
Proof.
  change TRAPFRAME with (67108862 * 4096) in *. unfold sys_sbrk, bind, myproc, gets.
  destruct (Z.ltb_spec 0 n); [|lia]. rewrite u64_small by lia.
  change TRAPFRAME with (67108862 * 4096).
  destruct (Z.ltb_spec (p_sz (ps_p s) + n) (p_sz (ps_p s))); [lia|]. simpl.
  destruct (Z.ltb_spec (67108862 * 4096) (p_sz (ps_p s) + n)),
    (Z.leb_spec (p_sz (ps_p s) + n) (67108862 * 4096)); try lia; try done.
  simpl. by rewrite u64_small by lia.
Qed.

(** [sbrk] with a negative count lowers the size and gives the frames above
    it back, but it leaves the resident set alone: when a resident page lies
    wholly above the new size its entry becomes stale, and no ownership
    assignment satisfies the paging invariant any more. *)
Theorem sbrk_shrink_leaves_stale_entries (s : pstate) (own : gmap Z use) (free : list Z) (n i : Z)
  (Hok : paging_ok s own free) (Hsz : p_sz (ps_p s) <= TRAPFRAME) (Hn : 0 < n <= p_sz (ps_p s))
  (Hi : 0 <= i < p_num_resident (ps_p s))
  (Hcut : PGROUNDUP (p_sz (ps_p s) - n) <= rp_va (p_resident_pages (ps_p s) i) < p_sz (ps_p s)) :
  returns (sys_sbrk (- n) s) (fun r s' => r = p_sz (ps_p s) /\ p_sz (ps_p s') = p_sz (ps_p s) - n /\
    forall own' free', ~ paging_ok s' own' free').
Proof.
  change TRAPFRAME with (67108862 * 4096) in *. set (p := ps_p s) in *.
  unfold sys_sbrk. rewrite (bind_ret myproc p s s _ eq_refl).
  destruct (Z.ltb_spec 0 (- n)); [lia|]. destruct (Z.ltb_spec (- n) 0); [|lia].
  rewrite u64_small by lia. replace (p_sz p + - n) with (p_sz p - n) by lia.
  eapply bind_returns; [apply vm_returns, (uvmdealloc_ok (ps_k s) own free); [apply Hok|apply Hok|lia|]|].
  { change TRAPFRAME with (67108862 * 4096). lia. }
  intros sz s' (k' & -> & -> & own' & free' & freed & U). rewrite Z.min_r by lia. simpl. fold p.
  split_and!; [done|by destruct p|]. intros own2 free2 Hok2.
  pose proof (pk_mapped _ _ _ Hok i Hi) as ((Hal & Hr) & _). fold p in Hal, Hr.
  set (va := rp_va (p_resident_pages p i)) in *.
  assert (Hgone : has (lookup_pte (kmem_mem k') (p_pagetable p) va) PTE_V = false).
  { apply (um_gone _ _ _ _ _ _ _ _ _ U); [done|]. split; [lia|].
    destruct (roundup_user (p_sz p)) as (? & ? & _); [change TRAPFRAME with (67108862 * 4096); lia|].
    destruct (roundup_user (p_sz p - n)) as (? & _ & _); [change TRAPFRAME with (67108862 * 4096); lia|].
    unfold vpn, aligned, PGSIZE in *. zlia. }
  assert (Hi2 : 0 <= i < p_num_resident (set_sz (p_sz p - n) p)) by (by destruct p).
  pose proof (pk_mapped _ _ _ Hok2 i Hi2) as (_ & HV & _). cbn [ps_p ps_k put_p put_k] in HV.
  assert (Hq : rp_va (p_resident_pages (set_sz (p_sz p - n) p) i) = va /\
    p_pagetable (set_sz (p_sz p - n) p) = p_pagetable p) by (unfold va; by destruct p).
  destruct Hq as [Hq1 Hq2]. rewrite Hq1, Hq2 in HV. congruence.
Qed.

End PagingClaims.
