(* ===== verification/Machine.v ===== *)
(** A concrete machine: the layout of the qemu build, a file layer of byte
    strings, and a small memory with two page tables, together with boolean
    checkers for the page-table invariants that are proved sound.  The
    instances show that the hypotheses of the theorems can be met. *)
From S2P Require Import Prelude Riscv Kalloc Vm Uvm FileLayer Paging PagingOk.
Open Scope kern_scope.

(** * Layout and file layer *)

#[export] Instance qemu_layout : Layout := {|
  kend := 2147622912; etext := 2147516416; trampoline := 2147512320;
  etext_aligned := eq_refl; trampoline_aligned := eq_refl;
  kernel_above_base := eq_refl; etext_below_end := ltac:(done);
  trampoline_in_text := ltac:(done); kend_below_top := eq_refl |}.

Definition bf_readi (ip off n : Z) : M (Z -> list Z) (list Z) :=
  gets (fun f => take (Z.to_nat n) (drop (Z.to_nat off) (f ip))).
Definition bf_writei (ip off : Z) (bs : list Z) : M (Z -> list Z) Z := fun f =>
  if off <=? Z.of_nat (length (f ip))
  then Ret (Z.of_nat (length bs)) (upd f ip (splice (Z.to_nat off) bs (f ip)))
  else Ret (-1) f.

Lemma bf_writei_spec (f : Z -> list Z) ip off bs : True -> 0 <= off <= Z.of_nat (length (f ip)) ->
  returns (bf_writei ip off bs f) (fun r f' => True /\ (forall j, j <> ip -> f' j = f j) /\
    (r = Z.of_nat (length bs) -> f' ip = splice (Z.to_nat off) bs (f ip))).
Proof.
  intros _ [_ Hoff]. unfold bf_writei.
  destruct (Z.leb_spec off (Z.of_nat (length (f ip)))); [|lia]. simpl. split_and!; [done| |].
  - intros j Hj. by apply upd_ne.
  - intros _. apply upd_eq.
Qed.

Lemma bf_readi_spec (f : Z -> list Z) ip off n : True -> 0 <= off < 2 ^ 32 -> 0 <= n < 2 ^ 31 ->
  returns (bf_readi ip off n f) (fun bs f' => True /\ (forall j, f' j = f j) /\
    bs = take (Z.to_nat n) (drop (Z.to_nat off) (f ip))).
Proof. done. Qed.

#[export] Instance byte_files : FileLayer := {|
  fs := Z -> list Z; fs_ok := fun _ => True; content := fun f => f;
  readi := bf_readi; writei := bf_writei;
  readi_spec := bf_readi_spec; writei_spec := bf_writei_spec |}.

(** * Checking the invariants *)

Definition own_of (l : list (Z * use)) : gmap Z use := list_to_map l.

Definition below (n : nat) : list Z := Z.of_nat <$> seq 0 n.

#[global] Arguments below : simpl never.

Lemma elem_of_below n i : 0 <= i < Z.of_nat n -> i ∈ below n.
Proof.
  intros Hi. apply list_elem_of_fmap. exists (Z.to_nat i). split; [lia|]. apply elem_of_seq. lia.
Qed.

Definition valid_pageb (p : Z) : bool := (p mod PGSIZE =? 0) && (kend <=? p) && (p <? PHYSTOP).

Fixpoint chainb (m : mem) (p : Z) (l : list Z) : bool :=
  match l with
  | [] => p =? 0
  | q :: l' => (p =? q) && valid_pageb q && chainb m (load64 m q) l'
  end.

(** The children of an interior table page. *)
Definition childrenb (m : mem) (own : gmap Z use) (p : Z) (u : use) : bool :=
  match u with
  | Table r l pre =>
      (0 <=? l) && (l <=? 2) &&
      ((l =? 0) || forallb (fun i => let e := load64 m (p + 8 * i) in
         negb (has e PTE_V) || bool_decide (own !! PTE2PA e = Some (Table r (l - 1) (pre * 512 + i))) &&
           (Z.land e (Z.lor (Z.lor PTE_R PTE_W) PTE_X) =? 0)) (below 512))
  | Frame _ _ => true
  end.

(** The place of a table page in its page table. *)
Definition linkedb (m : mem) (own : gmap Z use) (l : list (Z * use)) (p : Z) (u : use) : bool :=
  match u with
  | Table r lv pre =>
      (0 <=? pre) && (pre * 2 ^ (21 + 9 * lv) <? MAXVA) &&
      ((lv =? 2) && (p =? r) && (pre =? 0) ||
       existsb (fun '(q, _) => bool_decide (own !! q = Some (Table r (lv + 1) (pre / 512))) &&
         (let e := load64 m (q + 8 * (pre mod 512)) in has e PTE_V && (PTE2PA e =? p))) l)
  | Frame _ _ => true
  end.

Definition vm_invb (s : kmem) (l : list (Z * use)) (free : list Z) : bool :=
  let own := own_of l in
  chainb (kmem_mem s) (kmem_freelist s) free && bool_decide (NoDup free) &&
  forallb (fun '(p, u) => valid_pageb p && childrenb (kmem_mem s) own p u && linkedb (kmem_mem s) own l p u) l &&
  forallb (fun p => bool_decide (own !! p = None)) free.

Lemma valid_pageb_sound p : valid_pageb p = true -> valid_page p.
Proof.
  unfold valid_pageb, valid_page, aligned. rewrite !andb_true_iff, Z.eqb_eq, Z.leb_le, Z.ltb_lt. tauto.
Qed.

Lemma chainb_sound m l : forall p, chainb m p l = true -> chain m p l.
Proof.
  induction l as [|q l IH]; intros p; simpl; [apply Z.eqb_eq|].
  rewrite !andb_true_iff, Z.eqb_eq. intros [[-> Hv] Hc]. split_and!; [done|by apply valid_pageb_sound|by apply IH].
Qed.

Lemma own_of_elem l p u : own_of l !! p = Some u -> (p, u) ∈ l.
Proof. apply elem_of_list_to_map_2. Qed.

Lemma vm_invb_sound s l free : vm_invb s l free = true -> vm_inv s (own_of l) free.
Proof.
  unfold vm_invb. rewrite !andb_true_iff. intros [[[Hc Hnd] Hl] Hf].
  rewrite forallb_forall in Hl, Hf.
  assert (Hall : forall p u, own_of l !! p = Some u ->
    valid_pageb p = true /\ childrenb (kmem_mem s) (own_of l) p u = true).
  { intros p u Hp. apply own_of_elem, list_elem_of_In in Hp. apply Hl in Hp. apply andb_true_iff in Hp as [Hp _]. by apply andb_true_iff in Hp. }
  assert (Hlk : forall p u, own_of l !! p = Some u -> linkedb (kmem_mem s) (own_of l) l p u = true).
  { intros p u Hp. apply own_of_elem, list_elem_of_In in Hp. apply Hl in Hp. by apply andb_true_iff in Hp as [_ Hp]. }
  assert (Hch : forall p r lv pre i, own_of l !! p = Some (Table r lv pre) -> 0 < lv -> 0 <= i < 512 ->
    let e := load64 (kmem_mem s) (p + 8 * i) in has e PTE_V = true ->
    own_of l !! PTE2PA e = Some (Table r (lv - 1) (pre * 512 + i)) /\ Z.land e (Z.lor (Z.lor PTE_R PTE_W) PTE_X) = 0).
  { intros p r lv pre i Hp Hlv Hi e He. destruct (Hall p _ Hp) as [_ Hb]. cbn [childrenb] in Hb.
    rewrite !andb_true_iff, orb_true_iff, Z.eqb_eq in Hb. destruct Hb as [_ [?|Hb]]; [lia|].
    rewrite forallb_forall in Hb. specialize (Hb i ltac:(apply list_elem_of_In, elem_of_below; lia)).
    fold e in Hb. rewrite He in Hb. cbn [negb orb] in Hb. rewrite andb_true_iff, bool_decide_eq_true, Z.eqb_eq in Hb. exact Hb. }
  constructor.
  - split; [by apply chainb_sound|by apply bool_decide_eq_true in Hnd].
  - intros p u Hp. by apply valid_pageb_sound, (Hall p u).
  - intros p r lv pre Hp. destruct (Hall p _ Hp) as [_ Hb]. cbn [childrenb] in Hb.
    rewrite !andb_true_iff, !Z.leb_le in Hb. lia.
  - intros p Hp. apply list_elem_of_In, Hf in Hp. by apply bool_decide_eq_true in Hp.
  - intros p r lv pre i Hp Hlv Hi e He. by apply (Hch p r lv pre i).
  - intros p r lv pre i Hp Hlv Hi e He. by apply (Hch p r lv pre i).
  - intros p r lv pre Hp. pose proof (Hlk p _ Hp) as Hb. cbn [linkedb] in Hb. rewrite !andb_true_iff, Z.leb_le, Z.ltb_lt in Hb.
    destruct Hb as [[H0 H1] _]. assert (0 <= lv) by (destruct (Hall p _ Hp) as [_ Hc']; cbn [childrenb] in Hc'; rewrite !andb_true_iff, !Z.leb_le in Hc'; lia).
    exists (pre * 2 ^ (21 + 9 * lv)). assert (0 < 2 ^ (21 + 9 * lv)) by (apply Z.pow_pos_nonneg; lia).
    split; [nia|]. unfold prefix. by rewrite Z.div_mul by lia.
  - intros p r lv pre Hp. pose proof (Hlk p _ Hp) as Hb. cbn [linkedb] in Hb. rewrite !andb_true_iff, orb_true_iff, !andb_true_iff, !Z.eqb_eq in Hb.
    destruct Hb as [_ [Hroot|Hb]]; [left; tauto|right]. apply existsb_exists in Hb as ([q u] & _ & Hb).
    rewrite !andb_true_iff, bool_decide_eq_true, Z.eqb_eq in Hb. destruct Hb as (Hq & He & Hpa).
    exists q, (pre / 512), (pre mod 512). split; [done|]. split; [apply Z.mod_pos_bound; lia|]. split; [rewrite Z.mul_comm; by apply Z.div_mod|done].
Qed.

(** The user entries of page table [r] against its frames. *)
Definition user_ptb (m : mem) (l : list (Z * use)) (r : Z) : bool :=
  let own := own_of l in
  bool_decide (own !! r = Some (Table r 2 0)) &&
  forallb (fun '(p, u) => match u with
    | Table r' 0 pre => negb (r' =? r) ||
        forallb (fun i => let e := load64 m (p + 8 * i) in
          negb (has e PTE_V) || (vpn TRAPFRAME <=? pre * 512 + i) ||
          bool_decide (own !! PTE2PA e = Some (Frame r (pre * 512 + i)))) (below 512)
    | Table _ _ _ => true
    | Frame r' v => negb (r' =? r) ||
        (0 <=? v) && (v <? vpn TRAPFRAME) && has (lookup_pte m r (v * PGSIZE)) PTE_V &&
        (PTE2PA (lookup_pte m r (v * PGSIZE)) =? p)
    end) l.

Lemma user_ptb_sound s l free r :
  vm_inv s (own_of l) free -> user_ptb (kmem_mem s) l r = true -> user_pt (kmem_mem s) (own_of l) r.
Proof.
  intros Hi. unfold user_ptb. rewrite andb_true_iff, forallb_forall. intros [Hr Hl].
  apply bool_decide_eq_true in Hr. assert (TRAPFRAME < MAXVA) by done. constructor; [done| |].
  - intros va Hva HV.
    destruct (slot_at_root s (own_of l) free r va Hi Hr ltac:(lia)) as [[_ Hz]|(p0 & Hp0 & Hs & _ & Hlk)].
    { by rewrite Hz in HV. }
    specialize (Hl (p0, Table r 0 (prefix 0 va)) ltac:(by apply list_elem_of_In, own_of_elem)).
    cbn beta iota in Hl. rewrite Z.eqb_refl in Hl. cbn [negb orb] in Hl. rewrite forallb_forall in Hl.
    specialize (Hl (PX 0 va) ltac:(apply list_elem_of_In, elem_of_below, PX_range; lia)).
    rewrite <- Hs, <- Hlk, HV in Hl. cbn [negb orb] in Hl. rewrite <- vpn_split in Hl.
    pose proof (vpn_user va Hva). destruct (Z.leb_spec (vpn TRAPFRAME) (vpn va)); [lia|].
    by apply bool_decide_eq_true in Hl.
  - intros f v Hf. specialize (Hl (f, Frame r v) ltac:(by apply list_elem_of_In, own_of_elem)).
    cbn beta iota in Hl. rewrite Z.eqb_refl in Hl. cbn [negb orb] in Hl.
    rewrite !andb_true_iff, Z.leb_le, Z.ltb_lt, Z.eqb_eq in Hl. tauto.
Qed.

(** A page table without level-0 pages maps nothing. *)
Definition emptyb (l : list (Z * use)) (r : Z) : bool :=
  forallb (fun '(_, u) => match u with Table r' 0 _ => negb (r' =? r) | _ => true end) l.

Lemma emptyb_sound s l free r va :
  vm_inv s (own_of l) free -> is_root (own_of l) r -> emptyb l r = true -> 0 <= va < TRAPFRAME ->
  has (lookup_pte (kmem_mem s) r va) PTE_V = false.
Proof.
  intros Hi Hr He Hva. assert (TRAPFRAME < MAXVA) by done. unfold emptyb in He. rewrite forallb_forall in He.
  destruct (slot_at_root s (own_of l) free r va Hi Hr ltac:(lia)) as [[_ Hz]|(p0 & Hp0 & _)]; [by rewrite Hz|].
  specialize (He _ ltac:(by apply list_elem_of_In, (own_of_elem _ _ _ Hp0))). simpl in He.
  by rewrite Z.eqb_refl in He.
Qed.

(** * A small machine *)

(** Page frame [i] of the example. *)
Definition pg (i : Z) : Z := 2264924160 + i * PGSIZE.

(** Two page tables: [pg 0] maps user page 0, through the table pages [pg 2]
    and [pg 3], to the frame [pg 4] with byte 7 at offset 3; [pg 1] is empty.
    The pages 5 to 9 are free. *)
Definition demo_mem : mem :=
  let m := fun x => if x =? pg 4 + 3 then 7 else 0 in
  let m := store64 m (pg 0) (Z.lor (PA2PTE (pg 2)) PTE_V) in
  let m := store64 m (pg 2) (Z.lor (PA2PTE (pg 3)) PTE_V) in
  let m := store64 m (pg 3) (mk_pte (pg 4) (Z.lor PTE_R PTE_U)) in
  let m := store64 m (pg 5) (pg 6) in
  let m := store64 m (pg 6) (pg 7) in
  let m := store64 m (pg 7) (pg 8) in
  store64 m (pg 8) (pg 9).

Definition demo : kmem := mk_kmem demo_mem (pg 5).
Definition demo_uses : list (Z * use) :=
  [(pg 0, Table (pg 0) 2 0); (pg 1, Table (pg 1) 2 0); (pg 2, Table (pg 0) 1 0);
   (pg 3, Table (pg 0) 0 0); (pg 4, Frame (pg 0) 0)].
Definition demo_own : gmap Z use := own_of demo_uses.
Definition demo_free : list Z := [pg 5; pg 6; pg 7; pg 8; pg 9].

Lemma demo_inv : vm_inv demo demo_own demo_free.
Proof. apply vm_invb_sound. vm_compute. reflexivity. Qed.

Lemma demo_upt : user_pt (kmem_mem demo) demo_own (pg 0).
Proof. eapply user_ptb_sound; [apply demo_inv|]. vm_compute. reflexivity. Qed.

Lemma demo_upt1 : user_pt (kmem_mem demo) demo_own (pg 1).
Proof. eapply user_ptb_sound; [apply demo_inv|]. vm_compute. reflexivity. Qed.

Lemma demo_empty va : 0 <= va < TRAPFRAME -> has (lookup_pte (kmem_mem demo) (pg 1) va) PTE_V = false.
Proof.
  intros Hva. eapply emptyb_sound; [apply demo_inv|apply demo_upt1|vm_compute; reflexivity|done].
Qed.

(** The mapped pages of [pg 0] are its frames. *)
Lemma demo_below va : 0 <= va < TRAPFRAME -> has (lookup_pte (kmem_mem demo) (pg 0) va) PTE_V = true -> va < PGSIZE.
Proof.
  intros Hva Hv. pose proof (upt_map _ _ _ demo_upt va Hva Hv) as Hf. apply own_of_elem, list_elem_of_In in Hf.
  assert (Hall : forallb (fun '(_, u) => match u with Frame r v => negb (r =? pg 0) || (v =? 0) | _ => true end) demo_uses = true) by (vm_compute; reflexivity).
  rewrite forallb_forall in Hall. apply Hall in Hf. rewrite Z.eqb_refl in Hf. apply Z.eqb_eq in Hf. unfold vpn, PGSIZE in *. zlia.
Qed.

(** A process on page table [pg 0] whose only page is resident and dirty; its
    executable is an ELF header without program headers, its swap file is
    empty. *)
Definition demo_proc : proc := {|
  p_pid := 1; p_sz := 3 * PGSIZE; p_pagetable := pg 0; p_heap_start := 0; p_exec_ip := 1;
  p_swap_file := Some 2; p_swap_slots := fun _ => 0;
  p_resident_pages := fun _ => mk_rp 0 1 1; p_num_resident := 1;
  p_swapped_pages := fun _ => mk_sp 0 0; p_num_swapped := 0; p_next_fifo_seq := 1;
  p_tf_sp := 0; p_killed := 0; p_num_phdrs := 0; p_phdrs := fun _ => mk_ph 0 0 0 0 0 0 |}.

Definition demo_files : Z -> list Z := fun i => if i =? 1 then replicate 64 0 else [].

Definition demo_ps : pstate := mk_ps demo demo_proc demo_files [].

Lemma demo_paging : paging_ok demo_ps demo_own demo_free.
Proof.
  constructor; cbn [ps_k ps_p ps_fs demo_ps].
  - apply demo_inv.
  - apply demo_upt.
  - done.
  - constructor; simpl; [done|lia|lia].
  - constructor; simpl; [done|lia|done|lia].
  - split; [done|]. simpl. done.
  - intros i Hi. vm_compute. split_and!; done.
  - simpl. lia.
Qed.

Lemma demo_elf : elf_ok (content (ps_fs demo_ps) (p_exec_ip (ps_p demo_ps))).
Proof. vm_compute. split_and!; congruence. Qed.
