(* ===== verification/Witnesses.v ===== *)
(** Concrete instances of the memory-management theorems on the machine of
    [Machine.v]: each applies a theorem at an input that satisfies its
    hypotheses. *)
From S2P Require Import Prelude Riscv Kalloc Vm Uvm Teardown FileLayer Paging PagingOk PagingClaims Machine.
Open Scope kern_scope.

Lemma kalloc_kfree_refine_stack_witness :
  freelist_ok demo demo_free /\ returns (kalloc demo) (fun r s' => r = pg 5 /\ freelist_ok s' (tl demo_free)).
Proof.
  split; [apply demo_inv|].
  eapply returns_mono; [apply (kalloc_kfree_refine_stack demo demo_free), demo_inv|].
  intros r s' (-> & Hf & _). done.
Defined.

Lemma mappages_maps_range_witness :
  returns (mappages (pg 1) 4096 8192 (pg 20) (Z.lor PTE_R PTE_U) demo) (fun res _ => res = 0 \/ res = -1).
Proof.
  eapply returns_mono; [apply (mappages_maps_range demo demo_own demo_free (pg 1) 4096 8192 (pg 20))|].
  - apply demo_inv.
  - apply demo_upt1.
  - done.
  - done.
  - done.
  - done.
  - intros res s' (? & ? & ? & _ & [[-> _]|[-> _]]); auto.
Defined.

Lemma walkaddr_translates_witness : walkaddr (pg 0) 3 demo = Ret (pg 4) demo.
Proof.
  destruct (walkaddr_translates demo demo_own demo_free (pg 0) 3 demo_inv (upt_root _ _ _ demo_upt)) as [H _];
    [done|]. rewrite H. apply (f_equal (fun v => Ret v demo)). vm_compute. reflexivity.
Defined.

Lemma uvmalloc_grows_witness :
  returns (uvmalloc (pg 1) 0 5000 PTE_W demo) (fun res _ => res = 5000 \/ res = 0).
Proof.
  eapply returns_mono; [apply (uvmalloc_grows demo demo_own demo_free (pg 1) 0 5000 PTE_W)|].
  - apply demo_inv.
  - apply demo_upt1.
  - done.
  - done.
  - intros va Hva _. apply demo_empty. change TRAPFRAME with 274877898752. lia.
  - intros res s' (? & ? & _ & [[-> _]|[-> _]]); auto.
Defined.

Lemma uvmdealloc_frees_tail_witness :
  returns (uvmdealloc (pg 0) 4096 0 demo) (fun res s' => res = 0 /\
    exists own' free' freed, free' = freed ++ demo_free /\ vm_inv s' own' free').
Proof.
  eapply returns_mono; [apply (uvmdealloc_frees_tail demo demo_own demo_free (pg 0) 4096 0)|].
  - apply demo_inv.
  - apply demo_upt.
  - done.
  - done.
  - intros res s' (-> & own' & free' & freed & U). split; [done|]. exists own', free', freed. split; apply U.
Defined.

Lemma uvmcopy_duplicates_witness :
  returns (uvmcopy (pg 0) (pg 1) 4096 demo) (fun res _ => res = 0 \/ res = -1).
Proof.
  eapply returns_mono; [apply (uvmcopy_duplicates demo demo_own demo_free (pg 0) (pg 1) 4096)|].
  - apply demo_inv.
  - apply demo_upt.
  - apply demo_upt1.
  - done.
  - done.
  - apply demo_empty.
  - intros res s' (? & ? & _ & [[-> _]|[-> _]]); auto.
Defined.

Lemma evict_page_fifo_witness :
  ends (evict_page demo_ps) (fun r s' => r = 0 /\ exists own' free', paging_ok s' own' free') (swap_exit demo_ps).
Proof.
  eapply ends_mono; [apply (evict_page_fifo demo_ps demo_own demo_free demo_paging eq_refl)| |done].
  intros r s' (-> & _ & own' & free' & Hev). split; [done|]. exists own', free'. apply Hev.
Defined.



Lemma copyin_reads_user_bytes_witness : copyin (pg 0) 2 3 13 demo_ps = Ret (0, [0; 7; 0]) demo_ps.
Proof.
  rewrite (copyin_reads_user_bytes demo_ps demo_own demo_free (pg 0) 2 3 13).
  - apply (f_equal (fun v => Ret (0, v) demo_ps)). vm_compute. reflexivity.
  - apply demo_inv.
  - apply demo_upt.
  - done.
  - intros x Hx. assert (x = 2 \/ x = 3 \/ x = 4) as [->|[->| ->]] by lia; vm_compute; done.
Defined.

Lemma invalid_fault_leaks_frame_witness :
  returns (handle_pgfault (pg 0) 20480 ARead demo_ps) (fun r s' =>
    r = -1 /\ vm_inv (ps_k s') demo_own (tl demo_free)).
Proof.
  eapply returns_mono; [apply (invalid_fault_leaks_frame demo_ps demo_own (pg 5) (tl demo_free) 20480 ARead)|].
  - apply demo_paging.
  - done.
  - done.
  - done.
  - intros r s' (-> & Hv & _). done.
Defined.

Lemma copyout_to_absent_page_fails_witness :
  ends (copyout (pg 0) 4096 [1; 2] 8 demo_ps) (fun r _ => r = -1) any_exit.
Proof.
  apply (copyout_to_absent_page_fails demo_ps demo_own demo_free 4096 1 [2] 8).
  - apply demo_paging.
  - done.
  - vm_compute. reflexivity.
  - by right.
  - apply demo_elf.
  - done.
  - vm_compute. reflexivity.
Defined.

Lemma write_fault_marks_dirty_witness :
  returns (usertrap_pgfault 15 3 demo_ps) (fun _ s' =>
    paging_ok s' demo_own demo_free /\ rp_dirty (p_resident_pages (ps_p s') 0) = 1).
Proof.
  eapply returns_mono; [apply (write_fault_marks_dirty demo_ps demo_own demo_free 3 0)|].
  - apply demo_paging.
  - done.
  - done.
  - vm_compute. reflexivity.
  - vm_compute. done.
  - vm_compute. reflexivity.
  - intros r s' (Hok & _ & Hd & _). done.
Defined.

Lemma sbrk_grow_is_lazy_witness :
  sys_sbrk 10 demo_ps = Ret 12288 (put_p (set_sz 12298 demo_proc) demo_ps).
Proof. rewrite (sbrk_grow_is_lazy demo_ps 10); [done|done|done]. Defined.

Lemma sbrk_shrink_leaves_stale_entries_witness :
  returns (sys_sbrk (- 12288) demo_ps) (fun r s' => r = 12288 /\ forall own' free', ~ paging_ok s' own' free').
Proof.
  eapply returns_mono; [apply (sbrk_shrink_leaves_stale_entries demo_ps demo_own demo_free 12288 0)|].
  - apply demo_paging.
  - done.
  - done.
  - done.
  - done.
  - intros r s' (-> & _ & Hno). done.
Defined.

Lemma proc_freepagetable_releases_witness : returns (proc_freepagetable (pg 0) 5000 demo) (fun _ s' => exists own' freed,
  vm_inv s' own' (freed ++ demo_free) /\ pg 0 ∈ freed /\ own' !! pg 1 = Some (Table (pg 1) 2 0)).
Proof.
  eapply returns_mono; [apply (proc_freepagetable_releases demo demo_own demo_free (pg 0) 5000)|].
  - apply demo_inv.
  - apply demo_upt.
  - done.
  - intros va Hva Hv. pose proof (demo_below va Hva Hv). change (PGROUNDUP 5000) with 8192. unfold PGSIZE in *. lia.
  - intros [] s' (own' & freed & R & _ & _). exists own', freed. split; [apply R|]. split.
    + apply (rl_freed _ _ _ _ _ _ _ R). left. exists 2, 0. vm_compute. reflexivity.
    + rewrite (rl_own _ _ _ _ _ _ _ R). rewrite decide_False; [vm_compute; reflexivity|]. intros Hf.
      apply (rl_freed _ _ _ _ _ _ _ R) in Hf as [(l & pre & Hf)|[v Hf]]; vm_compute in Hf; discriminate.
Defined.
