(* ===== verification/Trap.v ===== *)
(** Traps: the control registers of [kernel/riscv.h], the start of a hart
    ([kernel/start.c]), the interrupt controller ([kernel/plic.c]), the trap
    handlers of [kernel/trap.c] and the dispatch of system calls
    ([kernel/syscall.c]), with the entry and exit code of [trampoline.S] and
    [kernelvec.S].  The handlers of system calls and devices, and [yield], are
    the interface [Kernel]: their code is modelled in other files, on the state
    that each of them uses. *)
From S2P Require Import Prelude Riscv Kalloc Vm Uvm FileLayer Paging.
Open Scope kern_scope.

(** * Registers *)

Inductive csr :=
| mhartid | mstatus | mepc | medeleg | mideleg | mie | menvcfg | mcounteren | pmpcfg0 | pmpaddr0
| sstatus | sip | sie | sepc | stvec | stimecmp | satp | scause | stval | sscratch | time.
(** Their numbers in the instruction set. *)
Definition csr_num (c : csr) : Z :=
  match c with
  | mhartid => 0xF14 | mstatus => 0x300 | mepc => 0x341 | medeleg => 0x302 | mideleg => 0x303 | mie => 0x304 | menvcfg => 0x30A
  | mcounteren => 0x306 | pmpcfg0 => 0x3A0 | pmpaddr0 => 0x3B0 | sstatus => 0x100 | sip => 0x144 | sie => 0x104 | sepc => 0x141
  | stvec => 0x105 | stimecmp => 0x14D | satp => 0x180 | scause => 0x142 | stval => 0x143 | sscratch => 0x140 | time => 0xC01
  end.

Inductive privilege := User | Supervisor | Machine.

(** A hart: its privilege mode, program counter, control registers and the
    registers [x1] to [x31].  The [sstatus] view of [mstatus] is a register of
    its own: [mstatus] is written only before the kernel starts. *)
Record hart := mk_hart { h_mode : privilege; h_pc : Z; h_csr : csr -> Z; h_reg : Z -> Z }.

Definition SP : Z := 2.
Definition TP : Z := 4.
Definition A0 : Z := 10.
Definition A7 : Z := 17.

Definition MSTATUS_MPP_MASK : Z := Z.shiftl 3 11.
Definition MSTATUS_MPP_S : Z := Z.shiftl 1 11.
Definition SSTATUS_SPP : Z := Z.shiftl 1 8.
Definition SSTATUS_SPIE : Z := Z.shiftl 1 5.
Definition SSTATUS_SIE : Z := Z.shiftl 1 1.
Definition SIE_SEIE : Z := Z.shiftl 1 9.
Definition SIE_STIE : Z := Z.shiftl 1 5.
Definition MIE_STIE : Z := Z.shiftl 1 5.
Definition SATP_SV39 : Z := Z.shiftl 8 60.
Definition MAKE_SATP (pagetable : Z) : Z := Z.lor SATP_SV39 (Z.shiftr pagetable 12).

Definition UART0_IRQ : Z := 10.
Definition VIRTIO0_IRQ : Z := 1.
Definition PLIC : Z := 0x0c000000.
Definition PLIC_SENABLE (hart : Z) : Z := PLIC + 0x2080 + hart * 0x100.
Definition PLIC_SPRIORITY (hart : Z) : Z := PLIC + 0x201000 + hart * 0x2000.
Definition PLIC_SCLAIM (hart : Z) : Z := PLIC + 0x201004 + hart * 0x2000.

Definition put_mode v h := mk_hart v (h_pc h) (h_csr h) (h_reg h).
Definition put_pc v h := mk_hart (h_mode h) v (h_csr h) (h_reg h).
Definition put_csr (c : csr) v h := mk_hart (h_mode h) (h_pc h) (fun d => if csr_num d =? csr_num c then v else h_csr h d) (h_reg h).
Definition put_regs f h := mk_hart (h_mode h) (h_pc h) (h_csr h) f.
Definition put_reg r v h := put_regs (upd (h_reg h) r v) h.

(** ** What the hardware does on a trap and on [sret] *)

Definition put_bit (n : Z) (b : bool) (x : Z) : Z := if b then Z.setbit x n else Z.clearbit x n.
#[global] Arguments put_bit : simpl never.
Definition from_supervisor (h : hart) : bool := match h_mode h with User => false | _ => true end.

Definition hw_trap (cause tval : Z) (h : hart) : hart :=
  let x := h_csr h sstatus in
  let x := put_bit 8 (from_supervisor h) (put_bit 5 (Z.testbit x 1) (put_bit 1 false x)) in
  put_pc (h_csr h stvec) (put_mode Supervisor (put_csr sstatus x (put_csr stval tval (put_csr scause cause (put_csr sepc (h_pc h) h))))).
Definition hw_sret (h : hart) : hart :=
  let x := h_csr h sstatus in
  put_pc (h_csr h sepc) (put_mode (if Z.testbit x 8 then Supervisor else User)
    (put_csr sstatus (put_bit 8 false (put_bit 5 true (put_bit 1 (Z.testbit x 5) x))) h)).
Definition hw_mret (h : hart) : hart :=
  put_pc (h_csr h mepc) (put_mode (if Z.land (h_csr h mstatus) MSTATUS_MPP_MASK =? MSTATUS_MPP_S then Supervisor else User) h).

(** * The start of a hart *)

Definition rd (c : csr) : M hart Z := gets (fun h => h_csr h c).
Definition wr (c : csr) (v : Z) : M hart unit := modify (put_csr c v).

Definition timerinit : M hart unit :=
  do x <- rd mie; wr mie (Z.lor x MIE_STIE) ;;;
  do x <- rd menvcfg; wr menvcfg (Z.lor x (Z.shiftl 1 63)) ;;;
  do x <- rd mcounteren; wr mcounteren (Z.lor x 2) ;;;
  do t <- rd time; wr stimecmp (u64 (t + 1000000)).

(** [start]; [main_addr] is the address of [main]. *)
Definition start (main_addr : Z) : M hart unit :=
  do x <- rd mstatus;
  let x := Z.land x (u64 (Z.lnot MSTATUS_MPP_MASK)) in
  let x := Z.lor x MSTATUS_MPP_S in
  wr mstatus x ;;;
  wr mepc main_addr ;;;
  wr satp 0 ;;;
  wr medeleg 0xffff ;;;
  wr mideleg 0xffff ;;;
  do x <- rd sie; wr sie (Z.lor (Z.lor x SIE_SEIE) SIE_STIE) ;;;
  wr pmpaddr0 0x3fffffffffffff ;;;
  wr pmpcfg0 0xf ;;;
  timerinit ;;;
  do id <- rd mhartid;
  modify (put_reg TP (u64 (i32 id))) ;;;
  modify hw_mret.

(** * The kernel's state *)

(** [struct trapframe]: the kernel's part, and the user registers in the order
    of their numbers. *)
Record trapframe := mk_tf {
  tf_kernel_satp : Z;
  tf_kernel_sp : Z;
  tf_kernel_trap : Z;
  tf_epc : Z;
  tf_kernel_hartid : Z;
  tf_reg : Z -> Z
}.
Definition set_epc v t := mk_tf (tf_kernel_satp t) (tf_kernel_sp t) (tf_kernel_trap t) v (tf_kernel_hartid t) (tf_reg t).
Definition set_tf_regs f t := mk_tf (tf_kernel_satp t) (tf_kernel_sp t) (tf_kernel_trap t) (tf_epc t) (tf_kernel_hartid t) f.

Inductive sysno :=
| Sfork | Sexit | Swait | Spipe | Sread | Skill | Sexec | Sfstat | Schdir | Sdup | Sgetpid | Ssbrk | Spause | Suptime | Sopen | Swrite
| Smknod | Sunlink | Slink | Smkdir | Sclose | Smemstat.
#[export] Instance sysno_eq_dec : EqDecision sysno.
Proof. solve_decision. Defined.

(** The table [syscalls]; entry 0 is empty. *)
Definition syscalls : list (option sysno) :=
  [None; Some Sfork; Some Sexit; Some Swait; Some Spipe; Some Sread; Some Skill; Some Sexec; Some Sfstat; Some Schdir; Some Sdup; Some Sgetpid;
   Some Ssbrk; Some Spause; Some Suptime; Some Sopen; Some Swrite; Some Smknod; Some Sunlink; Some Slink; Some Smkdir; Some Sclose; Some Smemstat].

(** The lines that the handlers print. *)
Inductive line :=
| UNEXPECTED_SCAUSE (scause pid : Z) | AT (sepc stval : Z) | KERNEL_SCAUSE (scause sepc stval : Z) | UNEXPECTED_IRQ (irq : Z) | UNKNOWN_CALL (pid num : Z).

Section Trap.
Context {LAY : Layout} {FL : FileLayer}.

(** The running hart, the process on it (if any) with its trapframe, kernel
    stack and memory, and the clock. *)
Record tstate := mk_ts {
  t_hart : hart;
  t_proc : bool;
  t_tf : trapframe;
  t_kstack : Z;
  t_ps : pstate;
  t_ticks : Z;
  t_lines : list line
}.
Definition put_hart v s := mk_ts v (t_proc s) (t_tf s) (t_kstack s) (t_ps s) (t_ticks s) (t_lines s).
Definition put_tf v s := mk_ts (t_hart s) (t_proc s) v (t_kstack s) (t_ps s) (t_ticks s) (t_lines s).
Definition put_ps v s := mk_ts (t_hart s) (t_proc s) (t_tf s) (t_kstack s) v (t_ticks s) (t_lines s).
Definition put_ticks v s := mk_ts (t_hart s) (t_proc s) (t_tf s) (t_kstack s) (t_ps s) v (t_lines s).
Definition put_line v s := mk_ts (t_hart s) (t_proc s) (t_tf s) (t_kstack s) (t_ps s) (t_ticks s) (t_lines s ++ [v]).

Definition on_hart {A} (m : M hart A) : M tstate A := zoom t_hart put_hart m.
Definition on_paging {A} (m : M pstate A) : M tstate A := zoom t_ps put_ps m.
Definition r (c : csr) : M tstate Z := on_hart (rd c).
Definition w (c : csr) (v : Z) : M tstate unit := on_hart (wr c v).
Definition say (l : line) : M tstate unit := modify (put_line l).
Definition set_tf (f : trapframe -> trapframe) : M tstate unit := modify (fun s => put_tf (f (t_tf s)) s).

Definition intr_on : M tstate unit := do x <- r sstatus; w sstatus (Z.lor x SSTATUS_SIE).
Definition intr_off : M tstate unit := do x <- r sstatus; w sstatus (Z.land x (u64 (Z.lnot SSTATUS_SIE))).
Definition intr_get : M tstate bool := do x <- r sstatus; ret (negb (Z.land x SSTATUS_SIE =? 0)).

Definition cpuid : M tstate Z := gets (fun s => i32 (h_reg (t_hart s) TP)).
Definition pid : M tstate Z := gets (fun s => p_pid (ps_p (t_ps s))).
Definition killed : M tstate bool := gets (fun s => negb (p_killed (ps_p (t_ps s)) =? 0)).

(** What the trap code calls, and the device registers of the interrupt
    controller. *)
Class Kernel := {
  sys_other : sysno -> M tstate Z;
  sleep_ticks : M tstate unit;
  uartintr : M tstate unit;
  virtio_disk_intr : M tstate unit;
  yield : M tstate unit;
  wakeup_ticks : M tstate unit;
  plic_load : Z -> M tstate Z;
  plic_store : Z -> Z -> M tstate unit;
  kernelvec_addr : Z;
  usertrap_addr : Z;
  uservec_addr : Z
}.
Context {KC : Kernel}.

(** * The interrupt controller *)

Definition plicinit : M tstate unit :=
  plic_store (PLIC + UART0_IRQ * 4) 1 ;;;
  plic_store (PLIC + VIRTIO0_IRQ * 4) 1.
Definition plicinithart : M tstate unit :=
  do hart <- cpuid;
  plic_store (PLIC_SENABLE hart) (Z.lor (Z.shiftl 1 UART0_IRQ) (Z.shiftl 1 VIRTIO0_IRQ)) ;;;
  plic_store (PLIC_SPRIORITY hart) 0.
Definition plic_claim : M tstate Z := do hart <- cpuid; do irq <- plic_load (PLIC_SCLAIM hart); ret (i32 irq).
Definition plic_complete (irq : Z) : M tstate unit := do hart <- cpuid; plic_store (PLIC_SCLAIM hart) (u32 irq).

(** * Interrupts *)

Definition trapinithart : M tstate unit := w stvec kernelvec_addr.

Definition clockintr : M tstate unit :=
  do id <- cpuid;
  (if id =? 0 then modify (fun s => put_ticks (u32 (t_ticks s + 1)) s) ;;; wakeup_ticks else ret tt) ;;;
  do t <- r time;
  w stimecmp (u64 (t + 1000000)).

Definition EXTERNAL : Z := 0x8000000000000009.
Definition TIMER : Z := 0x8000000000000005.

Definition devintr : M tstate Z :=
  do cause <- r scause;
  if cause =? EXTERNAL then
    do irq <- plic_claim;
    (if irq =? UART0_IRQ then uartintr
     else if irq =? VIRTIO0_IRQ then virtio_disk_intr
     else if negb (irq =? 0) then say (UNEXPECTED_IRQ irq)
     else ret tt) ;;;
    (if negb (irq =? 0) then plic_complete irq else ret tt) ;;;
    ret 1
  else if cause =? TIMER then clockintr ;;; ret 2
  else ret 0.

Definition kerneltrap : M tstate unit :=
  do sepc_ <- r sepc;
  do sstatus_ <- r sstatus;
  do scause_ <- r scause;
  if Z.land sstatus_ SSTATUS_SPP =? 0 then panic "kerneltrap: not from supervisor mode"
  else
    do on <- intr_get;
    if on : bool then panic "kerneltrap: interrupts enabled"
    else
      do which_dev <- devintr;
      if which_dev =? 0 then
        do pc <- r sepc;
        do va <- r stval;
        say (KERNEL_SCAUSE scause_ pc va) ;;; panic "kerneltrap"
      else
        do has <- gets t_proc;
        (if (which_dev =? 2) && has then yield else ret tt) ;;;
        w sepc sepc_ ;;;
        w sstatus sstatus_.

(** * System calls *)

(** [argraw]: argument registers a0 to a5. *)
Definition argraw (n : Z) : M tstate Z :=
  if (0 <=? n) && (n <=? 5) then gets (fun s => tf_reg (t_tf s) (A0 + n)) else panic "argraw".

Definition argint (n : Z) : M tstate Z := do v <- argraw n; ret (i32 v).

(** The calls of [kernel/sysproc.c] that use only the clock and the process; the
    lock of the clock is left out here, [sleep(&ticks, &tickslock)] is the
    operation [sleep_ticks]. *)
Definition sys_exit : M tstate Z := do n <- argint 0; exit_with n.
Definition sys_getpid : M tstate Z := do p <- pid; ret (u64 p).
Definition sys_uptime : M tstate Z := gets t_ticks.

Fixpoint pause_loop (fuel : nat) (ticks0 n : Z) : M tstate Z :=
  match fuel with
  | O => no_fuel
  | S fuel =>
      do t <- gets t_ticks;
      if u32 (t - ticks0) <? u32 n then
        do k <- killed;
        if k : bool then ret (u64 (-1)) else sleep_ticks ;;; pause_loop fuel ticks0 n
      else ret 0
  end.
Definition sys_pause : M tstate Z :=
  do n <- argint 0;
  let n := if n <? 0 then 0 else n in
  do ticks0 <- gets t_ticks;
  pause_loop (S (Z.to_nat n)) ticks0 n.

(** The handler of a call; those on other parts of the kernel's state are
    [sys_other]. *)
Definition sys (n : sysno) : M tstate Z :=
  match n with
  | Sexit => sys_exit
  | Sgetpid => sys_getpid
  | Spause => sys_pause
  | Suptime => sys_uptime
  | _ => sys_other n
  end.

Definition syscall : M tstate unit :=
  do s <- get;
  let num := i32 (tf_reg (t_tf s) A7) in
  match (if (0 <? num) && (num <? Z.of_nat (length syscalls)) then default None (syscalls !! Z.to_nat num) else None) with
  | Some n => do v <- sys n; set_tf (fun t => set_tf_regs (upd (tf_reg t) A0 v) t)
  | None =>
      do p <- pid;
      say (UNKNOWN_CALL p num) ;;;
      set_tf (fun t => set_tf_regs (upd (tf_reg t) A0 (u64 (-1))) t)
  end.

(** * Traps from user space *)

Definition prepare_return : M tstate unit :=
  intr_off ;;;
  w stvec uservec_addr ;;;
  do s <- get;
  let h := t_hart s in
  set_tf (fun t => mk_tf (h_csr h satp) (t_kstack s + PGSIZE) usertrap_addr (tf_epc t) (h_reg h TP) (tf_reg t)) ;;;
  do x <- r sstatus;
  let x := Z.land x (u64 (Z.lnot SSTATUS_SPP)) in
  let x := Z.lor x SSTATUS_SPIE in
  w sstatus x ;;;
  do t <- gets t_tf;
  w sepc (tf_epc t).

Definition exit_if_killed : M tstate unit := do k <- killed; if k : bool then exit_with (-1) else ret tt.

(** The branches of [usertrap] on the cause; the result is [which_dev]. *)
Definition usertrap_handle (cause : Z) : M tstate Z :=
  if cause =? 8 then
    exit_if_killed ;;;
    set_tf (fun t => set_epc (u64 (tf_epc t + 4)) t) ;;;
    intr_on ;;;
    syscall ;;;
    ret 0
  else
    do which_dev <- devintr;
    if negb (which_dev =? 0) then ret which_dev
    else
      do cause <- r scause;
      if (cause =? 12) || (cause =? 15) || (cause =? 13) then
        do va <- r stval;
        on_paging (usertrap_pgfault cause va) ;;; ret 0
      else
        do p <- pid;
        say (UNEXPECTED_SCAUSE cause p) ;;;
        do pc <- r sepc;
        do va <- r stval;
        say (AT pc va) ;;;
        on_paging setkilled ;;; ret 0.

Definition usertrap : M tstate Z :=
  do x <- r sstatus;
  if negb (Z.land x SSTATUS_SPP =? 0) then panic "usertrap: not from user mode"
  else
    w stvec kernelvec_addr ;;;
    do pc <- r sepc;
    set_tf (set_epc pc) ;;;
    do cause <- r scause;
    do which_dev <- usertrap_handle cause;
    exit_if_killed ;;;
    (if which_dev =? 2 then yield else ret tt) ;;;
    prepare_return ;;;
    gets (fun s => MAKE_SATP (p_pagetable (ps_p (t_ps s)))).

(** * Entry and exit code *)

(** [uservec]: the user registers go to the trapframe, the kernel's values come
    from it. *)
Definition uservec (s : tstate) : tstate :=
  let h := t_hart s in let t := t_tf s in
  let h' := put_pc (tf_kernel_trap t) (put_csr satp (tf_kernel_satp t) (put_reg TP (tf_kernel_hartid t) (put_reg SP (tf_kernel_sp t)
    (put_csr sscratch (h_reg h A0) h)))) in
  put_tf (set_tf_regs (h_reg h) t) (put_hart h' s).
(** [userret], up to and with [sret]. *)
Definition userret (satp_ : Z) (s : tstate) : tstate :=
  put_hart (hw_sret (put_regs (tf_reg (t_tf s)) (put_csr satp satp_ (t_hart s)))) s.

(** A trap from user space, from the instruction that raises it to the next one
    in user space. *)
Definition at_pc (a : Z) : M tstate unit := do s <- get; if h_pc (t_hart s) =? a then ret tt else undef "wild jump".
Definition user_trap (cause tval : Z) : M tstate unit :=
  modify (fun s => put_hart (hw_trap cause tval (t_hart s)) s) ;;;
  at_pc uservec_addr ;;;
  modify uservec ;;;
  at_pc usertrap_addr ;;;
  do v <- usertrap;
  modify (userret v).

(** The registers that [kernelvec] saves and restores; [tp] is saved but not
    restored, because the process may have moved to another hart. *)
Definition kernelvec_saved (x : Z) : bool := existsb (Z.eqb x) [1; 3; 5; 6; 7; 10; 11; 12; 13; 14; 15; 16; 17; 28; 29; 30; 31].
Definition kernel_trap (cause tval : Z) : M tstate unit :=
  modify (fun s => put_hart (hw_trap cause tval (t_hart s)) s) ;;;
  at_pc kernelvec_addr ;;;
  do old <- gets (fun s => h_reg (t_hart s));
  kerneltrap ;;;
  modify (fun s => put_hart (hw_sret (put_regs (fun x => if kernelvec_saved x then old x else h_reg (t_hart s) x) (t_hart s))) s).

(** * What the trap code relies on *)

(** In the kernel, with traps going to [kernelvec]. *)
Definition in_kernel (s : tstate) : Prop := h_mode (t_hart s) = Supervisor /\ h_csr (t_hart s) stvec = kernelvec_addr.
Definition sie_on (s : tstate) : bool := Z.testbit (h_csr (t_hart s) sstatus) 1.
Definition callee_saved (x : Z) : bool := existsb (Z.eqb x) [2; 8; 9; 18; 19; 20; 21; 22; 23; 24; 25; 26; 27].
Definition same_process (s s' : tstate) : Prop := t_proc s' = t_proc s /\ t_kstack s' = t_kstack s /\ t_tf s' = t_tf s /\
  p_pagetable (ps_p (t_ps s')) = p_pagetable (ps_p (t_ps s)).

(** A device handler, which runs with interrupts off: the calling convention,
    the control registers and the process are kept. *)
Record calm (s s' : tstate) : Prop := {
  cm_mode : h_mode (t_hart s') = h_mode (t_hart s);
  cm_csr : forall c, c <> time -> c <> stimecmp -> h_csr (t_hart s') c = h_csr (t_hart s) c;
  cm_reg : forall x, callee_saved x = true \/ x = TP -> h_reg (t_hart s') x = h_reg (t_hart s) x;
  cm_proc : same_process s s';
  cm_ps : t_ps s' = t_ps s
}.
(** It does not touch the clock either. *)
Definition steady (s s' : tstate) : Prop := calm s s' /\ h_csr (t_hart s') stimecmp = h_csr (t_hart s) stimecmp /\ t_ticks s' = t_ticks s.

(** [yield] gives the hart to other processes, which take traps of their own;
    when it returns, perhaps on another hart, the process is as it was and traps
    go to the kernel. *)
Record resumed (s s' : tstate) : Prop := {
  rs_kernel : in_kernel s';
  rs_sie : sie_on s' = sie_on s;
  rs_satp : h_csr (t_hart s') satp = h_csr (t_hart s) satp;
  rs_reg : forall x, callee_saved x = true -> h_reg (t_hart s') x = h_reg (t_hart s) x;
  rs_proc : same_process s s'
}.

(** What a system call leaves for the return to user space; the trapframe and
    the memory may have changed. *)
Record after_call (s s' : tstate) : Prop := {
  ac_kernel : in_kernel s';
  ac_satp : h_csr (t_hart s') satp = h_csr (t_hart s) satp;
  ac_kstack : t_kstack s' = t_kstack s;
  ac_proc : t_proc s' = true
}.

(** What the handlers promise when they are called in the kernel.  [sleep] on the
    clock returns after a tick, or because the process was killed. *)
Class KernelOk : Prop := {
  uart_ok : forall s, in_kernel s -> sie_on s = false -> returns (uartintr s) (fun _ => steady s);
  virtio_ok : forall s, in_kernel s -> sie_on s = false -> returns (virtio_disk_intr s) (fun _ => steady s);
  wakeup_ok : forall s, in_kernel s -> sie_on s = false -> returns (wakeup_ticks s) (fun _ => steady s);
  load_ok : forall a s, returns (plic_load a s) (fun _ => steady s);
  store_ok : forall a v s, returns (plic_store a v s) (fun _ => steady s);
  yield_ok : forall s, in_kernel s -> t_proc s = true -> returns (yield s) (fun _ => resumed s);
  sleep_ok : forall s, in_kernel s -> t_proc s = true -> returns (sleep_ticks s) (fun _ s' => resumed s s' /\
    (p_killed (ps_p (t_ps s')) <> 0 \/ exists k, 1 <= k <= 2 ^ 31 /\ t_ticks s' = u32 (t_ticks s + k)));
  other_ok : forall n s, in_kernel s -> sie_on s = true -> t_proc s = true -> ends (sys_other n s) (fun _ => after_call s) (fun _ _ => True)
}.

(** ** Steps *)

Lemma r_eq c s : r c s = Ret (h_csr (t_hart s) c) s.
Proof. by destruct s. Qed.
Lemma w_eq c v s : w c v s = Ret tt (put_hart (put_csr c v (t_hart s)) s).
Proof. done. Qed.
Lemma on_paging_ends {A} (m : M pstate A) s Q E : ends (m (t_ps s)) (fun a p => Q a (put_ps p s)) (fun x p => E x (put_ps p s)) -> ends (on_paging m s) Q E.
Proof. unfold on_paging, zoom. by destruct (m (t_ps s)). Qed.

(** The outcome itself is one of those that [ends] describes. *)
Lemma ends_self {St A} (o : outcome St A) Q E : ends o Q E -> ends o (fun a s => o = Ret a s /\ Q a s) (fun x s => o = Exit x s /\ E x s).
Proof. by destruct o. Qed.

Lemma bind_assoc {St A B C} (m : M St A) (k : A -> M St B) (k2 : B -> M St C) s : bind (bind m k) k2 s = bind m (fun a s1 => bind (k a) k2 s1) s.
Proof. unfold bind. by destruct (m s). Qed.

Lemma calm_refl s : calm s s.
Proof. by split. Qed.
Lemma calm_trans s s1 s2 : calm s s1 -> calm s1 s2 -> calm s s2.
Proof.
  intros [Hm Hc Hr (Hp & Hk & Ht & Hg) Hs] [Hm' Hc' Hr' (Hp' & Hk' & Ht' & Hg') Hs']. split; try congruence.
  - intros c H1 H2. by rewrite Hc', Hc.
  - intros x H. by rewrite Hr', Hr.
  - split_and!; congruence.
Qed.
Lemma steady_refl s : steady s s.
Proof. by split. Qed.
Lemma steady_trans s s1 s2 : steady s s1 -> steady s1 s2 -> steady s s2.
Proof. intros (H1 & ? & ?) (H2 & ? & ?). split; [by eapply calm_trans|]. split; congruence. Qed.
Lemma calm_kernel s s' : calm s s' -> in_kernel s -> sie_on s = false -> in_kernel s' /\ sie_on s' = false.
Proof. intros [Hm Hc _ _ _] [H1 H2] H3. unfold in_kernel, sie_on in *. by rewrite Hm, !Hc by done. Qed.
Lemma steady_line l s : steady s (put_line l s).
Proof. by split. Qed.

Context {KO : KernelOk}.

(** What [devintr] returns for a cause. *)
Definition dev_of (cause : Z) : Z := if cause =? EXTERNAL then 1 else if cause =? TIMER then 2 else 0.

Lemma plic_complete_ok irq s : returns (plic_complete irq s) (fun _ => steady s).
Proof. apply store_ok. Qed.

Lemma clockintr_ok s : in_kernel s -> sie_on s = false -> returns (clockintr s) (fun _ s' => calm s s' /\
  t_ticks s' = (if i32 (h_reg (t_hart s) TP) =? 0 then u32 (t_ticks s + 1) else t_ticks s) /\
  h_csr (t_hart s') stimecmp = u64 (h_csr (t_hart s') time + 1000000)).
Proof.
  intros Hk Hi. unfold clockintr. rewrite (bind_ret _ (i32 (h_reg (t_hart s) TP)) _ s) by done.
  assert (Hlast : forall s1 tk, calm s s1 -> t_ticks s1 = tk -> returns ((do t <- r time; w stimecmp (u64 (t + 1000000))) s1) (fun _ s' => calm s s' /\
    t_ticks s' = tk /\ h_csr (t_hart s') stimecmp = u64 (h_csr (t_hart s') time + 1000000))).
  { intros s1 tk Hc Ht. rewrite (bind_ret _ _ _ _ _ (r_eq time s1)). cbn. split_and!; [|done|done]. eapply calm_trans; [exact Hc|].
    split; try done. intros c H1 H2. by destruct c. }
  destruct (_ =? 0).
  - eapply bind_returns with (P := fun _ s1 => calm s s1 /\ t_ticks s1 = u32 (t_ticks s + 1)); [|intros [] s1 [Hc Ht]; by apply Hlast].
    set (s0 := put_ticks (u32 (t_ticks s + 1)) s). rewrite (bind_ret _ tt _ s0) by done.
    eapply returns_mono; [by apply wakeup_ok|]. intros [] s1 (Hc & _ & Ht). split; [|done]. eapply calm_trans; [|exact Hc]. by split.
  - rewrite (bind_ret _ tt _ s) by done. apply Hlast; [apply calm_refl|done].
Qed.

Lemma devintr_ok s : in_kernel s -> sie_on s = false -> let cause := h_csr (t_hart s) scause in
  returns (devintr s) (fun d s' => d = dev_of cause /\ calm s s' /\ (cause <> TIMER -> steady s s') /\
    (cause = TIMER -> t_ticks s' = (if i32 (h_reg (t_hart s) TP) =? 0 then u32 (t_ticks s + 1) else t_ticks s) /\
      h_csr (t_hart s') stimecmp = u64 (h_csr (t_hart s') time + 1000000))).
Proof.
  intros Hk Hi cause. unfold devintr, dev_of. rewrite (bind_ret _ _ _ _ _ (r_eq scause s)). fold cause. destruct (Z.eqb_spec cause EXTERNAL) as [->|Hne].
  - eapply bind_returns with (P := fun _ s1 => steady s s1).
    { unfold plic_claim. rewrite (bind_ret _ (i32 (h_reg (t_hart s) TP)) _ s) by done. eapply bind_returns; [apply load_ok|]. intros irq s1 H1. exact H1. }
    intros irq s1 H1. destruct (calm_kernel _ _ (proj1 H1) Hk Hi) as [Hk1 Hi1]. eapply bind_returns with (P := fun _ s2 => steady s s2).
    { destruct (irq =? UART0_IRQ); [|destruct (irq =? VIRTIO0_IRQ); [|destruct (negb (irq =? 0))]].
      - eapply returns_mono; [by apply uart_ok|]. intros [] s2 H2. by eapply steady_trans.
      - eapply returns_mono; [by apply virtio_ok|]. intros [] s2 H2. by eapply steady_trans.
      - eapply steady_trans; [exact H1|apply steady_line].
      - exact H1. }
    intros [] s2 H2. eapply bind_returns with (P := fun _ s3 => steady s s3).
    { destruct (negb (irq =? 0)); [|exact H2]. eapply returns_mono; [apply plic_complete_ok|]. intros [] s3 H3. by eapply steady_trans. }
    intros [] s3 H3. cbn. split_and!; [done|apply H3|done|done].
  - destruct (Z.eqb_spec cause TIMER) as [Ht|Ht].
    + eapply bind_returns; [by apply clockintr_ok|]. intros [] s1 (Hc & Htk & Hcmp). cbn. split_and!; done.
    + cbn. split_and!; [done|apply calm_refl|intros _; apply steady_refl|done].
Qed.

(** ** Status bits *)

Lemma put_bit_at n b x m : 0 <= n -> 0 <= m -> Z.testbit (put_bit n b x) m = if m =? n then b else Z.testbit x m.
Proof.
  intros Hn Hm. unfold put_bit. destruct b.
  - rewrite Z.setbit_eqb by done. rewrite Z.eqb_sym. by destruct (m =? n).
  - rewrite Z.clearbit_eqb. rewrite Z.eqb_sym. destruct (m =? n); [apply andb_false_r|apply andb_true_r].
Qed.

Lemma land_bit n x : 0 <= n -> (Z.land x (Z.shiftl 1 n) =? 0) = negb (Z.testbit x n).
Proof.
  intros Hn. rewrite Z.shiftl_1_l. destruct (Z.testbit x n) eqn:Hb; cbn.
  - apply Z.eqb_neq. intros H. assert (Z.testbit (Z.land x (2 ^ n)) n = false) as Hz by (rewrite H; apply Z.bits_0).
    by rewrite Z.land_spec, Hb, Z.pow2_bits_true in Hz.
  - apply Z.eqb_eq, Z.bits_inj'. intros m Hm. rewrite Z.land_spec, Z.bits_0. destruct (Z.eq_dec m n) as [->|Hne]; [by rewrite Hb|].
    by rewrite Z.pow2_bits_false, andb_false_r.
Qed.

Lemma hw_trap_status cause tval h : let x := h_csr h sstatus in
  h_csr (hw_trap cause tval h) sstatus = put_bit 8 (from_supervisor h) (put_bit 5 (Z.testbit x 1) (put_bit 1 false x)).
Proof. reflexivity. Qed.
Lemma hw_sret_status h : let x := h_csr h sstatus in h_csr (hw_sret h) sstatus = put_bit 8 false (put_bit 5 true (put_bit 1 (Z.testbit x 5) x)).
Proof. reflexivity. Qed.

Lemma spp_bit x : (Z.land x SSTATUS_SPP =? 0) = negb (Z.testbit x 8).
Proof. by apply land_bit. Qed.
Lemma sie_bit x : (Z.land x SSTATUS_SIE =? 0) = negb (Z.testbit x 1).
Proof. by apply land_bit. Qed.

(** ** Traps in the kernel *)

Lemma reg_kinds x : 1 <= x <= 31 -> kernelvec_saved x = true \/ callee_saved x = true \/ x = TP.
Proof.
  intros Hx. assert (Hall : forallb (fun x => kernelvec_saved x || callee_saved x || (x =? TP)) (seqZ 1 31) = true) by (vm_compute; reflexivity).
  rewrite forallb_forall in Hall. specialize (Hall x). rewrite !orb_true_iff, Z.eqb_eq in Hall.
  destruct Hall as [[H|H]|H]; [apply list_elem_of_In, elem_of_seqZ; lia|auto..].
Qed.

(** The interrupted code goes on as if nothing had happened. *)
Record transparent (s s' : tstate) : Prop := {
  tp_kernel : in_kernel s';
  tp_pc : h_pc (t_hart s') = h_pc (t_hart s);
  tp_reg : forall x, 1 <= x <= 31 -> x <> TP -> h_reg (t_hart s') x = h_reg (t_hart s) x;
  tp_sie : sie_on s' = true;
  tp_satp : h_csr (t_hart s') satp = h_csr (t_hart s) satp;
  tp_proc : same_process s s'
}.

Lemma kernel_trap_ok s cause tval : in_kernel s -> sie_on s = true -> dev_of cause <> 0 -> returns (kernel_trap cause tval s) (fun _ => transparent s).
Proof.
  intros Hk Hi Hd. unfold kernel_trap. set (s0 := put_hart (hw_trap cause tval (t_hart s)) s). rewrite (bind_ret _ tt _ s0) by done.
  destruct Hk as [Hmode Hvec]. assert (Hx : forall m, 0 <= m -> Z.testbit (h_csr (t_hart s0) sstatus) m =
    if m =? 8 then true else if m =? 5 then true else if m =? 1 then false else Z.testbit (h_csr (t_hart s) sstatus) m).
  { intros m Hm. change (t_hart s0) with (hw_trap cause tval (t_hart s)). rewrite hw_trap_status, !put_bit_at by lia. unfold from_supervisor, sie_on in *. rewrite Hmode, Hi. done. }
  assert (Hk0 : in_kernel s0) by (split; [done|exact Hvec]). assert (Hi0 : sie_on s0 = false) by (unfold sie_on; by rewrite Hx).
  rewrite (bind_ret _ tt _ s0); [|unfold at_pc, bind, get; cbn; by rewrite Hvec, Z.eqb_refl].
  rewrite (bind_ret _ (h_reg (t_hart s0)) _ s0) by done.
  eapply bind_returns with (P := fun _ s1 => in_kernel s1 /\ h_csr (t_hart s1) sepc = h_pc (t_hart s) /\ h_csr (t_hart s1) sstatus = h_csr (t_hart s0) sstatus /\
    (forall x, callee_saved x = true -> h_reg (t_hart s1) x = h_reg (t_hart s) x) /\ h_csr (t_hart s1) satp = h_csr (t_hart s) satp /\ same_process s s1).
  - unfold kerneltrap. rewrite !(bind_ret _ _ _ _ _ (r_eq _ s0)). rewrite spp_bit, Hx by done. cbn [Z.eqb Pos.eqb negb].
    rewrite (bind_ret _ false _ s0); [|unfold intr_get; rewrite (bind_ret _ _ _ _ _ (r_eq _ s0)); unfold ret; by rewrite sie_bit, Hx].
    eapply bind_returns; [by apply devintr_ok|]. intros d s1 (-> & Hc & _ & _). change (h_csr (t_hart s0) scause) with cause. apply Z.eqb_neq in Hd as ->.
    destruct (calm_kernel _ _ Hc Hk0 Hi0) as [Hk1 Hi1]. assert (Hp1 : same_process s s1) by exact (cm_proc _ _ Hc).
    rewrite (bind_ret _ (t_proc s1) _ s1) by done. eapply bind_returns with (P := fun _ s2 => in_kernel s2 /\
      (forall x, callee_saved x = true -> h_reg (t_hart s2) x = h_reg (t_hart s) x) /\ h_csr (t_hart s2) satp = h_csr (t_hart s) satp /\ same_process s s2).
    + destruct ((dev_of cause =? 2) && t_proc s1) eqn:Hy.
      * apply andb_true_iff in Hy as [_ Hpr]. eapply returns_mono; [by apply yield_ok|]. intros [] s2 [Hk2 _ Hs2 Hr2 (Ha & Hb & Hcc & Hd2)].
        destruct Hp1 as (Ha' & Hb' & Hc' & Hd'). refine (conj Hk2 (conj _ (conj _ _))); [|rewrite Hs2; by apply (cm_csr _ _ Hc)|unfold same_process in *; split_and!; congruence].
        intros x Hxx. rewrite Hr2 by done. apply (cm_reg _ _ Hc). by left.
      * refine (conj Hk1 (conj _ (conj _ Hp1))); [|by apply (cm_csr _ _ Hc)]. intros x Hxx. apply (cm_reg _ _ Hc). by left.
    + intros [] s2 ([Hm2 Hv2] & Hr2 & Hs2 & Hp2). rewrite (bind_ret _ _ _ _ _ (w_eq _ _ s2)), w_eq. cbn. split_and!; done.
  - intros [] s1 ([Hm1 Hv1] & Hpc1 & Hst1 & Hr1 & Hsa1 & Hp1). split.
    + split; [|exact Hv1]. cbn [t_hart put_hart h_mode hw_sret put_pc put_mode h_csr put_regs]. by rewrite Hst1, Hx.
    + exact Hpc1.
    + intros x Hxr Hne. cbn [t_hart put_hart h_reg hw_sret put_pc put_mode put_csr put_regs]. destruct (kernelvec_saved x) eqn:Hsv; [done|]. destruct (reg_kinds x Hxr) as [?|[Hcs|?]]; [congruence|by apply Hr1|done].
    + unfold sie_on. cbn [t_hart put_hart]. rewrite hw_sret_status, !put_bit_at by lia. cbn [Z.eqb Pos.eqb h_csr put_regs]. by rewrite Hst1, Hx.
    + exact Hsa1.
    + exact Hp1.
Qed.

(** ** Traps from user space *)

(** In user space: traps go to [uservec], and the trapframe leads from there to
    [usertrap], on the kernel's page table [K] and the kernel stack of the
    process. *)
Record in_user (K : Z) (s : tstate) : Prop := {
  iu_mode : h_mode (t_hart s) = User;
  iu_stvec : h_csr (t_hart s) stvec = uservec_addr;
  iu_satp : h_csr (t_hart s) satp = MAKE_SATP (p_pagetable (ps_p (t_ps s)));
  iu_ksatp : tf_kernel_satp (t_tf s) = K;
  iu_ksp : tf_kernel_sp (t_tf s) = t_kstack s + PGSIZE;
  iu_ktrap : tf_kernel_trap (t_tf s) = usertrap_addr;
  iu_proc : t_proc s = true
}.

(** In the handler of a process, on the kernel's page table. *)
Definition handling (K : Z) (s : tstate) : Prop := in_kernel s /\ h_csr (t_hart s) satp = K /\ t_proc s = true.

Lemma prepare_return_ok K s : handling K s -> exists s', prepare_return s = Ret tt s' /\ same_process s (put_tf (t_tf s) s') /\ t_ps s' = t_ps s /\
  h_mode (t_hart s') = Supervisor /\ h_csr (t_hart s') stvec = uservec_addr /\ h_csr (t_hart s') sepc = tf_epc (t_tf s) /\
  Z.testbit (h_csr (t_hart s') sstatus) 8 = false /\ Z.testbit (h_csr (t_hart s') sstatus) 5 = true /\
  t_tf s' = mk_tf K (t_kstack s + PGSIZE) usertrap_addr (tf_epc (t_tf s)) (h_reg (t_hart s) TP) (tf_reg (t_tf s)).
Proof.
  intros ([Hm _] & HK & Hp). unfold prepare_return, intr_off. unfold bind at 1. rewrite (bind_ret _ _ _ _ _ (r_eq sstatus s)), w_eq.
  rewrite (bind_ret _ _ _ _ _ (w_eq _ _ _)). eexists. split.
  { unfold bind at 1, get. cbv beta iota zeta. unfold bind at 1, set_tf, modify. rewrite (bind_ret _ _ _ _ _ (r_eq sstatus _)), (bind_ret _ _ _ _ _ (w_eq _ _ _)).
    unfold bind, gets. rewrite w_eq. reflexivity. }
  cbn -[Z.testbit Z.land Z.lor u64 Z.lnot]. rewrite !Z.lor_spec, !Z.land_spec, HK, Hm.
  change (Z.testbit (u64 (Z.lnot SSTATUS_SPP)) 8) with false. change (Z.testbit SSTATUS_SPIE 8) with false. change (Z.testbit SSTATUS_SPIE 5) with true.
  rewrite !andb_false_r, orb_true_r. repeat split.
Qed.

Lemma leave_ok K s (which : Z) : handling K s -> ends ((do v <- (exit_if_killed ;;; (if which =? 2 then yield else ret tt) ;;; prepare_return ;;;
      gets (fun s => MAKE_SATP (p_pagetable (ps_p (t_ps s))))); modify (userret v)) s)
  (fun _ s' => in_user K s' /\ h_pc (t_hart s') = tf_epc (t_tf s) /\ (forall x, h_reg (t_hart s') x = tf_reg (t_tf s) x) /\ p_killed (ps_p (t_ps s)) = 0 /\
    (which <> 2 -> t_ps s' = t_ps s)) (fun st _ => st = -1).
Proof.
  intros Hh. rewrite bind_assoc. unfold exit_if_killed. unfold bind at 1. unfold killed, gets at 1. unfold bind at 1.
  destruct (Z.eqb_spec (p_killed (ps_p (t_ps s))) 0) as [Hk|Hk]; [|done]. cbn [negb]. cbv iota beta. unfold ret at 1. cbv iota beta. rewrite bind_assoc.
  eapply bind_ends with (P := fun _ s1 => handling K s1 /\ same_process s s1 /\ (which <> 2 -> t_ps s1 = t_ps s)).
  - destruct (Z.eqb_spec which 2) as [->|]; [|split_and!; (done || apply Hh)]. destruct Hh as (Hin & HK & Hp). apply returns_ends.
    eapply returns_mono; [by apply yield_ok|]. intros [] s1 [Hk1 _ Hs1 _ Hp1]. split; [|split; [exact Hp1|done]]. split; [exact Hk1|]. split; [congruence|].
    destruct Hp1 as [-> _]. done.
  - intros [] s1 (Hh1 & (Hp1 & Hst1 & Htf1 & Hpt1) & Hps1). destruct (prepare_return_ok K s1 Hh1) as (s2 & E & (Hp2 & Hst2 & _ & Hpt2) & Hps2 & Hm2 & Hv2 & Hpc2 & Hb8 & Hb5 & Htf2).
    rewrite bind_assoc, (bind_ret _ _ _ _ _ E). cbn -[Z.testbit put_bit]. split; [split; cbn -[Z.testbit put_bit]|].
    + by rewrite Hb8.
    + exact Hv2.
    + done.
    + by rewrite Htf2.
    + rewrite Htf2. cbn. cbn in Hst2. by rewrite Hst2.
    + by rewrite Htf2.
    + cbn in Hp2. rewrite Hp2. by destruct Hh1 as (_ & _ & ?).
    + rewrite Hpc2, Htf1. split; [done|]. rewrite Htf2. cbn. rewrite Htf1. split; [done|]. split; [done|]. intros Hne. rewrite Hps2. by apply Hps1.
Qed.

(** ** One trap *)

Definition is_fault (cause : Z) : bool := (cause =? 12) || (cause =? 15) || (cause =? 13).
(** The system call that the value of [a7] asks for. *)
Definition call_of (a7 : Z) : option sysno :=
  let num := i32 a7 in
  if (0 <? num) && (num <? Z.of_nat (length syscalls)) then default None (syscalls !! Z.to_nat num) else None.

(** What a system call from [s] leaves: the handler has run on the user's
    registers, with the program counter after the instruction [ecall]; its
    result is in [a0]. *)
Definition called (s : tstate) (pc : Z) (regs : Z -> Z) (tf' : trapframe) : Prop :=
  match call_of (regs A7) with
  | Some n => exists sa v sb, in_kernel sa /\ t_ps sa = t_ps s /\ tf_epc (t_tf sa) = u64 (pc + 4) /\ (forall x, tf_reg (t_tf sa) x = regs x) /\
      sys n sa = Ret v sb /\ tf_epc tf' = tf_epc (t_tf sb) /\ forall x, tf_reg tf' x = upd (tf_reg (t_tf sb)) A0 v x
  | None => tf_epc tf' = u64 (pc + 4) /\ forall x, tf_reg tf' x = upd regs A0 (2 ^ 64 - 1) x
  end.

(** ** System calls *)

Lemma after_refl s : in_kernel s -> t_proc s = true -> after_call s s.
Proof. by split. Qed.

Lemma resumed_after s s' s2 : t_proc s = true -> resumed s s' -> after_call s' s2 -> after_call s s2.
Proof. intros Hp [_ _ Hs _ (_ & Hk & _)] [A B C D]. split; [exact A|congruence..]. Qed.

Definition paused (s : tstate) (ticks0 n v : Z) (s' : tstate) : Prop := after_call s s' /\
  (v = 0 /\ n <= u32 (t_ticks s' - ticks0) \/ v = 2 ^ 64 - 1 /\ p_killed (ps_p (t_ps s')) <> 0).

Lemma u32_sub_add t k t0 : u32 (u32 (t + k) - t0) = u32 (u32 (t - t0) + k).
Proof. unfold u32. rewrite Zminus_mod_idemp_l, Zplus_mod_idemp_l. f_equal. lia. Qed.

Lemma pause_loop_S fuel ticks0 n s : pause_loop (S fuel) ticks0 n s =
  (do t <- gets t_ticks;
   if u32 (t - ticks0) <? u32 n then
     do k <- killed;
     if k : bool then ret (u64 (-1)) else sleep_ticks ;;; pause_loop fuel ticks0 n
   else ret 0) s.
Proof. done. Qed.

(** The wait for the clock ends: after at most [n] sleeps the ticks since the
    start are [n] or more, although the counter wraps around. *)
Lemma pause_loop_ok n ticks0 : 0 <= n < 2 ^ 31 -> forall fuel s, in_kernel s -> t_proc s = true ->
  p_killed (ps_p (t_ps s)) <> 0 \/ n - u32 (t_ticks s - ticks0) <= Z.of_nat fuel ->
  returns (pause_loop (S fuel) ticks0 n s) (paused s ticks0 n).
Proof.
  intros Hn. induction fuel as [|fuel IH]; intros s Hk Hp Hf; rewrite pause_loop_S; rewrite (bind_ret _ (t_ticks s) _ s) by done; rewrite (u32_small n) by lia.
  - destruct (Z.ltb_spec (u32 (t_ticks s - ticks0)) n); [|split; [by apply after_refl|by left]]. destruct Hf as [Hf|Hf]; [|lia].
    apply Z.eqb_neq in Hf. rewrite (bind_ret _ true _ s); [|unfold killed, gets; by rewrite Hf]. split; [by apply after_refl|]. right. by apply Z.eqb_neq in Hf.
  - destruct (Z.ltb_spec (u32 (t_ticks s - ticks0)) n) as [Hlt|]; [|split; [by apply after_refl|by left]]. unfold killed.
    rewrite (bind_ret _ (negb (p_killed (ps_p (t_ps s)) =? 0)) _ s) by done.
    destruct (Z.eqb_spec (p_killed (ps_p (t_ps s))) 0) as [Hz|Hz]; cbn [negb]; [|split; [by apply after_refl|by right]].
    eapply bind_returns; [by apply sleep_ok|]. intros [] s1 [Hr Hs1]. pose proof Hr as [Hk1 _ _ _ (Hp1 & _)].
    eapply returns_mono; [apply IH; [done|congruence|]|intros v s2 [Ha Hv]; split; [by eapply resumed_after|exact Hv]].
    destruct Hs1 as [Hs1|(k & Hk2 & Ht)]; [by left|right]. rewrite Ht, u32_sub_add. pose proof (u32_range (t_ticks s - ticks0)).
    rewrite (u32_small (_ + k)) by lia. lia.
Qed.

Lemma sys_pause_ok s : in_kernel s -> t_proc s = true ->
  returns (sys_pause s) (paused s (t_ticks s) (Z.max 0 (i32 (tf_reg (t_tf s) A0)))).
Proof.
  intros Hk Hp. unfold sys_pause. set (n := i32 (tf_reg (t_tf s) A0)). rewrite (bind_ret _ n _ s) by done. rewrite (bind_ret _ (t_ticks s) _ s) by done.
  pose proof (i32_range (tf_reg (t_tf s) A0)) as Hr. fold n in Hr.
  replace (if n <? 0 then 0 else n) with (Z.max 0 n) by (destruct (Z.ltb_spec n 0); lia). set (m := Z.max 0 n) in *.
  apply pause_loop_ok; [lia|done|done|]. right. rewrite Z.sub_diag. change (u32 0) with 0. lia.
Qed.

(** Every handler. *)
Lemma sys_ok n s : in_kernel s -> sie_on s = true -> t_proc s = true -> ends (sys n s) (fun _ => after_call s) (fun _ _ => True).
Proof.
  intros Hk Hi Hp. destruct n; unfold sys; try (by apply other_ok); try (by apply after_refl); [done|].
  apply returns_ends. eapply returns_mono; [by apply sys_pause_ok|]. by intros v s' [Ha _].
Qed.

Lemma syscall_ok K s : handling K s -> sie_on s = true ->
  ends (syscall s) (fun _ s' => handling K s' /\ match call_of (tf_reg (t_tf s) A7) with
    | Some n => exists v sb, sys n s = Ret v sb /\ t_tf s' = set_tf_regs (upd (tf_reg (t_tf sb)) A0 v) (t_tf sb)
    | None => t_tf s' = set_tf_regs (upd (tf_reg (t_tf s)) A0 (2 ^ 64 - 1)) (t_tf s)
    end) (fun _ _ => True).
Proof.
  intros (Hk & HK & Hp) Hi. unfold syscall. unfold bind at 1, get. cbv beta iota zeta. fold (call_of (tf_reg (t_tf s) A7)).
  destruct (call_of (tf_reg (t_tf s) A7)) as [n|].
  - pose proof (sys_ok n s Hk Hi Hp) as Hs. unfold bind. destruct (sys n s) as [v sb| | | |] eqn:E; cbn in Hs |- *; try done.
    destruct Hs as [Hkb Hsb _ Hpb]. split; [|by exists v, sb]. split; [exact Hkb|]. split; [cbn; congruence|done].
  - cbn. split; [|done]. by split.
Qed.

(** The body of [usertrap] after the entry, up to the last test for a killed
    process. *)
Lemma handle_ok K s cause tval : handling K s -> sie_on s = false -> h_csr (t_hart s) scause = cause -> h_csr (t_hart s) stval = tval ->
  (is_fault cause = true -> ends (usertrap_pgfault cause tval (t_ps s)) (fun _ _ => True) (fun st _ => st = -1)) ->
  ends (usertrap_handle cause s)
    (fun which s' => handling K s' /\
      if cause =? 8 then which = 0 /\ p_killed (ps_p (t_ps s)) = 0 /\ called s (tf_epc (t_tf s)) (tf_reg (t_tf s)) (t_tf s')
      else which = dev_of cause /\ t_tf s' = t_tf s /\
        (if dev_of cause =? 0 then if is_fault cause then usertrap_pgfault cause tval (t_ps s) = Ret tt (t_ps s') else p_killed (ps_p (t_ps s')) = 1
         else t_ps s' = t_ps s))
    (fun st _ => st = -1 \/ cause = 8).
Proof.
  intros Hh Hi Hc Hv Hf. unfold usertrap_handle. destruct (Z.eqb_spec cause 8) as [E8|E8].
  - unfold exit_if_killed. unfold bind at 1. unfold killed, gets, bind at 1. destruct (Z.eqb_spec (p_killed (ps_p (t_ps s))) 0) as [Hk|Hk]; [|by left].
    cbn [negb]. cbv iota beta. unfold ret at 1. cbv iota beta. unfold bind at 1, set_tf, modify. set (s1 := put_tf _ s).
    unfold intr_on. rewrite bind_assoc, (bind_ret _ _ _ _ _ (r_eq sstatus s1)), (bind_ret _ _ _ _ _ (w_eq _ _ s1)). set (s2 := put_hart _ s1).
    assert (Hh2 : handling K s2) by exact Hh. assert (Hi2 : sie_on s2 = true).
    { unfold sie_on. cbn -[Z.testbit Z.lor]. rewrite Z.lor_spec. apply orb_true_r. }
    eapply bind_ends; [eapply ends_mono; [by apply (syscall_ok K)|intros a t Ht; exact Ht|intros; by right]|].
    intros [] s3 [Hh3 Hcall]. split; [exact Hh3|]. split; [done|]. split; [done|]. unfold called. change (tf_reg (t_tf s2)) with (tf_reg (t_tf s)) in Hcall.
    destruct (call_of (tf_reg (t_tf s) A7)) as [n|].
    + destruct Hcall as (v & sb & Es & Et). exists s2, v, sb. rewrite Et. split_and!; try done; apply Hh.
    + rewrite Hcall. done.
  - destruct Hh as (Hk & HK & Hp). eapply bind_ends; [apply returns_ends; by apply devintr_ok|]. intros d s1 (-> & Hcm & _). rewrite Hc.
    destruct (calm_kernel _ _ Hcm Hk Hi) as [Hk1 Hi1]. destruct (cm_proc _ _ Hcm) as (Hp1 & _ & Ht1 & _). pose proof (cm_ps _ _ Hcm) as Hps1.
    assert (Hh1 : handling K s1) by (split; [exact Hk1|]; split; [by rewrite (cm_csr _ _ Hcm)|congruence]).
    destruct (Z.eqb_spec (dev_of cause) 0) as [Ed|Ed]; cbn [negb]; [|by cbn].
    rewrite (bind_ret _ _ _ _ _ (r_eq scause s1)), (cm_csr _ _ Hcm), Hc by done. fold (is_fault cause). destruct (is_fault cause) eqn:Ef.
    + rewrite (bind_ret _ _ _ _ _ (r_eq stval s1)), (cm_csr _ _ Hcm), Hv by done. specialize (Hf eq_refl). rewrite <- Hps1 in Hf.
      eapply bind_ends with (P := fun _ s2 => s2 = put_ps (t_ps s2) s1 /\ usertrap_pgfault cause tval (t_ps s1) = Ret tt (t_ps s2)).
      { apply on_paging_ends. eapply ends_mono; [exact (ends_self _ _ _ Hf)| |]; [intros [] t [Ht _]; by split|intros st t [_ Ht]; by left]. }
      intros [] s2 [E2 Hs2]. cbn. rewrite <- Hps1. split; [rewrite E2; exact Hh1|]. split; [congruence|]. split; [rewrite E2; exact Ht1|exact Hs2].
    + cbn. split; [exact Hh1|]. split; [congruence|]. split; [exact Ht1|]. by destruct (ps_p (t_ps s1)).
Qed.

(** How a trap from user space in [s] ends. *)
Record trap_done (K : Z) (s : tstate) (cause tval : Z) (s' : tstate) : Prop := {
  td_user : in_user K s';
  td_call : cause = 8 -> p_killed (ps_p (t_ps s)) = 0 /\
    exists sa tf, t_ps sa = t_ps s /\ called sa (h_pc (t_hart s)) (h_reg (t_hart s)) tf /\
      h_pc (t_hart s') = tf_epc tf /\ forall x, h_reg (t_hart s') x = tf_reg tf x;
  td_same : cause <> 8 -> h_pc (t_hart s') = h_pc (t_hart s) /\ (forall x, h_reg (t_hart s') x = h_reg (t_hart s) x) /\
    (dev_of cause <> 0 \/ is_fault cause = true /\ usertrap_pgfault cause tval (t_ps s) = Ret tt (t_ps s') /\ p_killed (ps_p (t_ps s')) = 0)
}.

(** The entry: from the trap to the test of the cause. *)
Definition entered (cause tval : Z) (s : tstate) : tstate :=
  let s1 := uservec (put_hart (hw_trap cause tval (t_hart s)) s) in
  let s2 := put_hart (put_csr stvec kernelvec_addr (t_hart s1)) s1 in
  put_tf (set_epc (h_pc (t_hart s)) (t_tf s2)) s2.

Lemma user_trap_enter K s cause tval : in_user K s ->
  handling K (entered cause tval s) /\ sie_on (entered cause tval s) = false /\
  user_trap cause tval s = (do which <- usertrap_handle cause;
    do v <- (exit_if_killed ;;; (if which =? 2 then yield else ret tt) ;;; prepare_return ;;;
      gets (fun s => MAKE_SATP (p_pagetable (ps_p (t_ps s)))));
    modify (userret v)) (entered cause tval s).
Proof.
  intros [Hm Hv _ HK Hsp Htr Hp]. set (s0 := put_hart (hw_trap cause tval (t_hart s)) s).
  assert (Hx : forall m, 0 <= m -> Z.testbit (h_csr (t_hart (uservec s0)) sstatus) m =
    if m =? 8 then false else if m =? 5 then Z.testbit (h_csr (t_hart s) sstatus) 1 else if m =? 1 then false else Z.testbit (h_csr (t_hart s) sstatus) m).
  { intros m H0. change (h_csr (t_hart (uservec s0)) sstatus) with (h_csr (hw_trap cause tval (t_hart s)) sstatus).
    rewrite hw_trap_status, !put_bit_at by lia. unfold from_supervisor. rewrite Hm. done. }
  split; [split; [done|]; split; [exact HK|exact Hp]|]. split.
  { unfold sie_on. change (h_csr (t_hart (entered cause tval s)) sstatus) with (h_csr (t_hart (uservec s0)) sstatus). by rewrite Hx. }
  unfold user_trap. rewrite (bind_ret _ tt _ s0) by done.
  rewrite (bind_ret _ tt _ s0); [|unfold at_pc, bind, get; cbn; by rewrite Hv, Z.eqb_refl].
  rewrite (bind_ret _ tt _ (uservec s0)) by done. rewrite (bind_ret _ tt _ (uservec s0)); [|unfold at_pc, bind, get; cbn; by rewrite Htr, Z.eqb_refl].
  unfold usertrap. rewrite bind_assoc, (bind_ret _ _ _ _ _ (r_eq sstatus _)), spp_bit, Hx by done. cbn [Z.eqb Pos.eqb negb].
  rewrite bind_assoc, (bind_ret _ _ _ _ _ (w_eq _ _ _)), bind_assoc, (bind_ret _ _ _ _ _ (r_eq sepc _)).
  rewrite bind_assoc. rewrite (bind_ret _ tt _ (entered cause tval s)) by done.
  rewrite bind_assoc, (bind_ret _ _ _ _ _ (r_eq scause _)). apply bind_assoc.
Qed.

Lemma user_trap_ok K s cause tval : in_user K s ->
  (is_fault cause = true -> ends (usertrap_pgfault cause tval (t_ps s)) (fun _ _ => True) (fun st _ => st = -1)) ->
  ends (user_trap cause tval s) (fun _ => trap_done K s cause tval) (fun st _ => st = -1 \/ cause = 8).
Proof.
  intros Hu Hf. destruct (user_trap_enter K s cause tval Hu) as (Hh & Hi & ->). set (s1 := entered cause tval s) in *.
  eapply bind_ends; [apply (handle_ok K s1 cause tval Hh Hi eq_refl eq_refl Hf)|]. intros which s2 [Hh2 Hcase].
  eapply ends_mono; [apply (leave_ok K s2 which Hh2)| |by left]. intros [] s' (Hu' & Hpc & Hr & Hk & Hps). split; [exact Hu'|..].
  - intros ->. destruct Hcase as (_ & Hk1 & Hcall). split; [exact Hk1|]. exists s1, (t_tf s2). split_and!; done.
  - intros Hne. apply Z.eqb_neq in Hne. rewrite Hne in Hcase. destruct Hcase as (-> & Htf & Hcase). rewrite Htf in Hpc, Hr.
    split; [exact Hpc|]. split; [exact Hr|]. destruct (Z.eqb_spec (dev_of cause) 0) as [Ed|Ed]; [right|by left].
    destruct (is_fault cause); [|congruence]. rewrite Hps by (rewrite Ed; done). done.
Qed.
End Trap.
