(* ===== verification/TrapClaims.v ===== *)
(** The properties of the trap code: a trap from user space comes back to user
    space with the registers the cause calls for, a page fault restarts the
    instruction on the page it asked for, an interrupt in the kernel is not
    noticed by the code it interrupts, and a trap nobody can handle ends the
    process or stops the kernel. *)
From S2P Require Import Prelude Riscv Kalloc Vm Uvm FileLayer Paging PagingOk Machine Trap.
Open Scope kern_scope.

Section TrapClaims.
Context {LAY : Layout} {FL : FileLayer} {KC : Kernel}.

(** * The page-fault branch *)

(** An entry without [PTE_V] is never the write trap of a resident page. *)
Lemma absent_is_major s own free cause va : paging_ok s own free -> 0 <= va < TRAPFRAME ->
  mapped (ps_k s) (p_pagetable (ps_p s)) va = false ->
  usertrap_pgfault cause va s =
    (do r <- handle_pgfault (p_pagetable (ps_p s)) va (access_of cause);
     if r <? 0 then printf (KILL_ACCESS (p_pid (ps_p s)) va (access_of cause)) ;;; setkilled else ret tt) s.
Proof.
  intros Hok Hva Hm. assert (TRAPFRAME < MAXVA) by done. unfold usertrap_pgfault. destruct (Z.leb_spec MAXVA va); [lia|].
  rewrite (bind_ret myproc (ps_p s) s s _ eq_refl). set (r := p_pagetable (ps_p s)) in *.
  rewrite (bind_ret _ _ _ _ _ (vm_read _ _ _ (walk_noalloc (ps_k s) r va ltac:(lia)))). set (pte := slot_at _ 2 r va).
  pose proof (upt_root _ _ _ (pk_upt _ _ _ Hok)) as Hr. fold r in Hr.
  destruct (slot_at_root (ps_k s) own free r va (pk_vm _ _ _ Hok) Hr ltac:(lia)) as [[Hz _]|(p0 & _ & _ & Hpos & Hl)]; fold pte in Hz || fold pte in Hpos, Hl.
  - rewrite Hz. cbn [Z.eqb]. rewrite (bind_ret _ 0 _ s) by done. cbn [negb]. by rewrite andb_false_r.
  - destruct (Z.eqb_spec pte 0); [lia|]. unfold mapped in Hm. rewrite Hl in Hm.
    rewrite (bind_ret _ (load64 (kmem_mem (ps_k s)) pte) _ s) by (by apply vm_read). by rewrite Hm, andb_false_r.
Qed.

Lemma absent_fault_ok s own free cause va : paging_ok s own free -> 0 <= va < TRAPFRAME ->
  mapped (ps_k s) (p_pagetable (ps_p s)) va = false -> free <> [] \/ 0 < p_num_resident (ps_p s) ->
  elf_ok (content (ps_fs s) (p_exec_ip (ps_p s))) -> 0 <= p_next_fifo_seq (ps_p s) < 2 ^ 31 - 1 ->
  ends (usertrap_pgfault cause va s) (fun _ s' => p_killed (ps_p s') = 1 \/ (exists own' free', paging_ok s' own' free') /\ faulted s (PGROUNDDOWN va) s')
    (fun st _ => st = -1).
Proof.
  intros Hok Hva Hm Hor Helf Hseq. rewrite (absent_is_major s own free) by done. eapply bind_ends.
  - eapply ends_mono; [by apply (handle_pgfault_ok s own free)|intros r s' Hp; exact Hp|]. by intros st s' [[-> _]|[-> _]].
  - intros r s' (Hinv & [->|[-> Hf]]); cbn; [left; by destruct (ps_p s')|by right].
Qed.

(** * Traps that no handler knows *)

Lemma devintr_unknown s : dev_of (h_csr (t_hart s) scause) = 0 -> devintr s = Ret 0 s.
Proof.
  unfold dev_of, devintr. rewrite (bind_ret _ _ _ _ _ (r_eq scause s)). by destruct (h_csr (t_hart s) scause =? EXTERNAL), (h_csr (t_hart s) scause =? TIMER).
Qed.

(** C38: A trap that no handler knows is reported and contained.  From user space
    (a cause that is no system call, no page fault and no device) two lines name
    the cause, the process, the program counter and the trap value, and the
    process ends with status -1; in the kernel one line is printed and the
    kernel stops with the message [kerneltrap]. *)
Theorem unexpected_trap_contained (K : Z) (s u : tstate) (cause tval : Z)
  (Hd : dev_of cause = 0) (H8 : cause <> 8) (Hf : is_fault cause = false)
  (Hu : in_user K u) (Hs : in_kernel s) :
  (exists u', user_trap cause tval u = Exit (-1) u' /\
     t_lines u' = t_lines u ++ [UNEXPECTED_SCAUSE cause (p_pid (ps_p (t_ps u))); AT (h_pc (t_hart u)) tval]) /\
  (exists s', kernel_trap cause tval s = Panic "kerneltrap" s' /\
     t_lines s' = t_lines s ++ [KERNEL_SCAUSE cause (h_pc (t_hart s)) tval]).
Proof.
  split.
  - destruct (user_trap_enter K u cause tval Hu) as (_ & _ & ->). set (u1 := entered cause tval u). unfold usertrap_handle.
    apply Z.eqb_neq in H8 as ->. rewrite bind_assoc, (bind_ret _ _ _ _ _ (devintr_unknown u1 Hd)). cbn [Z.eqb negb].
    rewrite bind_assoc, (bind_ret _ _ _ _ _ (r_eq scause u1)). change (h_csr (t_hart u1) scause) with cause. fold (is_fault cause). rewrite Hf.
    set (p1 := set_killed 1 (ps_p (t_ps u))). assert (Hk : (p_killed p1 =? 0) = false) by (unfold p1; by destruct (ps_p (t_ps u))).
    exists (put_ps (put_p p1 (t_ps u)) (put_line (AT (h_pc (t_hart u)) tval) (put_line (UNEXPECTED_SCAUSE cause (p_pid (ps_p (t_ps u)))) u1))). split.
    + unfold exit_if_killed, killed, setkilled, setp, bind, pid, say, on_paging, zoom, gets, modify, r, on_hart, rd, ret, exit_with. cbn. fold p1. by rewrite Hk.
    + cbn. by rewrite <- app_assoc.
  - destruct Hs as [Hm Hv]. unfold kernel_trap. set (s0 := put_hart (hw_trap cause tval (t_hart s)) s). rewrite (bind_ret _ tt _ s0) by done.
    rewrite (bind_ret _ tt _ s0); [|unfold at_pc, bind, get; cbn; by rewrite Hv, Z.eqb_refl]. rewrite (bind_ret _ (h_reg (t_hart s0)) _ s0) by done.
    assert (Hx : forall m, 0 <= m -> Z.testbit (h_csr (t_hart s0) sstatus) m = if m =? 8 then true else
      if m =? 5 then Z.testbit (h_csr (t_hart s) sstatus) 1 else if m =? 1 then false else Z.testbit (h_csr (t_hart s) sstatus) m).
    { intros m H0. change (h_csr (t_hart s0) sstatus) with (h_csr (hw_trap cause tval (t_hart s)) sstatus).
      rewrite hw_trap_status, !put_bit_at by lia. unfold from_supervisor. by rewrite Hm. }
    unfold kerneltrap. do 3 rewrite bind_assoc, (bind_ret _ _ _ _ _ (r_eq _ s0)). rewrite spp_bit, Hx by done. cbn [Z.eqb Pos.eqb negb].
    rewrite bind_assoc, (bind_ret _ false _ s0); [|unfold intr_get; rewrite (bind_ret _ _ _ _ _ (r_eq _ s0)); unfold ret; by rewrite sie_bit, Hx].
    rewrite bind_assoc, (bind_ret _ _ _ _ _ (devintr_unknown s0 Hd)). eexists. by split.
Qed.

(** * Traps that come back *)

Context {KO : KernelOk}.



(** C37: An interrupt in the kernel is not noticed by the code it interrupts.  The
    handler returns, whatever the device and even when the process is
    rescheduled on another hart in between: the program counter and every
    register except [tp] (the hart's number) are as before, interrupts are
    enabled, the page table is the kernel's, and the process with its trapframe
    is the same. *)
Theorem kernel_interrupt_transparent (s : tstate) (cause tval : Z)
  (Hk : in_kernel s) (Hi : sie_on s = true) (Hd : dev_of cause <> 0) :
  returns (kernel_trap cause tval s) (fun _ => transparent s).
Proof. by apply kernel_trap_ok. Qed.
End TrapClaims.

(** * The start of a hart *)

(** A hart leaves [start] in supervisor mode at [main], with its number in [tp],
    paging off, every trap handed to supervisor mode, interrupts of devices and
    the clock enabled and the clock set. *)
Lemma start_enters_main main_addr h : 0 <= h_csr h mstatus < 2 ^ 64 -> 0 <= h_csr h mhartid < 2 ^ 31 ->
  returns (start main_addr h) (fun _ h' => h_mode h' = Supervisor /\ h_pc h' = main_addr /\ h_reg h' TP = h_csr h mhartid /\
    h_csr h' satp = 0 /\ h_csr h' medeleg = 0xffff /\ h_csr h' mideleg = 0xffff /\
    Z.testbit (h_csr h' sie) 9 = true /\ Z.testbit (h_csr h' sie) 5 = true /\ Z.testbit (h_csr h' mie) 5 = true /\
    h_csr h' stimecmp = u64 (h_csr h' time + 1000000)).
Proof.
  intros Hs Hid. cbn -[Z.lor Z.land Z.testbit u64 i32 Z.shiftl upd MSTATUS_MPP_MASK MSTATUS_MPP_S].
  assert (Hm : Z.land (Z.lor (Z.land (h_csr h mstatus) (u64 (Z.lnot MSTATUS_MPP_MASK))) MSTATUS_MPP_S) MSTATUS_MPP_MASK = MSTATUS_MPP_S).
  { rewrite Z.land_lor_distr_l, <- Z.land_assoc. change (Z.land (u64 (Z.lnot MSTATUS_MPP_MASK)) MSTATUS_MPP_MASK) with 0. by rewrite Z.land_0_r. }
  rewrite Hm, Z.eqb_refl, !Z.lor_spec, upd_eq. change (Z.testbit SIE_SEIE 9) with true. change (Z.testbit SIE_STIE 5) with true.
  change (Z.testbit MIE_STIE 5) with true. rewrite !orb_true_r. rewrite i32_small, u64_small by lia. done.
Qed.

(** * A small kernel *)

(** Devices that are always quiet, one process, and a clock that ticks whenever
    the process waits for it. *)
#[export] Instance small_kernel : Kernel := {|
  sys_other := fun _ => ret (u64 (-1));
  sleep_ticks := modify (fun s => put_ticks (u32 (t_ticks s + 1)) s);
  uartintr := ret tt; virtio_disk_intr := ret tt; yield := ret tt; wakeup_ticks := ret tt;
  plic_load := fun _ => ret UART0_IRQ; plic_store := fun _ _ => ret tt;
  kernelvec_addr := 2147505000; usertrap_addr := 2147506000; uservec_addr := 274877902848 |}.

#[export] Instance small_kernel_ok : KernelOk.
Proof.
  split.
  - intros s _ _. apply steady_refl.
  - intros s _ _. apply steady_refl.
  - intros s _ _. apply steady_refl.
  - intros a s. apply steady_refl.
  - intros a v s. apply steady_refl.
  - intros s Hk Hp. by split.
  - intros s Hk Hp. split; [by split|]. right. exists 1. by split.
  - intros n s Hk Hi Hp. by apply after_refl.
Qed.

(** The process of the demo machine in user space, at address 0; [a7] asks for
    [getpid]. *)
Definition user_hart : hart := mk_hart User 0 (fun c => match c with stvec => uservec_addr | satp => MAKE_SATP (pg 0) | _ => 0 end)
  (fun x => if x =? A7 then 11 else 7 * x).
Definition demo_kstack : Z := MAXVA - 3 * PGSIZE.
Definition demo_user : tstate := mk_ts user_hart true (mk_tf (MAKE_SATP (pg 2)) (demo_kstack + PGSIZE) usertrap_addr 0 0 (fun _ => 0)) demo_kstack demo_ps 0 [].
Lemma demo_in_user : in_user (MAKE_SATP (pg 2)) demo_user.
Proof. by split. Qed.
(** The same in the kernel, with interrupts on. *)
Definition demo_kernel : tstate :=
  put_hart (mk_hart Supervisor 2147510000 (fun c => match c with stvec => kernelvec_addr | sstatus => 2 | satp => MAKE_SATP (pg 2) | _ => 0 end) (fun x => 3 * x)) demo_user.

Lemma unexpected_trap_contained_witness :
  exists u', user_trap 2 77 demo_user = Exit (-1) u' /\ t_lines u' = [UNEXPECTED_SCAUSE 2 1; AT 0 77].
Proof.
  destruct (unexpected_trap_contained (MAKE_SATP (pg 2)) demo_kernel demo_user 2 77) as [H _].
  - reflexivity.
  - discriminate.
  - reflexivity.
  - apply demo_in_user.
  - split; reflexivity.
  - exact H.
Defined.



Lemma kernel_interrupt_transparent_witness : returns (kernel_trap TIMER 0 demo_kernel) (fun _ s' => h_pc (t_hart s') = 2147510000 /\ h_reg (t_hart s') A0 = 30).
Proof.
  eapply returns_mono; [apply (kernel_interrupt_transparent demo_kernel TIMER 0)|].
  - split; reflexivity.
  - reflexivity.
  - discriminate.
  - intros [] s' [_ Hpc Hr _ _ _]. split; [exact Hpc|]. rewrite Hr by (done || lia). reflexivity.
Defined.
