(* ===== verification/Kvm.v ===== *)
(** The kernel's page table ([kvmmake], [kvminit] and [kvminithart] of
    [kernel/vm.c], [proc_mapstacks] of [kernel/proc.c]): from the memory that
    [kinit] leaves, the boot code builds the direct map with the trampoline and
    a guarded stack for every process. *)
From S2P Require Import Prelude Riscv Kalloc Vm Uvm Teardown Image FileLayer Paging Trap.
Open Scope kern_scope.

Definition UART0 : Z := 0x10000000.
Definition VIRTIO0 : Z := 0x10001000.

Section Kvm.
Context `{Layout}.

Definition proc_mapstacks (kpgtbl : Z) : M kmem unit :=
  for_loop (Z.to_nat NPROC) 0 (fun i =>
    do pa <- kalloc;
    if pa =? 0 then panic "kalloc"
    else kvmmap kpgtbl (KSTACK i) pa PGSIZE (Z.lor PTE_R PTE_W)).

Definition kvmmake : M kmem Z :=
  do kpgtbl <- kalloc;
  kmemset kpgtbl 0 PGSIZE ;;;
  kvmmap kpgtbl UART0 UART0 PGSIZE (Z.lor PTE_R PTE_W) ;;;
  kvmmap kpgtbl VIRTIO0 VIRTIO0 PGSIZE (Z.lor PTE_R PTE_W) ;;;
  kvmmap kpgtbl PLIC PLIC 0x4000000 (Z.lor PTE_R PTE_W) ;;;
  kvmmap kpgtbl KERNBASE KERNBASE (etext - KERNBASE) (Z.lor PTE_R PTE_X) ;;;
  kvmmap kpgtbl etext etext (PHYSTOP - etext) (Z.lor PTE_R PTE_W) ;;;
  kvmmap kpgtbl TRAMPOLINE trampoline PGSIZE (Z.lor PTE_R PTE_X) ;;;
  proc_mapstacks kpgtbl ;;;
  ret kpgtbl.

(** [kernel_pagetable] is the result of [kvminit]. *)
Definition kvminit : M kmem Z := kvmmake.

(** The fences order the accesses to page tables; without a cache of
    translations they do nothing. *)
Definition kvminithart (kernel_pagetable : Z) : M hart unit := wr satp (MAKE_SATP kernel_pagetable).

(** * Table pages *)

(** A page table has one page per level and prefix. *)
Lemma table_inj_up s own free r n : vm_inv s own free -> forall l q q' pre, l = 2 - Z.of_nat n ->
  own !! q = Some (Table r l pre) -> own !! q' = Some (Table r l pre) -> q = q'.
Proof.
  intros Hi. induction n as [|n IH]; intros l q q' pre Hl Hq Hq'.
  - assert (Hroot : forall x, own !! x = Some (Table r l pre) -> x = r).
    { intros x Hx. destruct (inv_linked _ _ _ Hi _ _ _ _ Hx) as [(_ & ? & _)|(p & ppre & i & Hp & _)]; [done|]. apply (inv_level _ _ _ Hi) in Hp. lia. }
    rewrite (Hroot q Hq), (Hroot q' Hq'). done.
  - destruct (inv_linked _ _ _ Hi _ _ _ _ Hq) as [?|(p & ppre & i & Hp & Hix & Epre & _ & <-)]; [lia|].
    destruct (inv_linked _ _ _ Hi _ _ _ _ Hq') as [?|(p' & ppre' & i' & Hp' & Hix' & Epre' & _ & <-)]; [lia|].
    assert (ppre' = ppre /\ i' = i) as [-> ->] by lia. by rewrite (IH (l + 1) p p' ppre) by (done || lia).
Qed.
Lemma table_inj s own free r l pre q q' : vm_inv s own free -> own !! q = Some (Table r l pre) -> own !! q' = Some (Table r l pre) -> q = q'.
Proof. intros Hi Hq Hq'. pose proof (inv_level _ _ _ Hi _ _ _ _ Hq). by apply (table_inj_up s own free r (Z.to_nat (2 - l)) Hi l q q' pre ltac:(lia)). Qed.

(** The tables that the kernel's map needs: the root, those for the devices, for
    the kernel and its memory, and for the trampoline and the stacks. *)
Definition kernel_tables : list (Z * Z) := (2, 0) :: [(1, 0); (1, 2); (1, 255)] ++ (pair 0 <$> (seqZ 96 33 ++ seqZ 1024 64 ++ [131071])).
Definition NTABLES : nat := 102.

Definition place (own : gmap Z use) (q : Z) : Z * Z := match own !! q with Some (Table _ l pre) => (l, pre) | _ => (0, 0) end.

Lemma tables_bound s own free r tabs : vm_inv s own free -> NoDup tabs ->
  (forall q, q ∈ tabs -> exists l pre, own !! q = Some (Table r l pre) /\ (l, pre) ∈ kernel_tables) -> (length tabs <= NTABLES)%nat.
Proof.
  intros Hi Hnd Hall. rewrite <- (length_fmap (place own)). change NTABLES with (length kernel_tables). apply submseteq_length, NoDup_submseteq.
  - apply NoDup_fmap_2_strong; [|done]. intros q q' Hq Hq'. destruct (Hall q Hq) as (l & pre & E & _), (Hall q' Hq') as (l' & pre' & E' & _).
    unfold place. rewrite E, E'. intros [= -> ->]. by eapply table_inj.
  - intros z Hz. apply list_elem_of_fmap in Hz as (q & -> & Hq). destruct (Hall q Hq) as (l & pre & E & Hin). unfold place. by rewrite E.
Qed.

(** * Mapping *)

Definition entry (o : option (Z * Z)) : Z := match o with Some (pa, perm) => mk_pte pa perm | None => 0 end.
Definition with_range (va size pa perm : Z) (k : Z -> option (Z * Z)) (x : Z) : option (Z * Z) :=
  if (va <=? x) && (x <? va + size) then Some (pa + (x - va), perm) else k x.

(** [r] is the only page table, its translations are [k], and [n] pages are
    free or part of it. *)
Record kvm (k : Z -> option (Z * Z)) (s : kmem) (own : gmap Z use) (free : list Z) (r : Z) (n : nat) : Prop := {
  kv_inv : vm_inv s own free;
  kv_root : is_root own r;
  kv_map : forall x, aligned x -> 0 <= x < MAXVA -> lookup_pte (kmem_mem s) r x = entry (k x);
  kv_tables : forall q u, own !! q = Some u -> exists l pre, u = Table r l pre /\ (l, pre) ∈ kernel_tables;
  kv_count : exists tabs, NoDup tabs /\ (forall q, q ∈ tabs -> is_Some (own !! q)) /\ (length tabs + length free = n)%nat
}.

Lemma room_left s own free r n : vm_inv s own free -> (forall q u, own !! q = Some u -> exists l pre, u = Table r l pre /\ (l, pre) ∈ kernel_tables) ->
  (exists tabs, NoDup tabs /\ (forall q, q ∈ tabs -> is_Some (own !! q)) /\ (length tabs + length free = n)%nat) -> (NTABLES < n)%nat -> free <> [].
Proof.
  intros Hi Ht (tabs & Hnd & Hown & Hn) Hlt ->. cbn in Hn. assert (length tabs <= NTABLES)%nat; [|lia].
  eapply (tables_bound s own [] r); [done|done|]. intros q Hq. destruct (Hown q Hq) as [u Hu]. destruct (Ht q u Hu) as (l & pre & -> & Hin). eauto.
Qed.

Lemma kvm_ext k k' s own free r n : kvm k s own free r n -> (forall x, aligned x -> 0 <= x < MAXVA -> k' x = k x) -> kvm k' s own free r n.
Proof. intros [? ? Hm ? ?] Hk. split; try done. intros x Hx Hr. rewrite Hk by done. by apply Hm. Qed.

(** What an update of the page table that stays in [kernel_tables] keeps. *)
Lemma updates_tables k s own free r n (D : Z -> Z -> Prop) (T : Z -> Prop) s' own' free' used : kvm k s own free r n -> updates s own free D s' own' free' used ->
  new_tables r T own own' -> (forall l va, 0 <= l < 2 -> 0 <= va < MAXVA -> T (vpn va) -> (l, prefix l va) ∈ kernel_tables) ->
  (forall q u, own' !! q = Some u -> exists l pre, u = Table r l pre /\ (l, pre) ∈ kernel_tables) /\
  exists tabs, NoDup tabs /\ (forall q, q ∈ tabs -> is_Some (own' !! q)) /\ (length tabs + length free' = n)%nat.
Proof.
  intros [Hi Hr Hm Ht (tabs & Hnd & Hown & Hn)] U Hnt HT. split.
  - intros q u Hq. destruct (Hnt q u Hq) as [Hq'|(l & va & Hl & Hva & Hv & ->)]; [by apply (Ht q)|]. exists l, (prefix l va). split; [done|]. by apply HT.
  - pose proof (upd_free _ _ _ _ _ _ _ _ U) as Hf. exists (tabs ++ used). destruct (inv_free _ _ _ Hi) as [_ Hfd]. rewrite Hf in Hfd. apply NoDup_app in Hfd as (Hud & _ & _). split_and!.
    + apply NoDup_app. split; [done|]. split; [|done]. intros q Hq Hq'. destruct (Hown q Hq) as [u Hu].
      rewrite (inv_notfree _ _ _ Hi q) in Hu; [done|]. rewrite Hf. apply elem_of_app. by left.
    + intros q Hq. apply elem_of_app in Hq as [Hq|Hq]; [|by apply (upd_used _ _ _ _ _ _ _ _ U)]. destruct (Hown q Hq) as [u Hu]. exists u. eapply lookup_weaken; [exact Hu|apply U].
    + rewrite Hf in Hn. rewrite length_app in *. lia.
Qed.

Lemma kvmmap_ok k s own free r n va pa size perm : kvm k s own free r n -> (NTABLES < n)%nat ->
  0 <= va -> aligned va -> 0 < size -> size mod PGSIZE = 0 -> va + size <= MAXVA -> 0 <= pa -> pa + size <= 2 ^ 56 -> 0 <= perm < 1024 ->
  (forall x, aligned x -> va <= x < va + size -> k x = None) ->
  (forall l x, 0 <= l < 2 -> va <= x < va + size -> (l, prefix l x) ∈ kernel_tables) ->
  returns (kvmmap r va pa size perm s) (fun _ s' => exists own' free', kvm (with_range va size pa perm k) s' own' free' r n /\ forall q, held own free q -> held own' free' q).
Proof.
  intros K Hn Hva Hal Hs0 Hsm Htop Hpa Hpt Hperm Hnone Htab. pose proof K as [Hi Hr Hm _ _]. unfold kvmmap.
  assert (Hpage : forall x, vpn va <= vpn x < vpn va + size / PGSIZE <-> va <= x < va + size) by (intros x; unfold aligned, vpn, PGSIZE in *; zlia).
  eapply bind_returns; [apply (mappages_range s own free r va size pa perm Hi Hr); [done|done|lia|done]|].
  intros res s' (own' & free' & used & U & Hnt & Hres).
  destruct (updates_tables _ _ _ _ _ _ _ _ _ _ _ _ K U Hnt) as [Ht' Hc']; [intros l x Hl Hx Hv; apply Htab; [done|by apply Hpage]|].
  assert (Hother : forall x, aligned x -> 0 <= x < MAXVA -> ~ (va <= x < va + size) -> lookup_pte (kmem_mem s') r x = entry (k x)).
  { intros x Hx Hrx Hout. rewrite (upd_lookup _ _ _ _ _ _ _ _ U); [by apply Hm|done|done|]. intros [_ Hd]. by apply Hout, Hpage. }
  destruct Hres as [[-> Hall]|[-> [Hnil|(i & Hix & Hv)]]]; cbn [Z.eqb].
  - cbn. exists own', free'. pose proof (upd_free _ _ _ _ _ _ _ _ U) as Hf. split.
    2: { intros q [Hq1 Hq2 Hq3]. rewrite Hf in Hq2. split; [done|set_solver|]. destruct (own' !! q) as [u|] eqn:Hq; [|done].
      destruct (upd_new _ _ _ _ _ _ _ _ U q u Hq) as [?|[Hu _]]; [congruence|set_solver]. }
    split; [apply U|eapply is_root_mono; [apply U|done]| |done|done].
    intros x Hx Hrx. unfold with_range. destruct (Z.leb_spec va x), (Z.ltb_spec x (va + size)); cbn [andb]; try (apply Hother; [done|done|lia]).
    assert (Ex : x = va + (x - va) / PGSIZE * PGSIZE) by (unfold aligned, PGSIZE in *; zlia). rewrite Ex at 1.
    rewrite Hall by (unfold aligned, PGSIZE in *; zlia). cbn. f_equal. unfold aligned, PGSIZE in *. zlia.
  - by destruct (room_left s' own' free' r n (upd_inv _ _ _ _ _ _ _ _ U) Ht' Hc' Hn).
  - assert (Hx : va <= va + i * PGSIZE < va + size /\ aligned (va + i * PGSIZE)) by (unfold aligned, PGSIZE in *; zlia).
    rewrite Hm, Hnone in Hv by (try lia; apply Hx). done.
Qed.

(** * The kernel's map *)

Definition RW : Z := Z.lor PTE_R PTE_W.
Definition RX : Z := Z.lor PTE_R PTE_X.

(** The address space of the kernel: physical page and permissions of a page.
    Devices, the kernel and its memory are mapped where they are. *)
Definition direct (va : Z) : option (Z * Z) :=
  let within lo hi := (lo <=? va) && (va <? hi) in
  if within PLIC (PLIC + 0x4000000) || within UART0 (UART0 + PGSIZE) || within VIRTIO0 (VIRTIO0 + PGSIZE) then Some (va, RW)
  else if within KERNBASE etext then Some (va, RX)
  else if within etext PHYSTOP then Some (va, RW)
  else if va =? TRAMPOLINE then Some (trampoline, RX)
  else None.
(** The stacks, in the order of the process table, on every second page below
    the trampoline. *)
Definition kstack (stacks : list Z) (va : Z) : option (Z * Z) :=
  let d := TRAMPOLINE - va in
  if (0 <? d) && (d mod (2 * PGSIZE) =? 0) then (fun pa => (pa, RW)) <$> stacks !! Z.to_nat (d / (2 * PGSIZE) - 1) else None.
Definition kmap (stacks : list Z) (va : Z) : option (Z * Z) := match direct va with Some e => Some e | None => kstack stacks va end.

Lemma kernel_layout : KERNBASE < etext /\ etext < PHYSTOP /\ aligned etext /\ KERNBASE <= trampoline < etext.
Proof. pose proof kernel_above_base. pose proof etext_below_end. pose proof kend_below_top. pose proof trampoline_in_text. pose proof etext_aligned. unfold aligned. lia. Qed.

Ltac consts := change PLIC with 201326592 in *; change UART0 with 268435456 in *; change VIRTIO0 with 268439552 in *; change KERNBASE with 2147483648 in *;
  change PHYSTOP with 2281701376 in *; change TRAMPOLINE with 274877902848 in *; change MAXVA with 274877906944 in *; unfold PGSIZE in *.
Ltac cases := unfold with_range; repeat match goal with |- context [?a <=? ?b] => destruct (Z.leb_spec a b) | |- context [?a <? ?b] => destruct (Z.ltb_spec a b) end; cbn [andb orb]; try done; try lia.

Lemma in_tables l x : 0 <= l < 2 -> (PLIC <= x < VIRTIO0 + PGSIZE \/ KERNBASE <= x < PHYSTOP \/ MAXVA - 2 ^ 21 <= x < MAXVA) -> (l, prefix l x) ∈ kernel_tables.
Proof.
  intros Hl Hx. assert (l = 0 \/ l = 1) as [->| ->] by lia; unfold prefix, kernel_tables; consts; apply elem_of_cons; right; apply elem_of_app.
  - right. apply list_elem_of_fmap. eexists. split; [reflexivity|]. rewrite !elem_of_app, !elem_of_seqZ, list_elem_of_singleton. change (2 ^ (21 + 9 * 0)) with 2097152 in *. zlia.
  - left. change (2 ^ (21 + 9 * 1)) with 1073741824. assert (x / 1073741824 = 0 \/ x / 1073741824 = 2 \/ x / 1073741824 = 255) as [->|[->| ->]] by zlia; set_solver.
Qed.

(** One step of the boot code. *)
Lemma boot_map k s own free r n va pa size perm (g : unit -> M kmem Z) Q : kvm k s own free r n -> (NTABLES < n)%nat ->
  0 <= va -> aligned va -> 0 < size -> size mod PGSIZE = 0 -> va + size <= MAXVA -> 0 <= pa -> pa + size <= 2 ^ 56 -> 0 <= perm < 1024 ->
  (forall x, aligned x -> va <= x < va + size -> k x = None) ->
  (PLIC <= va /\ va + size <= VIRTIO0 + PGSIZE \/ KERNBASE <= va /\ va + size <= PHYSTOP \/ MAXVA - 2 ^ 21 <= va) ->
  (forall s' own' free', kvm (with_range va size pa perm k) s' own' free' r n -> returns (g tt s') Q) -> returns (bind (kvmmap r va pa size perm) g s) Q.
Proof.
  intros K Hn H1 H2 H3 H4 H5 H6 H7 H8 Hnone Htab Hg. eapply bind_returns; [apply (kvmmap_ok k s own free r n va pa size perm K Hn); try done|].
  - intros l x Hl Hx. apply in_tables; [done|lia].
  - intros [] s' (own' & free' & K' & _). by eapply Hg.
Qed.

(** ** The stacks *)

(** A page taken off the free list. *)
Lemma kvm_kalloc k s own free r n : kvm k s own free r (S n) -> (NTABLES <= n)%nat ->
  returns (kalloc s) (fun p s' => exists free', free = p :: free' /\ kvm k s' own free' r n /\ held own free' p).
Proof.
  intros K Hn. pose proof K as [Hi Hr Hm Ht Hc]. pose proof (room_left s own free r (S n) Hi Ht Hc ltac:(lia)) as Hne. destruct free as [|p free1]; [done|].
  eapply returns_mono; [by apply (kalloc_held s own)|]. intros q s1 (-> & Hi1 & Hh & Hs1). exists free1. split; [done|]. split; [|done]. split; [done|done| |done|].
  - intros x Hx Hrx. rewrite (lookup_held s own (p :: free1) p _ r x); [by apply Hm|done|apply Hh|done|done|done].
  - destruct Hc as (tabs & ? & ? & Hl). exists tabs. cbn in Hl. split_and!; try done. lia.
Qed.

Lemma kstack_range i : 0 <= i < NPROC -> MAXVA - 2 ^ 21 <= KSTACK i /\ KSTACK i + PGSIZE <= TRAMPOLINE - PGSIZE /\ aligned (KSTACK i).
Proof. unfold KSTACK, NPROC, aligned. consts. intros Hi. zlia. Qed.

Lemma direct_stack x : PHYSTOP <= x < TRAMPOLINE -> direct x = None.
Proof.
  intros Hx. pose proof kernel_layout as (L1 & L2 & L3 & L4). unfold direct. consts. rewrite !(fun a b => proj2 (Z.ltb_ge a b)) by lia. rewrite !andb_false_r. cbn [orb].
  destruct (Z.eqb_spec x 274877902848); [lia|done].
Qed.

Lemma kstack_lookup stacks x : aligned x -> 0 <= x < TRAMPOLINE -> kstack stacks x =
  if (TRAMPOLINE - x) mod (2 * PGSIZE) =? 0 then (fun pa => (pa, RW)) <$> stacks !! Z.to_nat ((TRAMPOLINE - x) / (2 * PGSIZE) - 1) else None.
Proof. intros Hx Hr. unfold kstack. rewrite (proj2 (Z.ltb_lt _ _)) by lia. done. Qed.

(** The map with one more stack. *)
Lemma kmap_snoc stacks p x : (length stacks < Z.to_nat NPROC)%nat -> aligned x -> 0 <= x < MAXVA ->
  kmap (stacks ++ [p]) x = with_range (KSTACK (Z.of_nat (length stacks))) PGSIZE p RW (kmap stacks) x.
Proof.
  intros Hl Hx Hr. destruct (kstack_range (Z.of_nat (length stacks)) ltac:(unfold NPROC in *; lia)) as (K1 & K2 & K3). set (m := Z.of_nat (length stacks)) in *.
  unfold with_range, kmap. destruct (decide (x = KSTACK m)) as [->|Hne].
  - rewrite (proj2 (Z.leb_le _ _)), (proj2 (Z.ltb_lt _ _)) by (unfold PGSIZE; lia). cbn [andb]. rewrite direct_stack, kstack_lookup by (consts; (done || lia)).
    replace (TRAMPOLINE - KSTACK m) with ((m + 1) * (2 * PGSIZE)) by (unfold KSTACK; lia). rewrite Z.mod_mul, Z.div_mul by (unfold PGSIZE; lia). cbn [Z.eqb].
    rewrite lookup_app_r by lia. replace (Z.to_nat (m + 1 - 1) - length stacks)%nat with 0%nat by lia. cbn. do 2 f_equal. lia.
  - assert (Hout : (KSTACK m <=? x) && (x <? KSTACK m + PGSIZE) = false) by (apply andb_false_iff; rewrite Z.leb_gt, Z.ltb_ge; unfold aligned, PGSIZE in *; zlia). rewrite Hout.
    destruct (direct x); [done|]. unfold kstack. destruct (Z.ltb_spec 0 (TRAMPOLINE - x)) as [Hd|]; [|done]. cbn [andb]. destruct (Z.eqb_spec ((TRAMPOLINE - x) mod (2 * PGSIZE)) 0) as [Hm|]; [|done].
    f_equal. destruct (decide (Z.to_nat ((TRAMPOLINE - x) / (2 * PGSIZE) - 1) < length stacks)%nat) as [Hlt|Hge]; [by rewrite lookup_app_l|].
    rewrite !lookup_ge_None_2; [done|lia|]. rewrite length_app. cbn. assert (0 <= (TRAMPOLINE - x) / (2 * PGSIZE) - 1) by (unfold PGSIZE in *; zlia).
    enough ((TRAMPOLINE - x) / (2 * PGSIZE) - 1 <> m) by lia. intros E. apply Hne. unfold KSTACK, PGSIZE in *. zlia.
Qed.

Lemma proc_mapstacks_ok s own free r n : kvm (kmap []) s own free r (Z.to_nat NPROC + n) -> (NTABLES < n)%nat ->
  returns (proc_mapstacks r s) (fun _ s' => exists own' free' stacks, kvm (kmap stacks) s' own' free' r n /\ length stacks = Z.to_nat NPROC /\ NoDup stacks /\ Forall (held own' free') stacks).
Proof.
  intros K Hn. unfold proc_mapstacks.
  pose (I := fun (i : Z) (s' : kmem) => exists own' free' stacks, kvm (kmap stacks) s' own' free' r (Z.to_nat (NPROC - i) + n) /\
    Z.of_nat (length stacks) = i /\ NoDup stacks /\ Forall (held own' free') stacks).
  eapply returns_mono; [apply (for_loop_returns I)|].
  - exists own, free, []. split; [exact K|]. split; [done|]. split; constructor.
  - intros i s1 Hi (own1 & free1 & stacks & K1 & Hlen & Hnd & Hall). rewrite Z2Nat.id in Hi by done.
    replace (Z.to_nat (NPROC - i) + n)%nat with (S (Z.to_nat (NPROC - (i + 1)) + n)) in K1 by lia.
    eapply bind_returns; [apply (kvm_kalloc _ _ _ _ _ _ K1); lia|]. intros p s2 (free2 & -> & K2 & Hp). pose proof (valid_page_pos p (held_valid _ _ _ Hp)) as Hpos. destruct (Z.eqb_spec p 0); [lia|].
    destruct (kstack_range i ltac:(lia)) as (R1 & R2 & R3).
    eapply returns_mono; [apply (kvmmap_ok (kmap stacks) s2 own1 free2 r _ (KSTACK i) p PGSIZE RW K2); try done; try (consts; lia)|].
    + destruct (held_valid _ _ _ Hp) as [_ Hv]. consts. lia.
    + intros x Hx Hxr. assert (x = KSTACK i) as -> by (unfold aligned, PGSIZE in *; zlia). unfold kmap. rewrite direct_stack, kstack_lookup by (consts; (done || lia)).
      replace (TRAMPOLINE - KSTACK i) with ((i + 1) * (2 * PGSIZE)) by (unfold KSTACK; lia). rewrite Z.mod_mul, Z.div_mul by (unfold PGSIZE; lia). cbn [Z.eqb].
      rewrite lookup_ge_None_2 by lia. done.
    + intros l x Hl Hxr. apply in_tables; [done|]. right. right. consts. lia.
    + intros [] s3 (own3 & free3 & K3 & Hheld). exists own3, free3, (stacks ++ [p]). split_and!.
      * eapply kvm_ext; [exact K3|]. intros x Hx Hr. rewrite kmap_snoc by (done || lia). by rewrite Hlen.
      * rewrite length_app. cbn. lia.
      * apply NoDup_app. split; [done|]. split; [|by apply NoDup_singleton]. intros q Hq Hq2%list_elem_of_singleton. subst q. rewrite Forall_forall in Hall.
        apply (held_notfree _ _ _ (Hall p Hq)). by left.
      * apply Forall_app. split; [|constructor; [by apply Hheld|constructor]]. eapply Forall_impl; [exact Hall|]. intros q [Q1 Q2 Q3]. apply Hheld. split; [done|set_solver|done].
  - intros [] s' (own' & free' & stacks & K' & Hlen & Hnd & Hall). exists own', free', stacks. split; [exact K'|]. split; [lia|done].
Qed.

(** ** The boot code *)

(** The root, on a free list and nothing else. *)
Lemma boot_root s p free : freelist_ok s (p :: free) ->
  returns ((do kpgtbl <- kalloc; kmemset kpgtbl 0 PGSIZE ;;; ret kpgtbl) s) (fun r s' => r = p /\ kvm (fun _ => None) s' {[p := Table p 2 0]} free p (S (length free))).
Proof.
  intros Hf. assert (Hi : vm_inv s ∅ (p :: free)) by (split; [done|..]; intros; by rewrite ?lookup_empty in *).
  eapply bind_returns; [by apply (kalloc_held s ∅)|]. intros r s1 (-> & Hi1 & Hh & _). cbn. split; [done|]. set (s2 := set_mem _ s1).
  assert (Hz : forall j, 0 <= j < 512 -> load64 (kmem_mem s2) (p + 8 * j) = 0) by (intros j Hj; apply load_fill_zero; unfold PGSIZE; lia).
  pose proof (valid_page_aligned p (held_valid _ _ _ Hh)) as Hal. rewrite <- insert_empty. split.
  - apply own_root; [|done|done]. apply (held_write s1 ∅ free p); [done|done|]. intros q Hq Hne. by apply same_page_fill.
  - apply lookup_insert_eq.
  - intros x _ _. by apply pte_at_zero_page.
  - intros q u. rewrite lookup_insert. case_decide; [|by rewrite lookup_empty]. intros [= <-]. exists 2, 0. split; [done|]. by left.
  - exists [p]. split; [apply NoDup_singleton|]. split; [|done]. intros q Hq%list_elem_of_singleton. subst q. rewrite lookup_insert_eq. eauto.
Qed.

Ltac regions := repeat match goal with
  | |- context [?a <=? ?b] => destruct (Z.leb_spec a b); try (exfalso; lia); cbn [andb orb]
  | |- context [?a <? ?b] => destruct (Z.ltb_spec a b); try (exfalso; lia); cbn [andb orb]
  end.

Lemma kmap_ranges x : aligned x -> 0 <= x < MAXVA -> kmap [] x =
  with_range TRAMPOLINE PGSIZE trampoline RX (with_range etext (PHYSTOP - etext) etext RW (with_range KERNBASE (etext - KERNBASE) KERNBASE RX
    (with_range PLIC 0x4000000 PLIC RW (with_range VIRTIO0 PGSIZE VIRTIO0 RW (with_range UART0 PGSIZE UART0 RW (fun _ => None)))))) x.
Proof.
  intros Hx Hr. pose proof kernel_layout as (L1 & L2 & L3 & L4).
  assert (Hk : kstack [] x = None) by (unfold kstack; by destruct ((0 <? TRAMPOLINE - x) && ((TRAMPOLINE - x) mod (2 * PGSIZE) =? 0))).
  assert (Htop : TRAMPOLINE <= x -> x = TRAMPOLINE) by (unfold aligned in *; consts; zlia).
  unfold kmap. rewrite Hk. unfold with_range, direct. rewrite !Zplus_minus. consts. destruct (Z.eqb_spec x 274877902848) as [->|Hne].
  - regions. f_equal. f_equal. lia.
  - regions; done.
Qed.

Lemma kvmmake_ok s free n : freelist_ok s free -> (length free = Z.to_nat NPROC + n)%nat -> (NTABLES < n)%nat ->
  returns (kvmmake s) (fun r s' => exists own' free' stacks, kvm (kmap stacks) s' own' free' r n /\
    length stacks = Z.to_nat NPROC /\ NoDup stacks /\ Forall (held own' free') stacks).
Proof.
  intros Hf Hlen Hn. destruct free as [|p free1]; [cbn in Hlen; lia|]. pose proof kernel_layout as (L1 & L2 & L3 & L4). set (N := (Z.to_nat NPROC + n)%nat) in *.
  assert (HN : (NTABLES < N)%nat) by lia. pose proof (boot_root s p free1 Hf) as Hroot. unfold kvmmake. unfold bind at 1. unfold bind at 1 in Hroot.
  destruct (kalloc s) as [r s1| | | |]; try contradiction. unfold bind at 1. unfold bind at 1 in Hroot. destruct (kmemset r 0 PGSIZE s1) as [[] s2| | | |]; try contradiction.
  cbn in Hroot. destruct Hroot as [-> K]. cbn in Hlen. rewrite Hlen in K. change (Z.lor PTE_R PTE_W) with RW. change (Z.lor PTE_R PTE_X) with RX.
  assert (Hperm : 0 <= RW < 1024 /\ 0 <= RX < 1024) by done. destruct Hperm as [Hrw Hrx].
  eapply (boot_map _ _ _ _ _ N); [exact K|done|done|done|done|done|done|done|done|done|done|left; done|]. clear K. intros s3 own3 free3 K.
  eapply (boot_map _ _ _ _ _ N); [exact K|done|done|done|done|done|done|done|done|done|intros x Hx Hr; consts; unfold with_range; regions; done|left; done|]. clear K. intros s4 own4 free4 K.
  eapply (boot_map _ _ _ _ _ N); [exact K|done|done|done|done|done|done|done|done|done|intros x Hx Hr; consts; unfold with_range; regions; done|left; done|]. clear K. intros s5 own5 free5 K.
  eapply (boot_map _ _ _ _ _ N); [exact K|done|done|done|lia|unfold aligned, KERNBASE, PGSIZE in *; zlia|consts; lia|done|consts; lia|done|intros x Hx Hr; consts; unfold with_range; regions; done|right; left; lia|].
  clear K. intros s6 own6 free6 K.
  eapply (boot_map _ _ _ _ _ N); [exact K|done|consts; lia|done|lia|unfold aligned in *; consts; zlia|consts; lia|consts; lia|consts; lia|done|intros x Hx Hr; consts; unfold with_range; regions; done|right; left; lia|].
  clear K. intros s7 own7 free7 K.
  eapply (boot_map _ _ _ _ _ N); [exact K|done|done|done|done|done|done|consts; lia|consts; lia|done|intros x Hx Hr; consts; unfold with_range; regions; done|right; right; done|].
  clear K. intros s8 own8 free8 K. eapply bind_returns; [eapply proc_mapstacks_ok; [|exact Hn]|].
  - eapply kvm_ext; [exact K|]. apply kmap_ranges.
  - intros [] s9 H9. exact H9.
Qed.

(** No page is writable at one address and executable at another. *)
Lemma kmap_perm stacks va pa perm : Forall valid_page stacks -> 0 <= va < MAXVA -> aligned va -> kmap stacks va = Some (pa, perm) ->
  perm = RX /\ KERNBASE <= pa < etext \/ perm = RW /\ (pa < KERNBASE \/ etext <= pa).
Proof.
  intros Hv Hva Hal. pose proof kernel_layout as (L1 & L2 & L3 & L4). unfold kmap, direct.
  assert (Hst : kstack stacks va = Some (pa, perm) -> perm = RW /\ etext <= pa).
  { unfold kstack. destruct ((0 <? TRAMPOLINE - va) && _); [|done]. intros Hs. apply fmap_Some in Hs as (q & Hq & [= -> ->]). split; [done|].
    rewrite Forall_lookup in Hv. destruct (Hv _ _ Hq). pose proof etext_below_end. lia. }
  consts. destruct (Z.eqb_spec va 274877902848) as [->|Hne].
  - regions. intros [= <- <-]. left. split; [done|lia].
  - regions; try (intros [= <- <-]; (left; split; [done|lia]) || (right; split; [done|lia])); intros Hs; destruct (Hst Hs); right; split; (done || lia).
Qed.

(** The hardware finds the root in [satp]. *)
Lemma satp_root r : 0 <= r < 2 ^ 56 -> aligned r -> Z.land (MAKE_SATP r) (Z.ones 44) * PGSIZE = r /\ Z.shiftr (MAKE_SATP r) 60 = 8.
Proof.
  intros Hr Hal. assert (Hd : 0 <= r / 4096 < 2 ^ 44) by zlia. unfold MAKE_SATP, SATP_SV39. rewrite Z.shiftr_div_pow2 with (n := 12) by lia. change (2 ^ 12) with 4096. split.
  - rewrite Z.land_lor_distr_l, (Z.land_ones (r / 4096)), Z.mod_small by lia. change (Z.land (Z.shiftl 8 60) (Z.ones 44)) with 0. rewrite Z.lor_0_l. unfold aligned, PGSIZE in *. zlia.
  - rewrite Z.shiftr_lor, (Z.shiftr_div_pow2 (r / 4096)), Z.div_small by lia. done.
Qed.
End Kvm.
