(* ===== verification/KvmClaims.v ===== *)
(** The kernel's address space after boot. *)
From S2P Require Import Prelude Riscv Kalloc Vm Uvm Teardown Image FileLayer Paging Machine Trap Kvm.
Open Scope kern_scope.

(** What [kinit] leaves is enough for the tables and the stacks. *)
Definition boot_room `{Layout} : Prop := PGROUNDUP kend + (Z.of_nat NTABLES + 1 + NPROC) * PGSIZE <= PHYSTOP.

Lemma frames_from_length base n acc : length (frames_from base n acc) = (n + length acc)%nat.
Proof. revert base acc. induction n as [|n IH]; intros base acc; [done|]. cbn. rewrite IH. cbn. lia. Qed.

(** C18: on any contents of memory, when 167 page frames lie between the end of
    the kernel and the top of memory, [kinit] followed by [kvminit] returns and
    does not panic.  The new page table translates exactly the device
    registers, the kernel text (read and execute), the kernel data and all
    memory (read and write), the trampoline page and one stack page for every
    process; every other page, in particular the page below each stack, is
    unmapped.  The stacks are 64 different pages that are neither free nor
    tables, no physical page is writable at one address and executable at
    another, and [kvminithart] makes [satp] point to this page table. *)
Theorem boot_builds_kernel_map `{Layout} (m : mem) : boot_room ->
  returns ((kinit ;;; kvminit) (mk_kmem m 0)) (fun r s' => exists own free stacks,
    vm_inv s' own free /\ is_root own r /\
    (forall va, aligned va -> 0 <= va < MAXVA -> lookup_pte (kmem_mem s') r va = entry (kmap stacks va)) /\
    (length stacks = Z.to_nat NPROC /\ NoDup stacks /\ Forall (held own free) stacks) /\
    (forall i, 0 <= i < NPROC -> kmap stacks (KSTACK i) = (fun pa => (pa, RW)) <$> stacks !! Z.to_nat i /\ kmap stacks (KSTACK i - PGSIZE) = None) /\
    (forall va va' pa perm perm', aligned va -> aligned va' -> 0 <= va < MAXVA -> 0 <= va' < MAXVA ->
      kmap stacks va = Some (pa, perm) -> kmap stacks va' = Some (pa, perm') -> has perm PTE_W = true -> has perm' PTE_X = true -> False) /\
    (forall h, returns (kvminithart r h) (fun _ h' => Z.land (h_csr h' satp) (Z.ones 44) * PGSIZE = r /\ Z.shiftr (h_csr h' satp) 60 = 8))).
Proof.
  intros Hroom. eapply bind_returns; [apply kinit_ok|]. intros [] s1 Hf.
  pose (n := (nframes - Z.to_nat NPROC)%nat). assert (Hnf : (NTABLES + 1 + Z.to_nat NPROC <= nframes)%nat).
  { unfold nframes, boot_room, NTABLES, NPROC, PGSIZE in *. zlia. }
  eapply returns_mono; [apply (kvmmake_ok s1 _ n Hf); [rewrite frames_from_length; cbn; lia|lia]|].
  intros r s' (own & free & stacks & K & Hlen & Hnd & Hall). exists own, free, stacks. pose proof K as [Hi Hr Hm _ _].
  assert (Hv : Forall valid_page stacks) by (eapply Forall_impl; [exact Hall|]; by intros q []).
  split; [done|]. split; [done|]. split; [done|]. split; [done|]. split; [|split].
  - intros i Hix. destruct (kstack_range i Hix) as (R1 & R2 & R3). assert (Hp : 0 < PGSIZE < 2 ^ 20 /\ TRAMPOLINE + PGSIZE = MAXVA /\ 0 < PHYSTOP < MAXVA - 2 ^ 21 - 2 ^ 20) by done.
    unfold kmap. rewrite !direct_stack by lia. split.
    + rewrite kstack_lookup by (done || lia). replace (TRAMPOLINE - KSTACK i) with ((i + 1) * (2 * PGSIZE)) by (unfold KSTACK; lia).
      rewrite Z.mod_mul, Z.div_mul by (unfold PGSIZE; lia). cbn [Z.eqb]. by replace (i + 1 - 1) with i by lia.
    + rewrite kstack_lookup; [|unfold aligned, PGSIZE in *; zlia|lia]. replace (TRAMPOLINE - (KSTACK i - PGSIZE)) with (PGSIZE + (i + 1) * (2 * PGSIZE)) by (unfold KSTACK; lia).
      rewrite Z.mod_add by (unfold PGSIZE; lia). done.
  - intros va va' pa perm perm' Ha Ha' Hr1 Hr2 E1 E2 Hw Hx.
    destruct (kmap_perm _ _ _ _ Hv Hr1 Ha E1) as [[-> _]|[-> ?]]; [done|]. destruct (kmap_perm _ _ _ _ Hv Hr2 Ha' E2) as [[-> ?]|[-> _]]; [lia|done].
  - intros h. cbn. pose proof (inv_pos _ _ _ _ _ Hi Hr). rewrite ?upd_eq. apply satp_root; [lia|]. by eapply inv_aligned.
Qed.

Lemma boot_builds_kernel_map_witness : returns ((kinit ;;; kvminit) (mk_kmem (fun _ => 0) 0)) (fun r s' => exists stacks,
  lookup_pte (kmem_mem s') r KERNBASE = mk_pte KERNBASE RX /\ lookup_pte (kmem_mem s') r (KSTACK 3) = entry (kmap stacks (KSTACK 3)) /\ lookup_pte (kmem_mem s') r 0 = 0).
Proof.
  eapply returns_mono; [apply (boot_builds_kernel_map (fun _ => 0)); vm_compute; congruence|]. intros r s' (own & free & stacks & _ & _ & Hm & _). exists stacks.
  rewrite !Hm by done. split_and!; [vm_compute; reflexivity|reflexivity|vm_compute; reflexivity].
Defined.
