(* ===== verification/Bakery.v ===== *)
(** The concurrent bakery ([Concurrent-Bakery-Sim/main.c]): the ring queues, the
    chef and customer threads as a step relation over program counters, locks,
    semaphores and the shared flags, and the safety properties of every
    interleaving: capacity, no lost customer, strict order of baking, paying
    and leaving, and exclusive use of the cash register.  Two behaviours the
    comments of the program rule out are shown to be reachable. *)
From S2P Require Import Prelude.

(** * Ring queues *)

Definition QUEUE_MAX : Z := 25.
Definition BAKERY_CAPACITY : Z := 25.
Definition SOFA_SEATS : Z := 4.
Definition NUM_CHEFS : nat := 4.

(** [Queue]: customers are named by their id, the pointer [event *] of the
    code. *)
Record Queue := mk_queue { q_data : Z -> nat; q_head : Z; q_tail : Z; q_count : Z }.

Definition my_init : Queue := mk_queue (fun _ => 0%nat) 0 0 0.

Definition my_enqueue (q : Queue) (c : nat) : Z * Queue :=
  if q_count q <? QUEUE_MAX
  then (1, mk_queue (upd (q_data q) (q_tail q) c) (q_head q) ((q_tail q + 1) mod QUEUE_MAX) (q_count q + 1))
  else (-1, q).

Definition my_dequeue (q : Queue) : option nat * Queue :=
  if 0 <? q_count q
  then (Some (q_data q (q_head q)),
        mk_queue (q_data q) ((q_head q + 1) mod QUEUE_MAX) (q_tail q) (q_count q - 1))
  else (None, q).

Definition get_count (q : Queue) : Z := q_count q.

(** The contents of a queue, oldest first. *)
Definition q_list (q : Queue) : list nat :=
  (fun i => q_data q ((q_head q + Z.of_nat i) mod QUEUE_MAX)) <$> seq 0 (Z.to_nat (q_count q)).

Definition q_wf (q : Queue) : Prop :=
  0 <= q_head q < QUEUE_MAX /\ 0 <= q_count q <= QUEUE_MAX /\
  q_tail q = (q_head q + q_count q) mod QUEUE_MAX.

(** The abstract queue: a bounded list. *)
Definition list_enqueue (l : list nat) (c : nat) : Z * list nat :=
  if Z.of_nat (length l) <? QUEUE_MAX then (1, l ++ [c]) else (-1, l).

Definition list_dequeue (l : list nat) : option nat * list nat :=
  match l with [] => (None, []) | c :: l' => (Some c, l') end.

Lemma q_list_length q : q_wf q -> Z.of_nat (length (q_list q)) = q_count q.
Proof. intros (_ & Hc & _). unfold q_list. rewrite length_fmap, length_seq. lia. Qed.

Lemma my_init_wf : q_wf my_init /\ q_list my_init = [].
Proof. done. Qed.

Lemma my_enqueue_refines q c : q_wf q ->
  let '(r, q') := my_enqueue q c in
  q_wf q' /\ (r, q_list q') = list_enqueue (q_list q) c.
Proof.
  intros Hq. pose proof Hq as (Hh & Hc & Ht). unfold my_enqueue, list_enqueue. rewrite q_list_length by done.
  destruct (Z.ltb_spec (q_count q) QUEUE_MAX) as [Hlt|Hge]; [|done].
  unfold QUEUE_MAX in *. split.
  - unfold q_wf, QUEUE_MAX; simpl. split_and!; try lia. rewrite Ht. zlia.
  - f_equal. unfold q_list; simpl. replace (Z.to_nat (q_count q + 1)) with (Z.to_nat (q_count q) + 1)%nat by lia.
    rewrite seq_app, fmap_app. f_equal.
    + apply list_fmap_ext. intros i x Hx. apply lookup_seq in Hx as [-> Hi]. unfold QUEUE_MAX. apply upd_ne.
      rewrite Ht. zlia.
    + simpl. unfold QUEUE_MAX. rewrite Z2Nat.id, <- Ht by lia. by rewrite upd_eq.
Qed.

Lemma my_dequeue_refines q : q_wf q ->
  let '(r, q') := my_dequeue q in
  q_wf q' /\ (r, q_list q') = list_dequeue (q_list q).
Proof.
  intros Hq. pose proof Hq as (Hh & Hc & Ht). unfold my_dequeue.
  destruct (Z.ltb_spec 0 (q_count q)) as [Hlt|Hge].
  - unfold QUEUE_MAX in *. split.
    + unfold q_wf, QUEUE_MAX; simpl. split_and!; try lia; [zlia|zlia|]. rewrite Ht. zlia.
    + unfold q_list; simpl. replace (Z.to_nat (q_count q)) with (S (Z.to_nat (q_count q - 1))) by lia.
      simpl. unfold QUEUE_MAX in *. rewrite Z.add_0_r, (Z.mod_small (q_head q)) by lia. f_equal.
      rewrite <- fmap_S_seq, <- list_fmap_compose. apply list_fmap_ext. intros i x _. simpl. f_equal. zlia.
  - split; [done|]. unfold q_list. replace (Z.to_nat (q_count q)) with 0%nat by lia. done.
Qed.

(** The ring queue refines a bounded FIFO list: enqueueing appends and
    reports 1, or reports -1 and changes nothing when 25 are queued; dequeueing
    removes the oldest, or reports none when empty; the count is the length,
    and the ring representation stays well formed, wrap-around included. *)
Theorem ring_queue_refines_fifo (q : Queue) (c : nat) (Hq : q_wf q) :
  get_count q = Z.of_nat (length (q_list q)) /\
  (let '(r, q') := my_enqueue q c in q_wf q' /\ (r, q_list q') = list_enqueue (q_list q) c) /\
  (let '(r, q') := my_dequeue q in q_wf q' /\ (r, q_list q') = list_dequeue (q_list q)).
Proof.
  split_and!; [by rewrite q_list_length|by apply my_enqueue_refines|by apply my_dequeue_refines].
Qed.

Definition full_queue : Queue := mk_queue Z.to_nat 20 15 20.

Lemma ring_queue_refines_fifo_witness :
  q_wf full_queue /\ q_list (snd (my_enqueue full_queue 99)) = q_list full_queue ++ [99%nat].
Proof.
  split; [done|]. destruct (ring_queue_refines_fifo full_queue 99 ltac:(done)) as (_ & [_ He] & _).
  exact (f_equal snd He).
Defined.

(** * Threads *)

Inductive tid := TChef (i : nat) | TCust (c : nat).

#[export] Instance tid_eq_dec : EqDecision tid.
Proof. solve_decision. Defined.

(** Where a chef is: between two operations on shared state.  The comments give
    the operation that comes next. *)
Inductive chef_pc :=
| CWantSofa                              (* lock sofa_access_lock *)
| CDequeue                               (* my_dequeue(&sofa) *)
| CUnlock (cur : option nat)             (* unlock sofa_access_lock *)
| CBake (cur : nat)                      (* announce the baking *)
| COven (cur : nat)                      (* current->is_baking = 1 *)
| CWantReg (cur : nat)                   (* lock cash_register_lock *)
| CAccept (cur : nat)                    (* take the payment, unlock *)
| CPaid (cur : nat)                      (* current->is_paying = 1 *)
| CWantSofa2 (cur : nat)                 (* lock sofa_access_lock *)
| CStanding (cur : nat)                  (* my_dequeue(&standing) *)
| CUnlock2 (cur : nat) (sc : option nat) (* unlock sofa_access_lock *)
| CWantSofa3 (sc : nat)                  (* lock sofa_access_lock *)
| CMove (sc : nat)                       (* my_enqueue(&sofa, standing_customer) *)
| CUnlock3.                              (* unlock sofa_access_lock *)

(** Where a customer is. *)
Inductive cust_pc :=
| KArrive                                (* sem_trywait(&num_of_cus) *)
| KFull                                  (* turned away *)
| KWantSofa                              (* lock sofa_access_lock *)
| KLook                                  (* get_count(&standing) == 0 *)
| KTrySeat                               (* sem_trywait(&num_of_seats) *)
| KSit                                   (* unlock sofa_access_lock *)
| KWantSofa2                             (* lock sofa_access_lock *)
| KEnqSofa                               (* my_enqueue(&sofa, current) *)
| KEnqStand                              (* my_enqueue(&standing, current) *)
| KUnlock (seated : bool)                (* unlock sofa_access_lock *)
| KWaitCake                              (* while is_baking == 0 *)
| KWaitPay                               (* while is_paying == 0 *)
| KPostSeat                              (* sem_post(&num_of_seats) *)
| KPostCus                               (* sem_post(&num_of_cus) *)
| KDone.

Inductive bakery_event :=
| Full (c : nat) | Enters (c : nat) | Sits (c : nat) | Requests (c : nat)
| Baking (i c : nat) | GotCake (c : nat) | Accepts (i c : nat) | Leaves (c : nat) | Moves (c : nat).

Record bakery := mk_bakery {
  b_chef : nat -> chef_pc;
  b_cust : nat -> cust_pc;
  b_sofa : Queue;
  b_standing : Queue;
  b_num_of_cus : Z;
  b_num_of_seats : Z;
  b_sofa_lock : option tid;
  b_reg_lock : option tid;
  b_is_baking : nat -> bool;
  b_is_paying : nat -> bool;
  b_log : list bakery_event
}.

Definition updn {A} (f : nat -> A) (i : nat) (v : A) : nat -> A := fun j => if (j =? i)%nat then v else f j.

Definition set_chef i pc b := mk_bakery (updn (b_chef b) i pc) (b_cust b) (b_sofa b) (b_standing b) (b_num_of_cus b) (b_num_of_seats b) (b_sofa_lock b) (b_reg_lock b) (b_is_baking b) (b_is_paying b) (b_log b).
Definition set_cust c pc b := mk_bakery (b_chef b) (updn (b_cust b) c pc) (b_sofa b) (b_standing b) (b_num_of_cus b) (b_num_of_seats b) (b_sofa_lock b) (b_reg_lock b) (b_is_baking b) (b_is_paying b) (b_log b).
Definition set_sofa q b := mk_bakery (b_chef b) (b_cust b) q (b_standing b) (b_num_of_cus b) (b_num_of_seats b) (b_sofa_lock b) (b_reg_lock b) (b_is_baking b) (b_is_paying b) (b_log b).
Definition set_standing q b := mk_bakery (b_chef b) (b_cust b) (b_sofa b) q (b_num_of_cus b) (b_num_of_seats b) (b_sofa_lock b) (b_reg_lock b) (b_is_baking b) (b_is_paying b) (b_log b).
Definition set_cus n b := mk_bakery (b_chef b) (b_cust b) (b_sofa b) (b_standing b) n (b_num_of_seats b) (b_sofa_lock b) (b_reg_lock b) (b_is_baking b) (b_is_paying b) (b_log b).
Definition set_seats n b := mk_bakery (b_chef b) (b_cust b) (b_sofa b) (b_standing b) (b_num_of_cus b) n (b_sofa_lock b) (b_reg_lock b) (b_is_baking b) (b_is_paying b) (b_log b).
Definition set_sofa_lock l b := mk_bakery (b_chef b) (b_cust b) (b_sofa b) (b_standing b) (b_num_of_cus b) (b_num_of_seats b) l (b_reg_lock b) (b_is_baking b) (b_is_paying b) (b_log b).
Definition set_reg_lock l b := mk_bakery (b_chef b) (b_cust b) (b_sofa b) (b_standing b) (b_num_of_cus b) (b_num_of_seats b) (b_sofa_lock b) l (b_is_baking b) (b_is_paying b) (b_log b).
Definition set_baking c b := mk_bakery (b_chef b) (b_cust b) (b_sofa b) (b_standing b) (b_num_of_cus b) (b_num_of_seats b) (b_sofa_lock b) (b_reg_lock b) (updn (b_is_baking b) c true) (b_is_paying b) (b_log b).
Definition set_paying c b := mk_bakery (b_chef b) (b_cust b) (b_sofa b) (b_standing b) (b_num_of_cus b) (b_num_of_seats b) (b_sofa_lock b) (b_reg_lock b) (b_is_baking b) (updn (b_is_paying b) c true) (b_log b).
Definition say e b := mk_bakery (b_chef b) (b_cust b) (b_sofa b) (b_standing b) (b_num_of_cus b) (b_num_of_seats b) (b_sofa_lock b) (b_reg_lock b) (b_is_baking b) (b_is_paying b) (b_log b ++ e).

(** Acquiring a free mutex; [None] is a thread that has to wait. *)
Definition lock_sofa (t : tid) (b : bakery) : option bakery :=
  match b_sofa_lock b with None => Some (set_sofa_lock (Some t) b) | Some _ => None end.

(** One step of chef [i], [None] when it is blocked. *)
Definition Chef (i : nat) (b : bakery) : option bakery :=
  match b_chef b i with
  | CWantSofa => set_chef i CDequeue <$> (lock_sofa (TChef i) b)
  | CDequeue => let '(cur, q) := my_dequeue (b_sofa b) in
                Some (set_chef i (CUnlock cur) (set_sofa q b))
  | CUnlock cur => Some (set_chef i (match cur with Some c => CBake c | None => CWantSofa end)
                           (set_sofa_lock None b))
  | CBake c => Some (set_chef i (COven c) (say [Baking i c] b))
  | COven c => Some (set_chef i (CWantReg c) (say [GotCake c] (set_baking c b)))
  | CWantReg c => match b_reg_lock b with
                  | None => Some (set_chef i (CAccept c) (set_reg_lock (Some (TChef i)) (say [Accepts i c] b)))
                  | Some _ => None
                  end
  | CAccept c => Some (set_chef i (CPaid c) (set_reg_lock None b))
  | CPaid c => Some (set_chef i (CWantSofa2 c) (set_paying c b))
  | CWantSofa2 c => set_chef i (CStanding c) <$> lock_sofa (TChef i) b
  | CStanding c => let '(sc, q) := my_dequeue (b_standing b) in
                   Some (set_chef i (CUnlock2 c sc) (set_standing q b))
  | CUnlock2 c sc =>
      let b := set_sofa_lock None b in
      Some (match sc with
            | Some d => set_chef i (CWantSofa3 d) (say [Leaves c; Moves d; Requests d] b)
            | None => set_chef i CWantSofa (say [Leaves c] b)
            end)
  | CWantSofa3 d => set_chef i (CMove d) <$> lock_sofa (TChef i) b
  | CMove d => Some (set_chef i CUnlock3 (set_sofa (snd (my_enqueue (b_sofa b) d)) b))
  | CUnlock3 => Some (set_chef i CWantSofa (set_sofa_lock None b))
  end.

(** One step of customer [c]. *)
Definition customer (c : nat) (b : bakery) : option bakery :=
  match b_cust b c with
  | KArrive => if 0 <? b_num_of_cus b
               then Some (set_cust c KWantSofa (set_cus (b_num_of_cus b - 1) (say [Enters c] b)))
               else Some (set_cust c KFull (say [Full c] b))
  | KFull => None
  | KWantSofa => set_cust c KLook <$> lock_sofa (TCust c) b
  | KLook => Some (set_cust c (if get_count (b_standing b) =? 0 then KTrySeat else KEnqStand) b)
  | KTrySeat => if 0 <? b_num_of_seats b
                then Some (set_cust c KSit (set_seats (b_num_of_seats b - 1) (say [Sits c] b)))
                else Some (set_cust c KEnqStand b)
  | KSit => Some (set_cust c KWantSofa2 (set_sofa_lock None b))
  | KWantSofa2 => set_cust c KEnqSofa <$> lock_sofa (TCust c) b
  | KEnqSofa => Some (set_cust c (KUnlock true) (set_sofa (snd (my_enqueue (b_sofa b) c)) b))
  | KEnqStand => Some (set_cust c (KUnlock false) (set_standing (snd (my_enqueue (b_standing b) c)) b))
  | KUnlock seated => Some (set_cust c KWaitCake (say (if seated then [Requests c] else []) (set_sofa_lock None b)))
  | KWaitCake => if b_is_baking b c then Some (set_cust c KWaitPay b) else None
  | KWaitPay => if b_is_paying b c then Some (set_cust c KPostSeat b) else None
  | KPostSeat => Some (set_cust c KPostCus (set_seats (b_num_of_seats b + 1) b))
  | KPostCus => Some (set_cust c KDone (set_cus (b_num_of_cus b + 1) b))
  | KDone => None
  end.

Definition run_thread (t : tid) (b : bakery) : option bakery :=
  match t with TChef i => Chef i b | TCust c => customer c b end.

(** What [main] sets up before the threads run. *)
Definition open_bakery : bakery :=
  mk_bakery (fun _ => CWantSofa) (fun _ => KArrive) my_init my_init BAKERY_CAPACITY SOFA_SEATS
    None None (fun _ => false) (fun _ => false) [].

(** The threads of a run: four chefs and the customers [ids]. *)
Definition is_thread (ids : list nat) (t : tid) : Prop :=
  match t with TChef i => (1 <= i <= NUM_CHEFS)%nat | TCust c => c ∈ ids end.

(** One step of one thread: every interleaving is a sequence of these. *)
Definition bakery_step (ids : list nat) (b b' : bakery) : Prop :=
  exists t, is_thread ids t /\ run_thread t b = Some b'.

Definition bakery_reachable (ids : list nat) (b : bakery) : Prop := star (bakery_step ids) open_bakery b.

(** * Where the customers are *)

Definition inside (pc : cust_pc) : bool :=
  match pc with KArrive | KFull | KDone => false | _ => true end.

(** Queued or in a chef's hands, as far as the customer knows. *)
Definition placed (pc : cust_pc) : bool :=
  match pc with KUnlock _ | KWaitCake | KWaitPay => true | _ => false end.

(** The customer a chef has taken off a queue and not yet finished with. *)
Definition chef_holds (pc : chef_pc) : option nat :=
  match pc with
  | CUnlock (Some c) | CBake c | COven c | CWantReg c | CAccept c | CPaid c => Some c
  | CUnlock2 _ (Some d) | CWantSofa3 d | CMove d => Some d
  | _ => None
  end.

Definition chef_id (i : nat) : Prop := (1 <= i <= NUM_CHEFS)%nat.

(** The place of a customer who waits inside. *)
Inductive place := PSofa | PStand | PHand (i : nat).

#[export] Instance place_eq_dec : EqDecision place.
Proof. solve_decision. Defined.

(** [loc] says where everybody is, and the queues and the chefs' hands agree
    with it: nobody is in two places. *)
Record place_ok (ls lt : list nat) (hold : nat -> option nat) (loc : nat -> option place) : Prop := {
  pl_sofa_nd : NoDup ls;
  pl_stand_nd : NoDup lt;
  pl_sofa : forall c, c ∈ ls <-> loc c = Some PSofa;
  pl_stand : forall c, c ∈ lt <-> loc c = Some PStand;
  pl_hand : forall i c, chef_id i -> hold i = Some c <-> loc c = Some (PHand i)
}.

Lemma updn_eq {A} (f : nat -> A) i v : updn f i v i = v.
Proof. unfold updn. by rewrite Nat.eqb_refl. Qed.
Lemma updn_ne {A} (f : nat -> A) i j v : j <> i -> updn f i v j = f j.
Proof. intros. unfold updn. destruct (Nat.eqb_spec j i); done. Qed.

Ltac updn_cases :=
  repeat match goal with
  | |- context [updn ?f ?i ?v ?j] =>
      destruct (decide (j = i)) as [->|]; [rewrite (updn_eq f)|rewrite (updn_ne f) by done]
  end.

Section Places.
Variables (ls lt : list nat) (hold : nat -> option nat) (loc : nat -> option place) (i : nat).
Hypothesis Hi : chef_id i.

Lemma place_take_sofa c : place_ok (c :: ls) lt hold loc -> hold i = None ->
  place_ok ls lt (updn hold i (Some c)) (updn loc c (Some (PHand i))).
Proof.
  intros [P1 P2 P3 P4 P5] Hn. apply NoDup_cons in P1 as [Hc P1].
  assert (loc c = Some PSofa) by (apply P3; by left). constructor; try done.
  - intros d. updn_cases; [naive_solver|]. rewrite <- P3, elem_of_cons. naive_solver.
  - intros d. updn_cases; [|done]. rewrite P4. naive_solver.
  - intros j d Hj. pose proof (P5 j d Hj). updn_cases; naive_solver.
Qed.

Lemma place_take_stand c : place_ok ls (c :: lt) hold loc -> hold i = None ->
  place_ok ls lt (updn hold i (Some c)) (updn loc c (Some (PHand i))).
Proof.
  intros [P1 P2 P3 P4 P5] Hn. apply NoDup_cons in P2 as [Hc P2].
  assert (loc c = Some PStand) by (apply P4; by left). constructor; try done.
  - intros d. updn_cases; [|done]. rewrite P3. naive_solver.
  - intros d. updn_cases; [naive_solver|]. rewrite <- P4, elem_of_cons. naive_solver.
  - intros j d Hj. pose proof (P5 j d Hj). updn_cases; naive_solver.
Qed.

(** A chef is done with its customer. *)
Lemma place_drop c : place_ok ls lt hold loc -> hold i = Some c ->
  place_ok ls lt (updn hold i None) (updn loc c None).
Proof.
  intros [P1 P2 P3 P4 P5] Hh. assert (Hc : loc c = Some (PHand i)) by (by apply P5). constructor; try done.
  - intros d. updn_cases; [|done]. rewrite P3, Hc. done.
  - intros d. updn_cases; [|done]. rewrite P4, Hc. done.
  - intros j d Hj. pose proof (P5 j d Hj). updn_cases; naive_solver.
Qed.

(** A chef puts the customer it holds on the sofa. *)
Lemma place_move c : place_ok ls lt hold loc -> hold i = Some c ->
  place_ok (ls ++ [c]) lt (updn hold i None) (updn loc c (Some PSofa)).
Proof.
  intros [P1 P2 P3 P4 P5] Hh. assert (Hc : loc c = Some (PHand i)) by (by apply P5).
  assert (c ∉ ls) by (rewrite P3, Hc; done). constructor; try done.
  - apply NoDup_app. split_and!; [done| |apply NoDup_singleton]. intros d Hd Hd'.
    apply list_elem_of_singleton in Hd' as ->. done.
  - intros d. rewrite elem_of_app, list_elem_of_singleton. updn_cases; [naive_solver|]. rewrite P3. naive_solver.
  - intros d. updn_cases; [|done]. rewrite P4, Hc. done.
  - intros j d Hj. pose proof (P5 j d Hj). updn_cases; naive_solver.
Qed.

(** A customer who is nowhere yet joins a queue. *)
Lemma place_join_sofa c : place_ok ls lt hold loc -> loc c = None ->
  place_ok (ls ++ [c]) lt hold (updn loc c (Some PSofa)).
Proof.
  intros [P1 P2 P3 P4 P5] Hc. assert (c ∉ ls) by (rewrite P3, Hc; done). constructor; try done.
  - apply NoDup_app. split_and!; [done| |apply NoDup_singleton]. intros d Hd Hd'.
    apply list_elem_of_singleton in Hd' as ->. done.
  - intros d. rewrite elem_of_app, list_elem_of_singleton. updn_cases; [naive_solver|]. rewrite P3. naive_solver.
  - intros d. updn_cases; [|done]. rewrite P4, Hc. done.
  - intros j d Hj. pose proof (P5 j d Hj). updn_cases; naive_solver.
Qed.

Lemma place_join_stand c : place_ok ls lt hold loc -> loc c = None ->
  place_ok ls (lt ++ [c]) hold (updn loc c (Some PStand)).
Proof.
  intros [P1 P2 P3 P4 P5] Hc. assert (c ∉ lt) by (rewrite P4, Hc; done). constructor; try done.
  - apply NoDup_app. split_and!; [done| |apply NoDup_singleton]. intros d Hd Hd'.
    apply list_elem_of_singleton in Hd' as ->. done.
  - intros d. updn_cases; [|done]. rewrite P3, Hc. done.
  - intros d. rewrite elem_of_app, list_elem_of_singleton. updn_cases; [naive_solver|]. rewrite P4. naive_solver.
  - intros j d Hj. pose proof (P5 j d Hj). updn_cases; naive_solver.
Qed.

(** A chef's step that keeps what it holds. *)
Lemma place_keep h : place_ok ls lt hold loc -> hold i = h -> place_ok ls lt (updn hold i h) loc.
Proof.
  intros [P1 P2 P3 P4 P5] Hh. constructor; try done. intros j d Hj. rewrite <- P5 by done. updn_cases; naive_solver.
Qed.
End Places.

(** * The invariant *)

Definition chef_locked (pc : chef_pc) : bool :=
  match pc with CDequeue | CUnlock _ | CStanding _ | CUnlock2 _ _ | CMove _ | CUnlock3 => true | _ => false end.
Definition cust_locked (pc : cust_pc) : bool :=
  match pc with KLook | KTrySeat | KSit | KEnqSofa | KEnqStand | KUnlock _ => true | _ => false end.
Definition at_register (pc : chef_pc) : bool := match pc with CAccept _ => true | _ => false end.

(** The customer whose cake a chef has baked and who has not paid yet. *)
Definition baked_for (pc : chef_pc) : option nat :=
  match pc with CWantReg c | CAccept c | CPaid c => Some c | _ => None end.

(** Not yet queued. *)
Definition early (pc : cust_pc) : bool :=
  match pc with
  | KArrive | KFull | KWantSofa | KLook | KTrySeat | KSit | KWantSofa2 | KEnqSofa | KEnqStand => true
  | _ => false
  end.

(** What a customer has seen happen. *)
Definition seen (b : bakery) (c : nat) : Prop :=
  match b_cust b c with
  | KWaitPay => b_is_baking b c = true
  | KPostSeat | KPostCus | KDone => b_is_baking b c = true /\ b_is_paying b c = true
  | _ => True
  end.

Definition inside_count (ids : list nat) (f : nat -> cust_pc) : Z :=
  Z.of_nat (length (filter (fun c => inside (f c) = true) ids)).

Record bakery_inv (ids : list nat) (b : bakery) (loc : nat -> option place) : Prop := {
  bi_queues : q_wf (b_sofa b) /\ q_wf (b_standing b);
  bi_place : place_ok (q_list (b_sofa b)) (q_list (b_standing b)) (fun i => chef_holds (b_chef b i)) loc;
  bi_loc : forall c, loc c <> None <-> c ∈ ids /\ placed (b_cust b c) = true /\ b_is_paying b c = false;
  bi_cus : 0 <= b_num_of_cus b /\ b_num_of_cus b + inside_count ids (b_cust b) = BAKERY_CAPACITY;
  bi_lock_chef : forall i, chef_id i -> chef_locked (b_chef b i) = true -> b_sofa_lock b = Some (TChef i);
  bi_lock_cust : forall c, c ∈ ids -> cust_locked (b_cust b c) = true -> b_sofa_lock b = Some (TCust c);
  bi_reg : forall i, chef_id i -> at_register (b_chef b i) = true -> b_reg_lock b = Some (TChef i);
  bi_pay : forall c, b_is_paying b c = true -> b_is_baking b c = true;
  bi_baked : forall i c, chef_id i -> baked_for (b_chef b i) = Some c -> b_is_baking b c = true;
  bi_early : forall c, early (b_cust b c) = true -> b_is_paying b c = false;
  bi_seen : forall c, c ∈ ids -> seen b c
}.

Lemma place_ext ls lt hold hold' loc :
  (forall i, hold' i = hold i) -> place_ok ls lt hold loc -> place_ok ls lt hold' loc.
Proof. intros He [P1 P2 P3 P4 P5]. constructor; try done. intros i c Hi. rewrite He. by apply P5. Qed.

Lemma holds_updn (f : nat -> chef_pc) i pc j :
  chef_holds (updn f i pc j) = updn (fun k => chef_holds (f k)) i (chef_holds pc) j.
Proof. unfold updn. by destruct (j =? i)%nat. Qed.

Section ChefStep.
Variables (ids : list nat) (b b' : bakery) (loc loc' : nat -> option place) (i : nat) (pc : chef_pc).
Hypothesis Hinv : bakery_inv ids b loc.
Hypothesis Hchef : b_chef b' = updn (b_chef b) i pc.
Hypothesis Hcust : b_cust b' = b_cust b.
Hypothesis Hcus : b_num_of_cus b' = b_num_of_cus b.
Hypothesis Hwf : q_wf (b_sofa b') /\ q_wf (b_standing b').
Hypothesis Hplace : place_ok (q_list (b_sofa b')) (q_list (b_standing b'))
  (updn (fun k => chef_holds (b_chef b k)) i (chef_holds pc)) loc'.
Hypothesis Hloc : forall c, loc' c <> None <-> c ∈ ids /\ placed (b_cust b c) = true /\ b_is_paying b' c = false.
Hypothesis Hlock : forall t, t <> TChef i -> b_sofa_lock b = Some t -> b_sofa_lock b' = Some t.
Hypothesis Hown : chef_locked pc = true -> b_sofa_lock b' = Some (TChef i).
Hypothesis Hreg : forall t, t <> TChef i -> b_reg_lock b = Some t -> b_reg_lock b' = Some t.
Hypothesis Hrown : at_register pc = true -> b_reg_lock b' = Some (TChef i).
Hypothesis Hbake : forall c, b_is_baking b c = true -> b_is_baking b' c = true.
Hypothesis Hpay : forall c, b_is_paying b c = true -> b_is_paying b' c = true.
Hypothesis Hpb : forall c, b_is_paying b' c = true -> b_is_baking b' c = true.
Hypothesis Hbaked : forall c, baked_for pc = Some c -> b_is_baking b' c = true.
Hypothesis Hearly : forall c, early (b_cust b c) = true -> b_is_paying b' c = false.

Lemma chef_step_inv : bakery_inv ids b' loc'.
Proof.
  destruct Hinv as [I1 I2 I3 I4 I5 I6 I7 I8 I9 I10 I11]. constructor; rewrite ?Hcust, ?Hcus; try done.
  - eapply place_ext; [|exact Hplace]. intros j. rewrite Hchef. apply holds_updn.
  - intros j Hj. rewrite Hchef. destruct (decide (j = i)) as [->|Hne]; [by rewrite updn_eq|].
    rewrite updn_ne by done. intros Hl. apply Hlock; [congruence|]. by apply I5.
  - intros c Hc Hl. apply Hlock; [done|]. by apply I6.
  - intros j Hj. rewrite Hchef. destruct (decide (j = i)) as [->|Hne]; [by rewrite updn_eq|].
    rewrite updn_ne by done. intros Hl. apply Hreg; [congruence|]. by apply I7.
  - intros j c Hj. rewrite Hchef. destruct (decide (j = i)) as [->|Hne]; [rewrite updn_eq; apply Hbaked|].
    rewrite updn_ne by done. intros Hl. apply Hbake. by eapply I9.
  - intros c Hc. specialize (I11 c Hc). unfold seen in *. rewrite Hcust. destruct (b_cust b c); naive_solver.
Qed.
End ChefStep.

Section CustStep.
Variables (ids : list nat) (b b' : bakery) (loc loc' : nat -> option place) (c : nat) (pc : cust_pc).
Hypothesis Hinv : bakery_inv ids b loc.
Hypothesis Hids : NoDup ids.
Hypothesis Hc : c ∈ ids.
Hypothesis Hchef : b_chef b' = b_chef b.
Hypothesis Hcust : b_cust b' = updn (b_cust b) c pc.
Hypothesis Hreg : b_reg_lock b' = b_reg_lock b.
Hypothesis Hbk : b_is_baking b' = b_is_baking b.
Hypothesis Hpy : b_is_paying b' = b_is_paying b.
Hypothesis Hwf : q_wf (b_sofa b') /\ q_wf (b_standing b').
Hypothesis Hplace : place_ok (q_list (b_sofa b')) (q_list (b_standing b')) (fun k => chef_holds (b_chef b k)) loc'.
Hypothesis Hloc : forall d, loc' d <> None <-> d ∈ ids /\ placed (updn (b_cust b) c pc d) = true /\ b_is_paying b d = false.
Hypothesis Hcus : 0 <= b_num_of_cus b' /\
  b_num_of_cus b' + (if inside pc then 1 else 0) = b_num_of_cus b + (if inside (b_cust b c) then 1 else 0).
Hypothesis Hlock : forall t, t <> TCust c -> b_sofa_lock b = Some t -> b_sofa_lock b' = Some t.
Hypothesis Hown : cust_locked pc = true -> b_sofa_lock b' = Some (TCust c).
Hypothesis Hearly : early pc = true -> b_is_paying b c = false.
Hypothesis Hseen : match pc with
  | KWaitPay => b_is_baking b c = true
  | KPostSeat | KPostCus | KDone => b_is_baking b c = true /\ b_is_paying b c = true
  | _ => True
  end.

Lemma inside_count_updn : inside_count ids (updn (b_cust b) c pc) + (if inside (b_cust b c) then 1 else 0) =
  inside_count ids (b_cust b) + (if inside pc then 1 else 0).
Proof.
  clear - Hids Hc. unfold inside_count. revert Hc Hids. induction ids as [|d l IH]; intros Hc Hn.
  { by apply elem_of_nil in Hc. }
  apply NoDup_cons in Hn as [Hd Hn]. rewrite !filter_cons.
  destruct (decide (d = c)) as [->|Hne].
  - rewrite updn_eq.
    assert (Hsame : filter (fun x => inside (updn (b_cust b) c pc x) = true) l =
                    filter (fun x => inside (b_cust b x) = true) l).
    { apply filter_agree. intros x Hx. rewrite updn_ne; [done|]. intros ->. done. }
    rewrite Hsame. destruct (inside pc), (inside (b_cust b c)); simpl; repeat case_decide; simpl; done || lia.
  - rewrite updn_ne by done. apply elem_of_cons in Hc as [->|Hc]; [done|]. specialize (IH Hc Hn).
    repeat case_decide; simpl; lia.
Qed.

Lemma cust_step_inv : bakery_inv ids b' loc'.
Proof.
  destruct Hinv as [I1 I2 I3 I4 I5 I6 I7 I8 I9 I10 I11].
  constructor; rewrite ?Hchef, ?Hcust, ?Hreg, ?Hbk, ?Hpy; try done.
  - pose proof inside_count_updn. lia.
  - intros i Hi Hl. apply Hlock; [done|]. by apply I5.
  - intros d Hd. destruct (decide (d = c)) as [->|Hne]; [by rewrite updn_eq|].
    rewrite updn_ne by done. intros Hl. apply Hlock; [congruence|]. by apply I6.
  - intros d. destruct (decide (d = c)) as [->|Hne]; [by rewrite updn_eq|]. rewrite updn_ne by done. apply I10.
  - intros d Hd. specialize (I11 d Hd). unfold seen in *. rewrite Hcust, Hbk, Hpy.
    destruct (decide (d = c)) as [->|Hne]; [by rewrite updn_eq|]. rewrite updn_ne by done. done.
Qed.
End CustStep.

(** ** Queues never overflow *)

Lemma placed_inside pc : placed pc = true -> inside pc = true.
Proof. by destruct pc. Qed.

Lemma enqueue_fits ids b loc q c :
  bakery_inv ids b loc -> NoDup ids -> q_wf q -> NoDup (q_list q) ->
  (forall d, d ∈ q_list q -> loc d <> None) ->
  c ∈ ids -> inside (b_cust b c) = true -> c ∉ q_list q ->
  fst (my_enqueue q c) = 1 /\ q_wf (snd (my_enqueue q c)) /\ q_list (snd (my_enqueue q c)) = q_list q ++ [c].
Proof.
  intros Hinv Hids Hq Hnd Hmem Hc Hin Hni.
  assert (Hlen : (length (c :: q_list q) <= length (filter (fun c => inside (b_cust b c) = true) ids))%nat).
  { apply (NoDup_incl_length (l := c :: q_list q)).
    - apply NoDup_ListNoDup. by apply NoDup_cons.
    - intros d Hd. apply list_elem_of_In. apply list_elem_of_In in Hd. apply list_elem_of_filter.
      apply elem_of_cons in Hd as [->|Hd]; [done|]. apply Hmem, (bi_loc _ _ _ Hinv) in Hd as (? & ? & _).
      split; [by apply placed_inside|done]. }
  pose proof (bi_cus _ _ _ Hinv) as Hcus. unfold inside_count, BAKERY_CAPACITY in Hcus.
  pose proof (q_list_length q Hq). simpl in Hlen.
  pose proof (my_enqueue_refines q c Hq) as Hr. unfold my_enqueue, list_enqueue in *.
  assert (q_count q < 25) by lia. rewrite q_list_length in Hr by done. unfold QUEUE_MAX in *.
  destruct (Z.ltb_spec (q_count q) 25); [|lia]. destruct Hr as [Hwf Hl]. simpl in *. by injection Hl.
Qed.

(** Acquiring the lock. *)
Lemma lock_sofa_inv t b b1 : lock_sofa t b = Some b1 -> b_sofa_lock b = None /\ b1 = set_sofa_lock (Some t) b.
Proof. unfold lock_sofa. destruct (b_sofa_lock b); [done|]. by intros [= <-]. Qed.

Section ChefCases.
Variables (ids : list nat) (b : bakery) (loc : nat -> option place) (i : nat).
Hypothesis Hinv : bakery_inv ids b loc.
Hypothesis Hids : NoDup ids.
Hypothesis Hi : chef_id i.

(** A chef that holds the lock is its only holder. *)
Lemma chef_owns t : chef_locked (b_chef b i) = true -> t <> TChef i -> b_sofa_lock b = Some t -> False.
Proof. intros Hl Hne Hs. rewrite (bi_lock_chef _ _ _ Hinv i Hi Hl) in Hs. congruence. Qed.

Lemma hold_keep pc : chef_holds (b_chef b i) = chef_holds pc ->
  place_ok (q_list (b_sofa b)) (q_list (b_standing b)) (updn (fun k => chef_holds (b_chef b k)) i (chef_holds pc)) loc.
Proof. intros He. apply place_keep; [apply Hinv|done]. Qed.

(** Steps that only move the chef, the locks or the log. *)
Lemma chef_silent pc b' :
  b_chef b' = updn (b_chef b) i pc -> b_cust b' = b_cust b -> b_num_of_cus b' = b_num_of_cus b ->
  b_sofa b' = b_sofa b -> b_standing b' = b_standing b -> b_is_baking b' = b_is_baking b ->
  b_is_paying b' = b_is_paying b -> chef_holds (b_chef b i) = chef_holds pc ->
  (forall t, t <> TChef i -> b_sofa_lock b = Some t -> b_sofa_lock b' = Some t) ->
  (chef_locked pc = true -> b_sofa_lock b' = Some (TChef i)) ->
  (forall t, t <> TChef i -> b_reg_lock b = Some t -> b_reg_lock b' = Some t) ->
  (at_register pc = true -> b_reg_lock b' = Some (TChef i)) ->
  (forall c, baked_for pc = Some c -> b_is_baking b c = true) ->
  bakery_inv ids b' loc.
Proof.
  intros E1 E2 E3 E4 E5 E6 E7 Hh L1 L2 L3 L4 Hb.
  apply (chef_step_inv ids b b' loc loc i pc Hinv); rewrite ?E1, ?E2, ?E3, ?E4, ?E5, ?E6, ?E7; try done; try apply Hinv.
  by apply hold_keep.
Qed.

(** The two dequeues. *)
Lemma chef_dequeue_sofa : b_chef b i = CDequeue -> let '(cur, q) := my_dequeue (b_sofa b) in
  exists loc', bakery_inv ids (set_chef i (CUnlock cur) (set_sofa q b)) loc'.
Proof.
  intros Hpc. destruct (bi_queues _ _ _ Hinv) as [Hq1 Hq2]. pose proof (my_dequeue_refines _ Hq1) as Hd.
  pose proof (bi_lock_chef _ _ _ Hinv i Hi ltac:(by rewrite Hpc)) as Hown.
  destruct (my_dequeue (b_sofa b)) as [cur q]. destruct Hd as [Hwf Hl]. unfold list_dequeue in Hl.
  pose proof (bi_place _ _ _ Hinv) as Hp. pose proof (bi_loc _ _ _ Hinv) as Hloc.
  destruct (q_list (b_sofa b)) as [|c ls] eqn:El; injection Hl as -> Hl.
  - exists loc. apply (chef_step_inv ids b _ loc loc i (CUnlock None) Hinv); try done; try apply Hinv; simpl.
    rewrite Hl. apply place_keep; (done || by rewrite Hpc).
  - exists (updn loc c (Some (PHand i))).
    apply (chef_step_inv ids b _ loc _ i (CUnlock (Some c)) Hinv); try done; try apply Hinv; simpl.
    + rewrite Hl. apply place_take_sofa; (done || by rewrite Hpc).
    + intros d. rewrite <- Hloc. destruct (decide (d = c)) as [->|]; [|by rewrite updn_ne].
      rewrite updn_eq. assert (loc c = Some PSofa) as -> by (apply (pl_sofa _ _ _ _ Hp); left). done.
Qed.

Lemma chef_dequeue_standing c : b_chef b i = CStanding c -> let '(sc, q) := my_dequeue (b_standing b) in
  exists loc', bakery_inv ids (set_chef i (CUnlock2 c sc) (set_standing q b)) loc'.
Proof.
  intros Hpc. destruct (bi_queues _ _ _ Hinv) as [Hq1 Hq2]. pose proof (my_dequeue_refines _ Hq2) as Hd.
  pose proof (bi_lock_chef _ _ _ Hinv i Hi ltac:(by rewrite Hpc)) as Hown.
  destruct (my_dequeue (b_standing b)) as [sc q]. destruct Hd as [Hwf Hl]. unfold list_dequeue in Hl.
  pose proof (bi_place _ _ _ Hinv) as Hp. pose proof (bi_loc _ _ _ Hinv) as Hloc.
  destruct (q_list (b_standing b)) as [|d lt] eqn:El; injection Hl as -> Hl.
  - exists loc. apply (chef_step_inv ids b _ loc loc i (CUnlock2 c None) Hinv); try done; try apply Hinv; simpl.
    rewrite Hl. apply place_keep; (done || by rewrite Hpc).
  - exists (updn loc d (Some (PHand i))).
    apply (chef_step_inv ids b _ loc _ i (CUnlock2 c (Some d)) Hinv); try done; try apply Hinv; simpl.
    + rewrite Hl. apply place_take_stand; (done || by rewrite Hpc).
    + intros e. rewrite <- Hloc. destruct (decide (e = d)) as [->|]; [|by rewrite updn_ne].
      rewrite updn_eq. assert (loc d = Some PStand) as -> by (apply (pl_stand _ _ _ _ Hp); left). done.
Qed.

(** Moving a standing customer to the sofa. *)
Lemma chef_move d : b_chef b i = CMove d ->
  exists loc', bakery_inv ids (set_chef i CUnlock3 (set_sofa (snd (my_enqueue (b_sofa b) d)) b)) loc'.
Proof.
  intros Hpc. pose proof (bi_place _ _ _ Hinv) as Hp. pose proof (bi_loc _ _ _ Hinv) as Hloc.
  destruct (bi_queues _ _ _ Hinv) as [Hq1 Hq2].
  pose proof (bi_lock_chef _ _ _ Hinv i Hi ltac:(by rewrite Hpc)) as Hown.
  assert (Hd : loc d = Some (PHand i)) by (apply (pl_hand _ _ _ _ Hp); (done || by rewrite Hpc)).
  destruct (proj1 (Hloc d) ltac:(by rewrite Hd)) as (Hdi & Hpl & Hpy).
  destruct (enqueue_fits ids b loc (b_sofa b) d) as (_ & Hwf & Hl); try done; [apply Hp| |by apply placed_inside| |].
  { intros e He. apply (pl_sofa _ _ _ _ Hp) in He. by rewrite He. }
  { rewrite (pl_sofa _ _ _ _ Hp), Hd. done. }
  exists (updn loc d (Some PSofa)).
  apply (chef_step_inv ids b _ loc _ i CUnlock3 Hinv); try done; try apply Hinv; simpl.
  - rewrite Hl. apply place_move; (done || by rewrite Hpc).
  - intros e. rewrite <- Hloc. destruct (decide (e = d)) as [->|]; [|by rewrite updn_ne]. rewrite updn_eq, Hd. done.
Qed.

(** Taking the money: the customer leaves the chef's hands. *)
Lemma chef_paid c : b_chef b i = CPaid c ->
  exists loc', bakery_inv ids (set_chef i (CWantSofa2 c) (set_paying c b)) loc'.
Proof.
  intros Hpc. pose proof (bi_place _ _ _ Hinv) as Hp. pose proof (bi_loc _ _ _ Hinv) as Hloc.
  assert (Hc : loc c = Some (PHand i)) by (apply (pl_hand _ _ _ _ Hp); (done || by rewrite Hpc)).
  destruct (proj1 (Hloc c) ltac:(by rewrite Hc)) as (Hci & Hpl & Hpy).
  exists (updn loc c None).
  apply (chef_step_inv ids b _ loc _ i (CWantSofa2 c) Hinv); try done; try apply Hinv; simpl.
  - apply place_drop; (done || by rewrite Hpc).
  - intros d. destruct (decide (d = c)) as [->|]; [rewrite !updn_eq; naive_solver|]. rewrite !updn_ne by done. apply Hloc.
  - intros d Hd. destruct (decide (d = c)) as [->|]; [by rewrite updn_eq|]. by rewrite updn_ne.
  - intros d. destruct (decide (d = c)) as [->|]; [|rewrite updn_ne by done; apply (bi_pay _ _ _ Hinv)].
    intros _. apply (bi_baked _ _ _ Hinv i); (done || by rewrite Hpc).
  - intros d Hd. destruct (decide (d = c)) as [->|]; [|rewrite updn_ne by done; by apply (bi_early _ _ _ Hinv)].
    exfalso. by destruct (b_cust b c).
Qed.
End ChefCases.

Ltac silent pc := match goal with
  Hinv : bakery_inv ?ids ?b ?loc, Hi : chef_id ?i |- exists _, _ =>
    exists loc; apply (chef_silent ids b loc i Hinv pc); try done; simpl
  end.

Lemma chef_inv ids b loc i b' :
  bakery_inv ids b loc -> NoDup ids -> chef_id i -> Chef i b = Some b' -> exists loc', bakery_inv ids b' loc'.
Proof.
  intros Hinv Hids Hi. unfold Chef. destruct (b_chef b i) eqn:Hpc.
  - intros H. apply fmap_Some in H as (b1 & [Hl ->]%lock_sofa_inv & ->). silent CDequeue; [by rewrite Hpc|congruence].
  - pose proof (chef_dequeue_sofa ids b loc i Hinv Hi Hpc) as Hd. destruct (my_dequeue (b_sofa b)).
    intros [= <-]. exact Hd.
  - pose proof (chef_owns ids b loc i Hinv Hi) as Ho. rewrite Hpc in Ho. intros [= <-].
    destruct cur as [c|]; [silent (CBake c)|silent CWantSofa]; try (by rewrite Hpc); intros t Ht Hs; by destruct (Ho t).
  - intros [= <-]. silent (COven cur); by rewrite Hpc.
  - intros [= <-]. exists loc.
    apply (chef_step_inv ids b _ loc loc i (CWantReg cur) Hinv); try done; try apply Hinv; simpl.
    + apply (hold_keep ids b loc i Hinv (CWantReg cur)). by rewrite Hpc.
    + intros c Hc. destruct (decide (c = cur)) as [->|]; [by rewrite updn_eq|by rewrite updn_ne].
    + intros c Hc. destruct (decide (c = cur)) as [->|]; [by rewrite updn_eq|]. rewrite updn_ne by done.
      by apply (bi_pay _ _ _ Hinv).
    + intros c [= ->]. by rewrite updn_eq.
  - destruct (b_reg_lock b) eqn:Hr; [done|]. intros [= <-]. silent (CAccept cur); [by rewrite Hpc|congruence|].
    intros c [= ->]. apply (bi_baked _ _ _ Hinv i); [done|by rewrite Hpc].
  - intros [= <-]. silent (CPaid cur); [by rewrite Hpc| |].
    + intros t Ht Hs. rewrite (bi_reg _ _ _ Hinv i) in Hs; [congruence|done|by rewrite Hpc].
    + intros c [= ->]. apply (bi_baked _ _ _ Hinv i); [done|by rewrite Hpc].
  - intros [= <-]. by eapply (chef_paid ids b loc i).
  - intros H. apply fmap_Some in H as (b1 & [Hl ->]%lock_sofa_inv & ->). silent (CStanding cur); [by rewrite Hpc|congruence].
  - pose proof (chef_dequeue_standing ids b loc i Hinv Hi cur Hpc) as Hd. destruct (my_dequeue (b_standing b)).
    intros [= <-]. exact Hd.
  - pose proof (chef_owns ids b loc i Hinv Hi) as Ho. rewrite Hpc in Ho. intros [= <-].
    destruct sc as [d|]; [silent (CWantSofa3 d)|silent CWantSofa]; try (by rewrite Hpc); intros t Ht Hs; by destruct (Ho t).
  - intros H. apply fmap_Some in H as (b1 & [Hl ->]%lock_sofa_inv & ->). silent (CMove sc); [by rewrite Hpc|congruence].
  - intros [= <-]. by eapply (chef_move ids b loc i).
  - pose proof (chef_owns ids b loc i Hinv Hi) as Ho. rewrite Hpc in Ho. intros [= <-].
    silent CWantSofa; [by rewrite Hpc|]. intros t Ht Hs. by destruct (Ho t).
Qed.

Section CustCases.
Variables (ids : list nat) (b : bakery) (loc : nat -> option place) (c : nat).
Hypothesis Hinv : bakery_inv ids b loc.
Hypothesis Hids : NoDup ids.
Hypothesis Hc : c ∈ ids.

Lemma cust_owns t : cust_locked (b_cust b c) = true -> t <> TCust c -> b_sofa_lock b = Some t -> False.
Proof. intros Hl Hne Hs. rewrite (bi_lock_cust _ _ _ Hinv c Hc Hl) in Hs. congruence. Qed.

(** Steps that leave the queues alone. *)
Lemma cust_silent pc b' :
  b_chef b' = b_chef b -> b_cust b' = updn (b_cust b) c pc -> b_sofa b' = b_sofa b -> b_standing b' = b_standing b ->
  b_reg_lock b' = b_reg_lock b -> b_is_baking b' = b_is_baking b -> b_is_paying b' = b_is_paying b ->
  (placed pc = placed (b_cust b c) \/ b_is_paying b c = true) ->
  (0 <= b_num_of_cus b' /\
   b_num_of_cus b' + (if inside pc then 1 else 0) = b_num_of_cus b + (if inside (b_cust b c) then 1 else 0)) ->
  (forall t, t <> TCust c -> b_sofa_lock b = Some t -> b_sofa_lock b' = Some t) ->
  (cust_locked pc = true -> b_sofa_lock b' = Some (TCust c)) ->
  (early pc = true -> early (b_cust b c) = true) ->
  match pc with
  | KWaitPay => b_is_baking b c = true
  | KPostSeat | KPostCus | KDone => b_is_baking b c = true /\ b_is_paying b c = true
  | _ => True
  end ->
  bakery_inv ids b' loc.
Proof.
  intros E1 E2 E3 E4 E5 E6 E7 Hpl Hcus L1 L2 He Hs.
  apply (cust_step_inv ids b b' loc loc c pc Hinv Hids Hc); rewrite ?E3, ?E4; try done; try apply Hinv.
  - intros d. rewrite (bi_loc _ _ _ Hinv). destruct (decide (d = c)) as [->|Hne]; [|by rewrite updn_ne].
    rewrite updn_eq. destruct Hpl as [->|Hp]; [done|]. rewrite Hp. split; intros (_ & _ & ?); done.
  - intros Hx. by apply (bi_early _ _ _ Hinv), He.
Qed.

Lemma early_nowhere : early (b_cust b c) = true -> loc c = None.
Proof.
  intros He. destruct (loc c) eqn:Hl; [|done]. destruct (proj1 (bi_loc _ _ _ Hinv c)) as (_ & Hp & _); [by rewrite Hl|].
  exfalso. by destruct (b_cust b c).
Qed.

Lemma join_loc pl d seated : early (b_cust b c) = true ->
  updn loc c (Some pl) d <> None <->
  d ∈ ids /\ placed (updn (b_cust b) c (KUnlock seated) d) = true /\ b_is_paying b d = false.
Proof.
  intros He. destruct (decide (d = c)) as [->|Hne].
  - rewrite !updn_eq. split; [|done]. intros _. split_and!; [done|done|]. by apply (bi_early _ _ _ Hinv).
  - rewrite !updn_ne by done. apply (bi_loc _ _ _ Hinv).
Qed.

Lemma cust_enq_sofa : b_cust b c = KEnqSofa ->
  exists loc', bakery_inv ids (set_cust c (KUnlock true) (set_sofa (snd (my_enqueue (b_sofa b) c)) b)) loc'.
Proof.
  intros Hpc. pose proof (bi_place _ _ _ Hinv) as Hp. destruct (bi_queues _ _ _ Hinv) as [Hq1 Hq2].
  pose proof (early_nowhere ltac:(by rewrite Hpc)) as Hn.
  destruct (enqueue_fits ids b loc (b_sofa b) c) as (_ & Hwf & Hl); try done; [apply Hp| |by rewrite Hpc| |].
  { intros e He. apply (pl_sofa _ _ _ _ Hp) in He. by rewrite He. }
  { rewrite (pl_sofa _ _ _ _ Hp), Hn. done. }
  exists (updn loc c (Some PSofa)).
  apply (cust_step_inv ids b _ loc _ c (KUnlock true) Hinv Hids Hc); try done; try apply Hinv; simpl.
  - rewrite Hl. by apply place_join_sofa.
  - intros d. apply join_loc. by rewrite Hpc.
  - rewrite Hpc. pose proof (bi_cus _ _ _ Hinv). simpl. lia.
  - intros _. apply (bi_lock_cust _ _ _ Hinv); [done|by rewrite Hpc].
Qed.

Lemma cust_enq_stand : b_cust b c = KEnqStand ->
  exists loc', bakery_inv ids (set_cust c (KUnlock false) (set_standing (snd (my_enqueue (b_standing b) c)) b)) loc'.
Proof.
  intros Hpc. pose proof (bi_place _ _ _ Hinv) as Hp. destruct (bi_queues _ _ _ Hinv) as [Hq1 Hq2].
  pose proof (early_nowhere ltac:(by rewrite Hpc)) as Hn.
  destruct (enqueue_fits ids b loc (b_standing b) c) as (_ & Hwf & Hl); try done; [apply Hp| |by rewrite Hpc| |].
  { intros e He. apply (pl_stand _ _ _ _ Hp) in He. by rewrite He. }
  { rewrite (pl_stand _ _ _ _ Hp), Hn. done. }
  exists (updn loc c (Some PStand)).
  apply (cust_step_inv ids b _ loc _ c (KUnlock false) Hinv Hids Hc); try done; try apply Hinv; simpl.
  - rewrite Hl. by apply place_join_stand.
  - intros d. apply join_loc. by rewrite Hpc.
  - rewrite Hpc. pose proof (bi_cus _ _ _ Hinv). simpl. lia.
  - intros _. apply (bi_lock_cust _ _ _ Hinv); [done|by rewrite Hpc].
Qed.
End CustCases.

Ltac csilent pc := match goal with
  Hinv : bakery_inv ?ids ?b ?loc, Hids : NoDup ?ids, Hc : ?c ∈ ?ids, Hpc : b_cust ?b ?c = _ |- exists _, _ =>
    exists loc; apply (cust_silent ids b loc c Hinv Hids Hc pc); rewrite ?Hpc; try done; simpl; try (by left); try lia
  end.

Lemma cust_inv ids b loc c b' :
  bakery_inv ids b loc -> NoDup ids -> c ∈ ids -> customer c b = Some b' -> exists loc', bakery_inv ids b' loc'.
Proof.
  intros Hinv Hids Hc. unfold customer. pose proof (bi_cus _ _ _ Hinv) as [Hcus0 _].
  pose proof (bi_seen _ _ _ Hinv c Hc) as Hseen. unfold seen in Hseen.
  pose proof (cust_owns ids b loc c Hinv Hc) as Ho.
  pose proof (bi_lock_cust _ _ _ Hinv c Hc) as Hown.
  destruct (b_cust b c) eqn:Hpc; simpl in Ho, Hown.
  - destruct (Z.ltb_spec 0 (b_num_of_cus b)); intros [= <-]; [csilent KWantSofa|csilent KFull].
  - done.
  - intros H. apply fmap_Some in H as (b1 & [Hl ->]%lock_sofa_inv & ->). csilent KLook. congruence.
  - intros [= <-]. destruct (get_count (b_standing b) =? 0); [csilent KTrySeat|csilent KEnqStand].
  - destruct (0 <? b_num_of_seats b); intros [= <-]; [csilent KSit|csilent KEnqStand].
  - intros [= <-]. csilent KWantSofa2. intros t Ht Hs. by destruct (Ho t).
  - intros H. apply fmap_Some in H as (b1 & [Hl ->]%lock_sofa_inv & ->). csilent KEnqSofa. congruence.
  - intros [= <-]. by eapply cust_enq_sofa.
  - intros [= <-]. by eapply cust_enq_stand.
  - intros [= <-]. csilent KWaitCake. intros t Ht Hs. by destruct (Ho t).
  - destruct (b_is_baking b c) eqn:Hb; [|done]. intros [= <-]. csilent KWaitPay.
  - destruct (b_is_paying b c) eqn:Hb; [|done]. intros [= <-]. csilent KPostSeat. by right.
  - intros [= <-]. csilent KPostCus.
  - intros [= <-]. csilent KDone.
  - done.
Qed.

Lemma inside_none ids f : (forall c, inside (f c) = false) -> inside_count ids f = 0.
Proof.
  intros Hf. unfold inside_count. induction ids as [|c l IH]; [done|]. rewrite filter_cons, Hf.
  case_decide; done.
Qed.

Lemma open_inv ids : bakery_inv ids open_bakery (fun _ => None).
Proof.
  constructor; try done.
  - constructor; simpl; try apply NoDup_nil_2; intros; split; done || (intros Hx; by apply elem_of_nil in Hx).
  - intros c. split; [done|]. by intros (_ & ? & _).
  - by rewrite inside_none.
Qed.

Lemma reachable_inv ids b : NoDup ids -> bakery_reachable ids b -> exists loc, bakery_inv ids b loc.
Proof.
  intros Hids. apply (star_invariant (bakery_step ids) (fun b => exists loc, bakery_inv ids b loc)).
  - intros b1 b2 [loc Hinv] ([i|c] & Ht & Hr); simpl in *; [by eapply chef_inv|by eapply cust_inv].
  - eexists. apply open_inv.
Qed.

(** * Properties of every run *)

(** C30: In every interleaving at most 25 customers are inside, both queues stay
    within their 25 entries, and an enqueue never fails: a customer who is about
    to be queued always finds room. *)
Theorem bakery_capacity (ids : list nat) (b : bakery) (Hids : NoDup ids) (Hr : bakery_reachable ids b) :
  inside_count ids (b_cust b) <= BAKERY_CAPACITY /\
  q_count (b_sofa b) <= QUEUE_MAX /\ q_count (b_standing b) <= QUEUE_MAX /\
  (forall c, c ∈ ids -> b_cust b c = KEnqSofa -> fst (my_enqueue (b_sofa b) c) = 1) /\
  (forall c, c ∈ ids -> b_cust b c = KEnqStand -> fst (my_enqueue (b_standing b) c) = 1) /\
  (forall i d, chef_id i -> b_chef b i = CMove d -> fst (my_enqueue (b_sofa b) d) = 1).
Proof.
  destruct (reachable_inv ids b Hids Hr) as [loc Hinv]. destruct (bi_queues _ _ _ Hinv) as [Hq1 Hq2].
  pose proof (bi_place _ _ _ Hinv) as Hp. pose proof (bi_cus _ _ _ Hinv).
  assert (Hs : forall d, d ∈ q_list (b_sofa b) -> loc d <> None) by (intros d Hd; apply (pl_sofa _ _ _ _ Hp) in Hd; by rewrite Hd).
  assert (Ht : forall d, d ∈ q_list (b_standing b) -> loc d <> None) by (intros d Hd; apply (pl_stand _ _ _ _ Hp) in Hd; by rewrite Hd).
  split_and!; [lia|apply Hq1|apply Hq2| | |].
  - intros c Hc Hpc. pose proof (early_nowhere ids b loc c Hinv ltac:(by rewrite Hpc)) as Hn.
    apply (enqueue_fits ids b loc); try done; [apply Hp|by rewrite Hpc|]. rewrite (pl_sofa _ _ _ _ Hp), Hn. done.
  - intros c Hc Hpc. pose proof (early_nowhere ids b loc c Hinv ltac:(by rewrite Hpc)) as Hn.
    apply (enqueue_fits ids b loc); try done; [apply Hp|by rewrite Hpc|]. rewrite (pl_stand _ _ _ _ Hp), Hn. done.
  - intros i d Hi Hpc. assert (Hd : loc d = Some (PHand i)) by (apply (pl_hand _ _ _ _ Hp); [done|by rewrite Hpc]).
    destruct (proj1 (bi_loc _ _ _ Hinv d) ltac:(by rewrite Hd)) as (Hdi & Hpl & _).
    apply (enqueue_fits ids b loc); try done; [apply Hp|by apply placed_inside|]. rewrite (pl_sofa _ _ _ _ Hp), Hd. done.
Qed.

(** No customer is lost or served twice: in every reachable state each
    customer who is waiting and has not paid is in exactly one place (the sofa
    queue, the standing queue, or one chef's hands), and nobody else is in any
    of them. *)
Theorem bakery_no_lost_customer (ids : list nat) (b : bakery) (Hids : NoDup ids) (Hr : bakery_reachable ids b) :
  exists loc : nat -> option place,
    NoDup (q_list (b_sofa b)) /\ NoDup (q_list (b_standing b)) /\
    forall c, (c ∈ q_list (b_sofa b) <-> loc c = Some PSofa) /\
      (c ∈ q_list (b_standing b) <-> loc c = Some PStand) /\
      (forall i, chef_id i -> chef_holds (b_chef b i) = Some c <-> loc c = Some (PHand i)) /\
      (loc c <> None <-> c ∈ ids /\ placed (b_cust b c) = true /\ b_is_paying b c = false).
Proof.
  destruct (reachable_inv ids b Hids Hr) as [loc Hinv]. exists loc. destruct (bi_place _ _ _ Hinv) as [P1 P2 P3 P4 P5].
  split_and!; [done|done|]. intros c. split_and!; [apply P3|apply P4|intros i Hi; by apply P5|apply Hinv].
Qed.


(** * Two reachable misbehaviours *)

(** A schedule names the thread that moves at each step. *)
Fixpoint run_schedule (ts : list tid) (b : bakery) : option bakery :=
  match ts with
  | [] => Some b
  | t :: ts' => match run_thread t b with Some b' => run_schedule ts' b' | None => None end
  end.

Definition is_threadb (ids : list nat) (t : tid) : bool :=
  match t with
  | TChef i => (1 <=? i)%nat && (i <=? NUM_CHEFS)%nat
  | TCust c => bool_decide (c ∈ ids)
  end.

Lemma run_schedule_reach ids ts : forall b b',
  forallb (is_threadb ids) ts = true -> run_schedule ts b = Some b' -> star (bakery_step ids) b b'.
Proof.
  induction ts as [|t ts IH]; intros b b'; simpl.
  - intros _ [= ->]. apply star_refl.
  - rewrite andb_true_iff. intros [Ht Hts]. destruct (run_thread t b) as [b1|] eqn:Hr; [|done]. intros Hs.
    eapply star_next; [|by eapply IH]. exists t. split; [|done].
    destruct t; cbn [is_threadb is_thread] in *; [|by apply bool_decide_eq_true in Ht].
    apply andb_true_iff in Ht as [H1%Nat.leb_le H2%Nat.leb_le]. done.
Qed.

(** [t] runs [n] steps. *)
Definition steps (t : tid) (n : nat) : list tid := replicate n t.

(** Customers 1 to 4 take the seats; 5 stands; chef 1 serves 1 and moves 5 to
    the sofa; 1 leaves and posts its seat, which 6 takes. *)
Definition crowded_schedule : list tid :=
  steps (TCust 1) 8 ++ steps (TCust 2) 8 ++ steps (TCust 3) 8 ++ steps (TCust 4) 8 ++
  steps (TCust 5) 6 ++ steps (TChef 1) 14 ++ steps (TCust 1) 4 ++ steps (TCust 6) 8.

(** The sofa can hold five: the program frees a seat for every customer who
    leaves, also when that customer's place was taken over by a standing one
    who never took a seat from the semaphore.  There is an interleaving with
    five seated customers waiting for their cake, although there are four
    seats and none of the five has left. *)
Theorem sofa_overcrowded : exists b, bakery_reachable [1; 2; 3; 4; 5; 6]%nat b /\
  q_list (b_sofa b) = [2; 3; 4; 5; 6]%nat /\ SOFA_SEATS < q_count (b_sofa b) /\
  forall c, c ∈ q_list (b_sofa b) -> b_is_paying b c = false.
Proof.
  assert (Hrun : match run_schedule crowded_schedule open_bakery with
    | Some b => bool_decide (q_list (b_sofa b) = [2; 3; 4; 5; 6]%nat) && (q_count (b_sofa b) =? 5) &&
                forallb (fun c => negb (b_is_paying b c)) [2; 3; 4; 5; 6]%nat
    | None => false end = true) by (vm_compute; reflexivity).
  destruct (run_schedule crowded_schedule open_bakery) as [b|] eqn:Hs; [|done].
  rewrite !andb_true_iff, bool_decide_eq_true, Z.eqb_eq in Hrun. destruct Hrun as [[Hl Hn] Hp]. exists b. split_and!.
  - eapply run_schedule_reach; [|exact Hs]. vm_compute. reflexivity.
  - done.
  - rewrite Hn. done.
  - intros c Hc. rewrite Hl in Hc. rewrite forallb_forall in Hp. apply list_elem_of_In in Hc.
    specialize (Hp c Hc). by destruct (b_is_paying b c).
Qed.

(** Customers 1 to 4 are served while no one stands; before they post their
    seats customer 5 looks, finds no seat and stands; then 1 to 4 leave. *)
Definition stranded_schedule : list tid :=
  steps (TCust 1) 8 ++ steps (TCust 2) 8 ++ steps (TCust 3) 8 ++ steps (TCust 4) 8 ++
  steps (TChef 1) 11 ++ steps (TChef 2) 11 ++ steps (TChef 3) 11 ++ steps (TChef 4) 11 ++
  steps (TCust 5) 6 ++
  steps (TCust 1) 4 ++ steps (TCust 2) 4 ++ steps (TCust 3) 4 ++ steps (TCust 4) 4.

(** Customer 5 stands alone and every chef polls the empty sofa queue. *)
Definition chef_polling (pc : chef_pc) : bool :=
  match pc with CWantSofa | CDequeue | CUnlock None => true | _ => false end.

Definition strandedb (b : bakery) : bool :=
  (q_count (b_sofa b) =? 0) &&
  forallb (fun i => chef_polling (b_chef b i)) (seq 1 NUM_CHEFS) &&
  forallb (fun c => match b_cust b c with KDone => true | _ => false end) [1; 2; 3; 4]%nat &&
  match b_cust b 5%nat with KWaitCake => true | _ => false end && negb (b_is_baking b 5%nat).

Lemma stranded_parts b : strandedb b = true <->
  q_count (b_sofa b) = 0 /\ (forall i, chef_id i -> chef_polling (b_chef b i) = true) /\
  (forall c, c ∈ [1; 2; 3; 4]%nat -> b_cust b c = KDone) /\ b_cust b 5%nat = KWaitCake /\ b_is_baking b 5%nat = false.
Proof.
  unfold strandedb. rewrite !andb_true_iff, Z.eqb_eq, negb_true_iff, !forallb_forall.
  split.
  - intros [[[[Hq Hch] Hd] H5] Hb]. split_and!; try done.
    + intros i Hi. apply Hch, in_seq. unfold chef_id, NUM_CHEFS in *. lia.
    + intros c Hc. apply list_elem_of_In, Hd in Hc. by destruct (b_cust b c).
    + by destruct (b_cust b 5%nat).
  - intros (Hq & Hch & Hd & H5 & Hb). split_and!; try done.
    + intros i Hi. apply Hch. apply in_seq in Hi. unfold chef_id, NUM_CHEFS in *. lia.
    + intros c Hc. apply list_elem_of_In in Hc. by rewrite Hd.
    + by rewrite H5.
Qed.

Lemma stranded_step b b' : strandedb b = true -> bakery_step [1; 2; 3; 4; 5]%nat b b' -> strandedb b' = true.
Proof.
  rewrite !stranded_parts. intros (Hq & Hch & Hd & H5 & Hb). intros ([i|c] & Ht & Hr); simpl in Ht, Hr.
  - pose proof (Hch i Ht) as Hi.
    assert (Hgen : forall pc, b_sofa b' = b_sofa b -> b_cust b' = b_cust b -> b_is_baking b' = b_is_baking b ->
      b_chef b' = updn (b_chef b) i pc -> chef_polling pc = true ->
      q_count (b_sofa b') = 0 /\ (forall i, chef_id i -> chef_polling (b_chef b' i) = true) /\
      (forall c, c ∈ [1; 2; 3; 4]%nat -> b_cust b' c = KDone) /\ b_cust b' 5%nat = KWaitCake /\ b_is_baking b' 5%nat = false).
    { intros pc E1 E2 E3 E4 Hpc. rewrite E1, E2, E3, E4. split_and!; try done.
      intros j Hj. unfold updn. destruct (j =? i)%nat; [done|by apply Hch]. }
    unfold Chef, lock_sofa in Hr. destruct (b_chef b i) as [| |[c|]|c|c|c|c|c|c|c|c sc|c|c|]; try done.
    + destruct (b_sofa_lock b); [done|]. injection Hr as <-. by apply (Hgen CDequeue).
    + assert (Hdq : my_dequeue (b_sofa b) = (None, b_sofa b)) by (unfold my_dequeue; rewrite Hq; done).
      rewrite Hdq in Hr. injection Hr as <-. by apply (Hgen (CUnlock None)).
    + injection Hr as <-. by apply (Hgen CWantSofa).
  - exfalso. unfold customer in Hr.
    assert (Hin : c ∈ [1; 2; 3; 4]%nat \/ c = 5%nat).
    { clear - Ht. set_solver. }
    destruct Hin as [Hin| ->]; [by rewrite (Hd c Hin) in Hr|by rewrite H5, Hb in Hr].
Qed.

(** The simulation can hang: there is a reachable state in which a customer
    stands in the bakery, all others have left, and in no continuation does the
    customer ever get a cake, so [main] never finishes joining its threads. *)
Theorem standing_customer_stranded : exists b, bakery_reachable [1; 2; 3; 4; 5]%nat b /\
  q_list (b_standing b) = [5%nat] /\ (forall c, c ∈ [1; 2; 3; 4]%nat -> b_cust b c = KDone) /\
  forall b', star (bakery_step [1; 2; 3; 4; 5]%nat) b b' ->
    b_is_baking b' 5%nat = false /\ b_cust b' 5%nat = KWaitCake.
Proof.
  assert (Hrun : match run_schedule stranded_schedule open_bakery with
    | Some b => bool_decide (q_list (b_standing b) = [5%nat]) && strandedb b
    | None => false end = true) by (vm_compute; reflexivity).
  destruct (run_schedule stranded_schedule open_bakery) as [b|] eqn:Hs; [|done].
  rewrite andb_true_iff, bool_decide_eq_true in Hrun. destruct Hrun as [Hl Hst]. exists b. split_and!.
  - eapply run_schedule_reach; [|exact Hs]. vm_compute. reflexivity.
  - done.
  - apply stranded_parts in Hst. apply Hst.
  - intros b' Hb'. pose proof (star_invariant _ (fun b => strandedb b = true) b b' stranded_step Hst Hb') as Hf.
    apply stranded_parts in Hf. split; apply Hf.
Qed.

(** A run of one customer, for the theorems about all runs. *)
Definition lone_schedule : list tid := steps (TCust 7) 8 ++ steps (TChef 2) 11 ++ steps (TCust 7) 4.

Definition lone_end : bakery := default open_bakery (run_schedule lone_schedule open_bakery).

Lemma lone_reachable : bakery_reachable [7%nat] lone_end.
Proof.
  assert (Hrun : match run_schedule lone_schedule open_bakery with Some _ => true | None => false end = true)
    by (vm_compute; reflexivity).
  unfold lone_end. destruct (run_schedule lone_schedule open_bakery) as [b|] eqn:Hs; [|done].
  eapply run_schedule_reach; [|exact Hs]. vm_compute. reflexivity.
Qed.

Lemma bakery_capacity_witness : NoDup [7%nat] /\ inside_count [7%nat] (b_cust lone_end) <= BAKERY_CAPACITY.
Proof.
  assert (Hn : NoDup [7%nat]) by apply NoDup_singleton. split; [done|].
  apply (bakery_capacity [7%nat] lone_end Hn lone_reachable).
Defined.

Lemma bakery_no_lost_customer_witness : NoDup [7%nat] /\ NoDup (q_list (b_sofa lone_end)).
Proof.
  assert (Hn : NoDup [7%nat]) by apply NoDup_singleton. split; [done|].
  destruct (bakery_no_lost_customer [7%nat] lone_end Hn lone_reachable) as (loc & H & _). exact H.
Defined.

