(* ===== verification/Bufcache.v ===== *)
(** The interface between the buffer cache ([kernel/bio.c]) and its clients
    (the log, the file system): disk blocks as byte strings with their
    little-endian integer fields, and a class that states what [bread],
    [bwrite], [brelse], [bpin] and [bunpin] promise.  [Bio] discharges it. *)
From S2P Require Import Prelude.

Definition BSIZE : Z := 1024.
Definition ROOTDEV : Z := 1.
Definition MAXOPBLOCKS : Z := 10.
Definition LOGBLOCKS : Z := MAXOPBLOCKS * 3.
Definition NBUF : Z := MAXOPBLOCKS * 3.

(** * Integer fields of a block *)

Definition bytes_of (bs : list Z) : mem := fun i => default 0 (bs !! Z.to_nat i).

(** [bs] with the [n]-byte little-endian integer [v] at offset [o]. *)
Definition set_le (bs : list Z) (o : Z) (n : nat) (v : Z) : list Z :=
  bytes_at (store n (bytes_of bs) o v) 0 (length bs).

Lemma length_set_le bs o n v : length (set_le bs o n v) = length bs.
Proof. apply length_bytes_at. Qed.

Lemma le_at_set_load bs o n v o' k :
  0 <= o' -> o' + Z.of_nat k <= Z.of_nat (length bs) ->
  le_at (set_le bs o n v) o' k = load k (store n (bytes_of bs) o v) o'.
Proof.
  intros Ho Hk. unfold le_at. apply load_ext. intros x Hx. unfold set_le.
  rewrite bytes_at_lookup by lia. simpl. f_equal. lia.
Qed.

Lemma le_at_set_eq bs o n v :
  0 <= o -> o + Z.of_nat n <= Z.of_nat (length bs) -> 0 <= v < 256 ^ Z.of_nat n ->
  le_at (set_le bs o n v) o n = v.
Proof. intros. rewrite le_at_set_load by done. by apply load_store_eq. Qed.

Lemma le_at_set_ne bs o n v o' k :
  0 <= o' -> o' + Z.of_nat k <= Z.of_nat (length bs) ->
  o' + Z.of_nat k <= o \/ o + Z.of_nat n <= o' ->
  le_at (set_le bs o n v) o' k = le_at bs o' k.
Proof. intros. rewrite le_at_set_load by done. by apply load_store_ne. Qed.

(** * The buffer cache as its clients see it *)

(** The abstract cache of one disk: the current content of every block (the
    cached copy if there is one), the references to its buffer, the buffer
    locked for it, what the disk holds, and the block writes sent to the disk,
    oldest first. *)
Record bstate := mk_bst {
  view : Z -> list Z;
  refs : Z -> Z;
  held : Z -> option Z;
  disk : Z -> list Z;
  writes : list (Z * list Z)
}.

Definition a_get (b h : Z) (a : bstate) : bstate :=
  mk_bst (view a) (upd (refs a) b (refs a b + 1)) (upd (held a) b (Some h)) (disk a) (writes a).
Definition a_set (b : Z) (d : list Z) (a : bstate) : bstate :=
  mk_bst (upd (view a) b d) (refs a) (held a) (disk a) (writes a).
Definition a_write (b : Z) (a : bstate) : bstate :=
  mk_bst (view a) (refs a) (held a) (upd (disk a) b (view a b)) (writes a ++ [(b, view a b)]).
Definition a_ref (b k : Z) (a : bstate) : bstate :=
  mk_bst (view a) (upd (refs a) b (refs a b + k)) (held a) (disk a) (writes a).
Definition a_release (b : Z) (a : bstate) : bstate :=
  mk_bst (view a) (upd (refs a) b (refs a b - 1)) (upd (held a) b None) (disk a) (writes a).
Definition a_boot (d : Z -> list Z) : bstate := mk_bst d (fun _ => 0) (fun _ => None) d [].

Record bst_wf (a : bstate) : Prop := {
  wf_view_length : forall b, length (view a b) = Z.to_nat BSIZE;
  wf_disk_length : forall b, length (disk a b) = Z.to_nat BSIZE;
  wf_refs : forall b, 0 <= refs a b;
  wf_clean : forall b, refs a b = 0 -> view a b = disk a b;
  wf_held : forall b h, held a b = Some h -> 0 < refs a b
}.

(** Abstract caches that no operation can tell apart. *)
Record bst_eq (a a' : bstate) : Prop := mk_bst_eq {
  eq_view : forall b, view a b = view a' b;
  eq_refs : forall b, refs a b = refs a' b;
  eq_held : forall b, held a b = held a' b;
  eq_disk : forall b, disk a b = disk a' b;
  eq_writes : writes a = writes a'
}.

#[export] Instance bst_eq_equiv : Equivalence bst_eq.
Proof.
  split.
  - by intros a.
  - intros a b []. by split.
  - intros a b c [] []. split; intros; etrans; eauto.
Qed.

(** There is a buffer for block [b]: it is cached and in use, or fewer than
    [NBUF] blocks are. *)
Definition room (a : bstate) (b : Z) : Prop :=
  0 < refs a b \/ exists l : list Z, Z.of_nat (length l) < NBUF /\ forall c, 0 < refs a c -> c ∈ l.

(** The operations and what each does to the abstract cache; [rep s a] says
    that the concrete state [s] implements [a]. *)
Class BufCache := {
  bc : Type;
  bread : Z -> Z -> M bc Z;
  bwrite : Z -> M bc unit;
  brelse : Z -> M bc unit;
  bpin : Z -> M bc unit;
  bunpin : Z -> M bc unit;
  bdata : bc -> Z -> list Z;
  bblockno : bc -> Z -> Z;
  set_bdata : Z -> list Z -> bc -> bc;
  bboot : (Z -> list Z) -> bc;
  rep : bc -> bstate -> Prop;

  bboot_spec : forall d, (forall b, length (d b) = Z.to_nat BSIZE) -> rep (bboot d) (a_boot d);
  rep_ext : forall s a a', rep s a -> bst_eq a a' -> rep s a';
  rep_wf : forall s a, rep s a -> bst_wf a;
  held_spec : forall s a b h, rep s a -> held a b = Some h -> bblockno s h = b /\ bdata s h = view a b;
  bread_spec : forall s a b, rep s a -> 0 <= b < 2 ^ 31 -> held a b = None -> refs a b < 2 ^ 31 -> room a b ->
    returns (bread ROOTDEV b s) (fun h s' => rep s' (a_get b h a));
  bread_full : forall s a b, rep s a -> 0 <= b < 2 ^ 31 -> refs a b = 0 ->
    (exists l : list Z, NoDup l /\ Z.of_nat (length l) = NBUF /\ forall c, c ∈ l -> 0 < refs a c) ->
    exists s', bread ROOTDEV b s = Panic "bget: no buffers" s';
  set_bdata_spec : forall s a b h d, rep s a -> held a b = Some h -> length d = Z.to_nat BSIZE ->
    rep (set_bdata h d s) (a_set b d a);
  bwrite_spec : forall s a b h, rep s a -> held a b = Some h ->
    returns (bwrite h s) (fun _ s' => rep s' (a_write b a));
  brelse_spec : forall s a b h, rep s a -> held a b = Some h -> (refs a b = 1 -> view a b = disk a b) ->
    returns (brelse h s) (fun _ s' => rep s' (a_release b a));
  bpin_spec : forall s a b h, rep s a -> held a b = Some h -> refs a b < 2 ^ 31 ->
    returns (bpin h s) (fun _ s' => rep s' (a_ref b 1 a));
  bunpin_spec : forall s a b h, rep s a -> held a b = Some h -> 2 <= refs a b ->
    returns (bunpin h s) (fun _ s' => rep s' (a_ref b (-1) a))
}.

#[export] Instance rep_proper {BC : BufCache} : Proper (eq ==> bst_eq ==> iff) rep.
Proof. intros s ? <- a a' Ha. split; intros; eapply rep_ext; eauto. by symmetry. Qed.
