(* ===== verification/Virtio.v ===== *)
(** The disk driver ([kernel/virtio_disk.c], [kernel/virtio.h]): descriptors,
    the two rings that driver and device share, requests of several processes
    at the same time, and the interrupt handler.  A section under
    [disk.vdisk_lock] is one step; the device runs in between. *)
From S2P Require Import Prelude Bufcache.
Local Open Scope kern_scope.

(** * Data *)

Definition NUM : Z := 8.
Definition VRING_DESC_F_NEXT : Z := 1.
Definition VRING_DESC_F_WRITE : Z := 2.
Definition VIRTIO_BLK_T_IN : Z := 0.
Definition VIRTIO_BLK_T_OUT : Z := 1.

(** The places a descriptor can point to: [disk.ops[i]], the data of a buffer,
    [disk.info[i].status]. *)
Inductive place := PNull | POps (i : Z) | PData (b : Z) | PStatus (i : Z).

Record virtq_desc := mk_desc { d_addr : place; d_len : Z; d_flags : Z; d_next : Z }.
Definition desc0 : virtq_desc := mk_desc PNull 0 0 0.

Record virtio_blk_req := mk_blk { r_type : Z; r_sector : Z }.

(** Where a process is in [virtio_disk_rw(b, write)]: outside, in the loop that
    allocates descriptors, or in the loop that waits for the request with head
    [i]; [asleep] tells whether it sleeps there. *)
Inductive proc_at :=
| Idle
| NeedDesc (b : Z) (write : bool) (asleep : bool)
| NeedIO (b i : Z) (write : bool) (asleep : bool).

(** [struct disk] with the shared rings, the fields of the buffers that the
    driver uses, the processes, and the device: how far it has read the avail
    ring, the requests it works on, and the sectors. *)
Record vdisk := mk_vd {
  v_desc : Z -> virtq_desc;
  v_avail_idx : Z;
  v_avail_ring : Z -> Z;
  v_used_idx : Z;
  v_used_ring : Z -> Z;
  v_free : Z -> bool;
  v_seen : Z;
  v_info_b : Z -> option Z;
  v_status : Z -> Z;
  v_ops : Z -> virtio_blk_req;
  v_bdisk : Z -> Z;
  v_blockno : Z -> Z;
  v_data : Z -> list Z;
  v_thr : Z -> proc_at;
  v_last : Z;
  v_taken : list Z;
  v_sectors : Z -> list Z
}.

Definition set_desc v s := mk_vd v (v_avail_idx s) (v_avail_ring s) (v_used_idx s) (v_used_ring s) (v_free s) (v_seen s) (v_info_b s) (v_status s) (v_ops s) (v_bdisk s) (v_blockno s) (v_data s) (v_thr s) (v_last s) (v_taken s) (v_sectors s).
Definition set_avail i r s := mk_vd (v_desc s) i r (v_used_idx s) (v_used_ring s) (v_free s) (v_seen s) (v_info_b s) (v_status s) (v_ops s) (v_bdisk s) (v_blockno s) (v_data s) (v_thr s) (v_last s) (v_taken s) (v_sectors s).
Definition set_used i r s := mk_vd (v_desc s) (v_avail_idx s) (v_avail_ring s) i r (v_free s) (v_seen s) (v_info_b s) (v_status s) (v_ops s) (v_bdisk s) (v_blockno s) (v_data s) (v_thr s) (v_last s) (v_taken s) (v_sectors s).
Definition set_free v s := mk_vd (v_desc s) (v_avail_idx s) (v_avail_ring s) (v_used_idx s) (v_used_ring s) v (v_seen s) (v_info_b s) (v_status s) (v_ops s) (v_bdisk s) (v_blockno s) (v_data s) (v_thr s) (v_last s) (v_taken s) (v_sectors s).
Definition set_seen v s := mk_vd (v_desc s) (v_avail_idx s) (v_avail_ring s) (v_used_idx s) (v_used_ring s) (v_free s) v (v_info_b s) (v_status s) (v_ops s) (v_bdisk s) (v_blockno s) (v_data s) (v_thr s) (v_last s) (v_taken s) (v_sectors s).
Definition set_info_b v s := mk_vd (v_desc s) (v_avail_idx s) (v_avail_ring s) (v_used_idx s) (v_used_ring s) (v_free s) (v_seen s) v (v_status s) (v_ops s) (v_bdisk s) (v_blockno s) (v_data s) (v_thr s) (v_last s) (v_taken s) (v_sectors s).
Definition set_status v s := mk_vd (v_desc s) (v_avail_idx s) (v_avail_ring s) (v_used_idx s) (v_used_ring s) (v_free s) (v_seen s) (v_info_b s) v (v_ops s) (v_bdisk s) (v_blockno s) (v_data s) (v_thr s) (v_last s) (v_taken s) (v_sectors s).
Definition set_ops v s := mk_vd (v_desc s) (v_avail_idx s) (v_avail_ring s) (v_used_idx s) (v_used_ring s) (v_free s) (v_seen s) (v_info_b s) (v_status s) v (v_bdisk s) (v_blockno s) (v_data s) (v_thr s) (v_last s) (v_taken s) (v_sectors s).
Definition set_bdisk v s := mk_vd (v_desc s) (v_avail_idx s) (v_avail_ring s) (v_used_idx s) (v_used_ring s) (v_free s) (v_seen s) (v_info_b s) (v_status s) (v_ops s) v (v_blockno s) (v_data s) (v_thr s) (v_last s) (v_taken s) (v_sectors s).
Definition set_blockno v s := mk_vd (v_desc s) (v_avail_idx s) (v_avail_ring s) (v_used_idx s) (v_used_ring s) (v_free s) (v_seen s) (v_info_b s) (v_status s) (v_ops s) (v_bdisk s) v (v_data s) (v_thr s) (v_last s) (v_taken s) (v_sectors s).
Definition set_vdata v s := mk_vd (v_desc s) (v_avail_idx s) (v_avail_ring s) (v_used_idx s) (v_used_ring s) (v_free s) (v_seen s) (v_info_b s) (v_status s) (v_ops s) (v_bdisk s) (v_blockno s) v (v_thr s) (v_last s) (v_taken s) (v_sectors s).
Definition set_thr v s := mk_vd (v_desc s) (v_avail_idx s) (v_avail_ring s) (v_used_idx s) (v_used_ring s) (v_free s) (v_seen s) (v_info_b s) (v_status s) (v_ops s) (v_bdisk s) (v_blockno s) (v_data s) v (v_last s) (v_taken s) (v_sectors s).
Definition set_device l tk sec s := mk_vd (v_desc s) (v_avail_idx s) (v_avail_ring s) (v_used_idx s) (v_used_ring s) (v_free s) (v_seen s) (v_info_b s) (v_status s) (v_ops s) (v_bdisk s) (v_blockno s) (v_data s) (v_thr s) l tk sec.

(** [wakeup(&disk.free[0])] and [wakeup(b)]. *)
Definition wake_desc (p : proc_at) : proc_at := match p with NeedDesc b w _ => NeedDesc b w false | _ => p end.
Definition wake_buf (b : Z) (p : proc_at) : proc_at :=
  match p with NeedIO c i w a => if c =? b then NeedIO c i w false else p | _ => p end.
Definition wakeup_desc : M vdisk unit := modify (fun s => set_thr (fun t => wake_desc (v_thr s t)) s).
Definition wakeup_buf (b : Z) : M vdisk unit := modify (fun s => set_thr (fun t => wake_buf b (v_thr s t)) s).

(** * Descriptors *)

Definition alloc_desc : M vdisk Z :=
  do s <- get;
  match scan (v_free s) NUM with
  | Some i => modify (set_free (upd (v_free s) i false)) ;;; ret i
  | None => ret (-1)
  end.

Definition free_desc (i : Z) : M vdisk unit :=
  do s <- get;
  if NUM <=? i then panic "free_desc 1"
  else if v_free s i then panic "free_desc 2"
  else
    modify (set_desc (upd (v_desc s) i desc0)) ;;;
    modify (set_free (upd (v_free s) i true)) ;;;
    wakeup_desc.

Fixpoint free_chain (fuel : nat) (i : Z) : M vdisk unit :=
  match fuel with
  | O => no_fuel
  | S fuel =>
      do s <- get;
      let flag := d_flags (v_desc s i) in
      let nxt := d_next (v_desc s i) in
      free_desc i ;;;
      if negb (Z.land flag VRING_DESC_F_NEXT =? 0) then free_chain fuel nxt else ret tt
  end.

(** The inner loop of [alloc3_desc]. *)
Fixpoint free_all (idx : list Z) : M vdisk unit :=
  match idx with [] => ret tt | i :: idx => free_desc i ;;; free_all idx end.

(** [k] descriptors are still wanted; [idx] are those found so far. *)
Fixpoint alloc3_loop (k : nat) (idx : list Z) : M vdisk (option (list Z)) :=
  match k with
  | O => ret (Some idx)
  | S k =>
      do d <- alloc_desc;
      if d <? 0 then free_all idx ;;; ret None
      else alloc3_loop k (idx ++ [d])
  end.

Definition alloc3_desc : M vdisk (option (list Z)) := alloc3_loop 3 [].

(** * Requests *)

Definition sizeof_virtio_blk_req : Z := 16.

Definition put_desc (i : Z) (d : virtq_desc) : M vdisk unit := modify (fun s => set_desc (upd (v_desc s) i d) s).

(** The part of [virtio_disk_rw] from the descriptors to the notification. *)
Definition submit (b : Z) (write : bool) (i0 i1 i2 : Z) : M vdisk unit :=
  do s <- get;
  let sector := u32 (v_blockno s b * (BSIZE / 512)) in
  modify (set_ops (upd (v_ops s) i0 (mk_blk (if write then VIRTIO_BLK_T_OUT else VIRTIO_BLK_T_IN) sector))) ;;;
  put_desc i0 (mk_desc (POps i0) sizeof_virtio_blk_req VRING_DESC_F_NEXT i1) ;;;
  put_desc i1 (mk_desc (PData b) BSIZE (Z.lor (if write then 0 else VRING_DESC_F_WRITE) VRING_DESC_F_NEXT) i2) ;;;
  modify (fun s => set_status (upd (v_status s) i0 255) s) ;;;
  put_desc i2 (mk_desc (PStatus i0) 1 VRING_DESC_F_WRITE 0) ;;;
  modify (fun s => set_bdisk (upd (v_bdisk s) b 1) s) ;;;
  modify (fun s => set_info_b (upd (v_info_b s) i0 (Some b)) s) ;;;
  modify (fun s => set_avail (v_avail_idx s) (upd (v_avail_ring s) (v_avail_idx s mod NUM) i0) s) ;;;
  modify (fun s => set_avail (u16 (v_avail_idx s + 1)) (v_avail_ring s) s).

Definition set_at (t : Z) (p : proc_at) : M vdisk unit := modify (fun s => set_thr (upd (v_thr s) t p) s).

(** The loop that waits for the request, and what follows it. *)
Definition wait_io (t b i : Z) (write : bool) : M vdisk unit :=
  do s <- get;
  if v_bdisk s b =? 1 then set_at t (NeedIO b i write true)
  else
    modify (set_info_b (upd (v_info_b s) i None)) ;;;
    free_chain 3 i ;;;
    set_at t Idle.

(** What process [t] does in [virtio_disk_rw] until it sleeps or returns. *)
Definition virtio_disk_rw (t : Z) : M vdisk unit :=
  do s <- get;
  match v_thr s t with
  | NeedDesc b write false =>
      do o <- alloc3_desc;
      match o with
      | Some [i0; i1; i2] => submit b write i0 i1 i2 ;;; wait_io t b i0 write
      | _ => set_at t (NeedDesc b write true)
      end
  | NeedIO b i write false => wait_io t b i write
  | _ => ret tt
  end.

(** The loop over the used ring. *)
Fixpoint intr_loop (fuel : nat) : M vdisk unit :=
  do s <- get;
  if v_seen s =? v_used_idx s then ret tt
  else
    match fuel with
    | O => no_fuel
    | S fuel =>
        let id := v_used_ring s (v_seen s mod NUM) in
        if negb (v_status s id =? 0) then panic "virtio_disk_intr status"
        else
          match v_info_b s id with
          | None => undef "null buffer"
          | Some b =>
              modify (set_bdisk (upd (v_bdisk s) b 0)) ;;;
              wakeup_buf b ;;;
              modify (fun s => set_seen (u16 (v_seen s + 1)) s) ;;;
              intr_loop fuel
          end
    end.

(** The interrupt is acknowledged first, which the model of the rings does not
    show.  The device cannot be more than [NUM] entries ahead. *)
Definition virtio_disk_intr : M vdisk unit := intr_loop (Z.to_nat NUM).

(** * Start-up *)

Definition VIRTIO_MMIO_MAGIC_VALUE : Z := 0x000.
Definition VIRTIO_MMIO_VERSION : Z := 0x004.
Definition VIRTIO_MMIO_DEVICE_ID : Z := 0x008.
Definition VIRTIO_MMIO_VENDOR_ID : Z := 0x00c.
Definition VIRTIO_MMIO_DEVICE_FEATURES : Z := 0x010.
Definition VIRTIO_MMIO_DRIVER_FEATURES : Z := 0x020.
Definition VIRTIO_MMIO_QUEUE_SEL : Z := 0x030.
Definition VIRTIO_MMIO_QUEUE_NUM_MAX : Z := 0x034.
Definition VIRTIO_MMIO_QUEUE_NUM : Z := 0x038.
Definition VIRTIO_MMIO_QUEUE_READY : Z := 0x044.
Definition VIRTIO_MMIO_STATUS : Z := 0x070.
Definition VIRTIO_MMIO_QUEUE_DESC_LOW : Z := 0x080.
Definition VIRTIO_MMIO_QUEUE_DESC_HIGH : Z := 0x084.
Definition VIRTIO_MMIO_DRIVER_DESC_LOW : Z := 0x090.
Definition VIRTIO_MMIO_DRIVER_DESC_HIGH : Z := 0x094.
Definition VIRTIO_MMIO_DEVICE_DESC_LOW : Z := 0x0a0.
Definition VIRTIO_MMIO_DEVICE_DESC_HIGH : Z := 0x0a4.
Definition VIRTIO_CONFIG_S_ACKNOWLEDGE : Z := 1.
Definition VIRTIO_CONFIG_S_DRIVER : Z := 2.
Definition VIRTIO_CONFIG_S_DRIVER_OK : Z := 4.
Definition VIRTIO_CONFIG_S_FEATURES_OK : Z := 8.
Definition VIRTIO_BLK_F_RO : Z := 5.
Definition VIRTIO_BLK_F_SCSI : Z := 7.
Definition VIRTIO_BLK_F_CONFIG_WCE : Z := 11.
Definition VIRTIO_BLK_F_MQ : Z := 12.
Definition VIRTIO_F_ANY_LAYOUT : Z := 27.
Definition VIRTIO_RING_F_INDIRECT_DESC : Z := 28.
Definition VIRTIO_RING_F_EVENT_IDX : Z := 29.

(** The registers of the device: what a read yields after a sequence of writes
    (register and value, oldest first).  [pages] are the results of the three
    calls of [kalloc]. *)
Section Init.
Context (mmio : list (Z * Z) -> Z -> Z) (pages : Z * Z * Z).

Definition vinit : Type := list (Z * Z) * vdisk.
Definition read_reg (r : Z) : M vinit Z := gets (fun x => mmio (fst x) r).
Definition write_reg (r v : Z) : M vinit unit := modify (fun x => (fst x ++ [(r, u32 v)], snd x)).
Definition on_disk (f : vdisk -> vdisk) : M vinit unit := modify (fun x => (fst x, f (snd x))).

(** [features &= ~(1 << n)]. *)
Definition mask_off (features n : Z) : Z := Z.land features (Z.lnot (Z.shiftl 1 n)).

Definition wanted (features : Z) : Z :=
  fold_left mask_off [VIRTIO_BLK_F_RO; VIRTIO_BLK_F_SCSI; VIRTIO_BLK_F_CONFIG_WCE; VIRTIO_BLK_F_MQ;
    VIRTIO_F_ANY_LAYOUT; VIRTIO_RING_F_EVENT_IDX; VIRTIO_RING_F_INDIRECT_DESC] features.

Definition mark_free (i : Z) : M vinit unit := on_disk (fun s => set_free (upd (v_free s) i true) s).

Definition virtio_disk_init : M vinit unit :=
  do magic <- read_reg VIRTIO_MMIO_MAGIC_VALUE;
  do version <- read_reg VIRTIO_MMIO_VERSION;
  do id <- read_reg VIRTIO_MMIO_DEVICE_ID;
  do vendor <- read_reg VIRTIO_MMIO_VENDOR_ID;
  if negb (magic =? 0x74726976) || negb (version =? 2) || negb (id =? 2) || negb (vendor =? 0x554d4551) then
    panic "could not find virtio disk"
  else
    write_reg VIRTIO_MMIO_STATUS 0 ;;;
    let status := VIRTIO_CONFIG_S_ACKNOWLEDGE in
    write_reg VIRTIO_MMIO_STATUS status ;;;
    let status := Z.lor status VIRTIO_CONFIG_S_DRIVER in
    write_reg VIRTIO_MMIO_STATUS status ;;;
    do features <- read_reg VIRTIO_MMIO_DEVICE_FEATURES;
    write_reg VIRTIO_MMIO_DRIVER_FEATURES (wanted features) ;;;
    let status := Z.lor status VIRTIO_CONFIG_S_FEATURES_OK in
    write_reg VIRTIO_MMIO_STATUS status ;;;
    do status <- read_reg VIRTIO_MMIO_STATUS;
    if Z.land status VIRTIO_CONFIG_S_FEATURES_OK =? 0 then panic "virtio disk FEATURES_OK unset"
    else
      write_reg VIRTIO_MMIO_QUEUE_SEL 0 ;;;
      do ready <- read_reg VIRTIO_MMIO_QUEUE_READY;
      if negb (ready =? 0) then panic "virtio disk should not be ready"
      else
        do max <- read_reg VIRTIO_MMIO_QUEUE_NUM_MAX;
        if max =? 0 then panic "virtio disk has no queue 0"
        else if max <? NUM then panic "virtio disk max queue too short"
        else
          let '(desc, avail, used) := pages in
          if (desc =? 0) || (avail =? 0) || (used =? 0) then panic "virtio disk kalloc"
          else
            on_disk (set_desc (fun _ => desc0)) ;;;
            on_disk (set_avail 0 (fun _ => 0)) ;;;
            on_disk (set_used 0 (fun _ => 0)) ;;;
            write_reg VIRTIO_MMIO_QUEUE_NUM NUM ;;;
            write_reg VIRTIO_MMIO_QUEUE_DESC_LOW desc ;;;
            write_reg VIRTIO_MMIO_QUEUE_DESC_HIGH (Z.shiftr desc 32) ;;;
            write_reg VIRTIO_MMIO_DRIVER_DESC_LOW avail ;;;
            write_reg VIRTIO_MMIO_DRIVER_DESC_HIGH (Z.shiftr avail 32) ;;;
            write_reg VIRTIO_MMIO_DEVICE_DESC_LOW used ;;;
            write_reg VIRTIO_MMIO_DEVICE_DESC_HIGH (Z.shiftr used 32) ;;;
            write_reg VIRTIO_MMIO_QUEUE_READY 1 ;;;
            for_loop (Z.to_nat NUM) 0 mark_free ;;;
            write_reg VIRTIO_MMIO_STATUS (Z.lor status VIRTIO_CONFIG_S_DRIVER_OK).
End Init.

(** * The device *)

(** [k] sectors of 512 bytes from [s], as one string, and written from one. *)
Definition read_sectors (sec : Z -> list Z) (s : Z) (k : nat) : list Z := mjoin (sec <$> seqZ s (Z.of_nat k)).
Definition write_sectors (sec : Z -> list Z) (s : Z) (k : nat) (d : list Z) : Z -> list Z :=
  fun x => if (s <=? x) && (x <? s + Z.of_nat k) then take 512 (drop (512 * Z.to_nat (x - s)) d) else sec x.

(** What the device may do with the shared memory, as [virtio.h] describes it:
    take the next entry of the avail ring, or finish a request it has taken (in
    any order): it follows the chain, moves the data in the direction that the
    request says, writes 0 to the status byte (anything else when it fails), and
    puts the head of the chain on the used ring. *)
Definition report (i : Z) (s : vdisk) : vdisk :=
  set_device (v_last s) (list_difference (v_taken s) [i]) (v_sectors s)
    (set_used (u16 (v_used_idx s + 1)) (upd (v_used_ring s) (v_used_idx s mod NUM) i) s).

Inductive device : vdisk -> vdisk -> Prop :=
| device_take s : v_last s <> v_avail_idx s ->
    device s (set_device (u16 (v_last s + 1)) (v_avail_ring s (v_last s mod NUM) :: v_taken s) (v_sectors s) s)
| device_read s i i1 i2 o b p n sector : i ∈ v_taken s ->
    v_desc s i = mk_desc (POps o) sizeof_virtio_blk_req VRING_DESC_F_NEXT i1 ->
    v_desc s i1 = mk_desc (PData b) n (Z.lor VRING_DESC_F_WRITE VRING_DESC_F_NEXT) i2 ->
    v_desc s i2 = mk_desc (PStatus p) 1 VRING_DESC_F_WRITE 0 ->
    v_ops s o = mk_blk VIRTIO_BLK_T_IN sector ->
    device s (report i (set_status (upd (v_status s) p 0)
      (set_vdata (upd (v_data s) b (read_sectors (v_sectors s) sector (Z.to_nat (n / 512)))) s)))
| device_write s i i1 i2 o b p n sector : i ∈ v_taken s ->
    v_desc s i = mk_desc (POps o) sizeof_virtio_blk_req VRING_DESC_F_NEXT i1 ->
    v_desc s i1 = mk_desc (PData b) n VRING_DESC_F_NEXT i2 ->
    v_desc s i2 = mk_desc (PStatus p) 1 VRING_DESC_F_WRITE 0 ->
    v_ops s o = mk_blk VIRTIO_BLK_T_OUT sector ->
    device s (report i (set_status (upd (v_status s) p 0)
      (set_device (v_last s) (v_taken s) (write_sectors (v_sectors s) sector (Z.to_nat (n / 512)) (v_data s b)) s)))
| device_fail s i i1 i2 p v : i ∈ v_taken s -> v <> 0 ->
    d_next (v_desc s i) = i1 -> d_next (v_desc s i1) = i2 -> d_addr (v_desc s i2) = PStatus p ->
    device s (report i (set_status (upd (v_status s) p v) s)).

(** * The system *)

Definition uses (p : proc_at) (b : Z) : Prop :=
  match p with Idle => False | NeedDesc c _ _ | NeedIO c _ _ _ => c = b end.

(** A process calls [virtio_disk_rw] with a buffer it has locked ([bio.c]): no
    other call uses that buffer or another buffer of the same block.  A buffer
    that no call uses may be changed and given another block. *)
Section System.
Context (dev : vdisk -> vdisk -> Prop).

Inductive vstep : vdisk -> vdisk -> Prop :=
| v_call s t b w : v_thr s t = Idle -> 0 <= v_blockno s b < 2 ^ 31 -> length (v_data s b) = Z.to_nat BSIZE ->
    (forall t' c, uses (v_thr s t') c -> v_blockno s c <> v_blockno s b) ->
    vstep s (set_thr (upd (v_thr s) t (NeedDesc b w false)) s)
| v_edit s b d n : (forall t, ~ uses (v_thr s t) b) ->
    vstep s (set_blockno (upd (v_blockno s) b n) (set_vdata (upd (v_data s) b d) s))
| v_turn s t s' : virtio_disk_rw t s = Ret tt s' -> vstep s s'
| v_intr s s' : virtio_disk_intr s = Ret tt s' -> vstep s s'
| v_device s s' : dev s s' -> vstep s s'.
End System.

(** Read the fields of an updated state. *)
Ltac fields := cbn [v_desc v_avail_idx v_avail_ring v_used_idx v_used_ring v_free v_seen v_info_b v_status v_ops v_bdisk
  v_blockno v_data v_thr v_last v_taken v_sectors set_desc set_avail set_used set_free set_seen set_info_b set_status set_ops
  set_bdisk set_blockno set_vdata set_thr set_device].

(** * The invariant *)

(** The progress of a request: on the avail ring, with the device, on the used
    ring, seen by the interrupt handler. *)
Inductive phase := Queued | Taken | Reported | Done.

Record req := mk_req { q_t : Z; q_b : Z; q_w : bool; q_j : Z; q_k : Z; q_ph : phase }.
Definition set_ph p r := mk_req (q_t r) (q_b r) (q_w r) (q_j r) (q_k r) p.

Definition block (sec : Z -> list Z) (n : Z) : list Z := read_sectors sec (n * (BSIZE / 512)) 2.
Definition synced (s : vdisk) (b : Z) : Prop := v_data s b = block (v_sectors s) (v_blockno s b).

Definition links (i : Z) (r : req) : list Z := [i; q_j r; q_k r].

(** The request of [r] with head [i], as the driver has laid it out. *)
Record laid_out (s : vdisk) (i : Z) (r : req) : Prop := {
  lo_range : forall d, d ∈ links i r -> 0 <= d < NUM /\ v_free s d = false;
  lo_nodup : NoDup (links i r);
  lo_head : v_desc s i = mk_desc (POps i) sizeof_virtio_blk_req VRING_DESC_F_NEXT (q_j r);
  lo_data : v_desc s (q_j r) = mk_desc (PData (q_b r)) BSIZE (Z.lor (if q_w r then 0 else VRING_DESC_F_WRITE) VRING_DESC_F_NEXT) (q_k r);
  lo_stat : v_desc s (q_k r) = mk_desc (PStatus i) 1 VRING_DESC_F_WRITE 0;
  lo_ops : v_ops s i = mk_blk (if q_w r then VIRTIO_BLK_T_OUT else VIRTIO_BLK_T_IN) (u32 (v_blockno s (q_b r) * (BSIZE / 512)));
  lo_info : v_info_b s i = Some (q_b r)
}.

(** What holds of a request in its phase. *)
Definition in_phase (s : vdisk) (i : Z) (r : req) : Prop :=
  match q_ph r with
  | Queued | Taken => v_bdisk s (q_b r) = 1
  | Reported => v_bdisk s (q_b r) = 1 /\ (v_status s i = 0 -> synced s (q_b r))
  | Done => v_bdisk s (q_b r) <> 1 /\ synced s (q_b r)
  end.

(** The entries [l] of a ring from position [from] up to [upto]. *)
Record ring_holds (ring : Z -> Z) (from upto : Z) (l : list Z) : Prop := {
  rh_from : 0 <= from < 2 ^ 16;
  rh_upto : upto = u16 (from + Z.of_nat (length l));
  rh_entries : forall n i, l !! n = Some i -> ring ((from + Z.of_nat n) mod NUM) = i
}.

Definition free_count (f : Z -> bool) : nat := length (filter (fun d => f d = true) (seqZ 0 NUM)).

(** The heads in phase [p]. *)
Definition heads (R : Z -> option req) (p : phase) (l : list Z) : Prop :=
  NoDup l /\ forall i, i ∈ l <-> exists r, R i = Some r /\ q_ph r = p.

Record vinv (s : vdisk) (R : Z -> option req) (A U : list Z) : Prop := {
  vi_laid : forall i r, R i = Some r -> laid_out s i r;
  vi_phase : forall i r, R i = Some r -> in_phase s i r;
  vi_proc : forall i r, R i = Some r -> exists a, v_thr s (q_t r) = NeedIO (q_b r) i (q_w r) a /\ (q_ph r = Done -> a = false);
  vi_apart : forall i i' r r' d, R i = Some r -> R i' = Some r' -> d ∈ links i r -> d ∈ links i' r' -> i = i';
  vi_free : forall d, 0 <= d < NUM -> v_free s d = false -> exists i r, R i = Some r /\ d ∈ links i r;
  vi_io : forall t b i w a, v_thr s t = NeedIO b i w a -> exists r, R i = Some r /\ q_t r = t;
  vi_sleep : forall t b w, v_thr s t = NeedDesc b w true -> (free_count (v_free s) < 3)%nat;
  vi_uses : forall t t' b b', uses (v_thr s t) b -> uses (v_thr s t') b' -> v_blockno s b = v_blockno s b' -> t = t';
  vi_buf : forall t b, uses (v_thr s t) b -> 0 <= v_blockno s b < 2 ^ 31 /\ length (v_data s b) = Z.to_nat BSIZE;
  vi_sectors : forall x, length (v_sectors s x) = 512%nat;
  vi_avail : ring_holds (v_avail_ring s) (v_last s) (v_avail_idx s) A;
  vi_used : ring_holds (v_used_ring s) (v_seen s) (v_used_idx s) U;
  vi_queued : heads R Queued A;
  vi_taken : heads R Taken (v_taken s);
  vi_reported : heads R Reported U
}.

(** ** Rings and sectors *)

Lemma mod_NUM_u16 x : u16 x mod NUM = x mod NUM.
Proof. unfold u16, NUM. Z.div_mod_to_equations. lia. Qed.

Lemma ring_pop ring from upto i l : ring_holds ring from upto (i :: l) ->
  from <> u16 (from + 1) /\ ring (from mod NUM) = i /\ ring_holds ring (u16 (from + 1)) upto l.
Proof.
  intros [H1 H2 H3]. split_and!.
  - unfold u16. Z.div_mod_to_equations. lia.
  - specialize (H3 0%nat i eq_refl). by rewrite Z.add_0_r in H3.
  - split.
    + unfold u16. Z.div_mod_to_equations. lia.
    + rewrite H2. cbn [length]. unfold u16. rewrite Zplus_mod_idemp_l. f_equal. lia.
    + intros n j Hn. rewrite <- (H3 (S n) j Hn). f_equal.
      rewrite <- (Zplus_mod_idemp_l (u16 (from + 1))), mod_NUM_u16, Zplus_mod_idemp_l. f_equal. lia.
Qed.

Lemma ring_put ring from upto i l : ring_holds ring from upto l -> (length l < Z.to_nat NUM)%nat ->
  ring_holds (upd ring (upto mod NUM) i) from (u16 (upto + 1)) (l ++ [i]).
Proof.
  intros [H1 H2 H3] Hl. split; [done| |].
  - rewrite H2, length_app. cbn [length]. unfold u16. rewrite Zplus_mod_idemp_l. f_equal. lia.
  - intros n j Hn. rewrite H2, mod_NUM_u16. unfold NUM in *. apply lookup_app_Some in Hn as [Hn|[Hn Hj]].
    + apply lookup_lt_Some in Hn as Hn'. rewrite upd_ne; [by apply H3|]. Z.div_mod_to_equations. lia.
    + apply list_lookup_singleton_Some in Hj as [Hj <-]. replace n with (length l) by lia. by rewrite upd_eq.
Qed.

Lemma ring_empty ring from upto l : ring_holds ring from upto l -> (length l <= Z.to_nat NUM)%nat -> from = upto <-> l = [].
Proof.
  intros [H1 H2 _] Hl. unfold NUM in Hl. destruct l as [|x l]; cbn [length] in *.
  - rewrite Z.add_0_r in H2. unfold u16 in H2. rewrite Z.mod_small in H2 by lia. naive_solver.
  - split; [|done]. intros E. unfold u16 in H2. Z.div_mod_to_equations. lia.
Qed.

Lemma bounded_nodup (l : list Z) : NoDup l -> (forall i, i ∈ l -> 0 <= i < NUM) -> (length l <= Z.to_nat NUM)%nat.
Proof.
  intros Hd Hr. rewrite <- (length_seqZ 0 NUM). apply submseteq_length, NoDup_submseteq; [done|].
  intros i Hi. apply elem_of_seqZ. specialize (Hr i Hi). lia.
Qed.

Lemma bounded_nodup_lt (l : list Z) d : NoDup l -> (forall i, i ∈ l -> 0 <= i < NUM) -> 0 <= d < NUM -> d ∉ l ->
  (length l < Z.to_nat NUM)%nat.
Proof.
  intros Hd Hr Hdr Hn. assert (length (d :: l) <= Z.to_nat NUM)%nat; [|cbn [length] in *; lia].
  apply bounded_nodup; [by constructor|]. intros i [->|Hi]%elem_of_cons; [done|by apply Hr].
Qed.

Lemma block_eq sec n : block sec n = sec (2 * n) ++ sec (2 * n + 1).
Proof.
  unfold block, read_sectors. change (BSIZE / 512) with 2. change (Z.of_nat 2) with 2.
  rewrite seqZ_cons, seqZ_cons by lia. cbn. replace (n * 2) with (2 * n) by lia.
  rewrite app_nil_r. done.
Qed.

Lemma block_write_eq sec n d : length d = Z.to_nat BSIZE -> block (write_sectors sec (n * (BSIZE / 512)) 2 d) n = d.
Proof.
  intros Hd. rewrite block_eq. unfold write_sectors. change (BSIZE / 512) with 2.
  change (Z.of_nat 2) with 2. replace (n * 2) with (2 * n) by lia. bool_to_prop; try lia.
  replace (2 * n - 2 * n) with 0 by lia. replace (2 * n + 1 - 2 * n) with 1 by lia.
  change (512 * Z.to_nat 0)%nat with 0%nat. change (512 * Z.to_nat 1)%nat with 512%nat. rewrite drop_0.
  rewrite (take_ge (drop 512 d)); [apply take_drop|]. rewrite length_drop, Hd. vm_compute. lia.
Qed.

Lemma block_write_ne sec n n' d : n <> n' -> block (write_sectors sec (n * (BSIZE / 512)) 2 d) n' = block sec n'.
Proof.
  intros Hn. rewrite !block_eq. unfold write_sectors. change (BSIZE / 512) with 2. change (Z.of_nat 2) with 2.
  f_equal; bool_to_prop; try done; lia.
Qed.

Lemma length_block sec n : (forall x, length (sec x) = 512%nat) -> length (block sec n) = Z.to_nat BSIZE.
Proof. intros H. rewrite block_eq, length_app, !H. done. Qed.

Lemma write_sectors_length sec n d x : length d = Z.to_nat BSIZE -> (forall x, length (sec x) = 512%nat) ->
  length (write_sectors sec (n * (BSIZE / 512)) 2 d x) = 512%nat.
Proof.
  intros Hd Hs. unfold write_sectors. destruct ((_ <=? x) && (x <? _)) eqn:E; [|apply Hs].
  apply andb_true_iff in E as [E1 E2]. rewrite Z.leb_le in E1. rewrite Z.ltb_lt in E2.
  rewrite length_take, length_drop, Hd. change (Z.to_nat BSIZE) with 1024%nat. lia.
Qed.

(** ** Descriptors *)

Lemma free_count_le f (l : list Z) : (forall d, 0 <= d < NUM -> f d = true -> d ∈ l) -> (free_count f <= length l)%nat.
Proof.
  intros H. apply submseteq_length, NoDup_submseteq; [apply NoDup_filter, NoDup_seqZ|].
  intros d [Hd Hr]%list_elem_of_filter. apply H; [|done]. apply elem_of_seqZ in Hr. lia.
Qed.

Lemma free_count_ext f g : (forall d, f d = g d) -> free_count f = free_count g.
Proof. intros H. unfold free_count. f_equal. apply list_filter_iff. intros d. by rewrite H. Qed.

Lemma free_count_mono f g : (forall d, f d = true -> g d = true) -> (free_count f <= free_count g)%nat.
Proof.
  intros H. apply free_count_le. intros d Hd Hf. apply list_elem_of_filter. split; [by apply H|]. apply elem_of_seqZ. lia.
Qed.

Lemma free_desc_eq i s : i < NUM -> v_free s i = false ->
  free_desc i s = Ret tt (set_thr (fun t => wake_desc (v_thr s t)) (set_free (upd (v_free s) i true) (set_desc (upd (v_desc s) i desc0) s))).
Proof. intros Hi Hf. unfold free_desc. mstep. rewrite (proj2 (Z.leb_gt _ _) Hi), Hf. done. Qed.

(** [s'] is [s] with the free descriptors [idx] taken out; besides, only
    free descriptors and the sleep of processes that wait for descriptors may
    differ. *)
Record lent (s : vdisk) (idx : list Z) (s' : vdisk) : Prop := {
  le_state : exists f d p, s' = set_thr p (set_free f (set_desc d s));
  le_free : forall d, v_free s' d = if decide (d ∈ idx) then false else v_free s d;
  le_desc : forall d, v_free s d = false -> v_desc s' d = v_desc s d;
  le_thr : forall t, v_thr s' t = v_thr s t \/ v_thr s' t = wake_desc (v_thr s t)
}.

Lemma lent_refl s : lent s [] s.
Proof. split; [|done..|by left]. exists (v_free s), (v_desc s), (v_thr s). by destruct s. Qed.

Lemma lent_take s idx s' i : lent s idx s' -> lent s (idx ++ [i]) (set_free (upd (v_free s') i false) s').
Proof.
  intros [(f & d & p & E) H2 H3 H4]. subst s'. split; cbn in *; [by eexists _, _, _| |done|done].
  intros x. unfold upd. destruct (Z.eqb_spec x i) as [Ex|Ex].
  - subst x. rewrite decide_True; [done|]. apply elem_of_app. right. by apply list_elem_of_singleton.
  - rewrite H2. apply decide_ext. rewrite elem_of_app, list_elem_of_singleton. naive_solver.
Qed.

Lemma alloc_desc_eq s : alloc_desc s =
  match scan (v_free s) NUM with Some i => Ret i (set_free (upd (v_free s) i false) s) | None => Ret (-1) s end.
Proof. unfold alloc_desc. mstep. by destruct (scan _ _). Qed.

(** A failed allocation gives everything back. *)
Lemma free_all_eq s idx : forall s1, lent s idx s1 -> NoDup idx -> (forall d, d ∈ idx -> 0 <= d < NUM /\ v_free s d = true) ->
  exists s2, free_all idx s1 = Ret tt s2 /\ lent s [] s2.
Proof.
  induction idx as [|i idx IH]; intros s1 H Hnd Hr; [by exists s1|]. apply NoDup_cons in Hnd as [Hni Hnd].
  destruct (Hr i ltac:(left)) as [Ri Fi]. destruct H as [(f & d & p & E) H2 H3 H4].
  cbn [free_all]. unfold bind. rewrite free_desc_eq; [|lia|rewrite H2, decide_True; [done|left]].
  apply IH; [|done|intros x Hx; apply Hr; by right]. subst s1. split; cbn in *.
  - by eexists _, _, _.
  - intros x. unfold upd. destruct (Z.eqb_spec x i) as [Ex|Ex].
    + subst x. by rewrite decide_False.
    + rewrite H2. apply decide_ext. rewrite elem_of_cons. naive_solver.
  - intros x Hx. rewrite upd_ne; [by apply H3|]. intros Ex. subst x. congruence.
  - intros t. destruct (H4 t) as [-> | ->]; [by right|]. right. by destruct (v_thr s t).
Qed.

Lemma alloc3_loop_eq k idx s : alloc3_loop (S k) idx s =
  match scan (v_free s) NUM with
  | Some i => alloc3_loop k (idx ++ [i]) (set_free (upd (v_free s) i false) s)
  | None => (free_all idx ;;; ret None) s
  end.
Proof.
  cbn [alloc3_loop]. unfold bind at 1. rewrite alloc_desc_eq. destruct (scan (v_free s) NUM) as [i|] eqn:E; [|done].
  apply scan_Some in E as [Hr _]. by rewrite (proj2 (Z.ltb_ge i 0)) by lia.
Qed.

(** With [k] descriptors wanted and [idx] taken. *)
Lemma alloc_loop_ok s k : forall idx s1, lent s idx s1 -> NoDup idx -> (forall d, d ∈ idx -> 0 <= d < NUM /\ v_free s d = true) ->
  (exists idx' s2, alloc3_loop k idx s1 = Ret (Some (idx ++ idx')) s2 /\ length idx' = k /\ lent s (idx ++ idx') s2 /\
    v_desc s2 = v_desc s1 /\ v_thr s2 = v_thr s1 /\
    NoDup (idx ++ idx') /\ forall d, d ∈ idx ++ idx' -> 0 <= d < NUM /\ v_free s d = true) \/
  (exists s2, alloc3_loop k idx s1 = Ret None s2 /\ lent s [] s2 /\ (free_count (v_free s) < length idx + k)%nat).
Proof.
  induction k as [|k IH]; intros idx s1 H Hnd Hr.
  { left. exists [], s1. by rewrite app_nil_r. }
  rewrite alloc3_loop_eq. destruct (scan (v_free s1) NUM) as [i|] eqn:E.
  - apply scan_Some in E as (Ri & Fi & _). pose proof (le_free _ _ _ H i) as Hf. rewrite Fi in Hf.
    case_decide as Hi; [done|].
    destruct (IH (idx ++ [i]) _ (lent_take s idx s1 i H)) as [(idx' & s2 & E2 & L2 & K2 & D2 & T2 & N2 & R2)|(s2 & E2 & K2 & C2)].
    + apply NoDup_app. split; [done|]. split; [|apply NoDup_singleton]. intros x Hx ->%list_elem_of_singleton. done.
    + intros d [Hd|Hd]%elem_of_app; [by apply Hr|]. apply list_elem_of_singleton in Hd. subst d. done.
    + left. exists (i :: idx'), s2. rewrite <- app_assoc in *. cbn [length app] in *. split_and!; try done. by rewrite L2.
    + right. exists s2. split_and!; [done..|]. rewrite length_app in C2. cbn [length] in C2. lia.
  - right. destruct (free_all_eq s idx s1 H Hnd Hr) as (s2 & E2 & K2). exists s2. unfold bind. rewrite E2.
    split_and!; [done..|]. apply Nat.le_lt_trans with (length idx); [|lia]. apply free_count_le. intros d Hd Hf.
    pose proof (le_free _ _ _ H d) as Hd2. rewrite (scan_None _ _ E d Hd) in Hd2. case_decide; [done|congruence].
Qed.

Lemma alloc3_eq s :
  (exists i0 i1 i2 s2, alloc3_desc s = Ret (Some [i0; i1; i2]) s2 /\ lent s [i0; i1; i2] s2 /\ v_desc s2 = v_desc s /\ v_thr s2 = v_thr s /\
    NoDup [i0; i1; i2] /\ forall d, d ∈ [i0; i1; i2] -> 0 <= d < NUM /\ v_free s d = true) \/
  (exists s2, alloc3_desc s = Ret None s2 /\ lent s [] s2 /\ (free_count (v_free s) < 3)%nat).
Proof.
  destruct (alloc_loop_ok s 3 [] s (lent_refl s)) as [(idx & s2 & E & L & K & D & T & N & R)|H]; [apply NoDup_nil_2|set_solver| |by right].
  left. destruct idx as [|i0 [|i1 [|i2 [|]]]]; try done. by exists i0, i1, i2, s2.
Qed.

(** ** Frames *)

Lemma laid_frame s s' i r : laid_out s i r ->
  (forall d, d ∈ links i r -> v_free s' d = v_free s d /\ v_desc s' d = v_desc s d) ->
  v_ops s' i = v_ops s i -> v_info_b s' i = v_info_b s i -> v_blockno s' (q_b r) = v_blockno s (q_b r) -> laid_out s' i r.
Proof.
  intros [H1 H2 H3 H4 H5 H6 H7] Hd Ho Hi Hb. split; [|done|..].
  - intros d Hl. destruct (H1 d Hl) as [Hr Hf]. by rewrite (proj1 (Hd d Hl)).
  - by rewrite (proj2 (Hd i ltac:(left))).
  - by rewrite (proj2 (Hd (q_j r) ltac:(right; left))).
  - by rewrite (proj2 (Hd (q_k r) ltac:(right; right; left))).
  - by rewrite Ho, Hb.
  - by rewrite Hi.
Qed.

Lemma phase_frame s s' i r : in_phase s i r -> v_bdisk s' (q_b r) = v_bdisk s (q_b r) -> v_status s' i = v_status s i ->
  (synced s (q_b r) -> synced s' (q_b r)) -> in_phase s' i r.
Proof. unfold in_phase. intros H -> -> Hs. destruct (q_ph r); naive_solver. Qed.

(** The place of a process without whether it sleeps for descriptors. *)
Definition place_of (p : proc_at) : proc_at := match p with NeedDesc b w _ => NeedDesc b w true | _ => p end.

Lemma place_io p p' b i w a : place_of p' = place_of p -> p' = NeedIO b i w a <-> p = NeedIO b i w a.
Proof. intros H. split; intros ->; [destruct p|destruct p']; cbn in H; congruence. Qed.

Lemma place_uses p p' b : place_of p' = place_of p -> uses p' b <-> uses p b.
Proof. intros H. destruct p, p'; cbn in *; naive_solver. Qed.

Lemma vinv_lent s s2 p R A U : vinv s R A U -> lent s [] s2 -> (forall t, place_of (p t) = place_of (v_thr s t)) ->
  (forall t b w, p t = NeedDesc b w true -> (free_count (v_free s) < 3)%nat) -> vinv (set_thr p s2) R A U.
Proof.
  intros I [(f & d & p2 & E) HF HD _] Hp Hs. subst s2. cbn in *.
  assert (Hf : forall d, f d = v_free s d) by (intros x; by rewrite HF). destruct I. split; cbn; try done.
  - intros i r Hr. apply (laid_frame s); [eauto|..]; try done. intros x Hx. cbn. split; [apply Hf|]. apply HD.
    by destruct (lo_range _ _ _ (vi_laid0 i r Hr) x Hx).
  - intros i r Hr. destruct (vi_proc0 i r Hr) as (a & Ha & Hd). exists a. split; [|done]. by rewrite place_io by apply Hp.
  - intros x Hx. rewrite Hf. by apply vi_free0.
  - intros t b i w a Ht. rewrite place_io in Ht by apply Hp. by eapply vi_io0.
  - intros t b w Ht. rewrite (free_count_ext f (v_free s)) by apply Hf. by eapply Hs.
  - intros t t' b b' Hu Hu'. rewrite place_uses in Hu, Hu' by apply Hp. by eapply vi_uses0.
  - intros t b Hu. rewrite place_uses in Hu by apply Hp. by eapply vi_buf0.
Qed.

(** A head that is not in use. *)
Lemma heads_upd R p l i r : heads R p l -> R i = None -> q_ph r <> p -> heads (upd R i (Some r)) p l.
Proof.
  intros [H1 H2] Hi Hp. split; [done|]. intros j. rewrite H2. unfold upd. destruct (Z.eqb_spec j i) as [->|]; [|done].
  rewrite Hi. naive_solver.
Qed.

Lemma heads_add R p l i r : heads R p l -> R i = None -> q_ph r = p -> heads (upd R i (Some r)) p (l ++ [i]).
Proof.
  intros [H1 H2] Hi Hp. assert (Hn : i ∉ l) by (rewrite H2, Hi; naive_solver). split.
  - apply NoDup_app. split; [done|]. split; [|apply NoDup_singleton]. intros x Hx ->%list_elem_of_singleton. done.
  - intros j. rewrite elem_of_app, list_elem_of_singleton, H2. unfold upd. destruct (Z.eqb_spec j i) as [->|]; naive_solver.
Qed.

(** A request that moves to another phase. *)
Lemma heads_move R p l i r q : heads R p l -> R i = Some r -> q <> p -> q_ph r <> p -> heads (upd R i (Some (set_ph q r))) p l.
Proof.
  intros [H1 H2] Hi Hp Hq. split; [done|]. intros j. rewrite H2. unfold upd. destruct (Z.eqb_spec j i) as [->|]; [|done].
  rewrite Hi. naive_solver.
Qed.

Lemma heads_enter R p l l' i r : heads R p l -> R i = Some r -> q_ph r <> p -> Permutation l' (i :: l) -> heads (upd R i (Some (set_ph p r))) p l'.
Proof.
  intros [H1 H2] Hi Hq Hl. assert (Hn : i ∉ l) by (rewrite H2, Hi; naive_solver). split.
  - rewrite Hl. by constructor.
  - intros j. rewrite Hl, elem_of_cons, H2. unfold upd. destruct (Z.eqb_spec j i) as [->|]; naive_solver.
Qed.

Lemma heads_leave R p l i r o : heads R p l -> R i = Some r -> (forall x, o = Some x -> q_ph x <> p) -> heads (upd R i o) p (list_difference l [i]).
Proof.
  intros [H1 H2] Hi Hq. split; [by apply NoDup_list_difference|]. intros j.
  rewrite list_elem_of_difference, list_elem_of_singleton, H2. unfold upd. destruct (Z.eqb_spec j i) as [->|]; naive_solver.
Qed.

Lemma heads_leave_first R p l i r o : heads R p (i :: l) -> R i = Some r -> (forall x, o = Some x -> q_ph x <> p) -> heads (upd R i o) p l.
Proof.
  intros [H1 H2] Hi Hq. apply NoDup_cons in H1 as [Hn H1]. split; [done|]. intros j. specialize (H2 j).
  rewrite elem_of_cons in H2. unfold upd. destruct (Z.eqb_spec j i) as [->|]; naive_solver.
Qed.

Lemma heads_drop R p l i r : heads R p l -> R i = Some r -> q_ph r <> p -> heads (upd R i None) p l.
Proof.
  intros [H1 H2] Hi Hq. split; [done|]. intros j. rewrite H2. unfold upd. destruct (Z.eqb_spec j i) as [->|]; [|done].
  rewrite Hi. naive_solver.
Qed.

(** ** The steps of the driver *)

Lemma lent_free_new s s2 idx d : lent s idx s2 -> d ∈ idx -> v_free s2 d = false.
Proof. intros H Hd. rewrite (le_free _ _ _ H). by rewrite decide_True. Qed.

Lemma lent_free_old s s2 idx d : lent s idx s2 -> d ∉ idx -> v_free s2 d = v_free s d.
Proof. intros H Hd. rewrite (le_free _ _ _ H). by rewrite decide_False. Qed.

Lemma head_range s R A U i r : vinv s R A U -> R i = Some r -> 0 <= i < NUM /\ v_free s i = false.
Proof. intros I Hr. apply (lo_range _ _ _ (vi_laid _ _ _ _ I i r Hr)). left. Qed.

Lemma heads_bound s R A U p l : vinv s R A U -> heads R p l -> (length l <= Z.to_nat NUM)%nat.
Proof.
  intros I [H1 H2]. apply bounded_nodup; [done|]. intros i Hi. apply H2 in Hi as (r & Hr & _). by apply (head_range s R A U i r).
Qed.

(** A process that uses buffer [b] and the request of another process. *)
Lemma other_buf s R A U t b i r : vinv s R A U -> uses (v_thr s t) b -> R i = Some r -> q_t r <> t ->
  q_b r <> b /\ v_blockno s (q_b r) <> v_blockno s b.
Proof.
  intros I Hu Hr Ht. destruct (vi_proc _ _ _ _ I i r Hr) as (a & Ha & _).
  assert (Hu' : uses (v_thr s (q_t r)) (q_b r)) by by rewrite Ha.
  assert (Hn : v_blockno s (q_b r) <> v_blockno s b) by (intros E; apply Ht, (vi_uses _ _ _ _ I _ _ _ _ Hu' Hu E)).
  split; [|done]. intros E. by rewrite E in Hn.
Qed.

Lemma uses_upd (th : Z -> proc_at) t p t' b : (forall c, uses p c <-> uses (th t) c) -> uses (upd th t p t') b <-> uses (th t') b.
Proof. intros H. unfold upd. destruct (Z.eqb_spec t' t) as [->|]; [apply H|done]. Qed.

Lemma nodup3 (a b c : Z) : NoDup [a; b; c] -> a <> b /\ a <> c /\ b <> c.
Proof. intros H. rewrite !NoDup_cons, !elem_of_cons in H. naive_solver. Qed.

(** The state after [submit]. *)
Definition submitted (b : Z) (w : bool) (i0 i1 i2 : Z) (s : vdisk) : vdisk :=
  mk_vd (upd (upd (upd (v_desc s) i0 (mk_desc (POps i0) sizeof_virtio_blk_req VRING_DESC_F_NEXT i1))
           i1 (mk_desc (PData b) BSIZE (Z.lor (if w then 0 else VRING_DESC_F_WRITE) VRING_DESC_F_NEXT) i2))
           i2 (mk_desc (PStatus i0) 1 VRING_DESC_F_WRITE 0))
    (u16 (v_avail_idx s + 1)) (upd (v_avail_ring s) (v_avail_idx s mod NUM) i0) (v_used_idx s) (v_used_ring s)
    (v_free s) (v_seen s) (upd (v_info_b s) i0 (Some b)) (upd (v_status s) i0 255)
    (upd (v_ops s) i0 (mk_blk (if w then VIRTIO_BLK_T_OUT else VIRTIO_BLK_T_IN) (u32 (v_blockno s b * (BSIZE / 512)))))
    (upd (v_bdisk s) b 1) (v_blockno s) (v_data s) (v_thr s) (v_last s) (v_taken s) (v_sectors s).

Lemma submit_eq b w i0 i1 i2 s : submit b w i0 i1 i2 s = Ret tt (submitted b w i0 i1 i2 s).
Proof. reflexivity. Qed.

Lemma submitted_new s t b w i0 i1 i2 : NoDup [i0; i1; i2] -> (forall d, d ∈ [i0; i1; i2] -> 0 <= d < NUM /\ v_free s d = false) ->
  laid_out (submitted b w i0 i1 i2 s) i0 (mk_req t b w i1 i2 Queued).
Proof.
  intros Hnd Hr. destruct (nodup3 i0 i1 i2 Hnd) as (D1 & D2 & D3).
  split; unfold submitted; fields; cbn [q_j q_k q_b q_w]; try done.
  - by rewrite !upd_ne, upd_eq by done.
  - by rewrite upd_ne, upd_eq by done.
  - by rewrite upd_eq.
  - by rewrite upd_eq.
  - by rewrite upd_eq.
Qed.

Lemma submitted_old s b w i0 i1 i2 i r : laid_out s i r -> (forall d, d ∈ links i r -> d ∉ [i0; i1; i2]) ->
  laid_out (submitted b w i0 i1 i2 s) i r.
Proof.
  intros Hl Hd. assert (Hn : forall d, d ∈ links i r -> d <> i0 /\ d <> i1 /\ d <> i2).
  { intros d Hx. specialize (Hd d Hx). rewrite !elem_of_cons in Hd. tauto. }
  destruct (Hn i ltac:(left)) as (Hi & _). apply (laid_frame s); [done|..]; unfold submitted; fields; try done.
  - intros d Hx. destruct (Hn d Hx) as (? & ? & ?). by rewrite !upd_ne.
  - by rewrite upd_ne.
  - by rewrite upd_ne.
Qed.

Lemma submit_inv s s2 R A U t b w i0 i1 i2 : vinv s R A U -> v_thr s t = NeedDesc b w false ->
  lent s [i0; i1; i2] s2 -> v_desc s2 = v_desc s -> v_thr s2 = v_thr s -> NoDup [i0; i1; i2] ->
  (forall d, d ∈ [i0; i1; i2] -> 0 <= d < NUM /\ v_free s d = true) ->
  exists s3, (submit b w i0 i1 i2 ;;; wait_io t b i0 w) s2 = Ret tt s3 /\
    v_data s3 = v_data s /\ v_sectors s3 = v_sectors s /\
    vinv s3 (upd R i0 (Some (mk_req t b w i1 i2 Queued))) (A ++ [i0]) U.
Proof.
  intros I Ht L2 HD HT Hnd Hr. unfold bind at 1. rewrite submit_eq. unfold wait_io. mstep. cbn [v_bdisk submitted].
  rewrite upd_eq, Z.eqb_refl. unfold set_at, modify. eexists. split; [reflexivity|].
  destruct L2 as [(f & d & p & E) HF _ _]. subst s2. cbn in HF, HD, HT. subst d p. split; [done|]. split; [done|].
  assert (Hold : forall x, v_free s x = false -> x ∉ [i0; i1; i2]).
  { intros x Hx Hin. destruct (Hr x Hin). congruence. }
  assert (Hnew : forall i r x, R i = Some r -> x ∈ links i r -> x ∉ [i0; i1; i2]).
  { intros i r x Hi Hx. apply Hold. by apply (lo_range _ _ _ (vi_laid _ _ _ _ I i r Hi)). }
  assert (R0 : R i0 = None).
  { destruct (R i0) as [r|] eqn:E; [|done]. exfalso. apply (Hnew i0 r i0 E); left. }
  assert (Hne : forall i r, R i = Some r -> i <> i0 /\ q_t r <> t).
  { intros i r Hi. split; [congruence|]. intros <-. destruct (vi_proc _ _ _ _ I i r Hi) as (a & Ha & _). congruence. }
  assert (Hu : uses (v_thr s t) b) by by rewrite Ht.
  pose proof (fun i r => other_buf s R A U t b i r I Hu) as Hoth.
  destruct (nodup3 i0 i1 i2 Hnd) as (D1 & D2 & D3).
  destruct I as [I1 I2 I3 I4 I5 I6 I7 I8 I9 I10 I11 I12 I13 I14 I15].
  set (s2 := set_thr (v_thr s) (set_free f (set_desc (v_desc s) s))) in *.
  assert (Hf : forall x, x ∉ [i0; i1; i2] -> f x = v_free s x) by (intros x Hx; by rewrite HF, decide_False).
  split; fields.
  - intros i r. unfold upd at 1. destruct (Z.eqb_spec i i0) as [->|]; intros Hi.
    + injection Hi as <-. apply (laid_frame (submitted b w i0 i1 i2 s2)); [|done..]. apply submitted_new; [done|].
      intros d Hd. split; [by apply Hr|]. cbn. by rewrite HF, decide_True.
    + apply (laid_frame (submitted b w i0 i1 i2 s2)); [|done..]. apply submitted_old; [|intros d; by apply Hnew].
      apply (laid_frame s); [by apply I1| |done..]. intros d Hd. split; [|done]. by apply Hf, (Hnew i r).
  - intros i r. unfold upd at 1. destruct (Z.eqb_spec i i0) as [->|Hi0]; intros Hi.
    + injection Hi as <-. cbn. by rewrite upd_eq.
    + destruct (Hne i r Hi). destruct (Hoth i r Hi ltac:(done)). apply (phase_frame s); [by apply I2|..]; cbn; [|by rewrite upd_ne|done].
      by rewrite upd_ne.
  - intros i r. unfold upd at 1. destruct (Z.eqb_spec i i0) as [->|Hi0]; intros Hi.
    + injection Hi as <-. exists true. cbn. by rewrite upd_eq.
    + destruct (Hne i r Hi). rewrite upd_ne by done. by apply I3.
  - intros i i' r r' d. unfold upd. destruct (Z.eqb_spec i i0) as [->|Hi], (Z.eqb_spec i' i0) as [->|Hi']; intros H1 H2 Hd Hd'; [done|..].
    + injection H1 as <-. exfalso. by apply (Hnew i' r' d H2 Hd').
    + injection H2 as <-. exfalso. by apply (Hnew i r d H1 Hd).
    + by apply (I4 i i' r r' d).
  - intros d Hd Hfr. cbn in Hfr. rewrite HF in Hfr. case_decide as Hin.
    + exists i0, (mk_req t b w i1 i2 Queued). by rewrite upd_eq.
    + destruct (I5 d Hd Hfr) as (i & r & Hi & Hl). exists i, r. split; [|done]. rewrite upd_ne; [done|]. by apply (Hne i r).
  - intros t' b' i w' a. unfold upd at 1. destruct (Z.eqb_spec t' t) as [->|]; intros Ht'.
    + injection Ht' as <- <- <- <-. eexists. by rewrite upd_eq.
    + destruct (I6 _ _ _ _ _ Ht') as (r & Hi & Hq). exists r. split; [|done]. rewrite upd_ne; [done|]. by apply (Hne i r).
  - intros t' b' w'. unfold upd. destruct (Z.eqb_spec t' t) as [->|]; intros Ht'; [done|]. cbn in Ht' |- *.
    apply Nat.le_lt_trans with (free_count (v_free s)); [|by eapply I7]. apply free_count_mono. intros d.
    rewrite HF. by case_decide.
  - intros t1 t2 b1 b2 Hu1 Hu2. rewrite uses_upd in Hu1, Hu2 by (intros c; cbn; by rewrite Ht). by apply I8.
  - intros t1 b1 Hu1. rewrite uses_upd in Hu1 by (intros c; cbn; by rewrite Ht). by apply (I9 t1).
  - done.
  - apply ring_put; [done|]. destruct I13 as [HA1 HA2]. apply (bounded_nodup_lt A i0); [done|..].
    + intros i Hi. apply HA2 in Hi as (r & Hi & _). apply (lo_range _ _ _ (I1 i r Hi)). left.
    + apply Hr. left.
    + rewrite HA2, R0. naive_solver.
  - done.
  - by apply heads_add.
  - by apply heads_upd.
  - by apply heads_upd.
Qed.

Lemma elem_of_links x i r : x ∈ links i r <-> x = i \/ x = q_j r \/ x = q_k r.
Proof. unfold links. rewrite !elem_of_cons. pose proof (not_elem_of_nil x). tauto. Qed.

(** The chain of a request is freed, and everyone who waits for descriptors is
    woken. *)
Lemma free_chain_eq s0 s i r : laid_out s0 i r -> v_desc s = v_desc s0 -> v_free s = v_free s0 -> exists f d p,
  free_chain 3 i s = Ret tt (set_thr p (set_free f (set_desc d s))) /\
  (forall x, f x = if decide (x ∈ links i r) then true else v_free s x) /\
  (forall x, x ∉ links i r -> d x = v_desc s x) /\ forall t, p t = wake_desc (v_thr s t).
Proof.
  intros [H1 H2 H3 H4 H5 _ _] ED EF. rewrite <- ED in *. rewrite <- EF in *. destruct (nodup3 _ _ _ H2) as (D1 & D2 & D3).
  destruct (H1 i ltac:(left)) as [Ri Fi], (H1 (q_j r) ltac:(right; left)) as [Rj Fj], (H1 (q_k r) ltac:(right; right; left)) as [Rk Fk].
  cbn [free_chain]. mstep. unfold bind at 1. rewrite free_desc_eq by (done || lia). rewrite H3. cbn [d_flags d_next]. change (Z.land VRING_DESC_F_NEXT VRING_DESC_F_NEXT =? 0) with false.
  cbn [negb]. mstep. unfold bind at 1. rewrite free_desc_eq; fields; [|lia|by rewrite upd_ne].
  rewrite (upd_ne (v_desc s) i (q_j r)) by done. rewrite H4. cbn [d_flags d_next].
  assert ((Z.land (Z.lor (if q_w r then 0 else VRING_DESC_F_WRITE) VRING_DESC_F_NEXT) VRING_DESC_F_NEXT =? 0) = false) as -> by by destruct (q_w r).
  cbn [negb]. mstep. unfold bind at 1. rewrite free_desc_eq; fields; [|lia|by rewrite !upd_ne].
  rewrite !upd_ne by done. rewrite H5. cbn [d_flags d_next]. change (negb (Z.land VRING_DESC_F_WRITE VRING_DESC_F_NEXT =? 0)) with false. cbn [ret].
  eexists _, _, _. split; [reflexivity|]. split_and!.
  - intros x. case_decide as Hx; rewrite elem_of_links in Hx; unfold upd; bool_to_prop; try done; lia.
  - intros x Hx. rewrite elem_of_links in Hx. unfold upd. bool_to_prop; try done; lia.
  - intros t. by destruct (v_thr s t).
Qed.

Lemma finish_inv s R A U t b i w : vinv s R A U -> v_thr s t = NeedIO b i w false -> v_bdisk s b <> 1 ->
  synced s b /\ exists s', wait_io t b i w s = Ret tt s' /\ v_data s' = v_data s /\ v_sectors s' = v_sectors s /\ v_thr s' t = Idle /\
    vinv s' (upd R i None) A U.
Proof.
  intros I Ht Hb. destruct (vi_io _ _ _ _ I _ _ _ _ _ Ht) as (r & Hi & Hq).
  destruct (vi_proc _ _ _ _ I i r Hi) as (a & Ha & _). rewrite Hq, Ht in Ha. injection Ha as Eb Ew Ea.
  assert (Hp : q_ph r = Done /\ synced s b).
  { pose proof (vi_phase _ _ _ _ I i r Hi) as Hph. unfold in_phase in Hph. rewrite <- Eb in Hph. destruct (q_ph r); naive_solver. }
  destruct Hp as [Hp Hs]. split; [done|]. unfold wait_io. mstep. rewrite (proj2 (Z.eqb_neq _ _) Hb). mstep.
  assert (Hl : laid_out s i r) by by apply I.
  set (s1 := set_info_b _ s). destruct (free_chain_eq s s1 i r Hl eq_refl eq_refl) as (f & d & p & E & HF & HD & HT).
  unfold bind at 1. rewrite E.
  unfold set_at, modify. eexists. split; [reflexivity|]. split; [done|]. split; [done|]. fields. rewrite upd_eq. split; [done|].
  assert (Hap : forall i' r' x, i' <> i -> R i' = Some r' -> x ∈ links i' r' -> x ∉ links i r).
  { intros i' r' x Hn Hi' Hx Hx'. by apply Hn, (vi_apart _ _ _ _ I i' i r' r x). }
  assert (Hth : forall t', t' <> t -> place_of (p t') = place_of (v_thr s t')) by (intros t' _; rewrite HT; by destruct (v_thr s1 t') eqn:Q; cbn in Q |- *; rewrite Q).
  assert (Hoth : forall i' r', i' <> i -> R i' = Some r' -> q_t r' <> t).
  { intros i' r' Hn Hi' E'. destruct (vi_proc _ _ _ _ I i' r' Hi') as (a' & Ha' & _). rewrite E', Ht in Ha'. congruence. }
  destruct I as [I1 I2 I3 I4 I5 I6 I7 I8 I9 I10 I11 I12 I13 I14 I15].
  assert (Hu : forall t' c, uses (upd p t Idle t') c -> t' <> t /\ uses (v_thr s t') c).
  { intros t' c. unfold upd. destruct (Z.eqb_spec t' t) as [->|]; intros Hc; [done|]. split; [done|]. by rewrite <- place_uses; [|by apply Hth]. }
  split; fields.
  - intros i' r'. unfold upd at 1. destruct (Z.eqb_spec i' i) as [->|]; intros Hi'; [done|]. apply (laid_frame s); [by apply I1|..]; fields; [|done| |done].
    + intros x Hx. pose proof (Hap i' r' x ltac:(done) Hi' Hx). rewrite HF, decide_False, HD by done. done.
    + cbn. by rewrite upd_ne.
  - intros i' r'. unfold upd at 1. destruct (Z.eqb_spec i' i) as [->|]; intros Hi'; [done|]. by apply (phase_frame s); [by apply I2|..].
  - intros i' r'. unfold upd at 1. destruct (Z.eqb_spec i' i) as [->|]; intros Hi'; [done|]. destruct (I3 i' r' Hi') as (a' & Ha' & Hd').
    exists a'. rewrite upd_ne by by apply (Hoth i'). split; [|done]. rewrite HT. cbn. by rewrite Ha'.
  - intros i1 i2 r1 r2 x. unfold upd. destruct (Z.eqb_spec i1 i), (Z.eqb_spec i2 i); try done. apply I4.
  - intros x Hx Hf. rewrite HF in Hf. case_decide as Hin; [done|]. destruct (I5 x Hx Hf) as (i' & r' & Hi' & Hl'). exists i', r'.
    split; [|done]. rewrite upd_ne; [done|]. intros ->. congruence.
  - intros t' b' i' w' a'. unfold upd at 1. destruct (Z.eqb_spec t' t) as [->|]; intros Ht'; [done|]. rewrite HT in Ht'. cbn in Ht'.
    assert (Ht'' : v_thr s t' = NeedIO b' i' w' a') by by destruct (v_thr s t').
    destruct (I6 _ _ _ _ _ Ht'') as (r' & Hi' & Hq'). exists r'. split; [|done]. rewrite upd_ne; [done|]. intros ->. congruence.
  - intros t' b' w'. unfold upd. destruct (Z.eqb_spec t' t) as [->|]; intros Ht'; [done|]. rewrite HT in Ht'. cbn in Ht'. by destruct (v_thr s t').
  - intros t1 t2 b1 b2 [_ Hu1]%Hu [_ Hu2]%Hu. by apply I8.
  - intros t1 b1 [_ Hu1]%Hu. by apply (I9 t1).
  - done.
  - done.
  - done.
  - by apply (heads_drop R _ A i r); [|done|rewrite Hp].
  - by apply (heads_drop R _ _ i r); [|done|rewrite Hp].
  - by apply (heads_drop R _ U i r); [|done|rewrite Hp].
Qed.

(** A change of the sleep of a process that waits for its request, and of
    fields of its own request. *)
Lemma resleep_inv s R A U t b i w : vinv s R A U -> v_thr s t = NeedIO b i w false -> v_bdisk s b = 1 ->
  vinv (set_thr (upd (v_thr s) t (NeedIO b i w true)) s) R A U.
Proof.
  intros I Ht Hb. destruct (vi_io _ _ _ _ I _ _ _ _ _ Ht) as (r & Hi & Hq).
  destruct I as [I1 I2 I3 I4 I5 I6 I7 I8 I9 I10 I11 I12 I13 I14 I15]. split; fields; try done.
  - intros i' r' Hi'. by apply (laid_frame s); [by apply I1|..].
  - intros i' r' Hi'. destruct (I3 i' r' Hi') as (a & Ha & Hd). unfold upd. destruct (Z.eqb_spec (q_t r') t) as [E|]; [|by exists a].
    rewrite E, Ht in Ha. injection Ha as E1 E2 E3 E4. subst b i w a. exists true. split; [done|]. intros Hp.
    pose proof (I2 i' r' Hi') as Hph. unfold in_phase in Hph. rewrite Hp in Hph. by destruct Hph.
  - intros t' b' i' w' a'. unfold upd. destruct (Z.eqb_spec t' t) as [->|]; intros Ht'; [|by eapply I6]. injection Ht' as <- <- <- <-. by exists r.
  - intros t' b' w'. unfold upd. destruct (Z.eqb_spec t' t) as [->|]; intros Ht'; [done|by eapply I7].
  - intros t1 t2 b1 b2 Hu1 Hu2. rewrite uses_upd in Hu1, Hu2 by (intros c; by rewrite Ht). by apply I8.
  - intros t1 b1 Hu1. rewrite uses_upd in Hu1 by (intros c; by rewrite Ht). by apply (I9 t1).
Qed.

(** Every turn of a process returns. *)
Lemma turn_ok s R A U t : vinv s R A U -> exists s' R' A', virtio_disk_rw t s = Ret tt s' /\
  v_data s' = v_data s /\ v_sectors s' = v_sectors s /\ vinv s' R' A' U.
Proof.
  intros I. unfold virtio_disk_rw. mstep. destruct (v_thr s t) as [|b w [|]|b i w [|]] eqn:Ht; try (by exists s, R, A).
  - unfold bind at 1. destruct (alloc3_eq s) as [(i0 & i1 & i2 & s2 & E & L2 & HD & HT & N & Hr)|(s2 & E & L2 & Hc)]; rewrite E.
    + destruct (submit_inv s s2 R A U t b w i0 i1 i2) as (s3 & E3 & H1 & H2 & H3); try done. by eexists s3, _, _.
    + eexists _, R, A. split; [reflexivity|]. pose proof L2 as L2'. destruct L2' as [(f & d & p & ->) _ _ HT]. split_and!; [done..|].
      apply (vinv_lent s); [done|done|..].
      * intros t'. unfold upd. destruct (Z.eqb_spec t' t) as [->|]; [by rewrite Ht|]. cbn in HT |- *. destruct (HT t') as [-> | ->]; [done|]. by destruct (v_thr s t').
      * done.
  - destruct (Z.eq_dec (v_bdisk s b) 1) as [Hb|Hb].
    + exists (set_thr (upd (v_thr s) t (NeedIO b i w true)) s), R, A. split_and!; try done.
      * unfold wait_io. mstep. by rewrite Hb.
      * by apply resleep_inv.
    + destruct (finish_inv s R A U t b i w I Ht Hb) as (_ & s' & E & H1 & H2 & _ & H4). by exists s', (upd R i None), A.
Qed.

(** ** The interrupt handler *)

(** The state after one turn of its loop. *)
Definition seen (b : Z) (s : vdisk) : vdisk :=
  set_seen (u16 (v_seen s + 1)) (set_thr (fun t => wake_buf b (v_thr s t)) (set_bdisk (upd (v_bdisk s) b 0) s)).

Lemma intr_loop_eq fuel s : intr_loop (S fuel) s =
  if v_seen s =? v_used_idx s then Ret tt s
  else if negb (v_status s (v_used_ring s (v_seen s mod NUM)) =? 0) then Panic "virtio_disk_intr status" s
  else match v_info_b s (v_used_ring s (v_seen s mod NUM)) with
  | None => Undef "null buffer" s
  | Some b => intr_loop fuel (seen b s)
  end.
Proof.
  cbn [intr_loop]. mstep. destruct (v_seen s =? v_used_idx s); [done|]. destruct (negb _); [done|]. by destruct (v_info_b s _).
Qed.

Lemma wake_buf_io c p b i w a : wake_buf c p = NeedIO b i w a -> exists a', p = NeedIO b i w a'.
Proof. destruct p as [| |b' i' w' a']; cbn; try done. destruct (b' =? c); intros [= <- <- <- <-]; eauto. Qed.

Lemma wake_buf_uses c p b : uses (wake_buf c p) b <-> uses p b.
Proof. destruct p as [| |b' i' w' a']; cbn; try done. by destruct (b' =? c). Qed.

Lemma seen_inv s R A U i r : vinv s R A (i :: U) -> R i = Some r -> v_status s i = 0 ->
  vinv (seen (q_b r) s) (upd R i (Some (set_ph Done r))) A U.
Proof.
  intros I Hi Hs. destruct (ring_pop _ _ _ _ _ (vi_used _ _ _ _ I)) as (_ & _ & Hring).
  assert (Hp : q_ph r = Reported).
  { destruct (vi_reported _ _ _ _ I) as [_ H]. destruct (proj1 (H i) ltac:(left)) as (r' & Hr' & Hph). congruence. }
  assert (Hu : uses (v_thr s (q_t r)) (q_b r)) by (destruct (vi_proc _ _ _ _ I i r Hi) as (a & Ha & _); by rewrite Ha).
  assert (Hoth : forall i' r', R i' = Some r' -> i' <> i -> q_b r' <> q_b r).
  { intros i' r' Hi' Hn. apply (other_buf s R A (i :: U) (q_t r) (q_b r) i' r'); try done. intros E.
    destruct (vi_proc _ _ _ _ I i r Hi) as (a & Ha & _), (vi_proc _ _ _ _ I i' r' Hi') as (a' & Ha' & _). rewrite E in Ha'. congruence. }
  assert (HR : forall i' r', upd R i (Some (set_ph Done r)) i' = Some r' -> i' = i /\ r' = set_ph Done r \/ i' <> i /\ R i' = Some r').
  { intros i' r'. unfold upd. destruct (Z.eqb_spec i' i); naive_solver. }
  pose proof (vi_phase _ _ _ _ I i r Hi) as Hph. unfold in_phase in Hph. rewrite Hp in Hph. destruct Hph as [Hb Hsy].
  assert (Hlinks : forall i' r', upd R i (Some (set_ph Done r)) i' = Some r' -> exists r'', R i' = Some r'' /\ links i' r' = links i' r'').
  { intros i' r' [[-> ->]|[_ H]]%HR; eauto. }
  destruct I as [I1 I2 I3 I4 I5 I6 I7 I8 I9 I10 I11 I12 I13 I14 I15]. unfold seen. split; fields; try done.
  - intros i' r' [[-> ->]|[Hn Hi']]%HR; [|by apply (laid_frame s); [by apply I1|..]]. by destruct (I1 i r Hi).
  - intros i' r' [[-> ->]|[Hn Hi']]%HR.
    + unfold in_phase. cbn. rewrite upd_eq. split; [done|by apply Hsy].
    + apply (phase_frame s); [by apply I2|..]; fields; [|done..]. rewrite upd_ne by by apply (Hoth i'). done.
  - intros i' r' [[-> ->]|[Hn Hi']]%HR.
    + destruct (I3 i r Hi) as (a & Ha & _). exists false. cbn. rewrite Ha. cbn. by rewrite Z.eqb_refl.
    + destruct (I3 i' r' Hi') as (a & Ha & Hd). exists a. split; [|done]. rewrite Ha. cbn. rewrite (proj2 (Z.eqb_neq _ _)); [done|]. by apply (Hoth i').
  - intros i1 i2 r1 r2 x (r1' & H1 & ->)%Hlinks (r2' & H2 & ->)%Hlinks. by apply (I4 i1 i2 r1' r2').
  - intros x Hx Hf. destruct (I5 x Hx Hf) as (i' & r' & Hi' & Hl). destruct (Z.eq_dec i' i) as [->|Hn].
    + exists i, (set_ph Done r). rewrite upd_eq. rewrite Hi in Hi'. by injection Hi' as <-.
    + exists i', r'. by rewrite upd_ne.
  - intros t' b' i' w' a' (a & Ha)%wake_buf_io. destruct (I6 _ _ _ _ _ Ha) as (r' & Hi' & Hq). destruct (Z.eq_dec i' i) as [->|Hn].
    + exists (set_ph Done r). rewrite upd_eq. rewrite Hi in Hi'. by injection Hi' as <-.
    + exists r'. by rewrite upd_ne.
  - intros t' b' w' H. apply (I7 t' b' w'). destruct (v_thr s t') as [| |b1 ? ? ?]; cbn in H; try done. by destruct (b1 =? q_b r).
  - intros t1 t2 b1 b2 Hu1 Hu2. rewrite wake_buf_uses in Hu1, Hu2. by apply I8.
  - intros t1 b1 Hu1. rewrite wake_buf_uses in Hu1. by apply (I9 t1).
  - by apply heads_move; [..|rewrite Hp].
  - by apply heads_move; [..|rewrite Hp].
  - apply (heads_leave_first R Reported U i r); [done|done|]. by intros x [= <-].
Qed.

(** The handler takes every entry of the used ring, and stops only at a request
    that the device has failed. *)
Lemma intr_loop_ok A U : forall fuel s R, vinv s R A U -> (length U <= fuel)%nat ->
  (exists s' R', intr_loop fuel s = Ret tt s' /\ v_data s' = v_data s /\ v_sectors s' = v_sectors s /\ v_blockno s' = v_blockno s /\
     vinv s' R' A [] /\ forall i, i ∈ U -> v_status s i = 0) \/
  (exists s' i, intr_loop fuel s = Panic "virtio_disk_intr status" s' /\ i ∈ U /\ v_status s i <> 0).
Proof.
  induction U as [|i U IH]; intros fuel s R I Hf.
  { left. exists s, R. destruct (ring_empty _ _ _ _ (vi_used _ _ _ _ I)) as [_ E]; [cbn; lia|].
    split_and!; try done; [|by intros i Hi%elem_of_nil]. destruct fuel; cbn [intr_loop]; mstep; by rewrite (E eq_refl), Z.eqb_refl. }
  destruct fuel as [|fuel]; [cbn in Hf; lia|]. rewrite intr_loop_eq.
  pose proof (heads_bound _ _ _ _ _ _ I (vi_reported _ _ _ _ I)) as Hlen.
  destruct (ring_empty _ _ _ _ (vi_used _ _ _ _ I) Hlen) as [E _]. destruct (Z.eqb_spec (v_seen s) (v_used_idx s)) as [Eq|_]; [by specialize (E Eq)|].
  destruct (ring_pop _ _ _ _ _ (vi_used _ _ _ _ I)) as (_ & -> & _).
  destruct (Z.eqb_spec (v_status s i) 0) as [Hs|Hs]; cbn [negb].
  2:{ right. exists s, i. split_and!; [done|left|done]. }
  destruct (proj1 (proj2 (vi_reported _ _ _ _ I) i) ltac:(left)) as (r & Hi & Hp). rewrite (lo_info _ _ _ (vi_laid _ _ _ _ I i r Hi)).
  destruct (IH fuel _ _ (seen_inv s R A U i r I Hi Hs)) as [(s' & R' & E1 & E2 & E3 & E4 & E5 & E6)|(s' & j & E1 & E2 & E3)]; [cbn in Hf; lia|..].
  - left. exists s', R'. split_and!; try done. intros j [->|Hj]%elem_of_cons; [done|]. by apply E6.
  - right. exists s', j. split_and!; [done|by right|done].
Qed.

Lemma intr_ok s R A U : vinv s R A U ->
  (exists s' R', virtio_disk_intr s = Ret tt s' /\ v_data s' = v_data s /\ v_sectors s' = v_sectors s /\ v_blockno s' = v_blockno s /\
     vinv s' R' A [] /\ forall i, i ∈ U -> v_status s i = 0) \/
  (exists s' i, virtio_disk_intr s = Panic "virtio_disk_intr status" s' /\ i ∈ U /\ v_status s i <> 0).
Proof. intros I. apply (intr_loop_ok A U _ s R I), (heads_bound s R A U Reported U I), I. Qed.

(** ** The device *)

(** What a step of the device changes: at most one block of the disk, for a write
    in progress, or one buffer, for a read in progress. *)
Definition moves (s s' : vdisk) (R : Z -> option req) : Prop :=
  v_blockno s' = v_blockno s /\
  (v_data s' = v_data s \/ exists i r, R i = Some r /\ q_w r = false /\ q_ph r = Taken /\ forall b, b <> q_b r -> v_data s' b = v_data s b) /\
  (v_sectors s' = v_sectors s \/ exists i r, R i = Some r /\ q_w r = true /\ q_ph r = Taken /\
     forall n, n <> v_blockno s (q_b r) -> block (v_sectors s') n = block (v_sectors s) n).

(** One request moves to phase [p]; the driver's own fields stay. *)
Lemma rephase s s' R A U A' U' i r p : vinv s R A U -> R i = Some r -> p <> Done ->
  v_desc s' = v_desc s -> v_free s' = v_free s -> v_info_b s' = v_info_b s -> v_ops s' = v_ops s -> v_thr s' = v_thr s ->
  v_blockno s' = v_blockno s ->
  in_phase s' i (set_ph p r) -> (forall i' r', i' <> i -> R i' = Some r' -> in_phase s' i' r') ->
  (forall b, length (v_data s b) = Z.to_nat BSIZE -> length (v_data s' b) = Z.to_nat BSIZE) ->
  (forall x, length (v_sectors s' x) = 512%nat) ->
  ring_holds (v_avail_ring s') (v_last s') (v_avail_idx s') A' -> ring_holds (v_used_ring s') (v_seen s') (v_used_idx s') U' ->
  (let R' := upd R i (Some (set_ph p r)) in heads R' Queued A' /\ heads R' Taken (v_taken s') /\ heads R' Reported U') ->
  vinv s' (upd R i (Some (set_ph p r))) A' U'.
Proof.
  intros [I1 I2 I3 I4 I5 I6 I7 I8 I9 _ _ _ _ _ _] Hi Hp ED EF EI EO ET EB Hph Hoth Hlen Hsec HA HU (Q1 & Q2 & Q3).
  assert (HR : forall i' r', upd R i (Some (set_ph p r)) i' = Some r' -> i' = i /\ r' = set_ph p r \/ i' <> i /\ R i' = Some r').
  { intros i' r'. unfold upd. destruct (Z.eqb_spec i' i); naive_solver. }
  assert (HR' : forall i' r', R i' = Some r' -> exists r'', upd R i (Some (set_ph p r)) i' = Some r'' /\ q_t r'' = q_t r' /\ links i' r'' = links i' r').
  { intros i' r' Hr'. unfold upd. destruct (Z.eqb_spec i' i) as [->|]; [|by exists r']. rewrite Hi in Hr'. injection Hr' as <-. by eexists. }
  assert (Hlinks : forall i' r', upd R i (Some (set_ph p r)) i' = Some r' -> exists r'', R i' = Some r'' /\ links i' r' = links i' r'').
  { intros i' r' [[-> ->]|[_ H]]%HR; eauto. }
  split; rewrite ?ET, ?EF, ?EB; try done.
  - intros i' r' [[-> ->]|[Hn Hi']]%HR.
    + apply (laid_frame s); [by destruct (I1 i r Hi)|..]; rewrite ?ED, ?EF, ?EI, ?EO, ?EB; done.
    + apply (laid_frame s); [by apply I1|..]; rewrite ?ED, ?EF, ?EI, ?EO, ?EB; done.
  - intros i' r' [[-> ->]|[Hn Hi']]%HR; [done|by apply Hoth].
  - intros i' r' [[-> ->]|[Hn Hi']]%HR; [|by apply I3]. destruct (I3 i r Hi) as (a & Ha & _). by exists a.
  - intros i1 i2 r1 r2 x (r1' & H1 & ->)%Hlinks (r2' & H2 & ->)%Hlinks. by apply (I4 i1 i2 r1' r2').
  - intros x Hx Hf. destruct (I5 x Hx Hf) as (i' & r' & (r'' & E1 & _ & E2)%HR' & Hl). exists i', r''. by rewrite E2.
  - intros t b i' w a Ht. destruct (I6 _ _ _ _ _ Ht) as (r' & (r'' & E1 & E2 & _)%HR' & Hq). exists r''. by rewrite E2.
  - intros t b Hu. destruct (I9 t b Hu) as [H1 H2]. split; [done|]. by apply Hlen.
Qed.

Lemma take_inv s R A U : vinv s R A U -> v_last s <> v_avail_idx s -> exists i r A', A = i :: A' /\ R i = Some r /\
  vinv (set_device (u16 (v_last s + 1)) (v_avail_ring s (v_last s mod NUM) :: v_taken s) (v_sectors s) s) (upd R i (Some (set_ph Taken r))) A' U.
Proof.
  intros I Hne. destruct A as [|i A].
  { destruct Hne. apply (ring_empty _ _ _ _ (vi_avail _ _ _ _ I)); [cbn; lia|done]. }
  destruct (ring_pop _ _ _ _ _ (vi_avail _ _ _ _ I)) as (_ & -> & Hring).
  destruct (proj1 (proj2 (vi_queued _ _ _ _ I) i) ltac:(left)) as (r & Hi & Hp). exists i, r, A. split; [done|]. split; [done|].
  apply (rephase s _ R (i :: A) U); try done.
  - pose proof (vi_phase _ _ _ _ I i r Hi) as H. unfold in_phase in *. by rewrite Hp in H.
  - intros i' r' _ Hi'. by apply (phase_frame s); [by apply (vi_phase _ _ _ _ I)|..].
  - apply I.
  - apply I.
  - split_and!.
    + apply (heads_leave_first R Queued A i r); [apply I|done|]. by intros x [= <-].
    + eapply heads_enter; [apply I|done|by rewrite Hp|done].
    + apply heads_move; [apply I|done|done|by rewrite Hp].
Qed.

(** The device finishes request [i]. *)
Lemma report_inv s s1 R A U i r : vinv s R A U -> R i = Some r -> q_ph r = Taken ->
  v_desc s1 = v_desc s -> v_free s1 = v_free s -> v_info_b s1 = v_info_b s -> v_ops s1 = v_ops s -> v_thr s1 = v_thr s ->
  v_blockno s1 = v_blockno s -> v_bdisk s1 = v_bdisk s -> v_taken s1 = v_taken s -> v_last s1 = v_last s -> v_seen s1 = v_seen s ->
  v_avail_ring s1 = v_avail_ring s -> v_avail_idx s1 = v_avail_idx s -> v_used_ring s1 = v_used_ring s -> v_used_idx s1 = v_used_idx s ->
  (forall j, j <> i -> v_status s1 j = v_status s j) -> (v_status s1 i = 0 -> synced s1 (q_b r)) ->
  (forall i' r', i' <> i -> R i' = Some r' -> synced s (q_b r') -> synced s1 (q_b r')) ->
  (forall b, length (v_data s b) = Z.to_nat BSIZE -> length (v_data s1 b) = Z.to_nat BSIZE) ->
  (forall x, length (v_sectors s1 x) = 512%nat) ->
  vinv (report i s1) (upd R i (Some (set_ph Reported r))) A (U ++ [i]).
Proof.
  intros I Hi Hp ED EF EI EO ET EB EBD ETK EL ES EAR EAI EUR EUI Hst Hsy Hsy' Hlen Hsec.
  pose proof (vi_phase _ _ _ _ I i r Hi) as Hph. unfold in_phase in Hph. rewrite Hp in Hph.
  destruct (head_range s R A U i r I Hi) as [Hir _].
  assert (HnU : i ∉ U) by (intros (r' & Hr' & Hp')%(proj2 (vi_reported _ _ _ _ I)); congruence).
  apply (rephase s _ R A U); try done; unfold report; fields.
  - unfold in_phase. cbn [q_ph set_ph]. fields. rewrite EBD. done.
  - intros i' r' Hn Hi'. apply (phase_frame s); [by apply (vi_phase _ _ _ _ I)|..]; fields; [by rewrite EBD|by apply Hst|by apply (Hsy' i')].
  - rewrite EL, EAR, EAI. apply I.
  - rewrite ES, EUR, EUI. apply ring_put; [apply I|]. apply (bounded_nodup_lt U i); [apply I| |done|done].
    intros j (r' & Hr' & _)%(proj2 (vi_reported _ _ _ _ I)). by apply (head_range s R A U j r').
  - rewrite ETK. split_and!.
    + apply heads_move; [apply I|done|done|by rewrite Hp].
    + apply (heads_leave R Taken _ i r); [apply I|done|]. by intros x [= <-].
    + eapply heads_enter; [apply I|done|by rewrite Hp|]. by rewrite Permutation_app_comm.
Qed.

Lemma sector_of n : 0 <= n < 2 ^ 31 -> u32 (n * (BSIZE / 512)) = n * (BSIZE / 512).
Proof. intros H. change (BSIZE / 512) with 2. apply u32_small. lia. Qed.

(** What the device finds when it follows the chain of request [i]. *)
Lemma follow s R A U i : vinv s R A U -> i ∈ v_taken s -> exists r, R i = Some r /\ q_ph r = Taken /\ laid_out s i r /\
  0 <= v_blockno s (q_b r) < 2 ^ 31 /\ length (v_data s (q_b r)) = Z.to_nat BSIZE /\
  forall i' r', i' <> i -> R i' = Some r' -> q_b r' <> q_b r /\ v_blockno s (q_b r') <> v_blockno s (q_b r).
Proof.
  intros I (r & Hi & Hp)%(proj2 (vi_taken _ _ _ _ I)). exists r. split; [done|]. split; [done|]. split; [by apply I|].
  destruct (vi_proc _ _ _ _ I i r Hi) as (a & Ha & _). assert (Hu : uses (v_thr s (q_t r)) (q_b r)) by by rewrite Ha.
  destruct (vi_buf _ _ _ _ I _ _ Hu) as [Hb Hd]. split; [done|]. split; [done|]. intros i' r' Hn Hi'.
  apply (other_buf s R A U (q_t r) (q_b r) i' r'); try done. intros E.
  destruct (vi_proc _ _ _ _ I i' r' Hi') as (a' & Ha' & _). rewrite E in Ha'. congruence.
Qed.

Lemma device_inv s s' R A U : vinv s R A U -> device s s' -> moves s s' R /\ exists R' A' U', vinv s' R' A' U'.
Proof.
  intros I H. destruct H as [s Hne|s i i1 i2 o b p n sector Ht D0 D1 D2 Ho|s i i1 i2 o b p n sector Ht D0 D1 D2 Ho|s i i1 i2 p v Ht Hv D0 D1 D2].
  - split; [by split_and!; [|left|left]|]. destruct (take_inv s R A U I Hne) as (i & r & A' & _ & _ & I'). eauto.
  - destruct (follow s R A U i I Ht) as (r & Hi & Hp & [_ _ L0 L1 L2 L3 _] & Hb & Hd & Hoth).
    rewrite D0 in L0. injection L0 as -> ->. rewrite D1 in L1. injection L1 as -> -> L1 ->. rewrite D2 in L2. injection L2 as ->.
    rewrite Ho in L3. injection L3 as L3 ->. rewrite sector_of by done. assert (Hw : q_w r = false) by by destruct (q_w r). split.
    + split; [done|]. split; [right|by left]. exists i, r. split_and!; [done..|]. intros c Hc. cbn. by rewrite upd_ne.
    + eexists _, A, (U ++ [i]). apply (report_inv s _ R A U i r); try done; fields.
      * intros j Hj. by rewrite upd_ne.
      * intros _. unfold synced. fields. by rewrite upd_eq.
      * intros i' r' Hn Hi' Hs. unfold synced in *. fields. rewrite upd_ne by by apply (Hoth i'). done.
      * intros c Hc. unfold upd. destruct (Z.eqb_spec c (q_b r)); [|done]. change (Z.to_nat (BSIZE / 512)) with 2%nat. apply length_block, I.
      * apply I.
  - destruct (follow s R A U i I Ht) as (r & Hi & Hp & [_ _ L0 L1 L2 L3 _] & Hb & Hd & Hoth).
    rewrite D0 in L0. injection L0 as -> ->. rewrite D1 in L1. injection L1 as -> -> L1 ->. rewrite D2 in L2. injection L2 as ->.
    rewrite Ho in L3. injection L3 as L3 ->. rewrite sector_of by done. assert (Hw : q_w r = true) by by destruct (q_w r).
    change (Z.to_nat (BSIZE / 512)) with 2%nat. split.
    + split; [done|]. split; [by left|right]. exists i, r. split_and!; [done..|]. intros n Hn. cbn [v_sectors report set_device set_status set_used].
      by apply block_write_ne.
    + eexists _, A, (U ++ [i]). apply (report_inv s _ R A U i r); try done; fields.
      * intros j Hj. by rewrite upd_ne.
      * intros _. unfold synced. fields. by rewrite block_write_eq.
      * intros i' r' Hn Hi' Hs. unfold synced in *. fields. rewrite block_write_ne; [done|]. apply not_eq_sym. by apply (Hoth i').
      * intros x. apply write_sectors_length; [done|apply I].
  - destruct (follow s R A U i I Ht) as (r & Hi & Hp & [_ _ L0 L1 L2 L3 _] & Hb & Hd & Hoth).
    rewrite L0 in D0. cbn in D0. subst i1. rewrite L1 in D1. cbn in D1. subst i2. rewrite L2 in D2. injection D2 as <-.
    split; [by split_and!; [|left|left]|]. eexists _, A, (U ++ [i]). apply (report_inv s _ R A U i r); try done; fields.
    + intros j Hj. by rewrite upd_ne.
    + by rewrite upd_eq.
    + apply I.
Qed.

(** ** The whole system *)

Lemma call_inv s R A U t b w : vinv s R A U -> v_thr s t = Idle -> 0 <= v_blockno s b < 2 ^ 31 -> length (v_data s b) = Z.to_nat BSIZE ->
  (forall t' c, uses (v_thr s t') c -> v_blockno s c <> v_blockno s b) ->
  vinv (set_thr (upd (v_thr s) t (NeedDesc b w false)) s) R A U.
Proof.
  intros [I1 I2 I3 I4 I5 I6 I7 I8 I9 I10 I11 I12 I13 I14 I15] Ht Hb Hd Hn.
  assert (Hu : forall t' c, uses (upd (v_thr s) t (NeedDesc b w false) t') c -> t' = t /\ c = b \/ t' <> t /\ uses (v_thr s t') c).
  { intros t' c. unfold upd. destruct (Z.eqb_spec t' t); cbn; naive_solver. }
  split; fields; try done.
  - intros i r Hi. by apply (laid_frame s); [by apply I1|..].
  - intros i r Hi. destruct (I3 i r Hi) as (a & Ha & Hp). exists a. rewrite upd_ne; [done|]. intros E. rewrite E in Ha. congruence.
  - intros t' b' i w' a. unfold upd. destruct (Z.eqb_spec t' t); [done|]. apply I6.
  - intros t' b' w'. unfold upd. destruct (Z.eqb_spec t' t); [done|]. apply I7.
  - intros t1 t2 b1 b2 [[-> ->]|[N1 U1]]%Hu [[-> ->]|[N2 U2]]%Hu E; [done|..|by apply (I8 t1 t2 b1 b2)].
    + by destruct (Hn t2 b2 U2).
    + by destruct (Hn t1 b1 U1).
  - intros t' c [[-> ->]|[N1 U1]]%Hu; [done|]. by apply (I9 t').
Qed.

Lemma edit_inv s R A U b d n : vinv s R A U -> (forall t, ~ uses (v_thr s t) b) ->
  vinv (set_blockno (upd (v_blockno s) b n) (set_vdata (upd (v_data s) b d) s)) R A U.
Proof.
  intros [I1 I2 I3 I4 I5 I6 I7 I8 I9 I10 I11 I12 I13 I14 I15] Hn.
  assert (Hne : forall t c, uses (v_thr s t) c -> c <> b) by (intros t c Hc ->; by apply (Hn t)).
  assert (Hr : forall i r, R i = Some r -> q_b r <> b).
  { intros i r Hi. destruct (I3 i r Hi) as (a & Ha & _). apply (Hne (q_t r)). by rewrite Ha. }
  split; fields; try done.
  - intros i r Hi. apply (laid_frame s); [by apply I1|..]; fields; try done. rewrite upd_ne by by apply (Hr i). done.
  - intros i r Hi. apply (phase_frame s); [by apply I2|..]; fields; try done. unfold synced. fields. rewrite !upd_ne by by apply (Hr i). done.
  - intros t1 t2 b1 b2 U1 U2. rewrite !upd_ne by (by eapply Hne). by apply I8.
  - intros t1 b1 U1. rewrite !upd_ne by (by eapply Hne). by apply (I9 t1).
Qed.

Lemma vstep_inv dev s s' : (forall s s', dev s s' -> device s s') -> vstep dev s s' ->
  (exists R A U, vinv s R A U) -> exists R A U, vinv s' R A U.
Proof.
  intros Hdev H (R & A & U & I). destruct H as [s t b w Ht Hb Hd Hn|s b d n Hn|s t s' E|s s' E|s s' H].
  - exists R, A, U. by apply call_inv.
  - exists R, A, U. by apply edit_inv.
  - destruct (turn_ok s R A U t I) as (s2 & R' & A' & E2 & _ & _ & I'). rewrite E in E2. injection E2 as <-. eauto.
  - destruct (intr_ok s R A U I) as [(s2 & R' & E2 & _ & _ & _ & I' & _)|(s2 & i & E2 & _)]; rewrite E in E2; [|done]. injection E2 as <-. eauto.
  - destruct (device_inv s s' R A U I (Hdev _ _ H)) as [_ I']. done.
Qed.

(** The memory at power on, and a device that has not been started. *)
Definition at_rest (s : vdisk) : Prop :=
  (forall t, v_thr s t = Idle) /\ v_seen s = 0 /\ v_last s = 0 /\ v_taken s = [] /\ forall x, length (v_sectors s x) = 512%nat.

Lemma mark_free_ok k : forall i x, exists f, for_loop k i mark_free x = Ret tt (fst x, set_free f (snd x)) /\
  (forall d, i <= d < i + Z.of_nat k -> f d = true) /\ forall d, v_free (snd x) d = true -> f d = true.
Proof.
  induction k as [|k IH]; intros i [ws s].
  { exists (v_free s). split; [by destruct s|]. split; [lia|done]. }
  cbn [for_loop]. unfold mark_free at 1, on_disk. mstep. destruct (IH (i + 1) (ws, set_free (upd (v_free s) i true) s)) as (f & E & H1 & H2).
  exists f. cbn [fst snd] in *. split; [exact E|]. cbn [v_free set_free] in H2. split.
  - intros d Hd. destruct (Z.eq_dec d i) as [->|]; [|apply H1; lia]. apply H2. by rewrite upd_eq.
  - intros d Hd. apply H2. unfold upd. by destruct (d =? i).
Qed.

Lemma mask_off_bit f n k : 0 <= n -> 0 <= k -> Z.testbit (mask_off f n) k = Z.testbit f k && negb (k =? n).
Proof.
  intros Hn Hk. unfold mask_off. rewrite Z.land_spec, Z.lnot_spec, Z.shiftl_1_l, Z.pow2_bits_eqb by done.
  by rewrite Z.eqb_sym.
Qed.

(** The features of the disk that the driver does not want are declined. *)
Definition declined : list Z := [VIRTIO_BLK_F_RO; VIRTIO_BLK_F_SCSI; VIRTIO_BLK_F_CONFIG_WCE; VIRTIO_BLK_F_MQ;
  VIRTIO_F_ANY_LAYOUT; VIRTIO_RING_F_EVENT_IDX; VIRTIO_RING_F_INDIRECT_DESC].

Lemma wanted_bits l f k : Forall (fun n => 0 <= n) l -> 0 <= k ->
  Z.testbit (fold_left mask_off l f) k = Z.testbit f k && negb (bool_decide (k ∈ l)).
Proof.
  intros Hl Hk. revert f. induction Hl as [|n l Hn Hl IH]; intros f; cbn [fold_left].
  { rewrite bool_decide_eq_false_2 by apply not_elem_of_nil. by rewrite andb_true_r. }
  rewrite IH, mask_off_bit by done. rewrite <- andb_assoc. f_equal.
  destruct (Z.eqb_spec k n) as [->|Hne]; cbn [negb andb].
  - rewrite bool_decide_eq_true_2 by left. done.
  - f_equal. apply bool_decide_ext. rewrite elem_of_cons. tauto.
Qed.

Lemma u32_bit x k : 0 <= k < 32 -> Z.testbit (u32 x) k = Z.testbit x k.
Proof. intros Hk. unfold u32. by rewrite Z.mod_pow2_bits_low by lia. Qed.

(** Starting the device leaves the driver without requests and all descriptors
    free; the last thing it does is to set DRIVER_OK. *)
Lemma init_ok mmio pages s0 ws s1 : at_rest s0 -> virtio_disk_init mmio pages ([], s0) = Ret tt (ws, s1) ->
  vinv s1 (fun _ => None) [] [] /\ v_sectors s1 = v_sectors s0 /\
  (exists ws' v, ws = ws' ++ [(VIRTIO_MMIO_STATUS, v)] /\ Z.testbit v 2 = true) /\
  exists f, (VIRTIO_MMIO_DRIVER_FEATURES, f) ∈ ws /\ forall k, k ∈ declined -> Z.testbit f k = false.
Proof.
  intros (H1 & H2 & H3 & H4 & H5). unfold virtio_disk_init, read_reg. mstep. destruct (_ || _ || _ || _); [done|].
  unfold write_reg. mstep. cbn [fst snd app]. set (feat := wanted _). set (st := mmio _ VIRTIO_MMIO_STATUS).
  destruct (Z.land _ _ =? 0); [done|]. mstep. cbn [fst snd app].
  destruct (negb _); [done|]. mstep. destruct (_ =? 0); [done|]. destruct (_ <? NUM); [done|]. destruct pages as [[desc avail] used].
  destruct (_ || _ || _); [done|]. unfold on_disk. mstep. cbn [fst snd app]. unfold bind.
  set (ws0 := _ :: _). destruct (mark_free_ok (Z.to_nat NUM) 0 (ws0, set_used 0 (fun _ => 0) (set_avail 0 (fun _ => 0) (set_desc (fun _ => desc0) s0))))
    as (f & -> & F1 & _). unfold modify. cbn [fst snd]. intros E. injection E as Ew Es. subst ws s1. split_and!.
  - split; fields; try done; try (by split_and!); rewrite ?H1, ?H2, ?H3, ?H4; try done.
    + intros d Hd Hf. rewrite F1 in Hf; [done|]. unfold NUM in *. lia.
    + intros t b i w a. by rewrite H1.
    + intros t b w. by rewrite H1.
    + intros t t' b b'. by rewrite H1.
    + intros t b. by rewrite H1.
    + split; [apply NoDup_nil_2|]. intros i. pose proof (not_elem_of_nil i). naive_solver.
    + split; [apply NoDup_nil_2|]. intros i. pose proof (not_elem_of_nil i). naive_solver.
    + split; [apply NoDup_nil_2|]. intros i. pose proof (not_elem_of_nil i). naive_solver.
  - done.
  - eexists ws0, _. split; [reflexivity|]. rewrite u32_bit, Z.lor_spec by lia. apply orb_true_r.
  - exists (u32 feat). split; [do 3 right; left|]. intros k Hk.
    assert (Hr : 0 <= k < 32) by (unfold declined in Hk; rewrite !elem_of_cons in Hk; pose proof (not_elem_of_nil k);
      unfold VIRTIO_BLK_F_RO, VIRTIO_BLK_F_SCSI, VIRTIO_BLK_F_CONFIG_WCE, VIRTIO_BLK_F_MQ, VIRTIO_F_ANY_LAYOUT, VIRTIO_RING_F_EVENT_IDX, VIRTIO_RING_F_INDIRECT_DESC in Hk; intuition lia).
    rewrite u32_bit by done. unfold feat, wanted. rewrite wanted_bits; [|by repeat constructor|lia].
    rewrite bool_decide_eq_true_2 by done. apply andb_false_r.
Qed.

Lemma reached dev mmio pages ws s0 s1 s : (forall s s', dev s s' -> device s s') -> at_rest s0 ->
  virtio_disk_init mmio pages ([], s0) = Ret tt (ws, s1) -> star (vstep dev) s1 s -> exists R A U, vinv s R A U.
Proof.
  intros Hdev H0 Hi Hs. apply (star_invariant (vstep dev) (fun s => exists R A U, vinv s R A U) s1 s); [| |done].
  - intros a b Ha Hab. by apply (vstep_inv dev a b).
  - exists (fun _ => None), [], []. by apply (init_ok mmio pages s0 ws s1).
Qed.

(** A process that sleeps for descriptors: some request is in progress. *)
Lemma desc_sleeper s R A U t b w : vinv s R A U -> v_thr s t = NeedDesc b w true -> exists t' b' i w' a, v_thr s t' = NeedIO b' i w' a.
Proof.
  intros I Ht. pose proof (vi_sleep _ _ _ _ I t b w Ht) as Hc.
  destruct (scan (fun d => negb (v_free s d)) NUM) as [d|] eqn:E.
  - apply scan_Some in E as (Hd & Hf & _). apply negb_true_iff in Hf. destruct (vi_free _ _ _ _ I d Hd Hf) as (i & r & Hi & _).
    destruct (vi_proc _ _ _ _ I i r Hi) as (a & Ha & _). by exists (q_t r), (q_b r), i, (q_w r), a.
  - exfalso. apply (Nat.lt_irrefl 3). eapply Nat.le_lt_trans; [|exact Hc]. apply Nat.le_trans with 8%nat; [lia|].
    change 8%nat with (length (seqZ 0 NUM)). apply submseteq_length, NoDup_submseteq; [apply NoDup_seqZ|].
    intros x Hx. apply list_elem_of_filter. split; [|done]. apply elem_of_seqZ in Hx.
    pose proof (scan_None _ _ E x ltac:(lia)) as H. by apply negb_false_iff in H.
Qed.

(** A process that sleeps for its request: the device or the handler has yet to
    deal with it. *)
Lemma io_sleeper s R A U t b i w : vinv s R A U -> v_thr s t = NeedIO b i w true ->
  v_bdisk s b = 1 /\ (v_last s <> v_avail_idx s \/ i ∈ v_taken s \/ v_seen s <> v_used_idx s).
Proof.
  intros I Ht. destruct (vi_io _ _ _ _ I _ _ _ _ _ Ht) as (r & Hi & Hq). destruct (vi_proc _ _ _ _ I i r Hi) as (a & Ha & Hd).
  rewrite Hq, Ht in Ha. injection Ha as Eb Ew Ea. pose proof (vi_phase _ _ _ _ I i r Hi) as Hp. unfold in_phase in Hp. rewrite <- Eb in Hp.
  destruct (q_ph r) eqn:Hph.
  - split; [done|]. left. intros E%(ring_empty _ _ _ _ (vi_avail _ _ _ _ I) (heads_bound _ _ _ _ _ _ I (vi_queued _ _ _ _ I))).
    assert (H : i ∈ A) by (apply (proj2 (vi_queued _ _ _ _ I)); eauto). rewrite E in H. by apply not_elem_of_nil in H.
  - split; [done|]. right; left. apply (proj2 (vi_taken _ _ _ _ I)). eauto.
  - split; [by apply Hp|]. right; right. intros E%(ring_empty _ _ _ _ (vi_used _ _ _ _ I) (heads_bound _ _ _ _ _ _ I (vi_reported _ _ _ _ I))).
    assert (H : i ∈ U) by (apply (proj2 (vi_reported _ _ _ _ I)); eauto). rewrite E in H. by apply not_elem_of_nil in H.
  - specialize (Hd eq_refl). congruence.
Qed.

(** Only a write in progress changes a block, and only a read in progress
    changes a buffer that is in use. *)
Lemma step_moves dev s s' R A U : (forall s s', dev s s' -> device s s') -> vinv s R A U -> vstep dev s s' ->
  (forall n, block (v_sectors s') n <> block (v_sectors s) n -> exists t b i a, v_thr s t = NeedIO b i true a /\ v_blockno s b = n) /\
  (forall b, v_data s' b <> v_data s b -> (forall t, ~ uses (v_thr s t) b) \/ exists t i a, v_thr s t = NeedIO b i false a).
Proof.
  intros Hdev I H. destruct H as [s t b w Ht Hb Hd Hn|s b d n Hn|s t s' E|s s' E|s s' H].
  - done.
  - split; [done|]. intros c. fields. unfold upd. destruct (Z.eqb_spec c b) as [->|]; [by left|done].
  - destruct (turn_ok s R A U t I) as (s2 & R' & A' & E2 & H1 & H2 & _). rewrite E in E2. injection E2 as <-. by rewrite H1, H2.
  - destruct (intr_ok s R A U I) as [(s2 & R' & E2 & H1 & H2 & _)|(s2 & i & E2 & _)]; rewrite E in E2; [|done]. injection E2 as <-. by rewrite H1, H2.
  - destruct (device_inv s s' R A U I (Hdev _ _ H)) as [(_ & HD & HS) _]. split.
    + intros n Hn. destruct HS as [HS|(i & r & Hi & Hw & _ & HS)]; [by rewrite HS in Hn|].
      destruct (vi_proc _ _ _ _ I i r Hi) as (a & Ha & _). rewrite Hw in Ha. exists (q_t r), (q_b r), i, a. split; [done|].
      destruct (Z.eq_dec n (v_blockno s (q_b r))) as [|Hne]; [done|]. by destruct Hn; apply HS.
    + intros b Hn. right. destruct HD as [HD|(i & r & Hi & Hw & _ & HD)]; [by rewrite HD in Hn|].
      destruct (vi_proc _ _ _ _ I i r Hi) as (a & Ha & _). rewrite Hw in Ha. exists (q_t r), i, a.
      destruct (Z.eq_dec b (q_b r)) as [->|Hne]; [done|]. by destruct Hn; apply HD.
Qed.

(** C5: the disk driver moves blocks.  After [virtio_disk_init] with a device
    that obeys the protocol, in every interleaving of calls, interrupts and the
    device: a call of [virtio_disk_rw] never panics; when it returns, the
    buffer and its block of the disk are equal; blocks change only by writes in
    progress and buffers in use only by reads in progress; the interrupt
    handler returns unless the device reported a failure; and nobody sleeps for
    ever by mistake: who waits for descriptors waits for a request in progress,
    and who waits for a request waits for the device or for an interrupt. *)
Theorem virtio_transfers_blocks dev mmio pages ws s0 s1 s :
  (forall s s', dev s s' -> device s s') -> at_rest s0 ->
  virtio_disk_init mmio pages ([], s0) = Ret tt (ws, s1) -> star (vstep dev) s1 s ->
  (forall t, exists s', virtio_disk_rw t s = Ret tt s') /\
  (forall t b i w, v_thr s t = NeedIO b i w false -> v_bdisk s b <> 1 ->
     v_data s b = block (v_sectors s) (v_blockno s b) /\ exists s', virtio_disk_rw t s = Ret tt s' /\ v_thr s' t = Idle) /\
  (forall s', vstep dev s s' ->
     (forall n, block (v_sectors s') n <> block (v_sectors s) n -> exists t b i a, v_thr s t = NeedIO b i true a /\ v_blockno s b = n) /\
     (forall b, v_data s' b <> v_data s b -> (forall t, ~ uses (v_thr s t) b) \/ exists t i a, v_thr s t = NeedIO b i false a)) /\
  ((exists s', virtio_disk_intr s = Ret tt s' /\ v_seen s' = v_used_idx s') \/ exists s' i, virtio_disk_intr s = Panic "virtio_disk_intr status" s' /\ v_status s i <> 0) /\
  (forall t b w, v_thr s t = NeedDesc b w true -> exists t' b' i w' a, v_thr s t' = NeedIO b' i w' a) /\
  (forall t b i w, v_thr s t = NeedIO b i w true ->
     v_bdisk s b = 1 /\ (v_last s <> v_avail_idx s \/ i ∈ v_taken s \/ v_seen s <> v_used_idx s)).
Proof.
  intros Hdev H0 Hi Hs. destruct (reached dev mmio pages ws s0 s1 s Hdev H0 Hi Hs) as (R & A & U & I). split_and!.
  - intros t. destruct (turn_ok s R A U t I) as (s' & _ & _ & E & _). by exists s'.
  - intros t b i w Ht Hb. destruct (finish_inv s R A U t b i w I Ht Hb) as (Hsy & s' & E & _ & _ & Hid & _). split; [done|].
    exists s'. unfold virtio_disk_rw. mstep. by rewrite Ht.
  - intros s' H. by apply (step_moves dev s s' R A U).
  - destruct (intr_ok s R A U I) as [(s' & R' & E & _ & _ & _ & I' & _)|(s' & i & E & _ & Hne)].
    + left. exists s'. split; [done|]. by apply (ring_empty _ _ _ _ (vi_used _ _ _ _ I')); [cbn; lia|].
    + right. by exists s', i.
  - intros t b w. by apply desc_sleeper with R A U.
  - intros t b i w. by apply io_sleeper with R A U.
Qed.

(** * A run *)

#[export] Instance place_eq_dec : EqDecision place.
Proof. solve_decision. Defined.
#[export] Instance virtq_desc_eq_dec : EqDecision virtq_desc.
Proof. solve_decision. Defined.
#[export] Instance virtio_blk_req_eq_dec : EqDecision virtio_blk_req.
Proof. solve_decision. Defined.

(** A device that takes requests before it finishes the last one it took. *)
Definition demo_device (s : vdisk) : option vdisk :=
  if negb (v_last s =? v_avail_idx s) then
    Some (set_device (u16 (v_last s + 1)) (v_avail_ring s (v_last s mod NUM) :: v_taken s) (v_sectors s) s)
  else
    match v_taken s with
    | [] => None
    | i :: _ =>
        match v_desc s i with
        | mk_desc (POps o) l0 f0 i1 =>
            match v_desc s i1 with
            | mk_desc (PData b) n f1 i2 =>
                match v_desc s i2 with
                | mk_desc (PStatus p) l2 f2 n2 =>
                    let op := v_ops s o in
                    if decide (mk_desc (POps o) l0 f0 i1 = mk_desc (POps o) sizeof_virtio_blk_req VRING_DESC_F_NEXT i1 /\
                               mk_desc (PData b) n f1 i2 = mk_desc (PData b) n (Z.lor VRING_DESC_F_WRITE VRING_DESC_F_NEXT) i2 /\
                               mk_desc (PStatus p) l2 f2 n2 = mk_desc (PStatus p) 1 VRING_DESC_F_WRITE 0 /\
                               op = mk_blk VIRTIO_BLK_T_IN (r_sector op)) then
                      Some (report i (set_status (upd (v_status s) p 0)
                        (set_vdata (upd (v_data s) b (read_sectors (v_sectors s) (r_sector op) (Z.to_nat (n / 512)))) s)))
                    else None
                | _ => None
                end
            | _ => None
            end
        | _ => None
        end
    end.

Lemma demo_device_ok s s' : demo_device s = Some s' -> device s s'.
Proof.
  unfold demo_device. destruct (Z.eqb_spec (v_last s) (v_avail_idx s)) as [E|E]; cbn [negb].
  2:{ intros [= <-]. by constructor. }
  destruct (v_taken s) as [|i tk] eqn:Ht; [done|]. destruct (v_desc s i) as [[|o| |] l0 f0 i1] eqn:D0; try done.
  destruct (v_desc s i1) as [[| |b|] n f1 i2] eqn:D1; try done. destruct (v_desc s i2) as [[| | |p] l2 f2 n2] eqn:D2; try done.
  case_decide as H; [|done]. destruct H as (H0 & H1 & H2 & H3). intros [= <-].
  rewrite H0 in D0. rewrite H1 in D1. rewrite H2 in D2. eapply device_read; [rewrite Ht; left|eassumption..].
Qed.

Definition demo_mmio (ws : list (Z * Z)) (r : Z) : Z :=
  if r =? VIRTIO_MMIO_MAGIC_VALUE then 0x74726976
  else if (r =? VIRTIO_MMIO_VERSION) || (r =? VIRTIO_MMIO_DEVICE_ID) then 2
  else if r =? VIRTIO_MMIO_VENDOR_ID then 0x554d4551
  else if r =? VIRTIO_MMIO_STATUS then 11
  else if r =? VIRTIO_MMIO_QUEUE_NUM_MAX then 1024
  else 0.

(** Sector [x] holds 512 times the byte [x]; buffer 5 is to get block 3. *)
Definition d_0 : vdisk :=
  mk_vd (fun _ => desc0) 0 (fun _ => 0) 0 (fun _ => 0) (fun _ => false) 0 (fun _ => None) (fun _ => 0) (fun _ => mk_blk 0 0)
    (fun _ => 0) (fun b => if b =? 5 then 3 else 100 + b) (fun _ => replicate 1024 0) (fun _ => Idle) 0 [] (fun x => replicate 512 (x mod 256)).
Definition d_init := virtio_disk_init demo_mmio (4096, 8192, 12288) ([], d_0).
Definition d_1 : vdisk := snd (final d_init).
Definition d_2 : vdisk := set_thr (upd (v_thr d_1) 0 (NeedDesc 5 false false)) d_1.
Definition d_3 : vdisk := final (virtio_disk_rw 0 d_2).
Definition d_4 : vdisk := default d_3 (demo_device d_3).
Definition d_5 : vdisk := default d_4 (demo_device d_4).
Definition d_6 : vdisk := final (virtio_disk_intr d_5).

Definition demo_dev (s s' : vdisk) : Prop := demo_device s = Some s'.

Lemma returned_pair {X Y} (o : outcome (X * Y) unit) : returned o = true -> o = Ret tt (fst (final o), snd (final o)).
Proof. by destruct o as [[] []| | | |]. Qed.

Lemma demo_disk_init : virtio_disk_init demo_mmio (4096, 8192, 12288) ([], d_0) = Ret tt (fst (final d_init), d_1).
Proof.
  assert (H : returned (virtio_disk_init demo_mmio (4096, 8192, 12288) ([], d_0)) = true) by (vm_compute; reflexivity).
  unfold d_1, d_init. exact (returned_pair _ H).
Qed.

Lemma demo_disk_run : star (vstep demo_dev) d_1 d_6.
Proof.
  assert (H3 : returned (virtio_disk_rw 0 d_2) = true) by (vm_compute; reflexivity).
  assert (H6 : returned (virtio_disk_intr d_5) = true) by (vm_compute; reflexivity).
  assert (HD3 : bool_decide (is_Some (demo_device d_3)) = true) by (vm_compute; reflexivity).
  assert (HD4 : bool_decide (is_Some (demo_device d_4)) = true) by (vm_compute; reflexivity).
  assert (HS : forall s, bool_decide (is_Some (demo_device s)) = true -> vstep demo_dev s (default s (demo_device s))).
  { intros s [s' E]%bool_decide_eq_true. apply v_device. unfold demo_dev. by rewrite E. }
  assert (HT : forall s t, returned (virtio_disk_rw t s) = true -> vstep demo_dev s (final (virtio_disk_rw t s))).
  { intros s t E%returned_tt. by apply (v_turn demo_dev s t). }
  assert (HI : forall s, returned (virtio_disk_intr s) = true -> vstep demo_dev s (final (virtio_disk_intr s))).
  { intros s E%returned_tt. by apply (v_intr demo_dev s). }
  assert (H1 : vstep demo_dev d_1 d_2).
  { assert (Hthr : forall t, v_thr d_1 t = Idle) by (intros t; vm_compute; reflexivity). unfold d_2. apply v_call.
    - apply Hthr.
    - vm_compute; split; [discriminate|reflexivity].
    - vm_compute; reflexivity.
    - intros t c Hc. rewrite Hthr in Hc. destruct Hc. }
  assert (S3 : vstep demo_dev d_2 d_3) by exact (HT d_2 0 H3).
  assert (S4 : vstep demo_dev d_3 d_4) by exact (HS d_3 HD3).
  assert (S5 : vstep demo_dev d_4 d_5) by exact (HS d_4 HD4).
  assert (S6 : vstep demo_dev d_5 d_6) by exact (HI d_5 H6).
  exact (star_next (vstep demo_dev) d_1 d_2 d_6 H1 (star_next (vstep demo_dev) d_2 d_3 d_6 S3 (star_next (vstep demo_dev) d_3 d_4 d_6 S4
    (star_next (vstep demo_dev) d_4 d_5 d_6 S5 (star_next (vstep demo_dev) d_5 d_6 d_6 S6 (star_refl (vstep demo_dev) d_6)))))).
Qed.

Lemma virtio_transfers_blocks_witness : v_data d_6 5 = block (v_sectors d_6) 3 /\ v_data d_6 5 !! 600%nat = Some 7.
Proof.
  assert (H0 : at_rest d_0) by by (split_and!; intros; try done; cbn; rewrite length_replicate).
  pose proof (virtio_transfers_blocks demo_dev demo_mmio (4096, 8192, 12288) (fst (final d_init)) d_0 d_1 d_6 demo_device_ok H0 demo_disk_init demo_disk_run) as (_ & H & _).
  assert (Ht : v_thr d_6 0 = NeedIO 5 0 false false) by (vm_compute; reflexivity).
  assert (Hb : v_bdisk d_6 5 <> 1) by (vm_compute; discriminate).
  destruct (H 0 5 0 false Ht Hb) as [E _]. assert (Hn : v_blockno d_6 5 = 3) by (vm_compute; reflexivity). rewrite Hn in E.
  clear -E. split; [exact E|vm_compute; reflexivity].
Defined.
