(* ===== verification/Log.v ===== *)
(** The write-ahead log of [kernel/log.c], over the buffer-cache interface:
    transactions with log absorption, commit, and recovery after a crash at
    any point between two disk writes. *)
From S2P Require Import Prelude Bufcache.
Local Open Scope kern_scope.

(** * Data and operations *)

Section Ops.
Context {BC : BufCache}.

(** [struct log]; the spin lock makes each block of statements it protects
    one atomic step.  [lh_n] and [lh_block] are the in-memory [struct
    logheader]. *)
Record log := mk_log {
  l_start : Z;
  l_outstanding : Z;
  l_committing : bool;
  l_dev : Z;
  lh_n : Z;
  lh_block : Z -> Z;
  l_bc : bc
}.

Definition set_bc (x : bc) (s : log) : log :=
  mk_log (l_start s) (l_outstanding s) (l_committing s) (l_dev s) (lh_n s) (lh_block s) x.
Definition set_lh (n : Z) (f : Z -> Z) (s : log) : log :=
  mk_log (l_start s) (l_outstanding s) (l_committing s) (l_dev s) n f (l_bc s).
Definition set_outstanding (k : Z) (s : log) : log :=
  mk_log (l_start s) k (l_committing s) (l_dev s) (lh_n s) (lh_block s) (l_bc s).
Definition set_committing (c : bool) (s : log) : log :=
  mk_log (l_start s) (l_outstanding s) c (l_dev s) (lh_n s) (lh_block s) (l_bc s).

(** A call into the buffer cache. *)
Definition on_bc {A} (m : M bc A) : M log A := zoom l_bc set_bc m.

(** [memmove(dst->data, src->data, BSIZE)]. *)
Definition memmove_buf (dst src : Z) : M bc unit := modify (fun x => set_bdata dst (bdata x src) x).

(** The body of the loop of [install_trans]. *)
Definition install_block (recovering : bool) (tail : Z) : M log unit :=
  do s <- get;
  do lbuf <- on_bc (bread (l_dev s) (u32 (l_start s + tail + 1)));
  do dbuf <- on_bc (bread (l_dev s) (u32 (lh_block s tail)));
  on_bc (memmove_buf dbuf lbuf) ;;;
  on_bc (bwrite dbuf) ;;;
  (if recovering then ret tt else on_bc (bunpin dbuf)) ;;;
  on_bc (brelse lbuf) ;;;
  on_bc (brelse dbuf).

Definition install_trans (recovering : bool) : M log unit :=
  do n <- gets lh_n;
  for_loop (Z.to_nat n) 0 (install_block recovering).

(** The fields of [struct logheader] in a block. *)
Definition hd_n (d : list Z) : Z := i32 (le_at d 0 4).
Definition hd_block (d : list Z) (i : Z) : Z := i32 (le_at d (4 + 4 * i) 4).

Definition read_head : M log unit :=
  do s <- get;
  do buf <- on_bc (bread (l_dev s) (u32 (l_start s)));
  do d <- gets (fun s => bdata (l_bc s) buf);
  modify (fun s => set_lh (hd_n d) (lh_block s) s) ;;;
  for_loop (Z.to_nat (hd_n d)) 0 (fun i =>
    if LOGBLOCKS <=? i then undef "log.lh.block"
    else modify (fun s => set_lh (lh_n s) (upd (lh_block s) i (hd_block d i)) s)) ;;;
  on_bc (brelse buf).

Definition write_head : M log unit :=
  do s <- get;
  do buf <- on_bc (bread (l_dev s) (u32 (l_start s)));
  on_bc (modify (fun x => set_bdata buf (set_le (bdata x buf) 0 4 (lh_n s)) x)) ;;;
  for_loop (Z.to_nat (lh_n s)) 0 (fun i =>
    on_bc (modify (fun x => set_bdata buf (set_le (bdata x buf) (4 + 4 * i) 4 (lh_block s i)) x))) ;;;
  on_bc (bwrite buf) ;;;
  on_bc (brelse buf).

Definition recover_from_log : M log unit :=
  read_head ;;;
  install_trans true ;;;
  modify (fun s => set_lh 0 (lh_block s) s) ;;;
  write_head.

(** [sizeof(struct logheader)]. *)
Definition sizeof_logheader : Z := 4 + 4 * LOGBLOCKS.

Definition initlog (dev logstart : Z) : M log unit :=
  (if BSIZE <=? sizeof_logheader then panic "initlog: too big logheader" else ret tt) ;;;
  modify (fun s => mk_log (i32 logstart) (l_outstanding s) (l_committing s) dev (lh_n s) (lh_block s) (l_bc s)) ;;;
  recover_from_log.

(** One pass of the loop of [begin_op]: [true] when the operation has entered,
    [false] when it goes to sleep on the log and will try again. *)
Definition begin_op : M log bool :=
  do s <- get;
  if l_committing s then ret false
  else if LOGBLOCKS <? lh_n s + (l_outstanding s + 1) * MAXOPBLOCKS then ret false
  else modify (set_outstanding (l_outstanding s + 1)) ;;; ret true.

(** The body of the loop of [write_log]. *)
Definition write_log_block (tail : Z) : M log unit :=
  do s <- get;
  do to <- on_bc (bread (l_dev s) (u32 (l_start s + tail + 1)));
  do from <- on_bc (bread (l_dev s) (u32 (lh_block s tail)));
  on_bc (memmove_buf to from) ;;;
  on_bc (bwrite to) ;;;
  on_bc (brelse from) ;;;
  on_bc (brelse to).

Definition write_log : M log unit :=
  do n <- gets lh_n;
  for_loop (Z.to_nat n) 0 write_log_block.

Definition commit : M log unit :=
  do n <- gets lh_n;
  if 0 <? n then
    write_log ;;;
    write_head ;;;
    install_trans false ;;;
    modify (fun s => set_lh 0 (lh_block s) s) ;;;
    write_head
  else ret tt.

Definition end_op : M log unit :=
  do s <- get;
  modify (set_outstanding (l_outstanding s - 1)) ;;;
  (if l_committing s then panic "log.committing" else ret tt) ;;;
  if l_outstanding s - 1 =? 0 then
    modify (set_committing true) ;;;
    commit ;;;
    modify (set_committing false)
  else ret tt.

Definition log_write (b : Z) : M log unit :=
  do s <- get;
  (if LOGBLOCKS <=? lh_n s then panic "too big a transaction" else ret tt) ;;;
  (if l_outstanding s <? 1 then panic "log_write outside of trans" else ret tt) ;;;
  let blockno := bblockno (l_bc s) b in
  let i := default (lh_n s) (scan (fun i => u32 (lh_block s i) =? blockno) (lh_n s)) in
  modify (fun s => set_lh (lh_n s) (upd (lh_block s) i (i32 blockno)) s) ;;;
  if i =? lh_n s then
    on_bc (bpin b) ;;;
    modify (fun s => set_lh (lh_n s + 1) (lh_block s) s)
  else ret tt.

End Ops.

(** * Calls into the cache *)

(** Two abstract caches agree: evaluate both at a block and decide the block
    comparisons. *)
Ltac bst_solve :=
  split; [intros ?c; cbn; unfold upd..|cbn; unfold upd];
  repeat match goal with
  | |- context [?x =? ?y] => destruct (Z.eqb_spec x y); subst
  end; try first [done | lia | congruence].

Ltac at_upd := cbn; unfold upd;
  repeat match goal with
  | |- context [?x =? ?y] => destruct (Z.eqb_spec x y); subst
  end; try first [done | lia | congruence].

Section Steps.
Context {BC : BufCache}.

Lemma on_bc_bind {A B} (m : M bc A) (k : A -> M log B) s P Q :
  returns (m (l_bc s)) P -> (forall r x, P r x -> returns (k r (set_bc x s)) Q) ->
  returns (bind (on_bc m) k s) Q.
Proof.
  intros Hm Hk. unfold bind, on_bc, zoom. destruct (m (l_bc s)); cbn in *; try contradiction. auto.
Qed.

Lemma on_bc_last (m : M bc unit) s P :
  returns (m (l_bc s)) (fun _ => P) -> returns (on_bc m s) (fun _ s' => exists x, s' = set_bc x s /\ P x).
Proof. unfold on_bc, zoom. destruct (m (l_bc s)); cbn; try contradiction. eauto. Qed.

(** Block [t] becomes a copy of block [b], in the cache and on the disk. *)
Definition a_copy (t b : Z) (a : bstate) : bstate :=
  mk_bst (upd (view a) t (view a b)) (refs a) (held a) (upd (disk a) t (view a b)) (writes a ++ [(t, view a b)]).

Lemma memmove_spec x a t b ht hb :
  rep x a -> held a t = Some ht -> held a b = Some hb ->
  returns (memmove_buf ht hb x) (fun _ x' => rep x' (a_set t (view a b) a)).
Proof.
  intros Hr Ht Hb. cbn. pose proof (held_spec _ _ _ _ Hr Hb) as [_ ->].
  apply set_bdata_spec; [done..|]. apply (wf_view_length _ (rep_wf _ _ Hr)).
Qed.

Lemma write_log_block_ok s a tail :
  let t := l_start s + tail + 1 in let b := lh_block s tail in
  rep (l_bc s) a -> l_dev s = ROOTDEV -> 0 <= t < 2 ^ 31 -> 0 <= b < 2 ^ 31 -> t <> b ->
  held a t = None -> held a b = None -> refs a t = 0 -> refs a b = 1 -> room a t ->
  returns (write_log_block tail s) (fun _ s' => exists x, s' = set_bc x s /\ rep x (a_copy t b a)).
Proof.
  intros t b Hr Hdev Ht Hb Hne Hht Hhb Hrt Hrb Hroom. unfold write_log_block.
  change (bind get ?k s) with (k s s). cbn beta. fold t b. rewrite Hdev, !u32_small by lia.
  eapply on_bc_bind; [eapply bread_spec; [done..|lia|done]|]. intros ht x1 Hr1.
  eapply on_bc_bind; [eapply bread_spec; [exact Hr1|done|at_upd|at_upd|left; at_upd]|]. intros hb x2 Hr2.
  eapply on_bc_bind; [eapply (memmove_spec _ _ t b); [exact Hr2|at_upd..]|]. intros [] x3 Hr3.
  eapply on_bc_bind; [eapply bwrite_spec; [exact Hr3|at_upd]|]. intros [] x4 Hr4.
  eapply on_bc_bind; [eapply (brelse_spec _ _ b); [exact Hr4|at_upd..]|]. intros [] x5 Hr5.
  eapply returns_mono; [apply on_bc_last; eapply (brelse_spec _ _ t); [exact Hr5|at_upd..]|].
  intros [] s' (x6 & -> & Hr6). exists x6. split; [done|]. eapply rep_ext; [exact Hr6|]. bst_solve.
Qed.

(** Installing log block [t] at [b]: as a copy, with the pin of [b] dropped
    outside recovery. *)
Definition a_install (pinned t b : Z) (a : bstate) : bstate :=
  mk_bst (upd (view a) b (view a t)) (upd (refs a) b (refs a b - pinned)) (held a)
    (upd (disk a) b (view a t)) (writes a ++ [(b, view a t)]).

Lemma install_block_ok s a (recovering : bool) tail :
  let t := l_start s + tail + 1 in let b := lh_block s tail in
  let pinned := if recovering then 0 else 1 in
  rep (l_bc s) a -> l_dev s = ROOTDEV -> 0 <= t < 2 ^ 31 -> 0 <= b < 2 ^ 31 -> t <> b ->
  held a t = None -> held a b = None -> refs a t = 0 -> refs a b = pinned -> room a t ->
  (forall h, room (a_get t h a) b) ->
  returns (install_block recovering tail s) (fun _ s' => exists x, s' = set_bc x s /\ rep x (a_install pinned t b a)).
Proof.
  intros t b pinned Hr Hdev Ht Hb Hne Hht Hhb Hrt Hrb Hroom Hroomb. unfold install_block.
  assert (Hcl : view a t = disk a t) by (apply (wf_clean _ (rep_wf _ _ Hr)), Hrt).
  change (bind get ?k s) with (k s s). cbn beta. fold t b. rewrite Hdev, !u32_small by lia.
  eapply on_bc_bind; [eapply bread_spec; [done..|lia|done]|]. intros ht x1 Hr1.
  eapply on_bc_bind; [eapply bread_spec; [exact Hr1|done|at_upd|at_upd; destruct recovering; lia|apply Hroomb]|].
  intros hb x2 Hr2.
  eapply on_bc_bind; [eapply (memmove_spec _ _ b t); [exact Hr2|at_upd..]|]. intros [] x3 Hr3.
  eapply on_bc_bind; [eapply (bwrite_spec _ _ b); [exact Hr3|at_upd]|]. intros [] x4 Hr4.
  eapply (bind_returns _ _ _ (fun _ s' => exists x, s' = set_bc x s /\ rep x (a_ref b (- pinned)
    (a_write b (a_set b (view a t) (a_get b hb (a_get t ht a))))))).
  { unfold pinned in *. destruct recovering; cbn [ret returns].
    - exists x4. split; [done|]. eapply rep_ext; [exact Hr4|]. bst_solve.
    - eapply returns_mono; [apply on_bc_last; eapply (bunpin_spec _ _ b); [exact Hr4|at_upd..]|].
      intros [] s' (x5 & -> & Hr5). eauto. }
  intros [] s' (x5 & -> & Hr5).
  eapply on_bc_bind; [eapply (brelse_spec _ _ t); [exact Hr5|at_upd..]|]. intros [] x6 Hr6.
  eapply returns_mono; [apply on_bc_last; eapply (brelse_spec _ _ b); [exact Hr6|at_upd..]|].
  intros [] s' (x7 & -> & Hr7). exists x7. split; [done|]. eapply rep_ext; [exact Hr7|]. bst_solve.
Qed.

(** The header block with count [n] and the first [k] block numbers. *)
Fixpoint head_blocks (d : list Z) (f : Z -> Z) (k : nat) : list Z :=
  match k with
  | O => d
  | S k' => set_le (head_blocks d f k') (4 + 4 * Z.of_nat k') 4 (f (Z.of_nat k'))
  end.

Definition head_of (d : list Z) (n : Z) (f : Z -> Z) : list Z :=
  head_blocks (set_le d 0 4 n) f (Z.to_nat n).

Lemma length_head_blocks d f k : length (head_blocks d f k) = length d.
Proof. induction k; cbn; [done|]. by rewrite length_set_le. Qed.

Lemma length_head_of d n f : length (head_of d n f) = length d.
Proof. unfold head_of. by rewrite length_head_blocks, length_set_le. Qed.

Lemma write_head_ok s a :
  let st := l_start s in let d := head_of (view a st) (lh_n s) (lh_block s) in
  rep (l_bc s) a -> l_dev s = ROOTDEV -> 0 <= st < 2 ^ 31 -> held a st = None -> refs a st = 0 -> room a st ->
  returns (write_head s) (fun _ s' => exists x, s' = set_bc x s /\
    rep x (mk_bst (upd (view a) st d) (refs a) (held a) (upd (disk a) st d) (writes a ++ [(st, d)]))).
Proof.
  intros st d Hr Hdev Hst Hh Hrf Hroom. unfold write_head.
  change (bind get ?k s) with (k s s). cbn beta. fold st. rewrite Hdev, u32_small by lia.
  eapply on_bc_bind; [eapply bread_spec; [done..|lia|done]|]. intros h x1 Hr1. cbn beta in Hr1.
  pose proof (wf_view_length _ (rep_wf _ _ Hr) st) as Hlen.
  set (step i := head_blocks (set_le (view a st) 0 4 (lh_n s)) (lh_block s) (Z.to_nat i)).
  eapply (on_bc_bind _ _ _ (fun _ x => rep x (a_set st (step 0) (a_get st h a)))).
  { cbn. pose proof (held_spec _ _ st h Hr1 ltac:(at_upd)) as [_ ->].
    apply set_bdata_spec; [done|at_upd|]. unfold step. by rewrite length_head_blocks, length_set_le. }
  intros [] x2 Hr2. eapply bind_returns.
  { apply (for_loop_returns (fun i s' => exists x, s' = set_bc x s /\ rep x (a_set st (step i) (a_get st h a)))).
    - exists x2. split; [done|]. exact Hr2.
    - intros i s' Hi (x & -> & Hrx).
      eapply returns_mono; [apply on_bc_last with (P := fun x' => rep x' (a_set st (step (i + 1)) (a_set st (step i) (a_get st h a))))|].
      + cbn. pose proof (held_spec _ _ st h Hrx ltac:(at_upd)) as [_ ->]. cbn [view a_set]. rewrite upd_eq.
        replace (step (i + 1)) with (set_le (step i) (4 + 4 * i) 4 (lh_block s i)).
        * apply set_bdata_spec; [done|at_upd|]. unfold step.
          by rewrite length_set_le, length_head_blocks, length_set_le.
        * unfold step. replace (Z.to_nat (i + 1)) with (S (Z.to_nat i)) by lia.
          cbn [head_blocks]. by rewrite Z2Nat.id by lia.
      + intros [] s' (x' & -> & Hx'). exists x'. split; [done|]. eapply rep_ext; [exact Hx'|]. bst_solve. }
  intros [] s' (x3 & -> & Hr3).
  assert (Hd : step (0 + Z.of_nat (Z.to_nat (lh_n s))) = d).
  { unfold step, d, head_of. f_equal. lia. }
  rewrite Hd in Hr3.
  eapply on_bc_bind; [eapply (bwrite_spec _ _ st); [exact Hr3|at_upd]|]. intros [] x4 Hr4.
  eapply returns_mono; [apply on_bc_last; eapply (brelse_spec _ _ st); [exact Hr4|at_upd..]|].
  intros [] s' (x7 & -> & Hr7). exists x7. split; [done|]. eapply rep_ext; [exact Hr7|]. bst_solve.
Qed.

End Steps.

(** * The invariant between operations *)

Section Inv.
Context {BC : BufCache}.

(** The blocks that may be logged: not the header, not the log itself. *)
Definition home (st b : Z) : Prop := 0 <= b < 2 ^ 31 /\ ~ st <= b <= st + LOGBLOCKS.

(** Block [b] is among the first [n] of [f]. *)
Definition listed (f : Z -> Z) (n b : Z) : bool := bool_decide (is_Some (scan (fun i => f i =? b) n)).

Lemma listed_iff f n b : listed f n b = true <-> exists i, 0 <= i < n /\ f i = b.
Proof.
  unfold listed. rewrite bool_decide_eq_true. split.
  - intros [i Hi]. apply scan_Some in Hi as (? & He & _). apply Z.eqb_eq in He. eauto.
  - intros (i & Hi & <-). destruct (scan _ n) as [j|] eqn:Hs; [eauto|].
    pose proof (scan_None _ _ Hs i Hi) as Hf. cbn in Hf. rewrite Z.eqb_refl in Hf. done.
Qed.

Lemma listed_ext f g n b : (forall i, 0 <= i < n -> f i = g i) -> listed f n b = listed g n b.
Proof.
  intros Hf. unfold listed. rewrite (scan_ext _ (fun i => g i =? b)); [done|]. intros. by rewrite Hf.
Qed.

(** The log and the cache between two calls: the blocks of the open
    transaction are listed once each and pinned, nothing but them and the
    locked buffers is referenced, and the log on disk is empty. *)
Record log_inv (s : log) (a : bstate) : Prop := {
  li_rep : rep (l_bc s) a;
  li_dev : l_dev s = ROOTDEV;
  li_start : 0 < l_start s /\ l_start s + LOGBLOCKS < 2 ^ 31;
  li_n : 0 <= lh_n s <= LOGBLOCKS;
  li_home : forall i, 0 <= i < lh_n s -> home (l_start s) (lh_block s i);
  li_nodup : forall i j, 0 <= i < lh_n s -> 0 <= j < lh_n s -> lh_block s i = lh_block s j -> i = j;
  li_refs : forall b, refs a b = (if listed (lh_block s) (lh_n s) b then 1 else 0) + match held a b with Some _ => 1 | None => 0 end;
  li_head : hd_n (disk a (l_start s)) = 0
}.

(** No buffer is locked. *)
Definition quiet (a : bstate) : Prop := forall b, held a b = None.

(** The blocks of a re-do log over a disk content [v]: the last logged copy,
    or the home block. *)
Definition replayed (st : Z) (f : Z -> Z) (n : Z) (v : Z -> list Z) (b : Z) : list Z :=
  match scan (fun i => f i =? b) n with Some i => v (st + i + 1) | None => v b end.

(** The contents after the first [i] blocks have been copied to the log. *)
Definition logged (st : Z) (f : Z -> Z) (i : Z) (v : Z -> list Z) (c : Z) (old : list Z) : list Z :=
  if (st <? c) && (c <=? st + i) then v (f (c - st - 1)) else old.

Definition log_writes (st : Z) (f : Z -> Z) (n : Z) (v : Z -> list Z) : list (Z * list Z) :=
  (fun i => (st + i + 1, v (f i))) <$> seqZ 0 n.
Definition install_writes (st : Z) (f : Z -> Z) (n : Z) (v : Z -> list Z) : list (Z * list Z) :=
  (fun i => (f i, v (st + i + 1))) <$> seqZ 0 n.

Definition a_logged (st : Z) (f : Z -> Z) (i : Z) (a : bstate) : bstate :=
  mk_bst (fun c => logged st f i (view a) c (view a c)) (refs a) (held a)
    (fun c => logged st f i (view a) c (disk a c)) (writes a ++ log_writes st f i (view a)).

Definition a_installed (pinned st : Z) (f : Z -> Z) (i : Z) (a : bstate) : bstate :=
  mk_bst (replayed st f i (view a)) (fun c => refs a c - if listed f i c then pinned else 0) (held a)
    (fun c => if listed f i c then replayed st f i (view a) c else disk a c)
    (writes a ++ install_writes st f i (view a)).

Definition a_head (st n : Z) (f : Z -> Z) (a : bstate) : bstate :=
  let d := head_of (view a st) n f in
  mk_bst (upd (view a) st d) (refs a) (held a) (upd (disk a) st d) (writes a ++ [(st, d)]).

Context (st n : Z) (f : Z -> Z).
Hypothesis Hst : 0 < st /\ st + LOGBLOCKS < 2 ^ 31.
Hypothesis Hn : 0 <= n <= LOGBLOCKS.
Hypothesis Hhome : forall i, 0 <= i < n -> home st (f i).
Hypothesis Hnodup : forall i j, 0 <= i < n -> 0 <= j < n -> f i = f j -> i = j.

Lemma a_logged_step a i : 0 <= i < n ->
  bst_eq (a_copy (st + i + 1) (f i) (a_logged st f i a)) (a_logged st f (i + 1) a).
Proof.
  intros Hi. pose proof (Hhome i Hi) as [_ Hf].
  assert (Hv : logged st f i (view a) (f i) (view a (f i)) = view a (f i)).
  { unfold logged. destruct (Z.ltb_spec st (f i)), (Z.leb_spec (f i) (st + i)); cbn; try done. unfold LOGBLOCKS, MAXOPBLOCKS in *. lia. }
  split; cbn; try done.
  1, 2: intros c; rewrite Hv; unfold upd, logged; destruct (Z.eqb_spec c (st + i + 1)) as [->|];
    [replace (st + i + 1 - st - 1) with i by lia|]; bool_to_prop; try lia; done.
  rewrite Hv. unfold log_writes. rewrite seqZ_snoc, fmap_app, app_assoc by lia. done.
Qed.

Lemma listed_snoc i b : 0 <= i -> listed f (i + 1) b = listed f i b || (f i =? b).
Proof.
  intros Hi. unfold listed. rewrite scan_snoc by done. destruct (scan _ i); cbn.
  - done.
  - by destruct (f i =? b).
Qed.

Lemma fresh_listed i : 0 <= i < n -> listed f i (f i) = false.
Proof.
  intros Hi. apply not_true_iff_false. intros (j & Hj & He)%listed_iff.
  apply Hnodup in He; lia.
Qed.

Lemma replayed_log i v c : 0 <= i <= n -> st <= c <= st + LOGBLOCKS -> replayed st f i v c = v c.
Proof.
  intros Hi Hc. unfold replayed. destruct (scan _ i) as [j|] eqn:Hs; [|done].
  apply scan_Some in Hs as (Hj & He & _). apply Z.eqb_eq in He. destruct (Hhome j ltac:(lia)) as [_ Hf]. lia.
Qed.

Lemma a_installed_step pinned a i : 0 <= i < n ->
  bst_eq (a_install pinned (st + i + 1) (f i) (a_installed pinned st f i a)) (a_installed pinned st f (i + 1) a).
Proof.
  intros Hi. pose proof (fresh_listed i Hi) as Hfr.
  assert (Hlog : replayed st f i (view a) (st + i + 1) = view a (st + i + 1)) by (apply replayed_log; lia).
  assert (Hrep : forall c, replayed st f (i + 1) (view a) c = if c =? f i then view a (st + i + 1) else replayed st f i (view a) c).
  { intros c. unfold replayed. rewrite scan_snoc by lia. destruct (scan _ i) as [j|] eqn:Hs.
    - destruct (Z.eqb_spec c (f i)) as [->|]; [|done]. apply scan_Some in Hs as (Hj & He & _).
      apply Z.eqb_eq, Hnodup in He; lia.
    - rewrite Z.eqb_sym. by destruct (c =? f i). }
  split; cbn; try done.
  - intros c. rewrite Hlog, Hrep. unfold upd. by destruct (c =? f i).
  - intros c. rewrite listed_snoc by lia. unfold upd. destruct (Z.eqb_spec c (f i)) as [->|].
    + rewrite Hfr, Z.eqb_refl. cbn. lia.
    + destruct (Z.eqb_spec (f i) c); [congruence|]. by rewrite orb_false_r.
  - intros c. rewrite Hlog, listed_snoc, Hrep by lia. unfold upd. destruct (Z.eqb_spec c (f i)) as [->|].
    + by rewrite Z.eqb_refl, orb_true_r.
    + destruct (Z.eqb_spec (f i) c); [congruence|]. by rewrite orb_false_r.
  - rewrite Hlog. unfold install_writes. rewrite seqZ_snoc, fmap_app, app_assoc by lia. done.
Qed.

End Inv.

(** * Commit and recovery *)

Section Commit.
Context {BC : BufCache}.

(** The blocks listed and nothing else is referenced, [pinned] times each. *)
Definition pins (f : Z -> Z) (n pinned : Z) (a : bstate) : Prop :=
  forall b, refs a b = if listed f n b then pinned else 0.

Lemma pins_room f n pinned a a' b :
  0 <= n -> pinned = 0 \/ n < NBUF -> pins f n pinned a -> (forall c, refs a' c <= refs a c) -> room a' b.
Proof.
  intros Hn Hlt Hp Hle. right. exists (if decide (pinned = 0) then [] else f <$> seqZ 0 n). split.
  - case_decide; [done|]. rewrite length_fmap, length_seqZ. lia.
  - intros c Hc. specialize (Hle c). rewrite Hp in Hle. case_decide.
    + destruct (listed f n c); lia.
    + destruct (listed f n c) eqn:Hl; [|lia].
      apply listed_iff in Hl as (i & Hi & <-). apply list_elem_of_fmap. exists i. split; [done|].
      apply elem_of_seqZ. lia.
Qed.

Context (s : log) (a : bstate).
Let st := l_start s.
Let n := lh_n s.
Let f := lh_block s.
Hypothesis Hrep : rep (l_bc s) a.
Hypothesis Hdev : l_dev s = ROOTDEV.
Hypothesis Hst : 0 < st /\ st + LOGBLOCKS < 2 ^ 31.
Hypothesis Hn : 0 <= n <= LOGBLOCKS.
Hypothesis Hhome : forall i, 0 <= i < n -> home st (f i).
Hypothesis Hnodup : forall i j, 0 <= i < n -> 0 <= j < n -> f i = f j -> i = j.
Hypothesis Hquiet : quiet a.

Lemma listed_home c : listed f n c = true -> home st c.
Proof. intros (i & Hi & <-)%listed_iff. auto. Qed.

Lemma not_home_listed c : st <= c <= st + LOGBLOCKS -> listed f n c = false.
Proof. intros Hc. apply not_true_iff_false. intros [_ Hl]%listed_home. done. Qed.

Lemma nth_listed i : 0 <= i < n -> listed f n (f i) = true.
Proof. intros Hi. apply listed_iff. eauto. Qed.

Lemma write_log_ok : n < NBUF -> pins f n 1 a ->
  returns (write_log s) (fun _ s' => exists x, s' = set_bc x s /\ rep x (a_logged st f n a)).
Proof.
  intros Hlt Hp. unfold write_log. change (bind (gets lh_n) ?k s) with (k n s). cbn beta.
  eapply returns_mono; [apply (for_loop_returns (fun i s' => exists x, s' = set_bc x s /\ rep x (a_logged st f i a)))|].
  - exists (l_bc s). split; [by destruct s|]. eapply rep_ext; [exact Hrep|].
    split; cbn; try done.
    1, 2: intros c; unfold logged; bool_to_prop; try lia; done.
    by rewrite app_nil_r.
  - intros i s' Hi (x & -> & Hx). assert (Hin : 0 <= i < n) by lia. pose proof (Hhome i Hin) as [Hb Hout].
    eapply returns_mono; [eapply (write_log_block_ok (set_bc x s)); [exact Hx|exact Hdev|..]|]; cbn; fold st f.
    + unfold LOGBLOCKS, MAXOPBLOCKS, NBUF in *. lia.
    + done.
    + unfold LOGBLOCKS, MAXOPBLOCKS, NBUF in *. lia.
    + apply Hquiet.
    + apply Hquiet.
    + rewrite Hp, not_home_listed by lia. done.
    + rewrite Hp, nth_listed by done. done.
    + apply (pins_room f n 1 a); [lia|by right|done|done].
    + intros [] s' (x' & -> & Hx'). exists x'. split; [done|]. eapply rep_ext; [exact Hx'|].
      by apply (a_logged_step _ n).
  - intros [] s' (x & -> & Hx). exists x. split; [done|]. by rewrite Z2Nat.id, Z.add_0_l in Hx by lia.
Qed.

Lemma install_trans_ok (recovering : bool) :
  let pinned := if recovering then 0 else 1 in
  (recovering = false -> n < NBUF) -> pins f n pinned a ->
  returns (install_trans recovering s) (fun _ s' => exists x, s' = set_bc x s /\ rep x (a_installed pinned st f n a)).
Proof.
  intros pinned Hlt Hp. unfold install_trans. change (bind (gets lh_n) ?k s) with (k n s). cbn beta.
  eapply returns_mono; [apply (for_loop_returns (fun i s' => exists x, s' = set_bc x s /\ rep x (a_installed pinned st f i a)))|].
  - exists (l_bc s). split; [by destruct s|]. eapply rep_ext; [exact Hrep|].
    split; try done; cbn; [|by rewrite app_nil_r]. intros c. change (listed f 0 c) with false. cbn iota. lia.
  - intros i s' Hi (x & -> & Hx). assert (Hin : 0 <= i < n) by lia. pose proof (Hhome i Hin) as [Hb Hout].
    assert (Hp0 : forall c, 0 <= refs (a_installed pinned st f i a) c <= refs a c).
    { intros c. pose proof (wf_refs _ (rep_wf _ _ Hx) c). cbn in *. unfold pinned in *.
      destruct (listed f i c), recovering; lia. }
    assert (Hpi : refs (a_installed pinned st f i a) (f i) = pinned).
    { cbn. rewrite Hp, nth_listed, (fresh_listed n) by done. lia. }
    eapply returns_mono; [eapply (install_block_ok (set_bc x s)); [exact Hx|exact Hdev|..]|]; cbn [l_start set_bc lh_block]; fold st f.
    + unfold LOGBLOCKS, MAXOPBLOCKS, NBUF in *. lia.
    + done.
    + unfold LOGBLOCKS, MAXOPBLOCKS, NBUF in *. lia.
    + apply Hquiet.
    + apply Hquiet.
    + specialize (Hp0 (st + i + 1)). rewrite Hp, not_home_listed in Hp0 by lia. lia.
    + exact Hpi.
    + apply (pins_room f n pinned a); [lia| |done|apply Hp0]. unfold pinned. destruct recovering; auto.
    + intros h. assert (f i <> st + i + 1) by lia. destruct recovering.
      * right. exists [st + i + 1]. split; [done|]. intros c. cbn. unfold upd.
        destruct (Z.eqb_spec c (st + i + 1)) as [->|]; [by left|]. specialize (Hp0 c). cbn in Hp0. intros Hc.
        rewrite Hp in Hp0, Hc. unfold pinned in *. destruct (listed f n c), (listed f i c); lia.
      * left. cbn [a_get refs]. rewrite upd_ne, Hpi by done. done.
    + intros [] s' (x' & -> & Hx'). exists x'. split; [done|]. eapply rep_ext; [exact Hx'|].
      by apply (a_installed_step _ n).
  - intros [] s' (x & -> & Hx). exists x. split; [done|]. by rewrite Z2Nat.id, Z.add_0_l in Hx by lia.
Qed.

End Commit.

Section Transaction.
Context {BC : BufCache} (s : log) (a : bstate).
Let st := l_start s.
Let n := lh_n s.
Let f := lh_block s.
Hypothesis Hinv : log_inv s a.
Hypothesis Hquiet : quiet a.

(** The cache after [commit]: log copies, header, home blocks, empty header. *)
Definition a_committed : bstate :=
  a_head st 0 f (a_installed 1 st f n (a_head st n f (a_logged st f n a))).

Lemma inv_pins : pins f n 1 a.
Proof. intros b. rewrite (li_refs _ _ Hinv), Hquiet. fold f n. lia. Qed.

Lemma commit_ok : 0 < n < NBUF ->
  returns (commit s) (fun _ s' => exists x, s' = set_bc x (set_lh 0 f s) /\ rep x a_committed).
Proof.
  intros [Hpos Hlt]. pose proof inv_pins as Hp. destruct Hinv as [Hrep Hdev Hst Hn Hhome Hnodup _ _].
  fold st n f in Hst, Hn, Hhome, Hnodup. unfold commit. change (bind (gets lh_n) ?k s) with (k n s). cbn beta.
  destruct (Z.ltb_spec 0 n); [|lia].
  assert (Hno : forall c, st <= c <= st + LOGBLOCKS -> listed f n c = false) by by apply not_home_listed.
  assert (Hrst : refs a st = 0) by (rewrite Hp, Hno by lia; done).
  assert (Hroom : forall a', (forall c, refs a' c <= refs a c) -> room a' st).
  { intros. apply (pins_room f n 1 a); [lia|by right|done|done]. }
  eapply bind_returns; [by apply write_log_ok|]. intros [] s1 (x1 & -> & Hr1).
  eapply bind_returns; [eapply write_head_ok; [exact Hr1|exact Hdev|cbn; fold st; lia|apply Hquiet|done|by apply Hroom]|].
  intros [] s2 (x2 & -> & Hr2).
  eapply bind_returns; [eapply (install_trans_ok (set_bc x2 s)); [exact Hr2|done..]|].
  intros [] s3 (x3 & -> & Hr3). change (bind (modify ?g) ?k ?z) with (k tt (g z)). cbn beta.
  eapply returns_mono; [eapply write_head_ok; [exact Hr3|exact Hdev|cbn; fold st; lia|apply Hquiet|..]|].
  - cbn. fold st n f. rewrite Hrst, Hno by lia. done.
  - apply Hroom. intros c. cbn. fold n f. destruct (listed f n c); lia.
  - intros [] s4 (x4 & -> & Hr4). exists x4. split; [done|exact Hr4].
Qed.

End Transaction.

(** * What a disk means after a crash *)

Section Disk.

(** The header fields after the header has been written. *)
Lemma hd_n_head_of d n f : length d = Z.to_nat BSIZE -> 0 <= n <= LOGBLOCKS -> hd_n (head_of d n f) = n.
Proof.
  intros Hl Hn. assert (Hl' : Z.of_nat (length d) = 1024) by (rewrite Hl; done).
  unfold LOGBLOCKS, MAXOPBLOCKS in Hn. unfold hd_n, head_of.
  assert (Hk : forall k d', 4 <= Z.of_nat (length d') -> le_at (head_blocks d' f k) 0 4 = le_at d' 0 4).
  { intros k d' Hd'. induction k as [|k IH]; cbn [head_blocks]; [done|].
    rewrite le_at_set_ne; [done|lia|rewrite length_head_blocks; lia|lia]. }
  rewrite Hk by (rewrite length_set_le; lia).
  rewrite le_at_set_eq by lia. apply i32_small. lia.
Qed.

Lemma hd_block_head_of d n f i : length d = Z.to_nat BSIZE -> 0 <= n <= LOGBLOCKS -> 0 <= i < n ->
  0 <= f i < 2 ^ 31 -> hd_block (head_of d n f) i = f i.
Proof.
  intros Hl Hn Hi Hf. assert (Hl' : Z.of_nat (length (set_le d 0 4 n)) = 1024) by (rewrite length_set_le, Hl; done).
  unfold LOGBLOCKS, MAXOPBLOCKS in Hn. unfold hd_block, head_of.
  assert (Hk : forall k, (Z.to_nat i < k <= 30)%nat -> le_at (head_blocks (set_le d 0 4 n) f k) (4 + 4 * i) 4 = f i).
  { induction k as [|k IH]; intros Hk; [lia|]. cbn [head_blocks].
    destruct (decide (k = Z.to_nat i)) as [->|].
    - rewrite !Z2Nat.id by lia. apply le_at_set_eq; [lia| |lia]. rewrite length_head_blocks. lia.
    - rewrite le_at_set_ne; [apply IH; lia|lia|rewrite length_head_blocks; lia|lia]. }
  rewrite Hk by lia. apply i32_small. lia.
Qed.

(** The header of a disk names a valid re-do log. *)
Record head_ok (st : Z) (d : Z -> list Z) : Prop := {
  ho_n : 0 <= hd_n (d st) <= LOGBLOCKS;
  ho_home : forall i, 0 <= i < hd_n (d st) -> home st (hd_block (d st) i);
  ho_nodup : forall i j, 0 <= i < hd_n (d st) -> 0 <= j < hd_n (d st) ->
    hd_block (d st) i = hd_block (d st) j -> i = j
}.

(** The contents a disk stands for: what recovery makes of it. *)
Definition replay (st : Z) (d : Z -> list Z) (b : Z) : list Z :=
  replayed st (hd_block (d st)) (hd_n (d st)) d b.

(** The disk after a sequence of block writes. *)
Definition apply_writes (d : Z -> list Z) (w : list (Z * list Z)) : Z -> list Z :=
  foldl (fun d e => upd d e.1 e.2) d w.

Lemma apply_writes_app d w1 w2 : apply_writes d (w1 ++ w2) = apply_writes (apply_writes d w1) w2.
Proof. apply foldl_app. Qed.

Lemma apply_writes_other d w b : (forall e, e ∈ w -> e.1 <> b) -> apply_writes d w b = d b.
Proof.
  revert d. induction w as [|e w IH]; intros d Hw; [done|]. change (apply_writes d (e :: w)) with (apply_writes (upd d e.1 e.2) w).
  rewrite IH by (intros; apply Hw; by right). apply upd_ne. intros Hb. apply (Hw e); [by left|done].
Qed.

(** A block all of whose writes carry the same content. *)
Lemma apply_writes_value d w b v : (forall e, e ∈ w -> e.1 = b -> e.2 = v) ->
  d b = v \/ b ∈ w.*1 -> apply_writes d w b = v.
Proof.
  revert d. induction w as [|e w IH]; intros d Hw Hor; cbn.
  - destruct Hor as [?|Hin]; [done|]. by apply not_elem_of_nil in Hin.
  - apply IH; [intros; apply Hw; [by right|done]|]. cbn in Hor. rewrite elem_of_cons in Hor.
    unfold upd. destruct (Z.eqb_spec b e.1) as [->|].
    + left. apply Hw; [by left|done].
    + destruct Hor as [?|[?|?]]; [by left|done|by right].
Qed.

Lemma replayed_ext st f g n v w b : (forall i, 0 <= i < n -> f i = g i) ->
  (forall i, 0 <= i < n -> v (st + i + 1) = w (st + i + 1)) -> v b = w b ->
  replayed st f n v b = replayed st g n w b.
Proof.
  intros Hf Hl Hb. unfold replayed.
  assert (scan (fun i => f i =? b) n = scan (fun i => g i =? b) n) as ->.
  { apply scan_ext. intros. by rewrite Hf. }
  destruct (scan _ n) as [j|] eqn:Hs; [|done]. apply scan_Some in Hs as (Hj & _). auto.
Qed.

Lemma replay_empty st d b : hd_n (d st) = 0 -> replay st d b = d b.
Proof. intros H0. unfold replay, replayed. by rewrite H0. Qed.

(** The writes of [commit], in order. *)
Definition commit_writes (st : Z) (f : Z -> Z) (n : Z) (v : Z -> list Z) : list (Z * list Z) :=
  log_writes st f n v ++ (st, head_of (v st) n f) ::
  ((fun i => (f i, v (f i))) <$> seqZ 0 n) ++ [(st, head_of (head_of (v st) n f) 0 f)].

(** The writes of recovery, in order. *)
Definition recovery_writes (st : Z) (f : Z -> Z) (n : Z) (d : Z -> list Z) : list (Z * list Z) :=
  install_writes st f n d ++ [(st, head_of (d st) 0 f)].

Context (st n : Z) (f : Z -> Z) (d v : Z -> list Z).
Hypothesis Hst : 0 < st /\ st + LOGBLOCKS < 2 ^ 31.
Hypothesis Hn : 0 <= n <= LOGBLOCKS.
Hypothesis Hhome : forall i, 0 <= i < n -> home st (f i).
Hypothesis Hnodup : forall i j, 0 <= i < n -> 0 <= j < n -> f i = f j -> i = j.

Lemma home_not_log b i : home st b -> 0 <= i <= LOGBLOCKS -> b <> st + i.
Proof. intros [_ Hb] Hi ->. apply Hb. lia. Qed.

Lemma elem_log_writes e : e ∈ log_writes st f n v -> exists i, 0 <= i < n /\ e = (st + i + 1, v (f i)).
Proof. intros (i & -> & Hi%elem_of_seqZ)%list_elem_of_fmap. exists i. split; [lia|done]. Qed.

Lemma log_writes_out w b : w ⊆ log_writes st f n v -> (b = st \/ home st b) -> apply_writes d w b = d b.
Proof.
  intros Hw Hb. apply apply_writes_other. intros e He. apply Hw, elem_log_writes in He as (i & Hi & ->). cbn.
  destruct Hb as [->|Hb]; [lia|]. pose proof (home_not_log b (i + 1) Hb ltac:(lia)). lia.
Qed.

Lemma log_writes_copy i : 0 <= i < n -> apply_writes d (log_writes st f n v) (st + i + 1) = v (f i).
Proof.
  intros Hi. apply apply_writes_value.
  - intros e (j & Hj & ->)%elem_log_writes He. cbn in *. do 2 f_equal. lia.
  - right. unfold log_writes. rewrite <- list_fmap_compose. apply list_elem_of_fmap. exists i.
    split; [done|]. apply elem_of_seqZ. lia.
Qed.

Lemma subset_take {A} (l : list A) k : take k l ⊆ l.
Proof. intros x Hx. rewrite <- (take_drop k l). apply elem_of_app. by left. Qed.

(** Writes to home blocks, each with its final content [g]: what they leave. *)
Lemma home_writes d' w g b : (forall e, e ∈ w -> exists i, 0 <= i < n /\ e = (f i, g (f i))) ->
  apply_writes d' w b = d' b \/ (listed f n b = true /\ apply_writes d' w b = g b).
Proof.
  intros Hw. destruct (decide (b ∈ w.*1)) as [Hin|Hout].
  - right. pose proof Hin as Hin'. apply list_elem_of_fmap in Hin' as (e & -> & He).
    split.
    + apply Hw in He as (i & Hi & ->). apply listed_iff. eauto.
    + apply apply_writes_value; [|by right]. intros e' He' Heq. rewrite <- Heq.
      apply Hw in He' as (j & Hj & ->). done.
  - left. apply apply_writes_other. intros e He <-. apply Hout. apply list_elem_of_fmap. eauto.
Qed.

Lemma home_writes_log d' w g b : (forall e, e ∈ w -> exists i, 0 <= i < n /\ e = (f i, g (f i))) ->
  st <= b <= st + LOGBLOCKS -> apply_writes d' w b = d' b.
Proof.
  intros Hw Hb. destruct (home_writes d' w g b Hw) as [?|[Hl _]]; [done|].
  apply listed_iff in Hl as (i & Hi & <-). destruct (Hhome i Hi). done.
Qed.

Lemma home_writes_all d' (g : Z -> list Z) b : listed f n b = true ->
  apply_writes d' ((fun i => (f i, g (f i))) <$> seqZ 0 n) b = g b.
Proof.
  intros (i & Hi & <-)%listed_iff. apply apply_writes_value.
  - intros e (j & -> & Hj%elem_of_seqZ)%list_elem_of_fmap. cbn. by intros ->.
  - right. rewrite <- list_fmap_compose. apply list_elem_of_fmap. exists i. split; [done|]. apply elem_of_seqZ. lia.
Qed.

Lemma elem_home_writes k (g : Z -> list Z) e : e ∈ take k ((fun i => (f i, g (f i))) <$> seqZ 0 n) ->
  exists i, 0 <= i < n /\ e = (f i, g (f i)).
Proof.
  intros He. apply subset_take in He. apply list_elem_of_fmap in He as (i & -> & Hi%elem_of_seqZ).
  exists i. split; [lia|done].
Qed.

(** The log read back through its header. *)
Lemma replay_header d' : d' st = head_of (v st) n f -> length (v st) = Z.to_nat BSIZE ->
  head_ok st d' /\ (forall b, replay st d' b = replayed st f n d' b).
Proof.
  intros Hd Hl.
  assert (Hhn : hd_n (d' st) = n) by (rewrite Hd; by apply hd_n_head_of).
  assert (Hhb : forall i, 0 <= i < n -> hd_block (d' st) i = f i).
  { intros i Hi. rewrite Hd. apply hd_block_head_of; [done..|]. apply Hhome. done. }
  split.
  - split; rewrite Hhn; [done|intros; rewrite Hhb by done; auto|].
    intros i j Hi Hj. rewrite !Hhb by done. auto.
  - intros b. unfold replay. rewrite Hhn. by apply replayed_ext.
Qed.

Lemma replayed_value d' g b : (forall i, 0 <= i < n -> d' (st + i + 1) = g (f i)) ->
  replayed st f n d' b = if listed f n b then g b else d' b.
Proof.
  intros Hl. unfold replayed, listed. destruct (scan _ n) as [i|] eqn:Hs; cbn.
  - apply scan_Some in Hs as (Hi & He & _). apply Z.eqb_eq in He as <-. auto.
  - done.
Qed.

Lemma empty_head_ok d' : hd_n (d' st) = 0 -> head_ok st d'.
Proof. intros H0. split; rewrite H0; [done|lia..]. Qed.

Hypothesis Hempty : hd_n (d st) = 0.
Hypothesis Hlen : length (v st) = Z.to_nat BSIZE.
Hypothesis Hclean : forall b, home st b -> listed f n b = false -> d b = v b.

Lemma prefix_old k :
  let d' := apply_writes d (take k (log_writes st f n v)) in
  head_ok st d' /\ forall b, home st b -> replay st d' b = d b.
Proof.
  assert (Hout : forall b, b = st \/ home st b -> apply_writes d (take k (log_writes st f n v)) b = d b).
  { intros. apply log_writes_out; [apply subset_take|done]. }
  split; [apply empty_head_ok; rewrite Hout; auto|].
  intros b Hb. rewrite replay_empty by (rewrite Hout; auto). auto.
Qed.

(** Once the header is on disk: any part of the installation, and the final
    header. *)
Let d2 := upd (apply_writes d (log_writes st f n v)) st (head_of (v st) n f).
Let inst := (fun i => (f i, v (f i))) <$> seqZ 0 n.

Lemma installed_unlisted j b : home st b -> listed f n b = false -> apply_writes d2 (take j inst) b = v b.
Proof.
  intros Hb Hnl. destruct (home_writes d2 (take j inst) v b) as [->|[? _]];
    [intros; by eapply elem_home_writes| |congruence].
  unfold d2. rewrite upd_ne by (pose proof (home_not_log b 0 Hb); lia). rewrite log_writes_out by auto. auto.
Qed.

Lemma installed_log j b : st <= b <= st + LOGBLOCKS -> apply_writes d2 (take j inst) b = d2 b.
Proof. apply (home_writes_log d2 (take j inst) v). intros; by eapply elem_home_writes. Qed.

Lemma prefix_new j :
  let d' := apply_writes d2 (take j (inst ++ [(st, head_of (head_of (v st) n f) 0 f)])) in
  head_ok st d' /\ forall b, home st b -> replay st d' b = v b.
Proof.
  rewrite take_app, apply_writes_app. set (d3 := apply_writes d2 (take j inst)).
  destruct (j - _)%nat as [|j'] eqn:Hj; cbn [take].
  - cbn [apply_writes foldl]. destruct (replay_header d3) as [Hok Hrp]; [|done|].
    { unfold d3. rewrite installed_log by (unfold LOGBLOCKS, MAXOPBLOCKS; lia). apply upd_eq. }
    split; [done|]. intros b Hb. rewrite Hrp, (replayed_value d3 v).
    { destruct (listed f n b) eqn:Hnl; [done|by apply installed_unlisted]. }
    intros i Hi. unfold d3. rewrite installed_log by lia.
    unfold d2. rewrite upd_ne by lia. by apply log_writes_copy.
  - rewrite take_nil. change (apply_writes d3 [?e]) with (upd d3 e.1 e.2). cbn [fst snd].
    assert (H0 : hd_n (upd d3 st (head_of (head_of (v st) n f) 0 f) st) = 0).
    { rewrite upd_eq. apply hd_n_head_of; [by rewrite length_head_of|unfold LOGBLOCKS, MAXOPBLOCKS; lia]. }
    split; [by apply empty_head_ok|]. intros b Hb. rewrite replay_empty by done.
    rewrite upd_ne by (pose proof (home_not_log b 0 Hb); lia).
    destruct (listed f n b) eqn:Hnl; [|by apply installed_unlisted]. unfold d3. rewrite take_ge by lia.
    by apply home_writes_all.
Qed.

(** After any prefix of the writes of [commit] the disk has a valid header and
    stands for the old contents (before the header is written) or for the new
    ones (after). *)
Lemma commit_prefix k :
  let d' := apply_writes d (take k (commit_writes st f n v)) in
  head_ok st d' /\ forall b, home st b -> replay st d' b = if Z.of_nat k <=? n then d b else v b.
Proof.
  assert (HL : length (log_writes st f n v) = Z.to_nat n).
  { unfold log_writes. by rewrite length_fmap, length_seqZ. }
  unfold commit_writes. rewrite take_app, apply_writes_app, HL. destruct (Z.leb_spec (Z.of_nat k) n).
  - rewrite (proj2 (Nat.sub_0_le _ _)) by lia. apply prefix_old.
  - rewrite take_ge by lia. destruct (k - Z.to_nat n)%nat as [|j] eqn:Hj; [lia|]. apply prefix_new.
Qed.

End Disk.

(** * Recovery *)

Section Recovery.
Context {BC : BufCache} (s : log) (a : bstate).
Let st := l_start s.
Let n := hd_n (disk a st).
Hypothesis Hrep : rep (l_bc s) a.
Hypothesis Hdev : l_dev s = ROOTDEV.
Hypothesis Hst : 0 < st /\ st + LOGBLOCKS < 2 ^ 31.
Hypothesis Hok : head_ok st (disk a).
Hypothesis Hquiet : quiet a.
Hypothesis Hidle : forall b, refs a b = 0.

Lemma idle_room a' b : (forall c, refs a' c = 0) -> room a' b.
Proof. intros Hi. right. exists []. split; [done|]. intros c Hc. rewrite Hi in Hc. lia. Qed.

Lemma idle_clean b : view a b = disk a b.
Proof. by apply (wf_clean _ (rep_wf _ _ Hrep)). Qed.

Lemma read_head_ok :
  returns (read_head s) (fun _ s' => exists x f, s' = set_bc x (set_lh n f s) /\ rep x a /\
    forall i, 0 <= i < n -> f i = hd_block (disk a st) i).
Proof.
  pose proof (eq_refl : LOGBLOCKS = 30). unfold read_head. change (bind get ?k s) with (k s s). cbn beta. fold st. rewrite Hdev, u32_small by lia.
  eapply on_bc_bind; [eapply bread_spec; [done|lia|done|rewrite Hidle; lia|by apply idle_room]|].
  intros h x1 Hr1. cbn beta in Hr1. change (bind (gets ?g) ?k ?z) with (k (g z) z). cbn beta.
  pose proof (held_spec _ _ st h Hr1 ltac:(at_upd)) as [_ Hd]. cbn [set_bc l_bc]. rewrite Hd. cbn [a_get view].
  rewrite idle_clean. fold n. change (bind (modify ?g) ?k ?z) with (k tt (g z)). cbn beta.
  eapply bind_returns.
  { apply (for_loop_returns (fun i s' => exists f, s' = set_bc x1 (set_lh n f s) /\
      forall j, 0 <= j < i -> f j = hd_block (disk a st) j)).
    - exists (lh_block s). split; [done|]. lia.
    - intros i s' Hi (f & -> & Hf). pose proof (ho_n _ _ Hok) as Hn. fold n in Hn.
      destruct (Z.leb_spec LOGBLOCKS i); [lia|]. cbn. eexists. split; [done|].
      intros j Hj. unfold upd. destruct (Z.eqb_spec j i) as [->|]; [done|]. apply Hf. lia. }
  intros [] s' (f & -> & Hf). pose proof (Hidle st) as H0.
  eapply returns_mono; [apply on_bc_last; eapply (brelse_spec _ _ st); [exact Hr1|at_upd|intros _; at_upd; apply idle_clean]|].
  intros [] s' (x2 & -> & Hr2). exists x2, f. split_and!; [done| |].
  - eapply rep_ext; [exact Hr2|]. pose proof (Hquiet st). bst_solve.
  - intros i Hi. apply Hf. lia.
Qed.

Lemma recover_ok :
  returns (recover_from_log s) (fun _ s' => exists x f, s' = set_bc x (set_lh 0 f s) /\
    (forall i, 0 <= i < n -> f i = hd_block (disk a st) i) /\
    rep x (a_head st 0 f (a_installed 0 st f n a))).
Proof.
  unfold recover_from_log. eapply bind_returns; [apply read_head_ok|].
  intros [] s1 (x1 & f & -> & Hr1 & Hf). pose proof (ho_n _ _ Hok) as Hn. fold n in Hn.
  eapply bind_returns; [eapply (install_trans_ok (set_bc x1 (set_lh n f s)) a); cbn; fold st|].
  - done.
  - done.
  - done.
  - done.
  - intros i Hi. rewrite Hf by done. by apply (ho_home _ _ Hok).
  - intros i j Hi Hj. rewrite !Hf by done. by apply (ho_nodup _ _ Hok).
  - done.
  - done.
  - intros b. rewrite Hidle. by destruct (listed f n b).
  - intros [] s2 (x2 & -> & Hr2). change (bind (modify ?g) ?k ?z) with (k tt (g z)). cbn beta.
    assert (Hz : forall c, refs (a_installed 0 st f n a) c = 0).
    { intros c. cbn [a_installed refs]. rewrite Hidle. by destruct (listed f n c). }
    eapply returns_mono; [eapply write_head_ok; [exact Hr2|exact Hdev|cbn; fold st; lia|apply Hquiet|apply Hz|by apply idle_room]|].
    intros [] s3 (x3 & -> & Hr3). exists x3, f. split_and!; [done|done|exact Hr3].
Qed.

End Recovery.

Section RecoveryDisk.
Context (st : Z) (f : Z -> Z) (d : Z -> list Z).
Let n := hd_n (d st).
Hypothesis Hst : 0 < st /\ st + LOGBLOCKS < 2 ^ 31.
Hypothesis Hok : head_ok st d.
Hypothesis Hlen : length (d st) = Z.to_nat BSIZE.
Hypothesis Hf : forall i, 0 <= i < n -> f i = hd_block (d st) i.

Lemma rec_home i : 0 <= i < n -> home st (f i).
Proof. intros Hi. rewrite Hf by done. by apply (ho_home _ _ Hok). Qed.

Lemma rec_nodup i j : 0 <= i < n -> 0 <= j < n -> f i = f j -> i = j.
Proof. intros Hi Hj. rewrite !Hf by done. by apply (ho_nodup _ _ Hok). Qed.

Lemma replay_eq b : replay st d b = replayed st f n d b.
Proof. unfold replay. fold n. apply replayed_ext; [|done..]. intros. symmetry. auto. Qed.

Lemma replay_logged i : 0 <= i < n -> replay st d (f i) = d (st + i + 1).
Proof.
  intros Hi. rewrite replay_eq. unfold replayed. rewrite (scan_first _ n i); [done|lia|apply Z.eqb_refl|].
  intros j Hj. apply Z.eqb_neq. intros He. apply rec_nodup in He; lia.
Qed.

Lemma replay_unlisted b : listed f n b = false -> replay st d b = d b.
Proof.
  intros Hl. rewrite replay_eq. unfold replayed, listed in *. by destruct (scan _ n).
Qed.

Lemma install_writes_eq : install_writes st f n d = (fun i => (f i, replay st d (f i))) <$> seqZ 0 n.
Proof.
  apply list_fmap_ext. intros k i Hi. rewrite replay_logged; [done|].
  apply list_elem_of_lookup_2, elem_of_seqZ in Hi. lia.
Qed.

(** A crash during recovery loses nothing: after any prefix of its writes the
    disk stands for the same contents as before. *)
Lemma recovery_prefix k :
  let d' := apply_writes d (take k (recovery_writes st f n d)) in
  head_ok st d' /\ forall b, home st b -> replay st d' b = replay st d b.
Proof.
  pose proof (ho_n _ _ Hok) as Hn. fold n in Hn.
  unfold recovery_writes. rewrite install_writes_eq, take_app, apply_writes_app.
  set (inst := take k _). set (d3 := apply_writes d inst).
  assert (Hin : forall e, e ∈ inst -> exists i, 0 <= i < n /\ e = (f i, replay st d (f i))).
  { intros e. apply elem_home_writes. }
  assert (Hlog : forall b, st <= b <= st + LOGBLOCKS -> d3 b = d b).
  { intros b Hb. by apply (home_writes_log st n f rec_home d inst (replay st d)). }
  assert (Hun : forall b, listed f n b = false -> d3 b = d b).
  { intros b Hb. destruct (home_writes n f d inst (replay st d) b Hin) as [?|[? _]]; [done|congruence]. }
  assert (Hhd : d3 st = d st) by (apply Hlog; lia).
  destruct (k - _)%nat as [|k'] eqn:Hk; cbn [take].
  - cbn [apply_writes foldl]. split; [split; rewrite Hhd; apply Hok|].
    intros b Hb. assert (replay st d3 b = replayed st f n d3 b) as ->.
    { unfold replay. rewrite Hhd. apply replayed_ext; [|done..]. intros. symmetry. auto. }
    rewrite (replayed_value st n f d3 (replay st d)).
    + destruct (listed f n b) eqn:Hl; [done|]. rewrite Hun, replay_unlisted by done. done.
    + intros i Hi. rewrite Hlog, replay_logged by lia. done.
  - rewrite take_nil. change (apply_writes d3 [?e]) with (upd d3 e.1 e.2). cbn [fst snd].
    assert (H0 : hd_n (upd d3 st (head_of (d st) 0 f) st) = 0).
    { rewrite upd_eq. apply hd_n_head_of; [done|unfold LOGBLOCKS, MAXOPBLOCKS; lia]. }
    split; [by apply empty_head_ok|]. intros b Hb. rewrite replay_empty by done.
    rewrite upd_ne by (pose proof (home_not_log st b 0 Hb); lia).
    destruct (listed f n b) eqn:Hl; [|by rewrite Hun, replay_unlisted].
    unfold d3, inst. rewrite take_ge by lia. by apply home_writes_all.
Qed.

End RecoveryDisk.
