(* ===== verification/LogClaims.v ===== *)
(** The log as the file system relies on it: recovery, atomicity of a commit
    across crashes, and the operations of several interleaved system calls
    between commits. *)
From S2P Require Import Prelude Bufcache Log.
Local Open Scope kern_scope.

Section Claims.
Context {BC : BufCache}.

(** The kernel's globals at boot, over a disk. *)
Definition boot (d : Z -> list Z) : log := mk_log 0 0 false 0 0 (fun _ => 0) (bboot d).

Definition blocks_ok (d : Z -> list Z) : Prop := forall b, length (d b) = Z.to_nat BSIZE.

Lemma apply_writes_blocks d w :
  blocks_ok d -> (forall e, e ∈ w -> length e.2 = Z.to_nat BSIZE) -> blocks_ok (apply_writes d w).
Proof.
  revert d. induction w as [|e w IH]; intros d Hd Hw; [done|]. apply (IH (upd d e.1 e.2)).
  - intros b. unfold upd. destruct (b =? e.1); [apply Hw; by left|apply Hd].
  - intros. apply Hw. by right.
Qed.

(** The log of a kernel that starts with the cache [x]. *)
Definition boot_log (x : bc) : log := mk_log 0 0 false 0 0 (fun _ => 0) x.

(** Recovery with a cache in which no block is in use. *)
Lemma recover_from x st d : rep x (a_boot d) ->
  0 < st -> st + LOGBLOCKS < 2 ^ 31 -> blocks_ok d -> head_ok st d ->
  returns (initlog ROOTDEV st (boot_log x)) (fun _ s' => exists a' f,
    log_inv s' a' /\ quiet a' /\ lh_n s' = 0 /\ l_start s' = st /\ l_outstanding s' = 0 /\ l_committing s' = false /\
    (forall i, 0 <= i < hd_n (d st) -> f i = hd_block (d st) i) /\
    writes a' = recovery_writes st f (hd_n (d st)) d /\
    forall b, home st b -> view a' b = replay st d b /\ disk a' b = replay st d b).
Proof.
  intros Hx Hst Hlt Hd Hok. pose proof (eq_refl : LOGBLOCKS = 30) as HL. unfold initlog.
  change (BSIZE <=? sizeof_logheader) with false. mstep.
  mstep. rewrite i32_small by lia.
  eapply returns_mono.
  { eapply (recover_ok _ (a_boot d)); cbn [l_bc l_dev l_start boot_log]; done. }
  cbn [l_start a_boot disk]. set (n := hd_n (d st)). intros [] s' (x' & f & -> & Hf & Hr).
  pose proof (ho_n _ _ Hok) as Hn. fold n in Hn.
  assert (Hfh : forall i, 0 <= i < n -> home st (f i)) by (apply rec_home; done).
  exists (a_head st 0 f (a_installed 0 st f n (a_boot d))), f. split; [|split; [by intros b|split_and!; [done| |done|done|exact Hf| |]]].
  - split; cbn [l_bc set_bc l_dev set_lh l_start lh_n lh_block]; [exact Hr|done|lia|lia|lia|lia| |].
    + intros b. cbn [a_head a_installed refs held a_boot]. change (listed f 0 b) with false. destruct (listed f n b); done.
    + cbn. rewrite upd_eq. apply hd_n_head_of; [|lia]. rewrite (replayed_log st n f) by (done || lia). apply Hd.
  - done.
  - cbn. unfold recovery_writes. rewrite (replayed_log st n f) by (done || lia). done.
  - intros b Hb. cbn. assert (b <> st) by (pose proof (home_not_log st b 0 Hb); lia). rewrite !upd_ne by done.
    rewrite (replay_eq st f d Hf). fold n. destruct (listed f n b) eqn:Hl; [done|].
    split; [done|]. unfold replayed, listed in *. destruct (scan _ n); done.
Qed.

(** Recovery as the crash theorems use it. *)
Lemma recover_replay st d :
  0 < st -> st + LOGBLOCKS < 2 ^ 31 -> blocks_ok d -> head_ok st d ->
  returns (initlog ROOTDEV st (boot d)) (fun _ s' => exists a' f,
    log_inv s' a' /\ quiet a' /\ lh_n s' = 0 /\ l_start s' = st /\ l_outstanding s' = 0 /\ l_committing s' = false /\
    (forall i, 0 <= i < hd_n (d st) -> f i = hd_block (d st) i) /\
    writes a' = recovery_writes st f (hd_n (d st)) d /\
    forall b, home st b -> view a' b = replay st d b /\ disk a' b = replay st d b).
Proof. intros Hst Hlt Hd. apply (recover_from (bboot d)); [|done..]. by apply bboot_spec. Qed.

(** Recovery after a crash.  From any disk whose log header is valid,
    [initlog] terminates without a panic with every home block holding its
    logged copy if the log has one and its own content otherwise, and with an
    empty log; and if the machine crashes again after any number of the disk
    writes of this recovery, the disk still has a valid header and recovering
    from it gives the same contents. *)
Theorem recovery_replays_and_is_idempotent (st : Z) (d : Z -> list Z)
    (Hst : 0 < st) (Hend : st + LOGBLOCKS < 2 ^ 31) (Hd : blocks_ok d) (Hok : head_ok st d) :
  returns (initlog ROOTDEV st (boot d)) (fun _ s' => exists a',
    log_inv s' a' /\ lh_n s' = 0 /\
    (forall b, home st b -> view a' b = replay st d b /\ disk a' b = replay st d b) /\
    forall k, let d' := apply_writes d (take k (writes a')) in
      returns (initlog ROOTDEV st (boot d')) (fun _ s'' => exists a'',
        log_inv s'' a'' /\ forall b, home st b -> disk a'' b = replay st d b)).
Proof.
  eapply returns_mono; [by apply recover_replay|].
  intros [] s' (a' & f & Hinv & _ & Hn & Hs & _ & _ & Hf & Hw & Hb). exists a'. split_and!; [done..|].
  intros k d'. pose proof (recovery_prefix st f d) as Hp. specialize (Hp Hok (Hd st) Hf k).
  rewrite <- Hw in Hp. fold d' in Hp. cbn zeta in Hp. destruct Hp as [Hok' Hrp].
  eapply returns_mono; [apply (recover_replay st d'); [done..| |done]|].
  - apply apply_writes_blocks; [done|]. intros e He. apply subset_take in He. rewrite Hw in He.
    unfold recovery_writes in He. apply elem_of_app in He as [He|He].
    + apply list_elem_of_fmap in He as (i & -> & _). apply Hd.
    + apply list_elem_of_singleton in He as ->. cbn. rewrite length_head_of. apply Hd.
  - intros [] s'' (a'' & f' & Hinv' & _ & _ & _ & _ & _ & _ & _ & Hb'). exists a''. split; [done|].
    intros b Hhb. rewrite (proj2 (Hb' b Hhb)). by apply Hrp.
Qed.

(** The cache that [commit] leaves. *)
Section Committed.
Context (s : log) (a : bstate).
Let st := l_start s.
Let n := lh_n s.
Let f := lh_block s.
Hypothesis Hinv : log_inv s a.
Hypothesis Hq : quiet a.
Let a2 := a_head st n f (a_logged st f n a).

Lemma head_home c : home st c -> view a2 c = view a c /\ disk a2 c = disk a c.
Proof.
  intros Hc. pose proof (li_n _ _ Hinv) as Hn. fold n in Hn.
  assert (c <> st) by (pose proof (home_not_log st c 0 Hc); lia).
  unfold a2, a_head, a_logged, logged. cbn. rewrite !upd_ne by done.
  destruct Hc as [_ Hc]. destruct (Z.ltb_spec st c), (Z.leb_spec c (st + n)); cbn; try done; lia.
Qed.

Lemma head_log i : 0 <= i < n -> view a2 (st + i + 1) = view a (f i).
Proof.
  intros Hi. unfold a2, a_head, a_logged, logged. cbn. rewrite upd_ne by lia.
  destruct (Z.ltb_spec st (st + i + 1)), (Z.leb_spec (st + i + 1) (st + n)); try lia. cbn. do 2 f_equal. lia.
Qed.

Lemma head_block : view a2 st = head_of (view a st) n f.
Proof. unfold a2, a_head, a_logged, logged. cbn. rewrite upd_eq. by rewrite Z.ltb_irrefl. Qed.

Lemma installed_head : replayed st f n (view a2) st = head_of (view a st) n f.
Proof.
  pose proof (li_n _ _ Hinv). rewrite (replayed_log st n f); [apply head_block|apply (li_home _ _ Hinv)|unfold n; lia|lia].
Qed.

Lemma committed_writes : writes (a_committed s a) = writes a ++ commit_writes st f n (view a).
Proof.
  unfold a_committed. cbn [a_head writes]. fold st n f.
  change (view (a_installed 1 st f n ?z) st) with (replayed st f n (view z) st). fold a2. rewrite installed_head.
  cbn [a_installed writes]. unfold a2 at 1. cbn [a_head writes a_logged].
  assert (Hh : view (a_logged st f n a) st = view a st) by (cbn; unfold logged; by rewrite Z.ltb_irrefl).
  rewrite Hh. unfold commit_writes. rewrite <- !app_assoc. do 3 f_equal. f_equal.
  apply list_fmap_ext. intros k i Hi. f_equal. apply head_log.
  apply list_elem_of_lookup_2, elem_of_seqZ in Hi. lia.
Qed.

Lemma committed_home b : home st b -> view (a_committed s a) b = view a b /\ disk (a_committed s a) b = view a b.
Proof.
  intros Hb. unfold a_committed. cbn [a_head view disk]. fold st n f. fold a2. pose proof (li_n _ _ Hinv) as Hn.
  assert (b <> st) by (pose proof (home_not_log st b 0 Hb); lia). rewrite !upd_ne by done.
  cbn [a_installed view disk]. rewrite (replayed_value st n f (view a2) (view a)) by apply head_log.
  destruct (head_home b Hb) as [-> ->]. destruct (listed f n b) eqn:Hnl; [done|]. split; [done|].
  symmetry. apply (wf_clean _ (rep_wf _ _ (li_rep _ _ Hinv))). rewrite (inv_pins s a Hinv Hq). fold f n. by rewrite Hnl.
Qed.

Lemma committed_inv x : rep x (a_committed s a) -> log_inv (set_bc x (set_lh 0 f s)) (a_committed s a).
Proof.
  intros Hr. pose proof (li_start _ _ Hinv) as Hst. pose proof (eq_refl : LOGBLOCKS = 30).
  split; cbn [l_bc set_bc l_dev set_lh l_start lh_n lh_block]; [exact Hr|apply (li_dev _ _ Hinv)|lia|lia|lia|lia| |].
  - intros b. change (listed f 0 b) with false. unfold a_committed. cbn [a_head a_installed refs held a_logged].
    rewrite Hq, (inv_pins s a Hinv Hq). destruct (listed _ _ b); done.
  - unfold a_committed. fold st f n. fold a2. cbn [a_head disk a_installed view]. rewrite upd_eq.
    rewrite installed_head. apply hd_n_head_of; [|lia]. rewrite length_head_of. apply (wf_view_length _ (rep_wf _ _ (li_rep _ _ Hinv))).
Qed.

(** What [commit] does to an idle cache. *)
Lemma commit_effect : n < NBUF ->
  returns (commit s) (fun _ s' => exists a' w,
    log_inv s' a' /\ quiet a' /\ lh_n s' = 0 /\ l_start s' = st /\ l_outstanding s' = l_outstanding s /\
    l_committing s' = l_committing s /\ writes a' = writes a ++ w /\
    (forall b, home st b -> view a' b = view a b /\ disk a' b = view a b) /\
    w = if 0 <? n then commit_writes st f n (view a) else []).
Proof.
  intros Hlt. pose proof (li_n _ _ Hinv) as Hn. fold n in Hn. destruct (Z.ltb_spec 0 n).
  - eapply returns_mono; [by apply (commit_ok s a)|]. intros [] s' (x & -> & Hr).
    exists (a_committed s a), (commit_writes st f n (view a)).
    split; [by apply committed_inv|split; [exact Hq|split_and!; [done..| | |done]]].
    + apply committed_writes.
    + apply committed_home.
  - unfold commit. mstep. fold n.
    destruct (Z.ltb_spec 0 n); [lia|]. cbn. exists a, []. rewrite app_nil_r.
    split_and!; try done; [unfold n in *; lia|]. intros b Hb. split; [done|]. symmetry.
    apply (wf_clean _ (rep_wf _ _ (li_rep _ _ Hinv))).
    rewrite (li_refs _ _ Hinv), Hq. fold n. replace n with 0 by lia. done.
Qed.

End Committed.

(** Every block that [commit] writes is a whole block. *)
Lemma commit_writes_blocks st f n v e : blocks_ok v -> e ∈ commit_writes st f n v -> length e.2 = Z.to_nat BSIZE.
Proof.
  intros Hv He. unfold commit_writes, log_writes in He. rewrite elem_of_app, elem_of_cons, elem_of_app in He.
  destruct He as [(i & -> & _)%list_elem_of_fmap|[->|[(i & -> & _)%list_elem_of_fmap|He%list_elem_of_singleton]]];
    [..|subst e]; cbn; rewrite ?length_head_of; apply Hv.
Qed.

(** [end_op] of the last outstanding operation. *)
Lemma end_op_commits s a : log_inv s a -> quiet a -> lh_n s < NBUF -> l_outstanding s = 1 -> l_committing s = false ->
  returns (end_op s) (fun _ s' => exists a' w,
    log_inv s' a' /\ quiet a' /\ lh_n s' = 0 /\ l_start s' = l_start s /\ l_outstanding s' = 0 /\
    l_committing s' = false /\ writes a' = writes a ++ w /\
    (forall b, home (l_start s) b -> view a' b = view a b /\ disk a' b = view a b) /\
    w = if 0 <? lh_n s then commit_writes (l_start s) (lh_block s) (lh_n s) (view a) else []).
Proof.
  intros Hinv Hq Hlt Hout Hcom. unfold end_op. mstep.
  mstep. rewrite Hcom, Hout.
  mstep. change (1 - 1 =? 0) with true. cbn iota.
  mstep.
  set (s1 := set_committing true _).
  assert (Hinv1 : log_inv s1 a) by (destruct Hinv; by split).
  eapply bind_returns; [by apply (commit_effect s1 a)|].
  intros [] s2 (a' & w & Hinv2 & Hq2 & Hn2 & Hs2 & Ho2 & Hc2 & Hw & Hb & Hweq). cbn. exists a', w.
  split; [destruct Hinv2; by split|]. split_and!; done.
Qed.

(** The commit and its crashes: after [k] of its disk writes recovery finds
    the old contents, or the new ones. *)
Lemma end_op_crash s a : log_inv s a -> quiet a -> lh_n s < NBUF -> l_outstanding s = 1 -> l_committing s = false ->
  returns (end_op s) (fun _ s' => exists a' w,
    log_inv s' a' /\ quiet a' /\ lh_n s' = 0 /\ l_start s' = l_start s /\ l_outstanding s' = 0 /\ l_committing s' = false /\
    writes a' = writes a ++ w /\
    (forall b, home (l_start s) b -> view a' b = view a b /\ disk a' b = view a b) /\
    forall k, returns (initlog ROOTDEV (l_start s) (boot (apply_writes (disk a) (take k w)))) (fun _ s'' =>
      exists a'', log_inv s'' a'' /\ quiet a'' /\ lh_n s'' = 0 /\ l_start s'' = l_start s /\ l_outstanding s'' = 0 /\
        l_committing s'' = false /\ forall b, home (l_start s) b ->
        view a'' b = (if Z.of_nat k <=? lh_n s then disk a b else view a b) /\
        disk a'' b = if Z.of_nat k <=? lh_n s then disk a b else view a b)).
Proof.
  intros Hinv Hq Hn Hout Hcom. eapply returns_mono; [by apply (end_op_commits s a)|].
  intros [] s' (a' & w & Hinv' & Hq' & Hn' & Hs' & Ho' & Hc' & Hw & Hb & Hweq). exists a', w. split; [done|]. split; [done|]. split_and!; [done..|].
  intros k. pose proof (rep_wf _ _ (li_rep _ _ Hinv)) as Hwf. pose proof (li_start _ _ Hinv) as Hst.
  assert (Hcl : forall b, home (l_start s) b -> listed (lh_block s) (lh_n s) b = false -> disk a b = view a b).
  { intros b _ Hl. symmetry. apply (wf_clean _ Hwf). by rewrite (inv_pins s a Hinv Hq), Hl. }
  assert (Hpre : head_ok (l_start s) (apply_writes (disk a) (take k w)) /\ forall b, home (l_start s) b ->
    replay (l_start s) (apply_writes (disk a) (take k w)) b = if Z.of_nat k <=? lh_n s then disk a b else view a b).
  { subst w. destruct (Z.ltb_spec 0 (lh_n s)).
    - by apply (commit_prefix _ _ _ _ _ (li_n _ _ Hinv) (li_home _ _ Hinv) (li_nodup _ _ Hinv) (li_head _ _ Hinv)
        (wf_view_length _ Hwf _) Hcl k).
    - rewrite take_nil. cbn. split; [apply empty_head_ok, (li_head _ _ Hinv)|]. intros b Hb'.
      rewrite replay_empty by apply (li_head _ _ Hinv). rewrite Hcl; [by destruct (_ <=? _)|done|].
      pose proof (li_n _ _ Hinv). by replace (lh_n s) with 0 by lia. }
  destruct Hpre as [Hok Hrp].
  eapply returns_mono; [apply recover_replay; [lia|lia| |done]|].
  - apply apply_writes_blocks; [exact (wf_disk_length _ Hwf)|]. intros e He. apply subset_take in He. subst w.
    destruct (0 <? lh_n s); [|by apply not_elem_of_nil in He].
    eapply commit_writes_blocks; [exact (wf_view_length _ Hwf)|done].
  - intros [] s'' (a'' & f' & Hinv'' & Hq'' & Hn'' & Hs'' & Ho'' & Hc'' & _ & _ & Hb''). exists a''. split; [done|]. split; [done|]. split_and!; [done..|].
    intros b Hb'. destruct (Hb'' b Hb') as [-> ->]. by rewrite Hrp.
Qed.

(** C1: A transaction is atomic across crashes.  When the last outstanding
    system call ends, [end_op] commits without a panic: every block then holds
    on disk what the cache holds, and the log is empty again.  If the machine
    crashes after any number [k] of the disk writes that this takes and
    reboots, [initlog] recovers either all the old contents (crash before the
    log header is written) or all the new ones (after), for every block at
    once. *)
Theorem commit_is_crash_atomic (s : log) (a : bstate)
    (Hinv : log_inv s a) (Hq : quiet a) (Hn : lh_n s < NBUF)
    (Hout : l_outstanding s = 1) (Hcom : l_committing s = false) :
  returns (end_op s) (fun _ s' => exists a' w,
    log_inv s' a' /\ lh_n s' = 0 /\ writes a' = writes a ++ w /\
    (forall b, home (l_start s) b -> view a' b = view a b /\ disk a' b = view a b) /\
    forall k, returns (initlog ROOTDEV (l_start s) (boot (apply_writes (disk a) (take k w)))) (fun _ s'' =>
      exists a'', log_inv s'' a'' /\ forall b, home (l_start s) b ->
        disk a'' b = if Z.of_nat k <=? lh_n s then disk a b else view a b)).
Proof.
  eapply returns_mono; [by apply (end_op_crash s a)|].
  intros [] s' (a' & w & Hinv' & _ & Hn' & _ & _ & _ & Hw & Hb & Hk). exists a', w. split_and!; [done..|]. intros k.
  eapply returns_mono; [apply (Hk k)|]. intros [] s'' (a'' & Hinv'' & _ & _ & _ & _ & _ & Hb''). exists a''. split; [done|].
  intros b Hb'. by apply Hb''.
Qed.

(** * Operations between commits *)

(** The fields of the log that no operation on blocks changes. *)
Definition same_ctl (s s' : log) : Prop :=
  l_start s' = l_start s /\ l_outstanding s' = l_outstanding s /\ l_committing s' = l_committing s.

Lemma scan_blocks s a b : log_inv s a ->
  scan (fun i => u32 (lh_block s i) =? b) (lh_n s) = scan (fun i => lh_block s i =? b) (lh_n s).
Proof.
  intros Hinv. apply scan_ext. intros i Hi. destruct (li_home _ _ Hinv i Hi) as [Hr _].
  by rewrite u32_small by lia.
Qed.

(** A block already in the transaction is absorbed: nothing changes. *)
Lemma log_write_absorb s a b h i : log_inv s a -> held a b = Some h -> home (l_start s) b ->
  lh_n s < LOGBLOCKS -> 1 <= l_outstanding s -> scan (fun i => lh_block s i =? b) (lh_n s) = Some i ->
  returns (log_write h s) (fun _ s' => log_inv s' a /\ same_ctl s s' /\ lh_n s' = lh_n s /\
    forall c, listed (lh_block s') (lh_n s') c = listed (lh_block s) (lh_n s) c).
Proof.
  intros Hinv Hh Hb Hlt Hout Hs. unfold log_write. mstep.
  destruct (Z.leb_spec LOGBLOCKS (lh_n s)); [lia|]. destruct (Z.ltb_spec (l_outstanding s) 1); [lia|].
  mstep.
  destruct (held_spec _ _ _ _ (li_rep _ _ Hinv) Hh) as [-> _].
  rewrite (scan_blocks s a b Hinv), Hs. cbn [default from_option id]. pose proof (scan_Some _ _ _ Hs) as (Hi & He & _). apply Z.eqb_eq in He.
  mstep. destruct (Z.eqb_spec i (lh_n s)); [lia|]. cbn [ret returns].
  rewrite (i32_small b) by (destruct Hb; lia).
  assert (Hf : forall j, upd (lh_block s) i b j = lh_block s j).
  { intros j. unfold upd. destruct (Z.eqb_spec j i) as [->|]; [done|done]. }
  assert (Hls : forall c, listed (upd (lh_block s) i b) (lh_n s) c = listed (lh_block s) (lh_n s) c).
  { intros c. apply listed_ext. auto. }
  split_and!; [|done|done|done]. destruct Hinv. split; cbn; try done.
  - intros j Hj. rewrite Hf. auto.
  - intros j k Hj Hk. rewrite !Hf. auto.
  - intros c. rewrite Hls. auto.
Qed.

(** A new block is appended to the transaction and pinned. *)
Lemma log_write_append s a b h : log_inv s a -> held a b = Some h -> home (l_start s) b ->
  lh_n s < LOGBLOCKS -> 1 <= l_outstanding s -> listed (lh_block s) (lh_n s) b = false ->
  returns (log_write h s) (fun _ s' => log_inv s' (a_ref b 1 a) /\ same_ctl s s' /\ lh_n s' = lh_n s + 1 /\
    forall c, listed (lh_block s') (lh_n s') c = listed (lh_block s) (lh_n s) c || (b =? c)).
Proof.
  intros Hinv Hh Hb Hlt Hout Hnl. unfold log_write. mstep.
  destruct (Z.leb_spec LOGBLOCKS (lh_n s)); [lia|]. destruct (Z.ltb_spec (l_outstanding s) 1); [lia|].
  mstep.
  destruct (held_spec _ _ _ _ (li_rep _ _ Hinv) Hh) as [-> _].
  rewrite (scan_blocks s a b Hinv).
  assert (Hs : scan (fun i => lh_block s i =? b) (lh_n s) = None) by (unfold listed in Hnl; by destruct (scan _ _)).
  rewrite Hs. cbn [default from_option id]. pose proof (li_n _ _ Hinv) as Hn.
  mstep. rewrite Z.eqb_refl.
  rewrite (i32_small b) by (destruct Hb; lia).
  eapply on_bc_bind; [eapply (bpin_spec _ _ b); [apply (li_rep _ _ Hinv)|done|]|].
  { rewrite (li_refs _ _ Hinv), Hh, Hnl. done. }
  intros [] x Hr. cbn [modify returns].
  assert (Hf : forall j, 0 <= j < lh_n s -> upd (lh_block s) (lh_n s) b j = lh_block s j).
  { intros j Hj. apply upd_ne. lia. }
  assert (Hls : forall c, listed (upd (lh_block s) (lh_n s) b) (lh_n s + 1) c = listed (lh_block s) (lh_n s) c || (b =? c)).
  { intros c. rewrite listed_snoc, upd_eq by lia. f_equal. by apply listed_ext. }
  assert (Hfr : forall j, 0 <= j < lh_n s -> lh_block s j <> b).
  { intros j Hj He. apply not_true_iff_false in Hnl. apply Hnl, listed_iff. eauto. }
  split_and!; [|done|done|done]. destruct Hinv. split; cbn; try done.
  - lia.
  - intros j Hj. destruct (Z.eq_dec j (lh_n s)) as [->|]; [by rewrite upd_eq|]. rewrite Hf by lia. apply li_home. lia.
  - intros i j Hi Hj. unfold upd. destruct (Z.eqb_spec i (lh_n s)), (Z.eqb_spec j (lh_n s)); subst; intros He.
    + done.
    + symmetry in He. by apply Hfr in He; [|lia].
    + by apply Hfr in He; [|lia].
    + apply li_nodup; [lia..|done].
  - intros c. rewrite Hls. unfold upd. destruct (Z.eqb_spec c b) as [->|Hne].
    + rewrite li_refs, Hh, Hnl, Z.eqb_refl. done.
    + rewrite li_refs. destruct (Z.eqb_spec b c); [congruence|]. by rewrite orb_false_r.
Qed.

(** ** Buffers inside a transaction *)

Lemma log_bread s a b : log_inv s a -> 0 <= b < 2 ^ 31 -> held a b = None -> room a b ->
  returns (on_bc (bread (l_dev s) b) s) (fun h s' => exists x, s' = set_bc x s /\ log_inv s' (a_get b h a)).
Proof.
  intros Hinv Hb Hh Hroom. rewrite (li_dev _ _ Hinv). eapply returns_mono; [apply zoom_returns, (bread_spec _ a); [apply Hinv|done..| |done]|].
  { rewrite (li_refs _ _ Hinv), Hh. by destruct (listed _ _ _). }
  intros h s' (x & -> & Hr). exists x. split; [done|]. destruct Hinv. split; cbn; try done.
  intros c. unfold upd. destruct (Z.eqb_spec c b) as [->|]; rewrite li_refs; [rewrite Hh; lia|done].
Qed.

Lemma log_set s a b h d : log_inv s a -> held a b = Some h -> length d = Z.to_nat BSIZE -> 
  log_inv (set_bc (set_bdata h d (l_bc s)) s) (a_set b d a).
Proof. intros Hinv Hh Hd. destruct Hinv. split; cbn; try done. by apply set_bdata_spec. Qed.

Lemma log_brelse s a b h : log_inv s a -> held a b = Some h ->
  listed (lh_block s) (lh_n s) b = true \/ view a b = disk a b ->
  returns (on_bc (brelse h) s) (fun _ s' => exists x, s' = set_bc x s /\ log_inv s' (a_release b a)).
Proof.
  intros Hinv Hh Hor. pose proof (li_refs _ _ Hinv b) as Hrb. rewrite Hh in Hrb.
  eapply returns_mono; [apply on_bc_last, (brelse_spec _ a b); [apply Hinv|done|]|].
  { intros H1. destruct Hor as [Hl|?]; [|done]. rewrite Hl in Hrb. lia. }
  intros [] s' (x & -> & Hr). exists x. split; [done|]. destruct Hinv. split; cbn; try done.
  intros c. unfold upd. destruct (Z.eqb_spec c b) as [->|]; rewrite li_refs; [rewrite Hh; lia|done].
Qed.

(** [log_write] of a locked buffer: afterwards its block is in the
    transaction, once; contents and locks are as before. *)
Lemma log_write_ok s a b h : log_inv s a -> held a b = Some h -> home (l_start s) b ->
  lh_n s < LOGBLOCKS -> 1 <= l_outstanding s ->
  returns (log_write h s) (fun _ s' => exists k, log_inv s' (a_ref b k a) /\ same_ctl s s' /\
    lh_n s' = lh_n s + (if listed (lh_block s) (lh_n s) b then 0 else 1) /\
    forall c, listed (lh_block s') (lh_n s') c = listed (lh_block s) (lh_n s) c || (b =? c)).
Proof.
  intros Hinv Hh Hb Hn Hout. destruct (listed (lh_block s) (lh_n s) b) eqn:Hl.
  - assert (Hs : exists i, scan (fun i => lh_block s i =? b) (lh_n s) = Some i).
    { unfold listed in Hl. destruct (scan _ _); [eauto|done]. }
    destruct Hs as [i Hs]. eapply returns_mono; [by eapply (log_write_absorb s a b h i)|].
    intros [] s' (Hinv' & Hctl & Hn' & Hl'). exists 0. split_and!; [|done|lia|].
    + destruct Hinv'. split; cbn; try done.
      * eapply rep_ext; [done|]. bst_solve.
      * intros c. rewrite <- li_refs. unfold upd. destruct (Z.eqb_spec c b) as [->|]; lia.
    + intros c. rewrite Hl'. destruct (Z.eqb_spec b c) as [<-|]; [by rewrite Hl|by rewrite orb_false_r].
  - eapply returns_mono; [by eapply (log_write_append s a b h)|]. intros [] s' ?. by exists 1.
Qed.

(** The documented use of the log: read a block, change it, log it, release
    it. *)
Definition log_update (b : Z) (d : list Z) : M log unit :=
  do s <- get;
  do bp <- on_bc (bread (l_dev s) b);
  on_bc (modify (set_bdata bp d)) ;;;
  log_write bp ;;;
  on_bc (brelse bp).

Lemma log_update_ok s a b d : log_inv s a -> quiet a -> home (l_start s) b -> length d = Z.to_nat BSIZE ->
  lh_n s < LOGBLOCKS -> 1 <= l_outstanding s ->
  returns (log_update b d s) (fun _ s' => exists a', log_inv s' a' /\ quiet a' /\ same_ctl s s' /\
    lh_n s' = lh_n s + (if listed (lh_block s) (lh_n s) b then 0 else 1) /\
    (forall c, listed (lh_block s') (lh_n s') c = listed (lh_block s) (lh_n s) c || (b =? c)) /\
    (forall c, view a' c = if c =? b then d else view a c) /\ (forall c, disk a' c = disk a c) /\ writes a' = writes a).
Proof.
  intros Hinv Hq Hb Hd Hlt Hout. unfold log_update. mstep. pose proof (li_n _ _ Hinv) as Hn.
  eapply bind_returns; [apply (log_bread s a); [done|apply Hb|apply Hq|]|].
  { apply (pins_room (lh_block s) (lh_n s) 1 a); [lia|by right|by apply inv_pins|done]. }
  intros h s1 (x1 & -> & Hinv1). unfold bind at 1. cbn [on_bc zoom modify].
  pose proof (log_set _ _ b h d Hinv1 ltac:(at_upd) Hd) as Hinv2.
  eapply bind_returns; [eapply (log_write_ok _ _ b h Hinv2); [at_upd|done..]|].
  intros [] s3 (k & Hinv3 & Hctl & Hn3 & Hl3).
  eapply returns_mono; [eapply (log_brelse _ _ b h Hinv3); [at_upd|left]|].
  { by rewrite Hl3, Z.eqb_refl, orb_true_r. }
  intros [] s4 (x4 & -> & Hinv4). eexists. split_and!; [exact Hinv4| |done..].
  intros c. cbn. unfold upd. destruct (c =? b); [done|]. apply Hq.
Qed.

(** * Interleaved system calls *)

(** The log shared by several file-system calls: for each call between its
    [begin_op] and [end_op] the blocks it has written, and, as specification,
    the contents that the calls see and the contents at the last commit. *)
Record logsys := mk_sys {
  ls_log : log;
  ls_ops : list (list Z);
  ls_now : Z -> list Z;
  ls_committed : Z -> list Z
}.

Definition add_block (b : Z) (o : list Z) : list Z := if decide (b ∈ o) then o else b :: o.

(** One call begins, waits, updates a block or ends; a call updates fewer than
    [MAXOPBLOCKS] different blocks. *)
Inductive sys_step : logsys -> logsys -> Prop :=
| sys_begin s s' ops now com : begin_op s = Ret true s' ->
    sys_step (mk_sys s ops now com) (mk_sys s' (ops ++ [[]]) now com)
| sys_wait s s' ops now com : begin_op s = Ret false s' ->
    sys_step (mk_sys s ops now com) (mk_sys s' ops now com)
| sys_update s s' ops now com k o b d : ops !! k = Some o -> home (l_start s) b -> length d = Z.to_nat BSIZE ->
    Z.of_nat (length (add_block b o)) < MAXOPBLOCKS -> log_update b d s = Ret tt s' ->
    sys_step (mk_sys s ops now com) (mk_sys s' (<[k := add_block b o]> ops) (upd now b d) com)
| sys_end s s' ops now com k o : ops !! k = Some o -> end_op s = Ret tt s' ->
    sys_step (mk_sys s ops now com)
      (mk_sys s' (delete k ops) now (if decide (delete k ops = []) then now else com)).

(** The log space that the open calls may still claim. *)
Definition reserved (ops : list (list Z)) : Z := foldr (fun o r => MAXOPBLOCKS - Z.of_nat (length o) + r) 0 ops.

Lemma reserved_app o1 o2 : reserved (o1 ++ o2) = reserved o1 + reserved o2.
Proof. induction o1; cbn; [done|]. unfold reserved in *. lia. Qed.

Lemma reserved_split ops k o : ops !! k = Some o ->
  reserved ops = reserved (delete k ops) + (MAXOPBLOCKS - Z.of_nat (length o)) /\
  forall o', reserved (<[k := o']> ops) = reserved (delete k ops) + (MAXOPBLOCKS - Z.of_nat (length o')).
Proof.
  intros Hk. pose proof (lookup_lt_Some _ _ _ Hk) as Hlt. rewrite delete_take_drop.
  rewrite <- (take_drop_middle ops k o Hk) at 1. split.
  - rewrite !reserved_app. cbn. fold (reserved (drop (S k) ops)). lia.
  - intros o'. rewrite insert_take_drop by done. rewrite !reserved_app. cbn. fold (reserved (drop (S k) ops)). lia.
Qed.

Record sys_inv (l : logsys) (a : bstate) : Prop := {
  si_log : log_inv (ls_log l) a;
  si_quiet : quiet a;
  si_idle : l_committing (ls_log l) = false;
  si_out : l_outstanding (ls_log l) = Z.of_nat (length (ls_ops l));
  si_small : Forall (fun o => Z.of_nat (length o) < MAXOPBLOCKS) (ls_ops l);
  si_space : lh_n (ls_log l) + reserved (ls_ops l) <= LOGBLOCKS;
  si_listed : Forall (Forall (fun b => listed (lh_block (ls_log l)) (lh_n (ls_log l)) b = true)) (ls_ops l);
  si_empty : ls_ops l = [] -> lh_n (ls_log l) = 0;
  si_now : forall b, home (l_start (ls_log l)) b -> view a b = ls_now l b;
  si_committed : forall b, home (l_start (ls_log l)) b -> disk a b = ls_committed l b
}.

(** An open call always has room for one more block, and its end for the
    commit. *)
Lemma reserved_pos ops : Forall (fun o => Z.of_nat (length o) < MAXOPBLOCKS) ops -> ops <> [] -> 0 < reserved ops.
Proof.
  induction 1 as [|o ops Ho Hs IH]; intros Hne; [done|]. cbn. fold (reserved ops).
  destruct ops as [|o' ops]; [cbn; lia|]. specialize (IH ltac:(done)). lia.
Qed.

Lemma sys_n_small l a : sys_inv l a -> ls_ops l <> [] -> lh_n (ls_log l) < LOGBLOCKS.
Proof. intros Hi Hne. pose proof (si_space _ _ Hi). pose proof (reserved_pos _ (si_small _ _ Hi) Hne). lia. Qed.

Lemma reserved_le ops : reserved ops <= MAXOPBLOCKS * Z.of_nat (length ops).
Proof. induction ops as [|o ops IH]; cbn; [done|]. fold (reserved ops). lia. Qed.

Ltac sys_simpl := cbn [ls_log ls_ops ls_now ls_committed l_outstanding l_committing set_outstanding lh_n lh_block l_start] in *.

Lemma begin_op_ok s ops now com a : sys_inv (mk_sys s ops now com) a ->
  returns (begin_op s) (fun entered s' =>
    sys_inv (mk_sys s' (if entered then ops ++ [[]] else ops) now com) a /\ l_start s' = l_start s).
Proof.
  intros Hi. pose proof (si_idle _ _ Hi) as Hc. pose proof (si_out _ _ Hi) as Ho. cbn in Hc, Ho.
  unfold begin_op. mstep. rewrite Hc. destruct (Z.ltb_spec LOGBLOCKS (lh_n s + (l_outstanding s + 1) * MAXOPBLOCKS)); [done|].
  mstep. cbn [returns ret]. split; [|done]. pose proof (reserved_le ops). destruct Hi. sys_simpl. split; sys_simpl; try done.
  - destruct si_log0. by split.
  - rewrite length_app. cbn. lia.
  - apply Forall_app_2; [done|]. by repeat constructor.
  - rewrite reserved_app, Ho in *. cbn. unfold MAXOPBLOCKS in *. lia.
  - apply Forall_app_2; [done|]. by repeat constructor.
  - by destruct ops.
Qed.

Lemma update_ok s ops now com a k o b d : sys_inv (mk_sys s ops now com) a ->
  ops !! k = Some o -> home (l_start s) b -> length d = Z.to_nat BSIZE ->
  Z.of_nat (length (add_block b o)) < MAXOPBLOCKS ->
  returns (log_update b d s) (fun _ s' => exists a',
    sys_inv (mk_sys s' (<[k := add_block b o]> ops) (upd now b d) com) a' /\ l_start s' = l_start s).
Proof.
  intros Hi Hk Hb Hd Hsz. pose proof (lookup_lt_Some _ _ _ Hk) as Hlt.
  assert (Hne : ops <> []) by (intros ->; done). pose proof (sys_n_small _ _ Hi Hne) as Hn. cbn in Hn.
  destruct (reserved_split ops k o Hk) as [Hr Hr']. destruct Hi. sys_simpl.
  eapply returns_mono; [apply (log_update_ok s a b d); try done; lia|].
  intros [] s' (a' & Hinv' & Hq' & (Hs & Hout & Hc) & Hn' & Hl' & Hv & Hdk & Hw). exists a'. split; [|done].
  split; sys_simpl; try done.
  - congruence.
  - rewrite Hout, length_insert. done.
  - by apply Forall_insert.
  - rewrite Hr', Hn'. unfold add_block. case_decide as Hin.
    + assert (listed (lh_block s) (lh_n s) b = true) as ->.
      { pose proof (Forall_lookup_1 _ _ _ _ si_listed0 Hk) as Hf. rewrite Forall_forall in Hf. by apply Hf. }
      lia.
    + cbn. destruct (listed _ _ b); lia.
  - apply Forall_insert.
    + eapply Forall_impl; [exact si_listed0|]. intros o' Ho'. eapply Forall_impl; [exact Ho'|].
      cbn. intros c Hlc. by rewrite Hl', Hlc.
    + pose proof (Forall_lookup_1 _ _ _ _ si_listed0 Hk) as Hf.
      assert (Ho : Forall (fun c => listed (lh_block s') (lh_n s') c = true) o).
      { eapply Forall_impl; [exact Hf|]. cbn. intros c Hlc. by rewrite Hl', Hlc. }
      unfold add_block. case_decide; [done|]. constructor; [|done]. by rewrite Hl', Z.eqb_refl, orb_true_r.
  - intros He. destruct ops; [done|]. by destruct k.
  - intros c Hc'. rewrite Hv. unfold upd. destruct (c =? b); [done|]. apply si_now0. congruence.
  - intros c Hc'. rewrite Hdk. apply si_committed0. congruence.
Qed.

Lemma end_ok s ops now com a k o : sys_inv (mk_sys s ops now com) a -> ops !! k = Some o ->
  returns (end_op s) (fun _ s' => exists a',
    sys_inv (mk_sys s' (delete k ops) now (if decide (delete k ops = []) then now else com)) a' /\ l_start s' = l_start s).
Proof.
  intros Hi Hk. pose proof (lookup_lt_Some _ _ _ Hk) as Hlt.
  assert (Hne : ops <> []) by (intros ->; done). pose proof (sys_n_small _ _ Hi Hne) as Hn. cbn in Hn.
  destruct (reserved_split ops k o Hk) as [Hr _].
  assert (Hld : length (delete k ops) = (length ops - 1)%nat) by (apply length_delete; eauto).
  assert (Hsm : Z.of_nat (length o) < MAXOPBLOCKS) by exact (Forall_lookup_1 _ _ _ _ (si_small _ _ Hi) Hk).
  destruct (decide (delete k ops = [])) as [He|He].
  - assert (Hone : length ops = 1%nat) by (rewrite He in Hld; cbn in Hld; lia).
    destruct Hi. sys_simpl. eapply returns_mono; [apply (end_op_commits s a); try done; lia|].
    intros [] s' (a' & w & Hinv' & Hq' & Hn' & Hs' & Ho' & Hc' & _ & Hb & _). exists a'. split; [|done].
    rewrite He. split; sys_simpl; try done; try lia.
    + rewrite Hn'. done.
    + intros b Hb'. rewrite Hs' in Hb'. rewrite (proj1 (Hb b Hb')). auto.
    + intros b Hb'. rewrite Hs' in Hb'. rewrite (proj2 (Hb b Hb')). auto.
  - assert (Hmore : l_outstanding s - 1 <> 0).
    { pose proof (si_out _ _ Hi) as Ho. cbn in Ho. destruct (delete k ops); [done|]. cbn in Hld. lia. }
    unfold end_op. mstep. pose proof (si_idle _ _ Hi) as Hc. cbn in Hc. rewrite Hc. mstep.
    destruct (Z.eqb_spec (l_outstanding s - 1) 0); [done|]. cbn [ret returns]. exists a. split; [|done].
    destruct Hi. sys_simpl. split; sys_simpl; try done.
    + destruct si_log0. by split.
    + lia.
    + by apply Forall_delete.
    + lia.
    + by apply Forall_delete.
Qed.

Lemma sys_step_inv st l l' a : l_start (ls_log l) = st -> sys_inv l a -> sys_step l l' ->
  exists a', sys_inv l' a' /\ l_start (ls_log l') = st.
Proof.
  intros Hst Hi Hs. destruct Hs as [s s' ops now com He|s s' ops now com He|s s' ops now com k o b d Hk Hb Hd Hsz He|s s' ops now com k o Hk He];
    cbn in Hst; subst st.
  - destruct (returns_Ret _ _ _ _ (begin_op_ok _ _ _ _ _ Hi) He). eauto.
  - destruct (returns_Ret _ _ _ _ (begin_op_ok _ _ _ _ _ Hi) He). eauto.
  - exact (returns_Ret _ _ _ _ (update_ok _ _ _ _ _ _ _ _ _ Hi Hk Hb Hd Hsz) He).
  - exact (returns_Ret _ _ _ _ (end_ok _ _ _ _ _ _ _ Hi Hk) He).
Qed.


(** A transaction that fills the log cannot be committed: with all
    [LOGBLOCKS] slots used (three calls of [MAXOPBLOCKS] blocks each, which
    [begin_op] and [log_write] admit) every one of the [NBUF] = [LOGBLOCKS]
    buffers is pinned, so [end_op] finds no buffer for the first log block and
    panics. *)
Theorem full_transaction_cannot_commit (s : log) (a : bstate)
    (Hinv : log_inv s a) (Hq : quiet a) (Hn : lh_n s = LOGBLOCKS)
    (Hout : l_outstanding s = 1) (Hcom : l_committing s = false) :
  exists s', end_op s = Panic "bget: no buffers" s'.
Proof.
  pose proof (li_start _ _ Hinv) as Hst. pose proof (eq_refl : LOGBLOCKS = 30) as HL.
  unfold end_op. mstep. rewrite Hcom, Hout. mstep. cbn iota. change (1 - 1 =? 0) with true. cbn iota. mstep.
  set (s1 := set_committing true _).
  assert (Hbr : exists x, bread (l_dev s) (u32 (l_start s + 0 + 1)) (l_bc s) = Panic "bget: no buffers" x).
  { rewrite (li_dev _ _ Hinv), u32_small by lia. apply (bread_full _ a); [apply Hinv|lia| |].
    - rewrite (inv_pins s a Hinv Hq). by rewrite (not_home_listed s (li_home _ _ Hinv)) by lia.
    - exists (lh_block s <$> seqZ 0 (lh_n s)). split_and!.
      + apply NoDup_fmap_2_strong; [|apply NoDup_seqZ]. intros i j Hi%elem_of_seqZ Hj%elem_of_seqZ.
        apply (li_nodup _ _ Hinv); lia.
      + rewrite length_fmap, length_seqZ, Hn. done.
      + intros c (i & -> & Hi%elem_of_seqZ)%list_elem_of_fmap. rewrite (inv_pins s a Hinv Hq).
        rewrite (nth_listed s) by lia. done. }
  destruct Hbr as [x Hbr]. exists (set_bc x s1).
  unfold bind at 1, commit. mstep. change (lh_n s1) with (lh_n s). rewrite Hn. change (0 <? LOGBLOCKS) with true. cbn iota.
  unfold bind at 1, write_log. mstep. change (lh_n s1) with (lh_n s). rewrite Hn.
  change (Z.to_nat LOGBLOCKS) with (S 29). cbn [for_loop]. unfold bind at 1, write_log_block at 1. mstep.
  unfold bind at 1, on_bc at 1, zoom.
  change (l_bc s1) with (l_bc s). change (l_dev s1) with (l_dev s). change (l_start s1) with (l_start s).
  rewrite Hbr. done.
Qed.

End Claims.
