(* ===== verification/Bio.v ===== *)
(** The buffer cache of [kernel/bio.c]: [NBUF] buffers on a doubly linked
    list kept in least-recently-used order, reference counts and sleep locks,
    over a disk that performs one block transfer at a time.  The file ends
    with the proof that it implements the interface of [Bufcache]. *)
From S2P Require Import Prelude Bufcache.
Local Open Scope kern_scope.

(** * Data and operations *)

(** [struct buf]; [b_lock] is the sleep lock (held by the running process or
    free), links are indices. *)
Record buf := mk_buf {
  b_valid : bool;
  b_dev : Z;
  b_blockno : Z;
  b_lock : bool;
  b_refcnt : Z;
  b_prev : Z;
  b_next : Z;
  b_data : list Z
}.

(** Buffers [0 .. NBUF-1] and, at index [HEAD], [bcache.head]; the disk and
    the writes it has been sent. *)
Record bio := mk_bio {
  bufs : Z -> buf;
  bdisk : Z -> list Z;
  bwrites : list (Z * list Z)
}.

Definition HEAD : Z := NBUF.

Definition set_buf (i : Z) (b : buf) (s : bio) : bio := mk_bio (upd (bufs s) i b) (bdisk s) (bwrites s).
Definition set_valid v b := mk_buf v (b_dev b) (b_blockno b) (b_lock b) (b_refcnt b) (b_prev b) (b_next b) (b_data b).
Definition set_lock k b := mk_buf (b_valid b) (b_dev b) (b_blockno b) k (b_refcnt b) (b_prev b) (b_next b) (b_data b).
Definition set_refcnt r b := mk_buf (b_valid b) (b_dev b) (b_blockno b) (b_lock b) r (b_prev b) (b_next b) (b_data b).
Definition set_prev p b := mk_buf (b_valid b) (b_dev b) (b_blockno b) (b_lock b) (b_refcnt b) p (b_next b) (b_data b).
Definition set_next n b := mk_buf (b_valid b) (b_dev b) (b_blockno b) (b_lock b) (b_refcnt b) (b_prev b) n (b_data b).
Definition set_data d b := mk_buf (b_valid b) (b_dev b) (b_blockno b) (b_lock b) (b_refcnt b) (b_prev b) (b_next b) d.

(** Update one buffer in place. *)
Definition at_buf (i : Z) (g : buf -> buf) : M bio unit := modify (fun s => set_buf i (g (bufs s i)) s).

(** A transfer of the block of buffer [b]; the driver multiplies the block
    number in 32 bits to get the sector. *)
Definition virtio_disk_rw (b : Z) (write : bool) : M bio unit :=
  modify (fun s =>
    let k := u32 (b_blockno (bufs s b) * (BSIZE / 512)) / (BSIZE / 512) in
    if write
    then mk_bio (bufs s) (upd (bdisk s) k (b_data (bufs s b))) (bwrites s ++ [(k, b_data (bufs s b))])
    else set_buf b (set_data (bdisk s k) (bufs s b)) s).

(** [acquiresleep]: a process that waits for itself never continues. *)
Definition acquiresleep (b : Z) : M bio unit :=
  do s <- get;
  if b_lock (bufs s b) then no_fuel else at_buf b (set_lock true).
Definition holdingsleep (b : Z) : M bio bool := gets (fun s => b_lock (bufs s b)).
Definition releasesleep (b : Z) : M bio unit := at_buf b (set_lock false).

(** The body of the loop of [binit]. *)
Definition binit_buf (b : Z) : M bio unit :=
  do s <- get;
  at_buf b (set_next (b_next (bufs s HEAD))) ;;;
  at_buf b (set_prev HEAD) ;;;
  at_buf b (set_lock false) ;;;
  do s <- get;
  at_buf (b_next (bufs s HEAD)) (set_prev b) ;;;
  at_buf HEAD (set_next b).

Definition binit : M bio unit :=
  at_buf HEAD (set_prev HEAD) ;;;
  at_buf HEAD (set_next HEAD) ;;;
  for_loop (Z.to_nat NBUF) 0 binit_buf.

(** The loop [for (b = ...; b != &bcache.head; b = link(b)) if (p(b)) ...]:
    the first match, or none at the head. *)
Fixpoint search (link : Z -> Z) (p : Z -> bool) (fuel : nat) (b : Z) : option (option Z) :=
  match fuel with
  | O => None
  | S k => if b =? HEAD then Some None else if p b then Some (Some b) else search link p k (link b)
  end.

Definition bget (dev blockno : Z) : M bio Z :=
  do s <- get;
  match search (fun i => b_next (bufs s i))
          (fun i => (b_dev (bufs s i) =? dev) && (b_blockno (bufs s i) =? blockno))
          (S (Z.to_nat NBUF)) (b_next (bufs s HEAD)) with
  | None => no_fuel
  | Some (Some b) =>
      at_buf b (fun x => set_refcnt (u32 (b_refcnt x + 1)) x) ;;;
      acquiresleep b ;;;
      ret b
  | Some None =>
      match search (fun i => b_prev (bufs s i)) (fun i => b_refcnt (bufs s i) =? 0)
              (S (Z.to_nat NBUF)) (b_prev (bufs s HEAD)) with
      | None => no_fuel
      | Some (Some b) =>
          at_buf b (fun x => mk_buf false dev blockno (b_lock x) 1 (b_prev x) (b_next x) (b_data x)) ;;;
          acquiresleep b ;;;
          ret b
      | Some None => panic "bget: no buffers"
      end
  end.

Definition bread (dev blockno : Z) : M bio Z :=
  do b <- bget dev blockno;
  do s <- get;
  (if b_valid (bufs s b) then ret tt
   else virtio_disk_rw b false ;;; at_buf b (set_valid true)) ;;;
  ret b.

Definition bwrite (b : Z) : M bio unit :=
  do h <- holdingsleep b;
  if h then virtio_disk_rw b true else panic "bwrite".

(** Taking a buffer off the list and putting it first. *)
Definition unlink (b : Z) : M bio unit :=
  do s <- get;
  at_buf (b_next (bufs s b)) (set_prev (b_prev (bufs s b))) ;;;
  do s <- get;
  at_buf (b_prev (bufs s b)) (set_next (b_next (bufs s b))).

Definition push_front (b : Z) : M bio unit :=
  do s <- get;
  at_buf b (set_next (b_next (bufs s HEAD))) ;;;
  at_buf b (set_prev HEAD) ;;;
  do s <- get;
  at_buf (b_next (bufs s HEAD)) (set_prev b) ;;;
  at_buf HEAD (set_next b).

Definition brelse (b : Z) : M bio unit :=
  do h <- holdingsleep b;
  if h then
    releasesleep b ;;;
    at_buf b (fun x => set_refcnt (u32 (b_refcnt x - 1)) x) ;;;
    do s <- get;
    if b_refcnt (bufs s b) =? 0 then unlink b ;;; push_front b else ret tt
  else panic "brelse".

Definition bpin (b : Z) : M bio unit := at_buf b (fun x => set_refcnt (u32 (b_refcnt x + 1)) x).
Definition bunpin (b : Z) : M bio unit := at_buf b (fun x => set_refcnt (u32 (b_refcnt x - 1)) x).

(** * The linked list *)

Section Ring.
Context (nx pv : Z -> Z).

(** Consecutive elements are linked both ways. *)
Fixpoint chain (l : list Z) : Prop :=
  match l with
  | x :: (y :: _) as l' => nx x = y /\ pv y = x /\ chain l'
  | _ => True
  end.

(** The circular list through the head. *)
Definition ring (l : list Z) : Prop := chain (HEAD :: l ++ [HEAD]).

Lemma chain_app l x l' : chain (l ++ x :: l') <-> chain (l ++ [x]) /\ chain (x :: l').
Proof.
  induction l as [|y l IH]; [cbn; tauto|]. destruct l as [|z l]; cbn in *; tauto.
Qed.

End Ring.

Lemma chain_frame nx pv nx' pv' l :
  chain nx pv l -> (forall x, x ∈ removelast l -> nx' x = nx x) -> (forall x, x ∈ tail l -> pv' x = pv x) ->
  chain nx' pv' l.
Proof.
  induction l as [|x l IH]; [done|]. destruct l as [|y l]; [done|]. intros (H1 & H2 & H3) Hn Hp. split_and!.
  - rewrite Hn; [done|]. by left.
  - rewrite Hp; [done|]. by left.
  - apply IH; [done| |].
    + intros z Hz. apply Hn. right. exact Hz.
    + intros z Hz. apply Hp. cbn in *. by right.
Qed.

Lemma search_forward nx pv p l x fuel :
  chain nx pv (x :: l ++ [HEAD]) -> HEAD ∉ l -> (length l < fuel)%nat ->
  search nx p fuel (nx x) = Some (List.find p l).
Proof.
  revert x fuel. induction l as [|y l IH]; intros x fuel Hc Hh Hf; (destruct fuel as [|fuel]; [cbn in Hf; lia|]).
  - destruct Hc as (-> & _). done.
  - destruct Hc as (-> & _ & Hc). cbn [search List.find]. rewrite not_elem_of_cons in Hh.
    destruct (Z.eqb_spec y HEAD); [naive_solver|]. destruct (p y); [done|].
    apply IH; [done|naive_solver|cbn in Hf; lia].
Qed.

Lemma search_backward nx pv p l x fuel :
  chain nx pv (HEAD :: l ++ [x]) -> HEAD ∉ l -> (length l < fuel)%nat ->
  search pv p fuel (pv x) = Some (List.find p (rev l)).
Proof.
  revert x fuel. induction l as [|y l IH] using rev_ind; intros x fuel Hc Hh Hf; (destruct fuel as [|fuel]; [cbn in Hf; lia|]).
  - destruct Hc as (_ & -> & _). done.
  - rewrite <- app_assoc in Hc. change (HEAD :: l ++ [y] ++ [x]) with ((HEAD :: l) ++ y :: [x]) in Hc.
    apply chain_app in Hc as [Hc (_ & Hp & _)]. rewrite Hp. rewrite rev_app_distr. cbn [search List.find rev app].
    rewrite not_elem_of_app, list_elem_of_singleton in Hh. rewrite length_app in Hf. cbn in Hf.
    destruct (Z.eqb_spec y HEAD); [naive_solver|]. destruct (p y); [done|].
    apply IH; [done|naive_solver|lia].
Qed.

Lemma removelast_snoc {A} (l : list A) x : removelast (l ++ [x]) = l.
Proof. apply removelast_last. Qed.

Section RingUpdates.
Context (nx pv : Z -> Z).

Lemma ring_push l b : NoDup (HEAD :: l) -> b ∉ HEAD :: l -> ring nx pv l ->
  ring (upd (upd nx b (nx HEAD)) HEAD b) (upd (upd pv b HEAD) (nx HEAD) b) (b :: l).
Proof.
  intros Hnd Hb Hr. unfold ring in *. rewrite NoDup_cons in Hnd. rewrite not_elem_of_cons in Hb. destruct Hb as [HbH Hbl].
  destruct (l ++ [HEAD]) as [|n d] eqn:Hl; [by destruct l|]. destruct Hr as (Hn & Hp & Hc). rewrite Hn.
  assert (Hnd' : NoDup (n :: d)).
  { rewrite <- Hl. apply NoDup_app. split_and!; [apply Hnd| |by repeat constructor; set_solver].
    intros x Hx ->%list_elem_of_singleton. by apply Hnd. }
  rewrite <- app_comm_cons, Hl. split; [|split; [|split; [|split]]].
  - apply upd_eq.
  - unfold upd. rewrite Z.eqb_refl. destruct (Z.eqb_spec b n) as [->|]; [|done]. exfalso.
    assert (Hin : n ∈ l ++ [HEAD]) by (rewrite Hl; by left). rewrite elem_of_app, list_elem_of_singleton in Hin. naive_solver.
  - unfold upd. rewrite Z.eqb_refl. destruct (Z.eqb_spec b HEAD); [done|]. done.
  - apply upd_eq.
  - apply (chain_frame nx pv); [done| |].
    + intros x Hx. rewrite <- Hl, removelast_snoc in Hx. rewrite !upd_ne; [done| |]; intros ->; [done|by apply Hnd].
    + cbn. intros x Hx. apply NoDup_cons in Hnd' as [Hnd' _].
      assert (x <> n) by (intros ->; done). rewrite upd_ne by done.
      destruct (Z.eq_dec x b) as [->|]; [|by rewrite upd_ne]. exfalso.
      assert (Hin : b ∈ l ++ [HEAD]) by (rewrite Hl; by right). rewrite elem_of_app, list_elem_of_singleton in Hin. naive_solver.
Qed.

Lemma ring_unlink l1 b l2 : NoDup (HEAD :: l1 ++ b :: l2) -> ring nx pv (l1 ++ b :: l2) ->
  ring (upd nx (pv b) (nx b)) (upd pv (nx b) (pv b)) (l1 ++ l2).
Proof.
  intros Hnd Hr. unfold ring in *.
  rewrite NoDup_cons, NoDup_app, NoDup_cons in Hnd. destruct Hnd as (HH & Hnd1 & Hdis & Hb2 & Hnd2).
  rewrite not_elem_of_app, not_elem_of_cons in HH. destruct HH as (HH1 & HHb & HH2).
  assert (Hc' : exists c p, HEAD :: l1 = c ++ [p]) by (destruct (exists_last (l := HEAD :: l1)) as (c & p & He); [done|eauto]).
  destruct Hc' as (c & p & Hcp).
  destruct (l2 ++ [HEAD]) as [|n d] eqn:Hl2; [by destruct l2|].
  rewrite <- app_assoc, <- app_comm_cons, Hl2, (app_comm_cons l1), Hcp in Hr. rewrite <- app_assoc in Hr. cbn [app] in Hr.
  apply chain_app in Hr as [Hr1 (Hnp & Hpb & Hr2)]. destruct Hr2 as (Hnb & Hpn & Hr2).
  rewrite Hnb, Hpb, <- app_assoc, Hl2, (app_comm_cons l1), Hcp, <- app_assoc. cbn [app].
  assert (Hndp : NoDup (c ++ [p])).
  { rewrite <- Hcp. apply NoDup_cons. done. }
  assert (Hndn : NoDup (n :: d)).
  { rewrite <- Hl2. apply NoDup_app. split_and!; [done| |by repeat constructor; set_solver].
    intros x Hx ->%list_elem_of_singleton. done. }
  assert (Hp : p = HEAD \/ p ∈ l1).
  { assert (Hin : p ∈ HEAD :: l1) by (rewrite Hcp, elem_of_app, list_elem_of_singleton; auto). by apply elem_of_cons in Hin. }
  assert (Hn : n = HEAD \/ n ∈ l2).
  { assert (Hin : n ∈ l2 ++ [HEAD]) by (rewrite Hl2; by left). rewrite elem_of_app, list_elem_of_singleton in Hin. tauto. }
  apply chain_app. split; [|split; [|split]].
  - apply (chain_frame nx pv); [done| |].
    + intros x Hx. rewrite removelast_snoc in Hx. apply upd_ne. intros ->.
      apply NoDup_app in Hndp as (_ & Hd & _). apply (Hd p Hx). by left.
    + rewrite <- Hcp. cbn. intros x Hx. apply upd_ne. intros ->.
      destruct Hn as [->|Hn]; [done|]. apply (Hdis n Hx). by right.
  - apply upd_eq.
  - apply upd_eq.
  - apply (chain_frame nx pv); [done| |].
    + rewrite <- Hl2, removelast_snoc. intros x Hx. apply upd_ne. intros ->.
      destruct Hp as [->|Hp]; [done|]. apply (Hdis p Hp). by right.
    + cbn. intros x Hx. apply upd_ne. intros ->. by apply NoDup_cons in Hndn as [? _].
Qed.

End RingUpdates.

(** * The representation *)

Definition nx_of (s : bio) (i : Z) : Z := b_next (bufs s i).
Definition pv_of (s : bio) (i : Z) : Z := b_prev (bufs s i).

Lemma ring_ext nx pv nx' pv' l : ring nx pv l -> (forall i, nx' i = nx i) -> (forall i, pv' i = pv i) -> ring nx' pv' l.
Proof. intros Hr Hn Hp. by apply (chain_frame nx pv). Qed.

(** The list holds every buffer once. *)
Definition lru_ok (s : bio) (l : list Z) : Prop :=
  ring (nx_of s) (pv_of s) l /\ NoDup l /\ forall i, i ∈ l <-> 0 <= i < NBUF.

Lemma lru_nodup s l : lru_ok s l -> NoDup (HEAD :: l) /\ HEAD ∉ l.
Proof.
  intros (_ & Hnd & Hin). assert (HEAD ∉ l) by (rewrite Hin; unfold HEAD; lia). by rewrite NoDup_cons.
Qed.

Lemma lru_length s l : lru_ok s l -> Z.of_nat (length l) = NBUF.
Proof.
  intros (_ & Hnd & Hin). assert (Hp : l ≡ₚ seqZ 0 NBUF).
  { apply NoDup_Permutation; [done|apply NoDup_seqZ|]. intros i. rewrite Hin, elem_of_seqZ. lia. }
  rewrite Hp. done.
Qed.

(** A change of one buffer that keeps its links. *)
Lemma lru_set s l i b : b_next b = nx_of s i -> b_prev b = pv_of s i -> lru_ok s l -> lru_ok (set_buf i b s) l.
Proof.
  intros Hn Hp (Hr & ? & ?). split; [|done]. apply (ring_ext _ _ _ _ _ Hr); intros j; unfold nx_of, pv_of; cbn; unfold upd;
    destruct (Z.eqb_spec j i) as [->|]; done.
Qed.

(** What the list operations do to the links, and that they change nothing
    else. *)
Definition links_only (s s' : bio) : Prop :=
  bdisk s' = bdisk s /\ bwrites s' = bwrites s /\
  forall i, b_valid (bufs s' i) = b_valid (bufs s i) /\ b_dev (bufs s' i) = b_dev (bufs s i) /\
    b_blockno (bufs s' i) = b_blockno (bufs s i) /\ b_lock (bufs s' i) = b_lock (bufs s i) /\
    b_refcnt (bufs s' i) = b_refcnt (bufs s i) /\ b_data (bufs s' i) = b_data (bufs s i).

Ltac link_cases := cbn; unfold nx_of, pv_of; cbn; unfold upd;
  repeat match goal with
  | |- context [?x =? ?y] => destruct (Z.eqb_spec x y); subst; cbn
  end; try first [done | congruence | lia | split_and!; congruence].

Lemma unlink_links s b : b_next (bufs s b) <> b -> b_prev (bufs s b) <> b ->
  exists s', unlink b s = Ret tt s' /\ links_only s s' /\
    (forall i, nx_of s' i = upd (nx_of s) (pv_of s b) (nx_of s b) i) /\
    (forall i, pv_of s' i = upd (pv_of s) (nx_of s b) (pv_of s b) i).
Proof.
  intros Hn Hp. eexists. split; [reflexivity|].
  assert (Hf : (b =? b_next (bufs s b)) = false) by (apply Z.eqb_neq; congruence).
  split; [|split].
  - split_and!; [done..|]. intros i. cbn. unfold upd. rewrite !Hf. link_cases.
  - intros i. unfold nx_of, pv_of. cbn. unfold upd. rewrite !Hf. link_cases.
  - intros i. unfold nx_of, pv_of. cbn. unfold upd. rewrite !Hf. link_cases.
Qed.

Lemma push_front_links s b : b <> HEAD ->
  exists s', push_front b s = Ret tt s' /\ links_only s s' /\
    (forall i, nx_of s' i = upd (upd (nx_of s) b (nx_of s HEAD)) HEAD b i) /\
    (forall i, pv_of s' i = upd (upd (pv_of s) b HEAD) (nx_of s HEAD) b i).
Proof.
  intros Hb. eexists. split; [reflexivity|].
  assert (Hf : (HEAD =? b) = false) by (apply Z.eqb_neq; congruence).
  split; [|split].
  - split_and!; [done..|]. intros i. cbn. unfold upd. rewrite !Hf. link_cases.
  - intros i. unfold nx_of, pv_of. cbn. unfold upd. rewrite !Hf. link_cases.
  - intros i. unfold nx_of, pv_of. cbn. unfold upd. rewrite !Hf. link_cases.
Qed.

Lemma move_front_ok s l b : lru_ok s l -> 0 <= b < NBUF ->
  returns ((unlink b ;;; push_front b) s) (fun _ s' => links_only s s' /\
    exists l1 l2, l = l1 ++ b :: l2 /\ lru_ok s' (b :: l1 ++ l2)).
Proof.
  intros Hl Hb. destruct (lru_nodup _ _ Hl) as [Hnd HH]. destruct Hl as (Hr & Hndl & Hin).
  assert (Hbl : b ∈ l) by by apply Hin. apply list_elem_of_split in Hbl as (l1 & l2 & ->).
  assert (HbH : b <> HEAD) by (unfold HEAD; lia).
  rewrite NoDup_app, NoDup_cons in Hndl. destruct Hndl as (Hnd1 & Hdis & Hb2 & Hnd2).
  assert (Hb1 : b ∉ l1) by (intros Hb1; apply (Hdis b Hb1); by left).
  assert (Hnx : nx_of s b <> b /\ pv_of s b <> b).
  { unfold ring in Hr. rewrite <- app_assoc, <- app_comm_cons, app_comm_cons in Hr. apply chain_app in Hr as [Hr1 Hr2]. split.
    - destruct l2; destruct Hr2 as (-> & _); [done|]. intros ->. apply Hb2. by left.
    - destruct (exists_last (l := HEAD :: l1)) as (c & p & He); [done|]. rewrite He in Hr1. rewrite <- app_assoc in Hr1.
      apply chain_app in Hr1 as [_ (_ & -> & _)]. intros ->.
      assert (Hbin : b ∈ HEAD :: l1) by (rewrite He, elem_of_app, list_elem_of_singleton; auto).
      rewrite elem_of_cons in Hbin. naive_solver. }
  destruct (unlink_links s b) as (s1 & H1 & Hlo1 & Hn1 & Hp1); [apply Hnx..|].
  destruct (push_front_links s1 b HbH) as (s2 & H2 & Hlo2 & Hn2 & Hp2).
  unfold bind. rewrite H1, H2. cbn. split.
  - destruct Hlo1 as (Hd1 & Hw1 & Hf1), Hlo2 as (Hd2 & Hw2 & Hf2). split_and!; [congruence..|].
    intros i. destruct (Hf1 i) as (? & ? & ? & ? & ? & ?), (Hf2 i) as (? & ? & ? & ? & ? & ?). split_and!; congruence.
  - exists l1, l2. split; [done|]. split; [|split].
    + eapply ring_ext; [|exact Hn2|exact Hp2]. apply ring_push.
      * apply NoDup_cons. rewrite not_elem_of_app, not_elem_of_cons in HH. rewrite not_elem_of_app. split; [tauto|].
        apply NoDup_app. split_and!; [done| |done]. intros x Hx Hx2. apply (Hdis x Hx). by right.
      * rewrite not_elem_of_cons, not_elem_of_app. tauto.
      * eapply ring_ext; [|exact Hn1|exact Hp1]. by apply ring_unlink.
    + apply NoDup_cons. rewrite not_elem_of_app. split; [tauto|].
      apply NoDup_app. split_and!; [done| |done]. intros x Hx Hx2. apply (Hdis x Hx). by right.
    + intros i. rewrite <- Hin, elem_of_cons, !elem_of_app, elem_of_cons. tauto.
Qed.

(** Buffer [i] holds block [b]. *)
Definition owns (s : bio) (i b : Z) : Prop :=
  0 <= i < NBUF /\ b_dev (bufs s i) = ROOTDEV /\ b_blockno (bufs s i) = b.

Lemma owns_dec s b : (exists i, owns s i b) \/ forall i, ~ owns s i b.
Proof.
  destruct (scan (fun i => (b_dev (bufs s i) =? ROOTDEV) && (b_blockno (bufs s i) =? b)) NBUF) as [i|] eqn:Hs.
  - left. exists i. apply scan_Some in Hs as (Hi & [Hd Hb]%andb_true_iff & _).
    apply Z.eqb_eq in Hd, Hb. done.
  - right. intros i (Hi & Hd & Hb). pose proof (scan_None _ _ Hs i Hi) as Hf. cbn in Hf.
    rewrite Hd, Hb, !Z.eqb_refl in Hf. done.
Qed.

(** A buffer [x] that caches block [b] as the abstract cache says. *)
Record buf_rep (a : bstate) (dk : Z -> list Z) (i b : Z) (x : buf) : Prop := {
  bf_range : 0 <= b < 2 ^ 31;
  bf_valid : b_valid x = true;
  bf_refs : refs a b = b_refcnt x;
  bf_view : view a b = b_data x;
  bf_held : held a b = if b_lock x then Some i else None;
  bf_clean : b_refcnt x = 0 -> b_data x = dk b;
  bf_locked : b_lock x = true -> 0 < b_refcnt x;
  bf_refrange : 0 <= b_refcnt x < 2 ^ 32;
  bf_length : length (b_data x) = Z.to_nat BSIZE
}.

Record bio_rep (s : bio) (a : bstate) : Prop := {
  br_lru : exists l, lru_ok s l;
  br_uniq : forall i j b, owns s i b -> owns s j b -> i = j;
  br_cached : forall i b, owns s i b -> buf_rep a (bdisk s) i b (bufs s i);
  br_absent : forall b, (forall i, ~ owns s i b) -> refs a b = 0 /\ held a b = None /\ view a b = bdisk s b;
  br_unused : forall i, 0 <= i < NBUF -> b_dev (bufs s i) <> ROOTDEV ->
    b_refcnt (bufs s i) = 0 /\ b_lock (bufs s i) = false;
  br_disk : forall b, disk a b = bdisk s b;
  br_disklen : forall b, length (bdisk s b) = Z.to_nat BSIZE;
  br_writes : writes a = bwrites s
}.

Lemma bio_rep_wf s a : bio_rep s a -> bst_wf a.
Proof.
  intros Hr. split.
  - intros b. destruct (owns_dec s b) as [[i Hi]|Hn].
    + destruct (br_cached _ _ Hr i b Hi). congruence.
    + destruct (br_absent _ _ Hr b Hn) as (_ & _ & ->). apply Hr.
  - intros b. rewrite (br_disk _ _ Hr). apply Hr.
  - intros b. destruct (owns_dec s b) as [[i Hi]|Hn].
    + destruct (br_cached _ _ Hr i b Hi). lia.
    + destruct (br_absent _ _ Hr b Hn) as (-> & _). done.
  - intros b H0. rewrite (br_disk _ _ Hr). destruct (owns_dec s b) as [[i Hi]|Hn].
    + destruct (br_cached _ _ Hr i b Hi). rewrite bf_view0. apply bf_clean0. congruence.
    + destruct (br_absent _ _ Hr b Hn) as (_ & _ & ->). done.
  - intros b h Hh. destruct (owns_dec s b) as [[i Hi]|Hn].
    + destruct (br_cached _ _ Hr i b Hi). rewrite bf_held0 in Hh. destruct (b_lock (bufs s i)); [|done].
      rewrite bf_refs0. auto.
    + destruct (br_absent _ _ Hr b Hn) as (_ & Hno & _). congruence.
Qed.

Lemma bio_rep_ext s a a' : bio_rep s a -> bst_eq a a' -> bio_rep s a'.
Proof.
  intros [] []. split; try done.
  - intros i b Hi. destruct (br_cached0 i b Hi). split; try done; congruence.
  - intros b Hn. destruct (br_absent0 b Hn) as (? & ? & ?). split_and!; congruence.
  - intros b. rewrite <- eq_disk. done.
  - congruence.
Qed.

Lemma buf_rep_fields a dk i b x y : buf_rep a dk i b x ->
  b_valid y = b_valid x -> b_lock y = b_lock x -> b_refcnt y = b_refcnt x -> b_data y = b_data x -> buf_rep a dk i b y.
Proof. destruct x, y; cbn. intros [] -> -> -> ->. by split. Qed.

(** The abstract cache and the disk may change elsewhere. *)
Lemma buf_rep_other a a' dk dk' i b x : buf_rep a dk i b x ->
  refs a' b = refs a b -> view a' b = view a b -> held a' b = held a b -> dk' b = dk b -> buf_rep a' dk' i b x.
Proof. intros [] Hr Hv Hh Hd. split; rewrite ?Hr, ?Hv, ?Hh, ?Hd; done. Qed.

(** Only links changed. *)
Lemma bio_rep_links s s' a l : bio_rep s a -> links_only s s' -> lru_ok s' l -> bio_rep s' a.
Proof.
  intros Hr (Hd & Hw & Hf) Hl.
  assert (Ho : forall i b, owns s' i b <-> owns s i b).
  { intros i b. unfold owns. destruct (Hf i) as (_ & -> & -> & _). done. }
  destruct Hr. split.
  - eauto.
  - intros i j b. rewrite !Ho. eauto.
  - intros i b Hi. apply Ho in Hi. destruct (Hf i) as (? & ? & ? & ? & ? & ?).
    rewrite Hd. by apply (buf_rep_fields _ _ _ _ (bufs s i)); [apply br_cached0|..].
  - intros b Hn. rewrite Hd. apply br_absent0. intros i Hi. apply (Hn i), Ho, Hi.
  - intros i Hi Hdv. destruct (Hf i) as (_ & Hdev & _ & -> & -> & _). apply br_unused0; congruence.
  - intros b. rewrite Hd. done.
  - intros b. rewrite Hd. done.
  - congruence.
Qed.

Lemma bio_rep_pointwise s s' a : bio_rep s a -> (forall i, bufs s' i = bufs s i) ->
  bdisk s' = bdisk s -> bwrites s' = bwrites s -> bio_rep s' a.
Proof.
  intros Hr Hb Hd Hw. destruct (br_lru _ _ Hr) as [l (Hring & Hl)]. apply (bio_rep_links s _ _ l); [done| |].
  - split_and!; [done..|]. intros i. by rewrite Hb.
  - split; [|done]. apply (ring_ext _ _ _ _ _ Hring); intros i; unfold nx_of, pv_of; by rewrite Hb.
Qed.

(** One cached buffer, its block on disk and the trace change; everything else
    stays. *)
Lemma bio_rep_change s a a' i b x dk w : bio_rep s a -> owns s i b ->
  b_dev x = ROOTDEV -> b_blockno x = b -> b_next x = nx_of s i -> b_prev x = pv_of s i ->
  buf_rep a' dk i b x ->
  (forall c, c <> b -> refs a' c = refs a c /\ view a' c = view a c /\ held a' c = held a c /\ dk c = bdisk s c) ->
  (forall c, disk a' c = dk c) -> length (dk b) = Z.to_nat BSIZE -> writes a' = w ->
  bio_rep (mk_bio (upd (bufs s) i x) dk w) a'.
Proof.
  intros Hr Hown Hdev Hbl Hn Hp Hx Hother Hdk Hlen Hw.
  assert (Ho : forall j c, owns (mk_bio (upd (bufs s) i x) dk w) j c <-> owns s j c).
  { intros j c. unfold owns. cbn. unfold upd. destruct (Z.eqb_spec j i) as [->|]; [|done].
    destruct Hown as (? & -> & ->). by rewrite Hdev, Hbl. }
  assert (Hne : forall j c, owns s j c -> j <> i -> c <> b).
  { intros j c Hj Hji ->. apply Hji. by eapply (br_uniq _ _ Hr). }
  destruct Hr. split; cbn; try done.
  - destruct br_lru0 as [l Hl]. exists l. exact (lru_set s l i x Hn Hp Hl).
  - intros j k c. rewrite !Ho. eauto.
  - intros j c Hj. apply Ho in Hj. unfold upd. destruct (Z.eqb_spec j i) as [->|Hji].
    + destruct Hj as (_ & _ & <-), Hown as (_ & _ & ->). done.
    + pose proof (Hne j c Hj Hji) as Hcb. destruct (Hother c Hcb) as (? & ? & ? & ?).
      by eapply buf_rep_other; [apply br_cached0|..].
  - intros c Hc. assert (Hcb : c <> b) by (intros ->; apply (Hc i), Ho, Hown).
    destruct (Hother c Hcb) as (-> & -> & -> & ->). apply br_absent0. intros j Hj. apply (Hc j), Ho, Hj.
  - intros j Hj Hd. unfold upd in *. destruct (Z.eqb_spec j i) as [->|]; [done|auto].
  - intros c. destruct (Z.eq_dec c b) as [->|Hcb]; [done|]. destruct (Hother c Hcb) as (_ & _ & _ & ->). done.
Qed.

(** * The operations implement the interface *)

Section Ops.
Context (s : bio) (a : bstate).
Hypothesis Hrep : bio_rep s a.

Lemma held_owner b h : held a b = Some h -> owns s h b /\ b_lock (bufs s h) = true.
Proof.
  intros Hh. destruct (owns_dec s b) as [[i Hi]|Hn].
  - pose proof (bf_held _ _ _ _ _ (br_cached _ _ Hrep i b Hi)) as He. rewrite Hh in He.
    destruct (b_lock (bufs s i)) eqn:Hl; [|done]. by injection He as ->.
  - destruct (br_absent _ _ Hrep b Hn) as (_ & Hno & _). congruence.
Qed.

Lemma sector_block b : 0 <= b < 2 ^ 31 -> u32 (b * (BSIZE / 512)) / (BSIZE / 512) = b.
Proof. intros Hb. change (BSIZE / 512) with 2. rewrite u32_small by lia. by apply Z.div_mul. Qed.

Definition caches (b i : Z) : bool := (b_dev (bufs s i) =? ROOTDEV) && (b_blockno (bufs s i) =? b).

Lemma caches_owns b i : 0 <= i < NBUF -> caches b i = true <-> owns s i b.
Proof. intros Hi. unfold caches, owns. rewrite andb_true_iff, !Z.eqb_eq. tauto. Qed.

Lemma find_cached l b : lru_ok s l ->
  match List.find (caches b) l with Some i => owns s i b | None => forall i, ~ owns s i b end.
Proof.
  intros (_ & _ & Hin). destruct (List.find (caches b) l) as [i|] eqn:Hf.
  - apply List.find_some in Hf as [Hi Hc]. apply list_elem_of_In, Hin in Hi. by apply caches_owns.
  - intros i Hi. pose proof (proj1 Hi) as Hr. apply Hin in Hr.
    assert (Hc : caches b i = true) by by apply caches_owns, Hi; apply Hi.
    rewrite (List.find_none _ _ Hf i) in Hc; [done|]. by apply list_elem_of_In.
Qed.

Lemma search_cached l b : lru_ok s l ->
  search (fun i => b_next (bufs s i)) (caches b) (S (Z.to_nat NBUF)) (b_next (bufs s HEAD)) = Some (List.find (caches b) l).
Proof.
  intros Hl. pose proof (lru_length _ _ Hl). destruct (lru_nodup _ _ Hl) as [_ HH]. destruct Hl as (Hr & _).
  apply (search_forward (nx_of s) (pv_of s)); [done|done|lia].
Qed.

Lemma search_free l : lru_ok s l ->
  search (fun i => b_prev (bufs s i)) (fun i => b_refcnt (bufs s i) =? 0) (S (Z.to_nat NBUF)) (b_prev (bufs s HEAD)) =
  Some (List.find (fun i => b_refcnt (bufs s i) =? 0) (rev l)).
Proof.
  intros Hl. pose proof (lru_length _ _ Hl). destruct (lru_nodup _ _ Hl) as [_ HH]. destruct Hl as (Hr & _).
  apply (search_backward (nx_of s) (pv_of s)); [done|done|lia].
Qed.

(** The blocks of the buffers in use are distinct. *)
Lemma busy_blocks : (forall i, 0 <= i < NBUF -> b_refcnt (bufs s i) <> 0) ->
  let bs := (fun i => b_blockno (bufs s i)) <$> seqZ 0 NBUF in
  NoDup bs /\ Z.of_nat (length bs) = NBUF /\ forall b, b ∈ bs -> 0 < refs a b.
Proof.
  intros Hbusy bs.
  assert (Hown : forall i, 0 <= i < NBUF -> owns s i (b_blockno (bufs s i))).
  { intros i Hi. split; [done|split; [|done]]. destruct (Z.eq_dec (b_dev (bufs s i)) ROOTDEV); [done|].
    destruct (br_unused _ _ Hrep i Hi) as [H0 _]; [done|]. by apply Hbusy in H0. }
  unfold bs. split_and!.
  - apply NoDup_fmap_2_strong; [|apply NoDup_seqZ]. intros i j Hi%elem_of_seqZ Hj%elem_of_seqZ He.
    apply (br_uniq _ _ Hrep i j (b_blockno (bufs s i))); [apply Hown; lia|]. rewrite He. apply Hown. lia.
  - by rewrite length_fmap, length_seqZ.
  - intros b (i & -> & Hi%elem_of_seqZ)%list_elem_of_fmap.
    destruct (br_cached _ _ Hrep i _ (Hown i ltac:(lia))). rewrite bf_refs0. specialize (Hbusy i ltac:(lia)). lia.
Qed.

End Ops.

Definition same_place (x y : buf) : Prop :=
  b_dev y = b_dev x /\ b_blockno y = b_blockno x /\ b_next y = b_next x /\ b_prev y = b_prev x.

(** One buffer changes in place; the abstract cache changes at its block only. *)
Lemma bio_rep_at s a a' i b x : bio_rep s a -> owns s i b -> same_place (bufs s i) x ->
  buf_rep a' (bdisk s) i b x ->
  (forall c, c <> b -> refs a' c = refs a c /\ view a' c = view a c /\ held a' c = held a c) ->
  (forall c, disk a' c = disk a c) -> writes a' = writes a -> bio_rep (set_buf i x s) a'.
Proof.
  intros Hr Ho (Hd & Hb & Hn & Hp) Hx Hoth Hdk Hw.
  apply (bio_rep_change s a a' i b x (bdisk s) (bwrites s)); try done.
  - rewrite Hd. apply Ho.
  - rewrite Hb. apply Ho.
  - intros c Hc. destruct (Hoth c Hc) as (? & ? & ?). done.
  - intros c. rewrite Hdk. apply Hr.
  - apply Hr.
  - rewrite Hw. apply Hr.
Qed.

Ltac off_block := intros ?c ?Hc; cbn; rewrite ?upd_ne by done; done.

Lemma rep_ref s a b i k : bio_rep s a -> owns s i b -> 0 <= refs a b + k < 2 ^ 32 ->
  (held a b <> None -> 0 < refs a b + k) -> (refs a b + k = 0 -> view a b = disk a b) ->
  bio_rep (set_buf i (set_refcnt (u32 (b_refcnt (bufs s i) + k)) (bufs s i)) s) (a_ref b k a).
Proof.
  intros Hr Ho Hk Hheld Hcl. pose proof (br_cached _ _ Hr i b Ho) as Hb. pose proof (bf_refs _ _ _ _ _ Hb) as Hrf.
  rewrite Hrf in *. rewrite u32_small by done.
  apply (bio_rep_at s a _ i b); [done|done|done| |off_block|done|done].
  destruct Hb. split; cbn; rewrite ?upd_eq; try done; try congruence.
  - intros H0. rewrite <- bf_view0, <- (br_disk _ _ Hr). auto.
  - intros Hl. apply Hheld. rewrite bf_held0, Hl. done.
Qed.

Lemma rep_lock s a b i (k : bool) : bio_rep s a -> owns s i b -> (k = true -> 0 < refs a b) ->
  bio_rep (set_buf i (set_lock k (bufs s i)) s)
    (mk_bst (view a) (refs a) (upd (held a) b (if k then Some i else None)) (disk a) (writes a)).
Proof.
  intros Hr Ho Hk. pose proof (br_cached _ _ Hr i b Ho) as Hb.
  apply (bio_rep_at s a _ i b); [done|done|done| |off_block|done|done].
  destruct Hb. split; cbn; rewrite ?upd_eq; try done. rewrite <- bf_refs0. done.
Qed.

Lemma rep_data s a b i d : bio_rep s a -> owns s i b -> held a b <> None -> length d = Z.to_nat BSIZE ->
  bio_rep (set_buf i (set_data d (bufs s i)) s) (a_set b d a).
Proof.
  intros Hr Ho Hh Hd. pose proof (br_cached _ _ Hr i b Ho) as Hb.
  apply (bio_rep_at s a _ i b); [done|done|done| |off_block|done|done].
  destruct Hb. split; cbn; rewrite ?upd_eq; try done. intros H0. exfalso.
  rewrite bf_held0 in Hh. destruct (b_lock (bufs s i)); [|done]. specialize (bf_locked0 eq_refl). lia.
Qed.

Lemma owns_set s i x j c : same_place (bufs s i) x -> owns (set_buf i x s) j c <-> owns s j c.
Proof.
  intros (Hd & Hb & _). unfold owns. cbn. unfold upd. destruct (Z.eqb_spec j i) as [->|]; [|done]. by rewrite Hd, Hb.
Qed.

Lemma bpin_ok s a b h : bio_rep s a -> held a b = Some h -> refs a b < 2 ^ 31 ->
  returns (bpin h s) (fun _ s' => bio_rep s' (a_ref b 1 a)).
Proof.
  intros Hr Hh Hlt. destruct (held_owner s a Hr b h Hh) as [Ho _].
  pose proof (wf_refs _ (bio_rep_wf _ _ Hr) b). cbn. apply rep_ref; [done|done|lia|lia|lia].
Qed.

Lemma bunpin_ok s a b h : bio_rep s a -> held a b = Some h -> 2 <= refs a b ->
  returns (bunpin h s) (fun _ s' => bio_rep s' (a_ref b (-1) a)).
Proof.
  intros Hr Hh Hge. destruct (held_owner s a Hr b h Hh) as [Ho _].
  destruct (br_cached _ _ Hr h b Ho). cbn. apply rep_ref; [done|done|lia|lia|lia].
Qed.

Lemma bwrite_ok s a b h : bio_rep s a -> held a b = Some h -> returns (bwrite h s) (fun _ s' => bio_rep s' (a_write b a)).
Proof.
  intros Hr Hh. destruct (held_owner s a Hr b h Hh) as [Ho Hl]. pose proof (br_cached _ _ Hr h b Ho) as Hb.
  unfold bwrite, holdingsleep. mstep. rewrite Hl. cbn. destruct Ho as (Hi & Hd & Hbn) eqn:HO. rewrite Hbn.
  rewrite sector_block by apply Hb. clear HO.
  assert (Hbufs : bio_rep (mk_bio (upd (bufs s) h (bufs s h)) (upd (bdisk s) b (b_data (bufs s h)))
    (bwrites s ++ [(b, b_data (bufs s h))])) (a_write b a)).
  { apply (bio_rep_change s a _ h b); try done.
    - destruct Hb. split; cbn; try done. intros _. by rewrite upd_eq.
    - intros c Hc. cbn. by rewrite upd_ne.
    - intros c. cbn. unfold upd. destruct (c =? b); [apply Hb|apply Hr].
    - rewrite upd_eq. apply Hb.
    - cbn. rewrite (br_writes _ _ Hr). f_equal. do 2 f_equal. apply Hb. }
  apply (bio_rep_pointwise _ _ _ Hbufs); [|done..]. intros i. cbn. unfold upd. by destruct (Z.eqb_spec i h) as [->|].
Qed.

Lemma brelse_ok s a b h : bio_rep s a -> held a b = Some h -> (refs a b = 1 -> view a b = disk a b) ->
  returns (brelse h s) (fun _ s' => bio_rep s' (a_release b a)).
Proof.
  intros Hr Hh Hcl. destruct (held_owner s a Hr b h Hh) as [Ho Hl]. pose proof (br_cached _ _ Hr h b Ho) as Hb.
  pose proof (bf_refs _ _ _ _ _ Hb) as Hrf. pose proof (bf_locked _ _ _ _ _ Hb Hl) as Hpos.
  pose proof (bf_refrange _ _ _ _ _ Hb).
  unfold brelse, holdingsleep, releasesleep, at_buf. mstep. rewrite Hl. mstep.
  pose proof (rep_lock s a b h false Hr Ho ltac:(done)) as Hr1. cbn iota in Hr1.
  set (s1 := set_buf h (set_lock false (bufs s h)) s) in *.
  assert (Ho1 : owns s1 h b) by by apply owns_set.
  pose proof (rep_ref s1 _ b h (-1) Hr1 Ho1) as Hr2. cbn [refs held view disk] in Hr2. rewrite upd_eq in Hr2.
  specialize (Hr2 ltac:(lia) ltac:(done)). specialize (Hr2 ltac:(intros; apply Hcl; lia)).
  set (s2 := set_buf h (set_refcnt _ (bufs s1 h)) s1) in *.
  assert (Hfin : bio_rep s2 (a_release b a)).
  { eapply bio_rep_ext; [exact Hr2|]. split; done. }
  destruct (b_refcnt (bufs s2 h) =? 0); [|exact Hfin].
  destruct (br_lru _ _ Hfin) as [l Hlr].
  eapply returns_mono; [apply (move_front_ok s2 l h Hlr); apply Ho|].
  intros [] s3 (Hlo & l1 & l2 & _ & Hl'). by eapply bio_rep_links.
Qed.

(** [bget] of a block that is cached. *)
Lemma bread_hit s a b i : bio_rep s a -> owns s i b -> held a b = None -> refs a b < 2 ^ 31 ->
  returns (bread ROOTDEV b s) (fun h s' => h = i /\ bio_rep s' (a_get b h a)).
Proof.
  intros Hr Ho Hh Hlt. pose proof (br_cached _ _ Hr i b Ho) as Hb. destruct (br_lru _ _ Hr) as [l Hl].
  pose proof (wf_refs _ (bio_rep_wf _ _ Hr) b) as Hge. pose proof (search_cached s l b Hl) as Hs.
  pose proof (find_cached s l b Hl) as Hf. destruct (List.find (caches s b) l) as [j|]; [|by apply Hf in Ho].
  assert (j = i) as -> by by eapply (br_uniq _ _ Hr). clear Hf.
  unfold bread, bget. unfold bind at 1. mstep. unfold caches in Hs. rewrite Hs. unfold at_buf at 1. mstep.
  pose proof (rep_ref s a b i 1 Hr Ho ltac:(lia) ltac:(lia) ltac:(lia)) as Hr1.
  set (s1 := set_buf i _ s) in *.
  assert (Ho1 : owns s1 i b) by by apply owns_set.
  assert (Hlk : b_lock (bufs s1 i) = false).
  { unfold s1. cbn. rewrite upd_eq. cbn. pose proof (bf_held _ _ _ _ _ Hb) as He. rewrite Hh in He. by destruct (b_lock (bufs s i)). }
  unfold bind at 1, acquiresleep. mstep. rewrite Hlk. cbn [at_buf modify ret].
  pose proof (rep_lock s1 _ b i true Hr1 Ho1) as Hr2. cbn [refs a_ref] in Hr2. rewrite upd_eq in Hr2. specialize (Hr2 ltac:(lia)).
  set (s2 := set_buf i (set_lock true (bufs s1 i)) s1) in *. mstep.
  assert (Hv : b_valid (bufs s2 i) = true).
  { assert (Ho2 : owns s2 i b) by by apply owns_set. apply (br_cached _ _ Hr2 i b Ho2). }
  rewrite Hv. cbn. split; [done|]. eapply bio_rep_ext; [exact Hr2|]. split; done.
Qed.

(** A free buffer [i] is recycled for block [b], which is read from disk. *)
Lemma bread_recycle s a b i : bio_rep s a -> 0 <= b < 2 ^ 31 -> (forall j, ~ owns s j b) ->
  0 <= i < NBUF -> b_refcnt (bufs s i) = 0 ->
  bio_rep (set_buf i (mk_buf true ROOTDEV b true 1 (pv_of s i) (nx_of s i) (bdisk s b)) s) (a_get b i a).
Proof.
  intros Hr Hb Hno Hi H0. set (x := mk_buf _ _ _ _ _ _ _ _).
  assert (Ho : forall j c, owns (set_buf i x s) j c <-> (j = i /\ c = b) \/ (j <> i /\ owns s j c)).
  { intros j c. unfold owns. cbn. unfold upd. destruct (Z.eqb_spec j i) as [->|]; cbn; [|naive_solver].
    split; [naive_solver|]. intros [[_ ->]|[? _]]; done. }
  destruct (br_absent _ _ Hr b Hno) as (Hrf & Hhd & Hvw).
  destruct Hr. split; cbn; try done.
  - destruct br_lru0 as [l Hl]. exists l. by apply lru_set.
  - intros j k c. rewrite !Ho. intros [[-> ->]|[Hj Hjo]] [[-> ?]|[Hk Hko]]; [done|by apply Hno in Hko| |eauto].
    subst c. by apply Hno in Hjo.
  - intros j c Hj. apply Ho in Hj as [[-> ->]|[Hji Hjo]].
    + rewrite upd_eq. split; cbn; rewrite ?upd_eq; try done. by rewrite Hrf.
    + rewrite upd_ne by done. assert (Hcb : c <> b) by (intros ->; by apply Hno in Hjo).
      by eapply buf_rep_other; [by apply br_cached0|cbn; rewrite ?upd_ne by done..].
  - intros c Hc. assert (Hcb : c <> b) by (intros ->; apply (Hc i), Ho; auto). rewrite !upd_ne by done.
    destruct (Z.eq_dec (b_dev (bufs s i)) ROOTDEV) as [Hd|Hd].
    + destruct (Z.eq_dec (b_blockno (bufs s i)) c) as [He|He].
      * assert (Hoi : owns s i c) by done. destruct (br_cached0 i c Hoi).
        assert (Hlk : b_lock (bufs s i) = false).
        { destruct (b_lock (bufs s i)); [|done]. specialize (bf_locked0 eq_refl). lia. }
        rewrite bf_refs0, bf_held0, bf_view0, Hlk. auto.
      * apply br_absent0. intros j Hj. destruct (Z.eq_dec j i) as [->|Hji]; [by destruct Hj as (_ & _ & ?)|].
        apply (Hc j), Ho. auto.
    + apply br_absent0. intros j Hj. destruct (Z.eq_dec j i) as [->|Hji]; [by destruct Hj as (_ & ? & _)|].
      apply (Hc j), Ho. auto.
  - intros j Hj Hd. unfold upd in *. destruct (Z.eqb_spec j i) as [->|]; [done|auto].
Qed.

Lemma bread_miss s a b l i : bio_rep s a -> 0 <= b < 2 ^ 31 -> (forall j, ~ owns s j b) -> lru_ok s l ->
  List.find (fun i => b_refcnt (bufs s i) =? 0) (rev l) = Some i ->
  returns (bread ROOTDEV b s) (fun h s' => h = i /\ bio_rep s' (a_get b h a)).
Proof.
  intros Hr Hb Hno Hl Hfi.
  pose proof (search_cached s l b Hl) as Hs. pose proof (find_cached s l b Hl) as Hfc.
  destruct (List.find (caches s b) l) as [j|]; [by apply Hno in Hfc|]. clear Hfc.
  pose proof (search_free s l Hl) as Hs2. rewrite Hfi in Hs2.
  apply List.find_some in Hfi as [Hi H0]. apply List.in_rev, list_elem_of_In in Hi. apply Z.eqb_eq in H0.
  assert (Hir : 0 <= i < NBUF) by by apply Hl.
  assert (Hlk : b_lock (bufs s i) = false).
  { destruct (Z.eq_dec (b_dev (bufs s i)) ROOTDEV) as [Hd|Hd]; [|by apply (br_unused _ _ Hr i)].
    destruct (br_cached _ _ Hr i (b_blockno (bufs s i)) ltac:(done)). destruct (b_lock (bufs s i)); [|done].
    specialize (bf_locked0 eq_refl). lia. }
  unfold bread, bget. unfold bind at 1. mstep. unfold caches in Hs. rewrite Hs, Hs2. unfold at_buf at 1. mstep.
  unfold bind at 1, acquiresleep. mstep. cbn [bufs set_buf]. rewrite upd_eq. cbn [b_lock]. rewrite Hlk.
  cbn [at_buf modify ret]. mstep. cbn [bufs set_buf]. rewrite !upd_eq. cbn [b_valid set_lock].
  unfold bind at 2, virtio_disk_rw. cbn. rewrite !upd_eq. cbn [b_blockno set_lock]. rewrite sector_block by done.
  split; [done|]. eapply bio_rep_pointwise; [by apply (bread_recycle s a b i)| |done|done].
  intros j. cbn. unfold upd. by destruct (j =? i).
Qed.

Lemma find_free s l : lru_ok s l -> (exists i, 0 <= i < NBUF /\ b_refcnt (bufs s i) = 0) ->
  exists i, List.find (fun i => b_refcnt (bufs s i) =? 0) (rev l) = Some i.
Proof.
  intros (_ & _ & Hin) (f & Hf & Hf0). destruct (List.find _ (rev l)) as [i|] eqn:Hfi; [eauto|]. exfalso.
  assert (Hfl : List.In f (rev l)).
  { apply List.in_rev. rewrite rev_involutive. by apply list_elem_of_In, Hin. }
  pose proof (List.find_none _ _ Hfi f Hfl) as Hn. cbn in Hn. rewrite Hf0 in Hn. done.
Qed.

Lemma bread_ok s a b : bio_rep s a -> 0 <= b < 2 ^ 31 -> held a b = None -> refs a b < 2 ^ 31 -> room a b ->
  returns (bread ROOTDEV b s) (fun h s' => bio_rep s' (a_get b h a)).
Proof.
  intros Hr Hb Hh Hlt Hroom. destruct (owns_dec s b) as [[i Hi]|Hno].
  - eapply returns_mono; [by apply (bread_hit s a b i)|]. intros h s' [_ ?]. done.
  - destruct (br_absent _ _ Hr b Hno) as (H0 & _ & _). destruct Hroom as [?|(l' & Hl' & Hbusy)]; [lia|].
    assert (Hfree : exists i, 0 <= i < NBUF /\ b_refcnt (bufs s i) = 0).
    { destruct (scan (fun i => b_refcnt (bufs s i) =? 0) NBUF) as [i|] eqn:Hs.
      - exists i. apply scan_Some in Hs as (? & ?%Z.eqb_eq & _). done.
      - exfalso. destruct (busy_blocks s a Hr) as (Hnd & Hlen & Hpos).
        { intros i Hi He. pose proof (scan_None _ _ Hs i Hi) as Hn. cbn in Hn. rewrite He in Hn. done. }
        assert (Hsub : (length ((fun i => b_blockno (bufs s i)) <$> seqZ 0 NBUF) <= length l')%nat).
        { apply submseteq_length, NoDup_submseteq; [done|]. intros c Hc. auto. }
        lia. }
    destruct (br_lru _ _ Hr) as [l Hl]. destruct (find_free s l Hl Hfree) as [i Hi].
    eapply returns_mono; [by apply (bread_miss s a b l i)|]. intros h s' [_ ?]. done.
Qed.

Lemma bread_full_panics s a b : bio_rep s a -> 0 <= b < 2 ^ 31 -> refs a b = 0 ->
  (exists l : list Z, NoDup l /\ Z.of_nat (length l) = NBUF /\ forall c, c ∈ l -> 0 < refs a c) ->
  exists s', bread ROOTDEV b s = Panic "bget: no buffers" s'.
Proof.
  intros Hr Hb H0 (l' & Hnd & Hlen & Hpos). destruct (br_lru _ _ Hr) as [l Hl].
  (* every busy block has its own buffer, so no buffer is free *)
  assert (Hown : forall c, c ∈ l' -> exists i, owns s i c).
  { intros c Hc. destruct (owns_dec s c) as [?|Hn]; [done|]. destruct (br_absent _ _ Hr c Hn) as (Hz & _).
    apply Hpos in Hc. lia. }
  assert (Hbusy : forall i, 0 <= i < NBUF -> b_refcnt (bufs s i) <> 0).
  { intros i Hi Hz. set (bs := (fun j => b_blockno (bufs s j)) <$> filter (fun j => j <> i) (seqZ 0 NBUF)).
    assert (Hsub : (length l' <= length bs)%nat).
    { apply submseteq_length, NoDup_submseteq; [done|]. intros c Hc. destruct (Hown c Hc) as [j Hj].
      apply list_elem_of_fmap. exists j. split; [symmetry; apply Hj|]. apply list_elem_of_filter. split.
      - intros ->. pose proof (bf_refs _ _ _ _ _ (br_cached _ _ Hr i c Hj)). apply Hpos in Hc. lia.
      - apply elem_of_seqZ. destruct Hj as [? _]. lia. }
    assert (Hlt : (length bs < length (seqZ 0 NBUF))%nat).
    { unfold bs. rewrite length_fmap. apply length_filter_lt with i; [apply elem_of_seqZ; lia|]. naive_solver. }
    rewrite length_seqZ in Hlt. lia. }
  pose proof (search_cached s l b Hl) as Hs. pose proof (find_cached s l b Hl) as Hfc.
  pose proof (search_free s l Hl) as Hs2.
  destruct (List.find (caches s b) l) as [i|].
  { exfalso. apply (Hbusy i); [apply Hfc|]. pose proof (bf_refs _ _ _ _ _ (br_cached _ _ Hr i b Hfc)). congruence. }
  destruct (List.find _ (rev l)) as [i|] eqn:Hfi.
  { exfalso. apply List.find_some in Hfi as [Hi Hz]. apply List.in_rev, list_elem_of_In in Hi. apply Z.eqb_eq in Hz.
    by apply (Hbusy i) in Hz; [|apply Hl]. }
  unfold bread, bget. unfold bind at 1. mstep. unfold caches in Hs. rewrite Hs, Hs2. cbn. eauto.
Qed.

(** * Boot *)

(** The kernel's zeroed buffers. *)
Definition zero_buf : buf := mk_buf false 0 0 false 0 0 0 (replicate (Z.to_nat BSIZE) 0).
Definition bio_zero (d : Z -> list Z) : bio := mk_bio (fun _ => zero_buf) d [].
Definition bio_boot (d : Z -> list Z) : bio := final (binit (bio_zero d)).

Lemma links_only_trans s1 s2 s3 : links_only s1 s2 -> links_only s2 s3 -> links_only s1 s3.
Proof.
  intros (Hd1 & Hw1 & Hf1) (Hd2 & Hw2 & Hf2). split_and!; [congruence..|].
  intros i. destruct (Hf1 i) as (? & ? & ? & ? & ? & ?), (Hf2 i) as (? & ? & ? & ? & ? & ?). split_and!; congruence.
Qed.

Lemma binit_buf_links s b : b <> HEAD -> (forall i, b_lock (bufs s i) = false) ->
  exists s', binit_buf b s = Ret tt s' /\ links_only s s' /\
    (forall i, nx_of s' i = upd (upd (nx_of s) b (nx_of s HEAD)) HEAD b i) /\
    (forall i, pv_of s' i = upd (upd (pv_of s) b HEAD) (nx_of s HEAD) b i).
Proof.
  intros Hb Hlk. eexists. split; [reflexivity|].
  assert (Hf : (HEAD =? b) = false) by (apply Z.eqb_neq; congruence).
  split; [|split].
  - split_and!; [done..|]. intros i. rewrite (Hlk i). cbn. unfold upd. rewrite !Hf. link_cases; split_and!; done.
  - intros i. unfold nx_of, pv_of. cbn. unfold upd. rewrite !Hf. link_cases.
  - intros i. unfold nx_of, pv_of. cbn. unfold upd. rewrite !Hf. link_cases.
Qed.

Lemma binit_ok d : returns (binit (bio_zero d)) (fun _ s' => links_only (bio_zero d) s' /\ exists l, lru_ok s' l).
Proof.
  unfold binit, at_buf. mstep. set (s0 := set_buf HEAD _ _).
  eapply returns_mono.
  { apply (for_loop_returns (fun b s' => links_only (bio_zero d) s' /\ ring (nx_of s') (pv_of s') (reverse (seqZ 0 b)))).
    - split; [|split; done]. split_and!; [done..|]. intros i. cbn. unfold upd.
      destruct (Z.eqb_spec i HEAD) as [->|]; done.
    - intros b s' Hb [Hlo Hr]. assert (HbH : b <> HEAD) by (unfold HEAD; lia).
      destruct (binit_buf_links s' b HbH) as (s'' & -> & Hlo' & Hn & Hp).
      { intros i. destruct Hlo as (_ & _ & Hf). destruct (Hf i) as (_ & _ & _ & -> & _). done. }
      cbn [returns]. split; [by eapply links_only_trans|]. rewrite seqZ_snoc, reverse_snoc, Z.add_0_l by lia.
      eapply ring_ext; [|exact Hn|exact Hp]. apply ring_push; [| |done].
      + rewrite NoDup_cons, reverse_Permutation, elem_of_seqZ. split; [unfold HEAD; lia|apply NoDup_seqZ].
      + rewrite not_elem_of_cons, reverse_Permutation, elem_of_seqZ. split; [done|lia]. }
  intros [] s' [Hlo Hr]. split; [done|]. eexists. split; [exact Hr|]. split; [rewrite reverse_Permutation; apply NoDup_seqZ|].
  intros i. rewrite reverse_Permutation, elem_of_seqZ. lia.
Qed.

Lemma bio_boot_ok d : (forall b, length (d b) = Z.to_nat BSIZE) -> bio_rep (bio_boot d) (a_boot d).
Proof.
  intros Hd. unfold bio_boot. pose proof (binit_ok d) as Hb. destruct (binit (bio_zero d)) as [[] s'| | | |]; try done.
  destruct Hb as [Hlo [l Hl]]. cbn [final]. destruct Hlo as (Hdk & Hw & Hf).
  assert (Hno : forall i b, ~ owns s' i b).
  { intros i b (_ & Hdev & _). destruct (Hf i) as (_ & He & _). rewrite He in Hdev. done. }
  split; cbn; try done.
  - eauto.
  - intros i j b Ho. by apply Hno in Ho.
  - intros i b Ho. by apply Hno in Ho.
  - intros b _. by rewrite Hdk.
  - intros i Hi _. destruct (Hf i) as (_ & _ & _ & -> & -> & _). done.
  - intros b. by rewrite Hdk.
  - intros b. rewrite Hdk. apply Hd.
Qed.

Lemma bio_held s a b h : bio_rep s a -> held a b = Some h ->
  b_blockno (bufs s h) = b /\ b_data (bufs s h) = view a b.
Proof.
  intros Hr Hh. destruct (held_owner s a Hr b h Hh) as [Ho _]. pose proof (br_cached _ _ Hr h b Ho) as Hb.
  split; [apply Ho|symmetry; apply Hb].
Qed.

Lemma bio_set_data s a b h d : bio_rep s a -> held a b = Some h -> length d = Z.to_nat BSIZE ->
  bio_rep (set_buf h (set_data d (bufs s h)) s) (a_set b d a).
Proof.
  intros Hr Hh Hd. destruct (held_owner s a Hr b h Hh) as [Ho _]. apply rep_data; [done|done|congruence|done].
Qed.

(** [bio.c] discharges the interface its clients use. *)
#[export] Instance bio_cache : BufCache := {
  bc := bio;
  Bufcache.bread := bread;
  Bufcache.bwrite := bwrite;
  Bufcache.brelse := brelse;
  Bufcache.bpin := bpin;
  Bufcache.bunpin := bunpin;
  bdata := fun s h => b_data (bufs s h);
  bblockno := fun s h => b_blockno (bufs s h);
  set_bdata := fun h d s => set_buf h (set_data d (bufs s h)) s;
  bboot := bio_boot;
  rep := bio_rep;
  bboot_spec := bio_boot_ok;
  rep_ext := bio_rep_ext;
  rep_wf := bio_rep_wf;
  held_spec := bio_held;
  set_bdata_spec := bio_set_data;
  bread_spec := bread_ok;
  bread_full := bread_full_panics;
  bwrite_spec := bwrite_ok;
  brelse_spec := brelse_ok;
  bpin_spec := bpin_ok;
  bunpin_spec := bunpin_ok
}.

(** * Claims *)

(** C32: [bread] gives the current contents.  In a consistent cache with
    recency list [l], for a block that nobody has locked and for which a buffer
    is cached or some buffer is unreferenced, [bread] returns (no panic, no
    endless list walk) a locked buffer of that block holding its current
    contents; every other block keeps contents, references and locks; a cached
    block is served by its own buffer, and otherwise the least recently used
    unreferenced buffer is recycled. *)
Theorem bread_current_and_lru (s : bio) (a : bstate) (b : Z) (l : list Z)
    (Hrep : bio_rep s a) (Hlru : lru_ok s l) (Hb : 0 <= b < 2 ^ 31) (Hh : held a b = None) (Hlt : refs a b < 2 ^ 31)
    (Hfree : (exists i, owns s i b) \/ exists i, 0 <= i < NBUF /\ b_refcnt (bufs s i) = 0) :
  returns (bread ROOTDEV b s) (fun h s' => bio_rep s' (a_get b h a) /\
    b_data (bufs s' h) = view a b /\ b_blockno (bufs s' h) = b /\ b_lock (bufs s' h) = true /\
    (owns s h b \/ (forall i, ~ owns s i b) /\ List.find (fun i => b_refcnt (bufs s i) =? 0) (rev l) = Some h)).
Proof.
  assert (Hdone : forall h s', bio_rep s' (a_get b h a) ->
    b_data (bufs s' h) = view a b /\ b_blockno (bufs s' h) = b /\ b_lock (bufs s' h) = true).
  { intros h s' Hr. assert (He : held (a_get b h a) b = Some h) by (cbn; apply upd_eq).
    destruct (bio_held _ _ _ _ Hr He), (held_owner _ _ Hr _ _ He). done. }
  destruct (owns_dec s b) as [[i Hi]|Hno].
  - eapply returns_mono; [by apply (bread_hit s a b i)|]. intros h s' [-> Hr].
    destruct (Hdone i s' Hr) as (? & ? & ?). auto 10.
  - destruct Hfree as [[i Hi]|Hfree]; [by apply Hno in Hi|]. destruct (find_free s l Hlru Hfree) as [i Hi].
    eapply returns_mono; [by apply (bread_miss s a b l i)|]. intros h s' [-> Hr].
    destruct (Hdone i s' Hr) as (? & ? & ?). auto 10.
Qed.

(** Releasing a buffer.  [brelse] of a locked buffer returns, unlocks it and
    drops one reference, changing no block's contents; when that was the last
    reference the doubly linked list is relinked so that the buffer becomes the
    most recently used, with the order of the others unchanged. *)
Theorem brelse_makes_most_recent (s : bio) (a : bstate) (b h : Z) (l : list Z)
    (Hrep : bio_rep s a) (Hlru : lru_ok s l) (Hh : held a b = Some h) (Hcl : refs a b = 1 -> view a b = disk a b) :
  returns (brelse h s) (fun _ s' => bio_rep s' (a_release b a) /\
    (1 < refs a b -> lru_ok s' l) /\
    (refs a b = 1 -> exists l1 l2, l = l1 ++ h :: l2 /\ lru_ok s' (h :: l1 ++ l2))).
Proof.
  pose proof (brelse_ok s a b h Hrep Hh Hcl) as Hr. revert Hr.
  destruct (held_owner s a Hrep b h Hh) as [Ho Hl]. pose proof (br_cached _ _ Hrep h b Ho) as Hb.
  pose proof (bf_refs _ _ _ _ _ Hb) as Hrf. pose proof (bf_locked _ _ _ _ _ Hb Hl) as Hpos.
  pose proof (bf_refrange _ _ _ _ _ Hb).
  unfold brelse, holdingsleep, releasesleep, at_buf. mstep. rewrite Hl. mstep.
  set (s1 := set_buf h (set_lock false (bufs s h)) s). set (s2 := set_buf h (set_refcnt _ (bufs s1 h)) s1).
  assert (Hl2 : lru_ok s2 l).
  { unfold s2. apply lru_set; [done|done|]. by apply lru_set. }
  assert (Hz : b_refcnt (bufs s2 h) = refs a b - 1).
  { unfold s2, s1. cbn. rewrite !upd_eq. cbn. rewrite u32_small by lia. lia. }
  rewrite Hz. destruct (Z.eqb_spec (refs a b - 1) 0).
  - pose proof (move_front_ok s2 l h Hl2 ltac:(apply Ho)) as Hm.
    destruct ((unlink h ;;; push_front h) s2) as [[] s3| | | |]; try done. cbn. intros Hr. destruct Hm as [_ Hm].
    split_and!; [done|lia|done].
  - cbn. intros Hr. split_and!; [done|done|lia].
Qed.
