(* ===== verification/LogWitnesses.v ===== *)
(** Concrete runs of the buffer cache and the log: a disk whose log holds one
    committed block, the kernel booted from it, and transactions on it. *)
From S2P Require Import Prelude Bufcache Log LogClaims Bio.
Local Open Scope kern_scope.

Definition zeros : list Z := replicate (Z.to_nat BSIZE) 0.
Definition sevens : list Z := replicate (Z.to_nat BSIZE) 7.

(** The log starts at block 2; its header lists block 40, whose new content is
    in log block 3. *)
Definition demo_head : list Z := head_of zeros 1 (fun _ => 40).
Definition demo_disk (b : Z) : list Z :=
  if b =? 2 then demo_head else if b =? 3 then sevens else zeros.

Lemma demo_blocks : blocks_ok demo_disk.
Proof.
  intros b. unfold demo_disk. repeat case_match; [|done..]. unfold demo_head. by rewrite length_head_of.
Qed.

Lemma home_iff st b : home st b <-> 0 <= b < 2 ^ 31 /\ ~ st <= b <= st + LOGBLOCKS.
Proof. done. Qed.

Lemma demo_head_ok : head_ok 2 demo_disk.
Proof.
  assert (Hn : hd_n (demo_disk 2) = 1) by (vm_compute; reflexivity).
  assert (Hb : hd_block (demo_disk 2) 0 = 40) by (vm_compute; reflexivity).
  split; rewrite Hn.
  - unfold LOGBLOCKS, MAXOPBLOCKS. lia.
  - intros i Hi. replace i with 0 by lia. rewrite Hb. apply home_iff. unfold LOGBLOCKS, MAXOPBLOCKS. lia.
  - intros. lia.
Qed.

Lemma recovery_replays_and_is_idempotent_witness :
  returns (initlog ROOTDEV 2 (boot demo_disk)) (fun _ s' => exists a',
    log_inv s' a' /\ lh_n s' = 0 /\ view a' 40 = sevens).
Proof.
  eapply returns_mono.
  { apply (recovery_replays_and_is_idempotent 2 demo_disk);
      [lia|unfold LOGBLOCKS, MAXOPBLOCKS; lia|exact demo_blocks|exact demo_head_ok]. }
  intros [] s' (a' & Hinv & Hn & Hb & _). exists a'. split_and!; [done|done|].
  destruct (Hb 40) as [-> _]; [apply home_iff; unfold LOGBLOCKS, MAXOPBLOCKS; lia|]. vm_compute. reflexivity.
Defined.

(** The booted log, one call open, and one block updated in it. *)
Definition demo_boot : log := final (initlog ROOTDEV 2 (boot demo_disk)).
Definition demo_open : log := final (begin_op demo_boot).
Definition demo_dirty : log := final (log_update 50 sevens demo_open).
(** All thirty slots of the log used by one open transaction. *)
Definition demo_full : log := final (for_loop 30 0 (fun i => log_update (100 + i) sevens) demo_open).

Lemma returns_final {St A} (o : outcome St A) Q : returns o Q -> exists x, o = Ret x (final o) /\ Q x (final o).
Proof. destruct o; cbn; try done. eauto. Qed.

(** The states of the runs, for any booted log. *)
Definition fresh (s : log) (a : bstate) (n out : Z) : Prop :=
  log_inv s a /\ quiet a /\ lh_n s = n /\ l_start s = 2 /\ l_outstanding s = out /\ l_committing s = false.

Lemma demo_boot_ok : exists a, initlog ROOTDEV 2 (boot demo_disk) = Ret tt demo_boot /\
  fresh demo_boot a 0 0.
Proof.
  pose proof (recover_replay 2 demo_disk ltac:(lia) ltac:(unfold LOGBLOCKS, MAXOPBLOCKS; lia) demo_blocks demo_head_ok) as Hr.
  apply returns_final in Hr as ([] & He & a & f & Hinv & Hq & Hn & Hs & Ho & Hc & _). exists a.
  exact (conj He (conj Hinv (conj Hq (conj Hn (conj Hs (conj Ho Hc)))))).
Qed.

Lemma begin_fresh s a : fresh s a 0 0 -> returns (begin_op s) (fun r s' => r = true /\ fresh s' a 0 1).
Proof.
  intros (Hinv & Hq & Hn & Hs & Ho & Hc). unfold begin_op. mstep. rewrite Hc, Hn, Ho. cbn. split; [done|].
  split; [|done]. destruct Hinv. by split.
Qed.

Lemma demo_open_ok : exists a, begin_op demo_boot = Ret true demo_open /\ fresh demo_open a 0 1.
Proof.
  destruct demo_boot_ok as (a & _ & Hf). pose proof (begin_fresh demo_boot a Hf) as Hr.
  apply returns_final in Hr as (r & He & -> & Hf'). exists a. exact (conj He Hf').
Qed.

Lemma demo_home b : 50 <= b < 200 -> home 2 b.
Proof. intros. apply home_iff. unfold LOGBLOCKS, MAXOPBLOCKS. lia. Qed.

Lemma update_fresh s a n b : fresh s a n 1 -> 0 <= n < 30 -> 50 <= b < 200 ->
  listed (lh_block s) (lh_n s) b = false ->
  returns (log_update b sevens s) (fun _ s' => exists a', fresh s' a' (n + 1) 1 /\ view a' b = sevens /\
    forall c, listed (lh_block s') (lh_n s') c = listed (lh_block s) (lh_n s) c || (b =? c)).
Proof.
  intros (Hinv & Hq & Hn & Hs & Ho & Hc) Hlt Hb Hl.
  eapply returns_mono; [apply (log_update_ok s a b sevens Hinv Hq)|].
  - rewrite Hs. by apply demo_home.
  - done.
  - rewrite Hn. unfold LOGBLOCKS, MAXOPBLOCKS. lia.
  - lia.
  - intros [] s' (a' & Hinv' & Hq' & (Hs' & Ho' & Hc') & Hn' & Hl' & Hv & _ & _). exists a'. split_and!.
    + split; [done|]. split; [done|]. rewrite Hn', Hs', Ho', Hc', Hl. split_and!; try done. lia.
    + by rewrite Hv, Z.eqb_refl.
    + done.
Qed.

Lemma demo_dirty_ok : exists a, fresh demo_dirty a 1 1 /\ view a 50 = sevens.
Proof.
  destruct demo_open_ok as (a & _ & Hf).
  pose proof (update_fresh demo_open a 0 50 Hf ltac:(lia) ltac:(lia)) as Hr.
  destruct Hf as (_ & _ & Hn & _). rewrite Hn in Hr. specialize (Hr eq_refl).
  apply returns_final in Hr as ([] & _ & a' & Hf' & Hv & _). exists a'. exact (conj Hf' Hv).
Qed.

Lemma fill_fresh s a : fresh s a 0 1 ->
  returns (for_loop 30 0 (fun i => log_update (100 + i) sevens) s) (fun _ s' => exists a', fresh s' a' 30 1).
Proof.
  intros Hf. eapply returns_mono.
  { apply (for_loop_returns (fun i s' => exists a', fresh s' a' i 1 /\
      forall c, listed (lh_block s') (lh_n s') c = true -> c < 100 + i)).
    - exists a. split; [done|]. destruct Hf as (_ & _ & -> & _). done.
    - intros i s' Hi (a' & Hf' & Hl').
      eapply returns_mono; [apply (update_fresh s' a' i (100 + i) Hf'); [lia|lia|]|].
      + destruct (listed _ _ (100 + i)) eqn:Hll; [|done]. apply Hl' in Hll. lia.
      + intros [] s'' (a'' & Hf'' & _ & Hl''). exists a''. split; [done|].
        intros c. rewrite Hl'', orb_true_iff, Z.eqb_eq. intros [Hc1|<-]; [apply Hl' in Hc1|]; lia. }
  intros [] s' (a' & Hf' & _). eauto.
Qed.

Lemma demo_full_ok : exists a, fresh demo_full a 30 1.
Proof.
  destruct demo_open_ok as (a & _ & Hf). pose proof (fill_fresh demo_open a Hf) as Hr.
  apply returns_final in Hr as ([] & _ & a' & Hf'). exists a'. exact Hf'.
Qed.

Lemma commit_is_crash_atomic_witness : exists a,
  log_inv demo_dirty a /\ view a 50 = sevens /\
  returns (end_op demo_dirty) (fun _ s' => exists a', log_inv s' a' /\ lh_n s' = 0 /\ disk a' 50 = sevens).
Proof.
  destruct demo_dirty_ok as (a & (Hinv & Hq & Hn & Hs & Ho & Hc) & Hv). exists a. split; [exact Hinv|]. split; [exact Hv|].
  eapply returns_mono.
  { apply (commit_is_crash_atomic demo_dirty a); [exact Hinv|exact Hq|rewrite Hn; reflexivity|exact Ho|exact Hc]. }
  intros [] s' (a' & w & Hinv' & Hn' & _ & Hb & _). exists a'. split_and!; [done|done|].
  destruct (Hb 50) as [_ ->]; [rewrite Hs; apply demo_home; lia|]. exact Hv.
Defined.


Lemma full_transaction_cannot_commit_witness : exists s', end_op demo_full = Panic "bget: no buffers" s'.
Proof.
  destruct demo_full_ok as (a & Hinv & Hq & Hn & _ & Ho & Hc).
  exact (full_transaction_cannot_commit demo_full a Hinv Hq Hn Ho Hc).
Defined.

(** ** The cache alone *)

Definition demo_bio : bio := bio_boot demo_disk.

Lemma demo_bio_ok : bio_rep demo_bio (a_boot demo_disk) /\ exists l, lru_ok demo_bio l.
Proof. pose proof (bio_boot_ok demo_disk demo_blocks) as Hr. split; [done|]. apply (br_lru _ _ Hr). Qed.

Lemma demo_free : b_refcnt (bufs demo_bio 0) = 0.
Proof. vm_compute. reflexivity. Qed.

Lemma bread_current_and_lru_witness :
  returns (bread ROOTDEV 3 demo_bio) (fun h s' => b_data (bufs s' h) = sevens /\ b_blockno (bufs s' h) = 3).
Proof.
  destruct demo_bio_ok as [Hr [l Hl]]. eapply returns_mono.
  { apply (bread_current_and_lru demo_bio (a_boot demo_disk) 3 l); [exact Hr|exact Hl|lia|reflexivity|cbn; lia|].
    right. exists 0. split; [unfold NBUF, MAXOPBLOCKS; lia|exact demo_free]. }
  intros h s' (_ & Hd & Hb & _). split; [|done]. rewrite Hd. reflexivity.
Defined.

Lemma brelse_makes_most_recent_witness : exists h s,
  bread ROOTDEV 3 demo_bio = Ret h s /\ returns (brelse h s) (fun _ s' => exists l', lru_ok s' (h :: l')).
Proof.
  destruct demo_bio_ok as [Hr [l Hl]].
  pose proof (bread_ok demo_bio (a_boot demo_disk) 3 Hr ltac:(lia) ltac:(reflexivity) ltac:(cbn; lia)
    ltac:(right; exists []; split; [reflexivity|cbn; lia])) as Hb.
  apply returns_final in Hb as (h & Hb & Hr2). exists h, (final (bread ROOTDEV 3 demo_bio)). split; [exact Hb|].
  destruct (br_lru _ _ Hr2) as [l2 Hl2]. eapply returns_mono.
  { apply (brelse_makes_most_recent _ _ 3 h l2 Hr2 Hl2); [reflexivity|intros _; reflexivity]. }
  intros [] s' (_ & _ & Hm). destruct (Hm eq_refl) as (l1 & l3 & _ & Hl'). eauto.
Defined.
