(* ===== verification/Grep.v ===== *)
(** The pattern matcher and line filter of [user/grep.c].  A C string is the
    list of its characters before the terminating NUL. *)
From S2P Require Import Prelude.

(** * The matcher *)

Definition c_nul : Z := 0.
Definition c_nl : Z := 10.
Definition c_dollar : Z := 36.
Definition c_star : Z := 42.
Definition c_dot : Z := 46.
Definition c_caret : Z := 94.

(** The loop of [matchstar], given the matcher of the rest of the pattern. *)
Fixpoint star_loop (here : list Z -> bool) (c : Z) (text : list Z) : bool :=
  if here text then true else
  match text with
  | [] => false
  | t :: text' => if (t =? c) || (c =? c_dot) then star_loop here c text' else false
  end.

Fixpoint matchhere (re text : list Z) {struct re} : bool :=
  match re with
  | [] => true
  | r0 :: re1 =>
      match re1 with
      | [] =>
          if r0 =? c_dollar then match text with [] => true | _ => false end
          else match text with t :: text' => if (r0 =? c_dot) || (r0 =? t) then matchhere re1 text' else false | [] => false end
      | r1 :: re2 =>
          if r1 =? c_star then star_loop (matchhere re2) r0 text
          else match text with t :: text' => if (r0 =? c_dot) || (r0 =? t) then matchhere re1 text' else false | [] => false end
      end
  end.

Definition matchstar (c : Z) (re text : list Z) : bool := star_loop (matchhere re) c text.

(** The [do ... while] of [match]. *)
Fixpoint match_loop (re text : list Z) : bool :=
  if matchhere re text then true else
  match text with [] => false | _ :: text' => match_loop re text' end.

Definition match_ (re text : list Z) : bool :=
  match re with
  | r0 :: re1 => if r0 =? c_caret then matchhere re1 text else match_loop re text
  | [] => match_loop re text
  end.

(** What a pattern means: [here re text] when some prefix of [text] (all of it
    after a final [$]) is described by [re]. *)
Inductive here : list Z -> list Z -> Prop :=
| here_nil text : here [] text
| here_star c re s text : Forall (fun t => t = c \/ c = c_dot) s -> here re text -> here (c :: c_star :: re) (s ++ text)
| here_end : here [c_dollar] []
| here_char c re t text : head re <> Some c_star -> ~ (c = c_dollar /\ re = []) -> c = c_dot \/ c = t ->
    here re text -> here (c :: re) (t :: text).

Lemma star_loop_iff h c text :
  star_loop h c text = true <-> exists s text', text = s ++ text' /\ Forall (fun t => t = c \/ c = c_dot) s /\ h text' = true.
Proof.
  induction text as [|t text IH]; cbn; destruct (h _) eqn:Hh.
  - split; [|done]. intros _. exists [], []. done.
  - split; [done|]. intros (s & text' & He & _ & Ht). destruct s; [|done]. cbn in He. congruence.
  - split; [|done]. intros _. exists [], (t :: text). done.
  - destruct ((t =? c) || (c =? c_dot)) eqn:Hc.
    + rewrite IH. rewrite orb_true_iff, !Z.eqb_eq in Hc. split.
      * intros (s & text' & -> & Hs & Ht). exists (t :: s), text'. by rewrite Forall_cons.
      * intros (s & text' & He & Hs & Ht). destruct s as [|x s]; cbn in He; [congruence|]. injection He as -> ->.
        apply Forall_cons in Hs as [_ Hs]. eauto.
    + split; [done|]. intros (s & text' & He & Hs & Ht). destruct s as [|x s]; cbn in He; [congruence|]. injection He as -> ->.
      apply Forall_cons in Hs as [Hx _]. rewrite orb_false_iff, !Z.eqb_neq in Hc. tauto.
Qed.

Lemma matchhere_iff re text : matchhere re text = true <-> here re text.
Proof.
  remember (length re) as n eqn:Hn. revert re text Hn. induction (lt_wf n) as [n _ IH]. intros re text ->.
  destruct re as [|r0 re1]; [split; [constructor|done]|].
  assert (Hchar : head re1 <> Some c_star -> ~ (r0 = c_dollar /\ re1 = []) ->
    (match text with t :: text' => if (r0 =? c_dot) || (r0 =? t) then matchhere re1 text' else false | [] => false end) = true
    <-> here (r0 :: re1) text).
  { intros Hh Hd. destruct text as [|t text'].
    - split; [done|]. intros Hr. inversion Hr; subst; naive_solver.
    - destruct ((r0 =? c_dot) || (r0 =? t)) eqn:Hc.
      + rewrite orb_true_iff, !Z.eqb_eq in Hc. rewrite (IH (length re1)) by (cbn; lia || done). split.
        * intros Hr. by constructor.
        * intros Hr. inversion Hr; subst; naive_solver.
      + rewrite orb_false_iff, !Z.eqb_neq in Hc. split; [done|]. intros Hr. inversion Hr; subst; naive_solver. }
  cbn [matchhere]. destruct re1 as [|r1 re2].
  - destruct (Z.eqb_spec r0 c_dollar) as [->|].
    + destruct text; split; try done; [constructor|]. intros Hr. inversion Hr; subst; naive_solver.
    + apply Hchar; naive_solver.
  - destruct (Z.eqb_spec r1 c_star) as [->|Hr1].
    + rewrite star_loop_iff. split.
      * intros (s & text' & -> & Hs & Ht). constructor; [done|]. by apply (IH (length re2)); [cbn; lia| |].
      * intros Hr. inversion Hr; subst; [|naive_solver]. eexists _, _. split_and!; [done..|].
        by apply (IH (length re2)); [cbn; lia| |].
    + apply Hchar; naive_solver.
Qed.

Lemma match_loop_iff re text : match_loop re text = true <-> exists pre suf, text = pre ++ suf /\ here re suf.
Proof.
  induction text as [|t text IH]; cbn; destruct (matchhere re _) eqn:Hh.
  - split; [|done]. intros _. exists [], []. split; [done|]. by apply matchhere_iff.
  - split; [done|]. intros (pre & suf & He & Hr). destruct pre; [|done]. cbn in He. subst suf.
    apply matchhere_iff in Hr. congruence.
  - split; [|done]. intros _. exists [], (t :: text). split; [done|]. by apply matchhere_iff.
  - rewrite IH. split.
    + intros (pre & suf & -> & Hr). by exists (t :: pre), suf.
    + intros (pre & suf & He & Hr). destruct pre as [|x pre]; cbn in He.
      * subst suf. apply matchhere_iff in Hr. congruence.
      * injection He as -> ->. eauto.
Qed.

(** The matcher decides the pattern language.  [match] (which always
    terminates) answers 1 exactly when the text contains, anywhere or, after a
    leading [^], at its start, a stretch described by the pattern, where [.] is
    any character, [c*] any number of [c] and a final [$] the end of the
    text. *)
Theorem match_decides_pattern (re text : list Z) :
  match_ re text = true <->
  (exists re1, re = c_caret :: re1 /\ here re1 text) \/
  (head re <> Some c_caret /\ exists pre suf, text = pre ++ suf /\ here re suf).
Proof.
  unfold match_. destruct re as [|r0 re1].
  - rewrite match_loop_iff. split; [intros; right; done|]. intros [(re1 & He & _)|[_ ?]]; done.
  - destruct (Z.eqb_spec r0 c_caret) as [->|Hne].
    + rewrite matchhere_iff. split; [intros; left; eauto|]. intros [(re & He & Hr)|[Hh _]]; [congruence|done].
    + rewrite match_loop_iff. split; [intros; right; split; [cbn; congruence|done]|].
      intros [(re & He & Hr)|[_ ?]]; [congruence|done].
Qed.

(** * The line filter *)

Definition BUFSIZE : Z := 1024.

(** [strchr(p, '\n')] on the string [p]: what lies before and after the first
    newline. *)
Fixpoint split_line (p : list Z) : option (list Z * list Z) :=
  match p with
  | [] => None
  | c :: p' => if c =? c_nul then None else if c =? c_nl then Some ([], p') else
      match split_line p' with Some (l, q) => Some (c :: l, q) | None => None end
  end.

(** The inner loop of [grep]: the output for the complete lines of the buffer
    and the incomplete rest that is moved to its start. *)
Fixpoint scan_lines (fuel : nat) (pattern p : list Z) : list Z * list Z :=
  match fuel with
  | O => ([], p)
  | S k =>
      match split_line p with
      | None => ([], p)
      | Some (line, q) =>
          let '(out, rest) := scan_lines k pattern q in
          ((if match_ pattern line then line ++ [c_nl] else []) ++ out, rest)
      end
  end.

(** The outer loop.  [read(fd, buf+m, sizeof(buf)-m-1)] delivers between one
    and the requested number of the bytes still in the file, as many as the
    next element of [sizes] says, and 0 at the end of the file or when nothing
    is requested. *)
Fixpoint grep_loop (fuel : nat) (pattern buf file : list Z) (sizes : list nat) : list Z :=
  match fuel with
  | O => []
  | S k =>
      let want := (Z.to_nat BUFSIZE - length buf - 1)%nat in
      let n := Nat.min (Nat.min want (length file)) (S (default 0%nat (head sizes))) in
      if (n =? 0)%nat then [] else
      let '(out, rest) := scan_lines (length (buf ++ take n file)) pattern (buf ++ take n file) in
      out ++ grep_loop k pattern rest (drop n file) (tail sizes)
  end.

Definition grep (pattern file : list Z) (sizes : list nat) : list Z :=
  grep_loop (S (length file)) pattern [] file sizes.

(** The specification: the matching lines of a text, each with its newline. *)
Fixpoint lines_of (cur text : list Z) : list (list Z) :=
  match text with
  | [] => []
  | c :: text' => if c =? c_nl then cur :: lines_of [] text' else lines_of (cur ++ [c]) text'
  end.

Definition matching_lines (pattern text : list Z) : list Z :=
  concat ((fun l => if match_ pattern l then l ++ [c_nl] else []) <$> lines_of [] text).

(** The incomplete line that a text ends with. *)
Fixpoint last_part (cur text : list Z) : list Z :=
  match text with
  | [] => cur
  | c :: text' => if c =? c_nl then last_part [] text' else last_part (cur ++ [c]) text'
  end.

Definition no_nl (l : list Z) : Prop := Forall (fun c => c <> c_nl) l.
Definition no_nul (l : list Z) : Prop := Forall (fun c => c <> c_nul) l.

Lemma lines_of_app cur t1 t2 : lines_of cur (t1 ++ t2) = lines_of cur t1 ++ lines_of (last_part cur t1) t2.
Proof.
  revert cur. induction t1 as [|c t1 IH]; intros cur; cbn; [done|]. destruct (c =? c_nl); cbn; by rewrite IH.
Qed.

Lemma last_part_app cur t1 t2 : last_part cur (t1 ++ t2) = last_part (last_part cur t1) t2.
Proof. revert cur. induction t1 as [|c t1 IH]; intros cur; cbn; [done|]. by destruct (c =? c_nl). Qed.

Lemma no_nl_part cur l : no_nl l -> lines_of cur l = [] /\ last_part cur l = cur ++ l.
Proof.
  intros Hl. revert cur. induction Hl as [|c l Hc Hl IH]; intros cur; cbn; [by rewrite app_nil_r|].
  destruct (Z.eqb_spec c c_nl); [done|]. destruct (IH (cur ++ [c])) as [-> ->]. by rewrite <- app_assoc.
Qed.

Lemma last_part_no_nl cur t : no_nl cur -> no_nl (last_part cur t).
Proof.
  revert cur. induction t as [|c t IH]; intros cur Hc; cbn; [done|]. destruct (Z.eqb_spec c c_nl); [apply IH; constructor|].
  apply IH. apply Forall_app. split; [done|]. by repeat constructor.
Qed.

Lemma split_line_Some p l q : split_line p = Some (l, q) -> no_nl l /\ p = l ++ c_nl :: q.
Proof.
  revert l q. induction p as [|c p IH]; intros l q; cbn; [done|]. destruct (c =? c_nul); [done|]. destruct (Z.eqb_spec c c_nl) as [->|].
  - intros [= <- <-]. split; [constructor|done].
  - destruct (split_line p) as [[l' q']|]; [|done]. intros [= <- <-]. destruct (IH l' q' eq_refl) as [? ->].
    split; [by constructor|done].
Qed.

Lemma split_line_None p : no_nul p -> split_line p = None -> no_nl p.
Proof.
  induction 1 as [|c p Hc Hp IH]; cbn; [constructor|]. destruct (Z.eqb_spec c c_nul); [done|].
  destruct (Z.eqb_spec c c_nl); [done|].
  destruct (split_line p) as [[]|]; [done|]. intros _. constructor; [done|by apply IH].
Qed.

Lemma last_part_no_nul cur t : no_nul cur -> no_nul t -> no_nul (last_part cur t).
Proof.
  intros Hc Ht. revert cur Hc. induction Ht as [|c t Hc Ht IH]; intros cur Hcur; cbn; [done|].
  destruct (c =? c_nl); [apply IH; constructor|]. apply IH, Forall_app. split; [done|]. by repeat constructor.
Qed.

Lemma scan_lines_ok fuel pattern p : (length p <= fuel)%nat -> no_nul p ->
  scan_lines fuel pattern p = (matching_lines pattern p, last_part [] p).
Proof.
  revert p. induction fuel as [|k IH]; intros p Hp Hz; cbn [scan_lines].
  - destruct p; [done|cbn in Hp; lia].
  - destruct (split_line p) as [[line q]|] eqn:Hs.
    + apply split_line_Some in Hs as [Hl ->]. rewrite length_app in Hp. cbn in Hp.
      apply Forall_app in Hz as [_ Hz]. apply Forall_cons in Hz as [_ Hz]. rewrite IH by (lia || done).
      unfold matching_lines. rewrite lines_of_app, last_part_app. destruct (no_nl_part [] line Hl) as [-> ->]. done.
    + apply split_line_None in Hs; [|done]. unfold matching_lines. by destruct (no_nl_part [] p Hs) as [-> ->].
Qed.

(** Every line fits the buffer with room for one more byte and the NUL. *)
Definition lines_fit (text : list Z) : Prop :=
  forall pre suf, text = pre ++ suf -> Z.of_nat (length (last_part [] pre)) < BUFSIZE - 1.

Lemma matching_lines_app pattern cur t1 t2 : no_nl cur ->
  matching_lines pattern (cur ++ t1 ++ t2) =
  matching_lines pattern (cur ++ t1) ++ matching_lines pattern (last_part [] (cur ++ t1) ++ t2).
Proof.
  intros Hc. unfold matching_lines. rewrite app_assoc, (lines_of_app [] (cur ++ t1) t2), fmap_app, concat_app. f_equal.
  rewrite lines_of_app. destruct (no_nl_part [] (last_part [] (cur ++ t1))) as [-> ->]; [|done].
  by apply last_part_no_nl; constructor.
Qed.

Lemma grep_loop_ok fuel pattern buf done_ file sizes :
  (length file < fuel)%nat -> buf = last_part [] done_ -> lines_fit (done_ ++ file) -> no_nul (done_ ++ file) ->
  grep_loop fuel pattern buf file sizes = matching_lines pattern (buf ++ file).
Proof.
  revert buf done_ file sizes. induction fuel as [|k IH]; intros buf done_ file sizes Hf Hb Hfit Hz; [lia|].
  pose proof Hz as Hz'. apply Forall_app in Hz' as [Hz1 Hz2].
  assert (Hbz : no_nul buf) by (subst buf; by apply last_part_no_nul; [constructor|]).
  assert (Hnl : no_nl buf) by (subst buf; by apply last_part_no_nl; constructor).
  pose proof (Hfit done_ file eq_refl) as Hlen. rewrite <- Hb in Hlen. unfold BUFSIZE in *.
  cbn [grep_loop]. set (n := Nat.min _ _). destruct (Nat.eqb_spec n 0) as [H0|H0].
  - assert (file = []) as -> by (destruct file; [done|]; unfold n, BUFSIZE in H0; cbn [length] in H0; lia).
    rewrite app_nil_r. unfold matching_lines. by destruct (no_nl_part [] buf Hnl) as [-> _].
  - rewrite scan_lines_ok; [|lia|apply Forall_app; split; [done|by apply Forall_take]]. rewrite (IH _ (done_ ++ take n file) (drop n file)).
    + rewrite <- matching_lines_app by done. by rewrite take_drop.
    + rewrite length_drop. lia.
    + rewrite !last_part_app, <- Hb. by destruct (no_nl_part [] buf Hnl) as [_ ->].
    + by rewrite <- app_assoc, take_drop.
    + by rewrite <- app_assoc, take_drop.
Qed.


(** A line that fills the buffer ends the search: the text after it is never
    looked at. *)
Example grep_stops_at_long_line :
  grep [120] (replicate 1023 97 ++ [c_nl; 120; c_nl]) [5000]%nat = [] /\
  matching_lines [120] (replicate 1023 97 ++ [c_nl; 120; c_nl]) = [120; c_nl].
Proof. split; vm_compute; reflexivity. Qed.

