(* ===== verification/Kstring.v ===== *)
(** The byte and string routines of [kernel/string.c] and [user/ulib.c], and
    the ones [kernel/exec.c] adds to name a process's swap file ([itoa],
    [strcat]), on byte-addressed memory. *)
From S2P Require Import Prelude.

(** * Operations *)

(** Loops over a byte count are structural on it; loops that run to a NUL get
    fuel, and their theorems say how much is enough. *)

Fixpoint memset_loop (k : nat) (m : mem) (cdst i c : Z) : mem :=
  match k with
  | O => m
  | S k' => memset_loop k' (upd m (cdst + i) (u8 c)) cdst (i + 1) c
  end.
Definition memset (m : mem) (dst c n : Z) : mem := memset_loop (Z.to_nat n) m dst 0 c.

Fixpoint memcmp (m : mem) (s1 s2 : Z) (n : nat) : Z :=
  match n with
  | O => 0
  | S n' => if m s1 =? m s2 then memcmp m (s1 + 1) (s2 + 1) n' else m s1 - m s2
  end.

Fixpoint move_down (k : nat) (m : mem) (d s : Z) : mem :=
  match k with
  | O => m
  | S k' => move_down k' (upd m (d - 1) (m (s - 1))) (d - 1) (s - 1)
  end.
Fixpoint move_up (k : nat) (m : mem) (d s : Z) : mem :=
  match k with
  | O => m
  | S k' => move_up k' (upd m d (m s)) (d + 1) (s + 1)
  end.

(** [memmove] of the kernel. *)
Definition memmove (m : mem) (dst src n : Z) : mem :=
  if n =? 0 then m
  else if (src <? dst) && (dst <? src + n) then move_down (Z.to_nat n) m (dst + n) (src + n)
  else move_up (Z.to_nat n) m dst src.
Definition memcpy (m : mem) (dst src n : Z) : mem := memmove m dst src n.

(** [memmove] of the user library. *)
Definition umemmove (m : mem) (vdst vsrc n : Z) : mem :=
  if vdst <? vsrc then move_up (Z.to_nat n) m vdst vsrc
  else move_down (Z.to_nat n) m (vdst + n) (vsrc + n).

Fixpoint strncmp (m : mem) (p q : Z) (n : nat) : Z :=
  match n with
  | O => 0
  | S n' => if negb (m p =? 0) && (m p =? m q) then strncmp m (p + 1) (q + 1) n' else m p - m q
  end.

(** The second loop of [strncpy]. *)
Fixpoint zero_pad (n : nat) (m : mem) (s : Z) : mem :=
  match n with O => m | S n' => zero_pad n' (upd m s 0) (s + 1) end.
Fixpoint strncpy (n : nat) (m : mem) (s t : Z) : mem :=
  match n with
  | O => m
  | S n' => if m t =? 0 then zero_pad n' (upd m s (m t)) (s + 1) else strncpy n' (upd m s (m t)) (s + 1) (t + 1)
  end.

(** The loop of [safestrcpy] on the decremented count, then the final NUL. *)
Fixpoint safestrcpy_loop (n : nat) (m : mem) (s t : Z) : mem :=
  match n with
  | O => upd m s 0
  | S n' => if m t =? 0 then upd (upd m s (m t)) (s + 1) 0 else safestrcpy_loop n' (upd m s (m t)) (s + 1) (t + 1)
  end.
Definition safestrcpy (m : mem) (s t n : Z) : mem :=
  if n <=? 0 then m else safestrcpy_loop (Z.to_nat (n - 1)) m s t.

Fixpoint strlen (fuel : nat) (m : mem) (s n : Z) : option Z :=
  match fuel with
  | O => None
  | S k => if m (s + n) =? 0 then Some n else strlen k m s (n + 1)
  end.

Fixpoint strcpy (fuel : nat) (m : mem) (s t : Z) : option mem :=
  match fuel with
  | O => None
  | S k => if m t =? 0 then Some (upd m s (m t)) else strcpy k (upd m s (m t)) (s + 1) (t + 1)
  end.

Fixpoint strcmp (fuel : nat) (m : mem) (p q : Z) : option Z :=
  match fuel with
  | O => None
  | S k => if negb (m p =? 0) && (m p =? m q) then strcmp k m (p + 1) (q + 1) else Some (m p - m q)
  end.

(** [strchr]: the address found, 0 when there is none. *)
Fixpoint strchr (fuel : nat) (m : mem) (s c : Z) : option Z :=
  match fuel with
  | O => None
  | S k => if m s =? 0 then Some 0 else if m s =? c then Some s else strchr k m (s + 1) c
  end.

Fixpoint atoi_loop (fuel : nat) (m : mem) (s n : Z) : option Z :=
  match fuel with
  | O => None
  | S k => if (48 <=? m s) && (m s <=? 57) then atoi_loop k m (s + 1) (i32 (n * 10 + m s - 48)) else Some n
  end.
Definition atoi (fuel : nat) (m : mem) (s : Z) : option Z := atoi_loop fuel m s 0.

(** The digits of a positive [n], least significant first; 32 bits have at
    most ten. *)
Fixpoint itoa_digits (fuel : nat) (m : mem) (buf n i : Z) : mem * Z :=
  match fuel with
  | O => (m, i)
  | S k => if 0 <? n then itoa_digits k (upd m (buf + i) (n mod 10 + 48)) buf (n / 10) (i + 1) else (m, i)
  end.
Fixpoint itoa_pad (k : nat) (m : mem) (buf i : Z) : mem :=
  match k with O => m | S k' => itoa_pad k' (upd m (buf + i) 48) buf (i + 1) end.
Fixpoint itoa_reverse (k : nat) (m : mem) (buf i j : Z) : mem :=
  match k with
  | O => m
  | S k' => itoa_reverse k' (upd (upd m (buf + j) (m (buf + (i - j - 1)))) (buf + (i - j - 1)) (m (buf + j))) buf i (j + 1)
  end.
Definition itoa (m : mem) (n buf min_width : Z) : mem :=
  let '(m, i) := if n =? 0 then (upd m buf 48, 1) else itoa_digits 10 m buf n 0 in
  let m := itoa_pad (Z.to_nat (min_width - i)) m buf i in
  let i := Z.max i min_width in
  let m := upd m (buf + i) 0 in
  itoa_reverse (Z.to_nat (i / 2)) m buf i 0.

Fixpoint find_nul (fuel : nat) (m : mem) (d : Z) : option Z :=
  match fuel with
  | O => None
  | S k => if m d =? 0 then Some d else find_nul k m (d + 1)
  end.
Definition strcat (fuel : nat) (m : mem) (dest src : Z) : option mem :=
  match find_nul fuel m dest with
  | Some d => strcpy fuel m d src
  | None => None
  end.

(** * Copying *)

Lemma memset_fill m dst c n x : 0 <= n -> memset m dst c n x = fill m dst c n x.
Proof.
  intros Hn. unfold memset, fill.
  assert (Hl : forall k m i, memset_loop k m dst i c x =
    if (dst + i <=? x) && (x <? dst + i + Z.of_nat k) then u8 c else m x).
  { induction k as [|k IH]; intros m' i; cbn [memset_loop].
    - bool_to_prop; try lia; done.
    - rewrite IH. unfold upd. bool_to_prop; try lia; done. }
  rewrite Hl. bool_to_prop; try lia; done.
Qed.

Lemma move_up_copy k m d s x : s >= d \/ s + Z.of_nat k <= d ->
  move_up k m d s x = copy m d s (Z.of_nat k) x.
Proof.
  revert m d s. induction k as [|k IH]; intros m d s Hd; cbn [move_up].
  - unfold copy. bool_to_prop; try lia; done.
  - rewrite IH by lia. unfold copy, upd. bool_to_prop; try lia; try done; f_equal; lia.
Qed.

Lemma move_down_copy k m d s x : s <= d ->
  move_down k m d s x = copy m (d - Z.of_nat k) (s - Z.of_nat k) (Z.of_nat k) x.
Proof.
  revert m d s. induction k as [|k IH]; intros m d s Hd; cbn [move_down].
  - unfold copy. bool_to_prop; try lia; done.
  - rewrite IH by lia. unfold copy, upd. bool_to_prop; try lia; try done; f_equal; lia.
Qed.

(** [memmove], in the kernel and in the user library, leaves in the
    destination the bytes the source had before the call, and every other byte
    alone, also when the two ranges overlap. *)
Theorem memmove_copies (m : mem) (dst src n : Z) (Hn : 0 <= n) :
  (forall x, memmove m dst src n x = copy m dst src n x) /\
  (forall x, umemmove m dst src n x = copy m dst src n x).
Proof.
  split; intros x.
  - unfold memmove. destruct (Z.eqb_spec n 0) as [->|]; [unfold copy; bool_to_prop; try lia; done|].
    destruct (Z.ltb_spec src dst), (Z.ltb_spec dst (src + n)); cbn [andb].
    + rewrite move_down_copy by lia. rewrite Z2Nat.id by lia. f_equal; lia.
    + rewrite move_up_copy by lia. by rewrite Z2Nat.id by lia.
    + rewrite move_up_copy by lia. by rewrite Z2Nat.id by lia.
    + rewrite move_up_copy by lia. by rewrite Z2Nat.id by lia.
  - unfold umemmove. destruct (Z.ltb_spec dst src).
    + rewrite move_up_copy by lia. by rewrite Z2Nat.id by lia.
    + rewrite move_down_copy by lia. rewrite Z2Nat.id by lia. f_equal; lia.
Qed.

Lemma memmove_copies_witness : memmove (fun x => x) 10 12 5 11 = 13 /\ umemmove (fun x => x) 12 10 5 16 = 14.
Proof.
  destruct (memmove_copies (fun x => x) 10 12 5 ltac:(lia)) as [H1 _].
  destruct (memmove_copies (fun x => x) 12 10 5 ltac:(lia)) as [_ H2].
  rewrite H1, H2. split; reflexivity.
Defined.

(** * Strings in memory *)

(** The NUL-terminated string at [a] has the characters [l]. *)
Fixpoint cstr (m : mem) (a : Z) (l : list Z) : Prop :=
  match l with
  | [] => m a = 0
  | c :: l' => m a = c /\ c <> 0 /\ cstr m (a + 1) l'
  end.

Lemma cstr_ext m m' a l : (forall x, a <= x <= a + Z.of_nat (length l) -> m' x = m x) -> cstr m a l -> cstr m' a l.
Proof.
  revert a. induction l as [|c l IH]; intros a He; cbn [cstr length] in *.
  - intros <-. apply He. lia.
  - intros (Hc & Hn & Hl). split_and!; [rewrite He by lia; done|done|]. apply IH; [|done]. intros. apply He. lia.
Qed.

Lemma cstr_fun m a l l' : cstr m a l -> cstr m a l' -> l = l'.
Proof.
  revert a l'. induction l as [|c l IH]; intros a [|c' l']; cbn.
  - done.
  - intros ? (? & ? & ?). congruence.
  - intros (? & ? & ?) ?. congruence.
  - intros (? & ? & Hl) (? & ? & Hl'). f_equal; [congruence|]. eauto.
Qed.

Lemma strlen_cstr m a l fuel n : cstr m (a + n) l -> (length l < fuel)%nat ->
  strlen fuel m a n = Some (n + Z.of_nat (length l)).
Proof.
  revert n fuel. induction l as [|c l IH]; intros n fuel Hl Hf; (destruct fuel as [|fuel]; [cbn in Hf; lia|]); cbn [strlen cstr length] in *.
  - rewrite Hl, Z.eqb_refl. f_equal. lia.
  - destruct Hl as (Hc & Hn & Hl). destruct (Z.eqb_spec (m (a + n)) 0); [congruence|].
    rewrite (IH (n + 1)); [f_equal; lia| |lia]. by rewrite Z.add_assoc.
Qed.

(** [strcpy] onto a place that does not overlap the source string. *)
Lemma strcpy_cstr m s t l fuel : cstr m t l -> (length l < fuel)%nat ->
  (s + Z.of_nat (length l) < t \/ t + Z.of_nat (length l) < s) ->
  exists m', strcpy fuel m s t = Some m' /\ cstr m' s l /\
    forall x, ~ s <= x <= s + Z.of_nat (length l) -> m' x = m x.
Proof.
  revert m s t fuel. induction l as [|c l IH]; intros m s t fuel Hl Hf Hd; (destruct fuel as [|fuel]; [cbn in Hf; lia|]); cbn [strcpy cstr length] in *.
  - rewrite Hl, Z.eqb_refl. exists (upd m s 0). split_and!; [done|apply upd_eq|]. intros. apply upd_ne. lia.
  - destruct Hl as (Hc & Hn & Hl). destruct (Z.eqb_spec (m t) 0); [congruence|].
    destruct (IH (upd m s (m t)) (s + 1) (t + 1) fuel) as (m' & Hm' & Hs & Hx); [|lia|lia|].
    { eapply cstr_ext; [|exact Hl]. intros. apply upd_ne. lia. }
    exists m'. split_and!; [done| |done|done|].
    + rewrite Hx by lia. by rewrite upd_eq.
    + intros x Hxx. rewrite Hx by lia. apply upd_ne. lia.
Qed.

Lemma find_nul_cstr m d l fuel : cstr m d l -> (length l < fuel)%nat -> find_nul fuel m d = Some (d + Z.of_nat (length l)).
Proof.
  revert d fuel. induction l as [|c l IH]; intros d fuel Hl Hf; (destruct fuel as [|fuel]; [cbn in Hf; lia|]); cbn [find_nul cstr length] in *.
  - rewrite Hl, Z.eqb_refl. f_equal. lia.
  - destruct Hl as (Hc & Hn & Hl). destruct (Z.eqb_spec (m d) 0); [congruence|].
    rewrite IH by (done || lia). f_equal. lia.
Qed.

Lemma cstr_app m a l1 l2 : cstr m a (l1 ++ l2) <->
  (forall i c, l1 !! i = Some c -> m (a + Z.of_nat i) = c /\ c <> 0) /\ cstr m (a + Z.of_nat (length l1)) l2.
Proof.
  revert a. induction l1 as [|c l1 IH]; intros a; cbn [app cstr length].
  - rewrite Z.add_0_r. split; [|tauto]. intros. split; [|done]. intros i c. by rewrite lookup_nil.
  - rewrite IH. replace (a + 1 + Z.of_nat (length l1)) with (a + Z.of_nat (S (length l1))) by lia. split.
    + intros (Hc & Hn & Hl & Hl2). split; [|done]. intros [|i] c'; cbn.
      * intros [= <-]. by rewrite Z.add_0_r.
      * intros Hi. destruct (Hl i c' Hi). split; [|done]. rewrite <- H. f_equal. lia.
    + intros (Hl & Hl2). destruct (Hl 0%nat c eq_refl) as [Hc Hn]. rewrite Z.add_0_r in Hc. split_and!; [done..| |done].
      intros i c' Hi. destruct (Hl (S i) c' Hi) as [Hc' ?]. split; [|done]. rewrite <- Hc'. f_equal. lia.
Qed.

(** [strcat] appends, and touches only the bytes after the old string. *)
Lemma strcat_cstr m dest src l1 l2 fuel : cstr m dest l1 -> cstr m src l2 ->
  (length l1 < fuel)%nat -> (length l2 < fuel)%nat ->
  (src + Z.of_nat (length l2) < dest + Z.of_nat (length l1) \/ dest + Z.of_nat (length l1 + length l2) < src) ->
  exists m', strcat fuel m dest src = Some m' /\ cstr m' dest (l1 ++ l2) /\
    forall x, ~ dest + Z.of_nat (length l1) <= x <= dest + Z.of_nat (length l1 + length l2) -> m' x = m x.
Proof.
  intros H1 H2 Hf1 Hf2 Hd. unfold strcat. rewrite (find_nul_cstr _ _ _ _ H1 Hf1).
  destruct (strcpy_cstr m (dest + Z.of_nat (length l1)) src l2 fuel H2 Hf2) as (m' & Hm & Hs & Hx); [lia|].
  exists m'. split_and!; [done| |].
  - apply cstr_app. split; [|done]. rewrite <- (app_nil_r l1) in H1. apply cstr_app in H1 as [H1 _].
    intros i c Hi. destruct (H1 i c Hi) as [Hc ?]. split; [|done]. rewrite <- Hc. apply Hx.
    apply lookup_lt_Some in Hi. lia.
  - intros x Hxx. apply Hx. lia.
Qed.

(** * Bounded copies and comparisons *)

Lemma zero_pad_spec n m s x : zero_pad n m s x = if (s <=? x) && (x <? s + Z.of_nat n) then 0 else m x.
Proof.
  revert m s. induction n as [|n IH]; intros m s; cbn [zero_pad].
  - bool_to_prop; try lia; done.
  - rewrite IH. unfold upd. bool_to_prop; try lia; done.
Qed.

Lemma strncpy_cstr n m s t l : cstr m t l -> s + Z.of_nat n <= t \/ t + Z.of_nat (length l) < s ->
  forall x, strncpy n m s t x =
    if (s <=? x) && (x <? s + Z.of_nat n) then default 0 (l !! Z.to_nat (x - s)) else m x.
Proof.
  revert m s t l. induction n as [|n IH]; intros m s t l Hl Hd x; cbn [strncpy].
  - bool_to_prop; try lia; done.
  - destruct l as [|c l]; cbn [cstr length] in *.
    + rewrite Hl, Z.eqb_refl, zero_pad_spec. unfold upd. rewrite lookup_nil. bool_to_prop; try lia; done.
    + destruct Hl as (Hc & Hn & Hl). destruct (Z.eqb_spec (m t) 0); [congruence|].
      rewrite (IH _ (s + 1) (t + 1) l); [| |lia].
      * unfold upd. destruct (Z.eqb_spec x s) as [->|Hne].
        -- rewrite Z.sub_diag. cbn. bool_to_prop; try lia; done.
        -- bool_to_prop; try lia; try done. replace (Z.to_nat (x - s)) with (S (Z.to_nat (x - (s + 1)))) by lia. done.
      * eapply cstr_ext; [|exact Hl]. intros. apply upd_ne. lia.
Qed.

Lemma safestrcpy_loop_cstr n m s t l : cstr m t l -> s + Z.of_nat n < t \/ t + Z.of_nat (length l) < s ->
  let m' := safestrcpy_loop n m s t in
  cstr m' s (take n l) /\ forall x, ~ s <= x <= s + Z.of_nat n -> m' x = m x.
Proof.
  revert m s t l. induction n as [|n IH]; intros m s t l Hl Hd; cbn [safestrcpy_loop take].
  - split; [apply upd_eq|]. intros. apply upd_ne. lia.
  - destruct l as [|c l]; cbn [cstr length take] in *.
    + rewrite Hl, Z.eqb_refl. split; [rewrite upd_ne by lia; apply upd_eq|]. intros. rewrite !upd_ne by lia. done.
    + destruct Hl as (Hc & Hn & Hl). destruct (Z.eqb_spec (m t) 0); [congruence|].
      destruct (IH (upd m s (m t)) (s + 1) (t + 1) l) as [Hs Hx]; [|lia|].
      { eapply cstr_ext; [|exact Hl]. intros. apply upd_ne. lia. }
      split_and!; [|done|done|].
      * rewrite Hx by lia. by rewrite upd_eq.
      * intros x Hxx. rewrite Hx by lia. apply upd_ne. lia.
Qed.

(** Bounded string copies.  For a source string outside the destination,
    [safestrcpy] always leaves a NUL-terminated string in the [n] bytes it is
    given, the longest prefix of the source that fits, and writes nothing
    outside them; [strncpy] fills exactly its [n] bytes with the source and
    NULs, without a terminator when the source is too long. *)
Theorem bounded_copies (m : mem) (s t n : Z) (l : list Z) (Hl : cstr m t l) (Hn : 0 < n)
    (Hd : s + n <= t \/ t + Z.of_nat (length l) < s) :
  (let m' := safestrcpy m s t n in
   cstr m' s (take (Z.to_nat (n - 1)) l) /\ forall x, ~ s <= x < s + n -> m' x = m x) /\
  (let m' := strncpy (Z.to_nat n) m s t in
   (forall i, 0 <= i < n -> m' (s + i) = default 0 (l !! Z.to_nat i)) /\ forall x, ~ s <= x < s + n -> m' x = m x).
Proof.
  split; cbn zeta.
  - unfold safestrcpy. destruct (Z.leb_spec n 0); [lia|].
    destruct (safestrcpy_loop_cstr (Z.to_nat (n - 1)) m s t l Hl) as [Hs Hx]; [lia|].
    split; [done|]. intros x Hxx. apply Hx. lia.
  - pose proof (strncpy_cstr (Z.to_nat n) m s t l Hl ltac:(lia)) as Hx. split.
    + intros i Hi. rewrite Hx. replace (s + i - s) with i by lia. bool_to_prop; try lia; done.
    + intros x Hxx. rewrite Hx. bool_to_prop; try lia; done.
Qed.

(** Memory with the string "abc" at 100. *)
Definition abc_mem : mem := blit (fun _ => 0) 100 [97; 98; 99; 0].

Lemma abc_cstr : cstr abc_mem 100 [97; 98; 99].
Proof. vm_compute. repeat split; discriminate. Qed.

Lemma bounded_copies_witness : cstr (safestrcpy abc_mem 10 100 3) 10 [97; 98] /\ strncpy 3 abc_mem 10 100 12 = 99.
Proof.
  destruct (bounded_copies abc_mem 10 100 3 [97; 98; 99] abc_cstr ltac:(lia) ltac:(cbn; lia)) as [[H1 _] [H2 _]].
  split; [exact H1|]. exact (H2 2 ltac:(lia)).
Defined.

(** [strncmp] compares the first [n] characters. *)
Lemma strncmp_zero n m p q l1 l2 : cstr m p l1 -> cstr m q l2 -> strncmp m p q n = 0 <-> take n l1 = take n l2.
Proof.
  revert p q l1 l2. induction n as [|n IH]; intros p q l1 l2 H1 H2; cbn [strncmp]; [done|].
  destruct l1 as [|c1 l1], l2 as [|c2 l2]; cbn [cstr take] in *.
  - rewrite H1, H2. done.
  - destruct H2 as (Hc & Hn & _). rewrite H1, Hc. cbn. split; [lia|done].
  - destruct H1 as (Hc & Hn & _). rewrite Hc, H2. destruct (Z.eqb_spec c1 0); [done|]. cbn. split; [lia|done].
  - destruct H1 as (Hc1 & Hn1 & H1), H2 as (Hc2 & Hn2 & H2). rewrite Hc1, Hc2.
    destruct (Z.eqb_spec c1 0); [done|]. cbn [negb andb]. destruct (Z.eqb_spec c1 c2) as [->|].
    + rewrite (IH _ _ l1 l2) by done. split; [by intros ->|by intros [= ?]].
    + split; [lia|congruence].
Qed.

Lemma strcmp_zero fuel m p q l1 l2 : cstr m p l1 -> cstr m q l2 -> (length l1 < fuel)%nat ->
  exists r, strcmp fuel m p q = Some r /\ (r = 0 <-> l1 = l2).
Proof.
  revert p q l1 l2. induction fuel as [|fuel IH]; intros p q l1 l2 H1 H2 Hf; [lia|]. cbn [strcmp].
  destruct l1 as [|c1 l1], l2 as [|c2 l2]; cbn [cstr length] in *.
  - rewrite H1, H2. by exists 0.
  - destruct H2 as (Hc & Hn & _). rewrite H1, Hc. cbn. eexists. split; [done|]. split; [lia|done].
  - destruct H1 as (Hc & Hn & _). rewrite Hc, H2. destruct (Z.eqb_spec c1 0); [done|]. cbn. eexists. split; [done|].
    split; [lia|done].
  - destruct H1 as (Hc1 & Hn1 & H1), H2 as (Hc2 & Hn2 & H2). rewrite Hc1, Hc2.
    destruct (Z.eqb_spec c1 0); [done|]. cbn [negb andb]. destruct (Z.eqb_spec c1 c2) as [->|].
    + destruct (IH _ _ l1 l2 H1 H2 ltac:(lia)) as (r & -> & Hr). exists r. split; [done|].
      rewrite Hr. split; [by intros ->|by intros [= ?]].
    + eexists. split; [done|]. split; [lia|congruence].
Qed.

(** * Decimal numbers *)

(** The decimal digits of [n], least significant first, as characters. *)
Fixpoint digits (fuel : nat) (n : Z) : list Z :=
  match fuel with
  | O => []
  | S k => if 0 <? n then (n mod 10 + 48) :: digits k (n / 10) else []
  end.

(** The number written by digit characters, most significant first. *)
Definition value (l : list Z) : Z := foldl (fun v c => v * 10 + (c - 48)) 0 l.

Definition is_digit (c : Z) : Prop := 48 <= c <= 57.

Lemma digits_digit fuel n : Forall is_digit (digits fuel n).
Proof.
  revert n. induction fuel as [|k IH]; intros n; cbn; [constructor|]. destruct (0 <? n); constructor; [|done].
  unfold is_digit. pose proof (Z.mod_pos_bound n 10). lia.
Qed.

Lemma value_snoc l c : value (l ++ [c]) = value l * 10 + (c - 48).
Proof. unfold value. by rewrite foldl_app. Qed.

Lemma value_digits fuel n : 0 <= n < 10 ^ Z.of_nat fuel -> value (reverse (digits fuel n)) = n.
Proof.
  revert n. induction fuel as [|k IH]; intros n Hn.
  - cbn in *. lia.
  - cbn [digits]. destruct (Z.ltb_spec 0 n); [|cbn; lia]. rewrite reverse_cons, value_snoc, IH.
    + pose proof (Z.div_mod n 10). lia.
    + rewrite Nat2Z.inj_succ, Z.pow_succ_r in Hn by lia. zlia.
Qed.

Lemma value_zeros k l : value (replicate k 48 ++ l) = value l.
Proof. unfold value. rewrite foldl_app. f_equal. induction k; cbn; done. Qed.

(** The characters [l] stand at [a]. *)
Definition arr (m : mem) (a : Z) (l : list Z) : Prop := forall i c, l !! i = Some c -> m (a + Z.of_nat i) = c.

Lemma arr_snoc m a l c : arr m a l -> arr (upd m (a + Z.of_nat (length l)) c) a (l ++ [c]).
Proof.
  intros Ha i x Hi. apply lookup_app_Some in Hi as [Hi|[Hge Hi]].
  - rewrite upd_ne by (apply lookup_lt_Some in Hi; lia). auto.
  - destruct (i - length l)%nat eqn:He; [|done]. injection Hi as <-.
    replace (a + Z.of_nat i) with (a + Z.of_nat (length l)) by lia. apply upd_eq.
Qed.

Lemma itoa_digits_ok fuel m buf n l :
  arr m buf l -> let '(m', i') := itoa_digits fuel m buf n (Z.of_nat (length l)) in
  arr m' buf (l ++ digits fuel n) /\ i' = Z.of_nat (length (l ++ digits fuel n)) /\
  forall x, ~ buf <= x < buf + i' -> m' x = m x.
Proof.
  revert m n l. induction fuel as [|k IH]; intros m n l Ha; cbn [itoa_digits digits].
  - rewrite app_nil_r. done.
  - destruct (0 <? n); [|rewrite app_nil_r; done].
    specialize (IH _ (n / 10) _ (arr_snoc m buf l (n mod 10 + 48) Ha)).
    rewrite length_app in IH. cbn [length] in IH. replace (Z.of_nat (length l + 1)) with (Z.of_nat (length l) + 1) in IH by lia.
    destruct (itoa_digits k _ buf (n / 10) _) as [m' i']. destruct IH as (Ha' & Hi' & Hx).
    rewrite <- app_assoc in Ha', Hi'. cbn [app] in Ha', Hi'. split_and!; [done..|].
    intros x Hxx. rewrite Hx by done. apply upd_ne. rewrite Hi', length_app in Hxx. cbn in Hxx. lia.
Qed.

Lemma itoa_pad_ok k m buf l : arr m buf l ->
  let m' := itoa_pad k m buf (Z.of_nat (length l)) in
  arr m' buf (l ++ replicate k 48) /\ forall x, ~ buf <= x < buf + Z.of_nat (length l + k) -> m' x = m x.
Proof.
  revert m l. induction k as [|k IH]; intros m l Ha; cbn [itoa_pad replicate].
  - rewrite app_nil_r. done.
  - specialize (IH _ _ (arr_snoc m buf l 48 Ha)). rewrite length_app in IH. cbn [length] in IH.
    replace (Z.of_nat (length l + 1)) with (Z.of_nat (length l) + 1) in IH by lia. destruct IH as [Ha' Hx].
    rewrite <- app_assoc in Ha'. split; [done|]. intros x Hxx. rewrite Hx by lia. apply upd_ne. lia.
Qed.

Lemma itoa_reverse_spec k m buf i j x : 0 <= j -> 2 * (j + Z.of_nat k) <= i ->
  itoa_reverse k m buf i j x =
    if ((buf + j <=? x) && (x <? buf + j + Z.of_nat k)) || ((buf + i - j - Z.of_nat k <=? x) && (x <? buf + i - j))
    then m (buf + (i - 1 - (x - buf))) else m x.
Proof.
  revert m j. induction k as [|k IH]; intros m j Hj Hi; cbn [itoa_reverse].
  - bool_to_prop; try lia; done.
  - rewrite IH by lia. unfold upd. bool_to_prop; try lia; try done; f_equal; lia.
Qed.

Lemma arr_reverse m buf l : arr m buf l ->
  arr (itoa_reverse (Z.to_nat (Z.of_nat (length l) / 2)) m buf (Z.of_nat (length l)) 0) buf (reverse l).
Proof.
  intros Ha i c Hi. pose proof (lookup_lt_Some _ _ _ Hi) as Hlt. rewrite length_reverse in Hlt.
  set (n := Z.of_nat (length l)). pose proof (Z.div_mod n 2) as Hdm. pose proof (Z.mod_pos_bound n 2) as Hmb.
  assert (Hrev : m (buf + (n - 1 - Z.of_nat i)) = c).
  { rewrite reverse_lookup in Hi by done. rewrite <- (Ha _ _ Hi). f_equal. unfold n. lia. }
  rewrite itoa_reverse_spec by lia. rewrite Z2Nat.id by lia.
  replace (buf + (n - 1 - (buf + Z.of_nat i - buf))) with (buf + (n - 1 - Z.of_nat i)) by lia.
  bool_to_prop; try done; try lia. replace (buf + Z.of_nat i) with (buf + (n - 1 - Z.of_nat i)) by lia. done.
Qed.

(** What [itoa] writes: the digits of [n], with zeros in front up to the
    width. *)
Definition dec_digits (n : Z) : list Z := if n =? 0 then [48] else digits 10 n.
Definition dec (n w : Z) : list Z :=
  reverse (dec_digits n ++ replicate (Z.to_nat (w - Z.of_nat (length (dec_digits n)))) 48).

Lemma length_digits fuel n : (length (digits fuel n) <= fuel)%nat.
Proof. revert n. induction fuel as [|k IH]; intros n; cbn; [lia|]. destruct (0 <? n); cbn; [|lia]. specialize (IH (n / 10)). lia. Qed.

Lemma length_dec n w : 0 <= w -> Z.of_nat (length (dec n w)) = Z.max (Z.of_nat (length (dec_digits n))) w.
Proof. intros. unfold dec. rewrite length_reverse, length_app, length_replicate. lia. Qed.

Lemma dec_digits_le n : (length (dec_digits n) <= 10)%nat.
Proof. unfold dec_digits. destruct (n =? 0); [cbn; lia|apply length_digits]. Qed.

Lemma dec_is_digit n w : Forall is_digit (dec n w).
Proof.
  unfold dec. apply Forall_reverse, Forall_app. split.
  - unfold dec_digits. destruct (n =? 0); [|apply digits_digit]. repeat constructor; unfold is_digit; lia.
  - apply Forall_replicate. unfold is_digit. lia.
Qed.

Lemma dec_value n w : 0 <= n < 2 ^ 31 -> value (dec n w) = n.
Proof.
  intros Hn. unfold dec. rewrite reverse_app, reverse_replicate, value_zeros. unfold dec_digits.
  destruct (Z.eqb_spec n 0) as [->|]; [done|]. apply value_digits. cbn. lia.
Qed.

Lemma arr_cstr m a l : arr m a l -> Forall is_digit l -> m (a + Z.of_nat (length l)) = 0 -> cstr m a l.
Proof.
  intros Ha Hd H0. rewrite <- (app_nil_r l). apply cstr_app. split; [|done].
  intros i c Hi. split; [by apply Ha|]. pose proof (Forall_lookup_1 _ _ _ _ Hd Hi) as Hc. unfold is_digit in Hc. lia.
Qed.

Lemma itoa_cstr m n buf w : 0 <= n < 2 ^ 31 -> 0 <= w ->
  cstr (itoa m n buf w) buf (dec n w) /\
  forall x, ~ buf <= x <= buf + Z.of_nat (length (dec n w)) -> itoa m n buf w x = m x.
Proof.
  intros Hn Hw. unfold itoa.
  assert (Hd : exists m1, (if n =? 0 then (upd m buf 48, 1) else itoa_digits 10 m buf n 0) = (m1, Z.of_nat (length (dec_digits n))) /\
    arr m1 buf (dec_digits n) /\ forall x, ~ buf <= x < buf + Z.of_nat (length (dec_digits n)) -> m1 x = m x).
  { unfold dec_digits. destruct (Z.eqb_spec n 0) as [->|].
    - exists (upd m buf 48). split_and!; [done| |intros; apply upd_ne; cbn in *; lia].
      intros [|i] c Hi; [|done]. injection Hi as <-. cbn. rewrite Z.add_0_r. apply upd_eq.
    - pose proof (itoa_digits_ok 10 m buf n [] ltac:(intros i c; by rewrite lookup_nil)) as Hi.
      cbn [length] in Hi. change (Z.of_nat 0) with 0 in Hi. destruct (itoa_digits 10 m buf n 0) as [m1 i1].
      destruct Hi as (Ha & -> & Hx). exists m1. done. }
  destruct Hd as (m1 & -> & Ha1 & Hx1). set (ds := dec_digits n) in *. set (k := Z.to_nat (w - Z.of_nat (length ds))).
  destruct (itoa_pad_ok k m1 buf ds Ha1) as [Ha2 Hx2]. set (m2 := itoa_pad k m1 buf _) in *.
  assert (Hlen : Z.max (Z.of_nat (length ds)) w = Z.of_nat (length (ds ++ replicate k 48))).
  { rewrite length_app, length_replicate. lia. }
  rewrite Hlen. set (r := ds ++ replicate k 48) in *.
  assert (Ha3 : arr (upd m2 (buf + Z.of_nat (length r)) 0) buf r).
  { intros i c Hi. rewrite upd_ne by (apply lookup_lt_Some in Hi; lia). auto. }
  assert (Hdec : dec n w = reverse r) by done. rewrite Hdec, length_reverse.
  pose proof (Z.div_mod (Z.of_nat (length r)) 2) as Hdm. pose proof (Z.mod_pos_bound (Z.of_nat (length r)) 2) as Hmb.
  split.
  - apply arr_cstr; [by apply arr_reverse|rewrite <- Hdec; apply dec_is_digit|]. rewrite length_reverse.
    rewrite itoa_reverse_spec by lia. rewrite upd_eq. bool_to_prop; try lia; done.
  - intros x Hx. rewrite itoa_reverse_spec by lia.
    assert (length r = length ds + k)%nat by (unfold r; by rewrite length_app, length_replicate).
    bool_to_prop; try lia; (rewrite upd_ne, Hx2 by lia; apply Hx1; lia).
Qed.

Lemma atoi_loop_value fuel m s l n : cstr m s l -> Forall is_digit l -> (length l < fuel)%nat -> 0 <= n ->
  foldl (fun v c => v * 10 + (c - 48)) n l < 2 ^ 31 ->
  atoi_loop fuel m s n = Some (foldl (fun v c => v * 10 + (c - 48)) n l).
Proof.
  revert fuel s n. induction l as [|c l IH]; intros fuel s n Hl Hd Hf Hn Hv; (destruct fuel as [|fuel]; [cbn in Hf; lia|]);
    cbn [atoi_loop cstr foldl length] in *.
  - rewrite Hl. done.
  - destruct Hl as (Hc & _ & Hl). apply Forall_cons in Hd as [Hdc Hd]. unfold is_digit in Hdc. rewrite Hc.
    assert (Hmono : forall l v, 0 <= v -> Forall is_digit l -> v <= foldl (fun v c => v * 10 + (c - 48)) v l).
    { clear. induction l as [|c l IH]; intros v Hv Hd; cbn; [lia|]. apply Forall_cons in Hd as [Hc Hd]. unfold is_digit in Hc.
      specialize (IH (v * 10 + (c - 48)) ltac:(lia) Hd). lia. }
    specialize (Hmono l (n * 10 + (c - 48)) ltac:(lia) Hd).
    replace (n * 10 + c - 48) with (n * 10 + (c - 48)) by lia. rewrite i32_small by lia.
    destruct (Z.leb_spec 48 c), (Z.leb_spec c 57); try lia. cbn [andb]. apply IH; [done|done|lia|lia|done].
Qed.

(** [atoi] reads back what [itoa] wrote. *)
Lemma atoi_itoa m n buf w fuel : 0 <= n < 2 ^ 31 -> 0 <= w -> (length (dec n w) < fuel)%nat ->
  atoi fuel (itoa m n buf w) buf = Some n.
Proof.
  intros Hn Hw Hf. destruct (itoa_cstr m n buf w Hn Hw) as [Hs _]. unfold atoi.
  rewrite (atoi_loop_value _ _ _ (dec n w)); [|done|apply dec_is_digit|done|lia|].
  - f_equal. exact (dec_value n w Hn).
  - fold (value (dec n w)). rewrite dec_value by done. lia.
Qed.

(** * The name of a swap file *)

Definition pgswp : list Z := [47; 112; 103; 115; 119; 112].

(** The start of [kexec]: the 32-byte [swap_path] and the 16-byte [pid_str] on
    its stack, the literal ["/pgswp"] at [lit]. *)
Definition make_swap_path (m : mem) (swap_path pid_str lit pid : Z) : option mem :=
  let m := safestrcpy m swap_path lit 32 in
  let m := itoa m pid pid_str 5 in
  strcat 32 m swap_path pid_str.

(** The swap file of a process.  [kexec] builds in [swap_path] the string
    "/pgswp" followed by the decimal process id, padded to five digits, within
    its 32 bytes and using 16 bytes of [pid_str]; [atoi] of those digits gives
    the id back, so that processes with different ids have different swap
    files. *)
Theorem swap_path_names_process (m : mem) (swap_path pid_str lit pid : Z)
    (Hlit : cstr m lit pgswp) (Hpid : 0 <= pid < 2 ^ 31)
    (Hdis : swap_path + 32 <= pid_str /\ pid_str + 16 <= lit) :
  exists m', make_swap_path m swap_path pid_str lit pid = Some m' /\
    cstr m' swap_path (pgswp ++ dec pid 5) /\ Z.of_nat (length (pgswp ++ dec pid 5)) < 32 /\
    atoi 32 m' (swap_path + 6) = Some pid /\
    forall x, ~ swap_path <= x < swap_path + 32 -> ~ pid_str <= x < pid_str + 16 -> m' x = m x.
Proof.
  pose proof (dec_digits_le pid) as Hle. pose proof (length_dec pid 5 ltac:(lia)) as Hlen.
  unfold make_swap_path, safestrcpy. change (32 <=? 0) with false. cbn iota.
  destruct (safestrcpy_loop_cstr (Z.to_nat (32 - 1)) m swap_path lit pgswp Hlit) as [Hs Hx]; [cbn; lia|].
  change (take (Z.to_nat (32 - 1)) pgswp) with pgswp in Hs. set (m1 := safestrcpy_loop _ m swap_path lit) in *.
  destruct (itoa_cstr m1 pid pid_str 5 Hpid ltac:(lia)) as [Hp Hx1]. set (m2 := itoa m1 pid pid_str 5) in *.
  destruct (strcat_cstr m2 swap_path pid_str pgswp (dec pid 5) 32) as (m' & Hm' & Hc & Hx2).
  - eapply cstr_ext; [|exact Hs]. cbn. intros x Hxx. apply Hx1. lia.
  - exact Hp.
  - cbn. lia.
  - lia.
  - right. cbn [length pgswp]. lia.
  - exists m'. split_and!; [done|done| | |].
    + rewrite length_app. cbn [length pgswp]. lia.
    + apply cstr_app in Hc as [_ Hc]. cbn [length pgswp] in Hc. change (Z.of_nat 6) with 6 in Hc. unfold atoi.
      rewrite (atoi_loop_value _ _ _ (dec pid 5) 0 Hc); [|apply dec_is_digit|lia|lia|].
      * f_equal. by apply dec_value.
      * fold (value (dec pid 5)). rewrite dec_value by done. lia.
    + intros x H1 H2. rewrite Hx2 by (cbn [length pgswp]; lia). rewrite Hx1 by lia. apply Hx. lia.
Qed.

(** Memory with the literal at 200. *)
Definition pgswp_mem : mem := blit (fun _ => 0) 200 (pgswp ++ [0]).

Lemma swap_path_names_process_witness :
  exists m', make_swap_path pgswp_mem 100 150 200 42 = Some m' /\ cstr m' 100 (pgswp ++ [48; 48; 48; 52; 50]).
Proof.
  destruct (swap_path_names_process pgswp_mem 100 150 200 42) as (m' & He & Hc & _).
  - vm_compute. repeat split; discriminate.
  - lia.
  - lia.
  - exists m'. split; [exact He|exact Hc].
Defined.
