(* ===== verification/Exec.v ===== *)
(** [kernel/exec.c]: the exec system call with lazily loaded segments.  A new
    page table is built beside the old one: the pages of the segments get
    entries without [PTE_V], the stack is allocated and filled with the
    arguments, and then the process changes over.  Files are reached through the
    interface [ExecFiles]. *)
From S2P Require Import Prelude Riscv Kalloc Vm Uvm FileLayer Paging Kstring.
Open Scope kern_scope.

Definition MAXARG : Z := 32.
Definition ELF_MAGIC : Z := 0x464C457F.
Definition ELF_PROG_FLAG_EXEC : Z := 1.
(** Entries of [p->phdrs]. *)
Definition NPHDRS : Z := 16.

Definition elf_magic (bs : list Z) : Z := le_at bs 0 4.
Definition elf_entry (bs : list Z) : Z := le_at bs 24 8.

(** The fields of [struct proc] that only [kexec] sets. *)
Record image := mk_im {
  im_swap_path : list Z;
  im_name : list Z;
  im_text_start : Z;
  im_text_end : Z;
  im_data_start : Z;
  im_data_end : Z;
  im_stack_top : Z;
  im_trapframe : Z;
  im_a1 : Z;
  im_epc : Z
}.
Definition set_swap_path v i := let '(mk_im _ b c d e f g h j k) := i in mk_im v b c d e f g h j k.
Definition set_name v i := let '(mk_im a _ c d e f g h j k) := i in mk_im a v c d e f g h j k.
Definition set_bounds ts te ds de st i := let '(mk_im a b _ _ _ _ _ h j k) := i in mk_im a b ts te ds de st h j k.
Definition set_a1 v i := let '(mk_im a b c d e f g h _ k) := i in mk_im a b c d e f g h v k.
Definition set_im_epc v i := let '(mk_im a b c d e f g h j _) := i in mk_im a b c d e f g h j v.

Definition set_pagetable v p := let '(mk_proc a b _ d e f g h i j k l m n o q) := p in mk_proc a b v d e f g h i j k l m n o q.
Definition set_heap_start v p := let '(mk_proc a b c _ e f g h i j k l m n o q) := p in mk_proc a b c v e f g h i j k l m n o q.
Definition set_exec_ip v p := let '(mk_proc a b c d _ f g h i j k l m n o q) := p in mk_proc a b c d v f g h i j k l m n o q.
Definition set_swap_file v p := let '(mk_proc a b c d e _ g h i j k l m n o q) := p in mk_proc a b c d e v g h i j k l m n o q.
Definition set_tf_sp v p := let '(mk_proc a b c d e f g h i j k l _ n o q) := p in mk_proc a b c d e f g h i j k l v n o q.
Definition set_phdrs n f p := let '(mk_proc a b c d e g h i j k l m o q _ _) := p in mk_proc a b c d e g h i j k l m o q n f.

(** The lines that [kexec] prints. *)
Inductive exec_line :=
| NAMEI_FAILED
| INIT_LAZYMAP (pid text_start text_end data_start data_end heap_start stack_top : Z)
| SP_SB (sp sb : Z).

(** * Lazy segments *)

Section Lazy.
Context `{Layout}.

Fixpoint ulazymalloc_loop (fuel : nat) (pagetable a va_end xperm : Z) : M kmem Z :=
  match fuel with
  | O => no_fuel
  | S k =>
      if a <? va_end then
        do pte <- walk pagetable a true;
        if pte =? 0 then ret 0
        else
          kstore pte (Z.lor PTE_U xperm) ;;;
          ulazymalloc_loop k pagetable (u64 (a + PGSIZE)) va_end xperm
      else ret va_end
  end.
(** One iteration per page, and the final test. *)
Definition ulazymalloc (pagetable va_start va_end xperm : Z) : M kmem Z :=
  if va_end <? va_start then ret va_start
  else
    let va_start := PGROUNDUP va_start in
    ulazymalloc_loop (Z.to_nat ((va_end - va_start) / PGSIZE) + 2) pagetable va_start va_end xperm.
End Lazy.

(** The name of the program: what follows the last slash. *)
Fixpoint last_name (s last : list Z) : list Z :=
  match s with
  | [] => last
  | c :: s' => last_name s' (if c =? 47 then s' else last)
  end.

(** What [kexec] calls of the file system and the file table, and what can be
    observed of it.  [held] tells which inode locks the process holds, [refs]
    counts the references to an inode in memory, [room] tells whether the file
    table has a free entry. *)
Class ExecFiles {FL : FileLayer} := {
  begin_op : M fs unit;
  end_op : M fs unit;
  create : list Z -> M fs (option Z);
  filealloc : M fs bool;
  namei : list Z -> M fs (option Z);
  ilock : Z -> M fs unit;
  iunlock : Z -> M fs unit;
  iunlockput : Z -> M fs unit;
  idup : Z -> M fs unit;
  held : fs -> Z -> bool;
  refs : fs -> Z -> Z;
  room : fs -> bool
}.

Section Exec.
Context {LAY : Layout} {FL : FileLayer} {EF : ExecFiles}.

Record xstate := mk_xs { x_ps : pstate; x_im : image; x_log : list exec_line }.
Definition put_xps v x := mk_xs v (x_im x) (x_log x).
Definition put_im v x := mk_xs (x_ps x) v (x_log x).
Definition put_xlog v x := mk_xs (x_ps x) (x_im x) (x_log x ++ [v]).

Definition on_ps {A} (m : M pstate A) : M xstate A := zoom x_ps put_xps m.
Definition xvm {A} (m : M kmem A) : M xstate A := on_ps (vm m).
Definition xfs {A} (m : M fs A) : M xstate A := on_ps (file m).
Definition xproc (f : proc -> proc) : M xstate unit := on_ps (setp f).
Definition ximage (f : image -> image) : M xstate unit := modify (fun x => put_im (f (x_im x)) x).
Definition xsay (l : exec_line) : M xstate unit := modify (put_xlog l).
Definition xget : M xstate proc := gets (fun x => ps_p (x_ps x)).

(** The label [bad]. *)
Definition bad (pagetable sz : Z) (ip : option Z) : M xstate Z :=
  (if pagetable =? 0 then ret tt else xvm (proc_freepagetable pagetable sz)) ;;;
  match ip with
  | Some ip => xfs (iunlockput ip) ;;; xfs end_op
  | None => ret tt
  end ;;;
  ret (-1).

(** The local variables that the loop over the segments changes. *)
Record segs := mk_segs { sg_sz : Z; sg_ts : Z; sg_te : Z; sg_ds : Z; sg_de : Z }.
Definition no_segs : segs := mk_segs 0 (u64 (-1)) 0 (u64 (-1)) 0.

Definition note_segment (ph : proghdr) (b : segs) : segs :=
  let e := u64 (ph_vaddr ph + ph_memsz ph) in
  let low x := if (x =? u64 (-1)) || (ph_vaddr ph <? x) then ph_vaddr ph else x in
  let high x := if x <? e then e else x in
  if negb (Z.land (ph_flags ph) ELF_PROG_FLAG_EXEC =? 0)
  then mk_segs (sg_sz b) (low (sg_ts b)) (high (sg_te b)) (sg_ds b) (sg_de b)
  else mk_segs (sg_sz b) (sg_ts b) (sg_te b) (low (sg_ds b)) (high (sg_de b)).
Definition grow_segs (ph : proghdr) (b : segs) : segs :=
  let e := u64 (ph_vaddr ph + ph_memsz ph) in
  mk_segs (if sg_sz b <? e then e else sg_sz b) (sg_ts b) (sg_te b) (sg_ds b) (sg_de b).

(** The loop over the program headers; [false] is a jump to [bad]. *)
Fixpoint load_segments (k : nat) (ip off pagetable : Z) (b : segs) : M xstate (bool * segs) :=
  match k with
  | O => ret (true, b)
  | S k' =>
      do bs <- xfs (readi ip (u32 off) sizeof_proghdr);
      let off' := i32 (off + sizeof_proghdr) in
      if negb (Z.of_nat (length bs) =? sizeof_proghdr) then ret (false, b)
      else
        let ph := decode_proghdr bs in
        if negb (ph_type ph =? ELF_PROG_LOAD) then load_segments k' ip off' pagetable b
        else if ph_memsz ph <? ph_filesz ph then ret (false, b)
        else if u64 (ph_vaddr ph + ph_memsz ph) <? ph_vaddr ph then ret (false, b)
        else if negb (ph_vaddr ph mod PGSIZE =? 0) then ret (false, b)
        else
          let b := note_segment ph b in
          do r <- xvm (ulazymalloc pagetable (ph_vaddr ph) (u64 (ph_vaddr ph + ph_memsz ph)) (flags2perm (i32 (ph_flags ph))));
          if r =? 0 then ret (false, b)
          else load_segments k' ip off' pagetable (grow_segs ph b)
  end.

(** [p->phdrs] after a read of [bs] into it: the headers that were read whole. *)
Definition read_phdrs (bs : list Z) (old : Z -> proghdr) : Z -> proghdr := fun i =>
  if (0 <=? i) && ((i + 1) * sizeof_proghdr <=? Z.of_nat (length bs))
  then decode_proghdr (drop (Z.to_nat (i * sizeof_proghdr)) bs) else old i.

(** * The stack *)

Definition align16 (sp : Z) : Z := u64 (sp - sp mod 16).

(** The loop that pushes the argument strings; the result is [argc], [sp] and
    the part of [ustack] that is set, [None] a jump to [bad].  The trap that
    entered the kernel was a system call, cause 8. *)
Fixpoint push_args (argv : list (list Z)) (pagetable stackbase argc sp : Z) (ustack : list Z) : M xstate (option (Z * Z * list Z)) :=
  match argv with
  | [] => ret (Some (argc, sp, ustack))
  | arg :: argv' =>
      if MAXARG <=? argc then ret None
      else
        let sp := u64 (sp - (Z.of_nat (length arg) + 1)) in
        let sp := align16 sp in
        if sp <? stackbase then ret None
        else
          do r <- on_ps (copyout pagetable sp (arg ++ [0]) 8);
          if r <? 0 then ret None
          else
            xsay (SP_SB sp stackbase) ;;;
            push_args argv' pagetable stackbase (argc + 1) sp (ustack ++ [sp])
  end.

Definition bytes8 (v : Z) : list Z := (fun i => v / 256 ^ Z.of_nat i mod 256) <$> seq 0 8.

(** The change to the new image. *)
Definition kexec_commit (path elf : list Z) (pagetable sz sp oldsz argc : Z) : M xstate Z :=
  ximage (set_a1 sp) ;;;
  ximage (set_name (take 15 (last_name path path))) ;;;
  do p <- xget;
  let oldpagetable := p_pagetable p in
  xproc (fun p => set_resident (p_resident_pages p) 0 p) ;;;
  xproc (set_seq 0) ;;;
  xproc (set_pagetable pagetable) ;;;
  xproc (set_sz sz) ;;;
  ximage (set_im_epc (elf_entry elf)) ;;;
  xproc (set_tf_sp sp) ;;;
  xvm (proc_freepagetable oldpagetable oldsz) ;;;
  ret argc.

(** The arguments, and the change. *)
Definition kexec_args (path : list Z) (argv : list (list Z)) (elf : list Z) (pagetable sz stackbase oldsz : Z) : M xstate Z :=
  do r <- push_args argv pagetable stackbase 0 sz [];
  match r with
  | None => bad pagetable sz None
  | Some (argc, sp, ustack) =>
      if MAXARG <=? argc then undef "ustack index"
      else
        let sp := align16 (u64 (sp - (argc + 1) * 8)) in
        if sp <? stackbase then bad pagetable sz None
        else
          do r <- on_ps (copyout pagetable sp (concat (bytes8 <$> (ustack ++ [0]))) 8);
          if r <? 0 then bad pagetable sz None
          else kexec_commit path elf pagetable sz sp oldsz argc
  end.

(** From the allocation of the stack to the end. *)
Definition kexec_stack (path : list Z) (argv : list (list Z)) (elf : list Z) (pagetable : Z) (b : segs) : M xstate Z :=
  do p <- xget;
  let oldsz := p_sz p in
  xproc (set_heap_start (sg_sz b)) ;;;
  let sz := PGROUNDUP (sg_sz b) in
  do sz1 <- xvm (uvmalloc pagetable sz (u64 (sz + (USERSTACK + 1) * PGSIZE)) PTE_W);
  if sz1 =? 0 then bad pagetable sz None
  else
    let sz := sz1 in
    xvm (uvmclear pagetable (u64 (sz - (USERSTACK + 1) * PGSIZE))) ;;;
    let sp := sz in
    let stackbase := u64 (sp - USERSTACK * PGSIZE) in
    ximage (set_bounds (i32 (sg_ts b)) (i32 (sg_te b)) (i32 (sg_ds b)) (i32 (sg_de b)) (i32 sp)) ;;;
    do p <- xget;
    xsay (INIT_LAZYMAP (p_pid p) (sg_ts b) (sg_te b) (sg_ds b) (sg_de b) (p_heap_start p) sz) ;;;
    kexec_args path argv elf pagetable sz stackbase oldsz.

(** The program headers for the page faults, and the end of the use of the file. *)
Definition kexec_headers (path : list Z) (argv : list (list Z)) (ip : Z) (elf : list Z) (pagetable : Z) (b : segs) : M xstate Z :=
  xfs (idup ip) ;;;
  xproc (set_exec_ip ip) ;;;
  let n := sizeof_proghdr * elf_phnum elf in
  do bs <- xfs (readi ip (u32 (elf_phoff elf)) n);
  if NPHDRS * sizeof_proghdr <? Z.of_nat (length bs) then undef "phdrs overflow"
  else
    xproc (fun p => set_phdrs (elf_phnum elf) (read_phdrs bs (p_phdrs p)) p) ;;;
    if negb (Z.of_nat (length bs) =? n) then bad pagetable (sg_sz b) (Some ip)
    else
      xfs (iunlockput ip) ;;;
      xfs end_op ;;;
      kexec_stack path argv elf pagetable b.

(** From the executable's inode on. *)
Definition kexec_load (path : list Z) (argv : list (list Z)) (ip : Z) : M xstate Z :=
  xfs (ilock ip) ;;;
  do elf <- xfs (readi ip 0 sizeof_elfhdr);
  if negb (Z.of_nat (length elf) =? sizeof_elfhdr) then bad 0 0 (Some ip)
  else if negb (elf_magic elf =? ELF_MAGIC) then bad 0 0 (Some ip)
  else
    do tf <- gets (fun x => im_trapframe (x_im x));
    do pagetable <- xvm (proc_pagetable tf);
    if pagetable =? 0 then bad 0 0 (Some ip)
    else
      do r <- load_segments (Z.to_nat (elf_phnum elf)) ip (i32 (elf_phoff elf)) pagetable no_segs;
      let '(ok, b) := r in
      if negb ok then bad pagetable (sg_sz b) (Some ip)
      else kexec_headers path argv ip elf pagetable b.

Definition kexec (path : list Z) (argv : list (list Z)) : M xstate Z :=
  do p <- xget;
  ximage (set_swap_path pgswp) ;;;
  xfs begin_op ;;;
  do ip <- xfs (create (pgswp ++ dec (p_pid p) 5));
  match ip with
  | None => xfs end_op ;;; bad 0 0 None
  | Some ip =>
      do ok <- xfs filealloc;
      xproc (set_swap_file (if ok : bool then Some ip else None)) ;;;
      if negb ok then
        xfs (iunlockput ip) ;;;
        xfs end_op ;;;
        bad 0 0 (Some ip)
      else
        xfs (iunlock ip) ;;;
        xfs end_op ;;;
        xfs begin_op ;;;
        do ip <- xfs (namei path);
        match ip with
        | None => xfs end_op ;;; xsay NAMEI_FAILED ;;; ret (-1)
        | Some ip => kexec_load path argv ip
        end
  end.
End Exec.
