(* ===== verification/ExecOk.v ===== *)
(** The exec system call, step by step: lazy entries are never valid, the stack
    pages are private and writable, and what is copied to the stack can be read
    back. *)
From S2P Require Import Prelude Riscv Kalloc Vm Uvm Teardown Image FileLayer Paging PagingOk PagingClaims Kstring Exec.
Open Scope kern_scope.

Section ExecVm.
Context `{Layout}.

(** * Lazy segments *)

(** No page below the trapframe is mapped. *)
Definition unmapped (k : kmem) (r : Z) : Prop := forall va, 0 <= va < TRAPFRAME -> has (lookup_pte (kmem_mem k) r va) PTE_V = false.

(** Such a page table has no frames. *)
Lemma user_pt_unmapped s1 o1 f1 (D : Z -> Z -> Prop) s2 o2 f2 x r : user_pt (kmem_mem s1) o1 r -> unmapped s1 r -> updates s1 o1 f1 D s2 o2 f2 x -> unmapped s2 r ->
  user_pt (kmem_mem s2) o2 r.
Proof.
  intros Hu H1 U H2. split; [eapply is_root_mono; [apply U|apply Hu]| |].
  - intros va Hva Hv. by rewrite H2 in Hv.
  - intros f v Hf. apply (updates_frame _ _ _ _ _ _ _ _ _ _ _ U) in Hf. destruct (upt_frame _ _ _ Hu f v Hf) as (Hv & He & _).
    rewrite H1 in He; [done|by apply frame_va].
Qed.

Section Lazy.
Variables (s : kmem) (own : gmap Z use) (free : list Z) (r : Z).

Lemma lazy_entry s1 o1 f1 a perm : builds s own free r s1 o1 f1 -> unmapped s1 r -> 0 <= a < TRAPFRAME -> 0 <= perm < 1024 -> has perm PTE_V = false ->
  returns (walk r a true s1) (fun pte s2 => exists o2 f2, builds s own free r s2 o2 f2 /\ unmapped s2 r /\
    (pte = 0 \/ 0 < pte /\ exists o3 f3, let s3 := set_mem (store64 (kmem_mem s2) pte (Z.lor PTE_U perm)) s2 in builds s own free r s3 o3 f3 /\ unmapped s3 r)).
Proof.
  intros B H1 Ha Hp Hv. assert (TRAPFRAME < MAXVA) by done. pose proof (upt_root _ _ _ (bl_upt _ _ _ _ _ _ _ B)) as Hr.
  eapply returns_mono; [apply (walk_alloc s1 o1 f1 r a (bl_inv _ _ _ _ _ _ _ B) Hr ltac:(lia))|]. intros pte s2 (o2 & f2 & x & E & Hpte).
  assert (H2 : unmapped s2 r) by (intros va Hva; rewrite (ext_lookup _ _ _ _ _ _ _ _ E) by (done || lia); by apply H1).
  assert (U : updates s1 o1 f1 (fun r' v => r' = r /\ v = vpn a) s2 o2 f2 x) by (eapply extends_updates; [eauto|exact E]).
  assert (B2 : builds s own free r s2 o2 f2).
  { eapply builds_updates; [exact B|exact U|by intros r' v [-> _]|]. eapply user_pt_unmapped; [apply B|exact H1|exact U|exact H2]. }
  exists o2, f2. split; [exact B2|]. split; [exact H2|]. destruct Hpte as [[-> _]|(p0 & Hp0 & -> & Hpos & Hslot & _)]; [by left|right]. split; [done|].
  exists o2, f2. change (set_mem _ s2) with (leaf_written s2 p0 (PX 0 a) (Z.lor PTE_U perm)). cbv zeta. set (s3 := leaf_written _ _ _ _).
  pose proof (leaf_updates s2 o2 f2 r a p0 (Z.lor PTE_U perm) (bl_inv _ _ _ _ _ _ _ B2) Hp0) as U3. fold s3 in U3.
  pose proof (upt_root _ _ _ (bl_upt _ _ _ _ _ _ _ B2)) as Hr2.
  assert (H3 : unmapped s3 r).
  { intros va Hva. destruct (decide (vpn va = vpn a)) as [Ev|Ev].
    - rewrite (lookup_vpn _ _ _ _ Ev). unfold s3. rewrite (leaf_lookup_eq s2 o2 f2 r a p0 (Z.lor PTE_U perm) (bl_inv _ _ _ _ _ _ _ B2) Hr2 ltac:(lia) Hslot Hp0).
      + rewrite has_lor, Hv. done.
      + pose proof (lor_perm PTE_U perm ltac:(flags) Hp). lia.
    - rewrite (upd_lookup _ _ _ _ _ _ _ _ U3); [by apply H2|done|lia|]. by intros [_ ?]. }
  split; [|exact H3]. eapply builds_updates; [exact B2|exact U3|by intros r' v [-> _]|]. eapply user_pt_unmapped; [apply B2|exact H2|exact U3|exact H3].
Qed.

Lemma lazy_loop perm va_end : va_end <= TRAPFRAME -> 0 <= perm < 1024 -> has perm PTE_V = false -> forall fuel a s1 o1 f1,
  builds s own free r s1 o1 f1 -> unmapped s1 r -> 0 <= a -> Z.max 0 (va_end - a) + PGSIZE <= Z.of_nat fuel * PGSIZE ->
  returns (ulazymalloc_loop fuel r a va_end perm s1) (fun res s2 => exists o2 f2, builds s own free r s2 o2 f2 /\ unmapped s2 r /\ (res = 0 \/ res = va_end)).
Proof.
  intros He Hp Hv. induction fuel as [|fuel IH]; intros a s1 o1 f1 B H1 Ha Hf; cbn [ulazymalloc_loop]; [unfold PGSIZE in *; lia|].
  destruct (Z.ltb_spec a va_end) as [Hlt|Hge]; [|cbn; exists o1, f1; split_and!; auto].
  eapply bind_returns; [apply (lazy_entry s1 o1 f1 a perm B H1); [lia|done|done]|]. intros pte s2 (o2 & f2 & B2 & H2 & [->|(Hpos & o3 & f3 & B3 & H3)]).
  - cbn. exists o2, f2. split_and!; auto.
  - destruct (Z.eqb_spec pte 0); [lia|]. rewrite (bind_ret _ tt _ (set_mem (store64 (kmem_mem s2) pte (Z.lor PTE_U perm)) s2)) by done.
    change TRAPFRAME with (2 ^ 38 - 8192) in *. rewrite u64_small by (unfold PGSIZE; lia). eapply (IH _ _ o3 f3); [exact B3|exact H3|unfold PGSIZE; lia|unfold PGSIZE in *; lia].
Qed.

Lemma ulazymalloc_ok s1 o1 f1 va_start va_end perm : builds s own free r s1 o1 f1 -> unmapped s1 r -> 0 <= va_start <= va_end -> va_end <= TRAPFRAME ->
  0 <= perm < 1024 -> has perm PTE_V = false ->
  returns (ulazymalloc r va_start va_end perm s1) (fun res s2 => exists o2 f2, builds s own free r s2 o2 f2 /\ unmapped s2 r /\ (res = 0 \/ res = va_end)).
Proof.
  intros B H1 Hse He Hp Hv. unfold ulazymalloc. destruct (Z.ltb_spec va_end va_start); [lia|]. destruct (roundup_user va_start ltac:(lia)) as (_ & Hle & _).
  apply (lazy_loop perm va_end He Hp Hv _ _ s1 o1 f1 B H1); [lia|]. set (d := va_end - PGROUNDUP va_start). unfold PGSIZE in *.
  destruct (Z.le_gt_cases 0 d); [zlia|]. assert (d / 4096 < 0) by (apply Z.div_lt_upper_bound; lia). lia.
Qed.
End Lazy.

(** * The stack pages *)

Definition STACK_PERM : Z := Z.lor (Z.lor PTE_R PTE_U) PTE_W.

Lemma clear_user f : 0 <= f < 2 ^ 56 -> Z.land (mk_pte f STACK_PERM) (Z.lnot PTE_U) = mk_pte f (Z.lor PTE_R PTE_W).
Proof.
  intros Hf. unfold mk_pte. rewrite !Z.land_lor_distr_l.
  assert (Ha : Z.land (PA2PTE f) (Z.lnot PTE_U) = PA2PTE f).
  { rewrite <- Z.ldiff_land. pose proof (has_make f 0 PTE_U ltac:(lia) ltac:(flags) ltac:(flags)) as Hu. rewrite Z.lor_0_r in Hu.
    unfold has in Hu. rewrite Z.land_0_l in Hu. cbn in Hu. apply negb_false_iff, Z.eqb_eq in Hu.
    pose proof (Z.lor_ldiff_and (PA2PTE f) PTE_U) as Hs. by rewrite Hu, Z.lor_0_r in Hs. }
  rewrite Ha. done.
Qed.

Section Stack.
Variables (s : kmem) (own : gmap Z use) (free : list Z) (r sz : Z).
Hypothesis Hal : aligned sz.
Hypothesis Hsz : 0 <= sz.
Hypothesis Htop : sz + 6 * PGSIZE <= TRAPFRAME.

(** The user part of the page table: a guard page at [sz] and five stack pages. *)
Record stacked (s1 : kmem) (o1 : gmap Z use) (guard : bool) : Prop := {
  sk_pages : forall v, vpn sz <= v < vpn sz + 6 -> exists f, o1 !! f = Some (Frame r v) /\
    lookup_pte (kmem_mem s1) r (v * PGSIZE) = mk_pte f (if guard && (v =? vpn sz) then Z.lor PTE_R PTE_W else STACK_PERM);
  sk_rest : forall va, 0 <= va < TRAPFRAME -> ~ sz <= va < sz + 6 * PGSIZE -> has (lookup_pte (kmem_mem s1) r va) PTE_V = false
}.

Lemma stack_vpn va : sz <= va < sz + 6 * PGSIZE <-> vpn sz <= vpn va < vpn sz + 6.
Proof. unfold aligned, vpn, PGSIZE in *. zlia. Qed.

Lemma stack_alloc s1 o1 f1 : builds s own free r s1 o1 f1 -> unmapped s1 r ->
  returns (uvmalloc r sz (sz + 6 * PGSIZE) PTE_W s1) (fun res s2 => exists o2 f2, builds s own free r s2 o2 f2 /\
    (res = 0 /\ unmapped s2 r \/ res = sz + 6 * PGSIZE /\ stacked s2 o2 false)).
Proof.
  intros B H1. assert (HTM : TRAPFRAME < MAXVA) by done. destruct (roundup_user sz ltac:(unfold PGSIZE in *; lia)) as (Hr1 & Hr2 & _).
  assert (Hru : PGROUNDUP sz = sz) by (unfold aligned, PGSIZE in *; zlia).
  pose proof (uvmalloc_grows s1 o1 f1 r sz (sz + 6 * PGSIZE) PTE_W (bl_inv _ _ _ _ _ _ _ B) (bl_upt _ _ _ _ _ _ _ B) ltac:(unfold PGSIZE in *; lia) ltac:(flags)
    ltac:(intros va Hva _; apply H1; lia)) as Hg. cbv zeta in Hg. rewrite Hru in Hg.
  eapply returns_mono; [exact Hg|]. intros res s2 (o2 & f2 & A & Hres). exists o2, f2. split; [by eapply builds_adds|].
  assert (HD : forall v, vpn sz <= v /\ v * PGSIZE < sz + 6 * PGSIZE <-> vpn sz <= v < vpn sz + 6) by (intros v; unfold aligned, vpn, PGSIZE in *; zlia).
  assert (Hrest : forall va, 0 <= va < TRAPFRAME -> ~ sz <= va < sz + 6 * PGSIZE -> has (lookup_pte (kmem_mem s2) r va) PTE_V = false).
  { intros va Hva Hn. rewrite (ad_lookup _ _ _ _ _ _ _ _ A); [by apply H1|apply B|lia|]. intros [_ Hd]. apply Hn, stack_vpn, HD, Hd. }
  destruct Hres as [[-> Hz]|[-> Hz]]; [right|left]; (split; [done|]).
  - split; [|exact Hrest]. intros v Hv. destruct (Hz v ltac:(by apply HD)) as (f & Hf & Hl & _). exists f. done.
  - intros va Hva. destruct (decide (sz <= va < sz + 6 * PGSIZE)) as [Hin|Hout]; [apply Hz; [done|]; by apply HD, stack_vpn|by apply Hrest].
Qed.

Lemma stack_guard s1 o1 f1 : builds s own free r s1 o1 f1 -> stacked s1 o1 false ->
  returns (uvmclear r sz s1) (fun _ s2 => builds s own free r s2 o1 f1 /\ stacked s2 o1 true).
Proof.
  intros B [Hp Hrest]. assert (HTM : TRAPFRAME < MAXVA) by done. pose proof (upt_root _ _ _ (bl_upt _ _ _ _ _ _ _ B)) as Hr. pose proof (bl_inv _ _ _ _ _ _ _ B) as Hi.
  destruct (Hp (vpn sz) ltac:(lia)) as (f & Hf & Hl). cbn [andb] in Hl. rewrite (lookup_vpn _ _ _ sz (vpn_mul _)) in Hl. pose proof (inv_pos _ _ _ _ _ Hi Hf) as Hfp.
  unfold uvmclear. unfold PGSIZE in Htop. unfold bind at 1. rewrite walk_noalloc by lia.
  assert (Hl0 : lookup_pte (kmem_mem s1) r sz <> 0).
  { intros Hz. pose proof (mk_pte_has f STACK_PERM PTE_V ltac:(lia) ltac:(done) ltac:(done)) as Hh. rewrite <- Hl, Hz in Hh. by rewrite orb_true_r in Hh. }
  destruct (slot_at_root s1 o1 f1 r sz Hi Hr ltac:(lia)) as [[_ Hz]|(p0 & Hp0 & Hs & Hpos & Hl1)]; [done|].
  destruct (Z.eqb_spec (slot_at (kmem_mem s1) 2 r sz) 0); [lia|]. unfold bind, kload, gets. rewrite <- Hl1, Hl, clear_user by lia. cbn [returns kstore modify]. rewrite Hs.
  change (set_mem _ s1) with (leaf_written s1 p0 (PX 0 sz) (mk_pte f (Z.lor PTE_R PTE_W))). set (s2 := leaf_written _ _ _ _).
  pose proof (leaf_updates s1 o1 f1 r sz p0 (mk_pte f (Z.lor PTE_R PTE_W)) Hi Hp0) as U. fold s2 in U.
  assert (Hl2 : lookup_pte (kmem_mem s2) r sz = mk_pte f (Z.lor PTE_R PTE_W)) by (apply (leaf_lookup_eq s1 o1 f1); try done; [lia|]; apply mk_pte_range; [lia|done]).
  assert (Hother : forall va, 0 <= va < MAXVA -> vpn va <> vpn sz -> lookup_pte (kmem_mem s2) r va = lookup_pte (kmem_mem s1) r va).
  { intros va Hva Hne. apply (upd_lookup _ _ _ _ _ _ _ _ U); [done|done|]. by intros [_ ?]. }
  assert (Hfal : aligned f) by (by eapply inv_aligned).
  assert (Hsame : forall va, 0 <= va < TRAPFRAME -> has (lookup_pte (kmem_mem s2) r va) PTE_V = has (lookup_pte (kmem_mem s1) r va) PTE_V /\
    PTE2PA (lookup_pte (kmem_mem s2) r va) = PTE2PA (lookup_pte (kmem_mem s1) r va)).
  { intros va Hva. destruct (decide (vpn va = vpn sz)) as [E|E]; [|by rewrite Hother by (done || lia)].
    rewrite !(lookup_vpn _ _ _ _ E), Hl2, Hl, !mk_pte_has, !mk_pte_pa by (done || lia || flags). by rewrite !orb_true_r. }
  split.
  - eapply builds_updates; [exact B|exact U|by intros r' v [-> _]|]. destruct (bl_upt _ _ _ _ _ _ _ B) as [_ Hm Hfr]. split; [done| |].
    + intros va Hva. destruct (Hsame va Hva) as [-> ->]. by apply Hm.
    + intros g v Hg. destruct (Hfr g v Hg) as (Hv & He & Hpa). destruct (Hsame (v * PGSIZE) (frame_va v Hv)) as [-> ->]. done.
  - split.
    + intros v Hv. cbn [andb]. destruct (Z.eqb_spec v (vpn sz)) as [->|Hne].
      * exists f. split; [done|]. by rewrite (lookup_vpn _ _ _ sz (vpn_mul _)).
      * destruct (Hp v Hv) as (g & Hg & Hlg). exists g. split; [done|]. rewrite Hother; [exact Hlg| |by rewrite vpn_mul].
        unfold aligned, vpn, PGSIZE in *. zlia.
    + intros va Hva Hn. destruct (Hsame va Hva) as [-> _]. by apply Hrest.
Qed.
End Stack.
End ExecVm.

Section ExecStack.
Context {LAY : Layout} {FL : FileLayer}.

(** * Writing to mapped user pages *)

(** [k'] is [k] with [src] written at the user addresses from [dst] on. *)
Record written (k : kmem) (own : gmap Z use) (free : list Z) (r dst : Z) (src : list Z) (k' : kmem) : Prop := {
  wr_inv : vm_inv k' own free;
  wr_lookup : forall r' va, is_root own r' -> 0 <= va < MAXVA -> lookup_pte (kmem_mem k') r' va = lookup_pte (kmem_mem k) r' va;
  wr_bytes : forall va, 0 <= va < TRAPFRAME -> has (lookup_pte (kmem_mem k) r va) PTE_V = true ->
    user_byte k' r va = if decide (dst <= va < dst + Z.of_nat (length src)) then default 0 (src !! Z.to_nat (va - dst)) else user_byte k r va;
  wr_keep : forall q, aligned q -> (forall v, own !! q <> Some (Frame r v)) -> same_page (kmem_mem k) (kmem_mem k') q
}.

Lemma written_nil k own free r dst : vm_inv k own free -> written k own free r dst [] k.
Proof.
  intros Hi. split; [done|done| |intros q _ _; apply same_page_refl]. intros va _ _. rewrite decide_False; [done|]. cbn. lia.
Qed.

Lemma written_app k own free r dst src1 src2 k1 k2 : is_root own r -> 0 <= dst -> written k own free r dst src1 k1 ->
  written k1 own free r (dst + Z.of_nat (length src1)) src2 k2 -> written k own free r dst (src1 ++ src2) k2.
Proof.
  intros Hr Hd [A1 A2 A3 A4] [B1 B2 B3 B4]. assert (TRAPFRAME < MAXVA) by done. split; [done| | |].
  - intros r' va Hr' Hva. by rewrite B2, A2.
  - intros va Hva Hv. rewrite B3, A3 by (try rewrite A2; try done; lia). rewrite length_app.
    destruct (decide (dst + Z.of_nat (length src1) <= va < dst + Z.of_nat (length src1) + Z.of_nat (length src2))).
    + rewrite decide_True by lia. rewrite lookup_app_r by lia. do 2 f_equal. lia.
    + destruct (decide (dst <= va < dst + Z.of_nat (length src1))); [|by rewrite decide_False by lia].
      rewrite decide_True by lia. by rewrite lookup_app_l by lia.
  - intros q Hq Hn. eapply same_page_trans; [by apply A4|by apply B4].
Qed.

(** One piece inside a page. *)
Lemma write_page k own free r dst bs : vm_inv k own free -> user_pt (kmem_mem k) own r -> 0 <= dst < TRAPFRAME ->
  has (lookup_pte (kmem_mem k) r dst) PTE_V = true -> dst - PGROUNDDOWN dst + Z.of_nat (length bs) <= PGSIZE ->
  written k own free r dst bs (set_mem (blit (kmem_mem k) (PTE2PA (lookup_pte (kmem_mem k) r (PGROUNDDOWN dst)) + (dst - PGROUNDDOWN dst)) bs) k).
Proof.
  intros Hi Hu Hd HV Hn. assert (TRAPFRAME < MAXVA) by done. rewrite (lookup_vpn _ _ (PGROUNDDOWN dst) dst (vpn_rounddown dst)).
  set (f := PTE2PA (lookup_pte (kmem_mem k) r dst)). pose proof (upt_map _ _ _ Hu dst Hd HV) as Hf. fold f in Hf.
  pose proof (inv_aligned _ _ _ _ _ Hi Hf) as Hal. set (m' := blit _ _ bs).
  assert (Hs : forall q, aligned q -> q <> f -> same_page (kmem_mem k) m' q).
  { intros q Hq Hne x Hx. unfold m', blit. pose proof (aligned_apart q f Hq Hal Hne). pose proof (PGROUNDDOWN_le dst).
    destruct (Z.leb_spec (f + (dst - PGROUNDDOWN dst)) x); [|done]. destruct (Z.ltb_spec x (f + (dst - PGROUNDDOWN dst) + Z.of_nat (length bs))); [|done]. cbn. lia. }
  assert (Hlk : forall r' va, is_root own r' -> 0 <= va < MAXVA -> lookup_pte m' r' va = lookup_pte (kmem_mem k) r' va).
  { intros r' va Hr' Hva. eapply (pte_at_root k own free); [done|by apply root_table|]. intros q l pre Hq. apply Hs; [by eapply inv_aligned|]. intros ->. congruence. }
  split.
  - by apply (write_inv k own free m' f (Frame r (vpn dst))); [|done|intros []|].
  - exact Hlk.
  - intros va Hva Hv. unfold user_byte. cbn [kmem_mem set_mem]. rewrite (Hlk r va (upt_root _ _ _ Hu) ltac:(lia)).
    pose proof (upt_map _ _ _ Hu va Hva Hv) as Hfv. set (g := PTE2PA (lookup_pte (kmem_mem k) r va)) in *.
    assert (Hm : 0 <= va mod PGSIZE < PGSIZE) by (apply Z.mod_pos_bound; done). destruct (decide (g = f)) as [Eg|Eg].
    + assert (Ev : vpn va = vpn dst) by congruence. rewrite Eg. unfold m', blit. rewrite PGROUNDDOWN_sub in *.
      assert (Ediff : va - dst = va mod PGSIZE - dst mod PGSIZE) by (unfold vpn, PGSIZE in *; zlia).
      case_decide as Hin.
      * rewrite (proj2 (Z.leb_le _ _)), (proj2 (Z.ltb_lt _ _)) by lia. cbn. do 2 f_equal. lia.
      * destruct (Z.leb_spec (f + (dst - (dst - dst mod PGSIZE))) (f + va mod PGSIZE)); [|done].
        destruct (Z.ltb_spec (f + va mod PGSIZE) (f + (dst - (dst - dst mod PGSIZE)) + Z.of_nat (length bs))); [|done]. exfalso. apply Hin. lia.
    + rewrite decide_False.
      * symmetry. apply (Hs g (inv_aligned _ _ _ _ _ Hi Hfv) Eg). lia.
      * intros Hin. apply Eg. unfold g, f. f_equal. apply lookup_vpn. rewrite PGROUNDDOWN_sub in Hn. unfold vpn, PGSIZE in *. zlia.
  - intros q Hq Hn'. apply Hs; [done|]. intros ->. by eapply Hn'.
Qed.

(** The pages of a range can be written by the user. *)
Definition writable (k : kmem) (r lo hi : Z) : Prop := forall va, lo <= va < hi ->
  let e := lookup_pte (kmem_mem k) r va in has e PTE_V = true /\ has e PTE_U = true /\ has e PTE_W = true.

Lemma written_upt k own free r dst src k' : written k own free r dst src k' -> user_pt (kmem_mem k) own r -> user_pt (kmem_mem k') own r.
Proof.
  intros W [Hr Hm Hf]. assert (TRAPFRAME < MAXVA) by done. split; [done| |].
  - intros va Hva. rewrite (wr_lookup _ _ _ _ _ _ _ W) by (done || lia). by apply Hm.
  - intros f v Hp. destruct (Hf f v Hp) as (Hv & He & Hpa). pose proof (frame_va v Hv). rewrite (wr_lookup _ _ _ _ _ _ _ W) by (done || lia). done.
Qed.
Lemma written_writable k own free r dst src k' lo hi : written k own free r dst src k' -> is_root own r -> 0 <= lo -> hi <= TRAPFRAME ->
  writable k r lo hi -> writable k' r lo hi.
Proof. intros W Hr Hlo Hhi Hw va Hva. assert (TRAPFRAME < MAXVA) by done. rewrite (wr_lookup _ _ _ _ _ _ _ W) by (done || lia). by apply Hw. Qed.

Lemma copyout_loop_ok own free r a fuel : forall s dst src, vm_inv (ps_k s) own free -> user_pt (kmem_mem (ps_k s)) own r -> 0 <= dst ->
  dst + Z.of_nat (length src) <= TRAPFRAME -> span dst (Z.of_nat (length src)) < Z.of_nat fuel -> writable (ps_k s) r dst (dst + Z.of_nat (length src)) ->
  returns (copyout_loop fuel r dst src a s) (fun res s' => res = 0 /\ exists k', s' = put_k k' s /\ written (ps_k s) own free r dst src k').
Proof.
  induction fuel as [|fuel IH]; intros s dst src Hi Hu Hd Htop Hspan Hw; cbn [copyout_loop].
  { unfold span in Hspan. destruct (Z.ltb_spec 0 (Z.of_nat (length src))); [|lia]. unfold vpn, PGSIZE in *. zlia. }
  destruct src as [|b src'] eqn:Esrc.
  { cbn. split; [done|]. exists (ps_k s). split; [by destruct s|by apply written_nil]. }
  rewrite <- Esrc in *. assert (Hl : 0 < Z.of_nat (length src)) by (subst src; cbn; lia). clear Esrc b src'.
  destruct (Nat.eqb_spec (length src) 0) as [?|_]; [lia|]. assert (HTM : TRAPFRAME < MAXVA) by done.
  pose proof (PGROUNDDOWN_le dst) as Hle. assert (Hd0 : 0 <= PGROUNDDOWN dst) by (rewrite PGROUNDDOWN_sub in *; unfold PGSIZE in *; zlia).
  destruct (Z.leb_spec MAXVA (PGROUNDDOWN dst)); [lia|]. destruct (Hw dst ltac:(lia)) as (HV & HU & HW).
  pose proof (lookup_vpn (kmem_mem (ps_k s)) r (PGROUNDDOWN dst) dst (vpn_rounddown dst)) as Hpg.
  rewrite (bind_ret _ _ _ _ _ (fault_in_mapped s own free r (PGROUNDDOWN dst) a _ _ Hi Hu ltac:(lia) ltac:(rewrite Hpg; done))).
  destruct (load_pte s own free r (PGROUNDDOWN dst) Hi (upt_root _ _ _ Hu) ltac:(lia) ltac:(unfold mapped; by rewrite Hpg)) as (pte & _ & E1 & E2).
  rewrite (bind_ret _ _ _ _ _ E1), (bind_ret _ _ _ _ _ E2), Hpg, HW. cbn [negb].
  set (n := Z.to_nat (Z.min (PGSIZE - (dst - PGROUNDDOWN dst)) (Z.of_nat (length src)))).
  pose proof (write_page (ps_k s) own free r dst (take n src) Hi Hu ltac:(lia) HV ltac:(rewrite length_take; lia)) as W1.
  set (k1 := set_mem _ (ps_k s)) in W1. rewrite (bind_ret _ tt _ (put_k k1 s)) by (unfold k1; by rewrite Hpg).
  change TRAPFRAME with (67108862 * 4096) in Htop. rewrite u64_small by (unfold PGSIZE in *; lia).
  assert (Hlt : length (take n src) = n) by (rewrite length_take; lia).
  destruct (decide (n = length src)) as [En|En].
  - assert (Hnil : drop n src = []) by (rewrite En; apply drop_all). rewrite Hnil. unfold span in Hspan. destruct (Z.ltb_spec 0 (Z.of_nat (length src))); [|lia].
    destruct fuel as [|fuel]; [unfold vpn, PGSIZE in *; zlia|]. cbn. split; [done|]. exists k1. split; [done|]. rewrite En, firstn_all in W1. exact W1.
  - assert (Hn : Z.of_nat n = PGSIZE - (dst - PGROUNDDOWN dst)) by lia. replace (PGROUNDDOWN dst + PGSIZE) with (dst + Z.of_nat n) by lia.
    assert (Hld : Z.of_nat (length (drop n src)) = Z.of_nat (length src) - Z.of_nat n) by (rewrite length_drop; lia).
    eapply returns_mono; [apply (IH (put_k k1 s) (dst + Z.of_nat n) (drop n src))|].
    + apply W1.
    + by eapply written_upt.
    + lia.
    + rewrite Hld. change TRAPFRAME with (67108862 * 4096). lia.
    + rewrite Hld. unfold span in *. destruct (Z.ltb_spec 0 (Z.of_nat (length src))); [|lia]. destruct (Z.ltb_spec 0 (Z.of_nat (length src) - Z.of_nat n)); [|lia].
      replace (dst + Z.of_nat n + (Z.of_nat (length src) - Z.of_nat n) - 1) with (dst + Z.of_nat (length src) - 1) by lia.
      assert (vpn (dst + Z.of_nat n) = vpn dst + 1); [|lia]. rewrite Hn, <- (vpn_rounddown dst), <- vpn_succ. f_equal. lia.
    + rewrite Hld. eapply written_writable; [exact W1|apply Hu|lia|change TRAPFRAME with (67108862 * 4096); lia|]. intros va Hva. apply Hw. lia.
    + intros res s' (-> & k' & -> & W2). split; [done|]. exists k'. split; [done|]. rewrite <- (take_drop n src).
      eapply written_app; [apply Hu|done|exact W1|]. rewrite Hlt. exact W2.
Qed.

Lemma copyout_ok s own free r dst src : vm_inv (ps_k s) own free -> user_pt (kmem_mem (ps_k s)) own r -> 0 <= dst -> dst + Z.of_nat (length src) <= TRAPFRAME ->
  writable (ps_k s) r dst (dst + Z.of_nat (length src)) ->
  returns (copyout r dst src 8 s) (fun res s' => res = 0 /\ exists k', s' = put_k k' s /\ written (ps_k s) own free r dst src k').
Proof. intros Hi Hu Hd Ht Hw. apply copyout_loop_ok; try done. apply span_bound. lia. Qed.

(** What was written is read back, the rest is as before. *)
Lemma written_bytes k own free r dst src k' : written k own free r dst src k' -> 0 <= dst -> dst + Z.of_nat (length src) <= TRAPFRAME ->
  (forall va, dst <= va < dst + Z.of_nat (length src) -> has (lookup_pte (kmem_mem k) r va) PTE_V = true) -> user_bytes k' r dst (length src) = src.
Proof.
  intros W Hd Ht Hv. apply list_eq. intros i. unfold user_bytes. rewrite list_lookup_fmap. destruct (decide (i < length src)%nat) as [Hi|Hi].
  - rewrite lookup_seq_lt by done. cbn. rewrite (wr_bytes _ _ _ _ _ _ _ W) by (lia || (apply Hv; lia)). rewrite decide_True by lia.
    replace (Z.to_nat (dst + Z.of_nat i - dst)) with i by lia. destruct (lookup_lt_is_Some_2 src i Hi) as [b ->]. done.
  - rewrite (lookup_ge_None_2 (seq 0 _)) by (rewrite length_seq; lia). cbn. symmetry. apply lookup_ge_None_2. lia.
Qed.

Lemma written_other k own free r dst src k' va n : written k own free r dst src k' -> 0 <= va -> va + Z.of_nat n <= TRAPFRAME ->
  (forall x, va <= x < va + Z.of_nat n -> has (lookup_pte (kmem_mem k) r x) PTE_V = true) -> (va + Z.of_nat n <= dst \/ dst + Z.of_nat (length src) <= va) ->
  user_bytes k' r va n = user_bytes k r va n.
Proof.
  intros W Hd Ht Hv Hdis. apply list_fmap_ext. intros i x Hx. apply lookup_seq in Hx as [-> Hi]. cbn.
  rewrite (wr_bytes _ _ _ _ _ _ _ W) by (lia || (apply Hv; lia)). by rewrite decide_False by lia.
Qed.

(** ** Writing while a page table is being built *)

Section Push.
Variables (s : kmem) (own : gmap Z use) (free : list Z) (r sz : Z).
Hypothesis Hinv : vm_inv s own free.
Hypothesis Hrooted : rooted own.
Hypothesis Hal : aligned sz.
Hypothesis Hsz : 0 <= sz.
Hypothesis Htop : sz + 6 * PGSIZE <= TRAPFRAME.

(** The new page table with its stack. *)
Definition ready (k : kmem) (o1 : gmap Z use) (f1 : list Z) : Prop := builds s own free r k o1 f1 /\ stacked r sz k o1 true.

Lemma ready_writable k o1 f1 : ready k o1 f1 -> writable k r (sz + PGSIZE) (sz + 6 * PGSIZE).
Proof.
  intros [B [Hp _]] va Hva. assert (Hv : vpn sz < vpn va < vpn sz + 6) by (unfold aligned, vpn, PGSIZE in *; zlia).
  destruct (Hp (vpn va) ltac:(lia)) as (f & Hf & Hl). rewrite (lookup_vpn _ _ _ va (vpn_mul _)) in Hl. pose proof (inv_pos _ _ _ _ _ (bl_inv _ _ _ _ _ _ _ B) Hf).
  destruct (Z.eqb_spec (vpn va) (vpn sz)); [lia|]. cbn [andb] in Hl. cbv zeta. rewrite Hl, !mk_pte_has by (done || lia). done.
Qed.

Lemma ready_written k o1 f1 dst src k' : ready k o1 f1 -> written k o1 f1 r dst src k' -> ready k' o1 f1.
Proof.
  intros [B [Hp Hrest]] W. assert (HTM : TRAPFRAME < MAXVA) by done. pose proof (upt_root _ _ _ (bl_upt _ _ _ _ _ _ _ B)) as Hr. split; [split|split].
  - apply W.
  - eapply written_upt; [exact W|apply B].
  - apply B.
  - apply B.
  - apply B.
  - apply B.
  - apply B.
  - intros r' va Hr' Hva. rewrite (wr_lookup _ _ _ _ _ _ _ W); [by apply B| |done]. eapply is_root_mono; [apply B|done].
  - intros q Hq Hnf Ht. eapply same_page_trans; [by apply B|]. apply (wr_keep _ _ _ _ _ _ _ W); [done|]. intros v Hv.
    destruct (bl_new _ _ _ _ _ _ _ B q _ Hv) as [Hq'|[? _]]; [|done]. apply Hrooted in Hq'. pose proof (bl_fresh _ _ _ _ _ _ _ B). unfold is_root in Hq'. congruence.
  - intros v Hv. destruct (Hp v Hv) as (f & Hf & Hl). exists f. split; [done|]. rewrite (wr_lookup _ _ _ _ _ _ _ W); [exact Hl|done|].
    unfold aligned, vpn, PGSIZE in *. zlia.
  - intros va Hva Hn. rewrite (wr_lookup _ _ _ _ _ _ _ W) by (done || lia). by apply Hrest.
Qed.

(** A copy to the stack succeeds. *)
Lemma stack_copyout ps o1 f1 dst src : ready (ps_k ps) o1 f1 -> sz + PGSIZE <= dst -> dst + Z.of_nat (length src) <= sz + 6 * PGSIZE ->
  returns (copyout r dst src 8 ps) (fun res ps' => res = 0 /\ exists k', ps' = put_k k' ps /\ ready k' o1 f1 /\
    user_bytes k' r dst (length src) = src /\
    forall va n, sz + PGSIZE <= va -> va + Z.of_nat n <= sz + 6 * PGSIZE -> (va + Z.of_nat n <= dst \/ dst + Z.of_nat (length src) <= va) ->
      user_bytes k' r va n = user_bytes (ps_k ps) r va n).
Proof.
  intros R Hlo Hhi. pose proof (ready_writable _ _ _ R) as Hw. unfold PGSIZE in *.
  eapply returns_mono; [apply (copyout_ok ps o1 f1 r dst src); [apply R|apply R|lia|lia|]|].
  - intros va Hva. apply Hw. lia.
  - intros res ps' (-> & k' & -> & W). split; [done|]. exists k'. split; [done|]. split; [by eapply ready_written|]. split.
    + eapply written_bytes; [exact W|lia|lia|]. intros va Hva. apply Hw. lia.
    + intros va n H1 H2 Hdis. eapply written_other; [exact W|lia|lia| |exact Hdis]. intros x Hx. apply Hw. lia.
Qed.
End Push.
End ExecStack.
