(* ===== verification/ExecRun.v ===== *)
(** The exec system call as a whole: the arguments on the stack, the failures at
    every step, and the change to the new image. *)
From S2P Require Import Prelude Riscv Kalloc Vm Uvm Teardown Image FileLayer Paging PagingOk PagingClaims Kstring Exec ExecOk.
Open Scope kern_scope.

Section ExecRun.
Context {LAY : Layout} {FL : FileLayer} {EF : ExecFiles}.

Lemma on_ps_returns {A} (m : M pstate A) x P : returns (m (x_ps x)) P -> returns (on_ps m x) (fun a x' => exists ps', x' = put_xps ps' x /\ P a ps').
Proof. unfold on_ps. apply zoom_returns. Qed.

Lemma xvm_returns {A} (m : M kmem A) x P : returns (m (ps_k (x_ps x))) P -> returns (xvm m x) (fun a x' => exists k', x' = put_xps (put_k k' (x_ps x)) x /\ P a k').
Proof.
  intros Hm. unfold xvm. eapply returns_mono; [apply on_ps_returns, vm_returns, Hm|]. intros a x' (ps' & -> & k' & -> & HP). eauto.
Qed.

(** * The arguments *)

Section Args.
Variables (s : kmem) (own : gmap Z use) (free : list Z) (r sz : Z).
Hypothesis Hinv : vm_inv s own free.
Hypothesis Hrooted : rooted own.
Hypothesis Hal : aligned sz.
Hypothesis Hsz : 0 <= sz.
Hypothesis Htop : sz + 6 * PGSIZE <= TRAPFRAME.

(** The string [a] with its NUL is at address [p], in [lo, hi). *)
Definition string_at (k : kmem) (lo hi : Z) (a : list Z) (p : Z) : Prop :=
  lo <= p /\ p + Z.of_nat (length a) + 1 <= hi /\ p mod 16 = 0 /\ user_bytes k r p (length (a ++ [0])) = a ++ [0].

Lemma string_at_keep k k' lo lo' hi hi' a p : string_at k lo hi a p -> lo' <= lo -> hi <= hi' ->
  (forall va n, lo <= va -> va + Z.of_nat n <= hi -> user_bytes k' r va n = user_bytes k r va n) -> string_at k' lo' hi' a p.
Proof.
  intros (H1 & H2 & H3 & H4) Hlo Hhi Hk. split; [lia|]. split; [lia|]. split; [done|]. rewrite Hk; [exact H4|lia|]. rewrite length_app. cbn. lia.
Qed.

Lemma push_args_ok : forall argv x o1 f1 argc sp ust, ready s own free r sz (ps_k (x_ps x)) o1 f1 -> Forall (fun a => Z.of_nat (length a) < PGSIZE) argv ->
  sz + PGSIZE <= sp <= sz + 6 * PGSIZE -> sp mod 16 = 0 -> 0 <= argc <= MAXARG ->
  returns (push_args argv r (sz + PGSIZE) argc sp ust x) (fun res x' => exists k' lines, x' = mk_xs (put_k k' (x_ps x)) (x_im x) (x_log x ++ lines) /\ ready s own free r sz k' o1 f1 /\
    (res = None \/ exists ptrs sp', res = Some (argc + Z.of_nat (length argv), sp', ust ++ ptrs) /\ argc + Z.of_nat (length argv) <= MAXARG /\
      sz + PGSIZE <= sp' <= sp /\ sp' mod 16 = 0 /\ Forall2 (string_at k' sp' sp) argv ptrs /\
      forall va n, sp <= va -> va + Z.of_nat n <= sz + 6 * PGSIZE -> user_bytes k' r va n = user_bytes (ps_k (x_ps x)) r va n)).
Proof.
  induction argv as [|arg argv IH]; intros x o1 f1 argc sp ust R Hlen Hsp Hmod Hargc; cbn [push_args].
  - cbn. exists (ps_k (x_ps x)), []. split; [destruct x as [[] ? ?]; by rewrite app_nil_r|]. split; [done|]. right. exists [], sp.
    rewrite app_nil_r, Z.add_0_r. split_and!; try done; lia.
  - assert (Hnone : exists k' lines, x = mk_xs (put_k k' (x_ps x)) (x_im x) (x_log x ++ lines) /\ ready s own free r sz k' o1 f1 /\
      (@None (Z * Z * list Z) = None \/ exists ptrs sp', None = Some (argc + Z.of_nat (length (arg :: argv)), sp', ust ++ ptrs) /\ argc + Z.of_nat (length (arg :: argv)) <= MAXARG /\
      sz + PGSIZE <= sp' <= sp /\ sp' mod 16 = 0 /\ Forall2 (string_at k' sp' sp) (arg :: argv) ptrs /\
      forall va n, sp <= va -> va + Z.of_nat n <= sz + 6 * PGSIZE -> user_bytes k' r va n = user_bytes (ps_k (x_ps x)) r va n)).
    { exists (ps_k (x_ps x)), []. split; [destruct x as [[] ? ?]; by rewrite app_nil_r|]. split; [done|by left]. }
    destruct (Z.leb_spec MAXARG argc) as [|Hlt]; [exact Hnone|]. inversion Hlen as [|? ? Ha Hlen']; subst.
    change TRAPFRAME with (67108862 * 4096) in Htop. set (l := Z.of_nat (length arg)) in *. unfold PGSIZE in *.
    rewrite (u64_small (sp - (l + 1))) by lia. set (sp1 := sp - (l + 1)). assert (Hm : 0 <= sp1 mod 16 < 16) by (apply Z.mod_pos_bound; lia).
    assert (Hsp1 : 0 <= sp1 - sp1 mod 16) by (unfold sp1 in *; zlia).
    unfold align16. rewrite (u64_small (sp1 - sp1 mod 16)) by (unfold sp1 in *; lia). set (sp2 := sp1 - sp1 mod 16) in *.
    destruct (Z.ltb_spec sp2 (sz + 4096)) as [|Hge]; [exact Hnone|].
    assert (Hl1 : Z.of_nat (length (arg ++ [0])) = l + 1) by (rewrite length_app; cbn; lia). assert (Hmod2 : sp2 mod 16 = 0) by (unfold sp2; zlia).
    eapply bind_returns; [apply on_ps_returns, (stack_copyout s own free r sz Hrooted Hal Hsz); [unfold PGSIZE; change TRAPFRAME with (67108862 * 4096); lia|exact R|unfold PGSIZE; lia|rewrite Hl1; unfold PGSIZE; lia]|].
    intros res x1 (ps1 & -> & -> & k1 & -> & R1 & Hb1 & Hk1). cbn [Z.ltb Z.compare].
    set (x1 := put_xlog (SP_SB sp2 (sz + 4096)) (put_xps (put_k k1 (x_ps x)) x)). rewrite (bind_ret _ tt _ x1) by done.
    eapply returns_mono; [apply (IH x1 o1 f1 (argc + 1) sp2 (ust ++ [sp2])); [exact R1|exact Hlen'|lia|exact Hmod2|lia]|].
    intros res x2 (k2 & lines & -> & R2 & Hres). exists k2, (SP_SB sp2 (sz + 4096) :: lines). split; [unfold x1, put_xlog, put_xps; cbn [x_log x_im x_ps]; by rewrite <- app_assoc|]. split; [exact R2|].
    destruct Hres as [->|(ptrs & sp' & -> & Hc & Hb & Hm' & Hall & Hkeep)]; [by left|right]. exists (sp2 :: ptrs), sp'. cbn [x_ps x1 put_xlog put_xps ps_k put_k] in Hkeep.
    split; [rewrite <- app_assoc; do 3 f_equal; cbn [length]; lia|]. split; [cbn [length]; lia|]. split; [lia|]. split; [done|]. split.
    + constructor.
      * split; [lia|]. split; [fold l; lia|]. split; [done|]. rewrite Hkeep; [exact Hb1|lia|lia].
      * eapply Forall2_impl; [exact Hall|]. intros a p Hap. eapply string_at_keep; [exact Hap|lia|lia|done].
    + intros va n Hva Hn. rewrite Hkeep by lia. apply Hk1; [unfold PGSIZE; lia|unfold PGSIZE; lia|]. right. lia.
Qed.
End Args.

(** * The file system *)

(** Nothing that [kexec] sees of the file system changes. *)
Definition fs_same (f f' : fs) : Prop := fs_ok f' /\ (forall j, content f' j = content f j) /\ room f' = room f /\
  (forall j, held f' j = held f j) /\ forall j, refs f' j = refs f j.
(** The same except for inode [ip]: its lock is as [b] says and it has [d] more
    references. *)
Definition fs_inode (ip : Z) (b : bool) (d : Z) (f f' : fs) : Prop := fs_ok f' /\ (forall j, j <> ip -> content f' j = content f j) /\ room f' = room f /\
  (forall j, held f' j = if j =? ip then b else held f j) /\ forall j, refs f' j = if j =? ip then refs f ip + d else refs f j.

(** What is documented of the operations.  A file without a link disappears with
    its last reference; a file that [create] makes is empty. *)
Class ExecFilesOk : Prop := {
  refs_pos : forall f j, fs_ok f -> 0 <= refs f j;
  begin_ok : forall f, fs_ok f -> returns (begin_op f) (fun _ => fs_same f);
  end_ok : forall f, fs_ok f -> returns (end_op f) (fun _ => fs_same f);
  create_ok : forall path f, fs_ok f -> returns (create path f) (fun o f' => match o with
    | None => fs_same f f'
    | Some ip => fs_inode ip true 1 f f' /\ (content f' ip = content f ip \/ content f' ip = [])
    end);
  filealloc_ok : forall f, fs_ok f -> returns (filealloc f) (fun b f' => b = room f /\ fs_ok f' /\ (forall j, content f' j = content f j) /\
    (forall j, held f' j = held f j) /\ forall j, refs f' j = refs f j);
  namei_ok : forall path f, fs_ok f -> returns (namei path f) (fun o f' => match o with
    | None => fs_same f f'
    | Some ip => fs_inode ip (held f ip) 1 f f' /\ content f' ip = content f ip
    end);
  ilock_ok : forall ip f, fs_ok f -> 1 <= refs f ip -> held f ip = false -> returns (ilock ip f) (fun _ f' => fs_inode ip true 0 f f' /\ content f' ip = content f ip);
  iunlock_ok : forall ip f, fs_ok f -> held f ip = true -> returns (iunlock ip f) (fun _ f' => fs_inode ip false 0 f f' /\ content f' ip = content f ip);
  iunlockput_ok : forall ip f, fs_ok f -> held f ip = true -> returns (iunlockput ip f) (fun _ f' => fs_inode ip false (-1) f f' /\
    (content f' ip = content f ip \/ content f' ip = [] /\ refs f ip <= 1));
  iunlockput_panics : forall ip f, fs_ok f -> held f ip = false -> exists f', iunlockput ip f = Panic "iunlock" f';
  idup_ok : forall ip f, fs_ok f -> returns (idup ip f) (fun _ f' => fs_inode ip (held f ip) 1 f f' /\ content f' ip = content f ip);
  readi_keeps : forall ip off n f bs f', fs_ok f -> readi ip off n f = Ret bs f' -> room f' = room f /\ (forall j, held f' j = held f j) /\ forall j, refs f' j = refs f j
}.

Lemma fs_same_refl f : fs_ok f -> fs_same f f.
Proof. by split. Qed.
Lemma fs_same_trans f f1 f2 : fs_same f f1 -> fs_same f1 f2 -> fs_same f f2.
Proof.
  intros (_ & A2 & A3 & A4 & A5) (B1 & B2 & B3 & B4 & B5). split; [done|]. split; [|split; [congruence|split]]; intros j; [by rewrite B2|by rewrite B4|by rewrite B5].
Qed.

Context {EO : ExecFilesOk}.

Lemma read_file f ip off n : fs_ok f -> 0 <= off < 2 ^ 32 -> 0 <= n < 2 ^ 31 ->
  returns (readi ip off n f) (fun bs f' => fs_same f f' /\ bs = take (Z.to_nat n) (drop (Z.to_nat off) (content f ip))).
Proof.
  intros Hf Ho Hn. pose proof (readi_spec f ip off n Hf Ho Hn) as Hr. pose proof (fun bs f' => readi_keeps ip off n f bs f' Hf) as Hh.
  destruct (readi ip off n f) as [bs f'| | | |]; try contradiction. destruct Hr as (H1 & H2 & H3). destruct (Hh bs f' eq_refl) as (? & ? & ?). split; [|done]. by split_and!.
Qed.

Lemma xfs_returns {A} (m : M fs A) x P : returns (m (ps_fs (x_ps x))) P -> returns (xfs m x) (fun a x' => exists f', x' = put_xps (put_fs f' (x_ps x)) x /\ P a f').
Proof.
  intros Hm. unfold xfs. eapply returns_mono; [apply on_ps_returns, file_returns, Hm|]. intros a x' (ps' & -> & f' & -> & HP). eauto.
Qed.

(** Memory and files replaced. *)
Definition put_kf (k : kmem) (f : fs) (x : xstate) : xstate := put_xps (put_fs f (put_k k (x_ps x))) x.

(** * Loading *)

(** The address space that a program may ask for. *)
Definition LIMIT : Z := TRAPFRAME - 6 * PGSIZE.
Definition header_at (c : list Z) (i : Z) : proghdr :=
  decode_proghdr (take (Z.to_nat sizeof_proghdr) (drop (Z.to_nat (elf_phoff (take (Z.to_nat sizeof_elfhdr) c) + i * sizeof_proghdr)) c)).
(** The file is no executable, or its headers are within the kernel's bounds. *)
Definition exec_fits (c : list Z) : Prop :=
  let hdr := take (Z.to_nat sizeof_elfhdr) c in
  elf_magic hdr = ELF_MAGIC -> 0 <= elf_phnum hdr <= NPHDRS /\ 0 <= elf_phoff hdr /\ elf_phoff hdr + elf_phnum hdr * sizeof_proghdr < 2 ^ 31 /\
  forall i, 0 <= i < elf_phnum hdr -> ph_type (header_at c i) = ELF_PROG_LOAD ->
    0 <= ph_vaddr (header_at c i) /\ 0 <= ph_memsz (header_at c i) /\ ph_vaddr (header_at c i) + ph_memsz (header_at c i) <= LIMIT.

Lemma flags2perm_ok v : 0 <= flags2perm v < 1024 /\ has (flags2perm v) PTE_V = false.
Proof. unfold flags2perm. by destruct (negb (Z.land v 1 =? 0)), (negb (Z.land v 2 =? 0)), (negb (Z.land v 4 =? 0)). Qed.

Section Load.
Variables (s : kmem) (own : gmap Z use) (free : list Z) (r ip : Z) (c : list Z).
Let hdr := take (Z.to_nat sizeof_elfhdr) c.
Hypothesis Hmagic : elf_magic hdr = ELF_MAGIC.
Hypothesis Hfits : exec_fits c.

Lemma load_segments_ok : forall n i b x o1 f1, i + Z.of_nat n = elf_phnum hdr -> 0 <= i -> builds s own free r (ps_k (x_ps x)) o1 f1 -> unmapped (ps_k (x_ps x)) r ->
  fs_ok (ps_fs (x_ps x)) -> content (ps_fs (x_ps x)) ip = c -> 0 <= sg_sz b <= LIMIT ->
  returns (load_segments n ip (elf_phoff hdr + i * sizeof_proghdr) r b x) (fun res x' => exists k' f' o2 f2, x' = put_kf k' f' x /\
    builds s own free r k' o2 f2 /\ unmapped k' r /\ fs_same (ps_fs (x_ps x)) f' /\ 0 <= sg_sz (snd res) <= LIMIT).
Proof.
  destruct (Hfits Hmagic) as (Hnum & Hoff & Hend & Hseg). fold hdr in Hnum, Hoff, Hend, Hseg. unfold NPHDRS, sizeof_proghdr in Hnum, Hend.
  induction n as [|n IH]; intros i b x o1 f1 Hin Hi B Hu Hfs Hc Hb; cbn [load_segments].
  { cbn. exists (ps_k (x_ps x)), (ps_fs (x_ps x)), o1, f1. split; [by destruct x as [[] ? ?]|]. split; [done|]. split; [done|]. split; [by apply fs_same_refl|done]. }
  unfold sizeof_proghdr in *. assert (Ho : 0 <= elf_phoff hdr + i * 56 /\ elf_phoff hdr + (i + 1) * 56 < 2 ^ 31) by lia.
  rewrite u32_small by lia. eapply bind_returns; [apply xfs_returns, (read_file _ ip _ 56 Hfs); lia|]. intros bs x1 (fs1 & -> & Hs1 & Hbs).
  rewrite i32_small by lia. replace (elf_phoff hdr + i * 56 + 56) with (elf_phoff hdr + (i + 1) * 56) by lia. rewrite Hc in Hbs. fold sizeof_proghdr in Hbs.
  assert (Hph : decode_proghdr bs = header_at c i) by (unfold header_at; by rewrite Hbs). pose proof Hs1 as (Hf1 & Hc1 & _).
  set (x1 := put_xps (put_fs fs1 (x_ps x)) x). assert (Hc1' : content fs1 ip = c) by (by rewrite Hc1).
  assert (Hstop : forall b', 0 <= sg_sz b' <= LIMIT -> exists k' f' o2 f2, x1 = put_kf k' f' x /\ builds s own free r k' o2 f2 /\ unmapped k' r /\
    fs_same (ps_fs (x_ps x)) f' /\ 0 <= sg_sz (snd (false, b')) <= LIMIT).
  { intros b' Hb'. exists (ps_k (x_ps x)), fs1, o1, f1. split; [by destruct x as [[] ? ?]|]. done. }
  destruct (Z.eqb_spec (Z.of_nat (length bs)) 56) as [Hl|Hl]; cbn [negb]; [|by apply Hstop].
  rewrite Hph. set (ph := header_at c i). destruct (Z.eqb_spec (ph_type ph) ELF_PROG_LOAD) as [Ht|Ht]; cbn [negb].
  2: { eapply returns_mono; [apply (IH (i + 1) b x1 o1 f1); [lia|lia|done|done|done|done|done]|].
    intros res x2 (k' & f' & o2 & f2 & -> & B2 & Hu2 & Hs2 & Hb2). exists k', f', o2, f2. split; [done|]. split; [done|]. split; [done|]. split; [by eapply fs_same_trans|done]. }
  destruct (Hseg i ltac:(lia) Ht) as (V1 & V2 & V3). fold ph in V1, V2, V3. assert (HL : LIMIT < 2 ^ 38) by done. assert (HT : LIMIT <= TRAPFRAME) by done.
  destruct (ph_memsz ph <? ph_filesz ph); [by apply Hstop|]. rewrite (u64_small (ph_vaddr ph + ph_memsz ph)) by lia.
  destruct (Z.ltb_spec (ph_vaddr ph + ph_memsz ph) (ph_vaddr ph)); [lia|]. destruct (negb (ph_vaddr ph mod PGSIZE =? 0)); [by apply Hstop|].
  destruct (flags2perm_ok (i32 (ph_flags ph))) as [Hp1 Hp2].
  assert (Hnote : sg_sz (note_segment ph b) = sg_sz b) by (unfold note_segment; by destruct (negb _)).
  eapply bind_returns; [apply xvm_returns, (ulazymalloc_ok s own free r _ o1 f1 _ _ _ B Hu); [lia|lia|exact Hp1|exact Hp2]|].
  intros res x2 (k2 & -> & o2 & f2 & B2 & Hu2 & _). destruct (res =? 0).
  - exists k2, fs1, o2, f2. split; [by destruct x as [[] ? ?]|]. split; [done|]. split; [done|]. split; [done|]. cbn [snd]. by rewrite Hnote.
  - set (x2 := put_xps (put_k k2 (x_ps x1)) x1). eapply returns_mono; [apply (IH (i + 1) (grow_segs ph (note_segment ph b)) x2 o2 f2); [lia|lia|done|done|done|done|]|].
    + unfold grow_segs. cbn [sg_sz]. rewrite Hnote, u64_small by lia. destruct (Z.ltb_spec (sg_sz b) (ph_vaddr ph + ph_memsz ph)); lia.
    + intros res' x3 (k3 & f3 & o3 & fr3 & -> & B3 & Hu3 & Hs3 & Hb3). exists k3, f3, o3, fr3. split; [by destruct x as [[] ? ?]|]. split; [done|]. split; [done|].
      split; [by eapply fs_same_trans|done].
Qed.
End Load.
End ExecRun.
