(* ===== verification/ExecClaims.v ===== *)
(** The exec system call: a failed call leaves the old image as it was, a
    successful one replaces it. *)
From S2P Require Import Prelude Riscv Kalloc Vm Uvm Teardown Image FileLayer Paging PagingOk PagingClaims Kstring Exec ExecOk ExecRun.
Open Scope kern_scope.

Section ExecClaims.
Context {LAY : Layout} {FL : FileLayer} {EF : ExecFiles} {EO : ExecFilesOk}.

(** The state in which a process calls [kexec]. *)
Record exec_pre (x : xstate) (own : gmap Z use) (free : list Z) : Prop := {
  ep_vm : vm_inv (ps_k (x_ps x)) own free;
  ep_rooted : rooted own;
  ep_upt : user_pt (kmem_mem (ps_k (x_ps x))) own (p_pagetable (ps_p (x_ps x)));
  ep_sz : 0 <= p_sz (ps_p (x_ps x)) <= TRAPFRAME;
  ep_below : forall va, 0 <= va < TRAPFRAME -> mapped (ps_k (x_ps x)) (p_pagetable (ps_p (x_ps x))) va = true -> va < PGROUNDUP (p_sz (ps_p (x_ps x)));
  ep_tf : 0 <= im_trapframe (x_im x) /\ im_trapframe (x_im x) + PGSIZE <= 2 ^ 56;
  ep_fs : fs_ok (ps_fs (x_ps x));
  ep_held : forall j, held (ps_fs (x_ps x)) j = false;
  ep_fits : forall j, exec_fits (content (ps_fs (x_ps x)) j)
}.

(** What belongs to the running image. *)
Definition same_image (x x' : xstate) : Prop :=
  let p := ps_p (x_ps x) in let p' := ps_p (x_ps x') in
  (p_pid p' = p_pid p /\ p_pagetable p' = p_pagetable p /\ p_sz p' = p_sz p /\ p_tf_sp p' = p_tf_sp p) /\
  (p_num_resident p' = p_num_resident p /\ p_resident_pages p' = p_resident_pages p /\ p_next_fifo_seq p' = p_next_fifo_seq p) /\
  (p_num_swapped p' = p_num_swapped p /\ p_swapped_pages p' = p_swapped_pages p /\ p_swap_slots p' = p_swap_slots p) /\
  im_name (x_im x') = im_name (x_im x) /\ im_a1 (x_im x') = im_a1 (x_im x) /\ im_epc (x_im x') = im_epc (x_im x) /\ im_trapframe (x_im x') = im_trapframe (x_im x).
(** What belongs to the executable and the swap file. *)
Definition same_files (x x' : xstate) : Prop :=
  let p := ps_p (x_ps x) in let p' := ps_p (x_ps x') in
  ps_fs (x_ps x') = ps_fs (x_ps x) /\ (p_exec_ip p' = p_exec_ip p /\ p_num_phdrs p' = p_num_phdrs p /\ p_phdrs p' = p_phdrs p) /\ p_swap_file p' = p_swap_file p /\
  (p_num_swapped p' = p_num_swapped p /\ p_swapped_pages p' = p_swapped_pages p /\ p_swap_slots p' = p_swap_slots p).
Definition no_locks (f : fs) : Prop := fs_ok f /\ forall j, held f j = false.
Definition only_lock (f : fs) (ip : Z) : Prop := fs_ok f /\ forall j, held f j = (j =? ip).

Definition exec_failed (x : xstate) (own : gmap Z use) (free : list Z) (x' : xstate) : Prop :=
  (exists free', restored (ps_k (x_ps x)) own free (ps_k (x_ps x')) free') /\ same_image x x' /\ no_locks (ps_fs (x_ps x')).

Lemma same_image_refl x : same_image x x.
Proof. done. Qed.

Lemma same_only f f' ip : fs_same f f' -> only_lock f ip -> only_lock f' ip.
Proof. intros (H1 & _ & _ & H4 & _) [_ Hl]. split; [done|]. intros j. by rewrite H4. Qed.
Lemma same_locks f f' : fs_same f f' -> no_locks f -> no_locks f'.
Proof. intros (H1 & _ & _ & H4 & _) [_ Hl]. split; [done|]. intros j. by rewrite H4. Qed.
Lemma inode_only f f' ip d : fs_inode ip true d f f' -> no_locks f -> only_lock f' ip.
Proof. intros (H1 & _ & _ & H4 & _) [_ Hl]. split; [done|]. intros j. rewrite H4. by destruct (j =? ip). Qed.
Lemma inode_only_keep f f' ip d : fs_inode ip (held f ip) d f f' -> only_lock f ip -> only_lock f' ip.
Proof. intros (H1 & _ & _ & H4 & _) [_ Hl]. split; [done|]. intros j. rewrite H4, !Hl, Z.eqb_refl. by destruct (j =? ip). Qed.
Lemma inode_locks_keep f f' ip d : fs_inode ip (held f ip) d f f' -> no_locks f -> no_locks f'.
Proof. intros (H1 & _ & _ & H4 & _) [_ Hl]. split; [done|]. intros j. rewrite H4, !Hl. by destruct (j =? ip). Qed.
Lemma inode_unlock f f' ip d : fs_inode ip false d f f' -> only_lock f ip -> no_locks f'.
Proof.
  intros (H1 & _ & _ & H4 & _) [_ Hl]. split; [done|]. intros j. rewrite H4. destruct (Z.eqb_spec j ip) as [|Hj]; [done|]. rewrite Hl. by apply Z.eqb_neq.
Qed.
Lemma only_held f ip : only_lock f ip -> held f ip = true.
Proof. intros [_ ->]. apply Z.eqb_refl. Qed.

(** * Failure *)

Section Fail.
Variables (x : xstate) (own : gmap Z use) (free : list Z).
Hypothesis P : exec_pre x own free.

(** The page table that [bad] has to give up, if there is one. *)
Definition pending (k : kmem) (r sz : Z) : Prop :=
  r = 0 /\ (exists free', restored (ps_k (x_ps x)) own free k free') \/
  0 < r /\ 0 <= sz <= TRAPFRAME /\ (forall va, 0 <= va < TRAPFRAME -> mapped k r va = true -> va < PGROUNDUP sz) /\
    exists o1 f1, builds (ps_k (x_ps x)) own free r k o1 f1.

Lemma bad_ok r sz ip x1 : pending (ps_k (x_ps x1)) r sz -> same_image x x1 ->
  match ip with Some ip => only_lock (ps_fs (x_ps x1)) ip | None => no_locks (ps_fs (x_ps x1)) end ->
  returns (bad r sz ip x1) (fun res x' => res = -1 /\ exec_failed x own free x').
Proof.
  intros Hp Hs Hl. unfold bad.
  eapply (bind_returns _ _ _ (fun _ x2 => exists k2, x2 = put_xps (put_k k2 (x_ps x1)) x1 /\ exists free', restored (ps_k (x_ps x)) own free k2 free')).
  { destruct Hp as [[-> Hr]|(Hr & Hsz & Hb & o1 & f1 & B)].
    - cbn. exists (ps_k (x_ps x1)). split; [by destruct x1 as [[] ? ?]|done].
    - destruct (Z.eqb_spec r 0); [lia|]. by apply xvm_returns, (builds_undo _ own free r (ep_vm _ _ _ P) (ep_rooted _ _ _ P) _ o1 f1). }
  intros [] x2 (k2 & -> & Hr2).
  eapply (bind_returns _ _ _ (fun _ x3 => exists f3, x3 = put_xps (put_fs f3 (put_k k2 (x_ps x1))) x1 /\ no_locks f3)).
  { destruct ip as [ip|]; [|cbn; exists (ps_fs (x_ps x1)); split; [by destruct x1 as [[] ? ?]|done]].
    eapply bind_returns; [apply xfs_returns, iunlockput_ok; [apply Hl|by apply only_held]|]. intros [] x3 (f3 & -> & Hi & _).
    eapply returns_mono; [apply xfs_returns, end_ok, Hi|]. intros [] x4 (f4 & -> & Hf). exists f4. split; [done|]. eapply same_locks; [exact Hf|]. by eapply inode_unlock. }
  intros [] x3 (f3 & -> & Hl3). cbn. split; [done|]. split; [exact Hr2|]. by split.
Qed.
End Fail.

(** * Success *)

(** The program with the ELF header [elf] runs with the arguments [argv] in a
    page table of its own: a guard page at [sz] below five stack pages, nothing
    else loaded yet, the argument strings and their pointer array on the stack.
    The pages of the old page table are free, every other one is as it was, and
    no page is lost. *)
Record execed (x : xstate) (own : gmap Z use) (free : list Z) (path : list Z) (argv : list (list Z)) (elf : list Z) (r sz : Z) (o' : gmap Z use) (free' : list Z) (x' : xstate) : Prop := {
  xd_vm : vm_inv (ps_k (x_ps x')) o' free';
  xd_upt : user_pt (kmem_mem (ps_k (x_ps x'))) o' r;
  xd_table : p_pagetable (ps_p (x_ps x')) = r /\ own !! r = None;
  xd_size : aligned sz /\ 0 <= sz /\ p_sz (ps_p (x_ps x')) = sz + 6 * PGSIZE /\ p_sz (ps_p (x_ps x')) <= TRAPFRAME;
  xd_heap : sz = PGROUNDUP (p_heap_start (ps_p (x_ps x')));
  xd_stack : stacked r sz (ps_k (x_ps x')) o' true;
  xd_args : exists ptrs, let sp := p_tf_sp (ps_p (x_ps x')) in im_a1 (x_im x') = sp /\ sp mod 16 = 0 /\ (sz + PGSIZE <= sp /\ sp + 8 * (Z.of_nat (length argv) + 1) <= sz + 6 * PGSIZE) /\
    Forall2 (string_at r (ps_k (x_ps x')) sp (sz + 6 * PGSIZE)) argv ptrs /\
    user_bytes (ps_k (x_ps x')) r sp (8 * (length argv + 1)) = concat (bytes8 <$> (ptrs ++ [0]));
  xd_regs : im_epc (x_im x') = elf_entry elf /\ im_name (x_im x') = take 15 (last_name path path);
  xd_fresh : p_num_resident (ps_p (x_ps x')) = 0 /\ p_next_fifo_seq (ps_p (x_ps x')) = 0;
  xd_own : forall q u, own !! q = Some u -> if decide (use_root u = p_pagetable (ps_p (x_ps x))) then q ∈ free' else (o' !! q = Some u);
  xd_pages : forall q, q ∈ free' \/ is_Some (o' !! q) <-> q ∈ free \/ is_Some (own !! q);
  xd_lookup : forall r' va, is_root own r' -> r' <> p_pagetable (ps_p (x_ps x)) -> 0 <= va < MAXVA ->
    lookup_pte (kmem_mem (ps_k (x_ps x'))) r' va = lookup_pte (kmem_mem (ps_k (x_ps x))) r' va;
  xd_frames : forall q r' v, own !! q = Some (Frame r' v) -> r' <> p_pagetable (ps_p (x_ps x)) -> same_page (kmem_mem (ps_k (x_ps x))) (kmem_mem (ps_k (x_ps x'))) q
}.

(** Releasing another page table keeps a page table and the bytes of its pages. *)
Lemma released_kept s own free old s' own' freed r q u : released s own free old s' own' freed -> own !! q = Some u -> use_root u = r -> r <> old -> (q ∉ freed) /\ own' !! q = Some u.
Proof.
  intros R Hq Hu Hne. assert (Hn : q ∉ freed).
  { intros Hf. apply (rl_freed _ _ _ _ _ _ _ R) in Hf. destruct Hf as [(l & pre & Hf)|[v Hf]]; rewrite Hq in Hf; injection Hf as ->; by cbn in Hu. }
  split; [done|]. rewrite (rl_own _ _ _ _ _ _ _ R), decide_False by done. done.
Qed.

Lemma released_upt s own free old s' own' freed r : released s own free old s' own' freed -> user_pt (kmem_mem s) own r -> r <> old -> user_pt (kmem_mem s') own' r.
Proof.
  intros R [Hr Hm Hf] Hne. assert (TRAPFRAME < MAXVA) by done. split.
  - by eapply (released_kept _ _ _ _ _ _ _ r).
  - intros va Hva. rewrite (rl_lookup _ _ _ _ _ _ _ R) by (done || lia). intros Hv. by eapply released_kept; [|apply Hm| |].
  - intros f v Hfv. assert (Hfo : own !! f = Some (Frame r v)) by (rewrite (rl_own _ _ _ _ _ _ _ R) in Hfv; by case_decide).
    destruct (Hf f v Hfo) as (Hv & He & Hpa). pose proof (frame_va v Hv). rewrite (rl_lookup _ _ _ _ _ _ _ R) by (done || lia). done.
Qed.

Lemma released_bytes s own free old s' own' freed r va n : released s own free old s' own' freed -> vm_inv s own free -> user_pt (kmem_mem s) own r -> r <> old -> 0 <= va -> va + Z.of_nat n <= TRAPFRAME ->
  (forall a, va <= a < va + Z.of_nat n -> mapped s r a = true) -> user_bytes s' r va n = user_bytes s r va n.
Proof.
  intros R Hi Hu Hne Hva Hn Hmap. assert (TRAPFRAME < MAXVA) by done. apply list_fmap_ext. intros i y Hy. apply lookup_seq in Hy as [-> Hlt]. cbn. unfold user_byte.
  rewrite (rl_lookup _ _ _ _ _ _ _ R); [|apply Hu|done|lia]. pose proof (upt_map _ _ _ Hu (va + Z.of_nat i) ltac:(lia) ltac:(apply Hmap; lia)) as Hf.
  symmetry. eapply (rl_keep _ _ _ _ _ _ _ R); [by eapply inv_aligned|by eapply (released_kept _ _ _ _ _ _ _ r)|intros; congruence|].
  assert (0 <= (va + Z.of_nat i) mod PGSIZE < PGSIZE) by (apply Z.mod_pos_bound; done). lia.
Qed.

Lemma released_stacked s own free old s' own' freed r sz : released s own free old s' own' freed -> is_root own r -> r <> old -> aligned sz -> 0 <= sz -> sz + 6 * PGSIZE <= TRAPFRAME ->
  stacked r sz s own true -> stacked r sz s' own' true.
Proof.
  intros R Hr Hne Hal Hsz Htop [Hp Hrest]. assert (HTM : TRAPFRAME < MAXVA) by done. split.
  - intros v Hv. destruct (Hp v Hv) as (f & Hf & Hl). exists f. split; [by eapply (released_kept _ _ _ _ _ _ _ r)|].
    rewrite (rl_lookup _ _ _ _ _ _ _ R); [exact Hl|done|done|]. unfold aligned, vpn, PGSIZE in *. zlia.
  - intros va Hva Hn. rewrite (rl_lookup _ _ _ _ _ _ _ R) by (done || lia). by apply Hrest.
Qed.

Lemma bytes8_len l : length (concat (bytes8 <$> l)) = (8 * length l)%nat.
Proof. induction l as [|v l IH]; [done|]. cbn. rewrite IH. lia. Qed.

Section Run.
Variables (x : xstate) (own : gmap Z use) (free : list Z) (path : list Z) (argv : list (list Z)).
Hypothesis P : exec_pre x own free.
Hypothesis Hlen : Forall (fun a => Z.of_nat (length a) < PGSIZE) argv.
Hypothesis Hcount : Z.of_nat (length argv) < MAXARG.

Definition exec_post (x1 : xstate) (elf : list Z) (res : Z) (x' : xstate) : Prop :=
  res = -1 /\ exec_failed x own free x' \/
  res = Z.of_nat (length argv) /\ no_locks (ps_fs (x_ps x')) /\ same_files x1 x' /\ exists r sz o' free', execed x own free path argv elf r sz o' free' x'.

Lemma exec_post_from x1 x2 elf res x' : same_files x1 x2 -> exec_post x2 elf res x' -> exec_post x1 elf res x'.
Proof.
  intros (A1 & (A2 & A3 & A4) & A5 & A6 & A7 & A8) [?|(H1 & H2 & (B1 & (B2 & B3 & B4) & B5 & B6 & B7 & B8) & H3)]; [by left|right].
  split; [done|]. split; [done|]. split; [|done]. split_and!; congruence.
Qed.

(** The stack is ready with the strings at [ptrs] and the pointers at [sp]. *)
Record filled (r sz : Z) (k : kmem) (o1 : gmap Z use) (f1 : list Z) (sp : Z) (ptrs : list Z) : Prop := {
  fl_ready : ready (ps_k (x_ps x)) own free r sz k o1 f1;
  fl_sp : sz + PGSIZE <= sp /\ sp mod 16 = 0;
  fl_strings : Forall2 (string_at r k sp (sz + 6 * PGSIZE)) argv ptrs;
  fl_end : sp + 8 * (Z.of_nat (length argv) + 1) <= sz + 6 * PGSIZE;
  fl_array : user_bytes k r sp (8 * (length argv + 1)) = concat (bytes8 <$> (ptrs ++ [0]))
}.

Lemma pending_ready k r sz o1 f1 : 0 < r -> aligned sz -> 0 <= sz -> sz + 6 * PGSIZE <= TRAPFRAME -> ready (ps_k (x_ps x)) own free r sz k o1 f1 ->
  pending x own free k r (sz + 6 * PGSIZE).
Proof.
  intros Hr Hal Hsz Htop [B [_ Hrest]]. right. split; [done|]. split; [unfold PGSIZE in *; lia|]. split; [|eauto].
  intros va Hva Hm. destruct (roundup_user (sz + 6 * PGSIZE) ltac:(unfold PGSIZE in *; lia)) as (_ & ? & _).
  destruct (decide (va < sz + 6 * PGSIZE)); [lia|]. unfold mapped in Hm. rewrite Hrest in Hm; [done|done|lia].
Qed.

(** The change of image. *)
Lemma filled_execed r sz k o1 f1 sp ptrs k' o' freed x' elf : 
  aligned sz -> 0 <= sz -> sz + 6 * PGSIZE <= TRAPFRAME -> filled r sz k o1 f1 sp ptrs ->
  released k o1 f1 (p_pagetable (ps_p (x_ps x))) k' o' freed ->
  ps_k (x_ps x') = k' -> p_pagetable (ps_p (x_ps x')) = r -> p_sz (ps_p (x_ps x')) = sz + 6 * PGSIZE -> p_tf_sp (ps_p (x_ps x')) = sp -> im_a1 (x_im x') = sp ->
  im_epc (x_im x') = elf_entry elf /\ im_name (x_im x') = take 15 (last_name path path) ->
  p_num_resident (ps_p (x_ps x')) = 0 /\ p_next_fifo_seq (ps_p (x_ps x')) = 0 -> sz = PGROUNDUP (p_heap_start (ps_p (x_ps x'))) ->
  execed x own free path argv elf r sz o' (freed ++ f1) x'.
Proof.
  intros Hal Hsz Htop F R Ek Et Es Esp Ea Hregs Hfresh Hheap. pose proof (fl_ready _ _ _ _ _ _ _ F) as [B Hst]. assert (Hw : writable k r (sz + PGSIZE) (sz + 6 * PGSIZE)) by (eapply ready_writable; [..|apply F]; done).
  pose proof (builds_other _ _ _ _ _ _ _ _ B (upt_root _ _ _ (ep_upt _ _ _ P))) as Hne. pose proof (bl_upt _ _ _ _ _ _ _ B) as Hu. set (old := p_pagetable (ps_p (x_ps x))) in *.
  assert (Hbytes : forall va n, sz + PGSIZE <= va -> va + Z.of_nat n <= sz + 6 * PGSIZE -> user_bytes k' r va n = user_bytes k r va n).
  { intros va n H1 H2. eapply released_bytes; [exact R|apply B|exact Hu|done|unfold PGSIZE in *; lia|lia|]. intros a Ha. apply Hw. lia. }
  destruct (fl_sp _ _ _ _ _ _ _ F) as [Hsp1 Hsp2]. split; rewrite ?Ek, ?Et, ?Es, ?Esp, ?Ea.
  - apply R.
  - eapply released_upt; [exact R|exact Hu|done].
  - split; [done|apply B].
  - done.
  - done.
  - eapply released_stacked; [exact R|apply Hu|done|done|done|done|done].
  - exists ptrs. cbv zeta. split; [done|]. split; [done|]. split; [split; [done|apply F]|]. split.
    + eapply Forall2_impl; [apply F|]. intros a q Ha. eapply string_at_keep; [exact Ha|lia|lia|]. intros va n H1 H2. apply Hbytes; lia.
    + rewrite Hbytes; [apply F|done|]. pose proof (fl_end _ _ _ _ _ _ _ F). lia.
  - done.
  - done.
  - intros q u Hq. pose proof (lookup_weaken _ _ _ _ Hq (bl_own _ _ _ _ _ _ _ B)) as Hq1. case_decide as Hd.
    + apply elem_of_app. left. apply (rl_freed _ _ _ _ _ _ _ R). destruct u as [r' l pre|r' v]; cbn in Hd; subst r'; eauto.
    + by eapply (released_kept _ _ _ _ _ _ _ (use_root u)).
  - intros q. rewrite elem_of_app. rewrite (rl_own _ _ _ _ _ _ _ R). split.
    + intros [[Hq|Hq]|Hq].
      * assert (Hs : is_Some (o1 !! q)) by (apply (rl_freed _ _ _ _ _ _ _ R) in Hq as [(l & pre & ->)|[v ->]]; eauto). destruct Hs as [u Hqu].
        destruct (bl_new _ _ _ _ _ _ _ B q u Hqu) as [?|[? _]]; [right; eauto|by left].
      * left. by apply B.
      * case_decide; [by destruct Hq|]. destruct Hq as [u Hqu]. destruct (bl_new _ _ _ _ _ _ _ B q u Hqu) as [?|[? _]]; [right; eauto|by left].
    + intros Hq. assert (Hs : q ∈ f1 \/ is_Some (o1 !! q)).
      { destruct Hq as [Hq|[u Hqu]]; [by apply (bl_conserve _ _ _ _ _ _ _ B)|]. right. exists u. eapply lookup_weaken; [exact Hqu|apply B]. }
      destruct Hs as [?|Hs]; [by left; right|]. destruct (decide (q ∈ freed)); [by left; left|by right].
  - intros r' va Hr' Hn Hva. rewrite (rl_lookup _ _ _ _ _ _ _ R); [by apply B| |done|done]. eapply is_root_mono; [apply B|done].
  - intros q r' v Hq Hn. assert (Hqf : q ∉ free) by (intros Hf; by rewrite (inv_notfree _ _ _ (ep_vm _ _ _ P) q Hf) in Hq).
    pose proof (lookup_weaken _ _ _ _ Hq (bl_own _ _ _ _ _ _ _ B)) as Hq1. assert (Hqa : aligned q) by (eapply inv_aligned; [apply (ep_vm _ _ _ P)|exact Hq]).
    eapply same_page_trans; [apply (bl_keep _ _ _ _ _ _ _ B); [done|done|intros; congruence]|].
    apply (rl_keep _ _ _ _ _ _ _ R); [done|by eapply (released_kept _ _ _ _ _ _ _ r')|intros; congruence].
Qed.

(** The strings and the pointer array. *)
Lemma fill_stack r sz x1 o1 f1 : 0 < r -> aligned sz -> 0 <= sz -> sz + 6 * PGSIZE <= TRAPFRAME -> ready (ps_k (x_ps x)) own free r sz (ps_k (x_ps x1)) o1 f1 ->
  returns (push_args argv r (sz + PGSIZE) 0 (sz + 6 * PGSIZE) [] x1) (fun res x2 => exists k2 lines, x2 = mk_xs (put_k k2 (x_ps x1)) (x_im x1) (x_log x1 ++ lines) /\
    ready (ps_k (x_ps x)) own free r sz k2 o1 f1 /\
    (res = None \/ exists ptrs sp', res = Some (Z.of_nat (length argv), sp', ptrs) /\ length ptrs = length argv /\
      sz + PGSIZE <= sp' <= sz + 6 * PGSIZE /\ sp' mod 16 = 0 /\ Forall2 (string_at r k2 sp' (sz + 6 * PGSIZE)) argv ptrs)).
Proof.
  intros Hr Hal Hsz Htop R. eapply returns_mono; [apply (push_args_ok (ps_k (x_ps x)) own free r sz (ep_rooted _ _ _ P) Hal Hsz Htop argv x1 o1 f1); try done; [unfold PGSIZE; lia|unfold aligned, PGSIZE in *; zlia]|].
  intros res x2 (k2 & lines & -> & R2 & Hres). exists k2, lines. split; [done|]. split; [done|]. destruct Hres as [->|(ptrs & sp' & -> & _ & Hb & Hm & Hall & _)]; [by left|right].
  exists ptrs, sp'. split; [done|]. split; [by eapply eq_sym, Forall2_length|]. done.
Qed.

Lemma push_array r sz x1 o1 f1 sp' ptrs : 0 < r -> aligned sz -> 0 <= sz -> sz + 6 * PGSIZE <= TRAPFRAME -> ready (ps_k (x_ps x)) own free r sz (ps_k (x_ps x1)) o1 f1 ->
  length ptrs = length argv -> sz + PGSIZE <= sp' <= sz + 6 * PGSIZE -> sp' mod 16 = 0 -> Forall2 (string_at r (ps_k (x_ps x1)) sp' (sz + 6 * PGSIZE)) argv ptrs ->
  let sp := align16 (u64 (sp' - (Z.of_nat (length argv) + 1) * 8)) in sz + PGSIZE <= sp ->
  returns (on_ps (copyout r sp (concat (bytes8 <$> (ptrs ++ [0]))) 8) x1) (fun res x2 => res = 0 /\ exists k2, x2 = put_xps (put_k k2 (x_ps x1)) x1 /\ filled r sz k2 o1 f1 sp ptrs).
Proof.
  intros Hr Hal Hsz Htop R Hl Hsp Hmod Hall sp. change TRAPFRAME with (67108862 * 4096) in Htop. unfold PGSIZE in *. unfold MAXARG in Hcount. set (n := Z.of_nat (length argv)) in *.
  assert (Hdef : 0 <= sp' - (n + 1) * 8 -> sp = sp' - (n + 1) * 8 - (sp' - (n + 1) * 8) mod 16 /\ sp mod 16 = 0).
  { intros H0. unfold sp, align16. rewrite (u64_small (sp' - (n + 1) * 8)) by lia. rewrite u64_small by zlia. split; [done|zlia]. }
  destruct (Hdef ltac:(lia)) as [Edef Hsp16]. clear Hdef. assert (Hm : 0 <= (sp' - (n + 1) * 8) mod 16 < 16) by (apply Z.mod_pos_bound; lia). clearbody sp. intros Hge.
  set (src := concat _). assert (Hsrc : length src = (8 * (length argv + 1))%nat) by (unfold src; rewrite bytes8_len, length_app, Hl; cbn; lia).
  eapply returns_mono; [apply on_ps_returns, (stack_copyout (ps_k (x_ps x)) own free r sz (ep_rooted _ _ _ P) Hal Hsz); [unfold PGSIZE; change TRAPFRAME with (67108862 * 4096); lia|exact R|unfold PGSIZE; lia|rewrite Hsrc; unfold PGSIZE; lia]|].
  intros res x2 (ps2 & -> & -> & k2 & -> & R2 & Hb2 & Hk2). split; [done|]. exists k2. split; [done|]. unfold PGSIZE in Hk2. split; unfold PGSIZE.
  - exact R2.
  - done.
  - eapply Forall2_impl; [exact Hall|]. intros a q Ha. eapply string_at_keep; [exact Ha|lia|lia|]. intros va m H1 H2. apply Hk2; [lia|lia|]. right. rewrite Hsrc. lia.
  - fold n. lia.
  - by rewrite Hsrc in Hb2.
Qed.

Lemma kexec_commit_ok r sz x1 o1 f1 sp ptrs elf : aligned sz -> 0 <= sz -> sz + 6 * PGSIZE <= TRAPFRAME -> filled r sz (ps_k (x_ps x1)) o1 f1 sp ptrs ->
  same_image x x1 -> no_locks (ps_fs (x_ps x1)) -> sz = PGROUNDUP (p_heap_start (ps_p (x_ps x1))) ->
  returns (kexec_commit path elf r (sz + 6 * PGSIZE) sp (p_sz (ps_p (x_ps x))) (Z.of_nat (length argv)) x1) (exec_post x1 elf).
Proof.
  intros Hal Hsz Htop F ((_ & Hpt & _) & _) Hl Hheap. pose proof (fl_ready _ _ _ _ _ _ _ F) as [B _]. pose proof (ep_upt _ _ _ P) as Hu. assert (HTM : TRAPFRAME < MAXVA) by done.
  destruct x1 as [[k1 [pid sz0 old hs ip sf sl rp nr wp nw sq tsp kd np ph] fs1 lg] [w nm ts te ds de st tf a1 epc] xl]. cbn [x_ps ps_k ps_p ps_fs p_pagetable p_heap_start] in *. subst old.
  unfold kexec_commit. match goal with |- returns (bind _ _ ?y) _ => set (y0 := y) end.
  set (y := mk_xs (mk_ps k1 (mk_proc pid (sz + 6 * PGSIZE) r hs ip sf sl rp 0 wp nw 0 sp kd np ph) fs1 lg) (mk_im w (take 15 (last_name path path)) ts te ds de st tf sp (elf_entry elf)) xl).
  enough (Hy : returns ((xvm (proc_freepagetable (p_pagetable (ps_p (x_ps x))) (p_sz (ps_p (x_ps x)))) ;;; ret (Z.of_nat (length argv))) y) (exec_post y0 elf)) by exact Hy.
  eapply bind_returns; [apply xvm_returns, (proc_freepagetable_ok k1 o1 f1); [apply B| |apply (ep_sz _ _ _ P)|]|].
  - split; [eapply is_root_mono; [apply B|apply Hu]| |].
    + intros va Hva. rewrite (bl_lookup _ _ _ _ _ _ _ B) by (apply Hu || lia). intros Hv. eapply lookup_weaken; [by apply (upt_map _ _ _ Hu)|apply B].
    + intros f v Hf. destruct (bl_new _ _ _ _ _ _ _ B f _ Hf) as [Hf'|[_ Hf']].
      * destruct (upt_frame _ _ _ Hu f v Hf') as (Hv & He & Hpa). pose proof (frame_va v Hv). rewrite (bl_lookup _ _ _ _ _ _ _ B) by (apply Hu || lia). done.
      * cbn in Hf'. by destruct (builds_other _ _ _ _ _ _ _ _ B (upt_root _ _ _ Hu)).
  - intros va Hva. rewrite (bl_lookup _ _ _ _ _ _ _ B) by (apply Hu || lia). by apply (ep_below _ _ _ P).
  - intros [] x' (k' & -> & o' & freed & R). cbn. right. split; [done|]. split; [exact Hl|]. split; [done|]. exists r, sz, o', (freed ++ f1). by eapply filled_execed.
Qed.

Lemma kexec_args_ok r sz x1 o1 f1 elf : 0 < r -> aligned sz -> 0 <= sz -> sz + 6 * PGSIZE <= TRAPFRAME -> ready (ps_k (x_ps x)) own free r sz (ps_k (x_ps x1)) o1 f1 ->
  same_image x x1 -> no_locks (ps_fs (x_ps x1)) -> sz = PGROUNDUP (p_heap_start (ps_p (x_ps x1))) ->
  returns (kexec_args path argv elf r (sz + 6 * PGSIZE) (sz + PGSIZE) (p_sz (ps_p (x_ps x))) x1) (exec_post x1 elf).
Proof.
  intros Hr Hal Hsz Htop R Hs Hl Hheap. unfold kexec_args.
  assert (Hfail : forall k2 lines, ready (ps_k (x_ps x)) own free r sz k2 o1 f1 ->
    returns (bad r (sz + 6 * PGSIZE) None (mk_xs (put_k k2 (x_ps x1)) (x_im x1) (x_log x1 ++ lines))) (exec_post x1 elf)).
  { intros k2 lines R2. eapply returns_mono; [apply (bad_ok x own free P r _ None); [by eapply pending_ready|exact Hs|exact Hl]|]. intros res x' [-> Hf]. by left. }
  eapply bind_returns; [apply (fill_stack r sz x1 o1 f1 Hr Hal Hsz Htop R)|].
  intros res x7 (k7 & lines & -> & R7 & [->|(ptrs & sp' & -> & Hpl & Hsp & Hmod & Hall)]); [by apply Hfail|].
  destruct (Z.leb_spec MAXARG (Z.of_nat (length argv))); [lia|]. cbv zeta. set (x7 := mk_xs _ _ _). set (sp := align16 _).
  destruct (Z.ltb_spec sp (sz + PGSIZE)) as [|Hge]; [by apply Hfail|].
  eapply bind_returns; [apply (push_array r sz x7 o1 f1 sp' ptrs Hr Hal Hsz Htop R7 Hpl Hsp Hmod Hall Hge)|]. intros res x8 (-> & k8 & -> & F). cbn [Z.ltb Z.compare].
  eapply returns_mono; [by eapply kexec_commit_ok|]. intros res x9. by apply exec_post_from.
Qed.

(** A rounded size leaves room for the stack. *)
Lemma limit_round sz : 0 <= sz <= LIMIT -> aligned (PGROUNDUP sz) /\ 0 <= PGROUNDUP sz /\ PGROUNDUP sz + 6 * PGSIZE <= TRAPFRAME.
Proof.
  intros Hb. assert (HLT : LIMIT + 6 * PGSIZE = TRAPFRAME) by done. destruct (roundup_user sz ltac:(unfold PGSIZE in *; lia)) as (H1 & H2 & _). split; [done|]. split; [lia|].
  rewrite <- HLT. change LIMIT with (67108856 * 4096) in *. unfold aligned, PGSIZE in *. zlia.
Qed.

Lemma kexec_stack_ok r b x1 o1 f1 elf : 0 < r -> builds (ps_k (x_ps x)) own free r (ps_k (x_ps x1)) o1 f1 -> unmapped (ps_k (x_ps x1)) r -> 0 <= sg_sz b <= LIMIT ->
  same_image x x1 -> no_locks (ps_fs (x_ps x1)) ->
  returns (kexec_stack path argv elf r b x1) (exec_post x1 elf).
Proof.
  intros Hr B Hun Hb Hs Hl. unfold kexec_stack. rewrite (bind_ret _ (ps_p (x_ps x1)) _ x1) by done.
  set (x2 := put_xps (put_p (set_heap_start (sg_sz b) (ps_p (x_ps x1))) (x_ps x1)) x1).
  rewrite (bind_ret _ tt _ x2) by done. cbv zeta. destruct (limit_round _ Hb) as (Hal & Hsz & Htop).
  assert (Hh2 : PGROUNDUP (sg_sz b) = PGROUNDUP (p_heap_start (ps_p (x_ps x2)))) by (by destruct x1 as [[? [] ? ?] ? ?]). set (sz := PGROUNDUP (sg_sz b)) in *.
  assert (Hu : sz + 6 * PGSIZE < 2 ^ 64) by (change TRAPFRAME with (67108862 * 4096) in Htop; unfold PGSIZE in *; lia). change ((USERSTACK + 1) * PGSIZE) with (6 * PGSIZE).
  rewrite (u64_small (sz + 6 * PGSIZE)) by (unfold PGSIZE in *; lia). assert (Hs2 : same_image x x2) by (destruct x1 as [[? [] ? ?] ? ?]; exact Hs).
  eapply bind_returns; [apply xvm_returns, (stack_alloc (ps_k (x_ps x)) own free r sz Hal Hsz Htop _ o1 f1); [by destruct x1 as [[] ? ?]|by destruct x1 as [[] ? ?]]|].
  intros sz1 x3 (k3 & -> & o3 & f3 & B3 & [[-> Hun3]|[-> Hst3]]).
  { cbn [Z.eqb]. eapply returns_mono; [apply (bad_ok x own free P r sz None)|].
    - right. split; [done|]. split; [unfold PGSIZE in *; lia|]. split; [|by exists o3, f3]. intros va Hva Hm. unfold mapped in Hm. by rewrite Hun3 in Hm.
    - exact Hs2.
    - exact Hl.
    - intros res x' [-> Hf]. by left. }
  destruct (Z.eqb_spec (sz + 6 * PGSIZE) 0) as [?|_]; [unfold PGSIZE in *; lia|]. rewrite (u64_small (sz + 6 * PGSIZE - 6 * PGSIZE)) by (unfold PGSIZE in *; lia).
  replace (sz + 6 * PGSIZE - 6 * PGSIZE) with sz by lia. rewrite (u64_small (sz + 6 * PGSIZE - USERSTACK * PGSIZE)) by (unfold USERSTACK, PGSIZE in *; lia).
  replace (sz + 6 * PGSIZE - USERSTACK * PGSIZE) with (sz + PGSIZE) by (unfold USERSTACK, PGSIZE; lia).
  eapply bind_returns; [apply xvm_returns, (stack_guard (ps_k (x_ps x)) own free r sz Hal Hsz Htop _ o3 f3 B3 Hst3)|]. intros [] x4 (k4 & -> & R4).
  assert (Ho : p_sz (ps_p (x_ps x1)) = p_sz (ps_p (x_ps x))) by apply Hs. rewrite Ho.
  destruct x1 as [[k1 [pid sz0 old hs ip sf sl rp nr wp nw sq tsp kd np ph] fs1 lg] [w nm ts te ds de st tf a1 epc] xl].
  eapply returns_mono; [eapply (kexec_args_ok r sz (put_xlog _ (put_im _ _)) o3 f3); [done|done|done|done|exact R4|exact Hs|exact Hl|exact Hh2]|].
  intros res x9. by apply exec_post_from.
Qed.

(** * The executable *)

(** What the caller sees of a call that returns [res]. *)
Definition exec_result (res : Z) (x' : xstate) : Prop :=
  res = -1 /\ exec_failed x own free x' \/
  res = Z.of_nat (length argv) /\ no_locks (ps_fs (x_ps x')) /\ exists r sz o' free',
    let p' := ps_p (x_ps x') in let c := content (ps_fs (x_ps x')) (p_exec_ip p') in let elf := take (Z.to_nat sizeof_elfhdr) c in
    execed x own free path argv elf r sz o' free' x' /\ elf_magic elf = ELF_MAGIC /\ p_num_phdrs p' = elf_phnum elf /\
    (forall i, 0 <= i < elf_phnum elf -> p_phdrs p' i = header_at c i) /\
    (swap_ok (ps_p (x_ps x)) -> p_num_swapped (ps_p (x_ps x)) = 0 -> p_swap_file p' <> Some (p_exec_ip p') -> paging_ok (x_ps x') o' free').

Lemma decode_take l : decode_proghdr (take 56 l) = decode_proghdr l.
Proof.
  assert (Hb : forall n o, 0 <= o -> o + Z.of_nat n <= 56 -> le_at (take 56 l) o n = le_at l o n) by (intros n o H1 H2; apply load_ext; intros i Hi; by rewrite lookup_take_lt by lia).
  unfold decode_proghdr. by rewrite !Hb by lia.
Qed.

(** The headers that were read are those of the file. *)
Lemma read_phdrs_ok c old i n : 0 <= elf_phoff (take (Z.to_nat sizeof_elfhdr) c) -> 0 <= i < n ->
  let bs := take (Z.to_nat (sizeof_proghdr * n)) (drop (Z.to_nat (u32 (elf_phoff (take (Z.to_nat sizeof_elfhdr) c)))) c) in
  elf_phoff (take (Z.to_nat sizeof_elfhdr) c) < 2 ^ 32 -> Z.of_nat (length bs) = sizeof_proghdr * n -> read_phdrs bs old i = header_at c i.
Proof.
  intros Ho Hi bs Hlt Hl. unfold read_phdrs, header_at. unfold bs in *. set (o := elf_phoff _) in *. clear bs. rewrite u32_small in * by lia. unfold sizeof_proghdr in *.
  rewrite (proj2 (Z.leb_le 0 i)), (proj2 (Z.leb_le _ _)) by lia. cbn [andb]. rewrite <- (decode_take (drop _ (take _ _))). f_equal.
  rewrite skipn_firstn_comm, take_take, drop_drop. f_equal; [|f_equal]; lia.
Qed.

(** With nothing swapped out, paging starts afresh. *)
Lemma execed_paging x' elf r sz o' free' : execed x own free path argv elf r sz o' free' x' -> fs_ok (ps_fs (x_ps x')) ->
  let p := ps_p (x_ps x) in let p' := ps_p (x_ps x') in
  p_num_swapped p' = p_num_swapped p /\ p_swapped_pages p' = p_swapped_pages p /\ p_swap_slots p' = p_swap_slots p ->
  swap_ok p -> p_num_swapped p = 0 -> p_swap_file p' <> Some (p_exec_ip p') -> paging_ok (x_ps x') o' free'.
Proof.
  intros X Hf p p' (E1 & E2 & E3) Hsw H0 Hne. destruct (xd_fresh _ _ _ _ _ _ _ _ _ _ _ X) as [F1 F2]. destruct (xd_table _ _ _ _ _ _ _ _ _ _ _ X) as [Et _].
  assert (Hsw' : swap_ok p') by (destruct Hsw as [S1 S2 S3 S4]; split; by rewrite ?E1, ?E2, ?E3). fold p' in F1, F2, Et. split; fold p'.
  - apply X.
  - rewrite Et. apply X.
  - done.
  - split; rewrite F1; [done|intros i; lia|intros i j; lia].
  - done.
  - unfold swapfile_ok. destruct (p_swap_file p') as [ip|]; [|congruence]. split; [congruence|]. intros y Hy Hs. destruct (sw_used _ Hsw' y Hy Hs) as (i & Hi & _). rewrite E1, H0 in Hi. lia.
  - rewrite F1. intros i. lia.
  - rewrite E1, H0. intros i. lia.
Qed.

Section File.
Variables (x1 : xstate) (ip : Z).
Let c := content (ps_fs (x_ps x1)) ip.
Let elf := take (Z.to_nat sizeof_elfhdr) c.
Hypothesis Hk : ps_k (x_ps x1) = ps_k (x_ps x).
Hypothesis Hs : same_image x x1.
Hypothesis Hl : no_locks (ps_fs (x_ps x1)).
Hypothesis Hfits : exec_fits c.
Hypothesis Hrefs : 1 <= refs (ps_fs (x_ps x1)) ip.

(** The file system while the executable is locked and [d] references are ours. *)
Definition reading (d : Z) (f : fs) : Prop := only_lock f ip /\ content f ip = c /\ d <= refs f ip.
Lemma reading_same d f f' : reading d f -> fs_same f f' -> reading d f'.
Proof. intros (H1 & H2 & H3) S. split; [by eapply same_only|]. destruct S as (_ & Hc & _ & _ & Hr). by rewrite Hc, Hr. Qed.

Lemma lock_reading : returns (ilock ip (ps_fs (x_ps x1))) (fun _ => reading 1).
Proof.
  eapply returns_mono; [apply ilock_ok; [apply Hl|exact Hrefs|apply Hl]|]. intros [] f [Hi Hc]. split; [by eapply inode_only|]. split; [done|]. destruct Hi as (_ & _ & _ & _ & Hr).
  rewrite Hr, Z.eqb_refl. lia.
Qed.
Lemma dup_reading f : reading 1 f -> returns (idup ip f) (fun _ => reading 2).
Proof.
  intros (H1 & H2 & H3). eapply returns_mono; [apply idup_ok, H1|]. intros [] f1 [Hi Hc]. split; [by eapply inode_only_keep|]. split; [congruence|].
  destruct Hi as (_ & _ & _ & _ & Hr). rewrite Hr, Z.eqb_refl. lia.
Qed.
Lemma put_reading f : reading 2 f -> returns (iunlockput ip f) (fun _ f' => no_locks f' /\ content f' ip = c).
Proof.
  intros (H1 & H2 & H3). eapply returns_mono; [apply iunlockput_ok; [apply H1|by apply only_held]|].
  intros [] f' [Hi Hc]. split; [by eapply inode_unlock|]. destruct Hc as [->|[_ ?]]; [congruence|lia].
Qed.

(** A failure while the file is in use. *)
Lemma bad_reading d r sz x2 : reading d (ps_fs (x_ps x2)) -> pending x own free (ps_k (x_ps x2)) r sz -> same_image x x2 ->
  returns (bad r sz (Some ip) x2) exec_result.
Proof. intros (H1 & _) Hp Hi. eapply returns_mono; [by apply (bad_ok x own free P r sz (Some ip))|]. intros res x' [-> Hf]. by left. Qed.

(** Nothing of the new page table is mapped yet. *)
Lemma pending_unmapped k r sz o1 f1 : 0 < r -> 0 <= sz <= LIMIT -> builds (ps_k (x_ps x)) own free r k o1 f1 -> unmapped k r -> pending x own free k r sz.
Proof.
  intros Hr Hsz B Hun. assert (LIMIT <= TRAPFRAME) by done. right. split; [done|]. split; [lia|]. split; [|eauto]. intros va Hva Hm. unfold mapped in Hm. by rewrite Hun in Hm.
Qed.

(** What the stack and the commit do after the headers are in place. *)
Lemma exec_result_from x2 res x' : same_image x x2 -> content (ps_fs (x_ps x2)) ip = c -> p_exec_ip (ps_p (x_ps x2)) = ip -> elf_magic elf = ELF_MAGIC ->
  p_num_phdrs (ps_p (x_ps x2)) = elf_phnum elf -> (forall i, 0 <= i < elf_phnum elf -> p_phdrs (ps_p (x_ps x2)) i = header_at c i) ->
  exec_post x2 elf res x' -> exec_result res x'.
Proof.
  intros (_ & _ & I3 & _) Hc He Hm Hn Hph [?|(H1 & H2 & (B1 & (B2 & B3 & B4) & B5 & B6) & r & sz & o' & free' & X)]; [by left|right]. split; [done|]. split; [done|].
  exists r, sz, o', free'. cbv zeta. rewrite B2, He, B1, Hc. fold elf. split; [done|]. split; [done|]. split; [congruence|]. split; [intros i Hi; rewrite B4; by apply Hph|].
  intros Hsw H0 Hne. eapply execed_paging; [exact X|apply H2| |done|done|congruence]. destruct I3 as (? & ? & ?), B6 as (? & ? & ?). split_and!; congruence.
Qed.

Lemma kexec_headers_ok r b x2 o1 f1 : elf_magic elf = ELF_MAGIC -> 0 < r -> builds (ps_k (x_ps x)) own free r (ps_k (x_ps x2)) o1 f1 -> unmapped (ps_k (x_ps x2)) r ->
  0 <= sg_sz b <= LIMIT -> same_image x x2 -> reading 1 (ps_fs (x_ps x2)) -> returns (kexec_headers path argv ip elf r b x2) exec_result.
Proof.
  intros Hm Hr B Hun Hb Hi Hrd. destruct (Hfits Hm) as (Hnum & Hoff & Hend & _). fold elf in Hnum, Hoff, Hend. unfold NPHDRS, sizeof_proghdr in *. unfold kexec_headers.
  destruct x2 as [[k1 [pid sz0 old hs ip0 sf sl rp nr wp nw sq tsp kd np ph] fs1 lg] im xl]. cbn [x_ps ps_fs ps_k] in *.
  eapply bind_returns; [apply xfs_returns, (dup_reading fs1 Hrd)|]. intros [] x3 (f3 & -> & Hrd3). set (y := mk_xs (mk_ps k1 (mk_proc pid sz0 old hs ip sf sl rp nr wp nw sq tsp kd np ph) f3 lg) im xl).
  rewrite (bind_ret _ tt _ y) by done. cbv zeta. unfold sizeof_proghdr. rewrite u32_small by lia.
  eapply bind_returns; [apply xfs_returns, (read_file f3 ip (elf_phoff elf) (56 * elf_phnum elf)); [apply Hrd3|lia|lia]|]. intros bs x4 (f4 & -> & Hs4 & Hbs).
  pose proof (reading_same 2 _ _ Hrd3 Hs4) as Hrd4. assert (Hc3 : content f3 ip = c) by apply Hrd3. rewrite Hc3 in Hbs.
  assert (Hlen4 : Z.of_nat (length bs) <= 56 * elf_phnum elf) by (rewrite Hbs, length_take; lia). destruct (Z.ltb_spec (NPHDRS * 56) (Z.of_nat (length bs))) as [Hlt|_]; [unfold NPHDRS in Hlt; lia|].
  set (z := mk_xs (mk_ps k1 (mk_proc pid sz0 old hs ip sf sl rp nr wp nw sq tsp kd (elf_phnum elf) (read_phdrs bs ph)) f4 lg) im xl). rewrite (bind_ret _ tt _ z) by done.
  destruct (Z.eqb_spec (Z.of_nat (length bs)) (56 * elf_phnum elf)) as [Hbl|_]; cbn [negb]; [|by eapply (bad_reading 2); [|eapply pending_unmapped|]].
  eapply bind_returns; [apply xfs_returns, (put_reading f4 Hrd4)|]. intros [] x5 (f5 & -> & Hl5 & Hc5).
  eapply bind_returns; [apply xfs_returns, end_ok, Hl5|]. intros [] x6 (f6 & -> & Hs6). set (w := put_xps _ _).
  assert (Hc6 : content f6 ip = c) by (destruct Hs6 as (_ & -> & _); exact Hc5).
  eapply returns_mono; [apply (kexec_stack_ok r b w o1 f1 elf); [done|done|done|done|exact Hi|by eapply (same_locks f5)]|].
  intros res x'. apply exec_result_from; [exact Hi|exact Hc6|done|done|done|]. intros i Hix.
  pose proof (read_phdrs_ok c ph i (elf_phnum elf) Hoff Hix) as Hrp. cbv zeta in Hrp. fold elf in Hrp. rewrite u32_small in Hrp by lia. unfold sizeof_proghdr in Hrp. rewrite <- Hbs in Hrp.
  apply Hrp; [lia|done].
Qed.

Lemma kexec_load_ok : returns (kexec_load path argv ip x1) exec_result.
Proof.
  unfold kexec_load. eapply bind_returns; [apply xfs_returns, lock_reading|]. intros [] x2 (f2 & -> & Hrd2).
  eapply bind_returns; [apply xfs_returns, (read_file f2 ip 0 sizeof_elfhdr); [apply Hrd2|done|done]|]. intros hdr x3 (f3 & -> & Hs3 & Hhdr).
  assert (Hc2 : content f2 ip = c) by apply Hrd2. rewrite Hc2 in Hhdr. change (drop (Z.to_nat 0) c) with c in Hhdr. fold elf in Hhdr. subst hdr.
  pose proof (reading_same 1 _ _ Hrd2 Hs3) as Hrd3. set (x3 := put_xps _ _).
  assert (Hk3 : ps_k (x_ps x3) = ps_k (x_ps x)) by exact Hk. assert (Hs3' : same_image x x3) by exact Hs.
  assert (Hbad : forall k', (exists free', restored (ps_k (x_ps x)) own free k' free') -> returns (bad 0 0 (Some ip) (put_xps (put_k k' (x_ps x3)) x3)) exec_result).
  { intros k' Hr. apply (bad_reading 1); [exact Hrd3|by left|exact Hs]. }
  assert (Hbad0 : returns (bad 0 0 (Some ip) x3) exec_result).
  { apply (bad_reading 1); [exact Hrd3| |exact Hs]. left. split; [done|]. exists free. rewrite Hk3. apply restored_refl, P. }
  destruct (negb (Z.of_nat (length elf) =? sizeof_elfhdr)); [exact Hbad0|]. destruct (Z.eqb_spec (elf_magic elf) ELF_MAGIC) as [Hm|_]; cbn [negb]; [|exact Hbad0].
  rewrite (bind_ret _ (im_trapframe (x_im x3)) _ x3) by done. assert (Htf : im_trapframe (x_im x3) = im_trapframe (x_im x)) by apply Hs. rewrite Htf.
  destruct (ep_tf _ _ _ P) as [Ht1 Ht2].
  eapply bind_returns; [apply xvm_returns; rewrite Hk3; apply (proc_pagetable_ok _ own free _ (ep_vm _ _ _ P) (ep_rooted _ _ _ P) Ht1 Ht2)|].
  intros r x4 (k4 & -> & [[-> Hr]|(Hr & o4 & f4 & B4 & Hz4 & _)]); [by apply Hbad|]. destruct (Z.eqb_spec r 0); [lia|].
  set (x4 := put_xps (put_k k4 (x_ps x3)) x3). destruct (Hfits Hm) as (Hnum & Hoff & Hend & _). fold elf in Hnum, Hoff, Hend. unfold sizeof_proghdr in Hend.
  rewrite i32_small by lia. replace (elf_phoff elf) with (elf_phoff elf + 0 * sizeof_proghdr) by lia.
  eapply bind_returns; [apply (load_segments_ok (ps_k (x_ps x)) own free r ip c Hm Hfits (Z.to_nat (elf_phnum elf)) 0 no_segs x4 o4 f4); [fold elf; lia|done|exact B4| |apply Hrd3|apply Hrd3|done]|].
  { intros va Hva. change (ps_k (x_ps x4)) with k4. by rewrite Hz4. }
  intros [ok b] x5 (k5 & f5 & o5 & fr5 & -> & B5 & Hun5 & Hs5 & Hb5). cbn [snd] in Hb5. pose proof (reading_same 1 _ _ Hrd3 Hs5) as Hrd5.
  destruct ok; cbn [negb].
  - by eapply (kexec_headers_ok r b (put_kf k5 f5 x4) o5 fr5).
  - apply (bad_reading 1); [exact Hrd5|by eapply pending_unmapped|exact Hs].
Qed.
End File.

(** * The whole call *)

Definition fits (f : fs) : Prop := forall j, exec_fits (content f j).
Lemma fits_nil : exec_fits [].
Proof. by intros H. Qed.
Lemma fits_same f f' : fs_same f f' -> fits f -> fits f'.
Proof. intros (_ & Hc & _) H j. by rewrite Hc. Qed.
Lemma fits_inode f f' ip b d : fs_inode ip b d f f' -> (content f' ip = content f ip \/ content f' ip = []) -> fits f -> fits f'.
Proof.
  intros (_ & Hc & _) Hip H j. destruct (decide (j = ip)) as [->|Hne]; [|by rewrite Hc]. destruct Hip as [->| ->]; [done|apply fits_nil].
Qed.

(** The swap file of the process. *)
Lemma open_swap f pth : fs_ok f -> no_locks f -> fits f -> returns (create pth f) (fun o f' => match o with
  | None => no_locks f' /\ fits f'
  | Some ip => only_lock f' ip /\ fits f' /\ room f' = room f
  end).
Proof.
  intros Hf Hl Hfit. eapply returns_mono; [apply create_ok, Hf|]. intros [ip|] f' H.
  - destruct H as [Hi Hc]. split; [by eapply inode_only|]. split; [by eapply fits_inode|apply Hi].
  - split; [by eapply same_locks|by eapply fits_same].
Qed.

(** The program's file. *)
Lemma find_program f pth : no_locks f -> fits f -> returns (namei pth f) (fun o f' => match o with
  | None => no_locks f'
  | Some ip => no_locks f' /\ fits f' /\ 1 <= refs f' ip
  end).
Proof.
  intros Hl Hfit. eapply returns_mono; [apply namei_ok, Hl|]. intros [ip|] f' H; [|by eapply same_locks].
  destruct H as [Hi Hc]. split; [by eapply inode_locks_keep|]. split; [by eapply fits_inode; [|left|]|]. destruct Hi as (_ & _ & _ & _ & Hr). rewrite Hr, Z.eqb_refl.
  pose proof (refs_pos f ip ltac:(apply Hl)). lia.
Qed.

Lemma kexec_ok : room (ps_fs (x_ps x)) = true -> returns (kexec path argv x) exec_result.
Proof.
  intros Hroom. unfold kexec. assert (Hl0 : no_locks (ps_fs (x_ps x))) by (split; apply P). assert (Hfit0 : fits (ps_fs (x_ps x))) by (intros j; apply P).
  rewrite (bind_ret _ (ps_p (x_ps x)) _ x) by done. set (x1 := put_im (set_swap_path pgswp (x_im x)) x). rewrite (bind_ret _ tt _ x1) by done.
  assert (Hs1 : same_image x x1) by (unfold same_image, x1, put_im; cbn [x_im x_ps]; by destruct (x_im x)).
  assert (Hrest : exists free', restored (ps_k (x_ps x)) own free (ps_k (x_ps x)) free') by (exists free; apply restored_refl, P).
  eapply bind_returns; [apply xfs_returns, begin_ok, Hl0|]. intros [] x2 (f2 & -> & Hs2). change (ps_fs (x_ps x1)) with (ps_fs (x_ps x)) in Hs2.
  eapply bind_returns; [apply xfs_returns, (open_swap f2); [apply Hs2|by eapply same_locks|by eapply fits_same]|]. intros [ip|] x3 (f3 & -> & H3).
  2: { destruct H3 as [Hl3 Hf3]. eapply bind_returns; [apply xfs_returns, end_ok, Hl3|]. intros [] x4 (f4 & -> & Hs4).
    eapply returns_mono; [apply (bad_ok x own free P 0 0 None); [by left|exact Hs1|by eapply (same_locks f3)]|]. intros res x' [-> Hf]. by left. }
  destruct H3 as (Hl3 & Hf3 & Hr3). eapply bind_returns; [apply xfs_returns, filealloc_ok, Hl3|]. intros ok x4 (f4 & -> & -> & Hok4 & Hc4 & Hh4 & _).
  assert (Hroom3 : room f3 = true) by (destruct Hs2 as (_ & _ & Hr2 & _); congruence). cbn [x_ps ps_fs put_xps put_fs]. rewrite Hroom3.
  assert (Hl4 : only_lock f4 ip) by (split; [done|]; intros j; rewrite Hh4; apply Hl3). assert (Hf4 : fits f4) by (intros j; by rewrite Hc4).
  set (y := put_xps (put_p (set_swap_file (Some ip) (ps_p (x_ps x))) (put_fs f4 (x_ps x1))) x1). rewrite (bind_ret _ tt _ y) by done. cbn [negb].
  assert (Hsy : same_image x y) by (unfold same_image, y, x1, put_im; cbn [x_im x_ps put_xps put_p put_fs ps_p]; by destruct (x_im x), (ps_p (x_ps x))). assert (Hky : ps_k (x_ps y) = ps_k (x_ps x)) by done.
  eapply bind_returns; [apply xfs_returns, iunlock_ok; [apply Hl4|by apply only_held]|]. intros [] x5 (f5 & -> & Hi5 & Hc5).
  assert (Hl5 : no_locks f5) by (by eapply (inode_unlock f4)). assert (Hf5 : fits f5) by (eapply (fits_inode f4); [exact Hi5|by left|exact Hf4]).
  eapply bind_returns; [apply xfs_returns, end_ok, Hl5|]. intros [] x6 (f6 & -> & Hs6).
  eapply bind_returns; [apply xfs_returns, begin_ok, Hs6|]. intros [] x7 (f7 & -> & Hs7).
  assert (Hs57 : fs_same f5 f7) by (by eapply fs_same_trans).
  eapply bind_returns; [apply xfs_returns, (find_program f7); [by eapply (same_locks f5)|by eapply (fits_same f5)]|]. intros [ip'|] x8 (f8 & -> & H8).
  - destruct H8 as (Hl8 & Hf8 & Hr8). apply kexec_load_ok; [exact Hky|exact Hsy|exact Hl8|apply Hf8|exact Hr8].
  - eapply bind_returns; [apply xfs_returns, end_ok, H8|]. intros [] x9 (f9 & -> & Hs9). cbn. left. split; [done|]. split; [rewrite ?Hky; exact Hrest|]. split; [exact Hsy|]. by eapply (same_locks f8).
Qed.

Definition panics {St A} (msg : string) (o : outcome St A) : Prop := match o with Panic m _ => m = msg | _ => False end.
Lemma bind_panics {St A B} (m : M St A) (k : A -> M St B) st Q msg : returns (m st) Q -> (forall a s', Q a s' -> panics msg (k a s')) -> panics msg (bind m k st).
Proof. unfold bind. destruct (m st); cbn; try done. intros HQ Hk. by apply Hk. Qed.
Lemma returns_both {St A} (o : outcome St A) Q1 Q2 : returns o Q1 -> returns o Q2 -> returns o (fun a s' => Q1 a s' /\ Q2 a s').
Proof. by destruct o. Qed.
Lemma panics_bind {St A B} (m : M St A) (k : A -> M St B) st msg : panics msg (m st) -> panics msg (bind m k st).
Proof. unfold bind. by destruct (m st). Qed.

(** Without a free entry in the file table the inode of the swap file is
    released twice. *)
Lemma kexec_no_file : room (ps_fs (x_ps x)) = false ->
  (forall f, fs_ok f -> returns (create (pgswp ++ dec (p_pid (ps_p (x_ps x))) 5) f) (fun o _ => o <> None)) -> panics "iunlock" (kexec path argv x).
Proof.
  intros Hroom Hcreate. unfold kexec. assert (Hl0 : no_locks (ps_fs (x_ps x))) by (split; apply P). assert (Hfit0 : fits (ps_fs (x_ps x))) by (intros j; apply P).
  rewrite (bind_ret _ (ps_p (x_ps x)) _ x) by done. set (x1 := put_im (set_swap_path pgswp (x_im x)) x). rewrite (bind_ret _ tt _ x1) by done.
  eapply bind_panics; [apply xfs_returns, begin_ok, Hl0|]. intros [] x2 (f2 & -> & Hs2). change (ps_fs (x_ps x1)) with (ps_fs (x_ps x)) in Hs2. set (pth := pgswp ++ _) in *.
  eapply bind_panics; [apply xfs_returns, (returns_both _ _ _ (Hcreate f2 (proj1 Hs2)) (open_swap f2 pth (proj1 Hs2) (same_locks _ _ Hs2 Hl0) (fits_same _ _ Hs2 Hfit0)))|].
  intros [ip|] x3 (f3 & -> & Hn & H3); [|done]. destruct H3 as (Hl3 & _ & Hr3). eapply bind_panics; [apply xfs_returns, filealloc_ok, Hl3|].
  intros ok x4 (f4 & -> & -> & Hok4 & _ & Hh4 & _). cbn [x_ps ps_fs put_xps put_fs]. assert (Hroom3 : room f3 = false) by (destruct Hs2 as (_ & _ & Hr2 & _); congruence). rewrite Hroom3.
  match goal with |- panics _ (bind (xproc ?g) ?k ?st) => change (panics "iunlock" (k tt (put_xps (put_p (g (ps_p (x_ps st))) (x_ps st)) st))) end. cbn beta. cbn [negb].
  assert (Hl4 : only_lock f4 ip) by (split; [done|]; intros j; rewrite Hh4; apply Hl3).
  eapply bind_panics; [apply xfs_returns, iunlockput_ok; [apply Hl4|by apply only_held]|]. intros [] x5 (f5 & -> & Hi5 & _). assert (Hl5 : no_locks f5) by (by eapply (inode_unlock f4)).
  eapply bind_panics; [apply xfs_returns, end_ok, Hl5|]. intros [] x6 (f6 & -> & Hs6). pose proof (same_locks _ _ Hs6 Hl5) as Hl6.
  unfold bad. match goal with |- panics _ (bind _ _ ?st) => rewrite (bind_ret _ tt _ st) by done end. apply panics_bind, panics_bind.
  unfold xfs, on_ps, file, zoom. cbn [x_ps ps_fs put_xps put_fs]. by destruct (iunlockput_panics ip f6 (proj1 Hl6) (proj2 Hl6 ip)) as [f7 ->].
Qed.
End Run.


(** when the file table is full after the swap file was created, [kexec]
    releases the inode of the swap file, jumps to [bad] and releases it again:
    the kernel panics, although no argument of the call is wrong. *)
Theorem kexec_full_table_panics x own free path argv : exec_pre x own free -> room (ps_fs (x_ps x)) = false ->
  (forall f, fs_ok f -> returns (create (pgswp ++ dec (p_pid (ps_p (x_ps x))) 5) f) (fun o _ => o <> None)) ->
  panics "iunlock" (kexec path argv x).
Proof. intros P. by apply (kexec_no_file x own free path argv P). Qed.
End ExecClaims.
