(* ===== verification/SysExec.v ===== *)
(** The exec system call from its arguments on ([sys_exec] of
    [kernel/sysfile.c], [fetchaddr] and [fetchstr] of [kernel/syscall.c]): the
    argument strings are copied to pages of the kernel's, [kexec] runs, and the
    pages are freed. *)
From S2P Require Import Prelude Riscv Kalloc Vm Uvm Teardown Image FileLayer Paging PagingOk PagingClaims Kstring Exec ExecOk ExecRun ExecClaims.
Open Scope kern_scope.

Definition MAXPATH : Z := 128.

(** A C string: what precedes the NUL. *)
Fixpoint before_nul (bs : list Z) : list Z :=
  match bs with
  | [] => []
  | c :: bs' => if c =? 0 then [] else c :: before_nul bs'
  end.

Section SysExec.
Context {LAY : Layout} {FL : FileLayer} {EF : ExecFiles}.

Definition fetchaddr (addr : Z) : M xstate (option Z) :=
  do p <- xget;
  if (p_sz p <=? addr) || (p_sz p <? u64 (addr + 8)) then ret None
  else
    do r <- on_ps (copyin (p_pagetable p) addr 8 8);
    if negb (fst r =? 0) then ret None else ret (Some (le_at (snd r) 0 8)).

(** The result carries the bytes written to the buffer. *)
Definition fetchstr (addr max : Z) : M xstate (Z * list Z) :=
  do p <- xget;
  do r <- on_ps (copyinstr (p_pagetable p) addr max);
  if fst r <? 0 then ret (-1, snd r) else ret (Z.of_nat (length (before_nul (snd r))), snd r).

(** The loop over the arguments, with the pages in [argv] so far; [false] is a
    jump to [bad]. *)
Fixpoint fetch_args (k : nat) (i uargv : Z) (argv : list Z) : M xstate (bool * list Z) :=
  match k with
  | O => ret (false, argv)
  | S k' =>
      do uarg <- fetchaddr (u64 (uargv + 8 * i));
      match uarg with
      | None => ret (false, argv)
      | Some uarg =>
          if uarg =? 0 then ret (true, argv)
          else
            do pa <- xvm kalloc;
            if pa =? 0 then ret (false, argv)
            else
              do r <- fetchstr uarg PGSIZE;
              xvm (modify (fun k => set_mem (blit (kmem_mem k) pa (snd r)) k)) ;;;
              if fst r <? 0 then ret (false, argv ++ [pa])
              else fetch_args k' (i + 1) uargv (argv ++ [pa])
      end
  end.

Fixpoint free_args (argv : list Z) : M xstate unit :=
  match argv with
  | [] => ret tt
  | pa :: argv' => xvm (kfree pa) ;;; free_args argv'
  end.

(** The strings in the pages. *)
Definition strings_of (m : mem) (argv : list Z) : list (list Z) := (fun pa => before_nul (bytes_at m pa (Z.to_nat PGSIZE))) <$> argv.

(** [path] and [uargv] are the arguments in a0 and a1. *)
Definition sys_exec (upath uargv : Z) : M xstate Z :=
  do path <- fetchstr upath MAXPATH;
  if fst path <? 0 then ret (-1)
  else
    do a <- fetch_args (Z.to_nat MAXARG) 0 uargv [];
    let '(ok, argv) := a in
    if ok : bool then
      do m <- gets (fun x => kmem_mem (ps_k (x_ps x)));
      do r <- kexec (before_nul (snd path)) (strings_of m argv);
      free_args argv ;;;
      ret r
    else
      free_args argv ;;;
      ret (-1).
End SysExec.
