(* ===== verification/SysExecClaims.v ===== *)
(** The exec system call: the strings that [kexec] gets are the user's, and the
    pages that held them are free again. *)
From S2P Require Import Prelude Riscv Kalloc Vm Uvm Teardown Image FileLayer Paging PagingOk PagingClaims Kstring Exec ExecOk ExecRun ExecClaims SysExec.
Open Scope kern_scope.

Section SysExecClaims.
Context {LAY : Layout} {FL : FileLayer} {EF : ExecFiles} {EO : ExecFilesOk}.

(** * Strings in user memory *)

(** The string [a] is at user address [va]. *)
Definition user_string (k : kmem) (r va : Z) (a : list Z) : Prop :=
  Forall (fun c => c <> 0) a /\ user_bytes k r va (length a + 1) = a ++ [0].

Lemma before_nul_string a rest : Forall (fun c => c <> 0) a -> before_nul (a ++ 0 :: rest) = a.
Proof. induction 1 as [|c a Hc Ha IH]; [done|]. cbn. destruct (Z.eqb_spec c 0); [done|]. by rewrite IH. Qed.

Lemma copy_until_nul_ok m n : forall p, let '(bs, f) := copy_until_nul n m p in bs = bytes_at m p (length bs) /\ (length bs <= n)%nat /\
  (if f : bool then exists a, bs = a ++ [0] /\ Forall (fun c => c <> 0) a else length bs = n /\ Forall (fun c => c <> 0) bs).
Proof.
  induction n as [|n IH]; intros p; cbn [copy_until_nul]; [done|]. destruct (Z.eqb_spec (m p) 0) as [Hz|Hz].
  - split; [unfold bytes_at; cbn; by rewrite Z.add_0_r, Hz|]. split; [cbn; lia|]. by exists [].
  - specialize (IH (p + 1)). destruct (copy_until_nul n m (p + 1)) as [bs f]. destruct IH as (H1 & H2 & H3). split; [|split; [cbn; lia|]].
    + cbn [length]. unfold bytes_at. rewrite <- cons_seq. cbn. rewrite Z.add_0_r. f_equal. rewrite H1 at 1. unfold bytes_at. rewrite <- fmap_S_seq, <- list_fmap_compose.
      apply list_fmap_ext. intros i y _. cbn. f_equal. lia.
    + destruct f; [destruct H3 as (a & -> & Ha); exists (m p :: a)|destruct H3]; split; (done || (cbn; lia) || by constructor).
Qed.

(** [copyinstr] only reads; a string it returns is the user's. *)
Section Copyinstr.
Variables (s : pstate) (own : gmap Z use) (free : list Z) (r : Z).
Hypothesis Hi : vm_inv (ps_k s) own free.
Hypothesis Hu : user_pt (kmem_mem (ps_k s)) own r.
Hypothesis Htop : forall va, TRAPFRAME <= va < MAXVA -> has (lookup_pte (kmem_mem (ps_k s)) r va) PTE_U = false.

Definition instr_post (va max : Z) (dst : list Z) (res : Z * list Z) (s' : pstate) : Prop :=
  s' = s /\ exists bs, snd res = dst ++ bs /\ Z.of_nat (length bs) <= max /\
    (fst res = -1 \/ fst res = 0 /\ exists a, bs = a ++ [0] /\ Forall (fun c => c <> 0) a /\ user_bytes (ps_k s) r va (length bs) = bs /\
      0 <= va /\ user_range (ps_k s) r va (Z.of_nat (length bs)) /\ va + Z.of_nat (length bs) <= TRAPFRAME).

Lemma copyinstr_loop_ok fuel : forall va max dst, 0 <= va -> 0 <= max -> span va max < Z.of_nat fuel -> returns (copyinstr_loop fuel r va max dst s) (instr_post va max dst).
Proof.
  induction fuel as [|fuel IH]; intros va max dst Hva Hmax Hspan; cbn [copyinstr_loop].
  { unfold span in Hspan. destruct (Z.ltb_spec 0 max); [|lia]. unfold vpn, PGSIZE in *. zlia. }
  assert (Hnone : instr_post va max dst (-1, dst) s) by (split; [done|]; exists []; split; [by rewrite app_nil_r|]; cbn; split; [lia|by left]).
  unfold span in Hspan. destruct (Z.ltb_spec 0 max) as [Hl|Hl]; [|exact Hnone].
  pose proof (PGROUNDDOWN_le va) as Hle. pose proof (PGROUNDDOWN_aligned va) as Hal. assert (Hd0 : 0 <= PGROUNDDOWN va) by (rewrite PGROUNDDOWN_sub in *; unfold PGSIZE in *; zlia).
  rewrite (bind_ret _ _ _ _ _ (vm_read _ _ _ (walkaddr_ok (ps_k s) own free r (PGROUNDDOWN va) Hi (upt_root _ _ _ Hu) Hd0))).
  set (e := lookup_pte (kmem_mem (ps_k s)) r (PGROUNDDOWN va)).
  destruct ((PGROUNDDOWN va <? MAXVA) && has e PTE_V && has e PTE_U) eqn:Hok; [|exact Hnone]. apply andb_true_iff in Hok as [Hok HU]. apply andb_true_iff in Hok as [HM HV]. apply Z.ltb_lt in HM.
  destruct (Z.eqb_spec (PTE2PA e) 0) as [|_]; [exact Hnone|]. assert (HT : PGROUNDDOWN va < TRAPFRAME) by (destruct (Z.lt_ge_cases (PGROUNDDOWN va) TRAPFRAME); [done|]; unfold e in HU; by rewrite Htop in HU).
  assert (Hpg : forall x, PGROUNDDOWN va <= x < PGROUNDDOWN va + PGSIZE -> lookup_pte (kmem_mem (ps_k s)) r x = e).
  { intros x Hx. apply lookup_vpn. rewrite PGROUNDDOWN_sub in *. unfold vpn, PGSIZE in *. zlia. }
  assert (HTp : PGROUNDDOWN va + PGSIZE <= TRAPFRAME) by (change TRAPFRAME with (67108862 * 4096) in *; unfold aligned, PGSIZE in *; zlia).
  rewrite (bind_ret get s s s _ eq_refl). set (n := Z.min (PGSIZE - (va - PGROUNDDOWN va)) max). assert (Hn : 0 < n <= max) by (unfold n; lia).
  pose proof (copy_until_nul_ok (kmem_mem (ps_k s)) (Z.to_nat n) (PTE2PA e + (va - PGROUNDDOWN va))) as Hcp. destruct (copy_until_nul _ _ _) as [bs f]. destruct Hcp as (H1 & H2 & H3).
  assert (Hub : user_bytes (ps_k s) r va (length bs) = bs) by (rewrite <- user_bytes_page by lia; by symmetry).
  assert (Hrange : user_range (ps_k s) r va (Z.of_nat (length bs))) by (intros x Hx; rewrite Hpg by lia; done).
  destruct f.
  - destruct H3 as (a & -> & Ha). cbn. split; [done|]. exists (a ++ [0]). cbn. split; [done|]. split; [lia|]. right. split; [done|]. exists a. split_and!; try done. lia.
  - destruct H3 as [Hlen Hnz]. change TRAPFRAME with (67108862 * 4096) in HTp. rewrite u64_small by (unfold PGSIZE in *; lia).
    destruct (Z.eq_dec n max) as [Hnl|Hnl].
    + rewrite Hnl, Z.sub_diag. destruct fuel as [|fuel]; [unfold vpn, PGSIZE in *; zlia|]. cbn. split; [done|]. exists bs. cbn. split; [done|]. split; [lia|by left].
    + assert (Hnv : n = PGSIZE - (va - PGROUNDDOWN va)) by (unfold n in *; lia). replace (PGROUNDDOWN va + PGSIZE) with (va + n) by lia.
      eapply returns_mono; [apply (IH (va + n) (max - n) (dst ++ bs)); [lia|lia|]|].
      * unfold span. destruct (Z.ltb_spec 0 (max - n)); [|lia]. replace (va + n + (max - n) - 1) with (va + max - 1) by lia.
        assert (vpn (va + n) = vpn va + 1); [|lia]. rewrite Hnv, <- (vpn_rounddown va), <- vpn_succ. f_equal. lia.
      * intros [e' l'] s' (-> & bs' & El & Hb & Hres). cbn [fst snd] in *. split; [done|]. exists (bs ++ bs'). cbn [fst snd]. rewrite length_app. split; [by rewrite El, app_assoc|]. split; [lia|].
        destruct Hres as [?|(-> & a & -> & Ha & Hub' & _ & Hr' & Ht')]; [by left|right]. split; [done|]. exists (bs ++ a). split; [by rewrite app_assoc|]. split; [by apply Forall_app|].
        split; [rewrite user_bytes_app, Hub; f_equal; replace (va + Z.of_nat (length bs)) with (va + n) by lia; exact Hub'|]. split; [lia|]. split; [|lia].
        intros x Hx. destruct (Z.lt_ge_cases x (va + n)); [apply Hrange; lia|apply Hr'; lia].
Qed.

Lemma copyinstr_ok va max : 0 <= va -> 0 <= max -> returns (copyinstr r va max s) (instr_post va max []).
Proof. intros Hva Hmax. apply copyinstr_loop_ok; [done|done|by apply span_bound]. Qed.
End Copyinstr.

(** * The pages of the arguments *)

(** Changes outside the allocated pages leave translations alone. *)
Lemma lookup_apart s own free m' r va : vm_inv s own free -> is_root own r -> 0 <= va < MAXVA ->
  (forall q u, own !! q = Some u -> same_page (kmem_mem s) m' q) -> lookup_pte m' r va = lookup_pte (kmem_mem s) r va.
Proof.
  intros Hi Hr Hva Hs. eapply (pte_at_same s own free); [done|by apply root_table|by eauto|]. intros q Hq.
  destruct (slot_in_page q (PX 0 va) ltac:(apply PX_range; lia)). symmetry. apply (same_page_load 8 _ _ q); [by eauto|done|done].
Qed.

Lemma upt_apart s own free s' r : vm_inv s own free -> user_pt (kmem_mem s) own r -> (forall q u, own !! q = Some u -> same_page (kmem_mem s) (kmem_mem s') q) -> user_pt (kmem_mem s') own r.
Proof.
  intros Hi [Hr Hm Hf] Hs. assert (HTM : TRAPFRAME < MAXVA) by done. split; [done| |].
  - intros va Hva. rewrite (lookup_apart s own free) by (done || lia). by apply Hm.
  - intros f v Hv. destruct (Hf f v Hv) as (H1 & H2 & H3). pose proof (frame_va v H1). rewrite (lookup_apart s own free) by (done || lia). done.
Qed.

Lemma bytes_apart s own free s' r va n : vm_inv s own free -> user_pt (kmem_mem s) own r -> (forall q u, own !! q = Some u -> same_page (kmem_mem s) (kmem_mem s') q) ->
  0 <= va -> va + Z.of_nat n <= TRAPFRAME -> (forall a, va <= a < va + Z.of_nat n -> mapped s r a = true) -> user_bytes s' r va n = user_bytes s r va n.
Proof.
  intros Hi Hu Hs Hva Hn Hmap. assert (TRAPFRAME < MAXVA) by done. apply list_fmap_ext. intros i y Hy. apply lookup_seq in Hy as [-> Hlt]. cbn. unfold user_byte.
  rewrite (lookup_apart s own free); [|done|apply Hu|lia|done]. pose proof (upt_map _ _ _ Hu (va + Z.of_nat i) ltac:(lia) ltac:(apply Hmap; lia)) as Hf.
  symmetry. eapply Hs; [exact Hf|]. assert (0 <= (va + Z.of_nat i) mod PGSIZE < PGSIZE) by (apply Z.mod_pos_bound; done). lia.
Qed.

Section Fetch.
Variables (x : xstate) (own : gmap Z use) (free : list Z) (uargv : Z).
Hypothesis P : exec_pre x own free.
Let k := ps_k (x_ps x).
Let r := p_pagetable (ps_p (x_ps x)).
Let sz := p_sz (ps_p (x_ps x)).
Hypothesis Hbytes : forall a, 0 <= kmem_mem k a < 256.
Hypothesis Htop : forall va, TRAPFRAME <= va < MAXVA -> has (lookup_pte (kmem_mem k) r va) PTE_U = false.
Hypothesis Hargv : 0 <= uargv < 2 ^ 63.
Hypothesis Hmap : forall va, uargv <= va < uargv + 8 * MAXARG -> va < sz -> has (lookup_pte (kmem_mem k) r va) PTE_V = true /\ has (lookup_pte (kmem_mem k) r va) PTE_U = true.

Record taken (pages : list Z) (x1 : xstate) (free1 : list Z) : Prop := {
  tk_state : exists k1, x1 = put_xps (put_k k1 (x_ps x)) x;
  tk_inv : vm_inv (ps_k (x_ps x1)) own free1;
  tk_free : free = pages ++ free1;
  tk_same : forall q, aligned q -> q ∉ pages -> same_page (kmem_mem k) (kmem_mem (ps_k (x_ps x1))) q
}.

Lemma taken_held pages x1 free1 p : taken pages x1 free1 -> p ∈ pages -> Uvm.held own free1 p.
Proof.
  intros T Hp. pose proof (tk_free _ _ _ T) as Hf. assert (Hpf : p ∈ free) by (rewrite Hf; apply elem_of_app; by left). destruct (inv_free _ _ _ (ep_vm _ _ _ P)) as [Hc Hnd]. split.
  - apply chain_valid in Hc. rewrite Forall_forall in Hc. by apply Hc.
  - rewrite Hf in Hnd. apply NoDup_app in Hnd as (_ & Hd & _). by apply Hd.
  - by apply (inv_notfree _ _ _ (ep_vm _ _ _ P)).
Qed.
Lemma taken_own pages x1 free1 q u : taken pages x1 free1 -> own !! q = Some u -> same_page (kmem_mem k) (kmem_mem (ps_k (x_ps x1))) q.
Proof.
  intros T Hq. apply (tk_same _ _ _ T); [by eapply inv_aligned; [apply (ep_vm _ _ _ P)|]|]. intros Hp. pose proof (held_notown _ _ _ (taken_held _ _ _ q T Hp)). congruence.
Qed.
Lemma taken_lookup pages x1 free1 r' va : taken pages x1 free1 -> is_root own r' -> 0 <= va < MAXVA ->
  lookup_pte (kmem_mem (ps_k (x_ps x1))) r' va = lookup_pte (kmem_mem k) r' va.
Proof. intros T Hr Hva. apply (lookup_apart k own free); [apply P|done|done|]. intros q u. by apply taken_own with (pages := pages) (free1 := free1). Qed.
Lemma taken_upt pages x1 free1 : taken pages x1 free1 -> user_pt (kmem_mem (ps_k (x_ps x1))) own r.
Proof. intros T. apply (upt_apart k own free); [apply P|apply P|]. intros q u. by apply taken_own with (pages := pages) (free1 := free1). Qed.
Lemma taken_bytes pages x1 free1 va n : taken pages x1 free1 -> 0 <= va -> va + Z.of_nat n <= TRAPFRAME -> user_range k r va (Z.of_nat n) ->
  user_bytes (ps_k (x_ps x1)) r va n = user_bytes k r va n.
Proof.
  intros T H0 H1 Hr. eapply (bytes_apart k own free); [apply P|apply P| |done|done|intros a Ha; by apply Hr]. intros q u. by apply taken_own with (pages := pages) (free1 := free1).
Qed.
Lemma taken_p pages x1 free1 : taken pages x1 free1 -> ps_p (x_ps x1) = ps_p (x_ps x).
Proof. intros T. by destruct (tk_state _ _ _ T) as [k1 ->]. Qed.

Lemma taken_nil : taken [] x free.
Proof. split; [exists k; by destruct x as [[] ? ?]|apply P|done|]. intros q _ _. apply same_page_refl. Qed.

(** ** Fetching *)

Lemma on_ps_reads {A} (m : M pstate A) y a : m (x_ps y) = Ret a (x_ps y) -> on_ps m y = Ret a y.
Proof. intros Hm. unfold on_ps, zoom. rewrite Hm. by destruct y. Qed.
Lemma xvm_reads {A} (m : M kmem A) y a : m (ps_k (x_ps y)) = Ret a (ps_k (x_ps y)) -> xvm m y = Ret a y.
Proof. intros Hm. apply on_ps_reads. by apply vm_read. Qed.

(** The pointer to argument [i]. *)
Definition uptr (i : Z) : Z := le_at (user_bytes k r (uargv + 8 * i) 8) 0 8.

Lemma load_bytes n m a : (forall b, 0 <= m b < 256) -> 0 <= load n m a < 256 ^ Z.of_nat n.
Proof.
  intros Hm. revert a. induction n as [|n IH]; intros a; [done|]. unfold load; fold load. pose proof (Hm a). specialize (IH (a + 1)). rewrite Nat2Z.inj_succ, Z.pow_succ_r by lia. lia.
Qed.
Lemma uptr_range i : 0 <= uptr i < 2 ^ 64.
Proof.
  change (2 ^ 64) with (256 ^ Z.of_nat 8). apply load_bytes. intros b. unfold user_bytes. rewrite list_lookup_fmap. destruct (seq 0 8 !! Z.to_nat b); cbn; [apply Hbytes|lia].
Qed.

Lemma fetchaddr_ok pages x1 free1 i : taken pages x1 free1 -> 0 <= i < MAXARG ->
  returns (fetchaddr (u64 (uargv + 8 * i)) x1) (fun o x2 => x2 = x1 /\ (o = None \/ o = Some (uptr i))).
Proof.
  intros T Hi. unfold fetchaddr. rewrite (bind_ret _ (ps_p (x_ps x1)) _ x1) by done. rewrite (taken_p _ _ _ T). fold sz. fold r. unfold MAXARG in *.
  rewrite (u64_small (uargv + 8 * i)) by lia. destruct (Z.leb_spec sz (uargv + 8 * i)) as [|Hlt]; [cbn; auto|]. rewrite u64_small by lia.
  destruct (Z.ltb_spec sz (uargv + 8 * i + 8)) as [|Hlt2]; cbn [orb]; [cbn; auto|]. assert (Hsz : 0 <= sz <= TRAPFRAME) by apply P. assert (HTM : TRAPFRAME < MAXVA) by done.
  assert (Hrange : user_range k r (uargv + 8 * i) 8) by (intros a Ha; apply Hmap; lia).
  assert (Hc : copyin r (uargv + 8 * i) 8 8 (x_ps x1) = Ret (0, user_bytes k r (uargv + 8 * i) 8) (x_ps x1)).
  { unfold copyin. rewrite (copyin_mapped (x_ps x1) own free1); [| |by apply taken_upt with (pages := pages) (free1 := free1)|lia|lia|lia|by apply span_bound|].
    - cbn [app]. do 2 f_equal. apply (taken_bytes _ _ _ _ _ T); [lia|lia|exact Hrange].
    - apply T.
    - intros a Ha. cbv zeta. rewrite (taken_lookup _ _ _ _ _ T) by (apply P || lia). by apply Hrange. }
  rewrite (bind_ret _ _ _ x1 _ (on_ps_reads _ _ _ Hc)). cbn. split; [done|by right].
Qed.

Lemma fetchstr_ok pages x1 free1 va max : taken pages x1 free1 -> 0 <= va -> 0 <= max ->
  returns (fetchstr va max x1) (fun res x2 => x2 = x1 /\ Z.of_nat (length (snd res)) <= max /\
    (fst res < 0 \/ 0 <= fst res /\ exists a, snd res = a ++ [0] /\ user_string k r va a)).
Proof.
  intros T Hva Hmax. unfold fetchstr. rewrite (bind_ret _ (ps_p (x_ps x1)) _ x1) by done. rewrite (taken_p _ _ _ T). fold r.
  eapply bind_returns; [apply on_ps_returns, (copyinstr_ok (x_ps x1) own free1 r (tk_inv _ _ _ T) (taken_upt _ _ _ T)); [|exact Hva|exact Hmax]|].
  - intros a Ha. assert (0 <= TRAPFRAME) by done. rewrite (taken_lookup _ _ _ _ _ T) by (apply P || lia). by apply Htop.
  - intros [e bs] x2 (ps2 & -> & -> & bs' & Eb & Hlen & Hres). cbn [fst snd app] in *. subst bs'. assert (Ex : put_xps (x_ps x1) x1 = x1) by (by destruct x1). rewrite Ex.
    destruct Hres as [->|(-> & a & -> & Ha & Hub & _ & Hr & Ht)]; cbn [Z.ltb Z.compare]; [cbn; split; [done|]; split; [done|left; lia]|].
    cbn. split; [done|]. split; [done|]. right. split; [lia|]. exists a. split; [done|]. split; [exact Ha|]. assert (TRAPFRAME < MAXVA) by done.
    rewrite <- (taken_bytes _ _ _ va (length a + 1) T); [|done|rewrite length_app in Ht; cbn in Ht; lia|].
    + rewrite length_app in Hub. exact Hub.
    + intros y Hy. cbv zeta. rewrite length_app in Hr, Ht. cbn in Hr, Ht. rewrite <- (taken_lookup _ _ _ _ _ T) by (apply P || lia). apply Hr. lia.
Qed.

(** A page for one more argument. *)
Lemma taken_kalloc pages x1 free1 : taken pages x1 free1 -> returns (xvm kalloc x1) (fun p x2 =>
  p = 0 /\ x2 = x1 \/ 0 < p /\ exists free2, free1 = p :: free2 /\ taken (pages ++ [p]) x2 free2 /\
    forall q, aligned q -> q <> p -> same_page (kmem_mem (ps_k (x_ps x1))) (kmem_mem (ps_k (x_ps x2))) q).
Proof.
  intros T. destruct (tk_state _ _ _ T) as [k1 Ex]. pose proof (tk_inv _ _ _ T) as Hi. destruct free1 as [|p free2].
  - rewrite (xvm_reads kalloc x1 0 (kalloc_none _ (inv_free _ _ _ Hi))). cbn. by left.
  - eapply returns_mono; [apply xvm_returns, (kalloc_held _ own p free2 Hi)|]. intros p' x2 (k2 & -> & -> & Hi2 & Hh & Hs2). right. pose proof (valid_page_pos p (Uvm.held_valid _ _ _ Hh)). split; [lia|].
    exists free2. split; [done|]. split; [|exact Hs2]. split; [exists k2; by rewrite Ex|exact Hi2|rewrite <- app_assoc; apply T|].
    intros q Hq Hn. eapply same_page_trans; [apply (tk_same _ _ _ T); [done|set_solver]|]. apply Hs2; [done|set_solver].
Qed.

Lemma taken_blit pages x1 free1 p bs : taken pages x1 free1 -> p ∈ pages -> Z.of_nat (length bs) <= PGSIZE ->
  let x2 := put_xps (put_k (set_mem (blit (kmem_mem (ps_k (x_ps x1))) p bs) (ps_k (x_ps x1))) (x_ps x1)) x1 in
  taken pages x2 free1 /\ forall q, aligned q -> q <> p -> same_page (kmem_mem (ps_k (x_ps x1))) (kmem_mem (ps_k (x_ps x2))) q.
Proof.
  intros T Hp Hl x2. pose proof (taken_held _ _ _ _ T Hp) as Hh. pose proof (valid_page_aligned p (Uvm.held_valid _ _ _ Hh)) as Hal.
  assert (Hs : forall q, aligned q -> q <> p -> same_page (kmem_mem (ps_k (x_ps x1))) (kmem_mem (ps_k (x_ps x2))) q).
  { intros q Hq Hne y Hy. cbn. unfold blit. pose proof (aligned_apart q p Hq Hal Hne). destruct (Z.leb_spec p y); [|done]. destruct (Z.ltb_spec y (p + Z.of_nat (length bs))); [|done]. cbn. lia. }
  split; [|exact Hs]. destruct (tk_state _ _ _ T) as [k1 Ex]. split.
  - exists (set_mem (blit (kmem_mem (ps_k (x_ps x1))) p bs) (ps_k (x_ps x1))). unfold x2. by rewrite Ex.
  - apply (held_write _ own free1 p); [apply T|done|exact Hs].
  - apply T.
  - intros q Hq Hn. eapply same_page_trans; [by apply T|]. apply Hs; [done|]. by intros ->.
Qed.

Lemma bytes_at_app m p i j : bytes_at m p (i + j) = bytes_at m p i ++ bytes_at m (p + Z.of_nat i) j.
Proof.
  unfold bytes_at. rewrite seq_app, fmap_app. f_equal. simpl. replace (seq i j) with (Nat.add i <$> seq 0 j) by (rewrite fmap_add_seq; f_equal; lia).
  rewrite <- list_fmap_compose. apply list_fmap_ext. intros n y _. simpl. f_equal. lia.
Qed.

(** The string of a page is what was written to it first. *)
Lemma page_string m p a : Forall (fun c => c <> 0) a -> Z.of_nat (length (a ++ [0])) <= PGSIZE ->
  before_nul (bytes_at (blit m p (a ++ [0])) p (Z.to_nat PGSIZE)) = a.
Proof.
  intros Ha Hl. pose (l := length (a ++ [0])). replace (Z.to_nat PGSIZE) with (l + (Z.to_nat PGSIZE - l))%nat by (unfold l; lia). unfold l at 1.
  rewrite bytes_at_app, bytes_at_blit, <- app_assoc. cbn [app]. by apply before_nul_string.
Qed.

Lemma strings_same m m' pages : (forall p, p ∈ pages -> same_page m m' p) -> strings_of m' pages = strings_of m pages.
Proof.
  intros Hs. apply list_fmap_ext. intros i p Hp. f_equal. apply list_elem_of_lookup_2 in Hp. unfold bytes_at. apply list_fmap_ext. intros j y Hy. apply lookup_seq in Hy as [-> Hj]. symmetry.
  apply (Hs p Hp). lia.
Qed.

(** [argv] are the first arguments. *)
Definition args_are (argv : list (list Z)) : Prop := Forall (fun a => Z.of_nat (length a) < PGSIZE) argv /\
  forall i a, argv !! i = Some a -> uptr (Z.of_nat i) <> 0 /\ user_string k r (uptr (Z.of_nat i)) a.

Lemma args_snoc argv a : args_are argv -> uptr (Z.of_nat (length argv)) <> 0 -> user_string k r (uptr (Z.of_nat (length argv))) a -> Z.of_nat (length a) < PGSIZE -> args_are (argv ++ [a]).
Proof.
  intros [H1 H2] Hn Hs Hl. split; [apply Forall_app; by split; [|constructor]|]. intros i b. destruct (decide (i < length argv)%nat) as [Hi|Hi].
  - rewrite lookup_app_l by done. by apply H2.
  - rewrite lookup_app_r by lia. intros Hb. apply list_lookup_singleton_Some in Hb as [Hi' <-]. replace i with (length argv) by lia. done.
Qed.

Lemma fetch_args_ok n : forall i pages x1 free1, taken pages x1 free1 -> Z.of_nat (length pages) = i -> i + Z.of_nat n = MAXARG ->
  args_are (strings_of (kmem_mem (ps_k (x_ps x1))) pages) ->
  returns (fetch_args n i uargv pages x1) (fun res x2 => exists free2, taken (snd res) x2 free2 /\
    (fst res = true -> let argv := strings_of (kmem_mem (ps_k (x_ps x2))) (snd res) in args_are argv /\ Z.of_nat (length argv) < MAXARG /\ uptr (Z.of_nat (length argv)) = 0)).
Proof.
  induction n as [|n IH]; intros i pages x1 free1 T Hlen Hin Hargs; cbn [fetch_args]; [exists free1; by split|].
  eapply bind_returns; [apply (fetchaddr_ok pages x1 free1 i T); lia|]. intros o x2 (-> & Ho). assert (Hsl : length (strings_of (kmem_mem (ps_k (x_ps x1))) pages) = length pages) by apply length_fmap.
  destruct Ho as [->| ->]; [exists free1; by split|]. destruct (Z.eqb_spec (uptr i) 0) as [Hz|Hz]; [exists free1; split; [done|]; intros _; cbv zeta; cbn [snd]; rewrite Hsl, Hlen; split; [done|]; split; [lia|done]|].
  eapply bind_returns; [apply (taken_kalloc pages x1 free1 T)|]. intros p x2 [[-> ->]|(Hp & free2 & -> & T2 & Hs2)]; [exists free1; by split|]. destruct (Z.eqb_spec p 0); [lia|].
  eapply bind_returns; [apply (fetchstr_ok _ _ _ (uptr i) PGSIZE T2); [apply uptr_range|done]|]. intros [e bs] x3 (-> & Hl & Hres). cbn [fst snd] in *.
  destruct (taken_blit _ _ _ p bs T2 ltac:(apply elem_of_app; right; by left) Hl) as [T3 Hs3]. set (x3 := put_xps _ _) in T3, Hs3. rewrite (bind_ret _ tt _ x3) by done.
  assert (Hpages : forall q, q ∈ pages -> aligned q /\ q <> p).
  { intros q Hq. split; [eapply valid_page_aligned, Uvm.held_valid, (taken_held _ _ _ q T Hq)|]. intros ->. apply (Uvm.held_notfree _ _ _ (taken_held _ _ _ p T Hq)). by left. }
  destruct Hres as [He|(He & a & -> & Hstr)].
  { destruct (Z.ltb_spec e 0); [|lia]. exists free2. by split. }
  destruct (Z.ltb_spec e 0); [lia|]. pose proof Hstr as [Hnz _].
  assert (Hnew : strings_of (kmem_mem (ps_k (x_ps x3))) (pages ++ [p]) = strings_of (kmem_mem (ps_k (x_ps x1))) pages ++ [a]).
  { unfold strings_of at 1. rewrite fmap_app. f_equal; [|exact (f_equal (fun z => [z]) (page_string (kmem_mem (ps_k (x_ps x2))) p a Hnz Hl))]. apply strings_same. intros q Hq. destruct (Hpages q Hq). eapply same_page_trans; [by apply Hs2|by apply Hs3]. }
  apply (IH (i + 1) _ x3 free2 T3); [rewrite length_app; cbn; lia|lia|]. rewrite Hnew. rewrite length_app in Hl. cbn in Hl. apply args_snoc; [done|by rewrite Hsl, Hlen|by rewrite Hsl, Hlen|lia].
Qed.

(** ** Freeing the pages *)

Lemma free_args_ok pages : forall x2 o2 f2, vm_inv (ps_k (x_ps x2)) o2 f2 -> NoDup pages -> (forall p, p ∈ pages -> Uvm.held o2 f2 p) ->
  returns (free_args pages x2) (fun _ x3 => exists k3 f3, x3 = put_xps (put_k k3 (x_ps x2)) x2 /\ vm_inv k3 o2 f3 /\ (forall q, q ∈ f3 <-> q ∈ pages \/ q ∈ f2) /\
    forall q, aligned q -> q ∉ pages -> same_page (kmem_mem (ps_k (x_ps x2))) (kmem_mem k3) q).
Proof.
  induction pages as [|p pages IH]; intros x2 o2 f2 Hi Hnd Hh; cbn [free_args].
  - exists (ps_k (x_ps x2)), f2. split; [by destruct x2 as [[] ? ?]|]. split; [done|]. split; [intros q; rewrite elem_of_nil; tauto|]. intros q _ _. apply same_page_refl.
  - apply NoDup_cons in Hnd as [Hp Hnd]. eapply bind_returns; [apply xvm_returns, (held_free _ o2 f2 p Hi); apply Hh; by left|]. intros [] x3 (k3 & -> & Hi3 & Hs3).
    set (x3 := put_xps _ _). eapply returns_mono; [apply (IH x3 o2 (p :: f2)); [exact Hi3|done|]|].
    + intros q Hq. destruct (Hh q ltac:(by right)) as [V F O]. split; [done| |done]. intros [->|?]%elem_of_cons; done.
    + intros [] x4 (k4 & f4 & -> & Hi4 & Hf4 & Hs4). exists k4, f4. split; [done|]. split; [done|]. split; [intros q; rewrite Hf4, !elem_of_cons; tauto|].
      intros q Hq Hn. eapply same_page_trans; [apply Hs3; [done|intros ->; apply Hn; by left]|]. apply Hs4; [done|]. intros ?. apply Hn. by right.
Qed.

Lemma taken_nodup pages x1 free1 : taken pages x1 free1 -> NoDup pages.
Proof. intros T. destruct (inv_free _ _ _ (ep_vm _ _ _ P)) as [_ Hnd]. rewrite (tk_free _ _ _ T) in Hnd. by apply NoDup_app in Hnd as (? & _ & _). Qed.
Lemma taken_in pages x1 free1 q : taken pages x1 free1 -> q ∈ free <-> q ∈ pages \/ q ∈ free1.
Proof. intros T. rewrite (tk_free _ _ _ T). apply elem_of_app. Qed.

(** The state in which [kexec] is called. *)
Lemma taken_pre pages x1 free1 : taken pages x1 free1 -> exec_pre x1 own free1 /\ room (ps_fs (x_ps x1)) = room (ps_fs (x_ps x)).
Proof.
  intros T. assert (HTM : TRAPFRAME < MAXVA) by done. pose proof (taken_upt _ _ _ T) as Hu1. destruct (tk_state _ _ _ T) as [k1 Ex]. split; [|by rewrite Ex].
  assert (Hp : ps_p (x_ps x1) = ps_p (x_ps x)) by (by rewrite Ex). assert (Hf : ps_fs (x_ps x1) = ps_fs (x_ps x)) by (by rewrite Ex). assert (Him : x_im x1 = x_im x) by (by rewrite Ex).
  destruct P as [_ P2 P3 P4 P5 P6 P7 P8 P9]. split; rewrite ?Hp, ?Hf, ?Him; try done; [apply T|]. intros va Hva Hm. apply P5; [done|]. unfold mapped in *. by rewrite (taken_lookup _ _ _ _ _ T) in Hm by (apply P3 || lia).
Qed.

Lemma failed_freed pages x1 free1 x2 : taken pages x1 free1 -> exec_failed x1 own free1 x2 -> returns (free_args pages x2) (fun _ x3 => exec_failed x own free x3).
Proof.
  intros T ((f2 & [R1 R2 R3 R4]) & Hsi & Hl). assert (Hheld : forall p, p ∈ pages -> Uvm.held own f2 p).
  { intros p Hp. destruct (taken_held _ _ _ _ T Hp) as [V F O]. split; [done|by rewrite R2|done]. }
  eapply returns_mono; [apply (free_args_ok pages x2 own f2 R1 (taken_nodup _ _ _ T) Hheld)|]. intros [] x3 (k3 & f3 & -> & Hi3 & Hf3 & Hs3).
  assert (Hown : forall q u, own !! q = Some u -> same_page (kmem_mem (ps_k (x_ps x2))) (kmem_mem k3) q).
  { intros q u Hq. apply Hs3; [by eapply inv_aligned|]. intros Hp. destruct (Hheld q Hp). congruence. }
  split; [|split; [|exact Hl]].
  - exists f3. split.
    + done.
    + intros q. rewrite Hf3, R2. symmetry. by apply taken_in with (x1 := x1).
    + intros r' va Hr' Hva. change (ps_k (x_ps (put_xps (put_k k3 (x_ps x2)) x2))) with k3. rewrite (lookup_apart (ps_k (x_ps x2)) own f2), R3 by done. by apply (taken_lookup pages x1 free1).
    + intros q Hq Hn Ht. assert (Hp : (q ∉ pages) /\ q ∉ free1) by (rewrite (taken_in _ _ _ q T) in Hn; tauto). destruct Hp as [Hp1 Hp2].
      eapply same_page_trans; [apply (tk_same _ _ _ T); done|]. eapply same_page_trans; [by apply R4|]. by apply Hs3.
  - destruct (tk_state _ _ _ T) as [k1 Ex]. by rewrite Ex in Hsi.
Qed.

(** Paging does not depend on pages that are in no address space. *)
Lemma paging_apart s o f k' f' : paging_ok s o f -> vm_inv k' o f' -> (forall q u, o !! q = Some u -> same_page (kmem_mem (ps_k s)) (kmem_mem k') q) -> paging_ok (put_k k' s) o f'.
Proof.
  intros [K1 K2 K3 K4 K5 K6 K7 K8] Hi Hs. assert (HTM : TRAPFRAME < MAXVA) by done.
  assert (Hlk : forall va, user_va va -> lookup_pte (kmem_mem k') (p_pagetable (ps_p s)) va = lookup_pte (kmem_mem (ps_k s)) (p_pagetable (ps_p s)) va).
  { intros va [_ Hva]. apply (lookup_apart (ps_k s) o f); [done|apply K2|lia|done]. }
  split; cbn [ps_k ps_p ps_fs put_k]; try done.
  - by apply (upt_apart (ps_k s) o f).
  - intros i Hix. destruct (K7 i Hix) as (V & E). split; [done|]. by rewrite Hlk.
  - intros i Hix. destruct (K8 i Hix) as (V & E). split; [done|]. unfold mapped in *. by rewrite Hlk.
Qed.

Section Done.
Variables (pages : list Z) (x1 : xstate) (free1 : list Z) (path : list Z) (argv : list (list Z)) (elf : list Z) (r' sz' : Z) (o' : gmap Z use) (f2 : list Z) (x2 : xstate).
Hypothesis T : taken pages x1 free1.
Hypothesis X : execed x1 own free1 path argv elf r' sz' o' f2 x2.

Lemma done_held p : p ∈ pages -> Uvm.held o' f2 p.
Proof.
  intros Hp. destruct (taken_held _ _ _ _ T Hp) as [V F O]. assert (Hno : ~ (p ∈ f2 \/ is_Some (o' !! p))).
  { rewrite (xd_pages _ _ _ _ _ _ _ _ _ _ _ X). intros [?|[u Hu]]; [done|congruence]. }
  split; [done|tauto|]. destruct (o' !! p) eqn:E; [|done]. destruct Hno. right. eauto.
Qed.

Lemma done_execed k3 f3 : vm_inv k3 o' f3 -> (forall q, q ∈ f3 <-> q ∈ pages \/ q ∈ f2) -> (forall q, aligned q -> q ∉ pages -> same_page (kmem_mem (ps_k (x_ps x2))) (kmem_mem k3) q) ->
  execed x own free path argv elf r' sz' o' f3 (put_xps (put_k k3 (x_ps x2)) x2).
Proof.
  intros Hi3 Hf3 Hs3. pose proof X as [X1 X2 [X3 X3'] X4 X5 X6 (ptrs & Ea & Em & Elo & Estr & Earr) X8 X9 X10 X11 X12 X13]. assert (HTM : TRAPFRAME < MAXVA) by done.
  assert (Hp : ps_p (x_ps x1) = ps_p (x_ps x)) by (by apply taken_p with (pages := pages) (free1 := free1)). rewrite Hp in X10, X12, X13.
  assert (Hown : forall q u, o' !! q = Some u -> same_page (kmem_mem (ps_k (x_ps x2))) (kmem_mem k3) q).
  { intros q u Hq. apply Hs3; [by eapply inv_aligned|]. intros Hpq. destruct (done_held q Hpq). congruence. }
  assert (Hlk : forall ra va, is_root o' ra -> 0 <= va < MAXVA -> lookup_pte (kmem_mem k3) ra va = lookup_pte (kmem_mem (ps_k (x_ps x2))) ra va).
  { intros ra va Hra Hva. by apply (lookup_apart (ps_k (x_ps x2)) o' f2). }
  destruct X4 as (S1 & S2 & S3 & S4). pose proof (upt_root _ _ _ X2) as Hr2. rewrite S3 in S4.
  assert (Hw : forall a, sz' + PGSIZE <= a < sz' + 6 * PGSIZE -> mapped (ps_k (x_ps x2)) r' a = true).
  { intros a Ha. destruct X6 as [Hpg _]. destruct (Hpg (vpn a)) as (f & Hf & Hl); [unfold aligned, vpn, PGSIZE in *; zlia|].
    rewrite (lookup_vpn _ _ _ a (vpn_mul _)) in Hl. pose proof (inv_pos _ _ _ _ _ X1 Hf). unfold mapped. rewrite Hl. destruct (true && (vpn a =? vpn sz')); rewrite mk_pte_has by (done || lia); done. }
  assert (Hub : forall va n, sz' + PGSIZE <= va -> va + Z.of_nat n <= sz' + 6 * PGSIZE -> user_bytes k3 r' va n = user_bytes (ps_k (x_ps x2)) r' va n).
  { intros va n H1 H2. eapply (bytes_apart (ps_k (x_ps x2)) o' f2); [done|done|done|unfold PGSIZE in *; lia|lia|]. intros a Ha. apply Hw. lia. }
  split; cbn [x_ps x_im ps_k ps_p put_xps put_k]; try done.
  - by apply (upt_apart (ps_k (x_ps x2)) o' f2).
  - split; [done|]. split; [done|]. by rewrite S3.
  - destruct X6 as [Hpg Hrest]. split.
    + intros v Hv. destruct (Hpg v Hv) as (f & Hf & Hl). exists f. split; [done|]. rewrite Hlk; [exact Hl|done|]. unfold aligned, vpn, PGSIZE in *. zlia.
    + intros va Hva Hn. rewrite Hlk by (done || lia). by apply Hrest.
  - exists ptrs. cbv zeta. split; [done|]. split; [done|]. split; [done|]. split.
    + eapply Forall2_impl; [exact Estr|]. intros a q Ha. eapply string_at_keep; [exact Ha|lia|lia|]. intros va n H1 H2. apply Hub; lia.
    + rewrite Hub; [done|apply Elo|lia].
  - intros q u Hq. specialize (X10 q u Hq). case_decide; [apply Hf3; by right|done].
  - intros q. rewrite Hf3. rewrite (taken_in _ _ _ q T). specialize (X11 q). tauto.
  - intros ra va Hra Hn Hva. rewrite <- (taken_lookup pages x1 free1) by done. rewrite <- X12 by done. apply Hlk; [|done].
    specialize (X10 ra (Table ra 2 0) Hra). by rewrite decide_False in X10.
  - intros q ra v Hq Hn. eapply same_page_trans; [by apply (taken_own pages x1 free1 q _ T Hq)|]. eapply same_page_trans; [by apply (X13 q ra v)|].
    apply (Hown q (Frame ra v)). specialize (X10 q (Frame ra v) Hq). by rewrite decide_False in X10.
Qed.

Lemma done_freed : returns (free_args pages x2) (fun _ x3 => exists k3 f3, x3 = put_xps (put_k k3 (x_ps x2)) x2 /\ execed x own free path argv elf r' sz' o' f3 x3 /\
  (paging_ok (x_ps x2) o' f2 -> paging_ok (x_ps x3) o' f3)).
Proof.
  pose proof (xd_vm _ _ _ _ _ _ _ _ _ _ _ X) as Hi2. eapply returns_mono; [apply (free_args_ok pages x2 o' f2 Hi2 (taken_nodup _ _ _ T) done_held)|].
  intros [] x3 (k3 & f3 & -> & Hi3 & Hf3 & Hs3). exists k3, f3. split; [done|]. split; [by apply done_execed|]. intros Hok. apply (paging_apart _ _ f2); [done|done|].
  intros q u Hq. apply Hs3; [by eapply inv_aligned|]. intros Hp. destruct (done_held q Hp). congruence.
Qed.
End Done.

Lemma result_freed pages x1 free1 path argv res x2 : taken pages x1 free1 -> exec_result x1 own free1 path argv res x2 ->
  returns (free_args pages x2) (fun _ x3 => exec_result x own free path argv res x3).
Proof.
  intros T [[-> Hf]|(-> & Hl & r' & sz' & o' & f2 & X & Hm & Hn & Hph & Hpk)].
  - eapply returns_mono; [by eapply failed_freed|]. intros [] x3 H3. by left.
  - eapply returns_mono; [by eapply done_freed|]. intros [] x3 (k3 & f3 & -> & X3 & Hpk3). right. split; [done|]. split; [done|]. exists r', sz', o', f3. cbv zeta. split; [done|]. split; [done|]. split; [done|].
    split; [done|]. intros Hsw H0 Hne. apply Hpk3, Hpk; [| |done]; by rewrite (taken_p _ _ _ T).
Qed.

(** What the arguments are. *)
Definition user_args (argv : list (list Z)) : Prop := args_are argv /\ uptr (Z.of_nat (length argv)) = 0.

Lemma sys_exec_ok upath : room (ps_fs (x_ps x)) = true -> 0 <= upath ->
  returns (sys_exec upath uargv x) (fun res x' => res = -1 /\ exec_failed x own free x' \/
    exists path argv, user_string k r upath path /\ user_args argv /\ exec_result x own free path argv res x').
Proof.
  intros Hroom Hup. unfold sys_exec. assert (Hfail0 : exec_failed x own free x) by (split; [exists free; apply restored_refl, P|]; split; [apply same_image_refl|split; apply P]).
  eapply bind_returns; [apply (fetchstr_ok [] x free upath MAXPATH taken_nil Hup); done|]. intros [e bs] x0 (-> & _ & Hres). cbn [fst snd] in *.
  destruct Hres as [He|(He & path & -> & Hpath)]; destruct (Z.ltb_spec e 0); try lia; [by left|]. rewrite (before_nul_string path []) by apply Hpath.
  eapply bind_returns; [apply (fetch_args_ok (Z.to_nat MAXARG) 0 [] x free taken_nil eq_refl eq_refl); by split|]. intros [ok pages] x1 (free1 & T & Hok). cbn [fst snd] in *. destruct ok.
  - destruct (Hok eq_refl) as (Ha & Hlen & Hz). set (argv := strings_of _ pages) in *. destruct (taken_pre _ _ _ T) as [P1 Hroom1]. rewrite (bind_ret _ (kmem_mem (ps_k (x_ps x1))) _ x1) by done. fold argv.
    eapply bind_returns; [apply (kexec_ok x1 own free1 path argv P1 (proj1 Ha) Hlen); congruence|]. intros res x2 Hr.
    eapply bind_returns; [by eapply result_freed|]. intros [] x3 H3. cbn. right. exists path, argv. done.
  - eapply bind_returns; [apply (failed_freed pages x1 free1 x1 T)|intros [] x3 H3; cbn; by left].
    split; [exists free1; apply restored_refl, T|]. split; [apply same_image_refl|]. destruct (tk_state _ _ _ T) as [k1 Ex]. rewrite Ex. split; apply P.
Qed.
End Fetch.

End SysExecClaims.
