(* ===== verification/ExecWitnesses.v ===== *)
(** Concrete instances of the theorems on exec: a file table with locks and
    references, a small ELF program, and a machine on which it is run. *)
From S2P Require Import Prelude Riscv Kalloc Vm Uvm Teardown Image FileLayer Paging PagingOk PagingClaims Machine Kstring Exec ExecOk ExecRun ExecClaims SysExec SysExecClaims.
Open Scope kern_scope.

(** * Files with locks and references *)

Record files := mk_files { fl_bytes : Z -> list Z; fl_held : Z -> bool; fl_refs : Z -> Z; fl_room : bool }.
Definition files_ok (f : files) : Prop := forall j, 0 <= fl_refs f j /\ (fl_held f j = true -> 1 <= fl_refs f j).
Definition on_inode (ip : Z) (b : bool) (d : Z) (f : files) : files :=
  mk_files (fl_bytes f) (upd (fl_held f) ip b) (upd (fl_refs f) ip (fl_refs f ip + d)) (fl_room f).

Definition lf_readi (ip off n : Z) : M files (list Z) := gets (fun f => take (Z.to_nat n) (drop (Z.to_nat off) (fl_bytes f ip))).
Definition lf_writei (ip off : Z) (bs : list Z) : M files Z := fun f =>
  if off <=? Z.of_nat (length (fl_bytes f ip))
  then Ret (Z.of_nat (length bs)) (mk_files (upd (fl_bytes f) ip (splice (Z.to_nat off) bs (fl_bytes f ip))) (fl_held f) (fl_refs f) (fl_room f))
  else Ret (-1) f.

Lemma lf_readi_spec f ip off n : files_ok f -> 0 <= off < 2 ^ 32 -> 0 <= n < 2 ^ 31 ->
  returns (lf_readi ip off n f) (fun bs f' => files_ok f' /\ (forall j, fl_bytes f' j = fl_bytes f j) /\ bs = take (Z.to_nat n) (drop (Z.to_nat off) (fl_bytes f ip))).
Proof. done. Qed.
Lemma lf_writei_spec f ip off bs : files_ok f -> 0 <= off <= Z.of_nat (length (fl_bytes f ip)) ->
  returns (lf_writei ip off bs f) (fun r f' => files_ok f' /\ (forall j, j <> ip -> fl_bytes f' j = fl_bytes f j) /\
    (r = Z.of_nat (length bs) -> fl_bytes f' ip = splice (Z.to_nat off) bs (fl_bytes f ip))).
Proof.
  intros Hf [_ Ho]. unfold lf_writei. rewrite (proj2 (Z.leb_le _ _) Ho). cbn. split; [exact Hf|]. split; [intros j Hj; by apply upd_ne|intros _; apply upd_eq].
Qed.

#[local] Instance table_files : FileLayer := {|
  fs := files; fs_ok := files_ok; content := fl_bytes; readi := lf_readi; writei := lf_writei; readi_spec := lf_readi_spec; writei_spec := lf_writei_spec |}.

(** The program is "/p"; the swap file is inode 2, the program inode 3. *)
#[local] Instance table_exec : ExecFiles := {|
  begin_op := ret tt; end_op := ret tt;
  create := fun _ f => Ret (Some 2) (on_inode 2 true 1 f);
  filealloc := fun f => Ret (fl_room f) (mk_files (fl_bytes f) (fl_held f) (fl_refs f) false);
  namei := fun path f => if bool_decide (path = [47; 112]) then Ret (Some 3) (on_inode 3 (fl_held f 3) 1 f) else Ret None f;
  ilock := fun ip f => if fl_held f ip then Panic "acquiresleep" f else Ret tt (on_inode ip true 0 f);
  iunlock := fun ip f => if fl_held f ip then Ret tt (on_inode ip false 0 f) else Panic "iunlock" f;
  iunlockput := fun ip f => if fl_held f ip then Ret tt (on_inode ip false (-1) f) else Panic "iunlock" f;
  idup := fun ip f => Ret tt (on_inode ip (fl_held f ip) 1 f);
  held := fl_held; refs := fl_refs; room := fl_room |}.

Lemma on_inode_ok ip b d f : files_ok f -> 0 <= fl_refs f ip + d -> (b = true -> 1 <= fl_refs f ip + d) -> fs_inode ip b d f (on_inode ip b d f).
Proof.
  intros Hf H0 H1. split; [|split; [done|split; [done|]]].
  - intros j. cbn. unfold upd. destruct (Z.eqb_spec j ip); [done|apply Hf].
  - split; intros j; cbn; unfold upd; by destruct (Z.eqb_spec j ip).
Qed.

#[local] Instance table_exec_ok : ExecFilesOk.
Proof.
  constructor.
  - intros f j Hf. apply Hf.
  - intros f Hf. by apply fs_same_refl.
  - intros f Hf. by apply fs_same_refl.
  - intros path f Hf. cbn. split; [|by left]. pose proof (Hf 2). apply on_inode_ok; [done|lia|lia].
  - intros f Hf. cbn. split_and!; try done.
  - intros path f Hf. cbn. case_bool_decide; cbn; [|by apply fs_same_refl]. split; [|done]. pose proof (Hf 3). apply on_inode_ok; [done|lia|lia].
  - intros ip f Hf Hr Hh. cbn in *. rewrite Hh. cbn. split; [|done]. apply on_inode_ok; [done|lia|lia].
  - intros ip f Hf Hh. cbn in *. rewrite Hh. cbn. split; [|done]. pose proof (Hf ip). apply on_inode_ok; [done|lia|done].
  - intros ip f Hf Hh. cbn in *. rewrite Hh. cbn. split; [|by left]. destruct (Hf ip) as [_ H1]. apply on_inode_ok; [done|specialize (H1 Hh); lia|done].
  - intros ip f Hf Hh. cbn in *. rewrite Hh. by exists f.
  - intros ip f Hf. cbn. split; [|done]. pose proof (Hf ip). apply on_inode_ok; [done|lia|lia].
  - intros ip off n f bs f' Hf. cbn. by intros [= _ <-].
Qed.

(** * A machine with twenty free pages *)

Definition frees : list Z := (fun i => pg (5 + i)) <$> below 20.
Definition chained (l : list Z) (m : mem) : mem := foldr (fun pq m => store64 m (fst pq) (snd pq)) m (zip l (tl l)).
Definition exec_mem : mem :=
  let m := store64 (fun _ => 0) (pg 0) (Z.lor (PA2PTE (pg 2)) PTE_V) in
  let m := store64 m (pg 2) (Z.lor (PA2PTE (pg 3)) PTE_V) in
  let m := store64 m (pg 3) (mk_pte (pg 4) (Z.lor PTE_R PTE_U)) in
  chained frees m.
Definition exec_kmem : kmem := mk_kmem exec_mem (pg 5).

Lemma exec_kmem_inv : vm_inv exec_kmem demo_own frees.
Proof. apply vm_invb_sound. vm_compute. reflexivity. Qed.
Lemma exec_kmem_upt : user_pt (kmem_mem exec_kmem) demo_own (pg 0).
Proof. eapply user_ptb_sound; [apply exec_kmem_inv|]. vm_compute. reflexivity. Qed.
Lemma demo_rooted : rooted demo_own.
Proof.
  intros q r v Hq. apply own_of_elem, list_elem_of_In in Hq. cbn in Hq. destruct Hq as [Hq|[Hq|[Hq|[Hq|[Hq|[]]]]]]; try discriminate. injection Hq as <- <- <-. vm_compute. reflexivity.
Qed.

(** An ELF header, one program header for a page of text, four bytes of it. *)
Definition program : list Z :=
  [127; 69; 76; 70] ++ replicate 20 0 ++ [16] ++ replicate 7 0 ++ [64] ++ replicate 23 0 ++ [1] ++ replicate 7 0 ++
  [1; 0; 0; 0; 5; 0; 0; 0; 120] ++ replicate 23 0 ++ [4; 0; 0; 0; 0; 0; 0; 0; 0; 16] ++ replicate 14 0 ++ [19; 0; 0; 0].
Definition exec_files (room : bool) : files := mk_files (fun j => if j =? 3 then program else []) (fun _ => false) (fun _ => 0) room.
Definition exec_demo (room : bool) : xstate := mk_xs (mk_ps exec_kmem demo_proc (exec_files room) []) (mk_im [] [] 0 0 0 0 0 (pg 30) 0 0) [].

Lemma program_fits : exec_fits program.
Proof.
  intros _. split_and!; [vm_compute; congruence|vm_compute; congruence|vm_compute; congruence|vm_compute; congruence|]. intros i Hi _.
  change (elf_phnum (take (Z.to_nat sizeof_elfhdr) program)) with 1 in Hi. assert (i = 0) as -> by lia. vm_compute. split_and!; congruence.
Qed.

Lemma exec_files_fit b j : exec_fits (content (exec_files b) j).
Proof. cbn. destruct (j =? 3); [apply program_fits|by intros ?]. Qed.

Lemma exec_demo_pre b : exec_pre (exec_demo b) demo_own frees.
Proof.
  constructor; cbn [x_ps ps_k ps_p ps_fs exec_demo x_im].
  - apply exec_kmem_inv.
  - apply demo_rooted.
  - apply exec_kmem_upt.
  - vm_compute. split; congruence.
  - intros va Hva Hv. cbn [p_pagetable p_sz demo_proc] in *. pose proof (upt_map _ _ _ exec_kmem_upt va Hva Hv) as Hf. apply own_of_elem, list_elem_of_In in Hf.
    assert (Hall : forallb (fun '(_, u) => match u with Frame r v => negb (r =? pg 0) || (v =? 0) | _ => true end) demo_uses = true) by (vm_compute; reflexivity).
    rewrite forallb_forall in Hall. apply Hall in Hf. rewrite Z.eqb_refl in Hf. apply Z.eqb_eq in Hf. change (PGROUNDUP (3 * PGSIZE)) with 12288. unfold vpn, PGSIZE in *. zlia.
  - vm_compute. split; congruence.
  - by intros j.
  - done.
  - apply exec_files_fit.
Qed.


Lemma kexec_full_table_panics_witness : panics "iunlock" (kexec [47; 112] [[104; 105]] (exec_demo false)).
Proof. apply (kexec_full_table_panics (exec_demo false) demo_own frees); [apply exec_demo_pre|reflexivity|]. intros f _. done. Defined.

(** * From the system call on *)

(** User page 0 holds "/p" at 16, "hi" at 24 and the array of arguments at 32. *)
Definition args_mem : mem := blit (blit (blit exec_mem (pg 4 + 16) [47; 112; 0]) (pg 4 + 24) [104; 105; 0]) (pg 4 + 32) ([24] ++ replicate 15 0).
Definition args_kmem : kmem := mk_kmem args_mem (pg 5).
Definition args_demo : xstate := mk_xs (mk_ps args_kmem demo_proc (exec_files true) []) (mk_im [] [] 0 0 0 0 0 (pg 30) 0 0) [].

Lemma store_bytes n m a v : (forall x, 0 <= m x < 256) -> forall x, 0 <= store n m a v x < 256.
Proof. intros Hm x. unfold store. destruct (_ && _); [apply Z.mod_pos_bound; done|apply Hm]. Qed.
Lemma blit_bytes m a bs : Forall (fun b => 0 <= b < 256) bs -> (forall x, 0 <= m x < 256) -> forall x, 0 <= blit m a bs x < 256.
Proof.
  intros Hb Hm x. unfold blit. destruct (_ && _); [|apply Hm]. destruct (bs !! _) eqn:E; cbn; [|done]. rewrite Forall_lookup in Hb. by eapply Hb.
Qed.
Lemma chained_bytes l m : (forall x, 0 <= m x < 256) -> forall x, 0 <= chained l m x < 256.
Proof. intros Hm. unfold chained. induction (zip l (tl l)) as [|[a b] z IH]; [done|]. cbn. by apply store_bytes. Qed.

Lemma args_bytes a : 0 <= args_mem a < 256.
Proof.
  revert a. assert (H1 : Forall (fun b => 0 <= b < 256) [47; 112; 0]) by (apply (bool_decide_unpack _); vm_compute; exact I). assert (H2 : Forall (fun b => 0 <= b < 256) [104; 105; 0]) by (apply (bool_decide_unpack _); vm_compute; exact I).
  assert (H3 : Forall (fun b => 0 <= b < 256) ([24] ++ replicate 15 0)) by (apply (bool_decide_unpack _); vm_compute; exact I).
  apply blit_bytes; [done|]. apply blit_bytes; [done|]. apply blit_bytes; [done|]. apply chained_bytes. do 3 apply store_bytes. done.
Qed.

Lemma args_inv : vm_inv args_kmem demo_own frees.
Proof. apply vm_invb_sound. vm_compute. reflexivity. Qed.
Lemma args_upt : user_pt (kmem_mem args_kmem) demo_own (pg 0).
Proof. eapply user_ptb_sound; [apply args_inv|]. vm_compute. reflexivity. Qed.

Lemma args_demo_pre : exec_pre args_demo demo_own frees.
Proof.
  constructor; cbn [x_ps ps_k ps_p ps_fs args_demo x_im].
  - apply args_inv.
  - apply demo_rooted.
  - apply args_upt.
  - vm_compute. split; congruence.
  - intros va Hva Hv. cbn [p_pagetable p_sz demo_proc] in *. pose proof (upt_map _ _ _ args_upt va Hva Hv) as Hf. apply own_of_elem, list_elem_of_In in Hf.
    assert (Hall : forallb (fun '(_, u) => match u with Frame r v => negb (r =? pg 0) || (v =? 0) | _ => true end) demo_uses = true) by (vm_compute; reflexivity).
    rewrite forallb_forall in Hall. apply Hall in Hf. rewrite Z.eqb_refl in Hf. apply Z.eqb_eq in Hf. change (PGROUNDUP (3 * PGSIZE)) with 12288. unfold vpn, PGSIZE in *. zlia.
  - vm_compute. split; congruence.
  - by intros j.
  - done.
  - apply exec_files_fit.
Qed.

