(* ===== verification/Pipe.v ===== *)
(** The pipe of [kernel/pipe.c]: a ring of [PIPESIZE] bytes addressed by two
    free-running 32-bit counters, shared by processes that sleep when it is
    full or empty. *)
From S2P Require Import Prelude.

Definition PIPESIZE : Z := 512.

(** * Data and operations *)

Record pipe := mk_pipe {
  p_data : Z -> Z;
  p_nread : Z;
  p_nwrite : Z;
  p_readopen : bool;
  p_writeopen : bool
}.

Definition set_data d pi := mk_pipe d (p_nread pi) (p_nwrite pi) (p_readopen pi) (p_writeopen pi).
Definition set_nread n pi := mk_pipe (p_data pi) n (p_nwrite pi) (p_readopen pi) (p_writeopen pi).
Definition set_nwrite n pi := mk_pipe (p_data pi) (p_nread pi) n (p_readopen pi) (p_writeopen pi).

(** The fields that [pipealloc] sets in its page. *)
Definition pipe_init (page : Z -> Z) : pipe := mk_pipe page 0 0 true true.

(** [pipeclose]: the pipe, and whether its page is freed. *)
Definition pipeclose (pi : pipe) (writable : bool) : pipe * bool :=
  let pi := if writable then mk_pipe (p_data pi) (p_nread pi) (p_nwrite pi) (p_readopen pi) false
            else mk_pipe (p_data pi) (p_nread pi) (p_nwrite pi) false (p_writeopen pi) in
  (pi, negb (p_readopen pi) && negb (p_writeopen pi)).

(** The caller's memory: a byte or a fault per address for [copyin], and
    whether [copyout] to an address succeeds. *)
Record umem := mk_umem { u_in : Z -> option Z; u_out : Z -> bool }.

(** A call holds the lock until it returns or sleeps: one turn either returns a
    value or goes to sleep at iteration [i], to continue there when woken. *)
Inductive turn := Done (r : Z) | Sleep (i : Z).

(** The loop of [pipewrite] from iteration [i]. *)
Fixpoint pipewrite_loop (k : nat) (u : umem) (killed : bool) (addr i : Z) (pi : pipe) : turn * pipe :=
  match k with
  | O => (Done i, pi)
  | S k' =>
      if negb (p_readopen pi) || killed then (Done (-1), pi)
      else if p_nwrite pi =? u32 (p_nread pi + PIPESIZE) then (Sleep i, pi)
      else match u_in u (addr + i) with
      | None => (Done i, pi)
      | Some ch =>
          let pi := set_data (upd (p_data pi) (p_nwrite pi mod PIPESIZE) ch) pi in
          let pi := set_nwrite (u32 (p_nwrite pi + 1)) pi in
          pipewrite_loop k' u killed addr (i + 1) pi
      end
  end.

Definition pipewrite (u : umem) (killed : bool) (addr n i : Z) (pi : pipe) : turn * pipe :=
  pipewrite_loop (Z.to_nat (n - i)) u killed addr i pi.

(** The copy loop of [piperead]: result, the bytes put in the caller's memory,
    the pipe. *)
Fixpoint piperead_loop (k : nat) (u : umem) (addr i : Z) (pi : pipe) : Z * list Z * pipe :=
  match k with
  | O => (i, [], pi)
  | S k' =>
      if p_nread pi =? p_nwrite pi then (i, [], pi)
      else
        let ch := p_data pi (p_nread pi mod PIPESIZE) in
        if u_out u (addr + i) then
          let '(r, out, pi') := piperead_loop k' u addr (i + 1) (set_nread (u32 (p_nread pi + 1)) pi) in
          (r, ch :: out, pi')
        else ((if i =? 0 then -1 else i), [], pi)
  end.

Definition piperead (u : umem) (killed : bool) (addr n : Z) (pi : pipe) : turn * list Z * pipe :=
  if (p_nread pi =? p_nwrite pi) && p_writeopen pi then
    if killed then (Done (-1), [], pi) else (Sleep 0, [], pi)
  else
    let '(r, out, pi') := piperead_loop (Z.to_nat n) u addr 0 pi in (Done r, out, pi').

(** * The bytes in the pipe *)

Definition fill_level (pi : pipe) : Z := u32 (p_nwrite pi - p_nread pi).

Definition pending (pi : pipe) : list Z :=
  (fun k => p_data pi ((p_nread pi + k) mod PIPESIZE)) <$> seqZ 0 (fill_level pi).

Record pipe_wf (pi : pipe) : Prop := {
  pw_read : 0 <= p_nread pi < 2 ^ 32;
  pw_write : 0 <= p_nwrite pi < 2 ^ 32;
  pw_fill : fill_level pi <= PIPESIZE
}.

Lemma fill_nonneg pi : 0 <= fill_level pi.
Proof. apply u32_range. Qed.

Lemma length_pending pi : Z.of_nat (length (pending pi)) = fill_level pi.
Proof. unfold pending. rewrite length_fmap, length_seqZ. pose proof (fill_nonneg pi). lia. Qed.

Lemma empty_iff pi : pipe_wf pi -> p_nread pi = p_nwrite pi <-> fill_level pi = 0.
Proof.
  intros [Hr Hw _]. unfold fill_level, u32. split; [intros ->; by rewrite Z.sub_diag|]. intros H0.
  apply Z.mod_divide in H0; [|done]. destruct H0 as [q Hq]. nia.
Qed.

Lemma full_iff pi : pipe_wf pi -> p_nwrite pi = u32 (p_nread pi + PIPESIZE) <-> fill_level pi = PIPESIZE.
Proof.
  intros [Hr Hw _]. unfold fill_level, u32, PIPESIZE. split.
  - intros ->. rewrite Zminus_mod_idemp_l. replace (p_nread pi + 512 - p_nread pi) with 512 by lia. done.
  - intros Hf. pose proof (Z.div_mod (p_nwrite pi - p_nread pi) (2 ^ 32) ltac:(lia)) as Hd. rewrite Hf in Hd.
    replace (p_nread pi + 512) with (p_nwrite pi + (- ((p_nwrite pi - p_nread pi) / 2 ^ 32)) * 2 ^ 32) by lia.
    rewrite Z.mod_add by lia. by rewrite Z.mod_small by lia.
Qed.

(** The ring index of a counter does not see the counter wrap around. *)
Lemma ring_index x : u32 x mod PIPESIZE = x mod PIPESIZE.
Proof.
  unfold u32, PIPESIZE. apply Z.mod_mod_divide. by exists (2 ^ 23).
Qed.

Lemma put_ok pi ch : pipe_wf pi -> fill_level pi < PIPESIZE ->
  let pi' := set_nwrite (u32 (p_nwrite pi + 1)) (set_data (upd (p_data pi) (p_nwrite pi mod PIPESIZE) ch) pi) in
  pipe_wf pi' /\ pending pi' = pending pi ++ [ch].
Proof.
  intros Hwf Hlt pi'. pose proof (fill_nonneg pi) as Hnn.
  assert (Hf : fill_level pi' = fill_level pi + 1).
  { unfold fill_level, pi'. cbn. unfold u32. rewrite Zminus_mod_idemp_l.
    replace (p_nwrite pi + 1 - p_nread pi) with (p_nwrite pi - p_nread pi + 1) by lia.
    rewrite <- Zplus_mod_idemp_l. fold (u32 (p_nwrite pi - p_nread pi)). fold (fill_level pi).
    apply Z.mod_small. unfold PIPESIZE in *. lia. }
  split.
  - split; [apply Hwf|apply u32_range|lia].
  - unfold pending. rewrite Hf, seqZ_snoc, fmap_app by done. cbn [fmap list_fmap]. unfold pi'. cbn [set_nwrite set_data p_data p_nread].
    assert (Hend : (p_nread pi + fill_level pi) mod PIPESIZE = p_nwrite pi mod PIPESIZE).
    { unfold fill_level. rewrite <- Zplus_mod_idemp_r, ring_index, Zplus_mod_idemp_r. f_equal. lia. }
    rewrite Z.add_0_l, Hend, upd_eq. f_equal. apply list_fmap_ext. intros k i Hi.
    apply list_elem_of_lookup_2, elem_of_seqZ in Hi. apply upd_ne. rewrite <- Hend. intros He.
    assert (Hz : (fill_level pi - i) mod PIPESIZE = 0).
    { replace (fill_level pi - i) with (p_nread pi + fill_level pi - (p_nread pi + i)) by lia.
      rewrite Zminus_mod, He, Z.sub_diag. done. }
    rewrite Z.mod_small in Hz; lia.
Qed.

Lemma take_ok pi : pipe_wf pi -> 0 < fill_level pi ->
  let pi' := set_nread (u32 (p_nread pi + 1)) pi in
  pipe_wf pi' /\ pending pi = p_data pi (p_nread pi mod PIPESIZE) :: pending pi'.
Proof.
  intros Hwf Hlt pi'.
  assert (Hf : fill_level pi' = fill_level pi - 1).
  { unfold fill_level, pi'. cbn. unfold u32. rewrite Zminus_mod_idemp_r.
    replace (p_nwrite pi - (p_nread pi + 1)) with (p_nwrite pi - p_nread pi - 1) by lia.
    rewrite <- Zminus_mod_idemp_l. fold (u32 (p_nwrite pi - p_nread pi)). fold (fill_level pi).
    pose proof (u32_range (p_nwrite pi - p_nread pi)) as Hb. fold (fill_level pi) in Hb. apply Z.mod_small. lia. }
  pose proof (pw_fill _ Hwf). split.
  - split; [apply u32_range|apply Hwf|lia].
  - unfold pending. rewrite Hf. rewrite (seqZ_cons 0 (fill_level pi)) by lia. cbn [fmap list_fmap]. rewrite Z.add_0_r. f_equal.
    replace (Z.pred (fill_level pi)) with (fill_level pi - 1) by lia.
    change (Z.succ 0) with (0 + 1). rewrite <- (fmap_add_seqZ 1 0), <- list_fmap_compose.
    apply list_fmap_ext. intros k i _. unfold pi'. cbn. f_equal.
    rewrite <- (Zplus_mod_idemp_l (u32 _)), ring_index, Zplus_mod_idemp_l. f_equal. lia.
Qed.

(** * Turns *)

Definition same_ends (pi pi' : pipe) : Prop := p_readopen pi' = p_readopen pi /\ p_writeopen pi' = p_writeopen pi.

(** The bytes [bs] are the caller's at [addr]. *)
Definition user_bytes (u : umem) (addr : Z) (bs : list Z) : Prop :=
  forall k c, bs !! k = Some c -> u_in u (addr + Z.of_nat k) = Some c.

Lemma pipewrite_loop_ok k u killed addr i pi : pipe_wf pi ->
  let '(t, pi') := pipewrite_loop k u killed addr i pi in
  exists bs, pipe_wf pi' /\ pending pi' = pending pi ++ bs /\ user_bytes u (addr + i) bs /\ same_ends pi pi' /\
    (length bs <= k)%nat /\
    match t with
    | Sleep j => j = i + Z.of_nat (length bs) /\ (length bs < k)%nat /\ fill_level pi' = PIPESIZE /\
        p_readopen pi' = true /\ killed = false
    | Done r => r = -1 /\ (p_readopen pi = false \/ killed = true) /\ bs = [] \/
        r = i + Z.of_nat (length bs) /\ (length bs = k \/ u_in u (addr + r) = None)
    end.
Proof.
  revert i pi. induction k as [|k IH]; intros i pi Hwf; cbn [pipewrite_loop].
  - exists []. rewrite app_nil_r. split_and!; try done. right. cbn. split; [lia|by left].
  - destruct (negb (p_readopen pi) || killed) eqn:Hgone.
    { exists []. rewrite app_nil_r. split_and!; try done; [cbn; lia|]. left. split_and!; [done| |done].
      apply orb_true_iff in Hgone as [Hg|Hg]; [left; by apply negb_true_iff|by right]. }
    apply orb_false_iff in Hgone as [Hopen Hk]. apply negb_false_iff in Hopen.
    destruct (Z.eqb_spec (p_nwrite pi) (u32 (p_nread pi + PIPESIZE))) as [Hfull|Hroom].
    { exists []. rewrite app_nil_r. apply full_iff in Hfull; [|done]. split_and!; try done; cbn; lia. }
    destruct (u_in u (addr + i)) as [ch|] eqn:Hch.
    2: { exists []. rewrite app_nil_r. split_and!; try done; [cbn; lia|]. right. cbn. rewrite Z.add_0_r. auto. }
    pose proof (pw_fill _ Hwf) as Hfl.
    destruct (put_ok pi ch Hwf) as [Hwf' Hp'].
    { destruct (Z.eq_dec (fill_level pi) PIPESIZE) as [He|]; [|lia]. by apply full_iff in He. }
    cbn zeta in *. set (pi1 := set_nwrite _ _) in *. specialize (IH (i + 1) pi1 Hwf').
    change (set_nwrite _ _) with pi1 in IH |- *.
    destruct (pipewrite_loop k u killed addr (i + 1) pi1) as [t pi'].
    destruct IH as (bs & Hw & Hp & Hu & Hs & Hle & Ht). exists (ch :: bs). split_and!.
    + done.
    + rewrite Hp, Hp', <- app_assoc. done.
    + intros [|x] c; cbn; [intros [= <-]; by rewrite Z.add_0_r|]. intros Hx. rewrite <- (Hu x c Hx). f_equal. lia.
    + apply Hs.
    + cbn. lia.
    + destruct t as [r|j].
      * destruct Ht as [(-> & Hor & _)|(-> & Hor)].
        -- destruct Hor as [Hor|Hor]; [|congruence]. cbn in Hor. congruence.
        -- right. cbn [length]. split; [lia|]. destruct Hor as [->|Hn]; [by left|by right].
      * destruct Ht as (-> & ? & ? & ? & ?). cbn [length]. split_and!; try done; lia.
Qed.

Lemma piperead_loop_ok k u addr i pi : pipe_wf pi -> 0 <= i ->
  let '(r, out, pi') := piperead_loop k u addr i pi in
  pipe_wf pi' /\ pending pi = out ++ pending pi' /\ same_ends pi pi' /\ (length out <= k)%nat /\
  (r = i + Z.of_nat (length out) /\
     (length out = k \/ pending pi' = [] \/ r <> 0 /\ u_out u (addr + r) = false) \/
   r = -1 /\ i = 0 /\ out = [] /\ u_out u addr = false).
Proof.
  revert i pi. induction k as [|k IH]; intros i pi Hwf Hi; cbn [piperead_loop].
  - split_and!; try done. left. cbn. split; [lia|by left].
  - destruct (Z.eqb_spec (p_nread pi) (p_nwrite pi)) as [He|Hne].
    { apply empty_iff in He; [|done]. split_and!; try done; [cbn; lia|]. left. cbn. split; [lia|]. right. left.
      unfold pending. by rewrite He. }
    destruct (u_out u (addr + i)) eqn:Hout.
    2: { split_and!; try done; [cbn; lia|]. destruct (Z.eqb_spec i 0) as [->|].
      - right. rewrite Z.add_0_r in Hout. done.
      - left. cbn. rewrite Z.add_0_r. auto. }
    pose proof (fill_nonneg pi).
    destruct (take_ok pi Hwf) as [Hwf' Hp'].
    { destruct (Z.eq_dec (fill_level pi) 0) as [H0|]; [|lia]. by apply empty_iff in H0. }
    cbn zeta in *. set (pi1 := set_nread _ pi) in *. specialize (IH (i + 1) pi1 Hwf' ltac:(lia)).
    destruct (piperead_loop k u addr (i + 1) pi1) as [[r out] pi']. destruct IH as (Hw & Hp & Hs & Hle & Hr). split_and!.
    + done.
    + rewrite Hp', Hp. done.
    + apply Hs.
    + cbn. lia.
    + left. cbn [length]. destruct Hr as [[-> Hor]|(_ & ? & _)]; [|lia]. split; [lia|].
      destruct Hor as [->|[?|[? Hu]]]; auto.
Qed.

(** * Processes sharing a pipe *)

(** The pipe with all the bytes its writers have given it and all the bytes
    its readers have received, in the order of the turns. *)
Record stream := mk_stream { st_pipe : pipe; st_in : list Z; st_out : list Z }.

(** The bytes of a writing turn that began at iteration [i]: those at the
    iterations it completed. *)
Definition turn_bytes (u : umem) (addr i : Z) (pi pi' : pipe) : list Z :=
  (fun k => default 0 (u_in u (addr + i + k))) <$> seqZ 0 (u32 (p_nwrite pi' - p_nwrite pi)).

Inductive stream_step : stream -> stream -> Prop :=
| step_write pi pi' inp out u killed addr n i t : pipewrite u killed addr n i pi = (t, pi') ->
    stream_step (mk_stream pi inp out) (mk_stream pi' (inp ++ turn_bytes u addr i pi pi') out)
| step_read pi pi' inp out u killed addr n t bs : piperead u killed addr n pi = (t, bs, pi') ->
    stream_step (mk_stream pi inp out) (mk_stream pi' inp (out ++ bs))
| step_close pi inp out w : stream_step (mk_stream pi inp out) (mk_stream (fst (pipeclose pi w)) inp out).

(** The bytes counted by a writing turn are the ones it put in the pipe. *)
Lemma turn_bytes_eq u addr i pi pi' bs : pipe_wf pi -> pipe_wf pi' -> p_nread pi' = p_nread pi ->
  pending pi' = pending pi ++ bs -> user_bytes u (addr + i) bs -> turn_bytes u addr i pi pi' = bs.
Proof.
  intros Hwf Hwf' Hr Hp Hu.
  assert (Hn : u32 (p_nwrite pi' - p_nwrite pi) = Z.of_nat (length bs)).
  { pose proof (f_equal length Hp) as Hl. rewrite length_app in Hl.
    pose proof (length_pending pi) as H1. pose proof (length_pending pi') as H2.
    pose proof (pw_fill _ Hwf'). unfold fill_level, PIPESIZE in *. rewrite Hr in *.
    replace (p_nwrite pi' - p_nwrite pi) with ((p_nwrite pi' - p_nread pi) - (p_nwrite pi - p_nread pi)) by lia.
    unfold u32 in *. rewrite Zminus_mod, <- H1, <- H2. rewrite Z.mod_small; lia. }
  unfold turn_bytes. rewrite Hn. apply list_eq. intros k. rewrite list_lookup_fmap.
  destruct (bs !! k) as [c|] eqn:Hk.
  - pose proof (lookup_lt_Some _ _ _ Hk). rewrite lookup_seqZ_lt by lia. cbn. rewrite Z.add_0_l, (Hu k c Hk). done.
  - rewrite lookup_seqZ_ge; [done|]. apply lookup_ge_None in Hk. lia.
Qed.

Lemma pipewrite_loop_nread k u killed addr i pi : p_nread (snd (pipewrite_loop k u killed addr i pi)) = p_nread pi.
Proof.
  revert i pi. induction k as [|k IH]; intros i pi; cbn [pipewrite_loop]; [done|].
  destruct (_ || _); [done|]. destruct (_ =? _); [done|]. destruct (u_in _ _); [|done]. rewrite IH. done.
Qed.

Definition stream_ok (s : stream) : Prop := pipe_wf (st_pipe s) /\ st_in s = st_out s ++ pending (st_pipe s).

Lemma stream_step_ok s s' : stream_ok s -> stream_step s s' -> stream_ok s'.
Proof.
  intros [Hwf He] Hs. destruct Hs as [pi pi' inp out u killed addr n i t Ht|pi pi' inp out u killed addr n t bs Ht|pi inp out w]; cbn in *.
  - pose proof (pipewrite_loop_ok (Z.to_nat (n - i)) u killed addr i pi Hwf) as Hl.
    pose proof (pipewrite_loop_nread (Z.to_nat (n - i)) u killed addr i pi) as Hr.
    unfold pipewrite in Ht. rewrite Ht in Hl, Hr. destruct Hl as (bs & Hwf' & Hp & Hu & _). split; [done|]. cbn.
    rewrite (turn_bytes_eq u addr i pi pi' bs) by done. by rewrite He, Hp, app_assoc.
  - unfold piperead in Ht. destruct (_ && _).
    + destruct killed; injection Ht as <- <- <-; split; cbn; rewrite ?app_nil_r; done.
    + pose proof (piperead_loop_ok (Z.to_nat n) u addr 0 pi Hwf ltac:(done)) as Hl.
      destruct (piperead_loop _ _ _ _ _) as [[r o] p']. injection Ht as <- <- <-. destruct Hl as (Hwf' & Hp & _).
      split; [done|]. cbn. by rewrite He, Hp, app_assoc.
  - destruct w; (split; [destruct Hwf; by split|exact He]).
Qed.

(** C26: A pipe is a reliable byte stream.  In any interleaving of the turns of
    any number of writing, reading and closing processes on a new pipe, with
    any faults in their memory, the bytes received are exactly the first ones
    of those accepted, in order: what was accepted is what was received
    followed by the at most [PIPESIZE] bytes in the ring, also after the 32-bit
    counters wrap around. *)
Theorem pipe_is_byte_stream (page : Z -> Z) (s : stream)
    (Hs : star stream_step (mk_stream (pipe_init page) [] []) s) :
  st_in s = st_out s ++ pending (st_pipe s) /\ Z.of_nat (length (pending (st_pipe s))) <= PIPESIZE.
Proof.
  assert (Hok : stream_ok s).
  { revert Hs. apply (star_invariant _ stream_ok); [apply stream_step_ok|]. done. }
  destruct Hok as [Hwf He]. split; [done|]. rewrite length_pending. apply Hwf.
Qed.

(** The turns of [pipewrite] and [piperead].  From a well-formed pipe a
    writing turn ends; it sleeps only with the ring full and a reader left,
    returns -1 only if no reader is left or the process was killed, and
    otherwise returns having written everything up to [n] or to the first fault
    of the caller's memory.  A reading turn ends; it sleeps only with the ring
    empty and a writer left, returns 0 only for end of file or an empty
    request, and otherwise returns the number of bytes delivered. *)
Theorem pipe_turns (pi : pipe) (u : umem) (killed : bool) (addr n i : Z)
    (Hwf : pipe_wf pi) (Hi : 0 <= i <= n) :
  (let '(t, pi') := pipewrite u killed addr n i pi in pipe_wf pi' /\
    match t with
    | Sleep j => i <= j < n /\ fill_level pi' = PIPESIZE /\ p_readopen pi' = true /\ killed = false
    | Done r => r = -1 /\ pending pi' = pending pi /\ (p_readopen pi = false \/ killed = true) \/
        i <= r <= n /\ (r = n \/ u_in u (addr + r) = None)
    end) /\
  (let '(t, out, pi') := piperead u killed addr n pi in pipe_wf pi' /\ pending pi = out ++ pending pi' /\
    match t with
    | Sleep _ => out = [] /\ pending pi = [] /\ p_writeopen pi = true /\ killed = false
    | Done r => r = -1 /\ out = [] /\ (killed = true \/ u_out u addr = false) \/
        r = Z.of_nat (length out) /\ (r = 0 -> n = 0 \/ pending pi = [] /\ p_writeopen pi = false)
    end).
Proof.
  split.
  - pose proof (pipewrite_loop_ok (Z.to_nat (n - i)) u killed addr i pi Hwf) as Hl. unfold pipewrite.
    destruct (pipewrite_loop _ _ _ _ _ _) as [t pi']. destruct Hl as (bs & Hw & Hp & _ & _ & Hle & Ht). split; [done|].
    destruct t as [r|j].
    + destruct Ht as [(-> & Hor & ->)|(-> & Hor)]; [left; by rewrite Hp, app_nil_r|right]. split; [lia|].
      destruct Hor as [->|?]; [left; lia|by right].
    + destruct Ht as (-> & ? & ? & ? & ?). split_and!; try done; lia.
  - unfold piperead. destruct (Z.eqb_spec (p_nread pi) (p_nwrite pi)) as [He|He]; cbn [andb].
    + assert (Hemp : pending pi = []) by (apply empty_iff in He; [|done]; unfold pending; by rewrite He).
      destruct (p_writeopen pi) eqn:Hwo.
      * destruct killed; split_and!; try done. left. auto.
      * destruct (Z.to_nat n) as [|k] eqn:Hn; cbn [piperead_loop].
        -- split_and!; try done. right. split; [done|]. auto.
        -- rewrite (proj2 (Z.eqb_eq _ _) He). split_and!; try done. right. split; [done|]. auto.
    + pose proof (piperead_loop_ok (Z.to_nat n) u addr 0 pi Hwf ltac:(done)) as Hl.
      destruct (piperead_loop _ _ _ _ _) as [[r o] p']. destruct Hl as (Hwf' & Hp & _ & Hle & Hr). split_and!; [done..|].
      destruct Hr as [[-> Hor]|(-> & _ & -> & ?)]; [|left; auto]. 
      destruct o as [|c o]; [|right; split; [done|]; cbn; lia].
      destruct Hor as [H0|[Hp'|[? _]]]; [| |done].
      * right. cbn in *. split; [done|]. intros _. left. lia.
      * exfalso. rewrite Hp' in Hp. cbn in Hp. apply He, empty_iff; [done|]. rewrite <- length_pending, Hp. done.
Qed.

(** * Concrete runs *)

(** Memory readable everywhere and writable except at address 7. *)
Definition demo_umem : umem := mk_umem (fun a => Some (a mod 256)) (fun a => negb (a =? 7)).
Definition demo_pipe : pipe := mk_pipe (fun _ => 0) (2 ^ 32 - 2) (2 ^ 32 - 2) true true.

Lemma pipe_is_byte_stream_witness : exists s,
  star stream_step (mk_stream (pipe_init (fun _ => 0)) [] []) s /\ st_in s = [65; 66; 67] /\ st_out s = [65; 66].
Proof.
  set (p1 := snd (pipewrite demo_umem false 65 3 0 (pipe_init (fun _ => 0)))).
  set (p2 := snd (piperead demo_umem false 100 2 p1)).
  assert (Hst : star stream_step (mk_stream (pipe_init (fun _ => 0)) [] []) (mk_stream p2 [65; 66; 67] [65; 66])).
  { eapply star_next; [|eapply star_one].
    - eapply (step_write _ p1 [] [] demo_umem false 65 3 0 (Done 3)). vm_compute. reflexivity.
    - eapply (step_read p1 p2 _ [] demo_umem false 100 2 (Done 2) [65; 66]). vm_compute. reflexivity. }
  pose proof (pipe_is_byte_stream (fun _ => 0) _ Hst) as [He _].
  exists (mk_stream p2 [65; 66; 67] [65; 66]). split; [exact Hst|]. split; [|reflexivity]. rewrite He. vm_compute. reflexivity.
Defined.

Lemma pipe_turns_witness :
  pipe_wf (snd (pipewrite demo_umem false 65 3 0 demo_pipe)) /\
  pending (snd (pipewrite demo_umem false 65 3 0 demo_pipe)) = [65; 66; 67].
Proof.
  assert (Hwf : pipe_wf demo_pipe) by (split; vm_compute; try split; discriminate || reflexivity).
  destruct (pipe_turns demo_pipe demo_umem false 65 3 0 Hwf ltac:(lia)) as [H1 _].
  split; [|vm_compute; reflexivity]. destruct (pipewrite demo_umem false 65 3 0 demo_pipe) as [t p]. exact (proj1 H1).
Defined.
