(* ===== verification/Sniffer.v ===== *)
(** The packet sniffer ([func.c], [main.c] of Terminal-Packet-Sniffer):
    protocol decoding, hex dumps, the display filter and the store of captured
    packets.  Output is the sequence of conversions that the [printf] calls
    perform; a read outside the captured bytes has no result. *)
From S2P Require Import Prelude.
Local Open Scope string_scope.

(** * Output and packet access *)

(** One piece of output: literal text, a conversion applied to an integer, a
    string argument, or an address formatted by [inet_ntop]. *)
Inductive tok :=
| T (s : string)
| F (fmt : string) (v : Z)
| FS (fmt : string) (s : string)
| Ip4 (bs : list Z)
| Ip6 (bs : list Z)
| Chars (cs : list Z).

(** Code that prints and may read out of bounds. *)
Definition W (A : Type) : Type := option (A * list tok).
Definition wret {A} (a : A) : W A := Some (a, []).
Definition wbind {A B} (m : W A) (k : A -> W B) : W B :=
  match m with
  | None => None
  | Some (a, o1) => match k a with None => None | Some (b, o2) => Some (b, o1 ++ o2) end
  end%list.
Definition out (o : list tok) : W unit := Some (tt, o).
Definition oob {A} : W A := None.

Declare Scope w_scope.
Delimit Scope w_scope with w.
Local Open Scope w_scope.
Notation "'let*' x := m 'in' k" := (wbind m (fun x => k)) (at level 90, x binder, m at next level, k at level 200) : w_scope.
Notation "m ;;; k" := (wbind m (fun _ => k)) (at level 90, k at level 200, right associativity) : w_scope.

(** A packet is its captured bytes; a pointer into it is an offset. *)
Definition rd (p : list Z) (o : Z) : W Z :=
  match p !! Z.to_nat o with Some b => wret b | None => oob end.
(** Fields in network byte order: [ntohs], [ntohl]. *)
Definition rd16 (p : list Z) (o : Z) : W Z := let* a := rd p o in let* b := rd p (o + 1) in wret (a * 256 + b)%Z.
Definition rd32 (p : list Z) (o : Z) : W Z := let* a := rd16 p o in let* b := rd16 p (o + 2) in wret (a * 65536 + b)%Z.
Fixpoint rdn (p : list Z) (o : Z) (n : nat) : W (list Z) :=
  match n with
  | O => wret []
  | S k => let* b := rd p o in let* bs := rdn p (o + 1) k in wret (b :: bs)
  end.

Definition ETHERTYPE_IP : Z := 0x0800.
Definition ETHERTYPE_ARP : Z := 0x0806.
Definition ETHERTYPE_IPV6 : Z := 0x86dd.
Definition IPPROTO_ICMP : Z := 1.
Definition IPPROTO_TCP : Z := 6.
Definition IPPROTO_UDP : Z := 17.
Definition IP_DF : Z := 0x4000.
Definition IP_MF : Z := 0x2000.
Definition ETH_HLEN : Z := 14.
Definition MAX_PACKETS : Z := 10000.

(** * Decoding *)

(** [print_mac_address]. *)
Fixpoint print_mac_loop (k : nat) (p : list Z) (mac i : Z) : W unit :=
  match k with
  | O => wret tt
  | S k' =>
      let* b := rd p (mac + i) in
      out [F "%02x" b] ;;;
      (if (i <? 5)%Z then out [T ":"] else wret tt) ;;;
      print_mac_loop k' p mac (i + 1)
  end.
Definition print_mac_address (p : list Z) (mac : Z) : W unit := print_mac_loop 6 p mac 0.

Definition get_port_name (port : Z) : string :=
  if (port =? 80)%Z then " (HTTP)" else if (port =? 443)%Z then " (HTTPS)" else if (port =? 53)%Z then " (DNS)"
  else if (port =? 21)%Z then " (FTP)" else if (port =? 22)%Z then " (SSH)" else if (port =? 25)%Z then " (SMTP)" else "".

Definition get_app_protocol_name (port : Z) : string :=
  if (port =? 80)%Z then "HTTP" else if (port =? 443)%Z then "HTTPS/TLS" else if (port =? 53)%Z then "DNS" else "Data".

Definition isprint (c : Z) : bool := (32 <=? c)%Z && (c <? 127)%Z.

(** The loop of [handle_payload]; [ascii] holds the characters of the current
    line. *)
Fixpoint payload_loop (k : nat) (p : list Z) (payload len i : Z) (ascii : list Z) : W unit :=
  match k with
  | O => wret tt
  | S k' =>
      (if (i mod 16 =? 0)%Z then out [T "              "] else wret tt) ;;;
      let* b := rd p (payload + i) in
      out [F "%02x " b] ;;;
      let ascii := ((if (i mod 16 =? 0)%Z then [] else ascii) ++ [if isprint b then b else 46])%list in
      if ((i + 1) mod 16 =? 0)%Z || (i =? len - 1)%Z then
        out (replicate (Z.to_nat (16 - (i mod 16 + 1))) (T "   ") ++ [Chars ascii; T "\n"])%list ;;;
        payload_loop k' p payload len (i + 1) ascii
      else payload_loop k' p payload len (i + 1) ascii
  end.

Definition handle_payload (p : list Z) (payload len : Z) : W unit :=
  if (len <=? 0)%Z then wret tt
  else
    let len_to_print := if (64 <? len)%Z then 64 else len in
    out [T "Data (first "; F "%d" len_to_print; T " bytes):\n"] ;;;
    payload_loop (Z.to_nat len_to_print) p payload len_to_print 0 [].

Definition UDP (p : list Z) (o ip_payload_len : Z) : W unit :=
  let* src_port := rd16 p o in
  let* dst_port := rd16 p (o + 2) in
  out [T "UDP HEADER (Layer 4)\n"; T "--------------------\n"] ;;;
  let* ulen := rd16 p (o + 4) in
  let* sum := rd16 p (o + 6) in
  out [T "Src Port: "; F "%d" src_port; FS "%s" (get_port_name src_port); T " | Dst Port: "; F "%d" dst_port;
       FS "%s" (get_port_name dst_port); T " | Length: "; F "%d" ulen; T " | Checksum: 0x"; F "%04X" sum; T "\n"] ;;;
  let payload_len := (ip_payload_len - 8)%Z in
  out [T "L7 (Payload): Identified as "; FS "%s" (get_app_protocol_name dst_port); T " on port "; F "%d" dst_port;
       T " - "; F "%d" payload_len; T " bytes\n"] ;;;
  handle_payload p (o + 8) payload_len.

(** The string [TCP] builds with [strcat], without its last comma and blank. *)
Definition flags_str (fl : Z) : string :=
  let s := (if Z.testbit fl 1 then "SYN, " else "") +:+ (if Z.testbit fl 4 then "ACK, " else "") +:+
           (if Z.testbit fl 0 then "FIN, " else "") +:+ (if Z.testbit fl 2 then "RST, " else "") +:+
           (if Z.testbit fl 3 then "PUSH, " else "") +:+ (if Z.testbit fl 5 then "URG, " else "") in
  if (0 <? String.length s)%nat then String.substring 0 (String.length s - 2) s else s.

Definition TCP (p : list Z) (o ip_payload_len : Z) : W unit :=
  let* src_port := rd16 p o in
  let* dst_port := rd16 p (o + 2) in
  let* b12 := rd p (o + 12) in
  let tcp_header_len := (b12 / 16 * 4)%Z in
  out [T "TCP HEADER (Layer 4)\n"; T "--------------------\n"] ;;;
  let* seq := rd32 p (o + 4) in
  let* ack := rd32 p (o + 8) in
  out [T "Src Port: "; F "%d" src_port; FS "%s" (get_port_name src_port); T " | Dst Port: "; F "%d" dst_port;
       FS "%s" (get_port_name dst_port); T " | Seq: "; F "%u" seq; T " | Ack: "; F "%u" ack; T "\n"] ;;;
  let* fl := rd p (o + 13) in
  let* win := rd16 p (o + 14) in
  let* sum := rd16 p (o + 16) in
  out [T "Flags: ["; FS "%s" (flags_str fl); T "] | Window: "; F "%d" win; T " | Checksum: 0x"; F "%04X" sum;
       T " | Header Length: "; F "%d" tcp_header_len; T " bytes\n"] ;;;
  let payload_len := i32 (ip_payload_len - tcp_header_len) in
  out [T "L7 (Payload): Identified as "; FS "%s" (get_app_protocol_name dst_port); T " on port "; F "%d" dst_port;
       T " - "; F "%d" payload_len; T " bytes\n"] ;;;
  handle_payload p (o + tcp_header_len) payload_len.

Definition bit_flag (v m : Z) : Z := if (Z.land v m =? 0)%Z then 0 else 1.

Definition IPv4 (p : list Z) (o : Z) : W unit :=
  out [T "\nIPv4 HEADER (Layer 3)\n"; T "-----------------------\n"] ;;;
  let* src := rdn p (o + 12) 4 in
  let* dst := rdn p (o + 16) 4 in
  let* proto := rd p (o + 9) in
  out ([T " Src IP: "; Ip4 src; T " | Dst IP: "; Ip4 dst; T " | Protocol: "] ++
    (if (proto =? IPPROTO_TCP)%Z then [T "TCP ("; F "%d" IPPROTO_TCP; T ")"]
     else if (proto =? IPPROTO_UDP)%Z then [T "UDP ("; F "%d" IPPROTO_UDP; T ")"]
     else if (proto =? IPPROTO_ICMP)%Z then [T "ICMP ("; F "%d" IPPROTO_ICMP; T ")"] else []))%list ;;;
  let* ttl := rd p (o + 8) in
  let* id := rd16 p (o + 4) in
  let* len := rd16 p (o + 2) in
  let* b0 := rd p o in
  let ip_header_len := (b0 mod 16 * 4)%Z in
  out [T " | TTL: "; F "%d" ttl; T "\nID: 0x"; F "%04X" id; T " | Total Length: "; F "%d" len; T " | Header Length: ";
       F "%d" ip_header_len; T " bytes | "] ;;;
  let* flags := rd16 p (o + 6) in
  out [T "Flags: DF: "; F "%d" (bit_flag flags IP_DF); T " MF: "; F "%d" (bit_flag flags IP_MF); T "\n"] ;;;
  let ip_payload_len := i32 (len - ip_header_len) in
  if (proto =? IPPROTO_TCP)%Z then TCP p (o + ip_header_len) ip_payload_len
  else if (proto =? IPPROTO_UDP)%Z then UDP p (o + ip_header_len) ip_payload_len
  else wret tt.

Definition IPv6 (p : list Z) (o : Z) : W unit :=
  out [T "\nIPv6 HEADER (Layer 3) \n"; T "-----------------------\n"] ;;;
  let* src := rdn p (o + 8) 16 in
  let* dst := rdn p (o + 24) 16 in
  let* nxt := rd p (o + 6) in
  out ([T " Src IP: "; Ip6 src; T " | Dst IP: "; Ip6 dst; T "\nNext header: "] ++
    (if (nxt =? IPPROTO_TCP)%Z then [T "TCP ("; F "%d" IPPROTO_TCP; T ")"]
     else if (nxt =? IPPROTO_UDP)%Z then [T "UDP ("; F "%d" IPPROTO_UDP; T ")"] else []) ++ [T " | "])%list ;;;
  let* flow := rd32 p o in
  let* hlim := rd p (o + 7) in
  let* plen := rd16 p (o + 4) in
  out [T "Hop Limit: "; F "%d" hlim; T " | Traffic Class: 0x"; F "%02x" (u8 (Z.shiftr flow 20)); T " | Flow Label: 0x";
       F "%05x" (Z.land flow 0xFFFFF); T " | Payload Length: "; F "%d" plen; T "\n"] ;;;
  if (nxt =? IPPROTO_TCP)%Z then TCP p (o + 40) plen
  else if (nxt =? IPPROTO_UDP)%Z then UDP p (o + 40) plen
  else wret tt.

Definition ARP (p : list Z) (o : Z) : W unit :=
  let* spa := rdn p (o + 14) 4 in
  let* tpa := rdn p (o + 24) 4 in
  out [T "\nARP HEADER (Layer 3)\n"; T "--------------------\n"; T "Operation: "] ;;;
  let* op := rd16 p (o + 6) in
  out (if (op =? 1)%Z then [T "Request (1)"] else if (op =? 2)%Z then [T "Reply (2)"]
       else [T "Unknown ("; F "%d" op; T ")"]) ;;;
  out [T " | Sender IP: "; Ip4 spa; T " | Target IP: "; Ip4 tpa; T "\n"; T "Sender MAC: "] ;;;
  print_mac_address p (o + 8) ;;;
  out [T " | Target MAC: "] ;;;
  print_mac_address p (o + 18) ;;;
  out [T "\n"] ;;;
  let* hrd := rd16 p o in
  let* pro := rd16 p (o + 2) in
  let* hln := rd p (o + 4) in
  let* pln := rd p (o + 5) in
  out [T "HW Type: "; F "%d" hrd; T " | Proto Type: 0x"; F "%04x" pro; T " | HW Len: "; F "%d" hln;
       T " | Proto Len: "; F "%d" pln; T "\n"].

(** * The filter and the live display *)

(** What [pckt_handler] finds out about a packet: ARP, TCP or UDP, and the
    ports. *)
Record kind := mk_kind { is_arp : bool; is_tcp : bool; is_udp : bool; k_src : Z; k_dst : Z }.

Definition l4_kind (p : list Z) (proto l4 : Z) : W kind :=
  if (proto =? IPPROTO_TCP)%Z then let* s := rd16 p l4 in let* d := rd16 p (l4 + 2) in wret (mk_kind false true false s d)
  else if (proto =? IPPROTO_UDP)%Z then let* s := rd16 p l4 in let* d := rd16 p (l4 + 2) in wret (mk_kind false false true s d)
  else wret (mk_kind false false false 0 0).

Definition classify (p : list Z) : W kind :=
  let* ether := rd16 p 12 in
  if (ether =? ETHERTYPE_ARP)%Z then wret (mk_kind true false false 0 0)
  else if (ether =? ETHERTYPE_IP)%Z then
    let* b0 := rd p ETH_HLEN in
    let* proto := rd p (ETH_HLEN + 9) in
    l4_kind p proto (ETH_HLEN + b0 mod 16 * 4)
  else if (ether =? ETHERTYPE_IPV6)%Z then
    let* proto := rd p (ETH_HLEN + 6) in
    l4_kind p proto (ETH_HLEN + 40)
  else wret (mk_kind false false false 0 0).

(** [filter] is a C string of characters; the loop of the code looks at
    [filter[0]] six times. *)
Definition filter_bit (filter : list Z) (i : nat) (c : Z) : bool := (default 0 (filter !! i) =? c)%Z.

Fixpoint filter_flag (k : nat) (filter : list Z) (flag : bool) : bool :=
  match k with
  | O => flag
  | S k' => filter_flag k' filter (if filter_bit filter 0 48 then false else flag)
  end.

Definition print_wanted (filter : list Z) (k : kind) : bool :=
  filter_flag 6 filter true ||
  (filter_bit filter 0 49 && is_tcp k && ((k_src k =? 80)%Z || (k_dst k =? 80)%Z)) ||
  (filter_bit filter 1 49 && is_tcp k && ((k_src k =? 443)%Z || (k_dst k =? 443)%Z)) ||
  (filter_bit filter 2 49 && ((k_src k =? 53)%Z || (k_dst k =? 53)%Z)) ||
  (filter_bit filter 3 49 && is_arp k) || (filter_bit filter 4 49 && is_tcp k) || (filter_bit filter 5 49 && is_udp k).

(** [struct pcap_pkthdr]: time stamp and captured length. *)
Record pkthdr := mk_hdr { tv_sec : Z; tv_usec : Z }.
Record data := mk_data { d_packet : list Z; d_hdr : pkthdr }.

(** The globals: the store [my_data], the packet counter of the session (the
    [long] that [user_data] points to), [p_index] and the filter. *)
Record sniffer := mk_sniffer {
  my_data : Z -> option data;
  s_id : Z;
  p_index : Z;
  s_filter : list Z
}.

Fixpoint raw_bytes (k : nat) (p : list Z) (n i : Z) : W unit :=
  match k with
  | O => wret tt
  | S k' =>
      let* b := rd p i in
      out [F "%02x " b] ;;;
      (if ((i + 1) mod 8 =? 0)%Z && negb (i + 1 =? n)%Z then out [T " "] else wret tt) ;;;
      raw_bytes k' p n (i + 1)
  end.

(** The lines printed for a packet that passes the filter, as number [id]. *)
Definition show_packet (id : Z) (h : pkthdr) (p : list Z) : W unit :=
  out [T "---------------------------------------------------------\n"; T "\nPacket #"; F "%ld" id; T " | ";
       T "Timestamp: "; F "%ld" (tv_sec h); T "."; F "%06ld" (tv_usec h); T " | ";
       T "Length: "; F "%d" (Z.of_nat (length p)); T " bytes\n"; T "First 16 raw bytes: "] ;;;
  let n := Z.min (Z.of_nat (length p)) 16 in
  raw_bytes (Z.to_nat n) p n 0 ;;;
  out [T "\n"; T "L2 (Ethernet): Dst MAC: "] ;;;
  print_mac_address p 0 ;;;
  out [T " | Src MAC: "] ;;;
  print_mac_address p 6 ;;;
  out [T " | EtherType: "] ;;;
  let* ether := rd16 p 12 in
  (if (ether =? ETHERTYPE_IP)%Z then out [T "IPv4 (0x"; F "%04x" ether; T ")"] ;;; IPv4 p ETH_HLEN
   else if (ether =? ETHERTYPE_IPV6)%Z then out [T "IPv6 (0x"; F "%04x" ether; T ")"] ;;; IPv6 p ETH_HLEN
   else if (ether =? ETHERTYPE_ARP)%Z then out [T "ARP (0x"; F "%04x" ether; T ")"] ;;; ARP p ETH_HLEN
   else out [T "Unknown Type (0x"; F "%04x" ether; T ")"]) ;;;
  out [T "\n"].

Definition pckt_handler (h : pkthdr) (p : list Z) (s : sniffer) : W sniffer :=
  let id := s_id s in
  let store := if (id <? MAX_PACKETS)%Z then upd (my_data s) id (Some (mk_data p h)) else my_data s in
  let* k := classify p in
  if print_wanted (s_filter s) k then
    show_packet (id + 1) h p ;;;
    wret (mk_sniffer store (id + 1) id (s_filter s))
  else wret (mk_sniffer store id id (s_filter s)).

(** * Inspecting stored packets *)

Fixpoint frame_loop (k : nat) (p : list Z) (len i : Z) (ascii : list Z) : W unit :=
  match k with
  | O => wret tt
  | S k' =>
      (if (i mod 16 =? 0)%Z then out [F "%08x: " i] else wret tt) ;;;
      let* b := rd p i in
      out [F "%02x " b] ;;;
      (if (i mod 16 =? 7)%Z then out [T " "] else wret tt) ;;;
      let ascii := ((if (i mod 16 =? 0)%Z then [] else ascii) ++ [if isprint b then b else 46])%list in
      if ((i + 1) mod 16 =? 0)%Z || (i =? len - 1)%Z then
        (if (i =? len - 1)%Z then
           out (mjoin ((fun j => if (j =? 7)%Z then [T "   "; T " "] else [T "   "]) <$> seqZ (i mod 16 + 1) (16 - (i mod 16 + 1))))
         else wret tt) ;;;
        out [T " |"; Chars ascii; T "|\n"] ;;;
        frame_loop k' p len (i + 1) ascii
      else frame_loop k' p len (i + 1) ascii
  end.

Definition CompleteFrame (p : list Z) (len : Z) : W unit :=
  if (len <=? 0)%Z then wret tt
  else
    out [T "\n--- COMPLETE FRAME HEX DUMP ("; F "%d" len; T " bytes) ---\n";
         T "Offset(h) 0  1  2  3  4  5  6  7  8  9  A  B  C  D  E  F   ASCII\n";
         T "----------------------------------------------------------------------\n"] ;;;
    frame_loop (Z.to_nat len) p len 0 [].

Fixpoint mac_string (sep : string) (bs : list Z) : list tok :=
  match bs with
  | [] => []
  | [b] => [F "%02x" b]
  | b :: bs' => F "%02x" b :: T sep :: mac_string sep bs'
  end.

Definition Print_Ethernet (p : list Z) : W unit :=
  out [T "ETHERNET II FRAME (Layer 2)\n"; T "---------------------------\n"] ;;;
  let* dh := rdn p 0 6 in
  out ([T "   Destination MAC: "] ++ mac_string ":" dh ++ [T " (Bytes 0-5)\n"; T "   └─ Hex: "] ++ mac_string " " dh ++ [T "\n"])%list ;;;
  let* sh := rdn p 6 6 in
  out ([T "   Source MAC: "] ++ mac_string ":" sh ++ [T " (Bytes 6-11)\n"; T "   └─ Hex: "] ++ mac_string " " sh ++ [T "\n"])%list ;;;
  let* types := rd16 p 12 in
  if (types =? ETHERTYPE_IP)%Z then out [T "   EtherType: 0x"; F "%04X" types; T " (IPv4)(Bytes 12-13)\n"] ;;; IPv4 p ETH_HLEN
  else if (types =? ETHERTYPE_IPV6)%Z then out [T "   EtherType: 0x"; F "%04X" types; T " (IPv6)(Bytes 12-13)\n"] ;;; IPv6 p ETH_HLEN
  else if (types =? ETHERTYPE_ARP)%Z then out [T "   EtherType: 0x"; F "%04X" types; T " (ARP)(Bytes 12-13)\n"] ;;; ARP p ETH_HLEN
  else out [T "Unknown Type\n"].

(** [my_data[i]]; an index outside the array, or a slot never filled (its
    packet pointer is null), has no result. *)
Definition stored (s : sniffer) (i : Z) : W data :=
  if (i <? 0)%Z || (MAX_PACKETS <? i)%Z then oob else match my_data s i with Some d => wret d | None => oob end.

Definition Detailed_analysis (s : sniffer) (req : Z) : W unit :=
  if (p_index s + 1 <? req)%Z then out [T "Invalid Input\n"]
  else
    let* d := stored s (req - 1) in
    let caplen := Z.of_nat (length (d_packet d)) in
    out [T "C-SHARK DETAILED PACKET ANALYSIS\n"; T "--------------------------------\n"; T "PACKET SUMMARY\n"; T "--------------\n";
         T "Packet ID:\t#"; F "%d" req; T "\nTimestamp:\t"; F "%ld" (tv_sec (d_hdr d)); T "."; F "%06ld" (tv_usec (d_hdr d));
         T "\nFrame Length:\t"; F "%d" caplen; T "\nCaptured:\t"; F "%d" caplen; T "\n"] ;;;
    CompleteFrame (d_packet d) caplen ;;;
    out [T "LAYER-BY_LAYER ANALYSIS\n"; T "-----------------------\n"] ;;;
    Print_Ethernet (d_packet d).

(** ** The list of a session *)

(** The ends of a packet as [print_packet_summary] formats them: without a
    port, or with one after the address (in brackets for IPv6). *)
Definition with_port (six : bool) (addr : tok) (port : Z) : list tok :=
  if six then [T "["; addr; T "]:"; F "%d" port] else [addr; T ":"; F "%d" port].

Definition l4_summary (p : list Z) (six : bool) (proto l4 : Z) (src dst : tok) : W (string * list tok * list tok) :=
  if (proto =? IPPROTO_TCP)%Z then
    let* sp := rd16 p l4 in let* dp := rd16 p (l4 + 2) in wret ("TCP", with_port six src sp, with_port six dst dp)
  else if (proto =? IPPROTO_UDP)%Z then
    let* sp := rd16 p l4 in let* dp := rd16 p (l4 + 2) in wret ("UDP", with_port six src sp, with_port six dst dp)
  else wret ("N/A", [src], [dst]).

(** For other Ethernet types the buffers [final_src] and [final_dst] are
    printed without having been set: no result. *)
Definition print_packet_summary (packet_id : Z) (d : data) : W unit :=
  let p := d_packet d in
  let* ether := rd16 p 12 in
  let* r :=
    (if (ether =? ETHERTYPE_IP)%Z then
       let* src := rdn p (ETH_HLEN + 12) 4 in
       let* dst := rdn p (ETH_HLEN + 16) 4 in
       let* b0 := rd p ETH_HLEN in
       let* proto := rd p (ETH_HLEN + 9) in
       let* r := l4_summary p false proto (ETH_HLEN + b0 mod 16 * 4) (Ip4 src) (Ip4 dst) in
       wret ("IPv4", r)
     else if (ether =? ETHERTYPE_ARP)%Z then
       let* src := rdn p (ETH_HLEN + 14) 4 in
       let* dst := rdn p (ETH_HLEN + 24) 4 in
       wret ("ARP", ("N/A", [Ip4 src], [Ip4 dst]))
     else if (ether =? ETHERTYPE_IPV6)%Z then
       let* src := rdn p (ETH_HLEN + 8) 16 in
       let* dst := rdn p (ETH_HLEN + 24) 16 in
       let* proto := rd p (ETH_HLEN + 6) in
       let* r := l4_summary p true proto (ETH_HLEN + 40) (Ip6 src) (Ip6 dst) in
       wret ("IPv6", r)
     else oob) in
  let '(l3, (l4, src, dst)) := r in
  out ([T "  #"; F "%-4d" packet_id; T " | "; F "%ld" (tv_sec (d_hdr d)); T "."; F "%06ld" (tv_usec (d_hdr d)); T " | ";
        FS "%-7s" l3; T " | "; FS "%-5s" l4; T " | "] ++ src ++ [T " -> "] ++ dst ++ [T "\n"])%list.

(** ** The menu *)

(** [Sniffing]: the packets that [pcap_loop] delivers, one handler call each,
    counted from 0. *)
Fixpoint pcap_loop (packets : list (pkthdr * list Z)) (s : sniffer) : W sniffer :=
  match packets with
  | [] => wret s
  | (h, p) :: rest => let* s' := pckt_handler h p s in pcap_loop rest s'
  end.
(** [opened]: whether [pcap_open_live] gave a handle for the device [dev]. *)
Definition Sniffing (dev : string) (opened : bool) (filter : list Z) (packets : list (pkthdr * list Z)) (s : sniffer) : W sniffer :=
  out [T "[C-Shark] Preparing to sniff all the packets from interface: "; FS "%s" dev; T " \n"] ;;;
  if opened then
    out [T "Starting packet capture...\n"] ;;;
    pcap_loop packets (mk_sniffer (my_data s) 0 (p_index s) filter)
  else wret (mk_sniffer (my_data s) (s_id s) (p_index s) filter).

(** Choice 1: everything, choice 2: the filter typed in. *)
Definition all_filter : list Z := [49; 49; 49; 49; 49; 49].

(** Choice 3: the loop over the stored packets. *)
Fixpoint inspect_loop (k : nat) (s : sniffer) (i : Z) : W unit :=
  match k with
  | O => wret tt
  | S k' => let* d := stored s i in print_packet_summary (i + 1) d ;;; inspect_loop k' s (i + 1)
  end.
Definition inspect (s : sniffer) : W unit := inspect_loop (Z.to_nat (p_index s + 1)) s 0.

(** Before the first capture. *)
Definition sniffer_init : sniffer := mk_sniffer (fun _ => None) 0 0 [].

(** * Reads *)

Local Open Scope Z_scope.

Lemma rd_Some p o b : 0 <= o -> rd p o = Some (b, []) <-> p !! Z.to_nat o = Some b.
Proof. intros Ho. unfold rd, wret, oob. destruct (p !! Z.to_nat o); split; intros He; simplify_eq; done. Qed.

Lemma rd_in p o : 0 <= o < Z.of_nat (length p) -> exists b, rd p o = Some (b, []) /\ p !! Z.to_nat o = Some b.
Proof.
  intros Ho. destruct (lookup_lt_is_Some_2 p (Z.to_nat o)) as [b Hb]; [lia|]. exists b. split; [|done]. apply rd_Some; [lia|done].
Qed.

Lemma rd_out p o : Z.of_nat (length p) <= o -> rd p o = None.
Proof. intros Ho. unfold rd. rewrite lookup_ge_None_2 by lia. done. Qed.

Lemma wbind_Some {A B} (m : W A) (k : A -> W B) b o :
  wbind m k = Some (b, o) <-> exists a o1 o2, m = Some (a, o1) /\ k a = Some (b, o2) /\ o = (o1 ++ o2)%list.
Proof.
  unfold wbind. destruct m as [[a o1]|]; [|split; [done|naive_solver]].
  destruct (k a) as [[b' o2]|] eqn:Hk; split; intros He; simplify_eq.
  - eauto 10.
  - destruct He as (a' & o1' & o2' & Ha & Hb & ->). simplify_eq. congruence.
  - destruct He as (a' & o1' & o2' & Ha & Hb & ->). simplify_eq.
Qed.

(** A computation that stays inside the captured bytes. *)
Definition safe {A} (m : W A) : Prop := exists r, m = Some r.

Lemma safe_ret {A} (a : A) : safe (wret a).
Proof. by eexists. Qed.
Lemma safe_out o : safe (out o).
Proof. by eexists. Qed.
Lemma safe_bind {A B} (m : W A) (k : A -> W B) : safe m -> (forall a o, m = Some (a, o) -> safe (k a)) -> safe (wbind m k).
Proof.
  intros [[a o] Hm] Hk. destruct (Hk a o Hm) as [[b o'] Hb]. unfold wbind. rewrite Hm, Hb. by eexists.
Qed.
Lemma safe_rd p o : 0 <= o < Z.of_nat (length p) -> safe (rd p o).
Proof. intros Ho. destruct (rd_in p o Ho) as (b & -> & _). by eexists. Qed.
Lemma safe_rd16 p o : 0 <= o -> o + 2 <= Z.of_nat (length p) -> safe (rd16 p o).
Proof.
  intros. unfold rd16. apply safe_bind; [apply safe_rd; lia|]. intros. apply safe_bind; [apply safe_rd; lia|]. intros. apply safe_ret.
Qed.
Lemma safe_rd32 p o : 0 <= o -> o + 4 <= Z.of_nat (length p) -> safe (rd32 p o).
Proof.
  intros. unfold rd32. apply safe_bind; [apply safe_rd16; lia|]. intros. apply safe_bind; [apply safe_rd16; lia|]. intros. apply safe_ret.
Qed.
Lemma safe_rdn p o n : 0 <= o -> o + Z.of_nat n <= Z.of_nat (length p) -> safe (rdn p o n).
Proof.
  revert o. induction n as [|n IH]; intros o Ho Hn; cbn [rdn]; [apply safe_ret|].
  apply safe_bind; [apply safe_rd; lia|]. intros. apply safe_bind; [apply IH; lia|]. intros. apply safe_ret.
Qed.
Lemma safe_mac p mac : 0 <= mac -> mac + 6 <= Z.of_nat (length p) -> safe (print_mac_address p mac).
Proof.
  intros Hm Hl. unfold print_mac_address.
  assert (Hg : forall k i, 0 <= i -> i + Z.of_nat k <= 6 -> safe (print_mac_loop k p mac i)).
  { induction k as [|k IH]; intros i Hi Hk; cbn [print_mac_loop]; [apply safe_ret|].
    apply safe_bind; [apply safe_rd; lia|]. intros. apply safe_bind; [apply safe_out|]. intros.
    apply safe_bind; [destruct (i <? 5); [apply safe_out|apply safe_ret]|]. intros. apply IH; lia. }
  apply Hg; lia.
Qed.

#[export] Hint Resolve safe_ret safe_out : kern.

(** * The hex dump *)

(** The bytes and the characters that an output shows. *)
Definition hex_bytes (o : list tok) : list Z := omap (fun t => match t with F "%02x " v => Some v | _ => None end) o.
Definition shown_chars (o : list tok) : list Z := mjoin ((fun t => match t with Chars cs => cs | _ => [] end) <$> o).

Definition printable (b : Z) : Z := if isprint b then b else 46.

Lemma hex_bytes_app o1 o2 : hex_bytes (o1 ++ o2) = (hex_bytes o1 ++ hex_bytes o2)%list.
Proof. unfold hex_bytes. apply omap_app. Qed.

Lemma shown_chars_app o1 o2 : shown_chars (o1 ++ o2) = (shown_chars o1 ++ shown_chars o2)%list.
Proof. unfold shown_chars. by rewrite fmap_app, join_app. Qed.

(** Output of blanks only. *)
Definition blank (o : list tok) : Prop := hex_bytes o = [] /\ shown_chars o = [].

Lemma blank_Forall o : Forall (fun t => match t with T _ => True | _ => False end) o -> blank o.
Proof.
  induction 1 as [|t o Ht Ho [IH1 IH2]]; [done|]. by destruct t.
Qed.

Lemma frame_pad_blank a n :
  blank (mjoin ((fun j => if j =? 7 then [T "   "; T " "] else [T "   "]) <$> seqZ a n)).
Proof.
  apply blank_Forall. generalize (seqZ a n). intros l. induction l as [|j l IH]; [constructor|]. cbn.
  apply Forall_app_2; [|done]. destruct (j =? 7); repeat constructor.
Qed.

Lemma printable_eq b : (if isprint b then b else 46) = printable b.
Proof. done. Qed.

(** The characters of the line that position [i] is on, before it. *)
Definition line_so_far (p : list Z) (i : Z) : list Z :=
  printable <$> take (Z.to_nat (i mod 16)) (drop (Z.to_nat (i - i mod 16)) p).

Lemma line_so_far_snoc p i b : 0 <= i -> p !! Z.to_nat i = Some b ->
  ((if i mod 16 =? 0 then [] else line_so_far p i) ++ [printable b])%list =
  printable <$> take (Z.to_nat (i mod 16 + 1)) (drop (Z.to_nat (i - i mod 16)) p).
Proof.
  intros Hi Hb. pose proof (Z.mod_pos_bound i 16 ltac:(lia)) as Hm. pose proof (Z.mod_le i 16 ltac:(lia) ltac:(lia)).
  replace (Z.to_nat (i mod 16 + 1)) with (S (Z.to_nat (i mod 16))) by lia.
  rewrite (take_S_r _ _ b), fmap_app.
  - unfold line_so_far. destruct (Z.eqb_spec (i mod 16) 0) as [->|]; done.
  - rewrite lookup_drop. replace (Z.to_nat (i - i mod 16) + Z.to_nat (i mod 16))%nat with (Z.to_nat i) by lia. done.
Qed.

Lemma wbind_out {A B} (m : W A) (k : A -> W B) a o1 b o2 :
  m = Some (a, o1) -> k a = Some (b, o2) -> wbind m k = Some (b, o1 ++ o2)%list.
Proof. intros Hm Hk. unfold wbind. by rewrite Hm, Hk. Qed.

Lemma wbind_wret {A B} (a : A) (k : A -> W B) : wbind (wret a) k = k a.
Proof. unfold wbind, wret. by destruct (k a) as [[b o]|]. Qed.

Lemma out_if (c : bool) o : (if c then out o else wret tt) = Some (tt, if c then o else []).
Proof. by destruct c. Qed.

Lemma mod16_succ i : 0 <= i -> ((i + 1) mod 16 = 0 /\ i mod 16 = 15) \/ ((i + 1) mod 16 = i mod 16 + 1 /\ i mod 16 < 15).
Proof. intros Hi. Z.div_mod_to_equations. lia. Qed.

(** The output of one step of the dump at position [i], without the line's
    characters. *)
Definition frame_step_out (i b : Z) : list tok :=
  ((if i mod 16 =? 0 then [F "%08x: " i] else []) ++ [F "%02x " b] ++ (if i mod 16 =? 7 then [T " "] else []))%list.

Lemma frame_step_hex i b : hex_bytes (frame_step_out i b) = [b].
Proof. unfold frame_step_out. by destruct (i mod 16 =? 0), (i mod 16 =? 7). Qed.

Lemma frame_step_chars i b : shown_chars (frame_step_out i b) = [].
Proof. unfold frame_step_out. by destruct (i mod 16 =? 0), (i mod 16 =? 7). Qed.

(** What a line end prints besides. *)
Definition frame_end_out (last : bool) (i : Z) (asc : list Z) : list tok :=
  ((if last then mjoin ((fun j => if j =? 7 then [T "   "; T " "] else [T "   "]) <$> seqZ (i mod 16 + 1) (16 - (i mod 16 + 1))) else []) ++
   [T " |"; Chars asc; T "|\n"])%list.

Lemma frame_end_hex last i asc : hex_bytes (frame_end_out last i asc) = [].
Proof.
  unfold frame_end_out. rewrite hex_bytes_app. destruct last; [|done]. by rewrite (proj1 (frame_pad_blank _ _)).
Qed.

Lemma frame_end_chars last i asc : shown_chars (frame_end_out last i asc) = asc.
Proof.
  unfold frame_end_out. rewrite shown_chars_app. unfold shown_chars at 2. cbn. rewrite app_nil_r.
  destruct last; [|done]. by rewrite (proj2 (frame_pad_blank _ _)).
Qed.

(** One step of the dump, as output. *)
Lemma frame_loop_step k p len i asc b : rd p i = Some (b, []) ->
  let asc' := ((if i mod 16 =? 0 then [] else asc) ++ [printable b])%list in
  let fin := ((i + 1) mod 16 =? 0) || (i =? len - 1) in
  forall o, frame_loop k p len (i + 1) asc' = Some (tt, o) ->
  frame_loop (S k) p len i asc =
    Some (tt, frame_step_out i b ++ (if fin then frame_end_out (i =? len - 1) i asc' else []) ++ o)%list.
Proof.
  intros Hrd asc' fin o Ho. cbn [frame_loop]. rewrite !out_if, Hrd.
  unfold frame_step_out. rewrite <- !app_assoc. eapply wbind_out; [done|]. eapply (wbind_out _ _ b []); [done|]. cbv beta.
  eapply (wbind_out _ _ tt [F "%02x " b]); [done|]. eapply wbind_out; [done|]. fold (printable b) asc' fin. destruct fin; [|exact Ho].
  unfold frame_end_out. rewrite <- !app_assoc. eapply wbind_out; [done|].
  eapply (wbind_out _ _ tt [T " |"; Chars asc'; T "|\n"]); [done|]. exact Ho.
Qed.

(** From position [i] on the dump shows every remaining byte in hex, and as
    characters the rest of [i]'s line and all the lines after it. *)
Lemma frame_loop_ok k p i asc : 0 <= i -> i + Z.of_nat k = Z.of_nat (length p) ->
  (i mod 16 <> 0 -> asc = line_so_far p i) ->
  exists o, frame_loop k p (Z.of_nat (length p)) i asc = Some (tt, o) /\
    hex_bytes o = drop (Z.to_nat i) p /\
    shown_chars o = if decide (k = 0%nat) then [] else printable <$> drop (Z.to_nat (i - i mod 16)) p.
Proof.
  revert i asc. induction k as [|k IH]; intros i asc Hi Hk Hasc.
  - exists []. split_and!; try done. rewrite drop_ge by lia. done.
  - destruct (rd_in p i ltac:(lia)) as (b & Hrd & Hb).
    pose proof (line_so_far_snoc p i b Hi Hb) as Hline.
    set (asc' := ((if i mod 16 =? 0 then [] else asc) ++ [printable b])%list).
    assert (Hasc' : asc' = printable <$> take (Z.to_nat (i mod 16 + 1)) (drop (Z.to_nat (i - i mod 16)) p)).
    { rewrite <- Hline. unfold asc'. destruct (Z.eqb_spec (i mod 16) 0); [done|]. by rewrite Hasc. }
    pose proof (Z.mod_pos_bound i 16 ltac:(lia)). pose proof (Z.mod_le i 16 ltac:(lia) ltac:(lia)).
    destruct (IH (i + 1) asc' ltac:(lia) ltac:(lia)) as (o' & Ho' & Hx & Hc).
    { intros Hn. destruct (mod16_succ i Hi) as [|[Hm _]]; [lia|]. unfold line_so_far. rewrite Hm.
      rewrite Hasc'. do 3 f_equal. lia. }
    eexists. split; [exact (frame_loop_step k p _ i asc b Hrd o' Ho')|].
    rewrite !hex_bytes_app, !shown_chars_app, frame_step_hex, frame_step_chars, Hx, Hc. fold asc'.
    replace (Z.to_nat (i + 1)) with (S (Z.to_nat i)) by lia. split.
    { rewrite (drop_S p b _ Hb). destruct (_ || _); [by rewrite frame_end_hex|done]. }
    destruct (decide (S k = 0%nat)); [lia|]. cbn [app].
    destruct (decide (k = 0%nat)) as [->|Hk0].
    + replace (i =? Z.of_nat (length p) - 1) with true by lia. rewrite orb_true_r, frame_end_chars, app_nil_r, Hasc'.
      rewrite take_ge; [done|]. rewrite length_drop. lia.
    + replace (i =? Z.of_nat (length p) - 1) with false by lia. rewrite orb_false_r.
      destruct (mod16_succ i Hi) as [[Hm H15]|[Hm H15]]; rewrite Hm.
      * rewrite Z.eqb_refl, frame_end_chars, Hasc', H15. rewrite <- fmap_app. f_equal.
        rewrite <- (take_drop 16 (drop (Z.to_nat (i - 15)) p)) at 2. rewrite drop_drop. do 2 f_equal. lia.
      * replace (i mod 16 + 1 =? 0) with false by lia. cbn [shown_chars]. replace (i + 1 - (i mod 16 + 1)) with (i - i mod 16) by lia. done.
Qed.

(** [CompleteFrame], called on a captured frame with its captured length,
    never reads outside the frame, and its dump is complete: the hex column
    shows every byte of the frame once and in order, and the text columns put
    end to end are the frame with each unprintable byte replaced by a dot. *)
Lemma CompleteFrame_ok p :
  exists o, CompleteFrame p (Z.of_nat (length p)) = Some (tt, o) /\ hex_bytes o = p /\ shown_chars o = printable <$> p.
Proof.
  unfold CompleteFrame. destruct (Z.leb_spec (Z.of_nat (length p)) 0).
  { destruct p; [|cbn in *; lia]. by exists []. }
  destruct (frame_loop_ok (Z.to_nat (Z.of_nat (length p))) p 0 []) as (o & Ho & Hx & Hc); [lia..|done|].
  eexists. split; [eapply wbind_out; [reflexivity|exact Ho]|].
  rewrite hex_bytes_app, shown_chars_app, Hx, Hc. cbn. destruct (decide _); [lia|]. done.
Qed.

(** * The store of a session *)

(** The number of packets printed is the session's count. *)
Definition pass (filter : list Z) (pk : pkthdr * list Z) : bool :=
  match classify (snd pk) with Some (k, _) => print_wanted filter k | None => false end.

Definition slot_of (pk : pkthdr * list Z) : data := mk_data (snd pk) (fst pk).

(** What a session leaves behind: the packets that passed the filter, in
    order, and after them the last one if it did not pass. *)
Definition session_list (filter : list Z) (packets : list (pkthdr * list Z)) : list (pkthdr * list Z) :=
  base.filter (fun pk => pass filter pk = true) packets.

Lemma pckt_handler_state h p s s' o : pckt_handler h p s = Some (s', o) ->
  my_data s' = (if s_id s <? MAX_PACKETS then upd (my_data s) (s_id s) (Some (mk_data p h)) else my_data s) /\
  s_filter s' = s_filter s /\ p_index s' = s_id s /\
  s_id s' = s_id s + (if pass (s_filter s) (h, p) then 1 else 0).
Proof.
  unfold pckt_handler. intros (k & o1 & o2 & Hk & Hs & _)%wbind_Some. unfold pass. cbn [snd]. rewrite Hk.
  destruct (print_wanted (s_filter s) k).
  - apply wbind_Some in Hs as ([] & o3 & o4 & _ & Hs & _). inversion Hs; subst. cbn. split_and!; try done; lia.
  - inversion Hs; subst. cbn. split_and!; try done; lia.
Qed.

(** The slots below the counter are never written again, and each packet that
    passes takes the next one. *)
Lemma pcap_loop_store packets : forall s s' o, 0 <= s_id s -> pcap_loop packets s = Some (s', o) ->
  let l := session_list (s_filter s) packets in
  s_filter s' = s_filter s /\ s_id s' = s_id s + Z.of_nat (length l) /\
  (forall i, i < s_id s -> my_data s' i = my_data s i) /\
  (forall j pk, l !! j = Some pk -> s_id s + Z.of_nat j < MAX_PACKETS -> my_data s' (s_id s + Z.of_nat j) = Some (slot_of pk)).
Proof.
  induction packets as [|[h p] rest IH]; intros s s' o Hid.
  - intros [= <- <-]. cbn. split_and!; try done; lia.
  - cbn [pcap_loop]. intros (s1 & o1 & o2 & H1 & H2 & _)%wbind_Some.
    apply pckt_handler_state in H1 as (Hd & Hf & _ & Hi).
    destruct (IH s1 s' o2) as (Hf' & Hi' & Hb & Hl); [destruct (pass _ _); lia|done|]. clear IH H2.
    rewrite Hf in Hf', Hi', Hl. unfold session_list in *. rewrite filter_cons.
    destruct (pass (s_filter s) (h, p)) eqn:Hp; destruct (decide _) as [He|He]; try done; cbn [length]; (split; [done|]; split; [lia|]; split).
    + intros i Hlt. rewrite Hb by lia. rewrite Hd. destruct (_ <? _); [|done]. rewrite upd_ne by lia. done.
    + intros [|j] pk Hj Hlt; cbn in Hj.
      * simplify_eq. rewrite Hb by lia. rewrite Hd. replace (s_id s + Z.of_nat 0) with (s_id s) in * by lia.
        destruct (Z.ltb_spec (s_id s) MAX_PACKETS); [|lia]. by rewrite upd_eq.
      * replace (s_id s + Z.of_nat (S j)) with (s_id s1 + Z.of_nat j) in * by lia. by apply Hl.
    + intros i Hlt. rewrite Hb by lia. rewrite Hd. destruct (_ <? _); [|done]. rewrite upd_ne by lia. done.
    + intros j pk Hj Hlt. replace (s_id s + Z.of_nat j) with (s_id s1 + Z.of_nat j) in * by lia. by apply Hl.
Qed.

(** The counter is at most one ahead of the index of the last packet. *)
Lemma pcap_loop_index packets : forall s s' o, pcap_loop packets s = Some (s', o) -> packets <> [] -> s_id s' - 1 <= p_index s' <= s_id s'.
Proof.
  induction packets as [|[h p] rest IH]; intros s s' o; [done|].
  cbn [pcap_loop]. intros (s1 & o1 & o2 & H1 & H2 & _)%wbind_Some _. destruct rest as [|q rest].
  - injection H2 as <- <-. apply pckt_handler_state in H1 as (_ & _ & Hp & Hi). destruct (pass _ _); lia.
  - by eapply IH.
Qed.

(** Every packet that passed the filter was displayed. *)
Lemma pcap_loop_shown packets : forall s s' o, pcap_loop packets s = Some (s', o) ->
  forall pk, pk ∈ session_list (s_filter s) packets -> exists id, safe (show_packet id (fst pk) (snd pk)).
Proof.
  induction packets as [|[h p] rest IH]; intros s s' o; [intros _ pk Hpk; by apply not_elem_of_nil in Hpk|].
  cbn [pcap_loop]. intros (s1 & o1 & o2 & H1 & H2 & _)%wbind_Some pk.
  destruct (pckt_handler_state _ _ _ _ _ H1) as (_ & Hf & _ & _). specialize (IH s1 s' o2 H2). rewrite Hf in IH.
  unfold session_list in *. rewrite filter_cons. destruct (decide _) as [He|He]; [|by apply IH].
  intros [->|Hin]%elem_of_cons; [|by apply IH]. exists (s_id s + 1).
  unfold pckt_handler in H1. apply wbind_Some in H1 as (k & ? & ? & Hk & H1 & _).
  unfold pass in He. cbn [snd] in He. rewrite Hk in He. rewrite He in H1.
  apply wbind_Some in H1 as (? & ? & ? & Hs & _). by eexists.
Qed.

Lemma safe_inv {A B} (m : W A) (k : A -> W B) : safe (wbind m k) -> exists a, safe m /\ (exists o, m = Some (a, o)) /\ safe (k a).
Proof.
  intros [[b o] (a & o1 & o2 & Hm & Hk & _)%wbind_Some]. exists a. split; [by eexists|]. split; [by eexists|]. by eexists.
Qed.

Lemma safe_rd16_inv p o : 0 <= o -> safe (rd16 p o) -> o + 2 <= Z.of_nat (length p).
Proof.
  intros Ho Hs. unfold rd16 in Hs. apply safe_inv in Hs as (a & _ & _ & Hs). apply safe_inv in Hs as (b & [r Hr] & _ & _).
  destruct (Z.lt_ge_cases (o + 1) (Z.of_nat (length p))); [lia|]. by rewrite rd_out in Hr by lia.
Qed.

(** A packet that can be displayed live has its 14 bytes of Ethernet header,
    and its layers can be decoded again. *)
Lemma show_packet_decodes id h p : safe (show_packet id h p) -> safe (Print_Ethernet p).
Proof.
  unfold show_packet. intros Hs. do 7 (apply safe_inv in Hs as (? & _ & _ & Hs)).
  apply safe_inv in Hs as (ether & H16 & [oe He] & Hs). apply safe_rd16_inv in H16; [|lia].
  apply safe_inv in Hs as (? & Hs & _ & _).
  unfold Print_Ethernet. apply safe_bind; [apply safe_out|]. intros _ _ _. apply safe_bind; [apply safe_rdn; lia|]. intros dh _ _.
  apply safe_bind; [apply safe_out|]. intros _ _ _. apply safe_bind; [apply safe_rdn; lia|]. intros sh _ _.
  apply safe_bind; [apply safe_out|]. intros _ _ _. apply safe_bind; [by eexists|]. intros ty o Hty.
  rewrite He in Hty. simplify_eq. repeat case_match; try apply safe_out;
    apply safe_inv in Hs as (? & _ & _ & Hs); (apply safe_bind; [apply safe_out|done]).
Qed.

(** A capture session that ends without reading out of bounds can be
    inspected: for every packet it displayed, the [r]-th of the session with
    [r] at most [MAX_PACKETS], [Detailed_analysis r] prints the dump of exactly
    that packet, complete, followed by its decoded layers, and reads nothing
    outside the stored bytes. *)
Theorem displayed_packets_can_be_inspected dev filter packets s s' o r pk :
  Sniffing dev true filter packets s = Some (s', o) ->
  session_list filter packets !! r = Some pk -> Z.of_nat r < MAX_PACKETS ->
  exists o1 o2 o3, Detailed_analysis s' (Z.of_nat r + 1) = Some (tt, o1 ++ o2 ++ o3)%list /\
    hex_bytes o1 = [] /\ hex_bytes o2 = snd pk /\ shown_chars o2 = printable <$> snd pk /\
    Print_Ethernet (snd pk) = Some (tt, drop 2 o3).
Proof.
  unfold Sniffing. intros Hrun Hr Hmax. apply wbind_Some in Hrun as ([] & ? & o' & _ & Hrun & _).
  apply wbind_Some in Hrun as ([] & ? & o'' & _ & Hrun & _).
  destruct (pcap_loop_store packets (mk_sniffer (my_data s) 0 (p_index s) filter) s' o'' (Z.le_refl 0) Hrun) as (_ & Hid & _ & Hslot). cbn [s_id s_filter] in Hid, Hslot.
  destruct (pcap_loop_shown packets _ _ _ Hrun pk) as (id & Hshow); [by eapply list_elem_of_lookup_2|].
  destruct (pcap_loop_index packets _ _ _ Hrun) as [Hpi _].
  { intros ->. by destruct r. }
  apply lookup_lt_Some in Hr as Hlen. specialize (Hslot r pk Hr ltac:(lia)).
  destruct (show_packet_decodes _ _ _ Hshow) as [[[] o3] Ho3].
  destruct (CompleteFrame_ok (snd pk)) as (o2 & Ho2 & Hx & Hc).
  unfold Detailed_analysis. replace (p_index s' + 1 <? Z.of_nat r + 1) with false by lia.
  unfold stored. replace (Z.of_nat r + 1 - 1) with (0 + Z.of_nat r) by lia. rewrite Hslot.
  replace (0 + Z.of_nat r <? 0) with false by lia. replace (MAX_PACKETS <? 0 + Z.of_nat r) with false by lia.
  cbn [orb]. eexists _, o2, (_ :: _ :: o3). split; [|split; [|split; [exact Hx|split; [exact Hc|exact Ho3]]]].
  - rewrite wbind_wret. eapply wbind_out; [reflexivity|]. eapply wbind_out; [exact Ho2|].
    eapply (wbind_out _ _ tt [_; _]); [reflexivity|]. exact Ho3.
  - done.
Qed.

(** * Which frames are decoded in bounds *)

Lemma payload_loop_safe k p payload len i asc : 0 <= payload -> 0 <= i -> payload + i + Z.of_nat k <= Z.of_nat (length p) ->
  safe (payload_loop k p payload len i asc).
Proof.
  intros Hp. revert i asc. induction k as [|k IH]; intros i asc Hi Hk; cbn [payload_loop]; [apply safe_ret|].
  apply safe_bind; [case_match; auto with kern|]. intros _ _ _. apply safe_bind; [apply safe_rd; lia|]. intros b _ _.
  apply safe_bind; [apply safe_out|]. intros _ _ _. case_match; [|apply IH; lia].
  apply safe_bind; [apply safe_out|]. intros _ _ _. apply IH; lia.
Qed.

Lemma handle_payload_safe p payload len : 0 <= payload -> payload + len <= Z.of_nat (length p) -> safe (handle_payload p payload len).
Proof.
  intros Hp Hl. unfold handle_payload. destruct (Z.leb_spec len 0); [apply safe_ret|].
  apply safe_bind; [apply safe_out|]. intros _ _ _. apply payload_loop_safe; [done|lia|]. destruct (Z.ltb_spec 64 len); lia.
Qed.

(** Runs the reads and prints at the head of a decoder; the offsets are left to
    [lia]. *)
Ltac decode :=
  repeat first
    [ apply safe_ret | apply safe_out
    | apply safe_bind; [first [apply safe_out | apply safe_rd; lia | apply safe_rd16; lia | apply safe_rd32; lia | apply safe_rdn; lia | apply safe_mac; lia | apply safe_ret]|intros ? ? ?] ].

Lemma UDP_safe p o n : 0 <= o -> o + 8 <= Z.of_nat (length p) -> o + n <= Z.of_nat (length p) -> safe (UDP p o n).
Proof. intros. unfold UDP. decode. apply handle_payload_safe; lia. Qed.

Lemma rd_byte p o b o1 : Forall (fun x => 0 <= x < 256) p -> rd p o = Some (b, o1) -> 0 <= b < 256.
Proof.
  unfold rd, wret, oob. intros Hp Hb. destruct (p !! Z.to_nat o) as [x|] eqn:Hx; [|done]. simplify_eq.
  exact (Forall_lookup_1 _ _ _ _ Hp Hx).
Qed.

Lemma rd16_word p o v o1 : Forall (fun x => 0 <= x < 256) p -> rd16 p o = Some (v, o1) -> 0 <= v < 65536.
Proof.
  intros Hp (a & ? & ? & Ha & (b & ? & ? & Hb & Hr & _)%wbind_Some & _)%wbind_Some.
  apply rd_byte in Ha, Hb; [|done..]. inversion Hr. lia.
Qed.

Lemma TCP_safe p o n : Forall (fun x => 0 <= x < 256) p -> 0 <= o -> o + 20 <= Z.of_nat (length p) ->
  o + n <= Z.of_nat (length p) -> 0 <= n < 65536 -> safe (TCP p o n).
Proof.
  intros Hb. intros. unfold TCP. decode.
  match goal with H : rd p (o + 12) = Some (?x, _) |- _ => pose proof (rd_byte _ _ _ _ Hb H); set (h := x / 16 * 4) end.
  assert (0 <= h <= 60) by (subst h; Z.div_mod_to_equations; lia).
  apply handle_payload_safe; [lia|]. rewrite i32_small; lia.
Qed.

(** The bytes of a frame: Ethernet type, and for IP the header length, the
    length of what follows it, and the protocol. *)
Definition byte (p : list Z) (o : nat) : Z := nth o p 0.
Definition word (p : list Z) (o : nat) : Z := byte p o * 256 + byte p (S o).

Definition l4_fits (p : list Z) (proto off n : Z) : bool :=
  if proto =? IPPROTO_TCP then (off + 20 <=? Z.of_nat (length p)) && (off + n <=? Z.of_nat (length p)) && (0 <=? n)
  else if proto =? IPPROTO_UDP then (off + 8 <=? Z.of_nat (length p)) && (off + n <=? Z.of_nat (length p)) && (0 <=? n)
  else true.

(** A frame whose headers and the lengths they declare lie within the captured
    bytes. *)
Definition frame_fits (p : list Z) : bool :=
  (14 <=? Z.of_nat (length p)) &&
  (if word p 12 =? ETHERTYPE_IP then
     (34 <=? Z.of_nat (length p)) &&
     l4_fits p (byte p 23) (14 + byte p 14 mod 16 * 4) (word p 16 - byte p 14 mod 16 * 4)
   else if word p 12 =? ETHERTYPE_IPV6 then
     (54 <=? Z.of_nat (length p)) && l4_fits p (byte p 20) 54 (word p 18)
   else if word p 12 =? ETHERTYPE_ARP then 42 <=? Z.of_nat (length p)
   else true).

Lemma rd_byte_at p o b o1 : 0 <= o -> rd p o = Some (b, o1) -> b = byte p (Z.to_nat o).
Proof.
  unfold rd, wret, oob, byte. intros Ho Hb. destruct (p !! Z.to_nat o) as [x|] eqn:Hx; [|done]. simplify_eq.
  symmetry. by apply nth_lookup_Some.
Qed.

Lemma rd16_word_at p o v o1 : 0 <= o -> rd16 p o = Some (v, o1) -> v = word p (Z.to_nat o).
Proof.
  intros Ho (a & ? & ? & Ha & (b & ? & ? & Hb & Hr & _)%wbind_Some & _)%wbind_Some.
  apply rd_byte_at in Ha, Hb; [|lia..]. inversion Hr. subst. unfold word. do 2 f_equal. lia.
Qed.

(** Names the fields read by [decode] as bytes of the frame. *)
Ltac fields :=
  repeat match goal with
  | H : rd ?p ?o = Some (?x, _) |- _ => apply rd_byte_at in H; [|unfold ETH_HLEN; lia]
  | H : rd16 ?p ?o = Some (?x, _) |- _ => apply rd16_word_at in H; [|unfold ETH_HLEN; lia]
  end.

Lemma byte_range p o : Forall (fun x => 0 <= x < 256) p -> 0 <= byte p o < 256.
Proof.
  intros Hp. unfold byte. destruct (Nat.lt_ge_cases o (length p)) as [Hl|Hl].
  - destruct (lookup_lt_is_Some_2 p o Hl) as [x Hx]. rewrite (nth_lookup_Some _ _ _ _ Hx). exact (Forall_lookup_1 _ _ _ _ Hp Hx).
  - rewrite nth_overflow by lia. lia.
Qed.

Lemma l4_fits_dispatch p proto off n : Forall (fun x => 0 <= x < 256) p -> 0 <= off -> n < 65536 ->
  l4_fits p proto off n = true ->
  safe (if proto =? IPPROTO_TCP then TCP p off n else if proto =? IPPROTO_UDP then UDP p off n else wret tt).
Proof.
  unfold l4_fits. intros Hb Ho Hn Hf. destruct (proto =? IPPROTO_TCP); [apply TCP_safe; (done || lia)|].
  destruct (proto =? IPPROTO_UDP); [apply UDP_safe; lia|apply safe_ret].
Qed.

Lemma l4_kind_safe p proto off n : 0 <= off -> l4_fits p proto off n = true -> safe (l4_kind p proto off).
Proof.
  unfold l4_fits, l4_kind. intros Ho Hf. destruct (proto =? IPPROTO_TCP); [decode|]. destruct (proto =? IPPROTO_UDP); decode.
Qed.

Lemma IPv4_safe p : Forall (fun x => 0 <= x < 256) p -> 34 <= Z.of_nat (length p) ->
  l4_fits p (byte p 23) (14 + byte p 14 mod 16 * 4) (word p 16 - byte p 14 mod 16 * 4) = true -> safe (IPv4 p ETH_HLEN).
Proof.
  intros Hb Hl Hf. unfold IPv4, ETH_HLEN. decode. fields. subst.
  pose proof (byte_range p 14 Hb). pose proof (byte_range p 16 Hb). pose proof (byte_range p 17 Hb).
  change (Z.to_nat (14 + 2)) with 16%nat. change (Z.to_nat 14) with 14%nat. change (Z.to_nat (14 + 9)) with 23%nat.
  pose proof (Z.mod_pos_bound (byte p 14) 16 ltac:(lia)). unfold word in *.
  rewrite i32_small by lia. apply l4_fits_dispatch; (done || lia).
Qed.

Lemma IPv6_safe p : Forall (fun x => 0 <= x < 256) p -> 54 <= Z.of_nat (length p) ->
  l4_fits p (byte p 20) 54 (word p 18) = true -> safe (IPv6 p ETH_HLEN).
Proof.
  intros Hb Hl Hf. unfold IPv6, ETH_HLEN. decode. fields. subst.
  pose proof (byte_range p 18 Hb). pose proof (byte_range p 19 Hb).
  change (Z.to_nat (14 + 4)) with 18%nat. change (Z.to_nat (14 + 6)) with 20%nat. change (14 + 40) with 54.
  apply l4_fits_dispatch; [done|lia|unfold word; lia|done].
Qed.

Lemma ARP_safe p : 42 <= Z.of_nat (length p) -> safe (ARP p ETH_HLEN).
Proof. intros Hl. unfold ARP, ETH_HLEN. decode. Qed.

Lemma raw_bytes_safe k p n i : 0 <= i -> i + Z.of_nat k <= Z.of_nat (length p) -> safe (raw_bytes k p n i).
Proof.
  revert i. induction k as [|k IH]; intros i Hi Hk; cbn [raw_bytes]; decode.
  apply safe_bind; [case_match; auto with kern|]. intros _ _ _. apply IH; lia.
Qed.

Lemma frame_fits_classify p : frame_fits p = true -> safe (classify p).
Proof.
  unfold frame_fits. intros [Hl Hf]%andb_true_iff. unfold classify. decode. fields. subst.
  change (Z.to_nat 12) with 12%nat. unfold ETH_HLEN.
  destruct (Z.eqb_spec (word p 12) ETHERTYPE_ARP); [decode|].
  destruct (word p 12 =? ETHERTYPE_IP); [|destruct (word p 12 =? ETHERTYPE_IPV6); [|decode]].
  all: apply andb_true_iff in Hf as [Hlen Hf]; decode; fields; subst.
  - pose proof (Z.mod_pos_bound (byte p (Z.to_nat 14)) 16 ltac:(lia)). eapply l4_kind_safe; [lia|]. exact Hf.
  - eapply l4_kind_safe; [lia|]. exact Hf.
Qed.

Lemma frame_fits_show id h p : Forall (fun x => 0 <= x < 256) p -> frame_fits p = true -> safe (show_packet id h p).
Proof.
  unfold frame_fits. intros Hb [Hl Hf]%andb_true_iff. unfold show_packet. decode.
  apply safe_bind; [apply raw_bytes_safe; lia|]. intros _ _ _. decode.
  apply safe_bind; [|intros; apply safe_out]. fields. subst. change (Z.to_nat 12) with 12%nat.
  destruct (word p 12 =? ETHERTYPE_IP); [|destruct (word p 12 =? ETHERTYPE_IPV6); [|destruct (word p 12 =? ETHERTYPE_ARP); [|apply safe_out]]];
    (apply safe_bind; [apply safe_out|intros _ _ _]).
  - apply andb_true_iff in Hf as [Hlen Hf]. apply IPv4_safe; [done|lia|done].
  - apply andb_true_iff in Hf as [Hlen Hf]. apply IPv6_safe; [done|lia|done].
  - apply ARP_safe. lia.
Qed.

(** C40: A frame whose headers, and the lengths its headers declare, lie within
    the captured bytes is handled without a read out of bounds, whatever the
    filter and the state of the session; a frame of fewer than 14 bytes never
    is: the Ethernet type is read without a look at the captured length. *)
Theorem handler_stays_in_frame h p s :
  (Forall (fun x => 0 <= x < 256) p -> frame_fits p = true -> safe (pckt_handler h p s)) /\
  (Z.of_nat (length p) < 14 -> pckt_handler h p s = None).
Proof.
  split.
  - intros Hb Hf. unfold pckt_handler. apply safe_bind; [by apply frame_fits_classify|]. intros k _ _.
    case_match; [|apply safe_ret]. apply safe_bind; [by apply frame_fits_show|]. intros. apply safe_ret.
  - intros Hl. unfold pckt_handler, classify. destruct (rd16 p 12) as [[v o]|] eqn:H16; [|done].
    pose proof (safe_rd16_inv p 12 ltac:(lia) ltac:(eexists; exact H16)). lia.
Qed.

(** A DNS query for the root, from port 4000, over UDP and IPv4. *)
Definition dns_frame : list Z :=
  [1; 2; 3; 4; 5; 6; 7; 8; 9; 10; 11; 12; 8; 0; 0x45; 0; 0; 33; 0; 1; 0x40; 0; 64; 17; 0; 0; 10; 0; 0; 1; 10; 0; 0; 2;
   0x0f; 0xa0; 0; 53; 0; 13; 0; 0; 65; 0; 66; 200; 67].

Lemma dns_frame_fits : frame_fits dns_frame = true /\ Forall (fun x => 0 <= x < 256) dns_frame.
Proof. split; [reflexivity|]. repeat (constructor; [lia|]). constructor. Qed.

Lemma handler_stays_in_frame_witness :
  safe (pckt_handler (mk_hdr 1 2) dns_frame sniffer_init) /\ pckt_handler (mk_hdr 1 2) [1; 2] sniffer_init = None.
Proof.
  split.
  - exact (proj1 (handler_stays_in_frame (mk_hdr 1 2) dns_frame sniffer_init) (proj2 dns_frame_fits) (proj1 dns_frame_fits)).
  - exact (proj2 (handler_stays_in_frame (mk_hdr 1 2) [1; 2] sniffer_init) eq_refl).
Defined.

Lemma displayed_packets_can_be_inspected_witness :
  exists s' o, Sniffing "eth0" true all_filter [(mk_hdr 1 2, dns_frame)] sniffer_init = Some (s', o) /\
  exists o1 o2 o3, Detailed_analysis s' 1 = Some (tt, o1 ++ o2 ++ o3)%list /\ hex_bytes o2 = dns_frame.
Proof.
  destruct (Sniffing "eth0" true all_filter [(mk_hdr 1 2, dns_frame)] sniffer_init) as [[s' o]|] eqn:Hrun.
  - exists s', o. split; [reflexivity|].
    destruct (displayed_packets_can_be_inspected "eth0" all_filter _ _ s' o 0 (mk_hdr 1 2, dns_frame) Hrun eq_refl eq_refl)
      as (o1 & o2 & o3 & H1 & _ & H2 & _). exists o1, o2, o3. split; [exact H1|exact H2].
  - exfalso. revert Hrun. vm_compute. discriminate.
Defined.

(** A filter that starts with a 1, such as "100000" for HTTP only, shows every
    packet: the test for an empty filter looks at its first character only. *)
Lemma leading_one_shows_everything k : print_wanted [49; 48; 48; 48; 48; 48] k = true.
Proof. reflexivity. Qed.

(** A filter with a leading 0 shows the protocols it selects, and no others. *)
Lemma leading_zero_filters f k :
  print_wanted (48 :: f) k =
    (filter_bit f 0 49 && is_tcp k && ((k_src k =? 443) || (k_dst k =? 443))) ||
    (filter_bit f 1 49 && ((k_src k =? 53) || (k_dst k =? 53))) ||
    (filter_bit f 2 49 && is_arp k) || (filter_bit f 3 49 && is_tcp k) || (filter_bit f 4 49 && is_udp k).
Proof. reflexivity. Qed.
