(* ===== verification/Sh.v ===== *)
(** The shell's parser ([user/sh.c]): tokens, the recursive-descent parser over
    positions of the command line, the termination of the strings it found in
    place, and the recognition of built-in commands.  A command line is the
    list of its characters before the terminating NUL; a [char *] into it is a
    position. *)
From S2P Require Import Prelude.

(** * Parsed commands *)

(** The commands, over the type of their strings: pairs of positions
    [(q, eq)] while parsing, the characters themselves when they are read. *)
Record redir (X : Type) := mk_redir { r_file : X; r_mode : Z; r_fd : Z }.
Inductive cmd (X : Type) :=
| EXEC (argv : list X)
| REDIR (c : cmd X) (r : redir X)
| PIPE (left right : cmd X)
| LIST (left right : cmd X)
| BACK (c : cmd X).
Arguments mk_redir {X} _ _ _.
Arguments r_file {X} _.
Arguments r_mode {X} _.
Arguments r_fd {X} _.
Arguments EXEC {X} _.
Arguments REDIR {X} _ _.
Arguments PIPE {X} _ _.
Arguments LIST {X} _ _.
Arguments BACK {X} _.

(** The constructors of the code: [malloc], [memset] and the fields. *)
Definition execcmd {X} : cmd X := EXEC [].
Definition redircmd {X} (subcmd : cmd X) (file : X) (mode fd : Z) : cmd X := REDIR subcmd (mk_redir file mode fd).
Definition pipecmd {X} (left right : cmd X) : cmd X := PIPE left right.
Definition listcmd {X} (left right : cmd X) : cmd X := LIST left right.
Definition backcmd {X} (subcmd : cmd X) : cmd X := BACK subcmd.

Definition MAXARGS : nat := 10.
Definition O_RDONLY : Z := 0x000.
Definition O_WRONLY : Z := 0x001.
Definition O_CREATE : Z := 0x200.
Definition O_TRUNC : Z := 0x400.

(** What a parsing function ends with: a value, [panic] with its message, or
    no end within the fuel. *)
Inductive result (A : Type) := Ok (a : A) | Panic (msg : string) | NoFuel.
Arguments Ok {A} _.
Arguments Panic {A} _.
Arguments NoFuel {A}.
Definition rbind {A B} (m : result A) (k : A -> result B) : result B :=
  match m with Ok a => k a | Panic msg => Panic msg | NoFuel => NoFuel end.
Declare Scope sh_scope.
Delimit Scope sh_scope with sh.
Local Open Scope sh_scope.
Notation "'let!' p := m 'in' k" := (rbind m (fun p => k)) (at level 90, p strict pattern, m at next level, k at level 200) : sh_scope.

(** * Tokens *)

(** [strchr(whitespace, c)] and [strchr(symbols, c)]; a NUL is in neither. *)
Definition is_ws (c : Z) : bool := bool_decide (c ∈ [32; 9; 13; 10; 11]).
Definition is_sym (c : Z) : bool := bool_decide (c ∈ [60; 124; 62; 38; 59; 40; 41]).
Definition c_lt : Z := 60.
Definition c_bar : Z := 124.
Definition c_gt : Z := 62.
Definition c_amp : Z := 38.
Definition c_semi : Z := 59.
Definition c_lpar : Z := 40.
Definition c_rpar : Z := 41.
Definition c_plus : Z := 43.
Definition c_a : Z := 97.

Section parser.
Variable buf : list Z.

(** [*s], where [es] is the position of the terminating NUL. *)
Definition es : nat := length buf.
Definition ch (s : nat) : Z := nth s buf 0.

(** [while(s < es && test( *s)) s++]. *)
Fixpoint skip_loop (test : Z -> bool) (k s : nat) : nat :=
  match k with
  | O => s
  | S k' => if (s <? es)%nat && test (ch s) then skip_loop test k' (S s) else s
  end.
Definition skip (test : Z -> bool) (s : nat) : nat := skip_loop test (es - s) s.

(** [gettoken]: the kind of the token, its ends [q] and [eq], the position
    after it. *)
Definition gettoken (s : nat) : Z * nat * nat * nat :=
  let s := skip is_ws s in
  let q := s in
  let c := ch s in
  let '(ret, s) :=
    if c =? 0 then (0, s)
    else if (c =? c_bar) || (c =? c_lpar) || (c =? c_rpar) || (c =? c_semi) || (c =? c_amp) || (c =? c_lt) then (c, S s)
    else if c =? c_gt then (if ch (S s) =? c_gt then (c_plus, S (S s)) else (c, S s))
    else (c_a, skip (fun x => negb (is_ws x) && negb (is_sym x)) s) in
  (ret, q, s, skip is_ws s).

(** [peek]: whether the next character is one of [toks], and its position. *)
Definition peek (s : nat) (toks : list Z) : bool * nat :=
  let s := skip is_ws s in
  (negb (ch s =? 0) && bool_decide (ch s ∈ toks), s).

(** * The parser *)

(** A string of the line: where it starts and the position after it. *)
Definition str : Type := nat * nat.

(** The loop of [parseredirs].  The command it wraps is an [execcmd] that
    [parseexec] goes on filling in, so the wrappers are kept beside it,
    innermost first. *)
Fixpoint parseredirs (k : nat) (rs : list (redir str)) (s : nat) : result (list (redir str) * nat) :=
  match k with
  | O => NoFuel
  | S k' =>
      let '(found, s) := peek s [c_lt; c_gt] in
      if negb found then Ok (rs, s) else
      let '(tok, _, _, s) := gettoken s in
      let '(tok2, q, eq, s) := gettoken s in
      if negb (tok2 =? c_a) then Panic "missing file for redirection" else
      let rs :=
        if tok =? c_lt then rs ++ [mk_redir (q, eq) O_RDONLY 0]
        else if tok =? c_gt then rs ++ [mk_redir (q, eq) (Z.lor (Z.lor O_WRONLY O_CREATE) O_TRUNC) 1]
        else if tok =? c_plus then rs ++ [mk_redir (q, eq) (Z.lor O_WRONLY O_CREATE) 1]
        else rs in
      parseredirs k' rs s
  end.

Definition redircmds {X} (c : cmd X) (rs : list (redir X)) : cmd X :=
  foldl (fun c r => redircmd c (r_file r) (r_mode r) (r_fd r)) c rs.

(** The [execcmd] with its arguments filled in. *)
Definition fill_args {X} (c : cmd X) (argv : list X) : cmd X := match c with EXEC _ => EXEC argv | c => c end.

(** The loop of [parseexec]. *)
Fixpoint parseargs (k : nat) (argv : list str) (rs : list (redir str)) (s : nat) : result (list str * list (redir str) * nat) :=
  match k with
  | O => NoFuel
  | S k' =>
      let '(stop, s) := peek s [c_bar; c_rpar; c_amp; c_semi] in
      if stop then Ok (argv, rs, s) else
      let '(tok, q, eq, s) := gettoken s in
      if tok =? 0 then Ok (argv, rs, s) else
      if negb (tok =? c_a) then Panic "syntax" else
      let argv := argv ++ [(q, eq)] in
      if (MAXARGS <=? length argv)%nat then Panic "too many args" else
      let! (rs, s) := parseredirs (S es) rs s in
      parseargs k' argv rs s
  end.

(** The loop over [&] in [parseline]. *)
Fixpoint parseback (k : nat) (c : cmd str) (s : nat) : result (cmd str * nat) :=
  match k with
  | O => NoFuel
  | S k' =>
      let '(found, s) := peek s [c_amp] in
      if negb found then Ok (c, s) else
      let '(_, _, _, s) := gettoken s in
      parseback k' (backcmd c) s
  end.

Fixpoint parseline (k : nat) (s : nat) : result (cmd str * nat) :=
  match k with
  | O => NoFuel
  | S k' =>
      let! (c, s) := parsepipe k' s in
      let! (c, s) := parseback (S es) c s in
      let '(found, s) := peek s [c_semi] in
      if negb found then Ok (c, s) else
      let '(_, _, _, s) := gettoken s in
      let! (c2, s) := parseline k' s in
      Ok (listcmd c c2, s)
  end
with parsepipe (k : nat) (s : nat) : result (cmd str * nat) :=
  match k with
  | O => NoFuel
  | S k' =>
      let! (c, s) := parseexec k' s in
      let '(found, s) := peek s [c_bar] in
      if negb found then Ok (c, s) else
      let '(_, _, _, s) := gettoken s in
      let! (c2, s) := parsepipe k' s in
      Ok (pipecmd c c2, s)
  end
with parseexec (k : nat) (s : nat) : result (cmd str * nat) :=
  match k with
  | O => NoFuel
  | S k' =>
      let '(block, s) := peek s [c_lpar] in
      if block then parseblock k' s else
      let! (rs, s) := parseredirs (S es) [] s in
      let! (argv, rs, s) := parseargs (S es) [] rs s in
      Ok (redircmds (fill_args execcmd argv) rs, s)
  end
with parseblock (k : nat) (s : nat) : result (cmd str * nat) :=
  match k with
  | O => NoFuel
  | S k' =>
      let '(open, s) := peek s [c_lpar] in
      if negb open then Panic "parseblock" else
      let '(_, _, _, s) := gettoken s in
      let! (c, s) := parseline k' s in
      let '(close, s) := peek s [c_rpar] in
      if negb close then Panic "syntax - missing )" else
      let '(_, _, _, s) := gettoken s in
      let! (rs, s) := parseredirs (S es) [] s in
      Ok (redircmds c rs, s)
  end.

(** [nulterminate]: a NUL after every string of the command, in the memory
    that holds the line. *)
Fixpoint nulterminate (c : cmd str) (mem : list Z) : list Z :=
  match c with
  | EXEC argv => foldl (fun mem (a : str) => <[snd a := 0]> mem) mem argv
  | REDIR c r => let mem := nulterminate c mem in <[snd (r_file r) := 0]> mem
  | PIPE l r => nulterminate r (nulterminate l mem)
  | LIST l r => nulterminate r (nulterminate l mem)
  | BACK c => nulterminate c mem
  end.

(** [parsecmd]: the command and the memory of the line afterwards. *)
Definition parsecmd : result (cmd str * list Z) :=
  let! (c, s) := parseline (4 * es + 4) 0 in
  let '(_, s) := peek s [] in
  if negb (s =? es)%nat then Panic "syntax" else
  Ok (c, nulterminate c (buf ++ [0])).
End parser.

(** * The language of the shell *)

Inductive tok := TWord (w : list Z) | TSym (c : Z) | TAppend.

Definition is_word (c : Z) : bool := negb (is_ws c) && negb (is_sym c).

(** The tokens of a line: words are maximal, [>>] is one token, white space
    separates. *)
Fixpoint lex (s : list Z) : list tok :=
  match s with
  | [] => []
  | c :: s' =>
      if is_ws c then lex s' else
      if is_word c then
        match s' with
        | d :: _ => if is_word d then match lex s' with TWord w :: r => TWord (c :: w) :: r | r => r end else TWord [c] :: lex s'
        | [] => [TWord [c]]
        end else
      if c =? c_gt then
        match s' with
        | d :: s'' => if d =? c_gt then TAppend :: lex s'' else TSym c :: lex s'
        | [] => [TSym c]
        end
      else TSym c :: lex s'
  end.

(** The grammar, with its redirections [<], [>] and [>>] of a file. *)
Inductive rkind := RIn | ROut | RAppend.
Definition aredir : Type := rkind * list Z.
Inductive aline :=
| LEnd (p : apipe) (nback : nat)
| LSeq (p : apipe) (nback : nat) (l : aline)
with apipe :=
| POne (e : aexec)
| PBar (e : aexec) (p : apipe)
with aexec :=
| XCmd (rs : list aredir) (args : list (list Z * list aredir))
| XBlock (l : aline) (rs : list aredir).

Scheme aline_mind := Induction for aline Sort Prop
with apipe_mind := Induction for apipe Sort Prop
with aexec_mind := Induction for aexec Sort Prop.
Combined Scheme ast_ind from aline_mind, apipe_mind, aexec_mind.

(** Its tokens. *)
Definition rkind_tok (k : rkind) : tok := match k with RIn => TSym c_lt | ROut => TSym c_gt | RAppend => TAppend end.
Definition redir_toks (rs : list aredir) : list tok := mjoin ((fun r => [rkind_tok (fst r); TWord (snd r)]) <$> rs).
Definition arg_toks (args : list (list Z * list aredir)) : list tok :=
  mjoin ((fun a => TWord (fst a) :: redir_toks (snd a)) <$> args).
Fixpoint line_toks (l : aline) : list tok :=
  match l with
  | LEnd p n => pipe_toks p ++ replicate n (TSym c_amp)
  | LSeq p n l => pipe_toks p ++ replicate n (TSym c_amp) ++ TSym c_semi :: line_toks l
  end
with pipe_toks (p : apipe) : list tok :=
  match p with
  | POne e => exec_toks e
  | PBar e p => exec_toks e ++ TSym c_bar :: pipe_toks p
  end
with exec_toks (e : aexec) : list tok :=
  match e with
  | XCmd rs args => redir_toks rs ++ arg_toks args
  | XBlock l rs => TSym c_lpar :: line_toks l ++ TSym c_rpar :: redir_toks rs
  end.

(** And the command it stands for; a redirection further right is applied
    further out. *)
Definition redir_of (r : aredir) : redir (list Z) :=
  match fst r with
  | RIn => mk_redir (snd r) O_RDONLY 0
  | ROut => mk_redir (snd r) (Z.lor (Z.lor O_WRONLY O_CREATE) O_TRUNC) 1
  | RAppend => mk_redir (snd r) (Z.lor O_WRONLY O_CREATE) 1
  end.
Fixpoint line_cmd (l : aline) : cmd (list Z) :=
  match l with
  | LEnd p n => Nat.iter n BACK (pipe_cmd p)
  | LSeq p n l => LIST (Nat.iter n BACK (pipe_cmd p)) (line_cmd l)
  end
with pipe_cmd (p : apipe) : cmd (list Z) :=
  match p with
  | POne e => exec_cmd e
  | PBar e p => PIPE (exec_cmd e) (pipe_cmd p)
  end
with exec_cmd (e : aexec) : cmd (list Z) :=
  match e with
  | XCmd rs args => redircmds (EXEC (fst <$> args)) (redir_of <$> (rs ++ mjoin (snd <$> args)))
  | XBlock l rs => redircmds (line_cmd l) (redir_of <$> rs)
  end.

(** Fewer than [MAXARGS] arguments in every simple command. *)
Fixpoint line_fits (l : aline) : bool :=
  match l with
  | LEnd p n => pipe_fits p
  | LSeq p n l => pipe_fits p && line_fits l
  end
with pipe_fits (p : apipe) : bool :=
  match p with
  | POne e => exec_fits e
  | PBar e p => exec_fits e && pipe_fits p
  end
with exec_fits (e : aexec) : bool :=
  match e with
  | XCmd rs args => (length args <? MAXARGS)%nat
  | XBlock l rs => line_fits l
  end.

(** * A parser over tokens *)

(** The same parser, over the tokens of the line: the reference that the
    code's scanning is compared with. *)
Fixpoint tredirs (ts : list tok) : result (list aredir * list tok) :=
  match ts with
  | t :: ts' =>
      let go (k : rkind) :=
        match ts' with
        | TWord w :: r => let! (rs, r) := tredirs r in Ok ((k, w) :: rs, r)
        | _ => Panic "missing file for redirection"
        end in
      match t with
      | TSym c => if c =? c_lt then go RIn else if c =? c_gt then go ROut else Ok ([], ts)
      | TAppend => go RAppend
      | TWord _ => Ok ([], ts)
      end
  | [] => Ok ([], ts)
  end.

Definition stops (t : tok) : bool :=
  match t with TSym c => bool_decide (c ∈ [c_bar; c_rpar; c_amp; c_semi]) | _ => false end.

Fixpoint targs (k : nat) (n : nat) (ts : list tok) : result (list (list Z * list aredir) * list tok) :=
  match k with
  | O => NoFuel
  | S k' =>
      match ts with
      | [] => Ok ([], ts)
      | TWord w :: ts' =>
          if (MAXARGS <=? S n)%nat then Panic "too many args" else
          let! (rs, ts') := tredirs ts' in
          let! (args, ts') := targs k' (S n) ts' in
          Ok ((w, rs) :: args, ts')
      | t :: _ => if stops t then Ok ([], ts) else Panic "syntax"
      end
  end.

Definition sym_head (c : Z) (ts : list tok) : bool := match ts with TSym d :: _ => d =? c | _ => false end.

Fixpoint tback (ts : list tok) : nat * list tok :=
  match ts with
  | TSym c :: ts' => if c =? c_amp then let '(n, r) := tback ts' in (S n, r) else (O, ts)
  | _ => (O, ts)
  end.

Fixpoint tline (k : nat) (ts : list tok) : result (aline * list tok) :=
  match k with
  | O => NoFuel
  | S k' =>
      let! (p, ts) := tpipe k' ts in
      let '(n, ts) := tback ts in
      if sym_head c_semi ts then let! (l, ts) := tline k' (tail ts) in Ok (LSeq p n l, ts)
      else Ok (LEnd p n, ts)
  end
with tpipe (k : nat) (ts : list tok) : result (apipe * list tok) :=
  match k with
  | O => NoFuel
  | S k' =>
      let! (e, ts) := texec k' ts in
      if sym_head c_bar ts then let! (p, ts) := tpipe k' (tail ts) in Ok (PBar e p, ts)
      else Ok (POne e, ts)
  end
with texec (k : nat) (ts : list tok) : result (aexec * list tok) :=
  match k with
  | O => NoFuel
  | S k' =>
      if sym_head c_lpar ts then tblock k' ts else
      let! (rs, ts) := tredirs ts in
      let! (args, ts) := targs (S (length ts)) 0 ts in
      Ok (XCmd rs args, ts)
  end
with tblock (k : nat) (ts : list tok) : result (aexec * list tok) :=
  match k with
  | O => NoFuel
  | S k' =>
      if negb (sym_head c_lpar ts) then Panic "parseblock" else
      let! (l, ts) := tline k' (tail ts) in
      if negb (sym_head c_rpar ts) then Panic "syntax - missing )" else
      let! (rs, ts) := tredirs (tail ts) in
      Ok (XBlock l rs, ts)
  end.

(** ** It reads exactly the grammar *)

(** [r] cannot continue a run of redirections. *)
Definition no_redir (r : list tok) : bool :=
  match r with TSym c :: _ => negb ((c =? c_lt) || (c =? c_gt)) | TAppend :: _ => false | _ => true end.

Lemma tredirs_sound n : forall ts rs r, (length ts <= n)%nat -> tredirs ts = Ok (rs, r) -> ts = redir_toks rs ++ r /\ no_redir r = true.
Proof.
  induction n as [|n IH]; intros ts rs r Hn Ht; (destruct ts as [|t ts']; [by inversion Ht|]); [cbn in Hn; lia|].
  assert (Hgo : forall k, (match ts' with
      | TWord w :: r => let! (rs, r) := tredirs r in Ok ((k, w) :: rs, r)
      | _ => Panic "missing file for redirection" end) = Ok (rs, r) -> t = rkind_tok k ->
      t :: ts' = redir_toks rs ++ r /\ no_redir r = true).
  { intros k Hk ->. destruct ts' as [|[w| |] r']; try done. destruct (tredirs r') as [[rs' r'']| |] eqn:Hr; try done.
    cbn in Hk. simplify_eq. apply IH in Hr as [-> Hr]; [|cbn in Hn; lia]. done. }
  cbn [tredirs] in Ht. destruct t as [w|c|]; [by inversion Ht| |by apply (Hgo RAppend)].
  destruct (Z.eqb_spec c c_lt) as [->|H1]; [by apply (Hgo RIn)|].
  destruct (Z.eqb_spec c c_gt) as [->|H2]; [by apply (Hgo ROut)|].
  simplify_eq. split; [done|]. cbn. apply Z.eqb_neq in H1, H2. by rewrite H1, H2.
Qed.

Lemma tredirs_complete rs r : no_redir r = true -> tredirs (redir_toks rs ++ r) = Ok (rs, r).
Proof.
  intros Hr. induction rs as [|[k w] rs IH].
  - destruct r as [|[]]; try done. cbn in Hr |- *. rewrite negb_true_iff, orb_false_iff in Hr. by destruct Hr as [-> ->].
  - change (tredirs (rkind_tok k :: TWord w :: (redir_toks rs ++ r)) = Ok ((k, w) :: rs, r)).
    destruct k; cbn [tredirs rkind_tok]; change (c_gt =? c_lt) with false; rewrite ?Z.eqb_refl, IH; done.
Qed.

Lemma tredirs_total ts : tredirs ts <> NoFuel.
Proof.
  remember (length ts) as n eqn:Hn. revert ts Hn. induction (lt_wf n) as [n _ IH]. intros ts ->.
  destruct ts as [|t ts']; [done|].
  assert (Hgo : forall k, (match ts' with
      | TWord w :: r => let! (rs, r) := tredirs r in Ok ((k, w) :: rs, r)
      | _ => Panic "missing file for redirection" end) <> NoFuel).
  { intros k. destruct ts' as [|[w| |] r']; try done. specialize (IH (length r') ltac:(cbn; lia) r' eq_refl).
    by destruct (tredirs r') as [[]| |]. }
  cbn [tredirs]. destruct t as [w|c|]; [done| |by apply Hgo]. destruct (c =? c_lt), (c =? c_gt); try apply Hgo; done.
Qed.

(** [r] cannot continue a simple command. *)
Definition ends_args (r : list tok) : bool := match r with [] => true | t :: _ => stops t end.

Lemma stops_no_redir r : ends_args r = true -> no_redir r = true.
Proof.
  destruct r as [|[w|c|] r]; try done. cbn. intros Hs%bool_decide_eq_true. rewrite !elem_of_cons in Hs.
  destruct Hs as [->|[->|[->|[->|Hs]]]]; try done. by apply not_elem_of_nil in Hs.
Qed.

Lemma targs_sound k : forall n ts args r, targs k n ts = Ok (args, r) ->
  ts = arg_toks args ++ r /\ (no_redir ts = true -> ends_args r = true) /\ (n + length args < MAXARGS \/ args = [])%nat.
Proof.
  induction k as [|k IH]; intros n ts args r Ht; [done|]. cbn [targs] in Ht. destruct ts as [|[w|c|] ts'].
  - simplify_eq. by auto.
  - destruct (Nat.leb_spec MAXARGS (S n)); [done|]. destruct (tredirs ts') as [[rs r']| |] eqn:Hr; try done. cbn in Ht.
    destruct (targs k (S n) r') as [[args' r'']| |] eqn:Ha; try done. cbn in Ht. simplify_eq.
    apply (tredirs_sound _ _ _ _ (le_n _)) in Hr as [-> Hnr]. apply IH in Ha as (-> & He & Hl).
    split; [by cbn; rewrite <- app_assoc|]. split; [auto|]. left. destruct Hl as [Hl| ->]; cbn; lia.
  - destruct (stops (TSym c)) eqn:Hs; [|done]. simplify_eq. auto.
  - cbn in Ht. done.
Qed.

Lemma arg_toks_ends args r : ends_args r = true -> no_redir (arg_toks args ++ r) = true.
Proof. intros. destruct args; [by apply stops_no_redir|done]. Qed.

Lemma targs_complete args r : ends_args r = true -> forall k n, (length args < k)%nat -> (n + length args < MAXARGS \/ args = [])%nat ->
  targs k n (arg_toks args ++ r) = Ok (args, r).
Proof.
  intros Hr. induction args as [|[w rs] args IH]; intros k n Hk Hn; destruct k as [|k]; cbn [length] in *; try lia.
  - change (targs (S k) n r = Ok ([], r)). cbn [targs]. destruct r as [|[w|c|] r]; try done. cbn [ends_args] in Hr. by rewrite Hr.
  - replace (arg_toks ((w, rs) :: args) ++ r) with (TWord w :: redir_toks rs ++ arg_toks args ++ r) by (cbn; by rewrite <- app_assoc).
    cbn [targs]. destruct (Nat.leb_spec MAXARGS (S n)); [destruct Hn; [lia|done]|].
    rewrite tredirs_complete by by apply arg_toks_ends. cbn [rbind]. rewrite IH; [done|lia|]. left. destruct Hn; [lia|done].
Qed.

Lemma targs_total k : forall n ts, (length ts < k)%nat -> targs k n ts <> NoFuel.
Proof.
  induction k as [|k IH]; intros n ts Hk; [lia|]. cbn [targs]. destruct ts as [|[w|c|] ts']; cbn in Hk; try done.
  - destruct (Nat.leb MAXARGS (S n)); [done|]. pose proof (tredirs_total ts') as Ht.
    destruct (tredirs ts') as [[rs r']| |] eqn:Hr; try done. cbn [rbind].
    apply (tredirs_sound _ _ _ _ (le_n _)) in Hr as [-> _]. rewrite length_app in Hk.
    specialize (IH (S n) r' ltac:(lia)). by destruct (targs k (S n) r') as [[]| |].
  - by destruct (stops (TSym c)).
Qed.

Lemma tback_spec ts n r : tback ts = (n, r) -> ts = replicate n (TSym c_amp) ++ r /\ sym_head c_amp r = false.
Proof.
  revert n r. induction ts as [|[w|c|] ts IH]; intros n r Ht; cbn in Ht; simplify_eq; try done.
  destruct (Z.eqb_spec c c_amp) as [->|Hc]; [|simplify_eq; split; [done|]; by apply Z.eqb_neq].
  destruct (tback ts) as [m r'] eqn:Hm. simplify_eq. destruct (IH m r eq_refl) as [-> Hs]. done.
Qed.

Lemma tback_complete n r : sym_head c_amp r = false -> tback (replicate n (TSym c_amp) ++ r) = (n, r).
Proof.
  intros Hr. induction n as [|n IH]; cbn; [|by rewrite IH].
  destruct r as [|[w|c|] r]; cbn in *; try done. by rewrite Hr.
Qed.

Lemma sym_head_true c ts : sym_head c ts = true -> exists r, ts = TSym c :: r.
Proof. destruct ts as [|[w|d|] ts]; cbn; try done. intros ->%Z.eqb_eq. eauto. Qed.

Lemma rbind_Ok {A B} (m : result A) (k : A -> result B) b : rbind m k = Ok b -> exists a, m = Ok a /\ k a = Ok b.
Proof. destruct m; try done. eauto. Qed.

(** What may follow a line, a pipe and a command. *)
Definition follow (cs : list Z) (r : list tok) : bool :=
  match r with [] => true | TSym c :: _ => bool_decide (c ∈ cs) | _ => false end.

Lemma tokens_sound k :
  (forall ts l r, tline k ts = Ok (l, r) -> ts = line_toks l ++ r /\ line_fits l = true) /\
  (forall ts p r, tpipe k ts = Ok (p, r) -> ts = pipe_toks p ++ r /\ pipe_fits p = true) /\
  (forall ts e r, texec k ts = Ok (e, r) -> ts = exec_toks e ++ r /\ exec_fits e = true) /\
  (forall ts e r, tblock k ts = Ok (e, r) -> ts = exec_toks e ++ r /\ exec_fits e = true).
Proof.
  induction k as [|k (IHl & IHp & IHe & IHb)]; [done|]. split_and!; intros ts x r Ht; cbn [tline tpipe texec tblock] in Ht.
  - apply rbind_Ok in Ht as ([p ts1] & Hp & Ht). apply IHp in Hp as [-> Hfp].
    destruct (tback ts1) as [n ts2] eqn:Hb. apply tback_spec in Hb as [-> _].
    destruct (sym_head c_semi ts2) eqn:Hs; [|by simplify_eq; cbn; rewrite <- app_assoc].
    apply sym_head_true in Hs as [ts3 ->]. apply rbind_Ok in Ht as ([l ts4] & Hl & Ht). cbn in Hl. apply IHl in Hl as [-> Hfl].
    simplify_eq. cbn. rewrite <- !app_assoc, Hfp, Hfl. done.
  - apply rbind_Ok in Ht as ([e ts1] & He & Ht). apply IHe in He as [-> Hfe].
    destruct (sym_head c_bar ts1) eqn:Hs; [|by simplify_eq].
    apply sym_head_true in Hs as [ts2 ->]. apply rbind_Ok in Ht as ([p ts3] & Hp & Ht). cbn in Hp. apply IHp in Hp as [-> Hfp].
    simplify_eq. cbn. rewrite <- !app_assoc, Hfe, Hfp. done.
  - destruct (sym_head c_lpar ts); [by apply IHb|].
    apply rbind_Ok in Ht as ([rs ts1] & Hr & Ht). apply (tredirs_sound _ _ _ _ (le_n _)) in Hr as [-> _].
    apply rbind_Ok in Ht as ([args ts2] & Ha & Ht). apply targs_sound in Ha as (-> & _ & Hl). simplify_eq. cbn [exec_toks exec_fits].
    rewrite <- app_assoc. split; [done|]. apply Nat.ltb_lt. destruct Hl as [Hl| ->]; [lia|]. cbn. unfold MAXARGS. lia.
  - destruct (sym_head c_lpar ts) eqn:Hs; [|done]. cbn in Ht. apply sym_head_true in Hs as [ts1 ->].
    apply rbind_Ok in Ht as ([l ts2] & Hl & Ht). cbn in Hl. apply IHl in Hl as [-> Hfl].
    destruct (sym_head c_rpar ts2) eqn:Hs; [|done]. cbn in Ht. apply sym_head_true in Hs as [ts3 ->].
    apply rbind_Ok in Ht as ([rs ts4] & Hr & Ht). cbn in Hr. apply (tredirs_sound _ _ _ _ (le_n _)) in Hr as [-> _].
    simplify_eq. cbn. rewrite <- app_assoc. done.
Qed.

Lemma follow_weaken cs ds r : cs ⊆ ds -> follow cs r = true -> follow ds r = true.
Proof. intros Hs. destruct r as [|[w|c|] r]; try done. cbn. rewrite !bool_decide_eq_true. apply Hs. Qed.

Lemma follow_ends r : follow [c_bar; c_rpar; c_amp; c_semi] r = ends_args r.
Proof. by destruct r as [|[]]. Qed.

Lemma follow_no_head cs c r : follow cs r = true -> c ∉ cs -> sym_head c r = false.
Proof.
  destruct r as [|[w|d|] r]; try done. cbn. rewrite bool_decide_eq_true. intros Hd Hc. apply Z.eqb_neq. by intros ->.
Qed.

Lemma follow_cons c cs r : c ∈ cs -> follow cs (TSym c :: r) = true.
Proof. intros. by apply bool_decide_eq_true. Qed.

Lemma follow_amps cs n r : c_amp ∈ cs -> follow cs r = true -> follow cs (replicate n (TSym c_amp) ++ r) = true.
Proof. intros Hc Hr. destruct n; [done|]. cbn. by apply bool_decide_eq_true. Qed.

(** No simple command starts with an opening bracket. *)
Lemma cmd_no_block rs args r : ends_args r = true -> sym_head c_lpar (redir_toks rs ++ arg_toks args ++ r) = false.
Proof.
  intros Hr. destruct rs as [|[[] w] rs]; [|done..]. destruct args as [|[w rs] args]; [|done].
  change (sym_head c_lpar r = false). eapply follow_no_head; [by rewrite follow_ends|]. rewrite !not_elem_of_cons. split_and!; try done. apply not_elem_of_nil.
Qed.

Local Ltac side := solve [ done | lia | set_solver | rewrite !not_elem_of_cons; split_and!; try done; apply not_elem_of_nil | rewrite !elem_of_cons; tauto ].

Lemma tokens_complete :
  (forall l k r, line_fits l = true -> follow [c_rpar] r = true -> (4 * length (line_toks l ++ r) + 4 <= k)%nat ->
     tline k (line_toks l ++ r) = Ok (l, r)) /\
  (forall p k r, pipe_fits p = true -> follow [c_rpar; c_amp; c_semi] r = true -> (4 * length (pipe_toks p ++ r) + 3 <= k)%nat ->
     tpipe k (pipe_toks p ++ r) = Ok (p, r)) /\
  (forall e k r, exec_fits e = true -> follow [c_bar; c_rpar; c_amp; c_semi] r = true -> (4 * length (exec_toks e ++ r) + 2 <= k)%nat ->
     texec k (exec_toks e ++ r) = Ok (e, r)).
Proof.
  apply ast_ind.
  - intros p IHp n k r Hf Hr Hk. cbn [line_toks line_fits] in *. rewrite <- app_assoc in *. destruct k as [|k]; [lia|].
    assert (Hr' : follow [c_rpar; c_amp; c_semi] r = true) by (eapply follow_weaken; [|done]; set_solver).
    cbn [tline]. rewrite IHp; [|done|apply follow_amps; side|lia]. cbn [rbind].
    rewrite tback_complete by (eapply follow_no_head; [exact Hr|side]).
    rewrite (follow_no_head _ _ _ Hr) by side. done.
  - intros p IHp n l IHl k r Hf Hr Hk. cbn [line_toks line_fits] in *. apply andb_true_iff in Hf as [Hfp Hfl].
    rewrite <- !app_assoc in *. cbn [app] in *. destruct k as [|k]; [lia|].
    cbn [tline]. rewrite IHp; [|done|apply follow_amps; [side|apply follow_cons; side]|lia]. cbn [rbind].
    rewrite tback_complete by done. cbn [sym_head]. rewrite Z.eqb_refl. cbn [tail].
    rewrite !length_app in Hk. cbn [length] in Hk. rewrite IHl; [done|done|done|]. rewrite !length_app in *. lia.
  - intros e IHe k r Hf Hr Hk. cbn [pipe_toks pipe_fits] in *. destruct k as [|k]; [lia|]. cbn [tpipe].
    rewrite IHe; [|done|eapply follow_weaken; [|done]; set_solver|lia]. cbn [rbind].
    rewrite (follow_no_head _ _ _ Hr) by side. done.
  - intros e IHe p IHp k r Hf Hr Hk. cbn [pipe_toks pipe_fits] in *. apply andb_true_iff in Hf as [Hfe Hfp].
    rewrite <- !app_assoc in *. cbn [app] in *. destruct k as [|k]; [lia|]. cbn [tpipe].
    rewrite IHe; [|done|apply follow_cons; side|lia]. cbn [rbind sym_head]. rewrite Z.eqb_refl. cbn [tail].
    rewrite !length_app in Hk. cbn [length] in Hk. rewrite IHp; [done|done|done|]. rewrite !length_app in *. lia.
  - intros rs args k r Hf Hr Hk. rewrite follow_ends in Hr. cbn [exec_toks exec_fits] in *. rewrite <- app_assoc in *.
    destruct k as [|k]; [lia|]. cbn [texec]. rewrite cmd_no_block by done.
    rewrite tredirs_complete by by apply arg_toks_ends. cbn [rbind].
    rewrite targs_complete; [done|done| |left; by apply Nat.ltb_lt in Hf].
    rewrite length_app. assert (length args <= length (arg_toks args))%nat; [|lia].
    clear. induction args as [|[w rs] args IH]; [done|].
    change (arg_toks ((w, rs) :: args)) with ((TWord w :: redir_toks rs) ++ arg_toks args). rewrite length_app. cbn [length]. lia.
  - intros l IHl rs k r Hf Hr Hk. rewrite follow_ends in Hr. cbn [exec_toks exec_fits] in *. cbn [app] in *. rewrite <- app_assoc in *.
    cbn [app length] in *. destruct k as [|[|k]]; [lia..|]. cbn [texec tblock sym_head]. rewrite Z.eqb_refl. cbn [negb tail].
    rewrite IHl; [|done|apply follow_cons; side|lia]. cbn [rbind sym_head]. rewrite Z.eqb_refl. cbn [negb tail].
    rewrite tredirs_complete by by apply stops_no_redir. done.
Qed.

Lemma tokens_total k :
  (forall ts, (4 * length ts + 4 <= k)%nat -> tline k ts <> NoFuel) /\
  (forall ts, (4 * length ts + 3 <= k)%nat -> tpipe k ts <> NoFuel) /\
  (forall ts, (4 * length ts + 2 <= k)%nat -> texec k ts <> NoFuel) /\
  (forall ts, (4 * length ts + 1 <= k)%nat -> tblock k ts <> NoFuel).
Proof.
  induction k as [|k (IHl & IHp & IHe & IHb)]; [split_and!; intros; lia|].
  split_and!; intros ts Hk; cbn [tline tpipe texec tblock].
  - specialize (IHp ts ltac:(lia)). destruct (tpipe k ts) as [[p ts1]| |] eqn:Hp; try done. cbn [rbind].
    apply (tokens_sound k) in Hp as [-> _]. destruct (tback ts1) as [n ts2] eqn:Hb. apply tback_spec in Hb as [-> _].
    destruct (sym_head c_semi ts2) eqn:Hs; [|done]. apply sym_head_true in Hs as [ts3 ->]. cbn [tail].
    rewrite !length_app in Hk. cbn [length] in Hk. specialize (IHl ts3 ltac:(lia)). by destruct (tline k ts3) as [[]| |].
  - specialize (IHe ts ltac:(lia)). destruct (texec k ts) as [[p ts1]| |] eqn:Hp; try done. cbn [rbind].
    apply (tokens_sound k) in Hp as [-> _].
    destruct (sym_head c_bar ts1) eqn:Hs; [|done]. apply sym_head_true in Hs as [ts3 ->]. cbn [tail].
    rewrite !length_app in Hk. cbn [length] in Hk. specialize (IHp ts3 ltac:(lia)). by destruct (tpipe k ts3) as [[]| |].
  - destruct (sym_head c_lpar ts); [apply IHb; lia|]. pose proof (tredirs_total ts) as Ht.
    destruct (tredirs ts) as [[rs ts1]| |]; try done. cbn [rbind].
    pose proof (targs_total (S (length ts1)) 0 ts1 ltac:(lia)) as Ha. by destruct (targs (S (length ts1)) 0 ts1) as [[]| |].
  - destruct (sym_head c_lpar ts) eqn:Hs; [|done]. apply sym_head_true in Hs as [ts1 ->]. cbn [negb tail length] in *.
    specialize (IHl ts1 ltac:(lia)). destruct (tline k ts1) as [[l ts2]| |]; try done. cbn [rbind].
    destruct (sym_head c_rpar ts2); [|done]. cbn [negb]. pose proof (tredirs_total (tail ts2)) as Ht.
    by destruct (tredirs (tail ts2)) as [[rs ts3]| |].
Qed.

(** * The scanner finds the tokens *)

Lemma is_word_iff c : is_word c = true <-> is_ws c = false /\ is_sym c = false.
Proof. unfold is_word. by rewrite andb_true_iff, !negb_true_iff. Qed.

Lemma ws_not_sym c : is_ws c = true -> is_sym c = false.
Proof.
  unfold is_ws, is_sym. rewrite bool_decide_eq_true, bool_decide_eq_false. rewrite !elem_of_cons.
  intros [->|[->|[->|[->|[->|H]]]]]; [..|by apply not_elem_of_nil in H]; set_solver.
Qed.

Lemma sym_cases c : is_sym c = true ->
  c = c_lt \/ c = c_bar \/ c = c_gt \/ c = c_amp \/ c = c_semi \/ c = c_lpar \/ c = c_rpar.
Proof.
  unfold is_sym. rewrite bool_decide_eq_true, !elem_of_cons. intros [->|[->|[->|[->|[->|[->|[->|H]]]]]]]; [tauto..|].
  by apply not_elem_of_nil in H.
Qed.

Lemma lex_ws c s : is_ws c = true -> lex (c :: s) = lex s.
Proof. intros H. cbn [lex]. by rewrite H. Qed.

Lemma lex_sym c s : is_sym c = true -> c <> c_gt -> lex (c :: s) = TSym c :: lex s.
Proof.
  intros Hs Hc. cbn [lex]. replace (is_ws c) with false by (symmetry; destruct (is_ws c) eqn:H; [|done]; apply ws_not_sym in H; congruence).
  replace (is_word c) with false by (symmetry; unfold is_word; rewrite Hs; apply andb_false_r). apply Z.eqb_neq in Hc. by rewrite Hc.
Qed.

Lemma lex_word w s : w <> [] -> Forall (fun c => is_word c = true) w ->
  match s with [] => True | d :: _ => is_word d = false end -> lex (w ++ s) = TWord w :: lex s.
Proof.
  intros Hne Hw Hs. induction Hw as [|c w Hc Hw IH]; [done|]. cbn [app lex].
  pose proof (proj1 (is_word_iff c) Hc) as [-> _]. rewrite Hc. destruct w as [|d w].
  - cbn [app]. destruct s as [|d s]; [done|]. by rewrite Hs.
  - cbn [app] in *. rewrite (Forall_inv Hw). by rewrite IH.
Qed.

Lemma lex_nil_iff s : lex s = [] <-> Forall (fun c => is_ws c = true) s.
Proof.
  induction s as [|c s IH]; [done|]. rewrite Forall_cons. destruct (is_ws c) eqn:Hc.
  - rewrite lex_ws by done. tauto.
  - split; [|by intros [? _]]. intros Hl. exfalso. cbn [lex] in Hl. rewrite Hc in Hl.
    destruct (is_word c) eqn:Hw.
    + destruct s as [|d s]; [done|]. destruct (is_word d) eqn:Hd; [|done].
      destruct (lex (d :: s)) as [|[] r] eqn:He; try done.
      pose proof (Forall_inv (proj1 IH eq_refl)). apply is_word_iff in Hd as [? _]. congruence.
    + destruct (c =? c_gt); [|done]. destruct s as [|d s]; [done|]. by destruct (d =? c_gt).
Qed.

Lemma lex_length s : (length (lex s) <= length s)%nat.
Proof.
  remember (length s) as n eqn:Hn. revert s Hn. induction (lt_wf n) as [n _ IH]. intros [|c s] ->; [done|].
  assert (Hs := IH (length s) ltac:(cbn; lia) s eq_refl). cbn [lex length]. destruct (is_ws c); [lia|]. destruct (is_word c).
  - destruct s as [|d s]; [cbn; lia|]. destruct (is_word d); [|cbn in *; lia]. destruct (lex (d :: s)) as [|[] r]; cbn in *; lia.
  - destruct (c =? c_gt); [|cbn; lia]. destruct s as [|d s]; [cbn; lia|]. destruct (d =? c_gt); [|cbn in *; lia].
    pose proof (IH (length s) ltac:(cbn; lia) s eq_refl). cbn in *. lia.
Qed.

Section scanner.
Variable buf : list Z.
Hypothesis no_nul : Forall (fun c => c <> 0) buf.
Local Abbreviation es := (es buf).
Local Abbreviation ch := (ch buf).

Definition rest (s : nat) : list tok := lex (drop s buf).
Definition slice (a : str) : list Z := take (snd a - fst a) (drop (fst a) buf).

Lemma drop_ch s : (s < es)%nat -> drop s buf = ch s :: drop (S s) buf.
Proof.
  intros Hs. destruct (lookup_lt_is_Some_2 buf s Hs) as [x Hx]. unfold ch. rewrite (nth_lookup_Some _ _ _ _ Hx). by apply drop_S.
Qed.

Lemma rest_end s : (es <= s)%nat -> rest s = [].
Proof. intros Hs. unfold rest. by rewrite drop_ge. Qed.

Lemma ch_zero s : ch s = 0 <-> (es <= s)%nat.
Proof.
  unfold ch. split.
  - intros Hc. destruct (Nat.le_gt_cases es s) as [|Hs]; [done|]. destruct (lookup_lt_is_Some_2 buf s Hs) as [x Hx].
    rewrite (nth_lookup_Some _ _ _ _ Hx) in Hc. apply (Forall_lookup_1 _ _ _ _ no_nul) in Hx. done.
  - intros. by apply nth_overflow.
Qed.

Lemma skip_loop_spec test k s : (s <= es)%nat -> (es - s <= k)%nat ->
  (s <= skip_loop buf test k s <= es)%nat /\
  (forall i, (s <= i < skip_loop buf test k s)%nat -> test (ch i) = true) /\
  (skip_loop buf test k s = es \/ test (ch (skip_loop buf test k s)) = false).
Proof.
  revert s. induction k as [|k IH]; intros s Hs Hk; cbn [skip_loop].
  - split; [lia|]. split; [lia|]. left. lia.
  - destruct (Nat.ltb_spec s es) as [Hlt|Hge]; cbn [andb].
    + destruct (test (ch s)) eqn:Ht; [|split; [lia|]; split; [lia|]; auto].
      destruct (IH (S s)) as (H1 & H2 & H3); [lia..|]. split; [lia|]. split; [|done].
      intros i Hi. destruct (decide (i = s)) as [->|]; [done|]. apply H2. lia.
    + split; [lia|]. split; [lia|]. left. lia.
Qed.

Lemma skip_spec test s : (s <= es)%nat ->
  (s <= skip buf test s <= es)%nat /\ (forall i, (s <= i < skip buf test s)%nat -> test (ch i) = true) /\
  (skip buf test s = es \/ test (ch (skip buf test s)) = false).
Proof. intros. by apply skip_loop_spec. Qed.

(** Skipping white space loses no token. *)
Lemma rest_ws s e : (s <= e <= es)%nat -> (forall i, (s <= i < e)%nat -> is_ws (ch i) = true) -> rest s = rest e.
Proof.
  intros He Hws. remember (e - s)%nat as n eqn:Hn. revert s He Hws Hn. induction n as [|n IH]; intros s He Hws Hn.
  - f_equal. lia.
  - unfold rest. rewrite (drop_ch s) by lia. rewrite lex_ws by (apply Hws; lia). apply (IH (S s)); [lia| |lia].
    intros i Hi. apply Hws. lia.
Qed.

Lemma skip_ws_rest s : (s <= es)%nat -> rest (skip buf is_ws s) = rest s.
Proof. intros Hs. destruct (skip_spec is_ws s Hs) as (H1 & H2 & _). symmetry. apply rest_ws; done. Qed.

(** The stretch [[q, eq)] is a word of the line, maximal to the right. *)
Definition word_span (a : str) : Prop :=
  (fst a < snd a <= es)%nat /\ (forall i, (fst a <= i < snd a)%nat -> is_word (ch i) = true) /\
  (snd a = es \/ is_word (ch (snd a)) = false).

Lemma slice_word q e : (q <= e <= es)%nat -> (forall i, (q <= i < e)%nat -> is_word (ch i) = true) ->
  Forall (fun c => is_word c = true) (slice (q, e)).
Proof.
  intros He Hw. apply Forall_lookup_2. intros i x Hi. unfold slice in Hi. cbn in Hi.
  apply lookup_take_Some in Hi as [Hi Hlt]. rewrite lookup_drop in Hi.
  specialize (Hw (q + i)%nat ltac:(lia)). unfold ch in Hw. by rewrite (nth_lookup_Some _ _ _ _ Hi) in Hw.
Qed.

Lemma slice_app a : (fst a <= snd a)%nat -> drop (fst a) buf = slice a ++ drop (snd a) buf.
Proof.
  intros Ha. unfold slice. rewrite <- (take_drop (snd a - fst a) (drop (fst a) buf)) at 1. rewrite drop_drop. do 2 f_equal. lia.
Qed.

Lemma rest_word a : word_span a -> rest (fst a) = TWord (slice a) :: rest (snd a).
Proof.
  intros (Ha & Hw & He). unfold rest. rewrite slice_app by lia. apply lex_word.
  - intros Hn. apply (f_equal length) in Hn. unfold slice in Hn. rewrite length_take, length_drop in Hn. fold es in *. cbn in Hn. unfold Sh.es in *. lia.
  - destruct a. apply slice_word; [cbn in Ha; lia|done].
  - destruct He as [->|He]; [unfold Sh.es; by rewrite drop_all|].
    destruct (Nat.lt_ge_cases (snd a) es) as [Hl|Hl]; [by rewrite drop_ch|]. by rewrite drop_ge.
Qed.

(** The next token of the line, as [gettoken] reports it. *)
Definition token_found (ts : list tok) (ret : Z) (q eq s' : nat) : Prop :=
  match ts with
  | [] => ret = 0 /\ rest s' = []
  | TWord w :: r => ret = c_a /\ word_span (q, eq) /\ slice (q, eq) = w /\ rest s' = r
  | TSym c :: r => ret = c /\ is_sym c = true /\ rest s' = r
  | TAppend :: r => ret = c_plus /\ rest s' = r
  end.

Lemma gettoken_spec s : (s <= es)%nat ->
  let '(ret, q, eq, s') := gettoken buf s in token_found (rest s) ret q eq s' /\ (s' <= es)%nat.
Proof.
  intros Hs. unfold gettoken. destruct (skip_spec is_ws s Hs) as (H1 & _ & H3). rewrite <- (skip_ws_rest s Hs).
  set (q := skip buf is_ws s) in *. assert (Hskip : forall e, (e <= es)%nat -> rest (skip buf is_ws e) = rest e /\ (skip buf is_ws e <= es)%nat).
  { intros e He. split; [by apply skip_ws_rest|]. apply skip_spec. done. }
  destruct (Z.eqb_spec (ch q) 0) as [Hz|Hnz].
  { apply ch_zero in Hz. assert (Hr : rest q = []) by by apply rest_end.
    destruct (Hskip q ltac:(lia)) as [He Hl]. rewrite Hr. cbn [token_found]. rewrite He. auto. }
  rewrite ch_zero in Hnz. destruct H3 as [H3|Hnws]; [lia|].
  assert (Hq : rest q = lex (ch q :: drop (S q) buf)) by (unfold rest; by rewrite drop_ch by lia).
  assert (Hone : is_sym (ch q) = true -> ch q <> c_gt -> token_found (rest q) (ch q) q (S q) (skip buf is_ws (S q)) /\ (skip buf is_ws (S q) <= es)%nat).
  { intros Hsy Hgt. rewrite Hq, lex_sym by done. destruct (Hskip (S q) ltac:(lia)) as [He Hl]. cbn [token_found]. rewrite He. auto. }
  destruct ((ch q =? c_bar) || (ch q =? c_lpar) || (ch q =? c_rpar) || (ch q =? c_semi) || (ch q =? c_amp) || (ch q =? c_lt)) eqn:Hsy.
  { rewrite !orb_true_iff, !Z.eqb_eq in Hsy. apply Hone; destruct Hsy as [[[[[->| ->]| ->]| ->]| ->]| ->]; done. }
  destruct (Z.eqb_spec (ch q) c_gt) as [Hgt|Hgt].
  - destruct (Z.eqb_spec (ch (S q)) c_gt) as [Hgt2|Hgt2].
    + assert (S q < es)%nat. { destruct (Nat.lt_ge_cases (S q) es); [done|]. assert (Hz : ch (S q) = 0) by by apply ch_zero. by rewrite Hgt2 in Hz. }
      destruct (Hskip (S (S q)) ltac:(lia)) as [He Hl]. rewrite Hq, Hgt, drop_ch, Hgt2 by done.
      change (lex (c_gt :: c_gt :: drop (S (S q)) buf)) with (TAppend :: rest (S (S q))). cbn [token_found]. rewrite He. auto.
    + destruct (Hskip (S q) ltac:(lia)) as [He Hl].
      assert (Hr : rest q = TSym c_gt :: rest (S q)).
      { rewrite Hq, Hgt. unfold rest. destruct (Nat.lt_ge_cases (S q) es).
        - rewrite drop_ch by done. apply Z.eqb_neq in Hgt2. cbn [lex]. rewrite Hgt2. done.
        - by rewrite drop_ge. }
      rewrite Hr, Hgt. cbn [token_found]. rewrite He. auto.
  - assert (Hw : is_word (ch q) = true).
    { apply is_word_iff. split; [done|]. destruct (is_sym (ch q)) eqn:E; [|done]. apply sym_cases in E.
      rewrite !orb_false_iff, !Z.eqb_neq in Hsy. naive_solver. }
    destruct (skip_spec is_word q ltac:(lia)) as (G1 & G2 & G3). change (fun x => negb (is_ws x) && negb (is_sym x)) with is_word.
    set (e := skip buf is_word q) in *.
    assert (Hsp : word_span (q, e)).
    { split; [cbn|done]. assert (e <> q); [|lia]. intros He. destruct G3 as [G3|G3]; rewrite He in G3; [lia|congruence]. }
    destruct (Hskip e ltac:(lia)) as [He Hl]. rewrite (rest_word (q, e) Hsp : rest q = _). cbn [fst snd token_found]. rewrite He. auto.
Qed.

(** Whether the next token starts with one of [toks]. *)
Definition head_in (toks : list Z) (ts : list tok) : bool :=
  match ts with TSym c :: _ => bool_decide (c ∈ toks) | TAppend :: _ => bool_decide (c_gt ∈ toks) | _ => false end.

Lemma lex_starts_word c s : is_word c = true -> exists w r, lex (c :: s) = TWord w :: r.
Proof.
  revert c. induction s as [|d s IH]; intros c Hc; pose proof (proj1 (is_word_iff c) Hc) as [Hws _].
  - cbn [lex]. rewrite Hws, Hc. eauto.
  - change (lex (c :: d :: s)) with
      (if is_ws c then lex (d :: s) else
       if is_word c then
         if is_word d then match lex (d :: s) with TWord w :: r => TWord (c :: w) :: r | r => r end else TWord [c] :: lex (d :: s)
       else if c =? c_gt then if d =? c_gt then TAppend :: lex s else TSym c :: lex (d :: s) else TSym c :: lex (d :: s)).
    rewrite Hws, Hc. destruct (is_word d) eqn:Hd; [|eauto]. destruct (IH d Hd) as (w & r & ->). eauto.
Qed.

Lemma lex_head c s : is_ws c = false -> forall toks, (forall x, x ∈ toks -> is_sym x = true) -> head_in toks (lex (c :: s)) = bool_decide (c ∈ toks).
Proof.
  intros Hws toks Ht. destruct (is_word c) eqn:Hw.
  - apply is_word_iff in Hw as Hw'. destruct Hw' as [_ Hsy]. replace (bool_decide (c ∈ toks)) with false.
    2: { symmetry. apply bool_decide_eq_false. intros Hin. apply Ht in Hin. congruence. }
    destruct (lex_starts_word c s Hw) as (w & r & ->). done.
  - cbn [lex]. rewrite Hws, Hw. destruct (Z.eqb_spec c c_gt) as [->|Hc]; [|done]. destruct s as [|d s]; [done|]. by destruct (d =? c_gt).
Qed.

Lemma peek_spec s toks : (s <= es)%nat -> (forall x, x ∈ toks -> is_sym x = true) ->
  exists s', peek buf s toks = (head_in toks (rest s), s') /\ (s' <= es)%nat /\ rest s' = rest s.
Proof.
  intros Hs Ht. unfold peek. destruct (skip_spec is_ws s Hs) as (H1 & _ & H3). pose proof (skip_ws_rest s Hs) as Hr.
  set (q := skip buf is_ws s) in *. exists q. split; [|split; [lia|done]]. f_equal. rewrite <- Hr.
  destruct (Z.eqb_spec (ch q) 0) as [Hz|Hz].
  - rewrite ch_zero in Hz. by rewrite rest_end.
  - rewrite ch_zero in Hz. destruct H3 as [H3|H3]; [lia|]. cbn [negb andb]. unfold rest. rewrite drop_ch by lia. by rewrite lex_head.
Qed.

(** * The parser simulates the one over tokens *)

Definition sim {A B} (R : A -> B -> Prop) (m : result (A * nat)) (t : result (B * list tok)) : Prop :=
  match t with
  | Ok (b, r) => exists a s', m = Ok (a, s') /\ (s' <= es)%nat /\ rest s' = r /\ R a b
  | Panic msg => m = Panic msg
  | NoFuel => True
  end.

Lemma sim_ret {A B} (R : A -> B -> Prop) a b s r : (s <= es)%nat -> rest s = r -> R a b -> sim R (Ok (a, s)) (Ok (b, r)).
Proof. intros. by exists a, s. Qed.

Lemma sim_bind {A B A' B'} (R : A -> B -> Prop) (R' : A' -> B' -> Prop) m t f g :
  sim R m t -> (forall a b s, (s <= es)%nat -> R a b -> t = Ok (b, rest s) -> sim R' (f (a, s)) (g (b, rest s))) -> sim R' (rbind m f) (rbind t g).
Proof.
  intros Hm Hf. destruct t as [[b r]|msg|]; cbn in Hm; [|by rewrite Hm|done].
  destruct Hm as (a & s & -> & Hs & <- & HR). by apply Hf.
Qed.

(** The reference may compute further on its result. *)
Lemma sim_map {A B B'} (R : A -> B -> Prop) (R' : A -> B' -> Prop) m t (h : B -> B') :
  sim R m t -> (forall a b, R a b -> R' a (h b)) -> sim R' m (let! (b, r) := t in Ok (h b, r)).
Proof.
  intros Hm Hf. destruct t as [[b r]|msg|]; cbn in Hm; [|by rewrite Hm|done].
  destruct Hm as (a & s & -> & Hs & <- & HR). apply sim_ret; auto.
Qed.

Definition redir_ok (r : redir str) (a : aredir) : Prop :=
  word_span (r_file r) /\ mk_redir (slice (r_file r)) (r_mode r) (r_fd r) = redir_of a.

Lemma parseredirs_sim : forall k rs s, (s <= es)%nat -> (length (rest s) < k)%nat ->
  sim (fun rs' ars => exists rs2, rs' = rs ++ rs2 /\ Forall2 redir_ok rs2 ars) (parseredirs buf k rs s) (tredirs (rest s)).
Proof.
  induction k as [|k IH]; intros rs s Hs Hk; [lia|]. cbn [parseredirs].
  destruct (peek_spec s [c_lt; c_gt] Hs) as (s1 & -> & Hs1 & Hr1).
  { intros x. rewrite !elem_of_cons. intros [->|[->|H]]; [done..|]. by apply not_elem_of_nil in H. }
  assert (Hstop : sim (fun rs' ars => exists rs2, rs' = rs ++ rs2 /\ Forall2 redir_ok rs2 ars) (Ok (rs, s1)) (Ok ([], rest s))).
  { apply sim_ret; [done..|]. exists []. by rewrite app_nil_r. }
  assert (Hgo : forall rk r, rest s = rkind_tok rk :: r -> head_in [c_lt; c_gt] (rest s) = true ->
     sim (fun rs' ars => exists rs2, rs' = rs ++ rs2 /\ Forall2 redir_ok rs2 ars)
      (if negb (head_in [c_lt; c_gt] (rest s)) then Ok (rs, s1)
       else let '(tok, _, _, s) := gettoken buf s1 in
        let '(tok2, q, eq, s) := gettoken buf s in
        if negb (tok2 =? c_a) then Panic "missing file for redirection" else
        let rs :=
          if tok =? c_lt then rs ++ [mk_redir (q, eq) O_RDONLY 0]
          else if tok =? c_gt then rs ++ [mk_redir (q, eq) (Z.lor (Z.lor O_WRONLY O_CREATE) O_TRUNC) 1]
          else if tok =? c_plus then rs ++ [mk_redir (q, eq) (Z.lor O_WRONLY O_CREATE) 1]
          else rs in
        parseredirs buf k rs s)
      (match r with
        | TWord w :: r => let! (rs, r) := tredirs r in Ok ((rk, w) :: rs, r)
        | _ => Panic "missing file for redirection"
        end)).
  { intros rk r Hr ->. cbn [negb]. pose proof (gettoken_spec s1 Hs1) as Hg. destruct (gettoken buf s1) as [[[t1 q1] e1] s2].
    destruct Hg as [Hg Hs2]. rewrite Hr1, Hr in Hg.
    assert (Ht1 : t1 = match rk with RIn => c_lt | ROut => c_gt | RAppend => c_plus end /\ rest s2 = r) by (destruct rk; cbn in Hg; tauto).
    clear Hg. destruct Ht1 as [Ht1 Hr2]. pose proof (gettoken_spec s2 Hs2) as Hg. destruct (gettoken buf s2) as [[[t2 q2] e2] s3].
    destruct Hg as [Hg Hs3]. rewrite Hr2 in Hg. destruct r as [|[w|c|] r]; cbn [token_found] in Hg.
    - destruct Hg as [-> _]. done.
    - destruct Hg as (-> & Hsp & Hsl & Hr3). rewrite Z.eqb_refl. cbn [negb].
      set (rs2 := if t1 =? c_lt then _ else _).
      assert (Hrs : exists rd, rs2 = rs ++ [rd] /\ redir_ok rd (rk, w)).
      { subst rs2 t1. unfold redir_ok. destruct rk; eexists; (split; [reflexivity|]); cbn [r_file r_mode r_fd]; by rewrite Hsl. }
      destruct Hrs as (rd & -> & Hrd). rewrite <- Hr3. eapply (sim_map _ _ _ _ (fun l => (rk, w) :: l)); [apply IH; [done|]|].
      + rewrite Hr in Hk. cbn in Hk. rewrite Hr3. lia.
      + intros a b (rs3 & -> & HF). exists (rd :: rs3). rewrite <- app_assoc. split; [done|]. by constructor.
    - destruct Hg as (-> & Hsy & _). cbn [sim]. destruct (Z.eqb_spec c c_a) as [->|]; [by cbv in Hsy|done].
    - destruct Hg as [-> _]. done. }
  destruct (rest s) as [|[w|c|] r] eqn:Hr; cbn [tredirs].
  - exact Hstop.
  - exact Hstop.
  - destruct (Z.eqb_spec c c_lt) as [->|Hlt]; [by apply Hgo|]. destruct (Z.eqb_spec c c_gt) as [->|Hgt]; [by apply Hgo|].
    replace (head_in [c_lt; c_gt] (TSym c :: r)) with false; [exact Hstop|]. symmetry. apply bool_decide_eq_false.
    rewrite !not_elem_of_cons. split_and!; [done..|]. apply not_elem_of_nil.
  - by apply (Hgo RAppend).
Qed.

Definition args_ok (argv : list str) (rs : list (redir str)) (out : list str * list (redir str)) (args : list (list Z * list aredir)) : Prop :=
  exists as_ rs2, out = (argv ++ as_, rs ++ rs2) /\
    Forall2 (fun a w => word_span a /\ slice a = w) as_ (fst <$> args) /\ Forall2 redir_ok rs2 (mjoin (snd <$> args)).

Lemma length_rest s : (length (rest s) <= es)%nat.
Proof. unfold rest. pose proof (lex_length (drop s buf)) as H. rewrite length_drop in H. unfold Sh.es. lia. Qed.

Lemma parseargs_sim : forall k kt argv rs s, (s <= es)%nat -> (length (rest s) < k)%nat -> (length (rest s) < kt)%nat ->
  sim (args_ok argv rs) (parseargs buf k argv rs s) (targs kt (length argv) (rest s)).
Proof.
  induction k as [|k IH]; intros kt argv rs s Hs Hk Hkt; [lia|]. destruct kt as [|kt]; [lia|]. cbn [parseargs targs].
  destruct (peek_spec s [c_bar; c_rpar; c_amp; c_semi] Hs) as (s1 & -> & Hs1 & Hr1).
  { intros x. rewrite !elem_of_cons. intros [->|[->|[->|[->|H]]]]; [done..|]. by apply not_elem_of_nil in H. }
  pose proof (gettoken_spec s1 Hs1) as Hg. destruct (gettoken buf s1) as [[[t1 q1] e1] s2]. destruct Hg as [Hg Hs2]. rewrite Hr1 in Hg.
  assert (Hstop : forall s' , (s' <= es)%nat -> rest s' = rest s -> sim (args_ok argv rs) (Ok (argv, rs, s')) (Ok ([], rest s))).
  { intros s' Hs' Hr'. apply sim_ret; [done..|]. exists [], []. rewrite !app_nil_r. done. }
  destruct (rest s) as [|[w|c|] r] eqn:Hr; cbn [token_found] in Hg; cbn [head_in].
  - destruct Hg as [-> Hr2]. rewrite Z.eqb_refl. by apply Hstop.
  - destruct Hg as (-> & Hsp & Hsl & Hr2). change (c_a =? 0) with false. rewrite Z.eqb_refl. cbn [negb].
    rewrite length_app. cbn [length]. rewrite (Nat.add_1_r (length argv)).
    destruct (MAXARGS <=? S (length argv))%nat; [done|]. rewrite <- Hr2.
    eapply sim_bind; [apply parseredirs_sim; [done|]; pose proof (length_rest s2); lia|].
    intros rs1 ars s3 Hs3 (rs2 & -> & HF) Hts. cbn beta iota. apply (tredirs_sound _ _ _ _ (le_n _)) in Hts as [Hts _].
    apply (f_equal length) in Hts. rewrite length_app, Hr2 in Hts. cbn [length] in Hk, Hkt.
    eapply (sim_map _ _ _ _ (fun l => (w, ars) :: l)).
    + replace (S (length argv)) with (length (argv ++ [(q1, e1)])) by (rewrite length_app; cbn; lia). apply IH; [done|lia|lia].
    + intros out args (as_ & rs3 & -> & Ha & HF3). exists ((q1, e1) :: as_), (rs2 ++ rs3). rewrite <- !app_assoc.
      split; [done|]. split; [by constructor|]. by apply Forall2_app.
  - destruct Hg as (-> & Hsy & Hr2). destruct (bool_decide (c ∈ [c_bar; c_rpar; c_amp; c_semi])) eqn:Hst.
    + cbn [stops]. rewrite Hst. by apply Hstop.
    + cbn [stops]. rewrite Hst. destruct (Z.eqb_spec c 0) as [->|]; [by cbv in Hsy|].
      destruct (Z.eqb_spec c c_a) as [->|]; [by cbv in Hsy|]. done.
  - destruct Hg as (-> & Hr2). done.
Qed.

Lemma parseback_sim : forall k c s, (s <= es)%nat -> (length (rest s) < k)%nat ->
  sim (fun c' n => c' = Nat.iter n BACK c) (parseback buf k c s) (Ok (tback (rest s))).
Proof.
  induction k as [|k IH]; intros c s Hs Hk; [lia|]. cbn [parseback].
  destruct (peek_spec s [c_amp] Hs) as (s1 & -> & Hs1 & Hr1).
  { intros x ->%list_elem_of_singleton. done. }
  pose proof (gettoken_spec s1 Hs1) as Hg. destruct (gettoken buf s1) as [[[t1 q1] e1] s2]. destruct Hg as [Hg Hs2]. rewrite Hr1 in Hg.
  destruct (rest s) as [|[w|d|] r] eqn:Hr; cbn [head_in negb tback]; try by apply sim_ret.
  cbn [token_found] in Hg. destruct Hg as (_ & _ & Hr2).
  destruct (Z.eqb_spec d c_amp) as [->|Hd].
  - replace (bool_decide (c_amp ∈ [c_amp])) with true by (symmetry; apply bool_decide_eq_true; set_solver). cbn [negb].
    specialize (IH (backcmd c) s2 Hs2). rewrite Hr2 in IH. destruct (tback r) as [n r'].
    destruct IH as (c' & s' & -> & Hs' & Hr' & ->); [cbn in Hk; lia|]. apply sim_ret; [done..|]. by rewrite <- Nat.iter_succ_r.
  - replace (bool_decide (d ∈ [c_amp])) with false by (symmetry; apply bool_decide_eq_false; set_solver). by apply sim_ret.
Qed.

(** Commands over positions and over characters. *)
Fixpoint cmd_map {X Y} (f : X -> Y) (c : cmd X) : cmd Y :=
  match c with
  | EXEC argv => EXEC (f <$> argv)
  | REDIR c r => REDIR (cmd_map f c) (mk_redir (f (r_file r)) (r_mode r) (r_fd r))
  | PIPE l r => PIPE (cmd_map f l) (cmd_map f r)
  | LIST l r => LIST (cmd_map f l) (cmd_map f r)
  | BACK c => BACK (cmd_map f c)
  end.
Fixpoint cmd_strs {X} (c : cmd X) : list X :=
  match c with
  | EXEC argv => argv
  | REDIR c r => cmd_strs c ++ [r_file r]
  | PIPE l r => cmd_strs l ++ cmd_strs r
  | LIST l r => cmd_strs l ++ cmd_strs r
  | BACK c => cmd_strs c
  end.

Definition cmd_ok (c : cmd str) (t : cmd (list Z)) : Prop := Forall word_span (cmd_strs c) /\ cmd_map slice c = t.

Lemma redircmds_ok c t rs ars : cmd_ok c t -> Forall2 redir_ok rs ars -> cmd_ok (redircmds c rs) (redircmds t (redir_of <$> ars)).
Proof.
  intros Hc HF. revert c t Hc. induction HF as [|r a rs ars [Hr1 Hr2] HF IH]; intros c t Hc; [done|].
  apply IH. destruct Hc as [Hc <-]. split; cbn; [|rewrite <- Hr2; by destruct r]. apply Forall_app. by rewrite Forall_singleton.
Qed.

Lemma back_ok n c t : cmd_ok c t -> cmd_ok (Nat.iter n BACK c) (Nat.iter n BACK t).
Proof. intros Hc. induction n as [|n [IH1 IH2]]; [done|]. split; [done|]. exact (f_equal BACK IH2). Qed.

Lemma exec_ok argv (ws : list (list Z)) : Forall2 (fun a w => word_span a /\ slice a = w) argv ws -> cmd_ok (EXEC argv) (EXEC ws).
Proof.
  intros HF. unfold cmd_ok. cbn [cmd_strs cmd_map]. induction HF as [|a w argv ws [Ha <-] HF [IH1 IH2]]; [done|].
  split; [by constructor|]. cbn. f_equal. f_equal. by injection IH2.
Qed.

Lemma peek_sym c s : (s <= es)%nat -> is_sym c = true -> c <> c_gt ->
  exists s', peek buf s [c] = (sym_head c (rest s), s') /\ (s' <= es)%nat /\ rest s' = rest s.
Proof.
  intros Hs Hc Hg. destruct (peek_spec s [c] Hs) as (s' & Hp & Hs' & Hr).
  { by intros x ->%list_elem_of_singleton. }
  exists s'. split; [|done]. rewrite Hp. f_equal. destruct (rest s) as [|[w|d|] r]; try done; cbn [head_in sym_head].
  - destruct (Z.eqb_spec d c) as [->|Hd]; [by apply bool_decide_eq_true; set_solver|]. apply bool_decide_eq_false. set_solver.
  - apply bool_decide_eq_false. set_solver.
Qed.

Lemma gettoken_sym c s : (s <= es)%nat -> sym_head c (rest s) = true ->
  exists ret q eq s', gettoken buf s = (ret, q, eq, s') /\ (s' <= es)%nat /\ rest s' = tail (rest s).
Proof.
  intros Hs [r Hr]%sym_head_true. pose proof (gettoken_spec s Hs) as Hg. destruct (gettoken buf s) as [[[ret q] eq] s'].
  rewrite Hr in Hg |- *. destruct Hg as [(_ & _ & Hg) Hl]. by eexists _, _, _, _.
Qed.


Lemma parser_sim k :
  (forall s, (s <= es)%nat -> sim (fun c l => cmd_ok c (line_cmd l)) (parseline buf k s) (tline k (rest s))) /\
  (forall s, (s <= es)%nat -> sim (fun c p => cmd_ok c (pipe_cmd p)) (parsepipe buf k s) (tpipe k (rest s))) /\
  (forall s, (s <= es)%nat -> sim (fun c e => cmd_ok c (exec_cmd e)) (parseexec buf k s) (texec k (rest s))) /\
  (forall s, (s <= es)%nat -> sim (fun c e => cmd_ok c (exec_cmd e)) (parseblock buf k s) (tblock k (rest s))).
Proof.
  induction k as [|k (IHl & IHp & IHe & IHb)]; [done|].
  split_and!; intros s Hs; cbn [parseline parsepipe parseexec parseblock tline tpipe texec tblock].
  - eapply sim_bind; [by apply IHp|]. intros c p s1 Hs1 Hc _.
    destruct (tback (rest s1)) as [n r] eqn:Hb. pose proof (parseback_sim (S es) c s1 Hs1 ltac:(pose proof (length_rest s1); lia)) as Hsim.
    rewrite Hb in Hsim. destruct Hsim as (c' & s2 & -> & Hs2 & Hr2 & ->). cbn [rbind]. rewrite <- Hr2.
    destruct (peek_sym c_semi s2 Hs2 eq_refl ltac:(done)) as (s3 & -> & Hs3 & Hr3).
    destruct (sym_head c_semi (rest s2)) eqn:Hh; cbn [negb].
    + rewrite <- Hr3 in Hh |- *. destruct (gettoken_sym c_semi s3 Hs3 Hh) as (? & ? & ? & s4 & -> & Hs4 & Hr4). rewrite <- Hr4.
      eapply sim_bind; [by apply IHl|]. intros c2 l s5 Hs5 [Hc2 Hm2] _. apply sim_ret; [done..|].
      destruct (back_ok n _ _ Hc) as [Hc1 Hm1]. split; cbn [cmd_strs cmd_map line_cmd]; [by apply Forall_app|by unfold listcmd, pipecmd; cbn [cmd_map]; rewrite Hm1, Hm2].
    + apply sim_ret; [done|done|]. by apply back_ok.
  - eapply sim_bind; [by apply IHe|]. intros c e s1 Hs1 Hc _.
    destruct (peek_sym c_bar s1 Hs1 eq_refl ltac:(done)) as (s3 & -> & Hs3 & Hr3).
    destruct (sym_head c_bar (rest s1)) eqn:Hh; cbn [negb]; [|by apply sim_ret].
    rewrite <- Hr3 in Hh |- *. destruct (gettoken_sym c_bar s3 Hs3 Hh) as (? & ? & ? & s4 & -> & Hs4 & Hr4). rewrite <- Hr4.
    eapply sim_bind; [by apply IHp|]. intros c2 p s5 Hs5 [Hc2 Hm2] _. apply sim_ret; [done..|].
    destruct Hc as [Hc1 Hm1]. split; cbn [cmd_strs cmd_map pipe_cmd]; [by apply Forall_app|by unfold listcmd, pipecmd; cbn [cmd_map]; rewrite Hm1, Hm2].
  - destruct (peek_sym c_lpar s Hs eq_refl ltac:(done)) as (s3 & -> & Hs3 & Hr3). rewrite <- Hr3.
    destruct (sym_head c_lpar (rest s3)); [by apply IHb|].
    eapply sim_bind; [apply parseredirs_sim; [done|]; pose proof (length_rest s3); lia|].
    intros rs ars s4 Hs4 (rs2 & -> & HF) _. cbn [app].
    eapply sim_bind; [apply (parseargs_sim _ _ []); [done|pose proof (length_rest s4); lia|lia]|].
    intros out args s5 Hs5 (as_ & rs3 & -> & Ha & HF3) _. apply sim_ret; [done..|].
    apply redircmds_ok; [by apply exec_ok|by apply Forall2_app].
  - destruct (peek_sym c_lpar s Hs eq_refl ltac:(done)) as (s3 & -> & Hs3 & Hr3). rewrite <- Hr3.
    destruct (sym_head c_lpar (rest s3)) eqn:Hh; [|done]. cbn [negb].
    destruct (gettoken_sym c_lpar s3 Hs3 Hh) as (? & ? & ? & s4 & -> & Hs4 & Hr4). rewrite <- Hr4.
    eapply sim_bind; [by apply IHl|]. intros c l s5 Hs5 Hc _.
    destruct (peek_sym c_rpar s5 Hs5 eq_refl ltac:(done)) as (s6 & -> & Hs6 & Hr6). rewrite <- Hr6.
    destruct (sym_head c_rpar (rest s6)) eqn:Hh2; [|done]. cbn [negb].
    destruct (gettoken_sym c_rpar s6 Hs6 Hh2) as (? & ? & ? & s7 & -> & Hs7 & Hr7). rewrite <- Hr7.
    eapply sim_bind; [apply parseredirs_sim; [done|]; pose proof (length_rest s7); lia|].
    intros rs ars s8 Hs8 (rs2 & -> & HF) _. apply sim_ret; [done..|]. by apply redircmds_ok.
Qed.

(** * The strings in place *)

(** The NUL-terminated string at a position of the memory. *)
Fixpoint cstring (mem : list Z) : list Z :=
  match mem with [] => [] | c :: m => if c =? 0 then [] else c :: cstring m end.
Definition string_at (mem : list Z) (a : str) : list Z := cstring (drop (fst a) mem).

(** [nulterminate] writes a NUL at every string's end and nowhere else. *)
Lemma nulterminate_lookup c : forall mem i, (i < length mem)%nat -> (forall a, a ∈ cmd_strs c -> (snd a < length mem)%nat) ->
  nulterminate c mem !! i = if decide (i ∈ snd <$> cmd_strs c) then Some 0 else mem !! i.
Proof.
  assert (Hlen : forall c mem, length (nulterminate c mem) = length mem).
  { intros c0. induction c0 as [argv|c0 IH r|l IHl r IHr|l IHl r IHr|c0 IH]; intros mem; cbn [nulterminate].
    - revert mem. induction argv as [|a argv IH]; intros mem; cbn; [done|]. by rewrite IH, length_insert.
    - by rewrite length_insert.
    - by rewrite IHr.
    - by rewrite IHr.
    - done. }
  assert (Happ : forall (l r : list str) mem i, (if decide (i ∈ snd <$> r) then Some 0 else if decide (i ∈ snd <$> l) then Some 0 else mem !! i) =
    (if decide (i ∈ snd <$> (l ++ r)) then Some 0 else (mem : list Z) !! i)).
  { intros l r mem i. rewrite fmap_app. repeat destruct (decide _); set_solver. }
  induction c as [argv|c IH r|l IHl r IHr|l IHl r IHr|c IH]; intros mem i Hi Hs; cbn [nulterminate cmd_strs] in *.
  - clear Happ Hlen. revert mem Hi Hs. induction argv as [|a argv IH]; intros mem Hi Hs; [done|].
    cbn [foldl]. rewrite IH; [|by rewrite length_insert|intros b Hb; rewrite length_insert; apply Hs; set_solver].
    cbn [fmap list_fmap]. assert (snd a < length mem)%nat by (apply Hs; set_solver).
    destruct (decide (i = snd a)) as [->|Hne].
    + rewrite list_lookup_insert_eq by done. repeat destruct (decide _); set_solver.
    + rewrite list_lookup_insert_ne by done. repeat destruct (decide _); set_solver.
  - assert (snd (r_file r) < length mem)%nat by (apply Hs; set_solver).
    rewrite <- Happ. cbn [fmap list_fmap]. destruct (decide (i = snd (r_file r))) as [->|Hne].
    + rewrite list_lookup_insert_eq by by rewrite Hlen. destruct (decide _); set_solver.
    + rewrite list_lookup_insert_ne, IH by (done || set_solver). repeat destruct (decide _); set_solver.
  - rewrite IHr, IHl, Happ by (rewrite ?Hlen; (done || set_solver)). done.
  - rewrite IHr, IHl, Happ by (rewrite ?Hlen; (done || set_solver)). done.
  - by apply IH.
Qed.

Lemma cstring_take n : forall m, (forall j x, (j < n)%nat -> m !! j = Some x -> x <> 0) -> m !! n = Some 0 -> cstring m = take n m.
Proof.
  induction n as [|n IH]; intros m Hj Hn; (destruct m as [|c m]; [done|]); cbn [cstring take].
  - cbn in Hn. by simplify_eq.
  - pose proof (Hj 0%nat c ltac:(lia) eq_refl) as Hc. apply Z.eqb_neq in Hc. rewrite Hc. f_equal. apply IH; [|done].
    intros j x Hlt Hx. apply (Hj (S j)); [lia|done].
Qed.

Lemma string_at_word c a : Forall word_span (cmd_strs c) -> a ∈ cmd_strs c -> string_at (nulterminate c (buf ++ [0])) a = slice a.
Proof.
  intros Hall Ha. assert (Hes : length (buf ++ [0]) = S es) by (rewrite length_app; cbn; unfold Sh.es; lia).
  assert (Hin : forall b : str, b ∈ cmd_strs c -> (snd b < length (buf ++ [0%Z]))%nat).
  { intros b Hb. rewrite Hes. rewrite Forall_forall in Hall. destruct (Hall b Hb) as [Hb' _]. lia. }
  pose proof Hall as Hall'. rewrite Forall_forall in Hall'. destruct (Hall' a Ha) as (Hlt & Hw & _).
  assert (Hkeep : forall i, (fst a <= i < snd a)%nat -> nulterminate c (buf ++ [0]) !! i = buf !! i).
  { intros i Hi. rewrite nulterminate_lookup; [|rewrite Hes; lia|done]. destruct (decide _) as [He|_].
    - exfalso. apply list_elem_of_fmap in He as (b & -> & Hb). destruct (Hall' b Hb) as (_ & _ & [Hb'|Hb']); [lia|]. rewrite Hw in Hb' by done. done.
    - apply lookup_app_l. unfold Sh.es in *. lia. }
  unfold string_at. rewrite (cstring_take (snd a - fst a)).
  - unfold slice. apply list_eq. intros j. destruct (Nat.lt_ge_cases j (snd a - fst a)) as [Hj|Hj].
    + rewrite !lookup_take_lt, !lookup_drop by done. apply Hkeep. lia.
    + by rewrite !lookup_take_ge by done.
  - intros j x Hj Hx. rewrite lookup_drop, Hkeep in Hx by lia. by apply (Forall_lookup_1 _ _ _ _ no_nul) in Hx.
  - rewrite lookup_drop, nulterminate_lookup; [|rewrite Hes; lia|done]. rewrite decide_True; [done|].
    apply list_elem_of_fmap. exists a. split; [lia|done].
Qed.

Lemma cmd_map_ext {X Y} (f g : X -> Y) c : (forall a, a ∈ cmd_strs c -> f a = g a) -> cmd_map f c = cmd_map g c.
Proof.
  induction c as [argv|c IH r|l IHl r IHr|l IHl r IHr|c IH]; intros Hf; cbn [cmd_map cmd_strs] in *.
  - f_equal. apply list_fmap_ext. intros i a Hi. apply Hf. by eapply list_elem_of_lookup_2.
  - rewrite IH, Hf; [done|set_solver|]. intros a Ha. apply Hf. set_solver.
  - rewrite IHl, IHr; [done|..]; intros a Ha; apply Hf; set_solver.
  - rewrite IHl, IHr; [done|..]; intros a Ha; apply Hf; set_solver.
  - by rewrite IH.
Qed.

Lemma rest_nil_skip s : (s <= es)%nat -> rest s = [] <-> skip buf is_ws s = es.
Proof.
  intros Hs. destruct (skip_spec is_ws s Hs) as (H1 & H2 & H3). rewrite <- (skip_ws_rest s Hs). split.
  - intros Hr. destruct H3 as [|H3]; [done|]. destruct (Nat.eq_dec (skip buf is_ws s) es); [done|].
    unfold rest in Hr. rewrite drop_ch in Hr by lia. apply lex_nil_iff in Hr. apply Forall_inv in Hr. congruence.
  - intros ->. apply rest_end. lia.
Qed.

(** The outcome of [parsecmd] in terms of the parser over tokens. *)
Lemma parsecmd_tokens :
  match tline (4 * es + 4) (lex buf) with
  | Ok (l, []) => exists c mem, parsecmd buf = Ok (c, mem) /\ cmd_map (string_at mem) c = line_cmd l
  | Ok (_, _) => parsecmd buf = Panic "syntax"
  | Panic msg => parsecmd buf = Panic msg
  | NoFuel => False
  end.
Proof.
  pose proof (proj1 (parser_sim (4 * es + 4)) 0%nat ltac:(lia)) as Hsim. change (rest 0) with (lex buf) in Hsim.
  pose proof (proj1 (tokens_total (4 * es + 4)) (lex buf)) as Htot. pose proof (lex_length buf) as Hl.
  unfold parsecmd. destruct (tline (4 * es + 4) (lex buf)) as [[l r]|msg|]; cbn [sim] in Hsim.
  - destruct Hsim as (c & s & -> & Hs & Hr & [Hc Hm]). cbn [rbind]. unfold peek.
    pose proof (rest_nil_skip s Hs) as Hnil. rewrite Hr in Hnil. destruct r as [|t r].
    + rewrite (proj1 Hnil eq_refl), Nat.eqb_refl. cbn [negb]. eexists _, _. split; [done|]. rewrite <- Hm. apply cmd_map_ext.
      intros a Ha. by apply string_at_word.
    + destruct (Nat.eqb_spec (skip buf is_ws s) es) as [He|He]; [by apply Hnil in He|done].
  - by rewrite Hsim.
  - by apply Htot; [unfold Sh.es; lia|].
Qed.
End scanner.

(** C9: The shell's parser decides its grammar.  On every command line it ends
    (with a command or in [panic]); it accepts exactly the lines whose tokens
    are those of some line of the grammar with fewer than [MAXARGS] arguments
    per command; and the command it returns, with its strings read from the
    line's memory after [nulterminate] has cut them in place, is the one that
    grammar line stands for. *)
Theorem parsecmd_decides_grammar (buf : list Z) : Forall (fun c => c <> 0) buf ->
  parsecmd buf <> NoFuel /\
  (forall c mem, parsecmd buf = Ok (c, mem) ->
     exists l, lex buf = line_toks l /\ line_fits l = true /\ cmd_map (string_at mem) c = line_cmd l) /\
  (forall l, lex buf = line_toks l -> line_fits l = true ->
     exists c mem, parsecmd buf = Ok (c, mem) /\ cmd_map (string_at mem) c = line_cmd l).
Proof.
  intros Hn. pose proof (parsecmd_tokens buf Hn) as Hp. split_and!.
  - intros He. rewrite He in Hp. destruct (tline _ _) as [[l [|]]| |]; try done. by destruct Hp as (? & ? & ? & _).
  - intros c mem He. rewrite He in Hp. destruct (tline _ _) as [[l [|t r]]| |] eqn:Ht; try done.
    destruct Hp as (c' & mem' & [= <- <-] & Hm). apply (tokens_sound _) in Ht as [Ht Hf]. rewrite app_nil_r in Ht. eauto.
  - intros l Hl Hf. pose proof (proj1 tokens_complete l (4 * es buf + 4)%nat [] Hf eq_refl) as Hc. rewrite app_nil_r in Hc.
    rewrite Hl, Hc in Hp; [by eauto|]. rewrite <- Hl. pose proof (lex_length buf). unfold es. lia.
Qed.

(** The characters of a string. *)
Definition text (s : string) : list Z := (fun a => Z.of_nat (Ascii.nat_of_ascii a)) <$> String.list_ascii_of_string s.

(** "(ls -l | sort) > out & ; echo". *)
Definition sample_line : aline :=
  LSeq (POne (XBlock (LEnd (PBar (XCmd [] [(text "ls", []); (text "-l", [])]) (POne (XCmd [] [(text "sort", [])]))) 0) [(ROut, text "out")])) 1
    (LEnd (POne (XCmd [] [(text "echo", [])])) 0).

Lemma parsecmd_decides_grammar_witness :
  exists c mem, parsecmd (text "(ls -l | sort) > out & ; echo") = Ok (c, mem) /\ cmd_map (string_at mem) c = line_cmd sample_line.
Proof.
  assert (Hn : Forall (fun c => c <> 0) (text "(ls -l | sort) > out & ; echo")).
  { apply Forall_forall. intros x Hx. vm_compute in Hx. intros ->. set_solver. }
  apply (proj2 (proj2 (parsecmd_decides_grammar _ Hn))); vm_compute; reflexivity.
Defined.
