(* ===== verification/ShRun.v ===== *)
(** How the shell runs a parsed command ([runcmd] of [user/sh.c]) and reads its
    input ([getcmd], [main]): the descriptor table of every program it starts,
    against a semantics in which a program has a standard input, output and
    error and nothing else. *)
From S2P Require Import Prelude Sh.

(** * Descriptors *)

Definition NOFILE : nat := 16.
(** What a descriptor refers to: something inherited, an end of the [n]-th
    pipe, an opened file. *)
Inductive fobj :=
| Inherited (n : Z)
| PipeR (n : nat)
| PipeW (n : nat)
| Opened (name : list Z) (mode : Z).

Abbreviation ofile := (list (option fobj)).

(** [fdalloc]: the lowest free descriptor. *)
Fixpoint fdalloc (f : fobj) (t : ofile) : option (nat * ofile) :=
  match t with
  | [] => None
  | None :: t' => Some (O, Some f :: t')
  | Some g :: t' => match fdalloc f t' with Some (fd, t'') => Some (S fd, Some g :: t'') | None => None end
  end.

Definition close (fd : nat) (t : ofile) : ofile := <[fd := None]> t.
Definition dup (fd : nat) (t : ofile) : ofile :=
  match t !! fd with
  | Some (Some f) => match fdalloc f t with Some (_, t') => t' | None => t end
  | _ => t
  end.

Section run.
(** Whether [open] of a file name in a mode succeeds. *)
Variable open_ok : list Z -> Z -> bool.

(** [runcmd] in a process with descriptors [t]: the programs it starts, in the
    order in which the processes were created, each with its arguments and its
    descriptor table at [exec]; [np] counts the pipes made so far.  A process
    that [panic]s or whose [open] fails starts nothing. *)
Fixpoint runcmd (c : cmd (list Z)) (t : ofile) (np : nat) : list (list (list Z) * ofile) * nat :=
  match c with
  | EXEC argv => (match argv with [] => [] | _ => [(argv, t)] end, np)
  | REDIR c r =>
      let t := close (Z.to_nat (r_fd r)) t in
      if open_ok (r_file r) (r_mode r) then
        match fdalloc (Opened (r_file r) (r_mode r)) t with Some (_, t) => runcmd c t np | None => ([], np) end
      else ([], np)
  | LIST l r =>
      let '(ps, np) := runcmd l t np in
      let '(qs, np) := runcmd r t np in
      (ps ++ qs, np)
  | PIPE l r =>
      match fdalloc (PipeR np) t with
      | None => ([], np)
      | Some (p0, t) =>
          match fdalloc (PipeW np) t with
          | None => ([], np)
          | Some (p1, t) =>
              let '(ps, np) := runcmd l (close p1 (close p0 (dup p1 (close 1 t)))) (S np) in
              let '(qs, np) := runcmd r (close p1 (close p0 (dup p0 (close 0 t)))) np in
              (ps ++ qs, np)
          end
      end
  | BACK c => runcmd c t np
  end.

(** * What it means *)

(** The same with three standard descriptors in place of a table. *)
Record stdio := mk_stdio { std_in : fobj; std_out : fobj; std_err : fobj }.

Fixpoint meaning (c : cmd (list Z)) (io : stdio) (np : nat) : list (list (list Z) * stdio) * nat :=
  match c with
  | EXEC argv => (match argv with [] => [] | _ => [(argv, io)] end, np)
  | REDIR c r =>
      if open_ok (r_file r) (r_mode r) then
        let f := Opened (r_file r) (r_mode r) in
        meaning c (if r_fd r =? 0 then mk_stdio f (std_out io) (std_err io) else mk_stdio (std_in io) f (std_err io)) np
      else ([], np)
  | LIST l r =>
      let '(ps, np) := meaning l io np in
      let '(qs, np) := meaning r io np in
      (ps ++ qs, np)
  | PIPE l r =>
      let '(ps, np') := meaning l (mk_stdio (std_in io) (PipeW np) (std_err io)) (S np) in
      let '(qs, np') := meaning r (mk_stdio (PipeR np) (std_out io) (std_err io)) np' in
      (ps ++ qs, np')
  | BACK c => meaning c io np
  end.

(** The table with these three descriptors and no others. *)
Definition table (io : stdio) : ofile := Some (std_in io) :: Some (std_out io) :: Some (std_err io) :: replicate (NOFILE - 3) None.

(** The parser redirects descriptors 0 and 1 only. *)
Fixpoint redirs_std {X} (c : cmd X) : bool :=
  match c with
  | EXEC _ => true
  | REDIR c r => ((r_fd r =? 0) || (r_fd r =? 1)) && redirs_std c
  | PIPE l r => redirs_std l && redirs_std r
  | LIST l r => redirs_std l && redirs_std r
  | BACK c => redirs_std c
  end.

Definition started (r : list (list (list Z) * stdio) * nat) : list (list (list Z) * ofile) * nat :=
  (prod_map id table <$> fst r, snd r).

Lemma runcmd_meaning c : redirs_std c = true -> forall io np, runcmd c (table io) np = started (meaning c io np).
Proof.
  induction c as [argv|c IH r|l IHl r IHr|l IHl r IHr|c IH]; intros Hc io np; cbn [redirs_std runcmd meaning] in *.
  - by destruct argv.
  - apply andb_true_iff in Hc as [Hfd Hc]. destruct (open_ok (r_file r) (r_mode r)); [|done].
    apply orb_true_iff in Hfd as [Hfd|Hfd]; apply Z.eqb_eq in Hfd; rewrite Hfd; cbn; rewrite <- (IH Hc); done.
  - apply andb_true_iff in Hc as [Hl Hr]. cbn.
    change (Some (std_in io) :: _) with (table (mk_stdio (std_in io) (PipeW np) (std_err io))).
    rewrite (IHl Hl (mk_stdio (std_in io) (PipeW np) (std_err io))). unfold started at 1.
    destruct (meaning l _ _) as [ps np1]. cbn [fst snd].
    change (Some (PipeR np) :: _) with (table (mk_stdio (PipeR np) (std_out io) (std_err io))).
    rewrite (IHr Hr). unfold started. destruct (meaning r _ _) as [qs np2]. cbn [fst snd]. by rewrite fmap_app.
  - apply andb_true_iff in Hc as [Hl Hr]. rewrite (IHl Hl). unfold started. destruct (meaning l _ _) as [ps np1]. cbn [fst snd].
    rewrite (IHr Hr). unfold started. destruct (meaning r _ _) as [qs np2]. cbn [fst snd]. by rewrite fmap_app.
  - by apply IH.
Qed.
End run.

(** * Reading commands *)

(** [gets(buf, max)] for [k = max - 1]: the bytes stored before the final NUL,
    and the input that is left. *)
Fixpoint gets (k : nat) (inp : list Z) : list Z * list Z :=
  match k, inp with
  | O, _ => ([], inp)
  | S _, [] => ([], [])
  | S k', c :: inp' =>
      if (c =? 10) || (c =? 13) then ([c], inp') else let '(l, rest) := gets k' inp' in (c :: l, rest)
  end.

Definition BUF : nat := 100.

(** [getcmd]: the string in [buf], or [None] for -1. *)
Definition getcmd (inp : list Z) : option (list Z * list Z) :=
  let '(l, rest) := gets (BUF - 1) inp in
  match cstring l with [] => None | s => Some (s, rest) end.

(** What the shell does with a line: nothing, [chdir] itself, start programs in
    a child, or have the child [panic] in the parser. *)
Inductive action :=
| Skip
| Chdir (path : list Z)
| Start (ps : list (list (list Z) * ofile))
| Syntax (msg : string).

Fixpoint skip_blanks (s : list Z) : list Z :=
  match s with c :: s' => if (c =? 32) || (c =? 9) then skip_blanks s' else s | [] => [] end.

Section main.
Variable open_ok : list Z -> Z -> bool.
Variable t : ofile.

(** The body of [main]'s loop. *)
Definition main_line (s : list Z) : action :=
  let cmd := skip_blanks s in
  if bool_decide (head cmd = Some 10) then Skip
  else if bool_decide (take 3 cmd = [99; 100; 32]) then Chdir (drop 3 (removelast cmd))
  else
    match parsecmd cmd with
    | Ok (c, mem) => Start (fst (runcmd open_ok (cmd_map (string_at mem) c) t 0))
    | Panic msg => Syntax msg
    | NoFuel => Syntax ""
    end.

Fixpoint main_loop (k : nat) (inp : list Z) : list action :=
  match k with
  | O => []
  | S k' => match getcmd inp with None => [] | Some (s, rest) => main_line s :: main_loop k' rest end
  end.
Definition main (inp : list Z) : list action := main_loop (S (length inp)) inp.
End main.

(** A line as typed: no NUL, line end or carriage return, and short enough for
    the buffer with its newline. *)
Definition typed (s : list Z) : Prop := Forall (fun c => c <> 0 /\ c <> 10 /\ c <> 13) s /\ (length s < BUF - 1)%nat.

Lemma gets_line s : forall k inp, Forall (fun c => c <> 0 /\ c <> 10 /\ c <> 13) s -> (length s < k)%nat ->
  gets k (s ++ 10 :: inp) = (s ++ [10], inp).
Proof.
  induction s as [|c s IH]; intros k inp Hs Hk; (destruct k as [|k]; [cbn in Hk; lia|]); [done|].
  apply Forall_cons in Hs as [(_ & H1 & H2) Hs]. cbn [app gets]. apply Z.eqb_neq in H1, H2. rewrite H1, H2. cbn [orb].
  rewrite IH; [done|done|cbn in Hk; lia].
Qed.

Lemma cstring_id s : Forall (fun c => c <> 0) s -> cstring s = s.
Proof. induction 1 as [|c s Hc Hs IH]; [done|]. cbn. apply Z.eqb_neq in Hc. by rewrite Hc, IH. Qed.

Lemma typed_no_nul s : typed s -> Forall (fun c => c <> 0) (s ++ [10]).
Proof. intros [Hs _]. apply Forall_app. split; [|by constructor]. eapply Forall_impl; [exact Hs|]. naive_solver. Qed.

Lemma main_loop_lines open_ok t ls : Forall typed ls -> forall k, (length ls < k)%nat ->
  main_loop open_ok t k (mjoin ((fun s => s ++ [10]) <$> ls)) = (fun s => main_line open_ok t (s ++ [10])) <$> ls.
Proof.
  induction 1 as [|s ls Hs Hls IH]; intros k Hk; (destruct k as [|k]; [lia|]); [done|].
  cbn [fmap list_fmap mjoin list_join main_loop]. rewrite <- app_assoc. cbn [app]. unfold getcmd.
  rewrite gets_line by apply Hs. rewrite cstring_id by by apply typed_no_nul.
  destruct (s ++ [10]) as [|c s'] eqn:He; [by destruct s|]. cbn in Hk. rewrite IH by lia. done.
Qed.

(** A line for the parser: not blank, and not the built-in [cd]. *)
Definition is_command (s : list Z) : bool :=
  negb (bool_decide (head (skip_blanks s) = Some 10)) && negb (bool_decide (take 3 (skip_blanks s) = [99; 100; 32])).

Lemma lex_skip_blanks s : lex (skip_blanks s) = lex s.
Proof.
  induction s as [|c s IH]; [done|]. cbn [skip_blanks]. destruct ((c =? 32) || (c =? 9)) eqn:Hc; [|done].
  rewrite IH. symmetry. apply lex_ws. apply orb_true_iff in Hc as [Hc|Hc]; apply Z.eqb_eq in Hc; by subst.
Qed.

Lemma skip_blanks_Forall P s : Forall P s -> Forall P (skip_blanks s).
Proof. induction 1 as [|c s Hc Hs IH]; [done|]. cbn. destruct (_ || _); [done|by constructor]. Qed.

Lemma redircmds_std {X} (c : cmd X) rs : redirs_std c = true -> (forall r, r ∈ rs -> r_fd r = 0 \/ r_fd r = 1) -> redirs_std (redircmds c rs) = true.
Proof.
  revert c. induction rs as [|r rs IH]; intros c Hc Hr; [done|]. apply IH; [|set_solver]. cbn. rewrite Hc, andb_true_r, orb_true_iff, !Z.eqb_eq.
  apply Hr. set_solver.
Qed.

Lemma redir_of_std (ars : list aredir) r : r ∈ redir_of <$> ars -> r_fd r = 0 \/ r_fd r = 1.
Proof. intros ([[] w] & -> & _)%list_elem_of_fmap; cbn; auto. Qed.

Lemma ast_redirs_std :
  (forall l, redirs_std (line_cmd l) = true) /\ (forall p, redirs_std (pipe_cmd p) = true) /\ (forall e, redirs_std (exec_cmd e) = true).
Proof.
  assert (Hb : forall n c, redirs_std (X := list Z) c = true -> redirs_std (Nat.iter n BACK c) = true).
  { intros n c Hc. induction n; done. }
  apply ast_ind; intros; cbn [line_cmd pipe_cmd exec_cmd redirs_std]; rewrite ?andb_true_iff; auto.
  - apply redircmds_std; [done|]. intros r. apply redir_of_std.
  - apply redircmds_std; [done|]. intros r. apply redir_of_std.
Qed.

Lemma main_line_command open_ok io s l : Forall (fun c => c <> 0) s -> is_command s = true -> lex s = line_toks l -> line_fits l = true ->
  main_line open_ok (table io) s = Start (fst (started (meaning open_ok (line_cmd l) io 0))).
Proof.
  intros Hn Hc Hl Hf. unfold is_command in Hc. apply andb_true_iff in Hc as [H1 H2]. apply negb_true_iff in H1, H2.
  unfold main_line. rewrite H1, H2. pose proof (parsecmd_tokens (skip_blanks s) (skip_blanks_Forall _ _ Hn)) as Hp.
  rewrite lex_skip_blanks, Hl in Hp. pose proof (proj1 tokens_complete l (4 * es (skip_blanks s) + 4)%nat [] Hf eq_refl) as Ht.
  rewrite app_nil_r in Ht. rewrite Ht in Hp.
  - destruct Hp as (c & mem & -> & ->). by rewrite runcmd_meaning by apply ast_redirs_std.
  - pose proof (lex_length (skip_blanks s)) as Hlen. rewrite lex_skip_blanks, Hl in Hlen. unfold es. lia.
Qed.

(** C23: The shell runs a script.  Given input made of lines that fit its buffer,
    each a sentence of the grammar (not blank, not [cd]), the shell started with
    descriptors 0, 1 and 2 open does one action per line, in order: it starts
    exactly the programs that the line means, each with its standard input,
    output and error as the line's pipes and redirections say, and with no
    other descriptor open; in particular neither end of any pipe leaks into a
    program that should not have it. *)
Theorem shell_runs_script open_ok io (script : list (list Z * aline)) :
  Forall (fun sl => typed (fst sl) /\ is_command (fst sl ++ [10]) = true /\ lex (fst sl ++ [10]) = line_toks (snd sl) /\ line_fits (snd sl) = true) script ->
  main open_ok (table io) (mjoin ((fun sl => fst sl ++ [10]) <$> script)) =
    (fun sl => Start (prod_map id table <$> fst (meaning open_ok (line_cmd (snd sl)) io 0))) <$> script.
Proof.
  intros Hs. unfold main. pose proof (main_loop_lines open_ok (table io) (fst <$> script)) as Hm.
  rewrite <- list_fmap_compose in Hm. unfold compose in Hm. rewrite Hm.
  - rewrite <- list_fmap_compose. apply Forall_fmap_ext_1. eapply Forall_impl; [exact Hs|]. intros [s l] (Hty & Hc & Hl & Hf). unfold compose. cbn [fst snd] in *.
    rewrite (main_line_command _ _ _ l); [done|by apply typed_no_nul|done..].
  - apply Forall_fmap. eapply Forall_impl; [exact Hs|]. naive_solver.
  - rewrite length_fmap, Nat.lt_succ_r. clear. induction script as [|[s l] script IH]; [done|].
    change (S (length script) <= length ((s ++ [10%Z]) ++ mjoin ((fun sl : list Z * aline => fst sl ++ [10%Z]) <$> script)))%nat.
    rewrite !length_app. cbn [length]. lia.
Qed.

Lemma shell_runs_script_witness :
  main (fun _ _ => true) (table (mk_stdio (Inherited 0) (Inherited 1) (Inherited 2))) (text "ls | sort > out" ++ [10]) =
    [Start [([text "ls"], table (mk_stdio (Inherited 0) (PipeW 0) (Inherited 2)));
            ([text "sort"], table (mk_stdio (PipeR 0) (Opened (text "out") 0x601) (Inherited 2)))]].
Proof.
  pose proof (shell_runs_script (fun _ _ => true) (mk_stdio (Inherited 0) (Inherited 1) (Inherited 2))
    [(text "ls | sort > out", LEnd (PBar (XCmd [] [(text "ls", [])]) (POne (XCmd [] [(text "sort", [(ROut, text "out")])]))) 0)]) as H.
  cbn [fmap list_fmap mjoin list_join fst snd] in H. rewrite app_nil_r in H. rewrite H.
  - reflexivity.
  - apply Forall_singleton. repeat split; try reflexivity.
    + apply (bool_decide_unpack _). vm_compute. exact I.
    + cbn. lia.
Defined.
