(* ===== verification/Proc.v ===== *)
(** The process table and the scheduler ([kernel/proc.c]): allocation and
    freeing of slots, fork, exit, wait, kill, sleep and wakeup, and the CPUs
    that run processes.  User memory is the page-table code of Uvm and Paging,
    open files and inodes are reached through an interface of reference
    operations. *)
From S2P Require Import Prelude Riscv Kalloc Vm Uvm FileLayer Paging.
Open Scope kern_scope.

Definition NPROC : Z := 64.
Definition NCPU : Z := 8.
Definition NOFILE : Z := 16.

(** * State *)

Inductive procstate := UNUSED | USED | SLEEPING | RUNNABLE | RUNNING | ZOMBIE.
#[export] Instance procstate_eq_dec : EqDecision procstate.
Proof. solve_decision. Defined.

(** What a process can sleep on: the address of a process structure (only
    [kwait] does), or that of some other kernel object. *)
Inductive channel := ChProc (i : Z) | ChAddr (a : Z).
#[export] Instance channel_eq_dec : EqDecision channel.
Proof. solve_decision. Defined.

(** [struct proc]; [pe_vm] holds the fields that paging works on, [p_pid] and
    [p_killed] among them.  A parent is a slot of the table. *)
Record pentry := mk_pe {
  pe_state : procstate;
  pe_chan : option channel;
  pe_xstate : Z;
  pe_parent : option Z;
  pe_trapframe : Z;
  pe_ofile : Z -> Z;
  pe_cwd : Z;
  pe_name : list Z;
  pe_vm : proc
}.
Definition set_state v p := mk_pe v (pe_chan p) (pe_xstate p) (pe_parent p) (pe_trapframe p) (pe_ofile p) (pe_cwd p) (pe_name p) (pe_vm p).
Definition set_chan v p := mk_pe (pe_state p) v (pe_xstate p) (pe_parent p) (pe_trapframe p) (pe_ofile p) (pe_cwd p) (pe_name p) (pe_vm p).
Definition set_xstate v p := mk_pe (pe_state p) (pe_chan p) v (pe_parent p) (pe_trapframe p) (pe_ofile p) (pe_cwd p) (pe_name p) (pe_vm p).
Definition set_parent v p := mk_pe (pe_state p) (pe_chan p) (pe_xstate p) v (pe_trapframe p) (pe_ofile p) (pe_cwd p) (pe_name p) (pe_vm p).
Definition set_trapframe v p := mk_pe (pe_state p) (pe_chan p) (pe_xstate p) (pe_parent p) v (pe_ofile p) (pe_cwd p) (pe_name p) (pe_vm p).
Definition set_ofile v p := mk_pe (pe_state p) (pe_chan p) (pe_xstate p) (pe_parent p) (pe_trapframe p) v (pe_cwd p) (pe_name p) (pe_vm p).
Definition set_cwd v p := mk_pe (pe_state p) (pe_chan p) (pe_xstate p) (pe_parent p) (pe_trapframe p) (pe_ofile p) v (pe_name p) (pe_vm p).
Definition set_name v p := mk_pe (pe_state p) (pe_chan p) (pe_xstate p) (pe_parent p) (pe_trapframe p) (pe_ofile p) (pe_cwd p) v (pe_vm p).
Definition set_vm f p := mk_pe (pe_state p) (pe_chan p) (pe_xstate p) (pe_parent p) (pe_trapframe p) (pe_ofile p) (pe_cwd p) (pe_name p) (f (pe_vm p)).

(** The fields of the paging part, one update each. *)
Definition vm_pid v p := let '(mk_proc _ b c d e f g h i j k l m n o q) := p in mk_proc v b c d e f g h i j k l m n o q.
Definition vm_pagetable v p := let '(mk_proc a b _ d e f g h i j k l m n o q) := p in mk_proc a b v d e f g h i j k l m n o q.
Definition vm_exec_ip v p := let '(mk_proc a b c d _ f g h i j k l m n o q) := p in mk_proc a b c d v f g h i j k l m n o q.
Definition vm_swap_file v p := let '(mk_proc a b c d e _ g h i j k l m n o q) := p in mk_proc a b c d e v g h i j k l m n o q.
(** The resets of [allocproc]: sequence number, resident and swapped counts,
    program headers, swap slots. *)
Definition vm_reset p := let '(mk_proc a b c d e f g h i j k l m n o q) := p in mk_proc a b c d e f (fun _ => 0) h 0 j 0 0 m n 0 q.
(** What [kfork] copies: size, heap start, resident and swapped pages, slots,
    saved registers. *)
Definition vm_copy (pp p : proc) : proc :=
  let '(mk_proc a _ c _ e f _ h _ j _ _ _ n o q) := p in
  mk_proc a (p_sz pp) c (p_heap_start pp) e f (p_swap_slots pp)
    (fun i => if (0 <=? i) && (i <? p_num_resident pp) then p_resident_pages pp i else h i) (p_num_resident pp)
    (fun i => if (0 <=? i) && (i <? p_num_swapped pp) then p_swapped_pages pp i else j i) (p_num_swapped pp)
    (p_next_fifo_seq pp) (p_tf_sp pp) n o q.

(** The operations on open files and inodes that processes use. *)
Class FileRefs := {
  fref : Type;
  filedup : Z -> M fref Z;
  fileclose : Z -> M fref unit;
  idup : Z -> M fref Z;
  iput : Z -> M fref unit;
  itrunc : Z -> M fref unit;
  begin_op : M fref unit;
  end_op : M fref unit;
  namei : string -> M fref Z
}.

Section Proc.
Context {LAY : Layout} {FL : FileLayer} {FR : FileRefs}.

(** The process table, [nextpid], [initproc], physical memory, files, and for
    each CPU the process it runs ([c->proc]) and the slot that its scheduler
    looks at next. *)
Record sys := mk_sys {
  s_proc : Z -> pentry;
  s_nextpid : Z;
  s_initproc : Z;
  s_km : kmem;
  s_fs : fs;
  s_log : list event;
  s_fref : fref;
  s_cpu : Z -> option Z;
  s_scan : Z -> Z
}.
Definition put_proc v s := mk_sys v (s_nextpid s) (s_initproc s) (s_km s) (s_fs s) (s_log s) (s_fref s) (s_cpu s) (s_scan s).
Definition put_nextpid v s := mk_sys (s_proc s) v (s_initproc s) (s_km s) (s_fs s) (s_log s) (s_fref s) (s_cpu s) (s_scan s).
Definition put_initproc v s := mk_sys (s_proc s) (s_nextpid s) v (s_km s) (s_fs s) (s_log s) (s_fref s) (s_cpu s) (s_scan s).
Definition put_km v s := mk_sys (s_proc s) (s_nextpid s) (s_initproc s) v (s_fs s) (s_log s) (s_fref s) (s_cpu s) (s_scan s).
Definition put_fref v s := mk_sys (s_proc s) (s_nextpid s) (s_initproc s) (s_km s) (s_fs s) (s_log s) v (s_cpu s) (s_scan s).
Definition put_cpu v s := mk_sys (s_proc s) (s_nextpid s) (s_initproc s) (s_km s) (s_fs s) (s_log s) (s_fref s) v (s_scan s).
Definition put_scan v s := mk_sys (s_proc s) (s_nextpid s) (s_initproc s) (s_km s) (s_fs s) (s_log s) (s_fref s) (s_cpu s) v.

Definition kmem_op {A} (m : M kmem A) : M sys A := zoom s_km put_km m.
Definition fref_op {A} (m : M fref A) : M sys A := zoom s_fref put_fref m.
(** Code that pages in the memory of process [i]. *)
Definition paging_op {A} (i : Z) (m : M pstate A) : M sys A :=
  zoom (fun s => mk_ps (s_km s) (pe_vm (s_proc s i)) (s_fs s) (s_log s))
    (fun ps s => mk_sys (upd (s_proc s) i (set_vm (fun _ => ps_p ps) (s_proc s i))) (s_nextpid s) (s_initproc s)
                   (ps_k ps) (ps_fs ps) (ps_log ps) (s_fref s) (s_cpu s) (s_scan s)) m.

Definition getp (i : Z) : M sys pentry := gets (fun s => s_proc s i).
Definition setp (i : Z) (f : pentry -> pentry) : M sys unit :=
  modify (fun s => put_proc (upd (s_proc s) i (f (s_proc s i))) s).

(** * Slots *)

Definition allocpid : M sys Z :=
  do s <- get;
  modify (put_nextpid (i32 (s_nextpid s + 1))) ;;;
  ret (s_nextpid s).

Definition freeproc (i : Z) : M sys unit :=
  do p <- getp i;
  (if negb (pe_trapframe p =? 0) then kmem_op (kfree (pe_trapframe p)) else ret tt) ;;;
  setp i (set_trapframe 0) ;;;
  (if negb (p_pagetable (pe_vm p) =? 0) then kmem_op (proc_freepagetable (p_pagetable (pe_vm p)) (p_sz (pe_vm p))) else ret tt) ;;;
  setp i (fun p => set_state UNUSED (set_xstate 0 (set_chan None (set_name [] (set_parent None
    (set_vm (fun v => set_killed 0 (vm_pid 0 (set_sz 0 (vm_pagetable 0 v)))) p)))))) ;;;
  do p <- getp i;
  if negb (p_exec_ip (pe_vm p) =? 0) then fref_op (iput (p_exec_ip (pe_vm p))) else ret tt.

(** The slot of the new process, or [None] for a null pointer. *)
Definition allocproc : M sys (option Z) :=
  do s <- get;
  match scan (fun i => bool_decide (pe_state (s_proc s i) = UNUSED)) NPROC with
  | None => ret None
  | Some i =>
      do pid <- allocpid;
      setp i (fun p => set_state USED (set_vm (fun v => vm_reset (vm_pid pid v)) p)) ;;;
      do tf <- kmem_op kalloc;
      setp i (set_trapframe tf) ;;;
      if tf =? 0 then freeproc i ;;; ret None
      else
        do pt <- kmem_op (proc_pagetable tf);
        setp i (set_vm (vm_pagetable pt)) ;;;
        if pt =? 0 then freeproc i ;;; ret None
        else ret (Some i)
  end.

(** [procinit]: every slot unused. *)
Definition procinit : M sys unit := for_loop (Z.to_nat NPROC) 0 (fun i => setp i (set_state UNUSED)).

Definition userinit : M sys unit :=
  do r <- allocproc;
  match r with
  | None => undef "null process"
  | Some i =>
      modify (put_initproc i) ;;;
      do d <- fref_op (namei "/");
      setp i (fun p => set_state RUNNABLE (set_cwd d p))
  end.

(** * Sleeping *)

(** [wakeup] in a context where [myproc()] is [me]. *)
Definition wakeup (me : option Z) (ch : channel) : M sys unit :=
  for_loop (Z.to_nat NPROC) 0 (fun i =>
    if bool_decide (me = Some i) then ret tt
    else
      do p <- getp i;
      if bool_decide (pe_state p = SLEEPING /\ pe_chan p = Some ch) then setp i (set_state RUNNABLE) else ret tt).

(** The CPU on which [me] runs goes back to its scheduler. *)
Definition sched (c me : Z) : M sys unit :=
  do p <- getp me;
  if bool_decide (pe_state p = RUNNING) then panic "sched RUNNING"
  else modify (fun s => put_cpu (upd (s_cpu s) c None) s).

(** [sleep] up to its call of [sched]. *)
Definition sleep (c me : Z) (ch : channel) : M sys unit :=
  setp me (fun p => set_state SLEEPING (set_chan (Some ch) p)) ;;;
  sched c me.

Definition yield (c me : Z) : M sys unit :=
  setp me (set_state RUNNABLE) ;;;
  sched c me.

(** * Fork, exit, wait, kill *)

(** [sizeof(struct trapframe)] and the offset of [a0]. *)
Definition TF_SIZE : Z := 288.
Definition TF_A0 : Z := 112.

(** What [kfork] fills in, from the parent [p], in the child at [np] whose entry
    is [q] so far: size, saved registers with 0 in [a0], paging state, files,
    directory, executable and name. *)
Definition fork_copy (p q : pentry) (np : Z) : M sys unit :=
  kmem_op (kmemmove (pe_trapframe q) (pe_trapframe p) TF_SIZE) ;;;
  setp np (set_vm (vm_copy (pe_vm p))) ;;;
  kmem_op (kstore (pe_trapframe q + TF_A0) 0) ;;;
  for_loop (Z.to_nat NOFILE) 0 (fun i =>
    if negb (pe_ofile p i =? 0) then
      do f <- fref_op (filedup (pe_ofile p i));
      setp np (fun q => set_ofile (upd (pe_ofile q) i f) q)
    else ret tt) ;;;
  do d <- fref_op (idup (pe_cwd p));
  setp np (set_cwd d) ;;;
  (if negb (p_exec_ip (pe_vm p) =? 0) then
     do e <- fref_op (idup (p_exec_ip (pe_vm p)));
     setp np (set_vm (vm_exec_ip e))
   else ret tt) ;;;
  setp np (set_name (pe_name p)).

Definition kfork (me : Z) : M sys Z :=
  do r <- allocproc;
  match r with
  | None => ret (-1)
  | Some np =>
      do p <- getp me;
      do q <- getp np;
      do rc <- kmem_op (uvmcopy (p_pagetable (pe_vm p)) (p_pagetable (pe_vm q)) (p_sz (pe_vm p)));
      if rc <? 0 then freeproc np ;;; ret (-1)
      else
        fork_copy p q np ;;;
        do q <- getp np;
        setp np (set_parent (Some me)) ;;;
        setp np (set_state RUNNABLE) ;;;
        ret (p_pid (pe_vm q))
  end.

(** The body of the loop of [reparent]. *)
Definition reparent_slot (me i : Z) : M sys unit :=
  do pp <- getp i;
  if bool_decide (pe_parent pp = Some me) then
    do s <- get;
    setp i (set_parent (Some (s_initproc s))) ;;;
    wakeup (Some me) (ChProc (s_initproc s))
  else ret tt.

Definition reparent (me : Z) : M sys unit := for_loop (Z.to_nat NPROC) 0 (reparent_slot me).

(** The first half of [kexit]: the process gives up its files, its swap file
    and its directory. *)
Definition exit_files (me : Z) : M sys unit :=
  for_loop (Z.to_nat NOFILE) 0 (fun fd =>
    do p <- getp me;
    if negb (pe_ofile p fd =? 0) then
      fref_op (fileclose (pe_ofile p fd)) ;;;
      setp me (fun p => set_ofile (upd (pe_ofile p) fd 0) p)
    else ret tt) ;;;
  do p <- getp me;
  (match p_swap_file (pe_vm p) with
   | None => ret tt
   | Some f =>
       fref_op begin_op ;;; fref_op (itrunc f) ;;; fref_op (fileclose f) ;;;
       setp me (set_vm (vm_swap_file None)) ;;; fref_op end_op
   end) ;;;
  fref_op begin_op ;;; fref_op (iput (pe_cwd p)) ;;; fref_op end_op ;;;
  setp me (set_cwd 0).

(** [kexit] on CPU [c], up to the switch to the scheduler. *)
Definition kexit (c me status : Z) : M sys unit :=
  do s <- get;
  if me =? s_initproc s then panic "init exiting"
  else
    exit_files me ;;;
    reparent me ;;;
    do p <- getp me;
    wakeup (Some me) (match pe_parent p with Some i => ChProc i | None => ChAddr 0 end) ;;;
    setp me (fun p => set_state ZOMBIE (set_xstate status p)) ;;;
    sched c me.

(** One pass of the loop of [kwait] for [me] on CPU [c]: the result of the call,
    or the process sleeps.  [bytes32 v] is the [int] as it lies in memory. *)
Inductive wait_turn := WReturn (r : Z) | WSleep.

Definition bytes32 (v : Z) : list Z := (fun k => Z.shiftr (u32 v) (8 * Z.of_nat k) mod 256) <$> seq 0 4.
Definition SCAUSE_ECALL : Z := 8.

(** The scan over the table: the first zombie child, and whether there are
    children at all. *)
Definition kwait_scan (s : sys) (me : Z) : option Z * bool :=
  let child i := bool_decide (pe_parent (s_proc s i) = Some me) in
  (scan (fun i => child i && bool_decide (pe_state (s_proc s i) = ZOMBIE)) NPROC,
   bool_decide (is_Some (scan child NPROC))).

Definition kwait (c me addr : Z) : M sys wait_turn :=
  do s <- get;
  match kwait_scan s me with
  | (Some i, _) =>
      do pp <- getp i;
      do p <- getp me;
      do rc <- (if negb (addr =? 0) then paging_op me (copyout (p_pagetable (pe_vm p)) addr (bytes32 (pe_xstate pp)) SCAUSE_ECALL) else ret 0);
      if rc <? 0 then ret (WReturn (-1))
      else freeproc i ;;; ret (WReturn (p_pid (pe_vm pp)))
  | (None, havekids) =>
      do p <- getp me;
      if negb havekids || negb (p_killed (pe_vm p) =? 0) then ret (WReturn (-1))
      else sleep c me (ChProc me) ;;; ret WSleep
  end.

Definition kkill (pid : Z) : M sys Z :=
  do s <- get;
  match scan (fun i => p_pid (pe_vm (s_proc s i)) =? pid) NPROC with
  | None => ret (-1)
  | Some i =>
      setp i (set_vm (set_killed 1)) ;;;
      do p <- getp i;
      (if bool_decide (pe_state p = SLEEPING) then setp i (set_state RUNNABLE) else ret tt) ;;;
      ret 0
  end.

Definition setkilled (i : Z) : M sys unit := setp i (set_vm (set_killed 1)).
Definition killed (i : Z) : M sys Z := do p <- getp i; ret (p_killed (pe_vm p)).

(** [growproc] on the process [me]. *)
Definition growproc (me n : Z) : M sys Z :=
  do p <- getp me;
  let sz := p_sz (pe_vm p) in
  if 0 <? n then
    if TRAPFRAME <? u64 (sz + n) then ret (-1)
    else
      do sz' <- kmem_op (uvmalloc (p_pagetable (pe_vm p)) sz (u64 (sz + n)) PTE_W);
      if sz' =? 0 then ret (-1) else setp me (set_vm (set_sz sz')) ;;; ret 0
  else if n <? 0 then
    do sz' <- kmem_op (uvmdealloc (p_pagetable (pe_vm p)) sz (u64 (sz + n)));
    setp me (set_vm (set_sz sz')) ;;; ret 0
  else ret 0.

(** * The scheduler *)

(** One iteration of the inner loop on CPU [c]: the slot it looks at is run when
    it is runnable.  A process that comes back from [sleep] clears its channel
    before it does anything else. *)
Definition scheduler_step (c : Z) : M sys unit :=
  do s <- get;
  let i := s_scan s c in
  modify (put_scan (upd (s_scan s) c ((i + 1) mod NPROC))) ;;;
  if bool_decide (pe_state (s_proc s i) = RUNNABLE) then
    setp i (fun p => set_chan None (set_state RUNNING p)) ;;;
    modify (fun s => put_cpu (upd (s_cpu s) c (Some i)) s)
  else ret tt.

(** * What each operation does to the table *)

(** Equal up to memory, files and the table. *)
Record frame (s s' : sys) : Prop := {
  fr_nextpid : s_nextpid s' = s_nextpid s;
  fr_init : s_initproc s' = s_initproc s;
  fr_cpu : s_cpu s' = s_cpu s;
  fr_scan : s_scan s' = s_scan s
}.
(** The slots other than [i] are as before. *)
Definition others (i : Z) (s s' : sys) : Prop := forall j, j <> i -> s_proc s' j = s_proc s j.

Lemma frame_refl s : frame s s.
Proof. by constructor. Qed.
Lemma frame_trans s1 s2 s3 : frame s1 s2 -> frame s2 s3 -> frame s1 s3.
Proof. intros [] []. constructor; congruence. Qed.
Lemma others_refl i s : others i s s.
Proof. done. Qed.
Lemma others_trans i s1 s2 s3 : others i s1 s2 -> others i s2 s3 -> others i s1 s3.
Proof. intros H1 H2 j Hj. by rewrite H2, H1. Qed.

Lemma kmem_op_ret {A} (m : M kmem A) s a s' : kmem_op m s = Ret a s' -> frame s s' /\ s_proc s' = s_proc s.
Proof. unfold kmem_op, zoom. intros H. destruct (m (s_km s)); simplify_eq. split; [by constructor|done]. Qed.
Lemma fref_op_ret {A} (m : M fref A) s a s' : fref_op m s = Ret a s' -> frame s s' /\ s_proc s' = s_proc s.
Proof. unfold fref_op, zoom. intros H. destruct (m (s_fref s)); simplify_eq. split; [by constructor|done]. Qed.
Lemma paging_op_ret {A} i (m : M pstate A) s a s' : paging_op i m s = Ret a s' ->
  frame s s' /\ others i s s' /\ exists ps, m (mk_ps (s_km s) (pe_vm (s_proc s i)) (s_fs s) (s_log s)) = Ret a ps /\
    s_proc s' i = set_vm (fun _ => ps_p ps) (s_proc s i).
Proof.
  unfold paging_op, zoom. intros H. destruct (m _) as [x ps| | | |]; simplify_eq. split; [by constructor|]. split.
  - intros j Hj. by apply upd_ne.
  - exists ps. split; [done|]. apply upd_eq.
Qed.
Lemma setp_ret i f s a s' : setp i f s = Ret a s' -> frame s s' /\ others i s s' /\ s_proc s' i = f (s_proc s i).
Proof.
  intros H. injection H as <- <-. split; [by constructor|]. split; [intros j Hj; by apply upd_ne|apply upd_eq].
Qed.
Lemma if_unit_ret (b : bool) (m : M sys unit) s a s' : (if b then m else ret tt) s = Ret a s' -> m s = Ret a s' \/ s' = s.
Proof. destruct b; [auto|]. intros [= _ <-]. auto. Qed.

(** [m] touches only slot [i] of the table. *)
Definition touches (i : Z) {A} (m : M sys A) : Prop := forall s a s', m s = Ret a s' -> frame s s' /\ others i s s'.

Lemma touches_bind i {A B} (m : M sys A) (k : A -> M sys B) : touches i m -> (forall a, touches i (k a)) -> touches i (bind m k).
Proof.
  intros Hm Hk s b s' H. apply bind_inv in H as (a & s1 & H1 & H2). apply Hm in H1 as [F1 O1]. apply Hk in H2 as [F2 O2].
  split; [by eapply frame_trans|by eapply others_trans].
Qed.
Lemma touches_ret i {A} (a : A) : touches i (ret a).
Proof. intros s b s' [= _ <-]. split; [apply frame_refl|done]. Qed.
Lemma touches_get i : touches i get.
Proof. intros s b s' [= _ <-]. split; [apply frame_refl|done]. Qed.
Lemma touches_getp i j : touches i (getp j).
Proof. intros s b s' [= _ <-]. split; [apply frame_refl|done]. Qed.
Lemma touches_setp i f : touches i (setp i f).
Proof. intros s b s' H. by apply setp_ret in H as (? & ? & _). Qed.
Lemma touches_kmem i {A} (m : M kmem A) : touches i (kmem_op m).
Proof. intros s b s' H. apply kmem_op_ret in H as [? He]. split; [done|]. intros j _. by rewrite He. Qed.
Lemma touches_fref i {A} (m : M fref A) : touches i (fref_op m).
Proof. intros s b s' H. apply fref_op_ret in H as [? He]. split; [done|]. intros j _. by rewrite He. Qed.
Lemma touches_paging i {A} (m : M pstate A) : touches i (paging_op i m).
Proof. intros s b s' H. by apply paging_op_ret in H as (? & ? & _). Qed.
Lemma touches_panic i {A} msg : touches i (panic msg : M sys A).
Proof. done. Qed.
Lemma touches_for i k j body : (forall n, touches i (body n)) -> touches i (for_loop k j body).
Proof. intros Hb. revert j. induction k as [|k IH]; intros j; cbn [for_loop]; [apply touches_ret|]. by apply touches_bind. Qed.

Lemma touches_freeproc i : touches i (freeproc i).
Proof.
  unfold freeproc. repeat first [apply touches_ret | apply touches_getp | apply touches_setp | apply touches_kmem | apply touches_fref
    | apply touches_bind; [|intros ?] | match goal with |- touches _ (if ?b then _ else _) => destruct b end].
Qed.

(** A slot as [freeproc] leaves it. *)
Record freed (p : pentry) : Prop := {
  fd_state : pe_state p = UNUSED;
  fd_pid : p_pid (pe_vm p) = 0;
  fd_parent : pe_parent p = None;
  fd_chan : pe_chan p = None;
  fd_killed : p_killed (pe_vm p) = 0
}.

Lemma freeproc_ret i s a s' : freeproc i s = Ret a s' -> frame s s' /\ others i s s' /\ freed (s_proc s' i).
Proof.
  intros H. destruct (touches_freeproc i s a s' H) as [HF HO]. split; [done|]. split; [done|]. unfold freeproc in H.
  apply bind_inv in H as (p & s1 & _ & H). apply bind_inv in H as (u1 & s2 & _ & H). apply bind_inv in H as (u2 & s3 & _ & H).
  apply bind_inv in H as (u3 & s4 & _ & H). apply bind_inv in H as (u4 & s5 & H5 & H). apply setp_ret in H5 as (_ & _ & H5).
  apply bind_inv in H as (q & s6 & H6 & H). injection H6 as <- <-.
  assert (Hs : s_proc s' = s_proc s5).
  { destruct (negb _); [by apply fref_op_ret in H as [_ H]|]. by injection H as _ <-. }
  rewrite Hs, H5. destruct (s_proc s4 i) as [? ? ? ? ? ? ? ? []]. by constructor.
Qed.

(** What [freeproc] does not clear. *)
Lemma freeproc_leaves i s a s' : freeproc i s = Ret a s' ->
  pe_trapframe (s_proc s' i) = 0 /\ p_pagetable (pe_vm (s_proc s' i)) = 0 /\ p_exec_ip (pe_vm (s_proc s' i)) = p_exec_ip (pe_vm (s_proc s i)).
Proof.
  unfold freeproc. intros H. apply bind_inv in H as (p & s1 & [= <- <-] & H). apply bind_inv in H as (u1 & s2 & H2 & H).
  assert (P2 : s_proc s2 = s_proc s) by (apply if_unit_ret in H2 as [H2| ->]; [by apply kmem_op_ret in H2 as [_ H2]|done]).
  apply bind_inv in H as (u2 & s3 & H3 & H). apply setp_ret in H3 as (_ & _ & P3). apply bind_inv in H as (u3 & s4 & H4 & H).
  assert (P4 : s_proc s4 = s_proc s3) by (apply if_unit_ret in H4 as [H4| ->]; [by apply kmem_op_ret in H4 as [_ H4]|done]).
  apply bind_inv in H as (u4 & s5 & H5 & H). apply setp_ret in H5 as (_ & _ & P5). apply bind_inv in H as (q & s6 & [= <- <-] & H).
  assert (P6 : s_proc s' = s_proc s5) by (apply if_unit_ret in H as [H| ->]; [by apply fref_op_ret in H as [_ H]|done]).
  rewrite P6, P5, P4, P3, P2. destruct (s_proc s i) as [? ? ? ? ? ? ? ? []]. done.
Qed.

(** [allocproc] that succeeds: a slot that was unused, with a fresh pid. *)
Definition allocated (s s' : sys) (i : Z) : Prop :=
  0 <= i < NPROC /\ pe_state (s_proc s i) = UNUSED /\ (forall j, 0 <= j < i -> pe_state (s_proc s j) <> UNUSED) /\ others i s s' /\
  pe_state (s_proc s' i) = USED /\ p_pid (pe_vm (s_proc s' i)) = s_nextpid s /\
  pe_parent (s_proc s' i) = pe_parent (s_proc s i) /\ pe_chan (s_proc s' i) = pe_chan (s_proc s i) /\
  p_killed (pe_vm (s_proc s' i)) = p_killed (pe_vm (s_proc s i)).

(** One that fails: the table as before, or one unused slot freed again. *)
Definition not_allocated (s s' : sys) : Prop :=
  s_proc s' = s_proc s \/ exists i, 0 <= i < NPROC /\ pe_state (s_proc s i) = UNUSED /\ others i s s' /\ freed (s_proc s' i).

(** Equal up to memory, files, the table and [nextpid], which may have been
    used once. *)
Definition used_pid (s s' : sys) : Prop :=
  s_initproc s' = s_initproc s /\ s_cpu s' = s_cpu s /\ s_scan s' = s_scan s /\
  (s_nextpid s' = i32 (s_nextpid s + 1) \/ s_nextpid s' = s_nextpid s).

Lemma used_pid_frame s s1 s2 : used_pid s s1 -> frame s1 s2 -> used_pid s s2.
Proof. intros (H1 & H2 & H3 & H4) [F1 F2 F3 F4]. unfold used_pid. rewrite F1, F2, F3, F4. done. Qed.

Lemma allocproc_ret s r s' : allocproc s = Ret r s' ->
  used_pid s s' /\ match r with
  | Some i => allocated s s' i /\ s_nextpid s' = i32 (s_nextpid s + 1)
  | None => not_allocated s s' end.
Proof.
  unfold allocproc. intros H. apply bind_inv in H as (s0 & s1 & [= <- <-] & H).
  pose proof (scan_from_spec (fun i => bool_decide (pe_state (s_proc s i) = UNUSED)) (Z.to_nat NPROC) 0) as Hsc.
  unfold scan in H. destruct (scan_from _ _ _) as [i|].
  2: { injection H as <- <-. split; [unfold used_pid; auto|]. by left. }
  destruct Hsc as (Hi & Hun & Hlow). apply bool_decide_eq_true in Hun.
  apply bind_inv in H as (pid & s2 & H2 & H). injection H2 as <- <-.
  apply bind_inv in H as (u1 & s3 & H3 & H). apply setp_ret in H3 as (F3 & O3 & P3).
  apply bind_inv in H as (tf & s4 & H4 & H). apply kmem_op_ret in H4 as [F4 P4].
  apply bind_inv in H as (u2 & s5 & H5 & H). apply setp_ret in H5 as (F5 & O5 & P5).
  assert (HU : used_pid s s5).
  { destruct F3, F4, F5. cbn [put_nextpid s_nextpid s_initproc s_cpu s_scan] in *. unfold used_pid. split_and!; [congruence..|left; congruence]. }
  assert (HO : others i s s5).
  { intros j Hj. rewrite O5, P4, O3 by done. done. }
  assert (Hp5 : s_proc s5 i = set_trapframe tf (set_state USED (set_vm (fun v => vm_reset (vm_pid (s_nextpid s) v)) (s_proc s i)))).
  { by rewrite P5, P4, P3. }
  assert (Hfree : forall s6 a s7, frame s5 s6 -> others i s5 s6 -> freeproc i s6 = Ret a s7 -> used_pid s s7 /\ not_allocated s s7).
  { intros s6 a s7 F6 O6 H7. apply freeproc_ret in H7 as (F7 & O7 & Hf). split; [eapply used_pid_frame; [done|by eapply frame_trans]|].
    right. exists i. split; [change NPROC with 64 in *; lia|]. split; [done|]. split; [|done].
    eapply others_trans; [done|by eapply others_trans]. }
  destruct (tf =? 0).
  { apply bind_inv in H as (u3 & s6 & H6 & H). injection H as <- <-. eapply Hfree; [apply frame_refl|apply others_refl|done]. }
  apply bind_inv in H as (pt & s6 & H6 & H). apply kmem_op_ret in H6 as [F6 P6].
  apply bind_inv in H as (u3 & s7 & H7 & H). apply setp_ret in H7 as (F7 & O7 & P7).
  assert (F57 : frame s5 s7) by by eapply frame_trans.
  assert (O57 : others i s5 s7) by (intros j Hj; by rewrite O7, P6).
  destruct (pt =? 0).
  { apply bind_inv in H as (u4 & s8 & H8 & H). injection H as <- <-. eapply Hfree; done. }
  injection H as <- <-. split; [by eapply used_pid_frame|]. split.
  - split; [change NPROC with 64 in *; lia|]. split; [done|]. split; [intros j Hj Hx; specialize (Hlow j ltac:(lia)); by apply bool_decide_eq_false in Hlow|].
    split; [by eapply others_trans|]. rewrite P7, P6, Hp5. destruct (s_proc s i) as [? ? ? ? ? ? ? ? []]. done.
  - destruct F3, F4, F5, F57. cbn [put_nextpid s_nextpid s_initproc s_cpu s_scan] in *. congruence.
Qed.

(** The fields that the protocols between processes depend on. *)
Record pcore := mk_core { c_state : procstate; c_chan : option channel; c_parent : option Z; c_pid : Z; c_killed : Z }.
Definition core (p : pentry) : pcore := mk_core (pe_state p) (pe_chan p) (pe_parent p) (p_pid (pe_vm p)) (p_killed (pe_vm p)).

(** [m] changes the table at most in slot [i], and not its [core]. *)
Definition quiet (i : Z) {A} (m : M sys A) : Prop := forall s a s', m s = Ret a s' ->
  frame s s' /\ others i s s' /\ core (s_proc s' i) = core (s_proc s i).

Lemma quiet_bind i {A B} (m : M sys A) (k : A -> M sys B) : quiet i m -> (forall a, quiet i (k a)) -> quiet i (bind m k).
Proof.
  intros Hm Hk s b s' H. apply bind_inv in H as (a & s1 & H1 & H2). apply Hm in H1 as (F1 & O1 & C1). apply Hk in H2 as (F2 & O2 & C2).
  split; [by eapply frame_trans|]. split; [by eapply others_trans|]. congruence.
Qed.
Lemma quiet_ret i {A} (a : A) : quiet i (ret a).
Proof. intros s b s' [= _ <-]. split; [apply frame_refl|done]. Qed.
Lemma quiet_getp i j : quiet i (getp j).
Proof. intros s b s' [= _ <-]. split; [apply frame_refl|done]. Qed.
Lemma quiet_setp i f : (forall p, core (f p) = core p) -> quiet i (setp i f).
Proof. intros Hf s b s' H. apply setp_ret in H as (? & ? & ->). done. Qed.
Lemma quiet_kmem i {A} (m : M kmem A) : quiet i (kmem_op m).
Proof. intros s b s' H. apply kmem_op_ret in H as [? He]. split; [done|]. split; [intros j _|]; by rewrite He. Qed.
Lemma quiet_fref i {A} (m : M fref A) : quiet i (fref_op m).
Proof. intros s b s' H. apply fref_op_ret in H as [? He]. split; [done|]. split; [intros j _|]; by rewrite He. Qed.
Lemma quiet_for i k j body : (forall n, quiet i (body n)) -> quiet i (for_loop k j body).
Proof. intros Hb. revert j. induction k as [|k IH]; intros j; cbn [for_loop]; [apply quiet_ret|]. by apply quiet_bind. Qed.

(** Decides [quiet] for code that updates other fields. *)
Ltac quiet :=
  repeat first
    [ apply quiet_ret | apply quiet_getp | apply quiet_kmem | apply quiet_fref
    | apply quiet_setp; let p := fresh in intros p; destruct p as [? ? ? ? ? ? ? ? []]; reflexivity
    | apply quiet_for; intros ? | apply quiet_bind; [|intros ?]
    | match goal with |- quiet _ (if ?b then _ else _) => destruct b | |- quiet _ (match ?x with _ => _ end) => destruct x end ].

Lemma fork_copy_quiet p q np : quiet np (fork_copy p q np).
Proof. unfold fork_copy. quiet. Qed.

(** [kfork]: -1 and no process, or the pid of a new runnable child. *)
Lemma kfork_ret me s r s' : kfork me s = Ret r s' ->
  used_pid s s' /\
  ((r = -1 /\ not_allocated s s') \/
   (exists np, 0 <= np < NPROC /\ pe_state (s_proc s np) = UNUSED /\ (forall j, 0 <= j < np -> pe_state (s_proc s j) <> UNUSED) /\ others np s s' /\ r = s_nextpid s /\
      core (s_proc s' np) = mk_core RUNNABLE (pe_chan (s_proc s np)) (Some me) (s_nextpid s) (p_killed (pe_vm (s_proc s np))) /\
      s_nextpid s' = i32 (s_nextpid s + 1))).
Proof.
  unfold kfork. intros H. apply bind_inv in H as (x & s1 & H1 & H). apply allocproc_ret in H1 as [HU H1]. destruct x as [np|].
  2: { injection H as <- <-. auto. }
  destruct H1 as [(Hnp & Hun & Hlow & O1 & S1 & P1 & Q1 & C1 & K1) N1].
  apply bind_inv in H as (p & s2 & [= <- <-] & H). apply bind_inv in H as (q & s3 & [= <- <-] & H).
  apply bind_inv in H as (rc & s4 & H4 & H). apply (quiet_kmem np) in H4 as (F4 & O4 & C4).
  destruct (rc <? 0).
  { apply bind_inv in H as (u & s5 & H5 & H). injection H as <- <-. apply freeproc_ret in H5 as (F5 & O5 & Hf).
    split; [eapply used_pid_frame; [done|by eapply frame_trans]|]. left. split; [done|]. right. exists np.
    split; [done|]. split; [done|]. split; [|done]. eapply others_trans; [done|by eapply others_trans]. }
  apply bind_inv in H as (u1 & s5 & H5 & H). apply fork_copy_quiet in H5 as (F5 & O5 & C5).
  apply bind_inv in H as (q' & s6 & [= <- <-] & H). apply bind_inv in H as (u2 & s7 & H7 & H). apply setp_ret in H7 as (F7 & O7 & P7).
  apply bind_inv in H as (u3 & s8 & H8 & H). apply setp_ret in H8 as (F8 & O8 & P8). injection H as <- <-.
  assert (Hcore : core (s_proc s5 np) = core (s_proc s1 np)) by congruence.
  assert (HF : frame s1 s8) by (repeat (eapply frame_trans; [eassumption|]); apply frame_refl).
  assert (HO : others np s1 s8) by (repeat (eapply others_trans; [eassumption|]); apply others_refl).
  split; [by eapply used_pid_frame|]. right. exists np. unfold core in Hcore. injection Hcore as E1 E2 E3 E4 E5.
  split; [done|]. split; [done|]. split; [done|]. split; [by eapply others_trans|]. split; [congruence|]. split.
  - rewrite P8, P7. unfold core. cbn [set_state set_parent pe_state pe_chan pe_parent pe_vm]. congruence.
  - destruct HF. congruence.
Qed.

(** ** Loops over the table *)

(** A body that updates its own slot only. *)
Lemma slots_loop (f : Z -> pentry -> pentry) k : forall i s (body : Z -> M sys unit),
  (forall j s, exists s', body j s = Ret tt s' /\ frame s s' /\ others j s s' /\ s_proc s' j = f j (s_proc s j)) ->
  exists s', for_loop k i body s = Ret tt s' /\ frame s s' /\
    forall j, s_proc s' j = if (i <=? j) && (j <? i + Z.of_nat k) then f j (s_proc s j) else s_proc s j.
Proof.
  induction k as [|k IH]; intros i s body Hb; cbn [for_loop].
  - exists s. split; [done|]. split; [apply frame_refl|]. intros j. by bool_to_prop; [lia|..].
  - destruct (Hb i s) as (s1 & H1 & F1 & O1 & P1). rewrite (bind_ret _ _ _ _ _ H1).
    destruct (IH (i + 1) s1 body Hb) as (s2 & -> & F2 & P2). exists s2. split; [done|]. split; [by eapply frame_trans|].
    intros j. rewrite P2. destruct (decide (j = i)) as [->|Hne].
    + rewrite P1. by bool_to_prop; try lia.
    + rewrite O1 by done. bool_to_prop; try lia; done.
Qed.

Definition in_table (i : Z) : bool := (0 <=? i) && (i <? NPROC).

(** The entry that [wakeup] leaves in slot [i]. *)
Definition waken (me : option Z) (ch : channel) (i : Z) (p : pentry) : pentry :=
  if in_table i && negb (bool_decide (me = Some i)) && bool_decide (pe_state p = SLEEPING /\ pe_chan p = Some ch)
  then set_state RUNNABLE p else p.

Lemma wakeup_eq me ch s : exists s', wakeup me ch s = Ret tt s' /\ frame s s' /\ forall j, s_proc s' j = waken me ch j (s_proc s j).
Proof.
  unfold wakeup.
  destruct (slots_loop (fun i p => if negb (bool_decide (me = Some i)) && bool_decide (pe_state p = SLEEPING /\ pe_chan p = Some ch)
    then set_state RUNNABLE p else p) (Z.to_nat NPROC) 0 s (fun i =>
    if bool_decide (me = Some i) then ret tt
    else
      do p <- getp i;
      if bool_decide (pe_state p = SLEEPING /\ pe_chan p = Some ch) then setp i (set_state RUNNABLE) else ret tt)) as (s' & H & F & P).
  - intros j s0. destruct (bool_decide (me = Some j)); cbn [negb andb].
    { exists s0. split; [done|]. split; [apply frame_refl|done]. }
    unfold getp. mstep. destruct (bool_decide _).
    + eexists. split; [done|]. apply (setp_ret j _ s0 tt). done.
    + exists s0. split; [done|]. split; [apply frame_refl|done].
  - exists s'. split; [done|]. split; [done|]. intros j. rewrite P. unfold waken, in_table.
    replace (0 + Z.of_nat (Z.to_nat NPROC)) with NPROC by done. by destruct ((0 <=? j) && (j <? NPROC)).
Qed.

Lemma waken_parent me ch i p : pe_parent (waken me ch i p) = pe_parent p.
Proof. unfold waken. by destruct (_ && _). Qed.

Lemma waken_set_parent me ch i v p : waken me ch i (set_parent v p) = set_parent v (waken me ch i p).
Proof. unfold waken. cbn [set_parent pe_state pe_chan]. by destruct (_ && _). Qed.

Lemma waken_idem me ch i p : waken me ch i (waken me ch i p) = waken me ch i p.
Proof.
  unfold waken at 2 3. destruct (in_table i && negb (bool_decide (me = Some i)) && bool_decide (pe_state p = SLEEPING /\ pe_chan p = Some ch)) eqn:Hp.
  - unfold waken. cbn [set_state pe_state]. by rewrite (bool_decide_eq_false_2 (RUNNABLE = SLEEPING /\ _)), andb_false_r by by intros [? _].
  - unfold waken. by rewrite Hp.
Qed.

(** The entry that [reparent] leaves in slot [i] of the slots in [dom]; [had]
    says that one of them was a child. *)
Definition adopted (me init : Z) (dom had : bool) (i : Z) (p : pentry) : pentry :=
  let p := if dom && bool_decide (pe_parent p = Some me) then set_parent (Some init) p else p in
  if had then waken (Some me) (ChProc init) i p else p.

Lemma reparent_slot_eq me i s : exists s', reparent_slot me i s = Ret tt s' /\ frame s s' /\ forall j,
  s_proc s' j = if bool_decide (pe_parent (s_proc s i) = Some me) then
                  waken (Some me) (ChProc (s_initproc s)) j (if j =? i then set_parent (Some (s_initproc s)) (s_proc s i) else s_proc s j)
                else s_proc s j.
Proof.
  unfold reparent_slot, getp. mstep. destruct (bool_decide _).
  - unfold setp. mstep. set (s1 := put_proc _ s). destruct (wakeup_eq (Some me) (ChProc (s_initproc s)) s1) as (s2 & H2 & F2 & P2).
    exists s2. split; [exact H2|]. split; [eapply (frame_trans s s1); [by constructor|done]|exact P2].
  - exists s. split; [done|]. split; [apply frame_refl|done].
Qed.

Lemma reparent_loop me init k : forall i s, s_initproc s = init ->
  exists s' had, for_loop k i (reparent_slot me) s = Ret tt s' /\ frame s s' /\
  (forall j, i <= j < i + Z.of_nat k -> pe_parent (s_proc s j) = Some me -> had = true) /\
  forall j, s_proc s' j = adopted me init ((i <=? j) && (j <? i + Z.of_nat k)) had j (s_proc s j).
Proof.
  induction k as [|k IH]; intros i s Hi; cbn [for_loop].
  { exists s, false. split; [done|]. split; [apply frame_refl|]. split; [lia|]. intros j. unfold adopted. by bool_to_prop; [lia|..]. }
  destruct (reparent_slot_eq me i s) as (s2 & H2 & F2 & P2). rewrite (bind_ret _ _ _ _ _ H2). rewrite Hi in P2.
  destruct (IH (i + 1) s2) as (s3 & had & H3 & F3 & Hh & P3); [by rewrite (fr_init _ _ F2)|].
  assert (Hdom : forall j, j <> i -> ((i <=? j) && (j <? i + Z.of_nat (S k))) = ((i + 1 <=? j) && (j <? i + 1 + Z.of_nat k))).
  { intros j Hj. bool_to_prop; try lia; done. }
  destruct (bool_decide (pe_parent (s_proc s i) = Some me)) eqn:Hc.
  - exists s3, true. split; [done|].
    split; [by eapply frame_trans|]. split; [done|]. intros j. rewrite P3, P2. unfold adopted. rewrite waken_parent.
    destruct (Z.eqb_spec j i) as [->|Hne].
    + rewrite Hc. replace ((i + 1 <=? i) && (i <? i + 1 + Z.of_nat k)) with false by lia.
      destruct (Z.leb_spec i i); [|lia]. destruct (Z.ltb_spec i (i + Z.of_nat (S k))); [|lia]. cbn [andb].
      destruct had; [apply waken_idem|done].
    + rewrite Hdom by done.
      destruct (_ && bool_decide _); destruct had; rewrite <- ?waken_set_parent, ?waken_idem; done.
  - exists s3, had. split; [done|]. split; [by eapply frame_trans|]. split.
    + intros j Hj Hp. destruct (decide (j = i)) as [->|]; [|apply (Hh j); [lia|by rewrite P2]]. by apply bool_decide_eq_false in Hc.
    + intros j. rewrite P3, P2. unfold adopted. destruct (decide (j = i)) as [->|Hne].
      * rewrite Hc. by rewrite !andb_false_r.
      * by rewrite Hdom.
Qed.

Lemma reparent_eq me s : exists s' had, reparent me s = Ret tt s' /\ frame s s' /\
  (forall j, 0 <= j < NPROC -> pe_parent (s_proc s j) = Some me -> had = true) /\
  forall j, s_proc s' j = adopted me (s_initproc s) (in_table j) had j (s_proc s j).
Proof. exact (reparent_loop me (s_initproc s) (Z.to_nat NPROC) 0 s eq_refl). Qed.

Lemma exit_files_quiet me : quiet me (exit_files me).
Proof. unfold exit_files. quiet. Qed.

(** [kexit] on a process other than init: it is a zombie, its children belong
    to init, and init (when there were any) and the parent are awake. *)
Lemma kexit_ret c me status s a s' : kexit c me status s = Ret a s' ->
  me <> s_initproc s /\ s_nextpid s' = s_nextpid s /\ s_initproc s' = s_initproc s /\ s_scan s' = s_scan s /\
  s_cpu s' = upd (s_cpu s) c None /\
  exists had par,
    (forall j, 0 <= j < NPROC -> j <> me -> pe_parent (s_proc s j) = Some me -> had = true) /\
    par = (if in_table me && bool_decide (pe_parent (s_proc s me) = Some me) then Some (s_initproc s) else pe_parent (s_proc s me)) /\
    (forall j, j <> me -> s_proc s' j =
       waken (Some me) (match par with Some i => ChProc i | None => ChAddr 0 end) j (adopted me (s_initproc s) (in_table j) had j (s_proc s j))) /\
    core (s_proc s' me) = mk_core ZOMBIE (pe_chan (s_proc s me)) par (p_pid (pe_vm (s_proc s me))) (p_killed (pe_vm (s_proc s me))) /\
    pe_xstate (s_proc s' me) = status.
Proof.
  unfold kexit. intros H. apply bind_inv in H as (s0 & s1 & [= <- <-] & H).
  destruct (Z.eqb_spec me (s_initproc s)) as [|Hni]; [done|].
  apply bind_inv in H as ([] & s2 & H2 & H). apply exit_files_quiet in H2 as (F2 & O2 & C2).
  destruct (reparent_eq me s2) as (s3 & had & H3 & F3 & Hh & P3). rewrite (bind_ret _ _ _ _ _ H3) in H.
  apply bind_inv in H as (p & s4 & [= <- <-] & H).
  destruct (wakeup_eq (Some me) (match pe_parent (s_proc s3 me) with Some i => ChProc i | None => ChAddr 0 end) s3) as (s5 & H5 & F5 & P5).
  rewrite (bind_ret _ _ _ _ _ H5) in H. apply bind_inv in H as ([] & s6 & H6 & H). apply setp_ret in H6 as (F6 & O6 & P6).
  unfold sched in H. apply bind_inv in H as (q & s7 & [= <- <-] & H). destruct (bool_decide _); [done|]. injection H as <- <-.
  assert (HF : frame s s6) by (repeat (eapply frame_trans; [eassumption|]); apply frame_refl).
  rewrite (fr_init _ _ F2) in P3.
  assert (Hself : forall had, adopted me (s_initproc s) (in_table me) had me (s_proc s2 me) =
    (if in_table me && bool_decide (pe_parent (s_proc s2 me) = Some me) then set_parent (Some (s_initproc s)) (s_proc s2 me) else s_proc s2 me)).
  { intros h. unfold adopted. destruct h; [|done]. unfold waken. by rewrite bool_decide_eq_true_2, andb_false_r by done. }
  unfold core in C2. injection C2 as E1 E2 E3 E4 E5.
  assert (Hpar : pe_parent (s_proc s3 me) = (if in_table me && bool_decide (pe_parent (s_proc s me) = Some me) then Some (s_initproc s) else pe_parent (s_proc s me))).
  { rewrite P3, Hself, E3. destruct (in_table me && bool_decide (pe_parent (s_proc s me) = Some me)); [done|exact E3]. }
  assert (Hs3 : pe_chan (s_proc s3 me) = pe_chan (s_proc s me) /\ p_pid (pe_vm (s_proc s3 me)) = p_pid (pe_vm (s_proc s me)) /\
    p_killed (pe_vm (s_proc s3 me)) = p_killed (pe_vm (s_proc s me))).
  { rewrite P3, Hself. destruct (in_table me && bool_decide (pe_parent (s_proc s2 me) = Some me)); exact (conj E2 (conj E4 E5)). }
  split; [done|]. destruct HF as [G1 G2 G3 G4]. split; [done|]. split; [done|]. split; [done|]. split; [cbn; by rewrite G3|].
  exists had, (pe_parent (s_proc s3 me)). split.
  { intros j Hj Hne Hp. apply (Hh j Hj). by rewrite O2. }
  split; [done|]. cbn [put_cpu s_proc]. split; [intros j Hj; by rewrite O6, P5, (P3 j), (O2 j Hj)|].
  rewrite P6, P5. unfold core. cbn [set_state set_xstate pe_state pe_chan pe_parent pe_vm pe_xstate]. split; [|done].
  rewrite waken_parent. unfold waken. rewrite bool_decide_eq_true_2, andb_false_r by done. cbn [andb].
  destruct Hs3 as (-> & -> & ->). done.
Qed.
End Proc.
