(* ===== verification/ProcClaims.v ===== *)
(** The process table as a state machine: the steps that running processes,
    schedulers and interrupts take, the invariant of the table, and what it
    gives: every zombie is waited for, no wakeup of a waiting parent is lost,
    and a runnable process is run. *)
From S2P Require Import Prelude Riscv Kalloc Vm Uvm FileLayer Paging Proc.
Open Scope kern_scope.

Section ProcClaims.
Context {LAY : Layout} {FL : FileLayer} {FR : FileRefs}.

(** * Steps *)

(** Process [me] is running on CPU [c]. *)
Definition on_cpu (s : sys) (c me : Z) : Prop := 0 <= c < NCPU /\ s_cpu s c = Some me.

(** One step.  Code between acquiring and releasing [wait_lock], or the lock of
    one process, is one step; a call of [kwait] that sleeps is resumed by a
    later step that scans the table again.  [own] stands for every other system
    call of a process: it may change memory, files and what is private to the
    process. *)
Inductive step : sys -> sys -> Prop :=
| step_sched s s' c : 0 <= c < NCPU -> s_cpu s c = None -> scheduler_step c s = Ret tt s' -> step s s'
| step_yield s s' c me : on_cpu s c me -> yield c me s = Ret tt s' -> step s s'
| step_sleep s s' c me a : on_cpu s c me -> sleep c me (ChAddr a) s = Ret tt s' -> step s s'
| step_wakeup s s' me a : wakeup me (ChAddr a) s = Ret tt s' -> step s s'
| step_fork s s' c me r : on_cpu s c me -> s_nextpid s < 2 ^ 31 - 1 -> kfork me s = Ret r s' -> step s s'
| step_exit s s' c me st : on_cpu s c me -> kexit c me st s = Ret tt s' -> step s s'
| step_wait s s' c me addr r : on_cpu s c me -> kwait c me addr s = Ret r s' -> step s s'
| step_kill s s' c me pid r : on_cpu s c me -> kkill pid s = Ret r s' -> step s s'
| step_own s s' c me f k fl lg fr : on_cpu s c me -> (forall p, core (f p) = core p) ->
    s' = mk_sys (upd (s_proc s) me (f (s_proc s me))) (s_nextpid s) (s_initproc s) k fl lg fr (s_cpu s) (s_scan s) -> step s s'.

(** * The invariant *)

Definition inr (i : Z) : Prop := 0 <= i < NPROC.
(** Not free and not finished. *)
Definition live (st : procstate) : Prop := st = SLEEPING \/ st = RUNNABLE \/ st = RUNNING.

(** Of the table's cores [t], with init's slot, [nextpid] and the CPUs. *)
Record proc_inv (t : Z -> pcore) (init nextpid : Z) (cpu : Z -> option Z) : Prop := {
  pi_init : inr init /\ live (c_state (t init));
  pi_states : forall i, inr i -> c_state (t i) <> USED;
  pi_unused : forall i, inr i -> c_state (t i) = UNUSED -> c_pid (t i) = 0 /\ c_parent (t i) = None /\ c_chan (t i) = None;
  pi_nextpid : 0 < nextpid;
  pi_pid : forall i, inr i -> c_state (t i) <> UNUSED -> 0 < c_pid (t i) < nextpid;
  pi_inj : forall i j, inr i -> inr j -> c_state (t i) <> UNUSED -> c_pid (t i) = c_pid (t j) -> i = j;
  pi_parent : forall i, inr i -> c_state (t i) <> UNUSED -> i <> init ->
    exists j, c_parent (t i) = Some j /\ inr j /\ live (c_state (t j));
  pi_chan : forall i, inr i -> c_state (t i) = SLEEPING -> c_chan (t i) <> None;
  pi_chproc : forall i j, inr i -> c_chan (t i) = Some (ChProc j) -> j = i;
  pi_running : forall i, inr i -> c_state (t i) = RUNNING -> c_chan (t i) = None;
  (** A parent that sleeps in [kwait] has a child, and none that is a zombie. *)
  pi_wait : forall i, inr i -> c_state (t i) = SLEEPING -> c_chan (t i) = Some (ChProc i) ->
    (exists k, inr k /\ c_parent (t k) = Some i) /\ forall k, inr k -> c_parent (t k) = Some i -> c_state (t k) <> ZOMBIE;
  pi_run : forall i, inr i -> c_state (t i) = RUNNING <-> exists c, 0 <= c < NCPU /\ cpu c = Some i;
  pi_cpu : forall c i, 0 <= c < NCPU -> cpu c = Some i -> inr i;
  pi_cpu_inj : forall c d i, 0 <= c < NCPU -> 0 <= d < NCPU -> cpu c = Some i -> cpu d = Some i -> c = d
}.

Definition view (s : sys) : Z -> pcore := fun i => core (s_proc s i).
Definition sys_inv (s : sys) : Prop := proc_inv (view s) (s_initproc s) (s_nextpid s) (s_cpu s).

(** ** Processes that are woken, or marked as killed *)

(** A sleeping process becomes runnable, a flag changes. *)
Definition eased (p p' : pcore) : Prop :=
  c_chan p' = c_chan p /\ c_parent p' = c_parent p /\ c_pid p' = c_pid p /\
  (c_state p' = c_state p \/ (c_state p = SLEEPING /\ c_state p' = RUNNABLE)).

Lemma eased_refl p : eased p p.
Proof. unfold eased. auto. Qed.

Lemma eased_live p p' : eased p p' -> live (c_state p) -> live (c_state p').
Proof. intros (_ & _ & _ & [->|[_ ->]]) ?; [done|]. right. by left. Qed.

Lemma eased_unused p p' : eased p p' -> c_state p' = UNUSED <-> c_state p = UNUSED.
Proof. intros (_ & _ & _ & [->|[-> ->]]); done. Qed.

Lemma inv_eased t t' init n cpu : proc_inv t init n cpu -> (forall i, inr i -> eased (t i) (t' i)) -> proc_inv t' init n cpu.
Proof.
  intros [] He. split; try done.
  - destruct pi_init0 as [? ?]. split; [done|]. by eapply eased_live; [apply He|].
  - intros i Hi. destruct (He i Hi) as (_ & _ & _ & [->|[_ ->]]); [by apply pi_states0|done].
  - intros i Hi Hs. rewrite (eased_unused _ _ (He i Hi)) in Hs. destruct (He i Hi) as (-> & -> & -> & _). by apply pi_unused0.
  - intros i Hi Hs. rewrite (eased_unused _ _ (He i Hi)) in Hs. destruct (He i Hi) as (_ & _ & -> & _). by apply pi_pid0.
  - intros i j Hi Hj Hs. rewrite (eased_unused _ _ (He i Hi)) in Hs. destruct (He i Hi) as (_ & _ & -> & _), (He j Hj) as (_ & _ & -> & _). by apply pi_inj0.
  - intros i Hi Hs Hn. rewrite (eased_unused _ _ (He i Hi)) in Hs. destruct (He i Hi) as (_ & -> & _).
    destruct (pi_parent0 i Hi Hs Hn) as (j & Hj & Hr & Hl). exists j. split; [done|]. split; [done|]. by eapply eased_live; [apply He|].
  - intros i Hi Hs. destruct (He i Hi) as (-> & _ & _ & [Hs'|[_ Hs']]); [|congruence]. apply pi_chan0; congruence.
  - intros i j Hi. destruct (He i Hi) as (-> & _). by apply pi_chproc0.
  - intros i Hi Hs. destruct (He i Hi) as (-> & _ & _ & [Hs'|[_ Hs']]); [|congruence]. apply pi_running0; congruence.
  - intros i Hi Hs. destruct (He i Hi) as (-> & _ & _ & [Hs'|[_ Hs']]); [|congruence]. intros Hc. destruct (pi_wait0 i) as [(k & Hk & Hp) Hz]; [congruence..|].
    split; [exists k; split; [done|]; by destruct (He k Hk) as (_ & -> & _)|]. intros j Hj. destruct (He j Hj) as (_ & -> & _ & [->|[_ ->]]); [by apply Hz|done].
  - intros i Hi. rewrite <- pi_run0 by done. destruct (He i Hi) as (_ & _ & _ & [->|[-> ->]]); done.
Qed.

Lemma core_waken me ch i p : eased (core p) (core (waken me ch i p)).
Proof.
  unfold waken. destruct (_ && bool_decide _) eqn:Hw; [|apply eased_refl]. apply andb_true_iff in Hw as [_ Hw].
  apply bool_decide_eq_true in Hw as [Hs Hc]. unfold eased. cbn. split_and!; auto.
Qed.

Lemma wakeup_inv me ch s a s' : wakeup me ch s = Ret a s' -> sys_inv s -> sys_inv s'.
Proof.
  intros H Hi. destruct (wakeup_eq me ch s) as (s1 & H1 & F & P). rewrite H in H1. injection H1 as _ ->.
  unfold sys_inv in *. rewrite (fr_nextpid _ _ F), (fr_init _ _ F), (fr_cpu _ _ F). eapply inv_eased; [done|].
  intros i _. unfold view. rewrite P. apply core_waken.
Qed.

Lemma kkill_ret pid s r s' : kkill pid s = Ret r s' -> frame s s' /\ (forall i, eased (view s i) (view s' i)) /\
  ((r = -1 /\ s' = s /\ forall i, inr i -> c_pid (view s i) <> pid) \/
   (r = 0 /\ exists i, inr i /\ c_pid (view s i) = pid /\ c_killed (view s' i) = 1 /\ c_state (view s' i) <> SLEEPING /\ others i s s' /\
     forall j, 0 <= j < i -> c_pid (view s j) <> pid)).
Proof.
  unfold kkill. intros H. apply bind_inv in H as (s0 & s1 & [= <- <-] & H).
  pose proof (scan_from_spec (fun i => p_pid (pe_vm (s_proc s i)) =? pid) (Z.to_nat NPROC) 0) as Hsc. unfold scan in H.
  destruct (scan_from _ _ _) as [i|].
  2: { injection H as <- <-. split; [apply frame_refl|]. split; [intros; apply eased_refl|]. left. split; [done|]. split; [done|].
       intros i Hi. specialize (Hsc i). apply Z.eqb_neq, Hsc. unfold inr in Hi. change NPROC with 64 in *. lia. }
  destruct Hsc as (Hi & Hp & Hlow). apply Z.eqb_eq in Hp.
  apply bind_inv in H as (u1 & s1 & H1 & H). apply setp_ret in H1 as (F1 & O1 & P1).
  apply bind_inv in H as (p & s2 & [= <- <-] & H). apply bind_inv in H as (u2 & s3 & H3 & H). injection H as <- <-.
  assert (Hs1 : pe_state (s_proc s1 i) = pe_state (s_proc s i) /\ c_chan (view s1 i) = c_chan (view s i) /\ c_parent (view s1 i) = c_parent (view s i) /\
    c_pid (view s1 i) = c_pid (view s i) /\ c_killed (view s1 i) = 1).
  { unfold view. rewrite P1. destruct (s_proc s i) as [? ? ? ? ? ? ? ? []]. done. }
  destruct Hs1 as (Hst & Hc1 & Hc2 & Hc3 & Hk).
  assert (H13 : frame s1 s3 /\ others i s1 s3 /\ c_chan (view s3 i) = c_chan (view s1 i) /\ c_parent (view s3 i) = c_parent (view s1 i) /\
    c_pid (view s3 i) = c_pid (view s1 i) /\ c_killed (view s3 i) = c_killed (view s1 i) /\
    c_state (view s3 i) = if decide (pe_state (s_proc s1 i) = SLEEPING) then RUNNABLE else pe_state (s_proc s1 i)).
  { destruct (bool_decide _) eqn:Hb.
    - apply bool_decide_eq_true in Hb. apply setp_ret in H3 as (F3 & O3 & P3). rewrite decide_True by done. split; [done|]. split; [done|]. unfold view. rewrite P3. done.
    - apply bool_decide_eq_false in Hb. injection H3 as _ <-. rewrite decide_False by done. split; [apply frame_refl|done]. }
  destruct H13 as (F3 & O3 & D1 & D2 & D3 & D4 & D5). split; [by eapply frame_trans|]. split.
  - intros j. destruct (decide (j = i)) as [->|Hne].
    + unfold eased. split_and!; [congruence..|]. rewrite Hst in D5.
      destruct (decide (pe_state (s_proc s i) = SLEEPING)) as [Hsl|Hsl]; [right; exact (conj Hsl D5)|left; exact D5].
    + unfold view. rewrite O3, O1 by done. apply eased_refl.
  - right. split; [done|]. exists i. split; [unfold inr; change NPROC with 64 in *; lia|]. split; [done|]. split; [congruence|].
    split; [rewrite D5; by destruct (decide _)|]. split; [by eapply others_trans|]. intros j Hj. apply Z.eqb_neq. apply Hlow. lia.
Qed.

Lemma kkill_inv pid s r s' : kkill pid s = Ret r s' -> sys_inv s -> sys_inv s'.
Proof.
  intros (F & He & _)%kkill_ret Hi. unfold sys_inv in *. rewrite (fr_nextpid _ _ F), (fr_init _ _ F), (fr_cpu _ _ F).
  eapply inv_eased; [done|]. auto.
Qed.

(** ** A slot taken or given back *)

Lemma unused_not_parent t init n cpu i : proc_inv t init n cpu -> inr i -> ~ live (c_state (t i)) ->
  forall j, inr j -> c_state (t j) <> UNUSED -> j <> init -> c_parent (t j) <> Some i.
Proof. intros [] Hi Hl j Hj Hs Hn Hp. destruct (pi_parent0 j Hj Hs Hn) as (k & Hk & _ & Hlk). by simplify_eq. Qed.

(** Freeing a slot that is unused or a zombie. *)
Lemma inv_free t t' init n n' cpu i : proc_inv t init n cpu -> inr i -> (c_state (t i) = UNUSED \/ c_state (t i) = ZOMBIE) -> n <= n' ->
  (forall k, inr k -> c_state (t k) = SLEEPING -> c_chan (t k) = Some (ChProc k) -> c_parent (t i) <> Some k) ->
  (forall j, j <> i -> t' j = t j) -> c_state (t' i) = UNUSED -> c_pid (t' i) = 0 -> c_parent (t' i) = None -> c_chan (t' i) = None ->
  proc_inv t' init n' cpu.
Proof.
  intros Hinv Hi Hst Hn Hw Ho S1 S2 S3 S4. pose proof (unused_not_parent _ _ _ _ i Hinv Hi ltac:(unfold live; destruct Hst; intuition congruence)) as Hnp.
  destruct Hinv. assert (Hii : i <> init) by (intros ->; unfold live in *; destruct Hst; intuition congruence).
  assert (Hd : forall j, {j = i /\ c_state (t' j) = UNUSED} + {j <> i /\ t' j = t j}) by (intros j; destruct (decide (j = i)) as [->|]; auto).
  split; try done.
  - split; [apply pi_init0|]. rewrite Ho by done. apply pi_init0.
  - intros j Hj. destruct (Hd j) as [[_ ->]|[_ ->]]; [done|auto].
  - intros j Hj. destruct (Hd j) as [[-> _]|[_ ->]]; [done|auto].
  - lia.
  - intros j Hj Hs. destruct (Hd j) as [[_ ?]|[_ He]]; [done|]. rewrite He in *. specialize (pi_pid0 j Hj Hs). lia.
  - intros j k Hj Hk Hs Hp. destruct (Hd j) as [[_ ?]|[Hne He]]; [done|]. rewrite He in Hs, Hp. destruct (Hd k) as [[-> _]|[_ He2]].
    + rewrite S2 in Hp. specialize (pi_pid0 j Hj Hs). lia.
    + rewrite He2 in Hp. by apply pi_inj0.
  - intros j Hj Hs Hne. destruct (Hd j) as [[_ ?]|[Hji He]]; [done|]. rewrite He in *. destruct (pi_parent0 j Hj Hs Hne) as (k & Hk & Hr & Hl).
    exists k. split; [done|]. split; [done|]. destruct (Hd k) as [[-> _]|[_ ->]]; [|done]. by apply Hnp in Hk.
  - intros j Hj Hs. destruct (Hd j) as [[_ ?]|[_ He]]; [congruence|]. rewrite He in *. auto.
  - intros j k Hj Hc. destruct (Hd j) as [[-> _]|[_ He]]; [congruence|]. rewrite He in *. auto.
  - intros j Hj Hs. destruct (Hd j) as [[_ ?]|[_ He]]; [congruence|]. rewrite He in *. auto.
  - intros j Hj Hs Hc. destruct (Hd j) as [[_ ?]|[_ He]]; [congruence|]. rewrite He in *. destruct (pi_wait0 j Hj Hs Hc) as [(k & Hk & Hp) Hz]. split.
    + exists k. split; [done|]. destruct (Hd k) as [[-> _]|[_ ->]]; [|done]. by apply Hw in Hp.
    + intros m Hm. destruct (Hd m) as [[_ ->]|[_ ->]]; [done|auto].
  - intros j Hj. rewrite <- pi_run0 by done. destruct (Hd j) as [[-> Hs]|[_ ->]]; [|done]. rewrite Hs. destruct Hst as [Hst|Hst]; rewrite Hst; done.
Qed.

Lemma not_allocated_inv s s' : not_allocated s s' -> used_pid s s' -> s_nextpid s < 2 ^ 31 - 1 -> sys_inv s -> sys_inv s'.
Proof.
  intros Hna (U1 & U2 & U3 & U4) Hn Hi. unfold sys_inv in *. rewrite U1, U2.
  assert (Hle : s_nextpid s <= s_nextpid s').
  { pose proof (pi_nextpid _ _ _ _ Hi). destruct U4 as [->| ->]; [rewrite i32_small; lia|lia]. }
  destruct Hna as [He|(i & Hr & Hs & Ho & [])].
  - unfold view. rewrite He. destruct Hi. split; try done; [lia|]. intros i Hr Hs. specialize (pi_pid0 i Hr Hs). unfold view in pi_pid0. lia.
  - eapply (inv_free (view s) (view s') _ (s_nextpid s) _ _ i); try done; [by left| |].
    + intros k _ _ _ Hp. destruct (pi_unused _ _ _ _ Hi i Hr Hs) as (_ & Hp' & _). congruence.
    + intros j Hj. unfold view. by rewrite Ho.
Qed.

(** A new child of the running process [me]. *)
Lemma inv_fork t t' init n cpu i me k : proc_inv t init n cpu -> inr i -> c_state (t i) = UNUSED -> inr me -> live (c_state (t me)) ->
  (forall j, j <> i -> t' j = t j) -> t' i = mk_core RUNNABLE None (Some me) n k -> proc_inv t' init (n + 1) cpu.
Proof.
  intros Hinv Hi Hst Hme Hlme Ho Hti. destruct Hinv.
  assert (Hii : i <> init) by (intros ->; unfold live in *; intuition congruence).
  assert (Him : i <> me) by (intros ->; unfold live in *; intuition congruence).
  assert (Hd : forall j, {j = i /\ t' j = mk_core RUNNABLE None (Some me) n k} + {j <> i /\ t' j = t j}) by (intros j; destruct (decide (j = i)) as [->|]; auto).
  split; try done.
  - split; [apply pi_init0|]. rewrite Ho by done. apply pi_init0.
  - intros j Hj. destruct (Hd j) as [[_ ->]|[_ ->]]; [done|auto].
  - intros j Hj. destruct (Hd j) as [[_ ->]|[_ ->]]; [done|auto].
  - lia.
  - intros j Hj Hs. destruct (Hd j) as [[_ ->]|[_ He]]; [cbn; lia|]. rewrite He in *. specialize (pi_pid0 j Hj Hs). lia.
  - intros j l Hj Hl Hs Hp. destruct (Hd j) as [[-> He]|[Hne He]], (Hd l) as [[-> He2]|[_ He2]]; rewrite ?He, ?He2 in *; try done.
    + cbn in Hp. destruct (decide (c_state (t l) = UNUSED)) as [Hu|Hu].
      * destruct (pi_unused0 l Hl Hu) as (H0 & _). lia.
      * specialize (pi_pid0 l Hl Hu). lia.
    + cbn in Hp. specialize (pi_pid0 j Hj Hs). lia.
    + by apply pi_inj0.
  - intros j Hj Hs Hne. destruct (Hd j) as [[_ ->]|[Hji He]].
    + exists me. split; [done|]. split; [done|]. by rewrite Ho.
    + rewrite He in *. destruct (pi_parent0 j Hj Hs Hne) as (l & Hl & Hr & Hlv). exists l. split; [done|]. split; [done|].
      destruct (Hd l) as [[-> ->]|[_ ->]]; [right; by left|done].
  - intros j Hj Hs. destruct (Hd j) as [[_ He]|[_ He]]; rewrite He in *; [done|auto].
  - intros j l Hj Hc. destruct (Hd j) as [[_ He]|[_ He]]; rewrite He in *; [done|auto].
  - intros j Hj Hs. destruct (Hd j) as [[_ He]|[_ He]]; rewrite He in *; [done|auto].
  - intros j Hj Hs Hc. destruct (Hd j) as [[_ He]|[_ He]]; rewrite He in *; [done|]. destruct (pi_wait0 j Hj Hs Hc) as [(l & Hl & Hp) Hz]. split.
    + exists l. split; [done|]. destruct (Hd l) as [[-> _]|[_ ->]]; [|done]. destruct (pi_unused0 i Hi Hst) as (_ & Hnp & _). congruence.
    + intros m Hm. destruct (Hd m) as [[_ ->]|[_ ->]]; [done|auto].
  - intros j Hj. rewrite <- pi_run0 by done. destruct (Hd j) as [[-> ->]|[_ ->]]; [|done]. rewrite Hst. done.
Qed.

(** The process that runs on CPU [c] gives it up. *)
Lemma inv_leave t t' init n cpu c me : proc_inv t init n cpu -> 0 <= c < NCPU -> cpu c = Some me ->
  (forall j, j <> me -> t' j = t j) -> c_parent (t' me) = c_parent (t me) -> c_pid (t' me) = c_pid (t me) ->
  (c_state (t' me) = RUNNABLE \/ c_state (t' me) = SLEEPING \/
   (c_state (t' me) = ZOMBIE /\ me <> init /\ (forall j, inr j -> c_parent (t j) <> Some me) /\
    forall k, c_parent (t me) = Some k -> ~ (c_state (t k) = SLEEPING /\ c_chan (t k) = Some (ChProc k)))) ->
  (c_state (t' me) = SLEEPING -> c_chan (t' me) <> None) -> (forall j, c_chan (t' me) = Some (ChProc j) -> j = me) ->
  (c_state (t' me) = SLEEPING -> c_chan (t' me) = Some (ChProc me) ->
    (exists k, inr k /\ c_parent (t k) = Some me) /\ forall k, inr k -> c_parent (t k) = Some me -> c_state (t k) <> ZOMBIE) ->
  proc_inv t' init n (upd cpu c None).
Proof.
  intros Hinv Hc Hcpu Ho Hpar Hpid Hst Hch Hchp Hwait. destruct Hinv.
  pose proof (pi_cpu0 c me Hc Hcpu) as Hme. pose proof (proj2 (pi_run0 me Hme) (ex_intro _ c (conj Hc Hcpu))) as Hrun.
  assert (Hp : forall j, c_parent (t' j) = c_parent (t j)) by (intros j; destruct (decide (j = me)) as [->|]; [done|by rewrite Ho]).
  assert (Hq : forall j, c_pid (t' j) = c_pid (t j)) by (intros j; destruct (decide (j = me)) as [->|]; [done|by rewrite Ho]).
  assert (Hu : forall j, c_state (t' j) = UNUSED <-> c_state (t j) = UNUSED).
  { intros j. destruct (decide (j = me)) as [->|]; [|by rewrite Ho]. split; intros Hx; [|congruence]. destruct Hst as [?|[?|[? _]]]; congruence. }
  assert (Hl : forall j k, inr k -> c_parent (t k) = Some j -> live (c_state (t j)) -> live (c_state (t' j))).
  { intros j k Hk Hjk Hlj. destruct (decide (j = me)) as [->|]; [|by rewrite Ho]. unfold live. destruct Hst as [?|[?|(_ & _ & Hno & _)]]; [auto..|].
    by apply Hno in Hjk. }
  split; try done.
  - split; [apply pi_init0|]. destruct (decide (init = me)) as [->|]; [|rewrite Ho by done; apply pi_init0].
    unfold live. destruct Hst as [?|[?|(_ & ? & _)]]; [auto..|done].
  - intros j Hj. destruct (decide (j = me)) as [->|]; [|rewrite Ho by done; auto]. destruct Hst as [?|[?|[? _]]]; congruence.
  - intros j Hj Hs. rewrite Hp, Hq. apply Hu in Hs. destruct (decide (j = me)) as [->|]; [congruence|]. rewrite Ho by done. auto.
  - intros j Hj Hs. rewrite Hq. rewrite Hu in Hs. auto.
  - intros j k Hj Hk Hs. rewrite !Hq. rewrite Hu in Hs. auto.
  - intros j Hj Hs Hne. rewrite Hu in Hs. rewrite Hp. destruct (pi_parent0 j Hj Hs Hne) as (k & Hk & Hr & Hlk). exists k. eauto.
  - intros j Hj. destruct (decide (j = me)) as [->|]; [done|]. rewrite Ho by done. auto.
  - intros j k Hj. destruct (decide (j = me)) as [->|]; [auto|]. rewrite Ho by done. auto.
  - intros j Hj Hs. destruct (decide (j = me)) as [->|]; [destruct Hst as [?|[?|[? _]]]; congruence|]. rewrite Ho in * by done. auto.
  - intros j Hj Hs Hcj. assert (Hold : (exists k, inr k /\ c_parent (t k) = Some j) /\ forall k, inr k -> c_parent (t k) = Some j -> c_state (t k) <> ZOMBIE).
    { destruct (decide (j = me)) as [->|]; [auto|]. rewrite Ho in * by done. auto. }
    destruct Hold as [(k & Hk & Hkp) Hz]. split; [exists k; by rewrite Hp|]. intros m Hm. rewrite Hp. intros Hmp.
    destruct (decide (m = me)) as [->|]; [|rewrite Ho by done; auto]. intros Hzz. destruct Hst as [?|[?|(_ & _ & _ & Hnw)]]; [congruence..|].
    destruct (decide (j = me)) as [->|]; [congruence|]. rewrite Ho in * by done. by apply (Hnw j).
  - intros j Hj. destruct (decide (j = me)) as [->|Hne].
    + split; [intros Hx; destruct Hst as [?|[?|[? _]]]; congruence|]. intros (d & Hd & Hx). unfold upd in Hx. destruct (Z.eqb_spec d c); [done|].
      by rewrite (pi_cpu_inj0 d c me) in *.
    + rewrite Ho, pi_run0 by done. split; intros (d & Hd & Hx); exists d; (split; [done|]); unfold upd in *; destruct (Z.eqb_spec d c); congruence.
  - intros d j Hd Hx. unfold upd in Hx. destruct (Z.eqb_spec d c); [done|]. eauto.
  - intros d e j Hd He Hx Hy. unfold upd in *. destruct (Z.eqb_spec d c), (Z.eqb_spec e c); try done. eauto.
Qed.

(** ** Paging keeps the process id *)

Definition keeps_pid {A} (m : M pstate A) : Prop := forall s a s', m s = Ret a s' -> p_pid (ps_p s') = p_pid (ps_p s).

Lemma keeps_bind {A B} (m : M pstate A) (k : A -> M pstate B) : keeps_pid m -> (forall a, keeps_pid (k a)) -> keeps_pid (bind m k).
Proof. intros Hm Hk s b s' H. apply bind_inv in H as (a & s1 & H1 & H2). apply Hm in H1. apply Hk in H2. congruence. Qed.
Lemma keeps_ret {A} (a : A) : keeps_pid (ret a).
Proof. by intros s b s' [= _ <-]. Qed.
Lemma keeps_get : keeps_pid get.
Proof. by intros s b s' [= _ <-]. Qed.
Lemma keeps_myproc : keeps_pid myproc.
Proof. by intros s b s' [= _ <-]. Qed.
Lemma keeps_printf e : keeps_pid (printf e).
Proof. by intros s b s' [= _ <-]. Qed.
Lemma keeps_vm {A} (m : M kmem A) : keeps_pid (vm m).
Proof. intros s b s' H. unfold vm, zoom in H. destruct (m (ps_k s)); by simplify_eq. Qed.
Lemma keeps_file {A} (m : M fs A) : keeps_pid (file m).
Proof. intros s b s' H. unfold file, zoom in H. destruct (m (ps_fs s)); by simplify_eq. Qed.
Lemma keeps_setp f : (forall p, p_pid (f p) = p_pid p) -> keeps_pid (Paging.setp f).
Proof. intros Hf s b s' [= _ <-]. apply Hf. Qed.

Ltac keeps :=
  repeat first
    [ apply keeps_ret | apply keeps_get | apply keeps_myproc | apply keeps_printf | apply keeps_vm | apply keeps_file | done
    | apply keeps_setp; let p := fresh in intros p; destruct p; reflexivity
    | apply keeps_bind; [|intros ?]
    | match goal with |- keeps_pid (if ?b then _ else _) => destruct b | |- keeps_pid (match ?x with _ => _ end) => destruct x end ].

Lemma find_segment_keeps k : forall ip off va, keeps_pid (find_segment k ip off va).
Proof. induction k as [|k IH]; intros; cbn [find_segment]; keeps. Qed.

Lemma handle_pgfault_keeps pt va a : keeps_pid (handle_pgfault pt va a).
Proof.
  unfold handle_pgfault, pgfault_frame, evict_page, swap_out, swap_allocated_slot, swap_write_page, take_swapped, fault_swap, fault_fresh, fault_zero,
    read_into, map_or_free, add_to_resident_set, Paging.setkilled, Paging.kexit. keeps. all: try apply find_segment_keeps.
Qed.

Lemma copyout_keeps pt dst src sc : keeps_pid (copyout pt dst src sc).
Proof.
  unfold copyout. generalize (Z.to_nat (Z.of_nat (length src) / PGSIZE) + 3)%nat. intros k. revert dst src.
  induction k as [|k IH]; intros dst src; cbn [copyout_loop]; unfold fault_in; keeps; apply handle_pgfault_keeps.
Qed.

(** ** Every step preserves the invariant *)

Lemma on_cpu_running s c me : sys_inv s -> on_cpu s c me -> inr me /\ c_state (view s me) = RUNNING.
Proof.
  intros Hi [Hc Hm]. pose proof (pi_cpu _ _ _ _ Hi c me Hc Hm). split; [done|]. apply (pi_run _ _ _ _ Hi); [done|]. eauto.
Qed.

Lemma kfork_inv me c s r s' : on_cpu s c me -> s_nextpid s < 2 ^ 31 - 1 -> kfork me s = Ret r s' -> sys_inv s -> sys_inv s'.
Proof.
  intros Hcpu Hn Hk Hi. destruct (on_cpu_running s c me Hi Hcpu) as [Hme Hrun].
  apply kfork_ret in Hk as [HU [[_ Hna]|(np & Hr & Hs & _ & Ho & _ & Hc & Hp)]]; [by eapply not_allocated_inv|].
  destruct HU as (U1 & U2 & _). pose proof (pi_nextpid _ _ _ _ Hi). rewrite i32_small in Hp by lia.
  unfold sys_inv. rewrite U1, U2, Hp. destruct (pi_unused _ _ _ _ Hi np Hr Hs) as (_ & _ & Hch).
  eapply (inv_fork (view s)); [done|exact Hr|done|exact Hme|unfold live; auto|intros j Hj; unfold view; by rewrite Ho|].
  unfold view. rewrite Hc. f_equal. exact Hch.
Qed.

(** Only the running process [me] changed, and it left its CPU. *)
Lemma leave_inv s s' c me : sys_inv s -> on_cpu s c me -> others me s s' -> s_nextpid s' = s_nextpid s -> s_initproc s' = s_initproc s ->
  s_cpu s' = upd (s_cpu s) c None -> c_parent (view s' me) = c_parent (view s me) -> c_pid (view s' me) = c_pid (view s me) ->
  (c_state (view s' me) = RUNNABLE /\ c_chan (view s' me) = c_chan (view s me) \/
   c_state (view s' me) = SLEEPING /\ exists ch, c_chan (view s' me) = Some ch /\ (forall i, ch = ChProc i -> i = me /\
     (exists k, inr k /\ c_parent (view s k) = Some me) /\ forall k, inr k -> c_parent (view s k) = Some me -> c_state (view s k) <> ZOMBIE)) ->
  sys_inv s'.
Proof.
  intros Hi Hcpu Ho Hn Hini Hc Hp Hq Hst. destruct (on_cpu_running s c me Hi Hcpu) as [Hme Hrun]. destruct Hcpu as [Hcr Hcm].
  unfold sys_inv. rewrite Hn, Hini, Hc. eapply (inv_leave (view s)); try done; [intros j Hj; unfold view; by rewrite Ho| | | |].
  - destruct Hst as [[? _]|[? _]]; auto.
  - destruct Hst as [[? _]|(_ & ch & -> & _)]; congruence.
  - intros j Hj. destruct Hst as [[_ Hch]|(_ & ch & Hch & Hx)].
    + rewrite Hch in Hj. by apply (pi_chproc _ _ _ _ Hi me).
    + rewrite Hch in Hj. simplify_eq. by apply (Hx j).
  - intros Hs Hj. destruct Hst as [[? _]|(_ & ch & Hch & Hx)]; [congruence|]. rewrite Hch in Hj. simplify_eq. by apply (Hx me).
Qed.

Lemma sched_ret c me s a s' : sched c me s = Ret a s' -> s' = put_cpu (upd (s_cpu s) c None) s.
Proof. unfold sched. intros H. apply bind_inv in H as (p & s1 & [= <- <-] & H). destruct (bool_decide _); [done|]. by injection H. Qed.

Lemma yield_inv c me s s' : on_cpu s c me -> yield c me s = Ret tt s' -> sys_inv s -> sys_inv s'.
Proof.
  intros Hcpu H Hi. unfold yield in H. apply bind_inv in H as ([] & s1 & H1 & H). apply setp_ret in H1 as ([F1 F2 F3 F4] & O1 & P1).
  apply sched_ret in H as ->. eapply (leave_inv s _ c me); try done; [cbn; by rewrite F3|..]; unfold view; cbn [put_cpu s_proc]; rewrite P1; auto.
Qed.

Lemma sleep_inv c me ch s s' : on_cpu s c me -> sleep c me ch s = Ret tt s' -> sys_inv s ->
  (forall i, ch = ChProc i -> i = me /\ (exists k, inr k /\ c_parent (view s k) = Some me) /\
     forall k, inr k -> c_parent (view s k) = Some me -> c_state (view s k) <> ZOMBIE) -> sys_inv s'.
Proof.
  intros Hcpu H Hi Hch. unfold sleep in H. apply bind_inv in H as ([] & s1 & H1 & H). apply setp_ret in H1 as ([F1 F2 F3 F4] & O1 & P1).
  apply sched_ret in H as ->. eapply (leave_inv s _ c me); try done; [cbn; by rewrite F3|..]; unfold view; cbn [put_cpu s_proc]; rewrite P1; try done.
  right. split; [done|]. exists ch. done.
Qed.

Lemma scheduler_inv c s s' : 0 <= c < NCPU -> s_cpu s c = None -> scheduler_step c s = Ret tt s' -> 0 <= s_scan s c < NPROC -> sys_inv s -> sys_inv s'.
Proof.
  intros Hc Hcpu H Hsc Hi. unfold scheduler_step in H. apply bind_inv in H as (s0 & s1 & [= <- <-] & H).
  apply bind_inv in H as (u & s1 & [= _ <-] & H). set (i := s_scan s c) in *.
  destruct (bool_decide (pe_state (s_proc s i) = RUNNABLE)) eqn:Hr; [|by injection H as <-].
  apply bool_decide_eq_true in Hr. apply bind_inv in H as (u1 & s2 & H2 & H). apply setp_ret in H2 as ([F1 F2 F3 F4] & O2 & P2).
  injection H as <-. unfold sys_inv. cbn [put_cpu put_scan s_nextpid s_initproc s_cpu s_proc] in *. rewrite F1, F2, F3.
  change (view (put_cpu _ s2)) with (view s2).
  assert (Hv : forall j, view s2 j = if decide (j = i) then mk_core RUNNING None (c_parent (view s i)) (c_pid (view s i)) (c_killed (view s i)) else view s j).
  { intros j. unfold view. destruct (decide (j = i)) as [->|Hj]; [by rewrite P2|by rewrite O2]. }
  destruct Hi. assert (Hnone : forall d, 0 <= d < NCPU -> s_cpu s d <> Some i).
  { intros d Hd Hx. assert (c_state (view s i) = RUNNING) by (apply pi_run0; [done|eauto]). unfold view in *. cbn in *. congruence. }
  assert (Hp : forall j, c_parent (view s2 j) = c_parent (view s j)) by (intros j; rewrite Hv; by destruct (decide (j = i)) as [->|]).
  assert (Hq : forall j, c_pid (view s2 j) = c_pid (view s j)) by (intros j; rewrite Hv; by destruct (decide (j = i)) as [->|]).
  assert (Hu : forall j, c_state (view s2 j) = UNUSED <-> c_state (view s j) = UNUSED).
  { intros j; rewrite Hv; destruct (decide (j = i)) as [->|]; [|done]. split; [done|]. intros Hx. unfold view in Hx. cbn in Hx. congruence. }
  assert (Hl : forall j, live (c_state (view s j)) -> live (c_state (view s2 j))).
  { intros j Hj. rewrite Hv. destruct (decide (j = i)); [|done]. unfold live. cbn. auto. }
  split; try done.
  - split; [apply pi_init0|]. apply Hl, pi_init0.
  - intros j Hj. rewrite Hv. destruct (decide (j = i)); [done|auto].
  - intros j Hj Hs. rewrite Hp, Hq. apply Hu in Hs. destruct (pi_unused0 j Hj Hs) as (-> & -> & Hx). split_and!; try done. rewrite Hv. by destruct (decide (j = i)).
  - intros j Hj Hs. rewrite Hq. rewrite Hu in Hs. auto.
  - intros j k Hj Hk Hs. rewrite !Hq. rewrite Hu in Hs. auto.
  - intros j Hj Hs Hne. rewrite Hu in Hs. rewrite Hp. destruct (pi_parent0 j Hj Hs Hne) as (k & Hk & Hr2 & Hlk). exists k. auto.
  - intros j Hj. rewrite Hv. destruct (decide (j = i)); [done|auto].
  - intros j k Hj. rewrite Hv. destruct (decide (j = i)); [done|auto].
  - intros j Hj. rewrite Hv. destruct (decide (j = i)); [done|auto].
  - intros j Hj Hs Hcj. rewrite Hv in Hs, Hcj. destruct (decide (j = i)); [done|]. destruct (pi_wait0 j Hj Hs Hcj) as [(k & Hk & Hkp) Hz].
    split; [exists k; by rewrite Hp|]. intros m Hm. rewrite Hp, Hv. intros Hmp. destruct (decide (m = i)); [done|auto].
  - intros j Hj. rewrite Hv. unfold upd. destruct (decide (j = i)) as [->|Hne].
    + split; [|done]. intros _. exists c. by rewrite Z.eqb_refl.
    + rewrite pi_run0 by done. split; intros (d & Hd & Hx); exists d; (split; [done|]); destruct (Z.eqb_spec d c); congruence.
  - intros d j Hd Hx. unfold upd in Hx. destruct (Z.eqb_spec d c); [by simplify_eq|eauto].
  - intros d e j Hd He Hx Hy. unfold upd in *. destruct (Z.eqb_spec d c), (Z.eqb_spec e c); simplify_eq; try done; [exfalso; by eapply (Hnone e)|exfalso; by eapply (Hnone d)|eauto].
Qed.

(** The children of the running process [me] pass to init, which is awake if
    there were any; [me] itself stays as it is for now. *)
Lemma inv_adopt t t1 init n cpu c me : proc_inv t init n cpu -> 0 <= c < NCPU -> cpu c = Some me -> me <> init ->
  (forall j, inr j -> c_chan (t1 j) = c_chan (t j) /\ c_pid (t1 j) = c_pid (t j) /\
    c_parent (t1 j) = (if decide (c_parent (t j) = Some me) then Some init else c_parent (t j)) /\
    (c_state (t1 j) = c_state (t j) \/ (c_state (t j) = SLEEPING /\ c_state (t1 j) = RUNNABLE))) ->
  (forall j, inr j -> j <> me -> c_parent (t j) = Some me -> ~ (c_state (t1 init) = SLEEPING /\ c_chan (t1 init) = Some (ChProc init))) ->
  proc_inv t1 init n cpu.
Proof.
  intros Hinv Hc Hcpu Hni Hr Hw. destruct Hinv.
  pose proof (pi_cpu0 c me Hc Hcpu) as Hme. pose proof (proj2 (pi_run0 me Hme) (ex_intro _ c (conj Hc Hcpu))) as Hrun.
  assert (Hu : forall j, inr j -> c_state (t1 j) = UNUSED <-> c_state (t j) = UNUSED).
  { intros j Hj. destruct (Hr j Hj) as (_ & _ & _ & [->|[-> ->]]); done. }
  assert (Hl : forall j, inr j -> live (c_state (t j)) -> live (c_state (t1 j))).
  { intros j Hj Hx. destruct (Hr j Hj) as (_ & _ & _ & [->|[_ ->]]); [done|]. right. by left. }
  split; try done.
  - destruct pi_init0 as [? ?]. split; [done|]. by apply Hl.
  - intros j Hj. destruct (Hr j Hj) as (_ & _ & _ & [->|[_ ->]]); [auto|done].
  - intros j Hj Hs. rewrite (Hu j Hj) in Hs. destruct (pi_unused0 j Hj Hs) as (E1 & E2 & E3). destruct (Hr j Hj) as (-> & -> & -> & _).
    rewrite decide_False by congruence. done.
  - intros j Hj Hs. rewrite (Hu j Hj) in Hs. destruct (Hr j Hj) as (_ & -> & _). auto.
  - intros j k Hj Hk Hs. rewrite (Hu j Hj) in Hs. destruct (Hr j Hj) as (_ & -> & _), (Hr k Hk) as (_ & -> & _). auto.
  - intros j Hj Hs Hne. rewrite (Hu j Hj) in Hs. destruct (Hr j Hj) as (_ & _ & -> & _). destruct (decide _).
    + exists init. destruct pi_init0. auto.
    + destruct (pi_parent0 j Hj Hs Hne) as (k & Hk & Hrk & Hlk). exists k. auto.
  - intros j Hj Hs. destruct (Hr j Hj) as (-> & _ & _ & [Hx|[_ Hx]]); [|congruence]. apply pi_chan0; congruence.
  - intros j k Hj. destruct (Hr j Hj) as (-> & _). auto.
  - intros j Hj Hs. destruct (Hr j Hj) as (-> & _ & _ & [Hx|[_ Hx]]); [|congruence]. apply pi_running0; congruence.
  - intros j Hj Hs Hcj. destruct (Hr j Hj) as (Ec & _ & _ & [Hx|[_ Hx]]); [|congruence]. assert (Hjm : j <> me) by (intros ->; congruence).
    destruct (pi_wait0 j Hj) as [(k & Hk & Hkp) Hz]; [congruence..|]. split.
    + exists k. split; [done|]. destruct (Hr k Hk) as (_ & _ & -> & _). rewrite decide_False by congruence. done.
    + intros m Hm. destruct (Hr m Hm) as (_ & _ & -> & Hsm). destruct (decide (c_parent (t m) = Some me)) as [Hpm|Hpm].
      * intros [= <-]. destruct (decide (m = me)) as [->|Hmm]; [|by destruct (Hw m Hm Hmm Hpm)].
        destruct Hsm as [Hsm|[Hsm _]]; congruence.
      * intros Hpj. destruct Hsm as [->|[_ ->]]; [auto|done].
  - intros j Hj. rewrite <- pi_run0 by done. destruct (Hr j Hj) as (_ & _ & _ & [->|[-> ->]]); done.
Qed.

Lemma in_table_inr i : in_table i = true <-> inr i.
Proof. unfold in_table, inr. rewrite andb_true_iff, Z.leb_le, Z.ltb_lt. done. Qed.

Lemma waken_awake me ch i p : inr i -> me <> Some i -> ~ (pe_state (waken me ch i p) = SLEEPING /\ pe_chan (waken me ch i p) = Some ch).
Proof.
  intros Hi Hm. unfold waken. rewrite (proj2 (in_table_inr i) Hi), (bool_decide_eq_false_2 _ Hm). cbn [andb negb].
  destruct (bool_decide _) eqn:Hb; [by intros [? _]|]. by apply bool_decide_eq_false in Hb.
Qed.

Lemma adopted_core me init had j p : inr j ->
  c_chan (core (adopted me init (in_table j) had j p)) = c_chan (core p) /\ c_pid (core (adopted me init (in_table j) had j p)) = c_pid (core p) /\
  c_parent (core (adopted me init (in_table j) had j p)) = (if decide (c_parent (core p) = Some me) then Some init else c_parent (core p)) /\
  (c_state (core (adopted me init (in_table j) had j p)) = c_state (core p) \/
   (c_state (core p) = SLEEPING /\ c_state (core (adopted me init (in_table j) had j p)) = RUNNABLE)).
Proof.
  intros Hj. unfold adopted. rewrite (proj2 (in_table_inr j) Hj). cbn [andb].
  set (p' := if bool_decide (pe_parent p = Some me) then set_parent (Some init) p else p).
  assert (Hp' : c_chan (core p') = c_chan (core p) /\ c_pid (core p') = c_pid (core p) /\ c_state (core p') = c_state (core p) /\
    c_parent (core p') = (if decide (c_parent (core p) = Some me) then Some init else c_parent (core p))).
  { unfold p'. cbn [core c_parent]. case_bool_decide; [by rewrite decide_True|by rewrite decide_False]. }
  destruct Hp' as (E1 & E2 & E3 & E4). rewrite <- E1, <- E2, <- E3, <- E4. destruct had; [|auto].
  destruct (core_waken (Some me) (ChProc init) j p') as (-> & -> & -> & Hs). auto.
Qed.

Lemma kexit_inv c me st s s' : on_cpu s c me -> kexit c me st s = Ret tt s' -> sys_inv s -> sys_inv s'.
Proof.
  intros Hcpu H Hi. destruct (on_cpu_running s c me Hi Hcpu) as [Hme Hrun]. destruct Hcpu as [Hc Hcm].
  apply kexit_ret in H as (Hni & Hn & Hini & _ & Hcp & had & par & Hhad & Hpar & Hoth & Hself & _).
  rewrite (proj2 (in_table_inr me) Hme) in Hpar. cbn [andb] in Hpar.
  set (t1 := fun j => if decide (j = me) then mk_core RUNNING (c_chan (view s me)) par (c_pid (view s me)) (c_killed (view s me)) else view s' j).
  assert (Hpar' : par = (if decide (c_parent (view s me) = Some me) then Some (s_initproc s) else c_parent (view s me))).
  { rewrite Hpar. unfold view. cbn [core c_parent]. case_bool_decide; [by rewrite decide_True|by rewrite decide_False]. }
  assert (Hrel : forall j, inr j -> c_chan (t1 j) = c_chan (view s j) /\ c_pid (t1 j) = c_pid (view s j) /\
    c_parent (t1 j) = (if decide (c_parent (view s j) = Some me) then Some (s_initproc s) else c_parent (view s j)) /\
    (c_state (t1 j) = c_state (view s j) \/ (c_state (view s j) = SLEEPING /\ c_state (t1 j) = RUNNABLE))).
  { intros j Hj. unfold t1. destruct (decide (j = me)) as [->|Hne]; [cbn [c_chan c_pid c_parent c_state]; auto|].
    replace (view s' j) with (core (waken (Some me) (match par with Some i => ChProc i | None => ChAddr 0 end) j (adopted me (s_initproc s) (in_table j) had j (s_proc s j))))
      by (unfold view; by rewrite (Hoth j Hne)).
    destruct (adopted_core me (s_initproc s) had j (s_proc s j) Hj) as (E1 & E2 & E3 & E4).
    destruct (core_waken (Some me) (match par with Some i => ChProc i | None => ChAddr 0 end) j (adopted me (s_initproc s) (in_table j) had j (s_proc s j))) as (W1 & W2 & W3 & W4).
    unfold view. rewrite W1, W2, W3. split; [done|]. split; [done|]. split; [done|].
    destruct W4 as [->|[W4 ->]]; [done|]. right. split; [|done]. destruct E4 as [E4|[_ E4]]; congruence. }
  assert (Hinit : inr (s_initproc s)) by apply Hi.
  assert (H1 : proc_inv t1 (s_initproc s) (s_nextpid s) (s_cpu s)).
  { eapply (inv_adopt (view s)); try done. intros j Hj Hjm Hp. specialize (Hhad j Hj Hjm Hp). subst had.
    unfold t1. rewrite decide_False by congruence. unfold view. rewrite Hoth by congruence.
    intros [Hs Hch]. destruct (core_waken (Some me) (match par with Some i => ChProc i | None => ChAddr 0 end) (s_initproc s)
      (adopted me (s_initproc s) (in_table (s_initproc s)) true (s_initproc s) (s_proc s (s_initproc s)))) as (W1 & _ & _ & W4).
    rewrite W1 in Hch. destruct W4 as [W4|[_ W4]]; [|congruence]. rewrite W4 in Hs. revert Hs Hch. unfold adopted. cbn zeta.
    intros Hs Hch. eapply (waken_awake (Some me)); [exact Hinit| |exact (conj Hs Hch)]. congruence. }
  unfold sys_inv. rewrite Hn, Hini, Hcp. unfold core in Hself. injection Hself as S1 S2 S3 S4 S5.
  eapply (inv_leave t1); try done; unfold t1; rewrite ?(decide_True (P := me = me)) by done.
  - intros j Hj. by rewrite decide_False.
  - done.
  - done.
  - right. right. split; [done|]. split; [done|]. split.
    + intros j Hj. destruct (Hrel j Hj) as (_ & _ & Hp & _). unfold t1 in Hp. rewrite Hp. destruct (decide (c_parent (view s j) = Some me)); congruence.
    + cbn [c_parent]. intros k Hk. subst par. destruct (pi_parent _ _ _ _ H1 me Hme) as (k' & Hk' & Hrk & _).
      { unfold t1. by rewrite decide_True. }
      { done. }
      unfold t1 in Hk'. rewrite decide_True in Hk' by done. cbn [c_parent] in Hk'. rewrite Hk in Hk'. injection Hk' as <-.
      assert (Hkm : k <> me). { intros ->. rewrite Hpar' in Hk. destruct (decide (c_parent (view s me) = Some me)); congruence. }
      rewrite decide_False by done. unfold view. rewrite Hoth, Hk by done. apply waken_awake; [done|congruence].
  - intros Hs. unfold view in Hs. cbn [core c_state] in Hs. congruence.
  - intros j Hj. unfold view in Hj. cbn [core c_chan] in Hj. rewrite S2 in Hj. by apply (pi_chproc _ _ _ _ Hi me).
  - intros Hs. unfold view in Hs. cbn [core c_state] in Hs. congruence.
Qed.

Lemma slot_scan_Some f n i : scan f n = Some i -> 0 <= i < n /\ f i = true /\ forall j, 0 <= j < i -> f j = false.
Proof.
  unfold scan. intros H. pose proof (scan_from_spec f (Z.to_nat n) 0) as Hs. rewrite H in Hs. destruct Hs as (H1 & H2 & H3).
  split; [lia|]. split; [done|]. intros j Hj. apply H3. lia.
Qed.
Lemma slot_scan_None f n j : scan f n = None -> 0 <= j < n -> f j = false.
Proof. unfold scan. intros H Hj. pose proof (scan_from_spec f (Z.to_nat n) 0) as Hs. rewrite H in Hs. apply Hs. lia. Qed.

(** What the scan of [kwait] finds. *)
Lemma kwait_scan_spec s me z b : kwait_scan s me = (z, b) ->
  match z with
  | Some i => inr i /\ c_parent (view s i) = Some me /\ c_state (view s i) = ZOMBIE
  | None => forall k, inr k -> c_parent (view s k) = Some me -> c_state (view s k) <> ZOMBIE
  end /\ (b = true <-> exists k, inr k /\ c_parent (view s k) = Some me).
Proof.
  unfold kwait_scan. intros H. injection H as Hz <-. split.
  - destruct z as [i|].
    + apply slot_scan_Some in Hz as (Hi & Hf & _). apply andb_true_iff in Hf as [H1%bool_decide_eq_true H2%bool_decide_eq_true]. done.
    + intros k Hk Hp Hs. apply (slot_scan_None _ _ k) in Hz; [|done]. apply andb_false_iff in Hz as [Hz|Hz]; by apply bool_decide_eq_false in Hz.
  - rewrite bool_decide_eq_true. split.
    + intros [i Hi]. apply slot_scan_Some in Hi as (Hr & Hf & _). apply bool_decide_eq_true in Hf. by exists i.
    + intros (k & Hk & Hp). destruct (scan (fun i => bool_decide (pe_parent (s_proc s i) = Some me)) NPROC) as [i|] eqn:Hs; [by exists i|].
      apply (slot_scan_None _ _ k) in Hs; [|done]. by apply bool_decide_eq_false in Hs.
Qed.

(** A running process pages in its own memory. *)
Lemma paging_op_eased {A} me (m : M pstate A) s a s' : keeps_pid m -> paging_op me m s = Ret a s' ->
  frame s s' /\ forall i, eased (view s i) (view s' i) /\ c_state (view s' i) = c_state (view s i).
Proof.
  intros Hk H. apply paging_op_ret in H as (F & O & ps & Hm & P). split; [done|]. intros i. unfold view, eased. destruct (decide (i = me)) as [->|Hne].
  - rewrite P. apply Hk in Hm. cbn in *. split_and!; auto.
  - rewrite O by done. split_and!; auto.
Qed.

Lemma frame_inv s s' : frame s s' -> (forall i, eased (view s i) (view s' i)) -> sys_inv s -> sys_inv s'.
Proof. intros F He Hi. unfold sys_inv in *. rewrite (fr_nextpid _ _ F), (fr_init _ _ F), (fr_cpu _ _ F). eapply (inv_eased (view s)); [exact Hi|auto]. Qed.

(** [kwait]: the outcome by cases. *)
Lemma kwait_ret c me addr s r s' : kwait c me addr s = Ret r s' ->
  (exists i, inr i /\ c_parent (view s i) = Some me /\ c_state (view s i) = ZOMBIE /\
     exists s1, frame s s1 /\ (forall j, eased (view s j) (view s1 j) /\ c_state (view s1 j) = c_state (view s j)) /\ (addr = 0 -> s1 = s) /\
     ((r = WReturn (-1) /\ addr <> 0 /\ s' = s1) \/ (r = WReturn (c_pid (view s i)) /\ freeproc i s1 = Ret tt s'))) \/
  ((forall k, inr k -> c_parent (view s k) = Some me -> c_state (view s k) <> ZOMBIE) /\
   ((r = WReturn (-1) /\ s' = s /\ ((forall k, inr k -> c_parent (view s k) <> Some me) \/ c_killed (view s me) <> 0)) \/
    (r = WSleep /\ (exists k, inr k /\ c_parent (view s k) = Some me) /\ c_killed (view s me) = 0 /\ sleep c me (ChProc me) s = Ret tt s'))).
Proof.
  unfold kwait. intros H. apply bind_inv in H as (s0 & s1 & [= <- <-] & H). destruct (kwait_scan s me) as [z b] eqn:Hsc.
  apply kwait_scan_spec in Hsc as [Hz Hb]. destruct z as [i|].
  - left. destruct Hz as (Hi & Hp & Hs). exists i. split; [done|]. split; [done|]. split; [done|].
    apply bind_inv in H as (pp & s1 & [= <- <-] & H). apply bind_inv in H as (p & s2 & [= <- <-] & H).
    apply bind_inv in H as (rc & s1 & H1 & H). exists s1.
    assert (Hs1 : frame s s1 /\ (forall j, eased (view s j) (view s1 j) /\ c_state (view s1 j) = c_state (view s j)) /\ (addr = 0 -> s1 = s /\ rc = 0)).
    { destruct (Z.eqb_spec addr 0) as [->|Ha]; cbn [negb] in H1.
      - injection H1 as <- <-. split; [apply frame_refl|]. split; [split; [apply eased_refl|done]|done].
      - apply paging_op_eased in H1 as [F E]; [done|apply copyout_keeps]. }
    destruct Hs1 as (F & E & Ha). split; [done|]. split; [done|]. split; [by intros; apply Ha|].
    destruct (Z.ltb_spec rc 0).
    + injection H as <- <-. left. split; [done|]. split; [|done]. intros ->. destruct (Ha eq_refl). lia.
    + apply bind_inv in H as ([] & s2 & H2 & H). injection H as <- <-. right. done.
  - right. split; [done|]. apply bind_inv in H as (p & s1 & [= <- <-] & H).
    destruct (negb b || negb (p_killed (pe_vm (s_proc s me)) =? 0)) eqn:Hc.
    + injection H as <- <-. left. split; [done|]. split; [done|]. apply orb_true_iff in Hc as [Hc|Hc]; apply negb_true_iff in Hc.
      * left. intros k Hk Hp. subst b. assert (false = true) by (apply Hb; eauto). done.
      * right. by apply Z.eqb_neq in Hc.
    + apply orb_false_iff in Hc as [Hc1 Hc2]. apply negb_false_iff in Hc1, Hc2. apply Z.eqb_eq in Hc2.
      apply bind_inv in H as ([] & s1 & H1 & H). injection H as <- <-. right. split; [done|]. split; [by apply Hb|]. done.
Qed.

Lemma kwait_inv c me addr s r s' : on_cpu s c me -> kwait c me addr s = Ret r s' -> sys_inv s -> sys_inv s'.
Proof.
  intros Hcpu H Hi. destruct (on_cpu_running s c me Hi Hcpu) as [Hme Hrun].
  apply kwait_ret in H as [(i & Hir & Hp & Hs & s1 & F & E & _ & [(_ & _ & ->)|[_ Hf]])|[Hz [(_ & -> & _)|(_ & Hk & _ & Hsl)]]].
  - eapply frame_inv; [done|apply E|done].
  - assert (Hi1 : sys_inv s1) by (eapply frame_inv; [done|apply E|done]). apply freeproc_ret in Hf as (F2 & O2 & []).
    unfold sys_inv. rewrite (fr_nextpid _ _ F2), (fr_init _ _ F2), (fr_cpu _ _ F2).
    eapply (inv_free (view s1) _ _ (s_nextpid s1) _ _ i); try done.
    + right. destruct (E i) as [_ ->]. done.
    + intros k Hk Hsk Hck. destruct (E i) as [(_ & -> & _) _]. rewrite Hp. intros [= <-]. destruct (E me) as [_ Hx]. congruence.
    + intros j Hj. unfold view. by rewrite O2.
  - done.
  - eapply sleep_inv; [done|done|done|]. intros k [= <-]. done.
Qed.

(** The scheduler positions stay in the table. *)
Definition scan_ok (s : sys) : Prop := forall c, 0 <= c < NCPU -> 0 <= s_scan s c < NPROC.
Definition full_inv (s : sys) : Prop := sys_inv s /\ scan_ok s.

Lemma sleep_scan c me ch s a s' : sleep c me ch s = Ret a s' -> s_scan s' = s_scan s.
Proof.
  unfold sleep. intros H. apply bind_inv in H as (u & s1 & H1 & H). apply setp_ret in H1 as (F & _). apply sched_ret in H as ->. apply (fr_scan _ _ F).
Qed.

Lemma step_scan s s' : step s s' -> s_scan s' = s_scan s \/ exists c, s_cpu s c = None /\ scheduler_step c s = Ret tt s' /\ s_scan s' = upd (s_scan s) c ((s_scan s c + 1) mod NPROC).
Proof.
  destruct 1 as [s s' c Hc Hcpu H|s s' c me Hcpu H|s s' c me a Hcpu H|s s' me a H|s s' c me r Hcpu Hn H|s s' c me st Hcpu H
    |s s' c me addr r Hcpu H|s s' c me pid r Hcpu H|s s' c me f k fl lg fr Hcpu Hf ->].
  - right. exists c. split; [done|]. split; [done|]. unfold scheduler_step in H. apply bind_inv in H as (s0 & s1 & [= <- <-] & H).
    apply bind_inv in H as (u & s1 & [= _ <-] & H). destruct (bool_decide _); [|by injection H as <-].
    apply bind_inv in H as (u1 & s2 & H2 & H). apply setp_ret in H2 as (F & _). injection H as <-. apply (fr_scan _ _ F).
  - left. unfold yield in H. apply bind_inv in H as (u & s1 & H1 & H). apply setp_ret in H1 as (F & _). apply sched_ret in H as ->. apply (fr_scan _ _ F).
  - left. by apply sleep_scan in H.
  - left. destruct (wakeup_eq me (ChAddr a) s) as (s1 & H1 & F & _). rewrite H in H1. injection H1 as ->. apply (fr_scan _ _ F).
  - left. by apply kfork_ret in H as [(_ & _ & ? & _) _].
  - left. by apply kexit_ret in H as (_ & _ & _ & ? & _).
  - left. apply kwait_ret in H as [(i & _ & _ & _ & s1 & F & _ & _ & [(_ & _ & ->)|[_ Hf]])|[_ [(_ & -> & _)|(_ & _ & _ & Hsl)]]].
    + apply (fr_scan _ _ F).
    + apply freeproc_ret in Hf as (F2 & _). rewrite (fr_scan _ _ F2). apply (fr_scan _ _ F).
    + done.
    + by apply sleep_scan in Hsl.
  - left. apply kkill_ret in H as (F & _). apply (fr_scan _ _ F).
  - by left.
Qed.

Lemma step_inv s s' : step s s' -> full_inv s -> full_inv s'.
Proof.
  intros Hst [Hi Hsc]. split.
  - destruct Hst as [s s' c Hc Hcpu H|s s' c me Hcpu H|s s' c me a Hcpu H|s s' me a H|s s' c me r Hcpu Hn H|s s' c me st Hcpu H
      |s s' c me addr r Hcpu H|s s' c me pid r Hcpu H|s s' c me f k fl lg fr Hcpu Hf ->].
    + by eapply scheduler_inv; [..|apply Hsc|].
    + by eapply yield_inv.
    + by eapply sleep_inv.
    + by eapply wakeup_inv.
    + by eapply kfork_inv.
    + by eapply kexit_inv.
    + by eapply kwait_inv.
    + by eapply kkill_inv.
    + eapply (inv_eased (view s)); [exact Hi|]. intros i _. unfold view. cbn. unfold upd.
      destruct (Z.eqb_spec i me) as [->|]; [rewrite Hf|]; apply eased_refl.
  - intros d Hd. destruct (step_scan _ _ Hst) as [->|(c & _ & _ & ->)]; [auto|]. unfold upd. destruct (d =? c); [|auto]. apply Z.mod_pos_bound. done.
Qed.

(** * From boot *)

(** The kernel's data before [procinit] and [userinit] run. *)
Definition bss_zero (s : sys) : Prop :=
  (forall i, inr i -> pe_chan (s_proc s i) = None /\ pe_parent (s_proc s i) = None /\ p_pid (pe_vm (s_proc s i)) = 0) /\
  s_nextpid s = 1 /\ (forall c, s_cpu s c = None) /\ (forall c, s_scan s c = 0).

Lemma procinit_eq s : exists s', procinit s = Ret tt s' /\ frame s s' /\ forall j, inr j -> s_proc s' j = set_state UNUSED (s_proc s j).
Proof.
  unfold procinit. destruct (slots_loop (fun _ p => set_state UNUSED p) (Z.to_nat NPROC) 0 s (fun i => setp i (set_state UNUSED))) as (s' & H & F & P).
  { intros j s1. eexists. split; [reflexivity|]. apply (setp_ret j _ s1 tt). done. }
  exists s'. split; [exact H|]. split; [exact F|]. intros j [H0 H1]. rewrite P. change NPROC with 64 in *.
  destruct (Z.leb_spec 0 j); [|lia]. destruct (Z.ltb_spec j (0 + Z.of_nat (Z.to_nat 64))); [done|lia].
Qed.

(** The table with the first process only. *)
Lemma inv_first t i k cpu : inr i -> t i = mk_core RUNNABLE None None 1 k ->
  (forall j, inr j -> j <> i -> exists k, t j = mk_core UNUSED None None 0 k) -> (forall c, cpu c = None) -> proc_inv t i 2 cpu.
Proof.
  intros Hi Hti Ho Hc.
  assert (Hall : forall j, inr j -> (j = i /\ t j = mk_core RUNNABLE None None 1 k) \/ (j <> i /\ exists k, t j = mk_core UNUSED None None 0 k)).
  { intros j Hj. destruct (decide (j = i)) as [->|]; auto. }
  assert (Hcn : forall c j, cpu c <> Some j) by (intros c j; by rewrite Hc).
  split; try done.
  - split; [done|]. rewrite Hti. right. by left.
  - intros j Hj. by destruct (Hall j Hj) as [[-> ->]|[? [? ->]]].
  - intros j Hj. by destruct (Hall j Hj) as [[-> ->]|[? [? ->]]].
  - intros j Hj. by destruct (Hall j Hj) as [[-> ->]|[? [? ->]]].
  - intros j l Hj Hl. by destruct (Hall j Hj) as [[-> ->]|[? [? ->]]], (Hall l Hl) as [[-> ->]|[? [? ->]]].
  - intros j Hj. by destruct (Hall j Hj) as [[-> ->]|[? [? ->]]].
  - intros j Hj. by destruct (Hall j Hj) as [[-> ->]|[? [? ->]]].
  - intros j l Hj. by destruct (Hall j Hj) as [[-> ->]|[? [? ->]]].
  - intros j Hj. by destruct (Hall j Hj) as [[-> ->]|[? [? ->]]].
  - intros j Hj. by destruct (Hall j Hj) as [[-> ->]|[? [? ->]]].
  - intros j Hj. destruct (Hall j Hj) as [[-> ->]|[? [? ->]]]; (split; [done|]); intros (c & _ & Hx); by apply Hcn in Hx.
  - intros c j _ Hx. by apply Hcn in Hx.
  - intros c d j _ _ Hx. by apply Hcn in Hx.
Qed.

Lemma userinit_ret s s' : (forall j, inr j -> c_chan (view s j) = None /\ c_parent (view s j) = None) -> s_nextpid s = 1 -> userinit s = Ret tt s' ->
  exists i k, inr i /\ others i s s' /\ view s' i = mk_core RUNNABLE None None 1 k /\ s_nextpid s' = 2 /\ s_initproc s' = i /\
    s_cpu s' = s_cpu s /\ s_scan s' = s_scan s.
Proof.
  intros Hz Hn H. unfold userinit in H.
  apply bind_inv in H as (r & s3 & H3 & H). apply allocproc_ret in H3 as [(U1 & U2 & U3 & _) H3]. destruct r as [i|]; [|done].
  destruct H3 as [(Hi & Hun & _ & O3 & S3 & P3 & Q3 & C3 & _) N3]. apply bind_inv in H as (u1 & s4 & [= _ <-] & H).
  apply bind_inv in H as (d & s5 & H5 & H). apply fref_op_ret in H5 as [[G1 G2 G3 G4] P5]. apply setp_ret in H as ([E1 E2 E3 E4] & O6 & P6).
  cbn [put_initproc s_nextpid s_initproc s_cpu s_scan s_proc] in *. destruct (Hz i Hi) as [Z1 Z2]. unfold view in Z1, Z2. cbn [core c_chan c_parent] in Z1, Z2.
  exists i, (p_killed (pe_vm (s_proc s3 i))). split; [done|]. split; [intros j Hj; rewrite O6, P5, O3 by done; done|]. split.
  - unfold view. rewrite P6, P5. unfold core. cbn [set_state set_cwd pe_state pe_chan pe_parent pe_vm]. rewrite P3, Q3, C3, Z1, Z2, Hn. done.
  - rewrite Hn in N3. assert (H2 : i32 (1 + 1) = 2) by reflexivity. split_and!; congruence.
Qed.

Lemma boot_inv s0 s1 : bss_zero s0 -> (procinit ;;; userinit) s0 = Ret tt s1 -> full_inv s1.
Proof.
  intros (Hz & Hn & Hc & Hs) H. destruct (procinit_eq s0) as (s2 & H2 & [D1 D2 D3 D4] & P2). rewrite (bind_ret _ _ _ _ _ H2) in H.
  assert (Hv2 : forall j, inr j -> exists k, view s2 j = mk_core UNUSED None None 0 k).
  { intros j Hj. unfold view. rewrite P2 by done. destruct (Hz j Hj) as (E & E' & E''). unfold core. cbn. rewrite E, E', E''. eauto. }
  apply userinit_ret in H as (i & k & Hi & O & V & N & I & C & S).
  - split; [|intros c _; rewrite S, D4, Hs; done]. unfold sys_inv. rewrite N, I. eapply (inv_first _ i k); [done|done| |intros c; by rewrite C, D3].
    intros j Hj Hne. unfold view. rewrite O by done. by apply Hv2.
  - intros j Hj. destruct (Hv2 j Hj) as [k ->]. done.
  - congruence.
Qed.

Lemma proc_reachable_inv s0 s1 s : bss_zero s0 -> (procinit ;;; userinit) s0 = Ret tt s1 -> star step s1 s -> full_inv s.
Proof. intros Hz Hb Hst. eapply (star_invariant step full_inv); [|by eapply boot_inv|done]. intros a b Ha Hab. by eapply step_inv. Qed.


(** * Waiting *)

Lemma sleep_ends c me ch s : exists s', sleep c me ch s = Ret tt s'.
Proof.
  unfold sleep. set (f := fun p => set_state SLEEPING (set_chan (Some ch) p)).
  assert (H : setp me f s = Ret tt (put_proc (upd (s_proc s) me (f (s_proc s me))) s)) by done. rewrite (bind_ret _ _ _ _ _ H).
  apply setp_ret in H as (_ & _ & P). set (s1 := put_proc _ s) in *. unfold sched.
  rewrite (bind_ret (getp me) (s_proc s1 me) s1 s1 _ eq_refl). rewrite P. rewrite bool_decide_eq_false_2 by done. by eexists.
Qed.


(** * Scheduling *)

Lemma runnable_stays s s' j : full_inv s -> step s s' -> inr j -> pe_state (s_proc s j) = RUNNABLE ->
  pe_state (s_proc s' j) = RUNNABLE \/ pe_state (s_proc s' j) = RUNNING.
Proof.
  intros [Hi Hsc] Hst Hj Hr.
  assert (Hme : forall c me, on_cpu s c me -> j <> me) by (intros c me Hcpu ->; destruct (on_cpu_running s c me Hi Hcpu) as [_ Hx]; unfold view in Hx; cbn in Hx; congruence).
  destruct Hst as [s s' c Hc Hcpu H|s s' c me Hcpu H|s s' c me a Hcpu H|s s' me a H|s s' c me r Hcpu Hn H|s s' c me st Hcpu H
    |s s' c me addr r Hcpu H|s s' c me pid r Hcpu H|s s' c me f k fl lg fr Hcpu Hf ->].
  - unfold scheduler_step in H. apply bind_inv in H as (s0 & s1 & [= <- <-] & H).
    apply bind_inv in H as (u & s1 & [= _ <-] & H). destruct (bool_decide _); [|injection H as <-; auto].
    apply bind_inv in H as (u1 & s2 & H2 & H). apply setp_ret in H2 as (_ & O2 & P2). injection H as <-. cbn [put_cpu s_proc put_scan] in *.
    destruct (decide (j = s_scan s c)) as [->|Hne]; [rewrite P2; auto|]. rewrite O2 by done. auto.
  - unfold yield in H. apply bind_inv in H as (u & s1 & H1 & H). apply setp_ret in H1 as (_ & O1 & _). apply sched_ret in H as ->. cbn. rewrite O1 by eauto. auto.
  - unfold sleep in H. apply bind_inv in H as (u & s1 & H1 & H). apply setp_ret in H1 as (_ & O1 & _). apply sched_ret in H as ->. cbn. rewrite O1 by eauto. auto.
  - destruct (wakeup_eq me (ChAddr a) s) as (s1 & H1 & F & P). rewrite H in H1. injection H1 as ->. rewrite P. unfold waken. destruct (_ && bool_decide _); auto.
  - apply kfork_ret in H as [_ [[_ [He|(i & _ & Hu & Ho & _)]]|(np & _ & Hu & _ & Ho & _)]]; [rewrite He; auto|..]; rewrite Ho by congruence; auto.
  - apply kexit_ret in H as (_ & _ & _ & _ & _ & had & par & _ & _ & Ho & _). rewrite Ho by eauto.
    destruct (core_waken (Some me) (match par with Some i => ChProc i | None => ChAddr 0 end) j (adopted me (s_initproc s) (in_table j) had j (s_proc s j))) as (_ & _ & _ & W).
    destruct (adopted_core me (s_initproc s) had j (s_proc s j) Hj) as (_ & _ & _ & E4). cbn [core c_state] in *. left.
    destruct W as [W|[W _]], E4 as [E4|[E4 _]]; congruence.
  - apply kwait_ret in H as [(i & _ & _ & Hz & s1 & F & E & _ & [(_ & _ & ->)|[_ Hf]])|[_ [(_ & -> & _)|(_ & _ & _ & Hsl)]]]; [| |auto|].
    + destruct (E j) as [_ Ej]. cbn [view core c_state] in Ej. unfold view in Ej. cbn in Ej. left. congruence.
    + apply freeproc_ret in Hf as (_ & O2 & _). destruct (E j) as [_ Ej]. unfold view in Ej, Hz. cbn in Ej, Hz. rewrite O2; [left; congruence|]. intros ->. congruence.
    + unfold sleep in Hsl. apply bind_inv in Hsl as (u & s2 & H1 & H). apply setp_ret in H1 as (_ & O1 & _). apply sched_ret in H as ->. cbn. rewrite O1 by eauto. auto.
  - apply kkill_ret in H as (_ & E & _). destruct (E j) as (_ & _ & _ & [Ej|[Ej _]]); unfold view in Ej; cbn in Ej; left; congruence.
  - cbn. rewrite upd_ne by eauto. auto.
Qed.

(** An execution from [s] in which the scheduler of CPU [c] looks at [n] slots
    and process [j] is never run; a step that leaves the position of [c] alone
    is one of another CPU, of a process or of an interrupt. *)
Inductive overlooked (c j : Z) : nat -> sys -> sys -> Prop :=
| ov_start s : pe_state (s_proc s j) <> RUNNING -> overlooked c j 0 s s
| ov_other n s s1 s2 : overlooked c j n s s1 -> step s1 s2 -> s_scan s2 c = s_scan s1 c ->
    pe_state (s_proc s2 j) <> RUNNING -> overlooked c j n s s2
| ov_sched n s s1 s2 : overlooked c j n s s1 -> s_cpu s1 c = None -> scheduler_step c s1 = Ret tt s2 ->
    pe_state (s_proc s2 j) <> RUNNING -> overlooked c j (S n) s s2.

Lemma scheduler_step_other c s s' j : scheduler_step c s = Ret tt s' -> pe_state (s_proc s j) = RUNNABLE -> pe_state (s_proc s' j) <> RUNNING ->
  s_scan s c <> j /\ s_scan s' c = (s_scan s c + 1) mod NPROC.
Proof.
  intros H Hr Hn. unfold scheduler_step in H. apply bind_inv in H as (s0 & s1 & [= <- <-] & H). apply bind_inv in H as (u & s1 & [= _ <-] & H).
  destruct (bool_decide (pe_state (s_proc s (s_scan s c)) = RUNNABLE)) eqn:Hb.
  - apply bind_inv in H as (u1 & s2 & H2 & H). apply setp_ret in H2 as (F & O2 & P2). injection H as <-. cbn [put_cpu put_scan s_proc s_scan] in *.
    split; [intros <-; rewrite P2 in Hn; done|]. rewrite (fr_scan _ _ F). cbn [put_scan s_scan]. apply upd_eq.
  - apply bool_decide_eq_false in Hb. injection H as <-. split; [intros <-; done|]. cbn [put_scan s_scan]. apply upd_eq.
Qed.

Lemma overlooked_scan c j n s s' : 0 <= c < NCPU -> inr j -> full_inv s -> pe_state (s_proc s j) = RUNNABLE -> overlooked c j n s s' ->
  full_inv s' /\ pe_state (s_proc s' j) = RUNNABLE /\ s_scan s' c = (s_scan s c + Z.of_nat n) mod NPROC /\
  forall k, 0 <= k < Z.of_nat n -> (s_scan s c + k) mod NPROC <> j.
Proof.
  intros Hc Hj Hi Hr Hov. induction Hov as [s Hn|n s s1 s2 Hov IH Hst Hsc Hn|n s s1 s2 Hov IH Hcpu Hs Hn].
  - split; [done|]. split; [done|]. split; [|lia]. destruct Hi as [_ Hsc]. rewrite Z.add_0_r, Z.mod_small; [done|]. by apply Hsc.
  - destruct (IH Hi Hr) as (Hi1 & Hr1 & E1 & K1). split; [by eapply step_inv|]. split; [|split; [congruence|done]].
    destruct (runnable_stays s1 s2 j Hi1 Hst Hj Hr1); done.
  - destruct (IH Hi Hr) as (Hi1 & Hr1 & E1 & K1). assert (Hst : step s1 s2) by by eapply step_sched.
    destruct (scheduler_step_other c s1 s2 j Hs Hr1 Hn) as [Hne E2]. split; [by eapply step_inv|].
    split; [destruct (runnable_stays s1 s2 j Hi1 Hst Hj Hr1); done|]. split.
    + rewrite E2, E1. rewrite Z.add_mod_idemp_l by done. f_equal. lia.
    + intros k Hk. destruct (decide (k = Z.of_nat n)) as [->|]; [congruence|]. apply K1. lia.
Qed.

(** C28: A runnable process is not passed over.  Starting from a reachable state
    in which process [j] is runnable, and whatever processes, interrupts and
    the other CPUs do, each CPU's scheduler looks at fewer than [NPROC] slots
    before [j] is run (by it or by another CPU): once a CPU has looked at
    [NPROC] slots, [j] has been running. *)
Theorem runnable_is_run c j n s s' :
  0 <= c < NCPU -> inr j -> full_inv s -> pe_state (s_proc s j) = RUNNABLE -> overlooked c j n s s' -> Z.of_nat n < NPROC.
Proof.
  intros Hc Hj Hi Hr Hov. destruct (overlooked_scan c j n s s' Hc Hj Hi Hr Hov) as (_ & _ & _ & K).
  destruct (Z.lt_ge_cases (Z.of_nat n) NPROC) as [|Hge]; [done|]. exfalso. apply (K ((j - s_scan s c) mod NPROC)).
  - pose proof (Z.mod_pos_bound (j - s_scan s c) NPROC ltac:(done)). lia.
  - rewrite Z.add_mod_idemp_r by done. replace (s_scan s c + (j - s_scan s c)) with j by lia. by apply Z.mod_small.
Qed.

(** * Two defects *)

Lemma kkill_total pid s : exists r s', kkill pid s = Ret r s'.
Proof.
  unfold kkill. mstep. destruct (scan _ NPROC) as [i|]; [|by eexists _, _]. unfold setp, getp. mstep.
  destruct (bool_decide _); by eexists _, _.
Qed.

(** [kill(0)] does not fail while a process slot is free: it finds the first
    unused slot, whose pid is 0, and marks it as killed; [allocproc] does not
    clear the mark, so that the child of the next successful fork by any
    process starts out killed. *)
Theorem kill_zero_marks_next_child s :
  full_inv s -> (exists i, inr i /\ pe_state (s_proc s i) = UNUSED) ->
  exists s1, kkill 0 s = Ret 0 s1 /\
    forall me r s2, kfork me s1 = Ret r s2 -> r <> -1 ->
      exists np, inr np /\ p_pid (pe_vm (s_proc s2 np)) = r /\ pe_state (s_proc s2 np) = RUNNABLE /\ p_killed (pe_vm (s_proc s2 np)) = 1.
Proof.
  intros [Hi _] (i & Hir & Hu). destruct (kkill_total 0 s) as (r & s1 & Hk). exists s1. pose proof Hk as Hk'.
  apply kkill_ret in Hk' as (F & E & [(_ & _ & Hno)|(-> & j & Hj & Hp & Hkj & _ & Ho & Hlow)]).
  { exfalso. apply (Hno i Hir). by apply (pi_unused _ _ _ _ Hi). }
  split; [done|]. intros me r s2 Hf Hr. apply kfork_ret in Hf as [_ [[-> _]|(np & Hnp & Hnu & Hnl & Ho2 & -> & Hc & _)]]; [done|].
  assert (Hju : pe_state (s_proc s j) = UNUSED).
  { destruct (decide (pe_state (s_proc s j) = UNUSED)); [done|]. pose proof (pi_pid _ _ _ _ Hi j Hj ltac:(done)). lia. }
  assert (Hun : forall k, pe_state (s_proc s1 k) = UNUSED <-> pe_state (s_proc s k) = UNUSED) by (intros k; exact (eased_unused _ _ (E k))).
  assert (np = j) as ->.
  { destruct (Z.lt_trichotomy np j) as [Hl|[?|Hl]]; [|done|].
    - exfalso. apply (Hlow np); [unfold inr in *; lia|]. apply (pi_unused _ _ _ _ Hi); [done|]. by apply Hun.
    - exfalso. apply (Hnl j); [unfold inr in *; lia|]. by apply Hun. }
  exists j. split; [done|]. unfold core in Hc. injection Hc as C1 _ _ C4 C5. split; [done|]. split; [done|].
  unfold view in Hkj. cbn in Hkj. congruence.
Qed.

Lemma setp_runs i f s : exists s', setp i f s = Ret tt s' /\ s_proc s' i = f (s_proc s i) /\ s_km s' = s_km s /\ s_fref s' = s_fref s.
Proof. eexists. split; [reflexivity|]. split; [apply upd_eq|done]. Qed.

(** [freeproc] of a slot that has nothing but the executable's inode. *)
Lemma freeproc_bare i s ip fr : pe_trapframe (s_proc s i) = 0 -> p_pagetable (pe_vm (s_proc s i)) = 0 -> p_exec_ip (pe_vm (s_proc s i)) = ip ->
  ip <> 0 -> iput ip (s_fref s) = Ret tt fr -> exists s', freeproc i s = Ret tt s' /\ s_fref s' = fr.
Proof.
  intros Htf Hpt Hip Hne Hput. unfold freeproc. rewrite (bind_ret (getp i) (s_proc s i) s s _ eq_refl). rewrite Htf, Hpt. cbn [Z.eqb negb]. mstep.
  destruct (setp_runs i (set_trapframe 0) s) as (s1 & H1 & P1 & _ & R1). rewrite (bind_ret _ _ _ _ _ H1). mstep.
  set (f := fun p => set_state UNUSED _). destruct (setp_runs i f s1) as (s2 & H2 & P2 & _ & R2). rewrite (bind_ret _ _ _ _ _ H2).
  rewrite (bind_ret (getp i) (s_proc s2 i) s2 s2 _ eq_refl).
  assert (He : p_exec_ip (pe_vm (s_proc s2 i)) = ip) by (rewrite P2, P1; subst f; by destruct (s_proc s i) as [? ? ? ? ? ? ? ? []]).
  rewrite He. apply Z.eqb_neq in Hne. rewrite Hne. cbn [negb]. unfold fref_op, zoom. rewrite R2, R1, Hput. by eexists.
Qed.

(** A failed fork gives back an inode reference it does not have.
    [freeproc] puts the executable's inode but leaves the pointer in the slot;
    when a later [allocproc] takes the same slot and finds no memory for the
    trapframe, it calls [freeproc] again and the inode is put a second time. *)
Theorem stale_executable_is_put_again s i ip s1 :
  p_exec_ip (pe_vm (s_proc s i)) = ip -> ip <> 0 -> freeproc i s = Ret tt s1 ->
  forall s2 fr, inr i -> s_proc s2 i = s_proc s1 i -> (forall j, 0 <= j < i -> pe_state (s_proc s2 j) <> UNUSED) ->
    kmem_freelist (s_km s2) = 0 -> iput ip (s_fref s2) = Ret tt fr ->
    exists s3, allocproc s2 = Ret None s3 /\ s_fref s3 = fr.
Proof.
  intros Hip Hne Hfree s2 fr Hi H2 Hlow Hmem Hput. destruct (freeproc_leaves i s tt s1 Hfree) as (L1 & L2 & L3).
  apply freeproc_ret in Hfree as (_ & _ & [L4 _ _ _ _]). rewrite <- H2 in L1, L2, L3, L4. rewrite Hip in L3. clear H2 Hip.
  assert (Hscan : scan (fun j => bool_decide (pe_state (s_proc s2 j) = UNUSED)) NPROC = Some i).
  { destruct (scan (fun j => bool_decide (pe_state (s_proc s2 j) = UNUSED)) NPROC) as [j|] eqn:Hs.
    - apply slot_scan_Some in Hs as (Hj & Hx & Hl). apply bool_decide_eq_true in Hx. f_equal. destruct (Z.lt_trichotomy i j) as [Hlt|[?|Hlt]]; [|done|].
      + specialize (Hl i ltac:(unfold inr in *; lia)). by apply bool_decide_eq_false in Hl.
      + by destruct (Hlow j ltac:(lia)).
    - apply (slot_scan_None _ _ i) in Hs; [|done]. by apply bool_decide_eq_false in Hs. }
  unfold allocproc. mstep. rewrite Hscan.
  rewrite (bind_ret allocpid (s_nextpid s2) s2 (put_nextpid (i32 (s_nextpid s2 + 1)) s2) _ eq_refl).
  destruct (setp_runs i (fun p => set_state USED (set_vm (fun v => vm_reset (vm_pid (s_nextpid s2) v)) p)) (put_nextpid (i32 (s_nextpid s2 + 1)) s2))
    as (s3 & H3 & P3 & K3 & R3). rewrite (bind_ret _ _ _ _ _ H3).
  assert (H4 : kmem_op kalloc s3 = Ret 0 (put_km (s_km s3) s3)).
  { unfold kmem_op, zoom, kalloc. rewrite K3. cbn [put_nextpid s_km]. by rewrite Hmem. }
  rewrite (bind_ret _ _ _ _ _ H4). destruct (setp_runs i (set_trapframe 0) (put_km (s_km s3) s3)) as (s5 & H5 & P5 & K5 & R5).
  rewrite (bind_ret _ _ _ _ _ H5). cbn [Z.eqb].
  destruct (freeproc_bare i s5 ip fr) as (s6 & H6 & R6); [..|exists s6; by rewrite (bind_ret _ _ _ _ _ H6)].
  - rewrite P5. done.
  - rewrite P5. cbn [put_km s_proc]. rewrite P3. cbn [put_nextpid s_proc]. destruct (s_proc s2 i) as [? ? ? ? ? ? ? ? []]. done.
  - rewrite P5. cbn [put_km s_proc]. rewrite P3. cbn [put_nextpid s_proc]. destruct (s_proc s2 i) as [? ? ? ? ? ? ? ? []]. done.
  - done.
  - rewrite R5. cbn [put_km s_fref]. rewrite R3. done.
Qed.
End ProcClaims.
