(* ===== verification/Lock.v ===== *)
(** Spin locks ([kernel/spinlock.c]): disabling interrupts with [push_off] and
    [pop_off], and [acquire] and [release] instruction by instruction, on
    several CPUs that run at the same time.  Every other file takes a section
    of code under a lock as one step; this one shows what that rests on. *)
From S2P Require Import Prelude.
Open Scope kern_scope.

(** * Interrupts on one CPU *)

(** The part of [struct cpu] that locks use, and the interrupt-enable bit of
    its [sstatus] register. *)
Record cpu := mk_cpu { c_noff : Z; c_intena : bool; c_sie : bool }.

Definition intr_get (c : cpu) : bool := c_sie c.
Definition intr_on (c : cpu) : cpu := mk_cpu (c_noff c) (c_intena c) true.
Definition intr_off (c : cpu) : cpu := mk_cpu (c_noff c) (c_intena c) false.

Definition push_off : M cpu unit :=
  do old <- gets intr_get;
  modify intr_off ;;;
  modify (fun c => if c_noff c =? 0 then mk_cpu (c_noff c) old (c_sie c) else c) ;;;
  modify (fun c => mk_cpu (i32 (c_noff c + 1)) (c_intena c) (c_sie c)).

Definition pop_off : M cpu unit :=
  do c <- get;
  if intr_get c then panic "pop_off - interruptible"
  else if c_noff c <? 1 then panic "pop_off"
  else
    modify (fun c => mk_cpu (i32 (c_noff c - 1)) (c_intena c) (c_sie c)) ;;;
    do c <- get;
    if (c_noff c =? 0) && c_intena c then modify intr_on else ret tt.

(** The depth is a possible number of nested calls, and interrupts are off
    within them. *)
Definition cpu_ok (c : cpu) : Prop := 0 <= c_noff c < 2 ^ 31 - 1 /\ (0 < c_noff c -> c_sie c = false).

Lemma push_off_eq c : cpu_ok c ->
  push_off c = Ret tt (mk_cpu (c_noff c + 1) (if c_noff c =? 0 then c_sie c else c_intena c) false).
Proof.
  intros [Hn _]. destruct c as [n i e]. cbn in *. unfold push_off, bind, gets, modify, intr_off. cbn.
  destruct (n =? 0); cbn; rewrite i32_small by lia; done.
Qed.

Lemma pop_off_eq c : 0 < c_noff c < 2 ^ 31 -> c_sie c = false ->
  pop_off c = Ret tt (mk_cpu (c_noff c - 1) (c_intena c) ((c_noff c =? 1) && c_intena c)).
Proof.
  intros Hn He. destruct c as [n i e]. cbn in *. subst e. unfold pop_off, bind, get, modify, intr_get. cbn.
  destruct (Z.ltb_spec n 1); [lia|]. cbn. rewrite i32_small by lia.
  replace (n - 1 =? 0) with (n =? 1) by lia. destruct (n =? 1), i; done.
Qed.

(** * The machine *)

(** [struct spinlock]; [lk->cpu] is the number of a CPU, or null. *)
Record spinlock := mk_lk { lk_locked : Z; lk_name : string; lk_cpu : option Z }.

Definition initlock (name : string) (lk : spinlock) : spinlock := mk_lk 0 name None.

(** Where a CPU is: outside the two functions, or before an instruction of
    [acquire(l)] or [release(l)] that reads or writes the lock.
    - [acquire]: read [locked] and [cpu] for [holding], swap [locked] with 1
      until it was 0, write [cpu];
    - [release]: read [locked] and [cpu] for [holding], clear [cpu], swap
      [locked] with 0, then [pop_off]. *)
Inductive pc :=
| Out
| AHold (l : Z) | AHoldCpu (l : Z) | ASpin (l : Z) | ASetCpu (l : Z)
| RHold (l : Z) | RHoldCpu (l : Z) | RClear (l : Z) | RSwap (l : Z) | RPop (l : Z).
#[export] Instance pc_eq_dec : EqDecision pc.
Proof. solve_decision. Defined.

(** Locks, CPUs and where each CPU is.  Two fields record the calls so far: the
    locks for which a CPU has returned from [acquire] and not yet from the swap
    in [release], and its own calls of [push_off] without [pop_off]. *)
Record machine := mk_m {
  m_lk : Z -> spinlock;
  m_cpu : Z -> cpu;
  m_at : Z -> pc;
  m_held : Z -> list Z;
  m_offs : Z -> Z
}.
Definition put_lk l v s := mk_m (upd (m_lk s) l v) (m_cpu s) (m_at s) (m_held s) (m_offs s).
Definition put_at c v s := mk_m (m_lk s) (m_cpu s) (upd (m_at s) c v) (m_held s) (m_offs s).
Definition put_held c v s := mk_m (m_lk s) (m_cpu s) (m_at s) (upd (m_held s) c v) (m_offs s).
Definition put_offs c v s := mk_m (m_lk s) (m_cpu s) (m_at s) (m_held s) (upd (m_offs s) c v).
Definition put_cpu c v s := mk_m (m_lk s) (upd (m_cpu s) c v) (m_at s) (m_held s) (m_offs s).

Definition on_cpu {A} (c : Z) (m : M cpu A) : M machine A := zoom (fun s => m_cpu s c) (put_cpu c) m.
Definition goto (c : Z) (p : pc) : M machine unit := modify (put_at c p).

Definition set_locked v lk := mk_lk v (lk_name lk) (lk_cpu lk).
Definition set_lk_cpu v lk := mk_lk (lk_locked lk) (lk_name lk) v.

(** The next instruction of [acquire] on CPU [c]. *)
Definition acquire_step (c : Z) (p : pc) : M machine unit :=
  do s <- get;
  match p with
  | AHold l => goto c (if lk_locked (m_lk s l) =? 0 then ASpin l else AHoldCpu l)
  | AHoldCpu l => if bool_decide (lk_cpu (m_lk s l) = Some c) then panic "acquire" else goto c (ASpin l)
  | ASpin l =>
      modify (put_lk l (set_locked 1 (m_lk s l))) ;;;
      if lk_locked (m_lk s l) =? 0 then goto c (ASetCpu l) else goto c (ASpin l)
  | ASetCpu l =>
      modify (put_lk l (set_lk_cpu (Some c) (m_lk s l))) ;;;
      modify (put_held c (l :: m_held s c)) ;;; goto c Out
  | _ => ret tt
  end.

(** The next instruction of [release]. *)
Definition release_step (c : Z) (p : pc) : M machine unit :=
  do s <- get;
  match p with
  | RHold l => if lk_locked (m_lk s l) =? 0 then panic "release" else goto c (RHoldCpu l)
  | RHoldCpu l => if bool_decide (lk_cpu (m_lk s l) = Some c) then goto c (RClear l) else panic "release"
  | RClear l => modify (put_lk l (set_lk_cpu None (m_lk s l))) ;;; goto c (RSwap l)
  | RSwap l =>
      modify (put_lk l (set_locked 0 (m_lk s l))) ;;;
      modify (put_held c (list_difference (m_held s c) [l])) ;;; goto c (RPop l)
  | RPop l => on_cpu c pop_off ;;; goto c Out
  | _ => ret tt
  end.

Definition in_acquire (p : pc) : bool :=
  match p with AHold _ | AHoldCpu _ | ASpin _ | ASetCpu _ => true | _ => false end.

(** The next instruction of the call that CPU [c] is in. *)
Definition turn (c : Z) : M machine unit :=
  do s <- get;
  if in_acquire (m_at s c) then acquire_step c (m_at s c) else release_step c (m_at s c).

(** The calls. *)
Definition acquire (c l : Z) : M machine unit := on_cpu c push_off ;;; goto c (AHold l).
Definition release (c l : Z) : M machine unit := goto c (RHold l).

(** [holding] in one go, for a CPU outside the other functions. *)
Definition holding (c l : Z) (s : machine) : bool :=
  negb (lk_locked (m_lk s l) =? 0) && bool_decide (lk_cpu (m_lk s l) = Some c).

(** What code outside the lock functions does to locks and interrupts.  It may
    call [acquire] and [release] for any lock; it calls [pop_off] only to undo
    a [push_off] of its own, and enables interrupts only outside all of them.
    A trap is [intr_off] on entry and [intr_on] on return.  [sched] gives the
    CPU the [intena] of another thread, at depth 1. *)
Inductive client (c : Z) : machine -> machine -> Prop :=
| cl_acquire s s' l : c_noff (m_cpu s c) < 2 ^ 31 - 3 -> acquire c l s = Ret tt s' -> client c s s'
| cl_release s s' l : release c l s = Ret tt s' -> client c s s'
| cl_push s s' : c_noff (m_cpu s c) < 2 ^ 31 - 3 -> on_cpu c push_off s = Ret tt s' -> client c s (put_offs c (m_offs s c + 1) s')
| cl_pop s s' : 0 < m_offs s c -> on_cpu c pop_off s = Ret tt s' -> client c s (put_offs c (m_offs s c - 1) s')
| cl_intr_on s : c_noff (m_cpu s c) = 0 -> client c s (put_cpu c (intr_on (m_cpu s c)) s)
| cl_intr_off s : client c s (put_cpu c (intr_off (m_cpu s c)) s)
| cl_sched s b : c_noff (m_cpu s c) = 1 -> client c s (put_cpu c (mk_cpu (c_noff (m_cpu s c)) b (c_sie (m_cpu s c))) s).

Inductive step : machine -> machine -> Prop :=
| step_turn c s s' : m_at s c <> Out -> turn c s = Ret tt s' -> step s s'
| step_client c s s' : m_at s c = Out -> client c s s' -> step s s'.

(** All locks initialised, no lock function running, [cpus] zeroed. *)
Definition boot (s : machine) : Prop :=
  (forall l, exists lk name, m_lk s l = initlock name lk) /\
  (forall c, c_noff (m_cpu s c) = 0 /\ m_at s c = Out /\ m_held s c = [] /\ m_offs s c = 0).

(** CPU [c] has the lock: from the swap that found it free to the swap that
    frees it. *)
Definition owns (s : machine) (c l : Z) : Prop := l ∈ m_held s c \/ m_at s c = ASetCpu l.

(** * The invariant *)

(** The calls of [push_off] that a lock function has open at this point and
    that no held lock accounts for. *)
Definition nest (p : pc) : Z :=
  match p with AHold _ | AHoldCpu _ | ASpin _ | ASetCpu _ | RPop _ => 1 | _ => 0 end.

(** Of one CPU: its depth counts the locks it holds and the open calls. *)
Record cpu_inv (x : cpu) (p : pc) (held : list Z) (offs : Z) : Prop := {
  ci_noff : c_noff x = Z.of_nat (length held) + offs + nest p;
  ci_offs : 0 <= offs;
  ci_max : c_noff x < 2 ^ 31 - 2;
  ci_sie : 0 < c_noff x -> c_sie x = false
}.

(** Of one lock and all CPUs. *)
Record lock_inv (lk : spinlock) (l : Z) (at_ : Z -> pc) (held : Z -> list Z) : Prop := {
  li_bit : lk_locked lk = 0 \/ lk_locked lk = 1;
  li_own : forall c, l ∈ held c \/ at_ c = ASetCpu l -> lk_locked lk = 1;
  li_free : lk_locked lk = 1 -> exists c, l ∈ held c \/ at_ c = ASetCpu l;
  li_one : forall c d, l ∈ held c \/ at_ c = ASetCpu l -> l ∈ held d \/ at_ d = ASetCpu l -> c = d;
  li_cpu : forall c, lk_cpu lk = Some c <-> l ∈ held c /\ at_ c <> RSwap l;
  li_rel : forall c, at_ c = RClear l \/ at_ c = RSwap l -> l ∈ held c;
  li_new : forall c, at_ c = ASetCpu l -> l ∉ held c
}.

Definition inv (s : machine) : Prop :=
  (forall l, lock_inv (m_lk s l) l (m_at s) (m_held s)) /\
  (forall c, NoDup (m_held s c)) /\
  (forall c, cpu_inv (m_cpu s c) (m_at s c) (m_held s c) (m_offs s c)).

Lemma boot_lock_inv s : boot s -> inv s.
Proof.
  intros [Hl Hc]. split_and!.
  - intros l. destruct (Hl l) as (lk & name & ->).
    assert (Hno : forall c, ~ (l ∈ m_held s c \/ m_at s c = ASetCpu l)).
    { intros c. destruct (Hc c) as (_ & -> & -> & _). intros [H|H]; [by apply elem_of_nil in H|done]. }
    constructor; cbn [initlock lk_locked lk_cpu].
    + by left.
    + intros c H. by destruct (Hno c).
    + done.
    + intros c d H. by destruct (Hno c).
    + intros c. split; [done|]. intros [H _]. destruct (Hno c). by left.
    + intros c. destruct (Hc c) as (_ & -> & _). by intros [?|?].
    + intros c H. destruct (Hno c). by right.
  - intros c. destruct (Hc c) as (_ & _ & -> & _). constructor.
  - intros c. destruct (Hc c) as (Hn & -> & -> & ->). constructor; cbn; lia.
Qed.

(** A CPU that moves between points that are the same to a lock. *)
Lemma lock_inv_move lk l at_ held c p :
  lock_inv lk l at_ held ->
  (p = ASetCpu l <-> at_ c = ASetCpu l) -> (p = RSwap l <-> at_ c = RSwap l) -> (p = RClear l -> l ∈ held c) ->
  lock_inv lk l (upd at_ c p) held.
Proof.
  intros H Ha Hs Hr.
  assert (E : forall d, (upd at_ c p d = ASetCpu l <-> at_ d = ASetCpu l) /\ (upd at_ c p d = RSwap l <-> at_ d = RSwap l) /\
    (upd at_ c p d = RClear l -> at_ d = RClear l \/ l ∈ held d)).
  { intros d. destruct (decide (d = c)) as [->|Hd]; [rewrite upd_eq|rewrite upd_ne by done]; naive_solver. }
  destruct H as [H1 H2 H3 H4 H5 H6 H7]. constructor; [done|..].
  - intros d. rewrite (proj1 (E d)). apply H2.
  - intros Hl. destruct (H3 Hl) as [d Hd]. exists d. by rewrite (proj1 (E d)).
  - intros d e. rewrite (proj1 (E d)), (proj1 (E e)). apply H4.
  - intros d. rewrite H5. destruct (E d) as (_ & E2 & _). naive_solver.
  - intros d [Hd|Hd]; destruct (E d) as (_ & E2 & E3); naive_solver.
  - intros d. rewrite (proj1 (E d)). apply H7.
Qed.

(** The swap of [acquire] on a free lock. *)
Lemma lock_inv_take lk l at_ held c : lock_inv lk l at_ held -> lk_locked lk = 0 -> at_ c = ASpin l ->
  lock_inv (set_locked 1 lk) l (upd at_ c (ASetCpu l)) held.
Proof.
  intros [H1 H2 H3 H4 H5 H6 H7] Hl Hc.
  assert (Hno : forall d, ~ (l ∈ held d \/ at_ d = ASetCpu l)) by (intros d Hd; apply H2 in Hd; lia).
  assert (E : forall d, l ∈ held d \/ upd at_ c (ASetCpu l) d = ASetCpu l -> d = c).
  { intros d. destruct (decide (d = c)) as [->|Hd]; [done|]. rewrite upd_ne by done. naive_solver. }
  constructor; cbn [lk_locked lk_cpu set_locked].
  - by right.
  - done.
  - intros _. exists c. right. apply upd_eq.
  - intros d e Hd He. rewrite (E d Hd), (E e He). done.
  - intros d. rewrite H5. split; intros [Hd _]; naive_solver.
  - intros d. destruct (decide (d = c)) as [->|Hd]; [rewrite upd_eq|rewrite upd_ne by done]; naive_solver.
  - intros d _ Hd. naive_solver.
Qed.

(** The end of [acquire]. *)
Lemma lock_inv_set lk l at_ held c : lock_inv lk l at_ held -> at_ c = ASetCpu l ->
  lock_inv (set_lk_cpu (Some c) lk) l (upd at_ c Out) (upd held c (l :: held c)).
Proof.
  intros [H1 H2 H3 H4 H5 H6 H7] Hc.
  assert (E : forall d, l ∈ upd held c (l :: held c) d \/ upd at_ c Out d = ASetCpu l <-> d = c).
  { intros d. destruct (decide (d = c)) as [->|Hd]; [rewrite !upd_eq|rewrite !upd_ne by done].
    - split; [done|]. intros _. left. set_solver.
    - split; [|done]. intros Ho. apply (H4 d c); auto. }
  assert (Hx : forall d, l ∈ upd held c (l :: held c) d <-> d = c).
  { intros d. rewrite <- E. split; [auto|]. intros [Hd|Hd]; [done|]. destruct (decide (d = c)) as [->|Hn].
    - by rewrite upd_eq in Hd.
    - rewrite upd_ne in Hd by done. exfalso. apply Hn, (H4 d c); auto. }
  constructor; cbn [lk_locked lk_cpu set_lk_cpu].
  - done.
  - intros d Hd. apply (H2 c). by right.
  - intros _. exists c. by apply E.
  - intros d e Hd He. apply E in Hd as ->, He as ->. done.
  - intros d. rewrite Hx. split.
    + intros [= ->]. split; [done|]. by rewrite upd_eq.
    + by intros [-> _].
  - intros d. destruct (decide (d = c)) as [->|Hd]; [rewrite !upd_eq; naive_solver|]. rewrite !upd_ne by done. apply H6.
  - intros d Hd. exfalso. destruct (decide (d = c)) as [->|Hn]; [by rewrite upd_eq in Hd|]. apply Hn. rewrite <- E. auto.
Qed.

(** The two writes of [release]. *)
Lemma lock_inv_clear lk l at_ held c : lock_inv lk l at_ held -> at_ c = RClear l ->
  lock_inv (set_lk_cpu None lk) l (upd at_ c (RSwap l)) held.
Proof.
  intros [H1 H2 H3 H4 H5 H6 H7] Hc. assert (Hh : l ∈ held c) by auto.
  constructor; cbn [lk_locked lk_cpu set_lk_cpu]; [done|..].
  - intros d Hd. by apply (H2 c); left.
  - intros _. exists c. by left.
  - intros d e Hd He. apply H4.
    + destruct (decide (d = c)) as [->|]; [by left|by rewrite upd_ne in Hd].
    + destruct (decide (e = c)) as [->|]; [by left|by rewrite upd_ne in He].
  - intros d. split; [done|]. intros [Hd Hn]. rewrite (H4 d c (or_introl Hd) (or_introl Hh)), upd_eq in Hn. done.
  - intros d. destruct (decide (d = c)) as [->|Hd]; [done|]. rewrite !upd_ne by done. apply H6.
  - intros d. destruct (decide (d = c)) as [->|Hd]; [by rewrite upd_eq|]. rewrite !upd_ne by done. apply H7.
Qed.

Lemma lock_inv_drop lk l at_ held c q : lock_inv lk l at_ held -> at_ c = RSwap l -> (forall k, q <> ASetCpu k /\ q <> RClear k /\ q <> RSwap k) ->
  lock_inv (set_locked 0 lk) l (upd at_ c q) (upd held c (list_difference (held c) [l])).
Proof.
  intros [H1 H2 H3 H4 H5 H6 H7] Hc Hq. assert (Hh : l ∈ held c) by auto.
  assert (Hno : forall d, l ∉ upd held c (list_difference (held c) [l]) d).
  { intros d. destruct (decide (d = c)) as [->|Hn]; [rewrite upd_eq; rewrite list_elem_of_difference; set_solver|].
    rewrite upd_ne by done. intros Hd. apply Hn, (H4 d c); auto. }
  assert (Hnp : forall d, upd at_ c q d <> ASetCpu l).
  { intros d. destruct (decide (d = c)) as [->|Hn]; [rewrite upd_eq; apply Hq|]. rewrite upd_ne by done.
    intros Hd. apply Hn, (H4 d c); auto. }
  assert (Hnr : forall d, ~ (upd at_ c q d = RClear l \/ upd at_ c q d = RSwap l)).
  { intros d. destruct (decide (d = c)) as [->|Hn]; [rewrite upd_eq; destruct (Hq l); naive_solver|]. rewrite upd_ne by done.
    intros Hd. apply Hn, (H4 d c); auto. }
  constructor; cbn [lk_locked lk_cpu set_locked].
  - by left.
  - intros d Hd. exfalso. destruct Hd as [Hd|Hd]; [by apply (Hno d)|by apply (Hnp d)].
  - lia.
  - intros d e Hd. exfalso. destruct Hd as [Hd|Hd]; [by apply (Hno d)|by apply (Hnp d)].
  - intros d. split.
    + rewrite H5. intros [Hd Hr]. exfalso. apply Hr. rewrite (H4 d c); auto.
    + intros [Hd _]. exfalso. by apply (Hno d).
  - intros d Hd. exfalso. by apply (Hnr d).
  - intros d _. apply Hno.
Qed.

(** Another lock does not see that a CPU gains or loses [k]. *)
Lemma lock_inv_other lk l at_ held c h : lock_inv lk l at_ held -> (l ∈ h <-> l ∈ held c) -> lock_inv lk l at_ (upd held c h).
Proof.
  intros [H1 H2 H3 H4 H5 H6 H7] Hh.
  assert (E : forall d, l ∈ upd held c h d <-> l ∈ held d).
  { intros d. destruct (decide (d = c)) as [->|Hd]; [by rewrite upd_eq|by rewrite upd_ne]. }
  constructor; [done|..].
  - intros d. rewrite E. apply H2.
  - intros Hl. destruct (H3 Hl) as [d Hd]. exists d. by rewrite E.
  - intros d e. rewrite !E. apply H4.
  - intros d. rewrite H5, E. done.
  - intros d. rewrite E. apply H6.
  - intros d. rewrite E. apply H7.
Qed.

(** Reassembling the invariant after CPU [c] has moved. *)
Lemma inv_intro s s' c :
  inv s ->
  (forall d, d <> c -> m_cpu s' d = m_cpu s d /\ m_at s' d = m_at s d /\ m_held s' d = m_held s d /\ m_offs s' d = m_offs s d) ->
  (forall l, lock_inv (m_lk s' l) l (m_at s') (m_held s')) -> NoDup (m_held s' c) ->
  cpu_inv (m_cpu s' c) (m_at s' c) (m_held s' c) (m_offs s' c) ->
  inv s'.
Proof.
  intros (_ & Hd & Hc) Ho Hl Hn Hx. split_and!; [done|..]; intros d; destruct (decide (d = c)) as [->|Hne]; try done;
    destruct (Ho d Hne) as (E1 & E2 & E3 & E4); rewrite ?E1, ?E2, ?E3, ?E4; done.
Qed.

(** A CPU that only moves on. *)
Lemma goto_inv s c p : inv s -> nest p = nest (m_at s c) ->
  (forall l, p <> ASetCpu l /\ p <> RSwap l /\ m_at s c <> ASetCpu l /\ m_at s c <> RSwap l) ->
  (forall l, p = RClear l -> l ∈ m_held s c) -> inv (put_at c p s).
Proof.
  intros Hi Hn Hp Hr. pose proof Hi as (Hl & Hd & Hc). apply (inv_intro s _ c); [done|..].
  - intros d Hne. cbn. by rewrite upd_ne.
  - intros l. cbn. destruct (Hp l) as (P1 & P2 & P3 & P4). apply lock_inv_move; [apply Hl|done..|apply Hr].
  - apply Hd.
  - cbn. rewrite upd_eq. destruct (Hc c) as [X1 X2 X3 X4]. constructor; [by rewrite Hn|done..].
Qed.

Lemma acquire_step_inv s s' c : inv s -> acquire_step c (m_at s c) s = Ret tt s' -> inv s'.
Proof.
  intros Hi. pose proof Hi as (Hl & Hd & Hc). unfold acquire_step, goto. mstep. destruct (m_at s c) as [|l|l|l|l|l|l|l|l|l] eqn:Ha; try by intros [= <-].
  - intros [= <-]. apply goto_inv; [done|..]; rewrite ?Ha; destruct (_ =? _); done.
  - destruct (bool_decide _); [done|]. intros [= <-]. apply goto_inv; rewrite ?Ha; done.
  - mstep. destruct (Z.eqb_spec (lk_locked (m_lk s l)) 0) as [H0|H0]; intros [= <-].
    + apply (inv_intro s _ c); [done|..]; cbn.
      * intros d Hne. by rewrite upd_ne.
      * intros k. destruct (decide (k = l)) as [->|Hk]; [rewrite upd_eq; by apply lock_inv_take|]. rewrite upd_ne by done.
        apply lock_inv_move; [apply Hl|rewrite Ha; split; congruence..|done].
      * apply Hd.
      * rewrite upd_eq. pose proof (Hc c) as [X1 X2 X3 X4]. rewrite Ha in X1. by constructor.
    + assert (E : put_lk l (set_locked 1 (m_lk s l)) s = mk_m (upd (m_lk s) l (m_lk s l)) (m_cpu s) (m_at s) (m_held s) (m_offs s)).
      { unfold put_lk. destruct (li_bit _ _ _ _ (Hl l)) as [|H1]; [done|]. unfold set_locked. rewrite <- H1. by destruct (m_lk s l). }
      rewrite E. apply (inv_intro s _ c); [done|..]; cbn.
      * intros d Hne. by rewrite upd_ne.
      * intros k. assert (upd (m_lk s) l (m_lk s l) k = m_lk s k) as -> by (destruct (decide (k = l)) as [->|]; [apply upd_eq|by apply upd_ne]).
        apply lock_inv_move; [apply Hl|by rewrite Ha..|done].
      * apply Hd.
      * rewrite upd_eq. pose proof (Hc c) as [X1 X2 X3 X4]. rewrite Ha in X1. by constructor.
  - mstep. intros [= <-]. apply (inv_intro s _ c); [done|..]; cbn.
    + intros d Hne. by rewrite !upd_ne.
    + intros k. destruct (decide (k = l)) as [->|Hk]; [rewrite upd_eq; by apply lock_inv_set|]. rewrite upd_ne by done.
      apply lock_inv_other; [|rewrite elem_of_cons; naive_solver]. apply lock_inv_move; [apply Hl|rewrite Ha; split; congruence..|done].
    + rewrite upd_eq. constructor; [|apply Hd]. by apply (li_new _ _ _ _ (Hl l)).
    + rewrite !upd_eq. pose proof (Hc c) as [X1 X2 X3 X4]. rewrite Ha in X1. cbn in X1. constructor; [cbn; lia|done..].
Qed.

Lemma length_minus_one (h : list Z) l : NoDup h -> l ∈ h -> Z.of_nat (length (list_difference h [l])) = Z.of_nat (length h) - 1.
Proof.
  intros Hn Hl. assert (P : l :: list_difference h [l] ≡ₚ h).
  { apply NoDup_Permutation; [|done|].
    - constructor; [rewrite list_elem_of_difference; set_solver|by apply NoDup_list_difference].
    - intros x. rewrite elem_of_cons, list_elem_of_difference, elem_of_cons. destruct (decide (x = l)) as [->|]; set_solver. }
  apply Permutation_length in P. cbn in P. lia.
Qed.

Lemma release_step_inv s s' c : inv s -> release_step c (m_at s c) s = Ret tt s' -> inv s'.
Proof.
  intros Hi. pose proof Hi as (Hl & Hd & Hc). unfold release_step, goto. mstep. destruct (m_at s c) as [|l|l|l|l|l|l|l|l|l] eqn:Ha; try by intros [= <-].
  - destruct (_ =? _); [done|]. intros [= <-]. apply goto_inv; rewrite ?Ha; done.
  - destruct (bool_decide_reflect (lk_cpu (m_lk s l) = Some c)) as [Hb|]; [|done]. intros [= <-]. apply (li_cpu _ _ _ _ (Hl l)) in Hb as [Hb _].
    apply goto_inv; rewrite ?Ha; try done. by intros k [= <-].
  - mstep. intros [= <-]. apply (inv_intro s _ c); [done|..]; cbn.
    + intros d Hne. by rewrite upd_ne.
    + intros k. destruct (decide (k = l)) as [->|Hk]; [rewrite upd_eq; by apply lock_inv_clear|]. rewrite upd_ne by done.
      apply lock_inv_move; [apply Hl|rewrite Ha; split; congruence..|done].
    + apply Hd.
    + rewrite upd_eq. pose proof (Hc c) as [X1 X2 X3 X4]. rewrite Ha in X1. by constructor.
  - mstep. intros [= <-]. assert (Hh : l ∈ m_held s c) by (apply (li_rel _ _ _ _ (Hl l)); auto). apply (inv_intro s _ c); [done|..]; cbn.
    + intros d Hne. by rewrite !upd_ne.
    + intros k. destruct (decide (k = l)) as [->|Hk]; [rewrite upd_eq; by apply lock_inv_drop|]. rewrite upd_ne by done.
      apply lock_inv_other; [|rewrite list_elem_of_difference; set_solver]. apply lock_inv_move; [apply Hl|rewrite Ha; split; congruence..|done].
    + rewrite upd_eq. apply NoDup_list_difference, Hd.
    + rewrite !upd_eq. pose proof (Hc c) as [X1 X2 X3 X4]. rewrite Ha in X1. cbn in X1. constructor; [|done..].
      rewrite length_minus_one by auto. cbn. lia.
  - pose proof (Hc c) as [X1 X2 X3 X4]. rewrite Ha in X1. cbn in X1.
    unfold on_cpu, bind, zoom. rewrite pop_off_eq by (try apply X4; lia). intros [= <-]. apply (inv_intro s _ c); [done|..]; cbn.
    + intros d Hne. by rewrite !upd_ne.
    + intros k. apply lock_inv_move; [apply Hl|by rewrite Ha..|done].
    + apply Hd.
    + rewrite !upd_eq. constructor; cbn; [lia|done|lia|]. intros Hn. by replace (c_noff (m_cpu s c) =? 1) with false by lia.
Qed.

(** A change of the registers of a CPU that is outside the lock functions. *)
Lemma regs_inv s c x offs : inv s -> m_at s c = Out -> cpu_inv x Out (m_held s c) offs ->
  inv (put_offs c offs (put_cpu c x s)).
Proof.
  intros Hi Ha Hx. pose proof Hi as (Hl & Hd & Hc). apply (inv_intro s _ c); [done|..]; cbn.
  - intros d Hne. by rewrite !upd_ne.
  - done.
  - apply Hd.
  - by rewrite !upd_eq, Ha.
Qed.

Lemma regs_only_inv s c x : inv s -> m_at s c = Out -> cpu_inv x Out (m_held s c) (m_offs s c) -> inv (put_cpu c x s).
Proof.
  intros Hi Ha Hx. pose proof Hi as (Hl & Hd & Hc). apply (inv_intro s _ c); [done|..]; cbn.
  - intros d Hne. by rewrite !upd_ne.
  - done.
  - apply Hd.
  - by rewrite !upd_eq, Ha.
Qed.

Lemma acquire_inv s s' c l : inv s -> m_at s c = Out -> c_noff (m_cpu s c) < 2 ^ 31 - 3 -> acquire c l s = Ret tt s' -> inv s'.
Proof.
  intros Hi Ha Hm H. pose proof Hi as (Hl & Hd & Hc). pose proof (Hc c) as [X1 X2 X3 X4]. rewrite Ha in X1. cbn in X1.
  unfold acquire, on_cpu, bind, zoom in H. rewrite push_off_eq in H by (split; [lia|done]). injection H as <-.
  apply (inv_intro s _ c); [done|..]; cbn.
  - intros d Hne. by rewrite !upd_ne.
  - intros k. apply lock_inv_move; [apply Hl|by rewrite Ha..|done].
  - apply Hd.
  - rewrite !upd_eq. constructor; cbn; [lia|done|lia|done].
Qed.

Lemma client_inv s s' c : inv s -> m_at s c = Out -> client c s s' -> inv s'.
Proof.
  intros Hi Ha Hcl. pose proof Hi as (_ & _ & Hc). pose proof (Hc c) as [X1 X2 X3 X4]. rewrite Ha in X1. cbn in X1.
  destruct Hcl as [s s' l Hm H|s s' l H|s s' Hm H|s s' Hm H|s Hm|s|s b Hm].
  - by eapply acquire_inv.
  - unfold release, goto in H. injection H as <-. apply goto_inv; rewrite ?Ha; done.
  - unfold on_cpu, zoom in H. rewrite push_off_eq in H by (split; [lia|done]). injection H as <-.
    apply regs_inv; [done..|]. constructor; cbn; [lia|lia|lia|done].
  - unfold on_cpu, zoom in H. rewrite pop_off_eq in H by (try apply X4; lia). injection H as <-.
    apply regs_inv; [done..|]. constructor; cbn; [lia|lia|lia|]. intros Hn. by replace (c_noff (m_cpu s c) =? 1) with false by lia.
  - apply regs_only_inv; [done..|]. constructor; cbn; lia.
  - apply regs_only_inv; [done..|]. constructor; cbn; [lia|lia|lia|done].
  - apply regs_only_inv; [done..|]. constructor; cbn; [lia|lia|lia|done].
Qed.

Lemma lock_step_inv s s' : inv s -> step s s' -> inv s'.
Proof.
  intros Hi Hst. revert Hi. destruct Hst as [c s1 s2 Ha H|c s1 s2 Ha H]; intros Hi.
  - unfold turn in H. revert H. mstep. destruct (in_acquire _); [by apply acquire_step_inv|by apply release_step_inv].
  - by eapply client_inv.
Qed.

Lemma lock_reachable s0 s : boot s0 -> star step s0 s -> inv s.
Proof. intros Hb Hs. eapply star_invariant; [intros a b Ha Hab; by eapply lock_step_inv|by apply boot_lock_inv|exact Hs]. Qed.

Lemma holding_exact s c l : inv s -> m_at s c = Out -> holding c l s = bool_decide (l ∈ m_held s c).
Proof.
  intros (Hl & _ & _) Ha. unfold holding. destruct (Hl l) as [H1 H2 _ _ H5 _ _]. destruct (bool_decide_reflect (l ∈ m_held s c)) as [Hh|Hh].
  - rewrite (H2 c) by auto. rewrite bool_decide_eq_true_2; [done|]. apply H5. by rewrite Ha.
  - rewrite (bool_decide_eq_false_2 (lk_cpu _ = _)), andb_false_r; [done|]. rewrite H5. naive_solver.
Qed.

(** The two calls that are refused. *)
Lemma turn_panics s c msg s' : inv s -> m_at s c <> Out -> turn c s = Panic msg s' ->
  exists l, (msg = "acquire" /\ m_at s c = AHoldCpu l /\ l ∈ m_held s c) \/
            (msg = "release" /\ (m_at s c = RHold l \/ m_at s c = RHoldCpu l) /\ l ∉ m_held s c).
Proof.
  intros (Hl & Hd & Hc) Ha. unfold turn. mstep. pose proof (Hc c) as [X1 X2 X3 X4].
  destruct (m_at s c) as [|l|l|l|l|l|l|l|l|l] eqn:Hp; cbn [in_acquire]; unfold acquire_step, release_step, goto; mstep; try done.
  - destruct (bool_decide_reflect (lk_cpu (m_lk s l) = Some c)) as [Hb|Hb]; [|done]. intros [= <- <-]. exists l. left.
    split; [done|]. split; [done|]. by apply (li_cpu _ _ _ _ (Hl l)) in Hb as [Hb _].
  - by destruct (_ =? _).
  - destruct (Z.eqb_spec (lk_locked (m_lk s l)) 0) as [H0|]; [|done]. intros [= <- <-]. exists l. right. split; [done|]. split; [auto|].
    intros Hh. rewrite (li_own _ _ _ _ (Hl l) c) in H0 by auto. done.
  - destruct (bool_decide_reflect (lk_cpu (m_lk s l) = Some c)) as [Hb|Hb]; [done|]. intros [= <- <-]. exists l. right.
    split; [done|]. split; [auto|]. intros Hh. apply Hb, (li_cpu _ _ _ _ (Hl l)). by rewrite Hp.
  - cbn in X1. unfold on_cpu, bind, zoom. rewrite pop_off_eq by (try apply X4; lia). done.
Qed.

Lemma turn_total s c : inv s -> (exists s', turn c s = Ret tt s') \/ (exists msg s', turn c s = Panic msg s').
Proof.
  intros (Hl & Hd & Hc). unfold turn. mstep. pose proof (Hc c) as [X1 X2 X3 X4].
  destruct (m_at s c) as [|l|l|l|l|l|l|l|l|l] eqn:Hp; cbn [in_acquire]; unfold acquire_step, release_step, goto; mstep;
    repeat match goal with |- context [if ?b then _ else _] => destruct b end; eauto.
  cbn in X1. left. unfold on_cpu, bind, zoom. rewrite pop_off_eq by (try apply X4; lia). eauto.
Qed.

(** C4: however several CPUs interleave the instructions of [acquire] and
    [release], from initialised locks: a lock has at most one owner; the owner
    runs with interrupts off, so no interrupt handler on its CPU can try to
    take the lock again; [holding] tells a CPU exactly whether it holds the
    lock, although the owner may change while the fields are read; a CPU that
    spins on a lock nobody owns gets it with its next swap; no instruction
    gets stuck, and the only panics are an [acquire] by the holder and a
    [release] by a CPU that does not hold the lock; and a CPU with no lock held
    and no [push_off] open is at depth 0. *)
Theorem spinlock_excludes s0 s : boot s0 -> star step s0 s ->
  (forall l c d, owns s c l -> owns s d l -> c = d) /\
  (forall c l, owns s c l -> c_sie (m_cpu s c) = false) /\
  (forall c l, m_at s c = Out -> holding c l s = bool_decide (l ∈ m_held s c)) /\
  (forall c l, m_at s c = ASpin l -> (forall d, ~ owns s d l) -> exists s', turn c s = Ret tt s' /\ owns s' c l) /\
  (forall c, m_at s c <> Out -> (exists s', turn c s = Ret tt s') \/
     exists msg s' l, turn c s = Panic msg s' /\
       ((msg = "acquire" /\ m_at s c = AHoldCpu l /\ l ∈ m_held s c) \/
        (msg = "release" /\ (m_at s c = RHold l \/ m_at s c = RHoldCpu l) /\ l ∉ m_held s c))) /\
  (forall c, m_at s c = Out -> m_held s c = [] -> m_offs s c = 0 -> c_noff (m_cpu s c) = 0).
Proof.
  intros Hb Hs. pose proof (lock_reachable s0 s Hb Hs) as Hi. pose proof Hi as (Hl & Hd & Hc). split_and!.
  - intros l c d Ho1 Ho2. by apply (li_one _ _ _ _ (Hl l)).
  - intros c l Ho. destruct (Hc c) as [X1 X2 X3 X4]. apply X4. destruct Ho as [Ho|Ho].
    + destruct (m_held s c) as [|h hs]; [by apply elem_of_nil in Ho|]. cbn in X1. destruct (m_at s c); cbn in X1; lia.
    + rewrite Ho in X1. cbn in X1. lia.
  - intros c l Ha. by apply holding_exact.
  - intros c l Ha Hno. unfold turn. mstep. rewrite Ha. cbn [in_acquire]. unfold acquire_step, goto. mstep.
    assert (lk_locked (m_lk s l) = 0) as ->.
    { destruct (li_bit _ _ _ _ (Hl l)) as [|H1]; [done|]. destruct (li_free _ _ _ _ (Hl l) H1) as [d Ho]. by destruct (Hno d). }
    eexists. split; [done|]. right. apply upd_eq.
  - intros c Ha. destruct (turn_total s c Hi) as [?|(msg & s' & Hp)]; [by left|]. right. exists msg, s'.
    destruct (turn_panics s c msg s' Hi Ha Hp) as [l Hx]. by exists l.
  - intros c Ha Hh Ho. destruct (Hc c) as [X1 _ _ _]. rewrite Ha, Hh, Ho in X1. exact X1.
Qed.

(** Two CPUs; CPU 0 has taken lock 7 and CPU 1 spins on it. *)
Definition demo_boot : machine :=
  mk_m (fun _ => initlock "demo" (mk_lk 0 "" None)) (fun _ => mk_cpu 0 false true) (fun _ => Out) (fun _ => []) (fun _ => 0).

Definition demo1 : machine := final (acquire 0 7 demo_boot).
Definition demo2 : machine := final (acquire 1 7 demo1).
Definition demo3 : machine := final (turn 0 demo2).
Definition demo4 : machine := final (turn 1 demo3).
Definition demo5 : machine := final (turn 0 demo4).
Definition demo6 : machine := final (turn 1 demo5).
Definition demo_end : machine := final (turn 0 demo6).

Lemma demo_lock_boot : boot demo_boot.
Proof. split; [intros l; by exists (mk_lk 0 "" None), "demo"|done]. Qed.
Lemma demo_run : star step demo_boot demo_end.
Proof.
  assert (A : forall c l s, m_at s c = Out -> c_noff (m_cpu s c) < 2 ^ 31 - 3 -> returned (acquire c l s) = true -> step s (final (acquire c l s))).
  { intros c l s Ha Hn He. apply (step_client c); [done|]. apply (cl_acquire c _ _ l); [done|]. by apply returned_tt. }
  assert (T : forall c s, m_at s c <> Out -> returned (turn c s) = true -> step s (final (turn c s))).
  { intros c s Ha He. apply (step_turn c); [done|]. by apply returned_tt. }
  apply (star_next _ _ demo1); [by apply A|]. apply (star_next _ _ demo2); [by apply A|]. apply (star_next _ _ demo3); [by apply T|].
  apply (star_next _ _ demo4); [by apply T|]. apply (star_next _ _ demo5); [by apply T|]. apply (star_next _ _ demo6); [by apply T|].
  apply (star_next _ _ demo_end); [by apply T|]. apply star_refl.
Qed.

Lemma spinlock_excludes_witness : owns demo_end 0 7 /\ m_at demo_end 1 = ASpin 7 /\ forall d, owns demo_end d 7 -> 0 = d.
Proof.
  assert (Ho : owns demo_end 0 7) by (left; by left). split; [exact Ho|]. split; [done|]. intros d.
  exact (proj1 (spinlock_excludes demo_boot demo_end demo_lock_boot demo_run) 7 0 d Ho).
Defined.

(** * Nested calls *)

(** Matched sequences of [push_off] ([true]) and [pop_off] ([false]). *)
Inductive matched : list bool -> Prop :=
| m_nil : matched []
| m_seq k k' : matched k -> matched k' -> matched (true :: k ++ false :: k').

Fixpoint offs (k : list bool) : M cpu unit :=
  match k with
  | [] => ret tt
  | b :: k => (if b then push_off else pop_off) ;;; offs k
  end.

Lemma offs_app k k' c c1 : offs k c = Ret tt c1 -> offs (k ++ k') c = offs k' c1.
Proof.
  revert c. induction k as [|b k IH]; intros c; cbn [offs app]; [by intros [= <-]|].
  intros H. apply bind_inv in H as (u & c2 & H2 & H). destruct u. rewrite (bind_ret _ _ _ _ _ H2). by apply IH.
Qed.

(** Matched calls leave the interrupts as they were, and never panic. *)
Lemma push_pop_matched k c : matched k -> cpu_ok c -> c_noff c + Z.of_nat (length k) < 2 ^ 31 - 1 ->
  exists c', offs k c = Ret tt c' /\ c_noff c' = c_noff c /\ c_sie c' = c_sie c /\ (0 < c_noff c -> c_intena c' = c_intena c).
Proof.
  intros Hk. revert c. induction Hk as [|k k' Hk IH Hk' IH']; intros c Hc Hb.
  - by exists c.
  - cbn [offs length] in *. rewrite length_app in Hb. cbn [length] in Hb. rewrite (bind_ret _ _ _ _ _ (push_off_eq c Hc)).
    pose proof Hc as [Hn Hs].
    destruct (IH (mk_cpu (c_noff c + 1) (if c_noff c =? 0 then c_sie c else c_intena c) false)) as (c1 & E1 & N1 & S1 & I1);
      [split; cbn; [lia|done]|cbn; lia|]. cbn in N1, S1, I1. rewrite (offs_app _ _ _ _ E1). cbn [offs].
    rewrite (bind_ret _ _ _ _ _ (pop_off_eq c1 ltac:(lia) S1)).
    destruct (IH' (mk_cpu (c_noff c1 - 1) (c_intena c1) ((c_noff c1 =? 1) && c_intena c1))) as (c2 & E2 & N2 & S2 & I2); cbn in *.
    { split; cbn; [lia|]. intros Hp. by replace (c_noff c1 =? 1) with false by lia. }
    { lia. }
    exists c2. split; [done|]. split; [lia|]. rewrite S2, N1, I1 by lia. destruct (Z.eqb_spec (c_noff c) 0) as [H0|H0].
    + rewrite H0. split; [done|]. intros; lia.
    + replace (c_noff c + 1 =? 1) with false by lia. split; [symmetry; apply Hs; lia|]. intros Hp. rewrite I2, I1 by lia. done.
Qed.
