(* ===== verification/Sleeplock.v ===== *)
(** Sleep locks ([kernel/sleeplock.c]) over the process table: a process that
    finds the lock taken goes to sleep on it, and releasing it wakes all
    sleepers.  A section under the spin lock [lk->lk] is one step. *)
From S2P Require Import Prelude Riscv Kalloc Vm Uvm FileLayer Paging Proc ProcClaims.
Open Scope kern_scope.

(** [struct sleeplock] without its spin lock. *)
Record sleeplock := mk_sl { sl_locked : Z; sl_name : string; sl_pid : Z }.

Definition initsleeplock (name : string) (lk : sleeplock) : sleeplock := mk_sl 0 name 0.

(** A pass of the loop of [acquiresleep] gets the lock or puts the process to
    sleep. *)
Inductive sl_turn := Got | Slept.

Section Sleeplock.
Context {LAY : Layout} {FL : FileLayer} {FR : FileRefs}.
(** The address of the lock, its wait channel. *)
Context (lka : Z).

Definition slsys : Type := sys * sleeplock.
Definition on_sys {A} (m : M sys A) : M slsys A := zoom fst (fun s x => (s, snd x)) m.
Definition pid_of (s : sys) (i : Z) : Z := p_pid (pe_vm (s_proc s i)).

Definition acquiresleep (c me : Z) : M slsys sl_turn :=
  do x <- get;
  if negb (sl_locked (snd x) =? 0) then on_sys (sleep c me (ChAddr lka)) ;;; ret Slept
  else
    modify (fun x => (fst x, mk_sl 1 (sl_name (snd x)) (sl_pid (snd x)))) ;;;
    modify (fun x => (fst x, mk_sl (sl_locked (snd x)) (sl_name (snd x)) (pid_of (fst x) me))) ;;;
    ret Got.

Definition releasesleep (me : Z) : M slsys unit :=
  modify (fun x => (fst x, mk_sl 0 (sl_name (snd x)) 0)) ;;;
  on_sys (wakeup (Some me) (ChAddr lka)).

Definition holdingsleep (me : Z) : M slsys bool :=
  gets (fun x => negb (sl_locked (snd x) =? 0) && (sl_pid (snd x) =? pid_of (fst x) me)).

(** * Steps *)

(** What happened to the lock so far, by the pid of the process. *)
Inductive sl_event := Acq (pid : Z) | Rel (pid : Z).

(** Process [i] sleeps on the lock. *)
Definition waits (s : sys) (i : Z) : Prop := pe_state (s_proc s i) = SLEEPING /\ pe_chan (s_proc s i) = Some (ChAddr lka).

(** A running process calls [acquiresleep], or goes on with its loop after it
    was woken; the holder calls [releasesleep] (its callers check
    [holdingsleep] first); or anything else happens to the process table,
    where only [acquiresleep] sleeps on the lock. *)
Inductive sl_step : slsys * list sl_event -> slsys * list sl_event -> Prop :=
| sl_acquire x x' tr c me r : on_cpu (fst x) c me -> acquiresleep c me x = Ret r x' ->
    sl_step (x, tr) (x', match r with Got => tr ++ [Acq (pid_of (fst x) me)] | Slept => tr end)
| sl_release x x' tr c me : on_cpu (fst x) c me -> holdingsleep me x = Ret true x -> releasesleep me x = Ret tt x' ->
    sl_step (x, tr) (x', tr ++ [Rel (pid_of (fst x) me)])
| sl_other s s' lk tr : step s s' -> (forall i, inr i -> waits s' i -> waits s i) -> sl_step (s, lk, tr) (s', lk, tr).

(** The holder after a sequence of events that starts with holder [o]; [None]
    when an event takes a lock that is held, or releases one that the process
    does not hold. *)
Fixpoint holder (tr : list sl_event) (o : option Z) : option (option Z) :=
  match tr, o with
  | [], _ => Some o
  | Acq p :: tr, None => holder tr (Some p)
  | Rel p :: tr, Some q => if p =? q then holder tr None else None
  | _, _ => None
  end.

Lemma holder_app tr tr' o : holder (tr ++ tr') o = match holder tr o with Some o' => holder tr' o' | None => None end.
Proof.
  revert o. induction tr as [|e tr IH]; intros o; [done|]. destruct e as [p|p], o as [q|]; cbn; try done.
  destruct (p =? q); [apply IH|done].
Qed.

(** Who the fields of the lock say holds it. *)
Definition says (lk : sleeplock) : option Z := if sl_locked lk =? 0 then None else Some (sl_pid lk).

Definition sl_inv (x : slsys) (tr : list sl_event) : Prop :=
  full_inv (fst x) /\ holder tr None = Some (says (snd x)) /\
  (sl_locked (snd x) = 0 -> forall i, inr i -> ~ waits (fst x) i).

Lemma acquiresleep_inv x x' tr c me r : sl_inv x tr -> on_cpu (fst x) c me -> acquiresleep c me x = Ret r x' ->
  sl_inv x' (match r with Got => tr ++ [Acq (pid_of (fst x) me)] | Slept => tr end) /\
  (r = Got <-> sl_locked (snd x) = 0).
Proof.
  intros (Hf & Hh & Hw) Hc. unfold acquiresleep. mstep. destruct x as [s lk]. cbn [fst snd] in *.
  destruct (Z.eqb_spec (sl_locked lk) 0) as [H0|H0]; cbn [negb].
  - mstep. intros [= <- <-]. split; [|done]. unfold sl_inv. cbn [fst snd sl_locked]. split; [done|]. split; [|done].
    rewrite holder_app, Hh. unfold says. by rewrite H0.
  - destruct (sleep_ends c me (ChAddr lka) s) as [s1 H1]. unfold on_sys, bind, zoom. cbn [fst]. rewrite H1. intros [= <- <-].
    split; [|split; [done|lia]]. unfold sl_inv. cbn [fst snd]. split; [|done]. eapply step_inv; [|exact Hf]. by eapply step_sleep.
Qed.

Lemma releasesleep_inv x x' tr c me : sl_inv x tr -> on_cpu (fst x) c me -> holdingsleep me x = Ret true x ->
  releasesleep me x = Ret tt x' -> sl_inv x' (tr ++ [Rel (pid_of (fst x) me)]) /\
  (forall i, inr i -> waits (fst x) i -> pe_state (s_proc (fst x') i) = RUNNABLE).
Proof.
  intros (Hf & Hh & Hw) Hc Hold. destruct x as [s lk]. cbn [fst snd] in *. unfold holdingsleep, gets in Hold. cbn [fst snd] in Hold.
  injection Hold as Hold. apply andb_true_iff in Hold as [HL HP]. apply negb_true_iff in HL. apply Z.eqb_eq in HP.
  unfold releasesleep. mstep. destruct (wakeup_eq (Some me) (ChAddr lka) s) as (s1 & H1 & F1 & P1).
  unfold on_sys, zoom. cbn [fst]. rewrite H1. intros [= <-]. destruct (on_cpu_running s c me) as [Hme Hrun]; [apply Hf|done|].
  assert (Hwk : forall i, inr i -> waits s i -> pe_state (s_proc s1 i) = RUNNABLE).
  { intros i Hi [W1 W2]. rewrite P1. unfold waken. rewrite (proj2 (in_table_inr i) Hi), bool_decide_eq_false_2, bool_decide_eq_true_2; [done|done|].
    intros [= ->]. unfold view, core in Hrun. cbn in Hrun. congruence. }
  split; [|exact Hwk]. unfold sl_inv. cbn [fst snd sl_locked]. split.
  - eapply step_inv; [|exact Hf]. by eapply step_wakeup.
  - split.
    + rewrite holder_app, Hh. unfold says at 1. rewrite HL. cbn. by rewrite <- HP, Z.eqb_refl.
    + intros _ i Hi Hwt. assert (Hwi : waits s i).
      { destruct Hwt as [W1 W2]. rewrite P1 in W1, W2. unfold waken in W1, W2. by destruct (_ && _ && _) in W1, W2. }
      pose proof (Hwk i Hi Hwi) as Hr. destruct Hwt as [W1 _]. cbn in W1. congruence.
Qed.

Lemma sl_step_inv x x' : sl_step x x' -> sl_inv (fst x) (snd x) -> sl_inv (fst x') (snd x').
Proof.
  intros Hst. destruct Hst as [x x' tr c me r Hc H|x x' tr c me Hc Hh H|s s' lk tr Hst Hw]; cbn [fst snd]; intros Hi.
  - by eapply acquiresleep_inv.
  - by eapply releasesleep_inv.
  - destruct Hi as (Hf & Hh & Hn). split; [|split; [done|]]; cbn [fst snd] in *.
    + by eapply step_inv.
    + intros H0 i Hi Hx. apply (Hn H0 i Hi), Hw; done.
Qed.

(** The running process takes a free lock. *)
Lemma take_free_lock s lk tr c me : on_cpu s c me -> sl_locked lk = 0 ->
  sl_step (s, lk, tr) (s, mk_sl 1 (sl_name lk) (pid_of s me), tr ++ [Acq (pid_of s me)]).
Proof.
  intros Hc H0. apply (sl_acquire (s, lk) _ tr c me Got); [done|]. unfold acquiresleep. mstep. cbn [snd]. by rewrite H0.
Qed.

(** A scheduler puts nobody to sleep. *)
Lemma scheduler_no_sleeper c s s' i : scheduler_step c s = Ret tt s' -> waits s' i -> waits s i.
Proof.
  intros He [W1 W2]. unfold scheduler_step in He. apply bind_inv in He as (t & s3 & [= <- <-] & He). apply bind_inv in He as (u & s3 & [= <- <-] & He).
  destruct (bool_decide _).
  - apply bind_inv in He as (u & s4 & H4 & [= <-]). apply setp_ret in H4 as (_ & O4 & P4). cbn in W1, W2.
    destruct (decide (i = s_scan s c)) as [->|Hne]; [rewrite P4 in W1; discriminate|]. rewrite O4 in W1, W2 by done. done.
  - injection He as <-. done.
Qed.

(** After boot nobody sleeps. *)
Lemma boot_no_sleeper s0 s1 i : bss_zero s0 -> (procinit ;;; userinit) s0 = Ret tt s1 -> inr i -> ~ waits s1 i.
Proof.
  intros (Hz & Hn & _) H Hi [Hw _]. destruct (procinit_eq s0) as (s2 & H2 & [D1 _ _ _] & P2). rewrite (bind_ret _ _ _ _ _ H2) in H.
  apply userinit_ret in H as (j & k & Hj & O & V & _).
  - destruct (decide (i = j)) as [->|Hne].
    + apply (f_equal c_state) in V. unfold view, core in V. cbn in V. congruence.
    + rewrite O, P2 in Hw by done. done.
  - intros l Hl. unfold view, core. cbn. rewrite P2 by done. cbn. by destruct (Hz l Hl) as (-> & -> & _).
  - congruence.
Qed.

(** C21: from boot with an initialised lock, whatever the processes do: the
    events of the lock alternate, each process that acquires it releasing it
    before any other gets it, and the fields of the lock name the holder; no
    wakeup is lost: while the lock is free, nobody sleeps on it; a process that
    asks for the lock gets it exactly when it is free; and a release makes every
    process that sleeps on the lock runnable again. *)
Theorem sleeplock_excludes s0 s1 name lk0 x tr :
  bss_zero s0 -> (procinit ;;; userinit) s0 = Ret tt s1 ->
  star sl_step (s1, initsleeplock name lk0, []) (x, tr) ->
  holder tr None = Some (says (snd x)) /\
  (sl_locked (snd x) = 0 -> forall i, inr i -> ~ waits (fst x) i) /\
  (forall c me, on_cpu (fst x) c me ->
     exists r x', acquiresleep c me x = Ret r x' /\ (r = Got <-> sl_locked (snd x) = 0)) /\
  (forall c me, on_cpu (fst x) c me -> holdingsleep me x = Ret true x ->
     exists x', releasesleep me x = Ret tt x' /\ sl_locked (snd x') = 0 /\
       forall i, inr i -> waits (fst x) i -> pe_state (s_proc (fst x') i) = RUNNABLE).
Proof.
  intros Hz Hb Hst.
  assert (Hi : sl_inv x tr).
  { eapply (star_invariant sl_step (fun y => sl_inv (fst y) (snd y)) _ (x, tr)); [|..|exact Hst].
    - intros a b Ha Hab. by eapply sl_step_inv.
    - split; [by eapply boot_inv|]. split; [done|]. intros _ i Hi. by eapply boot_no_sleeper. }
  pose proof Hi as (Hf & Hh & Hw). split; [done|]. split; [done|]. split.
  - intros c me Hc. assert (Hex : exists r x', acquiresleep c me x = Ret r x').
    { unfold acquiresleep. mstep. destruct (negb _); [|eauto]. unfold on_sys, bind, zoom.
      destruct (sleep_ends c me (ChAddr lka) (fst x)) as [s2 ->]. eauto. }
    destruct Hex as (r & x' & Hr). exists r, x'. split; [done|]. by eapply (acquiresleep_inv x x' tr).
  - intros c me Hc Hold. destruct (wakeup_eq (Some me) (ChAddr lka) (fst x)) as (s2 & H2 & _).
    exists (s2, mk_sl 0 (sl_name (snd x)) 0). assert (Hr : releasesleep me x = Ret tt (s2, mk_sl 0 (sl_name (snd x)) 0)).
    { unfold releasesleep. mstep. unfold on_sys, zoom. cbn [fst]. by rewrite H2. }
    split; [done|]. split; [done|]. by eapply (releasesleep_inv x _ tr).
Qed.
End Sleeplock.
