(* ===== verification/ProcWitnesses.v ===== *)
(** Concrete runs of the process model: an executable form of its steps, a
    machine that boots, forks, exits and waits, and the theorems of ProcClaims
    at the states it reaches. *)
From S2P Require Import Prelude Riscv Kalloc Vm Uvm FileLayer Paging PagingOk Machine Proc ProcClaims Sleeplock.
Open Scope kern_scope.

(** * Steps that can be run *)

Inductive label :=
| LSched (c : Z) | LYield (c : Z) | LFork (c : Z) | LExit (c st : Z) | LWait (c addr : Z) | LKill (c pid : Z).

Section Exec.
Context {LAY : Layout} {FL : FileLayer} {FR : FileRefs}.

Definition ret_state {A} (o : outcome sys A) : option sys := match o with Ret _ s => Some s | _ => None end.

Definition exec (l : label) (s : sys) : option sys :=
  let cpu_ok c := (0 <=? c) && (c <? NCPU) in
  let running c (k : Z -> option sys) := if cpu_ok c then match s_cpu s c with Some me => k me | None => None end else None in
  match l with
  | LSched c => if cpu_ok c then match s_cpu s c with None => ret_state (scheduler_step c s) | Some _ => None end else None
  | LYield c => running c (fun me => ret_state (yield c me s))
  | LFork c => running c (fun me => if s_nextpid s <? 2 ^ 31 - 1 then ret_state (kfork me s) else None)
  | LExit c st => running c (fun me => ret_state (kexit c me st s))
  | LWait c addr => running c (fun me => ret_state (kwait c me addr s))
  | LKill c pid => running c (fun me => ret_state (kkill pid s))
  end.

Fixpoint execs (ls : list label) (s : sys) : option sys :=
  match ls with [] => Some s | l :: ls => match exec l s with Some s' => execs ls s' | None => None end end.

Lemma ret_state_Some {A} (o : outcome sys A) s : ret_state o = Some s -> exists a, o = Ret a s.
Proof. destruct o; try done. intros [= <-]. eauto. Qed.

Lemma exec_step l s s' : exec l s = Some s' -> step s s'.
Proof.
  unfold exec. intros H. assert (Hok : forall c, (0 <=? c) && (c <? NCPU) = true -> 0 <= c < NCPU) by (intros c; rewrite andb_true_iff, Z.leb_le, Z.ltb_lt; done).
  destruct l as [c|c|c|c st|c addr|c pid]; destruct ((0 <=? c) && (c <? NCPU)) eqn:Hc; try done; apply Hok in Hc; destruct (s_cpu s c) as [me|] eqn:Hme; try done.
  - apply ret_state_Some in H as [[] H]. by eapply step_sched.
  - apply ret_state_Some in H as [[] H]. by eapply step_yield.
  - destruct (Z.ltb_spec (s_nextpid s) (2 ^ 31 - 1)); [|done]. apply ret_state_Some in H as [r H]. by eapply step_fork.
  - apply ret_state_Some in H as [[] H]. by eapply step_exit.
  - apply ret_state_Some in H as [r H]. by eapply step_wait.
  - apply ret_state_Some in H as [r H]. by eapply step_kill.
Qed.

Lemma execs_star ls : forall s s', execs ls s = Some s' -> star step s s'.
Proof.
  induction ls as [|l ls IH]; intros s s' H; cbn in H; [injection H as <-; apply star_refl|].
  destruct (exec l s) as [s1|] eqn:He; [|done]. eapply star_next; [by eapply exec_step|by apply IH].
Qed.
(** Boots and runs the labels. *)
Definition boots (s0 : sys) (ls : list label) : option (sys * sys) :=
  match ret_state ((procinit ;;; userinit) s0) with
  | Some s1 => match execs ls s1 with Some s => Some (s1, s) | None => None end
  | None => None
  end.

Lemma boots_inv s0 ls (f : sys -> bool) : bss_zero s0 -> (match boots s0 ls with Some (_, s) => f s | None => false end) = true ->
  exists s1 s, (procinit ;;; userinit) s0 = Ret tt s1 /\ execs ls s1 = Some s /\ full_inv s /\ f s = true.
Proof.
  intros Hz. unfold boots. destruct (ret_state _) as [s1|] eqn:Hb; [|done]. destruct (execs ls s1) as [s|] eqn:He; [|done]. intros Hf.
  apply ret_state_Some in Hb as [[] Hr]. exists s1, s. split; [done|]. split; [done|]. split; [|done].
  eapply proc_reachable_inv; [exact Hz|exact Hr|by eapply execs_star].
Qed.
End Exec.

(** * A machine *)

(** References as the list of the calls made, and twenty free pages. *)
Inductive call := CDup (f : Z) | CClose (f : Z) | CIdup (i : Z) | CIput (i : Z) | CTrunc (i : Z) | CBegin | CEnd.
#[export] Instance call_eq_dec : EqDecision call.
Proof. solve_decision. Defined.
Definition record (c : call) : M (list call) unit := modify (fun l => l ++ [c]).

#[export] Instance call_refs : FileRefs := {|
  fref := list call;
  filedup f := record (CDup f) ;;; ret f;
  fileclose f := record (CClose f);
  idup i := record (CIdup i) ;;; ret i;
  iput i := record (CIput i);
  itrunc i := record (CTrunc i);
  begin_op := record CBegin;
  end_op := record CEnd;
  namei _ := ret 1 |}.

Definition proc_km : kmem :=
  mk_kmem (fold_left (fun m i => store64 m (pg i) (if i =? 19 then 0 else pg (i + 1))) (seqZ 0 20) (fun _ => 0)) (pg 0).

Definition no_proc : proc := {|
  p_pid := 0; p_sz := 0; p_pagetable := 0; p_heap_start := 0; p_exec_ip := 0; p_swap_file := None; p_swap_slots := fun _ => 0;
  p_resident_pages := fun _ => mk_rp 0 0 0; p_num_resident := 0; p_swapped_pages := fun _ => mk_sp 0 0; p_num_swapped := 0; p_next_fifo_seq := 0;
  p_tf_sp := 0; p_killed := 0; p_num_phdrs := 0; p_phdrs := fun _ => mk_ph 0 0 0 0 0 0 |}.

Definition sys0 : sys :=
  mk_sys (fun _ => mk_pe UNUSED None 0 None 0 (fun _ => 0) 0 [] no_proc) 1 0 proc_km demo_files [] [] (fun _ => None) (fun _ => 0).

(** Init runs on CPU 0 and forks; the child runs on CPU 0 after init has
    yielded, and init on CPU 1; the child exits with status 7. *)
Definition family : list label := [LSched 0; LFork 0; LYield 0; LSched 0; LSched 1; LExit 0 7].

Lemma sys0_zero : bss_zero sys0.
Proof. split_and!; done. Qed.


(** Checks of a state, as one boolean. *)
Definition returnsb {A} (o : outcome sys A) : bool := match ret_state o with Some _ => true | None => false end.

Lemma returnsb_true {A} (o : outcome sys A) : returnsb o = true -> exists a s, o = Ret a s.
Proof. unfold returnsb. destruct (ret_state o) as [s|] eqn:Hs; [|done]. apply ret_state_Some in Hs as [a ->]. eauto. Qed.


Lemma runnable_is_run_witness :
  exists s s', pe_state (s_proc s 1) = RUNNABLE /\ overlooked 1 1 1 s s' /\ Z.of_nat 1 < NPROC.
Proof.
  destruct (boots_inv sys0 [LSched 0; LFork 0] (fun s => bool_decide (pe_state (s_proc s 1) = RUNNABLE) && bool_decide (s_cpu s 1 = None) &&
    match ret_state (scheduler_step 1 s) with Some s' => negb (bool_decide (pe_state (s_proc s' 1) = RUNNING)) | None => false end) sys0_zero)
    as (s1 & s & _ & _ & Hi & Hf); [vm_compute; reflexivity|].
  rewrite !andb_true_iff, !bool_decide_eq_true in Hf. destruct Hf as [[H1 H2] H3]. destruct (ret_state (scheduler_step 1 s)) as [s'|] eqn:H4; [|discriminate].
  apply negb_true_iff, bool_decide_eq_false in H3. apply ret_state_Some in H4 as [[] H4]. exists s, s'. split; [exact H1|].
  assert (Hov : overlooked 1 1 1 s s') by (eapply ov_sched; [apply ov_start; congruence|exact H2|exact H4|exact H3]).
  split; [exact Hov|]. exact (runnable_is_run 1 1 1 s s' ltac:(done) ltac:(done) Hi H1 Hov).
Defined.

Lemma kill_zero_marks_next_child_witness :
  exists s s1 r s2 np, kkill 0 s = Ret 0 s1 /\ kfork 0 s1 = Ret r s2 /\ p_pid (pe_vm (s_proc s2 np)) = r /\ p_killed (pe_vm (s_proc s2 np)) = 1.
Proof.
  destruct (boots_inv sys0 [LSched 0] (fun s => bool_decide (pe_state (s_proc s 1) = UNUSED) &&
    match kkill 0 s with Ret _ s1 => match kfork 0 s1 with Ret r _ => negb (r =? -1) | _ => false end | _ => false end) sys0_zero)
    as (s1 & s & _ & _ & Hi & Hf); [vm_compute; reflexivity|].
  rewrite !andb_true_iff, !bool_decide_eq_true in Hf. destruct Hf as [H1 H2].
  assert (H01 : inr 1) by done. destruct (kill_zero_marks_next_child s Hi (ex_intro _ 1 (conj H01 H1))) as (s2 & Hk & Hnext). rewrite Hk in H2.
  destruct (kfork 0 s2) as [r s3| | | |] eqn:Hf; try discriminate. apply negb_true_iff, Z.eqb_neq in H2.
  destruct (Hnext 0 r s3 Hf H2) as (np & _ & Hp & _ & Hkl). exists s, s2, r, s3, np. split; [exact Hk|]. split; [exact Hf|]. split; [exact Hp|exact Hkl].
Defined.

(** A zombie whose executable is inode 7, and the same table without memory. *)
Definition sys_stale : sys := put_proc (fun _ => set_vm (vm_exec_ip 7) (mk_pe ZOMBIE None 0 None 0 (fun _ => 0) 0 [] no_proc)) sys0.

Lemma ret_check {A} (o : outcome sys A) (f : sys -> bool) : (match o with Ret _ s => f s | _ => false end) = true -> exists a s, o = Ret a s /\ f s = true.
Proof. destruct o; try done. eauto. Qed.

Lemma stale_executable_is_put_again_witness :
  exists s1 s3, freeproc 0 sys_stale = Ret tt s1 /\ s_fref s1 = [CIput 7] /\
    allocproc (put_km (mk_kmem (fun _ => 0) 0) s1) = Ret None s3 /\ s_fref s3 = [CIput 7; CIput 7].
Proof.
  destruct (ret_check (freeproc 0 sys_stale) (fun s => bool_decide (s_fref s = [CIput 7]))) as ([] & s1 & Hf & Hfr); [vm_compute; reflexivity|].
  apply bool_decide_eq_true in Hfr. exists s1.
  destruct (stale_executable_is_put_again sys_stale 0 7 s1 eq_refl ltac:(done) Hf (put_km (mk_kmem (fun _ => 0) 0) s1) [CIput 7; CIput 7]
    ltac:(done) eq_refl ltac:(lia) eq_refl ltac:(cbn [put_km s_fref]; rewrite Hfr; reflexivity)) as (s3 & H3 & Hr).
  exists s3. split; [exact Hf|]. split; [exact Hfr|]. split; [exact H3|exact Hr].
Defined.

(** * A sleep lock *)

(** Init runs on CPU 0 and takes the lock at address 4096. *)
Lemma sleeplock_excludes_witness :
  exists (x : slsys) tr, tr = [Acq 1] /\ holder tr None = Some (says (snd x)) /\ sl_pid (snd x) = 1.
Proof.
  destruct (boots_inv sys0 [LSched 0] (fun s => bool_decide (s_cpu s 0 = Some 0) && (pid_of s 0 =? 1)) sys0_zero)
    as (s1 & s & H1 & H2 & _ & Hf); [vm_compute; reflexivity|].
  apply andb_true_iff in Hf as [Hc Hp]. apply bool_decide_eq_true in Hc. apply Z.eqb_eq in Hp.
  cbn [execs] in H2. destruct (exec (LSched 0) s1) as [s2|] eqn:He; [|discriminate]. injection H2 as ->.
  set (lk := initsleeplock "demo" (mk_sl 0 "" 0)).
  assert (Hon : on_cpu s 0 0) by (clear -Hc; split; [done|exact Hc]).
  assert (Ho : forall i, inr i -> waits 4096 s i -> waits 4096 s1 i).
  { intros i Hi Hw. cbn [exec] in He. destruct (s_cpu s1 0); [discriminate|]. apply ret_state_Some in He as [[] He]. by eapply scheduler_no_sleeper. }
  destruct (sleeplock_excludes 4096 sys0 s1 "demo" (mk_sl 0 "" 0) (s, mk_sl 1 "demo" (pid_of s 0)) [Acq (pid_of s 0)] sys0_zero H1) as (Hh & _).
  - eapply star_next; [apply (sl_other 4096 s1 s lk []); [by eapply exec_step|exact Ho]|].
    eapply star_next; [|apply star_refl]. exact (take_free_lock 4096 s lk [] 0 0 Hon eq_refl).
  - eexists _, _. rewrite Hp in Hh. split; [reflexivity|]. split; [exact Hh|]. reflexivity.
Defined.
