(* ===== verification/Umalloc.v ===== *)
(** The memory allocator of user programs ([user/umalloc.c]): a ring of free
    blocks in the order of their addresses, over the bytes of the process.
    Shows that live blocks never overlap, keep what the program wrote into
    them, and that no byte of the heap is lost. *)
From stdpp Require Import sorting.
From S2P Require Import Prelude.
Open Scope kern_scope.

(** [sizeof(Header)]: a pointer at offset 0 and an unsigned size at offset 8. *)
Definition HDR : Z := 16.

(** What the allocator works on: memory, the end of the heap, and [freep]. *)
Record uheap := mk_uh { u_mem : mem; u_brk : Z; u_freep : Z }.

Definition hptr (m : mem) (a : Z) : Z := load64 m a.
Definition hsize (m : mem) (a : Z) : Z := load 4 m (a + 8).

Definition get_ptr (a : Z) : M uheap Z := gets (fun s => hptr (u_mem s) a).
Definition get_size (a : Z) : M uheap Z := gets (fun s => hsize (u_mem s) a).
Definition put_ptr (a v : Z) : M uheap unit := modify (fun s => mk_uh (store64 (u_mem s) a v) (u_brk s) (u_freep s)).
Definition put_size (a v : Z) : M uheap unit := modify (fun s => mk_uh (store 4 (u_mem s) (a + 8) v) (u_brk s) (u_freep s)).
Definition put_freep (v : Z) : M uheap unit := modify (fun s => mk_uh (u_mem s) (u_brk s) v).

(** A block: its address and its size in units. *)
Abbreviation block := (Z * Z)%type.

Section Umalloc.
(** The address of the static header [base], and whether the kernel lets the
    heap with a given end grow by a number of bytes. *)
Context (base : Z) (grants : Z -> Z -> bool).

(** [sbrk]: the old end of the heap, or -1. *)
Definition sbrk (n : Z) : M uheap Z :=
  do s <- get;
  if grants (u_brk s) n then modify (fun s => mk_uh (u_mem s) (u_brk s + n) (u_freep s)) ;;; ret (u_brk s)
  else ret (-1).

(** The loop of [free] that finds the node after which [bp] goes. *)
Fixpoint find_place (fuel : nat) (bp p : Z) : M uheap Z :=
  match fuel with
  | O => no_fuel
  | S fuel =>
      do q <- get_ptr p;
      if (p <? bp) && (bp <? q) then ret p
      else if (q <=? p) && ((p <? bp) || (bp <? q)) then ret p
      else find_place fuel bp q
  end.

Definition free (fuel : nat) (ap : Z) : M uheap unit :=
  let bp := ap - HDR in
  do s <- get;
  do p <- find_place fuel bp (u_freep s);
  do q <- get_ptr p;
  do n <- get_size bp;
  (if bp + n * HDR =? q then
     do nq <- get_size q;
     put_size bp (u32 (n + nq)) ;;;
     do r <- get_ptr q;
     put_ptr bp r
   else put_ptr bp q) ;;;
  do np <- get_size p;
  (if p + np * HDR =? bp then
     do n <- get_size bp;
     put_size p (u32 (np + n)) ;;;
     do r <- get_ptr bp;
     put_ptr p r
   else put_ptr p bp) ;;;
  put_freep p.

(** The argument of [sbrk] is an [int]. *)
Definition morecore (fuel : nat) (nu : Z) : M uheap Z :=
  let nu := if nu <? 4096 then 4096 else nu in
  do p <- sbrk (i32 (nu * HDR));
  if p =? -1 then ret 0
  else
    put_size p nu ;;;
    free fuel (p + HDR) ;;;
    gets u_freep.

Fixpoint malloc_loop (fuel : nat) (nunits prevp p : Z) : M uheap Z :=
  match fuel with
  | O => no_fuel
  | S fuel =>
      do sz <- get_size p;
      if nunits <=? sz then
        do p <- (if sz =? nunits then
                   do q <- get_ptr p;
                   put_ptr prevp q ;;; ret p
                 else
                   put_size p (sz - nunits) ;;;
                   let p := p + (sz - nunits) * HDR in
                   put_size p nunits ;;; ret p);
        put_freep prevp ;;;
        ret (p + HDR)
      else
        do s <- get;
        if p =? u_freep s then
          do p <- morecore fuel nunits;
          if p =? 0 then ret 0
          else do q <- get_ptr p; malloc_loop fuel nunits p q
        else do q <- get_ptr p; malloc_loop fuel nunits p q
  end.

Definition units (nbytes : Z) : Z := u32 ((nbytes + HDR - 1) / HDR + 1).

Definition malloc (fuel : nat) (nbytes : Z) : M uheap Z :=
  let nunits := units nbytes in
  do s <- get;
  (if u_freep s =? 0 then put_freep base ;;; put_ptr base base ;;; put_size base 0 else ret tt) ;;;
  do s <- get;
  do p <- get_ptr (u_freep s);
  malloc_loop fuel nunits (u_freep s) p.

(** * Headers in memory *)

(** [m'] has the same header at [a] as [m]. *)
Definition same_hdr (m m' : mem) (a : Z) : Prop := hptr m' a = hptr m a /\ hsize m' a = hsize m a.

Lemma same_hdr_ext m m' a : (forall x, a <= x < a + HDR -> m' x = m x) -> same_hdr m m' a.
Proof. intros H. split; apply load_ext; intros x Hx; apply H; unfold HDR; lia. Qed.

Lemma hptr_store m a v : 0 <= v < 2 ^ 64 -> hptr (store64 m a v) a = v.
Proof. intros H. by apply load_store_eq. Qed.
Lemma hsize_store m a v : 0 <= v < 2 ^ 32 -> hsize (store 4 m (a + 8) v) a = v.
Proof. intros H. by apply load_store_eq. Qed.
Lemma hsize_store_ptr m a v : hsize (store64 m a v) a = hsize m a.
Proof. apply load_store_ne. lia. Qed.
Lemma hptr_store_size m a v : hptr (store 4 m (a + 8) v) a = hptr m a.
Proof. apply load_store_ne. lia. Qed.
Lemma store_ptr_out m a v x : ~ (a <= x < a + HDR) -> store64 m a v x = m x.
Proof. unfold store, HDR. intros H. bool_to_prop; try done. lia. Qed.
Lemma store_size_out m a v x : ~ (a <= x < a + HDR) -> store 4 m (a + 8) v x = m x.
Proof. unfold store, HDR. intros H. bool_to_prop; try done. lia. Qed.

(** * The ring of free blocks *)

Definition bend (b : block) : Z := fst b + snd b * HDR.
Definition inb (b : block) (x : Z) : Prop := fst b <= x < bend b.

Definition first (N : list block) (z : Z) : Z := match N with [] => z | b :: _ => fst b end.

(** The headers of [N] hold their sizes and link each to the next, the last
    one to [z]. *)
Fixpoint chain (m : mem) (N : list block) (z : Z) : Prop :=
  match N with
  | [] => True
  | b :: N => hsize m (fst b) = snd b /\ hptr m (fst b) = first N z /\ chain m N z
  end.

Lemma first_app N1 N2 z : first (N1 ++ N2) z = first N1 (first N2 z).
Proof. by destruct N1. Qed.
Lemma links_app m N1 N2 z : chain m (N1 ++ N2) z <-> chain m N1 (first N2 z) /\ chain m N2 z.
Proof.
  induction N1 as [|b N1 IH]; cbn; [by split; [|intros []]|]. rewrite first_app, IH. naive_solver.
Qed.
Lemma links_frame m m' N z : chain m N z -> (forall b, b ∈ N -> same_hdr m m' (fst b)) -> chain m' N z.
Proof.
  induction N as [|b N IH]; cbn; [done|]. intros (H1 & H2 & H3) Hs. destruct (Hs b) as [E1 E2]; [set_solver|].
  rewrite E1, E2. split; [done|]. split; [done|]. apply IH; [done|]. intros c Hc. apply Hs. set_solver.
Qed.

(** Free blocks in increasing order, none empty and none touching the next. *)
Definition apart (b c : block) : Prop := bend b < fst c.
Definition sorted (F : list block) : Prop := StronglySorted apart F /\ Forall (fun b => 1 <= snd b) F.

Definition cov (F : list block) (x : Z) : Prop := exists b, b ∈ F /\ inb b x.

Lemma sorted_nodes F1 b F2 : sorted (F1 ++ b :: F2) -> 
  sorted F1 /\ sorted F2 /\ 1 <= snd b /\ (forall c, c ∈ F1 -> bend c < fst b) /\ (forall c, c ∈ F2 -> bend b < fst c) /\
  (forall c d, c ∈ F1 -> d ∈ F2 -> bend c < fst d).
Proof.
  intros [Hs Hn]. apply Forall_app in Hn as [Hn1 Hn2]. apply Forall_cons in Hn2 as [Hb Hn2].
  apply StronglySorted_app in Hs as (Hx & Hs1 & Hs2). apply StronglySorted_cons in Hs2 as [Hs2 Hs3].
  rewrite Forall_forall in Hs2. split_and!; try done.
  - intros c Hc. apply Hx; set_solver.
  - intros c d Hc Hd. apply Hx; set_solver.
Qed.

Lemma sorted_app_r F1 F2 : sorted (F1 ++ F2) -> sorted F2.
Proof. intros [Hs Hn]. apply StronglySorted_app in Hs as (_ & _ & Hs). by apply Forall_app in Hn as [_ Hn]. Qed.
Lemma sorted_app_l F1 F2 : sorted (F1 ++ F2) -> sorted F1.
Proof. intros [Hs Hn]. apply StronglySorted_app in Hs as (_ & Hs & _). by apply Forall_app in Hn as [Hn _]. Qed.

Lemma sorted_join F1 G F2 : sorted F1 -> sorted G -> sorted F2 -> (forall c d, c ∈ F1 -> d ∈ G -> bend c < fst d) ->
  (forall c d, c ∈ G -> d ∈ F2 -> bend c < fst d) -> (forall c d, c ∈ F1 -> d ∈ F2 -> bend c < fst d) -> sorted (F1 ++ G ++ F2).
Proof.
  intros [S1 N1] [S2 N2] [S3 N3] H1 H2 H3. split.
  - apply StronglySorted_app. split_and!; [|done|apply StronglySorted_app; done].
    intros c d Hc Hd. apply elem_of_app in Hd as [Hd|Hd]; [by apply H1|by apply H3].
  - by rewrite !Forall_app.
Qed.

(** * Freeing *)

(** The heap lies above [base], and within what 32-bit sizes can describe. *)
Context (heap0 : Z).
Hypothesis base_pos : 0 < base.
Hypothesis base_low : base + HDR <= heap0.
Hypothesis grants_bound : forall b n, grants b n = true -> b + n <= 2 ^ 36.

(** The free blocks [F] as the ring in memory. *)
Record ring (s : uheap) (F : list block) : Prop := {
  rg_sorted : sorted F;
  rg_in : forall b, b ∈ F -> heap0 <= fst b /\ bend b <= u_brk s;
  rg_chain : chain (u_mem s) ((base, 0) :: F) base;
  rg_freep : exists b, b ∈ (base, 0) :: F /\ u_freep s = fst b;
  rg_brk : heap0 <= u_brk s <= 2 ^ 36
}.

(** From a node below [bp] the search ends at the last such node. *)
Lemma find_place_below s bp L G2 : forall L2 b L1 k,
  L = L1 ++ b :: L2 -> chain (u_mem s) (L ++ G2) base -> StronglySorted (fun b c => fst b < fst c) L ->
  (forall c, c ∈ L -> base <= fst c < bp) -> (forall c, c ∈ G2 -> bp < fst c) ->
  find_place (S (length L2) + k) bp (fst b) s = Ret (fst (List.last L (base, 0))) s.
Proof.
  induction L2 as [|c L2 IH]; intros b L1 k -> Hc Hs Hlo Hhi.
  - rewrite last_last. cbn [length Nat.add find_place]. unfold get_ptr. mstep.
    rewrite <- app_assoc in Hc. apply links_app in Hc as [_ Hc]. cbn in Hc. destruct Hc as (_ & -> & _).
    assert (Hb : base <= fst b < bp) by (apply Hlo; set_solver). destruct (Z.ltb_spec (fst b) bp) as [_|?]; [|lia]. cbn [andb orb].
    destruct G2 as [|g G2]; cbn [first].
    + destruct (Z.ltb_spec bp base); [lia|]. by destruct (Z.leb_spec base (fst b)); [|lia].
    + assert (bp < fst g) by (apply Hhi; set_solver). by destruct (Z.ltb_spec bp (fst g)); [|lia].
  - replace (S (length (c :: L2)) + k)%nat with (S (S (length L2) + k)) by (cbn; lia). cbn [find_place]. unfold get_ptr. mstep.
    pose proof Hc as Hc'. rewrite <- app_assoc in Hc'. apply links_app in Hc' as [_ Hc']. cbn in Hc'. destruct Hc' as (_ & -> & _).
    apply StronglySorted_app in Hs as Hs'. destruct Hs' as (_ & _ & Hs'). apply StronglySorted_cons in Hs' as [Hs' _].
    apply Forall_cons in Hs' as [Hbc _]. assert (base <= fst c < bp) by (apply Hlo; set_solver).
    destruct (Z.ltb_spec bp (fst c)); [lia|]. rewrite andb_false_r. destruct (Z.leb_spec (fst c) (fst b)); [lia|]. cbn [andb].
    apply (IH c (L1 ++ [b])); [by rewrite <- app_assoc|done..].
Qed.

(** From a node above [bp] it comes back to [base]. *)
Lemma find_place_above s bp G2 : forall L2 b L1 k,
  G2 = L1 ++ b :: L2 -> chain (u_mem s) G2 base -> StronglySorted (fun b c => fst b < fst c) G2 -> base < bp -> (forall c, c ∈ G2 -> bp < fst c) ->
  find_place (S (length L2) + k) bp (fst b) s = find_place k bp base s.
Proof.
  induction L2 as [|c L2 IH]; intros b L1 k -> Hc Hs Hlo Hhi.
  - cbn [length Nat.add find_place]. unfold get_ptr. mstep. apply links_app in Hc as [_ Hc]. cbn in Hc. destruct Hc as (_ & -> & _).
    assert (bp < fst b) by (apply Hhi; set_solver). destruct (Z.ltb_spec (fst b) bp); [lia|]. cbn [andb orb].
    destruct (Z.ltb_spec bp base); [lia|]. by rewrite andb_false_r.
  - replace (S (length (c :: L2)) + k)%nat with (S (S (length L2) + k)) by (cbn; lia). cbn [find_place]. unfold get_ptr. mstep.
    pose proof Hc as Hc'. apply links_app in Hc' as [_ Hc']. cbn in Hc'. destruct Hc' as (_ & -> & _).
    apply StronglySorted_app in Hs as Hs'. destruct Hs' as (_ & _ & Hs'). apply StronglySorted_cons in Hs' as [Hs' _].
    apply Forall_cons in Hs' as [Hbc _]. assert (bp < fst b) by (apply Hhi; set_solver). destruct (Z.ltb_spec (fst b) bp); [lia|]. cbn [andb orb].
    destruct (Z.leb_spec (fst c) (fst b)); [lia|]. cbn [andb]. apply (IH c (L1 ++ [b])); [by rewrite <- app_assoc|done..].
Qed.

Lemma StronglySorted_mono {A} (R R' : A -> A -> Prop) l : (forall x y, x ∈ l -> R x y -> R' x y) -> StronglySorted R l -> StronglySorted R' l.
Proof.
  intros H Hs. induction Hs as [|x l Hs IH Hx]; constructor.
  - apply IH. intros y z Hy. apply H. set_solver.
  - eapply Forall_impl; [exact Hx|]. intros y. apply H. set_solver.
Qed.

Lemma nodes_increase F : sorted F -> (forall b, b ∈ F -> heap0 <= fst b) -> StronglySorted (fun b c => fst b < fst c) ((base, 0) :: F).
Proof.
  intros [Hs Hn] Hlo. apply StronglySorted_cons. split.
  - apply Forall_forall. intros c Hc. apply Hlo in Hc. cbn. unfold HDR in *. lia.
  - eapply StronglySorted_mono; [|exact Hs]. intros x y Hx. unfold apart, bend, HDR. rewrite Forall_forall in Hn. apply Hn in Hx. lia.
Qed.

Lemma find_place_ok s F G1 G2 bp fuel : ring s F -> F = G1 ++ G2 -> heap0 <= bp ->
  (forall c, c ∈ G1 -> fst c < bp) -> (forall c, c ∈ G2 -> bp < fst c) -> (length F + 2 <= fuel)%nat ->
  find_place fuel bp (u_freep s) s = Ret (fst (List.last ((base, 0) :: G1) (base, 0))) s.
Proof.
  intros [Hs Hin Hc (b & Hb & ->) Hbrk] -> Hbp H1 H2 Hf. rewrite length_app in Hf.
  pose proof (nodes_increase _ Hs (fun b H => proj1 (Hin b H))) as Hss. change ((base, 0) :: G1 ++ G2) with (((base, 0) :: G1) ++ G2) in *.
  apply StronglySorted_app in Hss as (_ & S1 & S2). unfold HDR in *.
  assert (Hlo : forall c, c ∈ (base, 0) :: G1 -> base <= fst c < bp).
  { intros c Hx. apply elem_of_cons in Hx as [->|Hx]; [cbn; lia|]. split; [|by apply H1]. assert (heap0 <= fst c) by (apply Hin; set_solver). lia. }
  assert (Below : forall L1 b L2 k, (base, 0) :: G1 = L1 ++ b :: L2 -> (length G1 + 1 <= k)%nat ->
    find_place k bp (fst b) s = Ret (fst (List.last ((base, 0) :: G1) (base, 0))) s).
  { intros L1 c L2 k HL Hk. assert (length ((base, 0) :: G1) = length (L1 ++ c :: L2)) by (by rewrite HL). rewrite length_app in *. cbn [length] in *.
    replace k with (S (length L2) + (k - S (length L2)))%nat by lia. by apply (find_place_below s bp _ G2 L2 c L1). }
  apply elem_of_app in Hb as [Hb|Hb].
  - apply list_elem_of_split in Hb as (L1 & L2 & HL). apply (Below L1 b L2); [done|lia].
  - apply list_elem_of_split in Hb as (L1 & L2 & HL). assert (length G2 = length (L1 ++ b :: L2)) by (by rewrite HL). rewrite length_app in *. cbn [length] in *.
    replace fuel with (S (length L2) + (fuel - S (length L2)))%nat by lia.
    rewrite (find_place_above s bp G2 L2 b L1); [|done|by apply links_app in Hc as [_ Hc]|done|lia|done].
    apply (Below [] (base, 0) G1); [done|lia].
Qed.

(** A block that meets no free one splits the ring. *)
Lemma ring_split F a : sorted F -> (forall c, c ∈ F -> ~ inb c a) ->
  exists G1 G2, F = G1 ++ G2 /\ (forall c, c ∈ G1 -> bend c <= a) /\ (forall c, c ∈ G2 -> a < fst c).
Proof.
  intros [Hs Hn] Ho. induction F as [|b F IH]; [exists [], []; set_solver|].
  apply StronglySorted_cons in Hs as [Hb Hs]. apply Forall_cons in Hn as [Hn1 Hn]. rewrite Forall_forall in Hb.
  destruct (decide (a < fst b)) as [Ha|Ha].
  - exists [], (b :: F). split; [done|]. split; [set_solver|]. intros c Hc. apply elem_of_cons in Hc as [->|Hc]; [done|].
    apply Hb in Hc. unfold apart, bend, HDR in Hc. lia.
  - destruct (IH Hs Hn) as (G1 & G2 & -> & H1 & H2); [set_solver|]. exists (b :: G1), G2. split; [done|]. split; [|done].
    intros c Hc. apply elem_of_cons in Hc as [->|Hc]; [|by apply H1]. assert (Hx : ~ inb b a) by (apply Ho; set_solver). unfold inb in Hx. lia.
Qed.

(** What [free] does to the header at [a] when the next node is [b]: join the
    two blocks, or link them. *)
Definition link (m : mem) (a b : Z) : mem :=
  if a + hsize m a * HDR =? b then
    let m1 := store 4 m (a + 8) (u32 (hsize m a + hsize m b)) in store64 m1 a (hptr m1 b)
  else store64 m a b.

Lemma free_eq fuel bp p s : find_place fuel bp (u_freep s) s = Ret p s ->
  free fuel (bp + HDR) s = Ret tt (mk_uh (link (link (u_mem s) bp (hptr (u_mem s) p)) p bp) (u_brk s) p).
Proof.
  intros Hp. unfold free. replace (bp + HDR - HDR) with bp by lia. mstep. rewrite (bind_ret _ _ _ _ _ Hp).
  destruct s as [m brk fp]. unfold get_ptr, get_size, put_ptr, put_size, put_freep. mstep. cbn [u_mem u_brk u_freep]. unfold link.
  destruct (bp + hsize m bp * HDR =? hptr m p); cbn zeta.
  all: set (m0 := store64 _ bp _); destruct (p + hsize m0 p * HDR =? bp) eqn:E2; unfold bind, gets, modify; cbn [u_mem u_brk u_freep];
    fold m0; rewrite E2; reflexivity.
Qed.

(** Joining or linking, on the blocks. *)
Definition merge (b : block) (G : list block) : list block :=
  match G with
  | [] => [b]
  | c :: G' => if bend b =? fst c then (fst b, snd b + snd c) :: G' else b :: G
  end.

Lemma merge_first b G z : first (merge b G) z = fst b.
Proof. destruct G as [|c G]; [done|]. cbn. by destruct (_ =? _). Qed.

Lemma merge_cons b G : exists n M, merge b G = (fst b, n) :: M.
Proof. destruct b as [a n], G as [|c G]; cbn; [eauto|]. destruct (_ =? _); eauto. Qed.

Lemma merge_cov b G x : 0 <= snd b -> (forall c, c ∈ G -> 0 <= snd c) -> cov (merge b G) x <-> inb b x \/ cov G x.
Proof.
  intros Hb HG. unfold cov. destruct G as [|c G]; cbn [merge].
  { split; [intros (d & Hd & Hx); apply list_elem_of_singleton in Hd as ->; auto|]. intros [Hx|(d & Hd & _)]; [|set_solver]. exists b. set_solver. }
  assert (Hc : 0 <= snd c) by (apply HG; set_solver).
  destruct (Z.eqb_spec (bend b) (fst c)) as [E|E].
  - assert (J : forall y, inb (fst b, snd b + snd c) y <-> inb b y \/ inb c y).
    { intros y. unfold inb, bend, HDR in *. cbn [fst snd]. lia. }
    split.
    + intros (d & Hd & Hx). apply elem_of_cons in Hd as [->|Hd]; [|right; exists d; set_solver].
      apply J in Hx as [Hx|Hx]; [by left|]. right. exists c. set_solver.
    + intros [Hx|(d & Hd & Hx)]; [exists (fst b, snd b + snd c); split; [set_solver|apply J; auto]|].
      apply elem_of_cons in Hd as [->|Hd]; [exists (fst b, snd b + snd c); split; [set_solver|apply J; auto]|]. exists d. set_solver.
  - split.
    + intros (d & Hd & Hx). apply elem_of_cons in Hd as [->|Hd]; [by left|]. right. by exists d.
    + intros [Hx|(d & Hd & Hx)]; [exists b; set_solver|exists d; set_solver].
Qed.

Lemma merge_sorted b G : 1 <= snd b -> sorted G -> (forall c, c ∈ G -> bend b <= fst c) -> sorted (merge b G).
Proof.
  intros Hb [Hs Hn] Hle. destruct G as [|c G]; cbn [merge].
  { split; [by apply StronglySorted_cons|]. by constructor. }
  apply StronglySorted_cons in Hs as [Hc Hs]. apply Forall_cons in Hn as [Hnc Hn]. rewrite Forall_forall in Hc.
  destruct (Z.eqb_spec (bend b) (fst c)) as [E|E]; split.
  - apply StronglySorted_cons. split; [|done]. apply Forall_forall. intros d Hd. specialize (Hc d Hd). unfold apart, bend, HDR in *. cbn [fst snd]. lia.
  - constructor; [cbn; lia|done].
  - apply StronglySorted_cons. split; [|by apply StronglySorted_cons; split; [by apply Forall_forall|]].
    assert (Hbc : bend b < fst c) by (assert (bend b <= fst c) by (apply Hle; set_solver); lia).
    constructor; [done|]. apply Forall_forall. intros d Hd. specialize (Hc d Hd). unfold apart, bend, HDR in *. lia.
  - by constructor; [|constructor].
Qed.

Lemma merge_elem b G c : c ∈ merge b G -> (fst c = fst b /\ (bend c = bend b \/ exists d, d ∈ G /\ bend c = bend d)) \/ c ∈ G.
Proof.
  destruct G as [|d G]; cbn [merge]; [intros Hc; apply list_elem_of_singleton in Hc as ->; auto|].
  destruct (Z.eqb_spec (bend b) (fst d)) as [E|E]; intros Hc; apply elem_of_cons in Hc as [->|Hc]; auto; [|set_solver].
  left. split; [done|]. right. exists d. split; [set_solver|]. unfold bend, HDR in *. cbn [fst snd]. lia.
Qed.

Lemma link_out m a b x : ~ (a <= x < a + HDR) -> link m a b x = m x.
Proof.
  intros H. unfold link. destruct (_ =? _); cbn zeta; rewrite store_ptr_out by done; [|done]. by rewrite store_size_out.
Qed.

(** Two headers that do not overlap. *)
Definition off_hdr (a b : Z) : Prop := a + HDR <= b \/ b + HDR <= a.

Lemma link_chain m a n G z : hsize m a = n -> chain m G z -> (forall g, g ∈ G -> off_hdr a (fst g)) -> (G = [] -> a + n * HDR <> z) ->
  0 <= n < 2 ^ 32 -> (forall g, g ∈ G -> 0 <= snd g /\ n + snd g < 2 ^ 32) -> (forall g, g ∈ G -> 0 <= fst g < 2 ^ 64) -> 0 <= z < 2 ^ 64 ->
  chain (link m a (first G z)) (merge (a, n) G) z.
Proof.
  intros Hn Hc Ho Hz Hn32 Hsum Hr Hzr.
  assert (Hfr : forall H, (forall g, g ∈ H -> g ∈ G) -> chain m H z -> chain (link m a (first G z)) H z).
  { intros H HH Hch. eapply links_frame; [exact Hch|]. intros g Hg. apply same_hdr_ext. intros x Hx. apply link_out.
    specialize (Ho g (HH g Hg)). unfold off_hdr in Ho. unfold HDR in *. lia. }
  destruct G as [|c G]; cbn [merge first] in *.
  - split_and!; cbn [fst snd first]; [| |done]; unfold link; rewrite Hn; destruct (Z.eqb_spec (a + n * HDR) z); try (by destruct Hz); [by rewrite hsize_store_ptr|by apply hptr_store].
  - assert (Hoc : off_hdr a (fst c)) by (apply Ho; set_solver). cbn in Hc. destruct Hc as (C1 & C2 & C3).
    assert (Hfz : forall H, (forall g, g ∈ H -> g ∈ c :: G) -> 0 <= first H z < 2 ^ 64).
    { intros [|h H] HH; cbn; [done|]. apply Hr, HH. set_solver. }
    unfold bend. cbn [fst snd]. destruct (Z.eqb_spec (a + n * HDR) (fst c)) as [E|E].
    + split_and!; cbn [fst snd].
      * unfold link. rewrite Hn, E, Z.eqb_refl, C1. cbn zeta. rewrite hsize_store_ptr. destruct (Hsum c) as [Q1 Q2]; [set_solver|].
        rewrite u32_small, hsize_store by lia. done.
      * unfold link. rewrite Hn, E, Z.eqb_refl. cbn zeta. rewrite hptr_store.
        -- rewrite <- C2. apply (same_hdr_ext m). intros x Hx. apply store_size_out. unfold off_hdr, HDR in *. lia.
        -- assert (Hp : hptr (store 4 m (a + 8) (u32 (n + hsize m (fst c)))) (fst c) = first G z).
           { rewrite <- C2. apply (same_hdr_ext m). intros x Hx. apply store_size_out. unfold off_hdr, HDR in *. lia. }
           rewrite Hp. apply Hfz. set_solver.
      * apply Hfr; [set_solver|done].
    + split_and!; cbn [fst snd first].
      * unfold link. rewrite Hn. destruct (Z.eqb_spec (a + n * HDR) (fst c)); [done|]. by rewrite hsize_store_ptr.
      * unfold link. rewrite Hn. destruct (Z.eqb_spec (a + n * HDR) (fst c)); [done|]. apply hptr_store, Hr. set_solver.
      * apply Hfr; [set_solver|]. by cbn.
Qed.

(** Memory that neither the allocator nor the block [b] owns. *)
Definition untouched (F : list block) (b : block) (m m' : mem) : Prop :=
  forall x, ~ cov F x -> ~ inb b x -> ~ (base <= x < base + HDR) -> m' x = m x.

Lemma sorted_disjoint_hdr (b c : block) : 1 <= snd b -> bend b <= fst c -> off_hdr (fst b) (fst c).
Proof. unfold off_hdr, bend, HDR. lia. Qed.

Lemma inb_start (b : block) : 1 <= snd b -> inb b (fst b).
Proof. unfold inb, bend, HDR. lia. Qed.

Lemma block_small s F (b : block) : ring s F -> heap0 <= fst b -> bend b <= u_brk s -> 1 <= snd b -> snd b < 2 ^ 32 /\ 0 <= fst b < 2 ^ 64.
Proof. intros [_ _ _ _ Hbrk] H1 H2 H3. unfold bend, HDR in *. lia. Qed.

(** The place of a block among the free ones: the node [p] before it, with
    [(base, 0) :: G1 = P1 ++ [p]]. *)
Lemma nodes_last G1 : exists P1 p, (base, 0) :: G1 = P1 ++ [p] /\ p = List.last ((base, 0) :: G1) (base, 0) /\
  ((P1 = [] /\ p = (base, 0) /\ G1 = []) \/ (exists P, P1 = (base, 0) :: P /\ G1 = P ++ [p])).
Proof.
  destruct (exists_last (l := (base, 0) :: G1)) as (P1 & p & E); [done|]. exists P1, p. rewrite E, last_last. split; [done|]. split; [done|].
  destruct P1 as [|x P]; [left; injection E as <- ->; done|]. right. injection E as -> ->. by exists P.
Qed.

Lemma ring_member s F : ring s F -> forall c, c ∈ F -> 1 <= snd c < 2 ^ 32 /\ 0 <= fst c < 2 ^ 64.
Proof.
  intros HR c Hx. pose proof HR as [[_ Hn] Hin _ _ _]. rewrite Forall_forall in Hn. destruct (Hin c Hx) as [Q1 Q2].
  destruct (block_small s _ c HR Q1 Q2) as [? ?]; [by apply Hn|]. specialize (Hn c Hx). lia.
Qed.

Lemma prefix_below s G1 G2 P1 p c : ring s (G1 ++ G2) -> (base, 0) :: G1 = P1 ++ [p] -> c ∈ P1 -> fst c + HDR <= fst p.
Proof.
  intros HR HP Hc. pose proof (ring_member s _ HR) as Hmem. pose proof HR as [[Hs _] Hin _ _ _].
  destruct (nodes_last G1) as (P1' & p' & E' & _ & [(-> & -> & ->)|(P & -> & ->)]).
  - destruct P1 as [|? [|]]; cbn in HP; [by apply elem_of_nil in Hc|done|done].
  - rewrite HP in E'. apply app_inj_tail in E' as [-> <-]. apply elem_of_cons in Hc as [->|Hc].
    + destruct (Hin p) as [? ?]; [set_solver|]. cbn in *. lia.
    + rewrite <- app_assoc in Hs. apply StronglySorted_app in Hs as (Hap & _ & _).
      specialize (Hap c p Hc ltac:(set_solver)). destruct (Hmem c) as [? ?]; [set_solver|]. unfold apart, bend, HDR in *. lia.
Qed.

Lemma free_ring s F G1 G2 b P1 p : ring s F -> F = G1 ++ G2 -> heap0 <= fst b -> bend b <= u_brk s -> 1 <= snd b ->
  hsize (u_mem s) (fst b) = snd b -> (forall c, c ∈ G1 -> bend c <= fst b) -> (forall c, c ∈ G2 -> bend b <= fst c) ->
  (base, 0) :: G1 = P1 ++ [p] ->
  chain (link (link (u_mem s) (fst b) (hptr (u_mem s) (fst p))) (fst p) (fst b)) (P1 ++ merge p (merge b G2)) base.
Proof.
  intros HR -> Hlo Hhi Hb Hsz H1 H2 HP. pose proof HR as [Hs Hin Hc _ Hbrk].
  change ((base, 0) :: G1 ++ G2) with (((base, 0) :: G1) ++ G2) in Hc. rewrite HP, <- app_assoc in Hc. apply links_app in Hc as [HcP Hc].
  cbn in Hc, HcP. destruct Hc as (Hp1 & Hp2 & Hc2). rewrite Hp2. set (m := u_mem s) in *.
  destruct (block_small s _ b HR Hlo Hhi Hb) as [Hb32 Hb64].
  pose proof (ring_member s _ HR) as Hmem.
  assert (Hps : snd p < 2 ^ 32 /\ 0 <= snd p /\ (fst p = base \/ fst p + HDR <= bend p) /\ bend p <= fst b /\ base <= fst p).
  { assert (Hp : p ∈ (base, 0) :: G1) by (rewrite HP; set_solver). apply elem_of_cons in Hp as [->|Hp]; [unfold bend, HDR in *; cbn; lia|].
    destruct (Hmem p) as [? ?]; [set_solver|]. destruct (Hin p) as [? ?]; [set_solver|]. pose proof (H1 p Hp). unfold bend, HDR in *. lia. }
  assert (Hpb : off_hdr (fst p) (fst b)) by (unfold off_hdr, bend, HDR in *; lia).
  assert (Hsum : forall u v, 0 <= snd u -> 0 <= fst u -> bend u <= fst v -> bend v <= u_brk s -> snd u + snd v < 2 ^ 32 \/ fst u = 0).
  { intros u v. unfold bend, HDR. lia. }
  assert (Hch : chain (link m (fst b) (first G2 base)) (merge b G2) base).
  { destruct b as [a n]. cbn [fst snd] in *. apply link_chain; try done; try (unfold HDR in *; lia).
    - intros g Hg. apply (sorted_disjoint_hdr (a, n)); [done|by apply H2].
    - intros g Hg. destruct (Hmem g) as [? ?]; [set_solver|]. split; [lia|]. specialize (H2 g Hg). destruct (Hin g) as [? ?]; [set_solver|].
      destruct (Hsum (a, n) g); cbn; unfold bend, HDR in *; cbn in *; lia.
    - intros g Hg. apply Hmem. set_solver. }
  set (m1 := link m (fst b) (first G2 base)) in *.
  assert (Hframe : forall a, off_hdr (fst b) a -> same_hdr m m1 a).
  { intros a Ha. apply same_hdr_ext. intros x Hx. apply link_out. unfold off_hdr, HDR in *. lia. }
  apply links_app. rewrite merge_first. split.
  - eapply (links_frame m); [by cbn in HcP|]. intros c Hc. apply same_hdr_ext. intros x Hx.
    pose proof (prefix_below s G1 G2 P1 p c HR HP Hc) as Hcp. rewrite link_out by (unfold HDR in *; lia). unfold m1.
    apply link_out. unfold bend, HDR in *. lia.
  - destruct p as [pa pn]. cbn [fst snd] in *. rewrite <- (merge_first b G2 base). apply link_chain; try done; try (unfold HDR in *; lia).
    + rewrite <- Hp1. apply Hframe. unfold off_hdr in *. lia.
    + intros g Hg. apply merge_elem in Hg as [[-> _]|Hg]; [done|]. specialize (H2 g Hg). unfold off_hdr, bend, HDR in *. cbn in *. lia.
    + intros E. destruct (merge_cons b G2) as (? & ? & E'). by rewrite E' in E.
    + intros g Hg. assert (Hg1 : 1 <= snd g /\ fst b <= fst g /\ bend g <= u_brk s).
      { assert (Hms : sorted (merge b G2)) by (apply merge_sorted; [done| |done]; apply (sorted_app_r G1); done).
        destruct Hms as [_ Hms]. rewrite Forall_forall in Hms. split; [by apply Hms|]. apply merge_elem in Hg as [[-> [Hg|(d & Hd & Hg)]]|Hg].
        - rewrite Hg. lia.
        - rewrite Hg. split; [lia|]. apply Hin. set_solver.
        - split; [specialize (H2 g Hg); unfold bend, HDR in *; lia|]. apply Hin. set_solver. }
      split; [lia|]. destruct (Hsum (pa, pn) g) as [?|Hz]; cbn in *; unfold bend, HDR in *; cbn in *; lia.
    + intros g Hg. apply merge_elem in Hg as [[-> _]|Hg]; [done|]. apply Hmem. set_solver.
Qed.

Lemma cov_app F1 F2 x : cov (F1 ++ F2) x <-> cov F1 x \/ cov F2 x.
Proof. unfold cov. set_solver. Qed.

Lemma sorted_all_pos F c : sorted F -> c ∈ F -> 1 <= snd c.
Proof. intros [_ Hn]. rewrite Forall_forall in Hn. apply Hn. Qed.

(** The free blocks after [b] has joined those before and after it. *)
Lemma free_blocks F G1 G2 b P1 p : sorted F -> F = G1 ++ G2 -> heap0 <= fst b -> 1 <= snd b ->
  (forall c, c ∈ G1 -> bend c <= fst b) -> (forall c, c ∈ G2 -> bend b <= fst c) -> (base, 0) :: G1 = P1 ++ [p] ->
  exists F', P1 ++ merge p (merge b G2) = (base, 0) :: F' /\ sorted F' /\ (forall x, cov F' x <-> cov F x \/ inb b x) /\
    (exists c, c ∈ (base, 0) :: F' /\ fst p = fst c) /\ (length F' <= S (length F))%nat /\
    (forall c, c ∈ F' -> (fst c = fst b \/ exists d, d ∈ F /\ fst c = fst d) /\ (bend c = bend b \/ exists d, d ∈ F /\ bend c = bend d)).
Proof.
  intros Hs -> Hlo Hb H1 H2 HP. pose proof (sorted_app_r _ _ Hs) as Hs2.
  assert (HM : sorted (merge b G2)) by (by apply merge_sorted).
  assert (Hlen : forall d G, (length (merge d G) <= S (length G))%nat) by (intros d [|e G]; cbn; [lia|]; destruct (_ =? _); cbn; lia).
  assert (Hcov : forall x, cov (merge b G2) x <-> inb b x \/ cov G2 x).
  { intros x. apply merge_cov; [lia|]. intros c Hc. pose proof (sorted_all_pos _ c Hs2 Hc). lia. }
  assert (Hel : forall c, c ∈ merge b G2 -> (fst c = fst b \/ exists d, d ∈ G2 /\ fst c = fst d) /\ (bend c = bend b \/ exists d, d ∈ G2 /\ bend c = bend d)).
  { intros c Hc. apply merge_elem in Hc as [[E Hc]|Hc]; [auto|]. split; right; by exists c. }
  destruct (nodes_last G1) as (P1' & p' & E' & _ & Hcase). rewrite HP in E'. apply app_inj_tail in E' as [<- <-].
  destruct Hcase as [(-> & -> & ->)|(P & -> & ->)].
  - exists (merge b G2). assert (E : merge (base, 0) (merge b G2) = (base, 0) :: merge b G2).
    { destruct (merge_cons b G2) as (n & M & ->). cbn. unfold bend. cbn [fst snd]. destruct (Z.eqb_spec (base + 0 * HDR) (fst b)); [unfold HDR in *; lia|done]. }
    rewrite E. cbn [app]. split; [done|]. split; [done|]. split; [intros x; rewrite Hcov; cbn; tauto|].
    split; [exists (base, 0); set_solver|]. split; [apply Hlen|]. exact Hel.
  - exists (P ++ merge p (merge b G2)). rewrite <- app_assoc in Hs. cbn [app] in Hs. apply sorted_nodes in Hs as (SP & SG & Hp & Q1 & Q2 & Q3).
    assert (Hle : forall c, c ∈ merge b G2 -> bend p <= fst c).
    { intros c Hc. assert (bend p <= fst b) by (apply H1; set_solver). apply merge_elem in Hc as [[-> _]|Hc]; [done|]. specialize (H2 c Hc). unfold bend, HDR in *. lia. }
    assert (HMM : sorted (merge p (merge b G2))) by (by apply merge_sorted). split; [done|]. split.
    { rewrite <- (app_nil_r (merge p _)). apply sorted_join; try done.
      - by split; [constructor|].
      - intros c d Hc Hd. apply merge_elem in Hd as [[-> _]|Hd]; [by apply Q1|]. specialize (Hle d Hd). specialize (Q1 c Hc). unfold bend, HDR in *. lia.
      - intros c d _ Hd. by apply elem_of_nil in Hd.
      - intros c d _ Hd. by apply elem_of_nil in Hd. }
    split.
    { intros x. rewrite !cov_app, merge_cov, Hcov; [|lia|intros c Hc; pose proof (sorted_all_pos _ c HM Hc); lia].
      assert (cov [p] x <-> inb p x) as ->; [|tauto]. unfold cov. set_solver. }
    split.
    { destruct (merge_cons p (merge b G2)) as (n & M & ->). exists (fst p, n). set_solver. }
    split; [rewrite !length_app; cbn; pose proof (Hlen p (merge b G2)); pose proof (Hlen b G2); lia|].
    intros c Hc. apply elem_of_app in Hc as [Hc|Hc]; [split; right; exists c; set_solver|].
    apply merge_elem in Hc as [[-> Hc]|Hc]; [|destruct (Hel c Hc) as [[?|(d & ? & ?)] [?|(e & ? & ?)]]; (split; [first [by left|right; exists d; set_solver]|first [by left|right; exists e; set_solver]])].
    split; [right; exists p; set_solver|]. destruct Hc as [->|(d & Hd & ->)]; [right; exists p; set_solver|].
    destruct (Hel d Hd) as [_ [->|(e & ? & ->)]]; [by left|right; exists e; set_solver].
Qed.

(** [free] of a block that overlaps no free one. *)
Lemma free_ok s F b fuel : ring s F -> heap0 <= fst b -> bend b <= u_brk s -> 1 <= snd b -> hsize (u_mem s) (fst b) = snd b ->
  (forall x, inb b x -> ~ cov F x) -> (length F + 2 <= fuel)%nat ->
  exists s' F', free fuel (fst b + HDR) s = Ret tt s' /\ ring s' F' /\ (forall x, cov F' x <-> cov F x \/ inb b x) /\
    u_brk s' = u_brk s /\ untouched F b (u_mem s) (u_mem s') /\ (length F' <= S (length F))%nat.
Proof.
  intros HR Hlo Hhi Hb Hsz Hd Hf. pose proof HR as [Hs Hin Hc _ Hbrk].
  destruct (ring_split F (fst b) Hs) as (G1 & G2 & E & H1 & H2').
  { intros c Hc' Hx. apply (Hd (fst b)); [by apply inb_start|by exists c]. }
  assert (H2 : forall c, c ∈ G2 -> bend b <= fst c).
  { intros c Hc'. destruct (decide (bend b <= fst c)) as [|Hn]; [done|]. exfalso. specialize (H2' c Hc'). apply (Hd (fst c)); [unfold inb; lia|].
    exists c. split; [set_solver|]. apply inb_start. apply (sorted_all_pos F); [done|set_solver]. }
  assert (H1' : forall c, c ∈ G1 -> fst c < fst b).
  { intros c Hc'. specialize (H1 c Hc'). assert (1 <= snd c) by (apply (sorted_all_pos F); [done|set_solver]). unfold bend, HDR in *. lia. }
  destruct (nodes_last G1) as (P1 & p & HP & Ep & _).
  pose proof (find_place_ok s F G1 G2 (fst b) fuel HR E Hlo H1' H2' Hf) as Hfp. rewrite <- Ep in Hfp.
  rewrite (free_eq _ _ _ _ Hfp). destruct (free_blocks F G1 G2 b P1 p Hs E Hlo Hb H1 H2 HP) as (F' & EF & SF & CF & PF & LF & BF).
  eexists _, F'. split; [done|]. split; [|split; [done|split; [done|split; [|done]]]].
  - split; cbn [u_mem u_brk u_freep].
    + done.
    + intros c Hc'. destruct (BF c Hc') as [Q1 Q2]. split.
      * destruct Q1 as [->|(d & Hd' & ->)]; [done|by apply Hin].
      * destruct Q2 as [->|(d & Hd' & ->)]; [done|by apply Hin].
    + rewrite <- EF. by eapply (free_ring s F G1 G2 b P1 p).
    + done.
    + done.
  - intros x Hx1 Hx2 Hx3. cbn [u_mem]. assert (Hxp : ~ (fst p <= x < fst p + HDR)).
    { assert (Hp : p ∈ (base, 0) :: G1) by (rewrite HP; set_solver). apply elem_of_cons in Hp as [->|Hp]; [done|]. intros Hx. apply Hx1. exists p.
      split; [set_solver|]. assert (1 <= snd p) by (apply (sorted_all_pos F); [done|set_solver]). unfold inb, bend, HDR in *. lia. }
    rewrite !link_out; [done| |done]. unfold inb, bend, HDR in *. lia.
Qed.

(** * Allocating *)

(** What a successful search has done: the block [(a, n)] was cut out of a free
    one. *)
Definition taken (s : uheap) (F : list block) (n : Z) (o : outcome uheap Z) : Prop :=
  exists s' F' a, o = Ret (a + HDR) s' /\ ring s' F' /\ (forall x, cov F x <-> cov F' x \/ inb (a, n) x) /\
    (forall x, inb (a, n) x -> ~ cov F' x) /\ hsize (u_mem s') a = n /\ heap0 <= a /\ bend (a, n) <= u_brk s /\ u_brk s' = u_brk s /\
    untouched F (a, n) (u_mem s) (u_mem s').

(** Cutting the end off a block, or the whole of it. *)
Definition cut (c : block) (n : Z) : list block := if snd c =? n then [] else [(fst c, snd c - n)].

Lemma cut_sorted F1 c F2 n : sorted (F1 ++ c :: F2) -> 1 <= n <= snd c -> sorted (F1 ++ cut c n ++ F2).
Proof.
  intros Hs Hn. apply sorted_nodes in Hs as (S1 & S2 & Hc & Q1 & Q2 & Q3). apply sorted_join; try done; unfold cut; destruct (Z.eqb_spec (snd c) n) as [E|E].
  - by split; [constructor|].
  - split; [repeat constructor|]. constructor; [cbn; lia|constructor].
  - intros d e _ He. by apply elem_of_nil in He.
  - intros d e Hd He. apply list_elem_of_singleton in He as ->. cbn. by apply Q1.
  - intros d e Hd. by apply elem_of_nil in Hd.
  - intros d e Hd He. apply list_elem_of_singleton in Hd as ->. specialize (Q2 e He). unfold bend, HDR in *. cbn. lia.
Qed.

Lemma cut_cov c n x : 1 <= n <= snd c -> cov (cut c n) x <-> inb (fst c, snd c - n) x.
Proof.
  intros Hn. unfold cut, cov. destruct (Z.eqb_spec (snd c) n) as [E|E].
  - split; [set_solver|]. unfold inb, bend, HDR. cbn. lia.
  - set_solver.
Qed.

(** The two ways in which [malloc] updates the ring when it stops at [c] with
    [b] before it. *)
Definition cut_mem (m : mem) (b c : block) (n : Z) : mem :=
  if snd c =? n then store64 m (fst b) (hptr m (fst c))
  else store 4 (store 4 m (fst c + 8) (snd c - n)) (fst c + (snd c - n) * HDR + 8) n.

Lemma malloc_stop k n b c s : hsize (u_mem s) (fst c) = snd c -> n <= snd c ->
  malloc_loop (S k) n (fst b) (fst c) s = Ret (fst c + (snd c - n) * HDR + HDR) (mk_uh (cut_mem (u_mem s) b c n) (u_brk s) (fst b)).
Proof.
  intros Hsz Hn. cbn [malloc_loop]. unfold get_size at 1. mstep. rewrite Hsz. destruct (Z.leb_spec n (snd c)); [|lia].
  unfold cut_mem, get_ptr, put_ptr, put_size, put_freep. destruct (Z.eqb_spec (snd c) n) as [E|E].
  - rewrite E. replace (fst c + (n - n) * HDR + HDR) with (fst c + HDR) by lia. done.
  - done.
Qed.

Lemma chain_last_link m m' P b z z' : chain m (P ++ [b]) z -> (forall c, c ∈ P -> same_hdr m m' (fst c)) ->
  hsize m' (fst b) = hsize m (fst b) -> hptr m' (fst b) = z' -> chain m' (P ++ [b]) z'.
Proof.
  intros Hc Hs H1 H2. apply links_app in Hc as [Hc1 Hc2]. cbn in Hc1, Hc2. destruct Hc2 as (Q1 & _ & _). apply links_app. split.
  - by eapply links_frame.
  - cbn. split; [by rewrite H1|]. by split.
Qed.

Lemma nodes_spaced s F : ring s F -> StronglySorted (fun b c => fst b + HDR <= fst c) ((base, 0) :: F).
Proof.
  intros HR. pose proof HR as [[Hs Hn] Hin _ _ _]. apply StronglySorted_cons. split.
  - apply Forall_forall. intros c Hc. destruct (Hin c Hc) as [? _]. cbn. lia.
  - eapply StronglySorted_mono; [|exact Hs]. intros x y Hx. unfold apart, bend, HDR. rewrite Forall_forall in Hn. apply Hn in Hx. lia.
Qed.

Lemma nodes_after F P b c R : (base, 0) :: F = (P ++ [b]) ++ c :: R -> exists F1, (base, 0) :: F1 = P ++ [b] /\ F = F1 ++ c :: R.
Proof. destruct P as [|x P]; cbn; intros [= -> ->]; [by exists []|by exists (P ++ [b])]. Qed.

(** The new ring in memory. *)
Lemma cut_chain s F P b c R n : ring s F -> (base, 0) :: F = (P ++ [b]) ++ c :: R -> 1 <= n <= snd c -> snd c < 2 ^ 32 ->
  chain (cut_mem (u_mem s) b c n) ((P ++ [b]) ++ cut c n ++ R) base /\ hsize (cut_mem (u_mem s) b c n) (fst c + (snd c - n) * HDR) = n.
Proof.
  intros HR HN Hn Hc32. pose proof (nodes_spaced s F HR) as Hsp. pose proof HR as [Hs Hin Hch _ Hbrk]. rewrite HN in Hch, Hsp.
  apply links_app in Hch as [HcP Hc]. cbn in HcP, Hc. destruct Hc as (Cs & Cp & CR).
  apply StronglySorted_app in Hsp as (X1 & Hsp1 & X2). apply StronglySorted_cons in X2 as [X2 _]. rewrite Forall_forall in X2.
  apply StronglySorted_app in Hsp1 as (X3 & _ & _). set (m := u_mem s) in *.
  assert (Hbc : fst b + HDR <= fst c) by (apply X1; set_solver).
  assert (HRb : forall d, d ∈ R -> bend c < fst d).
  { intros d Hd. destruct Hs as [Hs _]. destruct (nodes_after F P b c R HN) as (F1 & _ & ->).
    apply StronglySorted_app in Hs as (_ & _ & Hs). apply StronglySorted_cons in Hs as [Hs _]. rewrite Forall_forall in Hs. by apply Hs. }
  unfold cut_mem, cut. destruct (Z.eqb_spec (snd c) n) as [E|E].
  - cbn [app]. assert (Hfr : forall a, off_hdr (fst b) a -> same_hdr m (store64 m (fst b) (hptr m (fst c))) a).
    { intros a Ha. apply same_hdr_ext. intros x Hx. apply store_ptr_out. unfold off_hdr, HDR in *. lia. }
    split.
    + apply links_app. split.
      * eapply chain_last_link; [exact HcP| |by rewrite hsize_store_ptr|rewrite hptr_store; [done|]].
        -- intros d Hd. apply Hfr. right. apply X3; set_solver.
        -- rewrite Cp. pose proof (ring_member s F HR) as Hmem. destruct R as [|r R]; cbn; [unfold HDR in *; lia|].
           apply Hmem. destruct (nodes_after F P b c (r :: R) HN) as (F1 & _ & ->). set_solver.
      * eapply links_frame; [exact CR|]. intros d Hd. apply Hfr. left. specialize (X2 d Hd). unfold HDR in *. lia.
    + replace (fst c + (snd c - n) * HDR) with (fst c) by lia. rewrite <- E, <- Cs. apply Hfr. by left.
  - set (a := fst c + (snd c - n) * HDR). set (m1 := store 4 m (fst c + 8) (snd c - n)).
    assert (Ha : off_hdr (fst c) a) by (unfold off_hdr, a, HDR; lia).
    assert (Hae : a + HDR <= bend c) by (unfold a, bend, HDR; lia).
    assert (Hfr : forall d, off_hdr (fst c) d -> off_hdr a d -> same_hdr m (store 4 m1 (a + 8) n) d).
    { intros d Hd Hd'. apply same_hdr_ext. intros x Hx. rewrite store_size_out by (unfold off_hdr, HDR in *; lia). apply store_size_out. unfold off_hdr, HDR in *. lia. }
    assert (Hfa : same_hdr m1 (store 4 m1 (a + 8) n) (fst c)).
    { apply same_hdr_ext. intros x Hx. apply store_size_out. unfold off_hdr, HDR in *. lia. }
    split; [|apply hsize_store; lia].
    apply links_app. split; [|apply links_app; split].
    + eapply links_frame; [exact HcP|]. intros d Hd. assert (fst d + HDR <= fst c) by (apply X1; set_solver).
      apply Hfr; right; [done|]. unfold a, HDR in *. lia.
    + cbn. destruct Hfa as [Q1 Q2]. rewrite Q1, Q2. unfold m1. rewrite hptr_store_size, hsize_store by lia. done.
    + eapply links_frame; [exact CR|]. intros d Hd. specialize (HRb d Hd). apply Hfr; left; unfold bend, HDR in *; lia.
Qed.

(** Stopping at a block that is big enough. *)
Lemma cut_ok s F P b c R n k : ring s F -> (base, 0) :: F = (P ++ [b]) ++ c :: R -> 1 <= n <= snd c ->
  taken s F n (malloc_loop (S k) n (fst b) (fst c) s).
Proof.
  intros HR HN Hn. pose proof (ring_member s F HR) as Hmem. pose proof HR as [Hs Hin Hch _ Hbrk].
  destruct (nodes_after F P b c R HN) as (F1 & HF1 & HF). assert (HcF : c ∈ F) by (rewrite HF; set_solver).
  destruct (Hmem c HcF) as [Hc1 Hc2]. destruct (Hin c HcF) as [Hc3 Hc4].
  assert (Hsz : hsize (u_mem s) (fst c) = snd c).
  { rewrite HN in Hch. apply links_app in Hch as [_ Hch]. cbn in Hch. apply Hch. }
  rewrite malloc_stop by (done || lia). destruct (cut_chain s F P b c R n HR HN Hn ltac:(lia)) as [HC HS].
  set (a := fst c + (snd c - n) * HDR) in *.
  eexists _, (F1 ++ cut c n ++ R), a. split; [done|].
  assert (Hinb : forall x, inb c x <-> inb (fst c, snd c - n) x \/ inb (a, n) x) by (intros x; unfold inb, bend, a, HDR; cbn; lia).
  assert (Hcov : forall x, cov F x <-> cov (F1 ++ cut c n ++ R) x \/ inb (a, n) x).
  { intros x. rewrite HF, !cov_app, cut_cov by lia. change (c :: R) with ([c] ++ R). rewrite cov_app.
    assert (cov [c] x <-> inb c x) as -> by (unfold cov; set_solver). rewrite Hinb. tauto. }
  assert (Hss : sorted (F1 ++ cut c n ++ R)) by (rewrite HF in Hs; by apply cut_sorted).
  split_and!; try done.
  - split; cbn [u_mem u_brk u_freep]; try done.
    + intros d Hd. apply elem_of_app in Hd as [Hd|Hd]; [apply Hin; rewrite HF; set_solver|]. apply elem_of_app in Hd as [Hd|Hd]; [|apply Hin; rewrite HF; set_solver].
      unfold cut in Hd. destruct (_ =? _); [by apply elem_of_nil in Hd|]. apply list_elem_of_singleton in Hd as ->. unfold bend, HDR in *. cbn. lia.
    + change ((base, 0) :: F1 ++ cut c n ++ R) with (((base, 0) :: F1) ++ cut c n ++ R). by rewrite HF1.
    + exists b. split; [|done]. change ((base, 0) :: F1 ++ cut c n ++ R) with (((base, 0) :: F1) ++ cut c n ++ R). rewrite HF1. set_solver.
  - intros x Hx Hcx. rewrite HF in Hs. apply sorted_nodes in Hs as (_ & _ & _ & Q1 & Q2 & _). rewrite !cov_app, cut_cov in Hcx by lia.
    destruct Hcx as [(d & Hd & Hx')|[Hx'|(d & Hd & Hx')]].
    + specialize (Q1 d Hd). unfold inb, bend, a, HDR in *. cbn in *. lia.
    + unfold inb, bend, a, HDR in *. cbn in *. lia.
    + specialize (Q2 d Hd). unfold inb, bend, a, HDR in *. cbn in *. lia.
  - unfold a, HDR in *. lia.
  - unfold a, bend, HDR in *. cbn. lia.
  - intros x Hx1 _ Hx3. cbn [u_mem]. assert (Hxc : ~ inb c x) by (intros Hx; apply Hx1; by exists c).
    unfold cut_mem. destruct (_ =? _).
    + apply store_ptr_out. assert (Hb : b ∈ (base, 0) :: F) by (rewrite HN; set_solver). apply elem_of_cons in Hb as [->|Hb]; [done|].
      intros Hx. apply Hx1. exists b. split; [done|]. destruct (Hmem b Hb). unfold inb, bend, HDR in *. lia.
    + rewrite !store_size_out; [done|..]; unfold inb, bend, a, HDR in *; lia.
Qed.

(** Walking over nodes [L] none of which is [freep]. *)
Lemma walk_ok s F n : ring s F -> 1 <= n -> forall L P b R k, (base, 0) :: F = (P ++ [b]) ++ L ++ R ->
  (forall c, c ∈ L -> fst c <> u_freep s) ->
  taken s F n (malloc_loop (length L + k) n (fst b) (first (L ++ R) base) s) \/
  ((forall c, c ∈ L -> snd c < n) /\
   malloc_loop (length L + k) n (fst b) (first (L ++ R) base) s = malloc_loop k n (fst (List.last (b :: L) b)) (first R base) s).
Proof.
  intros HR Hn. induction L as [|c L IH]; intros P b R k HN Hfp.
  { right. split; [set_solver|done]. }
  cbn [length app first]. destruct (decide (n <= snd c)) as [Hc|Hc]; [left; by apply (cut_ok s F P b c (L ++ R))|].
  pose proof HR as [_ _ Hch _ _]. rewrite HN in Hch. apply links_app in Hch as [_ Hch]. cbn in Hch. destruct Hch as (C1 & C2 & _).
  change (S (length L) + k)%nat with (S (length L + k)). cbn [malloc_loop]. unfold get_size, get_ptr. mstep. rewrite C1.
  destruct (Z.leb_spec n (snd c)); [lia|]. mstep. destruct (Z.eqb_spec (fst c) (u_freep s)) as [Hx|_]; [exfalso; by apply (Hfp c ltac:(set_solver))|]. mstep. rewrite C2.
  destruct (IH (P ++ [b]) c R k) as [IH1|[IH1 IH2]]; [by rewrite HN, <- (app_assoc _ [c])|set_solver|by left|]. right.
  split; [intros d Hd; apply elem_of_cons in Hd as [->|Hd]; [lia|by apply IH1]|]. rewrite IH2. destruct L as [|d L]; [done|].
  assert (El : forall x y, List.last (d :: L) x = List.last (d :: L) y) by (clear; induction L as [|e L IH] in d |- *; intros; [done|]; exact (IH e x y)).
  cbn [List.last] in El |- *. by rewrite (El c b).
Qed.

(** When nothing fits the search asks for more memory and starts again. *)
Definition retry (k : nat) (n : Z) : M uheap Z :=
  do p <- morecore k n;
  if p =? 0 then ret 0 else do q <- get_ptr p; malloc_loop k n p q.

Lemma at_freep k n prev f s : hsize (u_mem s) f < n -> u_freep s = f -> malloc_loop (S k) n prev f s = retry k n s.
Proof.
  intros H1 <-. cbn [malloc_loop]. unfold get_size. mstep. destruct (Z.leb_spec n (hsize (u_mem s) (u_freep s))); [lia|]. mstep. by rewrite Z.eqb_refl.
Qed.

Lemma search_ok s F n fuel : ring s F -> 1 <= n -> (length F + 2 <= fuel)%nat ->
  taken s F n (malloc_loop fuel n (u_freep s) (hptr (u_mem s) (u_freep s)) s) \/
  ((forall c, c ∈ F -> snd c < n) /\ exists k, (fuel <= k + length F + 2)%nat /\
     malloc_loop fuel n (u_freep s) (hptr (u_mem s) (u_freep s)) s = retry k n s).
Proof.
  intros HR Hn Hfuel. pose proof (nodes_spaced s F HR) as Hsp. pose proof HR as [_ _ Hch (f & Hf & Ef) _].
  apply list_elem_of_split in Hf as (N1 & L & HN). pose proof Hch as Hch'. rewrite HN in Hch, Hsp. apply links_app in Hch as [_ Hch]. cbn in Hch. destruct Hch as (Cs & Cp & _).
  rewrite Ef, Cp. apply StronglySorted_app in Hsp as (X1 & _ & X2). apply StronglySorted_cons in X2 as [X2 _]. rewrite Forall_forall in X2.
  assert (Hlen : length ((base, 0) :: F) = length (N1 ++ f :: L)) by (by rewrite HN). rewrite length_app in Hlen. cbn [length] in Hlen.
  destruct (walk_ok s F n HR Hn L N1 f [] (fuel - length L)) as [T|[T1 T2]].
  { by rewrite app_nil_r, <- app_assoc. }
  { intros c Hc. specialize (X2 c Hc). rewrite Ef. unfold HDR in *. lia. }
  { left. rewrite app_nil_r in T. by replace (length L + (fuel - length L))%nat with fuel in T by lia. }
  rewrite app_nil_r in T2. replace (length L + (fuel - length L))%nat with fuel in T2 by lia. rewrite T2. cbn [first].
  destruct (fuel - length L)%nat as [|k1] eqn:Ek; [lia|]. cbn in Hch'. destruct Hch' as (B1 & B2 & _).
  destruct N1 as [|x M]; cbn [app] in HN; injection HN as <- HF.
  { right. subst L. split; [exact T1|]. exists k1. split; [lia|]. apply at_freep; [cbn in *; lia|exact Ef]. }
  assert (Hbf : base <> fst f).
  { specialize (X1 (base, 0) f ltac:(set_solver) ltac:(set_solver)). unfold HDR in X1. cbn in X1. lia. }
  cbn [malloc_loop]. unfold get_size, get_ptr. mstep. rewrite B1. destruct (Z.leb_spec n 0); [lia|]. mstep.
  destruct (Z.eqb_spec base (u_freep s)) as [Hx|_]; [congruence|]. mstep. rewrite HF in B2. rewrite B2. cbn [length] in Hlen.
  destruct (walk_ok s F n HR Hn M [] (base, 0) (f :: L) (k1 - length M)) as [T|[T3 T4]].
  { cbn [app]. by rewrite HF. }
  { intros c Hc. specialize (X1 c f ltac:(set_solver) ltac:(set_solver)). rewrite Ef. unfold HDR in *. lia. }
  { left. cbn [fst] in T. by replace (length M + (k1 - length M))%nat with k1 in T by lia. }
  cbn [fst] in T4. replace (length M + (k1 - length M))%nat with k1 in T4 by lia. rewrite T4. cbn [first].
  destruct (k1 - length M)%nat as [|k2] eqn:Ek2; [lia|].
  destruct (decide (n <= snd f)) as [Hfit|Hfit].
  - left. destruct (nodes_last M) as (P' & p' & E' & -> & _).
    apply (cut_ok s F P' _ f L); [done| |lia]. rewrite <- E'. cbn [app]. by rewrite HF.
  - right. split.
    + intros c Hc. rewrite HF in Hc. apply elem_of_app in Hc as [Hc|Hc]; [by apply T3|]. apply elem_of_cons in Hc as [->|Hc]; [lia|by apply T1].
    + exists k2. split; [lia|apply at_freep; [lia|done]].
Qed.

(** The number of units that [morecore] asks for. *)
Definition chunk (n : Z) : Z := if n <? 4096 then 4096 else n.

Lemma morecore_ok s F n k : ring s F -> 1 <= n < 2 ^ 27 -> (length F + 2 <= k)%nat ->
  (grants (u_brk s) (chunk n * HDR) = false /\ morecore k n s = Ret 0 s) \/
  (grants (u_brk s) (chunk n * HDR) = true /\ exists s' F', morecore k n s = Ret (u_freep s') s' /\ u_freep s' <> 0 /\ ring s' F' /\
     u_brk s' = u_brk s + chunk n * HDR /\ (forall x, cov F' x <-> cov F x \/ u_brk s <= x < u_brk s') /\
     (length F' <= S (length F))%nat /\ untouched F (u_brk s, chunk n) (u_mem s) (u_mem s')).
Proof.
  intros HR Hn Hk. pose proof HR as [Hs Hin Hch Hfp Hbrk]. unfold morecore. fold (chunk n).
  assert (Hch2 : 1 <= chunk n < 2 ^ 27 /\ n <= chunk n) by (unfold chunk; destruct (Z.ltb_spec n 4096); lia).
  rewrite i32_small by (unfold HDR; lia). unfold sbrk. destruct (grants (u_brk s) (chunk n * HDR)) eqn:Hg.
  2: { left. split; [done|]. unfold bind, get. by rewrite Hg. }
  right. split; [done|]. set (s1 := mk_uh (u_mem s) (u_brk s + chunk n * HDR) (u_freep s)).
  assert (Hsb : (do s <- get; if grants (u_brk s) (chunk n * HDR) then modify (fun s => mk_uh (u_mem s) (u_brk s + chunk n * HDR) (u_freep s)) ;;; ret (u_brk s) else ret (-1)) s = Ret (u_brk s) s1).
  { unfold bind, get. by rewrite Hg. }
  rewrite (bind_ret _ _ _ _ _ Hsb). destruct (Z.eqb_spec (u_brk s) (-1)); [unfold HDR in *; lia|]. unfold put_size. mstep. cbn [u_mem u_brk u_freep s1].
  set (b := (u_brk s, chunk n)). set (m2 := store 4 (u_mem s) (u_brk s + 8) (chunk n)). set (s2 := mk_uh m2 (u_brk s + chunk n * HDR) (u_freep s)).
  pose proof (grants_bound _ _ Hg) as Hgb. pose proof (ring_member s F HR) as Hmem.
  assert (Hout : forall x, ~ (u_brk s <= x < u_brk s + HDR) -> m2 x = u_mem s x) by (intros x; apply store_size_out).
  assert (HR2 : ring s2 F).
  { split; cbn [s2 u_mem u_brk u_freep]; try done.
    - intros c Hc. destruct (Hin c Hc). unfold HDR in *. lia.
    - eapply links_frame; [exact Hch|]. intros c Hc. apply same_hdr_ext. intros x Hx. apply Hout.
      apply elem_of_cons in Hc as [->|Hc]; [cbn in *; unfold HDR in *; lia|]. destruct (Hin c Hc), (Hmem c Hc). unfold bend, HDR in *. lia.
    - unfold HDR in *. lia. }
  assert (Hdis : forall x, inb b x -> ~ cov F x).
  { intros x Hx (c & Hc & Hx'). destruct (Hin c Hc). unfold inb, bend, b, HDR in *. cbn in *. lia. }
  destruct (free_ok s2 F b k HR2) as (s' & F' & Hfr & HR' & Hcov & Hbrk' & Hun & Hl); try done.
  { cbn. lia. } { cbn. lia. } { cbn. apply hsize_store. lia. }
  exists s', F'. cbn [fst b] in Hfr. rewrite (bind_ret _ _ _ _ _ Hfr). split; [done|].
  split. { destruct HR' as [_ Hin' _ (f & Hf & ->) _]. apply elem_of_cons in Hf as [->|Hf]; [cbn; lia|]. destruct (Hin' f Hf). unfold HDR in *. lia. }
  split; [done|]. split; [done|]. split; [|split; [done|]].
  - intros x. rewrite Hcov, Hbrk'. unfold inb, bend, b. cbn. tauto.
  - intros x H1 H2 H3. rewrite (Hun x H1 H2 H3). cbn. apply Hout. unfold inb, bend, HDR in *. cbn in *. lia.
Qed.

(** What a successful [malloc] has done; the heap may have grown. *)
Definition got (s : uheap) (F : list block) (n : Z) (r : Z) (s' : uheap) : Prop :=
  exists F' a, r = a + HDR /\ ring s' F' /\ u_brk s <= u_brk s' /\
    (forall x, cov F x \/ u_brk s <= x < u_brk s' <-> cov F' x \/ inb (a, n) x) /\ (forall x, inb (a, n) x -> ~ cov F' x) /\
    hsize (u_mem s') a = n /\ heap0 <= a /\
    (forall x, ~ cov F x -> x < u_brk s -> ~ (base <= x < base + HDR) -> u_mem s' x = u_mem s x).

(** A run of covered bytes lies in one block. *)
Lemma cov_block F b : sorted F -> 1 <= snd b -> (forall x, inb b x -> cov F x) -> exists c, c ∈ F /\ snd b <= snd c.
Proof.
  intros Hs Hb Hc. destruct (Hc (fst b) (inb_start b Hb)) as (c & Hcf & Hx). exists c. split; [done|].
  destruct (decide (bend b <= bend c)) as [|Hn]; [unfold inb, bend, HDR in *; lia|]. exfalso.
  destruct (Hc (bend c)) as (d & Hd & Hy); [unfold inb in *; lia|].
  apply list_elem_of_split in Hcf as (F1 & F2 & ->). apply sorted_nodes in Hs as (_ & _ & _ & Q1 & Q2 & _).
  apply elem_of_app in Hd as [Hd|Hd]; [specialize (Q1 d Hd); unfold inb in *; lia|].
  apply elem_of_cons in Hd as [->|Hd]; [unfold inb in *; lia|]. specialize (Q2 d Hd). unfold inb in *. lia.
Qed.

Lemma search_returns s F n fuel : ring s F -> 1 <= n < 2 ^ 27 -> (2 * length F + 5 <= fuel)%nat ->
  exists r s', malloc_loop fuel n (u_freep s) (hptr (u_mem s) (u_freep s)) s = Ret r s' /\
    (got s F n r s' \/ (r = 0 /\ s' = s /\ (forall c, c ∈ F -> snd c < n) /\ grants (u_brk s) (chunk n * HDR) = false)).
Proof.
  intros HR Hn Hf. pose proof HR as [Hs Hin _ _ _].
  destruct (search_ok s F n fuel HR ltac:(lia) ltac:(lia)) as [(s' & F' & a & -> & HR' & T1 & T2 & T3 & T4 & T5 & T6 & T7)|(Hno & k & Hk & ->)].
  { exists (a + HDR), s'. split; [done|]. left. exists F', a. split_and!; try done; [lia| |].
    - intros x. rewrite T1. rewrite T6. split; [intros [?|?]; [done|lia]|auto].
    - intros x H1 H2 H3. apply T7; [done| |done]. intros Hx. apply H1, T1. auto. }
  unfold retry. destruct (morecore_ok s F n k HR Hn ltac:(lia)) as [[Hg ->%(fun H => bind_ret _ _ _ _ (fun p => if p =? 0 then ret 0 else do q <- get_ptr p; malloc_loop k n p q) H)]|(Hg & s1 & F1 & Hm & Hne & HR1 & Hb1 & Hc1 & Hl1 & Hu1)].
  { exists 0, s. split; [done|]. by right. }
  rewrite (bind_ret _ _ _ _ _ Hm). destruct (Z.eqb_spec (u_freep s1) 0); [done|]. unfold get_ptr. mstep.
  assert (Hch2 : 1 <= chunk n < 2 ^ 27 /\ n <= chunk n) by (unfold chunk; destruct (Z.ltb_spec n 4096); lia).
  pose proof HR1 as [Hs1 _ _ _ _]. destruct (cov_block F1 (u_brk s, chunk n) Hs1) as (c & Hc & Hc2); [cbn; lia|..].
  { intros x Hx. apply Hc1. right. rewrite Hb1. done. }
  destruct (search_ok s1 F1 n k HR1 ltac:(lia) ltac:(lia)) as [(s' & F' & a & -> & HR' & T1 & T2 & T3 & T4 & T5 & T6 & T7)|(Hno1 & _)].
  2: { specialize (Hno1 c Hc). cbn in Hc2. lia. }
  exists (a + HDR), s'. split; [done|]. left. exists F', a. split_and!; try done.
  - rewrite T6, Hb1. unfold HDR. lia.
  - intros x. rewrite <- T1, Hc1, T6. tauto.
  - intros x H1 H2 H3. assert (Hn1 : ~ cov F1 x) by (rewrite Hc1; lia || (intros [?|?]; [done|lia])).
    rewrite T7; [|done| |done].
    + apply Hu1; [done| |done]. unfold inb. cbn. lia.
    + intros Hx. apply Hn1, T1. auto.
Qed.

(** * Programs that use the heap *)

(** Enough turns for any ring within the heap: a free block has at least one
    unit. *)
Definition fuel_for (s : uheap) : nat := (2 * Z.to_nat ((u_brk s - heap0) / HDR) + 5)%nat.

Lemma ring_length s F : ring s F -> (2 * length F + 5 <= fuel_for s)%nat.
Proof.
  intros HR. pose proof HR as [Hs Hin _ _ Hbrk].
  assert (H : forall G lo, sorted G -> (forall c, c ∈ G -> lo <= fst c /\ bend c <= u_brk s) -> lo <= u_brk s -> Z.of_nat (length G) * HDR <= u_brk s - lo).
  { induction G as [|b G IH]; intros lo [HG1 HG2] Hb Hlo; [cbn; lia|]. apply StronglySorted_cons in HG1 as [HG1 HG3]. apply Forall_cons in HG2 as [Hb1 HG2].
    rewrite Forall_forall in HG1. destruct (Hb b) as [Q1 Q2]; [set_solver|]. specialize (IH (bend b) (conj HG3 HG2)). cbn [length].
    assert (Z.of_nat (length G) * HDR <= u_brk s - bend b); [|unfold bend, HDR in *; lia]. apply IH; [|lia].
    intros c Hc. split; [specialize (HG1 c Hc); unfold apart in HG1; lia|]. apply Hb. set_solver. }
  specialize (H F heap0 Hs Hin ltac:(lia)). unfold fuel_for.
  assert (length F <= Z.to_nat ((u_brk s - heap0) / HDR))%nat; [|lia]. apply Nat2Z.inj_le. rewrite Z2Nat.id by (apply Z.div_pos; unfold HDR; lia).
  apply Z.div_le_lower_bound; unfold HDR in *; lia.
Qed.

Definition disjoint (b c : block) : Prop := forall x, ~ (inb b x /\ inb c x).

(** The heap with the live blocks [A]: before the first call, or a ring of free
    blocks that tiles the heap together with [A]. *)
Definition heap_inv (s : uheap) (A : list block) : Prop :=
  (u_freep s = 0 /\ A = [] /\ u_brk s = heap0) \/
  exists F, ring s F /\ (forall b, b ∈ A -> heap0 <= fst b /\ 1 <= snd b /\ hsize (u_mem s) (fst b) = snd b) /\
    (forall x, heap0 <= x < u_brk s <-> cov F x \/ cov A x) /\ (forall x, ~ (cov F x /\ cov A x)) /\ StronglySorted disjoint A.

(** A program calls [malloc] for less than 2 GiB, frees a live block once, or
    writes a byte into a live block behind its header. *)
Inductive ustep : uheap * list block -> uheap * list block -> Prop :=
| us_malloc s s' A nb r : 0 <= nb < 2 ^ 31 - 32 -> malloc (fuel_for s) nb s = Ret r s' ->
    ustep (s, A) (s', if r =? 0 then A else A ++ [(r - HDR, units nb)])
| us_free s s' A1 b A2 : free (fuel_for s) (fst b + HDR) s = Ret tt s' -> ustep (s, A1 ++ b :: A2) (s', A1 ++ A2)
| us_write s A b x v : b ∈ A -> fst b + HDR <= x < bend b -> ustep (s, A) (mk_uh (upd (u_mem s) x v) (u_brk s) (u_freep s), A).

Lemma units_bound nb : 0 <= nb < 2 ^ 31 - 32 -> 1 <= units nb < 2 ^ 27 /\ nb <= (units nb - 1) * HDR.
Proof. intros H. unfold units, HDR. rewrite u32_small by zlia. zlia. Qed.

(** The first call makes an empty ring. *)
Lemma malloc_first nb s fuel : u_freep s = 0 -> heap0 = u_brk s -> heap0 <= 2 ^ 36 ->
  exists s1, malloc fuel nb s = malloc_loop fuel (units nb) (u_freep s1) (hptr (u_mem s1) (u_freep s1)) s1 /\ ring s1 [] /\ u_brk s1 = u_brk s /\
    forall x, ~ (base <= x < base + HDR) -> u_mem s1 x = u_mem s x.
Proof.
  intros H0 Hb Hm. unfold malloc. mstep. rewrite H0. cbn [Z.eqb]. unfold put_freep, put_ptr, put_size. mstep.
  set (m1 := store 4 (store64 (u_mem s) base base) (base + 8) 0). exists (mk_uh m1 (u_brk s) base). split; [done|]. split; [|split; [done|]].
  - split; cbn [u_mem u_brk u_freep].
    + by split; constructor.
    + set_solver.
    + cbn. unfold m1. rewrite hptr_store_size, hsize_store, hptr_store by (unfold HDR in *; lia). done.
    + exists (base, 0). set_solver.
    + lia.
  - intros x Hx. cbn. unfold m1. rewrite store_size_out, store_ptr_out by done. done.
Qed.

Lemma malloc_later nb s fuel : u_freep s <> 0 -> malloc fuel nb s = malloc_loop fuel (units nb) (u_freep s) (hptr (u_mem s) (u_freep s)) s.
Proof. intros H0. unfold malloc. mstep. destruct (Z.eqb_spec (u_freep s) 0); [done|]. by mstep. Qed.

Lemma ring_freep s F : ring s F -> u_freep s <> 0.
Proof. intros [_ Hin _ (f & Hf & ->) _]. apply elem_of_cons in Hf as [->|Hf]; [cbn; lia|]. destruct (Hin f Hf). unfold HDR in *. lia. Qed.

Lemma cov_snoc A b x : cov (A ++ [b]) x <-> cov A x \/ inb b x.
Proof. rewrite cov_app. assert (cov [b] x <-> inb b x) as ->; [unfold cov; set_solver|done]. Qed.

(** [malloc] from any state of the heap. *)
Lemma malloc_inv s A nb : heap_inv s A -> heap0 <= 2 ^ 36 -> 0 <= nb < 2 ^ 31 - 32 ->
  exists r s', malloc (fuel_for s) nb s = Ret r s' /\
    (forall x, cov A x -> u_mem s' x = u_mem s x) /\
    ((r = 0 /\ heap_inv s' A /\ grants (u_brk s) (chunk (units nb) * HDR) = false) \/
     (r <> 0 /\ heap_inv s' (A ++ [(r - HDR, units nb)]) /\ forall x, r <= x < r + nb -> heap0 <= x < u_brk s' /\ ~ cov A x)).
Proof.
  intros Hi Hm Hnb. destruct (units_bound nb Hnb) as [Hu1 Hu2].
  assert (HS : exists s1 F, malloc (fuel_for s) nb s = malloc_loop (fuel_for s) (units nb) (u_freep s1) (hptr (u_mem s1) (u_freep s1)) s1 /\
    ring s1 F /\ u_brk s1 = u_brk s /\ (forall x, cov A x -> u_mem s1 x = u_mem s x) /\
    (forall b, b ∈ A -> heap0 <= fst b /\ 1 <= snd b /\ hsize (u_mem s1) (fst b) = snd b) /\
    (forall x, heap0 <= x < u_brk s <-> cov F x \/ cov A x) /\ (forall x, ~ (cov F x /\ cov A x)) /\ StronglySorted disjoint A).
  { destruct Hi as [(H0 & -> & Hb)|(F & HR & HA)].
    - destruct (malloc_first nb s (fuel_for s) H0 (eq_sym Hb) Hm) as (s1 & E & HR & Hb1 & _). exists s1, [].
      split; [done|]. split; [done|]. split; [done|]. assert (Hn : forall x, ~ cov [] x) by (intros x (c & Hc & _); by apply elem_of_nil in Hc).
      split; [intros x Hx; by destruct (Hn x)|]. split; [set_solver|]. split; [|split; [naive_solver|constructor]].
      intros x. split; [lia|]. intros [Hx|Hx]; by destruct (Hn x).
    - exists s, F. split; [apply malloc_later; by eapply ring_freep|]. by split_and!; try apply HA. }
  destruct HS as (s1 & F & -> & HR & Hb1 & Hmem1 & HA1 & HA2 & HA3 & HA4). pose proof (ring_length s1 F HR) as Hfu. unfold fuel_for in *. rewrite Hb1 in Hfu.
  assert (Hbase : forall x, cov A x -> ~ (base <= x < base + HDR) /\ ~ cov F x /\ x < u_brk s).
  { intros x Hx. assert (heap0 <= x < u_brk s) by (apply HA2; auto). split; [unfold HDR in *; lia|]. split; [intros Hf; by apply (HA3 x)|lia]. }
  assert (Hhdr : forall m', (forall x, cov A x -> m' x = u_mem s1 x) -> forall b, b ∈ A -> hsize m' (fst b) = snd b).
  { intros m' Hm' b Hb. destruct (HA1 b Hb) as (_ & Q2 & <-). apply (same_hdr_ext (u_mem s1)). intros x Hx. apply Hm'. exists b. split; [done|].
    unfold inb, bend, HDR in *. lia. }
  destruct (search_returns s1 F (units nb) _ HR Hu1 Hfu) as (r & s' & -> & [(F' & a & -> & HR' & G1 & G2 & G3 & G4 & G5 & G6)|(-> & -> & _ & Hg)]); eexists _, _; (split; [reflexivity|]).
  - assert (Hkeep : forall x, cov A x -> u_mem s' x = u_mem s1 x).
    { intros x Hx. destruct (Hbase x Hx) as (Q1 & Q2 & Q3). apply G6; [done|lia|done]. }
    assert (HnewA : forall x, inb (a, units nb) x -> ~ cov A x).
    { intros x Hx Hc. destruct (Hbase x Hc) as (_ & Q2 & Q3). assert (Hor : cov F x \/ u_brk s1 <= x < u_brk s') by (apply G2; auto). destruct Hor; [done|lia]. }
    split; [intros x Hx; rewrite Hkeep by done; by apply Hmem1|]. right. unfold HDR in *. split; [lia|]. replace (a + 16 - 16) with a by lia.
    assert (Htile : forall x, heap0 <= x < u_brk s' <-> cov F' x \/ cov (A ++ [(a, units nb)]) x).
    { intros x. rewrite cov_snoc. pose proof (HA2 x) as Hx1. pose proof (G2 x) as Hx2. pose proof HR as [_ _ _ _ Hbb]. split.
      - intros Hx. destruct (decide (x < u_brk s)) as [Hl|Hl].
        + destruct (proj1 Hx1 ltac:(lia)) as [Hf|Hf]; [|auto]. destruct (proj1 Hx2 (or_introl Hf)); auto.
        + destruct (proj1 Hx2 ltac:(right; lia)); auto.
      - intros Hx. assert (Hor : cov A x \/ (cov F' x \/ inb (a, units nb) x)) by tauto. destruct Hor as [Hc|Hc].
        + assert (heap0 <= x < u_brk s) by (apply Hx1; auto). lia.
        + apply Hx2 in Hc as [Hc|Hc]; [assert (heap0 <= x < u_brk s) by (apply Hx1; auto); lia|lia]. }
    split.
    + right. exists F'. split; [done|]. split; [|split; [done|split]].
      * intros b Hb. apply elem_of_app in Hb as [Hb|Hb].
        -- destruct (HA1 b Hb) as (Q1 & Q2 & _). split; [done|]. split; [done|]. by apply Hhdr.
        -- apply list_elem_of_singleton in Hb as ->. cbn. split; [done|]. split; [lia|done].
      * intros x [Hf Hx]. apply cov_snoc in Hx as [Hx|Hx]; [|by apply (G3 x)]. destruct (Hbase x Hx) as (_ & Q2 & Q3).
        destruct (proj2 (G2 x) (or_introl Hf)) as [?|?]; [done|lia].
      * apply StronglySorted_app. split_and!; [|done|repeat constructor].
        intros b c Hb Hc x [Hx1 Hx2]. apply list_elem_of_singleton in Hc as ->. apply (HnewA x Hx2). by exists b.
    + intros x Hx. assert (Hin : inb (a, units nb) x) by (unfold inb, bend, HDR in *; cbn; lia). split; [|by apply HnewA]. apply Htile. rewrite cov_snoc. auto.
  - split; [done|]. left. split; [done|]. split; [|by rewrite <- Hb1]. right. exists F. by rewrite Hb1.
Qed.

Lemma cov_mid A1 b A2 x : cov (A1 ++ b :: A2) x <-> cov (A1 ++ A2) x \/ inb b x.
Proof. unfold cov. set_solver. Qed.

(** [free] of a live block. *)
Lemma free_inv s A1 b A2 : heap_inv s (A1 ++ b :: A2) ->
  exists s', free (fuel_for s) (fst b + HDR) s = Ret tt s' /\ heap_inv s' (A1 ++ A2) /\ u_brk s' = u_brk s /\
    forall x, cov (A1 ++ A2) x -> u_mem s' x = u_mem s x.
Proof.
  intros [(_ & E & _)|(F & HR & HA1 & HA2 & HA3 & HA4)]; [by destruct A1|]. pose proof HR as [_ _ _ _ Hbrk].
  destruct (HA1 b) as (B1 & B2 & B3); [set_solver|]. assert (Hcb : forall x, inb b x -> cov (A1 ++ b :: A2) x) by (intros x Hx; apply cov_mid; auto).
  assert (Hend : bend b <= u_brk s).
  { assert (Hx : inb b (bend b - 1)) by (unfold inb, bend, HDR; lia). pose proof (proj2 (HA2 _) (or_intror (Hcb _ Hx))). lia. }
  assert (HdA : forall x, cov (A1 ++ A2) x -> ~ inb b x).
  { intros x (c & Hc & Hx) Hxb. apply StronglySorted_app in HA4 as (D1 & _ & D2). apply StronglySorted_cons in D2 as [D2 _]. rewrite Forall_forall in D2.
    apply elem_of_app in Hc as [Hc|Hc]; [by apply (D1 c b Hc ltac:(set_solver) x)|by apply (D2 c Hc x)]. }
  destruct (free_ok s F b (fuel_for s) HR B1 Hend B2 B3) as (s' & F' & Hf & HR' & Hcov & Hb' & Hun & _).
  { intros x Hx Hf. apply (HA3 x). split; [done|by apply Hcb]. }
  { pose proof (ring_length s F HR). lia. }
  assert (Hkeep : forall x, cov (A1 ++ A2) x -> u_mem s' x = u_mem s x).
  { intros x Hx. assert (HxA : cov (A1 ++ b :: A2) x) by (apply cov_mid; auto). apply Hun; [intros Hf'; by apply (HA3 x)|by apply HdA|].
    pose proof (proj2 (HA2 x) (or_intror HxA)). unfold HDR in *. lia. }
  exists s'. split; [done|]. split; [|done]. right. exists F'. split; [done|]. split; [|split; [|split]].
  - intros c Hc. destruct (HA1 c) as (Q1 & Q2 & Q3); [set_solver|]. split; [done|]. split; [done|]. rewrite <- Q3. apply (same_hdr_ext (u_mem s)).
    intros x Hx. apply Hkeep. exists c. split; [done|]. unfold inb, bend, HDR in *. lia.
  - intros x. rewrite Hb', HA2, Hcov, cov_mid. tauto.
  - intros x [Hf' Hx]. apply Hcov in Hf' as [Hf'|Hf']; [|by apply (HdA x)]. apply (HA3 x). rewrite cov_mid. auto.
  - apply StronglySorted_app in HA4 as (D1 & D2 & D3). apply StronglySorted_cons in D3 as [_ D3]. apply StronglySorted_app. split_and!; try done.
    intros c d Hc Hd. apply D1; set_solver.
Qed.

(** The headers of free and live blocks are behind no payload byte of another
    block. *)
Lemma user_write_inv s A b x v : heap_inv s A -> b ∈ A -> fst b + HDR <= x < bend b ->
  heap_inv (mk_uh (upd (u_mem s) x v) (u_brk s) (u_freep s)) A.
Proof.
  intros [(_ & -> & _)|(F & HR & HA1 & HA2 & HA3 & HA4)] Hb Hx; [by apply elem_of_nil in Hb|]. pose proof HR as [Hs Hin Hch Hfp Hbrk].
  assert (Hxb : inb b x) by (unfold inb, HDR in *; lia). assert (HxA : cov A x) by (by exists b). pose proof (proj2 (HA2 x) (or_intror HxA)) as Hxr.
  assert (Hout : forall a, ~ (a <= x < a + HDR) -> same_hdr (u_mem s) (upd (u_mem s) x v) a).
  { intros a Ha. apply same_hdr_ext. intros y Hy. apply upd_ne. lia. }
  right. exists F. split; [|split; [|done]].
  - split; cbn [u_mem u_brk u_freep]; try done. eapply links_frame; [exact Hch|]. intros c Hc. apply Hout.
    apply elem_of_cons in Hc as [->|Hc]; [cbn; unfold HDR in *; lia|]. intros Hc'. apply (HA3 x). split; [|done]. exists c. split; [done|].
    pose proof (sorted_all_pos F c Hs Hc). unfold inb, bend, HDR in *. lia.
  - intros c Hc. destruct (HA1 c Hc) as (Q1 & Q2 & Q3). split; [done|]. split; [done|]. cbn [u_mem]. rewrite <- Q3. apply Hout. intros Hc'.
    destruct (decide (c = b)) as [->|Hne]; [unfold HDR in *; lia|].
    assert (Hxc : inb c x) by (unfold inb, bend, HDR in *; lia). apply list_elem_of_split in Hc as (A1 & A2 & ->).
    apply StronglySorted_app in HA4 as (D1 & _ & D2). apply StronglySorted_cons in D2 as [D2 _]. rewrite Forall_forall in D2.
    apply elem_of_app in Hb as [Hb|Hb]; [by apply (D1 b c Hb ltac:(set_solver) x)|]. apply elem_of_cons in Hb as [->|Hb]; [done|by apply (D2 b Hb x)].
Qed.

Lemma heap_reachable m0 s A : heap0 <= 2 ^ 36 -> star ustep (mk_uh m0 heap0 0, []) (s, A) -> heap_inv s A.
Proof.
  intros Hm Hst. eapply (star_invariant ustep (fun x => heap_inv (fst x) (snd x)) (mk_uh m0 heap0 0, []) (s, A)); [|by left|exact Hst].
  intros x y Hi Hxy. revert Hi. destruct Hxy as [s1 s2 B nb r Hnb Hr|s1 s2 A1 b A2 Hf|s1 B b z v Hb Hz]; cbn [fst snd]; intros Hi.
  - destruct (malloc_inv s1 B nb Hi Hm Hnb) as (r' & s' & E & _ & H). rewrite Hr in E. injection E as <- <-.
    destruct (Z.eqb_spec r 0); destruct H as [(Hr0 & H & _)|(Hr0 & H & _)]; done.
  - destruct (free_inv s1 A1 b A2 Hi) as (s' & E & H & _). rewrite Hf in E. by injection E as <-.
  - by eapply user_write_inv.
Qed.


(** The size of a request is cut to an [int] on its way to [sbrk]: for 4294967295
    bytes the heap grows by 16, and [malloc] returns a block that starts where
    the heap ends. *)
Theorem malloc_size_truncated s k : u_freep s = 0 -> u_brk s = heap0 -> heap0 <= 2 ^ 36 -> grants (u_brk s) 16 = true ->
  exists s', malloc (S (S (S k))) (2 ^ 32 - 1) s = Ret (u_brk s') s' /\ u_brk s' = u_brk s + 16.
Proof.
  intros H0 Hb Hm Hg. destruct (malloc_first (2 ^ 32 - 1) s (S (S (S k))) H0 (eq_sym Hb) Hm) as (s1 & -> & HR & Hb1 & _).
  assert (Hn : units (2 ^ 32 - 1) = 2 ^ 28 + 1) by reflexivity. rewrite Hn. set (n := 2 ^ 28 + 1) in *.
  pose proof HR as [_ _ (C1 & C2 & _) (f & Hf & Ef) Hbrk]. apply list_elem_of_singleton in Hf as ->. cbn in C1, C2, Ef. rewrite Ef, C2.
  rewrite at_freep by (rewrite ?C1; done). unfold retry, morecore.
  assert (Hi : i32 ((if n <? 4096 then 4096 else n) * HDR) = 16) by reflexivity. rewrite Hi.
  set (s2 := mk_uh (u_mem s1) (u_brk s1 + 16) (u_freep s1)).
  assert (Hsb : sbrk 16 s1 = Ret (u_brk s1) s2) by (unfold sbrk, bind, get; by rewrite Hb1, Hg).
  assert (Hn1 : u_brk s1 <> -1) by (unfold HDR in *; lia). assert (Hb2 : base <> u_brk s1) by (unfold HDR in *; lia).
  set (m3 := store 4 (u_mem s1) (u_brk s1 + 8) n). set (s3 := mk_uh m3 (u_brk s1 + 16) base).
  assert (Hbm : forall x, base <= x < base + HDR -> m3 x = u_mem s1 x) by (intros x Hx; apply store_size_out; unfold HDR in *; lia).
  destruct (same_hdr_ext (u_mem s1) m3 base Hbm) as [D1 D2]. rewrite C1 in D2. rewrite C2 in D1.
  assert (Hfp : find_place (S (S k)) (u_brk s1) (u_freep s3) s3 = Ret base s3).
  { cbn [s3 u_freep find_place]. unfold get_ptr. mstep. cbn [s3 u_mem]. rewrite D1. destruct (Z.ltb_spec base (u_brk s1)); [|unfold HDR in *; lia].
    destruct (Z.ltb_spec (u_brk s1) base); [lia|]. cbn [andb]. by destruct (Z.leb_spec base base); [|lia]. }
  pose proof (free_eq (S (S k)) (u_brk s1) base s3 Hfp) as Hfr. cbn [s3 u_mem u_brk] in Hfr. rewrite D1 in Hfr.
  assert (Hsz3 : hsize m3 (u_brk s1) = n) by (by apply hsize_store).
  assert (E1 : link m3 (u_brk s1) base = store64 m3 (u_brk s1) base).
  { unfold link. rewrite Hsz3. destruct (Z.eqb_spec (u_brk s1 + n * HDR) base); [unfold n, HDR in *; lia|done]. }
  rewrite E1 in Hfr. set (m4 := store64 m3 (u_brk s1) base) in *.
  assert (Hb4 : same_hdr m3 m4 base) by (apply same_hdr_ext; intros x Hx; apply store_ptr_out; unfold HDR in *; lia). destruct Hb4 as [_ D4].
  assert (E2 : link m4 base (u_brk s1) = store64 m4 base (u_brk s1)).
  { unfold link. rewrite D4, D2. destruct (Z.eqb_spec (base + 0 * HDR) (u_brk s1)); [lia|done]. }
  rewrite E2 in Hfr. set (m5 := store64 m4 base (u_brk s1)) in *. set (s5 := mk_uh m5 (u_brk s1 + 16) base) in *.
  rewrite (bind_ret _ (u_freep s5) s1 s5).
  2: { rewrite (bind_ret _ _ _ _ _ Hsb). destruct (Z.eqb_spec (u_brk s1) (-1)); [done|]. unfold put_size. mstep. cbn [s2 u_mem u_brk u_freep]. rewrite Ef. fold m3 s3.
       by rewrite (bind_ret _ _ _ _ _ Hfr). }
  cbn [s5 u_freep]. destruct (Z.eqb_spec base 0); [lia|]. unfold get_ptr. mstep. cbn [s5 u_mem]. unfold m5 at 1. rewrite hptr_store by (unfold HDR in *; lia).
  assert (Hsz5 : hsize m5 (u_brk s1) = n).
  { transitivity (hsize m4 (u_brk s1)); [|by unfold m4; rewrite hsize_store_ptr]. apply (same_hdr_ext m4). intros x Hx. apply store_ptr_out. unfold HDR in *. lia. }
  pose proof (malloc_stop (S k) n (base, 0) (u_brk s1, n) s5 Hsz5 ltac:(cbn; lia)) as Hst. cbn [fst snd] in Hst. 
  exists (mk_uh (cut_mem m5 (base, 0) (u_brk s1, n) n) (u_brk s1 + 16) base). split; [rewrite Hst|]; cbn [s5 u_brk u_mem].
  - by replace (u_brk s1 + (n - n) * HDR + HDR) with (u_brk s1 + 16) by (unfold HDR; lia).
  - lia.
Qed.
End Umalloc.

(** * A run *)

Definition demo_grants (b n : Z) : bool := (0 <=? n) && (b + n <=? 2 ^ 20).

(** [malloc(10)], [malloc(100)], a byte written, [free] of the first. *)
Definition u0 : uheap := mk_uh (fun _ => 0) 4096 0.
Definition o1 := malloc 64 demo_grants (fuel_for 4096 u0) 10 u0.
Definition u1 : uheap := final o1.
Definition o2 := malloc 64 demo_grants (fuel_for 4096 u1) 100 u1.
Definition u2 : uheap := final o2.
Definition u3 : uheap := mk_uh (upd (u_mem u2) (value 0 o2 + 5) 77) (u_brk u2) (u_freep u2).
Definition u4 : uheap := final (free (fuel_for 4096 u3) (value 0 o1) u3).

Lemma demo_grants_bound b n : demo_grants b n = true -> b + n <= 2 ^ 36.
Proof. unfold demo_grants. intros H. apply andb_true_iff in H as [_ H]. apply Z.leb_le in H. lia. Qed.

Lemma demo_ustar : star (ustep 64 demo_grants 4096) (u0, []) (u4, [(value 0 o2 - HDR, units 100)]).
Proof.
  assert (R1 : returned o1 = true) by (vm_compute; reflexivity). assert (R2 : returned o2 = true) by (vm_compute; reflexivity).
  assert (R4 : returned (free (fuel_for 4096 u3) (value 0 o1) u3) = true) by (vm_compute; reflexivity).
  assert (V1 : (value 0 o1 =? 0) = false) by (vm_compute; reflexivity). assert (V2 : (value 0 o2 =? 0) = false) by (vm_compute; reflexivity).
  pose proof (us_malloc 64 demo_grants 4096 u0 u1 [] 10 _ ltac:(lia) (returned_eq 0 o1 R1)) as S1. rewrite V1 in S1.
  pose proof (us_malloc 64 demo_grants 4096 u1 u2 [(value 0 o1 - HDR, units 10)] 100 _ ltac:(lia) (returned_eq 0 o2 R2)) as S2. rewrite V2 in S2.
  pose proof (us_write 64 demo_grants 4096 u2 [(value 0 o1 - HDR, units 10); (value 0 o2 - HDR, units 100)] (value 0 o2 - HDR, units 100) (value 0 o2 + 5) 77
    ltac:(apply list_elem_of_further, list_elem_of_here) ltac:(unfold bend, HDR; cbn [fst snd]; change (units 100) with 8; lia)) as S3.
  pose proof (us_free 64 demo_grants 4096 u3 u4 [] (value 0 o1 - HDR, units 10) [(value 0 o2 - HDR, units 100)]) as S4. cbn [fst app] in S4.
  replace (value 0 o1 - HDR + HDR) with (value 0 o1) in S4 by lia. pose proof (returned_eq tt _ R4) as E.
  assert (Ht : forall u : unit, u = tt) by (by intros []). rewrite (Ht (value _ _)) in E. specialize (S4 E).
  exact (star_next _ _ _ _ S1 (star_next _ _ _ _ S2 (star_next _ _ _ _ S3 (star_next _ _ _ _ S4 (star_refl _ _))))).
Qed.

