(* ===== verification/Console.v ===== *)
(** The console ([kernel/console.c]): typed characters pass through a line
    editor into a ring of [INPUT_BUF_SIZE] bytes with three free-running
    counters, from which processes read whole lines. *)
From S2P Require Import Prelude.
Open Scope kern_scope.

Definition INPUT_BUF_SIZE : Z := 128.
Definition BACKSPACE : Z := 256.
(** [C(x)], control-x. *)
Definition Ctrl (x : Z) : Z := x - 64.
Definition CTRL_D : Z := Ctrl 68.
Definition CTRL_H : Z := Ctrl 72.
Definition CTRL_P : Z := Ctrl 80.
Definition CTRL_U : Z := Ctrl 85.
Definition DEL : Z := 127.
Definition NL : Z := 10.
Definition CR : Z := 13.

(** [cons], and the bytes echoed to the uart so far. *)
Record cons := mk_cons { c_buf : Z -> Z; c_r : Z; c_w : Z; c_e : Z; c_echo : list Z }.
Definition set_buf v s := mk_cons v (c_r s) (c_w s) (c_e s) (c_echo s).
Definition set_r v s := mk_cons (c_buf s) v (c_w s) (c_e s) (c_echo s).
Definition set_w v s := mk_cons (c_buf s) (c_r s) v (c_e s) (c_echo s).
Definition set_e v s := mk_cons (c_buf s) (c_r s) (c_w s) v (c_echo s).
Definition set_echo v s := mk_cons (c_buf s) (c_r s) (c_w s) (c_e s) v.

(** [uartputc_sync] as the console sees it. *)
Definition putc_sync (c : Z) : M cons unit := modify (fun s => set_echo (c_echo s ++ [u8 c]) s).

Definition consputc (c : Z) : M cons unit :=
  if c =? BACKSPACE then putc_sync 8 ;;; putc_sync 32 ;;; putc_sync 8 else putc_sync c.

(** The loop of control-U.  At most [INPUT_BUF_SIZE] characters can be erased. *)
Fixpoint kill_line (fuel : nat) : M cons unit :=
  match fuel with
  | O => no_fuel
  | S fuel =>
      do s <- get;
      if negb (c_e s =? c_w s) && negb (c_buf s (u32 (c_e s - 1) mod INPUT_BUF_SIZE) =? NL) then
        modify (set_e (u32 (c_e s - 1))) ;;;
        consputc BACKSPACE ;;;
        kill_line fuel
      else ret tt
  end.

Definition consoleintr (c : Z) : M cons unit :=
  if c =? CTRL_P then ret tt (* procdump *)
  else if c =? CTRL_U then kill_line (Z.to_nat INPUT_BUF_SIZE + 1)
  else if (c =? CTRL_H) || (c =? DEL) then
    do s <- get;
    if negb (c_e s =? c_w s) then
      modify (set_e (u32 (c_e s - 1))) ;;;
      consputc BACKSPACE
    else ret tt
  else
    do s <- get;
    if negb (c =? 0) && (u32 (c_e s - c_r s) <? INPUT_BUF_SIZE) then
      let c := if c =? CR then NL else c in
      consputc c ;;;
      modify (fun s => set_e (u32 (c_e s + 1)) (set_buf (upd (c_buf s) (c_e s mod INPUT_BUF_SIZE) (u8 c)) s)) ;;;
      do s <- get;
      if (c =? NL) || (c =? CTRL_D) || (u32 (c_e s - c_r s) =? INPUT_BUF_SIZE) then
        modify (fun s => set_w (c_e s) s) (* and wakeup(&cons.r) *)
      else ret tt
    else ret tt.

(** A turn of [consoleread] returns, with the number the call returns, or
    sleeps with [n] bytes still wanted; [out] are the bytes put in the
    caller's memory. *)
Inductive rturn := RDone (r : Z) (out : list Z) | RSleep (n : Z) (out : list Z).

Definition add_out (c : Z) (t : rturn) : rturn :=
  match t with RDone r out => RDone r (c :: out) | RSleep n out => RSleep n (c :: out) end.

(** The loop for a call that wanted [target] bytes and has room for [k] more,
    at address [dst]; [writable] says where [either_copyout] succeeds. *)
Fixpoint read_loop (k : nat) (writable : Z -> bool) (killed : bool) (target dst : Z) : M cons rturn :=
  match k with
  | O => ret (RDone target [])
  | S k' =>
      let n := Z.of_nat k in
      do s <- get;
      if c_r s =? c_w s then
        if killed then ret (RDone (-1) []) else ret (RSleep n [])
      else
        modify (set_r (u32 (c_r s + 1))) ;;;
        let c := c_buf s (c_r s mod INPUT_BUF_SIZE) in
        if c =? CTRL_D then
          (if n <? target then modify (fun s => set_r (u32 (c_r s - 1)) s) else ret tt) ;;;
          ret (RDone (target - n) [])
        else if negb (writable dst) then ret (RDone (target - n) [])
        else if c =? NL then ret (RDone (target - n + 1) [c])
        else
          do t <- read_loop k' writable killed target (dst + 1);
          ret (add_out c t)
  end.

Definition consoleread (writable : Z -> bool) (killed : bool) (target n dst : Z) : M cons rturn :=
  read_loop (Z.to_nat n) writable killed target dst.

(** * The line editor *)

(** What the console promises: lines that are complete and the line being
    typed. *)
Record line := mk_line { l_done : list Z; l_edit : list Z }.
Definition l_len (l : line) : Z := Z.of_nat (length (l_done l) + length (l_edit l)).

Definition commits (c : Z) (l : line) : bool := (c =? NL) || (c =? CTRL_D) || (l_len l =? INPUT_BUF_SIZE).

(** One key. *)
Definition key (c : Z) (l : line) : line :=
  if c =? CTRL_P then l
  else if c =? CTRL_U then mk_line (l_done l) []
  else if (c =? CTRL_H) || (c =? DEL) then mk_line (l_done l) (removelast (l_edit l))
  else if (c =? 0) || (INPUT_BUF_SIZE <=? l_len l) then l
  else
    let c := if c =? CR then NL else c in
    let l := mk_line (l_done l) (l_edit l ++ [c]) in
    if commits c l then mk_line (l_done l ++ l_edit l) [] else l.

(** What is echoed for it. *)
Definition echo (c : Z) (l : line) : list Z :=
  let erase := [8; 32; 8] in
  if c =? CTRL_P then []
  else if c =? CTRL_U then mjoin (replicate (length (l_edit l)) erase)
  else if (c =? CTRL_H) || (c =? DEL) then (if l_edit l is [] then [] else erase)
  else if (c =? 0) || (INPUT_BUF_SIZE <=? l_len l) then []
  else [if c =? CR then NL else c].

(** One reader, into memory that can be written: the bytes it gets, whether it
    returns (and then with this many bytes in all) and what is left. *)
Fixpoint take (k : nat) (target : Z) (d : list Z) : list Z * bool * list Z :=
  match k, d with
  | O, _ => ([], true, d)
  | S _, [] => ([], false, [])
  | S k', c :: d' =>
      if c =? CTRL_D then ([], true, if Z.of_nat k <? target then d else d')
      else if c =? NL then ([c], true, d')
      else let '(out, fin, r) := take k' target d' in (c :: out, fin, r)
  end.

(** * The ring holds the lines *)

(** The counters are 32-bit views of positions [R], [R + |done|] and
    [R + |done| + |edit|] of the input since boot. *)
Record rep (s : cons) (l : line) (R : Z) : Prop := {
  rp_r : c_r s = u32 R;
  rp_w : c_w s = u32 (R + Z.of_nat (length (l_done l)));
  rp_e : c_e s = u32 (R + l_len l);
  rp_len : l_len l <= INPUT_BUF_SIZE;
  rp_buf : forall i x, (l_done l ++ l_edit l) !! i = Some x -> c_buf s ((R + Z.of_nat i) mod INPUT_BUF_SIZE) = x;
  rp_nl : NL ∉ l_edit l
}.

Lemma u32_eq_iff a b : a <= b < a + 2 ^ 32 -> u32 a = u32 b <-> a = b.
Proof. unfold u32. intros H. split; [|by intros ->]. intros E. zlia. Qed.
Lemma u32_sub_l a b : u32 (u32 a - b) = u32 (a - b).
Proof. unfold u32. by rewrite Zminus_mod_idemp_l. Qed.
Lemma u32_add_l a b : u32 (u32 a + b) = u32 (a + b).
Proof. unfold u32. by rewrite Zplus_mod_idemp_l. Qed.
Lemma u32_diff a b : 0 <= a - b < 2 ^ 32 -> u32 (u32 a - u32 b) = a - b.
Proof. intros H. rewrite u32_sub_l. unfold u32. rewrite Zminus_mod_idemp_r. by apply Z.mod_small. Qed.
Lemma u32_slot x : u32 x mod INPUT_BUF_SIZE = x mod INPUT_BUF_SIZE.
Proof. unfold u32, INPUT_BUF_SIZE. apply Z.mod_mod_divide. by exists (2 ^ 25). Qed.

(** The last character of the line being typed. *)
Lemma rep_last s l R e x : rep s l R -> l_edit l = e ++ [x] -> c_buf s (u32 (c_e s - 1) mod INPUT_BUF_SIZE) = x.
Proof.
  intros [_ _ He _ Hb _] E. rewrite He, u32_sub_l, u32_slot. unfold l_len. rewrite E, length_app. cbn [length].
  replace (R + Z.of_nat (length (l_done l) + (length e + 1)) - 1) with (R + Z.of_nat (length (l_done l ++ e))) by (rewrite length_app; lia).
  apply Hb. rewrite E, app_assoc. apply list_lookup_middle. done.
Qed.

(** Erasing it. *)
Lemma rep_erase s l R e x o : rep s l R -> l_edit l = e ++ [x] -> rep (set_echo o (set_e (u32 (c_e s - 1)) s)) (mk_line (l_done l) e) R.
Proof.
  intros [Hr Hw He Hl Hb Hn] E. unfold l_len in *. rewrite E, length_app in He, Hl. cbn [length] in He, Hl. split; cbn; try done.
  - rewrite He, u32_sub_l. f_equal. unfold l_len. cbn. lia.
  - unfold l_len. cbn. lia.
  - intros i y Hi. apply Hb. rewrite E, app_assoc. by apply lookup_app_l_Some.
  - rewrite E in Hn. set_solver.
Qed.

Lemma rep_edit_empty s l R : rep s l R -> c_e s = c_w s <-> l_edit l = [].
Proof.
  intros [_ Hw He Hl _ _]. rewrite Hw, He. unfold l_len, INPUT_BUF_SIZE in *. split.
  - intros E. symmetry in E. rewrite u32_eq_iff in E by lia. destruct (l_edit l); [done|]. cbn [length] in E. lia.
  - intros ->. cbn. f_equal. lia.
Qed.

Lemma kill_line_ok fuel : forall s l R, rep s l R -> (length (l_edit l) < fuel)%nat ->
  exists s', kill_line fuel s = Ret tt s' /\ rep s' (mk_line (l_done l) []) R /\ c_echo s' = c_echo s ++ mjoin (replicate (length (l_edit l)) [8; 32; 8]).
Proof.
  induction fuel as [|fuel IH]; intros s l R Hr Hf; [lia|]. cbn [kill_line]. mstep.
  destruct (l_edit l) as [|y e'] eqn:E using rev_ind.
  - rewrite (proj2 (rep_edit_empty s l R Hr) E), Z.eqb_refl. cbn [negb andb]. exists s. split; [done|]. rewrite app_nil_r. split; [|done]. by destruct l as [d e]; cbn in *; subst e.
  - clear IHe'. destruct (Z.eqb_spec (c_e s) (c_w s)) as [Hx|_]; [apply (rep_edit_empty s l R Hr) in Hx; rewrite Hx in E; by destruct e'|].
    rewrite (rep_last s l R e' y Hr E). destruct (Z.eqb_spec y NL) as [->|_]; [exfalso; apply (rp_nl _ _ _ Hr); rewrite E; set_solver|]. cbn [negb andb]. mstep.
    unfold consputc. cbn [Z.eqb]. change (BACKSPACE =? BACKSPACE) with true. unfold putc_sync. mstep. cbn [set_echo set_e c_echo c_e c_w c_r c_buf].
    pose proof (rep_erase s l R e' y (((c_echo s ++ [u8 8]) ++ [u8 32]) ++ [u8 8]) Hr E) as Hr'.
    destruct (IH _ _ R Hr') as (s' & Hs & Hrep & Hecho); [cbn; rewrite length_app in Hf; cbn in Hf; lia|]. exists s'. split; [exact Hs|]. split; [done|].
    rewrite Hecho. cbn [l_edit set_echo c_echo]. rewrite length_app, Nat.add_1_r. cbn [length replicate mjoin list_join]. rewrite <- !app_assoc. done.
Qed.

(** Adding a character. *)
Lemma rep_add s l R c o : rep s l R -> l_len l < INPUT_BUF_SIZE -> c <> NL -> 0 <= c < 256 ->
  rep (set_e (u32 (c_e s + 1)) (set_buf (upd (c_buf s) (c_e s mod INPUT_BUF_SIZE) (u8 c)) (set_echo o s))) (mk_line (l_done l) (l_edit l ++ [c])) R.
Proof.
  intros [Hr Hw He Hl Hb Hn] Hlt Hc Hc8. unfold l_len in *. split; cbn; try done.
  - rewrite He, u32_add_l. f_equal. unfold l_len. cbn. rewrite length_app. cbn. lia.
  - unfold l_len. cbn. rewrite length_app. cbn. lia.
  - intros i y Hi. rewrite He, u32_slot. rewrite app_assoc in Hi. apply lookup_app_Some in Hi as [Hi|[Hge Hi]].
    + pose proof (lookup_lt_Some _ _ _ Hi) as Hlen. rewrite length_app in Hlen. rewrite upd_ne; [by apply Hb|]. unfold INPUT_BUF_SIZE in *. zlia.
    + rewrite length_app in Hge. destruct (i - length (l_done l ++ l_edit l))%nat as [|k] eqn:Ek; [|done]. injection Hi as <-. rewrite length_app in Ek.
      replace i with (length (l_done l) + length (l_edit l))%nat by lia. rewrite upd_eq. by apply Z.mod_small.
  - set_solver.
Qed.

(** Completing the line. *)
Lemma rep_commit s l R : rep s l R -> rep (set_w (c_e s) s) (mk_line (l_done l ++ l_edit l) []) R.
Proof.
  intros [Hr Hw He Hl Hb Hn]. unfold l_len in *. split; cbn; try done.
  - rewrite He, length_app. done.
  - rewrite He. unfold l_len. cbn. rewrite length_app. f_equal. lia.
  - unfold l_len. cbn. rewrite length_app. lia.
  - rewrite app_nil_r. exact Hb.
  - set_solver.
Qed.

(** A newline ends the line at once, so it may be added too. *)
Lemma rep_add_commit s l R c o : rep s l R -> l_len l < INPUT_BUF_SIZE -> 0 <= c < 256 ->
  let s' := set_e (u32 (c_e s + 1)) (set_buf (upd (c_buf s) (c_e s mod INPUT_BUF_SIZE) (u8 c)) (set_echo o s)) in
  rep (set_w (c_e s') s') (mk_line (l_done l ++ (l_edit l ++ [c])) []) R.
Proof.
  intros [Hr Hw He Hl Hb Hn] Hlt Hc8. unfold l_len in *. assert (Hn1 : u32 (c_e s + 1) = u32 (R + Z.of_nat (length (l_done l ++ l_edit l ++ [c])))).
  { rewrite He, u32_add_l, !length_app. cbn [length]. f_equal. lia. }
  split; cbn; try done.
  - rewrite Hn1. f_equal. unfold l_len. cbn. lia.
  - unfold l_len. cbn. rewrite !length_app. cbn. lia.
  - intros i y Hi. rewrite He, u32_slot. rewrite app_nil_r, app_assoc in Hi. apply lookup_app_Some in Hi as [Hi|[Hge Hi]].
    + pose proof (lookup_lt_Some _ _ _ Hi) as Hlen. rewrite length_app in Hlen. rewrite upd_ne; [by apply Hb|]. unfold INPUT_BUF_SIZE in *. zlia.
    + rewrite length_app in Hge. destruct (i - length (l_done l ++ l_edit l))%nat as [|k] eqn:Ek; [|done]. injection Hi as <-. rewrite length_app in Ek.
      replace i with (length (l_done l) + length (l_edit l))%nat by lia. rewrite upd_eq. by apply Z.mod_small.
  - set_solver.
Qed.

Lemma last_split {A} (e : list A) : e = [] \/ exists e' x, e = e' ++ [x] /\ removelast e = e'.
Proof. destruct e as [|x e _] using rev_ind; [by left|right]. exists e, x. split; [done|]. by rewrite removelast_last. Qed.

(** The handler does what the line editor does. *)
Lemma consoleintr_ok s l R c : rep s l R -> 0 <= c < 256 ->
  exists s', consoleintr c s = Ret tt s' /\ rep s' (key c l) R /\ c_echo s' = c_echo s ++ echo c l.
Proof.
  intros Hr Hc. unfold consoleintr, key, echo. destruct (c =? CTRL_P). { exists s. by rewrite app_nil_r. }
  pose proof (rp_len _ _ _ Hr) as Hlen. unfold l_len in Hlen.
  destruct (c =? CTRL_U). { apply (kill_line_ok _ s l R Hr). unfold INPUT_BUF_SIZE in *. lia. }
  destruct ((c =? CTRL_H) || (c =? DEL)).
  { mstep. destruct (last_split (l_edit l)) as [E|(e & x & E & El)].
    - rewrite (proj2 (rep_edit_empty s l R Hr) E), Z.eqb_refl, E. exists s. rewrite app_nil_r. split; [done|]. split; [|done].
      by destruct l as [d e0]; cbn in *; subst e0.
    - destruct (Z.eqb_spec (c_e s) (c_w s)) as [Hx|_]; [apply (rep_edit_empty s l R Hr) in Hx; rewrite Hx in E; by destruct e|]. cbn [negb]. mstep.
      eexists. split; [reflexivity|]. rewrite El. split; [by apply (rep_erase s l R e x)|]. cbn. rewrite E. destruct (e ++ [x]) eqn:Ee; [by destruct e|]. by rewrite <- !app_assoc. }
  mstep. assert (Hd : u32 (c_e s - c_r s) = l_len l).
  { rewrite (rp_e _ _ _ Hr), (rp_r _ _ _ Hr), u32_diff; unfold l_len, INPUT_BUF_SIZE in *; lia. }
  rewrite Hd. destruct (Z.eqb_spec c 0) as [H0|H0]; cbn [negb andb orb]. { exists s. by rewrite app_nil_r. }
  destruct (Z.ltb_spec (l_len l) INPUT_BUF_SIZE) as [Hlt|Hge].
  2: { destruct (Z.leb_spec INPUT_BUF_SIZE (l_len l)); [|lia]. exists s. by rewrite app_nil_r. }
  destruct (Z.leb_spec INPUT_BUF_SIZE (l_len l)); [lia|]. set (c' := if c =? CR then NL else c).
  assert (Hc' : 0 <= c' < 256) by (unfold c'; destruct (c =? CR); [done|lia]).
  assert (Hp : consputc c' s = Ret tt (set_echo (c_echo s ++ [c']) s)).
  { unfold consputc. destruct (Z.eqb_spec c' BACKSPACE); [unfold BACKSPACE in *; lia|]. unfold putc_sync, modify. do 4 f_equal. by apply Z.mod_small. }
  rewrite (bind_ret _ _ _ _ _ Hp). mstep. cbn [set_echo c_echo c_e c_w c_r c_buf set_e set_buf].
  set (s1 := set_e _ (set_buf _ _)). unfold commits.
  assert (Hd2 : u32 (u32 (c_e s + 1) - c_r s) = l_len (mk_line (l_done l) (l_edit l ++ [c']))).
  { rewrite (rp_e _ _ _ Hr), (rp_r _ _ _ Hr), u32_add_l, u32_diff; unfold l_len, INPUT_BUF_SIZE in *; cbn [l_done l_edit]; rewrite ?length_app; cbn [length]; lia. }
  rewrite Hd2. destruct ((c' =? NL) || (c' =? CTRL_D) || (l_len (mk_line (l_done l) (l_edit l ++ [c'])) =? INPUT_BUF_SIZE)) eqn:Hco.
  - eexists. split; [reflexivity|]. split; [|done]. by apply (rep_add_commit s l R c' (c_echo s ++ [c'])).
  - eexists. split; [reflexivity|]. split; [|done]. apply (rep_add s l R c' (c_echo s ++ [c'])); try done. intros ->. by rewrite Z.eqb_refl in Hco.
Qed.

(** Taking the first byte. *)
Lemma rep_take s l R c d : rep s l R -> l_done l = c :: d ->
  c_r s <> c_w s /\ c_buf s (c_r s mod INPUT_BUF_SIZE) = c /\ rep (set_r (u32 (c_r s + 1)) s) (mk_line d (l_edit l)) (R + 1).
Proof.
  intros [Hr Hw He Hl Hb Hn] E. unfold l_len in *. rewrite E in *. cbn [length] in *. split_and!.
  - rewrite Hr, Hw. rewrite u32_eq_iff; unfold INPUT_BUF_SIZE in *; lia.
  - rewrite Hr, u32_slot. specialize (Hb 0%nat c eq_refl). by rewrite Z.add_0_r in Hb.
  - split; cbn; try done.
    + rewrite Hr, u32_add_l. done.
    + rewrite Hw. f_equal. lia.
    + rewrite He. f_equal. unfold l_len. cbn. lia.
    + unfold l_len. cbn. lia.
    + intros i x Hi. specialize (Hb (S i) x Hi). replace (R + 1 + Z.of_nat i) with (R + Z.of_nat (S i)) by lia. done.
Qed.

Lemma rep_done_empty s l R : rep s l R -> l_done l = [] -> c_r s = c_w s.
Proof. intros [Hr Hw _ _ _ _] E. rewrite Hr, Hw, E. cbn. f_equal. lia. Qed.

(** The result of a turn, from what the spec says. *)
Definition turn_of (target n : Z) (killed : bool) (out : list Z) (fin : bool) : rturn :=
  if fin then RDone (target - n + Z.of_nat (length out)) out
  else if killed then RDone (-1) out else RSleep (n - Z.of_nat (length out)) out.

Lemma read_loop_ok killed target : forall k s l R dst, rep s l R -> Z.of_nat k <= target ->
  exists s' R', read_loop k (fun _ => true) killed target dst s =
      Ret (turn_of target (Z.of_nat k) killed (fst (fst (take k target (l_done l)))) (snd (fst (take k target (l_done l))))) s' /\
    rep s' (mk_line (snd (take k target (l_done l))) (l_edit l)) R' /\ c_echo s' = c_echo s.
Proof.
  induction k as [|k IH]; intros s l R dst Hr Ht; cbn [read_loop take].
  - exists s, R. cbn. split; [unfold turn_of, ret; cbn; do 2 f_equal; lia|]. by destruct l.
  - mstep. destruct (l_done l) as [|c d] eqn:E.
    + rewrite (rep_done_empty s l R Hr E), Z.eqb_refl. exists s, R. cbn [fst snd]. unfold turn_of. cbn [length].
      split; [by destruct killed; rewrite ?Z.sub_0_r|]. split; [|done]. by destruct l; cbn in *; subst.
    + destruct (rep_take s l R c d Hr E) as (Hne & Hc & Hr1). destruct (Z.eqb_spec (c_r s) (c_w s)); [done|]. mstep. rewrite Hc.
      destruct (c =? CTRL_D).
      { cbn [fst snd]. unfold turn_of. cbn [length]. rewrite Z.add_0_r. destruct (Z.ltb_spec (Z.of_nat (S k)) target).
        - mstep. eexists _, R. split; [reflexivity|]. split; [|done]. replace (set_r _ _) with s; [by destruct l; cbn in *; subst|].
          destruct s as [b r w e o]. unfold set_r. cbn. f_equal. pose proof (rp_r _ _ _ Hr) as Hx. cbn in Hx. rewrite Hx, u32_sub_l. replace (u32 R + 1 - 1) with (u32 R) by lia. symmetry. apply u32_small, u32_range.
        - mstep. eexists _, (R + 1). split; [reflexivity|]. split; [exact Hr1|done]. }
      cbn [negb]. destruct (c =? NL).
      { cbn [fst snd]. unfold turn_of. cbn [length]. eexists _, (R + 1). split; [done|]. split; [exact Hr1|done]. }
      destruct (IH _ _ (R + 1) (dst + 1) Hr1 ltac:(lia)) as (s' & R' & HIH & Hrep & Hecho). cbn [l_done l_edit] in HIH, Hrep.
      rewrite (bind_ret _ _ _ _ _ HIH). destruct (take k target d) as [[out fin] r] eqn:Etk. cbn [fst snd] in *.
      exists s', R'. split; [|done]. unfold ret. f_equal. unfold turn_of, add_out. destruct fin; cbn [length]; [f_equal; lia|]. destruct killed; [done|]. f_equal. lia.
Qed.

(** * Sessions *)

(** A key arrives, or a reader takes a turn: a call for [target] bytes of which
    [n] are still wanted. *)
Inductive cevent := EKey (c : Z) | ERead (killed : bool) (target n dst : Z).

Definition event_ok (e : cevent) : Prop :=
  match e with EKey c => 0 <= c < 256 | ERead _ target n _ => 0 <= n <= target end.

(** What the handler and [consoleread] do: the turns of the readers. *)
Fixpoint session (es : list cevent) : M cons (list rturn) :=
  match es with
  | [] => ret []
  | EKey c :: es => consoleintr c ;;; session es
  | ERead killed target n dst :: es =>
      do t <- consoleread (fun _ => true) killed target n dst;
      do ts <- session es;
      ret (t :: ts)
  end.

(** What the line editor says. *)
Fixpoint edited (es : list cevent) (l : line) : list rturn * list Z * line :=
  match es with
  | [] => ([], [], l)
  | EKey c :: es => let '(ts, o, l') := edited es (key c l) in (ts, echo c l ++ o, l')
  | ERead killed target n _ :: es =>
      let '(out, fin, d) := take (Z.to_nat n) target (l_done l) in
      let '(ts, o, l') := edited es (mk_line d (l_edit l)) in
      (turn_of target n killed out fin :: ts, o, l')
  end.

Lemma session_ok es : forall s l R, rep s l R -> Forall event_ok es ->
  exists s' R', session es s = Ret (fst (fst (edited es l))) s' /\ rep s' (snd (edited es l)) R' /\ c_echo s' = c_echo s ++ snd (fst (edited es l)).
Proof.
  induction es as [|e es IH]; intros s l R Hr He; cbn [session edited].
  { exists s, R. cbn. by rewrite app_nil_r. }
  apply Forall_cons in He as [He Hes]. destruct e as [c|killed target n dst]; cbn in He.
  - destruct (consoleintr_ok s l R c Hr He) as (s1 & H1 & Hr1 & E1). rewrite (bind_ret _ _ _ _ _ H1).
    destruct (IH s1 (key c l) R Hr1 Hes) as (s2 & R2 & H2 & Hr2 & E2). exists s2, R2. destruct (edited es (key c l)) as [[ts o] l'] eqn:E. cbn [fst snd] in *.
    split; [done|]. split; [done|]. rewrite E2, E1. by rewrite app_assoc.
  - destruct (read_loop_ok killed target (Z.to_nat n) s l R dst Hr ltac:(lia)) as (s1 & R1 & H1 & Hr1 & E1). unfold consoleread. rewrite (bind_ret _ _ _ _ _ H1).
    rewrite Z2Nat.id by lia. destruct (take (Z.to_nat n) target (l_done l)) as [[out fin] d] eqn:Etk. cbn [fst snd] in *.
    destruct (IH s1 (mk_line d (l_edit l)) R1 Hr1 Hes) as (s2 & R2 & H2 & Hr2 & E2). rewrite (bind_ret _ _ _ _ _ H2).
    exists s2, R2. destruct (edited es (mk_line d (l_edit l))) as [[ts o] l'] eqn:E. cbn [fst snd] in *. split; [done|]. split; [done|]. by rewrite E2, E1.
Qed.

(** Characters without a meaning of their own. *)
Definition plain (c : Z) : Prop := 0 < c < 256 /\ c ∉ [CTRL_D; CTRL_H; CTRL_P; CTRL_U; DEL; NL; CR].

Lemma plain_key c l : plain c -> l_len l < INPUT_BUF_SIZE - 1 -> key c l = mk_line (l_done l) (l_edit l ++ [c]).
Proof.
  intros [Hc Hn] Hl. rewrite !not_elem_of_cons in Hn. destruct Hn as (N1 & N2 & N3 & N4 & N5 & N6 & N7 & _). unfold key, commits.
  repeat match goal with |- context [c =? ?x] => destruct (Z.eqb_spec c x); [first [done|lia]|] end. cbn [orb].
  destruct (Z.leb_spec INPUT_BUF_SIZE (l_len l)); [lia|]. unfold l_len in *. cbn [l_done l_edit]. rewrite length_app. cbn [length].
  by destruct (Z.eqb_spec (Z.of_nat (length (l_done l) + (length (l_edit l) + 1))) INPUT_BUF_SIZE); [lia|].
Qed.

Lemma plain_keys t es : forall l, Forall plain t -> l_len l + Z.of_nat (length t) < INPUT_BUF_SIZE ->
  fst (fst (edited (map EKey t ++ es) l)) = fst (fst (edited es (mk_line (l_done l) (l_edit l ++ t)))).
Proof.
  induction t as [|c t IH]; intros l Ht Hl; cbn [map app edited].
  - rewrite app_nil_r. by destruct l.
  - apply Forall_cons in Ht as [Hc Ht]. cbn [length] in Hl. rewrite plain_key by (done || lia). specialize (IH (mk_line (l_done l) (l_edit l ++ [c])) Ht).
    destruct (edited (map EKey t ++ es) _) as [[ts o] l'] eqn:E. cbn [fst snd] in *. rewrite IH; [cbn; by rewrite <- app_assoc|].
    unfold l_len in *. cbn [l_done l_edit]. rewrite length_app. cbn [length]. lia.
Qed.

Lemma take_line t : forall k target d, Forall plain t -> (length t < k)%nat -> take k target (t ++ NL :: d) = (t ++ [NL], true, d).
Proof.
  induction t as [|c t IH]; intros k target d Ht Hk; (destruct k as [|k]; [cbn in Hk; lia|]); cbn [app take].
  - done.
  - apply Forall_cons in Ht as [[Hc Hn] Ht]. rewrite !not_elem_of_cons in Hn. destruct Hn as (N1 & _ & _ & _ & _ & N6 & _).
    destruct (Z.eqb_spec c CTRL_D); [done|]. destruct (Z.eqb_spec c NL); [done|]. cbn [length] in Hk. rewrite IH by (done || lia). done.
Qed.

Definition cons_zero (buf : Z -> Z) : cons := mk_cons buf 0 0 0 [].

Lemma zero_rep buf : rep (cons_zero buf) (mk_line [] []) 0.
Proof. split; cbn; try done. set_solver. Qed.

(** C22: any interleaving of typed characters and reading processes behaves as
    the line editor: the handler and [consoleread] always come back, every
    reader gets exactly the bytes the editor gives it, in order, and the uart is
    sent exactly its echo.  In particular a line of plain characters that fits
    the buffer, ended with return, is delivered unchanged to a reader with room
    for it, and a mistyped character that is erased leaves no trace. *)
Theorem console_edits_lines buf es : Forall event_ok es ->
  (exists s' R', session es (cons_zero buf) = Ret (fst (fst (edited es (mk_line [] [])))) s' /\
     rep s' (snd (edited es (mk_line [] []))) R' /\ c_echo s' = snd (fst (edited es (mk_line [] [])))) /\
  (forall t n dst, Forall plain t -> Z.of_nat (length t) < INPUT_BUF_SIZE - 1 -> Z.of_nat (length t) < n ->
     exists s', session (map EKey t ++ [EKey CR; ERead false n n dst]) (cons_zero buf) = Ret [RDone (Z.of_nat (length t) + 1) (t ++ [NL])] s') /\
  (forall c l, plain c -> l_len l < INPUT_BUF_SIZE - 1 -> key DEL (key c l) = l).
Proof.
  intros He. split; [exact (session_ok es _ _ 0 (zero_rep buf) He)|]. split.
  - intros t n dst Ht Hl Hn.
    destruct (session_ok (map EKey t ++ [EKey CR; ERead false n n dst]) _ _ 0 (zero_rep buf)) as (s' & R' & Hs & _ & _).
    { apply Forall_app. split; [|repeat constructor; cbn; try done; lia]. apply Forall_map. eapply Forall_impl; [exact Ht|]. intros c [Hc _]. cbn. lia. }
    exists s'. rewrite Hs. f_equal. rewrite plain_keys; [|done|unfold l_len; cbn; lia]. cbn [edited l_done l_edit app].
    assert (Hk : key CR (mk_line [] t) = mk_line (t ++ [NL]) []).
    { unfold key. cbn [Z.eqb]. unfold l_len at 1. cbn [l_done l_edit length]. change (CR =? CTRL_P) with false. change (CR =? CTRL_U) with false.
      change (CR =? CTRL_H) with false. change (CR =? DEL) with false. change (CR =? 0) with false. change (CR =? CR) with true. cbn [orb].
      destruct (Z.leb_spec INPUT_BUF_SIZE (Z.of_nat (0 + length t))); [lia|]. done. }
    rewrite Hk. cbn [l_done l_edit]. rewrite (take_line t (Z.to_nat n) n []) by (done || lia). cbn. unfold turn_of. rewrite length_app. cbn [length].
    do 2 f_equal. lia.
  - intros c l Hc Hl. rewrite (plain_key c l) by done. unfold key. cbn [l_done l_edit]. change (DEL =? CTRL_P) with false. change (DEL =? CTRL_U) with false.
    change (DEL =? CTRL_H) with false. change (DEL =? DEL) with true. cbn [orb]. rewrite removelast_last. by destruct l.
Qed.

(** "hl", erase, "i", return; a reader of up to 100 bytes. *)
Lemma console_edits_lines_witness :
  fst (fst (edited [EKey 104; EKey 108; EKey DEL; EKey 105; EKey CR; ERead false 100 100 0] (mk_line [] []))) = [RDone 3 [104; 105; NL]] /\
  exists s', session [EKey 104; EKey 108; EKey DEL; EKey 105; EKey CR; ERead false 100 100 0] (cons_zero (fun _ => 0)) = Ret [RDone 3 [104; 105; NL]] s'.
Proof.
  split; [reflexivity|].
  destruct (proj1 (console_edits_lines (fun _ => 0) [EKey 104; EKey 108; EKey DEL; EKey 105; EKey CR; ERead false 100 100 0]
    ltac:(repeat (apply Forall_cons; split; [unfold DEL, CR; cbn; lia|]); apply Forall_nil; exact I))) as (s' & R' & Hs & _ & _).
  exists s'. exact Hs.
Defined.
