(* ===== verification/Uart.v ===== *)
(** The serial port driver ([kernel/uart.c]) and [consolewrite], over the
    registers of a 16550: a transmit and a receive FIFO, a line status register
    and the registers that [uartinit] programs. *)
From S2P Require Import Prelude Console.
Open Scope kern_scope.

(** * The device *)

Definition RHR : Z := 0.
Definition THR : Z := 0.
Definition IER : Z := 1.
Definition FCR : Z := 2.
Definition ISR : Z := 2.
Definition LCR : Z := 3.
Definition LSR : Z := 5.
Definition IER_RX_ENABLE : Z := Z.shiftl 1 0.
Definition IER_TX_ENABLE : Z := Z.shiftl 1 1.
Definition FCR_FIFO_ENABLE : Z := Z.shiftl 1 0.
Definition FCR_FIFO_CLEAR : Z := Z.shiftl 3 1.
Definition LCR_EIGHT_BITS : Z := Z.shiftl 3 0.
Definition LCR_BAUD_LATCH : Z := Z.shiftl 1 7.
Definition LSR_RX_READY : Z := Z.shiftl 1 0.
Definition LSR_TX_IDLE : Z := Z.shiftl 1 5.
(** Bytes that the transmit FIFO holds. *)
Definition FIFO_SIZE : Z := 16.

(** The FIFOs, the bytes sent over the wire, the bytes lost because the
    transmit FIFO was full, and the programmed registers. *)
Record dev := mk_dev {
  d_tx : list Z; d_rx : list Z; d_wire : list Z; d_lost : list Z;
  d_ier : Z; d_lcr : Z; d_fcr : Z; d_divisor : Z
}.

Definition latched (d : dev) : bool := negb (Z.land (d_lcr d) LCR_BAUD_LATCH =? 0).

Definition dev_read (reg : Z) (d : dev) : Z * dev :=
  if reg =? RHR then
    match d_rx d with
    | c :: rx => (c, mk_dev (d_tx d) rx (d_wire d) (d_lost d) (d_ier d) (d_lcr d) (d_fcr d) (d_divisor d))
    | [] => (0, d)
    end
  else if reg =? LSR then
    (Z.lor (if d_rx d is [] then 0 else LSR_RX_READY) (if d_tx d is [] then LSR_TX_IDLE else 0), d)
  else (0, d).

(** With the latch bit of LCR set, registers 0 and 1 are the two bytes of the
    baud rate divisor. *)
Definition dev_write (reg v : Z) (d : dev) : dev :=
  let '(mk_dev tx rx wire lost ier lcr fcr div) := d in
  if reg =? LCR then mk_dev tx rx wire lost ier v fcr div
  else if reg =? FCR then
    let clear := negb (Z.land v FCR_FIFO_CLEAR =? 0) in
    mk_dev (if clear then [] else tx) (if clear then [] else rx) wire lost ier lcr v div
  else if reg =? 0 then
    if latched d then mk_dev tx rx wire lost ier lcr fcr (div / 256 * 256 + v)
    else if Z.of_nat (length tx) <? FIFO_SIZE then mk_dev (tx ++ [v]) rx wire lost ier lcr fcr div
    else mk_dev tx rx wire (lost ++ [v]) ier lcr fcr div
  else if reg =? IER then
    if latched d then mk_dev tx rx wire lost ier lcr fcr (div mod 256 + 256 * v)
    else mk_dev tx rx wire lost v lcr fcr div
  else d.

(** * The driver *)

(** The device, [tx_busy], and the console above. *)
Record uart := mk_uart { u_dev : dev; u_busy : bool; u_cons : cons }.

Definition ReadReg (reg : Z) : M uart Z :=
  do s <- get;
  let '(v, d) := dev_read reg (u_dev s) in
  put (mk_uart d (u_busy s) (u_cons s)) ;;; ret v.
Definition WriteReg (reg v : Z) : M uart unit :=
  modify (fun s => mk_uart (dev_write reg v (u_dev s)) (u_busy s) (u_cons s)).
Definition set_busy (b : bool) : M uart unit := modify (fun s => mk_uart (u_dev s) b (u_cons s)).
Definition on_cons {A} (m : M cons A) : M uart A := zoom u_cons (fun c s => mk_uart (u_dev s) (u_busy s) c) m.

Definition uartinit : M uart unit :=
  WriteReg IER 0 ;;;
  WriteReg LCR LCR_BAUD_LATCH ;;;
  WriteReg 0 3 ;;;
  WriteReg 1 0 ;;;
  WriteReg LCR LCR_EIGHT_BITS ;;;
  WriteReg FCR (Z.lor FCR_FIFO_ENABLE FCR_FIFO_CLEAR) ;;;
  WriteReg IER (Z.lor IER_TX_ENABLE IER_RX_ENABLE).

(** A turn of [uartwrite] with the bytes that are still to be sent: it ends, or
    sleeps with the rest. *)
Fixpoint uartwrite (buf : list Z) : M uart (option (list Z)) :=
  match buf with
  | [] => ret None
  | c :: rest =>
      do s <- get;
      if u_busy s then ret (Some buf)
      else WriteReg THR c ;;; set_busy true ;;; uartwrite rest
  end.

(** One pass of the polling loop of [uartputc_sync]: whether the byte went out. *)
Definition uartputc_sync (c : Z) : M uart bool :=
  do v <- ReadReg LSR;
  if Z.land v LSR_TX_IDLE =? 0 then ret false
  else WriteReg THR c ;;; ret true.

Definition uartgetc : M uart Z :=
  do v <- ReadReg LSR;
  if negb (Z.land v LSR_RX_READY =? 0) then ReadReg RHR else ret (-1).

(** The loop of [uartintr] over the characters that have arrived. *)
Fixpoint drain (fuel : nat) : M uart unit :=
  match fuel with
  | O => no_fuel
  | S fuel =>
      do c <- uartgetc;
      if c =? -1 then ret tt
      else on_cons (consoleintr c) ;;; drain fuel
  end.

Definition uartintr (fuel : nat) : M uart unit :=
  ReadReg ISR ;;;
  do v <- ReadReg LSR;
  (if negb (Z.land v LSR_TX_IDLE =? 0) then set_busy false (* and wakeup(&tx_chan) *) else ret tt) ;;;
  drain fuel.

(** [consolewrite]: the pieces of at most 32 bytes that go to [uartwrite], one
    after the other, and the result.  [copyin] gives the bytes at an address,
    or fails. *)
Definition WBUF : Z := 32.
Fixpoint consolewrite_loop (fuel : nat) (copyin : Z -> Z -> option (list Z)) (src n i : Z) : list (list Z) * Z :=
  match fuel with
  | O => ([], i)
  | S fuel =>
      if i <? n then
        let nn := if n - i <? WBUF then n - i else WBUF in
        match copyin (src + i) nn with
        | None => ([], i)
        | Some buf =>
            let '(bufs, r) := consolewrite_loop fuel copyin src n (i + nn) in (buf :: bufs, r)
        end
      else ([], i)
  end.
Definition consolewrite (copyin : Z -> Z -> option (list Z)) (src n : Z) : list (list Z) * Z :=
  consolewrite_loop (Z.to_nat n) copyin src n 0.

(** * Nothing is lost *)

(** The device, a writer, the kernel's own output and the interrupt handler
    take turns; [log] collects the bytes that the driver has handed over. *)
Inductive uart_step : uart * list Z -> uart * list Z -> Prop :=
| ut_wire b tx rx wire lost ier lcr fcr div busy c log :
    uart_step (mk_uart (mk_dev (b :: tx) rx wire lost ier lcr fcr div) busy c, log) (mk_uart (mk_dev tx rx (wire ++ [b]) lost ier lcr fcr div) busy c, log)
| ut_arrive k tx rx wire lost ier lcr fcr div busy c log : 0 <= k < 256 ->
    uart_step (mk_uart (mk_dev tx rx wire lost ier lcr fcr div) busy c, log) (mk_uart (mk_dev tx (rx ++ [k]) wire lost ier lcr fcr div) busy c, log)
| ut_write s s' log buf sent r : uartwrite buf s = Ret r s' -> buf = sent ++ default [] r -> uart_step (s, log) (s', log ++ sent)
| ut_putc s s' log c b : uartputc_sync c s = Ret b s' -> uart_step (s, log) (s', if b then log ++ [c] else log)
| ut_intr s s' log : uartintr (S (length (d_rx (u_dev s)))) s = Ret tt s' -> uart_step (s, log) (s', log).

Record uart_inv (s : uart) (log : list Z) : Prop := {
  ui_bytes : d_wire (u_dev s) ++ d_tx (u_dev s) = log;
  ui_lost : d_lost (u_dev s) = [];
  ui_latch : latched (u_dev s) = false;
  ui_fifo : (length (d_tx (u_dev s)) <= if u_busy s then 2 else 1)%nat;
  ui_rx : Forall (fun c => 0 <= c < 256) (d_rx (u_dev s));
  ui_cons : exists l R, rep (u_cons s) l R
}.

(** A byte written to THR while the FIFO has room. *)
Lemma thr_write d c : latched d = false -> (length (d_tx d) < 16)%nat ->
  dev_write THR c d = mk_dev (d_tx d ++ [c]) (d_rx d) (d_wire d) (d_lost d) (d_ier d) (d_lcr d) (d_fcr d) (d_divisor d).
Proof.
  intros Hl Hn. destruct d as [tx rx wire lost ier lcr fcr div]. cbn in *. rewrite Hl. destruct (Z.ltb_spec (Z.of_nat (length tx)) FIFO_SIZE); [done|]. unfold FIFO_SIZE in *. lia.
Qed.

Lemma lsr_idle d : (Z.land (fst (dev_read LSR d)) LSR_TX_IDLE =? 0) = negb (bool_decide (d_tx d = [])).
Proof. unfold dev_read. change (LSR =? RHR) with false. change (LSR =? LSR) with true. cbn [fst]. by destruct (d_rx d), (d_tx d). Qed.
Lemma lsr_ready d : (Z.land (fst (dev_read LSR d)) LSR_RX_READY =? 0) = bool_decide (d_rx d = []).
Proof. unfold dev_read. change (LSR =? RHR) with false. change (LSR =? LSR) with true. cbn [fst]. by destruct (d_rx d), (d_tx d). Qed.
Lemma lsr_read s : ReadReg LSR s = Ret (fst (dev_read LSR (u_dev s))) s.
Proof. unfold ReadReg. mstep. unfold dev_read. change (LSR =? RHR) with false. change (LSR =? LSR) with true. by destruct s. Qed.

Lemma thr_inv s log c (b : bool) : uart_inv s log -> (length (d_tx (u_dev s)) < if b then 2 else 1)%nat ->
  uart_inv (mk_uart (dev_write THR c (u_dev s)) b (u_cons s)) (log ++ [c]).
Proof.
  intros [H1 H2 H3 H4 H5 H6] Hn. assert (Hlt : (length (d_tx (u_dev s)) < 16)%nat) by (destruct b; lia).
  split; cbn [u_dev u_busy u_cons]; try done; rewrite (thr_write _ c H3 Hlt); cbn; try done.
  - by rewrite <- H1, app_assoc.
  - rewrite length_app. cbn [length]. destruct b; lia.
Qed.

(** A turn of a writer sends at most one byte. *)
Lemma uartwrite_eq buf s : uartwrite buf s =
  match buf with
  | [] => Ret None s
  | c :: rest => if u_busy s then Ret (Some buf) s
                 else Ret (if rest is [] then None else Some rest) (mk_uart (dev_write THR c (u_dev s)) true (u_cons s))
  end.
Proof. destruct buf as [|c rest]; [done|]. cbn [uartwrite]. mstep. destruct (u_busy s) eqn:E; [done|]. by destruct rest as [|d rest]. Qed.

Lemma uartwrite_inv s s' log buf sent r : uart_inv s log -> uartwrite buf s = Ret r s' -> buf = sent ++ default [] r -> uart_inv s' (log ++ sent).
Proof.
  intros Hi H Hs. rewrite uartwrite_eq in H. destruct buf as [|c rest].
  { injection H as <- <-. destruct sent; [by rewrite app_nil_r|done]. }
  destruct (u_busy s) eqn:Hb.
  { injection H as <- <-. cbn in Hs. assert (sent = []) as -> by (apply (app_inv_tail (c :: rest)); by rewrite <- Hs). by rewrite app_nil_r. }
  assert (Hr : default [] r = rest /\ s' = mk_uart (dev_write THR c (u_dev s)) true (u_cons s)) by (destruct rest; by injection H as <- <-).
  destruct Hr as [Hr ->]. rewrite Hr in Hs. assert (sent = [c]) as -> by (apply (app_inv_tail rest); by rewrite <- Hs).
  apply thr_inv; [done|]. pose proof (ui_fifo _ _ Hi) as Hf. rewrite Hb in Hf. lia.
Qed.

(** The handler passes every character that has arrived to the console. *)
Lemma drain_ok fuel : forall s log, uart_inv s log -> (length (d_rx (u_dev s)) < fuel)%nat ->
  exists s', drain fuel s = Ret tt s' /\ uart_inv s' log /\ d_rx (u_dev s') = [] /\ u_busy s' = u_busy s /\
    session (map EKey (d_rx (u_dev s))) (u_cons s) = Ret [] (u_cons s').
Proof.
  induction fuel as [|fuel IH]; intros s log Hi Hf; [lia|]. cbn [drain]. unfold uartgetc. pose proof Hi as [H1 H2 H3 H4 H5 (l & R & Hrep)].
  destruct s as [[tx rx wire lost ier lcr fcr div] busy c]. cbn [u_dev d_rx d_tx d_wire d_lost u_busy u_cons] in *. destruct rx as [|k rx].
  - exists (mk_uart (mk_dev tx [] wire lost ier lcr fcr div) busy c). split; [|done]. unfold bind at 1. unfold bind. rewrite lsr_read. rewrite lsr_ready. done.
  - apply Forall_cons in H5 as [Hk H5]. destruct (consoleintr_ok c l R k Hrep Hk) as (c1 & Hc & Hrep1 & _).
    set (s1 := mk_uart (mk_dev tx rx wire lost ier lcr fcr div) busy c1).
    assert (Hi1 : uart_inv s1 log) by (by split; try done; exists (key k l), R).
    destruct (IH s1 log Hi1) as (s' & Hd & Hi' & Hrx & Hb & Hse); [cbn in *; lia|]. exists s'. split.
    + rewrite (bind_ret _ k _ (mk_uart (mk_dev tx rx wire lost ier lcr fcr div) busy c)).
      2: { rewrite (bind_ret _ _ _ _ _ (lsr_read _)). rewrite lsr_ready. done. }
      destruct (Z.eqb_spec k (-1)); [lia|]. rewrite (bind_ret _ tt _ s1); [done|]. unfold on_cons, zoom. cbn [u_cons]. by rewrite Hc.
    + split; [done|]. split; [done|]. split; [done|]. cbn [map session]. rewrite (bind_ret _ _ _ _ _ Hc). exact Hse.
Qed.

Lemma uartintr_ok s log : uart_inv s log -> exists s', uartintr (S (length (d_rx (u_dev s)))) s = Ret tt s' /\ uart_inv s' log /\
  d_rx (u_dev s') = [] /\ u_busy s' = (if d_tx (u_dev s) is [] then false else u_busy s) /\
  session (map EKey (d_rx (u_dev s))) (u_cons s) = Ret [] (u_cons s').
Proof.
  intros Hi. unfold uartintr. assert (HI : ReadReg ISR s = Ret 0 s) by (by destruct s). rewrite (bind_ret _ _ _ _ _ HI), (bind_ret _ _ _ _ _ (lsr_read s)). rewrite lsr_idle, negb_involutive.
  pose proof Hi as [H1 H2 H3 H4 H5 H6]. destruct (d_tx (u_dev s)) as [|b tx] eqn:Ht.
  - rewrite bool_decide_eq_true_2 by done. unfold set_busy. mstep. set (s1 := mk_uart (u_dev s) false (u_cons s)).
    assert (Hi1 : uart_inv s1 log) by (split; cbn [s1 u_dev u_busy u_cons]; try done; rewrite Ht; [done|cbn; lia]).
    destruct (drain_ok (S (length (d_rx (u_dev s)))) s1 log Hi1) as (s' & Hd & Hi' & Hrx & Hb & Hse); [cbn; lia|]. by exists s'.
  - rewrite bool_decide_eq_false_2 by done. mstep. destruct (drain_ok (S (length (d_rx (u_dev s)))) s log Hi) as (s' & Hd & Hi' & Hrx & Hb & Hse); [lia|]. by exists s'.
Qed.

Lemma uart_step_inv x y : uart_step x y -> uart_inv (fst x) (snd x) -> uart_inv (fst y) (snd y).
Proof.
  destruct 1 as [b tx rx wire lost ier lcr fcr div busy c log|k tx rx wire lost ier lcr fcr div busy c log Hk|s s' log buf sent r Hw Hs|s s' log c b Hp|s s' log Hu]; cbn [fst snd]; intros Hi.
  - destruct Hi as [H1 H2 H3 H4 H5 H6]. cbn in *. split; cbn; try done; [by rewrite <- app_assoc|lia].
  - destruct Hi as [H1 H2 H3 H4 H5 H6]. cbn in *. split; cbn; try done. apply Forall_app. split; [done|]. by constructor.
  - by eapply uartwrite_inv.
  - unfold uartputc_sync in Hp. rewrite (bind_ret _ _ _ _ _ (lsr_read s)), lsr_idle in Hp. destruct (bool_decide_reflect (d_tx (u_dev s) = [])) as [Ht|Ht]; cbn [negb] in Hp.
    + unfold WriteReg in Hp. revert Hp. mstep. intros [= <- <-]. apply thr_inv; [done|]. rewrite Ht. destruct (u_busy s); cbn; lia.
    + by injection Hp as <- <-.
  - destruct (uartintr_ok s log Hi) as (s1 & H1 & Hi' & _). rewrite Hu in H1. by injection H1 as ->.
Qed.

Lemma uartinit_eq s : exists d, uartinit s = Ret tt (mk_uart d (u_busy s) (u_cons s)) /\
  d_tx d = [] /\ d_rx d = [] /\ d_wire d = d_wire (u_dev s) /\ d_lost d = d_lost (u_dev s) /\
  d_divisor d = 3 /\ d_lcr d = LCR_EIGHT_BITS /\ d_ier d = Z.lor IER_TX_ENABLE IER_RX_ENABLE /\ latched d = false.
Proof.
  destruct s as [[tx rx wire lost ier lcr fcr div] busy c]. unfold uartinit, WriteReg. mstep. eexists. split; [reflexivity|].
  assert (Hl : forall x, latched (mk_dev [] [] wire lost x LCR_EIGHT_BITS (Z.lor FCR_FIFO_ENABLE FCR_FIFO_CLEAR) 3) = false) by done.
  assert (E : forall d0, d_tx d0 = tx -> d_rx d0 = rx -> d_wire d0 = wire -> d_lost d0 = lost ->
    dev_write IER (Z.lor IER_TX_ENABLE IER_RX_ENABLE) (dev_write FCR (Z.lor FCR_FIFO_ENABLE FCR_FIFO_CLEAR) (dev_write LCR LCR_EIGHT_BITS
      (dev_write 1 0 (dev_write 0 3 (dev_write LCR LCR_BAUD_LATCH d0))))) =
    mk_dev [] [] wire lost (Z.lor IER_TX_ENABLE IER_RX_ENABLE) LCR_EIGHT_BITS (Z.lor FCR_FIFO_ENABLE FCR_FIFO_CLEAR) 3).
  { intros [tx0 rx0 wire0 lost0 ier0 lcr0 fcr0 div0] Ht Hr Hw Hlo. cbn in Ht, Hr, Hw, Hlo. subst.
    transitivity (mk_dev [] [] wire lost (Z.lor IER_TX_ENABLE IER_RX_ENABLE) LCR_EIGHT_BITS (Z.lor FCR_FIFO_ENABLE FCR_FIFO_CLEAR) ((div0 / 256 * 256 + 3) mod 256 + 256 * 0)); [reflexivity|].
    f_equal. zlia. }
  cbn [u_dev u_busy u_cons]. rewrite E; [done|..]; cbn; by destruct (latched _).
Qed.

Lemma consolewrite_spec copyin src n : forall fuel i bufs r, consolewrite_loop fuel copyin src n i = (bufs, r) -> i <= n ->
  (forall a k b, copyin a k = Some b -> Z.of_nat (length b) = k) ->
  Forall (fun b => Z.of_nat (length b) <= WBUF) bufs /\ r = i + Z.of_nat (length (mjoin bufs)) /\
  (n - i <= Z.of_nat fuel -> (forall a k, is_Some (copyin a k)) -> r = n).
Proof.
  induction fuel as [|fuel IH]; intros i bufs r H Hi Hcp; cbn [consolewrite_loop] in H.
  - injection H as <- <-. split; [constructor|]. split; [cbn; lia|]. lia.
  - destruct (Z.ltb_spec i n) as [Hlt|Hge]; [|injection H as <- <-; split; [constructor|]; split; [cbn; lia|lia]].
    set (nn := if n - i <? WBUF then n - i else WBUF) in *. assert (Hnn : 0 < nn <= n - i /\ nn <= WBUF) by (unfold nn, WBUF; destruct (Z.ltb_spec (n - i) 32); lia).
    destruct (copyin (src + i) nn) as [b|] eqn:Hc.
    + destruct (consolewrite_loop fuel copyin src n (i + nn)) as [bufs' r'] eqn:Hl. injection H as <- <-. pose proof (Hcp _ _ _ Hc) as Hb.
      destruct (IH (i + nn) bufs' r' Hl ltac:(lia) Hcp) as (I1 & I2 & I3). split; [by constructor; [lia|]|]. split.
      * change (mjoin (b :: bufs')) with (b ++ mjoin bufs'). rewrite length_app. lia.
      * intros Hf Hall. apply I3; [lia|done].
    + injection H as <- <-. split; [constructor|]. split; [cbn; lia|]. intros _ Hall. destruct (Hall (src + i) nn) as [? Hx]. by rewrite Hc in Hx.
Qed.


(** Two bytes are written while an echo is on its way. *)
Definition uart0 : uart := mk_uart (mk_dev [] [] [] [] 0 0 0 0) false (cons_zero (fun _ => 0)).
Definition uart1 : uart := final (uartinit uart0).
Definition uart2 : uart := final (uartputc_sync 33 uart1).
Definition uart3 : uart := final (uartwrite [104; 105] uart2).

