(* ===== verification/Printf.v ===== *)
(** Formatted output: [kernel/printf.c] and [user/printf.c].  The kernel's
    [printf] looks ahead after a percent sign, the user library's [vprintf]
    keeps a state between characters; both print numbers through a buffer of 20
    bytes. *)
From S2P Require Import Prelude.

(** * Numbers *)

(** [char digits[]] of the two files. *)
Definition kdigits (d : Z) : Z := if d <? 10 then 48 + d else 97 + (d - 10).
Definition udigits (d : Z) : Z := if d <? 10 then 48 + d else 65 + (d - 10).

Definition BUFLEN : nat := 20.
Definition MINUS : Z := 45.

(** [buf[i++] = c], undefined past the end of the buffer. *)
Definition push (buf : list Z) (c : Z) : option (list Z) :=
  if (length buf <? BUFLEN)%nat then Some (buf ++ [c]) else None.

(** The loop over the digits of the 64-bit [x], least significant first. *)
Fixpoint digit_loop (fuel : nat) (digits : Z -> Z) (x base : Z) (buf : list Z) : option (list Z) :=
  match fuel with
  | O => None
  | S fuel =>
      match push buf (digits (x mod base)) with
      | None => None
      | Some buf => if x / base =? 0 then Some buf else digit_loop fuel digits (x / base) base buf
      end
  end.

(** The kernel's [printint]: the bytes that go to [consputc]; [xx] is a
    [long long]. *)
Definition i64 (x : Z) : Z := (x + 2 ^ 63) mod 2 ^ 64 - 2 ^ 63.
Definition printint (digits : Z -> Z) (xx base : Z) (sign : bool) : option (list Z) :=
  let sign := sign && (xx <? 0) in
  let x := if sign then u64 (- xx) else u64 xx in
  match digit_loop 64 digits x base [] with
  | None => None
  | Some buf =>
      match (if sign then push buf MINUS else Some buf) with
      | None => None
      | Some buf => Some (rev buf)
      end
  end.

(** The user library's [printint]. *)
Definition uprintint (digits : Z -> Z) (xx base : Z) (sgn : bool) : option (list Z) :=
  let '(neg, x) := if sgn && (xx <? 0) then (true, u64 (- xx)) else (false, u64 xx) in
  match digit_loop 64 digits x base [] with
  | None => None
  | Some buf =>
      match (if neg then push buf MINUS else Some buf) with
      | None => None
      | Some buf => Some (rev buf)
      end
  end.

(** [printptr] of both: 16 times the top four bits. *)
Fixpoint nibbles (k : nat) (digits : Z -> Z) (x : Z) : list Z :=
  match k with
  | O => []
  | S k => digits (Z.shiftr x 60) :: nibbles k digits (u64 (Z.shiftl x 4))
  end.
Definition printptr (digits : Z -> Z) (x : Z) : list Z := 48 :: 120 :: nibbles 16 digits x.

(** * Formats *)

Section Format.
(** The table of digits, what is output for a character, the format with its
    final zero, the arguments as 64-bit slots, and the bytes of the string at an
    address. *)
Context (digits : Z -> Z) (putc : Z -> list Z) (fmt : list Z) (args : nat -> Z) (str : Z -> list Z).

Definition fch (i : nat) : Z := u8 (nth i fmt 0).
Definition NULLSTR : list Z := [40; 110; 117; 108; 108; 41].
(** [%s]. *)
Definition print_str (a : Z) : list Z := mjoin (putc <$> (if a =? 0 then NULLSTR else str a)).

Definition ch_d := 100.
Definition ch_l := 108.
Definition ch_u := 117.
Definition ch_x := 120.
Definition ch_p := 112.
Definition ch_c := 99.
Definition ch_s := 115.
Definition PERCENT := 37.

Definition mapp (a b : option (list Z)) : option (list Z) :=
  match a, b with Some x, Some y => Some (x ++ y) | _, _ => None end.
Definition puts (o : option (list Z)) : option (list Z) := match o with Some l => Some (mjoin (putc <$> l)) | None => None end.

(** The kernel's [printf] from position [i] with the next argument [k]. *)
Fixpoint printf (fuel : nat) (i k : nat) : option (list Z) :=
  match fuel with
  | O => None
  | S fuel =>
      let cx := fch i in
      if cx =? 0 then Some []
      else if negb (cx =? PERCENT) then mapp (Some (putc cx)) (printf fuel (i + 1) k)
      else
        let i := (i + 1)%nat in
        let c0 := fch i in
        let c1 := if c0 =? 0 then 0 else fch (i + 1) in
        let c2 := if c1 =? 0 then 0 else fch (i + 2) in
        let arg := args k in
        if c0 =? ch_d then mapp (puts (printint digits (i32 arg) 10 true)) (printf fuel (i + 1) (S k))
        else if (c0 =? ch_l) && (c1 =? ch_d) then mapp (puts (printint digits (i64 arg) 10 true)) (printf fuel (i + 2) (S k))
        else if (c0 =? ch_l) && (c1 =? ch_l) && (c2 =? ch_d) then mapp (puts (printint digits (i64 arg) 10 true)) (printf fuel (i + 3) (S k))
        else if c0 =? ch_u then mapp (puts (printint digits (u32 arg) 10 false)) (printf fuel (i + 1) (S k))
        else if (c0 =? ch_l) && (c1 =? ch_u) then mapp (puts (printint digits (i64 arg) 10 false)) (printf fuel (i + 2) (S k))
        else if (c0 =? ch_l) && (c1 =? ch_l) && (c2 =? ch_u) then mapp (puts (printint digits (i64 arg) 10 false)) (printf fuel (i + 3) (S k))
        else if c0 =? ch_x then mapp (puts (printint digits (u32 arg) 16 false)) (printf fuel (i + 1) (S k))
        else if (c0 =? ch_l) && (c1 =? ch_x) then mapp (puts (printint digits (i64 arg) 16 false)) (printf fuel (i + 2) (S k))
        else if (c0 =? ch_l) && (c1 =? ch_l) && (c2 =? ch_x) then mapp (puts (printint digits (i64 arg) 16 false)) (printf fuel (i + 3) (S k))
        else if c0 =? ch_p then mapp (puts (Some (printptr digits (u64 arg)))) (printf fuel (i + 1) (S k))
        else if c0 =? ch_c then mapp (Some (putc (u32 arg))) (printf fuel (i + 1) (S k))
        else if c0 =? ch_s then mapp (Some (print_str (u64 arg))) (printf fuel (i + 1) (S k))
        else if c0 =? PERCENT then mapp (Some (putc PERCENT)) (printf fuel (i + 1) k)
        else if c0 =? 0 then Some []
        else mapp (Some (putc PERCENT ++ putc c0)) (printf fuel (i + 1) k)
  end.

(** The user library's [vprintf]; [st] is whether [state] is a percent sign. *)
Fixpoint vprintf (fuel : nat) (i : nat) (st : bool) (k : nat) : option (list Z) :=
  match fuel with
  | O => None
  | S fuel =>
      if nth i fmt 0 =? 0 then Some []
      else
        let c0 := fch i in
        if negb st then
          if c0 =? PERCENT then vprintf fuel (i + 1) true k
          else mapp (Some (putc c0)) (vprintf fuel (i + 1) false k)
        else
          let c1 := if c0 =? 0 then 0 else fch (i + 1) in
          let c2 := if c1 =? 0 then 0 else fch (i + 2) in
          let arg := args k in
          if c0 =? ch_d then mapp (puts (uprintint digits (i32 arg) 10 true)) (vprintf fuel (i + 1) false (S k))
          else if (c0 =? ch_l) && (c1 =? ch_d) then mapp (puts (uprintint digits (i64 arg) 10 true)) (vprintf fuel (i + 2) false (S k))
          else if (c0 =? ch_l) && (c1 =? ch_l) && (c2 =? ch_d) then mapp (puts (uprintint digits (i64 arg) 10 true)) (vprintf fuel (i + 3) false (S k))
          else if c0 =? ch_u then mapp (puts (uprintint digits (u32 arg) 10 false)) (vprintf fuel (i + 1) false (S k))
          else if (c0 =? ch_l) && (c1 =? ch_u) then mapp (puts (uprintint digits (i64 arg) 10 false)) (vprintf fuel (i + 2) false (S k))
          else if (c0 =? ch_l) && (c1 =? ch_l) && (c2 =? ch_u) then mapp (puts (uprintint digits (i64 arg) 10 false)) (vprintf fuel (i + 3) false (S k))
          else if c0 =? ch_x then mapp (puts (uprintint digits (u32 arg) 16 false)) (vprintf fuel (i + 1) false (S k))
          else if (c0 =? ch_l) && (c1 =? ch_x) then mapp (puts (uprintint digits (i64 arg) 16 false)) (vprintf fuel (i + 2) false (S k))
          else if (c0 =? ch_l) && (c1 =? ch_l) && (c2 =? ch_x) then mapp (puts (uprintint digits (i64 arg) 16 false)) (vprintf fuel (i + 3) false (S k))
          else if c0 =? ch_p then mapp (puts (Some (printptr digits (u64 arg)))) (vprintf fuel (i + 1) false (S k))
          else if c0 =? ch_c then mapp (Some (putc (u32 arg))) (vprintf fuel (i + 1) false (S k))
          else if c0 =? ch_s then mapp (Some (print_str (u64 arg))) (vprintf fuel (i + 1) false (S k))
          else if c0 =? PERCENT then mapp (Some (putc PERCENT)) (vprintf fuel (i + 1) false k)
          else mapp (Some (putc PERCENT ++ putc c0)) (vprintf fuel (i + 1) false k)
  end.
End Format.

(** What is output for a character: the kernel's console, with its own code for
    backspace, and a file. *)
Definition kputc (c : Z) : list Z := if c =? 256 then [8; 32; 8] else [u8 c].
Definition uputc (c : Z) : list Z := [u8 c].

(** * Numbers are printed in full *)

(** Value of digits, least significant first. *)
Fixpoint le_value (base : Z) (ds : list Z) : Z :=
  match ds with [] => 0 | d :: ds => d + base * le_value base ds end.

Lemma digit_loop_ok digits base : 2 <= base -> forall m fuel x buf, 0 <= x < base ^ Z.of_nat (S m) -> (length buf + S m <= BUFLEN)%nat -> (S m <= fuel)%nat ->
  exists ds, digit_loop fuel digits x base buf = Some (buf ++ (digits <$> ds)) /\ (1 <= length ds <= S m)%nat /\
    Forall (fun d => 0 <= d < base) ds /\ le_value base ds = x.
Proof.
  intros Hb. induction m as [|m IH]; intros fuel x buf Hx Hbuf Hf; (destruct fuel as [|fuel]; [lia|]); cbn [digit_loop]; unfold push.
  - destruct (Nat.ltb_spec (length buf) BUFLEN); [|lia]. rewrite Z.pow_1_r in Hx. rewrite Z.div_small by done. cbn. exists [x mod base].
    rewrite Z.mod_small by done. split; [done|]. split; [cbn; lia|]. split; [by constructor; [|constructor]|]. cbn. lia.
  - destruct (Nat.ltb_spec (length buf) BUFLEN); [|lia]. pose proof (Z.div_mod x base ltac:(lia)) as Hdm. pose proof (Z.mod_pos_bound x base ltac:(lia)) as Hm.
    destruct (Z.eqb_spec (x / base) 0) as [H0|H0].
    + exists [x mod base]. split; [done|]. split; [cbn; lia|]. split; [by constructor; [|constructor]|]. cbn. lia.
    + destruct (IH fuel (x / base) (buf ++ [digits (x mod base)])) as (ds & E & Hl & Hd & Hv).
      * rewrite (Nat2Z.inj_succ (S m)), Z.pow_succ_r in Hx by lia. split; [apply Z.div_pos; lia|]. apply Z.div_lt_upper_bound; lia.
      * rewrite length_app. cbn. lia.
      * lia.
      * exists (x mod base :: ds). rewrite E. split; [by rewrite <- app_assoc|]. split; [cbn; lia|]. split; [by constructor|]. cbn [le_value]. rewrite Hv. lia.
Qed.

(** Reading a number: an optional minus sign, then digits. *)
Definition undigit (c : Z) : Z := if c <? 58 then c - 48 else if c <? 97 then c - 55 else c - 87.
Definition be_value (base : Z) (l : list Z) : Z := foldl (fun v c => v * base + undigit c) 0 l.
Definition parse (base : Z) (l : list Z) : Z :=
  match l with c :: t => if c =? MINUS then - be_value base t else be_value base l | [] => 0 end.

Definition table (digits : Z -> Z) : Prop := forall d, 0 <= d < 16 -> undigit (digits d) = d /\ digits d <> MINUS.
Lemma kdigits_table : table kdigits.
Proof. intros d Hd. unfold kdigits, undigit, MINUS. bool_to_prop; lia. Qed.
Lemma udigits_table : table udigits.
Proof. intros d Hd. unfold udigits, undigit, MINUS. bool_to_prop; lia. Qed.

Lemma be_value_rev digits base ds : table digits -> 2 <= base <= 16 -> Forall (fun d => 0 <= d < base) ds ->
  be_value base (rev (digits <$> ds)) = le_value base ds.
Proof.
  intros Ht Hb Hd. induction Hd as [|d ds Hd Hds IH]; [done|]. rewrite fmap_cons. cbn [rev]. unfold be_value in *. rewrite foldl_app. cbn [foldl le_value].
  rewrite IH. destruct (Ht d ltac:(lia)) as [-> _]. lia.
Qed.

Lemma parse_plain digits base ds : table digits -> 2 <= base <= 16 -> Forall (fun d => 0 <= d < base) ds -> (1 <= length ds)%nat ->
  parse base (rev (digits <$> ds)) = le_value base ds.
Proof.
  intros Ht Hb Hd Hl. rewrite <- (be_value_rev digits base ds Ht Hb Hd). unfold parse. destruct (rev (digits <$> ds)) as [|c t] eqn:E; [done|].
  assert (Hc : c ∈ rev (digits <$> ds)) by (rewrite E; set_solver). apply list_elem_of_In, in_rev, list_elem_of_In in Hc.
  apply list_elem_of_fmap in Hc as (d & -> & Hdd). rewrite Forall_forall in Hd. specialize (Hd d Hdd). destruct (Ht d ltac:(lia)) as [_ Hn].
  by destruct (Z.eqb_spec (digits d) MINUS).
Qed.

Lemma uprintint_eq digits xx base sgn : uprintint digits xx base sgn = printint digits xx base sgn.
Proof. unfold uprintint, printint. by destruct (sgn && (xx <? 0)). Qed.

(** The number as printed, within the buffer. *)
Lemma printint_ok digits xx base sign : table digits -> base = 10 \/ base = 16 -> - 2 ^ 63 <= xx < 2 ^ 64 -> (sign = true -> xx < 2 ^ 63) ->
  exists l, printint digits xx base sign = Some l /\ (1 <= length l <= BUFLEN)%nat /\ parse base l = if sign then xx else u64 xx.
Proof.
  intros Ht Hb Hx Hs. unfold printint. assert (Hb2 : 2 <= base <= 16) by lia. destruct sign; cbn [andb].
  - specialize (Hs eq_refl). destruct (Z.ltb_spec xx 0) as [Hn|Hn].
    + rewrite u64_small by lia. destruct (digit_loop_ok digits base ltac:(lia) 18 64 (- xx) []) as (ds & E & Hl & Hd & Hv); [|cbn; unfold BUFLEN; lia|lia|].
      { change (Z.of_nat 19) with 19. destruct Hb as [->| ->]; [change (10 ^ 19) with 10000000000000000000|change (16 ^ 19) with 75557863725914323419136]; lia. }
      rewrite E. cbn [app]. unfold push. rewrite length_fmap. destruct (Nat.ltb_spec (length ds) BUFLEN) as [_|?]; [|unfold BUFLEN in *; lia].
      eexists. split; [done|]. rewrite rev_app_distr. cbn [rev app]. split; [cbn; rewrite length_rev, length_fmap; unfold BUFLEN; lia|].
      cbn [parse]. rewrite Z.eqb_refl, be_value_rev by done. lia.
    + rewrite u64_small by lia. destruct (digit_loop_ok digits base ltac:(lia) 18 64 xx []) as (ds & E & Hl & Hd & Hv); [|cbn; unfold BUFLEN; lia|lia|].
      { change (Z.of_nat 19) with 19. destruct Hb as [->| ->]; [change (10 ^ 19) with 10000000000000000000|change (16 ^ 19) with 75557863725914323419136]; lia. }
      rewrite E. cbn [app]. eexists. split; [done|]. rewrite length_rev, length_fmap. split; [unfold BUFLEN; lia|]. rewrite parse_plain by (done || lia). done.
  - pose proof (u64_range xx) as Hu. destruct (digit_loop_ok digits base ltac:(lia) 19 64 (u64 xx) []) as (ds & E & Hl & Hd & Hv); [|cbn; unfold BUFLEN; lia|lia|].
    { change (Z.of_nat 20) with 20. destruct Hb as [->| ->]; [change (10 ^ 20) with 100000000000000000000|change (16 ^ 20) with 1208925819614629174706176]; lia. }
    rewrite E. cbn [app]. eexists. split; [done|]. rewrite length_rev, length_fmap. split; [unfold BUFLEN; lia|]. rewrite parse_plain by (done || lia). done.
Qed.

Lemma i64_range x : - 2 ^ 63 <= i64 x < 2 ^ 63.
Proof. unfold i64. pose proof (Z.mod_pos_bound (x + 2 ^ 63) (2 ^ 64)). lia. Qed.

(** [printptr] prints all 64 bits, most significant first. *)
Lemma nibbles_value digits : table digits -> forall k x v, 0 <= x < 2 ^ 64 -> x mod 2 ^ (64 - 4 * Z.of_nat k) = 0 -> (k <= 16)%nat ->
  foldl (fun v c => v * 16 + undigit c) v (nibbles k digits x) = v * 16 ^ Z.of_nat k + x / 2 ^ (64 - 4 * Z.of_nat k).
Proof.
  intros Ht. induction k as [|k IH]; intros x v Hx Hm Hk; cbn [nibbles foldl].
  - rewrite Z.mul_0_r, Z.sub_0_r, Z.div_small, Z.pow_0_r by lia. lia.
  - assert (H60 : 0 <= Z.shiftr x 60 < 16) by (rewrite Z.shiftr_div_pow2 by lia; change (2 ^ 60) with 1152921504606846976; change (2 ^ 64) with 18446744073709551616 in Hx; zlia).
    destruct (Ht _ H60) as [-> _]. set (p := 64 - 4 * Z.of_nat (S k)) in *. assert (Hp : 0 <= p <= 60) by lia.
    assert (Hsh : u64 (Z.shiftl x 4) = 16 * (x mod 2 ^ 60)).
    { unfold u64. rewrite Z.shiftl_mul_pow2 by lia. replace (2 ^ 64) with (2 ^ 60 * 2 ^ 4) by done. rewrite Z.mul_mod_distr_r by lia. change (2 ^ 4) with 16. lia. }
    rewrite Hsh. replace (64 - 4 * Z.of_nat k) with (p + 4) in IH by lia. pose proof (Z.mod_pos_bound x (2 ^ 60) ltac:(lia)) as Hr.
    assert (Hpow : 2 ^ 60 = 2 ^ p * 2 ^ (60 - p)) by (rewrite <- Z.pow_add_r by lia; f_equal; lia).
    assert (Hxp : exists q, x = q * 2 ^ p) by (exists (x / 2 ^ p); pose proof (Z.div_mod x (2 ^ p) ltac:(lia)); lia). destruct Hxp as [q Hq].
    assert (Hmq : x mod 2 ^ 60 = (q mod 2 ^ (60 - p)) * 2 ^ p) by (rewrite Hq, Hpow, (Z.mul_comm (2 ^ p)), Z.mul_mod_distr_r by lia; done).
    assert (Hdv : x / 2 ^ 60 = q / 2 ^ (60 - p)) by (rewrite Hq, Hpow, (Z.mul_comm (2 ^ p)), Z.div_mul_cancel_r by lia; done).
    rewrite IH; [|lia| |lia].
    + rewrite Hmq, Z.shiftr_div_pow2, Hdv by lia. replace (16 * (q mod 2 ^ (60 - p) * 2 ^ p)) with (q mod 2 ^ (60 - p) * 2 ^ (p + 4)) by (rewrite Z.pow_add_r by lia; change (2 ^ 4) with 16; lia).
      rewrite Z.div_mul by lia. rewrite Hq, Z.div_mul by lia. rewrite Nat2Z.inj_succ, Z.pow_succ_r by lia.
      assert (H16 : 2 ^ (60 - p) = 16 ^ Z.of_nat k) by (replace 16 with (2 ^ 4) by done; rewrite <- Z.pow_mul_r by lia; f_equal; lia).
      rewrite H16. pose proof (Z.div_mod q (16 ^ Z.of_nat k) ltac:(lia)). lia.
    + rewrite Hmq. replace (16 * (q mod 2 ^ (60 - p) * 2 ^ p)) with (q mod 2 ^ (60 - p) * 2 ^ (p + 4)) by (rewrite Z.pow_add_r by lia; change (2 ^ 4) with 16; lia).
      apply Z.mod_mul. lia.
Qed.

(** * The two interpreters agree *)

Lemma fch_end fmt i : Forall (fun c => 0 < c < 256) fmt -> (fch fmt i =? 0) = bool_decide (length fmt <= i)%nat /\ (nth i fmt 0 =? 0) = bool_decide (length fmt <= i)%nat.
Proof.
  intros Hf. destruct (decide (length fmt <= i)%nat) as [Hi|Hi].
  - unfold fch. rewrite nth_overflow by done. by rewrite bool_decide_eq_true_2.
  - destruct (lookup_lt_is_Some_2 fmt i ltac:(lia)) as [c Hc]. pose proof Hc as Hn. apply nth_lookup_Some with (d := 0) in Hn.
    rewrite Forall_forall in Hf. specialize (Hf c ltac:(by eapply list_elem_of_lookup_2)). unfold fch, u8. rewrite Hn, Z.mod_small by lia.
    rewrite bool_decide_eq_false_2 by done. by destruct (Z.eqb_spec c 0); [lia|].
Qed.

Lemma puts_some putc digits xx base sign : table digits -> base = 10 \/ base = 16 -> - 2 ^ 63 <= xx < 2 ^ 64 -> (sign = true -> xx < 2 ^ 63) ->
  exists l, puts putc (printint digits xx base sign) = Some l.
Proof. intros Ht Hb Hx Hs. destruct (printint_ok digits xx base sign Ht Hb Hx Hs) as (l & -> & _). by eexists. Qed.

Section Agree.
Context (digits : Z -> Z) (putc : Z -> list Z) (fmt : list Z) (args : nat -> Z) (str : Z -> list Z).
Hypothesis Ht : table digits.
Hypothesis Hfmt : Forall (fun c => 0 < c < 256) fmt.

Lemma mapp_some a b : is_Some a -> is_Some b -> is_Some (mapp a b).
Proof. intros [x ->] [y ->]. by eexists. Qed.

(** Both go on at the same place after printing the same piece. *)
Lemma same_piece a x y : is_Some a -> x = y /\ is_Some y -> mapp a x = mapp a y /\ is_Some (mapp a y).
Proof. intros Ha [-> Hy]. split; [done|]. by apply mapp_some. Qed.

Lemma printint_some xx base sign : base = 10 \/ base = 16 -> - 2 ^ 63 <= xx < 2 ^ 64 -> (sign = true -> xx < 2 ^ 63) -> is_Some (puts putc (printint digits xx base sign)).
Proof. intros. by apply puts_some. Qed.

(** Closes the branch of one directive. *)
Ltac directive IH :=
  rewrite ?uprintint_eq; apply same_piece;
  [first [by eexists
         | apply printint_some; [by (left + right)|..]; repeat match goal with
             | |- context [i32 ?x] => pose proof (i32_range x); generalize dependent (i32 x); intros
             | |- context [u32 ?x] => pose proof (u32_range x); generalize dependent (u32 x); intros
             | |- context [i64 ?x] => pose proof (i64_range x); generalize dependent (i64 x); intros
             end; first [done|lia]]
  | apply IH; lia].

Lemma printf_vprintf_from n : forall fuel fuel' i k, (length fmt - i < n)%nat -> (length fmt - i < fuel)%nat -> (length fmt - i < fuel')%nat ->
  printf digits putc fmt args str fuel i k = vprintf digits putc fmt args str fuel' i false k /\ is_Some (vprintf digits putc fmt args str fuel' i false k).
Proof.
  induction n as [|n IH]; intros fuel fuel' i k Hn Hf Hf'; [lia|]. destruct fuel as [|fuel]; [lia|]. destruct fuel' as [|fuel']; [lia|].
  destruct (fch_end fmt i Hfmt) as [E1 E2]. cbn [printf vprintf negb]. rewrite E1, E2. destruct (bool_decide_reflect (length fmt <= i)%nat) as [Hi|Hi]; [by split; [|eexists]|].
  destruct (fch fmt i =? PERCENT) eqn:Hp; cbn [negb]; [|directive IH].
  destruct fuel' as [|fuel']; [lia|]. cbn [vprintf negb]. destruct (fch_end fmt (i + 1) Hfmt) as [E3 E4]. rewrite E4.
  destruct (bool_decide_reflect (length fmt <= i + 1)%nat) as [Hi1|Hi1].
  { apply Z.eqb_eq in E3. rewrite E3. by split; [|eexists]. }
  rewrite E3. set (c0 := fch fmt (i + 1)) in *. set (c1 := fch fmt (i + 1 + 1)). set (c2 := if c1 =? 0 then 0 else fch fmt (i + 1 + 2)).
  repeat match goal with |- (if ?b then _ else _) = _ /\ _ => destruct b; [directive IH|] end. directive IH.
Qed.
End Agree.


