(* ===== verification/Utils.v ===== *)
(** The small user programs [cat], [wc], [echo], [ls], [rm], [mkdir], [ln] and
    [kill] ([user/*.c]): filters over a stream of [read] results and loops over
    the command line.  The kernel appears as what its calls answer. *)
From S2P Require Import Prelude Printf.
Local Open Scope kern_scope.

(** * The world of a program *)

(** What one [read] of up to 512 bytes answers: bytes, or an error.  The end of
    the file is the end of the stream. *)
Inductive rd := RData (bs : list Z) | RErr.

(** Standard output and error so far, how many bytes the next writes to
    standard output accept (all of them when the list is used up), and the
    system calls with a path or process as argument that the program made. *)
Inductive call := CUnlink (p : list Z) | CMkdir (p : list Z) | CLink (p q : list Z) | CKill (pid : Z).
Record uio := mk_uio { u_out : list Z; u_err : list Z; u_accept : list Z; u_calls : list call }.

Definition write1 (bs : list Z) : M uio Z := fun s =>
  let n := Z.of_nat (length bs) in
  let r := match u_accept s with [] => n | a :: _ => Z.min a n end in
  Ret r (mk_uio (u_out s ++ take (Z.to_nat r) bs) (u_err s) (tail (u_accept s)) (u_calls s)).

Definition out (bs : list Z) : M uio unit := modify (fun s => mk_uio (u_out s ++ bs) (u_err s) (u_accept s) (u_calls s)).
Definition err (bs : list Z) : M uio unit := modify (fun s => mk_uio (u_out s) (u_err s ++ bs) (u_accept s) (u_calls s)).
Definition made (c : call) : M uio unit := modify (fun s => mk_uio (u_out s) (u_err s) (u_accept s) (u_calls s ++ [c])).

(** A string constant of the source. *)
Fixpoint chars (s : string) : list Z :=
  match s with EmptyString => [] | String a s => Z.of_nat (Ascii.nat_of_ascii a) :: chars s end.
Definition line_end : list Z := [10].

(** [printf] and [fprintf] with [%d] and [%s] directives: the integer arguments
    come as they are, a string argument as a number that [str] resolves. *)
Definition format (fmt : list Z) (args : list Z) (str : Z -> list Z) : list Z :=
  default [] (vprintf udigits uputc fmt (fun k => nth k args 0) str (S (length fmt)) 0 false 0).

(** * cat *)

Fixpoint cat (rs : list rd) : M uio unit :=
  match rs with
  | [] => ret tt
  | RErr :: _ => err (chars "cat: read error" ++ line_end) ;;; exit_with 1
  | RData buf :: rs =>
      do w <- write1 buf;
      if negb (w =? Z.of_nat (length buf)) then err (chars "cat: write error" ++ line_end) ;;; exit_with 1
      else cat rs
  end.

Section Files.
(** What [open(path, O_RDONLY)] finds. *)
Context (opened : list Z -> option (list rd)).

Fixpoint cat_files (argv : list (list Z)) : M uio unit :=
  match argv with
  | [] => exit_with 0
  | a :: argv =>
      match opened a with
      | None => err (format (chars "cat: cannot open %s" ++ line_end) [1] (fun _ => a)) ;;; exit_with 1
      | Some rs => cat rs ;;; cat_files argv
      end
  end.

(** [main] of cat; [argv] without the program name, [stdin] the stream of
    descriptor 0. *)
Definition cat_main (stdin : list rd) (argv : list (list Z)) : M uio unit :=
  match argv with
  | [] => cat stdin ;;; exit_with 0
  | _ => cat_files argv
  end.

(** * wc *)

Definition is_space (c : Z) : bool := existsb (Z.eqb c) [32; 13; 9; 10; 11].

Record counts := mk_counts { w_l : Z; w_w : Z; w_c : Z; w_in : bool }.

(** The body of the inner loop of [wc]. *)
Definition wc_char (k : counts) (b : Z) : counts :=
  let c := i32 (w_c k + 1) in
  let l := if b =? 10 then i32 (w_l k + 1) else w_l k in
  if is_space b then mk_counts l (w_w k) c false
  else if negb (w_in k) then mk_counts l (i32 (w_w k + 1)) c true
  else mk_counts l (w_w k) c (w_in k).

Fixpoint wc_loop (rs : list rd) (k : counts) : option counts :=
  match rs with
  | [] => Some k
  | RErr :: _ => None
  | RData buf :: rs => wc_loop rs (foldl wc_char k buf)
  end.

Definition wc_line (k : counts) (name : list Z) : list Z :=
  format (chars "%d %d %d %s" ++ line_end) [w_l k; w_w k; w_c k; 1] (fun _ => name).

Definition wc (rs : list rd) (name : list Z) : M uio unit :=
  match wc_loop rs (mk_counts 0 0 0 false) with
  | None => out (chars "wc: read error" ++ line_end) ;;; exit_with 1
  | Some k => out (wc_line k name)
  end.

Fixpoint wc_files (argv : list (list Z)) : M uio unit :=
  match argv with
  | [] => exit_with 0
  | a :: argv =>
      match opened a with
      | None => out (format (chars "wc: cannot open %s" ++ line_end) [1] (fun _ => a)) ;;; exit_with 1
      | Some rs => wc rs a ;;; wc_files argv
      end
  end.

Definition wc_main (stdin : list rd) (argv : list (list Z)) : M uio unit :=
  match argv with
  | [] => wc stdin [] ;;; exit_with 0
  | _ => wc_files argv
  end.
End Files.

(** * echo *)

Fixpoint echo (argv : list (list Z)) : M uio unit :=
  match argv with
  | [] => exit_with 0
  | a :: argv =>
      do _ <- write1 a;
      do _ <- write1 (match argv with [] => [10] | _ => [32] end);
      echo argv
  end.

(** * ls *)

Definition DIRSIZ : nat := 14.
Definition slash : Z := 47.

(** The loop of [fmtname], from position [p] down: where it stops. *)
Fixpoint last_slash (path : list Z) (p : nat) : Z :=
  if nth p path 0 =? slash then Z.of_nat p
  else match p with O => -1 | S p => last_slash path p end.

Definition fmtname (path : list Z) : list Z :=
  let p := drop (Z.to_nat (last_slash path (length path) + 1)) path in
  if (DIRSIZ <=? length p)%nat then p
  else p ++ replicate (DIRSIZ - length p) 32.

Record ustat := mk_ust { st_type : Z; st_ino : Z; st_size : Z }.
Definition T_DIR : Z := 1.
Definition T_FILE : Z := 2.
Definition T_DEVICE : Z := 3.

Definition ls_line (path : list Z) (st : ustat) : list Z :=
  format (chars "%s %d %d %d" ++ line_end) [1; st_type st; st_ino st; i32 (st_size st)] (fun _ => fmtname path).

(** A C string in a buffer: up to the first NUL. *)
Fixpoint cstring (bs : list Z) : list Z :=
  match bs with [] => [] | c :: bs => if c =? 0 then [] else c :: cstring bs end.

Section Ls.
(** [open] with the answer of [fstat] and the directory entries (inode number
    and 14 name bytes), and [stat]. *)
Context (opened : list Z -> option (option ustat * list (Z * list Z))) (stat : list Z -> option ustat).

Fixpoint ls_entries (path : list Z) (des : list (Z * list Z)) : M uio unit :=
  match des with
  | [] => ret tt
  | (inum, name) :: des =>
      if inum =? 0 then ls_entries path des
      else
        let buf := path ++ [slash] ++ cstring name in
        match stat buf with
        | None => out (format (chars "ls: cannot stat %s" ++ line_end) [1] (fun _ => buf)) ;;; ls_entries path des
        | Some st => out (ls_line buf st) ;;; ls_entries path des
        end
  end.

Definition ls (path : list Z) : M uio unit :=
  match opened path with
  | None => err (format (chars "ls: cannot open %s" ++ line_end) [1] (fun _ => path))
  | Some (None, _) => err (format (chars "ls: cannot stat %s" ++ line_end) [1] (fun _ => path))
  | Some (Some st, des) =>
      if (st_type st =? T_DEVICE) || (st_type st =? T_FILE) then out (ls_line path st)
      else if st_type st =? T_DIR then
        if (512 <? length path + 1 + DIRSIZ + 1)%nat then out (chars "ls: path too long" ++ line_end)
        else ls_entries path des
      else ret tt
  end.

Fixpoint ls_all (argv : list (list Z)) : M uio unit :=
  match argv with [] => exit_with 0 | a :: argv => ls a ;;; ls_all argv end.

Definition ls_main (argv : list (list Z)) : M uio unit :=
  match argv with [] => ls [46] ;;; exit_with 0 | _ => ls_all argv end.
End Ls.

(** * rm, mkdir, ln, kill *)

Section Calls.
(** Which calls fail. *)
Context (fails : call -> bool).

Fixpoint rm (argv : list (list Z)) : M uio unit :=
  match argv with
  | [] => exit_with 0
  | a :: argv =>
      made (CUnlink a) ;;;
      if fails (CUnlink a) then err (format (chars "rm: %s failed to delete" ++ line_end) [1] (fun _ => a)) ;;; exit_with 0
      else rm argv
  end.
Definition rm_main (argv : list (list Z)) : M uio unit :=
  match argv with [] => err (chars "Usage: rm files..." ++ line_end) ;;; exit_with 1 | _ => rm argv end.

Fixpoint mkdir (argv : list (list Z)) : M uio unit :=
  match argv with
  | [] => exit_with 0
  | a :: argv =>
      made (CMkdir a) ;;;
      if fails (CMkdir a) then err (format (chars "mkdir: %s failed to create" ++ line_end) [1] (fun _ => a)) ;;; exit_with 0
      else mkdir argv
  end.
Definition mkdir_main (argv : list (list Z)) : M uio unit :=
  match argv with [] => err (chars "Usage: mkdir files..." ++ line_end) ;;; exit_with 1 | _ => mkdir argv end.

Definition ln_main (argv : list (list Z)) : M uio unit :=
  match argv with
  | [a; b] =>
      made (CLink a b) ;;;
      (if fails (CLink a b) then err (format (chars "link %s %s: failed" ++ line_end) [1; 2] (fun k => if k =? 1 then a else b)) else ret tt) ;;;
      exit_with 0
  | _ => err (chars "Usage: ln old new" ++ line_end) ;;; exit_with 1
  end.
End Calls.

(** [atoi] of ulib.c on a string. *)
Fixpoint atoi (l : list Z) (n : Z) : Z :=
  match l with
  | c :: l => if (48 <=? c) && (c <=? 57) then atoi l (i32 (n * 10 + c - 48)) else n
  | [] => n
  end.

Fixpoint kill_all (argv : list (list Z)) : M uio unit :=
  match argv with [] => exit_with 0 | a :: argv => made (CKill (atoi a 0)) ;;; kill_all argv end.
Definition kill_main (argv : list (list Z)) : M uio unit :=
  match argv with [] => err (chars "usage: kill pid..." ++ line_end) ;;; exit_with 1 | _ => kill_all argv end.

(** * What the filters compute *)

Definition data_of (r : rd) : list Z := match r with RData bs => bs | RErr => [] end.
Definition text (rs : list rd) : list Z := mjoin (data_of <$> rs).
Definition good (rs : list rd) : Prop := Forall (fun r => r <> RErr) rs.

(** A word starts where a character that is no space follows a space or the
    beginning. *)
Definition word_start (t : list Z) (i : nat) : bool :=
  match t !! i with
  | None => false
  | Some c => negb (is_space c) && match i with O => true | S j => match t !! j with Some d => is_space d | None => false end end
  end.
Definition nlines (t : list Z) : Z := Z.of_nat (length (filter (fun c => c = 10) t)).
Definition nwords (t : list Z) : Z := Z.of_nat (length (filter (fun i => word_start t i = true) (seq 0 (length t)))).

(** Whether the text ends inside a word. *)
Definition in_word (t : list Z) : bool := match last t with Some c => negb (is_space c) | None => false end.

Lemma nlines_snoc t c : nlines (t ++ [c]) = nlines t + if c =? 10 then 1 else 0.
Proof.
  unfold nlines. rewrite filter_app, length_app, filter_cons, filter_nil. destruct (Z.eqb_spec c 10) as [->|Hc].
  - rewrite decide_True by done. cbn [length]. lia.
  - rewrite decide_False by done. cbn [length]. lia.
Qed.

Lemma word_start_app t c i : (i < length t)%nat -> word_start (t ++ [c]) i = word_start t i.
Proof.
  intros Hi. unfold word_start. rewrite lookup_app_l by done. destruct (t !! i); [|done]. destruct i as [|j]; [done|].
  by rewrite lookup_app_l by lia.
Qed.

Lemma word_start_end t c : word_start (t ++ [c]) (length t) = negb (is_space c) && negb (in_word t).
Proof.
  unfold word_start, in_word. rewrite lookup_app_r, Nat.sub_diag by done. cbn [lookup list_lookup]. f_equal.
  destruct t as [|x t _] using rev_ind; [done|]. rewrite last_snoc, negb_involutive, length_app. cbn [length]. rewrite Nat.add_1_r.
  rewrite lookup_app_l by (rewrite length_app; cbn; lia). by rewrite lookup_app_r, Nat.sub_diag by done.
Qed.

Lemma nwords_snoc t c : nwords (t ++ [c]) = nwords t + if negb (is_space c) && negb (in_word t) then 1 else 0.
Proof.
  unfold nwords. rewrite length_app. cbn [length]. rewrite Nat.add_1_r, seq_S, filter_app, length_app, filter_cons, filter_nil, Nat.add_0_l.
  rewrite (filter_agree (fun i => word_start (t ++ [c]) i = true) (fun i => word_start t i = true)).
  - rewrite <- word_start_end. destruct (word_start (t ++ [c]) (length t)) eqn:E.
    + rewrite decide_True by done. cbn [length]. lia.
    + rewrite decide_False by done. cbn [length]. lia.
  - intros i Hi. apply elem_of_seq in Hi. rewrite word_start_app by lia. done.
Qed.

Lemma nlines_bound t : 0 <= nlines t <= Z.of_nat (length t).
Proof. unfold nlines. pose proof (length_filter (fun c => c = 10) t). lia. Qed.

Lemma nwords_bound t : 0 <= nwords t <= Z.of_nat (length t).
Proof. unfold nwords. pose proof (length_filter (fun i => word_start t i = true) (seq 0 (length t))) as H. rewrite length_seq in H. lia. Qed.

(** The counters after a text that fits an [int]. *)
Lemma wc_text t : Z.of_nat (length t) < 2 ^ 31 ->
  foldl wc_char (mk_counts 0 0 0 false) t = mk_counts (nlines t) (nwords t) (Z.of_nat (length t)) (in_word t).
Proof.
  induction t as [|c t IH] using rev_ind; intros Hl; [done|]. rewrite length_app in Hl. cbn [length] in Hl.
  rewrite foldl_app, IH by lia. cbn [foldl]. unfold wc_char. cbn [w_l w_w w_c w_in].
  pose proof (nlines_bound t). pose proof (nwords_bound t). rewrite !i32_small by lia.
  rewrite nlines_snoc, nwords_snoc, length_app. assert (E : in_word (t ++ [c]) = negb (is_space c)) by (unfold in_word; by rewrite last_snoc). rewrite E. cbn [length].
  replace (Z.of_nat (length t + 1)) with (Z.of_nat (length t) + 1) by lia.
  destruct (c =? 10), (is_space c), (in_word t); cbn [negb andb]; f_equal; lia.
Qed.

Lemma wc_loop_text rs : forall k, good rs -> wc_loop rs k = Some (foldl wc_char k (text rs)).
Proof.
  induction rs as [|r rs IH]; intros k Hg; [done|]. apply Forall_cons in Hg as [Hr Hg]. destruct r as [bs|]; [|done].
  cbn [wc_loop]. rewrite IH by done. unfold text. cbn. by rewrite foldl_app.
Qed.

Definition say (bs : list Z) (s : uio) : uio := mk_uio (u_out s ++ bs) (u_err s) (u_accept s) (u_calls s).

Lemma wc_says rs name s : good rs -> Z.of_nat (length (text rs)) < 2 ^ 31 ->
  wc rs name s = Ret tt (say (wc_line (mk_counts (nlines (text rs)) (nwords (text rs)) (Z.of_nat (length (text rs))) (in_word (text rs))) name) s).
Proof. intros Hg Hl. unfold wc. by rewrite wc_loop_text, wc_text. Qed.

Lemma say_app a b s : say b (say a s) = say (a ++ b) s.
Proof. unfold say. cbn. by rewrite app_assoc. Qed.

Lemma say_nil s : say [] s = s.
Proof. destruct s. unfold say. cbn. by rewrite app_nil_r. Qed.

(** With all writes accepted. *)
Lemma write1_all bs s : u_accept s = [] -> write1 bs s = Ret (Z.of_nat (length bs)) (say bs s).
Proof. intros H. unfold write1, say. rewrite H, Nat2Z.id, firstn_all. done. Qed.

Lemma cat_says rs : forall s, good rs -> u_accept s = [] -> cat rs s = Ret tt (say (text rs) s).
Proof.
  induction rs as [|r rs IH]; intros s Hg Ha; [by rewrite say_nil|]. apply Forall_cons in Hg as [Hr Hg]. destruct r as [bs|]; [|done].
  cbn [cat]. unfold bind at 1. rewrite write1_all by done. rewrite Z.eqb_refl. cbn [negb]. rewrite IH by done. by rewrite say_app.
Qed.

Fixpoint join_args (argv : list (list Z)) : list Z :=
  match argv with [] => [] | a :: argv => a ++ (match argv with [] => [10] | _ => [32] end) ++ join_args argv end.

Lemma echo_says argv : forall s, u_accept s = [] -> echo argv s = Exit 0 (say (join_args argv) s).
Proof.
  induction argv as [|a argv IH]; intros s Ha; [by rewrite say_nil|]. cbn [echo]. unfold bind at 1. rewrite write1_all by done.
  unfold bind at 1. rewrite write1_all by done. rewrite IH by done. cbn [join_args]. by rewrite !say_app, app_assoc.
Qed.

(** [fmtname] is the last component of the path, padded. *)
Lemma last_slash_none path : forall p, slash ∉ path -> last_slash path p = -1.
Proof.
  intros p Hn. assert (Hx : forall i, (nth i path 0 =? slash) = false).
  { intros i. apply Z.eqb_neq. intros E. destruct (decide (i < length path)%nat) as [Hi|Hi].
    - apply Hn. rewrite <- E. apply list_elem_of_In, nth_In. done.
    - rewrite nth_overflow in E by lia. done. }
  induction p as [|p IH]; cbn [last_slash]; by rewrite Hx.
Qed.

Lemma last_slash_at d b : slash ∉ b -> forall p, (length d <= p)%nat -> last_slash (d ++ slash :: b) p = Z.of_nat (length d).
Proof.
  intros Hn. induction p as [|p IH]; intros Hp.
  - destruct d; [done|cbn in Hp; lia].
  - cbn [last_slash]. destruct (decide (S p = length d)) as [E|E].
    + rewrite E, app_nth2, Nat.sub_diag by lia. done.
    + rewrite app_nth2 by lia. destruct (S p - length d)%nat as [|k] eqn:Ek; [lia|]. cbn [nth].
      assert ((nth k b 0 =? slash) = false) as ->; [|apply IH; lia]. apply Z.eqb_neq. intros Ex.
      destruct (decide (k < length b)%nat) as [Hk|Hk]; [|rewrite nth_overflow in Ex by lia; done].
      apply Hn. rewrite <- Ex. apply list_elem_of_In, nth_In. done.
Qed.

Definition padded (b : list Z) : list Z := b ++ replicate (DIRSIZ - length b) 32.

Lemma fmtname_last path b : slash ∉ b -> path = b \/ (exists d, path = d ++ slash :: b) -> fmtname path = padded b.
Proof.
  intros Hn Hp. unfold fmtname, padded. assert (drop (Z.to_nat (last_slash path (length path) + 1)) path = b) as ->.
  { destruct Hp as [->|(d & ->)].
    - rewrite last_slash_none by done. done.
    - rewrite last_slash_at by (try done; rewrite length_app; cbn; lia). replace (Z.to_nat (Z.of_nat (length d) + 1)) with (length (d ++ [slash])) by (rewrite length_app; cbn; lia).
      replace (d ++ slash :: b) with ((d ++ [slash]) ++ b) by by rewrite <- app_assoc. apply drop_app_length. }
  destruct (Nat.leb_spec DIRSIZ (length b)) as [H|H]; [|done]. replace (DIRSIZ - length b)%nat with 0%nat by lia. by rewrite app_nil_r.
Qed.

Definition bytes (l : list Z) : Prop := Forall (fun c => 0 <= c < 256) l.

Lemma digit_loop_bytes base : 2 <= base <= 16 -> forall fuel x buf l, bytes buf -> digit_loop fuel udigits x base buf = Some l -> bytes l.
Proof.
  intros Hb. induction fuel as [|fuel IH]; intros x buf l Hbuf; cbn [digit_loop]; [done|]. unfold push.
  destruct (length buf <? BUFLEN)%nat; [|done].
  assert (Hd : bytes (buf ++ [udigits (x mod base)])).
  { apply Forall_app. split; [done|]. apply Forall_singleton. pose proof (Z.mod_pos_bound x base ltac:(lia)). unfold udigits. destruct (_ <? 10) eqn:E; [|lia].
    rewrite Z.ltb_lt in E. lia. }
  destruct (x / base =? 0); [|by apply IH]. intros [= <-]. done.
Qed.

Lemma decimal x : 0 <= x < 2 ^ 31 -> exists l, uprintint udigits (i32 x) 10 true = Some l /\ parse 10 l = x /\ bytes l.
Proof.
  intros Hx. rewrite i32_small by lia. destruct (printint_ok udigits x 10 true udigits_table) as (l & El & Hlen & Hp); [by left|lia|lia|].
  exists l. rewrite uprintint_eq. split; [done|]. split; [done|]. unfold printint in El. destruct (Z.ltb_spec x 0); [lia|]. cbn [andb] in El.
  destruct (digit_loop _ _ _ _ _) as [buf|] eqn:E; [|done]. injection El as <-. apply Forall_rev. apply (digit_loop_bytes 10 ltac:(lia) _ _ _ _ (Forall_nil_2 _) E).
Qed.

Lemma put_bytes l : bytes l -> mjoin (uputc <$> l) = l.
Proof.
  induction 1 as [|c l Hc Hl IH]; [done|]. cbn. unfold u8. rewrite Z.mod_small by lia. f_equal. exact IH.
Qed.

(** The line that [wc] prints: three decimal numbers and the name. *)
Lemma wc_line_reads k name : 0 <= w_l k < 2 ^ 31 -> 0 <= w_w k < 2 ^ 31 -> 0 <= w_c k < 2 ^ 31 -> bytes name ->
  exists a b c, wc_line k name = a ++ [32] ++ b ++ [32] ++ c ++ [32] ++ name ++ [10] /\
    parse 10 a = w_l k /\ parse 10 b = w_w k /\ parse 10 c = w_c k.
Proof.
  intros Hl Hw Hc Hn. destruct (decimal _ Hl) as (a & Ea & Pa & Fa), (decimal _ Hw) as (b & Eb & Pb & Fb), (decimal _ Hc) as (c & Ec & Pc & Fc).
  exists a, b, c. split; [|done]. unfold wc_line, format.
  change (chars "%d %d %d %s" ++ line_end) with [37; 100; 32; 37; 100; 32; 37; 100; 32; 37; 115; 10].
  lazy -[uprintint i32 mapp puts print_str uputc udigits w_l w_w w_c app]. rewrite Ea, Eb, Ec. cbn [puts mapp]. rewrite !put_bytes by done.
  unfold print_str. change (1 =? 0) with false. cbn [mapp]. rewrite put_bytes by done. reflexivity.
Qed.

(** * The programs *)

#[local] Opaque wc_line.

Definition counted (t : list Z) : counts := mk_counts (nlines t) (nwords t) (Z.of_nat (length t)) (in_word t).

Section Programs.
Context (opened : list Z -> option (list rd)) (content : list Z -> list Z).

(** Every named file can be opened and read to its end, in pieces of any size. *)
Definition readable (a : list Z) : Prop :=
  exists rs, opened a = Some rs /\ good rs /\ text rs = content a /\ Z.of_nat (length (content a)) < 2 ^ 31.

Lemma cat_files_says argv : forall s, Forall readable argv -> u_accept s = [] ->
  cat_files opened argv s = Exit 0 (say (mjoin (content <$> argv)) s).
Proof.
  induction argv as [|a argv IH]; intros s Hr Ha; [by rewrite say_nil|]. apply Forall_cons in Hr as [(rs & E & Hg & Ht & _) Hr].
  cbn [cat_files]. rewrite E. unfold bind. rewrite cat_says by done. rewrite IH by done. by rewrite say_app, Ht.
Qed.

Lemma wc_files_says argv : forall s, Forall readable argv ->
  wc_files opened argv s = Exit 0 (say (mjoin ((fun a => wc_line (counted (content a)) a) <$> argv)) s).
Proof.
  induction argv as [|a argv IH]; intros s Hr; [by rewrite say_nil|]. apply Forall_cons in Hr as [(rs & E & Hg & Ht & Hl) Hr].
  cbn [wc_files]. rewrite E. unfold bind. rewrite wc_says by (try done; by rewrite Ht). rewrite IH by done. by rewrite say_app, Ht.
Qed.
End Programs.

(** C36: the filters compute what they are for, however the kernel cuts the files
    into pieces: [cat] copies the named files one after the other, [wc] prints for
    each one line with three decimal numbers that read back as the number of
    newlines, of words (a word starts where a character that is no space
    follows a space or the beginning) and of characters, [echo] prints its
    arguments separated by single spaces and ended by a newline, and the name
    that [ls] prints is the last component of the path, padded to 14. *)
Theorem filters_compute opened content stdin argv s : Forall (readable opened content) argv -> Forall bytes argv ->
  argv <> [] -> u_accept s = [] ->
  cat_main opened stdin argv s = Exit 0 (say (mjoin (content <$> argv)) s) /\
  wc_main opened stdin argv s = Exit 0 (say (mjoin ((fun a => wc_line (counted (content a)) a) <$> argv)) s) /\
  (forall a, a ∈ argv -> exists x y z, wc_line (counted (content a)) a = x ++ [32] ++ y ++ [32] ++ z ++ [32] ++ a ++ [10] /\
     parse 10 x = nlines (content a) /\ parse 10 y = nwords (content a) /\ parse 10 z = Z.of_nat (length (content a))) /\
  echo argv s = Exit 0 (say (join_args argv) s) /\
  (forall path b, slash ∉ b -> path = b \/ (exists d, path = d ++ slash :: b) -> fmtname path = padded b).
Proof.
  intros Hr Hb Hne Ha. destruct argv as [|a0 argv]; [done|]. unfold cat_main, wc_main.
  rewrite (cat_files_says opened content), (wc_files_says opened content), echo_says by done.
  split; [done|]. split; [done|]. split; [|split; [done|apply fmtname_last]].
  intros a Hin. rewrite Forall_forall in Hr, Hb. destruct (Hr a Hin) as (rs & _ & _ & _ & Hl).
  pose proof (nlines_bound (content a)). pose proof (nwords_bound (content a)).
  apply (wc_line_reads (counted (content a)) a); cbn [counted w_l w_w w_c]; [lia..|by apply Hb].
Qed.

(** A file of two pieces, cut inside a word. *)
Lemma filters_compute_witness :
  wc_main (fun _ => Some [RData [97; 32; 98]; RData [99; 10]]) [] [[102]] (mk_uio [] [] [] []) =
    Exit 0 (mk_uio [49; 32; 50; 32; 53; 32; 102; 10] [] [] []).
Proof.
  assert (Hr : Forall (readable (fun _ => Some [RData [97; 32; 98]; RData [99; 10]]) (fun _ => [97; 32; 98; 99; 10])) [[102]]).
  { apply Forall_singleton. eexists. split; [done|]. split; [by repeat constructor|]. split; [done|]. cbn. lia. }
  assert (Hb : Forall bytes [[102]]) by (apply Forall_singleton, Forall_singleton; lia).
  destruct (filters_compute _ _ [] [[102]] (mk_uio [] [] [] []) Hr Hb ltac:(done) eq_refl) as (_ & H & _).
  rewrite H. clear H. vm_compute. reflexivity.
Defined.

(** [rm] and [mkdir] stop at the first call that fails. *)
Lemma rm_stops fails pre a post s : Forall (fun x => fails (CUnlink x) = false) pre -> fails (CUnlink a) = true ->
  exists s', rm_main fails (pre ++ a :: post) s = Exit 0 s' /\ u_calls s' = u_calls s ++ (CUnlink <$> pre) ++ [CUnlink a].
Proof.
  intros Hp Ha. assert (H : exists s', rm fails (pre ++ a :: post) s = Exit 0 s' /\ u_calls s' = u_calls s ++ (CUnlink <$> pre) ++ [CUnlink a]).
  { revert s. induction Hp as [|x pre Hx Hp IH]; intros s; cbn [app rm].
    - mstep. unfold made. mstep. rewrite Ha. eexists. split; [done|]. done.
    - unfold made. mstep. rewrite Hx. destruct (IH (mk_uio (u_out s) (u_err s) (u_accept s) (u_calls s ++ [CUnlink x]))) as (s' & E & Hc).
      exists s'. split; [done|]. rewrite Hc. cbn. by rewrite <- app_assoc. }
  destruct H as (s' & E & Hc). exists s'. split; [|done]. by destruct pre.
Qed.
