(* ===== verification/Txn.v ===== *)
(** A transaction as the file system sees it: the current content [v] of the
    blocks outside the log, the buffers that are held ([H], block to handle)
    and the blocks logged so far ([L]).  Each lemma gives the effect of one call
    of [bread], [brelse] or [log_write] on these three; the space of the buffer
    cache and of the log is a matter of the sizes of [H] and [L]. *)
From S2P Require Import Prelude Bufcache Log LogClaims.
Local Open Scope kern_scope.

Section Txn.
Context {BC : BufCache}.

(** What does not change during a transaction: where the log starts, the
    number of open system calls, the disk, and the writes it has received. *)
Record tenv := mk_env { te_start : Z; te_out : Z; te_disk : Z -> list Z; te_writes : list (Z * list Z) }.

Record txn (e : tenv) (s : log) (v : Z -> list Z) (H : gmap Z Z) (L : gset Z) : Prop := mk_txn {
  tx_inv : exists a, log_inv s a /\ (forall b, home (te_start e) b -> view a b = v b) /\
    (forall b, held a b = H !! b) /\ disk a = te_disk e /\ writes a = te_writes e;
  tx_start : l_start s = te_start e;
  tx_out : l_outstanding s = te_out e;
  tx_idle : l_committing s = false;
  tx_listed : forall b, listed (lh_block s) (lh_n s) b = true <-> b ∈ L
}.

Lemma txn_ext e s v v' H L : txn e s v H L -> (forall b, home (te_start e) b -> v b = v' b) -> txn e s v' H L.
Proof.
  intros [(a & Hi & Hv & Hh & Hd & Hwr) ? ? ? ?] Hvv. split; try done. exists a. split_and!; try done.
  intros b Hb. rewrite Hv by done. auto.
Qed.

Lemma txn_len e s v H L b : txn e s v H L -> home (te_start e) b -> length (v b) = Z.to_nat BSIZE.
Proof. intros [(a & Hi & Hv & _) _ _ _ _] Hb. rewrite <- Hv by done. apply (wf_view_length _ (rep_wf _ _ (li_rep _ _ Hi))). Qed.

(** The number of logged blocks. *)
Lemma listed_elements f n (L : gset Z) : 0 <= n ->
  (forall i j, 0 <= i < n -> 0 <= j < n -> f i = f j -> i = j) ->
  (forall b, listed f n b = true <-> b ∈ L) -> n = Z.of_nat (size L).
Proof.
  intros Hn Hinj HL. assert (HL' : L = list_to_set (f <$> seqZ 0 n)).
  { apply set_eq. intros b. rewrite <- HL, listed_iff, elem_of_list_to_set, list_elem_of_fmap. split.
    - intros (i & Hi & <-). exists i. rewrite elem_of_seqZ. split; [done|lia].
    - intros (i & -> & Hi%elem_of_seqZ). exists i. split; [lia|done]. }
  rewrite HL', size_list_to_set.
  - rewrite length_fmap, length_seqZ. lia.
  - apply NoDup_fmap_2_strong; [|apply NoDup_seqZ]. intros i j Hi%elem_of_seqZ Hj%elem_of_seqZ. apply Hinj; lia.
Qed.

Lemma txn_size e s v H L : txn e s v H L -> lh_n s = Z.of_nat (size L).
Proof.
  intros [(a & Hi & _) _ _ _ HL]. apply (listed_elements (lh_block s)); [apply Hi|apply (li_nodup _ _ Hi)|done].
Qed.

(** A block that is neither logged nor held is as on the disk. *)
Lemma txn_clean e s v H L b : txn e s v H L -> home (te_start e) b -> b ∉ L -> H !! b = None -> v b = te_disk e b.
Proof.
  intros [(a & Hi & Hv & Hh & Hd & Hwr) _ _ _ HL] Hb Hn HH. rewrite <- Hv, <- Hd by done.
  apply (wf_clean _ (rep_wf _ _ (li_rep _ _ Hi))). rewrite (li_refs _ _ Hi), Hh, HH.
  destruct (listed _ _ b) eqn:Hl; [|done]. apply HL in Hl. done.
Qed.

Lemma txn_data e s v H L b h : txn e s v H L -> home (te_start e) b -> H !! b = Some h -> bdata (l_bc s) h = v b.
Proof.
  intros [(a & Hi & Hv & Hh & Hd & Hwr) _ _ _ _] Hb HH. rewrite <- Hv by done.
  apply (held_spec _ _ _ _ (li_rep _ _ Hi)). by rewrite Hh.
Qed.

Lemma txn_room e s v H L a b : txn e s v H L -> log_inv s a -> (forall c, held a c = H !! c) ->
  Z.of_nat (size L + size H) < NBUF -> room a b.
Proof.
  intros Ht Hi Hh Hsz. right. exists (elements L ++ elements (dom H)). split.
  - rewrite length_app. rewrite <- size_dom in Hsz. unfold size, set_size in Hsz. cbn in Hsz. lia.
  - intros c. rewrite (li_refs _ _ Hi), Hh. intros Hpos. rewrite elem_of_app, !elem_of_elements, elem_of_dom.
    destruct (listed _ _ c) eqn:Hl; [left; by apply (tx_listed _ _ _ _ _ Ht)|]. right. destruct (H !! c); [eauto|lia].
Qed.

(** The log with another cache. *)
Lemma txn_set_bc e s v H L v' H' x : txn e s v H L ->
  (forall a, log_inv s a -> (forall b, home (te_start e) b -> view a b = v b) -> (forall b, held a b = H !! b) ->
   exists a', log_inv (set_bc x s) a' /\ (forall b, home (te_start e) b -> view a' b = v' b) /\
     (forall b, held a' b = H' !! b) /\ disk a' = disk a /\ writes a' = writes a) ->
  txn e (set_bc x s) v' H' L.
Proof.
  intros [(a & Hi & Hv & Hh & Hd & Hwr) ? ? ? ?] Hx. destruct (Hx a Hi Hv Hh) as (a' & ? & ? & ? & He & Hw').
  split; try done. exists a'. rewrite He, Hw'. done.
Qed.

Lemma txn_bread e s v H L b : txn e s v H L -> home (te_start e) b -> H !! b = None ->
  Z.of_nat (size L + size H) < NBUF ->
  returns (on_bc (bread ROOTDEV b) s) (fun h s' => txn e s' v (<[b := h]> H) L /\ bdata (l_bc s') h = v b).
Proof.
  intros Ht Hb HH Hsz. pose proof Ht as [(a & Hi & Hv & Hh & Hd & Hwr) Hst _ _ _].
  rewrite <- (li_dev _ _ Hi). eapply returns_mono; [apply (log_bread s a); [done|apply Hb|by rewrite Hh|by eapply txn_room]|].
  intros h s' (x & -> & Hi').
  assert (Ht' : txn e (set_bc x s) v (<[b := h]> H) L).
  { destruct Ht. split; try done. exists (a_get b h a). split_and!; try done.
    intros c. cbn. unfold upd. destruct (Z.eqb_spec c b) as [->|]; [by rewrite lookup_insert_eq|by rewrite lookup_insert_ne]. }
  split; [done|]. by apply (txn_data _ _ _ _ _ _ _ Ht'); [|apply lookup_insert_eq].
Qed.

Lemma txn_set e s v H L b h d : txn e s v H L -> home (te_start e) b -> H !! b = Some h -> length d = Z.to_nat BSIZE ->
  txn e (set_bc (set_bdata h d (l_bc s)) s) (upd v b d) H L.
Proof.
  intros Ht Hb HH Hd. eapply txn_set_bc; [done|]. intros a Hi Hv Hh. exists (a_set b d a). split_and!; try done.
  - apply log_set; [done|by rewrite Hh|done].
  - intros c Hc. cbn. unfold upd. destruct (c =? b); [done|auto].
Qed.

Lemma txn_log_write e s v H L b h : txn e s v H L -> home (te_start e) b -> H !! b = Some h ->
  Z.of_nat (size L) < LOGBLOCKS -> 1 <= te_out e ->
  returns (log_write h s) (fun _ s' => txn e s' v H ({[b]} ∪ L) /\ bdata (l_bc s') h = v b).
Proof.
  intros Ht Hb HH Hsz Hout. pose proof (txn_size _ _ _ _ _ Ht) as Hn.
  pose proof Ht as [(a & Hi & Hv & Hh & Hd & Hwr) Hst Ho Hc HL].
  eapply returns_mono; [apply (log_write_ok s a b h); [done|by rewrite Hh|by rewrite Hst|lia|lia]|].
  intros [] s' (k & Hi' & (Hst' & Ho' & Hc') & Hn' & HL').
  assert (Ht' : txn e s' v H ({[b]} ∪ L)).
  { split; [|congruence..|].
    - exists (a_ref b k a). split_and!; done.
    - intros c. rewrite HL', orb_true_iff, HL, Z.eqb_eq. set_solver. }
  split; [done|]. by eapply txn_data.
Qed.

Lemma txn_brelse e s v H L b h : txn e s v H L -> home (te_start e) b -> H !! b = Some h ->
  b ∈ L \/ v b = te_disk e b ->
  returns (on_bc (brelse h) s) (fun _ s' => txn e s' v (delete b H) L).
Proof.
  intros Ht Hb HH Hor. pose proof Ht as [(a & Hi & Hv & Hh & Hd & Hwr) Hst _ _ HL].
  eapply returns_mono; [apply (log_brelse s a b h); [done|by rewrite Hh|]|].
  { destruct Hor as [Hin|Hin]; [left; by apply HL|right]. by rewrite Hv, Hd. }
  intros [] s' (x & -> & Hi'). destruct Ht. split; try done. exists (a_release b a). split_and!; try done.
  intros c. cbn. unfold upd. destruct (Z.eqb_spec c b) as [->|]; [by rewrite lookup_delete_eq|by rewrite lookup_delete_ne].
Qed.

(** ** Beginning and ending *)

Definition begun (e : tenv) : tenv := mk_env (te_start e) (te_out e + 1) (te_disk e) (te_writes e).

Lemma txn_begin e s v L : txn e s v ∅ L ->
  Z.of_nat (size L) + (te_out e + 1) * MAXOPBLOCKS <= LOGBLOCKS ->
  returns (begin_op s) (fun ok s' => ok = true /\ txn (begun e) s' v ∅ L).
Proof.
  intros Ht Hsz. pose proof (txn_size _ _ _ _ _ Ht) as Hn.
  pose proof Ht as [(a & Hi & Hv & Hh & Hd & Hwr) Hst Ho Hc HL].
  unfold begin_op. mstep. rewrite Hc. destruct (Z.ltb_spec LOGBLOCKS (lh_n s + (l_outstanding s + 1) * MAXOPBLOCKS)); [lia|].
  mstep. cbn [ret returns]. split; [done|]. split; cbn; try done; [|lia].
  exists a. split_and!; try done. destruct Hi. by split.
Qed.

(** A quiet log: nothing is open, logged or held, and the disk has the current
    contents. *)
Definition at_rest (e : tenv) (s : log) (v : Z -> list Z) : Prop :=
  txn e s v ∅ ∅ /\ te_out e = 0 /\ forall b, home (te_start e) b -> te_disk e b = v b.

Lemma rest_intro s a v : log_inv s a -> quiet a -> lh_n s = 0 -> l_outstanding s = 0 -> l_committing s = false ->
  (forall b, home (l_start s) b -> view a b = v b /\ disk a b = v b) ->
  at_rest (mk_env (l_start s) 0 (disk a) (writes a)) s v.
Proof.
  intros Hi Hq Hn Ho Hc Hb. split_and!; [|done|intros b Hbh; by apply Hb]. split; cbn; try done.
  - exists a. split; [done|]. split_and!; try done. intros b Hbh. by apply Hb.
  - intros b. rewrite Hn. by split; [|set_solver].
Qed.

(** The end of the last open call: everything logged is on the disk, and a
    crash after any number of the writes this takes recovers the disk before
    the transaction or the one after it. *)
Lemma txn_end e s v L : txn e s v ∅ L -> te_out e = 1 -> Z.of_nat (size L) < NBUF ->
  returns (end_op s) (fun _ s' => exists d' w, at_rest (mk_env (te_start e) 0 d' (te_writes e ++ w)) s' v /\
    forall k, returns (initlog ROOTDEV (te_start e) (boot (apply_writes (te_disk e) (take k w)))) (fun _ s'' =>
      exists e'', te_start e'' = te_start e /\ (at_rest e'' s'' (te_disk e) \/ at_rest e'' s'' v))).
Proof.
  intros Ht Hone Hsz. pose proof (txn_size _ _ _ _ _ Ht) as Hn.
  pose proof Ht as [(a & Hi & Hv & Hh & Hd & Hwr) Hst Ho Hc HL].
  eapply returns_mono; [apply (end_op_crash s a); [done|intros b; by rewrite Hh|lia|lia|done]|].
  intros [] s' (a' & w & Hi' & Hq' & Hn' & Hst' & Ho' & Hc' & Hw & Hb & Hk). exists (disk a'), w. split.
  - rewrite <- Hwr, <- Hw, <- Hst, <- Hst'. apply rest_intro; try done. rewrite Hst'. intros b Hbh.
    destruct (Hb b Hbh) as [-> ->]. rewrite Hst in Hbh. auto.
  - intros k. rewrite <- Hst, <- Hd. eapply returns_mono; [apply (Hk k)|].
    intros [] s'' (a'' & Hi'' & Hq'' & Hn'' & Hst'' & Ho'' & Hc'' & Hb''). exists (mk_env (l_start s'') 0 (disk a'') (writes a'')).
    split; [done|]. destruct (Z.of_nat k <=? lh_n s); [left|right]; apply rest_intro; try done; rewrite Hst''; intros b Hbh.
    + by apply Hb''.
    + destruct (Hb'' b Hbh) as [-> ->]. rewrite Hst in Hbh. auto.
Qed.
End Txn.

#[export] Hint Resolve txn_len txn_data : kern.
