(* ===== verification/Fs.v ===== *)
(** The file system of [kernel/fs.c] over the log: the block allocator, the
    inode table, file contents, directories and path names.  Every operation
    runs to completion; a sleep lock that the caller already holds would block
    it for ever. *)
From S2P Require Import Prelude Bufcache Log.
Local Open Scope kern_scope.

(** * Data *)

Definition FSMAGIC : Z := 0x10203040.
Definition ROOTINO : Z := 1.
Definition NDIRECT : Z := 12.
Definition NINDIRECT : Z := BSIZE / 4.
Definition MAXFILE : Z := NDIRECT + NINDIRECT.
Definition sizeof_dinode : Z := 64.
Definition IPB : Z := BSIZE / sizeof_dinode.
Definition BPB : Z := BSIZE * 8.
Definition DIRSIZ : Z := 14.
Definition sizeof_dirent : Z := 16.
Definition NINODE : Z := 50.
Definition T_DIR : Z := 1.
Definition T_FILE : Z := 2.
Definition T_DEVICE : Z := 3.

Record superblock := mk_sb {
  sb_magic : Z;
  sb_size : Z;
  sb_nblocks : Z;
  sb_ninodes : Z;
  sb_nlog : Z;
  sb_logstart : Z;
  sb_inodestart : Z;
  sb_bmapstart : Z
}.

Definition IBLOCK (i : Z) (sb : superblock) : Z := u32 (i / IPB + sb_inodestart sb).
Definition BBLOCK (b : Z) (sb : superblock) : Z := u32 (b / BPB + sb_bmapstart sb).

(** [struct dinode]; the copy of it in [struct inode] is the same record. *)
Record dinode := mk_di {
  di_type : Z;
  di_major : Z;
  di_minor : Z;
  di_nlink : Z;
  di_size : Z;
  di_addrs : list Z
}.

Definition i16 (x : Z) : Z := (x + 2 ^ 15) mod 2 ^ 16 - 2 ^ 15.

Definition addr_offset (o i : Z) : Z := o + 12 + 4 * i.
Definition get_dinode (d : list Z) (o : Z) : dinode :=
  mk_di (i16 (le_at d o 2)) (i16 (le_at d (o + 2) 2)) (i16 (le_at d (o + 4) 2)) (i16 (le_at d (o + 6) 2))
    (le_at d (o + 8) 4) ((fun i => le_at d (addr_offset o i) 4) <$> seqZ 0 (NDIRECT + 1)).
Definition put_dinode (d : list Z) (o : Z) (di : dinode) : list Z :=
  let d := set_le d o 2 (di_type di) in
  let d := set_le d (o + 2) 2 (di_major di) in
  let d := set_le d (o + 4) 2 (di_minor di) in
  let d := set_le d (o + 6) 2 (di_nlink di) in
  let d := set_le d (o + 8) 4 (di_size di) in
  foldl (fun d i => set_le d (addr_offset o i) 4 (nth (Z.to_nat i) (di_addrs di) 0)) d (seqZ 0 (NDIRECT + 1)).

(** The inode [inum] in its block. *)
Definition inode_offset (inum : Z) : Z := inum mod IPB * sizeof_dinode.

Record inode := mk_inode {
  i_dev : Z;
  i_inum : Z;
  i_ref : Z;
  i_lock : bool;
  i_valid : bool;
  i_di : dinode
}.
Definition set_ref v ip := mk_inode (i_dev ip) (i_inum ip) v (i_lock ip) (i_valid ip) (i_di ip).
Definition set_ilock v ip := mk_inode (i_dev ip) (i_inum ip) (i_ref ip) v (i_valid ip) (i_di ip).
Definition set_valid v ip := mk_inode (i_dev ip) (i_inum ip) (i_ref ip) (i_lock ip) v (i_di ip).
Definition set_di v ip := mk_inode (i_dev ip) (i_inum ip) (i_ref ip) (i_lock ip) (i_valid ip) v.
Definition set_type v di := mk_di v (di_major di) (di_minor di) (di_nlink di) (di_size di) (di_addrs di).
Definition set_nlink v di := mk_di (di_type di) (di_major di) (di_minor di) v (di_size di) (di_addrs di).
Definition set_size v di := mk_di (di_type di) (di_major di) (di_minor di) (di_nlink di) v (di_addrs di).
Definition set_addr (i v : Z) di :=
  mk_di (di_type di) (di_major di) (di_minor di) (di_nlink di) (di_size di) (<[Z.to_nat i := v]> (di_addrs di)).
Definition addr (di : dinode) (i : Z) : Z := nth (Z.to_nat i) (di_addrs di) 0.

(** Bit [bi] of a bitmap block. *)
Definition bit_used (d : list Z) (bi : Z) : bool :=
  negb (Z.land (nth (Z.to_nat (bi / 8)) d 0) (Z.shiftl 1 (bi mod 8)) =? 0).
Definition bit_mark (d : list Z) (bi : Z) : list Z :=
  <[Z.to_nat (bi / 8) := Z.lor (nth (Z.to_nat (bi / 8)) d 0) (Z.shiftl 1 (bi mod 8))]> d.
Definition bit_clear (d : list Z) (bi : Z) : list Z :=
  <[Z.to_nat (bi / 8) := Z.land (nth (Z.to_nat (bi / 8)) d 0) (u8 (Z.lnot (Z.shiftl 1 (bi mod 8))))]> d.

(** An entry of [uint *a = (uint* )bp->data]. *)
Definition entry (d : list Z) (j : Z) : Z := le_at d (4 * j) 4.
Definition set_entry (d : list Z) (j v : Z) : list Z := set_le d (4 * j) 4 v.

(** [bs] over the bytes of [d] from [o] on. *)
Definition patch (d : list Z) (o : Z) (bs : list Z) : list Z :=
  take (Z.to_nat o) d ++ bs ++ drop (Z.to_nat o + length bs) d.

(** Where [readi] puts bytes: whether the bytes at a position of the
    destination can be copied out; and where [writei] takes them from: the
    bytes it gets, and whether all of them could be copied in. *)
Definition sink : Type := Z -> list Z -> bool.
Definition source : Type := Z -> Z -> list Z * bool.
(** Kernel memory. *)
Definition kernel_sink : sink := fun _ _ => true.
Definition kernel_source (bs : list Z) : source := fun i m => (take (Z.to_nat m) (drop (Z.to_nat i) bs), true).

Section Fs.
Context {BC : BufCache}.

Record fsys := mk_fsys {
  f_log : log;
  f_sb : superblock;
  f_itable : Z -> inode;
  f_msgs : list string
}.
Definition put_log l s := mk_fsys l (f_sb s) (f_itable s) (f_msgs s).
Definition put_sb x s := mk_fsys (f_log s) x (f_itable s) (f_msgs s).
Definition put_itable t s := mk_fsys (f_log s) (f_sb s) t (f_msgs s).
Definition put_msg m s := mk_fsys (f_log s) (f_sb s) (f_itable s) (f_msgs s ++ [m]).

(** Calls into the log and the buffer cache. *)
Definition lg {A} (m : M log A) : M fsys A := zoom f_log put_log m.
Definition fbread (dev b : Z) : M fsys Z := lg (on_bc (bread dev b)).
Definition fdata (bp : Z) : M fsys (list Z) := gets (fun s => bdata (l_bc (f_log s)) bp).
Definition fset (bp : Z) (d : list Z) : M fsys unit := lg (on_bc (modify (set_bdata bp d))).
Definition flog_write (bp : Z) : M fsys unit := lg (log_write bp).
Definition fbrelse (bp : Z) : M fsys unit := lg (on_bc (brelse bp)).
Definition printf (m : string) : M fsys unit := modify (put_msg m).

Definition geti (ip : Z) : M fsys inode := gets (fun s => f_itable s ip).
Definition seti (ip : Z) (f : inode -> inode) : M fsys unit :=
  modify (fun s => put_itable (upd (f_itable s) ip (f (f_itable s ip))) s).

(** [begin_op] and [end_op] as a system call sees them: it sleeps until the log
    has space. *)
Definition fbegin_op : M fsys unit := do ok <- lg begin_op; if ok : bool then ret tt else no_fuel.
Definition fend_op : M fsys unit := lg end_op.

(** * Blocks *)

Definition readsb (dev : Z) : M fsys unit :=
  do bp <- fbread dev 1;
  do d <- fdata bp;
  modify (put_sb (mk_sb (le_at d 0 4) (le_at d 4 4) (le_at d 8 4) (le_at d 12 4) (le_at d 16 4) (le_at d 20 4)
    (le_at d 24 4) (le_at d 28 4))) ;;;
  fbrelse bp.

Definition bzero (dev bno : Z) : M fsys unit :=
  do bp <- fbread dev bno;
  fset bp (replicate (Z.to_nat BSIZE) 0) ;;;
  flog_write bp ;;;
  fbrelse bp.

Fixpoint balloc_loop (k : nat) (dev b : Z) : M fsys Z :=
  match k with
  | O => no_fuel
  | S k' =>
      do sb <- gets f_sb;
      if b <? sb_size sb then
        do bp <- fbread dev (BBLOCK b sb);
        do d <- fdata bp;
        match scan (fun bi => negb (bit_used d bi)) (Z.min BPB (sb_size sb - b)) with
        | Some bi =>
            fset bp (bit_mark d bi) ;;;
            flog_write bp ;;;
            fbrelse bp ;;;
            bzero dev (b + bi) ;;;
            ret (b + bi)
        | None => fbrelse bp ;;; balloc_loop k' dev (b + BPB)
        end
      else printf "balloc: out of blocks" ;;; ret 0
  end.
(** One iteration per bitmap block, and the final test. *)
Definition balloc (dev : Z) : M fsys Z :=
  do sb <- gets f_sb; balloc_loop (Z.to_nat (sb_size sb / BPB) + 2) dev 0.

Definition bfree (dev b : Z) : M fsys unit :=
  do sb <- gets f_sb;
  do bp <- fbread dev (BBLOCK b sb);
  do d <- fdata bp;
  if negb (bit_used d (b mod BPB)) then panic "freeing free block"
  else
    fset bp (bit_clear d (b mod BPB)) ;;;
    flog_write bp ;;;
    fbrelse bp.

(** * Inodes *)

(** [iinit] makes the sleep locks. *)
Definition iinit : M fsys unit := for_loop (Z.to_nat NINODE) 0 (fun i => seti i (set_ilock false)).

Definition iget (dev inum : Z) : M fsys Z :=
  do s <- get;
  let tab := f_itable s in
  match scan (fun i => (0 <? i_ref (tab i)) && (i_dev (tab i) =? dev) && (i_inum (tab i) =? inum)) NINODE with
  | Some i => seti i (fun ip => set_ref (i_ref ip + 1) ip) ;;; ret i
  | None =>
      match scan (fun i => i_ref (tab i) =? 0) NINODE with
      | None => panic "iget: no inodes"
      | Some i => seti i (fun ip => mk_inode dev inum 1 (i_lock ip) false (i_di ip)) ;;; ret i
      end
  end.

Fixpoint ialloc_loop (k : nat) (dev type inum : Z) : M fsys (option Z) :=
  match k with
  | O => printf "ialloc: no inodes" ;;; ret None
  | S k' =>
      do sb <- gets f_sb;
      do bp <- fbread dev (IBLOCK inum sb);
      do d <- fdata bp;
      if di_type (get_dinode d (inode_offset inum)) =? 0 then
        fset bp (put_dinode d (inode_offset inum) (mk_di type 0 0 0 0 (replicate 13 0))) ;;;
        flog_write bp ;;;
        fbrelse bp ;;;
        do ip <- iget dev inum; ret (Some ip)
      else fbrelse bp ;;; ialloc_loop k' dev type (inum + 1)
  end.
Definition ialloc (dev type : Z) : M fsys (option Z) :=
  do sb <- gets f_sb; ialloc_loop (Z.to_nat (sb_ninodes sb - 1)) dev type 1.

Definition iupdate (ip : Z) : M fsys unit :=
  do i <- geti ip;
  do sb <- gets f_sb;
  do bp <- fbread (i_dev i) (IBLOCK (i_inum i) sb);
  do d <- fdata bp;
  fset bp (put_dinode d (inode_offset (i_inum i)) (i_di i)) ;;;
  flog_write bp ;;;
  fbrelse bp.

Definition idup (ip : Z) : M fsys Z := seti ip (fun i => set_ref (i_ref i + 1) i) ;;; ret ip.

Definition ilock (ip : Z) : M fsys unit :=
  do i <- geti ip;
  if i_ref i <? 1 then panic "ilock"
  else if i_lock i then no_fuel
  else
    seti ip (set_ilock true) ;;;
    if negb (i_valid i) then
      do sb <- gets f_sb;
      do bp <- fbread (i_dev i) (IBLOCK (i_inum i) sb);
      do d <- fdata bp;
      seti ip (set_di (get_dinode d (inode_offset (i_inum i)))) ;;;
      fbrelse bp ;;;
      seti ip (set_valid true) ;;;
      if di_type (get_dinode d (inode_offset (i_inum i))) =? 0 then panic "ilock: no type" else ret tt
    else ret tt.

Definition iunlock (ip : Z) : M fsys unit :=
  do i <- geti ip;
  if negb (i_lock i) || (i_ref i <? 1) then panic "iunlock" else seti ip (set_ilock false).

(** * Contents *)

(** The address of a slot of the inode, allocated when it has none: the test
    and assignment that [bmap] makes for a direct block and for the indirect
    block. *)
Definition addr_or_alloc (ip i : Z) : M fsys Z :=
  do n <- geti ip;
  if addr (i_di n) i =? 0 then
    do a <- balloc (i_dev n);
    if a =? 0 then ret 0
    else seti ip (fun n => set_di (set_addr i a (i_di n)) n) ;;; ret a
  else ret (addr (i_di n) i).

Definition bmap (ip bn : Z) : M fsys Z :=
  if bn <? NDIRECT then addr_or_alloc ip bn
  else
    let bn := bn - NDIRECT in
    if bn <? NINDIRECT then
      do a <- addr_or_alloc ip NDIRECT;
      if a =? 0 then ret 0
      else
        do n <- geti ip;
        do bp <- fbread (i_dev n) a;
        do d <- fdata bp;
        do r <- (if entry d bn =? 0 then
                   do x <- balloc (i_dev n);
                   if negb (x =? 0) then
                     do d <- fdata bp;
                     fset bp (set_entry d bn x) ;;; flog_write bp ;;; ret x
                   else ret x
                 else ret (entry d bn));
        fbrelse bp ;;;
        ret r
    else panic "bmap: out of range".

Definition itrunc (ip : Z) : M fsys unit :=
  for_loop (Z.to_nat NDIRECT) 0 (fun i =>
    do n <- geti ip;
    if negb (addr (i_di n) i =? 0) then
      bfree (i_dev n) (addr (i_di n) i) ;;;
      seti ip (fun n => set_di (set_addr i 0 (i_di n)) n)
    else ret tt) ;;;
  do n <- geti ip;
  (if negb (addr (i_di n) NDIRECT =? 0) then
     do bp <- fbread (i_dev n) (addr (i_di n) NDIRECT);
     do d <- fdata bp;
     for_loop (Z.to_nat NINDIRECT) 0 (fun j =>
       if negb (entry d j =? 0) then bfree (i_dev n) (entry d j) else ret tt) ;;;
     fbrelse bp ;;;
     bfree (i_dev n) (addr (i_di n) NDIRECT) ;;;
     seti ip (fun n => set_di (set_addr NDIRECT 0 (i_di n)) n)
   else ret tt) ;;;
  seti ip (fun n => set_di (set_size 0 (i_di n)) n) ;;;
  iupdate ip.

Definition iput (ip : Z) : M fsys unit :=
  do i <- geti ip;
  (if (i_ref i =? 1) && i_valid i && (di_nlink (i_di i) =? 0) then
     if i_lock i then no_fuel
     else
       seti ip (set_ilock true) ;;;
       itrunc ip ;;;
       seti ip (fun n => set_di (set_type 0 (i_di n)) n) ;;;
       iupdate ip ;;;
       seti ip (set_valid false) ;;;
       seti ip (set_ilock false)
   else ret tt) ;;;
  seti ip (fun n => set_ref (i_ref n - 1) n).

Definition iunlockput (ip : Z) : M fsys unit := iunlock ip ;;; iput ip.

(** The body of the loop of [ireclaim]. *)
Definition ireclaim_inode (dev inum : Z) : M fsys unit :=
  do sb <- gets f_sb;
  do bp <- fbread dev (IBLOCK inum sb);
  do d <- fdata bp;
  let dip := get_dinode d (inode_offset inum) in
  do ip <- (if negb (di_type dip =? 0) && (di_nlink dip =? 0)
            then printf "ireclaim: orphaned inode" ;;; do ip <- iget dev inum; ret (Some ip)
            else ret None);
  fbrelse bp ;;;
  match ip with
  | Some ip => fbegin_op ;;; ilock ip ;;; iunlock ip ;;; iput ip ;;; fend_op
  | None => ret tt
  end.

Definition ireclaim (dev : Z) : M fsys unit :=
  do sb <- gets f_sb; for_loop (Z.to_nat (sb_ninodes sb - 1)) 1 (ireclaim_inode dev).

Definition fsinit (dev : Z) : M fsys unit :=
  readsb dev ;;;
  do sb <- gets f_sb;
  if negb (sb_magic sb =? FSMAGIC) then panic "invalid file system"
  else lg (initlog dev (sb_logstart sb)) ;;; ireclaim dev.

(** [struct stat]: device, inode number, type, links, size. *)
Definition stati (ip : Z) : M fsys (Z * Z * Z * Z * Z) :=
  do i <- geti ip;
  ret (i_dev i, i_inum i, di_type (i_di i), di_nlink (i_di i), di_size (i_di i)).

(** The loops of [readi] and [writei]; [tot] and [off] do not wrap, because
    [off + n] was found not to. *)
Fixpoint readi_loop (k : nat) (ip : Z) (dst : sink) (tot off n : Z) (out : list Z) : M fsys (Z * list Z) :=
  match k with
  | O => no_fuel
  | S k' =>
      if tot <? n then
        do a <- bmap ip (off / BSIZE);
        if a =? 0 then ret (tot, out)
        else
          do i <- geti ip;
          do bp <- fbread (i_dev i) a;
          do d <- fdata bp;
          let m := Z.min (n - tot) (BSIZE - off mod BSIZE) in
          let bs := take (Z.to_nat m) (drop (Z.to_nat (off mod BSIZE)) d) in
          if dst tot bs then fbrelse bp ;;; readi_loop k' ip dst (tot + m) (off + m) n (out ++ bs)
          else fbrelse bp ;;; ret (-1, out)
      else ret (tot, out)
  end.

(** The result of the call and the bytes delivered. *)
Definition readi (ip : Z) (dst : sink) (off n : Z) : M fsys (Z * list Z) :=
  do i <- geti ip;
  if (di_size (i_di i) <? off) || (u32 (off + n) <? off) then ret (0, [])
  else
    let n := if di_size (i_di i) <? u32 (off + n) then u32 (di_size (i_di i) - off) else n in
    readi_loop (Z.to_nat (n / BSIZE) + 3) ip dst 0 off n [].

Fixpoint writei_loop (k : nat) (ip : Z) (src : source) (tot off n : Z) : M fsys (Z * Z) :=
  match k with
  | O => no_fuel
  | S k' =>
      if tot <? n then
        do a <- bmap ip (off / BSIZE);
        if a =? 0 then ret (tot, off)
        else
          do i <- geti ip;
          do bp <- fbread (i_dev i) a;
          let m := Z.min (n - tot) (BSIZE - off mod BSIZE) in
          do d <- fdata bp;
          let '(bs, ok) := src tot m in
          fset bp (patch d (off mod BSIZE) bs) ;;;
          if ok : bool then
            flog_write bp ;;; fbrelse bp ;;; writei_loop k' ip src (tot + m) (off + m) n
          else fbrelse bp ;;; ret (tot, off)
      else ret (tot, off)
  end.

Definition writei (ip : Z) (src : source) (off n : Z) : M fsys Z :=
  do i <- geti ip;
  if (di_size (i_di i) <? off) || (u32 (off + n) <? off) then ret (-1)
  else if MAXFILE * BSIZE <? u32 (off + n) then ret (-1)
  else
    do r <- writei_loop (Z.to_nat (n / BSIZE) + 3) ip src 0 off n;
    let '(tot, off) := r in
    (do i <- geti ip;
     if di_size (i_di i) <? off then seti ip (fun i => set_di (set_size off (i_di i)) i) else ret tt) ;;;
    iupdate ip ;;;
    ret tot.

(** * Directories *)

(** [strncmp(s, t, n)]; a byte string ends with a NUL or at its end. *)
Fixpoint name_cmp (n : nat) (p q : list Z) : Z :=
  match n with
  | O => 0
  | S n' =>
      if negb (hd 0 p =? 0) && (hd 0 p =? hd 0 q) then name_cmp n' (tail p) (tail q) else hd 0 p - hd 0 q
  end.
Definition namecmp (s t : list Z) : Z := name_cmp (Z.to_nat DIRSIZ) s t.

(** [struct dirent] in the bytes read. *)
Definition de_inum (de : list Z) : Z := le_at de 0 2.
Definition de_name (de : list Z) : list Z := take (Z.to_nat DIRSIZ) (drop 2 de).
(** [strncpy(de.name, name, DIRSIZ); de.inum = inum]. *)
Definition mk_dirent (name : list Z) (inum : Z) : list Z :=
  [u16 inum mod 256; u16 inum / 256] ++ take (Z.to_nat DIRSIZ) (name ++ replicate (Z.to_nat DIRSIZ) 0).

Fixpoint dirlookup_loop (k : nat) (dp : Z) (name : list Z) (off : Z) : M fsys (option (Z * Z)) :=
  match k with
  | O => no_fuel
  | S k' =>
      do d <- geti dp;
      if off <? di_size (i_di d) then
        do r <- readi dp kernel_sink off sizeof_dirent;
        if negb (fst r =? sizeof_dirent) then panic "dirlookup read"
        else if de_inum (snd r) =? 0 then dirlookup_loop k' dp name (off + sizeof_dirent)
        else if namecmp name (de_name (snd r)) =? 0 then
          do ip <- iget (i_dev d) (de_inum (snd r)); ret (Some (ip, off))
        else dirlookup_loop k' dp name (off + sizeof_dirent)
      else ret None
  end.
(** The inode and the offset of its entry. *)
Definition dirlookup (dp : Z) (name : list Z) : M fsys (option (Z * Z)) :=
  do d <- geti dp;
  if negb (di_type (i_di d) =? T_DIR) then panic "dirlookup not DIR"
  else dirlookup_loop (Z.to_nat (di_size (i_di d) / sizeof_dirent) + 2) dp name 0.

(** The scan of [dirlink] for an empty entry. *)
Fixpoint dirlink_loop (k : nat) (dp off : Z) : M fsys Z :=
  match k with
  | O => no_fuel
  | S k' =>
      do d <- geti dp;
      if off <? di_size (i_di d) then
        do r <- readi dp kernel_sink off sizeof_dirent;
        if negb (fst r =? sizeof_dirent) then panic "dirlink read"
        else if de_inum (snd r) =? 0 then ret off
        else dirlink_loop k' dp (off + sizeof_dirent)
      else ret off
  end.

Definition dirlink (dp : Z) (name : list Z) (inum : Z) : M fsys Z :=
  do r <- dirlookup dp name;
  match r with
  | Some (ip, _) => iput ip ;;; ret (-1)
  | None =>
      do d <- geti dp;
      do off <- dirlink_loop (Z.to_nat (di_size (i_di d) / sizeof_dirent) + 2) dp 0;
      do n <- writei dp (kernel_source (mk_dirent name inum)) off sizeof_dirent;
      ret (if negb (n =? sizeof_dirent) then -1 else 0)
  end.

(** * Paths *)

Definition c_slash : Z := 47.

Fixpoint skip_slashes (path : list Z) : list Z :=
  match path with c :: rest => if c =? c_slash then skip_slashes rest else path | [] => [] end.
Fixpoint split_elem (path : list Z) : list Z * list Z :=
  match path with
  | c :: rest => if c =? c_slash then ([], path) else let '(e, r) := split_elem rest in (c :: e, r)
  | [] => ([], [])
  end.
(** The element, cut to [DIRSIZ] bytes, and the path after it. *)
Definition skipelem (path : list Z) : option (list Z * list Z) :=
  match skip_slashes path with
  | [] => None
  | path => let '(e, r) := split_elem path in Some (take (Z.to_nat DIRSIZ) e, skip_slashes r)
  end.

(** The loop of [namex]: the inode and the last name. *)
Fixpoint namex_loop (k : nat) (ip : Z) (path : list Z) (nameiparent : bool) (name : list Z) : M fsys (option (Z * list Z)) :=
  match k with
  | O => no_fuel
  | S k' =>
      match skipelem path with
      | None => if nameiparent then iput ip ;;; ret None else ret (Some (ip, name))
      | Some (name, path) =>
          ilock ip ;;;
          do i <- geti ip;
          if negb (di_type (i_di i) =? T_DIR) then iunlockput ip ;;; ret None
          else if nameiparent && bool_decide (path = []) then iunlock ip ;;; ret (Some (ip, name))
          else
            do r <- dirlookup ip name;
            match r with
            | None => iunlockput ip ;;; ret None
            | Some (next, _) => iunlockput ip ;;; namex_loop k' next path nameiparent name
            end
      end
  end.

(** [cwd] is [myproc()->cwd]. *)
Definition namex (cwd : Z) (path : list Z) (nameiparent : bool) : M fsys (option (Z * list Z)) :=
  do ip <- (if bool_decide (head path = Some c_slash) then iget ROOTDEV ROOTINO else idup cwd);
  namex_loop (S (length path)) ip path nameiparent [].
Definition namei (cwd : Z) (path : list Z) : M fsys (option Z) :=
  do r <- namex cwd path false; ret (fst <$> r).
Definition nameiparent (cwd : Z) (path : list Z) : M fsys (option (Z * list Z)) := namex cwd path true.
End Fs.
