(* ===== verification/FsBlocks.v ===== *)
(** The block allocator of [kernel/fs.c]: symbolic execution of code over a
    transaction, the fields of bitmap, inode and indirect blocks, and the
    effect of [balloc], [bzero] and [bfree] on the bitmap. *)
From S2P Require Import Prelude Bufcache Log LogClaims Txn Fs.
Local Open Scope kern_scope.

Definition block (d : list Z) : Prop := length d = Z.to_nat BSIZE.

Lemma block_length d : block d -> length d = Z.to_nat BSIZE.
Proof. done. Qed.

Lemma nth_insert {A} (l : list A) i j x z : (i < length l)%nat ->
  nth j (<[i := x]> l) z = if decide (j = i) then x else nth j l z.
Proof.
  intros Hi. rewrite !nth_lookup. case_decide as Hj.
  - subst. by rewrite list_lookup_insert_eq.
  - by rewrite list_lookup_insert_ne.
Qed.

(** * Bits of the bitmap *)

Lemma bit_used_testbit d bi : 0 <= bi -> bit_used d bi = Z.testbit (nth (Z.to_nat (bi / 8)) d 0) (bi mod 8).
Proof.
  intros Hb. unfold bit_used. set (x := nth _ d 0). assert (0 <= bi mod 8) by (apply Z.mod_pos_bound; lia).
  destruct (Z.testbit x (bi mod 8)) eqn:Ht.
  - destruct (Z.eqb_spec (Z.land x (Z.shiftl 1 (bi mod 8))) 0) as [He|]; [|done]. exfalso.
    assert (Z.testbit (Z.land x (Z.shiftl 1 (bi mod 8))) (bi mod 8) = true) as Hc; [|rewrite He, Z.bits_0 in Hc; done].
    rewrite Z.land_spec, Ht, Z.shiftl_spec, Z.sub_diag by lia. done.
  - replace (Z.land x (Z.shiftl 1 (bi mod 8))) with 0; [done|]. symmetry. apply Z.bits_inj'. intros k Hk.
    rewrite Z.land_spec, Z.bits_0, Z.shiftl_spec by lia. destruct (Z.eq_dec k (bi mod 8)) as [->|Hne]; [by rewrite Ht|].
    change 1 with (2 ^ 0). rewrite Z.pow2_bits_eqb by lia. destruct (Z.eqb_spec 0 (k - bi mod 8)); [lia|apply andb_false_r].
Qed.

(** The same byte and the same bit: the same block. *)
Lemma same_bit bi bj : 0 <= bi -> 0 <= bj -> Z.to_nat (bj / 8) = Z.to_nat (bi / 8) -> bj mod 8 = bi mod 8 -> bj = bi.
Proof.
  intros Hi Hj Hd Hm. assert (bj / 8 = bi / 8).
  { apply Z2Nat.inj; [apply Z.div_pos; lia..|done]. }
  rewrite (Z.div_mod bj 8), (Z.div_mod bi 8) by lia. lia.
Qed.

Lemma bit_byte_lt d bi : block d -> 0 <= bi < BPB -> (Z.to_nat (bi / 8) < length d)%nat.
Proof. intros -> Hb. unfold BPB, BSIZE in *. assert (bi / 8 < 1024) by (apply Z.div_lt_upper_bound; lia). lia. Qed.

Lemma bit_used_mark d bi bj : block d -> 0 <= bi < BPB -> 0 <= bj ->
  bit_used (bit_mark d bi) bj = (bj =? bi) || bit_used d bj.
Proof.
  intros Hd Hi Hj. rewrite !bit_used_testbit by lia. unfold bit_mark. rewrite nth_insert by by apply bit_byte_lt.
  assert (0 <= bi mod 8 < 8) by (apply Z.mod_pos_bound; lia). assert (0 <= bj mod 8 < 8) by (apply Z.mod_pos_bound; lia).
  case_decide as Hs.
  - rewrite Z.lor_spec, Hs, Z.shiftl_spec by lia. change 1 with (2 ^ 0). rewrite Z.pow2_bits_eqb by lia.
    rewrite orb_comm. f_equal. apply eq_true_iff_eq. rewrite !Z.eqb_eq. split; [|by intros ->; lia].
    intros. apply same_bit; lia.
  - destruct (Z.eqb_spec bj bi) as [->|]; done.
Qed.

Lemma testbit_lnot8 k j : 0 <= k < 8 -> 0 <= j < 8 -> Z.testbit (u8 (Z.lnot (Z.shiftl 1 k))) j = negb (j =? k).
Proof.
  intros Hk Hj. unfold u8. rewrite Z.mod_pow2_bits_low by lia. rewrite Z.lnot_spec, Z.shiftl_spec by lia.
  change 1 with (2 ^ 0). rewrite Z.pow2_bits_eqb by lia. f_equal. apply eq_true_iff_eq. rewrite !Z.eqb_eq. lia.
Qed.

Lemma bit_used_clear d bi bj : block d -> 0 <= bi < BPB -> 0 <= bj ->
  bit_used (bit_clear d bi) bj = negb (bj =? bi) && bit_used d bj.
Proof.
  intros Hd Hi Hj. rewrite !bit_used_testbit by lia. unfold bit_clear. rewrite nth_insert by by apply bit_byte_lt.
  assert (0 <= bi mod 8 < 8) by (apply Z.mod_pos_bound; lia). assert (0 <= bj mod 8 < 8) by (apply Z.mod_pos_bound; lia).
  case_decide as Hs.
  - rewrite Z.land_spec, Hs, testbit_lnot8 by done.
    rewrite andb_comm. do 2 f_equal. apply eq_true_iff_eq. rewrite !Z.eqb_eq. split; [|by intros ->].
    intros. apply same_bit; lia.
  - destruct (Z.eqb_spec bj bi) as [->|]; done.
Qed.

Lemma block_mark d bi : block d -> block (bit_mark d bi).
Proof. intros Hd. unfold block, bit_mark. by rewrite length_insert. Qed.

Lemma block_clear d bi : block d -> block (bit_clear d bi).
Proof. intros Hd. unfold block, bit_clear. by rewrite length_insert. Qed.

Lemma block_zero : block (replicate (Z.to_nat BSIZE) 0).
Proof. apply length_replicate. Qed.

(** * Integer fields *)

Lemma block_set_le d o n v : block d -> block (set_le d o n v).
Proof. intros Hd. unfold block. by rewrite length_set_le. Qed.

(** The value written, at the width of the field. *)
Lemma store_mod n m a v x : store n m a v x = store n m a (v mod 256 ^ Z.of_nat n) x.
Proof.
  unfold store. destruct (Z.leb_spec a x), (Z.ltb_spec x (a + Z.of_nat n)); cbn; try done.
  set (j := x - a). assert (0 <= j < Z.of_nat n) by lia. change 256 with (2 ^ 8).
  rewrite <- !Z.pow_mul_r by lia. rewrite <- !Z.shiftr_div_pow2, <- !Z.land_ones by lia.
  apply Z.bits_inj'. intros i Hi. rewrite !Z.land_spec, !Z.shiftr_spec by lia.
  destruct (Z.ltb_spec i 8).
  - rewrite (Z.land_spec v), (Z.testbit_ones_nonneg (8 * Z.of_nat n)) by lia.
    destruct (Z.ltb_spec (i + 8 * j) (8 * Z.of_nat n)); [by rewrite andb_true_r|lia].
  - rewrite !(Z.testbit_ones_nonneg 8) by lia. destruct (Z.ltb_spec i 8); [lia|]. by rewrite !andb_false_r.
Qed.

Lemma le_at_set_mod bs o n v : 0 <= o -> o + Z.of_nat n <= Z.of_nat (length bs) ->
  le_at (set_le bs o n v) o n = v mod 256 ^ Z.of_nat n.
Proof.
  intros Ho Hn. rewrite le_at_set_load by done.
  rewrite (load_ext n _ (store n (bytes_of bs) o (v mod 256 ^ Z.of_nat n))) by (intros; apply store_mod).
  apply load_store_eq. apply Z.mod_pos_bound, Z.pow_pos_nonneg; lia.
Qed.

Lemma i16_mod v : - 2 ^ 15 <= v < 2 ^ 15 -> i16 (v mod 256 ^ Z.of_nat 2) = v.
Proof. intros Hv. unfold i16. change (256 ^ Z.of_nat 2) with (2 ^ 16). rewrite Z.add_mod_idemp_l by lia. rewrite Z.mod_small; lia. Qed.

(** ** Indirect blocks *)

Lemma entry_set d j k v : block d -> 0 <= j < NINDIRECT -> 0 <= k < NINDIRECT -> 0 <= v < 2 ^ 32 ->
  entry (set_entry d j v) k = if k =? j then v else entry d k.
Proof.
  intros Hl Hj Hk Hv. unfold block in Hl. unfold entry, set_entry. change NINDIRECT with 256 in *. unfold BSIZE in *.
  destruct (Z.eqb_spec k j) as [->|]; [apply le_at_set_eq; lia|apply le_at_set_ne; lia].
Qed.

Lemma entry_zero j : 0 <= j < NINDIRECT -> entry (replicate (Z.to_nat BSIZE) 0) j = 0.
Proof.
  intros Hj. change NINDIRECT with 256 in *. unfold entry, le_at. change 4%nat with (S (S (S (S O)))).
  assert (Hz : forall i, default 0 (replicate (Z.to_nat BSIZE) 0 !! Z.to_nat i) = 0).
  { intros i. destruct (_ !! Z.to_nat i) eqn:He; [|done]. by apply lookup_replicate in He as [-> _]. }
  rewrite (load_ext 4 _ (fun _ => 0)) by (intros; apply Hz). done.
Qed.

(** ** Inode blocks *)

(** Values that survive on disk. *)
Record di_ok (di : dinode) : Prop := {
  do_type : - 2 ^ 15 <= di_type di < 2 ^ 15;
  do_major : - 2 ^ 15 <= di_major di < 2 ^ 15;
  do_minor : - 2 ^ 15 <= di_minor di < 2 ^ 15;
  do_nlink : - 2 ^ 15 <= di_nlink di < 2 ^ 15;
  do_size : 0 <= di_size di < 2 ^ 32;
  do_len : length (di_addrs di) = 13%nat;
  do_addrs : Forall (fun a => 0 <= a < 2 ^ 32) (di_addrs di)
}.

(** The loop over the addresses. *)
Definition put_addrs (d : list Z) (o : Z) (f : Z -> Z) (l : list Z) : list Z :=
  foldl (fun d i => set_le d (addr_offset o i) 4 (f i)) d l.

Lemma put_addrs_cons d o f i l :
  put_addrs d o f (i :: l) = put_addrs (set_le d (addr_offset o i) 4 (f i)) o f l.
Proof. done. Qed.

Lemma length_put_addrs d o f l : length (put_addrs d o f l) = length d.
Proof. revert d. induction l as [|i l IH]; intros d; [done|]. rewrite put_addrs_cons, IH. apply length_set_le. Qed.

Lemma block_put_addrs d o f l : block d -> block (put_addrs d o f l).
Proof. revert d. induction l as [|i l IH]; intros d Hd; [done|]. rewrite put_addrs_cons. by apply IH, block_set_le. Qed.

Lemma put_addrs_other d o f l o' n : 0 <= o' -> o' + Z.of_nat n <= Z.of_nat (length d) ->
  (forall i, i ∈ l -> o' + Z.of_nat n <= addr_offset o i \/ addr_offset o i + 4 <= o') ->
  le_at (put_addrs d o f l) o' n = le_at d o' n.
Proof.
  revert d. induction l as [|i l IH]; intros d Ho Hn Hd; [done|].
  rewrite put_addrs_cons, IH; [|done|by rewrite length_set_le|intros; apply Hd; by right].
  apply le_at_set_ne; [done..|]. destruct (Hd i); [by left|lia..].
Qed.

Lemma put_addrs_at d o f l i : 0 <= o -> (forall j, j ∈ l -> 0 <= j <= 12) -> o + 64 <= Z.of_nat (length d) ->
  NoDup l -> i ∈ l -> 0 <= f i < 2 ^ 32 -> le_at (put_addrs d o f l) (addr_offset o i) 4 = f i.
Proof.
  intros Ho Hl Hd Hnd Hi Hf. revert d Hd. induction l as [|j l IH]; intros d Hd; [by apply not_elem_of_nil in Hi|].
  apply NoDup_cons in Hnd as [Hj Hnd]. rewrite put_addrs_cons.
  assert (0 <= j <= 12) by (apply Hl; left). assert (0 <= i <= 12) by (apply Hl, Hi).
  apply elem_of_cons in Hi as [->|Hi].
  - rewrite put_addrs_other.
    + unfold addr_offset. apply le_at_set_eq; lia.
    + unfold addr_offset. lia.
    + rewrite length_set_le. unfold addr_offset. lia.
    + intros k Hk. unfold addr_offset. assert (k <> j) by (intros ->; done). lia.
  - apply IH; [intros; apply Hl; by right|done|done|by rewrite length_set_le].
Qed.

(** The fields before the addresses. *)
Definition put_head (d : list Z) (o : Z) (di : dinode) : list Z :=
  set_le (set_le (set_le (set_le (set_le d o 2 (di_type di)) (o + 2) 2 (di_major di)) (o + 4) 2 (di_minor di))
    (o + 6) 2 (di_nlink di)) (o + 8) 4 (di_size di).

Lemma put_dinode_eq d o di : put_dinode d o di = put_addrs (put_head d o di) o (addr di) (seqZ 0 (NDIRECT + 1)).
Proof. unfold put_dinode, put_head, put_addrs, addr. reflexivity. Qed.

Lemma length_put_head d o di : length (put_head d o di) = length d.
Proof. unfold put_head. by rewrite !length_set_le. Qed.

Lemma block_put_dinode d o di : block d -> block (put_dinode d o di).
Proof. intros Hd. rewrite put_dinode_eq. apply block_put_addrs. unfold put_head. by repeat apply block_set_le. Qed.

Ltac field_ne := rewrite le_at_set_ne; [|rewrite ?length_set_le; lia..].

Lemma put_dinode_other d o di o' n : 0 <= o -> o + 64 <= Z.of_nat (length d) -> 0 <= o' ->
  o' + Z.of_nat n <= Z.of_nat (length d) -> o' + Z.of_nat n <= o \/ o + 64 <= o' ->
  le_at (put_dinode d o di) o' n = le_at d o' n.
Proof.
  intros Ho Hd Ho' Hn Hdis. rewrite put_dinode_eq, put_addrs_other.
  - unfold put_head. do 5 field_ne. done.
  - done.
  - by rewrite length_put_head.
  - intros i Hi%elem_of_seqZ. unfold addr_offset, NDIRECT in *. lia.
Qed.

Lemma get_put_other d o di o' : 0 <= o -> o + 64 <= Z.of_nat (length d) -> 0 <= o' -> o' + 64 <= Z.of_nat (length d) ->
  o' + 64 <= o \/ o + 64 <= o' -> get_dinode (put_dinode d o di) o' = get_dinode d o'.
Proof.
  intros Ho Hd Ho' Hd' Hdis. unfold get_dinode. f_equal; try (rewrite put_dinode_other; [done|lia..]).
  apply list_fmap_ext. intros k i Hi. apply list_elem_of_lookup_2, elem_of_seqZ in Hi.
  unfold addr_offset, NDIRECT in *. rewrite put_dinode_other; [done|lia..].
Qed.

Lemma put_dinode_scalar d o di o' n : 0 <= o -> o + 64 <= Z.of_nat (length d) -> o <= o' -> o' + Z.of_nat n <= o + 12 ->
  le_at (put_dinode d o di) o' n = le_at (put_head d o di) o' n.
Proof.
  intros Ho Hd Hlo Hhi. rewrite put_dinode_eq, put_addrs_other; [done|lia|rewrite length_put_head; lia|].
  intros i Hi%elem_of_seqZ. unfold addr_offset. lia.
Qed.

Lemma get_put_same d o di : 0 <= o -> o + 64 <= Z.of_nat (length d) -> di_ok di -> get_dinode (put_dinode d o di) o = di.
Proof.
  intros Ho Hd [Ht Hma Hmi Hnl Hsz Hlen Ha]. unfold get_dinode. rewrite !put_dinode_scalar by (cbn; lia).
  destruct di as [t ma mi nl sz ad]. cbn [di_type di_major di_minor di_nlink di_size di_addrs] in *. f_equal.
  - unfold put_head. cbn. do 4 field_ne. rewrite le_at_set_mod by lia. by apply i16_mod.
  - unfold put_head. cbn. do 3 field_ne. rewrite le_at_set_mod by (rewrite ?length_set_le; lia). by apply i16_mod.
  - unfold put_head. cbn. do 2 field_ne. rewrite le_at_set_mod by (rewrite ?length_set_le; lia). by apply i16_mod.
  - unfold put_head. cbn. do 1 field_ne. rewrite le_at_set_mod by (rewrite ?length_set_le; lia). by apply i16_mod.
  - unfold put_head. cbn. rewrite le_at_set_mod by (rewrite ?length_set_le; lia). apply Z.mod_small. done.
  - apply list_eq. intros k. rewrite list_lookup_fmap. destruct (decide (k < 13)%nat) as [Hk|Hk].
    + rewrite lookup_seqZ_lt by (unfold NDIRECT; lia). cbn [fmap option_fmap option_map].
      destruct (lookup_lt_is_Some_2 ad k ltac:(lia)) as [x Hx]. rewrite Hx. f_equal. rewrite put_dinode_eq, put_addrs_at.
      * unfold addr. cbn [di_addrs]. rewrite Z.add_0_l, Nat2Z.id. by apply nth_lookup_Some with (d := 0) in Hx.
      * done.
      * intros j Hj%elem_of_seqZ. unfold NDIRECT in Hj. lia.
      * by rewrite length_put_head.
      * apply NoDup_seqZ.
      * apply elem_of_seqZ. unfold NDIRECT. lia.
      * unfold addr. cbn [di_addrs]. rewrite Z.add_0_l, Nat2Z.id. rewrite (nth_lookup_Some ad k 0 x Hx).
        by apply (Forall_lookup_1 _ _ _ _ Ha Hx).
    + rewrite lookup_seqZ_ge by (unfold NDIRECT; lia). cbn. symmetry. apply lookup_ge_None_2. lia.
Qed.

(** * Symbolic execution *)

Lemma size_add (x : Z) (L : gset Z) : (size ({[x]} ∪ L) <= size L + 1)%nat.
Proof. rewrite size_union_alt, size_singleton. pose proof (subseteq_size (L ∖ {[x]}) L ltac:(set_solver)). lia. Qed.

Lemma in_add (x : Z) (L : gset Z) : x ∈ {[x]} ∪ L.
Proof. by apply elem_of_union_l, elem_of_singleton. Qed.

Section Exec.
Context {BC : BufCache} (sb : superblock) (e : tenv).

(** The file system in a transaction: contents, held buffers, logged blocks,
    inode table. *)
Record fx (s : fsys) (v : Z -> list Z) (H : gmap Z Z) (L : gset Z) (tab : Z -> inode) : Prop := mk_fx {
  fx_txn : txn e (f_log s) v H L;
  fx_sb : f_sb s = sb;
  fx_tab : forall i, f_itable s i = tab i
}.

Lemma fx_view s v v' H L tab : fx s v H L tab -> (forall b, v b = v' b) -> fx s v' H L tab.
Proof. intros [] Hv. split; try done. eapply txn_ext; [done|]. auto. Qed.

Lemma fx_itab s v H L tab tab' : fx s v H L tab -> (forall i, tab i = tab' i) -> fx s v H L tab'.
Proof. intros [] Ht. split; try done. intros. by rewrite fx_tab0. Qed.

Lemma fx_sets s v H L H' L' tab : fx s v H L tab -> H = H' -> L = L' -> fx s v H' L' tab.
Proof. by intros ? <- <-. Qed.

Lemma lg_bind {A B} (m : M log A) (k : A -> M fsys B) s P Q :
  returns (m (f_log s)) P -> (forall a l, P a l -> returns (k a (put_log l s)) Q) -> returns (bind (lg m) k s) Q.
Proof. intros Hm Hk. unfold bind, lg, zoom. destruct (m (f_log s)); cbn in *; try contradiction. auto. Qed.

Lemma lg_last {A} (m : M log A) s P : returns (m (f_log s)) P -> returns (lg m s) (fun a s' => exists l, s' = put_log l s /\ P a l).
Proof. unfold lg, zoom. destruct (m (f_log s)); cbn; try contradiction. eauto. Qed.

Lemma fx_put s v H L tab l v' H' L' : fx s v H L tab -> txn e l v' H' L' -> fx (put_log l s) v' H' L' tab.
Proof. intros [] Ht. by split. Qed.

Section Steps.
Context {A : Type} (Q : A -> fsys -> Prop).
Context (s : fsys) (v : Z -> list Z) (H : gmap Z Z) (L : gset Z) (tab : Z -> inode).
Hypothesis Hfx : fx s v H L tab.

Lemma fx_bread b (k : Z -> M fsys A) : home (te_start e) b -> H !! b = None -> Z.of_nat (size L + size H) < NBUF ->
  (forall h s', fx s' v (<[b := h]> H) L tab -> returns (k h s') Q) -> returns (bind (fbread ROOTDEV b) k s) Q.
Proof.
  intros Hb HH Hsz Hk. eapply lg_bind; [by eapply txn_bread; [apply Hfx|..]|]. intros h l [Ht _]. apply Hk. by eapply fx_put.
Qed.

Lemma fx_data b h (k : list Z -> M fsys A) : H !! b = Some h -> home (te_start e) b ->
  returns (k (v b) s) Q -> returns (bind (fdata h) k s) Q.
Proof. intros HH Hb Hk. unfold fdata. mstep. by rewrite (txn_data _ _ _ _ _ _ _ (fx_txn _ _ _ _ _ Hfx) Hb HH). Qed.

Lemma fx_set b h d (k : unit -> M fsys A) : H !! b = Some h -> home (te_start e) b -> length d = Z.to_nat BSIZE ->
  (forall s', fx s' (upd v b d) H L tab -> returns (k tt s') Q) -> returns (bind (fset h d) k s) Q.
Proof.
  intros HH Hb Hd Hk.
  apply (Hk (put_log (set_bc (set_bdata h d (l_bc (f_log s))) (f_log s)) s)).
  eapply fx_put; [done|]. eapply txn_set; [apply Hfx|done..].
Qed.

Lemma fx_log_write b h (k : unit -> M fsys A) : H !! b = Some h -> home (te_start e) b ->
  Z.of_nat (size L) < LOGBLOCKS -> 1 <= te_out e ->
  (forall s', fx s' v H ({[b]} ∪ L) tab -> returns (k tt s') Q) -> returns (bind (flog_write h) k s) Q.
Proof.
  intros HH Hb Hsz Ho Hk. eapply lg_bind; [by eapply txn_log_write; [apply Hfx|..]|]. intros [] l [Ht _].
  apply Hk. by eapply fx_put.
Qed.

Lemma fx_brelse b h (k : unit -> M fsys A) : H !! b = Some h -> home (te_start e) b -> b ∈ L \/ v b = te_disk e b ->
  (forall s', fx s' v (delete b H) L tab -> returns (k tt s') Q) -> returns (bind (fbrelse h) k s) Q.
Proof.
  intros HH Hb Hor Hk. eapply lg_bind; [by eapply txn_brelse; [apply Hfx|..]|]. intros [] l Ht.
  apply Hk. by eapply fx_put.
Qed.

Lemma fx_geti ip (k : inode -> M fsys A) : returns (k (tab ip) s) Q -> returns (bind (geti ip) k s) Q.
Proof. unfold geti. mstep. by rewrite (fx_tab _ _ _ _ _ Hfx). Qed.

Lemma fx_seti ip f (k : unit -> M fsys A) :
  (forall s', fx s' v H L (upd tab ip (f (tab ip))) -> returns (k tt s') Q) -> returns (bind (seti ip f) k s) Q.
Proof.
  intros Hk. unfold seti. mstep. apply Hk. destruct Hfx. split; cbn; try done.
  intros i. unfold upd. destruct (Z.eqb_spec i ip) as [->|]; by rewrite fx_tab0.
Qed.

Lemma fx_getsb (k : superblock -> M fsys A) : returns (k sb s) Q -> returns (bind (gets f_sb) k s) Q.
Proof. mstep. by rewrite (fx_sb _ _ _ _ _ Hfx). Qed.

Lemma fx_printf m (k : unit -> M fsys A) :
  (forall s', fx s' v H L tab -> returns (k tt s') Q) -> returns (bind (printf m) k s) Q.
Proof. intros Hk. unfold printf. mstep. apply Hk. by destruct Hfx. Qed.

(** What is known of a block when its buffer is taken. *)
Lemma fx_clean b : home (te_start e) b -> H !! b = None -> b ∈ L \/ v b = te_disk e b.
Proof. intros Hb HH. destruct (decide (b ∈ L)); [by left|right]. by eapply txn_clean; [apply Hfx|..]. Qed.
End Steps.

(** The last statement of a function. *)
Lemma bind_last {A} (m : M fsys A) s Q : returns (bind m ret s) Q -> returns (m s) Q.
Proof. unfold bind. by destruct (m s). Qed.

(** ** Where the parts of the disk are *)

Definition dstart : Z := sb_bmapstart sb + sb_size sb / BPB + 1.
Record sb_ok : Prop := {
  so_start : sb_logstart sb = te_start e;
  so_log : 2 <= sb_logstart sb /\ sb_logstart sb + LOGBLOCKS < sb_inodestart sb;
  so_inodes : 0 < sb_ninodes sb /\ sb_inodestart sb + sb_ninodes sb / IPB < sb_bmapstart sb;
  so_data : dstart <= sb_size sb;
  so_size : sb_size sb < 2 ^ 31
}.
Hypothesis Hsb : sb_ok.

Definition isdata (b : Z) : Prop := dstart <= b < sb_size sb.
Definition inum_ok (i : Z) : Prop := 0 <= i < sb_ninodes sb.
Definition isbm (b : Z) : Prop := sb_bmapstart sb <= b < dstart.
Definition isib (b : Z) : Prop := sb_inodestart sb <= b < sb_bmapstart sb.

Lemma size_pos : 0 <= sb_size sb.
Proof.
  destruct Hsb as [_ ? Hi Hd ?]. unfold dstart in *. pose proof (eq_refl : LOGBLOCKS = 30).
  assert (0 <= sb_ninodes sb / IPB) by (apply Z.div_pos; [lia|done]).
  destruct (Z.neg_nonneg_cases (sb_size sb)) as [Hn|]; [|done].
  assert (sb_size sb / BPB >= sb_size sb) by (unfold BPB, BSIZE; zlia). lia.
Qed.

Lemma data_home b : isdata b -> home (te_start e) b.
Proof.
  intros Hb. destruct Hsb as [<- ? Hi ? ?]. unfold isdata, dstart, home in *. pose proof (eq_refl : LOGBLOCKS = 30).
  assert (0 <= sb_ninodes sb / IPB) by (apply Z.div_pos; [lia|done]).
  assert (0 <= sb_size sb / BPB) by (apply Z.div_pos; [apply size_pos|done]). lia.
Qed.
Lemma ib_home b : isib b -> home (te_start e) b.
Proof.
  intros Hb. destruct Hsb as [<- ? Hi Hd ?]. unfold isib, dstart, home in *. pose proof (eq_refl : LOGBLOCKS = 30).
  assert (0 <= sb_size sb / BPB) by (apply Z.div_pos; [apply size_pos|done]). lia.
Qed.
Lemma bm_home b : isbm b -> home (te_start e) b.
Proof.
  intros Hb. destruct Hsb as [<- ? Hi Hd ?]. unfold isbm, dstart, home in *. pose proof (eq_refl : LOGBLOCKS = 30).
  assert (0 <= sb_ninodes sb / IPB) by (apply Z.div_pos; [lia|done]). lia.
Qed.

Lemma bblock_bm b : 0 <= b < sb_size sb -> isbm (BBLOCK b sb) /\ BBLOCK b sb = b / BPB + sb_bmapstart sb.
Proof.
  intros Hb. assert (0 <= b / BPB <= sb_size sb / BPB).
  { split; [apply Z.div_pos; [lia|done]|apply Z.div_le_mono; [done|lia]]. }
  destruct Hsb as [_ ? Hi Hd ?]. unfold dstart in *. pose proof (eq_refl : LOGBLOCKS = 30).
  assert (0 <= sb_ninodes sb / IPB) by (apply Z.div_pos; [lia|done]).
  assert (BBLOCK b sb = b / BPB + sb_bmapstart sb) as He by (unfold BBLOCK; apply u32_small; lia).
  split; [|done]. rewrite He. unfold isbm, dstart. lia.
Qed.

Lemma iblock_ib i : inum_ok i -> isib (IBLOCK i sb) /\ IBLOCK i sb = i / IPB + sb_inodestart sb.
Proof.
  intros Hi'. unfold inum_ok in *. assert (0 <= i / IPB <= sb_ninodes sb / IPB).
  { split; [apply Z.div_pos; [lia|done]|apply Z.div_le_mono; [done|lia]]. }
  destruct Hsb as [_ ? Hi Hd ?]. unfold dstart in *. pose proof (eq_refl : LOGBLOCKS = 30).
  assert (0 <= sb_size sb / BPB) by (apply Z.div_pos; [pose proof size_pos; lia|done]).
  assert (IBLOCK i sb = i / IPB + sb_inodestart sb) as He by (unfold IBLOCK; apply u32_small; lia).
  split; [|done]. rewrite He. unfold isib. lia.
Qed.

(** ** The bitmap *)

Definition used (v : Z -> list Z) (b : Z) : bool := bit_used (v (BBLOCK b sb)) (b mod BPB).

(** The bitmap after block [b] is marked. *)
Definition v_alloc (v : Z -> list Z) (b : Z) : Z -> list Z :=
  upd (upd v (BBLOCK b sb) (bit_mark (v (BBLOCK b sb)) (b mod BPB))) b (replicate (Z.to_nat BSIZE) 0).
Definition v_free (v : Z -> list Z) (b : Z) : Z -> list Z :=
  upd v (BBLOCK b sb) (bit_clear (v (BBLOCK b sb)) (b mod BPB)).

(** Blocks with the same bitmap block and bit are the same. *)
Lemma same_block b c : 0 <= b < sb_size sb -> 0 <= c < sb_size sb -> BBLOCK c sb = BBLOCK b sb -> c mod BPB = b mod BPB -> c = b.
Proof.
  intros Hb Hc Hbl Hm. rewrite (proj2 (bblock_bm b Hb)), (proj2 (bblock_bm c Hc)) in Hbl.
  rewrite (Z.div_mod b BPB), (Z.div_mod c BPB) by done. f_equal; [f_equal; lia|done].
Qed.

Lemma mod_BPB b : 0 <= b mod BPB < BPB.
Proof. by apply Z.mod_pos_bound. Qed.

Lemma used_alloc v b c : (forall b, home (te_start e) b -> block (v b)) -> isdata b -> 0 <= c < sb_size sb ->
  used (v_alloc v b) c = (c =? b) || used v c.
Proof.
  intros Hv Hb Hc. assert (Hb' : 0 <= b < sb_size sb).
  { pose proof (data_home b Hb) as [? _]. unfold isdata in Hb. lia. }
  destruct (bblock_bm c Hc) as [Hbc _], (bblock_bm b Hb') as [Hbb _]. unfold used, v_alloc.
  rewrite (upd_ne _ b (BBLOCK c sb)) by (unfold isdata, isbm in *; lia).
  pose proof (mod_BPB b). pose proof (mod_BPB c). unfold upd. destruct (Z.eqb_spec (BBLOCK c sb) (BBLOCK b sb)) as [He|Hne].
  - rewrite bit_used_mark; [|by apply Hv, bm_home|lia..]. rewrite He. f_equal. apply eq_true_iff_eq. rewrite !Z.eqb_eq.
    split; [by apply same_block|by intros ->].
  - destruct (Z.eqb_spec c b) as [->|]; done.
Qed.

Lemma used_free v b c : (forall b, home (te_start e) b -> block (v b)) -> 0 <= b < sb_size sb -> 0 <= c < sb_size sb ->
  used (v_free v b) c = negb (c =? b) && used v c.
Proof.
  intros Hv Hb Hc. destruct (bblock_bm c Hc) as [Hbc _], (bblock_bm b Hb) as [Hbb _]. unfold used, v_free.
  pose proof (mod_BPB b). pose proof (mod_BPB c). unfold upd. destruct (Z.eqb_spec (BBLOCK c sb) (BBLOCK b sb)) as [He|Hne].
  - rewrite bit_used_clear; [|by apply Hv, bm_home|lia..]. rewrite He. do 2 f_equal. apply eq_true_iff_eq. rewrite !Z.eqb_eq.
    split; [by apply same_block|by intros ->].
  - destruct (Z.eqb_spec c b) as [->|]; done.
Qed.

(** ** Allocation *)

Definition blocks (v : Z -> list Z) : Prop := forall b, home (te_start e) b -> block (v b).
(** The held buffers are of data blocks in use. *)
Definition hold (v : Z -> list Z) (H : gmap Z Z) : Prop := forall b h, H !! b = Some h -> isdata b /\ used v b = true.

Lemma blocks_upd v b d : blocks v -> block d -> blocks (upd v b d).
Proof. intros Hv Hd c Hc. unfold upd. destruct (c =? b); [done|by apply Hv]. Qed.

Lemma blocks_alloc v b : blocks v -> isdata b -> blocks (v_alloc v b).
Proof.
  intros Hv Hb. apply blocks_upd; [|apply block_zero]. apply blocks_upd; [done|].
  apply block_mark. apply Hv, bm_home, bblock_bm. pose proof (data_home b Hb) as [? _]. unfold isdata in Hb. lia.
Qed.

Lemma blocks_free v b : blocks v -> 0 <= b < sb_size sb -> blocks (v_free v b).
Proof. intros Hv Hb. apply blocks_upd; [done|]. apply block_clear. by apply Hv, bm_home, bblock_bm. Qed.

Lemma hold_none v H b : hold v H -> ~ isdata b \/ used v b = false -> H !! b = None.
Proof.
  intros Hh Hor. destruct (H !! b) eqn:He; [|done]. apply Hh in He as [Hd Hu]. destruct Hor; [done|congruence].
Qed.

Lemma bm_not_data b : isbm b -> ~ isdata b.
Proof. unfold isbm, isdata. lia. Qed.

Lemma bzero_ok s v H L tab b : fx s v H L tab -> isdata b -> H !! b = None -> Z.of_nat (size L + size H) + 1 < NBUF -> 1 <= te_out e ->
  returns (bzero ROOTDEV b s) (fun _ s' => fx s' (upd v b (replicate (Z.to_nat BSIZE) 0)) H ({[b]} ∪ L) tab).
Proof.
  intros Hfx Hb HH Hsz Hout. pose proof (data_home b Hb) as Hhm. unfold bzero. apply bind_last.
  assert (NBUF = LOGBLOCKS) by done.
  eapply bind_returns with (P := fun _ s' => fx s' (upd v b (replicate (Z.to_nat BSIZE) 0)) H ({[b]} ∪ L) tab); [|done].
  eapply fx_bread; [done..|lia|]. intros h s1 H1.
  eapply (fx_set _ _ _ _ _ _ H1 b); [apply lookup_insert_eq|done|apply length_replicate|]. intros s2 H2.
  eapply (fx_log_write _ _ _ _ _ _ H2 b); [apply lookup_insert_eq|done|lia|done|]. intros s3 H3.
  apply bind_last. eapply (fx_brelse _ _ _ _ _ _ H3 b); [apply lookup_insert_eq|done|left; apply in_add|]. intros s4 H4.
  cbn. eapply fx_sets; [exact H4| |done]. by rewrite delete_insert_eq, delete_id.
Qed.

(** The result of an allocation. *)
Definition alloc_post (v : Z -> list Z) (H : gmap Z Z) (L : gset Z) (tab : Z -> inode) (b : Z) (s' : fsys) : Prop :=
  (b = 0 /\ fx s' v H L tab /\ forall c, 0 <= c < sb_size sb -> used v c = true) \/
  (isdata b /\ used v b = false /\ (forall c, 0 <= c < b -> used v c = true) /\
   fx s' (v_alloc v b) H ({[b]} ∪ ({[BBLOCK b sb]} ∪ L)) tab).

(** The bits of one bitmap block, from block [b] on. *)
Lemma used_at v b bi : b mod BPB = 0 -> 0 <= b -> 0 <= bi < BPB -> b + bi < sb_size sb ->
  used v (b + bi) = bit_used (v (BBLOCK b sb)) bi /\ BBLOCK (b + bi) sb = BBLOCK b sb /\ (b + bi) mod BPB = bi.
Proof.
  intros Hm Hb Hi Hlt. assert (Hd : (b + bi) / BPB = b / BPB /\ (b + bi) mod BPB = bi).
  { unfold BPB, BSIZE in *. zlia. }
  destruct Hd as [Hd Hmd]. unfold used, BBLOCK. rewrite Hd, Hmd. done.
Qed.

Lemma balloc_loop_ok k s v H L tab b : fx s v H L tab -> blocks v -> hold v H ->
  (forall c, 0 <= c < dstart -> used v c = true) -> (forall c, 0 <= c < b -> c < sb_size sb -> used v c = true) ->
  b mod BPB = 0 -> 0 <= b < sb_size sb + BPB -> sb_size sb <= b + (Z.of_nat k - 1) * BPB ->
  Z.of_nat (size L + size H) + 2 < NBUF -> 1 <= te_out e ->
  returns (balloc_loop k ROOTDEV b s) (alloc_post v H L tab).
Proof.
  revert s b. induction k as [|k IH]; intros s b Hfx Hv Hh Hmeta Hlow Hm Hb Hk Hsz Hout.
  { lia. }
  cbn [balloc_loop]. eapply fx_getsb; [done|]. destruct (Z.ltb_spec b (sb_size sb)) as [Hlt|Hge].
  2: { eapply fx_printf; [done|]. intros s1 H1. left. split_and!; [done..|]. intros c Hc. apply Hlow; lia. }
  destruct (bblock_bm b ltac:(lia)) as [Hbm Hbe]. pose proof (bm_home _ Hbm) as Hhm. pose proof (bm_not_data _ Hbm) as Hnd.
  pose proof (hold_none v H (BBLOCK b sb) Hh (or_introl Hnd)) as HHn. assert (NBUF = LOGBLOCKS) by done.
  pose proof (fx_clean _ _ _ _ _ Hfx _ Hhm HHn) as Hcl.
  eapply fx_bread; [done..|lia|]. intros h s1 H1.
  eapply (fx_data _ _ _ _ _ _ H1 (BBLOCK b sb)); [apply lookup_insert_eq|done|].
  destruct (scan _ _) as [bi|] eqn:Hs.
  - apply scan_Some in Hs as (Hbi & Hfree & Hless). apply negb_true_iff in Hfree.
    destruct (used_at v b bi Hm ltac:(lia) ltac:(lia) ltac:(lia)) as (Hu & Hbb & Hmb).
    assert (Hfr : used v (b + bi) = false) by congruence.
    assert (Hdata : isdata (b + bi)).
    { unfold isdata. destruct (Z.lt_ge_cases (b + bi) dstart); [|lia]. rewrite Hmeta in Hfr by lia. done. }
    eapply (fx_set _ _ _ _ _ _ H1 (BBLOCK b sb)); [apply lookup_insert_eq|done|by apply block_length, block_mark, Hv|].
    intros s2 H2. eapply (fx_log_write _ _ _ _ _ _ H2 (BBLOCK b sb)); [apply lookup_insert_eq|done|lia|done|]. intros s3 H3.
    eapply (fx_brelse _ _ _ _ _ _ H3 (BBLOCK b sb)); [apply lookup_insert_eq|done|left; apply in_add|]. intros s4 H4.
    rewrite delete_insert_eq, delete_id in H4 by done. pose proof (size_add (BBLOCK b sb) L).
    eapply bind_returns; [eapply (bzero_ok s4 _ _ _ _ (b + bi)); [exact H4|done| |lia|done]|].
    { eapply hold_none; [done|by right]. }
    intros [] s5 Hs5. cbn. right. split_and!; [done..| |].
    + intros c Hc. destruct (Z.lt_ge_cases c b); [apply Hlow; lia|].
      destruct (used_at v b (c - b) Hm ltac:(lia) ltac:(lia) ltac:(lia)) as (Hu' & _ & _).
      replace (b + (c - b)) with c in Hu' by lia. rewrite Hu'. apply negb_false_iff, Hless. lia.
    + rewrite Hbb. eapply fx_view; [exact Hs5|]. intros c. unfold v_alloc. by rewrite Hbb, Hmb.
  - eapply (fx_brelse _ _ _ _ _ _ H1 (BBLOCK b sb)); [apply lookup_insert_eq|done|done|]. intros s2 H2.
    rewrite delete_insert_eq, delete_id in H2 by done.
    apply IH; try done; [| |unfold BPB, BSIZE in *; lia|lia].
    + intros c Hc Hcs. destruct (Z.lt_ge_cases c b); [apply Hlow; lia|].
      destruct (used_at v b (c - b) Hm ltac:(lia) ltac:(lia) ltac:(lia)) as (Hu' & _ & _).
      replace (b + (c - b)) with c in Hu' by lia. rewrite Hu'.
      pose proof (scan_None _ _ Hs (c - b) ltac:(lia)) as Hn. by apply negb_false_iff in Hn.
    + unfold BPB, BSIZE in *. zlia.
Qed.

Lemma balloc_ok s v H L tab : fx s v H L tab -> blocks v -> hold v H ->
  (forall c, 0 <= c < dstart -> used v c = true) ->
  Z.of_nat (size L + size H) + 2 < NBUF -> 1 <= te_out e ->
  returns (balloc ROOTDEV s) (alloc_post v H L tab).
Proof.
  intros Hfx Hv Hh Hmeta Hsz Hout. unfold balloc. eapply fx_getsb; [done|].
  pose proof size_pos. apply balloc_loop_ok; try done; [lia|unfold BPB, BSIZE in *; lia|]. unfold BPB, BSIZE in *. zlia.
Qed.

Lemma bfree_ok s v H L tab b : fx s v H L tab -> blocks v -> (forall c, isbm c -> H !! c = None) -> 0 <= b < sb_size sb -> used v b = true ->
  Z.of_nat (size L + size H) < NBUF -> 1 <= te_out e ->
  returns (bfree ROOTDEV b s) (fun _ s' => fx s' (v_free v b) H ({[BBLOCK b sb]} ∪ L) tab).
Proof.
  intros Hfx Hv Hh Hb Hu Hsz Hout. unfold bfree. eapply fx_getsb; [done|].
  destruct (bblock_bm b Hb) as [Hbm Hbe]. pose proof (bm_home _ Hbm) as Hhm. pose proof (Hh _ Hbm) as HHn.
  assert (NBUF = LOGBLOCKS) by done. eapply fx_bread; [done..|lia|]. intros h s1 H1.
  eapply (fx_data _ _ _ _ _ _ H1 (BBLOCK b sb)); [apply lookup_insert_eq|done|]. unfold used in Hu. rewrite Hu. cbn [negb].
  eapply (fx_set _ _ _ _ _ _ H1 (BBLOCK b sb)); [apply lookup_insert_eq|done|by apply block_length, block_clear, Hv|]. intros s2 H2.
  eapply (fx_log_write _ _ _ _ _ _ H2 (BBLOCK b sb)); [apply lookup_insert_eq|done|lia|done|]. intros s3 H3. apply bind_last.
  eapply (fx_brelse _ _ _ _ _ _ H3 (BBLOCK b sb)); [apply lookup_insert_eq|done|left; apply in_add|]. intros s4 H4.
  cbn. eapply fx_sets; [exact H4| |done]. by rewrite delete_insert_eq, delete_id.
Qed.
End Exec.
