(* ===== verification/FsInode.v ===== *)
(** Inodes and their contents: the invariant that ties inodes, indirect blocks
    and the bitmap together, and what [bmap], [readi], [writei] and [itrunc] do
    to it and to the bytes of every file. *)
From S2P Require Import Prelude Bufcache Log LogClaims Txn Fs FsBlocks.
Local Open Scope kern_scope.

Definition NSLOT : Z := NDIRECT + 1 + NINDIRECT.

(** The addresses of an inode: the direct blocks, the indirect block, and the
    entries of the indirect block. *)
Definition slot (v : Z -> list Z) (di : dinode) (k : Z) : Z :=
  if k <=? NDIRECT then addr di k
  else if addr di NDIRECT =? 0 then 0
  else entry (v (addr di NDIRECT)) (k - NDIRECT - 1).
(** The slot of the [n]th block of the file, and its block. *)
Definition bslot (n : Z) : Z := if n <? NDIRECT then n else n + 1.
Definition blk (v : Z -> list Z) (di : dinode) (n : Z) : Z := slot v di (bslot n).

(** Byte [p] of the file, and its content. *)
Definition fbyte (v : Z -> list Z) (di : dinode) (p : Z) : Z := nth (Z.to_nat (p mod BSIZE)) (v (blk v di (p / BSIZE))) 0.
Definition bytes_between (v : Z -> list Z) (di : dinode) (off n : Z) : list Z := fbyte v di <$> seqZ off n.
Definition fcontent (v : Z -> list Z) (di : dinode) : list Z := bytes_between v di 0 (di_size di).

(** Everything but the addresses agrees. *)
Definition same_meta (di di' : dinode) : Prop :=
  di_type di' = di_type di /\ di_major di' = di_major di /\ di_minor di' = di_minor di /\
  di_nlink di' = di_nlink di /\ di_size di' = di_size di.

(** The blocks of an inode are the same. *)
Definition keeps (v v' : Z -> list Z) (di : dinode) : Prop :=
  forall k, 0 <= k < NSLOT -> slot v di k <> 0 -> v' (slot v di k) = v (slot v di k).

Lemma keeps_refl v di : keeps v v di.
Proof. done. Qed.

Lemma bslot_range n : 0 <= n < MAXFILE -> 0 <= bslot n < NSLOT /\ bslot n <> NDIRECT.
Proof.
  unfold bslot, MAXFILE, NSLOT. change NDIRECT with 12. change NINDIRECT with 256.
  intros. destruct (Z.ltb_spec n 12); lia.
Qed.

Lemma bslot_inj n m : bslot n = bslot m -> n = m.
Proof. unfold bslot. destruct (Z.ltb_spec n NDIRECT), (Z.ltb_spec m NDIRECT); lia. Qed.

Lemma slot_keeps v v' di k : keeps v v' di -> slot v' di k = slot v di k.
Proof.
  intros Hk. unfold slot. destruct (Z.leb_spec k NDIRECT); [done|].
  destruct (Z.eqb_spec (addr di NDIRECT) 0) as [|Hne]; [done|].
  pose proof (Hk NDIRECT) as Hi. unfold slot in Hi. rewrite Z.leb_refl in Hi. rewrite Hi; done.
Qed.

Lemma keeps_trans v v' v'' di : keeps v v' di -> keeps v' v'' di -> keeps v v'' di.
Proof.
  intros H1 H2 k Hk Hs. pose proof (slot_keeps _ _ _ k H1) as He. specialize (H2 k Hk). rewrite He in H2.
  rewrite H2 by done. by apply H1.
Qed.

Lemma fbyte_keeps v v' di p : keeps v v' di -> 0 <= p -> p / BSIZE < MAXFILE -> blk v di (p / BSIZE) <> 0 ->
  fbyte v' di p = fbyte v di p.
Proof.
  intros Hk Hp Hm Hb. unfold fbyte, blk in *. rewrite (slot_keeps _ _ _ _ Hk). rewrite Hk; [done| |done].
  apply bslot_range. split; [apply Z.div_pos; [lia|done]|done].
Qed.

Lemma addr_set di i j x : (Z.to_nat i < length (di_addrs di))%nat -> 0 <= i -> 0 <= j -> addr (set_addr i x di) j = if j =? i then x else addr di j.
Proof.
  intros Hi H0 H1. unfold addr, set_addr. cbn. rewrite nth_insert by done.
  destruct (Z.eqb_spec j i) as [->|]; case_decide; try done; lia.
Qed.

Section Inv.
Context (sb : superblock) (e : tenv).
Hypothesis Hsb : sb_ok sb e.

(** Inode [i] of the table [N], which is in use, has block [a] in slot [k]. *)
Definition owns (v : Z -> list Z) (N : Z -> dinode) (i k a : Z) : Prop :=
  inum_ok sb i /\ di_type (N i) <> 0 /\ 0 <= k < NSLOT /\ slot v (N i) k = a /\ a <> 0.

(** The blocks before the data area are marked; every block of an inode is a
    marked data block and belongs to one slot of one inode; a file has all
    blocks below its size. *)
Record fs_wf (v : Z -> list Z) (N : Z -> dinode) : Prop := {
  fw_blocks : blocks e v;
  fw_meta : forall c, 0 <= c < dstart sb -> used sb v c = true;
  fw_di : forall i, inum_ok sb i -> di_ok (N i);
  fw_own : forall i k a, owns v N i k a -> isdata sb a /\ used sb v a = true;
  fw_inj : forall i k j l a, owns v N i k a -> owns v N j l a -> i = j /\ k = l;
  fw_size : forall i, inum_ok sb i -> di_type (N i) <> 0 ->
    di_size (N i) <= MAXFILE * BSIZE /\ forall n, 0 <= n -> n * BSIZE < di_size (N i) -> blk v (N i) n <> 0
}.

Lemma size_block di n : di_size di <= MAXFILE * BSIZE -> n * BSIZE < di_size di -> n < MAXFILE.
Proof. unfold BSIZE. lia. Qed.

(** A change of blocks and inodes that gives at most one block a new owner. *)
Lemma fs_wf_add v N v' N' i0 k0 b : fs_wf v N -> blocks e v' ->
  (forall c, 0 <= c < sb_size sb -> used sb v c = true -> used sb v' c = true) ->
  (forall j l, ~ owns v N j l b) ->
  (forall i, inum_ok sb i -> di_ok (N' i) /\ di_type (N' i) = di_type (N i) /\ di_size (N' i) = di_size (N i)) ->
  (forall i k a, owns v' N' i k a -> owns v N i k a \/ i = i0 /\ k = k0 /\ a = b /\ isdata sb b /\ used sb v' b = true) ->
  (forall i k a, owns v N i k a -> owns v' N' i k a) ->
  fs_wf v' N'.
Proof.
  intros Hw Hbl Hu Hno Hdi Hback Hfwd. pose proof (size_pos _ _ Hsb) as Hsp. destruct Hw. split; [done|..].
  - intros c Hc. apply Hu; [|auto]. pose proof (so_data _ _ Hsb). lia.
  - intros i Hi. by apply Hdi.
  - intros i k a Ho. destruct (Hback _ _ _ Ho) as [Ho'|(-> & -> & -> & Hd & Hu')]; [|done].
    destruct (fw_own0 _ _ _ Ho') as [Hd Hus]. split; [done|]. apply Hu; [|done].
    pose proof (data_home _ _ Hsb _ Hd) as [? _]. unfold isdata in Hd. lia.
  - intros i k j l a H1 H2. destruct (Hback _ _ _ H1) as [H1'|(-> & -> & -> & _)], (Hback _ _ _ H2) as [H2'|(-> & -> & Hab & _)].
    + eauto.
    + subst. by apply Hno in H1'.
    + by apply Hno in H2'.
    + done.
  - intros i Hi Ht. destruct (Hdi i Hi) as (_ & Hti & Hsi). rewrite Hti in Ht. rewrite Hsi.
    destruct (fw_size0 i Hi Ht) as [Hs Hn]. split; [done|]. intros n Hn0 Hlt.
    pose proof (size_block _ _ Hs Hlt). pose proof (bslot_range n ltac:(lia)) as [Hr _].
    destruct (Hfwd i (bslot n) (blk v (N i) n)) as (_ & _ & _ & He & Hne); [|by rewrite <- He in Hne].
    split_and!; try done; try lia. auto.
Qed.

(** The same owners before and after. *)
Lemma fs_wf_same v N v' N' : fs_wf v N -> blocks e v' ->
  (forall c, 0 <= c < sb_size sb -> used sb v c = true -> used sb v' c = true) ->
  (forall i, inum_ok sb i -> di_ok (N' i) /\ di_type (N' i) = di_type (N i) /\ di_size (N' i) = di_size (N i)) ->
  (forall i k, inum_ok sb i -> di_type (N i) <> 0 -> 0 <= k < NSLOT -> slot v' (N' i) k = slot v (N i) k) ->
  fs_wf v' N'.
Proof.
  intros Hw Hbl Hu Hdi Hs. eapply (fs_wf_add v N v' N' 0 0 0); try done.
  - intros j l (_ & _ & _ & _ & ?). done.
  - intros i k a (Hi & Ht & Hk & He & Hne). left. destruct (Hdi i Hi) as (_ & Hti & _). rewrite Hti in Ht.
    rewrite Hs in He by done. done.
  - intros i k a (Hi & Ht & Hk & He & Hne). destruct (Hdi i Hi) as (_ & Hti & _).
    split_and!; [done|by rewrite Hti|lia..| |done]. by rewrite Hs.
Qed.

Lemma wf_slot v N i k : fs_wf v N -> inum_ok sb i -> di_type (N i) <> 0 -> 0 <= k < NSLOT -> slot v (N i) k <> 0 ->
  isdata sb (slot v (N i) k) /\ used sb v (slot v (N i) k) = true.
Proof. intros Hw Hi Ht Hk Hs. apply (fw_own _ _ Hw i k). done. Qed.

(** A block that no inode has may change freely. *)
Lemma keeps_outside v N v' j : fs_wf v N -> inum_ok sb j -> di_type (N j) <> 0 ->
  (forall a k, owns v N j k a -> v' a = v a) -> keeps v v' (N j).
Proof. intros Hw Hj Ht Hv k Hk Hs. apply (Hv _ k). done. Qed.

Lemma isdata_lt b : isdata sb b -> 0 <= b < sb_size sb.
Proof. intros Hb. pose proof (data_home _ _ Hsb _ Hb) as [? _]. unfold isdata in Hb. lia. Qed.

Lemma data_nz b : isdata sb b -> b <> 0.
Proof.
  intros Hb ->. pose proof (size_pos _ _ Hsb). destruct Hsb as [_ ? ? _ _]. unfold isdata, dstart in Hb.
  assert (0 <= sb_ninodes sb / IPB) by (apply Z.div_pos; [lia|done]).
  assert (0 <= sb_size sb / BPB) by (apply Z.div_pos; [lia|done]). pose proof (eq_refl : LOGBLOCKS = 30). lia.
Qed.

Lemma bm_ne b c : isdata sb b -> 0 <= c < sb_size sb -> BBLOCK c sb <> b.
Proof. intros Hb Hc. destruct (bblock_bm _ _ Hsb c Hc) as [Hm _]. unfold isbm, isdata in *. lia. Qed.

(** Allocation touches no owned block. *)
Lemma alloc_owned v N b i k a : fs_wf v N -> isdata sb b -> used sb v b = false -> owns v N i k a -> v_alloc sb v b a = v a.
Proof.
  intros Hw Hb Hu Ho. destruct (fw_own _ _ Hw _ _ _ Ho) as [Hd Hua]. unfold v_alloc.
  assert (a <> b) by congruence. pose proof (bm_ne a b Hd (isdata_lt _ Hb)). rewrite !upd_ne by congruence. done.
Qed.

Lemma alloc_keeps v N b i : fs_wf v N -> isdata sb b -> used sb v b = false -> inum_ok sb i -> di_type (N i) <> 0 ->
  keeps v (v_alloc sb v b) (N i).
Proof. intros Hw Hb Hu Hi Ht. eapply keeps_outside; [done..|]. intros a k Ho. by eapply alloc_owned. Qed.

Lemma wf_alloc v N b : fs_wf v N -> isdata sb b -> used sb v b = false ->
  fs_wf (v_alloc sb v b) N /\ used sb (v_alloc sb v b) b = true /\ (forall j l, ~ owns (v_alloc sb v b) N j l b).
Proof.
  intros Hw Hb Hu. pose proof (fw_blocks _ _ Hw) as Hbl.
  assert (Hslot : forall i k, inum_ok sb i -> di_type (N i) <> 0 -> slot (v_alloc sb v b) (N i) k = slot v (N i) k).
  { intros i k Hi Ht. by apply slot_keeps, alloc_keeps. }
  split_and!.
  - eapply fs_wf_same; [done|by eapply blocks_alloc| | |auto].
    + intros c Hc Hcu. rewrite (used_alloc _ e) by done. by rewrite Hcu, orb_true_r.
    + intros i Hi. split_and!; [by apply (fw_di _ _ Hw)|done..].
  - rewrite (used_alloc _ e) by (done || by apply isdata_lt). by rewrite Z.eqb_refl.
  - intros j l (Hj & Ht & Hl & He & Hne). rewrite Hslot in He by done.
    destruct (fw_own _ _ Hw j l b) as [_ Hub]; [done|congruence].
Qed.

(** ** Giving an inode a block *)

Lemma slot_set_addr v di k b l : length (di_addrs di) = 13%nat -> 0 <= k <= NDIRECT -> 0 <= l < NSLOT -> addr di k = 0 -> b <> 0 ->
  (k = NDIRECT -> v b = replicate (Z.to_nat BSIZE) 0) ->
  slot v (set_addr k b di) l = if l =? k then b else slot v di l.
Proof.
  intros Hlen Hk Hl H0 Hb Hz. unfold slot. rewrite !addr_set by (rewrite ?Hlen; change NDIRECT with 12 in *; lia).
  unfold NSLOT in Hl. destruct (Z.leb_spec l NDIRECT); [done|].
  destruct (Z.eqb_spec l k) as [->|]; [lia|]. destruct (Z.eqb_spec NDIRECT k) as [<-|]; [|done].
  destruct (Z.eqb_spec b 0); [done|]. rewrite H0. cbn. rewrite Hz by done. apply entry_zero. change NINDIRECT with 256 in *. lia.
Qed.

Lemma di_ok_set_addr di k b : di_ok di -> 0 <= b < 2 ^ 32 -> di_ok (set_addr k b di).
Proof.
  intros [] Hb. split; cbn; try done; [by rewrite length_insert|by apply Forall_insert].
Qed.

Lemma inum_upd {A} (N : Z -> A) i x j : upd N i x j = if j =? i then x else N j.
Proof. done. Qed.

Lemma wf_set_addr v N i k b : fs_wf v N -> inum_ok sb i -> di_type (N i) <> 0 -> 0 <= k <= NDIRECT -> addr (N i) k = 0 ->
  isdata sb b -> used sb v b = true -> (forall j l, ~ owns v N j l b) -> (k = NDIRECT -> v b = replicate (Z.to_nat BSIZE) 0) ->
  fs_wf v (upd N i (set_addr k b (N i))).
Proof.
  intros Hw Hi Ht Hk H0 Hb Hu Hno Hz. pose proof (isdata_lt _ Hb) as Hlt. pose proof (so_size _ _ Hsb).
  pose proof (data_nz _ Hb) as Hb0.
  pose proof (do_len _ (fw_di _ _ Hw i Hi)) as Hlen.
  assert (Hs : forall l, 0 <= l < NSLOT -> slot v (set_addr k b (N i)) l = if l =? k then b else slot v (N i) l)
    by (intros; by apply slot_set_addr).
  assert (Hsk : slot v (N i) k = 0). { unfold slot. destruct (Z.leb_spec k NDIRECT); [done|lia]. }
  eapply (fs_wf_add v N _ _ i k b); [done|apply Hw|done|done|..].
  - intros j Hj. rewrite inum_upd. destruct (Z.eqb_spec j i) as [->|]; split_and!; try done; [|by apply (fw_di _ _ Hw)].
    apply di_ok_set_addr; [by apply (fw_di _ _ Hw)|lia].
  - intros j l a (Hj & Htj & Hl & He & Hne). rewrite inum_upd in *. destruct (Z.eqb_spec j i) as [->|]; [|by left].
    rewrite Hs in He by done. destruct (Z.eqb_spec l k) as [->|]; [by right|by left].
  - intros j l a (Hj & Htj & Hl & He & Hne). split_and!; try done; try lia; rewrite inum_upd; destruct (Z.eqb_spec j i) as [->|]; try done.
    rewrite Hs by done. destruct (Z.eqb_spec l k) as [->|]; [congruence|done].
Qed.

Lemma slot_set_entry v di j b l : addr di NDIRECT <> 0 -> block (v (addr di NDIRECT)) -> 0 <= j < NINDIRECT -> 0 <= b < 2 ^ 32 ->
  0 <= l < NSLOT ->
  slot (upd v (addr di NDIRECT) (set_entry (v (addr di NDIRECT)) j b)) di l = if l =? j + NDIRECT + 1 then b else slot v di l.
Proof.
  intros Hi Hbl Hj Hb Hl. unfold slot, NSLOT in *. destruct (Z.leb_spec l NDIRECT).
  - destruct (Z.eqb_spec l (j + NDIRECT + 1)); [lia|done].
  - destruct (Z.eqb_spec (addr di NDIRECT) 0); [done|]. rewrite upd_eq, entry_set by (done || lia).
    destruct (Z.eqb_spec (l - NDIRECT - 1) j), (Z.eqb_spec l (j + NDIRECT + 1)); (done || lia).
Qed.

(** A block of inode [i] changes: the other inodes keep theirs. *)
Lemma upd_keeps v N i k b d j : fs_wf v N -> owns v N i k b -> inum_ok sb j -> di_type (N j) <> 0 -> j <> i -> keeps v (upd v b d) (N j).
Proof.
  intros Hw Ho Hj Ht Hne. eapply keeps_outside; [done..|]. intros a l Ho'. apply upd_ne. intros ->.
  destruct (fw_inj _ _ Hw _ _ _ _ _ Ho Ho'). done.
Qed.

Lemma used_upd_data v b d c : isdata sb b -> 0 <= c < sb_size sb -> used sb (upd v b d) c = used sb v c.
Proof. intros Hb Hc. unfold used. rewrite upd_ne; [done|]. by apply bm_ne. Qed.

Lemma data_small b : isdata sb b -> 0 <= b < 2 ^ 32.
Proof. intros Hb. pose proof (isdata_lt _ Hb). pose proof (so_size _ _ Hsb). lia. Qed.

Lemma slot_ind v di : slot v di NDIRECT = addr di NDIRECT.
Proof. unfold slot. by rewrite Z.leb_refl. Qed.

Lemma owns_ind v N i : inum_ok sb i -> di_type (N i) <> 0 -> addr (N i) NDIRECT <> 0 -> owns v N i NDIRECT (addr (N i) NDIRECT).
Proof. intros Hi Ht Hn. by split_and!. Qed.

Lemma wf_set_entry v N i j b : fs_wf v N -> inum_ok sb i -> di_type (N i) <> 0 -> 0 <= j < NINDIRECT ->
  let ind := addr (N i) NDIRECT in ind <> 0 -> entry (v ind) j = 0 ->
  isdata sb b -> used sb v b = true -> (forall i l, ~ owns v N i l b) ->
  fs_wf (upd v ind (set_entry (v ind) j b)) N.
Proof.
  intros Hw Hi Ht Hj ind Hind H0 Hb Hu Hno. pose proof (owns_ind v N i Hi Ht Hind) as Ho.
  destruct (fw_own _ _ Hw _ _ _ Ho) as [Hid _]. pose proof (fw_blocks _ _ Hw _ (data_home _ _ Hsb _ Hid)) as Hbl.
  assert (Hs : forall l, 0 <= l < NSLOT -> slot (upd v ind (set_entry (v ind) j b)) (N i) l =
    if l =? j + NDIRECT + 1 then b else slot v (N i) l).
  { intros. apply slot_set_entry; try done. by apply data_small. }
  assert (Hso : forall m l, inum_ok sb m -> di_type (N m) <> 0 -> m <> i -> slot (upd v ind (set_entry (v ind) j b)) (N m) l = slot v (N m) l).
  { intros m l Hm Htm Hne. by eapply slot_keeps, upd_keeps. }
  assert (Hsj : slot v (N i) (j + NDIRECT + 1) = 0).
  { unfold slot. destruct (Z.leb_spec (j + NDIRECT + 1) NDIRECT); [lia|]. fold ind. destruct (Z.eqb_spec ind 0); [done|].
    by replace (j + NDIRECT + 1 - NDIRECT - 1) with j by lia. }
  eapply (fs_wf_add v N _ _ i (j + NDIRECT + 1) b); [done|apply blocks_upd; [apply Hw|by apply block_set_le]| |done|..].
  - intros c Hc. by rewrite used_upd_data.
  - intros m Hm. split_and!; [by apply (fw_di _ _ Hw)|done..].
  - intros m l a (Hm & Htm & Hl & He & Hne). destruct (Z.eq_dec m i) as [->|Hmi].
    + rewrite Hs in He by done. destruct (Z.eqb_spec l (j + NDIRECT + 1)) as [->|]; [|by left].
      right. subst a. rewrite used_upd_data by (done || by apply isdata_lt). done.
    + left. rewrite Hso in He by done. done.
  - intros m l a (Hm & Htm & Hl & He & Hne). split_and!; try done; try lia. destruct (Z.eq_dec m i) as [->|Hmi].
    + rewrite Hs by done. destruct (Z.eqb_spec l (j + NDIRECT + 1)) as [->|]; [congruence|done].
    + by rewrite Hso.
Qed.

(** Writing a data block. *)
Lemma wf_data v N i n d : fs_wf v N -> inum_ok sb i -> di_type (N i) <> 0 -> 0 <= n < MAXFILE -> blk v (N i) n <> 0 -> block d ->
  let b := blk v (N i) n in
  fs_wf (upd v b d) N /\ (forall j, inum_ok sb j -> di_type (N j) <> 0 -> j <> i -> keeps v (upd v b d) (N j)) /\
  forall k, slot (upd v b d) (N i) k = slot v (N i) k.
Proof.
  intros Hw Hi Ht Hn Hb Hd b. pose proof (bslot_range n Hn) as [Hr Hni].
  assert (Ho : owns v N i (bslot n) b) by done. destruct (fw_own _ _ Hw _ _ _ Ho) as [Hbd _].
  assert (Hs : forall k, slot (upd v b d) (N i) k = slot v (N i) k).
  { intros k. unfold slot. destruct (k <=? NDIRECT); [done|]. destruct (Z.eqb_spec (addr (N i) NDIRECT) 0); [done|].
    rewrite upd_ne; [done|]. intros He. destruct (fw_inj _ _ Hw _ _ _ _ _ (owns_ind v N i Hi Ht ltac:(done)) ltac:(by rewrite He)). done. }
  assert (Hk : forall j, inum_ok sb j -> di_type (N j) <> 0 -> j <> i -> keeps v (upd v b d) (N j)).
  { intros j Hj Htj Hne. by eapply upd_keeps. }
  split_and!; try done. eapply fs_wf_same; [done|apply blocks_upd; [apply Hw|done]| | |].
  - intros c Hc. by rewrite used_upd_data.
  - intros m Hm. split_and!; [by apply (fw_di _ _ Hw)|done..].
  - intros j k Hj Htj _. destruct (Z.eq_dec j i) as [->|]; [done|]. by apply slot_keeps, Hk.
Qed.

(** Writing an inode block. *)
Lemma ib_not_owned v N c : fs_wf v N -> isib sb c -> forall j k, ~ owns v N j k c.
Proof.
  intros Hw Hc j k Ho. destruct (fw_own _ _ Hw _ _ _ Ho) as [Hd _]. pose proof (size_pos _ _ Hsb).
  assert (0 <= sb_size sb / BPB) by (apply Z.div_pos; [lia|done]). unfold isdata, isib, dstart in *. lia.
Qed.

Lemma used_upd_ib v c d x : isib sb c -> 0 <= x < sb_size sb -> used sb (upd v c d) x = used sb v x.
Proof.
  intros Hc Hx. unfold used. rewrite upd_ne; [done|]. destruct (bblock_bm _ _ Hsb x Hx) as [Hm _]. unfold isbm, isib in *. lia.
Qed.

Lemma ib_keeps v N c d j : fs_wf v N -> isib sb c -> inum_ok sb j -> di_type (N j) <> 0 -> keeps v (upd v c d) (N j).
Proof.
  intros Hw Hc Hj Ht. eapply keeps_outside; [done..|]. intros a k Ho. apply upd_ne. intros ->.
  by eapply ib_not_owned in Ho.
Qed.

Lemma wf_ib v N c d : fs_wf v N -> isib sb c -> block d -> fs_wf (upd v c d) N.
Proof.
  intros Hw Hc Hd. eapply fs_wf_same; [done|apply blocks_upd; [apply Hw|done]| | |].
  - intros x Hx. by rewrite used_upd_ib.
  - intros m Hm. split_and!; [by apply (fw_di _ _ Hw)|done..].
  - intros j k Hj Htj _. by apply slot_keeps, (ib_keeps v N).
Qed.

(** A larger size, up to the blocks there are. *)
Lemma wf_resize v N i sz : fs_wf v N -> inum_ok sb i -> 0 <= sz <= MAXFILE * BSIZE ->
  (forall n, 0 <= n -> n * BSIZE < sz -> blk v (N i) n <> 0) -> fs_wf v (upd N i (set_size sz (N i))).
Proof.
  intros Hw Hi Hsz Hn. pose proof Hw as []. 
  assert (Ho : forall j k a, owns v (upd N i (set_size sz (N i))) j k a <-> owns v N j k a).
  { intros j k a. unfold owns. rewrite inum_upd. by destruct (Z.eqb_spec j i) as [->|]. }
  split; try done.
  - intros j Hj. rewrite inum_upd. destruct (Z.eqb_spec j i) as [->|]; [|auto]. destruct (fw_di0 i Hi). split; cbn; try done.
    pose proof (eq_refl : MAXFILE * BSIZE = 274432). lia.
  - intros j k a Hx. apply Ho in Hx. eauto.
  - intros j k j' k' a Hx Hy. apply Ho in Hx, Hy. eauto.
  - intros j Hj. rewrite inum_upd. destruct (Z.eqb_spec j i) as [->|]; [|auto]. intros _. split; [cbn; lia|done].
Qed.

(** A change of the other fields of an inode. *)
Lemma wf_fields v N i di : fs_wf v N -> inum_ok sb i -> di_ok di -> di_size di = di_size (N i) -> di_addrs di = di_addrs (N i) ->
  di_type di = di_type (N i) -> fs_wf v (upd N i di).
Proof.
  intros Hw Hi Hd Hs Ha Ht. pose proof Hw as [].
  assert (Hsl : forall k, slot v di k = slot v (N i) k) by (intros k; unfold slot, addr; by rewrite Ha).
  assert (Ho : forall j k a, owns v (upd N i di) j k a <-> owns v N j k a).
  { intros j k a. unfold owns. rewrite inum_upd. destruct (Z.eqb_spec j i) as [->|]; [|done]. by rewrite Hsl, Ht. }
  split; try done.
  - intros j Hj. rewrite inum_upd. destruct (Z.eqb_spec j i) as [->|]; auto.
  - intros j k a Hx. apply Ho in Hx. eauto.
  - intros j k j' k' a Hx Hy. apply Ho in Hx, Hy. eauto.
  - intros j Hj. rewrite inum_upd. destruct (Z.eqb_spec j i) as [->|]; [|auto]. rewrite Ht, Hs. intros Hty. destruct (fw_size0 i Hi Hty) as [? Hb].
    split; [done|]. intros n Hn Hlt. unfold blk. rewrite Hsl. by apply Hb.
Qed.
End Inv.
