(* ===== verification/FsData.v ===== *)
(** File contents: [bmap] gives a file its blocks, [readi] delivers the bytes
    of a range, and [writei] replaces a range and nothing else. *)
From S2P Require Import Prelude Bufcache Log LogClaims Txn FileLayer Fs FsBlocks FsInode.
Local Open Scope kern_scope.

(** [off + n < off] is the test for an overflow. *)
Lemma u32_nowrap off n : 0 <= off < 2 ^ 32 -> 0 <= n < 2 ^ 32 -> off <= u32 (off + n) -> u32 (off + n) = off + n.
Proof.
  intros Ho Hn Hle. unfold u32 in *. destruct (Z.lt_ge_cases (off + n) (2 ^ 32)); [apply Z.mod_small; lia|].
  assert ((off + n) mod 2 ^ 32 = off + n - 2 ^ 32) as E; [|lia]. symmetry. apply Z.mod_unique with 1; lia.
Qed.

Section Data.
Context {BC : BufCache} (sb : superblock) (e : tenv).
Hypothesis Hsb : sb_ok sb e.
Let fs_wf := fs_wf sb e.
Let owns := owns sb.
Let fx := fx sb e.

(** The bitmap blocks, and the indirect block of an inode. *)
Definition BM : gset Z := list_to_set (seqZ (sb_bmapstart sb) (sb_size sb / BPB + 1)).
Definition indset (di : dinode) : gset Z := if addr di NDIRECT =? 0 then ∅ else {[addr di NDIRECT]}.

Lemma bblock_BM b : 0 <= b < sb_size sb -> BBLOCK b sb ∈ BM.
Proof.
  intros Hb. destruct (bblock_bm _ _ Hsb b Hb) as [Hm _]. unfold isbm, dstart in Hm.
  apply elem_of_list_to_set, elem_of_seqZ. lia.
Qed.

(** Handle [ip] is inode [i] of [N], in use and read from the disk. *)
Record at_inode (tab : Z -> inode) (ip : Z) (N : Z -> dinode) (i : Z) : Prop := {
  ai_dev : i_dev (tab ip) = ROOTDEV;
  ai_inum : i_inum (tab ip) = i;
  ai_di : i_di (tab ip) = N i;
  ai_ok : inum_ok sb i;
  ai_type : di_type (N i) <> 0
}.

(** The table with another copy of the inode. *)
Definition with_di (tab : Z -> inode) (ip : Z) (di : dinode) : Z -> inode := upd tab ip (set_di di (tab ip)).

Lemma with_di_same tab ip N i : at_inode tab ip N i -> forall j, tab j = with_di tab ip (N i) j.
Proof.
  intros [_ _ Hd _ _] j. unfold with_di, upd. destruct (Z.eqb_spec j ip) as [->|]; [|done].
  rewrite <- Hd. by destruct (tab ip).
Qed.

Lemma with_di_twice tab ip a b j : with_di (with_di tab ip a) ip b j = with_di tab ip b j.
Proof. unfold with_di, upd. rewrite Z.eqb_refl. by destruct (j =? ip). Qed.

Lemma at_inode_with tab ip N i di : at_inode tab ip N i -> di_type di <> 0 -> at_inode (with_di tab ip di) ip (upd N i di) i.
Proof.
  intros [Hd Hi _ Hok _] Ht. unfold with_di. split; rewrite ?upd_eq; done.
Qed.

(** Inode [i] has got blocks: every block it had and every other file is
    unchanged. *)
Record grown (v : Z -> list Z) (N : Z -> dinode) (i : Z) (v' : Z -> list Z) (di' : dinode) : Prop := {
  gr_wf : fs_wf v' (upd N i di');
  gr_meta : same_meta (N i) di';
  gr_others : forall j, inum_ok sb j -> di_type (N j) <> 0 -> j <> i -> keeps v v' (N j);
  gr_blk : forall n, 0 <= n < MAXFILE -> blk v (N i) n <> 0 ->
    blk v' di' n = blk v (N i) n /\ v' (blk v (N i) n) = v (blk v (N i) n);
  gr_ib : forall c, isib sb c -> v' c = v c;
  gr_ind : addr (N i) NDIRECT <> 0 -> addr di' NDIRECT = addr (N i) NDIRECT
}.

Lemma fs_wf_ext v N N' : fs_wf v N -> (forall i, N i = N' i) -> fs_wf v N'.
Proof.
  intros [] He. assert (Ho : forall i k a, owns v N' i k a <-> owns v N i k a).
  { intros i k a. unfold owns, FsInode.owns. by rewrite He. }
  split; try done.
  - intros i Hi. rewrite <- He. auto.
  - intros i k a Hx. apply Ho in Hx. eauto.
  - intros i k j l a Hx Hy. apply Ho in Hx, Hy. eauto.
  - intros i. rewrite <- He. auto.
Qed.

Lemma upd_same {A} (N : Z -> A) i j : upd N i (N i) j = N j.
Proof. unfold upd. by destruct (Z.eqb_spec j i) as [->|]. Qed.

Lemma upd_twice {A} (N : Z -> A) i x y j : upd (upd N i x) i y j = upd N i y j.
Proof. unfold upd. by destruct (j =? i). Qed.

Lemma grown_refl v N i : fs_wf v N -> grown v N i v (N i).
Proof.
  intros Hw. split; try done. eapply fs_wf_ext; [done|]. intros. symmetry. apply upd_same.
Qed.

Lemma same_meta_trans a b c : same_meta a b -> same_meta b c -> same_meta a c.
Proof. unfold same_meta. naive_solver congruence. Qed.

Lemma grown_trans v N i v' di' v'' di'' : grown v N i v' di' -> grown v' (upd N i di') i v'' di'' -> grown v N i v'' di''.
Proof.
  intros [Hw Hm Ho Hb Hi Hd] [Hw' Hm' Ho' Hb' Hi' Hd']. rewrite upd_eq in *. split.
  - eapply fs_wf_ext; [exact Hw'|]. intros. apply upd_twice.
  - by eapply same_meta_trans.
  - intros j Hj Ht Hne. eapply keeps_trans; [by apply Ho|]. specialize (Ho' j Hj). rewrite upd_ne in Ho' by done. auto.
  - intros n Hn Hz. destruct (Hb n Hn Hz) as [E1 E2]. rewrite <- E1 in Hz. destruct (Hb' n Hn Hz) as [E3 E4].
    rewrite E1 in *. split; congruence.
  - intros c Hc. rewrite Hi' by done. auto.
  - intros Hn. rewrite Hd'; rewrite Hd; done.
Qed.

Lemma alloc_ib v b c : isdata sb b -> isib sb c -> v_alloc sb v b c = v c.
Proof.
  intros Hb Hc. pose proof (isdata_lt sb e Hsb b Hb) as Hlt. destruct (bblock_bm _ _ Hsb b Hlt) as [Hm _].
  assert (0 <= sb_size sb / BPB) by (apply Z.div_pos; [lia|done]).
  unfold v_alloc. rewrite !upd_ne; [done|..]; unfold isbm, isib, isdata, dstart in *; lia.
Qed.

(** An allocated block becomes slot [k] of the inode. *)
Lemma grown_addr v N i k b : fs_wf v N -> inum_ok sb i -> di_type (N i) <> 0 -> 0 <= k <= NDIRECT -> addr (N i) k = 0 ->
  isdata sb b -> used sb v b = false -> grown v N i (v_alloc sb v b) (set_addr k b (N i)).
Proof.
  intros Hw Hi Ht Hk H0 Hb Hu. destruct (wf_alloc sb e Hsb v N b Hw Hb Hu) as (Hw1 & Hu1 & Hno1).
  assert (Hz : v_alloc sb v b b = replicate (Z.to_nat BSIZE) 0) by (unfold v_alloc; apply upd_eq).
  pose proof (alloc_keeps sb e Hsb v N b i Hw Hb Hu Hi Ht) as Hki. pose proof (isdata_lt sb e Hsb b Hb) as Hlt.
  pose proof (do_len _ (fw_di _ _ _ _ Hw i Hi)) as Hlen.
  pose proof (data_nz sb e Hsb _ Hb) as Hb0.
  split.
  - by apply (wf_set_addr sb e Hsb).
  - done.
  - intros j Hj Htj _. by apply (alloc_keeps sb e).
  - intros n Hn Hbn. pose proof (bslot_range n Hn) as [Hr Hni]. unfold blk in *. rewrite slot_set_addr by done.
    assert (Hs0 : slot v (N i) k = 0) by (unfold slot; destruct (Z.leb_spec k NDIRECT); [done|lia]).
    destruct (Z.eqb_spec (bslot n) k) as [He|]; [by rewrite He, Hs0 in Hbn|]. rewrite (slot_keeps v) by done. split; [done|].
    by apply Hki.
  - intros c Hc. by apply alloc_ib.
  - intros Hn. rewrite addr_set by (rewrite ?Hlen; change NDIRECT with 12 in *; lia).
    destruct (Z.eqb_spec NDIRECT k) as [<-|]; [congruence|done].
Qed.

(** An allocated block becomes entry [j] of the indirect block. *)
Lemma grown_entry v N i j b : fs_wf v N -> inum_ok sb i -> di_type (N i) <> 0 -> 0 <= j < NINDIRECT ->
  let ind := addr (N i) NDIRECT in ind <> 0 -> entry (v ind) j = 0 -> isdata sb b -> used sb v b = false ->
  grown v N i (upd (v_alloc sb v b) ind (set_entry (v ind) j b)) (N i) /\
  blk (upd (v_alloc sb v b) ind (set_entry (v ind) j b)) (N i) (j + NDIRECT) = b.
Proof.
  intros Hw Hi Ht Hj ind Hind H0 Hb Hu. destruct (wf_alloc sb e Hsb v N b Hw Hb Hu) as (Hw1 & Hu1 & Hno1).
  pose proof (owns_ind sb v N i Hi Ht Hind) as Ho. fold ind in Ho.
  pose proof (alloc_owned sb e Hsb v N b _ _ _ Hw Hb Hu Ho) as Hvi.
  pose proof (alloc_keeps sb e Hsb v N b i Hw Hb Hu Hi Ht) as Hki.
  pose proof (owns_ind sb (v_alloc sb v b) N i Hi Ht Hind) as Ho1. fold ind in Ho1.
  assert (Hbl : block (v_alloc sb v b ind)).
  { apply (fw_blocks _ _ _ _ Hw1), (data_home _ _ Hsb). by apply (fw_own _ _ _ _ Hw1 _ _ _ Ho1). }
  rewrite <- Hvi in *. fold ind.
  assert (Hs : forall l, 0 <= l < NSLOT -> slot (upd (v_alloc sb v b) ind (set_entry (v_alloc sb v b ind) j b)) (N i) l =
    if l =? j + NDIRECT + 1 then b else slot v (N i) l).
  { intros l Hl. unfold ind in *. rewrite slot_set_entry; try done; [|by apply (data_small sb e)].
    by rewrite (slot_keeps _ _ _ _ Hki). }
  split; [split|].
  - eapply fs_wf_ext; [by apply (wf_set_entry sb e Hsb)|]. intros. symmetry. apply upd_same.
  - done.
  - intros m Hm Htm Hne. eapply keeps_trans; [by apply (alloc_keeps sb e)|]. by eapply (upd_keeps sb e).
  - intros n Hn Hbn. pose proof (bslot_range n Hn) as [Hr Hni]. unfold blk in *. rewrite Hs by done.
    assert (Hs0 : slot v (N i) (j + NDIRECT + 1) = 0).
    { unfold slot. destruct (Z.leb_spec (j + NDIRECT + 1) NDIRECT); [lia|]. fold ind. destruct (Z.eqb_spec ind 0); [done|].
      replace (j + NDIRECT + 1 - NDIRECT - 1) with j by lia. by rewrite Hvi in H0. }
    destruct (Z.eqb_spec (bslot n) (j + NDIRECT + 1)) as [He|]; [by rewrite He, Hs0 in Hbn|]. split; [done|].
    rewrite upd_ne; [by apply Hki|]. intros He.
    destruct (fw_inj _ _ _ _ Hw i (bslot n) i NDIRECT ind) as [_ ?]; done.
  - intros c Hc. rewrite upd_ne; [by apply alloc_ib|]. intros ->. by eapply (ib_not_owned sb e Hsb v N).
  - done.
  - unfold blk, bslot. destruct (Z.ltb_spec (j + NDIRECT) NDIRECT); [lia|]. rewrite Hs by (unfold NSLOT; change NDIRECT with 12 in *; lia).
    by rewrite Z.eqb_refl.
Qed.

(** ** [bmap] *)

(** No block is free. *)
Definition full (v : Z -> list Z) : Prop := forall c, 0 <= c < sb_size sb -> used sb v c = true.

(** The result of giving a file a block: [a] is its address, or 0 when the
    disk is full. *)
Definition got (v : Z -> list Z) (N : Z -> dinode) (i : Z) (H : gmap Z Z) (L : gset Z) (tab : Z -> inode) (ip : Z)
    (at_ : (Z -> list Z) -> dinode -> Z) (extra : dinode -> gset Z) (a : Z) (s' : fsys) : Prop :=
  exists v' di' L', fx s' v' H L' (with_di tab ip di') /\ grown v N i v' di' /\ at_ v' di' = a /\
    L ⊆ L' /\ L' ⊆ BM ∪ extra di' ∪ {[a]} ∪ L /\ (a = 0 -> full v').

Lemma addr_or_alloc_ok s v N i H L tab ip k : fx s v H L tab -> fs_wf v N -> at_inode tab ip N i -> hold sb v H ->
  0 <= k <= NDIRECT -> Z.of_nat (size L + size H) + 2 < NBUF -> 1 <= te_out e ->
  returns (addr_or_alloc ip k s) (got v N i H L tab ip (fun _ di => addr di k) (fun _ => ∅)).
Proof.
  intros Hfx Hw Hai Hh Hk Hsz Hout. unfold addr_or_alloc. eapply fx_geti; [done|].
  rewrite (ai_di _ _ _ _ Hai), (ai_dev _ _ _ _ Hai). destruct (Z.eqb_spec (addr (N i) k) 0) as [H0|H0].
  2: { cbn. exists v, (N i), L. split_and!; [|by apply grown_refl|done|done|set_solver|done].
       eapply fx_itab; [exact Hfx|]. by apply with_di_same. }
  eapply bind_returns; [eapply (balloc_ok sb e Hsb); try done; apply Hw|].
  intros a s1 [(-> & F1 & Hfull)|(Hd & Hu & _ & F1)].
  - cbn. exists v, (N i), L. split_and!; [|by apply grown_refl|done|done|set_solver|done].
    eapply fx_itab; [exact F1|]. by apply with_di_same.
  - pose proof (data_nz sb e Hsb _ Hd). destruct (Z.eqb_spec a 0); [done|]. eapply fx_seti; [exact F1|]. intros s2 F2. cbn.
    pose proof (do_len _ (fw_di _ _ _ _ Hw i (ai_ok _ _ _ _ Hai))) as Hlen.
    exists (v_alloc sb v a), (set_addr k a (N i)), ({[a]} ∪ ({[BBLOCK a sb]} ∪ L)). split_and!.
    + rewrite (ai_di _ _ _ _ Hai) in F2. exact F2.
    + apply grown_addr; try done; apply Hai.
    + rewrite addr_set by (rewrite ?Hlen; change NDIRECT with 12 in *; lia). by rewrite Z.eqb_refl.
    + set_solver.
    + pose proof (bblock_BM a (isdata_lt sb e Hsb a Hd)). set_solver.
    + done.
Qed.

(** A block that the file has: nothing changes, and no transaction is needed. *)
Lemma bmap_present s v N i L tab ip bn : fx s v ∅ L tab -> fs_wf v N -> at_inode tab ip N i ->
  0 <= bn < MAXFILE -> blk v (N i) bn <> 0 -> Z.of_nat (size L) < NBUF ->
  returns (bmap ip bn s) (fun a s' => a = blk v (N i) bn /\ fx s' v ∅ L tab).
Proof.
  intros Hfx Hw Hai Hbn Hb Hsz. unfold bmap, blk, bslot, slot in *. destruct (Z.ltb_spec bn NDIRECT).
  - unfold addr_or_alloc. eapply fx_geti; [done|]. rewrite (ai_di _ _ _ _ Hai).
    destruct (Z.leb_spec bn NDIRECT); [|lia]. destruct (Z.eqb_spec (addr (N i) bn) 0); done.
  - unfold MAXFILE in Hbn. destruct (Z.ltb_spec (bn - NDIRECT) NINDIRECT); [|lia].
    destruct (Z.leb_spec (bn + 1) NDIRECT); [lia|]. replace (bn + 1 - NDIRECT - 1) with (bn - NDIRECT) in * by lia.
    destruct (Z.eqb_spec (addr (N i) NDIRECT) 0) as [|Hi]; [done|].
    pose proof (owns_ind sb v N i (ai_ok _ _ _ _ Hai) (ai_type _ _ _ _ Hai) Hi) as Ho.
    pose proof (data_home _ _ Hsb _ (proj1 (fw_own _ _ _ _ Hw _ _ _ Ho))) as Hhm.
    eapply (bind_returns _ _ _ (fun a s' => a = addr (N i) NDIRECT /\ s' = s)).
    { unfold addr_or_alloc. eapply fx_geti; [done|]. rewrite (ai_di _ _ _ _ Hai).
      destruct (Z.eqb_spec (addr (N i) NDIRECT) 0); done. }
    intros a ? [-> ->]. destruct (Z.eqb_spec (addr (N i) NDIRECT) 0); [done|].
    eapply fx_geti; [done|]. rewrite (ai_dev _ _ _ _ Hai).
    pose proof (fx_clean _ _ _ _ _ _ _ Hfx _ Hhm (lookup_empty _)) as Hcl.
    eapply fx_bread; [done|done|apply lookup_empty|rewrite map_size_empty; lia|]. intros h s1 F1.
    eapply (fx_data _ _ _ _ _ _ _ _ F1); [apply lookup_insert_eq|done|].
    destruct (Z.eqb_spec (entry (v (addr (N i) NDIRECT)) (bn - NDIRECT)) 0); [done|]. mstep.
    eapply (fx_brelse _ _ _ _ _ _ _ _ F1); [apply lookup_insert_eq|done..|]. intros s2 F2. cbn. split; [done|].
    eapply fx_sets; [exact F2| |done]. by rewrite delete_insert_eq, delete_id.
Qed.

Lemma size_BM_mono (X L L' : gset Z) : L' ⊆ BM ∪ X ∪ L -> (size (BM ∪ L') <= size X + size (BM ∪ L))%nat.
Proof using Type.
  clear Hsb.
  intros Hs. etrans; [apply (subseteq_size _ (X ∪ (BM ∪ L))); set_solver|].
  rewrite size_union_alt. pose proof (subseteq_size ((BM ∪ L) ∖ X) (BM ∪ L) ltac:(set_solver)). lia.
Qed.

Lemma size_le_BM (L : gset Z) : (size L <= size (BM ∪ L))%nat.
Proof using Type.
  clear Hsb. apply subseteq_size. set_solver. Qed.

(** The entry of the indirect block [a], which is held. *)
Lemma bmap_entry s v N i L tab ip a h j bn : fx s v {[a := h]} L tab -> fs_wf v N -> at_inode tab ip N i ->
  addr (N i) NDIRECT = a -> a <> 0 -> 0 <= j < NINDIRECT -> (a ∈ L \/ v a = te_disk e a) ->
  Z.of_nat (size L) + 3 < NBUF -> 1 <= te_out e -> (forall v2, blk v2 (N i) bn = entry (v2 a) j) -> bn = j + NDIRECT ->
  returns ((if entry (v a) j =? 0 then
              do x <- balloc ROOTDEV;
              if negb (x =? 0) then do d <- fdata h; fset h (set_entry d j x) ;;; flog_write h ;;; ret x else ret x
            else ret (entry (v a) j)) s)
    (fun x s3 => exists v3 L3, fx s3 v3 {[a := h]} L3 tab /\ grown v N i v3 (N i) /\
      blk v3 (N i) bn = x /\ L ⊆ L3 /\ L3 ⊆ BM ∪ {[a]} ∪ {[x]} ∪ L /\ (a ∈ L3 \/ v3 a = te_disk e a) /\ (x = 0 -> full v3)).
Proof.
  intros Hfx Hw Hai Ha Ha0 Hj Hor Hsz Hout Hbk Hbn. assert (NBUF = LOGBLOCKS) by done.
  pose proof (owns_ind sb v N i (ai_ok _ _ _ _ Hai) (ai_type _ _ _ _ Hai) ltac:(by rewrite Ha)) as Ho. rewrite Ha in Ho.
  destruct (fw_own _ _ _ _ Hw _ _ _ Ho) as [Hda Hua]. pose proof (data_home _ _ Hsb _ Hda) as Hhm.
  destruct (Z.eqb_spec (entry (v a) j) 0) as [He|He].
  2: { cbn. exists v, L. split_and!; try done; [by apply grown_refl|clear; set_solver]. }
  eapply bind_returns; [eapply (balloc_ok sb e Hsb); [done|apply Hw| |apply Hw|rewrite map_size_singleton; lia|done]|].
  { intros b hb Hbh. apply lookup_singleton_Some in Hbh as [<- _]. done. }
  intros x s1 [(-> & F1 & Hfull)|(Hdx & Hux & _ & F1)].
  { cbn. exists v, L. split_and!; try done; [by apply grown_refl|by rewrite Hbk|clear; set_solver]. }
  pose proof (data_nz sb e Hsb _ Hdx). destruct (Z.eqb_spec x 0); [done|]. cbn [negb].
  eapply (fx_data _ _ _ _ _ _ _ _ F1 a); [apply lookup_singleton_eq|done|].
  rewrite (alloc_owned sb e Hsb v N x _ _ _ Hw Hdx Hux Ho). subst a.
  destruct (grown_entry v N i j x Hw (ai_ok _ _ _ _ Hai) (ai_type _ _ _ _ Hai) Hj Ha0 He Hdx Hux) as [Hg Hbx].
  assert (Hbl : block (v (addr (N i) NDIRECT))) by by apply (fw_blocks _ _ _ _ Hw).
  eapply (fx_set _ _ _ _ _ _ _ _ F1 (addr (N i) NDIRECT)); [apply lookup_singleton_eq|done|by apply block_length, block_set_le|].
  intros s2 F2. pose proof (size_add (BBLOCK x sb) L) as HS1. pose proof (size_add x ({[BBLOCK x sb]} ∪ L)) as HS2.
  eapply (fx_log_write _ _ _ _ _ _ _ _ F2 (addr (N i) NDIRECT)); [apply lookup_singleton_eq|done|lia|done|].
  intros s3 F3. cbn. eexists _, _. split; [exact F3|]. split_and!; [done|by rewrite Hbn|clear; set_solver| |left; apply in_add|done].
  pose proof (bblock_BM x (isdata_lt sb e Hsb x Hdx)) as HB. clear -HB. set_solver.
Qed.

Lemma bmap_ok s v N i L tab ip bn : fx s v ∅ L tab -> fs_wf v N -> at_inode tab ip N i ->
  0 <= bn < MAXFILE -> Z.of_nat (size (BM ∪ L)) + 4 < NBUF -> 1 <= te_out e ->
  returns (bmap ip bn s) (got v N i ∅ L tab ip (fun v di => blk v di bn) indset).
Proof.
  intros Hfx Hw Hai Hbn Hsz Hout. pose proof (size_le_BM L). assert (NBUF = LOGBLOCKS) by done.
  unfold bmap. destruct (Z.ltb_spec bn NDIRECT) as [Hlt|Hge].
  { eapply returns_mono; [apply (addr_or_alloc_ok s v N i); try done; [lia|rewrite map_size_empty; lia]|].
    intros a s' (v' & di' & L' & Hf & Hg & Ha & Hsub & HL & Hfl). exists v', di', L'. split_and!; try done; [|set_solver].
    unfold blk, bslot, slot. destruct (Z.ltb_spec bn NDIRECT); [|lia]. destruct (Z.leb_spec bn NDIRECT); [done|lia]. }
  unfold MAXFILE in Hbn. destruct (Z.ltb_spec (bn - NDIRECT) NINDIRECT); [|lia].
  eapply bind_returns; [apply (addr_or_alloc_ok s v N i); try done; rewrite map_size_empty; lia|].
  intros a s1 (v1 & di1 & L1 & F1 & Hg1 & Ha & HL1 & HL1' & Hfl1). 
  assert (Hbk : forall v2, blk v2 di1 bn = if a =? 0 then 0 else entry (v2 a) (bn - NDIRECT)).
  { intros v2. unfold blk, bslot, slot. destruct (Z.ltb_spec bn NDIRECT); [lia|]. destruct (Z.leb_spec (bn + 1) NDIRECT); [lia|].
    rewrite Ha. by replace (bn + 1 - NDIRECT - 1) with (bn - NDIRECT) by lia. }
  destruct (Z.eqb_spec a 0) as [->|Ha0].
  { cbn. exists v1, di1, L1. split_and!; [done..|by rewrite Hbk|done|set_solver|done]. }
  set (N1 := upd N i di1). pose proof (gr_wf _ _ _ _ _ Hg1) as Hw1. fold N1 in Hw1.
  assert (Ht1 : di_type di1 <> 0) by (destruct (gr_meta _ _ _ _ _ Hg1) as [-> _]; apply Hai).
  pose proof (at_inode_with _ _ _ _ di1 Hai Ht1) as Hai1. fold N1 in Hai1.
  assert (HN1 : N1 i = di1) by apply upd_eq.
  pose proof (owns_ind sb v1 N1 i (ai_ok _ _ _ _ Hai1) (ai_type _ _ _ _ Hai1) ltac:(by rewrite HN1, Ha)) as Ho. rewrite HN1, Ha in Ho.
  destruct (fw_own _ _ _ _ Hw1 _ _ _ Ho) as [Hda Hua]. pose proof (data_home _ _ Hsb _ Hda) as Hhm.
  pose proof (size_BM_mono {[a]} L L1 ltac:(clear -HL1'; set_solver)) as HL1s. rewrite size_singleton in HL1s.
  pose proof (size_le_BM L1).
  eapply fx_geti; [exact F1|]. rewrite (ai_dev _ _ _ _ Hai1).
  pose proof (fx_clean _ _ _ _ _ _ _ F1 _ Hhm (lookup_empty _)) as Hcl.
  eapply (fx_bread _ _ _ _ _ _ _ _ F1 a); [done|apply lookup_empty|rewrite map_size_empty; lia|]. intros h s2 F2.
  eapply (fx_data _ _ _ _ _ _ _ _ F2 a); [apply lookup_insert_eq|done|].
  eapply (bind_returns _ _ _ (fun x s3 => exists v3 L3, fx s3 v3 {[a := h]} L3 (with_di tab ip di1) /\ grown v1 N1 i v3 di1 /\
    blk v3 di1 bn = x /\ L1 ⊆ L3 /\ L3 ⊆ BM ∪ {[a]} ∪ {[x]} ∪ L1 /\ (a ∈ L3 \/ v3 a = te_disk e a) /\ (x = 0 -> full v3))).
  - pose proof (bmap_entry s2 v1 N1 i L1 (with_di tab ip di1) ip a h (bn - NDIRECT) bn) as Hbe. rewrite HN1 in Hbe.
    apply Hbe; try done; lia.
  - intros x s3 (v3 & L3 & F3 & Hg3 & Hx & HL3 & HL3' & Hor & Hfl3).
    eapply (fx_brelse _ _ _ _ _ _ _ _ F3 a); [apply lookup_singleton_eq|done..|].
    intros s4 F4. cbn. exists v3, di1, L3. split_and!; [|by eapply grown_trans|done|clear -HL1 HL3; set_solver| |done].
    + eapply fx_sets; [exact F4| |done]. apply delete_singleton_eq.
    + unfold indset. rewrite Ha. destruct (Z.eqb_spec a 0); [done|]. clear -HL1' HL3'. set_solver.
Qed.

(** ** [readi] *)

Lemma chunk_pos off j : 0 <= off -> 0 <= j -> off mod BSIZE + j < BSIZE ->
  (off + j) / BSIZE = off / BSIZE /\ (off + j) mod BSIZE = off mod BSIZE + j.
Proof. unfold BSIZE. intros. zlia. Qed.

Lemma chunk_bytes v di off m : 0 <= off -> 0 <= m -> off mod BSIZE + m <= BSIZE -> length (v (blk v di (off / BSIZE))) = Z.to_nat BSIZE ->
  take (Z.to_nat m) (drop (Z.to_nat (off mod BSIZE)) (v (blk v di (off / BSIZE)))) = bytes_between v di off m.
Proof.
  intros Ho Hm Hb Hlen. assert (0 <= off mod BSIZE) by (by apply Z.mod_pos_bound). apply list_eq. intros j. unfold bytes_between.
  rewrite list_lookup_fmap. destruct (decide (j < Z.to_nat m)%nat) as [Hj|Hj].
  - rewrite lookup_take_lt, lookup_drop, lookup_seqZ_lt by lia. cbn [fmap option_fmap option_map]. unfold fbyte.
    destruct (chunk_pos off (Z.of_nat j) Ho ltac:(lia) ltac:(lia)) as [-> ->].
    rewrite nth_lookup. replace (Z.to_nat (off mod BSIZE + Z.of_nat j)) with (Z.to_nat (off mod BSIZE) + j)%nat by lia.
    destruct (lookup_lt_is_Some_2 (v (blk v di (off / BSIZE))) (Z.to_nat (off mod BSIZE) + j)) as [x Hx]; [lia|]. by rewrite Hx.
  - rewrite lookup_take_ge, lookup_seqZ_ge by lia. done.
Qed.

Lemma bytes_app v di off m n : 0 <= m -> 0 <= n -> bytes_between v di off (m + n) = bytes_between v di off m ++ bytes_between v di (off + m) n.
Proof. intros. unfold bytes_between. by rewrite seqZ_app, fmap_app by lia. Qed.

Lemma length_bytes v di off n : length (bytes_between v di off n) = Z.to_nat n.
Proof. unfold bytes_between. by rewrite length_fmap, length_seqZ. Qed.

(** The position of a chunk inside the file. *)
Lemma chunk_block v N i off n : fs_wf v N -> inum_ok sb i -> di_type (N i) <> 0 -> 0 <= off -> 0 < n -> off + n <= di_size (N i) ->
  0 <= off / BSIZE < MAXFILE /\ blk v (N i) (off / BSIZE) <> 0.
Proof.
  clear fx.
  intros Hw Hi Ht Ho Hn Hs. destruct (fw_size _ _ _ _ Hw i Hi Ht) as [Hmax Hb].
  assert (Hd : 0 <= off / BSIZE /\ off / BSIZE * BSIZE < di_size (N i)) by (unfold BSIZE in *; zlia).
  destruct Hd as [Hd1 Hd2]. split; [|by apply Hb]. split; [done|]. by eapply size_block.
Qed.

(** The destination refuses a piece of the first [n] bytes. *)
Definition refused (dst : sink) (n : Z) : Prop := exists t bs, 0 <= t /\ t + Z.of_nat (length bs) <= n /\ dst t bs = false.

Lemma readi_loop_ok k s v N i L tab ip dst tot off n out : fx s v ∅ L tab -> fs_wf v N -> at_inode tab ip N i ->
  0 <= off -> 0 <= tot <= n -> off + (n - tot) <= di_size (N i) -> Z.of_nat (size L) < NBUF ->
  (1 <= k)%nat -> (tot < n -> n - tot + off mod BSIZE <= (Z.of_nat k - 1) * BSIZE) ->
  returns (readi_loop k ip dst tot off n out s) (fun r s' => fx s' v ∅ L tab /\
    (r = (n, out ++ bytes_between v (N i) off (n - tot)) \/ fst r = -1 /\ refused dst n)).
Proof.
  revert s tot off out. induction k as [|k IH]; intros s tot off out Hfx Hw Hai Ho Ht Hs Hsz Hk1 Hk; [lia|].
  cbn [readi_loop]. assert (Hmod : 0 <= off mod BSIZE < BSIZE) by (by apply Z.mod_pos_bound).
  destruct (Z.ltb_spec tot n) as [Hlt|Hge].
  2: { cbn. split; [done|left]. replace (n - tot) with 0 by lia. replace tot with n by lia. by rewrite app_nil_r. }
  destruct (chunk_block v N i off (n - tot) Hw (ai_ok _ _ _ _ Hai) (ai_type _ _ _ _ Hai)) as [Hbr Hb]; [lia..|]. specialize (Hk Hlt).
  eapply bind_returns; [by apply (bmap_present s v N i L tab)|]. intros a s1 [-> F1].
  destruct (Z.eqb_spec (blk v (N i) (off / BSIZE)) 0); [done|].
  destruct (wf_slot sb e v N i (bslot (off / BSIZE)) Hw (ai_ok _ _ _ _ Hai) (ai_type _ _ _ _ Hai)) as [Hd _]; [by apply bslot_range|done|].
  fold (blk v (N i) (off / BSIZE)) in Hd. pose proof (data_home _ _ Hsb _ Hd) as Hhm.
  eapply fx_geti; [exact F1|]. rewrite (ai_dev _ _ _ _ Hai).
  pose proof (fx_clean _ _ _ _ _ _ _ F1 _ Hhm (lookup_empty _)) as Hcl.
  eapply (fx_bread _ _ _ _ _ _ _ _ F1); [done|apply lookup_empty|rewrite map_size_empty; lia|]. intros h s2 F2.
  eapply (fx_data _ _ _ _ _ _ _ _ F2); [apply lookup_insert_eq|done|].
  set (m := Z.min (n - tot) (BSIZE - off mod BSIZE)). cbn zeta.
  rewrite chunk_bytes; [|lia..|by apply block_length, (fw_blocks _ _ _ _ Hw)].
  destruct (dst tot _) eqn:Hdst.
  - eapply (fx_brelse _ _ _ _ _ _ _ _ F2); [apply lookup_insert_eq|done..|]. intros s3 F3. rewrite delete_insert_eq, delete_empty in F3.
    eapply returns_mono.
    { eapply IH; [exact F3|done|done|lia|lia|lia|lia|unfold BSIZE in *; lia|]. unfold m. destruct (Z.min_spec (n - tot) (BSIZE - off mod BSIZE)) as [[? ->]|[? ->]]; [lia|].
      intros Hmore. replace (off + (BSIZE - off mod BSIZE)) with (0 + (off / BSIZE + 1) * BSIZE) by (unfold BSIZE in *; zlia).
        rewrite Z_mod_plus_full. change (0 mod BSIZE) with 0. unfold BSIZE in *. lia. }
    intros r s' [Hf [->|Hr]]; (split; [done|]); [left|by right]. f_equal. rewrite <- app_assoc. f_equal.
    rewrite <- bytes_app by lia. f_equal. lia.
  - eapply (fx_brelse _ _ _ _ _ _ _ _ F2); [apply lookup_insert_eq|done..|]. intros s3 F3. rewrite delete_insert_eq, delete_empty in F3.
    cbn. split; [done|right]. split; [done|]. eexists _, _. split_and!; [| |exact Hdst]; [lia|]. rewrite length_bytes. unfold m. lia.
Qed.

(** The number of bytes that a read of [n] at [off] finds. *)
Definition readable (sz off n : Z) : Z := if (sz <? off) || (u32 (off + n) <? off) then 0 else if sz <? u32 (off + n) then sz - off else n.

Lemma readi_ok s v N i L tab ip dst off n : fx s v ∅ L tab -> fs_wf v N -> at_inode tab ip N i ->
  0 <= off < 2 ^ 32 -> 0 <= n < 2 ^ 32 -> Z.of_nat (size L) < NBUF ->
  returns (readi ip dst off n s) (fun r s' => fx s' v ∅ L tab /\
    let m := readable (di_size (N i)) off n in
    (r = (m, bytes_between v (N i) off m) \/ fst r = -1 /\ refused dst n)).
Proof.
  intros Hfx Hw Hai Ho Hn Hsz. unfold readi, readable. eapply fx_geti; [done|]. rewrite (ai_di _ _ _ _ Hai).
  destruct (fw_size _ _ _ _ Hw i (ai_ok _ _ _ _ Hai) (ai_type _ _ _ _ Hai)) as [Hmax _].
  pose proof (do_size _ (fw_di _ _ _ _ Hw i (ai_ok _ _ _ _ Hai))) as Hsr.
  pose proof (eq_refl : MAXFILE * BSIZE = 274432) as Hmf.
  destruct (Z.ltb_spec (di_size (N i)) off); cbn [orb]; [cbn; auto|].
  destruct (Z.ltb_spec (u32 (off + n)) off) as [|Hnw]; [cbn; auto|].
  assert (Hu : u32 (off + n) = off + n) by (by apply u32_nowrap).
  rewrite Hu. rewrite (u32_small (di_size (N i) - off)) by lia.
  set (m := if di_size (N i) <? off + n then di_size (N i) - off else n).
  assert (Hm : 0 <= m /\ off + m <= di_size (N i)) by (unfold m; destruct (Z.ltb_spec (di_size (N i)) (off + n)); lia).
  assert (0 <= off mod BSIZE < BSIZE) by (by apply Z.mod_pos_bound).
  eapply returns_mono; [eapply (readi_loop_ok _ s v N i L tab ip dst 0 off m []); try done; try lia|].
  { intros _. unfold BSIZE in *. zlia. }
  intros r s' [Hf Hr]. split; [done|]. replace (m - 0) with m in Hr by lia. destruct Hr as [Hr|[Hr (t & bs & Ht & Hl & Hd)]]; [by left|right].
  split; [done|]. exists t, bs. split_and!; try done. unfold m in Hl. destruct (Z.ltb_spec (di_size (N i)) (off + n)); lia.
Qed.
End Data.
