(* ===== verification/FsWrite.v ===== *)
(** [writei]: the loop over blocks, its effect on the bytes of every file, and
    the number of blocks it adds to the transaction. *)
From S2P Require Import Prelude Bufcache Log LogClaims Txn FileLayer Fs FsBlocks FsInode FsData.
Local Open Scope kern_scope.

(** ** Bytes of a block *)

Lemma length_patch d o bs : 0 <= o -> o + Z.of_nat (length bs) <= Z.of_nat (length d) -> length (patch d o bs) = length d.
Proof. intros. unfold patch. rewrite !length_app, length_take, length_drop. lia. Qed.

Lemma nth_patch d o bs j : 0 <= o -> o + Z.of_nat (length bs) <= Z.of_nat (length d) ->
  nth j (patch d o bs) 0 = if decide (Z.to_nat o <= j < Z.to_nat o + length bs)%nat then nth (j - Z.to_nat o) bs 0 else nth j d 0.
Proof.
  intros Ho Hl. rewrite !nth_lookup. unfold patch.
  destruct (decide (j < Z.to_nat o)%nat) as [Hj|Hj].
  - rewrite lookup_app_l by (rewrite length_take; lia). rewrite lookup_take_lt by done. case_decide; [lia|done].
  - rewrite lookup_app_r by (rewrite length_take; lia). rewrite length_take, Nat.min_l by lia.
    case_decide as Hd.
    + by rewrite lookup_app_l by lia.
    + rewrite lookup_app_r by lia. rewrite lookup_drop. do 2 f_equal. lia.
Qed.

Lemma block_patch d o bs : block d -> 0 <= o -> o + Z.of_nat (length bs) <= BSIZE -> block (patch d o bs).
Proof. intros Hd Ho Hm. unfold block in *. rewrite length_patch; [done|lia|rewrite Hd; lia]. Qed.

Lemma patch_nil d o : 0 <= o -> patch d o [] = d.
Proof. intros. unfold patch. cbn. by rewrite Nat.add_0_r, take_drop. Qed.

(** The blocks that [n] bytes from [off] on touch. *)
Definition nblk (off n : Z) : Z := if n <=? 0 then 0 else (off + n - 1) / BSIZE - off / BSIZE + 1.

Lemma nblk_step off n m : 0 <= off -> 0 < n -> m = Z.min n (BSIZE - off mod BSIZE) -> nblk off n = 1 + nblk (off + m) (n - m) /\ 0 <= nblk (off + m) (n - m).
Proof.
  intros Ho Hn ->. unfold nblk. destruct (Z.leb_spec n 0); [lia|]. unfold BSIZE in *.
  destruct (Z.leb_spec (n - Z.min n (1024 - off mod 1024)) 0); zlia.
Qed.

(** A source that delivers the bytes [bs], or refuses a piece and leaves
    nothing of it. *)
Definition delivers (src : source) (bs : list Z) : Prop := forall t m, 0 <= t -> 0 <= m -> t + m <= Z.of_nat (length bs) ->
  src t m = (take (Z.to_nat m) (drop (Z.to_nat t) bs), true) \/ src t m = ([], false).
Definition refuses (src : source) (n : Z) : Prop := exists t m, 0 <= t /\ 0 <= m /\ t + m <= n /\ snd (src t m) = false.

Lemma kernel_delivers bs : delivers (kernel_source bs) bs.
Proof. intros t m _ _ _. by left. Qed.
Lemma kernel_accepts bs n : ~ refuses (kernel_source bs) n.
Proof. by intros (t & m & _ & _ & _ & ?). Qed.

(** The bytes [a, b) of the source. *)
Definition piece (bs : list Z) (a b : Z) : list Z := take (Z.to_nat (b - a)) (drop (Z.to_nat a) bs).

Lemma length_piece bs a b : 0 <= a <= b -> b <= Z.of_nat (length bs) -> length (piece bs a b) = Z.to_nat (b - a).
Proof. intros. unfold piece. rewrite length_take, length_drop. lia. Qed.

Lemma piece_app bs a b c : 0 <= a <= b -> b <= c -> c <= Z.of_nat (length bs) -> piece bs a b ++ piece bs b c = piece bs a c.
Proof.
  intros. unfold piece. replace (Z.to_nat b) with (Z.to_nat a + Z.to_nat (b - a))%nat by lia.
  rewrite <- drop_drop. replace (Z.to_nat (c - a)) with (Z.to_nat (b - a) + Z.to_nat (c - b))%nat by lia.
  apply take_take_drop.
Qed.

Section Write.
Context {BC : BufCache} (sb : superblock) (e : tenv).
Hypothesis Hsb : sb_ok sb e.
Let fs_wf := fs_wf sb e.
Let fx := fx sb e.

(** Inode [i] has got the bytes [bs] at [off]; the rest of it and every other
    file is unchanged. *)
Record wrote (v : Z -> list Z) (N : Z -> dinode) (i off : Z) (bs : list Z) (v' : Z -> list Z) (di' : dinode) : Prop := {
  wr_wf : fs_wf v' (upd N i di');
  wr_meta : same_meta (N i) di';
  wr_others : forall j, inum_ok sb j -> di_type (N j) <> 0 -> j <> i -> keeps v v' (N j);
  wr_in : forall p, off <= p < off + Z.of_nat (length bs) ->
    blk v' di' (p / BSIZE) <> 0 /\ fbyte v' di' p = nth (Z.to_nat (p - off)) bs 0;
  wr_out : forall p, 0 <= p -> p / BSIZE < MAXFILE -> ~ off <= p < off + Z.of_nat (length bs) -> blk v (N i) (p / BSIZE) <> 0 ->
    blk v' di' (p / BSIZE) <> 0 /\ fbyte v' di' p = fbyte v (N i) p;
  wr_ib : forall c, isib sb c -> v' c = v c;
  wr_ind : addr (N i) NDIRECT <> 0 -> addr di' NDIRECT = addr (N i) NDIRECT
}.

Lemma div_BSIZE p : 0 <= p -> 0 <= p / BSIZE.
Proof. intros. by apply Z.div_pos. Qed.

Lemma grown_wrote v N i v' di' off : grown sb e v N i v' di' -> wrote v N i off [] v' di'.
Proof.
  intros []. split; try done; cbn; [lia|]. intros p Hp Hm _ Hb.
  destruct (gr_blk (p / BSIZE)) as [E1 E2]; [pose proof (div_BSIZE p Hp); lia|done|]. unfold fbyte.
  rewrite E1. split; [done|]. by rewrite E2.
Qed.

Lemma wrote_trans v N i off bs v1 di1 bs2 v2 di2 : 0 <= off -> off + Z.of_nat (length bs) <= MAXFILE * BSIZE ->
  wrote v N i off bs v1 di1 -> wrote v1 (upd N i di1) i (off + Z.of_nat (length bs)) bs2 v2 di2 -> wrote v N i off (bs ++ bs2) v2 di2.
Proof.
  clear fx.
  intros Hoff Hmx [Hw Hm Ho Hin Hout Hib Hd] [Hw' Hm' Ho' Hin' Hout' Hib' Hd']. rewrite upd_eq in *.
  assert (Hblk : forall p, 0 <= p < MAXFILE * BSIZE -> 0 <= p /\ p / BSIZE < MAXFILE).
  { intros p Hp. unfold BSIZE in *. zlia. }
  split.
  - eapply fs_wf_ext; [exact Hw'|]. intros. apply upd_twice.
  - by eapply same_meta_trans.
  - intros j Hj Ht Hne. eapply keeps_trans; [by apply Ho|]. specialize (Ho' j Hj). rewrite upd_ne in Ho' by done. auto.
  - intros p Hp. rewrite length_app in Hp. destruct (Z.lt_ge_cases p (off + Z.of_nat (length bs))) as [Hlt|Hge].
    + destruct (Hin p ltac:(lia)) as [E1 E2]. destruct (Hblk p ltac:(lia)) as [Hp0 Hpm].
      destruct (Hout' p Hp0 Hpm ltac:(lia) E1) as [E3 E4]. split; [done|]. rewrite E4, E2, app_nth1; [done|lia].
    + destruct (Hin' p ltac:(lia)) as [E1 E2]. split; [done|]. rewrite E2, app_nth2 by lia. f_equal. lia.
  - intros p Hp0 Hpm Hp Hb. rewrite length_app in Hp. destruct (Hout p Hp0 Hpm ltac:(lia) Hb) as [E1 E2].
    destruct (Hout' p Hp0 Hpm ltac:(lia) E1) as [E3 E4]. split; [done|congruence].
  - intros c Hc. rewrite Hib' by done. auto.
  - intros Hn. rewrite Hd'; rewrite Hd; done.
Qed.

(** Bytes put into a block that the file has. *)
Lemma wrote_block v N i off bs : fs_wf v N -> inum_ok sb i -> di_type (N i) <> 0 -> 0 <= off -> off / BSIZE < MAXFILE ->
  blk v (N i) (off / BSIZE) <> 0 -> off mod BSIZE + Z.of_nat (length bs) <= BSIZE ->
  let a := blk v (N i) (off / BSIZE) in
  wrote v N i off bs (upd v a (patch (v a) (off mod BSIZE) bs)) (N i).
Proof.
  clear fx.
  intros Hw Hi Ht Ho Hm Hb Hl a. pose proof (div_BSIZE off Ho) as Hd0.
  assert (Hmod : 0 <= off mod BSIZE < BSIZE) by (by apply Z.mod_pos_bound).
  pose proof (bslot_range (off / BSIZE) ltac:(lia)) as [Hbr _].
  assert (Hoa : owns sb v N i (bslot (off / BSIZE)) a) by done.
  destruct (fw_own _ _ _ _ Hw _ _ _ Hoa) as [Hda _].
  assert (Hbl : block (v a)) by by apply (fw_blocks _ _ _ _ Hw), (data_home _ _ Hsb).
  destruct (wf_data sb e Hsb v N i (off / BSIZE) (patch (v a) (off mod BSIZE) bs) Hw Hi Ht) as (Hw' & Hk & Hs); [lia|done|apply block_patch; (done || lia)|].
  fold a in Hw', Hk, Hs. assert (Hbk : forall n, blk (upd v a (patch (v a) (off mod BSIZE) bs)) (N i) n = blk v (N i) n) by (intros; apply Hs).
  assert (Hlen : length (v a) = Z.to_nat BSIZE) by by apply block_length.
  split; try done.
  - eapply fs_wf_ext; [done|]. intros. symmetry. apply upd_same.
  - intros p Hp. destruct (chunk_pos off (p - off) Ho ltac:(lia) ltac:(lia)) as [E1 E2]. replace (off + (p - off)) with p in * by lia.
    rewrite Hbk, E1. split; [done|]. unfold fbyte. rewrite Hbk, E1, E2. fold a. rewrite upd_eq, nth_patch by lia.
    rewrite decide_True by lia. f_equal. lia.
  - intros p Hp Hpm Hnp Hpb. rewrite Hbk. split; [done|]. unfold fbyte. rewrite Hbk. unfold upd.
    destruct (Z.eqb_spec (blk v (N i) (p / BSIZE)) a) as [He|]; [|done].
    assert (Hdiv : p / BSIZE = off / BSIZE).
    { apply bslot_inj. pose proof (bslot_range (p / BSIZE) ltac:(pose proof (div_BSIZE p Hp); lia)) as [Hr _].
      eapply (fw_inj _ _ _ _ Hw i _ i _ a); [|done]. split_and!; try done; lia. }
    rewrite nth_patch by lia. rewrite decide_False; [by rewrite He|]. intros Hin. apply Hnp. unfold BSIZE in *. zlia.
  - intros c Hc. apply upd_ne. intros ->. by eapply (ib_not_owned sb e Hsb v N).
Qed.

(** ** The transaction *)

(** The bitmap, the indirect block (present or still to come) and the blocks
    logged so far. *)
Definition weight (di : dinode) (L : gset Z) : Z :=
  Z.of_nat (size (BM sb ∪ indset di ∪ L)) + (if addr di NDIRECT =? 0 then 1 else 0).

Lemma weight_ge di L : Z.of_nat (size (BM sb ∪ L)) <= weight di L.
Proof using Type.
  clear Hsb.
  unfold weight. pose proof (subseteq_size (BM sb ∪ L) (BM sb ∪ indset di ∪ L) ltac:(set_solver)). destruct (_ =? 0); lia.
Qed.

Lemma weight_le di L : weight di L <= Z.of_nat (size (BM sb ∪ L)) + 1.
Proof using Type.
  clear Hsb.
  unfold weight, indset. destruct (addr di NDIRECT =? 0).
  - pose proof (subseteq_size (BM sb ∪ ∅ ∪ L) (BM sb ∪ L) ltac:(set_solver)). lia.
  - pose proof (subseteq_size (BM sb ∪ {[addr di NDIRECT]} ∪ L) ({[addr di NDIRECT]} ∪ (BM sb ∪ L)) ltac:(set_solver)).
    pose proof (size_add (addr di NDIRECT) (BM sb ∪ L)). lia.
Qed.

Lemma weight_step di di' a L L' : (addr di NDIRECT <> 0 -> addr di' NDIRECT = addr di NDIRECT) ->
  L' ⊆ BM sb ∪ indset di' ∪ {[a]} ∪ L -> weight di' L' <= weight di L + 1.
Proof using Type.
  clear Hsb.
  intros Hi HL. unfold weight, indset in *. destruct (Z.eqb_spec (addr di NDIRECT) 0) as [E|E].
  - pose proof (size_add a (BM sb ∪ ∅ ∪ L)) as Ha. destruct (Z.eqb_spec (addr di' NDIRECT) 0) as [E'|E'].
    + pose proof (subseteq_size (BM sb ∪ ∅ ∪ L') ({[a]} ∪ (BM sb ∪ ∅ ∪ L)) ltac:(clear -HL; set_solver)). lia.
    + set (x := addr di' NDIRECT) in *.
      pose proof (subseteq_size (BM sb ∪ {[x]} ∪ L') ({[x]} ∪ ({[a]} ∪ (BM sb ∪ ∅ ∪ L))) ltac:(clear -HL; set_solver)).
      pose proof (size_add x ({[a]} ∪ (BM sb ∪ ∅ ∪ L))). lia.
  - rewrite (Hi E) in *. destruct (Z.eqb_spec (addr di NDIRECT) 0); [done|]. set (x := addr di NDIRECT) in *.
    pose proof (subseteq_size (BM sb ∪ {[x]} ∪ L') ({[a]} ∪ (BM sb ∪ {[x]} ∪ L)) ltac:(clear -HL; set_solver)).
    pose proof (size_add a (BM sb ∪ {[x]} ∪ L)). lia.
Qed.

Lemma next_block off : 0 <= off mod BSIZE < BSIZE -> (off + (BSIZE - off mod BSIZE)) mod BSIZE = 0.
Proof.
  intros. replace (off + (BSIZE - off mod BSIZE)) with (0 + (off / BSIZE + 1) * BSIZE) by (unfold BSIZE in *; zlia).
  by rewrite Z_mod_plus_full.
Qed.

(** What the loop leaves. *)
Definition loop_post v N i L tab ip src bs tot off n (r : Z * Z) (s' : fsys) : Prop :=
  exists v' di' L', fx s' v' ∅ L' (with_di tab ip di') /\ wrote v N i off (piece bs tot (fst r)) v' di' /\
    tot <= fst r <= n /\ snd r = off + (fst r - tot) /\ weight di' L' <= weight (N i) L + nblk off (n - tot) /\
    (tot < fst r < n -> snd r mod BSIZE = 0) /\ (fst r < n -> full sb v' /\ di_size (N i) < off + (n - tot) \/ refuses src n).

Lemma loop_post_stop s v N i L tab ip src bs tot off n v' di' L' : fx s v' ∅ L' (with_di tab ip di') ->
  grown sb e v N i v' di' -> tot <= n -> 0 <= nblk off (n - tot) -> weight di' L' <= weight (N i) L + nblk off (n - tot) ->
  (tot < n -> full sb v' /\ di_size (N i) < off + (n - tot) \/ refuses src n) -> loop_post v N i L tab ip src bs tot off n (tot, off) s.
Proof.
  intros Hf Hg Hle Hn Hwt Hr. exists v', di', L'. cbn. unfold piece. rewrite Z.sub_diag. cbn.
  split_and!; try done; try lia. by apply grown_wrote.
Qed.

Lemma writei_loop_ok k s v N i L tab ip src bs tot off n : fx s v ∅ L tab -> fs_wf v N -> at_inode sb tab ip N i ->
  0 <= off -> 0 <= tot <= n -> n <= Z.of_nat (length bs) -> delivers src bs -> off + (n - tot) <= MAXFILE * BSIZE ->
  weight (N i) L + nblk off (n - tot) + 3 < NBUF -> 1 <= te_out e ->
  (1 <= k)%nat -> (tot < n -> n - tot + off mod BSIZE <= (Z.of_nat k - 1) * BSIZE) ->
  returns (writei_loop k ip src tot off n s) (loop_post v N i L tab ip src bs tot off n).
Proof.
  revert s v N L tab tot off. induction k as [|k IH]; intros s v N L tab tot off Hfx Hw Hai Ho Ht Hn Hsrc Hmax Hwt Hout Hk1 Hk; [lia|].
  cbn [writei_loop]. assert (Hmod : 0 <= off mod BSIZE < BSIZE) by (by apply Z.mod_pos_bound).
  destruct (Z.ltb_spec tot n) as [Hlt|Hge].
  2: { assert (n - tot = 0) as E by lia. assert (nblk off (n - tot) = 0) as E' by (by rewrite E).
       cbn. apply (loop_post_stop _ _ _ _ _ _ _ _ _ _ _ _ v (N i) L); [|by apply grown_refl|lia..].
       eapply fx_itab; [exact Hfx|]. by eapply with_di_same. }
  specialize (Hk Hlt). set (m := Z.min (n - tot) (BSIZE - off mod BSIZE)).
  destruct (nblk_step off (n - tot) m Ho ltac:(lia) eq_refl) as [Hnb Hnb0].
  assert (Hbn : 0 <= off / BSIZE < MAXFILE). { unfold BSIZE in *. pose proof (eq_refl : MAXFILE = 268). zlia. }
  pose proof (weight_ge (N i) L) as HwL. assert (NBUF = LOGBLOCKS) by done.
  eapply bind_returns; [apply (bmap_ok sb e Hsb s v N i L tab); try done; lia|].
  intros a s1 (v1 & di1 & L1 & F1 & Hg1 & Ha & HL1 & HL1' & Hfl).
  pose proof (weight_step (N i) di1 a L L1 (gr_ind _ _ _ _ _ _ _ Hg1) HL1') as Hws.
  destruct (Z.eqb_spec a 0) as [Ha0|Ha0].
  { cbn. apply (loop_post_stop _ _ _ _ _ _ _ _ _ _ _ _ v1 di1 L1); [exact F1|done|lia..|]. intros _. left. split; [auto|].
    destruct (Z.lt_ge_cases (off / BSIZE * BSIZE) (di_size (N i))) as [Hin|Hout']; [exfalso|unfold BSIZE in *; zlia].
    destruct (fw_size _ _ _ _ Hw i (ai_ok _ _ _ _ _ Hai) (ai_type _ _ _ _ _ Hai)) as [_ Hb]. specialize (Hb (off / BSIZE) ltac:(lia) Hin).
    destruct (gr_blk _ _ _ _ _ _ _ Hg1 (off / BSIZE) Hbn Hb) as [E _]. congruence. }
  set (N1 := upd N i di1). pose proof (gr_wf _ _ _ _ _ _ _ Hg1) as Hw1. fold N1 in Hw1.
  assert (Ht1 : di_type di1 <> 0) by (destruct (gr_meta _ _ _ _ _ _ _ Hg1) as [-> _]; apply Hai).
  pose proof (at_inode_with _ _ _ _ _ di1 Hai Ht1) as Hai1. fold N1 in Hai1. assert (HN1 : N1 i = di1) by apply upd_eq.
  destruct (wf_slot sb e v1 N1 i (bslot (off / BSIZE)) Hw1 (ai_ok _ _ _ _ _ Hai1) (ai_type _ _ _ _ _ Hai1)) as [Hd _]; [by apply bslot_range| |].
  { rewrite HN1. fold (blk v1 di1 (off / BSIZE)). by rewrite Ha. }
  rewrite HN1 in Hd. fold (blk v1 di1 (off / BSIZE)) in Hd. rewrite Ha in Hd. pose proof (data_home _ _ Hsb _ Hd) as Hhm.
  eapply fx_geti; [exact F1|]. rewrite (ai_dev _ _ _ _ _ Hai1).
  pose proof (fx_clean _ _ _ _ _ _ _ F1 _ Hhm (lookup_empty _)) as Hcl.
  pose proof (weight_ge di1 L1) as HwL1. pose proof (size_le_BM sb L1) as HsL1.
  eapply (fx_bread _ _ _ _ _ _ _ _ F1); [done|apply lookup_empty|rewrite map_size_empty; lia|]. intros h s2 F2. fold m.
  eapply (fx_data _ _ _ _ _ _ _ _ F2); [apply lookup_insert_eq|done|]. cbn beta.
  destruct (Hsrc tot m ltac:(lia) ltac:(lia) ltac:(lia)) as [E|E]; rewrite E.
  2: { rewrite patch_nil by lia.
       eapply (fx_set _ _ _ _ _ _ _ _ F2 a); [apply lookup_insert_eq|done|by apply block_length, (fw_blocks _ _ _ _ Hw1)|]. intros s3 F3.
       eapply (fx_brelse _ _ _ _ _ _ _ _ F3 a); [apply lookup_insert_eq|done|by rewrite upd_eq|]. intros s4 F4. cbn.
       rewrite delete_insert_eq, delete_empty in F4.
       eapply (loop_post_stop _ _ _ _ _ _ _ _ _ _ _ _ v1 di1 L1); [|exact Hg1|lia..|intros _; right; exists tot, m; rewrite E; unfold m; split_and!; (done || lia)].
       eapply fx_view; [exact F4|]. intros b. apply upd_same. }
  set (c := take (Z.to_nat m) (drop (Z.to_nat tot) bs)).
  assert (Hc : length c = Z.to_nat m) by (unfold c; rewrite length_take, length_drop; lia).
  pose proof (wrote_block v1 N1 i off c Hw1 (ai_ok _ _ _ _ _ Hai1) (ai_type _ _ _ _ _ Hai1) Ho ltac:(lia)) as Hwb.
  rewrite HN1, Ha in Hwb. specialize (Hwb Ha0 ltac:(lia)). cbn zeta in Hwb.
  eapply (fx_set _ _ _ _ _ _ _ _ F2 a); [apply lookup_insert_eq|done| |].
  { rewrite length_patch; [|lia|]; rewrite (block_length (v1 a)) by (by apply (fw_blocks _ _ _ _ Hw1)); [done|rewrite Hc; lia]. }
  intros s3 F3.
  eapply (fx_log_write _ _ _ _ _ _ _ _ F3 a); [apply lookup_insert_eq|done|lia|done|]. intros s4 F4.
  eapply (fx_brelse _ _ _ _ _ _ _ _ F4 a); [apply lookup_insert_eq|done|left; apply in_add|]. intros s5 F5.
  rewrite delete_insert_eq, delete_empty in F5.
  set (v2 := upd v1 a (patch (v1 a) (off mod BSIZE) c)) in *.
  pose proof (wrote_trans v N i off [] v1 di1 c v2 di1 Ho ltac:(cbn; lia) (grown_wrote _ _ _ _ _ _ Hg1)) as Hw2.
  cbn in Hw2. rewrite Z.add_0_r in Hw2. specialize (Hw2 Hwb).
  pose proof (weight_step (N i) di1 a L ({[a]} ∪ L1) (gr_ind _ _ _ _ _ _ _ Hg1) ltac:(clear -HL1'; set_solver)) as Hws'.
  eapply returns_mono.
  { eapply (IH s5 v2 N1 ({[a]} ∪ L1) (with_di tab ip di1) (tot + m) (off + m)); try done; try lia.
    - exact (wr_wf _ _ _ _ _ _ _ Hw2).
    - replace (n - (tot + m)) with (n - tot - m) by lia. rewrite HN1. lia.
    - unfold BSIZE in *. lia.
    - unfold m. destruct (Z.min_spec (n - tot) (BSIZE - off mod BSIZE)) as [[? ->]|[? ->]]; [lia|]. intros Hmore.
      rewrite next_block by done. unfold BSIZE in *. lia. }
  intros [t' o'] s' (v' & di' & L' & Ff & Hwr & Htt & Hoo & Hww & Hbd & Hfull). cbn [fst snd] in *.
  assert (Hpc : piece bs tot t' = c ++ piece bs (tot + m) t').
  { rewrite <- (piece_app bs tot (tot + m) t') by lia. f_equal. unfold piece, c. do 2 f_equal. lia. }
  exists v', di', L'. cbn [fst snd]. split_and!; try done; try lia.
  - eapply fx_itab; [exact Ff|]. intros j. apply with_di_twice.
  - rewrite Hpc. eapply wrote_trans; [done|rewrite Hc; lia|exact Hw2|]. rewrite Hc. replace (off + Z.of_nat (Z.to_nat m)) with (off + m) by lia. done.
  - rewrite HN1 in Hww. replace (n - (tot + m)) with (n - tot - m) in Hww by lia. lia.
  - intros Hin. destruct (Z.eq_dec t' (tot + m)) as [->|]; [|apply Hbd; lia]. rewrite Hoo. replace (off + m + (tot + m - (tot + m))) with (off + m) by lia.
    unfold m in *. destruct (Z.min_spec (n - tot) (BSIZE - off mod BSIZE)) as [[? Em]|[? Em]]; rewrite Em in *; [lia|]. by apply next_block.
  - intros Hr. destruct (Hfull Hr) as [[Hf Hs]|]; [left|by right]. split; [done|]. rewrite HN1 in Hs. destruct (gr_meta _ _ _ _ _ _ _ Hg1) as (_ & _ & _ & _ & Es). lia.
Qed.

(** ** Inodes on disk *)

Definition get_inode (v : Z -> list Z) (i : Z) : dinode := get_dinode (v (IBLOCK i sb)) (inode_offset i).
Definition v_iupd (v : Z -> list Z) (i : Z) (di : dinode) : Z -> list Z :=
  upd v (IBLOCK i sb) (put_dinode (v (IBLOCK i sb)) (inode_offset i) di).

Lemma inode_offset_range i : 0 <= inode_offset i /\ inode_offset i + 64 <= BSIZE.
Proof. unfold inode_offset, IPB, sizeof_dinode, BSIZE. change (1024 / 64) with 16. zlia. Qed.

Lemma get_inode_iupd v i di j : blocks e v -> inum_ok sb i -> inum_ok sb j -> di_ok di ->
  get_inode (v_iupd v i di) j = if j =? i then di else get_inode v j.
Proof.
  intros Hv Hi Hj Hd. destruct (iblock_ib _ _ Hsb i Hi) as [Hbi Ei], (iblock_ib _ _ Hsb j Hj) as [Hbj Ej].
  pose proof (block_length _ (Hv _ (ib_home _ _ Hsb _ Hbi))) as Hlen.
  destruct (inode_offset_range i), (inode_offset_range j). unfold get_inode, v_iupd, upd.
  destruct (Z.eqb_spec (IBLOCK j sb) (IBLOCK i sb)) as [Hb|Hb].
  - destruct (Z.eqb_spec j i) as [->|Hne]; [apply get_put_same; (done || unfold BSIZE in *; lia)|]. rewrite Hb.
    apply get_put_other; try (unfold BSIZE in *; lia). rewrite Ei, Ej in Hb.
    assert (j mod IPB <> i mod IPB). { intros Hm. apply Hne. rewrite (Z.div_mod j IPB), (Z.div_mod i IPB) by done. f_equal; [f_equal; lia|done]. }
    unfold inode_offset, sizeof_dinode in *. lia.
  - destruct (Z.eqb_spec j i) as [->|]; done.
Qed.

Lemma iupdate_copy s v N i di L tab ip : fx s v ∅ L tab -> fs_wf v N -> inum_ok sb i ->
  i_dev (tab ip) = ROOTDEV -> i_inum (tab ip) = i -> i_di (tab ip) = di -> Z.of_nat (size L) < NBUF -> 1 <= te_out e ->
  returns (iupdate ip s) (fun _ s' => fx s' (v_iupd v i di) ∅ ({[IBLOCK i sb]} ∪ L) tab).
Proof.
  intros Hfx Hw Hi Hdev Hin Hdi Hsz Hout. unfold iupdate. eapply fx_geti; [done|]. eapply fx_getsb; [done|].
  rewrite Hdev, Hin, Hdi. assert (NBUF = LOGBLOCKS) by done.
  destruct (iblock_ib _ _ Hsb i Hi) as [Hib _]. pose proof (ib_home _ _ Hsb _ Hib) as Hhm.
  eapply fx_bread; [done|done|apply lookup_empty|rewrite map_size_empty; lia|]. intros h s1 F1.
  eapply (fx_data _ _ _ _ _ _ _ _ F1); [apply lookup_insert_eq|done|].
  eapply (fx_set _ _ _ _ _ _ _ _ F1 (IBLOCK i sb)); [apply lookup_insert_eq|done|by apply block_length, block_put_dinode, (fw_blocks _ _ _ _ Hw)|].
  intros s2 F2. eapply (fx_log_write _ _ _ _ _ _ _ _ F2 (IBLOCK i sb)); [apply lookup_insert_eq|done|lia|done|]. intros s3 F3.
  apply bind_last. eapply (fx_brelse _ _ _ _ _ _ _ _ F3 (IBLOCK i sb)); [apply lookup_insert_eq|done|left; apply in_add|]. intros s4 F4.
  rewrite delete_insert_eq, delete_empty in F4. done.
Qed.

Lemma iupdate_ok s v N i L tab ip : fx s v ∅ L tab -> fs_wf v N -> at_inode sb tab ip N i ->
  Z.of_nat (size L) < NBUF -> 1 <= te_out e ->
  returns (iupdate ip s) (fun _ s' => fx s' (v_iupd v i (N i)) ∅ ({[IBLOCK i sb]} ∪ L) tab).
Proof. intros Hfx Hw []. by apply (iupdate_copy s v N). Qed.

Lemma wf_iupd v N i di : fs_wf v N -> inum_ok sb i -> fs_wf (v_iupd v i di) N /\
  forall j, inum_ok sb j -> di_type (N j) <> 0 -> keeps v (v_iupd v i di) (N j).
Proof.
  intros Hw Hi. destruct (iblock_ib _ _ Hsb i Hi) as [Hib _]. split.
  - apply (wf_ib sb e Hsb); [done..|]. by apply block_put_dinode, (fw_blocks _ _ _ _ Hw), (ib_home _ _ Hsb).
  - intros j Hj Ht. by apply (ib_keeps sb e Hsb).
Qed.

(** ** The content of a file *)

Lemma content_lookup v di p : 0 <= p < di_size di -> fcontent v di !! Z.to_nat p = Some (fbyte v di p).
Proof. intros Hp. unfold fcontent, bytes_between. rewrite list_lookup_fmap, lookup_seqZ_lt by lia. cbn. do 2 f_equal. lia. Qed.

Lemma length_content v di : 0 <= di_size di -> Z.of_nat (length (fcontent v di)) = di_size di.
Proof. intros. unfold fcontent. rewrite length_bytes. lia. Qed.

Lemma size_blocks v N i p : fs_wf v N -> inum_ok sb i -> di_type (N i) <> 0 -> 0 <= p < di_size (N i) ->
  0 <= p / BSIZE < MAXFILE /\ blk v (N i) (p / BSIZE) <> 0.
Proof.
  clear fx. intros Hw Hi Ht Hp. apply (chunk_block sb e v N i p (di_size (N i) - p)); try done; lia. Qed.

Lemma keeps_content v v' N i : fs_wf v N -> inum_ok sb i -> di_type (N i) <> 0 -> keeps v v' (N i) -> fcontent v' (N i) = fcontent v (N i).
Proof.
  clear fx.
  intros Hw Hi Ht Hk. unfold fcontent, bytes_between. apply list_fmap_ext. intros k p Hp.
  apply list_elem_of_lookup_2, elem_of_seqZ in Hp. destruct (size_blocks v N i p) as [Hr Hb]; [done..|lia|].
  apply fbyte_keeps; (done || lia).
Qed.

(** The content after [wrote], the size brought up to date. *)
Lemma wrote_content v N i off bs v' di' : fs_wf v N -> inum_ok sb i -> di_type (N i) <> 0 -> wrote v N i off bs v' di' ->
  0 <= off <= di_size (N i) ->
  fcontent v' (set_size (Z.max (di_size (N i)) (off + Z.of_nat (length bs))) di') = splice (Z.to_nat off) bs (fcontent v (N i)).
Proof.
  clear fx.
  intros Hw Hi Ht Hwr Ho. set (sz := Z.max _ _). set (d2 := set_size sz di').
  pose proof (length_content v (N i) ltac:(lia)) as Hlen.
  assert (Hfb : forall p, fbyte v' d2 p = fbyte v' di' p) by done.
  apply list_eq. intros j. destruct (decide (Z.of_nat j < sz)) as [Hj|Hj].
  2: { rewrite !lookup_ge_None_2; [done|rewrite splice_length; lia|]. pose proof (length_content v' d2 ltac:(cbn; lia)) as E. cbn in E. lia. }
  rewrite <- (Nat2Z.id j). set (p := Z.of_nat j) in *. rewrite content_lookup by (cbn; lia). rewrite Hfb. unfold splice.
  destruct (Z.lt_ge_cases p off) as [Hlo|Hlo].
  - destruct (size_blocks v N i p Hw Hi Ht ltac:(lia)) as [Hr Hb].
    destruct (wr_out _ _ _ _ _ _ _ Hwr p ltac:(lia) ltac:(lia) ltac:(lia) Hb) as [_ ->].
    rewrite lookup_app_l by (rewrite length_take; lia). rewrite lookup_take_lt by lia. by rewrite content_lookup by lia.
  - rewrite lookup_app_r by (rewrite length_take; lia). rewrite length_take, Nat.min_l by lia.
    destruct (Z.lt_ge_cases p (off + Z.of_nat (length bs))) as [Hhi|Hhi].
    + rewrite lookup_app_l by lia. destruct (wr_in _ _ _ _ _ _ _ Hwr p ltac:(lia)) as [_ ->].
      destruct (lookup_lt_is_Some_2 bs (Z.to_nat p - Z.to_nat off)) as [x Hx]; [lia|]. rewrite Hx.
      f_equal. replace (Z.to_nat (p - off)) with (Z.to_nat p - Z.to_nat off)%nat by lia. by apply nth_lookup_Some.
    + destruct (size_blocks v N i p Hw Hi Ht ltac:(lia)) as [Hr Hb].
      destruct (wr_out _ _ _ _ _ _ _ Hwr p ltac:(lia) ltac:(lia) ltac:(lia) Hb) as [_ ->].
      rewrite lookup_app_r by lia. rewrite lookup_drop, <- content_lookup by lia. f_equal. lia.
Qed.

(** ** The call *)

(** The file system after [bs] has been written at [off] of inode [i]. *)
Record written (v : Z -> list Z) (N : Z -> dinode) (i off : Z) (bs : list Z) (v' : Z -> list Z) (di' : dinode) : Prop := {
  wt_wf : fs_wf v' (upd N i di');
  wt_meta : di_type di' = di_type (N i) /\ di_major di' = di_major (N i) /\ di_minor di' = di_minor (N i) /\ di_nlink di' = di_nlink (N i);
  wt_content : fcontent v' di' = splice (Z.to_nat off) bs (fcontent v (N i));
  wt_others : forall j, inum_ok sb j -> di_type (N j) <> 0 -> j <> i -> keeps v v' (N j);
  wt_disk : forall j, inum_ok sb j -> get_inode v' j = if j =? i then di' else get_inode v j
}.

Lemma wrote_resize v N i off bs v' di' : fs_wf v N -> inum_ok sb i -> di_type (N i) <> 0 -> wrote v N i off bs v' di' ->
  0 <= off <= di_size (N i) -> off + Z.of_nat (length bs) <= MAXFILE * BSIZE ->
  fs_wf v' (upd N i (set_size (Z.max (di_size (N i)) (off + Z.of_nat (length bs))) di')).
Proof.
  clear fx.
  intros Hw Hi Ht Hwr Ho Hmax. set (sz := Z.max _ _).
  destruct (fw_size _ _ _ _ Hw i Hi Ht) as [Hs Hb].
  eapply fs_wf_ext; [eapply (wf_resize sb e v' (upd N i di') i sz); [apply Hwr|done|lia|]|].
  2: { intros j. rewrite upd_eq. apply upd_twice. }
  intros n Hn Hlt. rewrite upd_eq. assert (Hp : n * BSIZE / BSIZE = n) by (by apply Z.div_mul).
  rewrite <- Hp. set (p := n * BSIZE) in *. assert (0 <= p) by (unfold p, BSIZE; lia).
  destruct (decide (off <= p < off + Z.of_nat (length bs))) as [Hin|Hin].
  - by apply (wr_in _ _ _ _ _ _ _ Hwr).
  - destruct (size_blocks v N i p Hw Hi Ht ltac:(lia)) as [Hr Hbk].
    by apply (wr_out _ _ _ _ _ _ _ Hwr p ltac:(lia) ltac:(lia) Hin).
Qed.

Lemma wrote_written v N i off bs v' di' : fs_wf v N -> inum_ok sb i -> di_type (N i) <> 0 -> wrote v N i off bs v' di' ->
  0 <= off <= di_size (N i) -> off + Z.of_nat (length bs) <= MAXFILE * BSIZE ->
  let di2 := set_size (Z.max (di_size (N i)) (off + Z.of_nat (length bs))) di' in
  written v N i off bs (v_iupd v' i di2) di2.
Proof.
  clear fx.
  intros Hw Hi Ht Hwr Ho Hmax di2. pose proof (wrote_resize v N i off bs v' di' Hw Hi Ht Hwr Ho Hmax) as Hw2. fold di2 in Hw2.
  destruct (wf_iupd v' (upd N i di2) i di2 Hw2 Hi) as [Hw3 Hk3]. destruct (wr_meta _ _ _ _ _ _ _ Hwr) as (Et & Ema & Emi & Enl & Es).
  assert (HN2 : upd N i di2 i = di2) by apply upd_eq.
  split.
  - done.
  - done.
  - pose proof (keeps_content v' (v_iupd v' i di2) (upd N i di2) i Hw2 Hi) as Hc. rewrite HN2 in Hc.
    rewrite Hc; [by apply wrote_content|cbn; congruence|]. rewrite <- HN2 at 2. apply Hk3; [done|]. rewrite HN2. cbn. congruence.
  - intros j Hj Htj Hne. eapply keeps_trans; [by apply (wr_others _ _ _ _ _ _ _ Hwr)|].
    specialize (Hk3 j Hj). rewrite upd_ne in Hk3 by done. auto.
  - intros j Hj. rewrite get_inode_iupd; [|apply Hw2|done..|]; [|rewrite <- HN2; by apply (fw_di _ _ _ _ Hw2)].
    destruct (Z.eqb_spec j i); [done|]. unfold get_inode. rewrite (wr_ib _ _ _ _ _ _ _ Hwr); [done|]. by apply (iblock_ib _ _ Hsb).
Qed.

(** Arguments that [writei] rejects. *)
Definition bad_range (sz off n : Z) : bool := (sz <? off) || (u32 (off + n) <? off) || (MAXFILE * BSIZE <? u32 (off + n)).

Lemma set_size_same di : set_size (di_size di) di = di.
Proof. by destruct di. Qed.

Lemma writei_ok s v N i L tab ip src bs off n : fx s v ∅ L tab -> fs_wf v N -> at_inode sb tab ip N i ->
  0 <= off < 2 ^ 32 -> 0 <= n < 2 ^ 32 -> n <= Z.of_nat (length bs) -> delivers src bs ->
  weight (N i) L + nblk off n + 3 < NBUF -> 1 <= te_out e ->
  returns (writei ip src off n s) (fun r s' =>
    if bad_range (di_size (N i)) off n then r = -1 /\ fx s' v ∅ L tab
    else exists v' di' L', fx s' v' ∅ L' (with_di tab ip di') /\ written v N i off (take (Z.to_nat r) bs) v' di' /\ 0 <= r <= n /\
      Z.of_nat (size (BM sb ∪ L')) <= Z.of_nat (size (BM sb ∪ L)) + nblk off n + 2 /\
      (0 < r < n -> (off + r) mod BSIZE = 0) /\ (r < n -> full sb v' /\ di_size (N i) < off + n \/ refuses src n)).
Proof.
  intros Hfx Hw Hai Ho Hn Hbs Hsrc Hwt Hout. unfold writei, bad_range. eapply fx_geti; [done|]. rewrite (ai_di _ _ _ _ _ Hai).
  destruct (Z.ltb_spec (di_size (N i)) off); cbn [orb]; [cbn; auto|].
  destruct (Z.ltb_spec (u32 (off + n)) off) as [|Hnw]; cbn [orb]; [cbn; auto|].
  assert (Hu : u32 (off + n) = off + n) by (by apply u32_nowrap).
  rewrite Hu. destruct (Z.ltb_spec (MAXFILE * BSIZE) (off + n)) as [|Hmax]; [cbn; auto|].
  assert (Hmod : 0 <= off mod BSIZE < BSIZE) by (by apply Z.mod_pos_bound).
  eapply bind_returns.
  { eapply (writei_loop_ok _ s v N i L tab ip src bs 0 off n); try done; rewrite ?Z.sub_0_r; try lia. unfold BSIZE in *. zlia. }
  intros [t o] s1 (v1 & di1 & L1 & F1 & Hwr & Htt & Hoo & Hww & Hbd & Hfl). cbn [fst snd] in *. rewrite Z.sub_0_r in *. subst o.
  assert (Hpc : piece bs 0 t = take (Z.to_nat t) bs) by (unfold piece; by rewrite Z.sub_0_r). rewrite Hpc in Hwr.
  assert (Hlt : Z.of_nat (length (take (Z.to_nat t) bs)) = t) by (rewrite length_take; lia).
  pose proof (wrote_written v N i off _ v1 di1 Hw (ai_ok _ _ _ _ _ Hai) (ai_type _ _ _ _ _ Hai) Hwr ltac:(lia) ltac:(lia)) as Hwn.
  pose proof (wrote_resize v N i off _ v1 di1 Hw (ai_ok _ _ _ _ _ Hai) (ai_type _ _ _ _ _ Hai) Hwr ltac:(lia) ltac:(lia)) as Hw2.
  rewrite Hlt in *. cbn zeta in Hwn. set (di2 := set_size (Z.max (di_size (N i)) (off + t)) di1) in *.
  destruct (wr_meta _ _ _ _ _ _ _ Hwr) as (Et & Ema & Emi & Enl & Es).
  assert (Hai2 : at_inode sb (with_di tab ip di2) ip (upd N i di2) i).
  { apply at_inode_with; [done|]. cbn. rewrite Et. apply Hai. }
  eapply (bind_returns _ _ _ (fun _ s2 => fx s2 v1 ∅ L1 (with_di tab ip di2))).
  { eapply fx_geti; [exact F1|]. replace (i_di (with_di tab ip di1 ip)) with di1 by (unfold with_di; by rewrite upd_eq).
    rewrite Es. destruct (Z.ltb_spec (di_size (N i)) (off + t)) as [Hbig|Hsm].
    - apply bind_last. eapply fx_seti; [exact F1|]. intros s2 F2. cbn. eapply fx_itab; [exact F2|]. intros j.
      unfold with_di. rewrite upd_eq. cbn. unfold upd. destruct (j =? ip); [|done]. unfold di2. by rewrite Z.max_r by lia.
    - cbn. eapply fx_itab; [exact F1|]. intros j. unfold di2. rewrite Z.max_l by lia. by rewrite <- Es, set_size_same. }
  intros _ s2 F2. pose proof (weight_ge di1 L1) as Hge. pose proof (size_le_BM sb L1) as HsL. pose proof (weight_le (N i) L) as Hle.
  eapply bind_returns; [eapply (iupdate_ok s2 v1 (upd N i di2)); try done; lia|]. intros [] s3 F3. cbn. rewrite upd_eq in F3.
  exists (v_iupd v1 i di2), di2, ({[IBLOCK i sb]} ∪ L1). pose proof (size_add (IBLOCK i sb) (BM sb ∪ L1)).
  replace (BM sb ∪ ({[IBLOCK i sb]} ∪ L1)) with ({[IBLOCK i sb]} ∪ (BM sb ∪ L1)) by (clear; set_solver). split_and!; try done; try lia.
  intros Hr. destruct (Hfl Hr) as [[Hf Hs]|]; [left|by right]. split; [|lia]. intros c Hc. unfold v_iupd. rewrite (used_upd_ib sb e Hsb); [by apply Hf|apply (iblock_ib _ _ Hsb), Hai|done].
Qed.
End Write.
