(* ===== verification/FsTable.v ===== *)
(** The inode table and the life of an inode: [iget], [ilock], [iunlock] and
    [iput], and what [itrunc] frees. *)
From S2P Require Import Prelude Bufcache Log LogClaims Txn FileLayer Fs FsBlocks FsInode FsData FsWrite.
Local Open Scope kern_scope.

(** An inode without content. *)
Definition empty_di (di : dinode) : dinode :=
  mk_di (di_type di) (di_major di) (di_minor di) (di_nlink di) 0 (replicate 13 0).

Lemma addr_empty di k : addr (empty_di di) k = 0.
Proof.
  unfold addr. cbn [di_addrs empty_di]. rewrite nth_lookup. destruct (_ !! _) eqn:E; [|done].
  by apply lookup_replicate in E as [-> _].
Qed.

Lemma slot_empty v di k : slot v (empty_di di) k = 0.
Proof. unfold slot. rewrite !addr_empty. by destruct (k <=? NDIRECT). Qed.

Section Table.
Context {BC : BufCache} (sb : superblock) (e : tenv).
Hypothesis Hsb : sb_ok sb e.
Let fs_wf := fs_wf sb e.
Let owns := owns sb.
Let fx := fx sb e.

(** ** Freeing blocks *)

(** From [v] to [v'] exactly the blocks in [P] have been freed. *)
Record freed (v v' : Z -> list Z) (P : Z -> Prop) : Prop := {
  fr_blocks : blocks e v';
  fr_same : forall c, ~ isbm sb c -> v' c = v c;
  fr_used : forall c, 0 <= c < sb_size sb -> used sb v' c = true <-> used sb v c = true /\ ~ P c
}.

Lemma freed_refl v : blocks e v -> freed v v (fun _ => False).
Proof. intros. split; naive_solver. Qed.

Lemma freed_ext v v' P Q : freed v v' P -> (forall c, 0 <= c < sb_size sb -> P c <-> Q c) -> freed v v' Q.
Proof. intros [] He. split; try done. intros c Hc. rewrite fr_used0, He by done. done. Qed.

Lemma freed_one v v' P b : freed v v' P -> 0 <= b < sb_size sb -> freed v (v_free sb v' b) (fun c => P c \/ c = b).
Proof.
  intros [Hb Hs Hu] Hr. split.
  - by apply (blocks_free sb e Hsb).
  - intros c Hc. unfold v_free. rewrite upd_ne; [auto|]. intros ->. apply Hc. by apply (bblock_bm _ _ Hsb).
  - intros c Hc. rewrite (used_free sb e Hsb) by done. destruct (Z.eqb_spec c b) as [->|Hne]; cbn.
    + naive_solver.
    + rewrite Hu by done. naive_solver.
Qed.

Lemma data_not_bm c : isdata sb c -> ~ isbm sb c.
Proof. unfold isdata, isbm. lia. Qed.
Lemma ib_not_bm c : isib sb c -> ~ isbm sb c.
Proof. unfold isib, isbm. lia. Qed.

(** Freeing blocks that no inode has. *)
Lemma wf_freed v v' N P : fs_wf v N -> freed v v' P -> (forall c, P c -> isdata sb c /\ forall j k, ~ owns v N j k c) -> fs_wf v' N.
Proof.
  intros Hw [Hb Hs Hu] HP.
  assert (Hsl : forall i k, inum_ok sb i -> di_type (N i) <> 0 -> slot v' (N i) k = slot v (N i) k).
  { intros i k Hi Ht. apply slot_keeps. eapply (keeps_outside sb e); [done..|]. intros a l Ho. apply Hs, data_not_bm.
    by apply (fw_own _ _ _ _ Hw i l). }
  assert (Ho : forall i k a, owns v' N i k a <-> owns v N i k a).
  { intros i k a. unfold owns, FsInode.owns. split; intros (Hi & Ht & Hk & He & Hne); split_and!; try done; try lia.
    - by rewrite <- Hsl.
    - by rewrite Hsl. }
  pose proof (so_data _ _ Hsb) as Hd. split.
  - done.
  - intros c Hc. apply Hu; [lia|]. split; [by apply (fw_meta _ _ _ _ Hw)|]. intros Hp. apply HP in Hp as [Hp _]. unfold isdata in Hp. lia.
  - apply Hw.
  - intros i k a Hx. apply Ho in Hx. destruct (fw_own _ _ _ _ Hw i k a Hx) as [Hda Hua]. split; [done|].
    apply Hu; [by apply (isdata_lt sb e Hsb)|]. split; [done|]. intros Hp. apply HP in Hp as [_ Hp]. by apply Hp in Hx.
  - intros i k j l a Hx Hy. apply Ho in Hx, Hy. by eapply (fw_inj _ _ _ _ Hw).
  - intros i Hi Ht. destruct (fw_size _ _ _ _ Hw i Hi Ht) as [Hs1 Hs2]. split; [done|]. intros n Hn Hlt. unfold blk. rewrite Hsl by done.
    by apply Hs2.
Qed.

Lemma di_ok_empty di : di_ok di -> di_ok (empty_di di).
Proof. intros []. split; cbn; try done. repeat constructor; lia. Qed.

(** The invariant once inode [i] has given up its blocks. *)
Lemma wf_drop v N i : fs_wf v N -> inum_ok sb i -> fs_wf v (upd N i (empty_di (N i))).
Proof.
  intros Hw Hi.
  assert (Ho : forall j k a, owns v (upd N i (empty_di (N i))) j k a -> owns v N j k a /\ j <> i).
  { intros j k a (Hj & Ht & Hk & He & Hne). unfold upd in *. destruct (Z.eqb_spec j i) as [->|]; [|done].
    by rewrite slot_empty in He. }
  split.
  - apply Hw.
  - apply Hw.
  - intros j Hj. unfold upd. destruct (Z.eqb_spec j i) as [->|]; [by apply di_ok_empty, (fw_di _ _ _ _ Hw)|by apply (fw_di _ _ _ _ Hw)].
  - intros j k a Hx. apply Ho in Hx as [Hx _]. by apply (fw_own _ _ _ _ Hw j k).
  - intros j k j' k' a Hx Hy. apply Ho in Hx as [Hx _], Hy as [Hy _]. by eapply (fw_inj _ _ _ _ Hw).
  - intros j Hj. unfold upd. destruct (Z.eqb_spec j i) as [->|]; [|by apply (fw_size _ _ _ _ Hw)]. intros _. cbn. split; [done|]. unfold BSIZE. lia.
Qed.

(** ** [itrunc] *)

(** The inode with its first [k] direct addresses cleared. *)
Definition cleared (di : dinode) (k : Z) : dinode :=
  mk_di (di_type di) (di_major di) (di_minor di) (di_nlink di) (di_size di)
    ((fun j => if j <? k then 0 else addr di j) <$> seqZ 0 13).

Lemma addr_cleared di k j : 0 <= j < 13 -> addr (cleared di k) j = if j <? k then 0 else addr di j.
Proof.
  intros Hj. unfold addr at 1. cbn [cleared di_addrs]. rewrite nth_lookup, list_lookup_fmap, lookup_seqZ_lt by lia.
  cbn [fmap option_fmap option_map default from_option]. by rewrite Z.add_0_l, Z2Nat.id by lia.
Qed.

Lemma list_13 (l l' : list Z) : length l = 13%nat -> length l' = 13%nat -> (forall j, 0 <= j < 13 -> nth (Z.to_nat j) l 0 = nth (Z.to_nat j) l' 0) -> l = l'.
Proof.
  intros Hl Hl' He. apply nth_ext with 0 0; [lia|]. intros n Hn. rewrite <- (Nat2Z.id n). apply He. lia.
Qed.

Lemma cleared_0 di : length (di_addrs di) = 13%nat -> cleared di 0 = di.
Proof.
  intros Hl. destruct di as [t ma mi nl sz ad]. unfold cleared. cbn in *. f_equal. apply list_13; [by rewrite length_fmap|done|].
  intros j Hj. rewrite nth_lookup, list_lookup_fmap, lookup_seqZ_lt by lia. cbn [fmap option_fmap option_map default from_option].
  rewrite Z.add_0_l, Z2Nat.id by lia. by destruct (Z.ltb_spec j 0); [lia|].
Qed.

Lemma cleared_step di k : 0 <= k < 13 -> set_addr k 0 (cleared di k) = cleared di (k + 1).
Proof.
  intros Hk. unfold set_addr, cleared. cbn [di_type di_major di_minor di_nlink di_size di_addrs]. f_equal.
  apply list_13; [by rewrite length_insert, length_fmap|by rewrite length_fmap|]. intros j Hj.
  rewrite nth_insert by (rewrite length_fmap, length_seqZ; lia). rewrite !nth_lookup, !list_lookup_fmap, lookup_seqZ_lt by lia.
  cbn [fmap option_fmap option_map default from_option]. rewrite Z.add_0_l, Z2Nat.id by lia.
  case_decide; destruct (Z.ltb_spec j k), (Z.ltb_spec j (k + 1)); (done || lia).
Qed.

Lemma cleared_skip di k : 0 <= k < 13 -> addr di k = 0 -> cleared di k = cleared di (k + 1).
Proof.
  intros Hk H0. unfold cleared. f_equal. apply list_fmap_ext. intros n j Hj. bool_to_prop; try lia; try done.
  by replace j with k by lia.
Qed.

Lemma cleared_all di : set_size 0 (cleared di 13) = empty_di di.
Proof.
  unfold set_size, cleared, empty_di. cbn [di_type di_major di_minor di_nlink di_size di_addrs]. f_equal.
Qed.

(** The blocks in the slots [S] of an inode. *)
Definition in_slots (v : Z -> list Z) (di : dinode) (S : Z -> Prop) (c : Z) : Prop :=
  exists m, S m /\ 0 <= m < NSLOT /\ slot v di m = c /\ c <> 0.

(** The progress of [itrunc]: the blocks in the slots [S] are free, and only
    bitmap blocks have been logged. *)
Definition trunc (v : Z -> list Z) (N : Z -> dinode) (i : Z) (L : gset Z) (S : Z -> Prop) (H : gmap Z Z) (tab : Z -> inode) (s : fsys) : Prop :=
  exists v' L', fx s v' H L' tab /\ freed v v' (in_slots v (N i) S) /\ L' ⊆ BM sb ∪ L /\ L ⊆ L'.

Lemma trunc_ext v N i L S S' H tab s : trunc v N i L S H tab s -> (forall m, 0 <= m < NSLOT -> slot v (N i) m <> 0 -> S m <-> S' m) -> trunc v N i L S' H tab s.
Proof.
  intros (v' & L' & Hf & Hfr & HL & HL0) He. exists v', L'. split_and!; try done. eapply freed_ext; [done|]. intros c _. unfold in_slots.
  split; intros (m & Hm & Hr & Hs & Hc); exists m; (split; [by apply (He m Hr ltac:(congruence))|done]).
Qed.

Lemma trunc_tab v N i L S H tab tab' s : trunc v N i L S H tab s -> (forall j, tab j = tab' j) -> trunc v N i L S H tab' s.
Proof. intros (v' & L' & Hf & Hfr & HL & HL0) He. exists v', L'. split_and!; try done. by eapply fx_itab. Qed.

(** Freeing the block in one more slot. *)
Lemma free_slot s v N i L S H tab m : trunc v N i L S H tab s -> fs_wf v N -> inum_ok sb i -> di_type (N i) <> 0 ->
  (forall c, isbm sb c -> H !! c = None) -> ~ S m -> 0 <= m < NSLOT -> slot v (N i) m <> 0 ->
  Z.of_nat (size (BM sb ∪ L) + size H) < NBUF -> 1 <= te_out e ->
  returns (bfree ROOTDEV (slot v (N i) m) s) (fun _ => trunc v N i L (fun x => S x \/ x = m) H tab).
Proof.
  intros (v' & L' & Hf & Hfr & HL & HL0) Hw Hi Ht HH HS Hm Hs Hsz Hout. set (b := slot v (N i) m) in *.
  assert (Ho : owns v N i m b) by done. destruct (fw_own _ _ _ _ Hw _ _ _ Ho) as [Hd Hu]. pose proof (isdata_lt sb e Hsb _ Hd) as Hlt.
  assert (Hu' : used sb v' b = true).
  { apply (fr_used _ _ _ Hfr b Hlt). split; [done|]. intros (x & Hx & Hxr & Hxs & _).
    destruct (fw_inj _ _ _ _ Hw i x i m b) as [_ ->]; [|done..]. done. }
  pose proof (subseteq_size L' (BM sb ∪ L) HL).
  eapply returns_mono; [eapply (bfree_ok sb e Hsb); [exact Hf|apply Hfr|done..|lia|done]|]. intros [] s' F1.
  eexists _, _. split; [exact F1|]. split.
  - eapply freed_ext; [by apply freed_one|]. intros c Hc. unfold in_slots. split.
    + intros [(x & Hx & ?)| ->]; [exists x; by split; [left|]|]. exists m. split; [by right|done].
    + intros (x & [Hx|Hx] & Hr & Hxs & Hc0); [left; by exists x|]. right. subst x. by rewrite <- Hxs.
  - pose proof (bblock_BM sb e Hsb b Hlt) as HB. clear -HL HL0 HB. set_solver.
Qed.

(** The loop over the direct blocks. *)
Lemma itrunc_direct s v N i L tab ip : fx s v ∅ L tab -> fs_wf v N -> at_inode sb tab ip N i ->
  Z.of_nat (size (BM sb ∪ L)) < NBUF -> 1 <= te_out e ->
  returns (for_loop (Z.to_nat NDIRECT) 0 (fun k =>
    do n <- geti ip;
    if negb (addr (i_di n) k =? 0) then
      bfree (i_dev n) (addr (i_di n) k) ;;; seti ip (fun n => set_di (set_addr k 0 (i_di n)) n)
    else ret tt) s)
  (fun _ => trunc v N i L (fun m => m < NDIRECT) ∅ (with_di tab ip (cleared (N i) NDIRECT))).
Proof.
  intros Hfx Hw Hai Hsz Hout. pose proof (do_len _ (fw_di _ _ _ _ Hw i (ai_ok _ _ _ _ _ Hai))) as Hlen.
  eapply returns_mono; [apply (for_loop_returns (fun k => trunc v N i L (fun m => m < k) ∅ (with_di tab ip (cleared (N i) k))))|].
  3: { intros [] s' Hs'. exact Hs'. }
  - exists v, L. rewrite cleared_0 by done. split_and!; [eapply fx_itab; [exact Hfx|by eapply with_di_same]| |set_solver|done].
    eapply freed_ext; [apply freed_refl, Hw|]. intros c _. split; [done|]. intros (m & ? & ? & _). lia.
  - intros k s1 Hk (v1 & L1 & F1 & Hfr & HL1 & HL10). change NDIRECT with 12 in *.
    assert (Hwd : with_di tab ip (cleared (N i) k) ip = set_di (cleared (N i) k) (tab ip)) by apply upd_eq.
    eapply fx_geti; [exact F1|]. rewrite Hwd. cbn [i_di i_dev set_di]. rewrite addr_cleared by lia.
    destruct (Z.ltb_spec k k); [lia|]. rewrite (ai_dev _ _ _ _ _ Hai).
    assert (Hsk : slot v (N i) k = addr (N i) k) by (unfold slot; destruct (Z.leb_spec k NDIRECT); [done|change NDIRECT with 12 in *; lia]).
    destruct (Z.eqb_spec (addr (N i) k) 0) as [H0|H0]; cbn [negb].
    + cbn. eapply trunc_ext; [|]. { rewrite <- cleared_skip by (done || lia). exists v1, L1. split_and!; [exact F1|exact Hfr|done..]. }
      intros m Hm Hms. split; [lia|]. intros. destruct (Z.eq_dec m k) as [->|]; [congruence|lia].
    + eapply bind_returns.
      { rewrite <- Hsk. eapply (free_slot s1 v N i L (fun m => m < k)); [by exists v1, L1|done|apply Hai|apply Hai|done|lia| |by rewrite Hsk|rewrite map_size_empty; lia|done].
        unfold NSLOT. change NDIRECT with 12. change NINDIRECT with 256. lia. }
      intros [] s2 (v2 & L2 & F2 & Hfr2 & HL2 & HL20). apply bind_last. eapply fx_seti; [exact F2|]. intros s3 F3. cbn.
      eapply trunc_ext; [|]. { exists v2, L2. split_and!; [|exact Hfr2|done..]. eapply fx_itab; [exact F3|]. intros j.
        rewrite Hwd. cbn [i_di set_di]. rewrite cleared_step by lia. unfold with_di, upd. by destruct (j =? ip). }
      intros m Hm Hms. cbn. lia.
Qed.

(** The indirect block: its entries, then the block itself. *)
Definition trunc_indirect (ip : Z) (n : inode) : M fsys unit :=
  if negb (addr (i_di n) NDIRECT =? 0) then
    do bp <- fbread (i_dev n) (addr (i_di n) NDIRECT);
    do d <- fdata bp;
    for_loop (Z.to_nat NINDIRECT) 0 (fun j => if negb (entry d j =? 0) then bfree (i_dev n) (entry d j) else ret tt) ;;;
    fbrelse bp ;;;
    bfree (i_dev n) (addr (i_di n) NDIRECT) ;;;
    seti ip (fun n => set_di (set_addr NDIRECT 0 (i_di n)) n)
  else ret tt.

Lemma slot_entry v di j : addr di NDIRECT <> 0 -> 0 <= j -> slot v di (NDIRECT + 1 + j) = entry (v (addr di NDIRECT)) j.
Proof.
  intros Ha Hj. unfold slot. destruct (Z.leb_spec (NDIRECT + 1 + j) NDIRECT); [lia|]. destruct (Z.eqb_spec (addr di NDIRECT) 0); [done|].
  f_equal. lia.
Qed.

Lemma itrunc_indirect s v N i L tab ip : trunc v N i L (fun m => m < NDIRECT) ∅ (with_di tab ip (cleared (N i) NDIRECT)) s ->
  fs_wf v N -> at_inode sb tab ip N i -> Z.of_nat (size (BM sb ∪ L)) + 2 < NBUF -> 1 <= te_out e ->
  returns (trunc_indirect ip (with_di tab ip (cleared (N i) NDIRECT) ip) s)
    (fun _ => trunc v N i L (fun _ => True) ∅ (with_di tab ip (cleared (N i) 13))).
Proof.
  intros (v1 & L1 & F1 & Hfr & HL1 & HL10) Hw Hai Hsz Hout.
  assert (Hwd : with_di tab ip (cleared (N i) NDIRECT) ip = set_di (cleared (N i) NDIRECT) (tab ip)) by apply upd_eq.
  unfold trunc_indirect. rewrite Hwd. cbn [i_di i_dev set_di]. rewrite addr_cleared by (change NDIRECT with 12; lia). rewrite Z.ltb_irrefl.
  rewrite (ai_dev _ _ _ _ _ Hai). destruct (Z.eqb_spec (addr (N i) NDIRECT) 0) as [H0|H0]; cbn [negb].
  { cbn. eapply trunc_ext; [|].
    { change 13 with (NDIRECT + 1). rewrite <- cleared_skip by (done || change NDIRECT with 12; lia). exists v1, L1. split_and!; [exact F1|exact Hfr|done..]. }
    intros m Hm Hms. split; [done|]. intros _. unfold slot in Hms. rewrite H0 in Hms. destruct (Z.leb_spec m NDIRECT); [|done].
    destruct (Z.eq_dec m NDIRECT) as [->|]; [done|lia]. }
  set (ind := addr (N i) NDIRECT) in *. pose proof (owns_ind sb v N i (ai_ok _ _ _ _ _ Hai) (ai_type _ _ _ _ _ Hai) H0) as Ho. fold ind in Ho.
  destruct (fw_own _ _ _ _ Hw _ _ _ Ho) as [Hd _]. pose proof (data_home _ _ Hsb _ Hd) as Hhm.
  pose proof (subseteq_size L1 (BM sb ∪ L) HL1) as HsL1.
  pose proof (fx_clean _ _ _ _ _ _ _ F1 _ Hhm (lookup_empty _)) as Hcl.
  eapply (fx_bread _ _ _ _ _ _ _ _ F1 ind); [done|apply lookup_empty|rewrite map_size_empty; lia|]. intros h s2 F2.
  eapply (fx_data _ _ _ _ _ _ _ _ F2 ind); [apply lookup_insert_eq|done|].
  rewrite (fr_same _ _ _ Hfr ind (data_not_bm _ Hd)). change (<[ind := h]> ∅) with ({[ind := h]} : gmap Z Z) in *.
  assert (HHb : forall c, isbm sb c -> ({[ind := h]} : gmap Z Z) !! c = None).
  { intros c Hc. apply lookup_singleton_ne. intros <-. by apply data_not_bm in Hd. }
  set (tab1 := with_di tab ip (cleared (N i) NDIRECT)) in *.
  eapply bind_returns.
  { apply (for_loop_returns (fun j => trunc v N i L (fun m => m < NDIRECT \/ NDIRECT + 1 <= m < NDIRECT + 1 + j) {[ind := h]} tab1)).
    - eapply trunc_ext; [exists v1, L1; split_and!; [exact F2|exact Hfr|done..]|]. intros m Hm Hms. cbn. lia.
    - intros j s3 Hj Htr. change (Z.of_nat (Z.to_nat NINDIRECT)) with NINDIRECT in Hj.
      pose proof (slot_entry v (N i) j H0 ltac:(lia)) as Hse. fold ind in Hse. rewrite <- Hse.
      destruct (Z.eqb_spec (slot v (N i) (NDIRECT + 1 + j)) 0) as [E|E]; cbn [negb].
      + cbn. eapply trunc_ext; [exact Htr|]. intros m Hm Hms. destruct (Z.eq_dec m (NDIRECT + 1 + j)) as [->|]; [done|]. cbn. lia.
      + eapply returns_mono; [eapply (free_slot s3 v N i L); [exact Htr|done|apply Hai|apply Hai|done|cbn; lia|unfold NSLOT; change NDIRECT with 12; lia|done|rewrite map_size_singleton; lia|done]|].
        intros [] s4 Ht4. eapply trunc_ext; [exact Ht4|]. intros m Hm Hms. cbn. lia. }
  intros [] s3 (v3 & L3 & F3 & Hfr3 & HL3 & HL30). change (0 + Z.of_nat (Z.to_nat NINDIRECT)) with NINDIRECT in Hfr3.
  assert (Hcl3 : ind ∈ L3 \/ v3 ind = te_disk e ind).
  { rewrite (fr_same _ _ _ Hfr3 ind (data_not_bm _ Hd)). rewrite <- (fr_same _ _ _ Hfr ind (data_not_bm _ Hd)).
    destruct Hcl as [Hin|]; [left|by right]. apply HL30. specialize (HL1 _ Hin). apply elem_of_union in HL1 as [HB|]; [|done].
    apply elem_of_list_to_set, elem_of_seqZ in HB. unfold isdata, dstart in Hd. lia. }
  eapply (fx_brelse _ _ _ _ _ _ _ _ F3 ind); [apply lookup_singleton_eq|done|done|]. intros s4 F4. rewrite delete_singleton_eq in F4.
  eapply bind_returns.
  { rewrite <- (slot_ind v (N i) : _ = ind). eapply (free_slot s4 v N i L); [by exists v3, L3|done|apply Hai|apply Hai|done| | |by rewrite slot_ind|rewrite map_size_empty; lia|done].
    - cbn. lia.
    - unfold NSLOT. change NDIRECT with 12. change NINDIRECT with 256. lia. }
  intros [] s5 (v5 & L5 & F5 & Hfr5 & HL5 & HL50). apply bind_last. eapply fx_seti; [exact F5|]. intros s6 F6. cbn.
  eapply trunc_ext; [exists v5, L5; split_and!; [|exact Hfr5|done..]|].
  - eapply fx_itab; [exact F6|]. intros j. rewrite Hwd. cbn [i_di set_di]. rewrite cleared_step by (change NDIRECT with 12; lia).
    unfold tab1, with_di, upd. by destruct (j =? ip).
  - intros m Hm Hms. unfold NSLOT in Hm. cbn. lia.
Qed.

Lemma itrunc_eq ip : itrunc ip =
  (for_loop (Z.to_nat NDIRECT) 0 (fun i =>
     do n <- geti ip;
     if negb (addr (i_di n) i =? 0) then
       bfree (i_dev n) (addr (i_di n) i) ;;; seti ip (fun n => set_di (set_addr i 0 (i_di n)) n)
     else ret tt) ;;;
   do n <- geti ip;
   trunc_indirect ip n ;;;
   seti ip (fun n => set_di (set_size 0 (i_di n)) n) ;;;
   iupdate ip).
Proof. reflexivity. Qed.

(** Inode [i] has been emptied: its blocks, and only they, are free. *)
Record truncated (v : Z -> list Z) (N : Z -> dinode) (i : Z) (v' : Z -> list Z) : Prop := {
  tr_wf : fs_wf v' (upd N i (empty_di (N i)));
  tr_used : forall c, 0 <= c < sb_size sb -> used sb v' c = true <-> used sb v c = true /\ ~ exists k, owns v N i k c;
  tr_others : forall j, inum_ok sb j -> di_type (N j) <> 0 -> j <> i -> keeps v v' (N j);
  tr_disk : forall j, inum_ok sb j -> get_inode sb v' j = if j =? i then empty_di (N i) else get_inode sb v j
}.

Lemma itrunc_ok s v N i L tab ip : fx s v ∅ L tab -> fs_wf v N -> at_inode sb tab ip N i ->
  Z.of_nat (size (BM sb ∪ L)) + 2 < NBUF -> 1 <= te_out e ->
  returns (itrunc ip s) (fun _ s' => exists v' L', fx s' v' ∅ L' (with_di tab ip (empty_di (N i))) /\
    truncated v N i v' /\ L' ⊆ {[IBLOCK i sb]} ∪ (BM sb ∪ L)).
Proof.
  intros Hfx Hw Hai Hsz Hout. pose proof (ai_ok _ _ _ _ _ Hai) as Hi. pose proof (ai_type _ _ _ _ _ Hai) as Ht. rewrite itrunc_eq.
  eapply bind_returns; [by apply (itrunc_direct s v N i L tab); try done; lia|]. intros [] s1 Htr. pose proof Htr as (v1 & L1 & F1 & _).
  eapply fx_geti; [exact F1|]. eapply bind_returns; [by apply (itrunc_indirect s1 v N i L tab)|].
  intros [] s2 (v2 & L2 & F2 & Hfr & HL2 & _). eapply fx_seti; [exact F2|]. intros s3 F3.
  set (di0 := empty_di (N i)). set (N0 := upd N i di0).
  assert (HP : forall c, in_slots v (N i) (fun _ => True) c <-> exists k, owns v N i k c).
  { intros c. unfold in_slots, owns, FsInode.owns. split; [intros (k & _ & ? & ? & ?)|intros (k & ? & ? & ? & ? & ?)]; by exists k. }
  assert (Hw0 : fs_wf v N0) by by apply wf_drop.
  assert (Hw2 : fs_wf v2 N0).
  { eapply wf_freed; [exact Hw0|exact Hfr|]. intros c Hc. apply HP in Hc as [k Hk]. split; [by apply (fw_own _ _ _ _ Hw i k)|].
    intros j l (Hj & Htj & Hl & He & Hne). unfold N0, upd in *. destruct (Z.eqb_spec j i) as [->|Hji]; [unfold di0 in He; by rewrite slot_empty in He|].
    destruct (fw_inj _ _ _ _ Hw i k j l c) as [? _]; done. }
  assert (F3' : fx s3 v2 ∅ L2 (with_di tab ip di0)).
  { eapply fx_itab; [exact F3|]. intros j. unfold with_di. rewrite upd_eq. cbn [i_di set_di]. rewrite cleared_all.
    unfold upd. by destruct (j =? ip). }
  assert (Hai0 : at_inode sb (with_di tab ip di0) ip N0 i) by by apply at_inode_with.
  pose proof (subseteq_size L2 (BM sb ∪ L) HL2).
  eapply returns_mono; [eapply (iupdate_ok sb e Hsb s3 v2 N0 i L2); [done..|lia|done]|]. intros [] s4 F4.
  eexists _, _. split; [exact F4|]. split; [|clear -HL2; set_solver]. unfold N0 in F4. rewrite upd_eq in F4.
  assert (HN0 : N0 i = di0) by apply upd_eq. rewrite HN0. destruct (wf_iupd sb e Hsb v2 N0 i di0 Hw2 Hi) as [Hw3 Hk3]. split.
  - done.
  - intros c Hc. unfold v_iupd. rewrite (used_upd_ib sb e Hsb); [|by apply (iblock_ib _ _ Hsb)|done].
    rewrite (fr_used _ _ _ Hfr c Hc). by rewrite HP.
  - intros j Hj Htj Hne. eapply keeps_trans; [|specialize (Hk3 j Hj); unfold N0 in Hk3; rewrite upd_ne in Hk3 by done; by apply Hk3].
    eapply (keeps_outside sb e); [done..|]. intros a k Ho. apply (fr_same _ _ _ Hfr), data_not_bm. by apply (fw_own _ _ _ _ Hw j k).
  - intros j Hj. rewrite (get_inode_iupd sb e Hsb); [|apply Hw2|done..|by apply di_ok_empty, (fw_di _ _ _ _ Hw)].
    destruct (Z.eqb_spec j i); [done|]. unfold get_inode. rewrite (fr_same _ _ _ Hfr); [done|]. by apply ib_not_bm, (iblock_ib _ _ Hsb).
Qed.

(** ** The inode table *)

(** The table between calls: an entry in use is an inode of the disk, no two
    entries are the same one, and what has been read is current. *)
Record itab_ok (tab : Z -> inode) (N : Z -> dinode) : Prop := {
  it_ref : forall h, 0 <= h < NINODE -> 0 <= i_ref (tab h);
  it_dev : forall h, 0 <= h < NINODE -> 0 < i_ref (tab h) -> i_dev (tab h) = ROOTDEV /\ inum_ok sb (i_inum (tab h));
  it_inj : forall h h', 0 <= h < NINODE -> 0 <= h' < NINODE -> 0 < i_ref (tab h) -> 0 < i_ref (tab h') ->
    i_inum (tab h) = i_inum (tab h') -> h = h';
  it_valid : forall h, 0 <= h < NINODE -> 0 < i_ref (tab h) -> i_valid (tab h) = true -> i_di (tab h) = N (i_inum (tab h));
  it_free : forall h, 0 <= h < NINODE -> i_ref (tab h) = 0 -> i_lock (tab h) = false
}.

(** Handle [ip] refers to inode [i] and is not locked. *)
Record open_inode (tab : Z -> inode) (ip i : Z) : Prop := {
  op_range : 0 <= ip < NINODE;
  op_inum : i_inum (tab ip) = i;
  op_ref : 1 <= i_ref (tab ip);
  op_lock : i_lock (tab ip) = false
}.

(** An entry that is locked and has been read. *)
Definition locked (ip_ref i : Z) (di : dinode) : inode := mk_inode ROOTDEV i ip_ref true true di.

Lemma ilock_ok s v N i L tab ip : fx s v ∅ L tab -> blocks e v -> itab_ok tab N -> open_inode tab ip i ->
  get_inode sb v i = N i -> di_type (N i) <> 0 -> Z.of_nat (size L) < NBUF ->
  returns (ilock ip s) (fun _ s' => fx s' v ∅ L (upd tab ip (locked (i_ref (tab ip)) i (N i)))).
Proof.
  intros Hfx Hbl Hit [Hr Hi Href Hlk] Hg Ht Hsz. destruct (it_dev _ _ Hit ip Hr ltac:(lia)) as [Hdev Hio]. rewrite Hi in Hio.
  unfold ilock. eapply fx_geti; [done|]. destruct (Z.ltb_spec (i_ref (tab ip)) 1); [lia|]. rewrite Hlk.
  eapply fx_seti; [done|]. intros s1 F1. destruct (i_valid (tab ip)) eqn:Hv; cbn [negb].
  - cbn. eapply fx_itab; [exact F1|]. intros j. unfold upd. destruct (j =? ip); [|done].
    pose proof (it_valid _ _ Hit ip Hr ltac:(lia) Hv) as Hd. destruct (tab ip). cbn in *. subst. done.
  - eapply fx_getsb; [done|]. rewrite Hdev, Hi. destruct (iblock_ib _ _ Hsb i Hio) as [Hib _]. pose proof (ib_home _ _ Hsb _ Hib) as Hhm.
    pose proof (fx_clean _ _ _ _ _ _ _ F1 _ Hhm (lookup_empty _)) as Hcl.
    eapply (fx_bread _ _ _ _ _ _ _ _ F1); [done|apply lookup_empty|rewrite map_size_empty; lia|]. intros h s2 F2.
    eapply (fx_data _ _ _ _ _ _ _ _ F2); [apply lookup_insert_eq|done|]. fold (get_inode sb v i). rewrite Hg.
    eapply fx_seti; [exact F2|]. intros s3 F3.
    eapply (fx_brelse _ _ _ _ _ _ _ _ F3); [apply lookup_insert_eq|done..|]. intros s4 F4. rewrite delete_insert_eq, delete_empty in F4.
    eapply fx_seti; [exact F4|]. intros s5 F5. destruct (Z.eqb_spec (di_type (N i)) 0); [done|]. cbn.
    eapply fx_itab; [exact F5|]. intros j. rewrite !upd_eq. unfold upd. destruct (j =? ip); [|done].
    destruct (tab ip). cbn in *. subst. done.
Qed.

Lemma iunlock_ok s v H L tab ip : fx s v H L tab -> i_lock (tab ip) = true -> 1 <= i_ref (tab ip) ->
  returns (iunlock ip s) (fun _ s' => fx s' v H L (upd tab ip (set_ilock false (tab ip)))).
Proof.
  intros Hfx Hl Hr. unfold iunlock. eapply fx_geti; [done|]. rewrite Hl. destruct (Z.ltb_spec (i_ref (tab ip)) 1); [lia|]. cbn [negb orb].
  apply bind_last. eapply fx_seti; [done|]. done.
Qed.
End Table.
