(* ===== verification/FsTx.v ===== *)
(** A write to a file as a transaction: [begin_op], [ilock], [writei],
    [iunlock], [end_op] in the states between system calls, and what a crash
    during the commit leaves of every file. *)
From S2P Require Import Prelude Bufcache Log LogClaims Txn FileLayer Fs FsBlocks FsInode FsData FsWrite FsTable.
Local Open Scope kern_scope.

Section Tx.
Context {BC : BufCache} (sb : superblock).

(** Only the start of the log matters to the layout. *)
Lemma sb_ok_env e e' : te_start e = te_start e' -> sb_ok sb e -> sb_ok sb e'.
Proof. intros He []. split; try done. congruence. Qed.

Lemma fs_wf_env e e' v N : te_start e = te_start e' -> fs_wf sb e v N -> fs_wf sb e' v N.
Proof. intros He []. split; try done. intros b. rewrite <- He. apply fw_blocks. Qed.

(** The file system between system calls. *)
Record fs_rest (e : tenv) (s : fsys) (v : Z -> list Z) (N : Z -> dinode) (tab : Z -> inode) : Prop := {
  rs_fx : fx sb e s v ∅ ∅ tab;
  rs_out : te_out e = 0;
  rs_disk : forall b, home (te_start e) b -> te_disk e b = v b;
  rs_sb : sb_ok sb e;
  rs_wf : fs_wf sb e v N;
  rs_nodes : forall i, inum_ok sb i -> get_inode sb v i = N i;
  rs_tab : itab_ok sb tab N;
  rs_bm : sb_size sb / BPB <= 3
}.

Lemma size_BM e : sb_ok sb e -> sb_size sb / BPB <= 3 -> (size (BM sb) <= 4)%nat.
Proof.
  intros Hsb Hbm. unfold BM. rewrite size_list_to_set by apply NoDup_seqZ. rewrite length_seqZ. lia.
Qed.

Lemma begin_ok e s v N tab : fs_rest e s v N tab -> returns (fbegin_op s) (fun _ s' => fx sb (begun e) s' v ∅ ∅ tab).
Proof.
  intros Hr. destruct (rs_fx _ _ _ _ _ Hr) as [Ht Hs Htb]. unfold fbegin_op.
  eapply (lg_bind _ _ _ (fun ok l => ok = true /\ txn (begun e) l v ∅ ∅)).
  - apply txn_begin; [done|]. rewrite (rs_out _ _ _ _ _ Hr). done.
  - intros a l [-> Ht']. cbn. by split.
Qed.

(** ** The inode table after a write *)

Lemma itab_ok_node tab N ip i di lk : itab_ok sb tab N -> 0 <= ip < NINODE -> i_inum (tab ip) = i -> 1 <= i_ref (tab ip) ->
  itab_ok sb (upd tab ip (mk_inode ROOTDEV i (i_ref (tab ip)) lk true di)) (upd N i di).
Proof.
  intros Hit Hr Hi Href. set (tab' := upd tab ip _).
  assert (Href' : forall h, i_ref (tab' h) = i_ref (tab h)) by (intros h; unfold tab', upd; by destruct (Z.eqb_spec h ip) as [->|]).
  assert (Hin' : forall h, i_inum (tab' h) = i_inum (tab h)) by (intros h; unfold tab', upd; by destruct (Z.eqb_spec h ip) as [->|]).
  destruct Hit. split.
  - intros h Hh. rewrite Href'. auto.
  - intros h Hh Hp. rewrite Href' in Hp. rewrite Hin'. split; [|by apply it_dev]. unfold tab', upd.
    destruct (Z.eqb_spec h ip); [done|by apply it_dev].
  - intros h h' Hh Hh' Hp Hp'. rewrite Href' in Hp, Hp'. rewrite !Hin'. auto.
  - intros h Hh Hp Hv. rewrite Href' in Hp. rewrite Hin'. unfold tab', upd in *. destruct (Z.eqb_spec h ip) as [->|Hne].
    + rewrite Hi, Z.eqb_refl. done.
    + destruct (Z.eqb_spec (i_inum (tab h)) i) as [He|]; [|auto]. exfalso. apply Hne. apply it_inj; try done; [lia|congruence].
  - intros h Hh Hz. rewrite Href' in Hz. unfold tab', upd. destruct (Z.eqb_spec h ip) as [->|]; [lia|auto].
Qed.

Lemma itab_ok_set e tab N ip i di lk : sb_ok sb e -> itab_ok sb tab N -> open_inode tab ip i ->
  itab_ok sb (upd tab ip (mk_inode ROOTDEV i (i_ref (tab ip)) lk true di)) (upd N i di).
Proof. intros _ Hit []. by apply itab_ok_node. Qed.

(** ** Lock, write, unlock *)

Definition unlocked (r i : Z) (di : dinode) : inode := mk_inode ROOTDEV i r false true di.

Lemma lock_rest e s v N tab ip i : fs_rest e s v N tab -> open_inode tab ip i -> di_type (N i) <> 0 ->
  returns ((fbegin_op ;;; ilock ip) s) (fun _ s' => fx sb (begun e) s' v ∅ ∅ (upd tab ip (locked (i_ref (tab ip)) i (N i)))) /\
  inum_ok sb i /\ at_inode sb (upd tab ip (locked (i_ref (tab ip)) i (N i))) ip N i.
Proof.
  intros Hr Hop Ht. destruct (it_dev _ _ _ (rs_tab _ _ _ _ _ Hr) ip (op_range _ _ _ Hop)) as [_ Hio]; [pose proof (op_ref _ _ _ Hop); lia|].
  rewrite (op_inum _ _ _ Hop) in Hio. split_and!; [|done|split; rewrite ?upd_eq; done].
  eapply bind_returns; [by eapply begin_ok|]. intros [] s1 F1.
  eapply (ilock_ok sb (begun e)); try done.
  - eapply sb_ok_env; [|apply Hr]. done.
  - intros b Hb. by apply (fw_blocks _ _ _ _ (rs_wf _ _ _ _ _ Hr)).
  - apply Hr.
  - by apply (rs_nodes _ _ _ _ _ Hr).
Qed.

(** What a system call wants to know of the disk contents [x] after a crash. *)
Definition files_as (x v : Z -> list Z) (N : Z -> dinode) : Prop := forall j, inum_ok sb j ->
  get_inode sb x j = N j /\ (di_type (N j) <> 0 -> fcontent x (N j) = fcontent v (N j)).

Lemma files_as_home e x v N : sb_ok sb e -> fs_wf sb e v N -> (forall i, inum_ok sb i -> get_inode sb v i = N i) ->
  (forall b, home (te_start e) b -> x b = v b) -> files_as x v N.
Proof.
  intros Hsb Hw Hn Hx j Hj. split.
  - unfold get_inode. rewrite Hx; [by apply Hn|]. by apply (ib_home _ _ Hsb), (iblock_ib _ _ Hsb).
  - intros Ht. eapply (keeps_content sb e); [done..|]. intros k Hk Hs. apply Hx, (data_home _ _ Hsb).
    by apply (wf_slot sb e v N j k).
Qed.

(** The end of a transaction that leads from [v], [N] to [v'], [N']. *)
Lemma end_rest e s s1 v N tab v' N' tab' L : fs_rest e s v N tab -> fx sb (begun e) s1 v' ∅ L tab' -> Z.of_nat (size L) < NBUF ->
  fs_wf sb (begun e) v' N' -> (forall i, inum_ok sb i -> get_inode sb v' i = N' i) -> itab_ok sb tab' N' ->
  returns (fend_op s1) (fun _ s' => exists d' w, fs_rest (mk_env (te_start e) 0 d' (te_writes e ++ w)) s' v' N' tab' /\
    forall k, returns (initlog ROOTDEV (te_start e) (boot (apply_writes (te_disk e) (take k w)))) (fun _ s'' =>
      exists e'' x, te_start e'' = te_start e /\ at_rest e'' s'' x /\ (files_as x v N \/ files_as x v' N'))).
Proof.
  intros Hr [Ht Hs Htb] Hsz Hw' Hn' Hit'. pose proof (rs_sb _ _ _ _ _ Hr) as Hsb.
  eapply returns_mono.
  { eapply lg_last, (txn_end (begun e)); [exact Ht| |done]. cbn. by rewrite (rs_out _ _ _ _ _ Hr). }
  intros [] s' (l & -> & d' & w & Hrest & Hk). cbn [begun te_start te_disk te_writes te_out] in *. exists d', w.
  destruct Hrest as (Ht' & _ & Hd'). cbn [te_start te_disk] in Hd'. split.
  - split; try done.
    + eapply sb_ok_env; [|done]. done.
    + eapply fs_wf_env; [|exact Hw']. done.
    + apply Hr.
  - intros k. eapply returns_mono; [apply (Hk k)|]. intros [] s'' (e'' & He'' & [Hx|Hx]).
    + exists e'', (te_disk e). split_and!; try done. left. eapply files_as_home; [done|apply Hr|apply Hr|]. apply Hr.
    + exists e'', v'. split_and!; try done. right. intros j Hj. split; [by apply Hn'|done].
Qed.

(** The transaction that [filewrite] makes of a piece of its buffer, and
    [evict_page] of a page. *)
Definition write_tx (ip : Z) (src : source) (off n : Z) : M fsys Z :=
  fbegin_op ;;; ilock ip ;;; do r <- writei ip src off n; iunlock ip ;;; fend_op ;;; ret r.

(** Its result: [r] bytes of [bs] are at [off] of file [i], every other file is
    as before, and so it is after a crash or nothing has happened. *)
Definition write_post e v N tab ip i src bs off n r (s' : fsys) : Prop :=
  exists d' w v' di', fs_rest (mk_env (te_start e) 0 d' (te_writes e ++ w)) s' v' (upd N i di') (upd tab ip (unlocked (i_ref (tab ip)) i di')) /\
    (if bad_range (di_size (N i)) off n then r = -1 /\ v' = v /\ di' = N i
     else 0 <= r <= n /\ written sb (begun e) v N i off (take (Z.to_nat r) bs) v' di' /\ (r < n -> full sb v' \/ refuses src n)) /\
    forall k, returns (initlog ROOTDEV (te_start e) (boot (apply_writes (te_disk e) (take k w)))) (fun _ s'' =>
      exists e'' x, te_start e'' = te_start e /\ at_rest e'' s'' x /\ (files_as x v N \/ files_as x v' (upd N i di'))).

(** The blocks that the transaction logs. *)
Definition tx_blocks (off n : Z) : Z := Z.of_nat (size (BM sb)) + nblk off n + 2.

(** From the locked inode to the unlocked one. *)
Lemma tx_write e s v N tab ip i src bs off n s1 : fs_rest e s v N tab -> open_inode tab ip i -> di_type (N i) <> 0 ->
  0 <= off < 2 ^ 32 -> 0 <= n < 2 ^ 32 -> n <= Z.of_nat (length bs) -> delivers src bs -> nblk off n <= 20 ->
  fx sb (begun e) s1 v ∅ ∅ (upd tab ip (locked (i_ref (tab ip)) i (N i))) ->
  returns (writei ip src off n s1) (fun r s2 => exists v' di' L, fx sb (begun e) s2 v' ∅ L (upd tab ip (locked (i_ref (tab ip)) i di')) /\
    fs_wf sb (begun e) v' (upd N i di') /\ (forall j, inum_ok sb j -> get_inode sb v' j = upd N i di' j) /\
    Z.of_nat (size L) <= tx_blocks off n /\
    (if bad_range (di_size (N i)) off n then r = -1 /\ v' = v /\ di' = N i
     else 0 <= r <= n /\ written sb (begun e) v N i off (take (Z.to_nat r) bs) v' di' /\ (r < n -> full sb v' \/ refuses src n))).
Proof.
  intros Hr Hop Ht Ho Hn Hbs Hsrc Hnb F1. destruct (lock_rest e s v N tab ip i Hr Hop Ht) as (_ & Hio & Hai).
  assert (Hsb : sb_ok sb (begun e)) by (eapply sb_ok_env; [|apply Hr]; done).
  assert (Hw : fs_wf sb (begun e) v N) by (eapply fs_wf_env; [|apply Hr]; done).
  pose proof (size_BM _ Hsb (rs_bm _ _ _ _ _ Hr)) as HB. pose proof (weight_le sb (N i) ∅) as Hwl.
  assert (HB0 : size (BM sb ∪ ∅) = size (BM sb)) by (by rewrite union_empty_r_L). rewrite HB0 in Hwl.
  assert (Hnb0 : 0 <= nblk off n). { unfold nblk. destruct (Z.leb_spec n 0); [lia|]. unfold BSIZE. zlia. }
  eapply returns_mono; [eapply (writei_ok sb (begun e) Hsb s1 v N i ∅); try done; [unfold NBUF, MAXOPBLOCKS; lia|cbn; rewrite (rs_out _ _ _ _ _ Hr); lia]|].
  intros r s2 Hres. cbn beta in Hres. destruct (bad_range (di_size (N i)) off n) eqn:Hbad.
  - destruct Hres as [-> F2]. exists v, (N i), ∅. split_and!; try done.
    + eapply fs_wf_ext; [exact Hw|]. intros. symmetry. apply upd_same.
    + intros j Hj. rewrite upd_same. by apply (rs_nodes _ _ _ _ _ Hr).
    + rewrite size_empty. unfold tx_blocks. lia.
  - destruct Hres as (v' & di' & L' & F2 & Hwr & Hrr & HL & _ & Hfl). rewrite HB0 in HL. pose proof (size_le_BM sb L').
    exists v', di', L'. split_and!; try done; try lia; try (unfold tx_blocks; lia); try (intros Hr'; destruct (Hfl Hr') as [[? _]|]; [by left|by right]).
    + eapply fx_itab; [exact F2|]. intros j. unfold with_di, upd. by destruct (Z.eqb_spec j ip) as [->|]; rewrite ?Z.eqb_refl.
    + apply Hwr.
    + intros j Hj. rewrite (wt_disk _ _ _ _ _ _ _ _ _ Hwr) by done. unfold upd. destruct (j =? i); [done|]. by apply (rs_nodes _ _ _ _ _ Hr).
Qed.

Lemma tx_blocks_small e off n : sb_ok sb e -> sb_size sb / BPB <= 3 -> nblk off n <= 20 -> tx_blocks off n < NBUF.
Proof. intros Hsb Hbm Hnb. pose proof (size_BM _ Hsb Hbm). unfold tx_blocks, NBUF, MAXOPBLOCKS. lia. Qed.

Lemma write_tx_ok e s v N tab ip i src bs off n : fs_rest e s v N tab -> open_inode tab ip i -> di_type (N i) <> 0 ->
  0 <= off < 2 ^ 32 -> 0 <= n < 2 ^ 32 -> n <= Z.of_nat (length bs) -> delivers src bs -> nblk off n <= 20 ->
  returns (write_tx ip src off n s) (write_post e v N tab ip i src bs off n).
Proof.
  intros Hr Hop Ht Ho Hn Hbs Hsrc Hnb. destruct (lock_rest e s v N tab ip i Hr Hop Ht) as (_ & Hio & Hai).
  assert (Hsb : sb_ok sb (begun e)) by (eapply sb_ok_env; [|apply Hr]; done).
  unfold write_tx. eapply bind_returns; [by eapply begin_ok|]. intros [] s0 F0.
  eapply bind_returns.
  { eapply (ilock_ok sb (begun e) Hsb s0 v N i); [exact F0| |apply Hr|done|by apply (rs_nodes _ _ _ _ _ Hr)|done|done].
    intros b Hb. by apply (fw_blocks _ _ _ _ (rs_wf _ _ _ _ _ Hr)). }
  intros [] s1 F1. eapply bind_returns; [by eapply (tx_write e s v N tab ip i src bs)|].
  intros r s2 (v' & di' & L & F2 & Hw' & Hn' & HL & Hres).
  pose proof (tx_blocks_small e off n (rs_sb _ _ _ _ _ Hr) (rs_bm _ _ _ _ _ Hr) Hnb) as Hsm.
  eapply bind_returns; [eapply (iunlock_ok sb (begun e)); [exact F2|by rewrite upd_eq|rewrite upd_eq; apply Hop]|].
  intros [] s3 F3.
  eapply bind_returns.
  { eapply (end_rest e s s3 v N tab v' (upd N i di') (upd tab ip (unlocked (i_ref (tab ip)) i di')) L); try done; [|lia|].
    - eapply fx_itab; [exact F3|]. intros j. rewrite upd_eq. unfold upd. by destruct (j =? ip).
    - eapply itab_ok_set; [exact Hsb|apply Hr|done]. }
  intros [] s4 (d' & w & Hrest & Hk). cbn. exists d', w, v', di'. done.
Qed.
End Tx.
