(* ===== verification/File.v ===== *)
(** Open files: the file table of [kernel/file.c] over inodes, pipes and
    devices.  A call on a pipe is one turn of it (it returns or goes to sleep);
    the others run to completion. *)
From S2P Require Import Prelude Bufcache Log Txn FileLayer Fs Pipe.
Local Open Scope kern_scope.

Definition NFILE : Z := 100.
Definition NDEV : Z := 10.

Inductive ftype := FD_NONE | FD_PIPE | FD_INODE | FD_DEVICE.
#[export] Instance ftype_eq_dec : EqDecision ftype.
Proof. solve_decision. Defined.

Record file := mk_file {
  fl_type : ftype;
  fl_ref : Z;
  fl_readable : bool;
  fl_writable : bool;
  fl_pipe : Z;
  fl_ip : Z;
  fl_off : Z;
  fl_major : Z
}.
Definition set_fref v f := mk_file (fl_type f) v (fl_readable f) (fl_writable f) (fl_pipe f) (fl_ip f) (fl_off f) (fl_major f).
Definition set_ftype v f := mk_file v (fl_ref f) (fl_readable f) (fl_writable f) (fl_pipe f) (fl_ip f) (fl_off f) (fl_major f).
Definition set_off v f := mk_file (fl_type f) (fl_ref f) (fl_readable f) (fl_writable f) (fl_pipe f) (fl_ip f) v (fl_major f).

(** The caller's memory at [addr] as a destination of [either_copyout] and a
    source of [either_copyin]: a copy that meets an inaccessible byte fails,
    with the bytes before it copied. *)
Definition user_sink (u : umem) (addr : Z) : sink := fun t bs => forallb (fun j => u_out u (addr + t + j)) (seqZ 0 (Z.of_nat (length bs))).
Fixpoint user_prefix (u : umem) (a : Z) (m : nat) : list Z :=
  match m with
  | O => []
  | S m' => match u_in u a with Some c => c :: user_prefix u (a + 1) m' | None => [] end
  end.
Definition user_source (u : umem) (addr : Z) : source := fun t m =>
  let bs := user_prefix u (addr + t) (Z.to_nat m) in (bs, Z.of_nat (length bs) =? m).

Section File.
Context {BC : BufCache} {dev : Type}.
(** [devsw]: the functions that drivers have registered. *)
Variable dev_read : Z -> option (Z -> Z -> M dev (turn * list Z)).
Variable dev_write : Z -> option (Z -> Z -> M dev turn).

Record kfs := mk_kfs {
  k_fs : fsys;
  k_ftable : Z -> file;
  k_pipes : Z -> pipe;
  k_freed : list Z;
  k_dev : dev
}.
Definition put_fs x s := mk_kfs x (k_ftable s) (k_pipes s) (k_freed s) (k_dev s).
Definition put_ftable x s := mk_kfs (k_fs s) x (k_pipes s) (k_freed s) (k_dev s).
Definition put_pipes x s := mk_kfs (k_fs s) (k_ftable s) x (k_freed s) (k_dev s).
Definition put_freed x s := mk_kfs (k_fs s) (k_ftable s) (k_pipes s) x (k_dev s).
Definition put_dev x s := mk_kfs (k_fs s) (k_ftable s) (k_pipes s) (k_freed s) x.

Definition fsop {A} (m : M fsys A) : M kfs A := zoom k_fs put_fs m.
Definition devop {A} (m : M dev A) : M kfs A := zoom k_dev put_dev m.
Definition getf (f : Z) : M kfs file := gets (fun s => k_ftable s f).
Definition setf (f : Z) (g : file -> file) : M kfs unit :=
  modify (fun s => put_ftable (upd (k_ftable s) f (g (k_ftable s f))) s).

Definition filealloc : M kfs (option Z) :=
  do s <- get;
  match scan (fun f => fl_ref (k_ftable s f) =? 0) NFILE with
  | Some f => setf f (set_fref 1) ;;; ret (Some f)
  | None => ret None
  end.

Definition filedup (f : Z) : M kfs Z :=
  do x <- getf f;
  if fl_ref x <? 1 then panic "filedup" else setf f (set_fref (fl_ref x + 1)) ;;; ret f.

(** [pipeclose] frees the page of the pipe when both ends are closed. *)
Definition fileclose_pipe (p : Z) (writable : bool) : M kfs unit :=
  do s <- get;
  let '(pi, freed) := pipeclose (k_pipes s p) writable in
  modify (put_pipes (upd (k_pipes s) p pi)) ;;;
  if freed then modify (put_freed (p :: k_freed s)) else ret tt.

Definition fileclose (f : Z) : M kfs unit :=
  do x <- getf f;
  if fl_ref x <? 1 then panic "fileclose"
  else
    setf f (set_fref (fl_ref x - 1)) ;;;
    if 0 <? fl_ref x - 1 then ret tt
    else
      setf f (fun x => set_ftype FD_NONE (set_fref 0 x)) ;;;
      match fl_type x with
      | FD_PIPE => fileclose_pipe (fl_pipe x) (fl_writable x)
      | FD_INODE | FD_DEVICE => fsop (fbegin_op ;;; iput (fl_ip x) ;;; fend_op)
      | FD_NONE => ret tt
      end.

(** The metadata that [filestat] copies out; [ok] says whether [copyout]
    succeeds. *)
Definition filestat (f : Z) (ok : bool) : M kfs (Z * option (Z * Z * Z * Z * Z)) :=
  do x <- getf f;
  match fl_type x with
  | FD_INODE | FD_DEVICE =>
      do st <- fsop (ilock (fl_ip x) ;;; do st <- stati (fl_ip x); iunlock (fl_ip x) ;;; ret st);
      ret (if ok then (0, Some st) else (-1, None))
  | _ => ret (-1, None)
  end.

(** The result of the call and the bytes put in the caller's memory. *)
Definition fileread (f : Z) (u : umem) (killed : bool) (addr n : Z) : M kfs (turn * list Z) :=
  do x <- getf f;
  if negb (fl_readable x) then ret (Done (-1), [])
  else
    match fl_type x with
    | FD_PIPE =>
        do s <- get;
        let '(t, out, pi) := piperead u killed addr n (k_pipes s (fl_pipe x)) in
        modify (put_pipes (upd (k_pipes s) (fl_pipe x) pi)) ;;; ret (t, out)
    | FD_DEVICE =>
        if (fl_major x <? 0) || (NDEV <=? fl_major x) then ret (Done (-1), [])
        else match dev_read (fl_major x) with Some rd => devop (rd addr n) | None => ret (Done (-1), []) end
    | FD_INODE =>
        fsop (ilock (fl_ip x)) ;;;
        do r <- fsop (readi (fl_ip x) (user_sink u addr) (fl_off x) (u32 n));
        (if 0 <? fst r then setf f (fun x => set_off (u32 (fl_off x + fst r)) x) else ret tt) ;;;
        fsop (iunlock (fl_ip x)) ;;;
        ret (Done (fst r), snd r)
    | FD_NONE => panic "fileread"
    end.

(** [max] of [filewrite]. *)
Definition WRITE_MAX : Z := (MAXOPBLOCKS - 1 - 1 - 2) / 2 * BSIZE.

(** One transaction of [filewrite]: [n1] bytes from position [i] of the
    caller's buffer. *)
Definition write_chunk (f : Z) (src : source) (i n1 : Z) : M kfs Z :=
  do x <- getf f;
  fsop fbegin_op ;;;
  fsop (ilock (fl_ip x)) ;;;
  do r <- fsop (writei (fl_ip x) (fun t m => src (i + t) m) (fl_off x) n1);
  (if 0 <? r then setf f (fun x => set_off (u32 (fl_off x + r)) x) else ret tt) ;;;
  fsop (iunlock (fl_ip x)) ;;;
  fsop fend_op ;;;
  ret r.

Fixpoint filewrite_loop (k : nat) (f : Z) (src : source) (i n : Z) : M kfs Z :=
  match k with
  | O => no_fuel
  | S k' =>
      if i <? n then
        let n1 := if WRITE_MAX <? n - i then WRITE_MAX else n - i in
        do r <- write_chunk f src i n1;
        if negb (r =? n1) then ret i else filewrite_loop k' f src (i + r) n
      else ret i
  end.

Definition filewrite (f : Z) (u : umem) (killed : bool) (addr n : Z) : M kfs turn :=
  do x <- getf f;
  if negb (fl_writable x) then ret (Done (-1))
  else
    match fl_type x with
    | FD_PIPE =>
        do s <- get;
        let '(t, pi) := pipewrite u killed addr n 0 (k_pipes s (fl_pipe x)) in
        modify (put_pipes (upd (k_pipes s) (fl_pipe x) pi)) ;;; ret t
    | FD_DEVICE =>
        if (fl_major x <? 0) || (NDEV <=? fl_major x) then ret (Done (-1))
        else match dev_write (fl_major x) with Some wr => devop (wr addr n) | None => ret (Done (-1)) end
    | FD_INODE =>
        do i <- filewrite_loop (Z.to_nat (n / WRITE_MAX) + 2) f (user_source u addr) 0 n;
        ret (Done (if i =? n then n else -1))
    | FD_NONE => panic "filewrite"
    end.
End File.
