(* ===== verification/FileClaims.v ===== *)
(** Reading and writing open files that are inodes: [filewrite] in transactions
    that fit the log, and [fileread]. *)
From S2P Require Import Prelude Bufcache Log LogClaims Txn FileLayer Fs FsBlocks FsInode FsData FsWrite FsTable FsTx Pipe File.
Local Open Scope kern_scope.

(** ** Byte strings *)

Lemma splice_nil off c : (off <= length c)%nat -> splice off [] c = c.
Proof. intros. unfold splice. cbn. rewrite Nat.add_0_r. apply take_drop. Qed.

Lemma splice_splice off a b c : (off <= length c)%nat -> splice (off + length a) b (splice off a c) = splice off (a ++ b) c.
Proof.
  intros Ho. unfold splice.
  rewrite (app_assoc (take off c) a), take_app_length' by (rewrite length_app, length_take; lia).
  rewrite <- !app_assoc. do 3 f_equal. rewrite length_app.
  rewrite (app_assoc (take off c) a), drop_app_ge by (rewrite length_app, length_take; lia).
  rewrite drop_drop. f_equal. rewrite length_app, length_take. lia.
Qed.

Lemma user_prefix_all u a bs m : (m <= length bs)%nat -> (forall j x, bs !! j = Some x -> u_in u (a + Z.of_nat j) = Some x) ->
  user_prefix u a m = take m bs.
Proof.
  revert a bs. induction m as [|m IH]; intros a bs Hm Hu; [done|]. destruct bs as [|x bs]; cbn in Hm; [lia|]. cbn [user_prefix].
  specialize (Hu 0%nat x eq_refl) as H0. rewrite Z.add_0_r in H0. rewrite H0. cbn. f_equal. apply IH; [lia|].
  intros j y Hj. replace (a + 1 + Z.of_nat j) with (a + Z.of_nat (S j)) by lia. by apply Hu.
Qed.

(** The bytes at [addr] of the caller are [bs]. *)
Definition user_has (u : umem) (addr : Z) (bs : list Z) : Prop := forall j x, bs !! j = Some x -> u_in u (addr + Z.of_nat j) = Some x.

Lemma user_delivers u addr bs : user_has u addr bs -> forall t m, 0 <= t -> 0 <= m -> t + m <= Z.of_nat (length bs) ->
  user_source u addr t m = (take (Z.to_nat m) (drop (Z.to_nat t) bs), true).
Proof.
  intros Hu t m Ht Hm Hl. unfold user_source. rewrite (user_prefix_all u _ (drop (Z.to_nat t) bs)).
  - f_equal. rewrite length_take, length_drop. apply Z.eqb_eq. lia.
  - rewrite length_drop. lia.
  - intros j x Hj. rewrite lookup_drop in Hj. apply Hu in Hj. rewrite <- Hj. f_equal. lia.
Qed.

Lemma nblk_small off n : 0 <= off -> n <= WRITE_MAX -> nblk off n <= 4.
Proof. intros Ho Hn. unfold nblk. destruct (Z.leb_spec n 0); [lia|]. change WRITE_MAX with 3072 in Hn. unfold BSIZE. zlia. Qed.

Section FileClaims.
Context {BC : BufCache} {dev : Type} (sb : superblock).
Variable dev_read : Z -> option (Z -> Z -> M dev (turn * list Z)).
Variable dev_write : Z -> option (Z -> Z -> M dev turn).
Abbreviation kfs := (kfs (dev := dev)).

(** Inode [i] holds [bs] at [off], and every other file is as before. *)
Record updated (v : Z -> list Z) (N : Z -> dinode) (i off : Z) (bs : list Z) (v' : Z -> list Z) (di' : dinode) : Prop := {
  up_meta : di_type di' = di_type (N i) /\ di_major di' = di_major (N i) /\ di_minor di' = di_minor (N i) /\ di_nlink di' = di_nlink (N i);
  up_content : fcontent v' di' = splice (Z.to_nat off) bs (fcontent v (N i));
  up_others : forall j, inum_ok sb j -> di_type (N j) <> 0 -> j <> i -> fcontent v' (N j) = fcontent v (N j)
}.

Lemma written_updated e v N i off bs v' di' : sb_ok sb e -> fs_wf sb e v N -> written sb e v N i off bs v' di' -> updated v N i off bs v' di'.
Proof.
  intros Hsb Hw []. split; try done. intros j Hj Ht Hne. eapply (keeps_content sb e); [done..|auto].
Qed.

Lemma updated_trans v N i off a v1 di1 b v2 di2 : (Z.to_nat off <= length (fcontent v (N i)))%nat -> 0 <= off ->
  updated v N i off a v1 di1 -> updated v1 (upd N i di1) i (off + Z.of_nat (length a)) b v2 di2 -> updated v N i off (a ++ b) v2 di2.
Proof.
  intros Ho H0 [Hm Hc Hoth] [Hm' Hc' Hoth']. rewrite upd_eq in *. split.
  - destruct Hm as (? & ? & ? & ?), Hm' as (? & ? & ? & ?). split_and!; congruence.
  - rewrite Hc', Hc. replace (Z.to_nat (off + Z.of_nat (length a))) with (Z.to_nat off + length a)%nat by lia. by apply splice_splice.
  - intros j Hj Ht Hne. specialize (Hoth' j Hj). rewrite upd_ne in Hoth' by done. rewrite Hoth' by done. auto.
Qed.

(** The open file [f] is inode [i], at position [off]. *)
Record on_inode (s : kfs) (e : tenv) (v : Z -> list Z) (N : Z -> dinode) (tab : Z -> inode) (f ip i off : Z) : Prop := {
  oi_rest : fs_rest sb e (k_fs s) v N tab;
  oi_open : open_inode tab ip i;
  oi_type : di_type (N i) <> 0;
  oi_ftype : fl_type (k_ftable s f) = FD_INODE;
  oi_ip : fl_ip (k_ftable s f) = ip;
  oi_off : fl_off (k_ftable s f) = off;
  oi_range : 0 <= off <= di_size (N i)
}.

Lemma fsop_bind {A B} (m : M fsys A) (k : A -> M kfs B) s P Q :
  returns (m (k_fs s)) P -> (forall a x, P a x -> returns (k a (put_fs x s)) Q) -> returns (bind (fsop m) k s) Q.
Proof. intros Hm Hk. unfold bind, fsop, zoom. destruct (m (k_fs s)); cbn in *; try contradiction. auto. Qed.

Lemma fsop_last {A} (m : M fsys A) s P Q :
  returns (m (k_fs s)) P -> (forall a x, P a x -> Q a (put_fs x s)) -> returns (fsop (dev := dev) m s) Q.
Proof. intros Hm Hk. unfold fsop, zoom. destruct (m (k_fs s)); cbn in *; try contradiction. auto. Qed.

(** The files other than [f], the pipes and the devices. *)
Definition same_rest (f : Z) (s s' : kfs) : Prop :=
  (forall g, g <> f -> k_ftable s' g = k_ftable s g) /\ k_pipes s' = k_pipes s /\ k_freed s' = k_freed s /\ k_dev s' = k_dev s /\
  k_ftable s' f = set_off (fl_off (k_ftable s' f)) (k_ftable s f).

Lemma same_rest_fs f s x : same_rest f s (put_fs x s).
Proof. unfold same_rest. cbn. split_and!; try done. by destruct (k_ftable s f). Qed.

Lemma same_rest_trans f s1 s2 s3 : same_rest f s1 s2 -> same_rest f s2 s3 -> same_rest f s1 s3.
Proof.
  intros (H1 & H2 & H3 & H4 & H5) (G1 & G2 & G3 & G4 & G5). split_and!; try congruence.
  - intros g Hg. rewrite G1, H1 by done. done.
  - rewrite G5, H5. done.
Qed.

(** One transaction: [r] of the [n1] bytes are written. *)
Lemma write_chunk_ok s e v N tab f ip i off src bs t0 n1 : on_inode s e v N tab f ip i off ->
  delivers (fun t m => src (t0 + t) m) bs -> 0 <= n1 <= WRITE_MAX -> n1 <= Z.of_nat (length bs) ->
  returns (write_chunk f src t0 n1 s) (fun r s' => exists e' v' di' tab', let w := Z.max r 0 in
    on_inode s' e' v' (upd N i di') tab' f ip i (off + w) /\ same_rest f s s' /\ w <= n1 /\
    updated v N i off (take (Z.to_nat w) bs) v' di' /\ te_start e' = te_start e /\
    (r < n1 -> full sb v' \/ refuses (fun t m => src (t0 + t) m) n1 \/ MAXFILE * BSIZE < off + n1)).
Proof.
  intros [Hr Hop Ht Hty Hip Hoff Hrg] Hsrc Hn1 Hlen. change WRITE_MAX with 3072 in Hn1.
  destruct (lock_rest sb e (k_fs s) v N tab ip i Hr Hop Ht) as (_ & Hio & Hai).
  assert (Hsb : sb_ok sb (begun e)) by (eapply sb_ok_env; [|apply Hr]; done).
  assert (Hw : fs_wf sb (begun e) v N) by (eapply fs_wf_env; [|apply Hr]; done).
  pose proof (fw_size _ _ _ _ (rs_wf _ _ _ _ _ _ Hr) i Hio Ht) as [Hmax _]. pose proof (eq_refl : MAXFILE * BSIZE = 274432) as Hmf.
  pose proof (nblk_small off n1 ltac:(lia) ltac:(change WRITE_MAX with 3072; lia)) as Hnb.
  unfold write_chunk, getf. mstep. rewrite Hip, Hoff.
  eapply fsop_bind; [by eapply begin_ok|]. intros [] x0 F0. cbn [k_fs put_fs].
  eapply fsop_bind.
  { eapply (ilock_ok sb (begun e) Hsb x0 v N i); [exact F0| |apply Hr|done|by apply (rs_nodes _ _ _ _ _ _ Hr)|done|done].
    intros b Hb. by apply (fw_blocks _ _ _ _ Hw). }
  intros [] x1 F1. eapply fsop_bind; [eapply (tx_write sb e (k_fs s) v N tab ip i _ bs off n1 x1); try done; lia|].
  intros r x2 (v' & di' & L & F2 & Hw' & Hn' & HL & Hres).
  assert (Hbad : bad_range (di_size (N i)) off n1 = (MAXFILE * BSIZE <? off + n1)).
  { unfold bad_range. rewrite u32_small by lia. destruct (Z.ltb_spec (di_size (N i)) off); [lia|].
    destruct (Z.ltb_spec (off + n1) off); [lia|]. done. }
  rewrite Hbad in Hres.
  assert (Hup : updated v N i off (take (Z.to_nat (Z.max r 0)) bs) v' di' /\ Z.max r 0 <= n1 /\
    (r < n1 -> full sb v' \/ refuses (fun t m => src (t0 + t) m) n1 \/ MAXFILE * BSIZE < off + n1)).
  { destruct (Z.ltb_spec (MAXFILE * BSIZE) (off + n1)).
    - destruct Hres as (-> & -> & ->). split; [|split; [lia|auto]]. split; [done| |done]. cbn. rewrite splice_nil; [done|].
      pose proof (length_content v (N i) ltac:(lia)). lia.
    - destruct Hres as (Hrr & Hwr & Hfl). rewrite Z.max_l by lia. split_and!; [by eapply written_updated|lia|naive_solver]. }
  destruct Hup as (Hup & Hrle & Hshort). destruct (up_meta _ _ _ _ _ _ _ Hup) as (Et & _).
  assert (Hszz : Z.of_nat (length (fcontent v' di')) = Z.max (di_size (N i)) (off + Z.max r 0)).
  { rewrite (up_content _ _ _ _ _ _ _ Hup). pose proof (length_content v (N i) ltac:(lia)). rewrite splice_length by lia. rewrite length_take. lia. }
  pose proof (do_size _ (fw_di _ _ _ _ Hw' i Hio)) as Hdz. rewrite upd_eq in Hdz. rewrite length_content in Hszz by lia.
  pose proof (tx_blocks_small sb e off n1 (rs_sb _ _ _ _ _ _ Hr) (rs_bm _ _ _ _ _ _ Hr) ltac:(lia)) as Hsm.
  set (s2 := put_fs x2 _).
  eapply (bind_returns _ _ _ (fun _ s3 => k_fs s3 = x2 /\ same_rest f s (put_fs (k_fs s) s3) /\ fl_off (k_ftable s3 f) = off + Z.max r 0)).
  { destruct (Z.ltb_spec 0 r).
    - unfold setf. cbn. rewrite upd_eq. cbn. rewrite Hoff, u32_small by lia. rewrite Z.max_l by lia. split_and!; [done| |done].
      unfold same_rest. cbn. rewrite upd_eq. split_and!; try done. intros g Hg. by rewrite upd_ne.
    - cbn. rewrite Z.max_r, Z.add_0_r by lia. split_and!; [done|apply (same_rest_fs f s)|done]. }
  intros [] s3 (E3 & Hsr3 & Hoff3).
  eapply fsop_bind; [rewrite E3; eapply (iunlock_ok sb (begun e)); [exact F2|by rewrite upd_eq|rewrite upd_eq; apply Hop]|].
  intros [] x4 F4. eapply fsop_bind.
  { cbn [k_fs put_fs]. eapply (end_rest sb e (k_fs s) x4 v N tab v' (upd N i di') (upd tab ip (unlocked (i_ref (tab ip)) i di')) L); try done; [|lia|].
    - eapply fx_itab; [exact F4|]. intros j. rewrite upd_eq. unfold upd. by destruct (j =? ip).
    - eapply itab_ok_set; [exact Hsb|apply Hr|done]. }
  intros [] x5 (d' & w & Hrest & _). cbn [ret returns]. exists (mk_env (te_start e) 0 d' (te_writes e ++ w)), v', di', (upd tab ip (unlocked (i_ref (tab ip)) i di')).
  destruct Hsr3 as (G1 & G2 & G3 & G4 & G5). cbn [k_ftable k_pipes k_freed k_dev put_fs] in *. split_and!; try done.
  - split; cbn [k_fs k_ftable put_fs]; try done.
    + destruct Hop. split; rewrite ?upd_eq; done.
    + rewrite upd_eq, Et. done.
    + rewrite G5. done.
    + rewrite G5. done.
    + rewrite upd_eq. lia.
Qed.

Lemma on_inode_ext s e v N N' tab f ip i off : on_inode s e v N tab f ip i off -> (forall j, N j = N' j) -> on_inode s e v N' tab f ip i off.
Proof.
  intros [] He. split; try done; rewrite <- ?He; try done. destruct oi_rest0. split; try done.
  - eapply fs_wf_ext; [done|]. intros j. by rewrite He.
  - intros j Hj. rewrite <- He. auto.
  - destruct rs_tab. split; try done. intros h Hh Hp Hv. rewrite <- He. auto.
Qed.

Lemma filewrite_loop_ok k s e v N tab f ip i off u addr bs t0 n : on_inode s e v N tab f ip i off ->
  user_has u addr bs -> n = Z.of_nat (length bs) -> n < 2 ^ 31 -> 0 <= t0 <= n -> (1 <= k)%nat -> n - t0 <= (Z.of_nat k - 1) * WRITE_MAX ->
  returns (filewrite_loop k f (user_source u addr) t0 n s) (fun r s' => exists e' v' di' tab' w,
    on_inode s' e' v' (upd N i di') tab' f ip i (off + w) /\ same_rest f s s' /\ 0 <= w <= n - t0 /\
    updated v N i off (piece bs t0 (t0 + w)) v' di' /\ te_start e' = te_start e /\
    (r = n /\ w = n - t0 \/ r < n /\ w < n - t0 /\ (full sb v' \/ MAXFILE * BSIZE < off + (n - t0)))).
Proof.
  revert s e v N tab off t0. induction k as [|k IH]; intros s e v N tab off t0 Hon Hu Hn Hlt Ht0 Hk1 Hk; [lia|].
  cbn [filewrite_loop]. pose proof (oi_range _ _ _ _ _ _ _ _ _ Hon) as Hrg. change WRITE_MAX with 3072 in *.
  destruct (lock_rest sb e (k_fs s) v N tab ip i (oi_rest _ _ _ _ _ _ _ _ _ Hon) (oi_open _ _ _ _ _ _ _ _ _ Hon) (oi_type _ _ _ _ _ _ _ _ _ Hon)) as (_ & Hio & _).
  assert (Hlen : (Z.to_nat off <= length (fcontent v (N i)))%nat) by (pose proof (length_content v (N i) ltac:(lia)); lia).
  destruct (Z.ltb_spec t0 n) as [Hmore|Hdone].
  2: { cbn. exists e, v, (N i), tab, 0. unfold piece. rewrite !Z.add_0_r, Z.sub_diag. cbn.
       split_and!; try done; try lia.
       - eapply on_inode_ext; [exact Hon|]. intros j. symmetry. apply upd_same.
       - replace s with (put_fs (k_fs s) s) at 2 by (by destruct s). apply same_rest_fs.
       - split; try done. by rewrite splice_nil. }
  set (n1 := if 3072 <? n - t0 then 3072 else n - t0).
  assert (Hn1 : 0 < n1 <= 3072 /\ n1 <= n - t0) by (unfold n1; destruct (Z.ltb_spec 3072 (n - t0)); lia).
  assert (Hdel : delivers (fun t m => user_source u addr (t0 + t) m) (drop (Z.to_nat t0) bs)).
  { intros t m Ht Hm Hl. rewrite length_drop in Hl. left. rewrite (user_delivers u addr bs Hu) by lia. do 2 f_equal. rewrite drop_drop. f_equal. lia. }
  assert (Hnr : ~ refuses (fun t m => user_source u addr (t0 + t) m) n1).
  { intros (t & m & Ht & Hm & Hl & Hf). rewrite (user_delivers u addr bs Hu) in Hf by lia. done. }
  eapply bind_returns; [apply (write_chunk_ok s e v N tab f ip i off (user_source u addr) (drop (Z.to_nat t0) bs) t0 n1); try done; [change WRITE_MAX with 3072; lia|rewrite length_drop; lia]|].
  intros r s1 (e1 & v1 & di1 & tab1 & Hon1 & Hsr1 & Hr1 & Hup1 & He1 & Hsh1). cbn zeta in *.
  destruct (Z.eqb_spec r n1) as [->|Hne]; cbn [negb].
  - rewrite Z.max_l in * by lia. eapply returns_mono; [eapply (IH s1 e1 v1 (upd N i di1) tab1 (off + n1) (t0 + n1)); try done; try lia|].
    { unfold n1 in *. destruct (Z.ltb_spec 3072 (n - t0)); lia. }
    intros r s2 (e2 & v2 & di2 & tab2 & w & Hon2 & Hsr2 & Hw2 & Hup2 & He2 & Hres).
    exists e2, v2, di2, tab2, (n1 + w). rewrite Z.add_assoc.
    assert (Hp1 : take (Z.to_nat n1) (drop (Z.to_nat t0) bs) = piece bs t0 (t0 + n1)) by (unfold piece; do 2 f_equal; lia).
    rewrite Hp1 in Hup1. pose proof (length_piece bs t0 (t0 + n1) ltac:(lia) ltac:(lia)) as Hlp.
    split_and!; try lia; try congruence.
    + eapply on_inode_ext; [exact Hon2|]. intros j. apply upd_twice.
    + by eapply same_rest_trans.
    + rewrite <- (piece_app bs t0 (t0 + n1)) by lia. eapply updated_trans; [done|lia|exact Hup1|]. rewrite Hlp.
      replace (off + Z.of_nat (Z.to_nat (t0 + n1 - t0))) with (off + n1) by lia. replace (t0 + (n1 + w)) with (t0 + n1 + w) by lia. done.
    + destruct Hres as [[-> ->]|(? & ? & [?|?])]; [left; lia|right; split_and!; [lia..|by left]|right; split_and!; [lia..|right; lia]].
  - cbn. exists e1, v1, di1, tab1, (Z.max r 0). split_and!; try done; try lia.
    + unfold piece. replace (t0 + Z.max r 0 - t0) with (Z.max r 0) by lia. done.
    + right. assert (r < n1) by lia. split_and!; [lia..|]. destruct (Hsh1 ltac:(lia)) as [?|[?|?]]; [by left|done|right; lia].
Qed.

(** C15: Writing to a file.  [filewrite] of [n] readable bytes to an open inode
    always returns: with [n], and then all bytes are in the file at its offset,
    the offset has advanced by [n]; or with [-1], and then exactly a prefix is
    there, and the disk is full or the file would exceed its maximal size.
    Nothing else of the file, no other file and no other table entry changes,
    and the file system is again in a state between system calls. *)
Theorem filewrite_splices s e v N tab f ip i off u killed addr bs : on_inode s e v N tab f ip i off ->
  fl_writable (k_ftable s f) = true -> user_has u addr bs -> Z.of_nat (length bs) < 2 ^ 31 ->
  returns (filewrite dev_write f u killed addr (Z.of_nat (length bs)) s) (fun t s' => exists e' v' di' tab' w,
    on_inode s' e' v' (upd N i di') tab' f ip i (off + w) /\ same_rest f s s' /\ 0 <= w <= Z.of_nat (length bs) /\
    updated v N i off (take (Z.to_nat w) bs) v' di' /\
    (t = Done (Z.of_nat (length bs)) /\ w = Z.of_nat (length bs) \/
     t = Done (-1) /\ w < Z.of_nat (length bs) /\ (full sb v' \/ MAXFILE * BSIZE < off + Z.of_nat (length bs)))).
Proof.
  intros Hon Hwr Hu Hlt. set (n := Z.of_nat (length bs)). unfold filewrite, getf. mstep.
  rewrite Hwr, (oi_ftype _ _ _ _ _ _ _ _ _ Hon). cbn [negb].
  eapply bind_returns; [apply (filewrite_loop_ok _ s e v N tab f ip i off u addr bs 0 n); try done; try lia|].
  { change WRITE_MAX with 3072. zlia. }
  intros r s' (e' & v' & di' & tab' & w & Hon' & Hsr & Hw & Hup & _ & Hres). rewrite Z.sub_0_r in *. cbn.
  exists e', v', di', tab', w. unfold piece in Hup. rewrite Z.add_0_l, Z.sub_0_r in Hup. split_and!; try done; try lia.
  destruct Hres as [[-> ->]|(Hr & Hwn & Hc)].
  - left. by rewrite Z.eqb_refl.
  - right. destruct (Z.eqb_spec r n); [lia|]. done.
Qed.

Lemma bytes_content v di off m : 0 <= off -> 0 <= m -> off + m <= di_size di ->
  bytes_between v di off m = take (Z.to_nat m) (drop (Z.to_nat off) (fcontent v di)).
Proof.
  intros Ho Hm Hs. apply list_eq. intros j. destruct (decide (Z.of_nat j < m)) as [Hj|Hj].
  - rewrite lookup_take_lt, lookup_drop by lia. replace (Z.to_nat off + j)%nat with (Z.to_nat (off + Z.of_nat j)) by lia.
    rewrite content_lookup by lia. unfold bytes_between. by rewrite list_lookup_fmap, lookup_seqZ_lt by lia.
  - rewrite lookup_take_ge by lia. apply lookup_ge_None_2. rewrite length_bytes. lia.
Qed.

(** The caller's memory can be written from [addr] on. *)
Definition user_takes (u : umem) (addr n : Z) : Prop := forall j, 0 <= j < n -> u_out u (addr + j) = true.

Lemma user_sink_ok u addr n t bs : user_takes u addr n -> 0 <= t -> t + Z.of_nat (length bs) <= n -> user_sink u addr t bs = true.
Proof.
  intros Hu Ht Hl. unfold user_sink. apply forallb_forall. intros j Hj%list_elem_of_In%elem_of_seqZ.
  rewrite <- Z.add_assoc, Hu by lia. done.
Qed.

(** Reading from a file.  [fileread] of an open inode delivers exactly the
    bytes from the offset on, as many as were asked for or as the file still
    has, and advances the offset by that number; at the end of the file it
    returns 0.  The contents of all files stay as they are. *)
Theorem fileread_delivers s e v N tab f ip i off u killed addr n : on_inode s e v N tab f ip i off ->
  fl_readable (k_ftable s f) = true -> 0 <= n < 2 ^ 31 -> user_takes u addr n ->
  let m := Z.min n (di_size (N i) - off) in
  returns (fileread dev_read f u killed addr n s) (fun r s' => exists tab',
    r = (Done m, take (Z.to_nat n) (drop (Z.to_nat off) (fcontent v (N i)))) /\
    on_inode s' e v N tab' f ip i (off + m) /\ same_rest f s s').
Proof.
  intros Hon Hrd Hn Hu m. destruct Hon as [Hr Hop Ht Hty Hip Hoff Hrg].
  destruct (lock_rest sb e (k_fs s) v N tab ip i Hr Hop Ht) as (_ & Hio & Hai).
  pose proof (fw_size _ _ _ _ (rs_wf _ _ _ _ _ _ Hr) i Hio Ht) as [Hmax _]. pose proof (eq_refl : MAXFILE * BSIZE = 274432) as Hmf.
  unfold fileread, getf. mstep. rewrite Hrd, Hty, Hip, Hoff. cbn [negb].
  eapply fsop_bind.
  { eapply (ilock_ok sb e (rs_sb _ _ _ _ _ _ Hr) (k_fs s) v N i); [apply Hr| |apply Hr|done|by apply (rs_nodes _ _ _ _ _ _ Hr)|done|done].
    intros b Hb. by apply (fw_blocks _ _ _ _ (rs_wf _ _ _ _ _ _ Hr)). }
  intros [] x1 F1. rewrite (u32_small n) by lia.
  eapply fsop_bind; [eapply (readi_ok sb e (rs_sb _ _ _ _ _ _ Hr) x1 v N i); [exact F1|apply Hr|done|lia|lia|done]|].
  intros r x2 [F2 Hres]. cbn zeta in Hres.
  assert (Hrm : readable (di_size (N i)) off n = m).
  { unfold readable, m. rewrite u32_small by lia. destruct (Z.ltb_spec (di_size (N i)) off); [lia|].
    destruct (Z.ltb_spec (off + n) off); [lia|]. cbn. destruct (Z.ltb_spec (di_size (N i)) (off + n)); lia. }
  rewrite Hrm in Hres. destruct Hres as [->|[_ (t & bs & Ht0 & Htl & Hf)]]; [|by rewrite (user_sink_ok u addr n) in Hf]. cbn [fst snd].
  eapply (bind_returns _ _ _ (fun _ s3 => k_fs s3 = x2 /\ same_rest f s (put_fs (k_fs s) s3) /\ fl_off (k_ftable s3 f) = off + m)).
  { destruct (Z.ltb_spec 0 m).
    - unfold setf. cbn. rewrite upd_eq. cbn. rewrite Hoff, u32_small by lia. split_and!; [done| |done].
      unfold same_rest. cbn. rewrite upd_eq. split_and!; try done. intros g Hg. by rewrite upd_ne.
    - cbn. replace m with 0 by lia. rewrite Z.add_0_r. split_and!; [done|apply (same_rest_fs f s)|done]. }
  intros [] s3 (E3 & Hsr3 & Hoff3).
  eapply fsop_bind; [rewrite E3; eapply (iunlock_ok sb e); [exact F2|by rewrite upd_eq|rewrite upd_eq; apply Hop]|].
  intros [] x4 F4. cbn. exists (upd tab ip (unlocked (i_ref (tab ip)) i (N i))).
  destruct Hsr3 as (G1 & G2 & G3 & G4 & G5). cbn [k_ftable k_pipes k_freed k_dev put_fs] in *. split_and!.
  - rewrite bytes_content by lia. f_equal. unfold m. destruct (Z.min_spec n (di_size (N i) - off)) as [[? ->]|[? ->]]; [done|].
    rewrite !take_ge; [done|..]; rewrite length_drop; pose proof (length_content v (N i) ltac:(lia)); lia.
  - split; cbn [k_fs k_ftable put_fs]; try done.
    + destruct Hr. split; try done.
      * eapply fx_itab; [exact F4|]. intros j. rewrite upd_eq. unfold upd. by destruct (j =? ip).
      * pose proof (itab_ok_set sb e tab N ip i (N i) false rs_sb rs_tab Hop) as Hit. destruct Hit as [h1 h2 h3 h4 h5].
        split; try done. intros h Hh Hp Hv. specialize (h4 h Hh Hp Hv). rewrite upd_same in h4. done.
    + destruct Hop. split; rewrite ?upd_eq; done.
    + rewrite G5. done.
    + rewrite G5. done.
    + lia.
  - unfold same_rest. cbn. done.
Qed.
End FileClaims.
