(* ===== verification/FsClaims.v ===== *)
(** The file system between system calls: a write survives a crash whole or
    not at all, and the last close of an unlinked file gives back exactly its
    blocks. *)
From S2P Require Import Prelude Bufcache Log LogClaims Txn FileLayer Fs FsBlocks FsInode FsData FsWrite FsTable FsTx Pipe File FileClaims.
Local Open Scope kern_scope.

Section Claims.
Context {BC : BufCache} {dev : Type} (sb : superblock).
Abbreviation kfs := (kfs (dev := dev)).


(** ** [iput] *)

(** An inode that is free. *)
Definition free_di (di : dinode) : dinode := set_type 0 (empty_di di).

Lemma wf_free_inode e v N i : fs_wf sb e v (upd N i (empty_di (N i))) -> fs_wf sb e v (upd N i (free_di (N i))).
Proof.
  intros Hw. set (N1 := upd N i (empty_di (N i))) in *. set (N2 := upd N i (free_di (N i))).
  assert (Ho : forall j k a, owns sb v N2 j k a -> owns sb v N1 j k a).
  { intros j k a (Hj & Ht & Hk & He & Hne). unfold N1, N2, upd in *. unfold owns. destruct (Z.eqb_spec j i); [done|done]. }
  split.
  - apply Hw.
  - apply Hw.
  - intros j Hj. pose proof (fw_di _ _ _ _ Hw j Hj) as Hd. unfold N1, N2, upd in *. destruct (j =? i); [|done].
    destruct Hd. split; cbn; try done; lia.
  - intros j k a Hx. by eapply (fw_own _ _ _ _ Hw), Ho.
  - intros j k j' k' a Hx Hy. eapply (fw_inj _ _ _ _ Hw); by apply Ho.
  - intros j Hj. pose proof (fw_size _ _ _ _ Hw j Hj) as Hs. unfold N1, N2, upd in *. by destruct (j =? i).
Qed.

(** Inode [i] is free, and so are the blocks it had; every other file is as before. *)
Record reclaimed (v : Z -> list Z) (N : Z -> dinode) (i : Z) (v' : Z -> list Z) : Prop := {
  rc_used : forall c, 0 <= c < sb_size sb -> used sb v' c = true <-> used sb v c = true /\ ~ exists k, owns sb v N i k c;
  rc_others : forall j, inum_ok sb j -> di_type (N j) <> 0 -> j <> i -> keeps v v' (N j);
  rc_disk : forall j, inum_ok sb j -> get_inode sb v' j = if j =? i then free_di (N i) else get_inode sb v j
}.

(** The table after the last reference to inode [i] is gone. *)
Definition put_last (tab : Z -> inode) (ip i : Z) (di : dinode) (r : Z) : Z -> inode := upd tab ip (mk_inode ROOTDEV i r false false di).

Lemma iput_frees_inode e s v N i L tab ip : sb_ok sb e -> fx sb e s v ∅ L tab -> fs_wf sb e v N -> at_inode sb tab ip N i ->
  i_ref (tab ip) = 1 -> i_valid (tab ip) = true -> Z.of_nat (size (BM sb ∪ L)) + 2 < NBUF -> 1 <= te_out e ->
  returns ((seti ip (set_ilock true) ;;; itrunc ip ;;; seti ip (fun n => set_di (set_type 0 (i_di n)) n) ;;;
            iupdate ip ;;; seti ip (set_valid false) ;;; seti ip (set_ilock false)) s)
    (fun _ s' => exists v' L', fx sb e s' v' ∅ L' (put_last tab ip i (free_di (N i)) 1) /\
      fs_wf sb e v' (upd N i (free_di (N i))) /\ reclaimed v N i v' /\ L' ⊆ {[IBLOCK i sb]} ∪ (BM sb ∪ L)).
Proof.
  intros Hsb Hfx Hw Hai Href Hval Hsz Hout. pose proof (ai_ok _ _ _ _ _ Hai) as Hi. pose proof (ai_type _ _ _ _ _ Hai) as Ht.
  eapply fx_seti; [done|]. intros s1 F1. set (tab1 := upd tab ip _) in F1.
  assert (Hai1 : at_inode sb tab1 ip N i) by (destruct Hai; unfold tab1; split; rewrite ?upd_eq; done).
  eapply bind_returns; [by eapply (itrunc_ok sb e Hsb s1 v N i L tab1)|]. intros [] s2 (v2 & L2 & F2 & [Hw2 Hu2 Hk2 Hd2] & HL2).
  eapply fx_seti; [exact F2|]. intros s3 F3. set (tab3 := upd _ ip _) in F3.
  assert (Et : with_di tab1 ip (empty_di (N i)) ip = mk_inode ROOTDEV i 1 true true (empty_di (N i))).
  { unfold with_di, tab1. rewrite !upd_eq. destruct Hai. destruct (tab ip). cbn in *. by subst. }
  assert (Ht3 : tab3 ip = mk_inode ROOTDEV i 1 true true (free_di (N i))) by (unfold tab3; rewrite upd_eq, Et; done).
  pose proof (wf_free_inode e v2 N i Hw2) as Hw3.
  pose proof (subseteq_size _ _ HL2) as HsL. pose proof (size_add (IBLOCK i sb) (BM sb ∪ L)) as HsA.
  eapply bind_returns.
  { eapply (iupdate_copy sb e Hsb s3 v2 _ i (free_di (N i)) L2 tab3 ip); [exact F3|exact Hw3|done|by rewrite Ht3..|lia|done]. }
  intros [] s4 F4. eapply fx_seti; [exact F4|]. intros s5 F5. apply bind_last. eapply fx_seti; [exact F5|]. intros s6 F6. cbn.
  destruct (wf_iupd sb e Hsb v2 _ i (free_di (N i)) Hw3 Hi) as [Hw4 _].
  assert (Hd : di_ok (free_di (N i))). { pose proof (fw_di _ _ _ _ Hw3 i Hi) as Hd. by rewrite upd_eq in Hd. }
  destruct (iblock_ib _ _ Hsb i Hi) as [Hib _].
  exists (v_iupd sb v2 i (free_di (N i))), ({[IBLOCK i sb]} ∪ L2). split_and!; [|exact Hw4| |clear -HL2; set_solver].
  - eapply fx_itab; [exact F6|]. intros j. unfold put_last.
    destruct (Z.eqb_spec j ip) as [->|Hne]; [by rewrite !upd_eq, Ht3|]. rewrite !(upd_ne _ ip) by done. unfold tab3, with_di, tab1. by rewrite !upd_ne.
  - split.
    + intros c Hc. rewrite <- (Hu2 c Hc). unfold v_iupd. by rewrite (used_upd_ib sb e Hsb).
    + intros j Hj Htj Hne. eapply keeps_trans; [by apply Hk2|].
      pose proof (ib_keeps sb e Hsb v2 _ (IBLOCK i sb) (put_dinode (v2 (IBLOCK i sb)) (inode_offset i) (free_di (N i))) j Hw3 Hib Hj) as HK.
      rewrite upd_ne in HK by done. by apply HK.
    + intros j Hj. rewrite (get_inode_iupd sb e Hsb); [|apply Hw3|done..]. rewrite (Hd2 j Hj). by destruct (j =? i).
Qed.

(** The last reference to an inode that has no links. *)
Lemma iput_frees e s v N i L tab ip : sb_ok sb e -> fx sb e s v ∅ L tab -> fs_wf sb e v N -> at_inode sb tab ip N i ->
  i_ref (tab ip) = 1 -> i_valid (tab ip) = true -> i_lock (tab ip) = false -> di_nlink (N i) = 0 ->
  Z.of_nat (size (BM sb ∪ L)) + 2 < NBUF -> 1 <= te_out e ->
  returns (iput ip s) (fun _ s' => exists v' L', fx sb e s' v' ∅ L' (put_last tab ip i (free_di (N i)) 0) /\
    fs_wf sb e v' (upd N i (free_di (N i))) /\ reclaimed v N i v' /\ L' ⊆ {[IBLOCK i sb]} ∪ (BM sb ∪ L)).
Proof.
  intros Hsb Hfx Hw Hai Href Hval Hlk Hnl Hsz Hout.
  unfold iput. eapply fx_geti; [done|]. rewrite Href, Hval, (ai_di _ _ _ _ _ Hai), Hnl, Hlk. cbn [Z.eqb andb Pos.eqb].
  eapply bind_returns; [by eapply (iput_frees_inode e s v N i L tab)|].
  intros [] s1 (v' & L' & F & Hrest). apply bind_last. eapply fx_seti; [exact F|]. intros s2 F2. cbn. exists v', L'.
  split; [|exact Hrest]. eapply fx_itab; [exact F2|]. intros j. unfold put_last. rewrite upd_eq. unfold upd. by destruct (j =? ip).
Qed.

Lemma itab_ok_put tab N ip i di : itab_ok sb tab N -> open_inode tab ip i -> i_ref (tab ip) = 1 ->
  itab_ok sb (put_last tab ip i di 0) (upd N i di).
Proof.
  intros [] [Hr Hi _ Hl] H1. unfold put_last. set (tab' := upd tab ip _).
  assert (Hne : forall h, 0 < i_ref (tab' h) -> h <> ip /\ tab' h = tab h).
  { intros h. unfold tab', upd. destruct (Z.eqb_spec h ip); cbn; [lia|done]. }
  split.
  - intros h Hh. unfold tab', upd. destruct (h =? ip); cbn; [lia|auto].
  - intros h Hh Hp. destruct (Hne h Hp) as [_ E]. rewrite E in *. auto.
  - intros h h' Hh Hh' Hp Hp'. destruct (Hne h Hp) as [_ E], (Hne h' Hp') as [_ E']. rewrite E, E' in *. auto.
  - intros h Hh Hp. destruct (Hne h Hp) as [Hn E]. rewrite E in *. intros Hv. unfold upd.
    destruct (Z.eqb_spec (i_inum (tab h)) i) as [He|]; [|auto]. exfalso. apply Hn. apply it_inj; try done; [lia|congruence].
  - intros h Hh Hz. unfold tab', upd in *. destruct (h =? ip); [done|auto].
Qed.

(** The transaction of [fileclose]. *)
Lemma close_tx_ok e s v N tab ip i : fs_rest sb e s v N tab -> open_inode tab ip i -> di_type (N i) <> 0 ->
  i_ref (tab ip) = 1 -> i_valid (tab ip) = true -> di_nlink (N i) = 0 ->
  returns ((fbegin_op ;;; iput ip ;;; fend_op) s) (fun _ s' => exists e' w v' tab',
    fs_rest sb e' s' v' (upd N i (free_di (N i))) tab' /\ te_writes e' = te_writes e ++ w /\ reclaimed v N i v' /\
    forall k, returns (initlog ROOTDEV (te_start e) (boot (apply_writes (te_disk e) (take k w)))) (fun _ s'' =>
      exists e'' x, te_start e'' = te_start e /\ at_rest e'' s'' x /\ (files_as sb x v N \/ files_as sb x v' (upd N i (free_di (N i)))))).
Proof.
  intros Hr Hop Ht Href Hval Hnl. destruct (lock_rest sb e s v N tab ip i Hr Hop Ht) as (_ & Hio & _). destruct Hop as [Hip Hin _ Hlk].
  assert (Hsb : sb_ok sb (begun e)) by (eapply sb_ok_env; [|apply Hr]; done).
  assert (Hw : fs_wf sb (begun e) v N) by (eapply fs_wf_env; [|apply Hr]; done).
  pose proof (size_BM sb _ Hsb (rs_bm _ _ _ _ _ _ Hr)) as HB.
  assert (HB0 : size (BM sb ∪ ∅) = size (BM sb)) by (by rewrite union_empty_r_L).
  eapply bind_returns; [by eapply begin_ok|]. intros [] s0 F0.
  eapply bind_returns.
  { eapply (iput_frees (begun e) s0 v N i ∅ tab ip); try done.
    - destruct (it_dev _ _ _ (rs_tab _ _ _ _ _ _ Hr) ip Hip) as [Hd _]; [lia|]. split; try done.
      rewrite (it_valid _ _ _ (rs_tab _ _ _ _ _ _ Hr) ip Hip) by (done || lia). by rewrite Hin.
    - rewrite HB0. unfold NBUF, MAXOPBLOCKS. lia.
    - cbn. rewrite (rs_out _ _ _ _ _ _ Hr). lia. }
  intros [] s1 (v' & L & F1 & Hw1 & Hrc & HL). pose proof (subseteq_size _ _ HL) as Hsz. pose proof (size_add (IBLOCK i sb) (BM sb ∪ ∅)) as Hsa.
  rewrite HB0 in *.
  eapply returns_mono.
  { eapply (end_rest sb e s s1 v N tab v' (upd N i (free_di (N i))) (put_last tab ip i (free_di (N i)) 0) L); try done.
    - unfold NBUF, MAXOPBLOCKS. lia.
    - intros j Hj. rewrite (rc_disk _ _ _ _ Hrc j Hj). unfold upd. destruct (j =? i); [done|]. by apply (rs_nodes _ _ _ _ _ _ Hr).
    - apply itab_ok_put; [apply Hr|split; (done || lia)|done]. }
  intros [] s2 (d' & w & Hrest & Hk). eexists _, w, v', _. done.
Qed.

(** C29: The last close of a file that has been unlinked.  [fileclose] of the only
    reference to an inode without links returns; the entry of the file table is
    free and no other entry, pipe or device has changed; the inode is free on
    disk, exactly the blocks it had are free in the bitmap, every other inode and
    the content of every other file are unchanged, and the file system is again
    between system calls.  A crash during the commit leaves all of this done or
    none of it. *)
Theorem last_close_frees_file (s : kfs) e v N tab f ip i off : on_inode sb s e v N tab f ip i off ->
  fl_ref (k_ftable s f) = 1 -> i_ref (tab ip) = 1 -> i_valid (tab ip) = true -> di_nlink (N i) = 0 ->
  returns (fileclose f s) (fun _ s' => exists e' w v' tab',
    fs_rest sb e' (k_fs s') v' (upd N i (free_di (N i))) tab' /\ te_writes e' = te_writes e ++ w /\
    k_ftable s' f = set_ftype FD_NONE (set_fref 0 (k_ftable s f)) /\
    (forall g, g <> f -> k_ftable s' g = k_ftable s g) /\ k_pipes s' = k_pipes s /\ k_freed s' = k_freed s /\ k_dev s' = k_dev s /\
    (forall c, 0 <= c < sb_size sb -> used sb v' c = true <-> used sb v c = true /\ ~ exists k, owns sb v N i k c) /\
    (forall j, inum_ok sb j -> di_type (N j) <> 0 -> j <> i -> fcontent v' (N j) = fcontent v (N j)) /\
    forall k, returns (initlog ROOTDEV (te_start e) (boot (apply_writes (te_disk e) (take k w)))) (fun _ s'' =>
      exists e'' x, te_start e'' = te_start e /\ at_rest e'' s'' x /\ (files_as sb x v N \/ files_as sb x v' (upd N i (free_di (N i)))))).
Proof.
  intros [Hr Hop Ht Hty Hip Hoff Hrg] Hfr Href Hval Hnl.
  unfold fileclose, getf. mstep. rewrite Hfr, Hty, Hip. cbn [Z.ltb Z.compare Pos.compare Pos.compare_cont Z.sub Z.add Z.opp Z.pos_sub].
  unfold setf. mstep. cbn [Z.ltb Z.compare Z.sub Z.add Z.opp Z.pos_sub]. mstep. eapply fsop_last; [by eapply (close_tx_ok e (k_fs s) v N tab ip i)|].
  intros [] x (e' & w & v' & tab' & Hrest & Hwr & Hrc & Hk). cbn. exists e', w, v', tab'. split_and!; try done.
  - by rewrite !upd_eq.
  - intros g Hg. by rewrite !upd_ne.
  - apply Hrc.
  - intros j Hj Htj Hne. apply (keeps_content sb e v v' N j (rs_wf _ _ _ _ _ _ Hr) Hj Htj). by apply Hrc.
Qed.
End Claims.
