(* ===== verification/FsRefs.v ===== *)
(** References to inodes.  The inode table as the callers of [iget], [ilock],
    [iunlock] and [iput] see it: which handles refer to which inodes, how often,
    and which are locked.  The state [dx] bundles it with the blocks, the
    inodes and the log of an open transaction; one lemma per operation. *)
From S2P Require Import Prelude Bufcache Log LogClaims Txn FileLayer Fs FsBlocks FsInode FsData FsWrite FsTable FsTx.
Local Open Scope kern_scope.

(** A handle that is in use.  [t_valid] says that the copy of the inode is known
    to be there. *)
Record tent := mk_tent { t_inum : Z; t_ref : Z; t_lock : bool; t_valid : bool }.
Abbreviation refs := (Z -> option tent).

Definition handle (h : Z) : Prop := 0 <= h < NINODE.
Definition no_refs (T : refs) (h : Z) : Prop := handle h /\ T h = None.

(** One reference more to inode [i] at a handle, and one less. *)
Definition plus_ref (i : Z) (o : option tent) : option tent :=
  match o with
  | Some t => Some (mk_tent (t_inum t) (t_ref t + 1) (t_lock t) (t_valid t))
  | None => Some (mk_tent i 1 false false)
  end.
Definition minus_ref (t : tent) : option tent :=
  if t_ref t =? 1 then None else Some (mk_tent (t_inum t) (t_ref t - 1) (t_lock t) (t_valid t)).

(** [T'] is [T] with one more reference to [i], at handle [h]. *)
Record takes_ref (T : refs) (i h : Z) (T' : refs) : Prop := {
  tk_handle : handle h;
  tk_inum : forall t, T h = Some t -> t_inum t = i /\ 1 <= t_ref t;
  tk_after : forall h', T' h' = upd T h (plus_ref i (T h)) h'
}.

(** What a handle of the table shows. *)
Definition shows (x : inode) (o : option tent) : Prop :=
  match o with
  | None => i_ref x = 0
  | Some t => 0 < i_ref x /\ i_ref x = t_ref t /\ i_inum x = t_inum t /\ i_lock x = t_lock t /\ (t_valid t = true -> i_valid x = true)
  end.

(** Less is known of the copies in [o] than in [o']. *)
Definition weaker (o o' : option tent) : Prop :=
  match o, o' with
  | None, None => True
  | Some t, Some t' => t_inum t = t_inum t' /\ t_ref t = t_ref t' /\ t_lock t = t_lock t' /\ (t_valid t = true -> t_valid t' = true)
  | _, _ => False
  end.

Lemma shows_weaker x o o' : shows x o' -> weaker o o' -> shows x o.
Proof.
  unfold shows, weaker. destruct o, o'; try done. intros (? & ? & ? & ? & Hv) (-> & -> & -> & Hv'). split_and!; auto.
Qed.

Section Refs.
Context {BC : BufCache} (sb : superblock).

Record dx (e : tenv) (s : fsys) (v : Z -> list Z) (N : Z -> dinode) (L : gset Z) (T : refs) : Prop := {
  dx_sb : sb_ok sb e;
  dx_wf : fs_wf sb e v N;
  dx_nodes : forall i, inum_ok sb i -> get_inode sb v i = N i;
  dx_tab : exists tab, fx sb e s v ∅ L tab /\ itab_ok sb tab N /\ forall h, handle h -> shows (tab h) (T h)
}.

Lemma dx_weaker e s v N L T T' : dx e s v N L T' -> (forall h, handle h -> weaker (T h) (T' h)) -> dx e s v N L T.
Proof.
  intros [? ? ? (tab & F & Hit & Hs)] Hw. split; try done. exists tab. split_and!; try done.
  intros h Hh. by eapply shows_weaker; [apply Hs|apply Hw].
Qed.

Lemma weaker_refl o : weaker o o.
Proof. by destruct o. Qed.

Lemma dx_ext e s v N L T T' : dx e s v N L T' -> (forall h, handle h -> T h = T' h) -> dx e s v N L T.
Proof. intros Hd He. eapply dx_weaker; [done|]. intros h Hh. rewrite He by done. apply weaker_refl. Qed.

Lemma dx_nodes_ext e s v N N' L T : dx e s v N L T -> (forall i, N i = N' i) -> dx e s v N' L T.
Proof.
  intros [? Hw Hn (tab & F & Hit & Hs)] He. split; [done|by eapply fs_wf_ext|intros; rewrite <- He; auto|].
  exists tab. split_and!; try done. destruct Hit. split; try done. intros h Hh Hp Hv. rewrite <- He. auto.
Qed.

(** The inode behind a handle. *)
Lemma dx_inum e s v N L T h t : dx e s v N L T -> handle h -> T h = Some t -> inum_ok sb (t_inum t) /\ 1 <= t_ref t.
Proof.
  intros [? ? ? (tab & F & Hit & Hs)] Hh Ht. specialize (Hs h Hh). rewrite Ht in Hs. destruct Hs as (Hp & He & Hi & _).
  destruct (it_dev _ _ _ Hit h Hh Hp) as [_ Hio]. rewrite Hi in Hio. split; [done|lia].
Qed.

(** Two handles do not refer to the same inode. *)
Lemma dx_inj e s v N L T h h' t t' : dx e s v N L T -> handle h -> handle h' -> T h = Some t -> T h' = Some t' ->
  t_inum t = t_inum t' -> h = h'.
Proof.
  intros [? ? ? (tab & F & Hit & Hs)] Hh Hh' Ht Ht' He. pose proof (Hs h Hh) as Hx. pose proof (Hs h' Hh') as Hy. rewrite Ht in Hx. rewrite Ht' in Hy.
  destruct Hx as (? & ? & Hi & _), Hy as (? & ? & Hi' & _). apply (it_inj _ _ _ Hit); try done. congruence.
Qed.

(** The table after one handle has changed. *)
Lemma shows_upd tab (T : refs) h x o : (forall h, handle h -> shows (tab h) (T h)) -> shows x o ->
  forall h', handle h' -> shows (upd tab h x h') (upd T h o h').
Proof. intros Hs Hx h' Hh. unfold upd. destruct (h' =? h); auto. Qed.

Lemma itab_ok_upd tab N h x : itab_ok sb tab N -> 0 <= i_ref x ->
  (0 < i_ref x -> i_dev x = ROOTDEV /\ inum_ok sb (i_inum x) /\ (i_valid x = true -> i_di x = N (i_inum x)) /\
     forall h', handle h' -> h' <> h -> 0 < i_ref (tab h') -> i_inum (tab h') <> i_inum x) ->
  (i_ref x = 0 -> i_lock x = false) -> itab_ok sb (upd tab h x) N.
Proof.
  intros [] Hr Hp Hz. split.
  - intros j Hj. unfold upd. destruct (j =? h); auto.
  - intros j Hj. unfold upd. destruct (j =? h); [|auto]. intros H. by destruct (Hp H) as (? & ? & _).
  - intros j k Hj Hk. unfold upd. destruct (Z.eqb_spec j h) as [->|Hjn], (Z.eqb_spec k h) as [->|Hkn]; intros H1 H2 He; auto; exfalso.
    + destruct (Hp H1) as (_ & _ & _ & Hne). by apply (Hne k).
    + destruct (Hp H2) as (_ & _ & _ & Hne). by apply (Hne j).
  - intros j Hj. unfold upd. destruct (j =? h); [|auto]. intros H. by destruct (Hp H) as (_ & _ & ? & _).
  - intros j Hj. unfold upd. destruct (j =? h); auto.
Qed.

(** A change at a handle that still refers to the same inode. *)
Lemma itab_ok_same tab N h x : itab_ok sb tab N -> handle h -> 0 < i_ref (tab h) -> i_dev x = i_dev (tab h) -> i_inum x = i_inum (tab h) ->
  (i_valid x = true -> i_valid (tab h) = true /\ i_di x = i_di (tab h) \/ i_di x = N (i_inum x)) -> 0 <= i_ref x -> (i_ref x = 0 -> i_lock x = false) ->
  itab_ok sb (upd tab h x) N.
Proof.
  intros Hit Hh Hp Hd Hi Hv Hr Hz. destruct (it_dev _ _ _ Hit h Hh Hp) as [Hdv Hio]. apply itab_ok_upd; try done. intros _. split_and!; try congruence.
  - intros Hvx. destruct (Hv Hvx) as [[Hvh ->]|]; [|done]. rewrite Hi. by apply (it_valid _ _ _ Hit).
  - intros h' Hh' Hne Hp' He. apply Hne, (it_inj _ _ _ Hit); (done || congruence).
Qed.

(** There is a handle to inode [i] already, or one that is free. *)
Definition room (T : refs) (i : Z) : Prop := (exists h t, handle h /\ T h = Some t /\ t_inum t = i) \/ exists h, no_refs T h.

Lemma dx_iget e s v N L T i : dx e s v N L T -> inum_ok sb i -> room T i ->
  returns (iget ROOTDEV i s) (fun h s' => exists T', takes_ref T i h T' /\ dx e s' v N L T').
Proof.
  intros [Hsb Hw Hn (tab & F & Hit & Hs)] Hi Hroom. unfold iget. mstep.
  set (f1 := fun h => (0 <? i_ref (tab h)) && (i_dev (tab h) =? ROOTDEV) && (i_inum (tab h) =? i)).
  set (f2 := fun h => i_ref (tab h) =? 0).
  rewrite (scan_ext _ f1), (scan_ext (fun h => i_ref (f_itable s h) =? 0) f2) by (intros; unfold f1, f2; by rewrite (fx_tab _ _ _ _ _ _ _ F)).
  destruct (scan f1 NINODE) as [h|] eqn:Hsc; unfold f1 in Hsc.
  - apply scan_Some in Hsc as (Hh & Hf & _). apply andb_true_iff in Hf as [[Hp _]%andb_true_iff Hii]. apply Z.ltb_lt in Hp. apply Z.eqb_eq in Hii.
    eapply fx_seti; [exact F|]. intros s1 F1. cbn. pose proof (Hs h Hh) as Hx.
    destruct (T h) as [t|] eqn:ET; [|cbn in Hx; lia]. destruct Hx as (_ & Hr & Hin & Hl & Hv).
    exists (upd T h (plus_ref i (T h))). split; [split; [done|intros t' Ht'; replace t' with t by congruence; split; [congruence|lia]|done]|].
    split; try done. eexists. split_and!; [exact F1| |].
    + apply itab_ok_same; try done; cbn; auto; lia.
    + apply shows_upd; [done|]. rewrite ET. cbn. split_and!; (done || lia).
  - pose proof (scan_None _ _ Hsc) as Hno. cbn beta in Hno.
    assert (Hnew : forall h', handle h' -> 0 < i_ref (tab h') -> i_inum (tab h') <> i).
    { intros h' Hh' Hp He. specialize (Hno h' Hh'). destruct (it_dev _ _ _ Hit h' Hh' Hp) as [Hd _].
      rewrite Hd, He, !Z.eqb_refl, (proj2 (Z.ltb_lt _ _) Hp) in Hno. done. }
    destruct (scan f2 NINODE) as [h|] eqn:Hsf; unfold f2 in Hsf.
    + apply scan_Some in Hsf as (Hh & Hf & _). apply Z.eqb_eq in Hf. eapply fx_seti; [exact F|]. intros s1 F1. cbn.
      assert (ET : T h = None). { pose proof (Hs h Hh) as Hx. destruct (T h); [|done]. destruct Hx. lia. }
      exists (upd T h (plus_ref i (T h))). split; [split; [done|congruence|done]|]. split; try done. eexists. split_and!; [exact F1| |].
      * apply itab_ok_upd; [done|done| |done]. cbn. intros _. split_and!; try done. intros h' Hh' _. by apply Hnew.
      * apply shows_upd; [done|]. rewrite ET. cbn. pose proof (it_free _ _ _ Hit h Hh Hf). split_and!; (done || lia).
    + exfalso. destruct Hroom as [(h & t & Hh & Ht & Hti)|(h & Hh & HT)].
      * pose proof (Hs h Hh) as Hx. rewrite Ht in Hx. destruct Hx as (Hp & _ & Hin & _). by apply (Hnew h Hh Hp); congruence.
      * pose proof (Hs h Hh) as Hx. rewrite HT in Hx. pose proof (scan_None _ _ Hsf h Hh) as Hz. cbn in Hz, Hx. rewrite Hx in Hz. done.
Qed.

Lemma dx_open e s v N L T h i r lk b : dx e s v N L T -> handle h -> T h = Some (mk_tent i r lk b) ->
  exists tab, fx sb e s v ∅ L tab /\ itab_ok sb tab N /\ (forall h, handle h -> shows (tab h) (T h)) /\
    i_dev (tab h) = ROOTDEV /\ i_inum (tab h) = i /\ i_ref (tab h) = r /\ i_lock (tab h) = lk /\ inum_ok sb i /\ 1 <= r /\
    (b = true -> i_valid (tab h) = true /\ i_di (tab h) = N i).
Proof.
  intros [? ? ? (tab & F & Hit & Hs)] Hh HT. exists tab. pose proof (Hs h Hh) as Hx. rewrite HT in Hx. destruct Hx as (Hp & Hr & Hi & Hl & Hv).
  cbn in *. destruct (it_dev _ _ _ Hit h Hh Hp) as [Hd Hio]. rewrite Hi in Hio. split_and!; try done; try lia.
  intros Hb. specialize (Hv Hb). split; [done|]. rewrite (it_valid _ _ _ Hit h Hh Hp Hv). by rewrite Hi.
Qed.

(** The same inodes and blocks after a change at one handle. *)
Lemma dx_set e s s' v N L T h x o tab : dx e s v N L T -> handle h -> fx sb e s' v ∅ L (upd tab h x) -> itab_ok sb (upd tab h x) N ->
  (forall h, handle h -> shows (tab h) (T h)) -> shows x o -> dx e s' v N L (upd T h o).
Proof. intros [] Hh F Hit Hs Hx. split; try done. eexists. split_and!; [exact F|done|]. by apply shows_upd. Qed.

Lemma dx_ilock e s v N L T h i r b : dx e s v N L T -> handle h -> T h = Some (mk_tent i r false b) -> di_type (N i) <> 0 ->
  Z.of_nat (size L) < NBUF ->
  returns (ilock h s) (fun _ s' => dx e s' v N L (upd T h (Some (mk_tent i r true true)))).
Proof.
  intros Hd Hh HT Ht Hsz. destruct (dx_open _ _ _ _ _ _ _ _ _ _ _ Hd Hh HT) as (tab & F & Hit & Hs & Hdv & Hin & Hr & Hl & Hio & H1 & _).
  eapply returns_mono.
  { eapply (ilock_ok sb e (dx_sb _ _ _ _ _ _ Hd) s v N i L tab h); try done; [apply (dx_wf _ _ _ _ _ _ Hd)|split; (done || lia)|by apply (dx_nodes _ _ _ _ _ _ Hd)]. }
  intros [] s' F'. eapply dx_set; try done; unfold locked in *.
  - apply itab_ok_same; try done; cbn; auto; lia.
  - cbn. split_and!; (done || lia).
Qed.

Lemma dx_iunlock e s v N L T h i r b : dx e s v N L T -> handle h -> T h = Some (mk_tent i r true b) ->
  returns (iunlock h s) (fun _ s' => dx e s' v N L (upd T h (Some (mk_tent i r false b)))).
Proof.
  intros Hd Hh HT. destruct (dx_open _ _ _ _ _ _ _ _ _ _ _ Hd Hh HT) as (tab & F & Hit & Hs & Hdv & Hin & Hr & Hl & Hio & H1 & Hv).
  eapply returns_mono; [eapply (iunlock_ok sb e s v ∅ L tab h); (done || lia)|]. intros [] s' F'. eapply dx_set; try done.
  - apply itab_ok_same; try done; cbn; auto; lia.
  - cbn. split_and!; (done || lia || (intros; by apply Hv)).
Qed.

Lemma dx_idup e s v N L T h t : dx e s v N L T -> handle h -> T h = Some t ->
  returns (idup h s) (fun h' s' => h' = h /\ dx e s' v N L (upd T h (plus_ref (t_inum t) (Some t)))).
Proof.
  intros Hd Hh HT. destruct t as [i r lk b]. destruct (dx_open _ _ _ _ _ _ _ _ _ _ _ Hd Hh HT) as (tab & F & Hit & Hs & Hdv & Hin & Hr & Hl & Hio & H1 & Hv).
  unfold idup. eapply fx_seti; [exact F|]. intros s' F'. cbn. split; [done|]. eapply dx_set; try done.
  - apply itab_ok_same; try done; cbn; auto; lia.
  - cbn. split_and!; (done || lia || (intros; by apply Hv)).
Qed.

(** A reference that is not the last one to an inode without links. *)
Lemma dx_iput e s v N L T h i r lk b : dx e s v N L T -> handle h -> T h = Some (mk_tent i r lk b) -> di_nlink (N i) <> 0 /\ lk = false \/ 1 < r ->
  returns (iput h s) (fun _ s' => dx e s' v N L (upd T h (minus_ref (mk_tent i r lk b)))).
Proof.
  intros Hd Hh HT Hk. destruct (dx_open _ _ _ _ _ _ _ _ _ _ _ Hd Hh HT) as (tab & F & Hit & Hs & Hdv & Hin & Hr & Hl & Hio & H1 & Hv).
  unfold iput. eapply fx_geti; [exact F|].
  assert (Hc : (i_ref (tab h) =? 1) && i_valid (tab h) && (di_nlink (i_di (tab h)) =? 0) = false).
  { destruct (Z.eqb_spec (i_ref (tab h)) 1); [|done]. destruct (i_valid (tab h)) eqn:Hva; [|done]. cbn. apply Z.eqb_neq.
    rewrite (it_valid _ _ _ Hit h Hh) by (done || lia). rewrite Hin. destruct Hk as [[? _]|]; [done|lia]. }
  rewrite Hc. mstep. apply bind_last. eapply fx_seti; [exact F|]. intros s' F'. cbn. eapply dx_set; try done.
  - apply itab_ok_same; cbn; auto; try done; try lia. intros Hz. destruct Hk as [[_ ->]|]; [done|lia].
  - unfold minus_ref. cbn [t_ref]. destruct (Z.eqb_spec r 1) as [->|]; cbn; [lia|]. split_and!; (done || lia || (intros; by apply Hv)).
Qed.

(** Giving back a reference. *)
Lemma dx_unget e s v N L T i h T' : takes_ref T i h T' -> dx e s v N L T' -> (T h = None -> di_nlink (N i) <> 0) ->
  returns (iput h s) (fun _ s' => dx e s' v N L T).
Proof.
  intros [Hh Hi Ha] Hd Hn. pose proof (Ha h) as Hth. rewrite upd_eq in Hth. destruct (T h) as [[j r lk b]|] eqn:ET; cbn in Hth.
  - destruct (Hi _ eq_refl) as [<- H1]. cbn in *. eapply returns_mono; [eapply dx_iput; [exact Hd|done|exact Hth|right; lia]|].
    intros [] s' Hd'. eapply dx_ext; [exact Hd'|]. intros h' _. unfold minus_ref. cbn [t_ref t_inum t_lock t_valid].
    destruct (Z.eqb_spec (r + 1) 1); [lia|]. replace (r + 1 - 1) with r by lia. specialize (Ha h'). unfold upd in *.
    destruct (Z.eqb_spec h' h) as [Eh|]; [congruence|by rewrite Ha].
  - eapply returns_mono; [eapply dx_iput; [exact Hd|done|exact Hth|left; auto]|].
    intros [] s' Hd'. eapply dx_ext; [exact Hd'|]. intros h' _. specialize (Ha h'). unfold upd in *.
    destruct (Z.eqb_spec h' h) as [Eh|]; [by rewrite Eh, ET|by rewrite Ha].
Qed.

Lemma dx_iunlockput e s v N L T h i r b : dx e s v N L T -> handle h -> T h = Some (mk_tent i r true b) -> di_nlink (N i) <> 0 \/ 1 < r ->
  returns (iunlockput h s) (fun _ s' => dx e s' v N L (upd T h (minus_ref (mk_tent i r false b)))).
Proof.
  intros Hd Hh HT Hk. unfold iunlockput. eapply bind_returns; [by eapply dx_iunlock|]. intros [] s1 D1.
  eapply returns_mono; [eapply dx_iput; [exact D1|done|by rewrite upd_eq|destruct Hk; [by left|by right]]|]. intros [] s2 D2.
  eapply dx_ext; [exact D2|]. intros h' _. unfold upd. by destruct (h' =? h).
Qed.

(** ** Operations on a locked inode *)

Section Locked.
Variables (e : tenv) (s : fsys) (v : Z -> list Z) (N : Z -> dinode) (L : gset Z) (T : refs) (h i r : Z).
Hypotheses (Hd : dx e s v N L T) (Hh : handle h) (HT : T h = Some (mk_tent i r true true)).

Lemma dx_locked : exists tab, fx sb e s v ∅ L tab /\ itab_ok sb tab N /\ (forall h, handle h -> shows (tab h) (T h)) /\
  tab h = mk_inode ROOTDEV i r true true (N i) /\ inum_ok sb i /\ 1 <= r.
Proof using Hd Hh HT.
  destruct (dx_open _ _ _ _ _ _ _ _ _ _ _ Hd Hh HT) as (tab & F & Hit & Hs & Hdv & Hin & Hr & Hl & Hio & H1 & Hv).
  exists tab. destruct (Hv eq_refl). split_and!; try done. destruct (tab h). cbn in *. by subst.
Qed.

Lemma dx_geti {A} (k : inode -> M fsys A) Q :
  returns (k (mk_inode ROOTDEV i r true true (N i)) s) Q -> returns (bind (geti h) k s) Q.
Proof using Hd Hh HT. destruct dx_locked as (tab & F & _ & _ & <- & _). intros. by eapply fx_geti. Qed.

Hypothesis Ht : di_type (N i) <> 0.

Lemma dx_at : exists tab, fx sb e s v ∅ L tab /\ itab_ok sb tab N /\ (forall h, handle h -> shows (tab h) (T h)) /\
  tab h = mk_inode ROOTDEV i r true true (N i) /\ at_inode sb tab h N i /\ 1 <= r.
Proof using Hd Hh HT Ht.
  destruct dx_locked as (tab & F & Hit & Hs & He & Hio & H1). exists tab. split_and!; try done. split; try done; by rewrite He.
Qed.

Lemma dx_readi dst off n : 0 <= off < 2 ^ 32 -> 0 <= n < 2 ^ 32 -> Z.of_nat (size L) < NBUF ->
  returns (readi h dst off n s) (fun x s' => dx e s' v N L T /\
    let m := readable (di_size (N i)) off n in (x = (m, bytes_between v (N i) off m) \/ fst x = -1 /\ refused dst n)).
Proof using Hd Hh HT Ht.
  intros Ho Hn Hsz. destruct dx_at as (tab & F & Hit & Hs & He & Hai & _). destruct Hd as [Hsb Hw Hnd _].
  eapply returns_mono; [by eapply (readi_ok sb e Hsb s v N i L tab h dst off n)|]. intros x s' [F' Hx]. split; [|done].
  split; try done. by exists tab.
Qed.

(** The inode has changed in memory and on disk. *)
Lemma dx_node s' v' L' di' tab : itab_ok sb tab N -> (forall h, handle h -> shows (tab h) (T h)) ->
  tab h = mk_inode ROOTDEV i r true true (N i) -> 1 <= r ->
  fx sb e s' v' ∅ L' (with_di tab h di') -> fs_wf sb e v' (upd N i di') ->
  (forall j, inum_ok sb j -> get_inode sb v' j = if j =? i then di' else get_inode sb v j) ->
  dx e s' v' (upd N i di') L' T.
Proof using Hd Hh HT.
  intros Hit Hs He H1 F Hw' Hg. destruct Hd as [Hsb Hw Hnd _]. split; try done.
  - intros j Hj. rewrite Hg by done. unfold upd. destruct (j =? i); [done|auto].
  - assert (Hwd : with_di tab h di' = upd tab h (mk_inode ROOTDEV i (i_ref (tab h)) true true di')) by (unfold with_di; by rewrite He).
    rewrite Hwd in F. eexists. split_and!; [exact F|apply itab_ok_node; try done; by rewrite He|].
    intros h' Hh'. unfold upd. destruct (Z.eqb_spec h' h) as [->|]; [|auto]. rewrite HT. cbn. rewrite He. cbn. split_and!; (done || lia).
Qed.

Lemma dx_writei src bs off n : 0 <= off < 2 ^ 32 -> 0 <= n < 2 ^ 32 -> n <= Z.of_nat (length bs) -> delivers src bs ->
  Z.of_nat (size (BM sb ∪ L)) + nblk off n + 4 < NBUF -> 1 <= te_out e ->
  returns (writei h src off n s) (fun x s' =>
    if bad_range (di_size (N i)) off n then x = -1 /\ dx e s' v N L T
    else exists v' di' L', dx e s' v' (upd N i di') L' T /\ written sb e v N i off (take (Z.to_nat x) bs) v' di' /\ 0 <= x <= n /\
      Z.of_nat (size (BM sb ∪ L')) <= Z.of_nat (size (BM sb ∪ L)) + nblk off n + 2 /\
      (0 < x < n -> (off + x) mod BSIZE = 0) /\ (x < n -> full sb v' /\ di_size (N i) < off + n \/ refuses src n)).
Proof using Hd Hh HT Ht.
  intros Ho Hn Hl Hsrc Hsz Hout. destruct dx_at as (tab & F & Hit & Hs & He & Hai & H1). destruct Hd as [Hsb Hw Hnd _].
  pose proof (weight_le sb (N i) L) as Hwl.
  eapply returns_mono; [eapply (writei_ok sb e Hsb s v N i L tab h src bs off n); try done; lia|]. intros x s' Hx. cbn beta in Hx.
  destruct (bad_range _ _ _).
  - destruct Hx as [-> F']. split; [done|]. split; try done. by exists tab.
  - destruct Hx as (v' & di' & L' & F' & Hwr & Hrest). exists v', di', L'. split_and!; try apply Hrest; [|done].
    eapply (dx_node s' v' L' di' tab); try done; apply Hwr.
Qed.

(** A change of the copy of the inode that keeps its blocks, then [iupdate]. *)
Lemma dx_update (f : dinode -> dinode) {A} (k : unit -> M fsys A) Q : di_ok (f (N i)) -> di_size (f (N i)) = di_size (N i) ->
  di_addrs (f (N i)) = di_addrs (N i) -> di_type (f (N i)) = di_type (N i) -> Z.of_nat (size L) < NBUF -> 1 <= te_out e ->
  (forall s' v', dx e s' v' (upd N i (f (N i))) ({[IBLOCK i sb]} ∪ L) T ->
     (forall j, inum_ok sb j -> di_type (N j) <> 0 -> keeps v v' (N j)) -> (forall c, 0 <= c < sb_size sb -> used sb v' c = used sb v c) -> returns (k tt s') Q) ->
  returns (bind (seti h (fun n => set_di (f (i_di n)) n)) (fun _ => bind (iupdate h) k) s) Q.
Proof using Hd Hh HT.
  intros Hok Hsz Had Hty HL Hout Hk. destruct dx_locked as (tab & F & Hit & Hs & He & Hio & H1). destruct Hd as [Hsb Hw Hnd _].
  eapply fx_seti; [exact F|]. intros s1 F1. set (di' := f (N i)) in *.
  assert (Hw1 : fs_wf sb e v (upd N i di')) by (by apply wf_fields).
  eapply bind_returns; [eapply (iupdate_copy sb e Hsb s1 v (upd N i di') i di' L _ h); try done; rewrite upd_eq, He; done|].
  intros [] s2 F2. destruct (wf_iupd sb e Hsb v _ i di' Hw1 Hio) as [Hw2 _]. eapply Hk.
  - eapply (dx_node s2 _ _ di' tab); try done.
    + unfold with_di. rewrite He in *. exact F2.
    + intros j Hj. by apply (get_inode_iupd sb e Hsb); [apply Hw1|..].
  - intros j Hj Htj. by apply (wf_iupd sb e Hsb v N i di' Hw Hio).
  - intros c Hc. apply (used_upd_ib sb e Hsb); [apply (iblock_ib _ _ Hsb), Hio|done].
Qed.
End Locked.
End Refs.
