(* ===== verification/FsDir.v ===== *)
(** Directories.  The content of a directory is a sequence of entries of
    sixteen bytes; [dirlookup] is the search of a name in it and [dirlink] adds
    a name, so that a directory is a finite map from names to inodes. *)
From S2P Require Import Prelude Bufcache Log LogClaims Txn FileLayer Fs FsBlocks FsInode FsData FsWrite FsTable FsTx FsRefs.
Local Open Scope kern_scope.

(** ** The content of a directory *)

(** Entry [k] of the content [c], and their number. *)
Definition dent (c : list Z) (k : Z) : list Z := take 16 (drop (Z.to_nat (16 * k)) c).
Definition dents (c : list Z) : Z := Z.of_nat (length c) / 16.

(** The entry is in use and has this name. *)
Definition names (name de : list Z) : bool := negb (de_inum de =? 0) && (namecmp name (de_name de) =? 0).

(** The inode of a name, and the offset of its entry. *)
Definition dlook (c name : list Z) : option (Z * Z) :=
  (fun k => (de_inum (dent c k), 16 * k)) <$> scan (fun k => names name (dent c k)) (dents c).
(** The offset of the first entry that is not in use, or the end. *)
Definition dslot (c : list Z) : Z :=
  match scan (fun k => de_inum (dent c k) =? 0) (dents c) with Some k => 16 * k | None => Z.of_nat (length c) end.

Definition dir_shape (c : list Z) : Prop := Z.of_nat (length c) mod 16 = 0.

Lemma dents_shape c : dir_shape c -> Z.of_nat (length c) = 16 * dents c.
Proof. unfold dir_shape, dents. intros. zlia. Qed.

(** A loop that runs through the entries from [k] on is the scan. *)
Lemma scan_step f n k : 0 <= k < n -> (forall x, 0 <= x < k -> f x = false) -> f k = true -> scan f n = Some k.
Proof. intros. by apply scan_first. Qed.

(** ** Names *)

(** The name that a C string, or the field of an entry, stands for. *)
Fixpoint cname (n : nat) (p : list Z) : list Z :=
  match n, p with
  | S n', c :: p' => if c =? 0 then [] else c :: cname n' p'
  | _, _ => []
  end.
Definition dname (p : list Z) : list Z := cname (Z.to_nat DIRSIZ) p.

Lemma name_cmp_iff n p q : name_cmp n p q = 0 <-> cname n p = cname n q.
Proof.
  revert p q. induction n as [|n IH]; intros p q; [done|]. cbn [name_cmp cname].
  destruct p as [|a p], q as [|b q]; cbn [hd tl tail].
  - done.
  - cbn. destruct (Z.eqb_spec b 0) as [->|]; [done|]. split; [lia|done].
  - destruct (Z.eqb_spec a 0) as [->|Ha]; cbn; [done|]. destruct (Z.eqb_spec a 0); [lia|]. cbn. split; [lia|done].
  - destruct (Z.eqb_spec a 0) as [->|Ha]; cbn.
    + destruct (Z.eqb_spec b 0) as [->|]; [done|]. split; [lia|done].
    + destruct (Z.eqb_spec a b) as [->|Hab].
      * destruct (Z.eqb_spec b 0); [done|]. rewrite IH. split; [by intros ->|by intros [= ->]].
      * destruct (Z.eqb_spec b 0) as [->|]; split; (lia || done || congruence).
Qed.

Lemma namecmp_iff p q : namecmp p q = 0 <-> dname p = dname q.
Proof. apply name_cmp_iff. Qed.

Lemma cname_padded n p k : Forall (fun c => c <> 0) p -> cname n (take n (p ++ replicate k 0)) = take n p.
Proof.
  intros Hp. revert p Hp. induction n as [|n IH]; intros p Hp; [done|]. destruct p as [|a p]; cbn.
  - destruct k; cbn; done.
  - inversion Hp. destruct (Z.eqb_spec a 0); [done|]. f_equal. auto.
Qed.

Lemma cname_plain n p : Forall (fun c => c <> 0) p -> cname n p = take n p.
Proof.
  intros Hp. revert p Hp. induction n as [|n IH]; intros p Hp; [done|]. destruct p as [|a p]; cbn; [done|].
  inversion Hp. destruct (Z.eqb_spec a 0); [done|]. f_equal. auto.
Qed.

(** ** A new entry *)

Lemma length_dirent name inum : length (mk_dirent name inum) = 16%nat.
Proof. unfold mk_dirent. rewrite length_app, length_take, length_app, length_replicate. change (Z.to_nat DIRSIZ) with 14%nat. cbn [length]. lia. Qed.

Lemma dirent_inum name inum : 0 <= inum < 2 ^ 16 -> de_inum (mk_dirent name inum) = inum.
Proof.
  intros Hi. unfold mk_dirent, de_inum, u16. rewrite (Z.mod_small inum (2 ^ 16)) by lia.
  change (le_at _ 0 2) with (inum mod 256 + 256 * (inum / 256 + 256 * 0)). pose proof (Z.div_mod inum 256). lia.
Qed.

Lemma dirent_name name inum : Forall (fun c => c <> 0) name -> dname (de_name (mk_dirent name inum)) = dname name.
Proof.
  intros Hn. unfold dname, de_name, mk_dirent. change (drop 2 _) with (take (Z.to_nat DIRSIZ) (name ++ replicate (Z.to_nat DIRSIZ) 0)).
  by rewrite take_take, Nat.min_id, cname_padded, cname_plain.
Qed.

Lemma dent_splice c d k k' : length d = 16%nat -> 0 <= k -> 0 <= k' -> 16 * k <= Z.of_nat (length c) -> k' < k \/ k < k' \/ k = k' ->
  dent (splice (Z.to_nat (16 * k)) d c) k' = if k' =? k then d else dent c k'.
Proof.
  intros Hd Hk Hk' Hl Hc. unfold dent, splice. destruct (Z.eqb_spec k' k) as [->|Hne].
  - rewrite drop_app_length' by (rewrite length_take; lia). by rewrite take_app_length'.
  - destruct (Z.lt_ge_cases k' k).
    + rewrite drop_app_le by (rewrite length_take; lia). rewrite take_app_le by (rewrite length_drop, length_take; lia).
      rewrite skipn_firstn_comm, take_take. f_equal. lia.
    + rewrite drop_app_ge by (rewrite length_take; lia). rewrite drop_app_ge by (rewrite length_take; lia). rewrite drop_drop. do 2 f_equal.
      rewrite length_take. lia.
Qed.

(** ** A directory as a finite map *)

(** Entry [k] is in use. *)
Definition live (c : list Z) (k : Z) : Prop := 0 <= k < dents c /\ de_inum (dent c k) <> 0.

Record dir_ok (c : list Z) : Prop := {
  dk_shape : dir_shape c;
  dk_uniq : forall k k', live c k -> live c k' -> dname (de_name (dent c k)) = dname (de_name (dent c k')) -> k = k'
}.

Lemma names_iff name de : names name de = true <-> de_inum de <> 0 /\ dname name = dname (de_name de).
Proof. unfold names. by rewrite andb_true_iff, negb_true_iff, Z.eqb_neq, Z.eqb_eq, namecmp_iff. Qed.

Lemma dlook_Some c name j off : dlook c name = Some (j, off) ->
  exists k, off = 16 * k /\ live c k /\ de_inum (dent c k) = j /\ dname (de_name (dent c k)) = dname name.
Proof.
  unfold dlook. destruct (scan _ _) as [k|] eqn:Hs; [|done]. intros [= <- <-].
  apply scan_Some in Hs as (Hk & [Hi Hn]%names_iff & _). by exists k.
Qed.

Lemma dlook_None c name : dlook c name = None -> forall k, live c k -> dname (de_name (dent c k)) <> dname name.
Proof.
  unfold dlook. destruct (scan _ _) as [k|] eqn:Hs; [done|]. intros _ k [Hk Hi] Hn.
  pose proof (scan_None _ _ Hs k Hk) as Hf. apply not_true_iff_false in Hf. apply Hf, names_iff. done.
Qed.

(** In a directory with distinct names the entry found is the only one. *)
Lemma dlook_iff c name j off : dir_ok c ->
  dlook c name = Some (j, off) <-> exists k, off = 16 * k /\ live c k /\ de_inum (dent c k) = j /\ dname (de_name (dent c k)) = dname name.
Proof.
  intros Hok. split; [apply dlook_Some|]. intros (k & -> & Hk & <- & Hn). destruct (dlook c name) as [[j' off']|] eqn:Hl.
  - apply dlook_Some in Hl as (k' & -> & Hk' & <- & Hn'). by rewrite (dk_uniq _ Hok k k') by congruence.
  - by apply (dlook_None _ _ Hl) in Hn.
Qed.

Lemma dlook_none_iff c name : dlook c name = None <-> forall k, live c k -> dname (de_name (dent c k)) <> dname name.
Proof.
  split; [apply dlook_None|]. intros Hno. destruct (dlook c name) as [[j off]|] eqn:Hl; [|done].
  apply dlook_Some in Hl as (k & _ & Hk & _ & Hn). by apply Hno in Hn.
Qed.

Lemma length_splice_dent c d k : length d = 16%nat -> 0 <= k -> 16 * k <= Z.of_nat (length c) ->
  Z.of_nat (length (splice (Z.to_nat (16 * k)) d c)) = Z.max (Z.of_nat (length c)) (16 * k + 16).
Proof. intros Hd Hk Hl. unfold splice. rewrite !length_app, length_take, length_drop, Hd. lia. Qed.

(** The entries after entry [k] has been replaced or appended. *)
Lemma splice_dents c d k : dir_shape c -> length d = 16%nat -> 0 <= k <= dents c ->
  let c' := splice (Z.to_nat (16 * k)) d c in
  dir_shape c' /\ dents c' = Z.max (dents c) (k + 1) /\ forall k', 0 <= k' -> dent c' k' = if k' =? k then d else dent c k'.
Proof.
  intros Hs Hd Hk c'. pose proof (dents_shape _ Hs) as Hl. pose proof (length_splice_dent c d k Hd ltac:(lia) ltac:(lia)) as Hl'. fold c' in Hl'.
  unfold dir_shape, dents in *. split_and!; [zlia|zlia|]. intros k' Hk'. apply dent_splice; lia.
Qed.

Lemma splice_live c d k k' : dir_shape c -> length d = 16%nat -> 0 <= k <= dents c ->
  live (splice (Z.to_nat (16 * k)) d c) k' <-> if k' =? k then de_inum d <> 0 else live c k'.
Proof.
  intros Hs Hd Hk. destruct (splice_dents c d k Hs Hd Hk) as (_ & Hn & He). unfold live. rewrite Hn. destruct (Z.eqb_spec k' k) as [->|Hne].
  - rewrite He, Z.eqb_refl by lia. split; [tauto|]. intros. split; [lia|done].
  - apply Z.eqb_neq in Hne as Hb. split; intros [Hr Hi].
    + rewrite He, Hb in Hi by lia. split; [lia|done].
    + rewrite He, Hb by lia. split; [lia|done].
Qed.

(** The slot that [dirlink] takes. *)
Lemma dslot_spec c : dir_shape c -> exists k, dslot c = 16 * k /\ 0 <= k <= dents c /\ ~ live c k.
Proof.
  intros Hs. unfold dslot. destruct (scan _ _) as [k|] eqn:Hsc.
  - apply scan_Some in Hsc as (Hk & Hz%Z.eqb_eq & _). exists k. split_and!; try done; [lia|lia|]. by intros [_ ?].
  - exists (dents c). rewrite (dents_shape _ Hs). assert (0 <= dents c) by (unfold dents; zlia). split_and!; [done|lia|lia|]. intros [? _]. lia.
Qed.

(** Adding a name: the map has the new name, and is otherwise as before. *)
Lemma dlook_link c name inum : dir_ok c -> dlook c name = None -> Forall (fun x => x <> 0) name -> 0 < inum < 2 ^ 16 ->
  let c' := splice (Z.to_nat (dslot c)) (mk_dirent name inum) c in
  dir_ok c' /\ forall nm, dlook c' nm = if bool_decide (dname nm = dname name) then Some (inum, dslot c) else dlook c nm.
Proof.
  intros Hok Hno Hnm Hin c'. destruct (dslot_spec c (dk_shape _ Hok)) as (k & Hk & Hkr & Hnl). unfold c'. rewrite Hk. clear c'.
  pose proof (length_dirent name inum) as Hd. destruct (splice_dents c _ k (dk_shape _ Hok) Hd Hkr) as (Hs' & _ & He). set (c' := splice _ _ c) in *.
  assert (Hlive : forall k', live c' k' <-> if k' =? k then True else live c k').
  { intros k'. unfold c'. rewrite (splice_live c _ k k' (dk_shape _ Hok) Hd Hkr), dirent_inum by lia. destruct (k' =? k); [split; [done|lia]|done]. }
  assert (Hold : forall k', live c k' -> k' <> k /\ dent c' k' = dent c k').
  { intros k' Hl. assert (k' <> k) by congruence. split; [done|]. rewrite He by (destruct Hl; lia). by destruct (Z.eqb_spec k' k). }
  assert (Hnew : dent c' k = mk_dirent name inum) by (rewrite He, Z.eqb_refl by lia; done).
  assert (Hok' : dir_ok c').
  { split; [done|]. intros x y Hx Hy. apply Hlive in Hx, Hy. destruct (Z.eqb_spec x k) as [->|], (Z.eqb_spec y k) as [->|]; try done.
    - destruct (Hold y Hy) as [_ ->]. rewrite Hnew, dirent_name by done. intros E. by apply (dlook_None _ _ Hno) in Hy.
    - destruct (Hold x Hx) as [_ ->]. rewrite Hnew, dirent_name by done. intros E. by apply (dlook_None _ _ Hno) in Hx.
    - destruct (Hold x Hx) as [_ ->], (Hold y Hy) as [_ ->]. by apply (dk_uniq _ Hok). }
  split; [done|]. intros nm. case_bool_decide as Hn.
  - apply (dlook_iff _ _ _ _ Hok'). exists k. rewrite Hnew, dirent_name, dirent_inum by (done || lia). split_and!; try done. apply Hlive. by rewrite Z.eqb_refl.
  - destruct (dlook c nm) as [[j off]|] eqn:Hl.
    + apply dlook_Some in Hl as (x & -> & Hx & Hj & Hnx). apply (dlook_iff _ _ _ _ Hok'). exists x. destruct (Hold x Hx) as [Hne ->].
      split_and!; try done. apply Hlive. by destruct (Z.eqb_spec x k).
    + apply dlook_none_iff. intros y Hy. apply Hlive in Hy. destruct (Z.eqb_spec y k) as [Ey|Ey]; [rewrite Ey|].
      * rewrite Hnew, dirent_name by done. congruence.
      * destruct (Hold y Hy) as [_ ->]. by apply (dlook_None _ _ Hl).
Qed.

Section Dir.
Context {BC : BufCache} (sb : superblock).

Lemma dent_bytes v (N : Z -> dinode) i k : 0 <= k -> 16 * k + 16 <= di_size (N i) -> dent (fcontent v (N i)) k = bytes_between v (N i) (16 * k) 16.
Proof.
  intros Hk Hs. unfold dent, fcontent. replace (di_size (N i)) with (16 * k + (16 + (di_size (N i) - 16 * k - 16))) by lia.
  rewrite bytes_app, drop_app_length' by (rewrite ?length_bytes; lia). rewrite Z.add_0_l, bytes_app, take_app_length' by (rewrite ?length_bytes; lia).
  done.
Qed.

Lemma nblk_dent k : nblk (16 * k) 16 = 1.
Proof. unfold nblk. cbn [Z.leb Z.compare]. unfold BSIZE. zlia. Qed.

Section Lookup.
Variables (e : tenv) (v : Z -> list Z) (N : Z -> dinode) (L : gset Z) (T : refs) (h i r : Z).
Hypotheses (Hh : handle h) (HT : T h = Some (mk_tent i r true true)) (Ht : di_type (N i) = T_DIR) (HL : Z.of_nat (size L) < NBUF).
Abbreviation c := (fcontent v (N i)).
Hypothesis Hc : dir_shape c.

Lemma dir_size s : dx sb e s v N L T -> di_size (N i) = 16 * dents c /\ Z.of_nat (length c) = di_size (N i) /\ di_size (N i) <= MAXFILE * BSIZE.
Proof using Hh HT Ht Hc.
  intros Hd. destruct (dx_inum sb _ _ _ _ _ _ _ _ Hd Hh HT) as [Hi _]. cbn in Hi. pose proof (do_size _ (fw_di _ _ _ _ (dx_wf _ _ _ _ _ _ _ Hd) i Hi)) as Hs.
  assert (Z.of_nat (length c) = di_size (N i)) by (apply length_content; lia). rewrite (dents_shape _ Hc) in *.
  split_and!; [lia|lia|]. apply (fw_size _ _ _ _ (dx_wf _ _ _ _ _ _ _ Hd) i Hi). by rewrite Ht.
Qed.

(** Reading entry [k]. *)
Lemma read_dent {A} s k (m : Z * list Z -> M fsys A) Q : dx sb e s v N L T -> 0 <= k < dents c ->
  (forall s', dx sb e s' v N L T -> returns (m (16, dent c k) s') Q) -> returns (bind (readi h kernel_sink (16 * k) sizeof_dirent) m s) Q.
Proof using Hh HT Ht Hc HL.
  intros Hd Hk Hm. destruct (dir_size s Hd) as (Hs & Hlen & Hmax). pose proof (eq_refl : MAXFILE * BSIZE = 274432) as Hmf. unfold sizeof_dirent.
  eapply bind_returns; [eapply (dx_readi sb e s v N L T h i r Hd Hh HT ltac:(by rewrite Ht) kernel_sink (16 * k) 16); lia|].
  intros x s' [Hd' Hx]. assert (Hrd : readable (di_size (N i)) (16 * k) 16 = 16).
  { unfold readable. rewrite u32_small by lia. destruct (Z.ltb_spec (di_size (N i)) (16 * k)), (Z.ltb_spec (16 * k + 16) (16 * k)), (Z.ltb_spec (di_size (N i)) (16 * k + 16)); cbn; lia. }
  rewrite Hrd in Hx. destruct Hx as [->|[_ (t & bs & _ & _ & Hf)]]; [|done]. rewrite <- dent_bytes by lia. by apply Hm.
Qed.

Lemma dirlookup_loop_ok s name k n : dx sb e s v N L T -> 0 <= k <= dents c -> dents c < k + Z.of_nat n ->
  (forall x, 0 <= x < k -> names name (dent c x) = false) ->
  (forall j off, dlook c name = Some (j, off) -> inum_ok sb j /\ room T j) ->
  returns (dirlookup_loop n h name (16 * k) s) (fun x s' =>
    match dlook c name with
    | None => x = None /\ dx sb e s' v N L T
    | Some (j, off) => exists h' T', x = Some (h', off) /\ takes_ref T j h' T' /\ dx sb e s' v N L T'
    end).
Proof using Hh HT Ht Hc HL.
  intros Hd Hk Hn Hno Hj. revert s k Hd Hk Hn Hno. induction n as [|n IH]; intros s k Hd Hk Hn Hno; [lia|]. cbn [dirlookup_loop].
  eapply dx_geti; [done..|]. cbn [i_di i_dev]. destruct (dir_size s Hd) as (Hs & Hlen & Hmax). rewrite Hs.
  destruct (Z.ltb_spec (16 * k) (16 * dents c)) as [Hlt|Hge].
  - apply read_dent; [done|lia|]. intros s1 D1. cbn [fst snd]. change (negb (16 =? sizeof_dirent)) with false. cbv iota.
    assert (Hnext : names name (dent c k) = false -> returns (dirlookup_loop n h name (16 * k + sizeof_dirent) s1) (fun x s' =>
      match dlook c name with None => x = None /\ dx sb e s' v N L T | Some (j, off) => exists h' T', x = Some (h', off) /\ takes_ref T j h' T' /\ dx sb e s' v N L T' end)).
    { intros Hf. replace (16 * k + sizeof_dirent) with (16 * (k + 1)) by (unfold sizeof_dirent; lia). apply IH; [done|lia|lia|].
      intros x Hx. destruct (Z.eq_dec x k) as [->|]; [done|]. apply Hno. lia. }
    unfold names in Hnext. destruct (de_inum (dent c k) =? 0) eqn:E0; [by apply Hnext|].
    destruct (namecmp name (de_name (dent c k)) =? 0) eqn:En; [|by apply Hnext].
    assert (Hl : dlook c name = Some (de_inum (dent c k), 16 * k)).
    { unfold dlook. rewrite (scan_step _ _ k); [done|lia|done|]. unfold names. by rewrite E0, En. }
    rewrite Hl in *. destruct (Hj _ _ eq_refl) as [Hio Hroom].
    eapply bind_returns; [by eapply dx_iget|]. intros h' s2 (T' & Htk & D2). cbn. eauto.
  - assert (k = dents c) as -> by lia. cbn. unfold dlook. rewrite scan_none; [done|]. auto.
Qed.

Lemma dirlookup_ok s name : dx sb e s v N L T -> (forall j off, dlook c name = Some (j, off) -> inum_ok sb j /\ room T j) ->
  returns (dirlookup h name s) (fun x s' =>
    match dlook c name with
    | None => x = None /\ dx sb e s' v N L T
    | Some (j, off) => exists h' T', x = Some (h', off) /\ takes_ref T j h' T' /\ dx sb e s' v N L T'
    end).
Proof using Hh HT Ht Hc HL.
  intros Hd Hj. unfold dirlookup. eapply dx_geti; [done..|]. cbn [i_di]. rewrite Ht. cbn. destruct (dir_size s Hd) as (Hs & Hlen & Hmax).
  apply (dirlookup_loop_ok s name 0); try done; try lia. rewrite Hs. unfold sizeof_dirent.
  replace (16 * dents c / 16) with (dents c) by (rewrite Z.mul_comm, Z.div_mul; lia). lia.
Qed.

Lemma dirlink_loop_ok s k n : dx sb e s v N L T -> 0 <= k <= dents c -> dents c < k + Z.of_nat n ->
  (forall x, 0 <= x < k -> de_inum (dent c x) <> 0) ->
  returns (dirlink_loop n h (16 * k) s) (fun off s' => off = dslot c /\ dx sb e s' v N L T).
Proof using Hh HT Ht Hc HL.
  revert s k. induction n as [|n IH]; intros s k Hd Hk Hn Hno; [lia|]. cbn [dirlink_loop].
  assert (Hf : forall x, 0 <= x < k -> (de_inum (dent c x) =? 0) = false) by (intros; apply Z.eqb_neq; auto).
  eapply dx_geti; [done..|]. cbn [i_di]. destruct (dir_size s Hd) as (Hs & Hlen & Hmax). rewrite Hs.
  destruct (Z.ltb_spec (16 * k) (16 * dents c)) as [Hlt|Hge].
  - apply read_dent; [done|lia|]. intros s1 D1. cbn [fst snd]. change (negb (16 =? sizeof_dirent)) with false. cbv iota.
    destruct (Z.eqb_spec (de_inum (dent c k)) 0) as [E|E].
    + cbn. split; [|done]. unfold dslot. rewrite (scan_first _ _ k); [done|lia|by apply Z.eqb_eq|done].
    + replace (16 * k + sizeof_dirent) with (16 * (k + 1)) by (unfold sizeof_dirent; lia). apply IH; [done|lia|lia|].
      intros x Hx. destruct (Z.eq_dec x k) as [->|]; [done|]. apply Hno. lia.
  - assert (k = dents c) as -> by lia. cbn. split; [|done]. unfold dslot. rewrite scan_none by done. lia.
Qed.

Lemma written_nothing s off : dx sb e s v N L T -> 0 <= off <= di_size (N i) -> written sb e v N i off [] v (N i).
Proof using Hh HT Ht Hc.
  intros Hd Ho. destruct (dir_size s Hd) as (Hs & Hlen & Hmax). split; try done.
  - eapply fs_wf_ext; [apply Hd|]. intros. symmetry. apply upd_same.
  - unfold splice. cbn. rewrite Nat.add_0_r. by rewrite take_drop.
  - intros j Hj. destruct (Z.eqb_spec j i) as [->|]; [by apply Hd|done].
Qed.

(** [dirlink] fails when the name is there, and adds it otherwise unless the
    disk or the directory is full. *)
Lemma dirlink_ok s name inum : dx sb e s v N L T -> 1 <= te_out e -> Z.of_nat (size (BM sb ∪ L)) + 5 < NBUF ->
  (forall j off, dlook c name = Some (j, off) -> inum_ok sb j /\ room T j /\ di_nlink (N j) <> 0) ->
  returns (dirlink h name inum s) (fun x s' =>
    match dlook c name with
    | Some _ => x = -1 /\ dx sb e s' v N L T
    | None => exists v' di' L', dx sb e s' v' (upd N i di') L' T /\ Z.of_nat (size (BM sb ∪ L')) <= Z.of_nat (size (BM sb ∪ L)) + 3 /\
        (x = 0 /\ written sb e v N i (dslot c) (mk_dirent name inum) v' di' \/
         x = -1 /\ written sb e v N i (dslot c) [] v' di' /\ (full sb v' \/ di_size (N i) = MAXFILE * BSIZE))
    end).
Proof using Hh HT Ht Hc HL.
  intros Hd Hout Hsz Hj. destruct (dir_size s Hd) as (Hs & Hlen & Hmax). unfold dirlink.
  eapply bind_returns; [apply dirlookup_ok; [done|]; intros j off Hl; by destruct (Hj j off Hl) as (? & ? & _)|].
  intros x s1 Hx. cbn beta in Hx. destruct (dlook c name) as [[j off]|] eqn:Hl.
  { destruct Hx as (h' & T' & -> & Htk & D1). eapply bind_returns; [eapply dx_unget; [done..|]; intros _; by eapply Hj|]. intros [] s2 D2. done. }
  destruct Hx as [-> D1]. eapply dx_geti; [done..|]. cbn [i_di]. rewrite Hs. unfold sizeof_dirent at 1.
  replace (16 * dents c / 16) with (dents c) by (rewrite Z.mul_comm, Z.div_mul; lia).
  eapply bind_returns; [apply (dirlink_loop_ok s1 0); [done|lia|lia|lia]|]. intros off s2 [-> D2].
  destruct (dslot_spec c Hc) as (k & Hk & Hkr & _). rewrite Hk. pose proof (eq_refl : MAXFILE * BSIZE = 274432) as Hmf. unfold sizeof_dirent.
  eapply bind_returns.
  { apply (dx_writei sb e s2 v N L T h i r D2 Hh HT ltac:(by rewrite Ht) _ (mk_dirent name inum) (16 * k) 16);
      [lia|lia|by rewrite length_dirent|apply kernel_delivers|rewrite nblk_dent; lia|done]. }
  intros x s3 Hx. cbn beta in Hx. destruct (bad_range (di_size (N i)) (16 * k) 16) eqn:Hb.
  - destruct Hx as [-> D3]. cbn. exists v, (N i), L. split_and!; [by eapply dx_nodes_ext; [exact D3|]; intros; rewrite upd_same|lia|right].
    split_and!; [done|apply (written_nothing s); [done|lia]|right]. unfold bad_range in Hb. rewrite u32_small in Hb by lia.
    destruct (Z.ltb_spec (di_size (N i)) (16 * k)), (Z.ltb_spec (16 * k + 16) (16 * k)), (Z.ltb_spec (MAXFILE * BSIZE) (16 * k + 16)); cbn in Hb; try done; lia.
  - destruct Hx as (v' & di' & L' & D3 & Hwr & Hx & HL' & Hbd & Hfl). rewrite nblk_dent in HL'. cbn. exists v', di', L'. split_and!; [done|lia|].
    assert (x = 0 \/ x = 16) as [->| ->].
    { destruct (Z.eq_dec x 0); [by left|]. destruct (Z.eq_dec x 16); [by right|]. exfalso. specialize (Hbd ltac:(lia)). unfold BSIZE in Hbd. zlia. }
    + right. split_and!; [done|exact Hwr|]. destruct (Hfl ltac:(lia)) as [[Hf _]|Hf]; [by left|]. by apply kernel_accepts in Hf.
    + left. split; [done|]. by rewrite take_ge in Hwr by (rewrite length_dirent; lia).
Qed.
End Lookup.
End Dir.
