(* ===== verification/FsPath.v ===== *)
(** Paths.  [skipelem] taken together is the split of a path at its slashes,
    and [namex] is the walk from directory to directory along the elements. *)
From S2P Require Import Prelude Bufcache Log LogClaims Txn FileLayer Fs FsBlocks FsInode FsData FsWrite FsTable FsTx FsRefs FsDir.
Local Open Scope kern_scope.

(** ** The elements of a path *)

Fixpoint split_path (p : list Z) : list (list Z) :=
  match p with
  | [] => [[]]
  | c :: p' =>
      if c =? c_slash then [] :: split_path p'
      else match split_path p' with e :: es => (c :: e) :: es | [] => [[c]] end
  end.
(** The non-empty pieces between slashes, cut to the length of a name. *)
Definition pelems (p : list Z) : list (list Z) := take (Z.to_nat DIRSIZ) <$> filter (fun e => e <> []) (split_path p).

Lemma split_path_nonempty p : split_path p <> [].
Proof. destruct p as [|c p]; cbn; [done|]. destruct (c =? c_slash); [done|]. by destruct (split_path p). Qed.

Lemma pelems_skip p : pelems (skip_slashes p) = pelems p.
Proof.
  induction p as [|c p IH]; [done|]. cbn [skip_slashes]. destruct (c =? c_slash) eqn:E; [|done]. rewrite IH. unfold pelems. cbn. by rewrite E.
Qed.

Lemma skip_slashes_cons p c q : skip_slashes p = c :: q -> c <> c_slash.
Proof. induction p as [|a p IH]; [done|]. cbn. destruct (Z.eqb_spec a c_slash); [done|]. by intros [= -> _]. Qed.

Lemma skip_slashes_length p : (length (skip_slashes p) <= length p)%nat.
Proof. induction p as [|a p IH]; [done|]. cbn. destruct (a =? c_slash); cbn; lia. Qed.

Lemma split_elem_spec p : split_path p = fst (split_elem p) :: match snd (split_elem p) with [] => [] | _ :: q => split_path q end /\
  length p = (length (fst (split_elem p)) + length (snd (split_elem p)))%nat /\ (forall c q, snd (split_elem p) = c :: q -> c = c_slash).
Proof.
  induction p as [|c p IH]; [done|]. cbn. destruct (Z.eqb_spec c c_slash) as [->|Hc]; [cbn; split_and!; try done; congruence|].
  destruct (split_elem p) as [e r]. cbn in *. destruct IH as (-> & -> & Hr). split_and!; done.
Qed.

(** One call of [skipelem] takes the first element. *)
Lemma skipelem_spec p : match skipelem p with
  | None => pelems p = []
  | Some (name, rest) => pelems p = name :: pelems rest /\ (length rest < length p)%nat /\ (rest = [] <-> pelems rest = [])
  end.
Proof.
  unfold skipelem. rewrite <- (pelems_skip p). pose proof (skip_slashes_length p) as Hl. destruct (skip_slashes p) as [|c q] eqn:Hp; [done|].
  pose proof (skip_slashes_cons _ _ _ Hp) as Hc. destruct (split_elem_spec (c :: q)) as (Hs & Hlen & Hr). destruct (split_elem (c :: q)) as [e r] eqn:He. cbn [fst snd] in *.
  assert (Hne : e <> []). { cbn in He. apply Z.eqb_neq in Hc. rewrite Hc in He. destruct (split_elem q). by injection He as <- <-. }
  split_and!.
  - rewrite pelems_skip. unfold pelems. rewrite Hs. rewrite filter_cons_True by done. cbn. f_equal.
    destruct r as [|a r]; [done|]. rewrite (Hr a r eq_refl). cbn. done.
  - destruct e; [done|]. pose proof (skip_slashes_length r). cbn in *. lia.
  - split; [by intros ->|]. intros E. destruct (skip_slashes r) as [|a r'] eqn:Er; [done|]. exfalso. pose proof (skip_slashes_cons _ _ _ Er) as Ha.
    unfold pelems in E. destruct (split_elem_spec (a :: r')) as (Hs' & _). rewrite Hs' in E. cbn [split_elem] in E. apply Z.eqb_neq in Ha. rewrite Ha in E.
    destruct (split_elem r'). cbn in E. done.
Qed.

(** ** The tree of directories *)

Section Path.
Context {BC : BufCache} (sb : superblock).

(** An inode that a directory entry may name. *)
Definition node_ok (N : Z -> dinode) (i : Z) : Prop := inum_ok sb i /\ di_type (N i) <> 0 /\ 0 < di_nlink (N i).
Definition is_dir (N : Z -> dinode) (i : Z) : Prop := node_ok N i /\ di_type (N i) = T_DIR.

(** The directories with links have distinct names that lead to inodes with
    links; there is a root. *)
Record tree_ok (v : Z -> list Z) (N : Z -> dinode) : Prop := {
  tr_root : is_dir N ROOTINO;
  tr_dir : forall i, is_dir N i -> dir_ok (fcontent v (N i));
  tr_ent : forall i k, is_dir N i -> live (fcontent v (N i)) k -> node_ok N (de_inum (dent (fcontent v (N i)) k))
}.

(** The inode that the elements lead to from [i]. *)
Fixpoint walk (v : Z -> list Z) (N : Z -> dinode) (i : Z) (es : list (list Z)) : option Z :=
  match es with
  | [] => Some i
  | e :: es =>
      if di_type (N i) =? T_DIR then match dlook (fcontent v (N i)) e with Some (j, _) => walk v N j es | None => None end
      else None
  end.

(** The directory of the last element. *)
Definition walk_parent (v : Z -> list Z) (N : Z -> dinode) (i : Z) (es : list (list Z)) : option (Z * list Z) :=
  match last es with
  | None => None
  | Some name =>
      match walk v N i (removelast es) with Some d => if di_type (N d) =? T_DIR then Some (d, name) else None | None => None end
  end.

Definition unlocked_refs (T : refs) : Prop := forall h t, handle h -> T h = Some t -> t_lock t = false.
Definition room2 (T : refs) : Prop := exists h1 h2, h1 <> h2 /\ no_refs T h1 /\ no_refs T h2.

Lemma takes_held T i h T' : takes_ref T i h T' -> unlocked_refs T -> exists r b, T' h = Some (mk_tent i r false b) /\ 1 <= r /\ (T h = None -> r = 1) /\
  (forall t, T h = Some t -> t = mk_tent i (r - 1) false b).
Proof.
  intros [Hh Hi Ha] Hu. specialize (Ha h). rewrite upd_eq in Ha. destruct (T h) as [[j r lk b]|] eqn:ET; cbn in Ha.
  - destruct (Hi _ eq_refl) as [<- H1]. specialize (Hu h _ Hh ET). cbn in *. subst lk. exists (r + 1), b.
    replace (r + 1 - 1) with r by lia. split_and!; try done; try lia. by intros t [= <-].
  - exists 1, false. split_and!; try done; lia.
Qed.

Section Walk.
Variables (e : tenv) (v : Z -> list Z) (N : Z -> dinode) (L : gset Z) (T : refs).
Hypotheses (Htree : tree_ok v N) (HL : Z.of_nat (size L) < NBUF) (Hun : unlocked_refs T) (Hroom : room2 T).

(** Locked at [h]: the references [T], one more to [i], and the lock. *)
Definition locked_ref (i h : Z) (T1 : refs) : Prop := exists T', takes_ref T i h T' /\
  exists r b, T' h = Some (mk_tent i r false b) /\ 1 <= r /\ forall h', T1 h' = upd T' h (Some (mk_tent i r true true)) h'.

Lemma lock_held s i h T' : takes_ref T i h T' -> dx sb e s v N L T' -> di_type (N i) <> 0 ->
  returns (ilock h s) (fun _ s' => exists T1, locked_ref i h T1 /\ dx sb e s' v N L T1).
Proof using HL Hun.
  intros Htk Hd Ht. destruct (takes_held _ _ _ _ Htk Hun) as (r & b & HT & Hr & _).
  eapply returns_mono; [eapply dx_ilock; try done; apply Htk|]. intros [] s' Hd'. eexists. split; [|exact Hd'].
  exists T'. split; [done|]. by exists r, b.
Qed.

Lemma unlock_held s i h T1 : locked_ref i h T1 -> dx sb e s v N L T1 ->
  returns (iunlock h s) (fun _ s' => exists T', takes_ref T i h T' /\ dx sb e s' v N L T').
Proof using Type.
  intros (T' & Htk & r & b & HT & Hr & H1) Hd. eapply returns_mono; [eapply dx_iunlock; [exact Hd|apply Htk|by rewrite H1, upd_eq]|].
  intros [] s' Hd'. exists T'. split; [done|]. eapply dx_weaker; [exact Hd'|]. intros h' _. unfold upd. destruct (Z.eqb_spec h' h) as [Eh|Hne].
  - by rewrite Eh, HT.
  - rewrite H1, upd_ne by done. apply weaker_refl.
Qed.

Lemma unlockput_held s i h T1 : locked_ref i h T1 -> dx sb e s v N L T1 -> di_nlink (N i) <> 0 ->
  returns (iunlockput h s) (fun _ s' => dx sb e s' v N L T).
Proof using Type.
  intros Hlk Hd Hn. unfold iunlockput. eapply bind_returns; [by eapply unlock_held|]. intros [] s1 (T' & Htk & D1). by eapply dx_unget.
Qed.

Lemma room_locked i h T1 j : locked_ref i h T1 -> room T1 j.
Proof using Hroom.
  intros (T' & [Hh _ Ha] & r & b & _ & _ & H1). right. destruct Hroom as (h1 & h2 & Hne & [Hh1 HT1] & [Hh2 HT2]).
  destruct (Z.eq_dec h1 h) as [E|E].
  - exists h2. split; [done|]. rewrite H1, upd_ne, Ha, upd_ne by congruence. done.
  - exists h1. split; [done|]. rewrite H1, upd_ne, Ha, upd_ne by congruence. done.
Qed.

(** From a locked directory to an inode found in it: the lock and the
    reference to the directory are given up. *)
Lemma unlockput_next s i h T1 j h' T2 : locked_ref i h T1 -> takes_ref T1 j h' T2 -> dx sb e s v N L T2 -> di_nlink (N i) <> 0 ->
  returns (iunlockput h s) (fun _ s' => exists T', takes_ref T j h' T' /\ dx sb e s' v N L T').
Proof using Hun.
  intros (T' & Htk & r & b & HT & Hr & H1) [Hh' Hj Ha] Hd Hn. pose proof (tk_handle _ _ _ _ Htk) as Hh. 
  destruct (Z.eq_dec h' h) as [->|Hne].
  - pose proof (H1 h) as E1. rewrite upd_eq in E1. destruct (Hj _ E1) as [<- _]. cbn in *.
    pose proof (Ha h) as E2. rewrite upd_eq, E1 in E2. cbn in E2.
    eapply returns_mono; [eapply dx_iunlockput; [exact Hd|done|exact E2|right; lia]|]. intros [] s' Hd'. exists T'. split; [done|].
    eapply dx_weaker; [exact Hd'|]. intros h2 _. unfold upd. destruct (Z.eqb_spec h2 h) as [Eh|Hn2].
    + rewrite Eh, HT. unfold minus_ref. cbn. destruct (Z.eqb_spec (r + 1) 1); [lia|]. cbn. split_and!; (done || lia).
    + rewrite Ha, upd_ne, H1, upd_ne by done. apply weaker_refl.
  - assert (E2 : T2 h = Some (mk_tent i r true true)) by (rewrite Ha, upd_ne, H1, upd_eq by done; done).
    assert (E1 : T1 h' = T h') by (rewrite H1, upd_ne, (tk_after _ _ _ _ Htk), upd_ne by done; done).
    eapply returns_mono; [eapply dx_iunlockput; [exact Hd|done|exact E2|by left]|]. intros [] s' Hd'.
    exists (upd T h' (plus_ref j (T h'))). split.
    { split; [done|rewrite <- E1; done|done]. }
    destruct (takes_held _ _ _ _ Htk Hun) as (r' & b' & HT' & _ & Hz & Hs). rewrite HT in HT'. injection HT' as <- <-.
    eapply dx_weaker; [exact Hd'|]. intros h2 _. unfold upd at 2. destruct (Z.eqb_spec h2 h) as [Eh|Hn2].
    + rewrite Eh, upd_ne by done. destruct (T h) as [t|] eqn:ET.
      * rewrite (Hs t eq_refl). unfold minus_ref. cbn. assert (r <> 1). { pose proof (tk_inum _ _ _ _ Htk t ET) as [_ Hge]. rewrite (Hs t eq_refl) in Hge. cbn in Hge. lia. }
        destruct (Z.eqb_spec r 1); [done|]. cbn. done.
      * rewrite (Hz eq_refl). done.
    + rewrite Ha. unfold upd. destruct (Z.eqb_spec h2 h') as [Eh'|]; [by rewrite E1; apply weaker_refl|].
      rewrite H1, upd_ne, (tk_after _ _ _ _ Htk), upd_ne by done. apply weaker_refl.
Qed.

(** What [namex] leaves: a reference to the inode, or nothing. *)
Definition found (o : option Z) (x : option Z) (s' : fsys) : Prop :=
  match o with
  | Some j => exists h' T', x = Some h' /\ node_ok N j /\ takes_ref T j h' T' /\ dx sb e s' v N L T'
  | None => x = None /\ dx sb e s' v N L T
  end.

(** What [namex_loop] does from [i]. *)
Definition namex_post (i : Z) (es : list (list Z)) (par : bool) (x : option (Z * list Z)) (s' : fsys) : Prop :=
  if par then found (fst <$> walk_parent v N i es) (fst <$> x) s' /\ (snd <$> x) = (snd <$> walk_parent v N i es)
  else found (walk v N i es) (fst <$> x) s'.

(** One element of the path. *)
Lemma walk_cons i n es : di_type (N i) = T_DIR -> walk v N i (n :: es) = match dlook (fcontent v (N i)) n with Some (j, _) => walk v N j es | None => None end.
Proof using Type. intros Ht. cbn. by rewrite Ht. Qed.

Lemma namex_post_cons i n es par : di_type (N i) = T_DIR -> (par = true -> es <> []) ->
  forall x s', match dlook (fcontent v (N i)) n with
  | Some (j, _) => namex_post j es par x s'
  | None => x = None /\ dx sb e s' v N L T
  end -> namex_post i (n :: es) par x s'.
Proof using Type.
  intros Ht Hp x s' Hx. unfold namex_post, walk_parent in *. destruct par.
  - destruct es as [|n' es]; [by destruct (Hp eq_refl)|]. change (last (n :: n' :: es)) with (last (n' :: es)).
    change (removelast (n :: n' :: es)) with (n :: removelast (n' :: es)). rewrite walk_cons by done.
    destruct (dlook _ _) as [[j off]|]; [exact Hx|]. destruct Hx as [-> Hd]. by destruct (last (n' :: es)).
  - rewrite walk_cons by done. destruct (dlook _ _) as [[j off]|]; [exact Hx|]. destruct Hx as [-> Hd]. done.
Qed.

Lemma namex_post_file i n es par s' : di_type (N i) <> T_DIR -> dx sb e s' v N L T -> namex_post i (n :: es) par None s'.
Proof using Type.
  intros Ht Hd. apply Z.eqb_neq in Ht. unfold namex_post, walk_parent. destruct par; [|cbn; by rewrite Ht].
  destruct es as [|n' es]; [cbn; by rewrite Ht|]. change (last (n :: n' :: es)) with (last (n' :: es)).
  change (removelast (n :: n' :: es)) with (n :: removelast (n' :: es)). cbn [walk]. rewrite Ht. by destruct (last (n' :: es)).
Qed.

Lemma namex_loop_ok k s i h T' path par name : (length path < k)%nat -> takes_ref T i h T' -> dx sb e s v N L T' -> node_ok N i ->
  returns (namex_loop k h path par name s) (fun x s' => namex_post i (pelems path) par x s').
Proof using Htree HL Hun Hroom.
  revert s i h T' path name. induction k as [|k IH]; intros s i h T' path name Hk Htk Hd Hi; [lia|]. cbn [namex_loop].
  pose proof (skipelem_spec path) as Hsk. destruct (skipelem path) as [[n rest]|].
  2: { rewrite Hsk. destruct par.
       - eapply bind_returns; [eapply dx_unget; try done; intros _; destruct Hi as (_ & _ & ?); lia|]. intros [] s1 D1. cbn. done.
       - cbn. exists h, T'. done. }
  destruct Hsk as (-> & Hlen & Hrest). destruct Hi as (Hio & Hty & Hnl0). assert (Hnl : di_nlink (N i) <> 0) by lia.
  eapply bind_returns; [by eapply lock_held|]. intros [] s1 (T1 & Hlk & D1). pose proof Hlk as (T0 & Htk0 & r & b & HT0 & Hr & H1).
  pose proof (tk_handle _ _ _ _ Htk) as Hh. assert (E1 : T1 h = Some (mk_tent i r true true)) by (by rewrite H1, upd_eq).
  eapply dx_geti; [done..|]. cbn [i_di]. destruct (Z.eqb_spec (di_type (N i)) T_DIR) as [Hdir|Hdir]; cbn [negb].
  2: { eapply bind_returns; [by eapply unlockput_held|]. intros [] s2 D2. cbn. by apply namex_post_file. }
  assert (Hisd : is_dir N i) by done.
  destruct (par && bool_decide (rest = [])) eqn:Hpar.
  { apply andb_true_iff in Hpar as [-> Hre%bool_decide_eq_true]. eapply bind_returns; [by eapply unlock_held|]. intros [] s2 (T2 & Htk2 & D2).
    subst rest. change (pelems []) with (@nil (list Z)). cbn [returns ret]. unfold namex_post, walk_parent. cbn. rewrite Hdir. cbn. split; [|done]. by exists h, T2. }
  assert (Hne : par = true -> pelems rest <> []).
  { intros ->. cbn in Hpar. apply bool_decide_eq_false in Hpar. by rewrite <- Hrest. }
  pose proof (tr_dir _ _ Htree i Hisd) as Hdo.
  eapply bind_returns.
  { eapply (dirlookup_ok sb e v N L T1 h i r Hh E1 Hdir HL (dk_shape _ Hdo) s1 n D1). intros j off Hl.
    apply dlook_Some in Hl as (x & _ & Hlv & <- & _). split; [apply (tr_ent _ _ Htree i x Hisd Hlv)|by eapply room_locked]. }
  intros x s2 Hx. cbn beta in Hx. destruct (dlook (fcontent v (N i)) n) as [[j off]|] eqn:Hl.
  - destruct Hx as (h' & T2 & -> & Htk2 & D2). apply dlook_Some in Hl as Hl'. destruct Hl' as (y & _ & Hlv & Hj & _).
    pose proof (tr_ent _ _ Htree i y Hisd Hlv) as Hnj. rewrite Hj in Hnj.
    eapply bind_returns; [by eapply unlockput_next|]. intros [] s3 (T3 & Htk3 & D3).
    eapply returns_mono; [eapply (IH s3 j h' T3); try done; lia|]. intros z s4 Hz. apply namex_post_cons; try done. by rewrite Hl.
  - destruct Hx as [-> D2]. eapply bind_returns; [by eapply unlockput_held|]. intros [] s3 D3. cbn. apply namex_post_cons; try done. by rewrite Hl.
Qed.

(** [cwd] refers to a directory entry's worth of an inode. *)
Definition cwd_at (cwd i : Z) : Prop := handle cwd /\ (exists t, T cwd = Some t /\ t_inum t = i) /\ node_ok N i.
(** Where a path starts. *)
Definition path_start (i : Z) (path : list Z) : Z := if bool_decide (head path = Some c_slash) then ROOTINO else i.

Lemma namex_ok s cwd i path par : dx sb e s v N L T -> cwd_at cwd i ->
  returns (namex cwd path par s) (fun x s' => namex_post (path_start i path) (pelems path) par x s').
Proof using Htree HL Hun Hroom.
  intros Hd (Hh & (t & HT & Hti) & Hi). unfold namex, path_start. destruct (tr_root _ _ Htree) as [Hroot _].
  eapply (bind_returns _ _ _ (fun h s1 => exists T', takes_ref T (if bool_decide (head path = Some c_slash) then ROOTINO else i) h T' /\ dx sb e s1 v N L T')).
  { case_bool_decide as Hs.
    - eapply dx_iget; [done|apply Hroot|]. right. destruct Hroom as (h1 & _ & _ & Hf & _). by exists h1.
    - eapply returns_mono; [by eapply dx_idup|]. intros h' s1 [-> D1]. eexists. split; [|exact D1]. split; [done| |].
      + intros t' Ht'. replace t' with t by congruence. split; [done|]. eapply (dx_inum sb); [exact Hd|exact Hh|exact HT].
      + intros h'. by rewrite HT, Hti. }
  intros h s1 (T' & Htk & D1). eapply namex_loop_ok; try done; [lia|]. by case_bool_decide.
Qed.

Lemma namei_ok s cwd i path : dx sb e s v N L T -> cwd_at cwd i ->
  returns (namei cwd path s) (found (walk v N (path_start i path) (pelems path))).
Proof using Htree HL Hun Hroom. intros Hd Hc. unfold namei. eapply bind_returns; [by eapply (namex_ok s cwd i path false)|]. intros x s' Hx. exact Hx. Qed.

Lemma nameiparent_ok s cwd i path : dx sb e s v N L T -> cwd_at cwd i ->
  returns (nameiparent cwd path s) (fun x s' =>
    match walk_parent v N (path_start i path) (pelems path) with
    | Some (d, name) => exists h T', x = Some (h, name) /\ is_dir N d /\ takes_ref T d h T' /\ dx sb e s' v N L T'
    | None => x = None /\ dx sb e s' v N L T
    end).
Proof using Htree HL Hun Hroom.
  intros Hd Hc. unfold nameiparent. eapply returns_mono; [by eapply (namex_ok s cwd i path true)|]. intros x s' Hx. unfold namex_post in Hx.
  destruct (walk_parent v N (path_start i path) (pelems path)) as [[d name]|] eqn:Hw; cbn in Hx.
  - destruct Hx as [(h & T' & Hxh & Hn & Htk & D) Hnm]. destruct x as [[h' nm]|]; [|done]. cbn in *. injection Hxh as ->. injection Hnm as ->.
    exists h, T'. split_and!; try done. unfold walk_parent in Hw. repeat case_match; try done. injection Hw as -> ->. split; [done|by apply Z.eqb_eq].
  - destruct Hx as [[Hx D] _]. by destruct x.
Qed.
End Walk.

(** C19: Path resolution.  Within a transaction, [namei] ends and returns exactly
    the inode that the walk along the elements of the path leads to, from the
    root or the current directory, with one reference to it, or nothing when an
    element is missing or an element before the last one is not a directory;
    [nameiparent] returns the directory of the last element and its name.  All
    references and locks taken on the way are given back, and no block changes. *)
Theorem namei_follows_path e s v N L T cwd i path : dx sb e s v N L T -> tree_ok v N -> Z.of_nat (size L) < NBUF ->
  unlocked_refs T -> room2 T -> cwd_at N T cwd i ->
  returns (namei cwd path s) (fun x s' => found e v N L T (walk v N (path_start i path) (pelems path)) x s') /\
  returns (nameiparent cwd path s) (fun x s' =>
    found e v N L T (fst <$> walk_parent v N (path_start i path) (pelems path)) (fst <$> x) s' /\
    snd <$> x = snd <$> walk_parent v N (path_start i path) (pelems path)).
Proof.
  intros Hd Ht HL Hun Hroom Hc. split.
  - by eapply (namei_ok e v N L T Ht HL Hun Hroom s cwd i path).
  - unfold nameiparent. by eapply (namex_ok e v N L T Ht HL Hun Hroom s cwd i path true).
Qed.
End Path.
