(* ===== verification/FsTree.v ===== *)
(** Consistency of names and link counts.  Every file has as many links as
    there are directory entries that name it; adding or removing an entry and
    adjusting the count keeps it so. *)
From S2P Require Import Prelude Bufcache Log LogClaims Txn FileLayer Fs FsBlocks FsInode FsData FsWrite FsTable FsTx FsRefs FsDir FsPath.
Local Open Scope kern_scope.

(** Taking an entry out of a directory: the name is gone, the others stay. *)
Lemma dlook_unlink c name j k : dir_ok c -> live c k -> dname (de_name (dent c k)) = dname name -> de_inum (dent c k) = j ->
  let c' := splice (Z.to_nat (16 * k)) (replicate 16 0) c in
  dir_ok c' /\ forall nm, dlook c' nm = if bool_decide (dname nm = dname name) then None else dlook c nm.
Proof.
  intros Hok Hk Hnm Hj c'. pose proof (dk_shape _ Hok) as Hs. assert (Hd : length (replicate 16 0) = 16%nat) by done.
  assert (Hkr : 0 <= k <= dents c) by (destruct Hk; lia). destruct (splice_dents c _ k Hs Hd Hkr) as (Hs' & _ & He). fold c' in Hs', He.
  assert (Hlive : forall x, live c' x <-> x <> k /\ live c x).
  { intros x. unfold c'. rewrite (splice_live c _ k x Hs Hd Hkr). change (de_inum (replicate 16 0)) with 0. destruct (Z.eqb_spec x k); naive_solver. }
  assert (Hold : forall x, live c' x -> live c x /\ dent c' x = dent c x).
  { intros x [Hne Hx]%Hlive. split; [done|]. rewrite He by (destruct Hx; lia). by destruct (Z.eqb_spec x k). }
  assert (Hok' : dir_ok c').
  { split; [done|]. intros x y Hx Hy. destruct (Hold x Hx) as [Hx' ->], (Hold y Hy) as [Hy' ->]. by apply (dk_uniq _ Hok). }
  split; [done|]. intros nm. case_bool_decide as Hn.
  - apply dlook_none_iff. intros x Hx. pose proof Hx as [Hne _]%Hlive. destruct (Hold x Hx) as [Hx' ->]. intros E. apply Hne, (dk_uniq _ Hok); [done..|congruence].
  - destruct (dlook c nm) as [[i off]|] eqn:Hl.
    + apply dlook_Some in Hl as (x & -> & Hx & Hi & Hnx). apply (dlook_iff _ _ _ _ Hok'). exists x.
      assert (Hx' : live c' x) by (apply Hlive; split; [congruence|done]). destruct (Hold x Hx') as [_ ->]. done.
    + apply dlook_none_iff. intros x Hx. destruct (Hold x Hx) as [Hx' ->]. by apply (dlook_None _ _ Hl).
Qed.

Section Tree.
Context {BC : BufCache} (sb : superblock).

(** The entries that name inode [j]: pairs of a directory and an index. *)
Definition names_of (v : Z -> list Z) (N : Z -> dinode) (j : Z) (E : gset (Z * Z)) : Prop :=
  forall i k, (i, k) ∈ E <-> is_dir sb N i /\ live (fcontent v (N i)) k /\ de_inum (dent (fcontent v (N i)) k) = j.

Record fsck (v : Z -> list Z) (N : Z -> dinode) : Prop := {
  ck_tree : tree_ok sb v N;
  ck_links : forall j, inum_ok sb j -> di_type (N j) <> 0 -> di_type (N j) <> T_DIR -> exists E, names_of v N j E /\ di_nlink (N j) = Z.of_nat (size E)
}.

(** Entry [k] of directory [d] is now [de]; no inode has become a directory or
    ceased to be one, and the other directories are as before. *)
Record relink (v : Z -> list Z) (N : Z -> dinode) (v' : Z -> list Z) (N' : Z -> dinode) (d k : Z) (de : list Z) : Prop := {
  rl_dir : is_dir sb N d;
  rl_ok : dir_ok (fcontent v (N d));
  rl_k : 0 <= k <= dents (fcontent v (N d));
  rl_len : length de = 16%nat;
  rl_content : fcontent v' (N' d) = splice (Z.to_nat (16 * k)) de (fcontent v (N d));
  rl_others : forall i, is_dir sb N i -> i <> d -> fcontent v' (N' i) = fcontent v (N i);
  rl_isdir : forall i, is_dir sb N' i <-> is_dir sb N i
}.

Section Relink.
Variables (v : Z -> list Z) (N : Z -> dinode) (v' : Z -> list Z) (N' : Z -> dinode) (d k : Z) (de : list Z).
Hypothesis Hr : relink v N v' N' d k de.
Abbreviation old i := (fcontent v (N i)).
Abbreviation new i := (fcontent v' (N' i)).

(** An entry of the new directories is the new one or an old one. *)
Lemma relink_entry i x : is_dir sb N i -> 0 <= x ->
  if bool_decide ((i, x) = (d, k)) then dent (new i) x = de /\ (live (new i) x <-> de_inum de <> 0)
  else dent (new i) x = dent (old i) x /\ (live (new i) x <-> live (old i) x).
Proof using Hr.
  intros Hi Hx. destruct Hr as [Hd Hok Hk Hl Hc Ho Hid]. case_bool_decide as E.
  - injection E as -> ->. rewrite Hc. destruct (splice_dents (old d) de k (dk_shape _ Hok) Hl Hk) as (_ & _ & He).
    rewrite He, (splice_live (old d) de k k (dk_shape _ Hok) Hl Hk), Z.eqb_refl by done. done.
  - destruct (Z.eq_dec i d) as [->|Hne]; [|by rewrite Ho]. assert (x <> k) by congruence. rewrite Hc.
    destruct (splice_dents (old d) de k (dk_shape _ Hok) Hl Hk) as (_ & _ & He).
    rewrite He, (splice_live (old d) de k x (dk_shape _ Hok) Hl Hk) by done. destruct (Z.eqb_spec x k); done.
Qed.

Lemma relink_names j E : names_of v N j E ->
  names_of v' N' j (E ∖ {[(d, k)]} ∪ (if bool_decide (de_inum de = j /\ j <> 0) then {[(d, k)]} else ∅)).
Proof using Hr.
  intros HE i x. rewrite elem_of_union, elem_of_difference, elem_of_singleton, (rl_isdir _ _ _ _ _ _ _ Hr).
  assert (Hs : (i, x) ∈ (if bool_decide (de_inum de = j /\ j <> 0) then {[(d, k)]} else ∅ : gset (Z * Z)) <-> (i, x) = (d, k) /\ de_inum de = j /\ j <> 0).
  { case_bool_decide; [rewrite elem_of_singleton|rewrite elem_of_empty]; naive_solver. }
  rewrite Hs, (HE i x). split.
  - intros [[(Hi & Hlv & Hj) Hne]|(Hik & Hj & Hnz)].
    + pose proof (relink_entry i x Hi) as He. rewrite bool_decide_false in He by done. destruct He as [Hd Hl]; [destruct Hlv; lia|]. rewrite Hd, Hl. done.
    + injection Hik as -> ->. pose proof (rl_dir _ _ _ _ _ _ _ Hr) as Hd. pose proof (relink_entry d k Hd) as He. rewrite bool_decide_true in He by done.
      destruct He as [He Hl]; [apply Hr|]. rewrite He, Hl. split_and!; (done || congruence).
  - intros (Hi & Hlv & Hj). pose proof (relink_entry i x Hi) as He. case_bool_decide as Hik; destruct He as [Hd Hl]; try (destruct Hlv; lia).
    + right. rewrite Hd in Hj. split_and!; try done. apply Hl in Hlv. congruence.
    + left. rewrite Hd, Hl in *. done.
Qed.

(** The tree after the change. *)
Lemma relink_tree : tree_ok sb v N -> dir_ok (new d) ->
  (forall j, j <> 0 -> (exists i x, is_dir sb N i /\ live (new i) x /\ de_inum (dent (new i) x) = j) -> node_ok sb N' j) -> tree_ok sb v' N'.
Proof using Hr.
  intros [Hroot Hdir Hent] Hok Hn. split.
  - by apply (rl_isdir _ _ _ _ _ _ _ Hr).
  - intros i Hi%(rl_isdir _ _ _ _ _ _ _ Hr). destruct (Z.eq_dec i d) as [->|]; [done|]. rewrite (rl_others _ _ _ _ _ _ _ Hr) by done. auto.
  - intros i x Hi%(rl_isdir _ _ _ _ _ _ _ Hr) Hx. apply Hn; [apply Hx|]. by exists i, x.
Qed.
End Relink.

Definition same_node (N N' : Z -> dinode) (i : Z) : Prop := di_type (N' i) = di_type (N i) /\ di_nlink (N' i) = di_nlink (N i).

Lemma same_node_ok N N' i : same_node N N' i -> node_ok sb N i -> node_ok sb N' i.
Proof. intros [Ht Hn] (? & ? & ?). unfold node_ok. by rewrite Ht, Hn. Qed.

(** A name of file [j] is removed, and its link count goes down by one; without
    links it may be freed. *)
Lemma fsck_unlink v N v' N' d k j : relink v N v' N' d k (replicate 16 0) -> fsck v N ->
  live (fcontent v (N d)) k -> de_inum (dent (fcontent v (N d)) k) = j -> di_type (N j) <> T_DIR ->
  (forall i, i <> j -> same_node N N' i) ->
  (di_type (N' j) = di_type (N j) /\ di_nlink (N' j) = di_nlink (N j) - 1 \/ di_type (N' j) = 0 /\ di_nlink (N j) = 1) -> fsck v' N'.
Proof.
  intros Hr [Htr Hlk] Hlv Hj Hnd Hsame Hnj. pose proof (rl_dir _ _ _ _ _ _ _ Hr) as Hd. pose proof (tr_ent _ _ _ Htr d k Hd Hlv) as Hnode. rewrite Hj in Hnode.
  destruct Hnode as (Hji & Hjt & Hjn). destruct (Hlk j Hji Hjt Hnd) as (E & HE & Hsz).
  assert (Hin : (d, k) ∈ E) by (apply HE; done).
  assert (HE' : names_of v' N' j (E ∖ {[(d, k)]})).
  { pose proof (relink_names v N v' N' d k _ Hr j E HE) as H. rewrite bool_decide_false, union_empty_r_L in H; [done|]. intros [H0 ?]. by rewrite <- H0 in *. }
  assert (Hsz' : Z.of_nat (size (E ∖ {[(d, k)]})) = di_nlink (N j) - 1).
  { rewrite size_difference by set_solver. rewrite size_singleton. pose proof (subseteq_size {[(d, k)]} E ltac:(set_solver)) as Hle. rewrite size_singleton in Hle. lia. }
  assert (Hok : dir_ok (fcontent v' (N' d))).
  { rewrite (rl_content _ _ _ _ _ _ _ Hr). by eapply (dlook_unlink _ (de_name (dent (fcontent v (N d)) k)) j k); [apply Hr|..]. }
  split.
  - apply (relink_tree v N v' N' d k _ Hr Htr Hok). intros jj Hnz (i & x & Hi & Hx & Hxj).
    destruct (Z.eq_dec jj j) as [->|Hne].
    + assert (Hix : (i, x) ∈ E ∖ {[(d, k)]}) by (apply HE'; split; [by apply (rl_isdir _ _ _ _ _ _ _ Hr)|done]).
      pose proof (subseteq_size {[(i, x)]} (E ∖ {[(d, k)]}) ltac:(set_solver)) as Hge. rewrite size_singleton in Hge.
      unfold node_ok. destruct Hnj as [[-> ->]|[_ ?]]; [|lia]. split_and!; (done || lia).
    + eapply same_node_ok; [by apply Hsame|]. pose proof (relink_entry v N v' N' d k _ Hr i x Hi) as He. case_bool_decide; destruct He as [He Hl]; try (destruct Hx; lia).
      * apply Hl in Hx. done.
      * rewrite <- Hxj, He. apply (tr_ent _ _ _ Htr); [done|by apply Hl].
  - intros jj Hjj Htt Hdd. destruct (Z.eq_dec jj j) as [->|Hne].
    + exists (E ∖ {[(d, k)]}). split; [done|]. destruct Hnj as [[_ ->]|[H0 _]]; [lia|by rewrite H0 in Htt].
    + destruct (Hsame jj Hne) as [Et En]. rewrite Et in Htt, Hdd. destruct (Hlk jj Hjj Htt Hdd) as (F & HF & Hn). exists F. split; [|congruence].
      pose proof (relink_names v N v' N' d k _ Hr jj F HF) as H. rewrite bool_decide_false, union_empty_r_L in H by (intros [H0 ?]; by rewrite <- H0 in *).
      assert (Heq : F ∖ {[(d, k)]} = F); [|by rewrite Heq in H]. assert ((d, k) ∉ F) by (intros Hx%HF; naive_solver). set_solver.
Qed.

(** A new name for file [j], and its link count goes up by one. *)
Lemma fsck_link v N v' N' d k j de E : relink v N v' N' d k de -> fsck v N -> ~ live (fcontent v (N d)) k -> de_inum de = j -> j <> 0 ->
  dir_ok (fcontent v' (N' d)) -> inum_ok sb j -> names_of v N j E -> di_nlink (N' j) = Z.of_nat (size E) + 1 -> di_type (N' j) <> 0 ->
  (forall i, i <> j -> same_node N N' i) -> fsck v' N'.
Proof.
  intros Hr [Htr Hlk] Hlv Hj Hnz Hok Hji HE Hn Ht Hsame. pose proof (rl_dir _ _ _ _ _ _ _ Hr) as Hd.
  assert (Hout : (d, k) ∉ E) by (intros Hx%HE; naive_solver).
  assert (HE' : names_of v' N' j ({[(d, k)]} ∪ E)).
  { pose proof (relink_names v N v' N' d k _ Hr j E HE) as H. rewrite bool_decide_true in H by done.
    by replace ({[(d, k)]} ∪ E) with (E ∖ {[(d, k)]} ∪ {[(d, k)]}) by set_solver. }
  assert (Hsz : Z.of_nat (size ({[(d, k)]} ∪ E)) = di_nlink (N' j)) by (rewrite size_union, size_singleton by set_solver; lia).
  split.
  - apply (relink_tree v N v' N' d k _ Hr Htr Hok). intros jj Hjz (i & x & Hi & Hx & Hxj). destruct (Z.eq_dec jj j) as [->|Hne].
    + split_and!; (done || lia).
    + eapply same_node_ok; [by apply Hsame|]. pose proof (relink_entry v N v' N' d k _ Hr i x Hi) as He. case_bool_decide; destruct He as [He Hl]; try (destruct Hx; lia).
      * congruence.
      * rewrite <- Hxj, He. apply (tr_ent _ _ _ Htr); [done|by apply Hl].
  - intros jj Hjj Htt Hdd. destruct (Z.eq_dec jj j) as [->|Hne]; [by exists ({[(d, k)]} ∪ E)|].
    destruct (Hsame jj Hne) as [Et En]. rewrite Et in Htt, Hdd. destruct (Hlk jj Hjj Htt Hdd) as (F & HF & Hnn). exists F. split; [|congruence].
    pose proof (relink_names v N v' N' d k _ Hr jj F HF) as H. rewrite bool_decide_false, union_empty_r_L in H by (intros [H0 ?]; congruence).
    assert (Heq : F ∖ {[(d, k)]} = F); [|by rewrite Heq in H]. assert ((d, k) ∉ F) by (intros Hx%HF; naive_solver). set_solver.
Qed.
End Tree.
