(* ===== verification/FsOps.v ===== *)
(** Operations on inodes over the references of [FsRefs]: allocating one,
    truncating, dropping the last reference, and the begin and end of a
    transaction. *)
From S2P Require Import Prelude Bufcache Log LogClaims Txn FileLayer Fs FsBlocks FsInode FsData FsWrite FsTable FsTx FsRefs FsDir FsPath FileClaims FsClaims.
Local Open Scope kern_scope.

(** An inode that [ialloc] has just claimed. *)
Definition new_di (ty : Z) : dinode := mk_di ty 0 0 0 0 (replicate 13 0).

(** No handle refers to a free inode. *)
Definition refs_live (N : Z -> dinode) (T : refs) : Prop := forall h t, handle h -> T h = Some t -> di_type (N (t_inum t)) <> 0.

Section Ops.
Context {BC : BufCache} (sb : superblock).

Lemma new_di_ok ty : - 2 ^ 15 <= ty < 2 ^ 15 -> di_ok (new_di ty).
Proof. intros Ht. split; cbn [di_type di_major di_minor di_nlink di_size di_addrs new_di]; try lia; [done|]. apply Forall_replicate. lia. Qed.

Lemma new_di_slot v ty k : slot v (new_di ty) k = 0.
Proof.
  unfold slot, addr, new_di. cbn [di_addrs]. assert (Hz : forall n, nth n (replicate 13 0) 0 = 0).
  { intros n. rewrite nth_lookup. destruct (replicate 13 0 !! n) eqn:E; [apply lookup_replicate in E as [-> _]|]; done. }
  rewrite !Hz. by destruct (k <=? NDIRECT).
Qed.

Lemma wf_new_inode e v N i ty : fs_wf sb e v N -> - 2 ^ 15 <= ty < 2 ^ 15 -> fs_wf sb e v (upd N i (new_di ty)).
Proof.
  intros Hw Hty. assert (Ho : forall j k a, owns sb v (upd N i (new_di ty)) j k a -> owns sb v N j k a).
  { intros j k a (Hj & Ht & Hk & He & Hne). unfold owns. unfold upd in *. destruct (Z.eqb_spec j i) as [->|]; [|done]. by rewrite new_di_slot in He. }
  split; try apply Hw.
  - intros j Hj. unfold upd. destruct (j =? i); [by apply new_di_ok|by apply (fw_di _ _ _ _ Hw)].
  - intros j k a Hx. by eapply (fw_own _ _ _ _ Hw), Ho.
  - intros j k j' k' a Hx Hy. eapply (fw_inj _ _ _ _ Hw); by apply Ho.
  - intros j Hj. unfold upd. destruct (j =? i); [|by apply (fw_size _ _ _ _ Hw)]. intros _. cbn. split; [done|]. unfold BSIZE. lia.
Qed.

(** A free inode that is not in the table gets its own handle. *)
Definition new_handle (T : refs) (i h : Z) (T' : refs) : Prop :=
  handle h /\ T h = None /\ forall h', T' h' = upd T h (Some (mk_tent i 1 false false)) h'.

Lemma takes_new N T i h T' : takes_ref T i h T' -> refs_live N T -> di_type (N i) = 0 -> new_handle T i h T'.
Proof.
  intros [Hh Hi Ha] Hlv Ht. destruct (T h) as [t|] eqn:ET; [|by split_and!]. destruct (Hi t eq_refl) as [<- _]. by apply (Hlv h t Hh) in ET.
Qed.

Lemma dx_ialloc_loop e k s v N L T ty inum : dx sb e s v N L T -> refs_live N T -> (exists h, no_refs T h) -> 0 < ty < 2 ^ 15 ->
  Z.of_nat (size L) < NBUF -> 1 <= te_out e -> 0 <= inum -> inum + Z.of_nat k = sb_ninodes sb ->
  returns (ialloc_loop k ROOTDEV ty inum s) (fun x s' =>
    match x with
    | Some h => exists i v' T', inum <= i < sb_ninodes sb /\ di_type (N i) = 0 /\ new_handle T i h T' /\
        (forall j, inum_ok sb j -> di_type (N j) <> 0 -> keeps v v' (N j)) /\ dx sb e s' v' (upd N i (new_di ty)) ({[IBLOCK i sb]} ∪ L) T'
    | None => dx sb e s' v N L T /\ forall i, inum <= i < sb_ninodes sb -> di_type (N i) <> 0
    end).
Proof.
  intros Hd Hlv Hfree Hty HL Hout. revert s inum Hd. induction k as [|k IH]; intros s inum Hd H0 Hk; cbn [ialloc_loop].
  { destruct Hd as [Hsb Hw Hn (tab & F & Hit & Hs)]. eapply fx_printf; [exact F|]. intros s1 F1. cbn. split; [|intros; lia].
    split; try done. by exists tab. }
  assert (Hi : inum_ok sb inum) by (unfold inum_ok; lia). pose proof Hd as [Hsb Hw Hn (tab & F & Hit & Hs)].
  destruct (iblock_ib _ _ Hsb inum Hi) as [Hib _]. pose proof (ib_home _ _ Hsb _ Hib) as Hhm. assert (NBUF = LOGBLOCKS) by done.
  eapply fx_getsb; [exact F|]. pose proof (fx_clean _ _ _ _ _ _ _ F _ Hhm (lookup_empty _)) as Hcl.
  eapply (fx_bread _ _ _ _ _ _ _ _ F); [done|apply lookup_empty|rewrite map_size_empty; lia|]. intros h s1 F1.
  eapply (fx_data _ _ _ _ _ _ _ _ F1); [apply lookup_insert_eq|done|]. cbn beta. fold (get_inode sb v inum). rewrite (Hn inum Hi).
  destruct (Z.eqb_spec (di_type (N inum)) 0) as [Ht|Ht].
  - eapply (fx_set _ _ _ _ _ _ _ _ F1 (IBLOCK inum sb)); [apply lookup_insert_eq|done|by apply block_length, block_put_dinode, (fw_blocks _ _ _ _ Hw)|].
    intros s2 F2. eapply (fx_log_write _ _ _ _ _ _ _ _ F2 (IBLOCK inum sb)); [apply lookup_insert_eq|done|lia|done|]. intros s3 F3.
    eapply (fx_brelse _ _ _ _ _ _ _ _ F3 (IBLOCK inum sb)); [apply lookup_insert_eq|done|left; apply in_add|]. intros s4 F4.
    rewrite delete_insert_eq, delete_empty in F4. fold (new_di ty) in F4. fold (v_iupd sb v inum (new_di ty)) in F4.
    pose proof (wf_new_inode e v N inum ty Hw ltac:(lia)) as Hw1. destruct (wf_iupd sb e Hsb v _ inum (new_di ty) Hw1 Hi) as [Hw2 _].
    assert (D4 : dx sb e s4 (v_iupd sb v inum (new_di ty)) (upd N inum (new_di ty)) ({[IBLOCK inum sb]} ∪ L) T).
    { split; try done.
      - intros j Hj. rewrite (get_inode_iupd sb e Hsb); [|apply Hw|done..|apply new_di_ok; lia]. unfold upd. destruct (j =? inum); auto.
      - exists tab. split_and!; try done. destruct Hit. split; try done. intros x Hx Hp Hv. rewrite it_valid by done. unfold upd.
        destruct (Z.eqb_spec (i_inum (tab x)) inum) as [E|]; [|done]. exfalso. pose proof (Hs x Hx) as Hsx. destruct (T x) as [t|] eqn:ET; [|cbn in Hsx; lia].
        destruct Hsx as (_ & _ & Eti & _). apply (Hlv x t Hx) in ET. congruence. }
    eapply bind_returns; [eapply dx_iget; [exact D4|done|by right]|]. intros h' s5 (T' & Htk & D5). cbn.
    exists inum, (v_iupd sb v inum (new_di ty)), T'. split_and!; try done; try lia; [by eapply takes_new|].
    intros j Hj Htj. by apply (wf_iupd sb e Hsb v N inum (new_di ty) Hw Hi).
  - eapply (fx_brelse _ _ _ _ _ _ _ _ F1 (IBLOCK inum sb)); [apply lookup_insert_eq|done|done|]. intros s2 F2.
    rewrite delete_insert_eq, delete_empty in F2.
    eapply returns_mono; [apply (IH s2 (inum + 1)); [|lia|lia]; split; try done; by exists tab|].
    intros [h'|] s3 Hx; cbn beta in *.
    + destruct Hx as (i & v' & T' & Hr & Hrest). exists i, v', T'. split; [lia|done].
    + destruct Hx as [D Hall]. split; [done|]. intros i Hir. destruct (Z.eq_dec i inum) as [->|]; [done|]. apply Hall. lia.
Qed.

Lemma dx_ialloc e s v N L T ty : dx sb e s v N L T -> refs_live N T -> (exists h, no_refs T h) -> 0 < ty < 2 ^ 15 ->
  Z.of_nat (size L) < NBUF -> 1 <= te_out e ->
  returns (ialloc ROOTDEV ty s) (fun x s' =>
    match x with
    | Some h => exists i v' T', 1 <= i < sb_ninodes sb /\ di_type (N i) = 0 /\ new_handle T i h T' /\
        (forall j, inum_ok sb j -> di_type (N j) <> 0 -> keeps v v' (N j)) /\ dx sb e s' v' (upd N i (new_di ty)) ({[IBLOCK i sb]} ∪ L) T'
    | None => dx sb e s' v N L T /\ forall i, 1 <= i < sb_ninodes sb -> di_type (N i) <> 0
    end).
Proof.
  intros Hd Hlv Hf Hty HL Hout. unfold ialloc. pose proof Hd as [Hsb Hw Hn (tab & F & Hit & Hs)]. eapply fx_getsb; [exact F|].
  pose proof (so_inodes _ _ Hsb). apply dx_ialloc_loop; try done; lia.
Qed.

(** The log after an operation that frees blocks of inode [i]. *)
Lemma grow_log i (L L' : gset Z) : L' ⊆ {[IBLOCK i sb]} ∪ (BM sb ∪ L) -> Z.of_nat (size (BM sb ∪ L')) <= Z.of_nat (size (BM sb ∪ L)) + 1.
Proof.
  intros Hs. pose proof (subseteq_size (BM sb ∪ L') ({[IBLOCK i sb]} ∪ (BM sb ∪ L)) ltac:(clear -Hs; set_solver)) as H1.
  pose proof (size_add (IBLOCK i sb) (BM sb ∪ L)). lia.
Qed.

Section Locked.
Variables (e : tenv) (s : fsys) (v : Z -> list Z) (N : Z -> dinode) (L : gset Z) (T : refs) (h i r : Z).
Hypotheses (Hd : dx sb e s v N L T) (Hh : handle h) (Hout : 1 <= te_out e) (HL : Z.of_nat (size (BM sb ∪ L)) + 2 < NBUF).

Lemma dx_itrunc : T h = Some (mk_tent i r true true) -> di_type (N i) <> 0 ->
  returns (itrunc h s) (fun _ s' => exists v' L', dx sb e s' v' (upd N i (empty_di (N i))) L' T /\ truncated sb e v N i v' /\
    Z.of_nat (size (BM sb ∪ L')) <= Z.of_nat (size (BM sb ∪ L)) + 1).
Proof using Hd Hh Hout HL.
  intros HT Ht. destruct (dx_at sb e s v N L T h i r Hd Hh HT Ht) as (tab & F & Hit & Hs & He & Hai & H1).
  eapply returns_mono; [by eapply (itrunc_ok sb e (dx_sb _ _ _ _ _ _ _ Hd) s v N i L tab h); try done; apply Hd|].
  intros [] s' (v' & L' & F' & Htr & HL'). exists v', L'. split_and!; [|done|by eapply grow_log].
  eapply (dx_node sb e s v N L T h i r Hd Hh HT s' v' L' (empty_di (N i)) tab); try done; apply Htr.
Qed.

(** The last reference to an inode without links. *)
Lemma dx_iput_last : T h = Some (mk_tent i 1 false true) -> di_type (N i) <> 0 -> di_nlink (N i) = 0 ->
  returns (iput h s) (fun _ s' => exists v' L', dx sb e s' v' (upd N i (free_di (N i))) L' (upd T h None) /\ reclaimed sb v N i v' /\
    Z.of_nat (size (BM sb ∪ L')) <= Z.of_nat (size (BM sb ∪ L)) + 1).
Proof using Hd Hh Hout HL.
  intros HT Ht Hnl. destruct (dx_open sb _ _ _ _ _ _ _ _ _ _ _ Hd Hh HT) as (tab & F & Hit & Hs & Hdv & Hin & Hr & Hl & Hio & H1 & Hv).
  destruct (Hv eq_refl) as [Hva Hdi]. pose proof Hd as [Hsb Hw Hn _].
  eapply returns_mono; [eapply (iput_frees sb e s v N i L tab h); try done; by split|].
  intros [] s' (v' & L' & F' & Hw' & Hrc & HL'). exists v', L'. split_and!; [|done|by eapply grow_log]. split; try done.
  - intros j Hj. rewrite (rc_disk _ _ _ _ _ Hrc j Hj). unfold upd. destruct (j =? i); auto.
  - exists (put_last tab h i (free_di (N i)) 0). split_and!; [done|apply itab_ok_put; [done|split; (done || lia)|done]|].
    intros h' Hh'. unfold put_last, upd. destruct (h' =? h); [done|auto].
Qed.
End Locked.

(** ** Between system calls *)

Record fs_idle (e : tenv) (s : fsys) (v : Z -> list Z) (N : Z -> dinode) (T : refs) : Prop := {
  id_rest : exists tab, fs_rest sb e s v N tab /\ forall h, handle h -> shows (tab h) (T h)
}.

Lemma idle_begin e s v N T : fs_idle e s v N T -> returns (fbegin_op s) (fun _ s' => dx sb (begun e) s' v N ∅ T).
Proof.
  intros [(tab & Hr & Hs)]. eapply returns_mono; [by eapply begin_ok|]. intros [] s' F. destruct Hr. split.
  - by eapply sb_ok_env; [|exact rs_sb].
  - by eapply fs_wf_env; [|exact rs_wf].
  - done.
  - by exists tab.
Qed.

Lemma idle_bm e s v N T : fs_idle e s v N T -> te_out (begun e) = 1 /\ (size (BM sb) <= 4)%nat /\ size (BM sb ∪ ∅) = size (BM sb).
Proof.
  intros [(tab & Hr & _)]. split_and!; [cbn; by rewrite (rs_out _ _ _ _ _ _ Hr)|by eapply size_BM; apply Hr|by rewrite union_empty_r_L].
Qed.

(** What a crash during the commit of the writes [w] leaves: every inode and
    file as before, or every one as after. *)
Definition crash_atomic (e : tenv) (w : list (Z * list Z)) (v : Z -> list Z) (N : Z -> dinode) (v' : Z -> list Z) (N' : Z -> dinode) : Prop :=
  forall k, returns (initlog ROOTDEV (te_start e) (boot (apply_writes (te_disk e) (take k w)))) (fun _ l =>
    exists e' x, at_rest e' l x /\ te_start e' = te_start e /\ (files_as sb x v N \/ files_as sb x v' N')).

Lemma idle_end e s v N T s1 v' N' L T' : fs_idle e s v N T -> dx sb (begun e) s1 v' N' L T' -> Z.of_nat (size (BM sb ∪ L)) < NBUF ->
  returns (fend_op s1) (fun _ s' => exists e' w, fs_idle e' s' v' N' T' /\ te_start e' = te_start e /\
    te_writes e' = te_writes e ++ w /\ crash_atomic e w v N v' N').
Proof.
  intros [(tab & Hr & Hs)] [Hsb Hw Hn (tab' & F & Hit & Hs')] HL. pose proof (size_le_BM sb L).
  eapply returns_mono; [eapply (end_rest sb e s s1 v N tab v' N' tab' L); try done; lia|].
  intros [] s' (d' & w & Hr' & Hk). exists (mk_env (te_start e) 0 d' (te_writes e ++ w)), w. split_and!; try done.
  - split. by exists tab'.
  - intros k. eapply returns_mono; [apply (Hk k)|]. intros [] l (e'' & x & ? & ? & ?). by exists e'', x.
Qed.
End Ops.
