(* ===== verification/Sysfile.v ===== *)
(** The file system calls: [syscall.c] (fetching arguments), [sysfile.c] and
    [pipealloc] of [pipe.c], for the process that makes the call.  Only its open
    files and its current directory matter; its memory is [umem] and its
    argument registers are a function. *)
From S2P Require Import Prelude Bufcache Log LogClaims Txn FileLayer Fs Pipe File.
Local Open Scope kern_scope.

Definition NOFILE : Z := 16.
Definition MAXPATH : Z := 128.
Definition O_RDONLY : Z := 0x000.
Definition O_WRONLY : Z := 0x001.
Definition O_RDWR : Z := 0x002.
Definition O_CREATE : Z := 0x200.
Definition O_TRUNC : Z := 0x400.

(** * Arguments *)

(** The caller: registers [a0] to [a5], memory, the size of the process and
    whether it has been killed. *)
Record caller := mk_caller { c_reg : Z -> Z; c_mem : umem; c_sz : Z; c_killed : bool }.

Definition argint (c : caller) (n : Z) : Z := i32 (c_reg c n).
Definition argaddr (c : caller) (n : Z) : Z := u64 (c_reg c n).

(** [copyinstr]: the bytes before the first NUL among the first [max]. *)
Fixpoint copyinstr_bytes (max : nat) (u : umem) (a : Z) : option (list Z) :=
  match max with
  | O => None
  | S m =>
      match u_in u a with
      | None => None
      | Some x => if x =? 0 then Some [] else (fun l => x :: l) <$> copyinstr_bytes m u (a + 1)
      end
  end.
Definition fetchstr (c : caller) (addr max : Z) : option (list Z) := copyinstr_bytes (Z.to_nat max) (c_mem c) addr.
Definition argstr (c : caller) (n max : Z) : option (list Z) := fetchstr c (argaddr c n) max.

(** * Creating and removing names *)

Section Names.
Context {BC : BufCache}.

(** [ip->nlink++] and [ip->nlink--]. *)
Definition add_nlink (d : Z) (ip : Z) : M fsys unit := seti ip (fun n => set_di (set_nlink (i16 (di_nlink (i_di n) + d)) (i_di n)) n).

Definition sys_link_path (cwd : Z) (old new : list Z) : M fsys Z :=
  fbegin_op ;;;
  do o <- namei cwd old;
  match o with
  | None => fend_op ;;; ret (-1)
  | Some ip =>
      ilock ip ;;;
      do i <- geti ip;
      if di_type (i_di i) =? T_DIR then iunlockput ip ;;; fend_op ;;; ret (-1)
      else
        add_nlink 1 ip ;;;
        iupdate ip ;;;
        iunlock ip ;;;
        do ok <-
          (do o <- nameiparent cwd new;
           match o with
           | None => ret false
           | Some (dp, name) =>
               ilock dp ;;;
               do d <- geti dp;
               do i <- geti ip;
               if negb (i_dev d =? i_dev i) then iunlockput dp ;;; ret false
               else
                 do r <- dirlink dp name (i_inum i);
                 if r <? 0 then iunlockput dp ;;; ret false
                 else iunlockput dp ;;; iput ip ;;; ret true
           end);
        if ok : bool then fend_op ;;; ret 0
        else
          ilock ip ;;;
          add_nlink (-1) ip ;;;
          iupdate ip ;;;
          iunlockput ip ;;;
          fend_op ;;;
          ret (-1)
  end.

Fixpoint isdirempty_loop (k : nat) (dp off : Z) : M fsys bool :=
  match k with
  | O => no_fuel
  | S k' =>
      do d <- geti dp;
      if off <? di_size (i_di d) then
        do r <- readi dp kernel_sink off sizeof_dirent;
        if negb (fst r =? sizeof_dirent) then panic "isdirempty: readi"
        else if negb (de_inum (snd r) =? 0) then ret false
        else isdirempty_loop k' dp (off + sizeof_dirent)
      else ret true
  end.
Definition isdirempty (dp : Z) : M fsys bool :=
  do d <- geti dp; isdirempty_loop (Z.to_nat (di_size (i_di d) / sizeof_dirent) + 2) dp (2 * sizeof_dirent).

Definition c_dot : Z := 46.

Definition sys_unlink_path (cwd : Z) (path : list Z) : M fsys Z :=
  fbegin_op ;;;
  do o <- nameiparent cwd path;
  match o with
  | None => fend_op ;;; ret (-1)
  | Some (dp, name) =>
      ilock dp ;;;
      if (namecmp name [c_dot] =? 0) || (namecmp name [c_dot; c_dot] =? 0) then iunlockput dp ;;; fend_op ;;; ret (-1)
      else
        do r <- dirlookup dp name;
        match r with
        | None => iunlockput dp ;;; fend_op ;;; ret (-1)
        | Some (ip, off) =>
            ilock ip ;;;
            do i <- geti ip;
            if di_nlink (i_di i) <? 1 then panic "unlink: nlink < 1"
            else
              do busy <- (if di_type (i_di i) =? T_DIR then do b <- isdirempty ip; ret (negb b) else ret false);
              if busy : bool then iunlockput ip ;;; iunlockput dp ;;; fend_op ;;; ret (-1)
              else
                do n <- writei dp (kernel_source (replicate 16 0)) off sizeof_dirent;
                if negb (n =? sizeof_dirent) then panic "unlink: writei"
                else
                  (if di_type (i_di i) =? T_DIR then add_nlink (-1) dp ;;; iupdate dp else ret tt) ;;;
                  iunlockput dp ;;;
                  add_nlink (-1) ip ;;;
                  iupdate ip ;;;
                  iunlockput ip ;;;
                  fend_op ;;;
                  ret 0
        end
  end.

(** The inode, locked. *)
Definition create (cwd : Z) (path : list Z) (type major minor : Z) : M fsys (option Z) :=
  do o <- nameiparent cwd path;
  match o with
  | None => ret None
  | Some (dp, name) =>
      ilock dp ;;;
      do r <- dirlookup dp name;
      match r with
      | Some (ip, _) =>
          iunlockput dp ;;;
          ilock ip ;;;
          do i <- geti ip;
          if (type =? T_FILE) && ((di_type (i_di i) =? T_FILE) || (di_type (i_di i) =? T_DEVICE)) then ret (Some ip)
          else iunlockput ip ;;; ret None
      | None =>
          do d <- geti dp;
          do a <- ialloc (i_dev d) type;
          match a with
          | None => iunlockput dp ;;; ret None
          | Some ip =>
              ilock ip ;;;
              seti ip (fun n => set_di (mk_di (di_type (i_di n)) (i16 major) (i16 minor) 1 (di_size (i_di n)) (di_addrs (i_di n))) n) ;;;
              iupdate ip ;;;
              do i <- geti ip;
              do failed <-
                (do bad <- (if type =? T_DIR then
                              do r <- dirlink ip [c_dot] (i_inum i);
                              if r <? 0 then ret true else do r <- dirlink ip [c_dot; c_dot] (i_inum d); ret (r <? 0)
                            else ret false);
                 if bad : bool then ret true else do r <- dirlink dp name (i_inum i); ret (r <? 0));
              if failed : bool then
                seti ip (fun n => set_di (set_nlink 0 (i_di n)) n) ;;;
                iupdate ip ;;;
                iunlockput ip ;;;
                iunlockput dp ;;;
                ret None
              else
                (if type =? T_DIR then add_nlink 1 dp ;;; iupdate dp else ret tt) ;;;
                iunlockput dp ;;;
                ret (Some ip)
          end
      end
  end.

(** [sys_mkdir] and [sys_mknod] on a path; [None] when [argstr] failed. *)
Definition make_node (cwd : Z) (path : option (list Z)) (type major minor : Z) : M fsys Z :=
  fbegin_op ;;;
  do r <- (match path with None => ret None | Some path => create cwd path type major minor end);
  match r with
  | None => fend_op ;;; ret (-1)
  | Some ip => iunlockput ip ;;; fend_op ;;; ret 0
  end.

(** [sys_chdir]: the new current directory. *)
Definition chdir_path (cwd : Z) (path : option (list Z)) : M fsys (Z * Z) :=
  fbegin_op ;;;
  do r <- (match path with None => ret None | Some path => namei cwd path end);
  match r with
  | None => fend_op ;;; ret (-1, cwd)
  | Some ip =>
      ilock ip ;;;
      do i <- geti ip;
      if negb (di_type (i_di i) =? T_DIR) then iunlockput ip ;;; fend_op ;;; ret (-1, cwd)
      else iunlock ip ;;; iput cwd ;;; fend_op ;;; ret (0, ip)
  end.
End Names.

(** * The system calls *)

Section Calls.
Context {BC : BufCache} {dev : Type}.
Variable dev_read : Z -> option (Z -> Z -> M dev (turn * list Z)).
Variable dev_write : Z -> option (Z -> Z -> M dev turn).
Abbreviation kfs := (kfs (dev := dev)).

(** The kernel and the open files and directory of the calling process. *)
Record sysf := mk_sysf { y_k : kfs; y_ofile : Z -> option Z; y_cwd : Z }.
Definition put_k x s := mk_sysf x (y_ofile s) (y_cwd s).
Definition put_ofile x s := mk_sysf (y_k s) x (y_cwd s).
Definition put_cwd x s := mk_sysf (y_k s) (y_ofile s) x.

Definition kop {A} (m : M kfs A) : M sysf A := zoom y_k put_k m.
Definition fop {A} (m : M fsys A) : M sysf A := kop (fsop m).
Definition set_ofile (fd : Z) (o : option Z) : M sysf unit := modify (fun s => put_ofile (upd (y_ofile s) fd o) s).

(** The descriptor and its file. *)
Definition argfd (c : caller) (n : Z) : M sysf (option (Z * Z)) :=
  let fd := argint c n in
  do s <- get;
  ret (if (fd <? 0) || (NOFILE <=? fd) then None else (fun f => (fd, f)) <$> y_ofile s fd).

Definition fdalloc (f : Z) : M sysf (option Z) :=
  do s <- get;
  match scan (fun fd => match y_ofile s fd with None => true | Some _ => false end) NOFILE with
  | Some fd => set_ofile fd (Some f) ;;; ret (Some fd)
  | None => ret None
  end.

Definition sys_dup (c : caller) : M sysf Z :=
  do a <- argfd c 0;
  match a with
  | None => ret (-1)
  | Some (_, f) =>
      do r <- fdalloc f;
      match r with None => ret (-1) | Some fd => kop (filedup f) ;;; ret fd end
  end.

Definition sys_read (c : caller) : M sysf (turn * list Z) :=
  do a <- argfd c 0;
  match a with
  | None => ret (Done (-1), [])
  | Some (_, f) => kop (fileread dev_read f (c_mem c) (c_killed c) (argaddr c 1) (argint c 2))
  end.

Definition sys_write (c : caller) : M sysf turn :=
  do a <- argfd c 0;
  match a with
  | None => ret (Done (-1))
  | Some (_, f) => kop (filewrite dev_write f (c_mem c) (c_killed c) (argaddr c 1) (argint c 2))
  end.

Definition sys_close (c : caller) : M sysf Z :=
  do a <- argfd c 0;
  match a with
  | None => ret (-1)
  | Some (fd, f) => set_ofile fd None ;;; kop (fileclose f) ;;; ret 0
  end.

(** [sizeof(struct stat)]. *)
Definition sizeof_stat : Z := 24.
Definition sys_fstat (c : caller) : M sysf (Z * option (Z * Z * Z * Z * Z)) :=
  do a <- argfd c 0;
  match a with
  | None => ret (-1, None)
  | Some (_, f) => kop (filestat f (forallb (fun j => u_out (c_mem c) (argaddr c 1 + j)) (seqZ 0 sizeof_stat)))
  end.

Definition sys_link (c : caller) : M sysf Z :=
  match argstr c 0 MAXPATH, argstr c 1 MAXPATH with
  | Some old, Some new => do s <- get; fop (sys_link_path (y_cwd s) old new)
  | _, _ => ret (-1)
  end.

Definition sys_unlink (c : caller) : M sysf Z :=
  match argstr c 0 MAXPATH with
  | Some path => do s <- get; fop (sys_unlink_path (y_cwd s) path)
  | None => ret (-1)
  end.

Definition sys_mkdir (c : caller) : M sysf Z :=
  do s <- get; fop (make_node (y_cwd s) (argstr c 0 MAXPATH) T_DIR 0 0).

Definition sys_mknod (c : caller) : M sysf Z :=
  do s <- get; fop (make_node (y_cwd s) (argstr c 0 MAXPATH) T_DEVICE (argint c 1) (argint c 2)).

Definition sys_chdir (c : caller) : M sysf Z :=
  do s <- get;
  do r <- fop (chdir_path (y_cwd s) (argstr c 0 MAXPATH));
  modify (put_cwd (snd r)) ;;;
  ret (fst r).

Definition has (omode flag : Z) : bool := negb (Z.land omode flag =? 0).

(** The inode that [sys_open] opens, locked. *)
Definition open_inode_of (cwd : Z) (path : list Z) (omode : Z) : M fsys (option Z) :=
  if has omode O_CREATE then create cwd path T_FILE 0 0
  else
    do r <- namei cwd path;
    match r with
    | None => ret None
    | Some ip =>
        ilock ip ;;;
        do i <- geti ip;
        if (di_type (i_di i) =? T_DIR) && negb (omode =? O_RDONLY) then iunlockput ip ;;; ret None else ret (Some ip)
    end.

Definition sys_open (c : caller) : M sysf Z :=
  let omode := argint c 1 in
  match argstr c 0 MAXPATH with
  | None => ret (-1)
  | Some path =>
      fop fbegin_op ;;;
      do s <- get;
      do r <- fop (open_inode_of (y_cwd s) path omode);
      match r with
      | None => fop fend_op ;;; ret (-1)
      | Some ip =>
          do i <- fop (geti ip);
          if (di_type (i_di i) =? T_DEVICE) && ((di_major (i_di i) <? 0) || (NDEV <=? di_major (i_di i))) then
            fop (iunlockput ip) ;;; fop fend_op ;;; ret (-1)
          else
            do o <- kop filealloc;
            match o with
            | None => fop (iunlockput ip) ;;; fop fend_op ;;; ret (-1)
            | Some f =>
                do o <- fdalloc f;
                match o with
                | None => kop (fileclose f) ;;; fop (iunlockput ip) ;;; fop fend_op ;;; ret (-1)
                | Some fd =>
                    kop (setf f (fun x =>
                      let x := if di_type (i_di i) =? T_DEVICE
                        then mk_file FD_DEVICE (fl_ref x) (fl_readable x) (fl_writable x) (fl_pipe x) ip (fl_off x) (di_major (i_di i))
                        else mk_file FD_INODE (fl_ref x) (fl_readable x) (fl_writable x) (fl_pipe x) ip 0 (fl_major x) in
                      mk_file (fl_type x) (fl_ref x) (negb (has omode O_WRONLY)) (has omode O_WRONLY || has omode O_RDWR) (fl_pipe x) (fl_ip x) (fl_off x) (fl_major x))) ;;;
                    (if has omode O_TRUNC && (di_type (i_di i) =? T_FILE) then fop (itrunc ip) else ret tt) ;;;
                    fop (iunlock ip) ;;;
                    fop fend_op ;;;
                    ret fd
                end
            end
      end
  end.

(** [page] is what [kalloc] returns, with its old content. *)
Definition pipealloc (page : option (Z * (Z -> Z))) : M kfs (option (Z * Z)) :=
  do f0 <- filealloc;
  match f0 with
  | None => ret None
  | Some f0 =>
      do f1 <- filealloc;
      match f1 with
      | None => fileclose f0 ;;; ret None
      | Some f1 =>
          match page with
          | None => fileclose f0 ;;; fileclose f1 ;;; ret None
          | Some (p, old) =>
              modify (fun s => put_pipes (upd (k_pipes s) p (pipe_init old)) s) ;;;
              setf f0 (fun x => mk_file FD_PIPE (fl_ref x) true false p (fl_ip x) (fl_off x) (fl_major x)) ;;;
              setf f1 (fun x => mk_file FD_PIPE (fl_ref x) false true p (fl_ip x) (fl_off x) (fl_major x)) ;;;
              ret (Some (f0, f1))
          end
      end
  end.

(** The result, and the two descriptors when they were copied out. *)
Definition sys_pipe (c : caller) (page : option (Z * (Z -> Z))) : M sysf (Z * option (Z * Z)) :=
  do r <- kop (pipealloc page);
  match r with
  | None => ret (-1, None)
  | Some (rf, wf) =>
      do a <- fdalloc rf;
      match a with
      | None => kop (fileclose rf) ;;; kop (fileclose wf) ;;; ret (-1, None)
      | Some fd0 =>
          do b <- fdalloc wf;
          match b with
          | None => set_ofile fd0 None ;;; kop (fileclose rf) ;;; kop (fileclose wf) ;;; ret (-1, None)
          | Some fd1 =>
              if forallb (fun j => u_out (c_mem c) (argaddr c 0 + j)) (seqZ 0 8) then ret (0, Some (fd0, fd1))
              else
                set_ofile fd0 None ;;; set_ofile fd1 None ;;;
                kop (fileclose rf) ;;; kop (fileclose wf) ;;; ret (-1, None)
          end
      end
  end.
End Calls.
