(* ===== verification/FsCalls.v ===== *)
(** The system calls that change names.  [unlink] of a file is one atomic step
    on the tree of directories: the name disappears, the link count goes down,
    and a file without names and references is freed. *)
From S2P Require Import Prelude Bufcache Log LogClaims Txn FileLayer Fs FsBlocks FsInode FsData FsWrite FsTable FsTx FsRefs FsDir FsPath FsTree Pipe File FileClaims FsClaims FsOps Sysfile.
Local Open Scope kern_scope.

Section Calls.
Context {BC : BufCache} (sb : superblock).

(** [T'] has one reference at [h] more than [T], locked. *)
Record drops (T T' : refs) (h i r : Z) : Prop := {
  dr_handle : handle h;
  dr_held : T' h = Some (mk_tent i r true true);
  dr_back : weaker (T h) (minus_ref (mk_tent i r false true));
  dr_rest : forall h', handle h' -> h' <> h -> weaker (T h') (T' h')
}.

Lemma takes_back T i h T' r b : takes_ref T i h T' -> T' h = Some (mk_tent i r false b) -> 1 <= r /\ weaker (T h) (minus_ref (mk_tent i r false true)).
Proof.
  intros [Hh Hi Ha] HT. rewrite Ha, upd_eq in HT. destruct (T h) as [[j r' lk b']|]; cbn in HT.
  - destruct (Hi _ eq_refl) as [<- H1]. cbn in *. injection HT as <- -> <-. unfold minus_ref. cbn. destruct (Z.eqb_spec (r' + 1) 1); [lia|].
    cbn. split_and!; (done || lia).
  - injection HT as <- <-. split; [lia|done].
Qed.

(** What [iunlockput] leaves of inode [i] when [r] references were left. *)
Definition dropped (v : Z -> list Z) (N : Z -> dinode) (i r : Z) (v' : Z -> list Z) (N' : Z -> dinode) : Prop :=
  if (di_nlink (N i) =? 0) && (r =? 1) then N' = upd N i (free_di (N i)) /\ reclaimed sb v N i v' else N' = N /\ v' = v.

Lemma minus_none o i r b : weaker o (minus_ref (mk_tent i r false b)) -> (r = 1 <-> o = None).
Proof. unfold minus_ref. cbn. destruct (Z.eqb_spec r 1), o; cbn; intros; split; (done || lia). Qed.

Lemma dx_drop e s v N L T T' h i r : drops T T' h i r -> dx sb e s v N L T' -> di_type (N i) <> 0 ->
  Z.of_nat (size (BM sb ∪ L)) + 2 < NBUF -> 1 <= te_out e ->
  returns (iunlockput h s) (fun _ s' => exists v' N' L', dx sb e s' v' N' L' T /\ dropped v N i r v' N' /\
    Z.of_nat (size (BM sb ∪ L')) <= Z.of_nat (size (BM sb ∪ L)) + 1).
Proof.
  intros [Hh HT Hb Hr] Hd Ht HL Hout. destruct (dx_inum sb _ _ _ _ _ _ _ _ Hd Hh HT) as [_ Hr1]. cbn in Hr1. unfold iunlockput, dropped.
  eapply bind_returns; [by eapply dx_iunlock|]. intros [] s1 D1. destruct ((di_nlink (N i) =? 0) && (r =? 1)) eqn:Hc.
  - apply andb_true_iff in Hc as [Hn%Z.eqb_eq ->%Z.eqb_eq].
    eapply returns_mono; [eapply (dx_iput_last sb e s1 v N L _ h i); [exact D1|done|done|done|by rewrite upd_eq|done|done]|].
    intros [] s2 (v' & L' & D2 & Hrc & HL'). exists v', (upd N i (free_di (N i))), L'. split_and!; try done.
    eapply dx_weaker; [exact D2|]. intros h' Hh'. unfold upd. destruct (Z.eqb_spec h' h) as [E|]; [by rewrite E; exact Hb|auto].
  - eapply returns_mono; [eapply dx_iput; [exact D1|done|by rewrite upd_eq|]|].
    { apply andb_false_iff in Hc. rewrite !Z.eqb_neq in Hc. destruct Hc; [by left|right; lia]. }
    intros [] s2 D2. exists v, N, L. split_and!; try done; try lia. eapply dx_weaker; [exact D2|]. intros h' Hh'. unfold upd.
    destruct (Z.eqb_spec h' h) as [E|]; [by rewrite E; exact Hb|auto].
Qed.

(** ** Two inodes: a directory and a file found in it *)

Section Unlink.
Variables (e : tenv) (s : fsys) (v : Z -> list Z) (N : Z -> dinode) (T : refs).
Hypotheses (Hck : fsck sb v N) (Hun : unlocked_refs T) (Hroom : room2 T).

(** The entry that a path names for [unlink]. *)
Definition unlink_target (i : Z) (path : list Z) : option (Z * list Z * Z * Z) :=
  match walk_parent v N (path_start i path) (pelems path) with
  | None => None
  | Some (d, name) =>
      if (namecmp name [c_dot] =? 0) || (namecmp name [c_dot; c_dot] =? 0) then None
      else (fun x => (d, name, fst x, snd x)) <$> dlook (fcontent v (N d)) name
  end.

(** The references after the directory and the file have been locked. *)
Definition both (h d r h2 j r2 : Z) : refs := upd (upd T h (Some (mk_tent d r true true))) h2 (Some (mk_tent j r2 true true)).

(** [T] after both are locked: each handle has one reference more than in [T]. *)
Record both_held (h d r h2 j r2 : Z) : Prop := {
  bh_handle : handle h /\ handle h2 /\ h <> h2;
  bh_r : 1 <= r /\ 1 <= r2;
  bh_back : weaker (T h) (minus_ref (mk_tent d r false true));
  bh_back2 : weaker (T h2) (minus_ref (mk_tent j r2 false true))
}.

Lemma both_drop_dir h d r h2 j r2 : both_held h d r h2 j r2 ->
  drops (upd T h2 (Some (mk_tent j r2 true true))) (both h d r h2 j r2) h d r.
Proof using Type.
  intros [(Hh & Hh2 & Hne) Hr Hb Hb2]. unfold both. split; [done|by rewrite upd_ne, upd_eq by done|by rewrite upd_ne by done|].
  intros h' Hh' Hn. unfold upd. destruct (h' =? h2); [apply weaker_refl|]. destruct (Z.eqb_spec h' h); [done|apply weaker_refl].
Qed.

Lemma both_drop_file h d r h2 j r2 : both_held h d r h2 j r2 -> drops T (upd T h2 (Some (mk_tent j r2 true true))) h2 j r2.
Proof using Type.
  intros [(Hh & Hh2 & Hne) Hr Hb Hb2]. split; [done|by rewrite upd_eq|done|]. intros h' Hh' Hn. rewrite upd_ne by done. apply weaker_refl.
Qed.

Lemma lock_second L d h Ta j h2 Tb : locked_ref T d h Ta -> takes_ref Ta j h2 Tb -> j <> d -> dx sb e s v N L Tb -> di_type (N j) <> 0 ->
  Z.of_nat (size L) < NBUF ->
  returns (ilock h2 s) (fun _ s' => exists r r2, both_held h d r h2 j r2 /\ dx sb e s' v N L (both h d r h2 j r2)).
Proof using Hun.
  intros (T' & Htk & r & b & HT & Hr & Ha) Htk2 Hne Hd Ht HL. pose proof (tk_handle _ _ _ _ Htk) as Hh. pose proof (tk_handle _ _ _ _ Htk2) as Hh2.
  assert (Hh2n : h2 <> h). { intros ->. destruct (tk_inum _ _ _ _ Htk2 (mk_tent d r true true)) as [E _]; [by rewrite Ha, upd_eq|]. cbn in E. congruence. }
  assert (Hta : Ta h2 = T h2) by (rewrite Ha, upd_ne, (tk_after _ _ _ _ Htk), upd_ne by done; done).
  assert (Htk3 : takes_ref T j h2 (upd T h2 (plus_ref j (T h2)))) by (split; [done|rewrite <- Hta; apply Htk2|done]).
  destruct (takes_held _ _ _ _ Htk3 Hun) as (r2 & b2 & HT2 & Hr2 & _). pose proof HT2 as HT2'. rewrite upd_eq in HT2.
  assert (Hb2 : Tb h2 = Some (mk_tent j r2 false b2)) by (rewrite (tk_after _ _ _ _ Htk2), upd_eq, Hta; done).
  eapply returns_mono; [by eapply dx_ilock|]. intros [] s' D. exists r, r2. split.
  - split; [done|done|by eapply (takes_back T d h T')|by eapply (takes_back T j h2)].
  - eapply dx_ext; [exact D|]. intros h' Hh'. unfold both, upd. destruct (Z.eqb_spec h' h2) as [|Hn2]; [done|].
    rewrite (tk_after _ _ _ _ Htk2), upd_ne, Ha by done. unfold upd. destruct (Z.eqb_spec h' h) as [|Hn]; [done|].
    by rewrite (tk_after _ _ _ _ Htk), upd_ne.
Qed.

(** Inode [j] is in use through [T]. *)
Definition refs_to (j : Z) : Prop := exists h t, handle h /\ T h = Some t /\ t_inum t = j.

Lemma both_refs s1 v1 N1 L h d r h2 j r2 : both_held h d r h2 j r2 -> j <> d -> dx sb e s1 v1 N1 L (both h d r h2 j r2) -> (r2 = 1 <-> ~ refs_to j).
Proof using Type.
  intros [(Hh & Hh2 & Hne) Hr Hb Hb2] Hjd Hd. rewrite (minus_none _ _ _ _ Hb2). split.
  - intros HN (h3 & t & Hh3 & Ht & Hi). assert (h3 <> h2) by congruence. assert (h3 <> h).
    { intros ->. rewrite Ht in Hb. unfold minus_ref in Hb. cbn in Hb. destruct (r =? 1); [done|]. destruct Hb as [Hti _]. cbn in Hti. congruence. }
    assert (h3 = h2); [|done]. eapply (dx_inj sb _ _ _ _ _ _ h3 h2 _ (mk_tent j r2 true true) Hd Hh3 Hh2);
      [unfold both; by rewrite !upd_ne|unfold both; by rewrite upd_eq|done].
  - intros Hno. destruct (T h2) as [t|] eqn:E; [|done]. exfalso. apply Hno. exists h2, t. split_and!; try done.
    unfold minus_ref in Hb2. cbn in Hb2. destruct (r2 =? 1); [done|]. by destruct Hb2.
Qed.
End Unlink.

Lemma fcontent_fields v di di' : di_size di = di_size di' -> di_addrs di = di_addrs di' -> fcontent v di = fcontent v di'.
Proof.
  intros Hs Ha. unfold fcontent, bytes_between. rewrite Hs. apply list_fmap_ext. intros k p _. unfold fbyte, blk, slot, addr. by rewrite Ha.
Qed.

(** The file system after the name of file [j] has been taken out of [d]. *)
Record unlinked (v : Z -> list Z) (N : Z -> dinode) (T : refs) (d : Z) (name : list Z) (j : Z) (v' : Z -> list Z) (N' : Z -> dinode) : Prop := {
  ul_ck : fsck sb v' N';
  ul_names : forall nm, dlook (fcontent v' (N' d)) nm = if bool_decide (dname nm = dname name) then None else dlook (fcontent v (N d)) nm;
  ul_others : forall i, inum_ok sb i -> di_type (N i) <> 0 -> i <> d -> i <> j -> N' i = N i /\ fcontent v' (N' i) = fcontent v (N i);
  ul_kept : 1 < di_nlink (N j) \/ refs_to T j -> N' j = set_nlink (di_nlink (N j) - 1) (N j) /\ fcontent v' (N' j) = fcontent v (N j);
  ul_freed : di_nlink (N j) = 1 -> ~ refs_to T j -> di_type (N' j) = 0
}.

Section UnlinkPure.
Variables (e : tenv) (v : Z -> list Z) (N : Z -> dinode) (T : refs) (d k : Z) (name : list Z) (j : Z) (v1 : Z -> list Z) (di1 : dinode) (v2 v3 : Z -> list Z) (N3 : Z -> dinode) (r2 : Z).
Abbreviation N1 := (upd N d di1).
Abbreviation dj := (set_nlink (di_nlink (N j) - 1) (N j)).
Abbreviation N2 := (upd N1 j dj).
Hypotheses (Hsb : sb_ok sb e) (Hw : fs_wf sb e v N) (Hck : fsck sb v N) (Hd : is_dir sb N d) (Hlv : live (fcontent v (N d)) k).
Hypotheses (Hj : de_inum (dent (fcontent v (N d)) k) = j) (Hnm : dname (de_name (dent (fcontent v (N d)) k)) = dname name).
Hypotheses (Hnd : di_type (N j) <> T_DIR) (HW : written sb e v N d (16 * k) (replicate 16 0) v1 di1).
Hypotheses (HK : forall i, inum_ok sb i -> di_type (N1 i) <> 0 -> keeps v1 v2 (N1 i)) (Hw2 : fs_wf sb e v2 N2).
Hypotheses (HD : dropped v2 N2 j r2 v3 N3) (Hrefs : r2 = 1 <-> ~ refs_to T j).

Lemma ul_node : node_ok sb N j /\ j <> d.
Proof using Hck Hd Hlv Hj Hnd.
  pose proof (tr_ent _ _ _ (ck_tree _ _ _ Hck) d k Hd Hlv) as Hn. rewrite Hj in Hn. split; [done|]. intros E. apply Hnd. rewrite E. apply Hd.
Qed.

(** The contents of the other files. *)
Lemma ul_content i : inum_ok sb i -> di_type (N i) <> 0 -> i <> d -> fcontent v2 (N2 i) = fcontent v (N i).
Proof using BC Hsb Hw HW HK Hj Hd Hlv Hck Hnd.
  intros Hi Ht Hne. destruct ul_node as [_ Hjd].
  assert (H1 : fcontent v1 (N i) = fcontent v (N i)) by (apply (keeps_content sb e v v1 N i); [done..|]; by apply (wt_others _ _ _ _ _ _ _ _ _ HW)).
  assert (H2 : fcontent v2 (N1 i) = fcontent v1 (N1 i)).
  { apply (keeps_content sb e v1 v2 N1 i); [apply (wt_wf _ _ _ _ _ _ _ _ _ HW)|done|by rewrite upd_ne|]. apply HK; [done|by rewrite upd_ne]. }
  rewrite (upd_ne N d i) in H2 by done. unfold upd at 1. destruct (Z.eqb_spec i j) as [->|]; [|rewrite upd_ne by done; congruence].
  rewrite (fcontent_fields v2 dj (N j)) by done. congruence.
Qed.

Lemma ul_dir_content : fcontent v2 (N2 d) = splice (Z.to_nat (16 * k)) (replicate 16 0) (fcontent v (N d)).
Proof using BC Hsb Hw HW HK Hj Hd Hlv Hck Hnd.
  destruct ul_node as [_ Hjd]. destruct Hd as [(Hdi & Hdt & _) _]. rewrite upd_ne, upd_eq by done. rewrite <- (wt_content _ _ _ _ _ _ _ _ _ HW).
  assert (Ht : di_type (N1 d) <> 0) by (rewrite upd_eq; destruct (wt_meta _ _ _ _ _ _ _ _ _ HW) as [-> _]; done).
  pose proof (keeps_content sb e v1 v2 N1 d (wt_wf _ _ _ _ _ _ _ _ _ HW) Hdi Ht (HK d Hdi Ht)) as H. by rewrite upd_eq in H.
Qed.

(** After the last [iunlockput]. *)
Lemma ul_final i : i <> j -> N3 i = N2 i /\ (inum_ok sb i -> di_type (N2 i) <> 0 -> fcontent v3 (N3 i) = fcontent v2 (N2 i)).
Proof using BC HD Hw2 Hsb.
  intros Hne. unfold dropped in HD. destruct (_ && _).
  - destruct HD as [-> Hrc]. split; [by rewrite upd_ne|]. intros Hi Ht. rewrite upd_ne by done. apply (keeps_content sb e v2 v3 N2 i); try done. by apply Hrc.
  - destruct HD as [-> ->]. done.
Qed.

Lemma ul_nlink : di_nlink (N2 j) = di_nlink (N j) - 1.
Proof using Type. by rewrite upd_eq. Qed.

Lemma unlinked_intro : unlinked v N T d name j v3 N3.
Proof using All.
  destruct ul_node as [(Hji & Hjt & Hjn) Hjd]. destruct Hd as [(Hdi & Hdt & Hdn) Hdd]. destruct (wt_meta _ _ _ _ _ _ _ _ _ HW) as (Et & _ & _ & En).
  assert (Hc3 : fcontent v3 (N3 d) = splice (Z.to_nat (16 * k)) (replicate 16 0) (fcontent v (N d))).
  { destruct (ul_final d) as [_ H]; [done|]. rewrite H; [apply ul_dir_content|done|]. rewrite upd_ne, upd_eq by done. congruence. }
  assert (Hkeep : forall i, inum_ok sb i -> di_type (N i) <> 0 -> i <> d -> i <> j -> N3 i = N i /\ fcontent v3 (N3 i) = fcontent v (N i)).
  { intros i Hi Ht Hne Hnj. destruct (ul_final i Hnj) as [E H]. rewrite H; [|done|by rewrite !upd_ne]. rewrite ul_content by done. rewrite E, !upd_ne by done. done. }
  assert (Hsame : forall i, i <> j -> same_node N N3 i).
  { intros i Hi. destruct (ul_final i Hi) as [E _]. unfold same_node. rewrite E, upd_ne by done. unfold upd. destruct (Z.eqb_spec i d) as [->|]; done. }
  assert (Hj3 : (di_type (N3 j) = di_type (N j) /\ di_nlink (N3 j) = di_nlink (N j) - 1 \/ di_type (N3 j) = 0 /\ di_nlink (N j) = 1)).
  { unfold dropped in HD. destruct ((di_nlink (N2 j) =? 0) && (r2 =? 1)) eqn:Hc.
    - apply andb_true_iff in Hc as [Hz%Z.eqb_eq _]. rewrite ul_nlink in Hz. destruct HD as [-> _]. right. rewrite upd_eq. split; [done|lia].
    - destruct HD as [-> _]. left. by rewrite upd_eq. }
  assert (Hid : forall i, is_dir sb N3 i <-> is_dir sb N i).
  { intros i. unfold is_dir, node_ok. destruct (Z.eq_dec i j) as [->|Hi].
    - destruct Hj3 as [[-> ->]|[-> _]]; split; intros [_ H]; done.
    - destruct (Hsame i Hi) as [-> ->]. done. }
  assert (Hrl : relink sb v N v3 N3 d k (replicate 16 0)).
  { split; try done; [by apply (tr_dir _ _ _ (ck_tree _ _ _ Hck))|destruct Hlv; lia|]. intros i [(Hi & Ht & _) Hty] Hne. apply Hkeep; try done. congruence. }
  split; try done.
  - by eapply fsck_unlink.
  - rewrite Hc3. eapply dlook_unlink; try done. by apply (tr_dir _ _ _ (ck_tree _ _ _ Hck)).
  - intros Hk. assert (Hc : (di_nlink (N2 j) =? 0) && (r2 =? 1) = false).
    { rewrite ul_nlink. destruct (Z.eqb_spec (di_nlink (N j) - 1) 0), (Z.eqb_spec r2 1); try done. destruct Hk as [|Hrf]; [lia|]. exfalso. by apply Hrefs. }
    unfold dropped in HD. rewrite Hc in HD. destruct HD as [-> ->]. split; [by rewrite upd_eq|]. by apply ul_content.
  - intros H1 Hno. assert (Hc : (di_nlink (N2 j) =? 0) && (r2 =? 1) = true).
    { rewrite ul_nlink, (proj2 Hrefs Hno), H1. done. }
    unfold dropped in HD. rewrite Hc in HD. destruct HD as [-> _]. by rewrite upd_eq.
Qed.
End UnlinkPure.

(** The result of a call that is one transaction. *)
Definition call_post {A} (e : tenv) (v : Z -> list Z) (N : Z -> dinode) (T : refs) (Q : A -> (Z -> list Z) -> (Z -> dinode) -> Prop) (x : A) (s' : fsys) : Prop :=
  exists e' w v' N', fs_idle sb e' s' v' N' T /\ te_start e' = te_start e /\ te_writes e' = te_writes e ++ w /\
    crash_atomic sb e w v N v' N' /\ Q x v' N'.

Lemma call_end {A} e s v N T s1 v' N' L (x : A) Q : fs_idle sb e s v N T -> dx sb (begun e) s1 v' N' L T -> Z.of_nat (size (BM sb ∪ L)) < NBUF ->
  Q x v' N' -> returns ((fend_op ;;; ret x) s1) (call_post e v N T Q).
Proof.
  intros Hid Hd HL HQ. eapply bind_returns; [by eapply idle_end|]. intros [] s2 (e' & w & Hid' & Hst & Hw & Hc). cbn. by exists e', w, v', N'.
Qed.

(** The part of [unlink] after the entry has been found and both inodes are
    locked. *)
Lemma unlink_body e s v N T h d r h2 j r2 k name : fsck sb v N -> both_held T h d r h2 j r2 ->
  dx sb e s v N ∅ (both T h d r h2 j r2) -> (size (BM sb) <= 4)%nat -> te_out e = 1 -> is_dir sb N d -> live (fcontent v (N d)) k ->
  de_inum (dent (fcontent v (N d)) k) = j -> dname (de_name (dent (fcontent v (N d)) k)) = dname name -> di_type (N j) <> T_DIR ->
  forall B (m : M fsys B) Q,
  (forall s' v' N' L', dx sb e s' v' N' L' T -> unlinked v N T d name j v' N' -> Z.of_nat (size (BM sb ∪ L')) < NBUF -> returns (m s') Q) ->
  returns ((do n <- writei h (kernel_source (replicate 16 0)) (16 * k) sizeof_dirent;
    if negb (n =? sizeof_dirent) then panic "unlink: writei"
    else ret tt ;;; iunlockput h ;;; add_nlink (-1) h2 ;;; iupdate h2 ;;; iunlockput h2 ;;; m) s) Q.
Proof.
  intros Hck Hbh Hd HBM Hout Hdd Hlv Hj Hnm Hnd B m Q Hm. pose proof Hd as [Hsb Hw Hnodes _].
  destruct (ul_node v N d k j Hck Hdd Hlv Hj Hnd) as [(Hji & Hjt & Hjn) Hjd]. pose proof Hbh as [(Hh & Hh2 & Hhne) _ _ _].
  assert (HTh : both T h d r h2 j r2 h = Some (mk_tent d r true true)) by (unfold both; by rewrite upd_ne, upd_eq by done).
  assert (HB0 : size (BM sb ∪ ∅) = size (BM sb)) by (by rewrite union_empty_r_L). pose proof (eq_refl : NBUF = 30) as HNB.
  destruct Hdd as [(Hdi & Hdt & Hdn) Hdty]. pose proof (tr_dir _ _ _ (ck_tree _ _ _ Hck) d ltac:(done)) as Hdok.
  destruct (dir_size sb e v N ∅ _ h d r Hh HTh Hdty (dk_shape _ Hdok) s Hd) as (Hs & _ & Hmax). pose proof (eq_refl : MAXFILE * BSIZE = 274432) as Hmf.
  assert (Hkr : 0 <= k < dents (fcontent v (N d))) by apply Hlv. unfold sizeof_dirent.
  eapply bind_returns.
  { eapply (dx_writei sb e s v N ∅ _ h d r Hd Hh HTh Hdt _ (replicate 16 0) (16 * k) 16); [lia|lia|done|apply kernel_delivers|rewrite nblk_dent; lia|lia]. }
  intros x s1 Hx. cbn beta in Hx. assert (Hbr : bad_range (di_size (N d)) (16 * k) 16 = false).
  { unfold bad_range. rewrite u32_small by lia. destruct (Z.ltb_spec (di_size (N d)) (16 * k)), (Z.ltb_spec (16 * k + 16) (16 * k)), (Z.ltb_spec (MAXFILE * BSIZE) (16 * k + 16)); (done || lia). }
  rewrite Hbr in Hx. destruct Hx as (v1 & di1 & L1 & D1 & HW & Hxr & HL1 & Hbd & Hfull). rewrite nblk_dent, HB0 in HL1.
  assert (x = 16) as ->. { destruct (Z.lt_ge_cases x 16) as [Hlt|]; [|lia]. destruct (Hfull Hlt) as [[_ ?]|Hf]; [lia|by apply kernel_accepts in Hf]. }
  change (negb (16 =? 16)) with false. cbv iota. eapply (bind_returns _ _ _ (fun _ s' => s' = s1)); [done|]. intros [] s1' ->.
  rewrite (take_ge (replicate 16 0)) in HW by (by rewrite length_replicate). destruct (wt_meta _ _ _ _ _ _ _ _ _ HW) as (Et & _ & _ & En).
  (* the directory is released *)
  eapply bind_returns; [eapply (dx_drop e s1 v1 _ L1 _ _ h d r (both_drop_dir T h d r h2 j r2 Hbh) D1); [rewrite upd_eq; congruence|lia|lia]|].
  intros [] s2 (v2 & N2' & L2 & D2 & Hdr & HL2). unfold dropped in Hdr. rewrite upd_eq, En in Hdr. replace (di_nlink (N d) =? 0) with false in Hdr by lia.
  cbn in Hdr. destruct Hdr as [-> ->].
  (* the link count of the file *)
  pose proof (do_nlink _ (fw_di _ _ _ _ Hw j Hji)) as Hnr. assert (Hi16 : i16 (di_nlink (N j) + -1) = di_nlink (N j) - 1) by (unfold i16; rewrite Z.mod_small; lia).
  unfold add_nlink. eapply (dx_update sb e s2 v1 _ L2 _ h2 j r2 D2 Hh2 ltac:(by rewrite upd_eq) (fun di => set_nlink (i16 (di_nlink di + -1)) di));
    [|done|done|done|pose proof (size_le_BM sb L2); lia|lia|].
  { rewrite upd_ne, Hi16 by done. destruct (fw_di _ _ _ _ Hw j Hji). split; try done. cbn. lia. }
  intros s3 v3 D3 HK3 _. rewrite (upd_ne N d j) in D3 by done. cbn beta in D3. rewrite Hi16 in D3.
  set (dj := set_nlink (di_nlink (N j) - 1) (N j)) in *.
  assert (HL3 : Z.of_nat (size (BM sb ∪ ({[IBLOCK j sb]} ∪ L2))) <= Z.of_nat (size (BM sb ∪ L2)) + 1).
  { replace (BM sb ∪ ({[IBLOCK j sb]} ∪ L2)) with ({[IBLOCK j sb]} ∪ (BM sb ∪ L2)) by (clear; set_solver). pose proof (size_add (IBLOCK j sb) (BM sb ∪ L2)). lia. }
  (* the file is released *)
  eapply bind_returns; [eapply (dx_drop e s3 v3 _ _ T _ h2 j r2 (both_drop_file T h d r h2 j r2 Hbh) D3); [rewrite upd_eq; done|lia|lia]|].
  intros [] s4 (v4 & N4 & L4 & D4 & Hdr & HL4). eapply Hm; [exact D4| |lia].
  eapply (unlinked_intro e v N T d k name j v1 di1 v3 v4 N4 r2); try done; [apply D3|by eapply both_refs].
Qed.

(** C3: Removing a name.  On a consistent file system, [unlink] of a path that
    does not lead to a directory returns.  It fails, with nothing changed, when
    the directory of the path does not exist, when the last element is missing,
    or when it is "." or "..".  Otherwise it returns 0; exactly that name is gone
    from its directory, all other names, inodes and contents are as before, the
    file has one link less, and it is freed when that was its last link and it
    is not open; the file system is consistent again and no reference or lock
    is left behind.  A crash during the commit leaves all of this done or none
    of it. *)
Theorem unlink_removes_name e s v N T cwd ci path : fs_idle sb e s v N T -> fsck sb v N -> unlocked_refs T -> room2 T -> cwd_at sb N T cwd ci ->
  (forall d name j off, unlink_target v N ci path = Some (d, name, j, off) -> di_type (N j) <> T_DIR) ->
  returns (sys_unlink_path cwd path s) (call_post e v N T (fun x v' N' =>
    match unlink_target v N ci path with
    | None => x = -1 /\ v' = v /\ N' = N
    | Some (d, name, j, _) => x = 0 /\ unlinked v N T d name j v' N'
    end)).
Proof.
  intros Hid Hck Hun Hroom Hcwd Hfile. pose proof (ck_tree _ _ _ Hck) as Htree. destruct (idle_bm sb _ _ _ _ _ Hid) as (Hout & HBM & HB0).
  assert (HL0 : Z.of_nat (size (∅ : gset Z)) < NBUF) by (rewrite size_empty; done). pose proof (eq_refl : NBUF = 30) as HNB.
  unfold sys_unlink_path. eapply bind_returns; [by eapply idle_begin|]. intros [] s1 D1.
  eapply bind_returns; [by eapply (nameiparent_ok sb (begun e) v N ∅ T Htree HL0 Hun Hroom s1 cwd ci path)|]. intros x s2 Hx. cbn beta in Hx.
  unfold unlink_target in *. destruct (walk_parent v N (path_start ci path) (pelems path)) as [[d name]|].
  2: { destruct Hx as [-> D2]. by eapply call_end; [exact Hid|exact D2|lia|]. }
  destruct Hx as (h & T1 & -> & Hdd & Htk & D2). pose proof Hdd as [(Hdi & Hdt & Hdn) Hdty].
  eapply bind_returns; [by eapply (lock_held sb (begun e) v N ∅ T HL0 Hun s2 d h T1)|]. intros [] s3 (Ta & Hlk & D3).
  assert (Hbad : forall s', dx sb (begun e) s' v N ∅ Ta -> returns ((iunlockput h ;;; fend_op ;;; ret (-1)) s') (call_post e v N T (fun x v' N' => x = -1 /\ v' = v /\ N' = N))).
  { intros s' D. eapply bind_returns; [eapply (unlockput_held sb (begun e) v N ∅ T s' d h Ta Hlk D); lia|]. intros [] s'' D'. by eapply call_end; [exact Hid|exact D'|lia|]. }
  destruct (_ || _); [by apply Hbad|].
  pose proof (tr_dir _ _ _ Htree d Hdd) as Hdok. pose proof Hlk as (T1' & Htk1 & r & b & HT1 & Hr & HTa). pose proof (tk_handle _ _ _ _ Htk) as Hh.
  assert (HTah : Ta h = Some (mk_tent d r true true)) by (by rewrite HTa, upd_eq).
  eapply bind_returns.
  { eapply (dirlookup_ok sb (begun e) v N ∅ Ta h d r Hh HTah Hdty HL0 (dk_shape _ Hdok) s3 name D3). intros j off Hl.
    apply dlook_Some in Hl as (k & _ & Hlv & <- & _). split; [apply (tr_ent _ _ _ Htree d k Hdd Hlv)|by eapply (room_locked T Hroom)]. }
  intros y s4 Hy. cbn beta in Hy. destruct (dlook (fcontent v (N d)) name) as [[j off]|] eqn:Hl; cbn [fmap option_fmap option_map fst snd] in *.
  2: { destruct Hy as [-> D4]. by apply Hbad. }
  destruct Hy as (h2 & Tb & -> & Htk2 & D4). apply dlook_Some in Hl as (k & -> & Hlv & Hj & Hnm). specialize (Hfile d name j (16 * k) eq_refl).
  destruct (ul_node v N d k j Hck Hdd Hlv Hj Hfile) as [(Hji & Hjt & Hjn) Hjd].
  eapply bind_returns; [by eapply (lock_second (begun e) s4 v N T Hun ∅ d h Ta j h2 Tb)|]. intros [] s5 (r' & r2 & Hbh & D5).
  pose proof (bh_handle _ _ _ _ _ _ _ Hbh) as (_ & Hh2 & _).
  eapply (dx_geti sb (begun e) s5 v N ∅ _ h2 j r2 D5 Hh2); [by unfold both; rewrite upd_eq|]. cbn [i_di].
  destruct (Z.ltb_spec (di_nlink (N j)) 1); [lia|]. rewrite (proj2 (Z.eqb_neq _ _) Hfile).
  eapply (bind_returns _ _ _ (fun x s' => x = false /\ s' = s5)); [done|]. intros x s' [-> ->].
  eapply (unlink_body (begun e) s5 v N T h d r' h2 j r2 k name); try done.
  intros s6 v' N' L' D6 Hul HL6. by eapply call_end; [exact Hid|exact D6|lia|].
Qed.
End Calls.
