(* ===== verification/FsCreate.v ===== *)
(** [create]: a new file in a directory, or the file that is there already. *)
From S2P Require Import Prelude Bufcache Log LogClaims Txn FileLayer Fs FsBlocks FsInode FsData FsWrite FsTable FsTx FsRefs FsDir FsPath FsTree Pipe File FileClaims FsClaims FsOps Sysfile FsCalls.
Local Open Scope kern_scope.

(** ** Names in a path are C strings *)

Definition cstring (p : list Z) : Prop := Forall (fun c => c <> 0) p.

Lemma split_path_cstring p : cstring p -> Forall cstring (split_path p).
Proof.
  induction 1 as [|c p Hc Hp IH]; cbn; [repeat constructor|]. destruct (c =? c_slash); [by repeat constructor|].
  destruct (split_path p) as [|x es]; [by repeat constructor|]. inversion IH. constructor; [by constructor|done].
Qed.

Lemma pelems_cstring p : cstring p -> Forall cstring (pelems p).
Proof.
  intros Hp%split_path_cstring. unfold pelems. apply Forall_fmap. rewrite Forall_forall in *. intros x [_ Hx]%list_elem_of_filter.
  apply Forall_take. by apply Hp.
Qed.

Section Create.
Context {BC : BufCache} (sb : superblock).

Lemma parent_name v N i p d name : cstring p -> walk_parent v N i (pelems p) = Some (d, name) -> cstring name.
Proof.
  intros Hp Hw. apply pelems_cstring in Hp. unfold walk_parent in Hw. destruct (last (pelems p)) as [nm|] eqn:Hl; [|done].
  assert (nm = name) as -> by (repeat case_match; naive_solver). rewrite Forall_forall in Hp. apply Hp. by apply last_Some_elem_of.
Qed.

(** The inode that [create] makes. *)
Definition made_di (ty major minor : Z) : dinode := mk_di ty (i16 major) (i16 minor) 1 0 (replicate 13 0).

(** File [j] has been made in directory [d]. *)
Record created (v : Z -> list Z) (N : Z -> dinode) (d : Z) (name : list Z) (j : Z) (dj : dinode) (v' : Z -> list Z) (N' : Z -> dinode) : Prop := {
  cr_ck : fsck sb v' N';
  cr_free : di_type (N j) = 0;
  cr_inode : N' j = dj;
  cr_names : exists off, forall nm, dlook (fcontent v' (N' d)) nm = if bool_decide (dname nm = dname name) then Some (j, off) else dlook (fcontent v (N d)) nm;
  cr_others : forall i, inum_ok sb i -> di_type (N i) <> 0 -> i <> d -> N' i = N i /\ fcontent v' (N' i) = fcontent v (N i)
}.

(** Nothing has changed that a process can see. *)
Record same_files (v : Z -> list Z) (N : Z -> dinode) (v' : Z -> list Z) (N' : Z -> dinode) : Prop := {
  sf_ck : fsck sb v' N';
  sf_files : forall i, inum_ok sb i -> di_type (N' i) = di_type (N i) /\
    (di_type (N i) <> 0 -> di_nlink (N' i) = di_nlink (N i) /\ di_major (N' i) = di_major (N i) /\ fcontent v' (N' i) = fcontent v (N i))
}.

Lemma same_files_refl v N : fsck sb v N -> same_files v N v N.
Proof. intros. by split. Qed.

(** Consistency depends only on types, link counts and directories. *)
Lemma fsck_same v N v' N' : fsck sb v N ->
  (forall i, inum_ok sb i -> di_type (N' i) = di_type (N i) /\
     (di_type (N i) <> 0 -> di_nlink (N' i) = di_nlink (N i) /\ (di_type (N i) = T_DIR -> fcontent v' (N' i) = fcontent v (N i)))) ->
  fsck sb v' N'.
Proof.
  intros [[Hroot Hdir Hent] Hlk] Hs.
  assert (Hn : forall i, node_ok sb N' i <-> node_ok sb N i).
  { intros i. unfold node_ok. split; intros (Hi & Ht & Hl); destruct (Hs i Hi) as [E H].
    - rewrite E in Ht. destruct (H Ht) as [El _]. by rewrite El in Hl.
    - destruct (H Ht) as [El _]. by rewrite E, El. }
  assert (Hd : forall i, is_dir sb N' i <-> is_dir sb N i).
  { intros i. unfold is_dir. rewrite Hn. split; intros [Hi Ht]; (split; [done|]); destruct (Hs i (proj1 Hi)) as [E _]; congruence. }
  assert (Hc : forall i, is_dir sb N i -> fcontent v' (N' i) = fcontent v (N i)).
  { intros i [(Hi & Ht & _) Htd]. by apply (Hs i Hi). }
  split; [split|].
  - by apply Hd.
  - intros i Hi%Hd. rewrite Hc by done. auto.
  - intros i k Hi%Hd. rewrite Hc by done. intros Hk. apply Hn. auto.
  - intros j Hj Ht Hnd. destruct (Hs j Hj) as [E H]. rewrite E in Ht, Hnd. destruct (H Ht) as [-> _]. destruct (Hlk j Hj Ht Hnd) as (S & HS & Hsz).
    exists S. split; [|done]. intros i k. rewrite Hd, (HS i k). split; intros [Hi Hx]; (split; [done|]); rewrite Hc in * by done; done.
Qed.

Section CreatePure.
Variables (e : tenv) (v : Z -> list Z) (N : Z -> dinode) (d : Z) (name : list Z) (j ty major minor : Z).
Variables (v1 v2 v3 : Z -> list Z) (di3 : dinode).
Abbreviation dj := (made_di ty major minor).
Abbreviation N2 := (upd N j dj).
Abbreviation N3 := (upd N2 d di3).
Hypotheses (Hsb : sb_ok sb e) (Hw : fs_wf sb e v N) (Hck : fsck sb v N) (Hd : is_dir sb N d) (Hji : inum_ok sb j) (Hjf : di_type (N j) = 0).
Hypotheses (HK1 : forall i, inum_ok sb i -> di_type (N i) <> 0 -> keeps v v1 (N i)) (Hw1 : fs_wf sb e v1 (upd N j (new_di ty))).
Hypotheses (HK2 : forall i, inum_ok sb i -> di_type (upd N j (new_di ty) i) <> 0 -> keeps v1 v2 (upd N j (new_di ty) i)) (Hw2 : fs_wf sb e v2 N2).

Lemma cr_ne : j <> d.
Proof using Hd Hjf. intros E. destruct Hd as [(_ & Ht & _) _]. apply Ht. rewrite <- E. exact Hjf. Qed.

Lemma cr_content2 i : inum_ok sb i -> di_type (N i) <> 0 -> fcontent v2 (N2 i) = fcontent v (N i) /\ N2 i = N i.
Proof using BC Hsb Hw Hjf HK1 HK2 Hw1.
  intros Hi Ht. assert (i <> j) by congruence. assert (Hu : upd N j (new_di ty) i = N i) by (by rewrite upd_ne). rewrite upd_ne by done. split; [|done].
  pose proof (keeps_content sb e v1 v2 _ i Hw1 Hi ltac:(by rewrite Hu) (HK2 i Hi ltac:(by rewrite Hu))) as H2. rewrite Hu in H2.
  rewrite H2. apply (keeps_content sb e v v1 N i); auto.
Qed.

Lemma written_others off bs i : written sb e v2 N2 d off bs v3 di3 -> inum_ok sb i -> di_type (N i) <> 0 -> i <> d ->
  N3 i = N i /\ fcontent v3 (N3 i) = fcontent v (N i).
Proof using BC Hsb Hw Hjf HK1 HK2 Hw1 Hw2.
  intros HW Hi Ht Hne. destruct (cr_content2 i Hi Ht) as [Hc HN]. rewrite (upd_ne N2) by done. split; [done|]. rewrite <- Hc.
  apply (keeps_content sb e v2 v3 N2 i); try done; [by rewrite HN|]. apply (wt_others _ _ _ _ _ _ _ _ _ HW); try done. by rewrite HN.
Qed.

(** The entry has been written. *)
Lemma created_intro : written sb e v2 N2 d (dslot (fcontent v (N d))) (mk_dirent name j) v3 di3 -> cstring name -> 0 < j < 2 ^ 16 -> 0 < ty -> ty <> T_DIR ->
  dlook (fcontent v (N d)) name = None -> created v N d name j dj v3 N3.
Proof using BC Hsb Hw Hck Hd Hji Hjf HK1 HK2 Hw1 Hw2.
  intros HW Hnm Hj16 Hty Htd Hno. pose proof cr_ne as Hjd. pose proof Hd as [(Hdi & Hdt & Hdn) Hdd]. pose proof (ck_tree _ _ _ Hck) as Htree.
  pose proof (tr_dir _ _ _ Htree d Hd) as Hok. destruct (cr_content2 d Hdi Hdt) as [Hcd HNd].
  destruct (wt_meta _ _ _ _ _ _ _ _ _ HW) as (Et & _ & _ & En). rewrite HNd in Et, En.
  assert (Hc3 : fcontent v3 (N3 d) = splice (Z.to_nat (dslot (fcontent v (N d)))) (mk_dirent name j) (fcontent v (N d))).
  { rewrite upd_eq, (wt_content _ _ _ _ _ _ _ _ _ HW). by rewrite Hcd. }
  destruct (dlook_link _ name j Hok Hno Hnm Hj16) as [Hok' Hlk]. rewrite <- Hc3 in Hok', Hlk.
  destruct (dslot_spec _ (dk_shape _ Hok)) as (k & Hk & Hkr & Hnl).
  assert (Hsame : forall i, i <> j -> same_node N N3 i).
  { intros i Hi. unfold same_node, upd. destruct (Z.eqb_spec i d) as [->|]; [done|]. by destruct (Z.eqb_spec i j). }
  assert (Hj3 : N3 j = dj) by (rewrite upd_ne, upd_eq by done; done).
  assert (Hid : forall i, is_dir sb N3 i <-> is_dir sb N i).
  { intros i. unfold is_dir, node_ok. destruct (Z.eq_dec i j) as [->|Hi].
    - rewrite Hj3, Hjf. cbn. split; intros [(_ & ? & _) ?]; done.
    - destruct (Hsame i Hi) as [-> ->]. done. }
  assert (Hrl : relink sb v N v3 N3 d k (mk_dirent name j)).
  { split; try done; [apply length_dirent|by rewrite Hc3, Hk|]. intros i [(Hi & Ht & _) _] Hne. by eapply written_others. }
  split; try done.
  - eapply (fsck_link sb v N v3 N3 d k j (mk_dirent name j) ∅ Hrl Hck Hnl); try done; [apply dirent_inum; lia|lia| |by rewrite Hj3|rewrite Hj3; cbn; lia].
    intros i x. split; [set_solver|]. intros (Hi & Hx & E). pose proof (tr_ent _ _ _ Htree i x Hi Hx) as (_ & Ht & _). rewrite E in Ht. done.
  - by exists (dslot (fcontent v (N d))).
  - intros i Hi Ht Hne. by eapply written_others.
Qed.

(** The entry could not be written, and the new inode is free again. *)
Lemma create_failed off v4 v5 N5 dj4 : written sb e v2 N2 d off [] v3 di3 -> 0 <= off <= Z.of_nat (length (fcontent v (N d))) ->
  fs_wf sb e v3 N3 -> fs_wf sb e v4 (upd N3 j dj4) ->
  (forall i, inum_ok sb i -> di_type (N3 i) <> 0 -> keeps v3 v4 (N3 i)) -> N5 = upd (upd N3 j dj4) j (free_di dj4) ->
  (forall i, inum_ok sb i -> di_type (upd N3 j dj4 i) <> 0 -> i <> j -> keeps v4 v5 (upd N3 j dj4 i)) -> same_files v N v5 N5.
Proof using BC Hsb Hw Hck Hd Hji Hjf HK1 HK2 Hw1 Hw2.
  intros HW Hoff Hw3 Hw4 HK4 -> HK5. pose proof cr_ne as Hjd. pose proof Hd as [(Hdi & Hdt & Hdn) Hdd].
  destruct (cr_content2 d Hdi Hdt) as [Hcd HNd]. destruct (wt_meta _ _ _ _ _ _ _ _ _ HW) as (Et & Ema & _ & En). rewrite HNd in Et, Ema, En.
  assert (H3 : forall i, inum_ok sb i -> i <> j -> di_type (N3 i) = di_type (N i) /\ (di_type (N i) <> 0 -> di_nlink (N3 i) = di_nlink (N i) /\ di_major (N3 i) = di_major (N i) /\ fcontent v3 (N3 i) = fcontent v (N i))).
  { intros i Hi Hne. destruct (Z.eq_dec i d) as [->|Hnd].
    - rewrite upd_eq. split; [done|]. intros _. split_and!; try done. rewrite (wt_content _ _ _ _ _ _ _ _ _ HW), Hcd. apply splice_nil. lia.
    - split; [rewrite !upd_ne by done; done|]. intros Ht. destruct (written_others off [] i HW Hi Ht Hnd) as [-> ->]. done. }
  assert (H5 : forall i, inum_ok sb i -> di_type (upd (upd N3 j dj4) j (free_di dj4) i) = di_type (N i) /\
    (di_type (N i) <> 0 -> di_nlink (upd (upd N3 j dj4) j (free_di dj4) i) = di_nlink (N i) /\ di_major (upd (upd N3 j dj4) j (free_di dj4) i) = di_major (N i) /\
     fcontent v5 (upd (upd N3 j dj4) j (free_di dj4) i) = fcontent v (N i))).
  { intros i Hi. destruct (Z.eq_dec i j) as [->|Hne]; [rewrite upd_eq, Hjf; done|]. destruct (H3 i Hi Hne) as [E3 H]. rewrite !(upd_ne _ j) by done. split; [done|].
    intros Ht. destruct (H Ht) as (E & Em & Hc). split_and!; try done. rewrite <- Hc. 
    pose proof (keeps_content sb e v4 v5 (upd N3 j dj4) i Hw4 Hi) as Hk5. rewrite upd_ne in Hk5 by done. rewrite Hk5; [|congruence|].
    - apply (keeps_content sb e v3 v4 N3 i Hw3 Hi); [congruence|]. apply HK4; [done|congruence].
    - pose proof (HK5 i Hi) as H6. rewrite upd_ne in H6 by done. apply H6; [congruence|done]. }
  split; [|done]. eapply fsck_same; [exact Hck|]. intros i Hi. destruct (H5 i Hi) as [E H]. split; [done|]. intros Ht. by destruct (H Ht) as (? & _ & ?).
Qed.
End CreatePure.

(** ** Running [create] *)

Lemma locked_drops T i h T1 : locked_ref T i h T1 -> exists r, drops T T1 h i r.
Proof.
  intros (T' & Htk & r & b & HT & Hr & Ha). exists r. split; [apply Htk|by rewrite Ha, upd_eq|by eapply takes_back|].
  intros h' _ Hne. rewrite Ha, upd_ne, (tk_after _ _ _ _ Htk), upd_ne by done. apply weaker_refl.
Qed.

Lemma live_locked N T i h T1 : refs_live N T -> di_type (N i) <> 0 -> locked_ref T i h T1 -> refs_live N T1.
Proof.
  intros Hl Ht (T' & Htk & r & b & HT & Hr & Ha) h' t Hh'. rewrite Ha. unfold upd. destruct (h' =? h) eqn:E; [intros [= <-]; done|].
  apply Z.eqb_neq in E. rewrite (tk_after _ _ _ _ Htk), upd_ne by done. by apply Hl.
Qed.

Lemma add_block_size a L : Z.of_nat (size (BM sb ∪ ({[a]} ∪ L))) <= Z.of_nat (size (BM sb ∪ L)) + 1.
Proof.
  replace (BM sb ∪ ({[a]} ∪ L)) with ({[a]} ∪ (BM sb ∪ L)) by (clear; set_solver). pose proof (size_add a (BM sb ∪ L)). lia.
Qed.

Section Run.
Variables (e : tenv) (v : Z -> list Z) (N : Z -> dinode) (T : refs) (ty major minor : Z).
Hypotheses (Hck : fsck sb v N) (Hun : unlocked_refs T) (Hroom : room2 T) (Hlive : refs_live N T).
Hypotheses (Hty : 0 < ty < 2 ^ 15) (Htd : ty <> T_DIR) (Hni : sb_ninodes sb <= 2 ^ 16) (HBM : (size (BM sb) <= 4)%nat) (Hout : te_out e = 1).

(** No inode or no block is free, or the directory has its maximal size. *)
Definition no_space (d : Z) (v' : Z -> list Z) : Prop :=
  (forall i, 1 <= i < sb_ninodes sb -> di_type (N i) <> 0) \/ full sb v' \/ di_size (N d) = MAXFILE * BSIZE.

(** The name is new. *)
Definition create_new_post (d : Z) (name : list Z) (x : option Z) (s' : fsys) : Prop :=
  exists v' N' L', Z.of_nat (size (BM sb ∪ L')) <= 14 /\
    ((exists h j, x = Some h /\ handle h /\ T h = None /\ dx sb e s' v' N' L' (upd T h (Some (mk_tent j 1 true true))) /\ created v N d name j (made_di ty major minor) v' N') \/
     (x = None /\ dx sb e s' v' N' L' T /\ same_files v N v' N' /\ no_space d v')).

(** The code of [create] after [ialloc] has found inode [ip]. *)
Definition create_tail (dp ip : Z) (name : list Z) (d : inode) : M fsys (option Z) :=
  ilock ip ;;;
  seti ip (fun n => set_di (mk_di (di_type (i_di n)) (i16 major) (i16 minor) 1 (di_size (i_di n)) (di_addrs (i_di n))) n) ;;;
  iupdate ip ;;;
  do i <- geti ip;
  do failed <-
    (do bad <- (if ty =? T_DIR then
                  do r <- dirlink ip [c_dot] (i_inum i);
                  if r <? 0 then ret true else do r <- dirlink ip [c_dot; c_dot] (i_inum d); ret (r <? 0)
                else ret false);
     if bad : bool then ret true else do r <- dirlink dp name (i_inum i); ret (r <? 0));
  if failed : bool then
    seti ip (fun n => set_di (set_nlink 0 (i_di n)) n) ;;;
    iupdate ip ;;; iunlockput ip ;;; iunlockput dp ;;; ret None
  else
    (if ty =? T_DIR then add_nlink 1 dp ;;; iupdate dp else ret tt) ;;;
    iunlockput dp ;;; ret (Some ip).

Lemma made_ok : di_ok (made_di ty major minor).
Proof using Hty.
  clear -Hty. assert (forall x, - 2 ^ 15 <= i16 x < 2 ^ 15) by (intros x; unfold i16; pose proof (Z.mod_pos_bound (x + 2 ^ 15) (2 ^ 16)); lia).
  unfold made_di. split; cbn [di_type di_major di_minor di_nlink di_size di_addrs]; auto; try lia. apply Forall_replicate. lia.
Qed.

Lemma made_slot u k : slot u (set_nlink 0 (made_di ty major minor)) k = 0.
Proof using Type. apply (new_di_slot u ty k). Qed.

Lemma create_tail_ok s L d h r h2 j v1 name di : both_held T h d r h2 j 1 -> T h2 = None ->
  dx sb e s v1 (upd N j (new_di ty)) L (upd (upd T h (Some (mk_tent d r true true))) h2 (Some (mk_tent j 1 false false))) -> Z.of_nat (size (BM sb ∪ L)) <= 5 ->
  is_dir sb N d -> 1 <= j < sb_ninodes sb -> di_type (N j) = 0 -> (forall i, inum_ok sb i -> di_type (N i) <> 0 -> keeps v v1 (N i)) ->
  fs_wf sb e v N -> dlook (fcontent v (N d)) name = None -> cstring name ->
  returns (create_tail h h2 name di s) (create_new_post d name).
Proof using Hck Hty Htd Hni HBM Hout.
  intros Hbh HT2 Hd HL Hdd Hj Hjf HK1 Hw Hno Hnm. pose proof Hd as [Hsb Hw1 _ _]. pose proof Hbh as [(Hh & Hh2 & Hhne) _ _ _]. pose proof (eq_refl : NBUF = 30) as HNB.
  assert (Hji : inum_ok sb j) by (unfold inum_ok; lia). pose proof (size_le_BM sb L) as HLs. pose proof Hdd as [(Hdi & Hdt & Hdn) Hdty].
  assert (Hjd : j <> d) by congruence. unfold create_tail.
  eapply bind_returns; [eapply (dx_ilock sb e s v1 _ L _ h2 j 1 false Hd Hh2 ltac:(by rewrite upd_eq)); [rewrite upd_eq; cbn; lia|lia]|]. intros [] s1 D1'.
  assert (D1 : dx sb e s1 v1 (upd N j (new_di ty)) L (both T h d r h2 j 1)).
  { eapply dx_ext; [exact D1'|]. intros h' _. unfold both, upd. by destruct (h' =? h2). }
  eapply (dx_update sb e s1 v1 _ L _ h2 j 1 D1 Hh2 ltac:(unfold both; by rewrite upd_eq) (fun di => mk_di (di_type di) (i16 major) (i16 minor) 1 (di_size di) (di_addrs di)));
    [rewrite upd_eq; exact made_ok|done|done|done|lia|lia|]. rewrite upd_eq. change (mk_di (di_type (new_di ty)) _ _ 1 _ _) with (made_di ty major minor).
  intros s2 v2 D2' HK2 _. pose proof (add_block_size (IBLOCK j sb) L) as HL2.
  assert (D2 : dx sb e s2 v2 (upd N j (made_di ty major minor)) ({[IBLOCK j sb]} ∪ L) (both T h d r h2 j 1)).
  { eapply dx_nodes_ext; [exact D2'|]. intros i. unfold upd. by destruct (i =? j). }
  clear D2'. set (L2 := {[IBLOCK j sb]} ∪ L) in *. set (N2 := upd N j (made_di ty major minor)) in *. pose proof D2 as [_ Hw2 _ _].
  eapply (dx_geti sb e s2 v2 N2 L2 _ h2 j 1 D2 Hh2); [unfold both; by rewrite upd_eq|]. cbn [i_inum]. rewrite (proj2 (Z.eqb_neq _ _) Htd).
  destruct (cr_content2 e v N j ty major minor v1 v2 Hsb Hw Hjf HK1 Hw1 HK2 d Hdi Hdt) as [Hcd HNd]. fold N2 in Hcd, HNd.
  pose proof (tr_dir _ _ _ (ck_tree _ _ _ Hck) d Hdd) as Hok. pose proof (size_le_BM sb L2) as HL2s.
  assert (HTh : both T h d r h2 j 1 h = Some (mk_tent d r true true)) by (unfold both; by rewrite upd_ne, upd_eq by done).
  eapply (bind_returns _ _ _ (fun failed s' => exists v3 di3 L3, dx sb e s' v3 (upd N2 d di3) L3 (both T h d r h2 j 1) /\
    Z.of_nat (size (BM sb ∪ L3)) <= Z.of_nat (size (BM sb ∪ L2)) + 3 /\
    if failed : bool then written sb e v2 N2 d (dslot (fcontent v (N d))) [] v3 di3 /\ (full sb v3 \/ di_size (N d) = MAXFILE * BSIZE)
    else written sb e v2 N2 d (dslot (fcontent v (N d))) (mk_dirent name j) v3 di3)).
  { eapply (bind_returns _ _ _ (fun b s' => b = false /\ s' = s2)); [done|]. intros b s2' [-> ->].
    eapply bind_returns; [eapply (dirlink_ok sb e v2 N2 L2 _ h d r Hh HTh); [by rewrite HNd|lia|rewrite Hcd; apply Hok|exact D2|lia|lia|rewrite Hcd, Hno; done]|].
    intros x s3 Hx. rewrite Hcd, Hno, HNd in Hx. destruct Hx as (v3 & di3 & L3 & D3 & HL3 & Hx). cbn. exists v3, di3, L3. split_and!; try done.
    destruct Hx as [[-> HW]|(-> & HW & Hfull)]; cbn; done. }
  intros failed s3 (v3 & di3 & L3 & D3 & HL3 & Hx). destruct failed.
  - destruct Hx as [HW Hfull]. assert (HN3j : upd N2 d di3 j = made_di ty major minor) by (unfold N2; rewrite upd_ne, upd_eq by done; done).
    eapply (dx_update sb e s3 v3 _ L3 _ h2 j 1 D3 Hh2 ltac:(unfold both; by rewrite upd_eq) (fun di => set_nlink 0 di)); [|done|done|done|pose proof (size_le_BM sb L3); lia|lia|].
    { rewrite HN3j. destruct made_ok. split; try done; cbn; lia. }
    rewrite HN3j. intros s4 v4 D4 HK4 Hu4. pose proof (add_block_size (IBLOCK j sb) L3) as HL4.
    eapply bind_returns; [eapply (dx_drop sb e s4 v4 _ _ (upd T h (Some (mk_tent d r true true))) _ h2 j 1); [|exact D4|rewrite upd_eq; cbn; lia|lia|lia]|].
    { unfold both. split; [done|by rewrite upd_eq|by rewrite upd_ne, HT2|]. intros h' _ Hne. rewrite (upd_ne _ h2) by done. apply weaker_refl. }
    intros [] s5 (v5 & N5 & L5 & D5 & Hdr & HL5). unfold dropped in Hdr. rewrite upd_eq in Hdr. cbn in Hdr. destruct Hdr as [HN5 Hrc].
    assert (HN5d : N5 d = di3) by (rewrite HN5, !(upd_ne _ j), upd_eq by done; done). destruct (wt_meta _ _ _ _ _ _ _ _ _ HW) as (Et & _ & _ & En). rewrite HNd in Et, En.
    eapply bind_returns; [eapply (dx_drop sb e s5 v5 N5 L5 T _ h d r); [|exact D5|congruence|lia|lia]|].
    { split; [done|by rewrite upd_eq|apply Hbh|]. intros h' _ Hne. rewrite upd_ne by done. apply weaker_refl. }
    intros [] s6 (v6 & N6 & L6 & D6 & Hdr & HL6). unfold dropped in Hdr. rewrite HN5d, En in Hdr. replace (di_nlink (N d) =? 0) with false in Hdr by lia. cbn in Hdr. destruct Hdr as [-> ->].
    cbn. exists v5, N5, L6. split; [lia|]. right. split_and!; [done|done| |].
    + eapply (create_failed e v N d j ty major minor v1 v2 v3 di3 Hsb Hw Hck Hdd Hji Hjf HK1 Hw1 HK2 Hw2 (dslot (fcontent v (N d))) v4 v5 N5); try done.
      * destruct (dslot_spec _ (dk_shape _ Hok)) as (k & -> & Hk & _). rewrite (dents_shape _ (dk_shape _ Hok)). lia.
      * apply D3.
      * apply D4.
      * apply Hrc.
    + right. destruct Hfull as [Hfull|]; [left|by right]. intros c Hc. apply (rc_used _ _ _ _ _ Hrc c Hc). rewrite Hu4, Hfull by done. split; [done|].
      intros (k & _ & _ & _ & Ho & Hnz). rewrite upd_eq in Ho. by rewrite made_slot in Ho.
  - cbn [Z.eqb]. eapply (bind_returns _ _ _ (fun _ s' => s' = s3)); [done|]. intros [] s3' ->.
    destruct (wt_meta _ _ _ _ _ _ _ _ _ Hx) as (Et & _ & _ & En). rewrite HNd in Et, En.
    eapply bind_returns; [eapply (dx_drop sb e s3 v3 _ L3 _ _ h d r (both_drop_dir T h d r h2 j 1 Hbh) D3); [rewrite upd_eq; congruence|lia|lia]|].
    intros [] s4 (v4 & N4 & L4 & D4 & Hdr & HL4). unfold dropped in Hdr. rewrite upd_eq, En in Hdr. replace (di_nlink (N d) =? 0) with false in Hdr by lia. cbn in Hdr. destruct Hdr as [-> ->].
    cbn. exists v3, (upd N2 d di3), L4. split; [lia|]. left. exists h2, j. split_and!; try done.
    eapply (created_intro e v N d name j ty major minor v1 v2 v3 di3 Hsb Hw Hck Hdd Hji Hjf HK1 Hw1 HK2 Hw2); try done; lia.
Qed.

(** Where [create] works: the directory, the name and the inode that has it. *)
Definition create_target (i : Z) (path : list Z) : option (Z * list Z * option Z) :=
  match walk_parent v N (path_start i path) (pelems path) with
  | None => None
  | Some (d, name) => Some (d, name, fst <$> dlook (fcontent v (N d)) name)
  end.

(** [create] accepts a file that exists. *)
Definition reusable (j : Z) : bool := (ty =? T_FILE) && ((di_type (N j) =? T_FILE) || (di_type (N j) =? T_DEVICE)).

Definition create_post (o : option (Z * list Z * option Z)) (x : option Z) (s' : fsys) : Prop :=
  match o with
  | None => x = None /\ dx sb e s' v N ∅ T
  | Some (d, name, None) => create_new_post d name x s'
  | Some (_, _, Some j) =>
      if reusable j then exists h r T', x = Some h /\ node_ok sb N j /\ drops T T' h j r /\ dx sb e s' v N ∅ T'
      else x = None /\ dx sb e s' v N ∅ T
  end.

Lemma create_ok s cwd ci path : dx sb e s v N ∅ T -> cwd_at sb N T cwd ci -> cstring path ->
  returns (create cwd path ty major minor s) (create_post (create_target ci path)).
Proof using Hck Hun Hroom Hlive Hty Htd Hni HBM Hout.
  intros Hd Hcwd Hcs. pose proof (ck_tree _ _ _ Hck) as Htree. pose proof (eq_refl : NBUF = 30) as HNB.
  assert (HB0 : size (BM sb ∪ ∅) = size (BM sb)) by (by rewrite union_empty_r_L).
  assert (HL0 : Z.of_nat (size (∅ : gset Z)) < NBUF) by (rewrite size_empty; done). unfold create, create_target.
  eapply bind_returns; [by eapply (nameiparent_ok sb e v N ∅ T Htree HL0 Hun Hroom s cwd ci path)|]. intros x s1 Hx. cbn beta in Hx.
  destruct (walk_parent v N (path_start ci path) (pelems path)) as [[d name]|] eqn:Hwp; [|by destruct Hx as [-> D1]].
  apply (parent_name v N _ path d name Hcs) in Hwp as Hnm. destruct Hx as (h & T1 & -> & Hdd & Htk & D1). pose proof Hdd as [(Hdi & Hdt & Hdn) Hdty].
  eapply bind_returns; [by eapply (lock_held sb e v N ∅ T HL0 Hun s1 d h T1)|]. intros [] s2 (Ta & Hlk & D2).
  pose proof (tr_dir _ _ _ Htree d Hdd) as Hdok. pose proof Hlk as (T1' & Htk1 & r & b & HT1 & Hr & HTa). pose proof (tk_handle _ _ _ _ Htk) as Hh.
  assert (HTah : Ta h = Some (mk_tent d r true true)) by (by rewrite HTa, upd_eq).
  eapply bind_returns.
  { eapply (dirlookup_ok sb e v N ∅ Ta h d r Hh HTah Hdty HL0 (dk_shape _ Hdok) s2 name D2). intros j off Hl.
    apply dlook_Some in Hl as (k & _ & Hlv & <- & _). split; [apply (tr_ent _ _ _ Htree d k Hdd Hlv)|by eapply (room_locked T Hroom)]. }
  intros y s3 Hy. cbn beta in Hy. destruct (dlook (fcontent v (N d)) name) as [[j off]|] eqn:Hl; cbn [fmap option_fmap option_map fst create_post].
  - destruct Hy as (h2 & Tb & -> & Htk2 & D3). apply dlook_Some in Hl as (k & _ & Hlv & Hj & _).
    pose proof (tr_ent _ _ _ Htree d k Hdd Hlv) as Hnj. rewrite Hj in Hnj. pose proof Hnj as (Hji & Hjt & Hjn).
    eapply bind_returns; [eapply (unlockput_next sb e v N ∅ T Hun s3 d h Ta j h2 Tb Hlk Htk2 D3); lia|]. intros [] s4 (T3 & Htk3 & D4).
    eapply bind_returns; [by eapply (lock_held sb e v N ∅ T HL0 Hun s4 j h2 T3)|]. intros [] s5 (T4 & Hlk4 & D5).
    destruct (locked_drops _ _ _ _ Hlk4) as [r2 Hdr]. eapply (dx_geti sb e s5 v N ∅ T4 h2 j r2 D5); [apply Hdr|apply Hdr|]. cbn [i_di]. fold (reusable j).
    destruct (reusable j) eqn:Hre.
    + cbn [ret returns]. unfold create_post. rewrite Hre. by exists h2, r2, T4.
    + eapply bind_returns; [eapply (unlockput_held sb e v N ∅ T s5 j h2 T4 Hlk4 D5); lia|]. intros [] s6 D6. cbn [ret returns]. unfold create_post. by rewrite Hre.
  - destruct Hy as [-> D3]. eapply (dx_geti sb e s3 v N ∅ Ta h d r D3 Hh HTah). cbn [i_dev].
    eapply bind_returns.
    { eapply (dx_ialloc sb e s3 v N ∅ Ta ty D3); [by eapply live_locked| |lia|done|lia].
      destruct Hroom as (h1 & h3 & Hne & [Hh1 HT1n] & [Hh3 HT3n]). destruct (Z.eq_dec h1 h) as [E|E].
      - exists h3. split; [done|]. rewrite HTa, upd_ne, (tk_after _ _ _ _ Htk1), upd_ne by congruence. done.
      - exists h1. split; [done|]. rewrite HTa, upd_ne, (tk_after _ _ _ _ Htk1), upd_ne by congruence. done. }
    intros [h2|] s4 Hx.
    + destruct Hx as (j & v1 & Tb & Hjr & Hjf & (Hh2 & HT2 & HTb) & HK1 & D4).
      assert (Hhne : h <> h2) by congruence. assert (HTh2 : T h2 = None) by (rewrite HTa, upd_ne, (tk_after _ _ _ _ Htk1), upd_ne in HT2 by done; done).
      pose proof (add_block_size (IBLOCK j sb) ∅) as HLa. rewrite HB0 in HLa.
      eapply (create_tail_ok s4 ({[IBLOCK j sb]} ∪ ∅) d h r h2 j v1 name); try done; [| |lia|apply D1].
      * split; [done|lia|by eapply (takes_back T d h T1')|by rewrite HTh2].
      * eapply dx_ext; [exact D4|]. intros h' _. rewrite HTb. unfold upd. destruct (h' =? h2); [done|]. rewrite HTa. unfold upd. destruct (h' =? h) eqn:E; [done|].
        rewrite (tk_after _ _ _ _ Htk1), upd_ne by lia. done.
    + destruct Hx as [D4 Hall]. eapply bind_returns; [eapply (unlockput_held sb e v N ∅ T s4 d h Ta Hlk D4); lia|]. intros [] s5 D5. cbn.
      exists v, N, ∅. split; [lia|]. right. split_and!; [done|done|by apply same_files_refl|by left].
Qed.
End Run.

Lemma copyinstr_cstring n u a p : copyinstr_bytes n u a = Some p -> cstring p.
Proof.
  revert a p. induction n as [|n IH]; intros a p; cbn; [done|]. destruct (u_in u a) as [x|]; [|done]. destruct (Z.eqb_spec x 0); [intros [= <-]; constructor|].
  destruct (copyinstr_bytes n u (a + 1)) as [q|] eqn:E; [|done]. intros [= <-]. constructor; [done|]. by eapply IH.
Qed.

(** What [mknod] does for the target of its path. *)
Definition mknod_post (v : Z -> list Z) (N : Z -> dinode) (major minor : Z) (o : option (Z * list Z * option Z)) (x : Z) (v' : Z -> list Z) (N' : Z -> dinode) : Prop :=
  match o with
  | Some (d, name, None) =>
      x = 0 /\ (exists j, created v N d name j (made_di T_DEVICE major minor) v' N') \/ x = -1 /\ same_files v N v' N' /\ no_space N d v'
  | _ => x = -1 /\ v' = v /\ N' = N
  end.

Lemma make_device_ok e s v N T cwd ci path major minor : fs_idle sb e s v N T -> fsck sb v N -> unlocked_refs T -> room2 T -> refs_live N T ->
  cwd_at sb N T cwd ci -> cstring path -> sb_ninodes sb <= 2 ^ 16 ->
  returns (make_node cwd (Some path) T_DEVICE major minor s) (call_post sb e v N T (mknod_post v N major minor (create_target v N ci path))).
Proof.
  intros Hid Hck Hun Hroom Hlive Hcwd Hcs Hni. destruct (idle_bm sb _ _ _ _ _ Hid) as (Hout & HBM & HB0). pose proof (eq_refl : NBUF = 30) as HNB.
  unfold make_node. eapply bind_returns; [by eapply idle_begin|]. intros [] s1 D1.
  eapply bind_returns; [by eapply (create_ok (begun e) v N T T_DEVICE major minor Hck Hun Hroom Hlive ltac:(done) ltac:(done) Hni HBM Hout s1 cwd ci path)|].
  intros x s2 Hx. unfold create_post in Hx. destruct (create_target v N ci path) as [[[d name] [j|]]|].
  - destruct Hx as [-> D2]. by eapply call_end; [exact Hid|exact D2|lia|].
  - destruct Hx as (v' & N' & L' & HL & [(h & j & -> & Hh & HT & D2 & Hcr)|(-> & D2 & Hsf & Hns)]).
    + eapply bind_returns; [eapply (dx_drop sb (begun e) s2 v' N' L' T _ h j 1); [|exact D2|rewrite (cr_inode _ _ _ _ _ _ _ _ Hcr); done|lia|lia]|].
      { split; [done|by rewrite upd_eq|by rewrite HT|]. intros h' _ Hne. rewrite upd_ne by done. apply weaker_refl. }
      intros [] s3 (v3 & N3 & L3 & D3 & Hdr & HL3). unfold dropped in Hdr. rewrite (cr_inode _ _ _ _ _ _ _ _ Hcr) in Hdr. cbn in Hdr. destruct Hdr as [-> ->].
      eapply call_end; [exact Hid|exact D3|lia|]. left. split; [done|]. by exists j.
    + eapply call_end; [exact Hid|exact D2|lia|]. by right.
  - destruct Hx as [-> D2]. by eapply call_end; [exact Hid|exact D2|lia|].
Qed.

(** C20: Making a name.  On a consistent file system, [mknod] on a readable path
    returns.  It fails with nothing changed when the directory of the path does
    not exist or already has the name.  Otherwise it returns 0, and the directory
    has the new name, for an inode that was free and is now a device with the
    given numbers and one link, and is as before in all other names; or it returns
    -1 because no inode or no block is free or the directory is full, and then all
    names, link counts and contents are as before.  In every case the file system
    is consistent again, no reference or lock is left behind, and a crash during
    the commit leaves the call done completely or not at all. *)
Theorem mknod_adds_name {dev : Type} (s : sysf (dev := dev)) c path e v N T ci : fs_idle sb e (k_fs (y_k s)) v N T -> fsck sb v N ->
  unlocked_refs T -> room2 T -> refs_live N T -> cwd_at sb N T (y_cwd s) ci -> sb_ninodes sb <= 2 ^ 16 -> argstr c 0 MAXPATH = Some path ->
  returns (sys_mknod c s) (fun x s' => exists fs', s' = put_k (put_fs fs' (y_k s)) s /\
    call_post sb e v N T (mknod_post v N (argint c 1) (argint c 2) (create_target v N ci path)) x fs').
Proof.
  intros Hid Hck Hun Hroom Hlive Hcwd Hni Harg. apply copyinstr_cstring in Harg as Hcs. unfold sys_mknod. mstep. rewrite Harg.
  pose proof (make_device_ok e _ v N T _ ci path (argint c 1) (argint c 2) Hid Hck Hun Hroom Hlive Hcwd Hcs Hni) as Hr.
  unfold fop, kop, fsop, zoom. destruct (make_node _ _ _ _ _ _); cbn in *; try done. eexists. split; [done|exact Hr].
Qed.
End Create.
