(* ===== verification/FsOpen.v ===== *)
(** [open] of an existing path: the descriptor, the entry of the file table and
    the reference to the inode. *)
From S2P Require Import Prelude Bufcache Log LogClaims Txn FileLayer Fs FsBlocks FsInode FsData FsWrite FsTable FsTx FsRefs FsDir FsPath FsTree Pipe File FileClaims FsClaims FsOps Sysfile FsCalls FsCreate.
Local Open Scope kern_scope.

Section Open.
Context {BC : BufCache} {dev : Type} (sb : superblock).
Abbreviation sysf := (sysf (dev := dev)).

Definition set_fs (x : fsys) (s : sysf) : sysf := put_k (put_fs x (y_k s)) s.

Lemma fop_bind {A B} (m : M fsys A) (k : A -> M sysf B) s P Q : returns (m (k_fs (y_k s))) P ->
  (forall a x, P a x -> returns (k a (set_fs x s)) Q) -> returns (bind (fop m) k s) Q.
Proof. intros Hm Hk. unfold bind, fop, kop, fsop, zoom. destruct (m (k_fs (y_k s))); cbn in *; try contradiction. by apply Hk. Qed.

(** The first free descriptor and the first free entry of the file table. *)
Definition free_fd (s : sysf) : option Z := scan (fun fd => match y_ofile s fd with None => true | Some _ => false end) NOFILE.
Definition free_file (s : sysf) : option Z := scan (fun f => fl_ref (k_ftable (y_k s) f) =? 0) NFILE.

Definition set_file (f : Z) (x : file) (s : sysf) : sysf := put_k (put_ftable (upd (k_ftable (y_k s)) f x) (y_k s)) s.

Lemma filealloc_bind {B} (k : option Z -> M sysf B) s f Q : free_file s = Some f ->
  returns (k (Some f) (set_file f (set_fref 1 (k_ftable (y_k s) f)) s)) Q -> returns (bind (kop filealloc) k s) Q.
Proof. unfold free_file. intros Hf Hk. unfold bind at 1, kop, zoom, filealloc. unfold bind, get. rewrite Hf. exact Hk. Qed.

Lemma fdalloc_bind {B} (k : option Z -> M sysf B) s f fd Q : free_fd s = Some fd ->
  returns (k (Some fd) (put_ofile (upd (y_ofile s) fd (Some f)) s)) Q -> returns (bind (fdalloc f) k s) Q.
Proof. unfold free_fd. intros Hf Hk. unfold fdalloc, bind, get. rewrite Hf. exact Hk. Qed.

Lemma setf_bind {B} (k : unit -> M sysf B) s f g Q : returns (k tt (set_file f (g (k_ftable (y_k s) f)) s)) Q ->
  returns (bind (kop (setf f g)) k s) Q.
Proof. intros Hk. exact Hk. Qed.

(** The entry that [open] makes for inode [di] with handle [h]; [x] is the old
    content of the entry. *)
Definition opened_file (omode : Z) (di : dinode) (h : Z) (x : file) : file :=
  let rd := negb (has omode O_WRONLY) in let wr := has omode O_WRONLY || has omode O_RDWR in
  if di_type di =? T_DEVICE then mk_file FD_DEVICE 1 rd wr (fl_pipe x) h (fl_off x) (di_major di)
  else mk_file FD_INODE 1 rd wr (fl_pipe x) h 0 (fl_major x).

(** [open] refuses to open a directory for writing and a device that cannot
    exist. *)
Definition refused_open (omode : Z) (di : dinode) : bool :=
  (di_type di =? T_DIR) && negb (omode =? O_RDONLY) || (di_type di =? T_DEVICE) && ((di_major di <? 0) || (NDEV <=? di_major di)).

(** The state after a successful [open] of inode [j]. *)
Record opens (omode : Z) (s : sysf) (v : Z -> list Z) (N : Z -> dinode) (T : refs) (j fd : Z) (s' : sysf) (v' : Z -> list Z) (N' : Z -> dinode) (T' : refs) : Prop := {
  op_fd : free_fd s = Some fd;
  op_file : exists f h, free_file s = Some f /\ takes_ref T j h T' /\ y_ofile s' = upd (y_ofile s) fd (Some f) /\
    forall g, k_ftable (y_k s') g = upd (k_ftable (y_k s)) f (opened_file omode (N j) h (k_ftable (y_k s) f)) g;
  op_cwd : y_cwd s' = y_cwd s;
  op_pipes : k_pipes (y_k s') = k_pipes (y_k s) /\ k_freed (y_k s') = k_freed (y_k s) /\ k_dev (y_k s') = k_dev (y_k s);
  op_trunc : if has omode O_TRUNC && (di_type (N j) =? T_FILE)
    then N' j = empty_di (N j) /\ fcontent v' (N' j) = [] /\
      (forall i, inum_ok sb i -> di_type (N i) <> 0 -> i <> j -> N' i = N i /\ fcontent v' (N' i) = fcontent v (N i))
    else N' = N /\ v' = v
}.

(** Nothing but what the file system keeps for itself has changed. *)
Definition same_tables (s s' : sysf) : Prop := exists x, s' = set_fs x s.

Lemma truncate_content e v N j v' : sb_ok sb e -> fs_wf sb e v N -> truncated sb e v N j v' ->
  fcontent v' (upd N j (empty_di (N j)) j) = [] /\
  (forall i, inum_ok sb i -> di_type (N i) <> 0 -> i <> j -> upd N j (empty_di (N j)) i = N i /\ fcontent v' (upd N j (empty_di (N j)) i) = fcontent v (N i)).
Proof.
  intros Hsb Hw Htr. split; [by rewrite upd_eq|]. intros i Hi Ht Hne. rewrite upd_ne by done. split; [done|].
  apply (keeps_content sb e v v' N i); try done. by apply (tr_others _ _ _ _ _ _ Htr).
Qed.

(** The inode that [open] works on, locked. *)
Lemma open_inode_ok e s v N T cwd ci path omode : dx sb e s v N ∅ T -> fsck sb v N -> unlocked_refs T -> room2 T -> cwd_at sb N T cwd ci ->
  has omode O_CREATE = false ->
  returns (open_inode_of cwd path omode s) (fun x s' =>
    match walk v N (path_start ci path) (pelems path) with
    | Some j => if (di_type (N j) =? T_DIR) && negb (omode =? O_RDONLY) then x = None /\ dx sb e s' v N ∅ T
                else exists h Tl, x = Some h /\ node_ok sb N j /\ locked_ref T j h Tl /\ dx sb e s' v N ∅ Tl
    | None => x = None /\ dx sb e s' v N ∅ T
    end).
Proof.
  intros Hd Hck Hun Hroom Hcwd Hcr. assert (HL0 : Z.of_nat (size (∅ : gset Z)) < NBUF) by (rewrite size_empty; done). unfold open_inode_of. rewrite Hcr.
  eapply bind_returns; [by eapply (namei_ok sb e v N ∅ T (ck_tree _ _ _ Hck) HL0 Hun Hroom s cwd ci path)|]. intros x s1 Hx. unfold found in Hx.
  destruct (walk v N (path_start ci path) (pelems path)) as [j|]; [|by destruct Hx as [-> D1]]. destruct Hx as (h & T1 & -> & Hnj & Htk & D1).
  pose proof Hnj as (Hji & Hjt & Hjn). eapply bind_returns; [by eapply (lock_held sb e v N ∅ T HL0 Hun s1 j h T1)|]. intros [] s2 (Tl & Hlk & D2).
  destruct (locked_drops _ _ _ _ Hlk) as [r Hdr]. eapply (dx_geti sb e s2 v N ∅ Tl h j r D2); [apply Hdr|apply Hdr|]. cbn [i_di].
  destruct (_ && _) eqn:Hb.
  - eapply bind_returns; [eapply (unlockput_held sb e v N ∅ T s2 j h Tl Hlk D2); lia|]. intros [] s3 D3. done.
  - cbn. by exists h, Tl.
Qed.

(** [O_TRUNC]. *)
Lemma open_trunc_ok e s v N T j h Tl (t : bool) : dx sb e s v N ∅ Tl -> fsck sb v N -> node_ok sb N j -> locked_ref T j h Tl -> (size (BM sb) <= 4)%nat -> te_out e = 1 ->
  (t = true -> di_type (N j) = T_FILE) ->
  returns ((if t then itrunc h else ret tt) s) (fun _ s' => exists v' N' L', dx sb e s' v' N' L' Tl /\ fsck sb v' N' /\ Z.of_nat (size (BM sb ∪ L')) <= 5 /\
    if t then N' j = empty_di (N j) /\ fcontent v' (N' j) = [] /\
      (forall i, inum_ok sb i -> di_type (N i) <> 0 -> i <> j -> N' i = N i /\ fcontent v' (N' i) = fcontent v (N i))
    else N' = N /\ v' = v).
Proof.
  intros Hd Hck (Hji & Hjt & Hjn) Hlk HBM Hout Ht. assert (HB0 : size (BM sb ∪ ∅) = size (BM sb)) by (by rewrite union_empty_r_L). pose proof (eq_refl : NBUF = 30) as HNB.
  destruct t; [|cbn; exists v, N, ∅; split_and!; (done || lia)]. destruct (locked_drops _ _ _ _ Hlk) as [r Hdr].
  eapply returns_mono; [eapply (dx_itrunc sb e s v N ∅ Tl h j r Hd); [apply Hdr|lia|lia|apply Hdr|done]|]. intros [] s' (v' & L' & D & Htr & HL).
  pose proof Hd as [Hsb Hw _ _]. destruct (truncate_content e v N j v' Hsb Hw Htr) as [Hc Ho]. exists v', (upd N j (empty_di (N j))), L'.
  split_and!; try done; [|lia|by rewrite upd_eq]. eapply fsck_same; [exact Hck|]. intros i Hi. unfold upd at 1 2. destruct (Z.eqb_spec i j) as [->|Hne].
  - split; [done|]. intros _. split; [done|]. rewrite (Ht eq_refl). done.
  - split; [done|]. intros Hti. split; [done|]. intros _. by apply Ho.
Qed.

End Open.
