(* ===== verification/FsWitnesses.v ===== *)
(** A small disk with a root directory, a file in it and an open file that has
    been unlinked, the kernel booted from it, and the theorems on files applied
    to it. *)
From S2P Require Import Prelude Bufcache Log LogClaims Bio LogWitnesses Txn FileLayer Fs FsBlocks FsInode FsData FsWrite FsTable FsTx FsRefs FsDir FsPath FsTree Pipe File FileClaims FsClaims FsOps Sysfile FsCalls FsCreate FsOpen.
Local Open Scope kern_scope.

(** A kernel that has booted. *)
Lemma boot_rest `{BC : BufCache} st d v : 0 < st -> st + LOGBLOCKS < 2 ^ 31 -> blocks_ok d -> head_ok st d ->
  (forall b, replay st d b = v b) -> exists e, te_start e = st /\ at_rest e (final (initlog ROOTDEV st (boot d))) v.
Proof.
  intros Hst Hlt Hd Hh Hv. pose proof (recover_replay st d Hst Hlt Hd Hh) as Hr.
  apply returns_final in Hr as ([] & _ & a & f & Hinv & Hq & Hn & Hs & Ho & Hc & _ & _ & Hb). set (l := final _) in *.
  exists (mk_env (l_start l) 0 (disk a) (writes a)). split; [exact Hs|]. apply rest_intro; try done.
  rewrite Hs. intros b Hbh. destruct (Hb b Hbh) as [-> ->]. by rewrite Hv.
Qed.

Definition pad (l : list Z) : list Z := l ++ replicate (Z.to_nat BSIZE - length l) 0.

(** Log in blocks 2 to 32, 16 inodes from block 33, bitmap in block 35, data
    from block 36. *)
Definition demo_sb : superblock := mk_sb FSMAGIC 100 64 16 31 2 33 35.

Definition demo_dinode (ty nlink size : Z) (a : list Z) : dinode := mk_di ty 0 0 nlink size (a ++ replicate (13 - length a) 0).
Definition demo_nodes (i : Z) : dinode :=
  if i =? 1 then demo_dinode T_DIR 1 48 [36]
  else if i =? 2 then demo_dinode T_FILE 1 2 [37]
  else if i =? 3 then demo_dinode T_FILE 0 5 [38]
  else demo_dinode 0 0 0 [].

Definition demo_inodes : list Z := foldl (fun d i => put_dinode d (inode_offset i) (demo_nodes i)) zeros [1; 2; 3].
Definition demo_root : list Z :=
  mk_dirent [46] 1 ++ mk_dirent [46; 46] 1 ++ mk_dirent [97] 2.
Definition demo_fs (b : Z) : list Z :=
  if b =? 33 then demo_inodes
  else if b =? 35 then pad [255; 255; 255; 255; 127]
  else if b =? 36 then pad demo_root
  else if b =? 37 then pad [104; 105]
  else if b =? 38 then pad [104; 101; 108; 108; 111]
  else zeros.

Lemma demo_fs_blocks : blocks_ok demo_fs.
Proof. intros b. unfold demo_fs. repeat case_match; vm_compute; reflexivity. Qed.

Lemma demo_fs_head : head_ok 2 demo_fs.
Proof.
  assert (Hn : hd_n (demo_fs 2) = 0) by (vm_compute; reflexivity).
  split; rewrite Hn; [unfold LOGBLOCKS, MAXOPBLOCKS; lia|intros; lia|intros; lia].
Qed.

Lemma demo_replay b : replay 2 demo_fs b = demo_fs b.
Proof. unfold replay, replayed. assert (Hn : hd_n (demo_fs 2) = 0) by (vm_compute; reflexivity). by rewrite Hn. Qed.

(** The kernel after the boot: handle 0 of the inode table is inode 3, and
    handle 1 the root directory. *)
Definition demo_flog : log := final (initlog ROOTDEV 2 (boot demo_fs)).
Definition demo_tab (h : Z) : inode :=
  if h =? 0 then mk_inode ROOTDEV 3 1 false true (demo_nodes 3)
  else if h =? 1 then mk_inode ROOTDEV 1 1 false false (demo_nodes 0)
  else mk_inode 0 0 0 false false (demo_nodes 0).
Definition demo_fsys : fsys := mk_fsys demo_flog demo_sb demo_tab [].

Lemma demo_flog_ok : exists e, te_start e = 2 /\ at_rest e demo_flog demo_fs.
Proof.
  apply (boot_rest 2 demo_fs demo_fs); [lia|unfold LOGBLOCKS, MAXOPBLOCKS; lia|exact demo_fs_blocks|exact demo_fs_head|exact demo_replay].
Qed.

Lemma demo_range i : inum_ok demo_sb i -> i ∈ seqZ 0 16.
Proof. unfold inum_ok. cbn. intros. apply elem_of_seqZ. lia. Qed.

Lemma demo_get i : inum_ok demo_sb i -> get_inode demo_sb demo_fs i = demo_nodes i.
Proof.
  intros [n Hn]%demo_range%list_elem_of_lookup.
  assert (Hall : get_inode demo_sb demo_fs <$> seqZ 0 16 = demo_nodes <$> seqZ 0 16) by (vm_compute; reflexivity).
  apply (f_equal (.!! n)) in Hall. rewrite !list_lookup_fmap, Hn in Hall. by injection Hall.
Qed.

Lemma demo_dinode_ok ty nlink size a : 0 <= ty < 4 -> 0 <= nlink < 2 -> 0 <= size < 1024 -> Forall (fun x => 0 <= x < 100) a ->
  (length a <= 13)%nat -> di_ok (demo_dinode ty nlink size a).
Proof.
  intros Ht Hn Hs Ha Hl. unfold demo_dinode. split; cbn [di_type di_major di_minor di_nlink di_size di_addrs]; try lia.
  - rewrite length_app, length_replicate. lia.
  - apply Forall_app. split; [|apply Forall_replicate; lia]. eapply Forall_impl; [exact Ha|]. cbn. lia.
Qed.

Lemma demo_di_ok i : di_ok (demo_nodes i).
Proof.
  unfold demo_nodes, T_DIR, T_FILE. repeat case_match; (apply demo_dinode_ok; [lia|lia|lia|repeat constructor; lia|cbn; lia]).
Qed.

(** Only inodes 1, 2 and 3 have a block, the first one. *)
Lemma demo_slot v ty nl sz x k : 0 <= k -> slot v (demo_dinode ty nl sz [x]) k <> 0 -> k = 0 /\ slot v (demo_dinode ty nl sz [x]) k = x.
Proof.
  intros Hk. unfold slot. change (addr (demo_dinode ty nl sz [x]) NDIRECT =? 0) with true. destruct (k <=? NDIRECT); [|done].
  unfold addr, demo_dinode. cbn [di_addrs app length]. destruct (Z.to_nat k) as [|n] eqn:E; cbn [nth]; [split; [lia|done]|].
  rewrite nth_lookup. destruct (replicate _ 0 !! n) eqn:El; [apply lookup_replicate in El as [-> _]|]; done.
Qed.

Lemma demo_owns i k a : owns demo_sb demo_fs demo_nodes i k a -> 1 <= i <= 3 /\ k = 0 /\ a = 35 + i.
Proof.
  intros (_ & Ht & [Hk _] & <- & Ha). unfold demo_nodes in *.
  destruct (Z.eqb_spec i 1) as [->|]; [destruct (demo_slot _ _ _ _ _ _ Hk Ha) as [-> ->]; lia|].
  destruct (Z.eqb_spec i 2) as [->|]; [destruct (demo_slot _ _ _ _ _ _ Hk Ha) as [-> ->]; lia|].
  destruct (Z.eqb_spec i 3) as [->|]; [destruct (demo_slot _ _ _ _ _ _ Hk Ha) as [-> ->]; lia|]. done.
Qed.

Lemma demo_used c : 0 <= c < 39 -> used demo_sb demo_fs c = true.
Proof.
  intros Hc. assert (Hall : forallb (used demo_sb demo_fs) (seqZ 0 39) = true) by (vm_compute; reflexivity).
  rewrite forallb_forall in Hall. apply Hall, list_elem_of_In, elem_of_seqZ. lia.
Qed.

Lemma demo_fs_wf e : fs_wf demo_sb e demo_fs demo_nodes.
Proof.
  split.
  - intros b _. apply demo_fs_blocks.
  - intros c Hc. apply demo_used. change (dstart demo_sb) with 36 in Hc. lia.
  - intros i _. apply demo_di_ok.
  - intros i k a (Hi & -> & ->)%demo_owns. split; [|apply demo_used; lia].
    unfold isdata. change (dstart demo_sb) with 36. change (sb_size demo_sb) with 100. lia.
  - intros i k j l a (Hi & -> & ->)%demo_owns (Hj & -> & Ha)%demo_owns. lia.
  - intros i _ Ht. unfold demo_nodes in *. repeat case_match; try done; (split; [vm_compute; congruence|]);
      intros n Hn Hlt; replace n with 0 by (cbn in Hlt; unfold BSIZE in Hlt; lia); vm_compute; congruence.
Qed.

Lemma demo_sb_ok e : te_start e = 2 -> sb_ok demo_sb e.
Proof. intros He. split; [by rewrite He|..]; vm_compute; split_and?; congruence. Qed.

Lemma demo_rest : exists e, fs_rest demo_sb e demo_fsys demo_fs demo_nodes demo_tab /\ te_start e = 2.
Proof.
  destruct demo_flog_ok as (e & He & Ht & Ho & Hd). exists e. split; [|done]. split.
  - split; [exact Ht|reflexivity|reflexivity].
  - exact Ho.
  - exact Hd.
  - by apply demo_sb_ok.
  - apply demo_fs_wf.
  - exact demo_get.
  - unfold demo_tab. split.
    + intros h _. repeat case_match; cbn; lia.
    + intros h _. repeat case_match; cbn; [..|lia]; intros _; (split; [done|]); unfold inum_ok; cbn; lia.
    + intros h h' _ _. destruct (Z.eqb_spec h 0), (Z.eqb_spec h' 0), (Z.eqb_spec h 1), (Z.eqb_spec h' 1); cbn; lia.
    + intros h _. repeat case_match; cbn; try done; lia.
    + intros h _ _. repeat case_match; done.
  - vm_compute. congruence.
Qed.

(** Descriptor 0 is inode 3, opened for reading and writing, at position 2. *)
Definition demo_file : file := mk_file FD_INODE 1 true true 0 0 2 0.
Definition demo_kfs : kfs (dev := unit) :=
  mk_kfs demo_fsys (fun f => if f =? 0 then demo_file else set_fref 0 (set_ftype FD_NONE demo_file)) (fun _ => mk_pipe (fun _ => 0) 0 0 false false) [] tt.
Definition demo_text : list Z := [88; 89; 90].
Definition demo_umem : umem := mk_umem (fun a => if (0 <=? a) && (a <? 3) then Some (nth (Z.to_nat a) demo_text 0) else None) (fun _ => true).

Lemma demo_open_inode : open_inode demo_tab 0 3.
Proof. split; cbn; unfold NINODE; (done || lia). Qed.

Lemma demo_on_inode : exists e, on_inode demo_sb demo_kfs e demo_fs demo_nodes demo_tab 0 0 3 2.
Proof.
  destruct demo_rest as (e & Hr & _). exists e. split; [exact Hr|exact demo_open_inode|done|done|done|done|].
  change (di_size (demo_nodes 3)) with 5. lia.
Qed.

Lemma demo_content : fcontent demo_fs (demo_nodes 3) = [104; 101; 108; 108; 111].
Proof. vm_compute. reflexivity. Qed.


Lemma filewrite_splices_witness :
  returns (filewrite (fun _ => None) 0 demo_umem false 0 3 demo_kfs) (fun t s' => exists v' di',
    t = Done 3 /\ fcontent v' di' = [104; 101; 88; 89; 90] \/ t = Done (-1)).
Proof.
  destruct demo_on_inode as (e & Hon). eapply returns_mono.
  { apply (filewrite_splices demo_sb (fun _ => None) (fun _ => None) demo_kfs e demo_fs demo_nodes demo_tab 0 0 3 2 demo_umem false 0 demo_text);
      [exact Hon|reflexivity| |cbn; lia].
    intros j x Hj. destruct j as [|[|[|j]]]; cbn in Hj; [injection Hj as <-; reflexivity..|done]. }
  intros t s' (e' & v' & di' & tab' & w & _ & _ & _ & Hup & Hres). exists v', di'.
  destruct Hres as [[-> ->]|[-> _]]; [left|right; done]. split; [done|]. rewrite (up_content _ _ _ _ _ _ _ _ Hup), demo_content. reflexivity.
Defined.

Lemma fileread_delivers_witness :
  returns (fileread (fun _ => None) 0 demo_umem false 0 10 demo_kfs) (fun r _ => r = (Done 3, [108; 108; 111])).
Proof.
  destruct demo_on_inode as (e & Hon). eapply returns_mono.
  { apply (fileread_delivers demo_sb (fun _ => None) demo_kfs e demo_fs demo_nodes demo_tab 0 0 3 2 demo_umem false 0 10);
      [exact Hon|reflexivity|lia|intros j _; reflexivity]. }
  intros r s' (tab' & -> & _). rewrite demo_content. reflexivity.
Defined.

(** Block 38 and inode 3 become free; the directory and the other file stay. *)
Lemma last_close_frees_file_witness :
  returns (fileclose 0 demo_kfs) (fun _ s' => exists v',
    (forall c, 0 <= c < 100 -> used demo_sb v' c = true <-> used demo_sb demo_fs c = true /\ c <> 38) /\
    fcontent v' (demo_nodes 1) = demo_root).
Proof.
  destruct demo_on_inode as (e & Hon). eapply returns_mono.
  { apply (last_close_frees_file demo_sb demo_kfs e demo_fs demo_nodes demo_tab 0 0 3 2);
      [exact Hon|reflexivity|reflexivity|reflexivity|reflexivity]. }
  intros [] s' (e' & w & v' & tab' & _ & _ & _ & _ & _ & _ & _ & Hu & Hc & _). exists v'. split.
  - intros c Hcr. rewrite (Hu c Hcr). split; intros [H1 H2]; (split; [done|]).
    + intros ->. apply H2. exists 0. unfold owns, inum_ok. change (sb_ninodes demo_sb) with 16.
      split_and!; [lia|lia|vm_compute; congruence|lia|vm_compute; congruence|vm_compute; reflexivity|lia].
    + intros [k Ho%demo_owns]. lia.
  - rewrite (Hc 1); [vm_compute; reflexivity|unfold inum_ok; cbn; lia|vm_compute; congruence|lia].
Defined.

(** ** Names *)

Definition demo_refs : refs := fun h =>
  if h =? 0 then Some (mk_tent 3 1 false true) else if h =? 1 then Some (mk_tent 1 1 false false) else None.

Lemma demo_idle : exists e, fs_idle demo_sb e demo_fsys demo_fs demo_nodes demo_refs.
Proof.
  destruct demo_rest as (e & Hr & _). exists e. split. exists demo_tab. split; [exact Hr|]. intros h _. unfold demo_tab, demo_refs, shows.
  destruct (h =? 0); [cbn; split_and!; (done || lia)|]. destruct (h =? 1); [cbn; split_and!; (done || lia)|done].
Qed.

Lemma demo_is_dir i : is_dir demo_sb demo_nodes i -> i = 1.
Proof. intros [_ Ht]. unfold demo_nodes in Ht. repeat case_match; try (vm_compute in Ht; congruence). lia. Qed.

Lemma demo_root_content : fcontent demo_fs (demo_nodes 1) = demo_root.
Proof. vm_compute. reflexivity. Qed.

Lemma demo_live k : live demo_root k -> 0 <= k < 3 /\ de_inum (dent demo_root k) = (if k =? 2 then 2 else 1).
Proof.
  intros [Hk _]. change (dents demo_root) with 3 in Hk. split; [done|]. assert (k = 0 \/ k = 1 \/ k = 2) as [->|[->| ->]] by lia; vm_compute; reflexivity.
Qed.

Lemma demo_root_ok : dir_ok demo_root.
Proof.
  split; [vm_compute; reflexivity|]. intros k k' [Hk _]%demo_live [Hk' _]%demo_live.
  assert (k = 0 \/ k = 1 \/ k = 2) as [->|[->| ->]] by lia; assert (k' = 0 \/ k' = 1 \/ k' = 2) as [->|[->| ->]] by lia; try done; intros E; vm_compute in E; congruence.
Qed.

Lemma demo_node i : i = 1 \/ i = 2 -> node_ok demo_sb demo_nodes i.
Proof. unfold node_ok. intros [->| ->]; (split_and!; [unfold inum_ok; cbn; lia|vm_compute; congruence|vm_compute; reflexivity]). Qed.

Lemma demo_fsck : fsck demo_sb demo_fs demo_nodes.
Proof.
  split; [split|].
  - split; [apply demo_node; by left|reflexivity].
  - intros i ->%demo_is_dir. rewrite demo_root_content. exact demo_root_ok.
  - intros i k ->%demo_is_dir. rewrite demo_root_content. intros [_ ->]%demo_live. apply demo_node. destruct (k =? 2); auto.
  - intros j _ Ht Hnd. assert (Hn : forall E : gset (Z * Z), (forall k, 0 <= k < 3 -> de_inum (dent demo_root k) = j -> (1, k) ∈ E) ->
      (forall i k, (i, k) ∈ E -> i = 1 /\ live demo_root k /\ de_inum (dent demo_root k) = j) -> names_of demo_sb demo_fs demo_nodes j E).
    { intros E H1 H2 i k. split.
      - intros (-> & Hl & He)%H2. rewrite demo_root_content. split; [split; [apply demo_node; by left|reflexivity]|done].
      - intros (->%demo_is_dir & Hl & He). rewrite demo_root_content in *. apply H1; [by apply demo_live|done]. }
    assert (Hi : forall k, 0 <= k < 3 -> de_inum (dent demo_root k) = if k =? 2 then 2 else 1).
    { intros k Hk. assert (k = 0 \/ k = 1 \/ k = 2) as [->|[->| ->]] by lia; vm_compute; reflexivity. }
    destruct (Z.eq_dec j 2) as [->|].
    + exists {[(1, 2)]}. split; [|rewrite size_singleton; vm_compute; reflexivity]. apply Hn.
      * intros k Hk He. rewrite Hi in He by done. destruct (Z.eqb_spec k 2) as [->|]; [set_solver|lia].
      * intros i k [= -> ->]%elem_of_singleton. split_and!; [done|split; [vm_compute; done|vm_compute; congruence]|vm_compute; reflexivity].
    + exists ∅. assert (j = 3) as ->.
      { unfold demo_nodes in Ht, Hnd. destruct (Z.eqb_spec j 1); [by destruct Hnd|]. destruct (Z.eqb_spec j 2); [done|]. destruct (Z.eqb_spec j 3); [done|]. by destruct Ht. }
      split; [|rewrite size_empty; vm_compute; reflexivity]. apply Hn; [|set_solver]. intros k Hk He. rewrite Hi in He by done. destruct (k =? 2); lia.
Qed.

Lemma demo_unlocked : unlocked_refs demo_refs.
Proof. intros h t _. unfold demo_refs. repeat case_match; intros [= <-]; done. Qed.
Lemma demo_room : room2 demo_refs.
Proof. exists 2, 3. unfold no_refs, handle, NINODE. split_and!; (done || lia). Qed.
Lemma demo_live_refs : refs_live demo_nodes demo_refs.
Proof. intros h t _. unfold demo_refs. repeat case_match; intros [= <-]; vm_compute; congruence. Qed.
Lemma demo_cwd : cwd_at demo_sb demo_nodes demo_refs 1 1.
Proof. unfold cwd_at. split_and!; [unfold handle, NINODE; lia|by eexists|apply demo_node; by left]. Qed.

Lemma demo_dx : exists e, dx demo_sb e demo_fsys demo_fs demo_nodes ∅ demo_refs.
Proof.
  destruct demo_idle as (e & [(tab & Hr & Hs)]). exists e. split; [apply Hr|apply Hr|exact demo_get|]. exists tab. split_and!; [apply Hr|apply Hr|exact Hs].
Qed.

(** "/./a" and "../a/b" *)
Lemma namei_follows_path_witness :
  returns (namei 1 [47; 46; 47; 97] demo_fsys) (fun x _ => exists h T', x = Some h /\ takes_ref demo_refs 2 h T') /\
  returns (namei 1 [46; 46; 47; 97; 47; 98] demo_fsys) (fun x _ => x = None) /\
  returns (nameiparent 1 [97] demo_fsys) (fun x _ => exists h, x = Some (h, [97])).
Proof.
  destruct demo_dx as (e & Hd).
  assert (HL : Z.of_nat (size (∅ : gset Z)) < NBUF) by (rewrite size_empty; reflexivity).
  split; [|split].
  - eapply returns_mono.
    { exact (proj1 (namei_follows_path demo_sb e demo_fsys demo_fs demo_nodes ∅ demo_refs 1 1 [47; 46; 47; 97] Hd (ck_tree _ _ _ demo_fsck) HL demo_unlocked demo_room demo_cwd)). }
    assert (E : walk demo_fs demo_nodes (path_start 1 [47; 46; 47; 97]) (pelems [47; 46; 47; 97]) = Some 2) by (vm_compute; reflexivity).
    rewrite E. intros x s' (h & T' & -> & _ & Htk & _). exists h, T'. split; [reflexivity|exact Htk].
  - eapply returns_mono.
    { exact (proj1 (namei_follows_path demo_sb e demo_fsys demo_fs demo_nodes ∅ demo_refs 1 1 [46; 46; 47; 97; 47; 98] Hd (ck_tree _ _ _ demo_fsck) HL demo_unlocked demo_room demo_cwd)). }
    assert (E : walk demo_fs demo_nodes (path_start 1 [46; 46; 47; 97; 47; 98]) (pelems [46; 46; 47; 97; 47; 98]) = None) by (vm_compute; reflexivity).
    rewrite E. intros x s' [-> _]. reflexivity.
  - eapply returns_mono.
    { exact (proj2 (namei_follows_path demo_sb e demo_fsys demo_fs demo_nodes ∅ demo_refs 1 1 [97] Hd (ck_tree _ _ _ demo_fsck) HL demo_unlocked demo_room demo_cwd)). }
    assert (E : walk_parent demo_fs demo_nodes (path_start 1 [97]) (pelems [97]) = Some (1, [97])) by (vm_compute; reflexivity).
    rewrite E. cbn. intros x s' [(h & T' & Hx & _) Hn]. exists h. destruct x as [[h' n]|]; [|discriminate Hx]. cbn in Hx, Hn. congruence.
Defined.

(** [unlink("a")] frees inode 2. *)
Lemma unlink_removes_name_witness :
  returns (sys_unlink_path 1 [97] demo_fsys) (fun x s' => x = 0 /\ exists v' N',
    dlook (fcontent v' (N' 1)) [97] = None /\ dlook (fcontent v' (N' 1)) [46] = Some (1, 0) /\ di_type (N' 2) = 0 /\
    fcontent v' (N' 3) = [104; 101; 108; 108; 111]).
Proof.
  destruct demo_idle as (e & Hid).
  assert (E : unlink_target demo_fs demo_nodes 1 [97] = Some (1, [97], 2, 32)) by (vm_compute; reflexivity).
  eapply returns_mono.
  { apply (unlink_removes_name demo_sb e demo_fsys demo_fs demo_nodes demo_refs 1 1 [97] Hid demo_fsck demo_unlocked demo_room demo_cwd).
    rewrite E. intros d name j off [= <- <- <- <-]. vm_compute. congruence. }
  rewrite E. intros x s' (e' & w & v' & N' & _ & _ & _ & _ & -> & Hul). split; [reflexivity|]. exists v', N'. destruct Hul as [_ Hn Ho _ Hf]. split_and!.
  - rewrite Hn. rewrite bool_decide_true by reflexivity. reflexivity.
  - rewrite Hn. rewrite bool_decide_false by (vm_compute; congruence). vm_compute. reflexivity.
  - apply Hf; [vm_compute; reflexivity|]. intros (h & t & _ & Ht & Hi). unfold demo_refs in Ht. destruct (h =? 0); [injection Ht as <-; discriminate Hi|].
    destruct (h =? 1); [injection Ht as <-; discriminate Hi|discriminate Ht].
  - destruct (Ho 3) as [_ ->]; [unfold inum_ok; cbn; lia|vm_compute; congruence|lia|lia|]. exact demo_content.
Defined.

(** A process whose memory at 0 is "c" and at 4 is "a". *)
Definition demo_caller (r : Z -> Z) : caller :=
  mk_caller r (mk_umem (fun a => if a =? 0 then Some 99 else if a =? 4 then Some 97 else if (a =? 1) || (a =? 5) then Some 0 else None) (fun _ => true)) 4096 false.
Definition demo_sys : sysf (dev := unit) := mk_sysf demo_kfs (fun fd => if fd =? 0 then Some 0 else None) 1.

(** [mknod("c", 1, 7)]. *)
Lemma mknod_adds_name_witness :
  returns (sys_mknod (demo_caller (fun n => if n =? 1 then 1 else if n =? 2 then 7 else 0)) demo_sys) (fun x _ => exists v' N',
    x = 0 /\ (exists j off, dlook (fcontent v' (N' 1)) [99] = Some (j, off) /\ N' j = made_di T_DEVICE 1 7) \/ x = -1 /\ same_files demo_sb demo_fs demo_nodes v' N').
Proof.
  destruct demo_idle as (e & Hid). set (c := demo_caller _).
  assert (E : create_target demo_fs demo_nodes 1 [99] = Some (1, [99], None)) by (vm_compute; reflexivity).
  eapply returns_mono.
  { apply (mknod_adds_name demo_sb demo_sys c [99] e demo_fs demo_nodes demo_refs 1 Hid demo_fsck demo_unlocked demo_room demo_live_refs demo_cwd);
      [cbn; lia|vm_compute; reflexivity]. }
  rewrite E. intros x s' (fs' & _ & e' & w & v' & N' & _ & _ & _ & _ & Hx). exists v', N'.
  destruct Hx as [[-> (j & Hcr)]|(-> & Hsf & _)]; [left|right; split; [reflexivity|exact Hsf]]. split; [reflexivity|].
  destruct Hcr as [_ _ Hj (off & Hn) _]. exists j, off. split; [rewrite Hn; rewrite bool_decide_true by reflexivity; reflexivity|exact Hj].
Defined.

