(* ===== verification/Mkfs.v ===== *)
(** The program of [mkfs/mkfs.c], which writes the first disk image: the
    superblock, the inodes, the root directory, the files given on the command
    line and the bitmap.  It runs on the build machine, which is taken to be
    little-endian and to have room for the image, so that [lseek] and [write]
    succeed.  A call of [die] ends the program with status 1, a failing
    [assert] aborts it.  What it prints on the terminal is left out. *)
From S2P Require Import Prelude Bufcache Log LogClaims Txn FileLayer Fs FsBlocks FsInode FsData FsWrite FsTable FsTx FsRefs FsDir FsPath FsTree FsOps.
Local Open Scope kern_scope.

(** * Data *)

Definition FSSIZE : Z := 2000.
Definition NINODES : Z := 200.
Definition nbitmap : Z := FSSIZE / BPB + 1.
Definition ninodeblocks : Z := NINODES / IPB + 1.
Definition nlog : Z := LOGBLOCKS + 1.

(** The image file [fsfd] as sectors of [BSIZE] bytes, of which the first
    [im_len] have been written, and the global variables. *)
Record image := mk_image {
  im_sectors : Z -> list Z;
  im_len : Z;
  im_sb : superblock;
  im_freeinode : Z;
  im_freeblock : Z
}.
Definition put_file f n s := mk_image f n (im_sb s) (im_freeinode s) (im_freeblock s).
Definition put_super x s := mk_image (im_sectors s) (im_len s) x (im_freeinode s) (im_freeblock s).
Definition put_freeinode x s := mk_image (im_sectors s) (im_len s) (im_sb s) x (im_freeblock s).
Definition put_freeblock x s := mk_image (im_sectors s) (im_len s) (im_sb s) (im_freeinode s) x.

Definition die {A} : M image A := exit_with 1.
Definition assert_ (b : bool) : M image unit := if b then ret tt else panic "assert".

(** The number whose bytes in memory are those of [x] in the order of the
    target. *)
Definition xshort (x : Z) : Z := le_at [u8 x; u8 (Z.shiftr x 8)] 0 2.
Definition xint (x : Z) : Z := le_at [u8 x; u8 (Z.shiftr x 8); u8 (Z.shiftr x 16); u8 (Z.shiftr x 24)] 0 4.

(** * Sectors and inodes *)

(** A read beyond the end of the file returns no bytes; a write there extends
    it. *)
Definition wsect (sec : Z) (buf : list Z) : M image unit :=
  let at_ := u32 (sec * BSIZE) / BSIZE in
  modify (fun s => put_file (upd (im_sectors s) at_ buf) (Z.max (im_len s) (at_ + 1)) s).
Definition rsect (sec : Z) : M image (list Z) :=
  let at_ := u32 (sec * BSIZE) / BSIZE in
  do s <- get; if at_ <? im_len s then ret (im_sectors s at_) else die.

Definition winode (inum : Z) (ip : dinode) : M image unit :=
  do sb <- gets im_sb;
  let bn := IBLOCK inum sb in
  do buf <- rsect bn;
  wsect bn (put_dinode buf (inode_offset inum) ip).
Definition rinode (inum : Z) : M image dinode :=
  do sb <- gets im_sb;
  let bn := IBLOCK inum sb in
  do buf <- rsect bn;
  ret (get_dinode buf (inode_offset inum)).

Definition ialloc (type : Z) : M image Z :=
  do inum <- gets im_freeinode;
  modify (put_freeinode (u32 (inum + 1))) ;;;
  winode inum (mk_di (xshort type) 0 0 (xshort 1) (xint 0) (replicate 13 0)) ;;;
  ret inum.

(** The bits of the first [used] blocks. *)
Definition used_bits (used : Z) : list Z := foldl bit_mark (replicate (Z.to_nat BSIZE) 0) (seqZ 0 used).
Definition balloc (used : Z) : M image unit :=
  assert_ (used <? BPB) ;;;
  do sb <- gets im_sb;
  wsect (sb_bmapstart sb) (used_bits used).

(** [freeblock++]. *)
Definition next_block : M image Z :=
  do b <- gets im_freeblock; modify (put_freeblock (u32 (b + 1))) ;;; ret b.

(** The inode and the address of its block [fbn], which gets a new block when it
    has none. *)
Definition iappend_block (din : dinode) (fbn : Z) : M image (dinode * Z) :=
  if fbn <? NDIRECT then
    do din <- (if xint (addr din fbn) =? 0 then do b <- next_block; ret (set_addr fbn (xint b) din) else ret din);
    ret (din, xint (addr din fbn))
  else
    do din <- (if xint (addr din NDIRECT) =? 0 then do b <- next_block; ret (set_addr NDIRECT (xint b) din) else ret din);
    let ind := xint (addr din NDIRECT) in
    do indirect <- rsect ind;
    do indirect <- (if entry indirect (fbn - NDIRECT) =? 0 then
        do b <- next_block;
        let indirect := set_entry indirect (fbn - NDIRECT) (xint b) in
        wsect ind indirect ;;; ret indirect
      else ret indirect);
    ret (din, xint (entry indirect (fbn - NDIRECT))).

(** The loop over the bytes [p] that are left.  Every round takes one of them at
    least. *)
Fixpoint iappend_loop (k : nat) (din : dinode) (off : Z) (p : list Z) : M image (dinode * Z) :=
  match k with
  | O => no_fuel
  | S k' =>
      if 0 <? Z.of_nat (length p) then
        let fbn := off / BSIZE in
        assert_ (fbn <? MAXFILE) ;;;
        do r <- iappend_block din fbn;
        let x := snd r in
        let n1 := Z.min (Z.of_nat (length p)) ((fbn + 1) * BSIZE - off) in
        do buf <- rsect x;
        wsect x (patch buf (off - fbn * BSIZE) (take (Z.to_nat n1) p)) ;;;
        iappend_loop k' (fst r) (u32 (off + n1)) (drop (Z.to_nat n1) p)
      else ret (din, off)
  end.
Definition iappend (inum : Z) (p : list Z) : M image unit :=
  do din <- rinode inum;
  let off := xint (di_size din) in
  do r <- iappend_loop (length p + 1) din off p;
  winode inum (set_size (xint (snd r)) (fst r)).

(** * The program *)

Definition the_sb : superblock :=
  let nmeta := 2 + nlog + ninodeblocks + nbitmap in
  let nblocks := FSSIZE - nmeta in
  mk_sb FSMAGIC (xint FSSIZE) (xint nblocks) (xint NINODES) (xint nlog) (xint 2) (xint (2 + nlog)) (xint (2 + nlog + ninodeblocks)).
(** [memmove(buf, &sb, sizeof(sb))] over a block of zeros. *)
Definition sb_block (sb : superblock) : list Z :=
  foldl (fun d e => set_le d (fst e) 4 (snd e)) (replicate (Z.to_nat BSIZE) 0)
    [(0, sb_magic sb); (4, sb_size sb); (8, sb_nblocks sb); (12, sb_ninodes sb); (16, sb_nlog sb); (20, sb_logstart sb);
     (24, sb_inodestart sb); (28, sb_bmapstart sb)].

(** The name under which a file is stored: without ["user/"], and, after the
    test for a slash, without a leading underscore. *)
Definition shortname (arg : list Z) : list Z :=
  if bool_decide (take 5 arg = [117; 115; 101; 114; 47]) then drop 5 arg else arg.
Definition skip_underscore (name : list Z) : list Z :=
  match name with c :: r => if c =? 95 then r else name | [] => name end.

(** The files of the build machine: what [open] finds under a name, and there
    the bytes that the calls of [read] return one after the other. *)
Definition host : Type := list Z -> option (list (list Z)).

(** [while((cc = read(fd, buf, sizeof(buf))) > 0) iappend(inum, buf, cc);] *)
Fixpoint add_chunks (inum : Z) (reads : list (list Z)) : M image unit :=
  match reads with
  | [] => ret tt
  | buf :: reads =>
      if 0 <? Z.of_nat (length buf) then iappend inum buf ;;; add_chunks inum reads else ret tt
  end.

(** The body of the loop over the arguments. *)
Definition add_file (h : host) (rootino : Z) (arg : list Z) : M image unit :=
  let name := shortname arg in
  assert_ (bool_decide (47 ∉ name)) ;;;
  match h arg with
  | None => die
  | Some reads =>
      let name := skip_underscore name in
      assert_ (Z.of_nat (length name) <=? DIRSIZ) ;;;
      do inum <- ialloc T_FILE;
      iappend rootino (mk_dirent name (xshort inum)) ;;;
      add_chunks inum reads
  end.
Fixpoint add_files (h : host) (rootino : Z) (args : list (list Z)) : M image unit :=
  match args with [] => ret tt | a :: args => add_file h rootino a ;;; add_files h rootino args end.

Definition fix_root_size (rootino : Z) : M image unit :=
  do din <- rinode rootino;
  let off := xint (di_size din) in
  let off := u32 ((off / BSIZE + 1) * BSIZE) in
  winode rootino (set_size (xint off) din).

(** The superblock, the first free block and an image of zeros with the
    superblock in block 1. *)
Definition set_up : M image unit :=
  modify (put_super the_sb) ;;;
  modify (put_freeblock (2 + nlog + ninodeblocks + nbitmap)) ;;;
  for_loop (Z.to_nat FSSIZE) 0 (fun i => wsect i (replicate (Z.to_nat BSIZE) 0)) ;;;
  wsect 1 (sb_block the_sb).

(** The root directory with its entries ["."] and [".."]. *)
Definition make_root : M image Z :=
  do rootino <- ialloc T_DIR;
  assert_ (rootino =? ROOTINO) ;;;
  iappend rootino (mk_dirent [46] (xshort rootino)) ;;;
  iappend rootino (mk_dirent [46; 46] (xshort rootino)) ;;;
  ret rootino.

(** [argv] without the name of the program; [created]: the image file could be
    opened. *)
Definition main (argv : list (list Z)) (created : bool) (h : host) : M image unit :=
  match argv with
  | [] => exit_with 1
  | _ :: args =>
      if negb created then die
      else
        set_up ;;;
        do rootino <- make_root;
        add_files h rootino args ;;;
        fix_root_size rootino ;;;
        do b <- gets im_freeblock;
        balloc b
  end.

(** Before [main]: nothing written, [freeinode] is 1. *)
Definition start_image : image := mk_image (fun _ => []) 0 (mk_sb 0 0 0 0 0 0 0 0) 1 0.
