(* ===== verification/MkfsOk.v ===== *)
(** What [mkfs] leaves on the image: the invariant of the image while it is
    built, which is that of the kernel's file system with the bitmap that will
    be written last, and the steps of the program on it. *)
From S2P Require Import Prelude Bufcache Log LogClaims Txn FileLayer Fs FsBlocks FsInode FsData FsWrite FsTable FsTx FsRefs FsDir FsPath FsTree FsOps Mkfs.
Local Open Scope kern_scope.

Definition zeros : list Z := replicate (Z.to_nat BSIZE) 0.
(** The log starts at block 2. *)
Definition mkfs_env : tenv := mk_env 2 0 (fun _ => zeros) [].
Abbreviation sb := the_sb (only parsing).
Abbreviation wf := (fs_wf the_sb mkfs_env).

Lemma the_sb_ok : sb_ok the_sb mkfs_env.
Proof. split; vm_compute; split_and?; congruence. Qed.
#[local] Hint Resolve the_sb_ok : core.

(** ** Numbers *)

Lemma xint_small x : 0 <= x < 2 ^ 32 -> xint x = x.
Proof.
  intros Hx. unfold xint. rewrite !Z.shiftr_div_pow2 by lia. unfold u8. change (2 ^ 8) with 256. change (2 ^ 16) with (256 * 256).
  change (2 ^ 24) with (256 * 256 * 256). rewrite <- !Z.div_div by lia.
  set (y := x / 256). set (z := y / 256). set (w := z / 256).
  change (le_at _ 0 4) with (x mod 256 + 256 * (y mod 256 + 256 * (z mod 256 + 256 * (w mod 256 + 256 * 0)))).
  assert (0 <= w < 256) by (unfold w, z, y; zlia). rewrite (Z.mod_small w) by lia.
  pose proof (Z.div_mod x 256). pose proof (Z.div_mod y 256). pose proof (Z.div_mod z 256). lia.
Qed.

Lemma xshort_small x : 0 <= x < 2 ^ 16 -> xshort x = x.
Proof.
  intros Hx. unfold xshort. rewrite !Z.shiftr_div_pow2 by lia. unfold u8. change (2 ^ 8) with 256. set (y := x / 256).
  change (le_at _ 0 2) with (x mod 256 + 256 * (y mod 256 + 256 * 0)).
  assert (0 <= y < 256) by (unfold y; zlia). rewrite (Z.mod_small y) by lia. pose proof (Z.div_mod x 256). lia.
Qed.

Lemma sector b : 0 <= b < FSSIZE -> u32 (b * BSIZE) / BSIZE = b.
Proof. intros Hb. unfold FSSIZE, BSIZE in *. rewrite u32_small by lia. apply Z.div_mul. lia. Qed.

(** ** The bitmap *)

Lemma nth_zeros n k : nth k (replicate n 0) 0 = 0.
Proof. rewrite nth_lookup. destruct (_ !! _) eqn:E; [by apply lookup_replicate in E as [-> _]|done]. Qed.

Lemma used_bits_ok f : 0 <= f <= BPB -> block (used_bits f) /\ forall c, 0 <= c < BPB -> bit_used (used_bits f) c = (c <? f).
Proof.
  intros [Hf Hm]. revert f Hf Hm. refine (natlike_ind _ _ _).
  - intros _. split; [apply block_zero|]. intros c Hc. change (used_bits 0) with (replicate (Z.to_nat BSIZE) 0).
    unfold bit_used. rewrite nth_zeros, Z.land_0_l. cbn. symmetry. apply Z.ltb_ge. lia.
  - intros f Hf IH Hm. destruct IH as [Hb IH]; [lia|]. unfold used_bits in *. rewrite <- Z.add_1_r, seqZ_snoc, foldl_app by done.
    cbn [foldl]. rewrite Z.add_0_l. split; [by apply block_mark|]. intros c Hc. rewrite bit_used_mark, IH by (done || lia). apply eq_true_iff_eq.
    rewrite orb_true_iff, Z.eqb_eq, !Z.ltb_lt. lia.
Qed.

Lemma used_bits_next f : 0 <= f -> used_bits (f + 1) = bit_mark (used_bits f) f.
Proof. intros Hf. unfold used_bits. by rewrite seqZ_snoc, foldl_app by done. Qed.

(** ** The image *)

Lemma nth_zero_block k : nth k zeros 0 = 0.
Proof. apply nth_zeros. Qed.
Lemma length_zeros : length zeros = Z.to_nat BSIZE.
Proof. apply length_replicate. Qed.

#[local] Opaque sb_block used_bits zeros v_alloc.

(** The image, with the bitmap that belongs to it, is the disk [v]. *)
Record on_image (s : image) (v : Z -> list Z) : Prop := {
  sh_len : im_len s = FSSIZE;
  sh_sb : im_sb s = the_sb;
  sh_fb : dstart the_sb <= im_freeblock s <= FSSIZE;
  sh_view : forall b, 0 <= b < FSSIZE -> b <> sb_bmapstart the_sb -> im_sectors s b = v b;
  sh_map : v (sb_bmapstart the_sb) = used_bits (im_freeblock s);
  sh_fresh : forall b, b < 0 \/ im_freeblock s <= b -> v b = zeros;
  sh_super : v 1 = sb_block the_sb;
  sh_log : forall b, 2 <= b < sb_inodestart the_sb -> v b = zeros
}.

Definition later (s s' : image) (n : Z) : Prop := im_freeblock s' = im_freeblock s + n /\ im_freeinode s' = im_freeinode s.

Lemma sh_used s v c : on_image s v -> 0 <= c < FSSIZE -> used the_sb v c = (c <? im_freeblock s).
Proof.
  intros Hs Hc. unfold used, BBLOCK. change (sb_bmapstart the_sb) with 46 in *. change FSSIZE with 2000 in *.
  replace (c / BPB) with 0 by (unfold BPB, BSIZE; zlia). change (u32 (0 + 46)) with (sb_bmapstart the_sb). rewrite (sh_map _ _ Hs).
  pose proof (sh_fb _ _ Hs) as Hf. change FSSIZE with 2000 in Hf. change (dstart the_sb) with 47 in Hf.
  rewrite Z.mod_small by (unfold BPB, BSIZE; lia). apply used_bits_ok; unfold BPB, BSIZE; lia.
Qed.

Lemma rsect_ok s v b : on_image s v -> 0 <= b < FSSIZE -> b <> sb_bmapstart the_sb -> rsect b s = Ret (v b) s.
Proof.
  intros Hs Hb Hn. unfold rsect. rewrite sector by done. unfold bind, get. rewrite (sh_len _ _ Hs).
  destruct (Z.ltb_spec b FSSIZE); [|lia]. by rewrite (sh_view _ _ Hs).
Qed.

(** Blocks that the program writes after it has set up the image. *)
Definition writable (s : image) (b : Z) : Prop := sb_inodestart the_sb <= b < im_freeblock s /\ b <> sb_bmapstart the_sb.

Lemma wsect_ok s v b d : on_image s v -> writable s b -> exists s', wsect b d s = Ret tt s' /\ on_image s' (upd v b d) /\ later s s' 0.
Proof.
  intros Hs [Hb Hn]. pose proof (sh_fb _ _ Hs) as Hf. unfold FSSIZE in *. change (sb_inodestart the_sb) with 33 in *.
  change (sb_bmapstart the_sb) with 46 in *. change (dstart the_sb) with 47 in *.
  eexists. split; [unfold wsect, modify; rewrite sector by (unfold FSSIZE; lia); reflexivity|].
  destruct Hs as [Hl Hsb Hfb Hv Hm Hfr Hsu Hlog]. split; [|split; cbn; lia].
  split; cbn [im_len im_sb im_freeblock im_sectors put_file].
  - unfold FSSIZE in *. lia.
  - exact Hsb.
  - exact Hfb.
  - intros c Hc Hcn. unfold upd. destruct (c =? b); [reflexivity|]. by apply Hv.
  - rewrite upd_ne; [exact Hm|]. intros <-. by apply Hn.
  - intros c Hc. rewrite upd_ne by lia. by apply Hfr.
  - rewrite upd_ne by lia. exact Hsu.
  - intros c Hc. change (sb_inodestart the_sb) with 33 in *. rewrite upd_ne by lia. by apply Hlog.
Qed.

Lemma next_ok s v : on_image s v -> im_freeblock s < FSSIZE ->
  exists s', next_block s = Ret (im_freeblock s) s' /\ on_image s' (v_alloc the_sb v (im_freeblock s)) /\ later s s' 1.
Proof.
  intros Hs Hlt. pose proof (sh_fb _ _ Hs) as Hf. unfold FSSIZE in *. change (dstart the_sb) with 47 in *. set (b := im_freeblock s) in *.
  assert (HB : BBLOCK b the_sb = sb_bmapstart the_sb).
  { unfold BBLOCK. replace (b / BPB) with 0 by (unfold BPB, BSIZE; zlia). done. }
  eexists. split; [reflexivity|]. fold b. rewrite (u32_small (b + 1)) by lia. destruct Hs as [Hl Hsb Hfb Hv Hm Hfr Hsu Hlog].
  change (sb_inodestart the_sb) with 33 in *. change (sb_bmapstart the_sb) with 46 in *. fold b in Hfb, Hm, Hfr.
  split; [|split; cbn; lia]. assert (HV : v_alloc the_sb v b = upd (upd v 46 (bit_mark (v 46) (b mod BPB))) b zeros).
  { #[local] Transparent v_alloc. unfold v_alloc. by rewrite HB. }
  rewrite HV. clear HV.
  split; cbn [im_len im_sb im_freeblock im_sectors put_freeblock]; change (sb_bmapstart the_sb) with 46; [exact Hl|exact Hsb|..].
  - change (dstart the_sb) with 47. unfold FSSIZE. lia.
  - intros c Hc Hcn. unfold upd. destruct (Z.eqb_spec c b) as [->|]; [rewrite Hv by done; apply Hfr; lia|]. destruct (Z.eqb_spec c 46); [done|]. by apply Hv.
  - rewrite (upd_ne _ b) by lia. rewrite upd_eq, Hm, Z.mod_small by (unfold BPB, BSIZE; lia). symmetry. apply used_bits_next. lia.
  - intros c Hc. rewrite !upd_ne by lia. apply Hfr. lia.
  - rewrite !upd_ne by lia. exact Hsu.
  - intros c Hc. change (sb_inodestart the_sb) with 33 in *. rewrite !upd_ne by lia. by apply Hlog.
Qed.

(** ** Blocks of a file *)

(** The number of blocks of [sz] bytes, and of addresses of [n] blocks, the
    indirect block included. *)
Definition blocks_of (sz : Z) : Z := (sz + (BSIZE - 1)) / BSIZE.
Definition slots_of (n : Z) : Z := if NDIRECT <? n then n + 1 else n.
Definition cost (sz : Z) : Z := slots_of (blocks_of sz).

(** The addresses of the inode are those of its first [c] slots. *)
Definition tight (v : Z -> list Z) (di : dinode) (c : Z) : Prop := forall k, 0 <= k < NSLOT -> slot v di k <> 0 <-> k < c.

Lemma tight_keeps v v' di c : keeps v v' di -> tight v di c -> tight v' di c.
Proof. intros Hk Ht k Hr. rewrite (slot_keeps _ _ _ _ Hk). by apply Ht. Qed.

Lemma fb_data s v : on_image s v -> im_freeblock s < FSSIZE -> isdata the_sb (im_freeblock s) /\ used the_sb v (im_freeblock s) = false.
Proof.
  intros Hs Hlt. pose proof (sh_fb _ _ Hs) as Hf. split; [split; [lia|exact Hlt]|]. change (dstart the_sb) with 47 in *.
  rewrite (sh_used _ _ _ Hs) by lia. apply Z.ltb_irrefl.
Qed.

Section Block.
Variables (s : image) (v : Z -> list Z) (N : Z -> dinode) (i : Z).
Hypotheses (Hs : on_image s v) (Hw : wf v N) (Hi : inum_ok the_sb i) (Ht : di_type (N i) <> 0).

Lemma xint_addr k : 0 <= k <= NDIRECT -> xint (addr (N i) k) = addr (N i) k.
Proof using Hw Hi.
  intros Hk. apply xint_small. destruct (fw_di _ _ _ _ Hw i Hi) as [_ _ _ _ _ Hl Ha]. unfold addr. rewrite nth_lookup.
  destruct (di_addrs (N i) !! Z.to_nat k) as [x|] eqn:E; [|cbn; lia]. by apply (Forall_lookup_1 _ _ _ _ Ha E).
Qed.

(** A block for slot [k] of the inode itself. *)
Lemma addr_step k c : 0 <= k <= NDIRECT -> tight v (N i) c -> k <= c -> (c = k -> im_freeblock s < FSSIZE) ->
  exists s' v' di', (if xint (addr (N i) k) =? 0 then do b <- next_block; ret (set_addr k (xint b) (N i)) else ret (N i)) s = Ret di' s' /\
    on_image s' v' /\ grown the_sb mkfs_env v N i v' di' /\ tight v' di' (Z.max c (k + 1)) /\ later s s' (Z.max c (k + 1) - c) /\
    (c = k -> v' (addr di' k) = zeros) /\ xint (addr di' k) = addr di' k.
Proof using Hs Hw Hi Ht.
  intros Hk Htt Hkc Hfb. rewrite xint_addr by done. assert (Hns : k < NSLOT) by (change NSLOT with 269; change NDIRECT with 12 in *; lia).
  assert (Hsk : slot v (N i) k = addr (N i) k) by (unfold slot; destruct (Z.leb_spec k NDIRECT); [done|lia]).
  destruct (Z.eqb_spec (addr (N i) k) 0) as [H0|H0].
  - assert (c = k) as ->. { destruct (Z.lt_ge_cases k c) as [Hlt|]; [|lia]. apply (Htt k ltac:(lia)) in Hlt. congruence. }
    specialize (Hfb eq_refl). destruct (fb_data _ _ Hs Hfb) as [Hd Hu]. destruct (next_ok s v Hs Hfb) as (s' & Hn & Hs' & Hl).
    set (b := im_freeblock s) in *. pose proof (data_small _ _ the_sb_ok _ Hd) as Hb. pose proof (data_nz _ _ the_sb_ok _ Hd) as Hb0.
    pose proof (do_len _ (fw_di _ _ _ _ Hw i Hi)) as Hlen.
    assert (Ha : forall j, 0 <= j -> addr (set_addr k b (N i)) j = if j =? k then b else addr (N i) j)
      by (intros; apply addr_set; rewrite ?Hlen; change NDIRECT with 12 in *; lia).
    assert (Hz : v_alloc the_sb v b b = zeros) by (unfold v_alloc; apply upd_eq).
    exists s', (v_alloc the_sb v b), (set_addr k b (N i)). rewrite (bind_ret _ _ _ _ _ Hn), xint_small by done.
    split; [done|]. split; [done|]. split; [by apply (grown_addr the_sb mkfs_env)|].
    rewrite Z.max_r, Ha, Z.eqb_refl by lia. split_and!; [|by replace (k + 1 - k) with 1 by lia|done|by apply xint_small].
    intros j Hj. rewrite slot_set_addr by done.
    rewrite (slot_keeps v) by (by apply (alloc_keeps the_sb mkfs_env)). destruct (Z.eqb_spec j k) as [->|]; [split; [lia|done]|]. specialize (Htt j Hj). lia.
  - assert (k < c) by (apply (Htt k ltac:(lia)); congruence).
    exists s, v, (N i). split_and!; [done|done|by apply grown_refl| |split; lia|lia|by apply xint_addr]. by rewrite Z.max_l by lia.
Qed.

(** A block for an entry of the indirect block. *)
Lemma entry_step j c : 0 <= j < NINDIRECT -> tight v (N i) c -> NDIRECT < c -> j + NDIRECT + 1 <= c -> (c = j + NDIRECT + 1 -> im_freeblock s < FSSIZE) ->
  let ind := addr (N i) NDIRECT in
  exists s' v' e', (forall B (kk : list Z -> M image B), (do d <- rsect ind;
      do d <- (if entry d j =? 0 then do b <- next_block; let d := set_entry d j (xint b) in wsect ind d ;;; ret d else ret d); kk d) s = kk e' s') /\
    on_image s' v' /\ grown the_sb mkfs_env v N i v' (N i) /\ tight v' (N i) (Z.max c (j + NDIRECT + 2)) /\
    later s s' (Z.max c (j + NDIRECT + 2) - c) /\ xint (entry e' j) = blk v' (N i) (j + NDIRECT) /\
    (c = j + NDIRECT + 1 -> v' (blk v' (N i) (j + NDIRECT)) = zeros).
Proof using Hs Hw Hi Ht.
  intros Hj Htt Hc Hjc Hfb ind. change NDIRECT with 12 in *. change NINDIRECT with 256 in *. set (n := j + 12 + 1) in *.
  assert (Hind : ind <> 0). { unfold ind. change 12 with NDIRECT. rewrite <- (slot_ind v). apply Htt; [by vm_compute|done]. }
  assert (Ho : owns the_sb v N i NDIRECT ind) by (by apply owns_ind). destruct (fw_own _ _ _ _ Hw _ _ _ Ho) as [Hid Hiu].
  assert (Hir : 0 <= ind < FSSIZE /\ ind <> sb_bmapstart the_sb /\ ind < im_freeblock s).
  { unfold isdata in Hid. change (dstart the_sb) with 47 in Hid. change (sb_size the_sb) with 2000 in Hid. unfold FSSIZE.
    rewrite (sh_used _ _ _ Hs) in Hiu by (unfold FSSIZE; lia). apply Z.ltb_lt in Hiu. change (sb_bmapstart the_sb) with 46. lia. }
  assert (Hblk : forall v2, blk v2 (N i) (j + 12) = entry (v2 ind) j).
  { intros v2. unfold blk, bslot. change NDIRECT with 12. destruct (Z.ltb_spec (j + 12) 12); [lia|]. unfold slot. change NDIRECT with 12.
    destruct (Z.leb_spec (j + 12 + 1) 12); [lia|]. fold ind. destruct (Z.eqb_spec ind 0); [done|]. by replace (j + 12 + 1 - 12 - 1) with j by lia. }
  assert (Hsl : slot v (N i) n = entry (v ind) j).
  { rewrite <- Hblk. unfold blk, bslot. change NDIRECT with 12. destruct (Z.ltb_spec (j + 12) 12); [lia|done]. }
  pose proof (rsect_ok s v ind Hs ltac:(lia) ltac:(lia)) as Hrd.
  destruct (Z.eqb_spec (entry (v ind) j) 0) as [H0|H0].
  - assert (c = n) as ->. { destruct (Z.lt_ge_cases n c) as [Hlt|]; [|lia]. apply (Htt n) in Hlt; [congruence|change NSLOT with 269; lia]. }
    specialize (Hfb eq_refl). destruct (fb_data _ _ Hs Hfb) as [Hd Hu]. destruct (next_ok s v Hs Hfb) as (s1 & Hn & Hs1 & Hl).
    set (b := im_freeblock s) in *. pose proof (data_small _ _ the_sb_ok _ Hd) as Hb.
    pose proof (alloc_owned _ _ the_sb_ok v N b _ _ _ Hw Hd Hu Ho) as Hvi.
    destruct (wsect_ok s1 _ ind (set_entry (v ind) j b) Hs1) as (s2 & Hwr & Hs2 & Hl2).
    { destruct Hl as [Hl _]. unfold isdata in Hid. change (dstart the_sb) with 47 in Hid. split; [change (sb_inodestart the_sb) with 33|]; lia. }
    destruct (grown_entry the_sb mkfs_env the_sb_ok v N i j b Hw Hi Ht Hj Hind H0 Hd Hu) as [Hg Hgb].
    exists s2, (upd (v_alloc the_sb v b) ind (set_entry (v ind) j b)), (set_entry (v ind) j b). split.
    { intros B kk. rewrite (bind_ret _ _ _ _ _ Hrd), H0. cbn [Z.eqb]. unfold bind at 1. rewrite (bind_ret _ _ _ _ _ Hn), xint_small by done.
      cbn zeta. by rewrite (bind_ret _ _ _ _ _ Hwr). }
    change NDIRECT with 12 in *. fold ind in Hg, Hgb. rewrite Hgb.
    assert (Hbi : b <> ind) by congruence.
    assert (Hbl : block (v ind)) by (apply (fw_blocks _ _ _ _ Hw), (data_home _ _ the_sb_ok), Hid).
    rewrite Z.max_r by lia. split_and!; [done|exact Hg| | | |].
    + intros k Hk. rewrite <- Hvi at 1. unfold ind in *. rewrite slot_set_entry; [|exact Hind|change NDIRECT with 12; by rewrite Hvi|exact Hj|exact Hb|exact Hk].
      rewrite (slot_keeps v) by (by apply (alloc_keeps the_sb mkfs_env)). change NDIRECT with 12. fold n.
      pose proof (data_nz _ _ the_sb_ok _ Hd). specialize (Htt k Hk). destruct (Z.eqb_spec k n); lia.
    + destruct Hl, Hl2. split; lia.
    + rewrite entry_set, Z.eqb_refl by (done || lia). by apply xint_small.
    + intros _. rewrite upd_ne by done. unfold v_alloc. apply upd_eq.
  - assert (n < c) by (apply (Htt n); [change NSLOT with 269; lia|congruence]).
    exists s, v, (v ind). split_and!; [|done|by apply grown_refl|by rewrite Z.max_l by lia|split; lia| |lia].
    { intros B kk. rewrite (bind_ret _ _ _ _ _ Hrd). apply Z.eqb_neq in H0. by rewrite H0. }
    rewrite Hblk. apply xint_small. rewrite <- Hsl.
    destruct (wf_slot the_sb mkfs_env v N i n Hw Hi Ht) as [Hd _]; [change NSLOT with 269; lia|congruence|]. by apply (data_small _ _ the_sb_ok).
Qed.
End Block.

Lemma slots_step n : 0 <= n -> slots_of (n + 1) = Z.max (slots_of n) (bslot n + 1).
Proof. intros Hn. unfold slots_of, bslot. change NDIRECT with 12. destruct (Z.ltb_spec 12 (n + 1)), (Z.ltb_spec 12 n), (Z.ltb_spec n 12); lia. Qed.

Lemma slots_lt n m : 0 <= n < m -> bslot n < slots_of m.
Proof. intros Hn. unfold slots_of, bslot. change NDIRECT with 12. destruct (Z.ltb_spec 12 m), (Z.ltb_spec n 12); lia. Qed.

Lemma slots_le n m : 0 <= n < m -> slots_of (n + 1) <= bslot m.
Proof. intros Hn. unfold slots_of, bslot. change NDIRECT with 12. destruct (Z.ltb_spec 12 (n + 1)), (Z.ltb_spec m 12); lia. Qed.

Lemma slots_mono n m : 0 <= n <= m -> 0 <= slots_of n <= slots_of m.
Proof. intros Hn. unfold slots_of. change NDIRECT with 12. destruct (Z.ltb_spec 12 n), (Z.ltb_spec 12 m); lia. Qed.

(** Block [n] of a file of [m] blocks, or the one after the last. *)
Lemma iappend_block_ok s v N i n m : on_image s v -> wf v N -> inum_ok the_sb i -> di_type (N i) <> 0 -> 0 <= n < MAXFILE -> n <= m ->
  tight v (N i) (slots_of m) -> im_freeblock s + slots_of (Z.max m (n + 1)) - slots_of m <= FSSIZE ->
  exists s' v' di', iappend_block (N i) n s = Ret (di', blk v' di' n) s' /\ on_image s' v' /\ grown the_sb mkfs_env v N i v' di' /\
    tight v' di' (slots_of (Z.max m (n + 1))) /\ later s s' (slots_of (Z.max m (n + 1)) - slots_of m) /\
    (n = m -> v' (blk v' di' n) = zeros).
Proof.
  intros Hs Hw Hi Ht Hn Hnm Htt Hfb. unfold iappend_block. destruct (Z.ltb_spec n NDIRECT) as [Hlt|Hge].
  - assert (Hm : Z.max (slots_of m) (n + 1) = slots_of (Z.max m (n + 1)) /\ n <= slots_of m /\ (slots_of m = n <-> n = m)).
    { unfold slots_of. change NDIRECT with 12 in *. destruct (Z.ltb_spec 12 m), (Z.ltb_spec 12 (Z.max m (n + 1))); lia. }
    destruct Hm as (Hm & Hle & Heq).
    destruct (addr_step s v N i Hs Hw Hi Ht n (slots_of m)) as (s' & v' & di' & E & Hs' & Hg & Ht' & Hl & Hz & Hx); [lia|done|done|lia|].
    exists s', v', di'. rewrite Hm in *. rewrite (bind_ret _ _ _ _ _ E).
    assert (Hb : blk v' di' n = addr di' n).
    { unfold blk, bslot, slot. destruct (Z.ltb_spec n NDIRECT); [|lia]. destruct (Z.leb_spec n NDIRECT); [done|lia]. }
    rewrite Hb. split_and!; try done. + cbn. by rewrite Hx. + intros E2. apply Hz. lia.
  - assert (Hm : Z.max (slots_of m) (NDIRECT + 1) = m + 1 /\ NDIRECT <= slots_of m /\ slots_of (Z.max m (n + 1)) = Z.max (m + 1) (n + 2) /\
      slots_of m = if m =? NDIRECT then m else m + 1).
    { unfold slots_of. change NDIRECT with 12 in *. destruct (Z.ltb_spec 12 m), (Z.ltb_spec 12 (Z.max m (n + 1))), (Z.eqb_spec m 12); lia. }
    destruct Hm as (Hm & Hle & Hmx & Heq). unfold MAXFILE in Hn. change NDIRECT with 12 in *.
    destruct (addr_step s v N i Hs Hw Hi Ht 12 (slots_of m)) as (s1 & v1 & di1 & E1 & Hs1 & Hg1 & Ht1 & Hl1 & _ & Hx1); [done|done|done|destruct (Z.eqb_spec m 12); lia|].
    rewrite Hm in Ht1, Hl1. change (addr (N i) NDIRECT) with (addr (N i) 12). rewrite (bind_ret _ _ _ _ _ E1), Hx1. cbn zeta.
    set (N1 := upd N i di1). assert (HN1 : N1 i = di1) by apply upd_eq. rewrite <- HN1 in *.
    assert (Hty : di_type (N1 i) <> 0) by (destruct (gr_meta _ _ _ _ _ _ _ Hg1) as [-> _]; done).
    pose proof (gr_wf _ _ _ _ _ _ _ Hg1) as Hw1. rewrite HN1 in Hw1. fold N1 in Hw1.
    destruct (entry_step s1 v1 N1 i Hs1 Hw1 Hi Hty (n - 12) (m + 1)) as (s2 & v2 & e2 & E2 & Hs2 & Hg2 & Ht2 & Hl2 & Hx2 & Hz2);
      [lia|done|change NDIRECT with 12; lia|change NDIRECT with 12; lia|change NDIRECT with 12; destruct Hl1; lia|].
    change NDIRECT with 12 in *. replace (n - 12 + 12) with n in * by lia. replace (n - 12 + 12 + 2) with (n + 2) in * by lia.
    exists s2, v2, (N1 i). rewrite E2, Hx2, Hmx. split_and!; try done.
    + rewrite HN1 in *. by eapply grown_trans.
    + destruct Hl1, Hl2. split; lia.
    + intros ->. apply Hz2. lia.
Qed.

(** ** Appending *)

(** The bytes of the blocks after [off] are zero. *)
Definition zero_tail (v : Z -> list Z) (di : dinode) (off : Z) : Prop :=
  forall p, off <= p -> p / BSIZE < MAXFILE -> blk v di (p / BSIZE) <> 0 -> fbyte v di p = 0.

Lemma zero_tail_keeps v v' di off : 0 <= off -> keeps v v' di -> zero_tail v di off -> zero_tail v' di off.
Proof.
  intros Ho Hk Hz p Hp Hm Hb. unfold blk in Hb. rewrite (slot_keeps _ _ _ _ Hk) in Hb. rewrite (fbyte_keeps v) by (done || lia). by apply Hz.
Qed.

Lemma blocks_step off n : 0 <= off -> 0 < n -> off mod BSIZE + n <= BSIZE ->
  off / BSIZE <= blocks_of off /\ (off / BSIZE <> blocks_of off -> blocks_of off = off / BSIZE + 1) /\
  Z.max (blocks_of off) (off / BSIZE + 1) = blocks_of (off + n) /\ blocks_of (off + n) = off / BSIZE + 1.
Proof. unfold blocks_of, BSIZE. intros. zlia. Qed.

Lemma blocks_mono a b : 0 <= a <= b -> 0 <= blocks_of a <= blocks_of b.
Proof. unfold blocks_of, BSIZE. intros. zlia. Qed.

Lemma blk_writable s v N i n : on_image s v -> wf v N -> inum_ok the_sb i -> di_type (N i) <> 0 -> 0 <= n < MAXFILE -> blk v (N i) n <> 0 ->
  let x := blk v (N i) n in 0 <= x < FSSIZE /\ x <> sb_bmapstart the_sb /\ writable s x.
Proof.
  intros Hs Hw Hi Ht Hn Hb x. destruct (wf_slot the_sb mkfs_env v N i (bslot n) Hw Hi Ht) as [Hd Hu]; [by apply bslot_range|done|].
  fold (blk v (N i) n) in Hd, Hu. fold x in Hd, Hu. unfold isdata in Hd. change (dstart the_sb) with 47 in Hd. change (sb_size the_sb) with FSSIZE in Hd.
  rewrite (sh_used _ _ _ Hs) in Hu by lia. apply Z.ltb_lt in Hu. unfold writable. change (sb_bmapstart the_sb) with 46. change (sb_inodestart the_sb) with 33.
  split_and!; lia.
Qed.

(** One round of the loop, up to the next one. *)
Lemma append_step s v N i off p : on_image s v -> wf v N -> inum_ok the_sb i -> di_type (N i) <> 0 -> 0 <= off -> 
  0 < Z.of_nat (length p) -> off mod BSIZE + Z.of_nat (length p) <= BSIZE -> off / BSIZE < MAXFILE ->
  tight v (N i) (cost off) -> zero_tail v (N i) off -> im_freeblock s + cost (off + Z.of_nat (length p)) - cost off <= FSSIZE ->
  exists s' v' di', (forall B (kk : dinode -> M image B), (do r <- iappend_block (N i) (off / BSIZE);
      do buf <- rsect (snd r); wsect (snd r) (patch buf (off mod BSIZE) p) ;;; kk (fst r)) s = kk di' s') /\
    on_image s' v' /\ wrote the_sb mkfs_env v N i off p v' di' /\ tight v' di' (cost (off + Z.of_nat (length p))) /\
    zero_tail v' di' (off + Z.of_nat (length p)) /\ later s s' (cost (off + Z.of_nat (length p)) - cost off).
Proof.
  intros Hs Hw Hi Ht Ho Hp Hpb Hmx Htt Hz Hfb. destruct (blocks_step off _ Ho Hp Hpb) as (Hle & Hne & Hst & Hend).
  assert (Hn0 : 0 <= off / BSIZE) by (by apply Z.div_pos). set (n := off / BSIZE) in *. unfold cost in *. rewrite <- Hst in Hfb.
  destruct (iappend_block_ok s v N i n (blocks_of off) Hs Hw Hi Ht ltac:(lia) Hle Htt Hfb) as (s1 & v1 & di1 & E1 & Hs1 & Hg & Ht1 & Hl1 & Hz1).
  rewrite Hst, Hend in Ht1, Hl1. rewrite Hend.
  set (N1 := upd N i di1). assert (HN1 : N1 i = di1) by apply upd_eq. pose proof (gr_wf _ _ _ _ _ _ _ Hg) as Hw1. fold N1 in Hw1.
  assert (Hty : di_type (N1 i) <> 0) by (rewrite HN1; destruct (gr_meta _ _ _ _ _ _ _ Hg) as [-> _]; done).
  assert (Hb1 : blk v1 (N1 i) n <> 0) by (rewrite HN1; apply Ht1; [apply bslot_range; lia|apply slots_lt; lia]).
  destruct (blk_writable s1 v1 N1 i n Hs1 Hw1 Hi Hty ltac:(lia) Hb1) as (Hx & Hxb & Hxw).
  pose proof (wrote_block the_sb mkfs_env the_sb_ok v1 N1 i off p Hw1 Hi Hty Ho Hmx Hb1 Hpb) as Hwr. fold n in Hwr. cbn zeta in Hwr.
  destruct (wsect_ok s1 v1 (blk v1 (N1 i) n) (patch (v1 (blk v1 (N1 i) n)) (off mod BSIZE) p) Hs1 Hxw) as (s2 & E2 & Hs2 & Hl2).
  rewrite HN1 in *. set (a := blk v1 di1 n) in *. set (v2 := upd v1 a _) in *.
  pose proof (wrote_trans the_sb mkfs_env v N i off [] v1 di1 p v2 di1) as Htr. cbn [length Z.of_nat] in Htr. rewrite Z.add_0_r in Htr.
  assert (Hwr2 : wrote the_sb mkfs_env v N i off p v2 di1).
  { apply Htr; [done|unfold BSIZE in *; zlia|by apply grown_wrote|done]. }
  assert (Hr : 0 <= bslot n < NSLOT) by (apply bslot_range; lia).
  assert (Hba : block (v1 a)).
  { destruct (wf_slot the_sb mkfs_env v1 N1 i (bslot n) Hw1 Hi) as [Hd _]; rewrite ?HN1; try done. apply (fw_blocks _ _ _ _ Hw1), (data_home _ _ the_sb_ok).
    by rewrite HN1 in Hd. }
  assert (Hk2 : forall m, slot v2 di1 m = slot v1 di1 m).
  { destruct (wf_data the_sb mkfs_env the_sb_ok v1 N1 i n (patch (v1 a) (off mod BSIZE) p) Hw1 Hi) as (_ & _ & Hk); rewrite ?HN1 in *; try done; try lia.
    apply block_patch; [done|by apply Z.mod_pos_bound|done]. }
  exists s2, v2, di1. split_and!; [|exact Hs2|exact Hwr2| | |].
  - intros B kk. rewrite (bind_ret _ _ _ _ _ E1). cbn [fst snd].
    rewrite (bind_ret _ _ _ _ _ (rsect_ok s1 v1 a Hs1 Hx Hxb)). by rewrite (bind_ret _ _ _ _ _ E2).
  - intros k Hk. rewrite Hk2. by apply Ht1.
  - intros q Hq Hqm Hqb. unfold blk in Hqb. rewrite Hk2 in Hqb. assert (Hq0 : 0 <= q / BSIZE) by (apply Z.div_pos; [lia|done]).
    assert (Hqn : q / BSIZE = n).
    { apply Ht1 in Hqb; [|apply bslot_range; lia]. assert (n <= q / BSIZE) by (apply Z.div_le_mono; [done|lia]).
      destruct (Z.eq_dec (q / BSIZE) n) as [|Hd]; [done|]. pose proof (slots_le n (q / BSIZE)). lia. }
    destruct (wr_out _ _ _ _ _ _ _ _ _ Hwr q) as [_ ->]; [lia|done|lia|by rewrite HN1|]. rewrite HN1.
    destruct (Z.eq_dec n (blocks_of off)) as [E|E].
    + unfold fbyte. rewrite Hqn. fold a. rewrite (Hz1 E). apply nth_zero_block.
    + destruct (wr_out _ _ _ _ _ _ _ _ _ (grown_wrote _ _ _ _ _ _ _ off Hg) q) as [_ ->]; [lia|done|cbn; lia| |].
      * rewrite Hqn. apply Htt; [done|]. apply slots_lt. lia.
      * apply Hz; [lia|done|]. rewrite Hqn. apply Htt; [done|]. apply slots_lt. lia.
  - destruct Hl1, Hl2. split; lia.
Qed.

Lemma iappend_loop_ok k : forall s v N i off p, (length p < k)%nat -> on_image s v -> wf v N -> inum_ok the_sb i -> di_type (N i) <> 0 -> 0 <= off ->
  off + Z.of_nat (length p) <= MAXFILE * BSIZE -> tight v (N i) (cost off) -> zero_tail v (N i) off ->
  im_freeblock s + cost (off + Z.of_nat (length p)) - cost off <= FSSIZE ->
  exists s' v' di', iappend_loop k (N i) off p s = Ret (di', off + Z.of_nat (length p)) s' /\ on_image s' v' /\
    wrote the_sb mkfs_env v N i off p v' di' /\ tight v' di' (cost (off + Z.of_nat (length p))) /\
    zero_tail v' di' (off + Z.of_nat (length p)) /\ later s s' (cost (off + Z.of_nat (length p)) - cost off).
Proof.
  induction k as [|k IH]; [lia|]. intros s v N i off p Hk Hs Hw Hi Ht Ho Hmx Htt Hz Hfb. cbn [iappend_loop].
  destruct (Z.ltb_spec 0 (Z.of_nat (length p))) as [Hp|Hp].
  2: { destruct p; [|cbn in Hp; lia]. cbn [length Z.of_nat] in *. rewrite Z.add_0_r in *. exists s, v, (N i). split_and!; try done; [|split; lia].
       apply grown_wrote. by apply grown_refl. }
  assert (Hmod : 0 <= off mod BSIZE < BSIZE) by (by apply Z.mod_pos_bound).
  assert (Hdiv : off = BSIZE * (off / BSIZE) + off mod BSIZE) by (by apply Z.div_mod).
  set (n1 := Z.min (Z.of_nat (length p)) ((off / BSIZE + 1) * BSIZE - off)).
  assert (Hn1 : 0 < n1 <= Z.of_nat (length p) /\ off mod BSIZE + n1 <= BSIZE) by (unfold n1, BSIZE in *; lia).
  assert (Hl1 : Z.of_nat (length (take (Z.to_nat n1) p)) = n1) by (rewrite length_take; lia).
  assert (Hl2 : Z.of_nat (length (drop (Z.to_nat n1) p)) = Z.of_nat (length p) - n1) by (rewrite length_drop; lia).
  assert (Hfm : off / BSIZE < MAXFILE) by (unfold BSIZE in *; lia).
  assert (Hcost : cost off <= cost (off + n1) <= cost (off + Z.of_nat (length p))).
  { unfold cost. split; apply slots_mono, blocks_mono; lia. }
  destruct (append_step s v N i off (take (Z.to_nat n1) p)) as (s1 & v1 & di1 & E1 & Hs1 & Hw1 & Ht1 & Hz1 & Hlt1); rewrite ?Hl1 in *; try done; try lia.
  set (N1 := upd N i di1). assert (HN1 : N1 i = di1) by apply upd_eq.
  destruct (wr_meta _ _ _ _ _ _ _ _ _ Hw1) as [Ety _].
  destruct (IH s1 v1 N1 i (off + n1) (drop (Z.to_nat n1) p)) as (s2 & v2 & di2 & E2 & Hs2 & Hw2 & Ht2 & Hz2 & Hlt2).
  { rewrite length_drop. lia. } { done. } { apply Hw1. } { done. } { by rewrite HN1, Ety. } { lia. } { lia. } { by rewrite HN1. } { by rewrite HN1. }
  { rewrite Hl2. replace (off + n1 + (Z.of_nat (length p) - n1)) with (off + Z.of_nat (length p)) by lia. destruct Hlt1. lia. }
  rewrite Hl2 in *. replace (off + n1 + (Z.of_nat (length p) - n1)) with (off + Z.of_nat (length p)) in * by lia.
  exists s2, v2, di2. split_and!; [|done| |done|done|destruct Hlt1, Hlt2; split; lia].
  - rewrite (proj2 (Z.ltb_lt _ _) Hfm). unfold assert_. rewrite (bind_ret _ tt _ s) by done.
    replace (off - off / BSIZE * BSIZE) with (off mod BSIZE) by lia. rewrite u32_small by (change (MAXFILE * BSIZE) with 274432 in *; lia).
    etransitivity; [apply (E1 _ (fun d => iappend_loop k d (off + n1) (drop (Z.to_nat n1) p)))|]. by rewrite <- HN1.
  - rewrite <- (take_drop (Z.to_nat n1) p). eapply wrote_trans; [done| |exact Hw1|]; rewrite Hl1; [lia|done].
Qed.

(** ** Inodes *)

Lemma rinode_ok s v i : on_image s v -> inum_ok the_sb i -> rinode i s = Ret (get_inode the_sb v i) s.
Proof.
  intros Hs Hi. unfold rinode, bind at 1, gets. rewrite (sh_sb _ _ Hs). destruct (iblock_ib _ _ the_sb_ok i Hi) as [Hb _].
  unfold isib in Hb. change (sb_inodestart the_sb) with 33 in Hb. change (sb_bmapstart the_sb) with 46 in Hb.
  rewrite (bind_ret _ _ _ _ _ (rsect_ok s v (IBLOCK i the_sb) Hs ltac:(unfold FSSIZE; lia) ltac:(change (sb_bmapstart the_sb) with 46; lia))). done.
Qed.

Lemma winode_ok s v i di : on_image s v -> inum_ok the_sb i ->
  exists s', winode i di s = Ret tt s' /\ on_image s' (v_iupd the_sb v i di) /\ later s s' 0.
Proof.
  intros Hs Hi. unfold winode, bind at 1, gets. rewrite (sh_sb _ _ Hs). destruct (iblock_ib _ _ the_sb_ok i Hi) as [Hb _].
  unfold isib in Hb. change (sb_inodestart the_sb) with 33 in Hb. change (sb_bmapstart the_sb) with 46 in Hb.
  rewrite (bind_ret _ _ _ _ _ (rsect_ok s v (IBLOCK i the_sb) Hs ltac:(unfold FSSIZE; lia) ltac:(change (sb_bmapstart the_sb) with 46; lia))).
  apply wsect_ok; [done|]. pose proof (sh_fb _ _ Hs) as Hf. change (dstart the_sb) with 47 in Hf. unfold writable.
  change (sb_inodestart the_sb) with 33. change (sb_bmapstart the_sb) with 46. lia.
Qed.

(** The image between the steps of the program. *)
Record built (s : image) (v : Z -> list Z) (N : Z -> dinode) : Prop := {
  bt_shows : on_image s v;
  bt_wf : wf v N;
  bt_fi : 1 <= im_freeinode s <= NINODES;
  bt_nodes : forall i, inum_ok the_sb i -> get_inode the_sb v i = N i;
  bt_used : forall i, 1 <= i < im_freeinode s -> di_type (N i) <> 0 /\ tight v (N i) (cost (di_size (N i))) /\ zero_tail v (N i) (di_size (N i));
  bt_free : forall i, inum_ok the_sb i -> i = 0 \/ im_freeinode s <= i -> N i = new_di 0
}.

Lemma built_inum s v N i : built s v N -> 1 <= i < im_freeinode s -> inum_ok the_sb i /\ 0 <= di_size (N i) < 2 ^ 32.
Proof.
  intros Hb Hi. pose proof (bt_fi _ _ _ Hb). assert (Hin : inum_ok the_sb i) by (split; [lia|change (sb_ninodes the_sb) with NINODES; lia]).
  split; [done|]. apply (do_size _ (fw_di _ _ _ _ (bt_wf _ _ _ Hb) i Hin)).
Qed.

(** An inode has been written: the others are as they were. *)
Lemma built_put s v N i di s' v' : built s v N -> on_image s' v' -> im_freeinode s' = im_freeinode s -> wf v' (upd N i di) -> 1 <= i < im_freeinode s ->
  di_type di <> 0 -> tight v' di (cost (di_size di)) -> zero_tail v' di (di_size di) ->
  (forall j, inum_ok the_sb j -> di_type (N j) <> 0 -> j <> i -> keeps v v' (N j)) ->
  (forall j, inum_ok the_sb j -> get_inode the_sb v' j = if j =? i then di else get_inode the_sb v j) -> built s' v' (upd N i di).
Proof.
  intros Hb Hs' Hfi Hw Hi Hty Ht Hz Hk Hd. split; try done.
  - rewrite Hfi. apply Hb.
  - intros j Hj. rewrite Hd by done. unfold upd. destruct (j =? i); [done|]. by apply (bt_nodes _ _ _ Hb).
  - rewrite Hfi. intros j Hj. unfold upd. destruct (Z.eqb_spec j i) as [->|Hne]; [done|]. destruct (bt_used _ _ _ Hb j Hj) as (Htj & Ht1 & Hz1).
    destruct (built_inum _ _ _ _ Hb Hj) as [Hin Hsz]. specialize (Hk j Hin Htj Hne).
    split_and!; [done|by eapply tight_keeps|eapply zero_tail_keeps; [lia|done..]].
  - rewrite Hfi. intros j Hj Hf. rewrite upd_ne by lia. by apply (bt_free _ _ _ Hb).
Qed.

(** [iappend]. *)
Lemma iappend_ok s v N i p : built s v N -> 1 <= i < im_freeinode s -> let off := di_size (N i) in let n := Z.of_nat (length p) in
  off + n <= MAXFILE * BSIZE -> im_freeblock s + cost (off + n) - cost off <= FSSIZE ->
  exists s' v' di', iappend i p s = Ret tt s' /\ built s' v' (upd N i di') /\ written the_sb mkfs_env v N i off p v' di' /\
    di_size di' = off + n /\ later s s' (cost (off + n) - cost off).
Proof.
  intros Hb Hi off n Hmx Hfb. destruct (built_inum _ _ _ _ Hb Hi) as [Hin Hsz]. fold off in Hsz. destruct (bt_used _ _ _ Hb i Hi) as (Hty & Htt & Hz).
  pose proof (bt_shows _ _ _ Hb) as Hs. pose proof (bt_wf _ _ _ Hb) as Hw. change (MAXFILE * BSIZE) with 274432 in Hmx.
  destruct (iappend_loop_ok (length p + 1) s v N i off p) as (s1 & v1 & di1 & E1 & Hs1 & Hwr & Ht1 & Hz1 & Hl1); try done; try lia. fold n in E1, Ht1, Hz1, Hl1.
  pose proof (wrote_written the_sb mkfs_env the_sb_ok v N i off p v1 di1 Hw Hin Hty Hwr ltac:(lia) ltac:(by fold n)) as Hwn.
  pose proof (wrote_resize the_sb mkfs_env v N i off p v1 di1 Hw Hin Hty Hwr ltac:(lia) ltac:(by fold n)) as Hw2.
  cbn zeta in Hwn. fold off n in Hwn, Hw2. rewrite Z.max_r in Hwn, Hw2 by lia. set (di2 := set_size (off + n) di1) in *.
  destruct (winode_ok s1 v1 i di2 Hs1 Hin) as (s2 & E2 & Hs2 & Hl2).
  assert (Hty2 : di_type di2 <> 0) by (destruct (wt_meta _ _ _ _ _ _ _ _ _ Hwn) as [-> _]; done).
  assert (Hk2 : keeps v1 (v_iupd the_sb v1 i di2) di2).
  { destruct (wf_iupd the_sb mkfs_env the_sb_ok v1 (upd N i di2) i di2 Hw2 Hin) as [_ Hk]. specialize (Hk i Hin). rewrite upd_eq in Hk. auto. }
  exists s2, (v_iupd the_sb v1 i di2), di2. split_and!; [|..|done|done|destruct Hl1, Hl2; split; lia].
  - unfold iappend. rewrite (bind_ret _ _ _ _ _ (rinode_ok s v i Hs Hin)), (bt_nodes _ _ _ Hb i Hin). cbn zeta. fold off.
    rewrite xint_small by lia. rewrite (bind_ret _ _ _ _ _ E1). cbn [fst snd]. by rewrite xint_small by lia.
  - destruct Hl1, Hl2. eapply built_put; try done; [lia|apply Hwn|by eapply tight_keeps|eapply zero_tail_keeps; [cbn; lia|done..]|apply Hwn|apply Hwn].
Qed.

Definition file_di (ty : Z) : dinode := mk_di ty 0 0 1 0 (replicate 13 0).

Lemma ialloc_ok s v N ty : built s v N -> im_freeinode s < NINODES -> 0 < ty < 2 ^ 15 -> let i := im_freeinode s in
  exists s' v', ialloc ty s = Ret i s' /\ built s' v' (upd N i (file_di ty)) /\ im_freeblock s' = im_freeblock s /\ im_freeinode s' = i + 1 /\
    (forall j, inum_ok the_sb j -> di_type (N j) <> 0 -> keeps v v' (N j)).
Proof.
  intros Hb Hfi Hty i. pose proof (bt_fi _ _ _ Hb) as Hfr. pose proof (bt_shows _ _ _ Hb) as Hs.
  assert (Hin : inum_ok the_sb i) by (split; [|change (sb_ninodes the_sb) with NINODES]; unfold i; lia).
  assert (Hdi : di_ok (file_di ty)) by (split; cbn [file_di di_type di_major di_minor di_nlink di_size di_addrs]; [lia..|done|apply Forall_replicate; lia]).
  assert (Hw1 : wf v (upd N i (file_di ty))).
  { eapply fs_wf_ext; [eapply (wf_fields the_sb mkfs_env v (upd N i (new_di ty)) i (file_di ty)); try done|].
    - apply wf_new_inode; [apply Hb|lia].
    - by rewrite upd_eq. - by rewrite upd_eq. - by rewrite upd_eq. - intros j. apply upd_twice. }
  destruct (wf_iupd the_sb mkfs_env the_sb_ok v _ i (file_di ty) Hw1 Hin) as [Hw2 Hk2].
  set (s0 := put_freeinode (u32 (i + 1)) s). assert (Hs0 : on_image s0 v) by (destruct Hs; by split).
  destruct (winode_ok s0 v i (file_di ty) Hs0 Hin) as (s1 & E1 & Hs1 & Hl1 & Hl2). rewrite Z.add_0_r in Hl1. unfold NINODES in *.
  assert (Hu : u32 (i + 1) = i + 1) by (apply u32_small; unfold i; lia). 
  assert (Hk : forall j, inum_ok the_sb j -> di_type (N j) <> 0 -> keeps v (v_iupd the_sb v i (file_di ty)) (N j)).
  { intros j Hj Htj. specialize (Hk2 j Hj). rewrite upd_ne in Hk2; [auto|]. intros ->. rewrite (bt_free _ _ _ Hb i Hin) in Htj by (unfold i; lia). done. }
  assert (Hsl : forall v k, slot v (file_di ty) k = 0) by (intros; apply (new_di_slot _ ty)).
  exists s1, (v_iupd the_sb v i (file_di ty)). split_and!; [| |done|by rewrite Hl2|exact Hk].
  - unfold ialloc. rewrite (bind_ret _ i _ s), (bind_ret _ tt _ s0) by done. rewrite xshort_small by lia. change (xshort 1) with 1. change (xint 0) with 0.
    by rewrite (bind_ret _ _ _ _ _ E1).
  - split; [done|done|rewrite Hl2; cbn; unfold NINODES, i in *; lia|..]; rewrite ?Hl2; cbn [im_freeinode put_freeinode s0]; rewrite ?Hu.
    + intros j Hj. rewrite (get_inode_iupd the_sb mkfs_env) by (done || apply Hb). unfold upd. destruct (j =? i); [done|]. by apply (bt_nodes _ _ _ Hb).
    + intros j Hj. unfold upd. destruct (Z.eqb_spec j i) as [->|Hne].
      * split_and!; [cbn; lia|intros k Hk'; rewrite Hsl; change (cost (di_size (file_di ty))) with 0; lia|]. intros p _ _ Hp. unfold blk in Hp. by rewrite Hsl in Hp.
      * assert (Hj' : 1 <= j < im_freeinode s) by (unfold i in *; lia). destruct (bt_used _ _ _ Hb j Hj') as (Htj & Ht1 & Hz1).
        destruct (built_inum _ _ _ _ Hb Hj') as [Hjn Hsz]. specialize (Hk j Hjn Htj). split_and!; [done|by eapply tight_keeps|eapply zero_tail_keeps; [lia|done..]].
    + intros j Hj Hf. rewrite upd_ne by (unfold i in *; lia). apply (bt_free _ _ _ Hb); [done|]. unfold i in *. lia.
Qed.
