(* ===== verification/MkfsClaims.v ===== *)
(** The image that [mkfs] writes is a consistent file system with exactly the
    files of the command line, and a kernel that boots from it finds it. *)
From S2P Require Import Prelude Bufcache Log LogClaims Txn FileLayer Fs FsBlocks FsInode FsData FsWrite FsTable FsTx FsRefs FsDir FsPath FsTree FsOps Mkfs MkfsOk.
Local Open Scope kern_scope.

#[local] Opaque sb_block used_bits zeros.

(** ** Appending to one file *)

Lemma splice_end c p : splice (length c) p c = c ++ p.
Proof. unfold splice. rewrite take_ge, drop_ge by lia. by rewrite app_nil_r. Qed.

(** The bytes [p] have been appended to inode [i]; nothing else has changed. *)
Record appended (s : image) (v : Z -> list Z) (N : Z -> dinode) (i : Z) (p : list Z) (s' : image) (v' : Z -> list Z) (N' : Z -> dinode) : Prop := {
  ap_built : built s' v' N';
  ap_later : later s s' (cost (di_size (N i) + Z.of_nat (length p)) - cost (di_size (N i)));
  ap_size : di_size (N' i) = di_size (N i) + Z.of_nat (length p);
  ap_node : di_type (N' i) = di_type (N i) /\ di_nlink (N' i) = di_nlink (N i);
  ap_content : fcontent v' (N' i) = fcontent v (N i) ++ p;
  ap_others : forall j, 1 <= j < im_freeinode s -> j <> i -> N' j = N j /\ fcontent v' (N j) = fcontent v (N j)
}.

Lemma iappend_appends s v N i p : built s v N -> 1 <= i < im_freeinode s -> let off := di_size (N i) in let n := Z.of_nat (length p) in
  off + n <= MAXFILE * BSIZE -> im_freeblock s + cost (off + n) - cost off <= FSSIZE ->
  exists s' v' N', iappend i p s = Ret tt s' /\ appended s v N i p s' v' N'.
Proof.
  intros Hb Hi off n Hmx Hfb. destruct (iappend_ok s v N i p Hb Hi Hmx Hfb) as (s' & v' & di' & E & Hb' & Hw & Hsz & Hl).
  destruct (wt_meta _ _ _ _ _ _ _ _ _ Hw) as (Ht & _ & _ & Hnl). destruct (built_inum _ _ _ _ Hb Hi) as [Hin Hr].
  exists s', v', (upd N i di'). split; [done|]. split; rewrite ?upd_eq; try done.
  - rewrite (wt_content _ _ _ _ _ _ _ _ _ Hw), <- splice_end. f_equal. pose proof (length_content v (N i) ltac:(lia)). fold off. lia.
  - intros j Hj Hne. rewrite upd_ne by done. split; [done|]. destruct (built_inum _ _ _ _ Hb Hj) as [Hjn _].
    destruct (bt_used _ _ _ Hb j Hj) as [Htj _]. eapply keeps_content; [apply Hb|done..|]. by apply (wt_others _ _ _ _ _ _ _ _ _ Hw).
Qed.

Lemma appended_refl s v N i : built s v N -> appended s v N i [] s v N.
Proof.
  intros Hb. split; try done; cbn [length Z.of_nat]; rewrite ?Z.add_0_r, ?app_nil_r; [split; lia|done..].
Qed.

Lemma appended_trans s v N i p s1 v1 N1 q s2 v2 N2 : 1 <= i < im_freeinode s ->
  appended s v N i p s1 v1 N1 -> appended s1 v1 N1 i q s2 v2 N2 -> appended s v N i (p ++ q) s2 v2 N2.
Proof.
  intros Hi [Hb [Hl Hf] Hs [Ht Hn] Hc Ho] [Hb' [Hl' Hf'] Hs' [Ht' Hn'] Hc' Ho'].
  assert (Hlen : Z.of_nat (length (p ++ q)) = Z.of_nat (length p) + Z.of_nat (length q)) by (rewrite length_app; lia).
  split; rewrite ?Hlen.
  - done.
  - replace (di_size (N i) + (Z.of_nat (length p) + Z.of_nat (length q))) with (di_size (N1 i) + Z.of_nat (length q)) by lia.
    rewrite Hs in *. split; lia.
  - lia.
  - split; congruence.
  - by rewrite Hc', Hc, app_assoc.
  - intros j Hj Hne. destruct (Ho j Hj Hne) as [E1 E2]. rewrite <- Hf in Hj. destruct (Ho' j Hj Hne) as [E3 E4]. rewrite E1 in E3, E4. split; congruence.
Qed.

Lemma cost_mono a b : 0 <= a <= b -> 0 <= cost a <= cost b.
Proof. intros H. unfold cost. pose proof (blocks_mono a b H) as Hb. by apply slots_mono. Qed.

Lemma add_chunks_ok reads : forall s v N i, built s v N -> 1 <= i < im_freeinode s -> Forall (fun c => c <> []) reads ->
  let off := di_size (N i) in let n := Z.of_nat (length (concat reads)) in
  off + n <= MAXFILE * BSIZE -> im_freeblock s + cost (off + n) - cost off <= FSSIZE ->
  exists s' v' N', add_chunks i reads s = Ret tt s' /\ appended s v N i (concat reads) s' v' N'.
Proof.
  induction reads as [|c reads IH]; intros s v N i Hb Hi Hne off n Hmx Hfb.
  { exists s, v, N. split; [done|]. by apply appended_refl. }
  apply Forall_cons in Hne as [Hc Hne]. unfold n in *. cbn [concat] in *. rewrite length_app, Nat2Z.inj_add in *.
  destruct (built_inum _ _ _ _ Hb Hi) as [_ Hr]. fold off in Hr.
  pose proof (cost_mono off (off + Z.of_nat (length c))). pose proof (cost_mono (off + Z.of_nat (length c)) (off + (Z.of_nat (length c) + Z.of_nat (length (concat reads))))).
  destruct (iappend_appends s v N i c Hb Hi) as (s1 & v1 & N1 & E1 & H1); [fold off; lia..|].
  pose proof (ap_later _ _ _ _ _ _ _ _ H1) as [Hl Hf]. pose proof (ap_size _ _ _ _ _ _ _ _ H1) as Hsz. fold off in Hl, Hsz.
  destruct (IH s1 v1 N1 i) as (s2 & v2 & N2 & E2 & H2); rewrite ?Hsz, <- ?Z.add_assoc; [apply H1|lia|done|lia|lia|].
  exists s2, v2, N2. split; [|by eapply appended_trans]. cbn [add_chunks]. destruct (Z.ltb_spec 0 (Z.of_nat (length c))) as [|Hz]; [|destruct c; [done|cbn in Hz; lia]].
  by rewrite (bind_ret _ _ _ _ _ E1).
Qed.

(** ** Adding the files *)

(** A file as it is stored: its name and its bytes. *)
Definition stored_name (arg : list Z) : list Z := skip_underscore (shortname arg).
Definition stored (h : host) (arg : list Z) : list Z * list Z := (stored_name arg, concat (default [] (h arg))).

(** The entries of the root directory. *)
Definition entries (fs : list (list Z * list Z)) : list (list Z * Z) :=
  ([46], ROOTINO) :: ([46; 46], ROOTINO) :: imap (fun k f => (fst f, Z.of_nat k + 2)) fs.
Definition dir_bytes (fs : list (list Z * list Z)) : list Z := concat ((fun e => mk_dirent (fst e) (snd e)) <$> entries fs).

(** The blocks that the root directory and the files take. *)
Definition need (fs : list (list Z * list Z)) : Z :=
  cost (16 * (Z.of_nat (length fs) + 2)) + foldr (fun f n => cost (Z.of_nat (length (snd f))) + n) 0 fs.

Record holds (s : image) (v : Z -> list Z) (N : Z -> dinode) (fs : list (list Z * list Z)) : Prop := {
  ho_built : built s v N;
  ho_fi : im_freeinode s = Z.of_nat (length fs) + 2;
  ho_fb : im_freeblock s = dstart the_sb + need fs;
  ho_root : di_type (N ROOTINO) = T_DIR /\ di_nlink (N ROOTINO) = 1 /\ fcontent v (N ROOTINO) = dir_bytes fs;
  ho_files : forall k f, fs !! k = Some f ->
    di_type (N (Z.of_nat k + 2)) = T_FILE /\ di_nlink (N (Z.of_nat k + 2)) = 1 /\ fcontent v (N (Z.of_nat k + 2)) = snd f
}.

Lemma length_entries fs : length (entries fs) = (length fs + 2)%nat.
Proof. unfold entries. cbn [length]. rewrite length_imap. lia. Qed.

Lemma entries_snoc fs f : entries (fs ++ [f]) = entries fs ++ [(fst f, Z.of_nat (length fs) + 2)].
Proof. unfold entries. rewrite imap_app. cbn. by rewrite Nat.add_0_r. Qed.

Lemma dir_bytes_snoc fs f : dir_bytes (fs ++ [f]) = dir_bytes fs ++ mk_dirent (fst f) (Z.of_nat (length fs) + 2).
Proof. unfold dir_bytes. rewrite entries_snoc, fmap_app, concat_app. cbn. by rewrite app_nil_r. Qed.

Lemma length_dir_bytes fs : Z.of_nat (length (dir_bytes fs)) = 16 * (Z.of_nat (length fs) + 2).
Proof.
  unfold dir_bytes. replace (Z.of_nat (length fs) + 2) with (Z.of_nat (length (entries fs))) by (rewrite length_entries; lia).
  induction (entries fs) as [|e l IH]; [done|]. rewrite fmap_cons. cbn [concat length]. rewrite length_app, length_dirent. lia.
Qed.

Lemma need_snoc fs f : need (fs ++ [f]) = need fs + (cost (16 * (Z.of_nat (length fs) + 3)) - cost (16 * (Z.of_nat (length fs) + 2))) + cost (Z.of_nat (length (snd f))).
Proof.
  unfold need. rewrite length_app, foldr_app. cbn [length foldr].
  assert (Hf : forall z l, foldr (fun f n => cost (Z.of_nat (length (snd f))) + n) z l = foldr (fun (f : list Z * list Z) n => cost (Z.of_nat (length (snd f))) + n) 0 l + z).
  { intros z l. induction l as [|x l IH]; cbn; lia. }
  rewrite Hf. replace (Z.of_nat (length fs + 1) + 2) with (Z.of_nat (length fs) + 3) by lia. lia.
Qed.

(** The size of an inode is the length of its content. *)
Lemma content_size s v N i c : built s v N -> 1 <= i < im_freeinode s -> fcontent v (N i) = c -> di_size (N i) = Z.of_nat (length c).
Proof. intros Hb Hi <-. destruct (built_inum _ _ _ _ Hb Hi) as [_ Hr]. by rewrite length_content by lia. Qed.

Lemma add_file_ok h s v N fs a reads : holds s v N fs -> h a = Some reads -> Forall (fun c => c <> []) reads ->
  47 ∉ shortname a -> Z.of_nat (length (stored_name a)) <= DIRSIZ -> Z.of_nat (length (concat reads)) <= MAXFILE * BSIZE ->
  Z.of_nat (length fs) + 2 < NINODES -> dstart the_sb + need (fs ++ [stored h a]) <= FSSIZE ->
  exists s' v' N', add_file h ROOTINO a s = Ret tt s' /\ holds s' v' N' (fs ++ [stored h a]).
Proof.
  intros [Hb Hfi Hfb (Hrt & Hrn & Hrc) Hfs] Hh Hne Hsl Hnm Hmx Hno Hfit. set (i := im_freeinode s) in *. set (n := Z.of_nat (length fs)) in *.
  assert (Hn0 : 0 <= n) by (unfold n; lia). unfold NINODES in Hno. change ROOTINO with 1 in *.
  assert (Hst : stored h a = (stored_name a, concat reads)) by (unfold stored; by rewrite Hh). rewrite Hst in *.
  rewrite need_snoc in Hfit. cbn [snd] in Hfit. fold n in Hfit. set (m := Z.of_nat (length (concat reads))) in *.
  pose proof (cost_mono (16 * (n + 2)) (16 * (n + 3)) ltac:(lia)). pose proof (cost_mono 0 m ltac:(unfold m; lia)).
  destruct (ialloc_ok s v N T_FILE Hb ltac:(unfold NINODES; fold i; lia) ltac:(done)) as (s1 & v1 & E1 & Hb1 & Hfb1 & Hfi1 & Hk1). fold i in E1, Hb1, Hfi1.
  set (N1 := upd N i (file_di T_FILE)) in *.
  assert (Hold : forall j, 1 <= j < i -> N1 j = N j /\ fcontent v1 (N j) = fcontent v (N j)).
  { intros j Hj. destruct (built_inum _ _ _ _ Hb Hj) as [Hjn _]. destruct (bt_used _ _ _ Hb j Hj) as [Htj _]. unfold N1. rewrite upd_ne by lia. split; [done|].
    eapply keeps_content; [apply Hb|done..|by apply Hk1]. }
  destruct (Hold 1 ltac:(lia)) as [HN1 Hc1].
  assert (Hs1 : di_size (N1 1) = 16 * (n + 2)).
  { rewrite HN1, (content_size s v N 1 _ Hb ltac:(fold i; lia) Hrc). unfold n. apply length_dir_bytes. }
  set (de := mk_dirent (stored_name a) i). assert (Hde : Z.of_nat (length de) = 16) by (unfold de; by rewrite length_dirent).
  destruct (iappend_appends s1 v1 N1 1 de Hb1 ltac:(lia)) as (s2 & v2 & N2 & E2 & H2).
  { rewrite Hs1, Hde. change (MAXFILE * BSIZE) with 274432. lia. }
  { rewrite Hs1, Hde. replace (16 * (n + 2) + 16) with (16 * (n + 3)) by lia. lia. }
  destruct (ap_later _ _ _ _ _ _ _ _ H2) as [Hl2 Hf2]. rewrite Hs1, Hde in Hl2. replace (16 * (n + 2) + 16) with (16 * (n + 3)) in Hl2 by lia.
  destruct (ap_others _ _ _ _ _ _ _ _ H2 i ltac:(lia) ltac:(lia)) as [HNi Hci].
  assert (HN1i : N1 i = file_di T_FILE) by (unfold N1; apply upd_eq). rewrite HN1i in HNi, Hci.
  destruct (add_chunks_ok reads s2 v2 N2 i (ap_built _ _ _ _ _ _ _ _ H2) ltac:(lia) Hne) as (s3 & v3 & N3 & E3 & H3).
  { by rewrite HNi. }
  { rewrite HNi. change (di_size (file_di T_FILE)) with 0. rewrite Z.add_0_l. change (cost 0) with 0. fold m. lia. }
  destruct (ap_later _ _ _ _ _ _ _ _ H3) as [Hl3 Hf3]. rewrite HNi in Hl3. change (di_size (file_di T_FILE)) with 0 in Hl3.
  rewrite Z.add_0_l in Hl3. change (cost 0) with 0 in Hl3. fold m in Hl3.
  assert (Hlater : forall j, 1 < j < i -> N3 j = N j /\ fcontent v3 (N j) = fcontent v (N j)).
  { intros j Hj. destruct (Hold j ltac:(lia)) as [Ea Eb], (ap_others _ _ _ _ _ _ _ _ H2 j ltac:(lia) ltac:(lia)) as [Ec Ed], (ap_others _ _ _ _ _ _ _ _ H3 j ltac:(lia) ltac:(lia)) as [Ee Ef].
    rewrite Ec, Ea in Ee, Ef. rewrite Ea in Ed. split; congruence. }
  destruct (ap_others _ _ _ _ _ _ _ _ H3 1 ltac:(lia) ltac:(lia)) as [E31 Ec31].
  exists s3, v3, N3. split.
  - unfold add_file. rewrite bool_decide_eq_true_2 by done. unfold assert_ at 1. rewrite (bind_ret _ tt _ s) by done. rewrite Hh. cbn zeta. fold (stored_name a).
    apply Z.leb_le in Hnm. rewrite Hnm. unfold assert_. rewrite (bind_ret _ tt _ s) by done. rewrite (bind_ret _ _ _ _ _ E1), xshort_small by lia. fold de.
    by rewrite (bind_ret _ _ _ _ _ E2).
  - split.
    + apply H3.
    + rewrite length_app. cbn [length]. unfold n in *. lia.
    + rewrite need_snoc. cbn [snd]. fold n m. lia.
    + change ROOTINO with 1. destruct (ap_node _ _ _ _ _ _ _ _ H2) as [Et En]. rewrite E31, Et, En, HN1. split_and!; [done..|].
      rewrite Ec31, (ap_content _ _ _ _ _ _ _ _ H2), HN1, Hc1, Hrc, dir_bytes_snoc. cbn [fst]. fold n. unfold de. by rewrite Hfi.
    + intros k f Hf. destruct (decide (k < length fs)%nat) as [Hk|Hk].
      * rewrite lookup_app_l in Hf by done. destruct (Hlater (Z.of_nat k + 2) ltac:(unfold n in *; lia)) as [-> ->]. by apply Hfs.
      * rewrite lookup_app_r in Hf by lia. apply list_lookup_singleton_Some in Hf as [Hk0 <-]. replace (Z.of_nat k + 2) with i by (unfold n in *; lia).
        destruct (ap_node _ _ _ _ _ _ _ _ H3) as [Et En]. rewrite Et, En, HNi. split_and!; [done..|].
        rewrite (ap_content _ _ _ _ _ _ _ _ H3), HNi, Hci. done.
Qed.

(** The arguments that make an image: files that can be read, names that the
    file system can hold and tell apart, and room for everything.  The last
    block of the root directory must not be full as well: see [root_hole]. *)
Definition root_size (args : list (list Z)) : Z := 16 * (Z.of_nat (length args) + 2).
Record fits (h : host) (args : list (list Z)) : Prop := {
  ft_read : forall a, a ∈ args -> exists reads : list (list Z), h a = Some reads /\ Forall (fun c => c <> []) reads /\
    Z.of_nat (length (concat reads)) <= MAXFILE * BSIZE;
  ft_name : forall a, a ∈ args -> (47 ∉ shortname a) /\ Z.of_nat (length (stored_name a)) <= DIRSIZ /\ Forall (fun c => c <> 0) (stored_name a);
  ft_uniq : NoDup ([[46]; [46; 46]] ++ (stored_name <$> args));
  ft_inodes : Z.of_nat (length args) + 2 <= NINODES;
  ft_blocks : dstart the_sb + need (stored h <$> args) <= FSSIZE
}.

Lemma sum_mono l l' : 0 <= foldr (fun (f : list Z * list Z) n => cost (Z.of_nat (length (snd f))) + n) 0 l <=
  foldr (fun (f : list Z * list Z) n => cost (Z.of_nat (length (snd f))) + n) 0 (l ++ l').
Proof.
  induction l as [|f l IH]; cbn [app foldr].
  - split; [lia|]. induction l' as [|f l IH]; cbn; [lia|]. pose proof (cost_mono 0 (Z.of_nat (length (snd f)))). lia.
  - pose proof (cost_mono 0 (Z.of_nat (length (snd f)))). lia.
Qed.

Lemma need_mono fs fs' : need fs <= need (fs ++ fs').
Proof.
  unfold need. pose proof (sum_mono fs fs'). rewrite length_app.
  pose proof (cost_mono (16 * (Z.of_nat (length fs) + 2)) (16 * (Z.of_nat (length fs + length fs') + 2))). lia.
Qed.

Lemma add_files_ok h args : forall s v N fs, holds s v N fs -> 
  (forall a, a ∈ args -> exists reads : list (list Z), h a = Some reads /\ Forall (fun c => c <> []) reads /\
    Z.of_nat (length (concat reads)) <= MAXFILE * BSIZE) ->
  (forall a, a ∈ args -> (47 ∉ shortname a) /\ Z.of_nat (length (stored_name a)) <= DIRSIZ) ->
  Z.of_nat (length fs + length args) + 2 <= NINODES -> dstart the_sb + need (fs ++ (stored h <$> args)) <= FSSIZE ->
  exists s' v' N', add_files h ROOTINO args s = Ret tt s' /\ holds s' v' N' (fs ++ (stored h <$> args)).
Proof.
  induction args as [|a args IH]; intros s v N fs Hh Hrd Hnm Hno Hfit.
  { exists s, v, N. rewrite app_nil_r. done. }
  rewrite fmap_cons, cons_middle, app_assoc in *. cbn [length] in Hno.
  destruct (Hrd a ltac:(left)) as (reads & Ha & Hne & Hmx), (Hnm a ltac:(left)) as [Hsl Hlen].
  pose proof (need_mono (fs ++ [stored h a]) (stored h <$> args)).
  destruct (add_file_ok h s v N fs a reads Hh Ha Hne Hsl Hlen Hmx) as (s1 & v1 & N1 & E1 & H1); [lia..|].
  destruct (IH s1 v1 N1 _ H1) as (s2 & v2 & N2 & E2 & H2).
  { intros b Hb. apply Hrd. by right. } { intros b Hb. apply Hnm. by right. } { rewrite length_app. cbn [length]. lia. } { done. }
  exists s2, v2, N2. split; [|done]. cbn [add_files]. by rewrite (bind_ret _ _ _ _ _ E1).
Qed.

(** ** The start *)

(** The disk after the blocks have been cleared and the superblock written. *)
Definition first_disk (b : Z) : list Z :=
  if b =? sb_bmapstart the_sb then used_bits (dstart the_sb) else if b =? 1 then sb_block the_sb else zeros.

Lemma le_at_zeros o n : le_at zeros o n = 0.
Proof.
  #[local] Transparent zeros. unfold le_at.
  assert (Hz : forall i, default 0 (zeros !! Z.to_nat i) = 0).
  { intros i. destruct (zeros !! Z.to_nat i) eqn:He; [|done]. by apply lookup_replicate in He as [-> _]. }
  rewrite (load_ext n _ (fun _ => 0)) by (intros; apply Hz). clear Hz. revert o. induction n as [|n IH]; intros o; [done|].
  change (0 + 256 * load n (fun _ => 0) (o + 1) = 0). by rewrite IH.
Qed.
#[local] Opaque zeros.

Lemma first_inode i : inum_ok the_sb i -> get_inode the_sb first_disk i = new_di 0.
Proof.
  intros Hi. destruct (iblock_ib _ _ the_sb_ok i Hi) as [[Hlo Hhi] _]. unfold get_inode, first_disk.
  change (sb_inodestart the_sb) with 33 in Hlo. apply Z.lt_neq, Z.eqb_neq in Hhi as ->. destruct (Z.eqb_spec (IBLOCK i the_sb) 1); [lia|].
  unfold get_dinode. rewrite !le_at_zeros. unfold new_di. f_equal. rewrite (list_fmap_ext _ (fun _ => 0)); [done|]. intros. apply le_at_zeros.
Qed.

Lemma length_sb_block sb : length (sb_block sb) = Z.to_nat BSIZE.
Proof.
  #[local] Transparent sb_block. unfold sb_block. cbn [foldl]. rewrite !length_set_le. apply length_replicate.
Qed.
#[local] Opaque sb_block.

Definition first_image (f : Z -> list Z) : image := mk_image f FSSIZE the_sb 1 (dstart the_sb).

Lemma first_built f : (forall b, 0 <= b < FSSIZE -> f b = if b =? 1 then sb_block the_sb else zeros) -> built (first_image f) first_disk (fun _ => new_di 0).
Proof.
  intros Hf. assert (Hon : on_image (first_image f) first_disk).
  { unfold first_disk. change (sb_bmapstart the_sb) with 46. split; try done; cbn [im_sectors im_freeblock first_image].
    - intros b Hb Hn. change (sb_bmapstart the_sb) with 46 in Hn. destruct (Z.eqb_spec b 46); [done|]. by apply Hf.
    - intros b Hb. change (dstart the_sb) with 47 in Hb. destruct (Z.eqb_spec b 46); [lia|]. destruct (Z.eqb_spec b 1); [lia|done].
    - intros b Hb. change (sb_inodestart the_sb) with 33 in Hb. destruct (Z.eqb_spec b 46); [lia|]. destruct (Z.eqb_spec b 1); [lia|done]. }
  split; [done| |cbn; unfold NINODES; lia|by apply first_inode|cbn; lia|done].
  assert (Hno : forall i k a, ~ owns the_sb first_disk (fun _ => new_di 0) i k a) by (intros i k a (_ & Ht & _); done).
  split.
  - intros b _. unfold first_disk, block. destruct (b =? _); [apply used_bits_ok; vm_compute; done|]. destruct (b =? 1); [apply length_sb_block|apply length_zeros].
  - intros c Hc. rewrite (sh_used _ _ _ Hon) by (change (dstart the_sb) with 47 in Hc; unfold FSSIZE; lia). cbn [im_freeblock first_image]. apply Z.ltb_lt. lia.
  - intros i _. by apply new_di_ok.
  - intros i k a Ho. by apply Hno in Ho.
  - intros i k j l a Ho. by apply Hno in Ho.
  - done.
Qed.

Lemma returns_step {St A B} (m : M St A) (k : A -> M St B) s a s' Q : m s = Ret a s' -> returns (k a s') Q -> returns (bind m k s) Q.
Proof. intros E. by rewrite (bind_ret _ _ _ _ _ E). Qed.
Lemma returns_eq {St A} (o : outcome St A) Q : returns o Q -> exists a s, o = Ret a s /\ Q a s.
Proof. destruct o; cbn; try contradiction. eauto. Qed.

Lemma set_up_ok s : im_len s = 0 -> im_freeinode s = 1 ->
  exists f, set_up s = Ret tt (first_image f) /\ forall b, 0 <= b < FSSIZE -> f b = if b =? 1 then sb_block the_sb else zeros.
Proof.
  intros Hl Hfi. unfold set_up. rewrite (bind_ret _ tt _ (put_super the_sb s)) by done.
  set (s0 := put_freeblock (2 + nlog + ninodeblocks + nbitmap) (put_super the_sb s)). rewrite (bind_ret _ tt _ s0) by done.
  pose (I := fun j s => im_len s = j /\ im_sb s = the_sb /\ im_freeinode s = 1 /\ im_freeblock s = dstart the_sb /\ forall b, 0 <= b < j -> im_sectors s b = zeros).
  pose proof (for_loop_returns I (Z.to_nat FSSIZE) 0 (fun i => wsect i (replicate (Z.to_nat BSIZE) 0)) s0) as Hfor.
  unshelve epose proof (returns_eq _ _ (Hfor _ _)) as ([] & s1 & E & Hi); clear Hfor.
  { split_and!; try done. lia. }
  { intros j s' Hj (H1 & H2 & H3 & H4 & H5). unfold wsect. rewrite sector by (unfold FSSIZE in *; lia). cbn. split_and!; cbn; try done; [lia|].
    intros b Hb. unfold upd. destruct (Z.eqb_spec b j); [done|]. apply H5. lia. }
  rewrite Z2Nat.id, Z.add_0_l in Hi by done. destruct Hi as (H1 & H2 & H3 & H4 & H5).
  exists (upd (im_sectors s1) 1 (sb_block the_sb)). split.
  - rewrite (bind_ret _ _ _ _ _ E). unfold wsect, modify, first_image, put_file. rewrite sector by done. f_equal.
    by rewrite H1, H2, H3, H4.
  - intros b Hb. unfold upd. destruct (Z.eqb_spec b 1); [done|]. by apply H5.
Qed.

Lemma make_root_ok s v : built s v (fun _ => new_di 0) -> im_freeinode s = 1 -> im_freeblock s = dstart the_sb ->
  exists s' v' N', make_root s = Ret ROOTINO s' /\ holds s' v' N' [].
Proof.
  intros Hb Hfi Hfb. destruct (ialloc_ok s v _ T_DIR Hb ltac:(rewrite Hfi; done) ltac:(done)) as (s1 & v1 & E1 & Hb1 & Hfb1 & Hfi1 & _). rewrite Hfi in *.
  set (N1 := upd (fun _ => new_di 0) 1 (file_di T_DIR)) in *. assert (HN1 : N1 1 = file_di T_DIR) by apply upd_eq. change (dstart the_sb) with 47 in *.
  destruct (iappend_appends s1 v1 N1 1 (mk_dirent [46] 1) Hb1 ltac:(lia)) as (s2 & v2 & N2 & E2 & H2).
  { rewrite HN1, length_dirent. done. } { rewrite HN1, length_dirent, Hfb1, Hfb. done. }
  destruct (ap_later _ _ _ _ _ _ _ _ H2) as [Hl2 Hf2]. pose proof (ap_size _ _ _ _ _ _ _ _ H2) as Hs2. rewrite HN1, length_dirent in Hl2, Hs2.
  change (cost (di_size (file_di T_DIR) + Z.of_nat 16) - cost (di_size (file_di T_DIR))) with 1 in Hl2. change (di_size (file_di T_DIR) + Z.of_nat 16) with 16 in Hs2.
  destruct (iappend_appends s2 v2 N2 1 (mk_dirent [46; 46] 1) (ap_built _ _ _ _ _ _ _ _ H2) ltac:(lia)) as (s3 & v3 & N3 & E3 & H3).
  { rewrite Hs2, length_dirent. done. } { rewrite Hs2, length_dirent, Hl2, Hfb1, Hfb. done. }
  destruct (ap_later _ _ _ _ _ _ _ _ H3) as [Hl3 Hf3]. rewrite Hs2, length_dirent in Hl3. change (cost (16 + Z.of_nat 16) - cost 16) with 0 in Hl3.
  exists s3, v3, N3. split.
  - unfold make_root. rewrite (bind_ret _ _ _ _ _ E1). change (1 =? ROOTINO) with true. unfold assert_. rewrite (bind_ret _ tt _ s1) by done.
    change (xshort 1) with 1. rewrite (bind_ret _ _ _ _ _ E2). by rewrite (bind_ret _ _ _ _ _ E3).
  - destruct (ap_node _ _ _ _ _ _ _ _ H2) as [Ta Na], (ap_node _ _ _ _ _ _ _ _ H3) as [Tb Nb]. split; try done.
    + apply H3.
    + cbn [length]. lia.
    + change (need []) with 1. change (dstart the_sb) with 47. lia.
    + change ROOTINO with 1. rewrite Tb, Ta, Nb, Na, HN1. split_and!; try done.
      rewrite (ap_content _ _ _ _ _ _ _ _ H3), (ap_content _ _ _ _ _ _ _ _ H2), HN1. done.
Qed.

(** ** The root directory *)

(** The directory with [z] more bytes of zeros. *)
Definition padded (fs : list (list Z * list Z)) (z : nat) : list Z := dir_bytes fs ++ replicate z 0.

Lemma take_drop_concat (ds : list (list Z)) k d r : Forall (fun x => length x = 16%nat) ds -> ds !! k = Some d -> take 16 (drop (16 * k) (concat ds ++ r)) = d.
Proof.
  intros Hl. revert k. induction Hl as [|x ds Hx Hl IH]; intros k; [done|]. destruct k as [|k]; cbn [lookup list_lookup concat].
  - intros [= ->]. rewrite Nat.mul_0_r, drop_0, <- app_assoc. by rewrite take_app_length'.
  - intros Hk. rewrite <- app_assoc. replace (16 * S k)%nat with (length x + 16 * k)%nat by lia. rewrite drop_app_add'; [by apply IH|done].
Qed.

Section Root.
Variables (fs : list (list Z * list Z)) (z : nat).
Hypotheses (Hz : Z.of_nat (length (dir_bytes fs) + z) mod 16 = 0) (Hfew : Z.of_nat (length fs) + 2 <= NINODES).
Hypothesis Hnames : forall e, e ∈ entries fs -> Forall (fun c => c <> 0) (fst e) /\ Z.of_nat (length (fst e)) <= DIRSIZ.
Hypothesis Huniq : NoDup (fst <$> entries fs).
Abbreviation c := (padded fs z).

Lemma entry_inum k nm j : entries fs !! k = Some (nm, j) -> j = (if decide (k < 2)%nat then 1 else Z.of_nat k) /\ (k < length fs + 2)%nat.
Proof using Type.
  clear Hz Hfew Hnames Huniq. intros He. apply lookup_lt_Some in He as Hlt. rewrite length_entries in Hlt. split; [|done]. unfold entries in He.
  destruct k as [|[|k]]; [by injection He as <- <-..|]. change (imap (fun k (f : list Z * list Z) => (fst f, Z.of_nat k + 2)) fs !! k = Some (nm, j)) in He.
  rewrite list_lookup_imap in He. destruct (fs !! k) as [f|]; [|done].
  injection He as <- <-. rewrite decide_False by lia. lia.
Qed.

Lemma root_shape : dir_shape c /\ Z.of_nat (length fs) + 2 <= dents c.
Proof using Hz.
  clear -Hz. unfold dir_shape, dents, padded. rewrite length_app, length_replicate. split; [done|]. pose proof (length_dir_bytes fs). zlia.
Qed.

Lemma root_dent k nm j : entries fs !! k = Some (nm, j) -> dent c (Z.of_nat k) = mk_dirent nm j.
Proof using Type.
  clear Hz Hfew Hnames Huniq. intros He. unfold dent, padded, dir_bytes. replace (Z.to_nat (16 * Z.of_nat k)) with (16 * k)%nat by lia. apply take_drop_concat.
  - apply Forall_fmap, Forall_true. intros. apply length_dirent.
  - by rewrite list_lookup_fmap, He.
Qed.

Lemma root_rest k : Z.of_nat (length fs) + 2 <= k -> de_inum (dent c k) = 0.
Proof using Type.
  clear Hz Hfew Hnames Huniq. intros Hk. unfold dent, padded. pose proof (length_dir_bytes fs). rewrite drop_app_ge by lia. rewrite drop_replicate, take_replicate.
  unfold de_inum, le_at. assert (Hr : forall n i, default 0 (replicate n 0 !! Z.to_nat i) = 0).
  { intros n i. destruct (_ !! _) eqn:E; [by apply lookup_replicate in E as [-> _]|done]. }
  rewrite (load_ext 2 _ (fun _ => 0)) by (intros; apply Hr). done.
Qed.

(** The entries in use are the given ones. *)
Lemma root_live k : live c k <-> exists n nm j, k = Z.of_nat n /\ entries fs !! n = Some (nm, j).
Proof using Hz Hfew.
  unfold NINODES in Hfew. destruct root_shape as [_ Hd]. split.
  - intros [Hr Hi]. destruct (decide (Z.to_nat k < length (entries fs))%nat) as [Hlt|Hge].
    + destruct (lookup_lt_is_Some_2 _ _ Hlt) as [[nm j] He]. exists (Z.to_nat k), nm, j. split; [lia|done].
    + rewrite length_entries in Hge. by rewrite root_rest in Hi by lia.
  - intros (n & nm & j & -> & He). destruct (entry_inum _ _ _ He) as [Hj Hn]. split; [lia|]. rewrite (root_dent _ _ _ He), dirent_inum.
    + rewrite Hj. case_decide; lia.
    + rewrite Hj. case_decide; lia.
Qed.

Lemma root_entry n nm j : entries fs !! n = Some (nm, j) ->
  live c (Z.of_nat n) /\ de_inum (dent c (Z.of_nat n)) = j /\ dname (de_name (dent c (Z.of_nat n))) = nm /\ dname nm = nm.
Proof using Hz Hfew Hnames.
  intros He. unfold NINODES in Hfew. destruct (entry_inum _ _ _ He) as [Hj Hn].
  destruct (Hnames (nm, j)) as [Hnz Hlen]; [by eapply list_elem_of_lookup_2|]. cbn [fst] in *.
  assert (Hdn : dname nm = nm). { unfold dname. rewrite cname_plain by done. apply take_ge. unfold DIRSIZ in *. lia. }
  rewrite (root_dent _ _ _ He), dirent_name, dirent_inum, Hdn by (done || rewrite Hj; case_decide; lia).
  split_and!; try done. apply root_live. eauto.
Qed.

Lemma root_ok : dir_ok c.
Proof using Hz Hfew Hnames Huniq.
  split; [apply root_shape|]. intros k k' (n & nm & j & -> & He)%root_live (n' & nm' & j' & -> & He')%root_live.
  destruct (root_entry _ _ _ He) as (_ & _ & -> & _), (root_entry _ _ _ He') as (_ & _ & -> & _). intros <-. f_equal.
  eapply (NoDup_lookup _ _ _ nm Huniq); rewrite list_lookup_fmap; [rewrite He|rewrite He']; done.
Qed.

(** What a lookup in the directory finds. *)
Lemma root_lookup name j : (exists off, dlook c name = Some (j, off)) <-> (dname name, j) ∈ entries fs.
Proof using Hz Hfew Hnames Huniq.
  rewrite list_elem_of_lookup. split.
  - intros [off (k & _ & (n & nm & j' & -> & He)%root_live & Hj & Hn)%dlook_Some]. destruct (root_entry _ _ _ He) as (_ & Hi & Hnm & _).
    exists n. congruence.
  - intros [n He]. destruct (root_entry _ _ _ He) as (Hl & Hi & Hn & _). exists (16 * Z.of_nat n). apply (dlook_iff _ _ _ _ root_ok). eauto.
Qed.
End Root.

(** ** The end *)

(** The zeros after the content become part of it. *)
Lemma content_padded v di sz sz' : di_size di = sz -> 0 <= sz <= sz' -> zero_tail v di sz ->
  (forall n, 0 <= n -> n * BSIZE < sz' -> n < MAXFILE /\ blk v di n <> 0) ->
  fcontent v (set_size sz' di) = fcontent v di ++ replicate (Z.to_nat (sz' - sz)) 0.
Proof.
  intros Hsz Hle Hz Hb. assert (Hc : forall n, bytes_between v (set_size sz' di) 0 n = bytes_between v di 0 n) by done.
  unfold fcontent. rewrite Hc. cbn [di_size set_size]. rewrite Hsz. replace sz' with (sz + (sz' - sz)) at 1 by lia. rewrite bytes_app by lia. f_equal.
  rewrite Z.add_0_l. unfold bytes_between. apply list_eq. intros k. rewrite list_lookup_fmap.
  destruct (decide (k < Z.to_nat (sz' - sz))%nat) as [Hk|Hk].
  - rewrite lookup_seqZ_lt, lookup_replicate_2 by lia. cbn [fmap option_fmap option_map]. f_equal.
    assert (Hp : 0 <= (sz + Z.of_nat k) / BSIZE /\ (sz + Z.of_nat k) / BSIZE * BSIZE < sz') by (unfold BSIZE; zlia).
    destruct (Hb _ (proj1 Hp) (proj2 Hp)). apply Hz; [lia|done|done].
  - rewrite lookup_seqZ_ge by lia. symmetry. apply lookup_ge_None_2. rewrite length_replicate. lia.
Qed.

Lemma fix_root_ok s v N fs : holds s v N fs -> (16 * (Z.of_nat (length fs) + 2)) mod BSIZE <> 0 -> Z.of_nat (length fs) + 2 <= NINODES ->
  exists s' v' N' z, fix_root_size ROOTINO s = Ret tt s' /\ on_image s' v' /\ wf v' N' /\ (forall i, inum_ok the_sb i -> get_inode the_sb v' i = N' i) /\
    fcontent v' (N' ROOTINO) = padded fs z /\ Z.of_nat (length (dir_bytes fs) + z) mod 16 = 0 /\
    di_type (N' ROOTINO) = T_DIR /\ di_nlink (N' ROOTINO) = 1 /\ im_freeblock s' = im_freeblock s /\
    (forall j, j <> ROOTINO -> N' j = N j) /\ (forall j, 1 < j < im_freeinode s -> fcontent v' (N j) = fcontent v (N j)).
Proof.
  intros [Hb Hfi Hfb (Hrt & Hrn & Hrc) Hfs] Hmod Hfew. change ROOTINO with 1 in *. unfold NINODES in Hfew.
  assert (H1 : 1 <= 1 < im_freeinode s) by lia. destruct (built_inum _ _ _ _ Hb H1) as [Hin _]. destruct (bt_used _ _ _ Hb 1 H1) as (Hty & Htt & Hz).
  pose proof (content_size s v N 1 _ Hb H1 Hrc) as Hsz. rewrite length_dir_bytes in Hsz. set (sz := 16 * (Z.of_nat (length fs) + 2)) in *.
  assert (Hszr : 32 <= sz <= 3200) by (unfold sz; lia). set (sz' := (sz / BSIZE + 1) * BSIZE).
  assert (Hsz' : sz <= sz' <= 4096 /\ sz' mod 16 = 0 /\ sz' = blocks_of sz * BSIZE) by (unfold sz', blocks_of, BSIZE in *; zlia). destruct Hsz' as (Hr' & Hm' & Hbl').
  assert (Hbk : forall n, 0 <= n -> n * BSIZE < sz' -> n < MAXFILE /\ blk v (N 1) n <> 0).
  { intros n Hn Hlt. rewrite Hbl' in Hlt. assert (n < blocks_of sz) by (unfold BSIZE in Hlt; lia). assert (blocks_of sz <= 4) by (unfold blocks_of, BSIZE; zlia).
    change MAXFILE with 268. split; [lia|]. apply Htt; [apply bslot_range; change MAXFILE with 268; lia|]. unfold cost. rewrite Hsz. apply slots_lt. lia. }
  pose proof (wf_resize the_sb mkfs_env v N 1 sz' (bt_wf _ _ _ Hb) Hin ltac:(change (MAXFILE * BSIZE) with 274432; lia) ltac:(intros; by apply Hbk)) as Hw1.
  set (di := set_size sz' (N 1)) in *. destruct (wf_iupd the_sb mkfs_env the_sb_ok v _ 1 di Hw1 Hin) as [Hw2 Hk2].
  destruct (winode_ok s v 1 di (bt_shows _ _ _ Hb) Hin) as (s' & E & Hs' & [Hl' _]). rewrite Z.add_0_r in Hl'.
  exists s', (v_iupd the_sb v 1 di), (upd N 1 di), (Z.to_nat (sz' - sz)). rewrite upd_eq. split_and!; try done.
  - unfold fix_root_size. rewrite (bind_ret _ _ _ _ _ (rinode_ok s v 1 (bt_shows _ _ _ Hb) Hin)), (bt_nodes _ _ _ Hb 1 Hin). cbn zeta.
    rewrite Hsz, (xint_small sz) by lia. fold sz'. rewrite u32_small, xint_small by lia. exact E.
  - intros i Hi. pose proof (fw_di _ _ _ _ Hw1 1 Hin) as Hdi. rewrite upd_eq in Hdi.
    rewrite (get_inode_iupd the_sb mkfs_env the_sb_ok v 1 di i (fw_blocks _ _ _ _ (bt_wf _ _ _ Hb)) Hin Hi Hdi).
    unfold upd. destruct (i =? 1); [done|]. by apply (bt_nodes _ _ _ Hb).
  - pose proof (keeps_content the_sb mkfs_env v (v_iupd the_sb v 1 di) (upd N 1 di) 1 Hw1 Hin) as Hc. specialize (Hk2 1 Hin). rewrite upd_eq in Hc, Hk2.
    rewrite (Hc Hty (Hk2 Hty)). unfold di, padded. rewrite (content_padded v (N 1) sz sz'), Hrc by (done || lia || by rewrite <- Hsz). done.
  - replace (Z.of_nat (length (dir_bytes fs) + Z.to_nat (sz' - sz))) with sz'; [done|]. pose proof (length_dir_bytes fs). fold sz in H. lia.
  - intros j Hj. by rewrite upd_ne.
  - intros j Hj. assert (Hj' : 1 <= j < im_freeinode s) by lia. destruct (built_inum _ _ _ _ Hb Hj') as [Hjn _]. destruct (bt_used _ _ _ Hb j Hj') as [Htj _].
    specialize (Hk2 j Hjn). rewrite upd_ne in Hk2 by lia. eapply keeps_content; [apply Hb|done..|]. by apply Hk2.
Qed.

(** The disk that the machine sees: the image, and nothing after its end. *)
Definition im_disk (s : image) (b : Z) : list Z := if (0 <=? b) && (b <? im_len s) then im_sectors s b else zeros.

Lemma on_image_done s v : on_image s v -> exists s', balloc (im_freeblock s) s = Ret tt s' /\ im_len s' = FSSIZE /\ forall b, im_disk s' b = v b.
Proof.
  intros Hs. pose proof (sh_fb _ _ Hs) as Hf. change (dstart the_sb) with 47 in Hf. unfold FSSIZE in Hf.
  eexists. split; [|split].
  - unfold balloc. assert (Hlt : (im_freeblock s <? BPB) = true) by (apply Z.ltb_lt; unfold BPB, BSIZE; lia). rewrite Hlt.
    unfold assert_. rewrite (bind_ret _ tt _ s) by done. unfold bind, gets. rewrite (sh_sb _ _ Hs). unfold wsect. rewrite sector by done. reflexivity.
  - cbn. by rewrite (sh_len _ _ Hs).
  - intros b. unfold im_disk. cbn [im_len im_sectors put_file]. rewrite (sh_len _ _ Hs). change (sb_bmapstart the_sb) with 46. unfold FSSIZE.
    change (2000 `max` (46 + 1)) with 2000. destruct (Z.leb_spec 0 b); cbn [andb]; [|symmetry; apply (sh_fresh _ _ Hs); lia].
    destruct (Z.ltb_spec b 2000); [|symmetry; apply (sh_fresh _ _ Hs); lia]. unfold upd. destruct (Z.eqb_spec b 46) as [->|]; [symmetry; apply (sh_map _ _ Hs)|].
    apply (sh_view _ _ Hs); [unfold FSSIZE; lia|done].
Qed.

(** A disk with one directory that names every file once is consistent. *)
Section Image.
Variables (v : Z -> list Z) (N : Z -> dinode) (fs : list (list Z * list Z)) (z : nat).
Hypotheses (Hz : Z.of_nat (length (dir_bytes fs) + z) mod 16 = 0) (Hfew : Z.of_nat (length fs) + 2 <= NINODES).
Hypothesis Hnames : forall e, e ∈ entries fs -> Forall (fun c => c <> 0) (fst e) /\ Z.of_nat (length (fst e)) <= DIRSIZ.
Hypothesis Huniq : NoDup (fst <$> entries fs).
Hypotheses (Hroot : di_type (N ROOTINO) = T_DIR /\ di_nlink (N ROOTINO) = 1) (Hcontent : fcontent v (N ROOTINO) = padded fs z).
Hypothesis Hfiles : forall k f, fs !! k = Some f -> di_type (N (Z.of_nat k + 2)) = T_FILE /\ di_nlink (N (Z.of_nat k + 2)) = 1.
Hypothesis Hfree : forall i, inum_ok the_sb i -> i = 0 \/ Z.of_nat (length fs) + 2 <= i -> di_type (N i) = 0.

Lemma image_node i : inum_ok the_sb i -> di_type (N i) <> 0 -> i = ROOTINO \/ exists k f, fs !! k = Some f /\ i = Z.of_nat k + 2.
Proof using Hfree.
  clear Hz. intros Hi Ht. change ROOTINO with 1. destruct (decide (i = 0 \/ Z.of_nat (length fs) + 2 <= i)) as [Hf|Hf]; [by rewrite Hfree in Ht|].
  destruct (Z.eq_dec i 1) as [|Hne]; [by left|right]. destruct Hi as [Hi _].
  destruct (lookup_lt_is_Some_2 fs (Z.to_nat (i - 2))) as [f Hf']; [lia|]. exists (Z.to_nat (i - 2)), f. split; [done|lia].
Qed.

Lemma image_dir i : is_dir the_sb N i <-> i = ROOTINO.
Proof using Hroot Hfiles Hfree.
  split.
  - intros [(Hi & Ht & _) Hd]. destruct (image_node i Hi Ht) as [|(k & f & Hk & ->)]; [done|]. destruct (Hfiles k f Hk) as [E _]. by rewrite E in Hd.
  - intros ->. destruct Hroot as [Ht Hn]. unfold is_dir, node_ok. rewrite Ht, Hn. done.
Qed.

Lemma image_fsck : fsck the_sb v N.
Proof using Hz Hfew Hnames Huniq Hroot Hcontent Hfiles Hfree.
  assert (Hrd : is_dir the_sb N ROOTINO) by (by apply image_dir). split; [split|].
  - done.
  - intros i ->%image_dir. rewrite Hcontent. by apply root_ok.
  - intros i k ->%image_dir. rewrite Hcontent. intros (n & nm & j & -> & He)%root_live; [|done..]. destruct (root_entry fs z Hz Hfew Hnames _ _ _ He) as (_ & -> & _ & _).
    destruct (entry_inum _ _ _ _ He) as [-> Hn]. case_decide as H2; [apply Hrd|].
    destruct (lookup_lt_is_Some_2 fs (n - 2)) as [f Hf]; [lia|]. destruct (Hfiles _ _ Hf) as [Et En]. replace (Z.of_nat (n - 2) + 2) with (Z.of_nat n) in * by lia.
    unfold node_ok. rewrite Et, En. split_and!; [|done|done]. unfold NINODES in Hfew. split; [lia|]. change (sb_ninodes the_sb) with 200. lia.
  - intros j Hj Ht Hd. destruct (image_node j Hj Ht) as [->|(k & f & Hk & ->)]; [by destruct Hrd|]. destruct (Hfiles k f Hk) as [_ En].
    exists {[(ROOTINO, Z.of_nat k + 2)]}. split; [|by rewrite size_singleton, En]. intros i x. rewrite elem_of_singleton, image_dir. split.
    + intros [= -> ->]. split; [done|]. rewrite Hcontent.
      assert (He : entries fs !! (k + 2)%nat = Some (fst f, Z.of_nat k + 2)).
      { replace (k + 2)%nat with (S (S k)) by lia. change (imap (fun k (f : list Z * list Z) => (fst f, Z.of_nat k + 2)) fs !! k = Some (fst f, Z.of_nat k + 2)).
        by rewrite list_lookup_imap, Hk. }
      destruct (root_entry fs z Hz Hfew Hnames _ _ _ He) as (Hl & Hi & _ & _). replace (Z.of_nat (k + 2)) with (Z.of_nat k + 2) in * by lia. done.
    + intros (-> & Hl & Hi). rewrite Hcontent in Hl, Hi. apply root_live in Hl as (n & nm & j & -> & He); [|done..].
      destruct (root_entry fs z Hz Hfew Hnames _ _ _ He) as (_ & Hi' & _ & _). destruct (entry_inum _ _ _ _ He) as [Ej _]. rewrite Hi', Ej in Hi.
      f_equal. case_decide; lia.
Qed.
End Image.

(** ** The program *)

Lemma names_eq h args : fst <$> entries (stored h <$> args) = [[46]; [46; 46]] ++ (stored_name <$> args).
Proof.
  unfold entries. rewrite !fmap_cons. cbn [fst app]. do 2 f_equal. rewrite fmap_imap. apply list_eq. intros k.
  rewrite list_lookup_imap, !list_lookup_fmap. by destruct (args !! k).
Qed.

Lemma entries_ok h args : fits h args -> forall e, e ∈ entries (stored h <$> args) -> Forall (fun c => c <> 0) (fst e) /\ Z.of_nat (length (fst e)) <= DIRSIZ.
Proof.
  intros Hf e He. assert (Hin : fst e ∈ [[46]; [46; 46]] ++ (stored_name <$> args)) by (rewrite <- (names_eq h); by apply list_elem_of_fmap_2).
  apply elem_of_app in Hin as [Hin|(a & -> & Ha)%list_elem_of_fmap].
  - apply elem_of_cons in Hin as [E|E%list_elem_of_singleton]; rewrite E; (split; [repeat constructor; lia|done]).
  - destruct (ft_name _ _ Hf a Ha) as (_ & ? & ?). done.
Qed.

(** What the image holds: a consistent file system whose root directory has
    the files of the command line under their names, and nothing else. *)
Record mkfs_made (h : host) (args : list (list Z)) (v : Z -> list Z) (N : Z -> dinode) : Prop := {
  mk_super : v 1 = sb_block the_sb;
  mk_log : forall b, 2 <= b < sb_inodestart the_sb -> v b = zeros;
  mk_blocks : forall b, block (v b);
  mk_wf : fs_wf the_sb mkfs_env v N;
  mk_fsck : fsck the_sb v N;
  mk_nodes : forall i, inum_ok the_sb i -> get_inode the_sb v i = N i;
  mk_used : forall c, 0 <= c < FSSIZE -> used the_sb v c = (c <? dstart the_sb + need (stored h <$> args));
  mk_linked : forall i, inum_ok the_sb i -> di_type (N i) <> 0 -> di_nlink (N i) = 1;
  mk_file : forall k a, args !! k = Some a -> let i := Z.of_nat k + 2 in
    di_type (N i) = T_FILE /\ di_nlink (N i) = 1 /\ fcontent v (N i) = concat (default [] (h a));
  mk_names : forall name j, walk v N ROOTINO [name] = Some j <->
    dname name = [46] /\ j = ROOTINO \/ dname name = [46; 46] /\ j = ROOTINO \/
    exists k a, args !! k = Some a /\ dname name = stored_name a /\ j = Z.of_nat k + 2
}.

Lemma elem_entries fs nm j : (nm, j) ∈ entries fs <->
  nm = [46] /\ j = ROOTINO \/ nm = [46; 46] /\ j = ROOTINO \/ exists k f, fs !! k = Some f /\ nm = fst f /\ j = Z.of_nat k + 2.
Proof.
  unfold entries. rewrite !elem_of_cons, elem_of_lookup_imap. split.
  - intros [H|[H|(k & f & H & Hf)]]; injection H as -> ->; eauto 10.
  - intros [[-> ->]|[[-> ->]|(k & f & Hf & -> & ->)]]; eauto 10.
Qed.

(** The program up to the end of the loop over the files. *)
Lemma main_files h img args : fits h args -> exists s v N, holds s v N (stored h <$> args) /\
  forall Q, returns ((fix_root_size ROOTINO ;;; do b <- gets im_freeblock; balloc b) s) Q -> returns (main (img :: args) true h start_image) Q.
Proof.
  intros Hf. destruct (set_up_ok start_image eq_refl eq_refl) as (f0 & E0 & Hf0). pose proof (first_built f0 Hf0) as Hb0.
  destruct (make_root_ok _ _ Hb0 eq_refl eq_refl) as (s1 & v1 & N1 & E1 & H1).
  destruct (add_files_ok h args s1 v1 N1 [] H1) as (s2 & v2 & N2 & E2 & H2).
  { exact (ft_read _ _ Hf). } { intros a Ha. destruct (ft_name _ _ Hf a Ha) as (Hsl & Hnl & _). split; assumption. }
  { exact (ft_inodes _ _ Hf). } { exact (ft_blocks _ _ Hf). }
  exists s2, v2, N2. split; [exact H2|]. intros Q HQ. unfold main. cbn [negb].
  apply (returns_step _ _ _ _ _ _ E0), (returns_step _ _ _ _ _ _ E1), (returns_step _ _ _ _ _ _ E2), HQ.
Qed.

Lemma main_ok h img args : fits h args -> root_size args mod BSIZE <> 0 -> returns (main (img :: args) true h start_image) (fun _ s =>
  im_len s = FSSIZE /\ exists v N, (forall b, im_disk s b = v b) /\ mkfs_made h args v N).
Proof.
  intros Hf Hroot. destruct (main_files h img args Hf) as (s2 & v2 & N2 & H2 & HQ). apply HQ. clear HQ. set (fs := stored h <$> args) in *.
  assert (Hlen : length fs = length args) by apply length_fmap. pose proof (ft_inodes _ _ Hf) as Hfew. rewrite <- Hlen in Hfew.
  destruct (fix_root_ok s2 v2 N2 fs H2) as (s3 & v3 & N3 & z & E3 & Hs3 & Hw3 & Hn3 & Hc3 & Hz3 & Ht3 & Hl3 & Hfb3 & Ho3 & Hk3); [rewrite Hlen; exact Hroot|done|].
  destruct (on_image_done s3 v3 Hs3) as (s4 & E4 & Hlen4 & Hd4).
  apply (returns_step _ _ _ _ _ _ E3), (returns_step _ _ s3 (im_freeblock s3) s3); [reflexivity|]. rewrite E4. clear E3 E4. split; [done|]. exists v3, N3. split; [done|].
  destruct H2 as [Hb2 Hfi2 Hfb2 _ Hfs2].
  assert (Hfile : forall k f, fs !! k = Some f -> N3 (Z.of_nat k + 2) = N2 (Z.of_nat k + 2) /\ fcontent v3 (N2 (Z.of_nat k + 2)) = fcontent v2 (N2 (Z.of_nat k + 2))).
  { intros k f Hk. apply lookup_lt_Some in Hk. split; [apply Ho3; change ROOTINO with 1; lia|apply Hk3; lia]. }
  assert (Hreg : forall k f, fs !! k = Some f -> di_type (N3 (Z.of_nat k + 2)) = T_FILE /\ di_nlink (N3 (Z.of_nat k + 2)) = 1).
  { intros k f Hk. destruct (Hfile k f Hk) as [-> _]. destruct (Hfs2 k f Hk) as (-> & -> & _). done. }
  assert (Hfree : forall i, inum_ok the_sb i -> i = 0 \/ Z.of_nat (length fs) + 2 <= i -> di_type (N3 i) = 0).
  { intros i Hi Hor. rewrite Ho3 by (change ROOTINO with 1; lia). by rewrite (bt_free _ _ _ Hb2 i Hi) by lia. }
  assert (Huniq : NoDup (fst <$> entries fs)) by (unfold fs; rewrite names_eq; apply Hf).
  pose proof (entries_ok h args Hf) as Hnm. fold fs in Hnm.
  split; [exact (sh_super _ _ Hs3)|exact (sh_log _ _ Hs3)| |exact Hw3| |exact Hn3| | | |].
  - intros b. pose proof (sh_fb _ _ Hs3) as Hfb. unfold FSSIZE in Hfb. destruct (decide (home 2 b)) as [Hh|Hh]; [by apply (fw_blocks _ _ _ _ Hw3)|].
    unfold home in Hh. change LOGBLOCKS with 30 in Hh. destruct (decide (b < 0 \/ im_freeblock s3 <= b)) as [Hout|Hin].
    + unfold block. rewrite (sh_fresh _ _ Hs3 b Hout). apply length_zeros.
    + unfold block. rewrite (sh_log _ _ Hs3 b); [apply length_zeros|]. change (sb_inodestart the_sb) with 33. lia.
  - apply (image_fsck v3 N3 fs z Hz3 Hfew Hnm Huniq (conj Ht3 Hl3) Hc3 Hreg Hfree).
  - intros c Hc. rewrite (sh_used _ _ _ Hs3) by exact Hc. by rewrite Hfb3, Hfb2.
  - intros i Hi Ht. destruct (image_node N3 fs Hfree i Hi Ht) as [->|(k & f & Hk & ->)]; [exact Hl3|apply (Hreg k f Hk)].
  - intros k a Ha i. assert (Hk : fs !! k = Some (stored h a)) by (unfold fs; by rewrite list_lookup_fmap, Ha).
    destruct (Hfile k _ Hk) as [Ea Eb]. destruct (Hfs2 k _ Hk) as (Et & En & Ec). fold i in Ea, Eb, Et, En, Ec. rewrite Ea, Eb. split_and!; assumption.
  - intros name j. cbn [walk]. rewrite Ht3. change (T_DIR =? T_DIR) with true. cbv iota. rewrite Hc3.
    pose proof (root_lookup fs z Hz3 Hfew Hnm Huniq name j) as Hlk. rewrite elem_entries in Hlk.
    assert (Hex : (exists k a, args !! k = Some a /\ dname name = stored_name a /\ j = Z.of_nat k + 2) <-> exists k f, fs !! k = Some f /\ dname name = fst f /\ j = Z.of_nat k + 2).
    { unfold fs. split.
      - intros (k & a & Ha & Hn & Hj). exists k, (stored h a). by rewrite list_lookup_fmap, Ha.
      - intros (k & f & (a & -> & Ha)%list_lookup_fmap_Some & Hn & Hj). by exists k, a. }
    rewrite Hex, <- Hlk. destruct (dlook _ _) as [[j' off]|]; [|naive_solver]. split; [intros [= ->]; by exists off|by intros [off' [= -> _]]].
Qed.

(** With a full last block the size of the root directory is set past its
    blocks: the file system of the image has a directory with a hole. *)
Lemma root_hole h img args : fits h args -> root_size args mod BSIZE = 0 -> returns (main (img :: args) true h start_image) (fun _ s =>
  exists v, (forall b, im_disk s b = v b) /\ let di := get_inode the_sb v ROOTINO in
    di_type di = T_DIR /\ di_size di = root_size args + BSIZE /\ blk v di (root_size args / BSIZE) = 0).
Proof.
  intros Hf Hroot. destruct (main_files h img args Hf) as (s & v & N & [Hb Hfi _ (Hrt & _ & Hrc) _] & HQ). apply HQ. clear HQ. change ROOTINO with 1 in *.
  assert (Hlen : length (stored h <$> args) = length args) by apply length_fmap. pose proof (ft_inodes _ _ Hf) as Hfew. unfold NINODES in Hfew.
  assert (H1 : 1 <= 1 < im_freeinode s) by lia. destruct (built_inum _ _ _ _ Hb H1) as [Hin _]. destruct (bt_used _ _ _ Hb 1 H1) as (_ & Htt & _).
  pose proof (content_size s v N 1 _ Hb H1 Hrc) as Hsz. rewrite length_dir_bytes, Hlen in Hsz. fold (root_size args) in Hsz. set (sz := root_size args) in *.
  assert (Hr : 32 <= sz <= 3200) by (unfold sz, root_size; lia). set (di := set_size (sz + BSIZE) (N 1)).
  destruct (winode_ok s v 1 di (bt_shows _ _ _ Hb) Hin) as (s' & E & Hs' & _). destruct (on_image_done s' _ Hs') as (s'' & E2 & _ & Hd).
  assert (Efix : fix_root_size 1 s = Ret tt s').
  { unfold fix_root_size. rewrite (bind_ret _ _ _ _ _ (rinode_ok s v 1 (bt_shows _ _ _ Hb) Hin)), (bt_nodes _ _ _ Hb 1 Hin). cbn zeta.
    rewrite Hsz, (xint_small sz) by lia. replace ((sz / BSIZE + 1) * BSIZE) with (sz + BSIZE) by (unfold BSIZE in *; zlia).
    rewrite u32_small, xint_small by (unfold BSIZE; lia). exact E. }
  apply (returns_step _ _ _ _ _ _ Efix), (returns_step _ _ s' (im_freeblock s') s'); [reflexivity|]. rewrite E2. clear E E2 Efix.
  assert (Hdi : di_ok di). { destruct (fw_di _ _ _ _ (bt_wf _ _ _ Hb) 1 Hin). split; cbn; try done. unfold BSIZE. lia. }
  assert (Hk : keeps v (v_iupd the_sb v 1 di) (N 1)).
  { apply (wf_iupd the_sb mkfs_env the_sb_ok v N 1 di (bt_wf _ _ _ Hb) Hin); [done|]. by rewrite Hrt. }
  exists (v_iupd the_sb v 1 di). split; [exact Hd|]. cbn zeta.
  rewrite (get_inode_iupd the_sb mkfs_env the_sb_ok v 1 di 1 (fw_blocks _ _ _ _ (bt_wf _ _ _ Hb)) Hin Hin Hdi). cbn [Z.eqb].
  split_and!; [exact Hrt|done|]. unfold blk. change (slot (v_iupd the_sb v 1 di) (N 1) (bslot (sz / BSIZE)) = 0). rewrite (slot_keeps _ _ _ _ Hk).
  assert (Hn : 0 <= sz / BSIZE < 4 /\ blocks_of sz = sz / BSIZE) by (unfold blocks_of, BSIZE in *; zlia). destruct Hn as [Hn Hbn].
  destruct (Z.eq_dec (slot v (N 1) (bslot (sz / BSIZE))) 0) as [|Hne]; [done|]. apply Htt in Hne; [|apply bslot_range; change MAXFILE with 268; lia].
  exfalso. rewrite Hsz in Hne. unfold cost in Hne. rewrite Hbn in Hne. unfold slots_of, bslot in Hne. change NDIRECT with 12 in Hne.
  destruct (Z.ltb_spec 12 (sz / BSIZE)), (Z.ltb_spec (sz / BSIZE) 12); lia.
Qed.
