(* ===== verification/MkfsBoot.v ===== *)
(** A kernel that boots from the image of [mkfs]: [fsinit] finds the
    superblock, an empty log and no orphaned inodes, and leaves the file system
    in the state from which the theorems on system calls start. *)
From S2P Require Import Prelude Bufcache Log LogClaims Bio Txn FileLayer Fs FsBlocks FsInode FsData FsWrite FsTable FsTx FsRefs FsDir FsPath FsTree FsOps Mkfs MkfsOk MkfsClaims.
Local Open Scope kern_scope.

#[local] Opaque sb_block used_bits zeros.

Section Boot.
Context {BC : BufCache}.

(** The superblock that [readsb] makes of a block. *)
Definition sb_of (d : list Z) : superblock :=
  mk_sb (le_at d 0 4) (le_at d 4 4) (le_at d 8 4) (le_at d 12 4) (le_at d 16 4) (le_at d 20 4) (le_at d 24 4) (le_at d 28 4).

Lemma sb_of_block : sb_of (sb_block the_sb) = the_sb.
Proof. vm_compute. reflexivity. Qed.

(** The kernel before [fsinit]: nothing in the cache and no inode in use. *)
Definition no_inodes (tab : Z -> inode) : Prop := forall h, i_ref (tab h) = 0 /\ i_lock (tab h) = false.
Definition start_fsys (x : bc) (sb0 : superblock) (tab : Z -> inode) (msgs : list string) : fsys := mk_fsys (boot_log x) sb0 tab msgs.

Lemma readsb_ok x d sb0 tab msgs : rep x (a_boot d) ->
  returns (readsb ROOTDEV (start_fsys x sb0 tab msgs)) (fun _ s' => exists x', s' = start_fsys x' (sb_of (d 1)) tab msgs /\ rep x' (a_boot d)).
Proof.
  intros Hx. unfold readsb, fbread. eapply lg_bind.
  { apply (zoom_returns l_bc set_bc). eapply bread_spec; [exact Hx|lia|done|done|]. right. exists []. split; [done|]. cbn. lia. }
  intros h l (x1 & -> & Hx1). destruct (held_spec _ _ 1 h Hx1) as [_ Hd]; [apply upd_eq|]. cbn [view a_get a_boot] in Hd.
  unfold fdata. mstep. cbn [l_bc f_log put_log set_bc]. rewrite Hd. mstep. unfold fbrelse. eapply returns_mono.
  { apply lg_last, (zoom_returns l_bc set_bc). eapply (brelse_spec _ _ 1); [exact Hx1|apply upd_eq|done]. }
  intros [] s' (l & -> & x2 & -> & Hx2). exists x2. split; [done|]. eapply rep_ext; [exact Hx2|].
  split; try done; intros b; cbn; unfold upd; destruct (Z.eqb_spec b 1) as [->|]; done.
Qed.

(** An empty log: recovery changes nothing. *)
Lemma empty_log d st : d st = zeros -> head_ok st d /\ forall b, replay st d b = d b.
Proof.
  intros Hd. assert (Hn : hd_n (d st) = 0) by (rewrite Hd; unfold hd_n; by rewrite le_at_zeros). split.
  - split; rewrite Hn; [split; [lia|done]|lia|lia].
  - intros b. unfold replay. rewrite Hn. done.
Qed.

Lemma log_booted x d : rep x (a_boot d) -> blocks_ok d -> d 2 = zeros ->
  returns (initlog ROOTDEV 2 (boot_log x)) (fun _ l => exists e, at_rest e l d /\ te_start e = 2).
Proof.
  intros Hx Hd H2. destruct (empty_log d 2 H2) as [Hok Hrp]. eapply returns_mono; [apply (recover_from x 2 d); try done|].
  intros [] l (a & f & Hinv & Hq & Hn & Hs & Ho & Hc & _ & _ & Hb). exists (mk_env (l_start l) 0 (disk a) (writes a)). split; [|done].
  apply rest_intro; try done. rewrite Hs. intros b Hh. destruct (Hb b Hh) as [-> ->]. by rewrite Hrp.
Qed.

(** No inode without links is in use, so [ireclaim] only reads. *)
Lemma ireclaim_ok e s v N tab : fx the_sb e s v ∅ ∅ tab -> sb_ok the_sb e -> (forall i, inum_ok the_sb i -> get_inode the_sb v i = N i) ->
  (forall i, inum_ok the_sb i -> di_type (N i) <> 0 -> di_nlink (N i) = 1) ->
  returns (ireclaim ROOTDEV s) (fun _ s' => fx the_sb e s' v ∅ ∅ tab).
Proof.
  intros Hfx Hsb Hn Hl. unfold ireclaim. eapply fx_getsb; [exact Hfx|].
  apply (for_loop_returns (fun _ s' => fx the_sb e s' v ∅ ∅ tab)); [exact Hfx|].
  intros i s' Hi F. change (sb_ninodes the_sb) with 200 in Hi. assert (Hin : inum_ok the_sb i) by (split; [lia|change (sb_ninodes the_sb) with 200; lia]).
  destruct (iblock_ib _ _ Hsb i Hin) as [Hib _]. pose proof (ib_home _ _ Hsb _ Hib) as Hh. unfold ireclaim_inode. eapply fx_getsb; [exact F|].
  pose proof (fx_clean _ _ _ _ _ _ _ F _ Hh (lookup_empty _)) as Hcl.
  eapply fx_bread; [exact F|exact Hh|apply lookup_empty|done|]. intros h s1 F1.
  eapply (fx_data _ _ _ _ _ _ _ _ F1); [apply lookup_insert_eq|exact Hh|]. change (get_dinode _ _) with (get_inode the_sb v i). rewrite Hn by done. cbn zeta.
  assert (Hc : negb (di_type (N i) =? 0) && (di_nlink (N i) =? 0) = false).
  { destruct (Z.eqb_spec (di_type (N i)) 0) as [|Ht]; [done|]. rewrite (Hl i Hin Ht). done. }
  rewrite Hc. mstep. eapply (fx_brelse _ _ _ _ _ _ _ _ F1); [apply lookup_insert_eq|exact Hh|exact Hcl|]. intros s2 F2. cbn.
  eapply fx_sets; [exact F2| |done]. by rewrite delete_insert_eq, delete_id.
Qed.

Lemma fsinit_ok h args x d v N sb0 tab msgs : rep x (a_boot d) -> (forall b, d b = v b) -> mkfs_made h args v N -> no_inodes tab ->
  returns (fsinit ROOTDEV (start_fsys x sb0 tab msgs)) (fun _ s' => exists e, fs_idle the_sb e s' v N (fun _ => None) /\ te_start e = 2).
Proof.
  intros Hx Hv [Hsup Hlog Hbl Hw Hck Hnd _ Hlk _ _] Htab. unfold fsinit.
  eapply bind_returns; [apply (readsb_ok x d), Hx|]. intros [] s1 (x1 & -> & Hx1). mstep. cbn [f_sb start_fsys].
  rewrite Hv, Hsup, sb_of_block. change (negb (sb_magic the_sb =? FSMAGIC)) with false. change (sb_logstart the_sb) with 2. cbv iota.
  eapply lg_bind; [apply log_booted; [exact Hx1|intros b; rewrite Hv; apply Hbl|rewrite Hv; apply Hlog; done]|].
  intros [] l (e & (Ht & Ho & Hd) & He). assert (Hsb : sb_ok the_sb e) by (eapply sb_ok_env; [|exact the_sb_ok]; by rewrite He).
  assert (F0 : fx the_sb e (put_log l (start_fsys x1 the_sb tab msgs)) v ∅ ∅ tab) by (eapply fx_view; [|exact Hv]; by split).
  eapply returns_mono; [by eapply (ireclaim_ok e _ v N tab)|]. intros [] s' F. exists e. split; [|done]. split. exists tab. split; [|by intros hd _; apply Htab].
  split; try done.
  - intros b Hb. rewrite <- Hv. by apply Hd.
  - eapply fs_wf_env; [|exact Hw]. by rewrite He.
  - split; intros h0 Hh0; destruct (Htab h0); (done || lia).
Qed.

(** C6: The image that [mkfs] writes.  For every list of files that fits (each
    can be read, the stored names are distinct and at most [DIRSIZ] bytes, there
    are inodes and blocks enough) and does not fill the last block of the root
    directory the program ends normally with an image of
    [FSSIZE] blocks that is a consistent file system: no block belongs to two
    places, the bitmap marks the reserved blocks and as many others as the files
    need, every inode has one link for each name, and the names in the root directory are [.],
    [..] and those of the files, each leading to an inode with the bytes of its
    file.  A kernel that boots from this image with [fsinit] recovers an empty
    log, reclaims nothing and reaches the state between system calls with this
    file system, in which the theorems on [open], [read], [write], [link],
    [unlink] and [mknod] apply. *)
Theorem mkfs_image_boots (h : host) (img : list Z) (args : list (list Z)) (Hfits : fits h args) (Hroot : root_size args mod BSIZE <> 0) :
  returns (main (img :: args) true h start_image) (fun _ s => im_len s = FSSIZE /\ exists v N,
    (forall b, im_disk s b = v b) /\ mkfs_made h args v N /\
    forall sb0 tab msgs, no_inodes tab ->
      returns (fsinit ROOTDEV (start_fsys (bboot (im_disk s)) sb0 tab msgs)) (fun _ k => exists e,
        fs_idle the_sb e k v N (fun _ => None) /\ te_start e = 2)).
Proof.
  eapply returns_mono; [by apply main_ok|]. intros [] s (Hlen & v & N & Hv & Hm). split; [done|]. exists v, N. split_and!; try done.
  intros sb0 tab msgs Htab. eapply fsinit_ok; try done. apply bboot_spec. intros b. rewrite Hv. apply (mk_blocks _ _ _ _ Hm).
Qed.
End Boot.

(** An image with the file [c], given as [user/_c] and read in two pieces. *)
Definition demo_arg : list Z := [117; 115; 101; 114; 47; 95; 99].
Definition demo_host : host := fun a => if bool_decide (a = demo_arg) then Some [[1; 2; 3]; [4]] else None.

Lemma demo_fits : fits demo_host [demo_arg].
Proof.
  split.
  - intros a ->%list_elem_of_singleton. exists [[1; 2; 3]; [4]]. split_and!; [reflexivity|repeat constructor; done|vm_compute; congruence].
  - intros a ->%list_elem_of_singleton. change (shortname demo_arg) with [95; 99]. change (stored_name demo_arg) with [99].
    split_and!; [apply (bool_decide_unpack _); vm_compute; exact I|vm_compute; congruence|repeat constructor; done].
  - apply (bool_decide_unpack _). vm_compute. exact I.
  - vm_compute. congruence.
  - vm_compute. congruence.
Qed.

Lemma mkfs_image_boots_witness : fits demo_host [demo_arg] /\
  returns (main [[120]; demo_arg] true demo_host start_image) (fun _ s => exists v N,
    walk v N ROOTINO [[99]] = Some 2 /\ fcontent v (N 2) = [1; 2; 3; 4] /\
    returns (fsinit ROOTDEV (start_fsys (bboot (im_disk s)) (mk_sb 0 0 0 0 0 0 0 0) (fun _ => mk_inode 0 0 0 false false (new_di 0)) []))
      (fun _ k => exists e, fs_idle the_sb e k v N (fun _ => None))).
Proof.
  split; [exact demo_fits|]. eapply returns_mono.
  { apply (mkfs_image_boots demo_host [120] [demo_arg] demo_fits). vm_compute. congruence. }
  intros [] s (_ & v & N & _ & Hm & Hboot). exists v, N. split_and!.
  - apply (mk_names _ _ _ _ Hm). right. right. exists 0%nat, demo_arg. repeat split; reflexivity.
  - destruct (mk_file _ _ _ _ Hm 0%nat demo_arg eq_refl) as (_ & _ & Hc). exact Hc.
  - eapply returns_mono; [apply Hboot; intros hd; split; reflexivity|]. intros [] k (e & Hi & _). exists e. exact Hi.
Defined.
